(* ===== verification/_CoqProject ===== *)
-Q . S2P
Prelude.v
Bytes.v
Machine.v
AddressSpace.v
Iommu.v
Devices.v
Memory.v
Virtio.v
Msix.v
Pci.v
PciTheorems.v
VirtioPci.v
GuestDma.v
VirtioBlk.v
EventLoop.v
VirtioNet.v
Sync.v
RiscvIommu.v
Serial.v
Fdt.v
VirtFdt.v
Boot.v
Cli.v
KvmIrq.v
Aia.v
MsixIrqfd.v
Vcpu.v
RiscvCpu.v
Sbi.v
VcpuThread.v
Kvm.v
VirtMachine.v
