(* ===== verification/Prelude.v ===== *)
(** * VART: a RISC-V virtual machine monitor, verified

    VART runs a RISC-V guest under KVM.  The program under [src/] consists of
    - a core ([src/core]): address spaces made of prioritised regions, devices on
      buses, interrupt lines, guest memory;
    - an IOMMU layer ([src/iommu]): contexts that translate DMA through Sv39 or
      Sv39x4 page tables with a translation cache;
    - device models ([src/hw]): PCI with MSI-X and DMA, the RISC-V IOMMU, virtio
      (queues, block, net, PCI transport), a 16550 UART with a console, a test
      device;
    - the boot path ([src/boot], [src/machine]): the device-tree builder, the image
      loader, the board;
    - the host side ([src/kvm], [src/arch], [src/event], [src/main.c], [src/cli.c]):
      ioctls, threads, the event loop, the command line.

    A guest access to a device enters through an address space, which finds the
    region with the highest priority and calls its MMIO callbacks.  A device reads
    and writes guest memory through the address space of its bus or, when an IOMMU
    context is attached to it, through that context, whose translator walks the
    guest's page tables.  A device signals the guest through an interrupt line or
    through MSI-X, whose messages the RISC-V IOMMU may remap.

    ** How the code is modelled

    A C object is a record of the same fields, held in the heap [World] of
    [Machine.v] under an identifier that stands for its address.  A pointer is an
    [option] of an identifier.  An operation is a Rocq function of the same name in
    the monad [M World] of this file: it returns the value the C function returns
    (an out-parameter is returned next to it) or it reaches [UB], undefined
    behaviour such as an access outside an array, or [NoFuel].  Integers are [Z]
    with the wrap-around of their C type written out ([u8], [u16], [u32], [u64]).
    Whether an allocation succeeds is told by [w_oom].  Function pointers are names;
    callbacks that belong to another component, and the host kernel, are parameters
    of the definitions, given as type classes, with what the code relies on stated
    as named hypotheses.

    ** The files

    - [Prelude.v] (this file): integers, error codes, the monad and its total
      correctness predicate [wp], record updates, bit and list lemmas, tactics.
    - [Bytes.v]: little-endian integers, host memory and [memcpy].
    - [Machine.v]: the structs of [include/vart] and the heap.
    - [AddressSpace.v]: [core/address-space.c].
    - [Iommu.v]: [iommu/iommu.c].
    - [Devices.v]: [core/irq.c], [core/device.c], [core/bus.c].
    - [Memory.v]: [core/memory.c].
    - [Virtio.v]: [hw/virtio/virtio.c].
    - [Msix.v]: the MSI-X and DMA part of [hw/pci/pci.c].
    - [Pci.v]: the rest of [hw/pci/pci.c]: configuration space, base address
      registers, capabilities, buses, bridges, switches, the root complex;
      [PciTheorems.v]: what is proved of it.
    - [VirtioPci.v]: [hw/virtio/virtio-pci.c], the registers through which a driver
      sets a virtio device up.
    - [GuestDma.v]: the interface between a virtio device and guest memory: what the
      DMA of a PCI function guarantees, and the queue operations on top of it.
    - [VirtioBlk.v]: [hw/virtio/virtio-blk.c].
    - [EventLoop.v]: [event/event-loop.c].
    - [VirtioNet.v]: [hw/virtio/virtio-net.c].
    - [Sync.v]: [event/sync.c] with [CONFIG_DEBUG_LOCKS]; it has a state of its own,
      the mutexes and the stacks of the threads.
    - [RiscvIommu.v]: [hw/riscv/riscv-iommu.c].
    - [Serial.v]: [hw/char/uart16550.c], [hw/char/console.c],
      [hw/misc/test-device.c].
    - [Fdt.v]: [boot/fdt.c].
    - [VirtFdt.v]: [machine/virt-fdt.c], the device tree of the board.
    - [Boot.v]: [machine/virt-loader.c], the layout of the images in guest memory.
    - [Cli.v]: [cli.c].
    - [KvmIrq.v]: the notifiers of [event/eventfd.c], [kvm/kvm-device.c],
      [kvm/kvm-irqfd.c], [kvm/kvm-ioeventfd.c] and [kvm/kvm-irq-routing.c].
    - [Aia.v]: [arch/riscv/riscv-aia.c] and [hw/pci/pci-msix-aia.c].
    - [MsixIrqfd.v]: [hw/pci/pci-msix-irqfd.c].
    - [Vcpu.v]: [kvm/vcpu.c] and [event/exec.c]; [VcpuThread.v]: the worker thread of a
      vCPU, the threads that stop and kick it and the signal, as a step relation.
    - [RiscvCpu.v]: [arch/riscv/riscv-cpu.c].
    - [Sbi.v]: [arch/riscv/riscv-sbi.c].
    - [Kvm.v]: [kvm/kvm.c], [kvm/vm.c] and [arch/riscv/riscv-kvm.c].
    - [VirtMachine.v]: [machine/virt-machine.c], the board: the calls it makes of the other
      components, with arbitrary answers, are put on record ([recorder]), and [allowed]
      says when each is in order.

    ** What the theorems show

    The theorems marked C1 to C40 are the main ones; other theorems of the same files
    (for instance [reachable_heap_ok], [virtio_reachable_ok], [event_registry_consistent],
    [bindings_consistent], [console_input_in_order], [ecam_routing], [sbi_add_keeps_apart],
    [aia_init_correct], [core_registers_roundtrip], [kvm_open_or_nothing],
    [virt_fdt_tree_linked], [slot_conflict_refused]) stand beside them.

    - Address spaces: a lookup finds exactly the region that answers an access
      ([find_iff_resolves]); RAM accesses stay inside the region and read back what was
      written ([ram_access_correct]).
    - IOMMU contexts: the cached translation agrees with the page-table walk while the
      tables do not change ([cached_translation_correct]); an invalidation restores
      coherence and drops no translation outside its range
      ([invalidate_restores_coherence]); a DMA access acts on the translated bytes, as
      long as the leaves it writes through are dirty ([iommu_dma_correct],
      [dirty_bit_bypass]).
    - Virtio queues: taking a descriptor chain off a queue ends and is safe for every
      guest memory ([pop_safe]) and gives the chain that the guest wrote ([pop_correct]).
    - Virtio PCI transport: no sequence of guest accesses leads to undefined behaviour
      ([virtio_pci_guest_safe]).
    - Virtio block: no guest changes a byte of the disk outside its capacity, nor any byte
      of a read-only disk ([blk_disk_protected]), and a transfer does what a reference
      definition on whole byte sequences does ([blk_io_matches_reference]).
    - Virtio net: transmission is safe for every guest ([net_transmit_guest_safe]), and
      exactly which receive chains stay inside the frame buffer ([rx_copy_in_bounds_iff]).
    - Event loop: a turn calls no source back for readiness that was polled for an earlier
      registration ([run_once_no_stale_events]).
    - Locks: the bookkeeping of the checker is that of the POSIX mutexes
      ([locks_consistent]), and of threads that take ranked locks in order no set
      waits for itself ([ranked_locks_no_deadlock]).
    - MSI-X: an interrupt is delivered or stays pending ([raise_never_lost]); through the
      AIA it reaches the hart that its address names ([msix_reaches_hart]); through an
      irqfd the kernel injects the message of the route ([irqfd_delivers]), and nothing is
      left in the kernel when the back end goes away ([irqfd_destroy_releases]).  The
      routing table is a finite map and the kernel holds the last one committed
      ([routing_refines_map]).
    - RISC-V IOMMU: the device directory walk is the documented one while the tables are
      below 2^52 ([ddt_binding_correct], [ddtp_base_truncated]), and the command queue
      drains ([command_queue_drains]).
    - Device tree and boot: the blob that is built reads back as the tree that the calls
      described ([fdt_roundtrip]); the tree of the board is the one of a reference
      definition ([virt_fdt_build_correct]); the images do not overlap
      ([boot_layout_keeps_apart]) and are loaded wholly or reported as failed
      ([boot_load_all_or_nothing]).
    - Command line: accepted options are in range ([cli_options_typed]) and printed options
      parse back ([cli_print_parse]).
    - PCI configuration: the guest finds the capabilities by walking their list
      ([capability_list_correct]) and cannot give two buses one number or two functions one
      requester identifier ([bus_numbers_stay_unique]).
    - vCPUs: the list of the VM is that of the live vCPUs ([vm_list_refines]); a shutdown
      reaches every worker ([shutdown_reaches_every_worker]); an MMIO load is served
      ([mmio_load_served]); a worker that is told to stop ends and one that is kicked
      reports it, whatever the guest does ([stop_ends_worker], [kick_is_reported]).
    - vCPU registers: a hart enters the kernel in the documented state
      ([boot_entry_state]); the cached registers agree with the kernel's
      ([core_cache_coherent]).
    - SBI: a call reaches the one handler that is registered for it
      ([sbi_call_reaches_handler]).
    - KVM: a guest is accepted exactly when the kernel offers what it needs
      ([boot_contract_exact]).
    - Board: whatever its calls answer, each is made only while the objects it works on
      have been created and not given back, and an object is given back only after what is
      built on it; when the creation fails at any step, and when a machine that was set up,
      started and joined in any order is destroyed, the call that gives it back has been
      made for every object ([machine_life_cycle]).  Without the switch a machine with a network
      device and a disk cannot be created ([slot_conflict_refused]).

    ** Fuel

    Loops without a structural measure take a bound.  Buffer accesses recurse
    through at most one translator, so two steps are enough ([AddressSpace.v],
    [Iommu.v]); a descriptor chain visits a descriptor at most once, so
    [pop_fuel = 1025] is enough for the largest queue ([pop_safe]); a disk transfer
    moves at least one byte per call ([blk_io_matches_reference]); the command loop of
    the RISC-V IOMMU runs [(tail - head) mod 2^32] times ([command_queue_drains]);
    draining the console delivers at most one byte before the UART is full ([Serial.v]);
    the search in the strings of a device tree moves at least one byte at a time
    ([fdt_roundtrip]); the walks up and down the PCI buses take at most as many steps as
    the bus tree is high, and a list of capabilities has at most 96 entries
    ([capability_list_correct]); the bits of a hart index are counted in at most 64 steps;
    the walks over the lists of vCPUs and of SBI handlers take as many steps as the lists
    are long.  The theorems named here prove that these bounds suffice.  Two loops have no
    bound: a notification is served as long as the queue has chains, and a guest can have
    the device itself write new ones into its ring; and a call that a signal
    interrupted is repeated.  [virtio_pci_guest_safe], [blk_disk_protected] and
    [net_transmit_guest_safe] hold for every number of rounds of these loops, and
    elsewhere the host does not interrupt a call for ever.

    ** What is not modelled

    - [machine/virt-machine-loader.c], which reads the boot files, and [main.c]: they
      compose the operations that are modelled.
    - What the components do with the calls of [VirtMachine.v] is not part of that file: it
      is about which calls the board makes, and when.  A call that gives an object back may
      be refused; [realized_stays_bound] in [RiscvIommu.v] is about one that is.
    - [hw/virtio/virtio-pci-ioeventfd.c] and the part of [event/eventfd.c] that attaches a
      notifier to the event loop: the notification they deliver is modelled with the
      transport.
    - Locks inside the devices: each operation runs in one piece, so the theorems
      are about the interleavings of whole operations, which is what the locks of the
      code establish; [Sync.v] is about the locks themselves and [VcpuThread.v] about the
      threads of a vCPU.
    - The host kernel (ioctls, descriptors, files, threads) is a parameter; host signals,
      the terminal and the thread of the event loop ([event/host-signal.c],
      [event/terminal.c], [event/runtime.c]) are host input and output only. *)

From stdpp Require Import base tactics numbers list gmap.
From Stdlib Require Import ZArith Lia.

#[export] Set Warnings "-clear-no-such-hyp".
#[global] Open Scope Z_scope.

Declare Scope vart_scope.
Delimit Scope vart_scope with vart.
#[global] Open Scope vart_scope.

(** * Machine integers

    A [w]-bit unsigned C integer is a [Z]; the wrap-around of an assignment to
    such a variable is written out with [u8], [u16], [u32] or [u64]. *)

Abbreviation UINT8_MAX := 255 (only parsing).
Abbreviation UINT16_MAX := 65535 (only parsing).
Abbreviation UINT32_MAX := 4294967295 (only parsing).
Abbreviation UINT64_MAX := 18446744073709551615 (only parsing).
Abbreviation SIZE_MAX := 18446744073709551615 (only parsing).
Abbreviation INT_MAX := 2147483647 (only parsing).

Definition u8 (x : Z) : Z := x mod 256.
Definition u16 (x : Z) : Z := x mod 65536.
Definition u32 (x : Z) : Z := x mod 4294967296.
Definition u64 (x : Z) : Z := x mod 18446744073709551616.

(** [x & m] tested as a C condition. *)
Definition bits (x m : Z) : bool := negb (Z.land x m =? 0).

(** * Error codes of Linux [errno.h] *)

Abbreviation EPERM := 1 (only parsing).
Abbreviation ENOENT := 2 (only parsing).
Abbreviation EIO := 5 (only parsing).
Abbreviation EAGAIN := 11 (only parsing).
Abbreviation ENOMEM := 12 (only parsing).
Abbreviation EACCES := 13 (only parsing).
Abbreviation EFAULT := 14 (only parsing).
Abbreviation EBUSY := 16 (only parsing).
Abbreviation EEXIST := 17 (only parsing).
Abbreviation ENODEV := 19 (only parsing).
Abbreviation EINVAL := 22 (only parsing).
Abbreviation EFBIG := 27 (only parsing).
Abbreviation ENOSPC := 28 (only parsing).
Abbreviation ERANGE := 34 (only parsing).
Abbreviation ENOSYS := 38 (only parsing).
Abbreviation ELOOP := 40 (only parsing).
Abbreviation EPROTO := 71 (only parsing).
Abbreviation EOVERFLOW := 75 (only parsing).
Abbreviation ENOTSUP := 95 (only parsing).
Abbreviation ENOTCONN := 107 (only parsing).
Abbreviation EALREADY := 114 (only parsing).

(** * Outcomes and the state monad

    [UB] is C undefined behaviour reached by the modelled code (a dangling
    pointer, a byte outside a mapping); [NoFuel] says that the recursion bound
    given to the model was too small.  Neither is a value the C code returns. *)

Inductive outcome (A : Type) : Type :=
| Ok (a : A)
| UB
| NoFuel.
Arguments Ok {A} a.
Arguments UB {A}.
Arguments NoFuel {A}.

Definition M (W A : Type) : Type := W -> outcome (A * W).

Section Monad.
Context {W : Type}.

Definition ret {A} (a : A) : M W A := fun w => Ok (a, w).

Definition bind {A B} (m : M W A) (k : A -> M W B) : M W B :=
  fun w => match m w with
           | Ok (a, w') => k a w'
           | UB => UB
           | NoFuel => NoFuel
           end.

Definition get : M W W := fun w => Ok (w, w).
Definition put (w : W) : M W unit := fun _ => Ok (tt, w).
Definition modify (f : W -> W) : M W unit := fun w => Ok (tt, f w).
Definition undefined {A} : M W A := fun _ => UB.
Definition out_of_fuel {A} : M W A := fun _ => NoFuel.

(** The value behind a pointer; dereferencing a dangling one is undefined. *)
Definition deref {A} (o : option A) : M W A :=
  match o with Some a => ret a | None => undefined end.

Definition gets {A} (f : W -> A) : M W A := fun w => Ok (f w, w).
End Monad.

Notation "'let*' x := m 'in' k" := (bind m (fun x => k))
  (at level 10, x pattern, m at level 100, k at level 200) : vart_scope.
Notation "m ;;; k" := (bind m (fun _ => k))
  (at level 100, k at level 200, right associativity) : vart_scope.

(** * Record updates

    [r <| field := v |>] is the C assignment [r.field = v].  A record type [R]
    gives its constructor applied to its own projections once ([rebuild]); the
    setter of a field replaces that projection in it. *)

Definition env_const {E T : Type} (v : T) : E -> T := fun _ => v.
Definition env_app {E A B : Type} (f : E -> A -> B) (x : E -> A) : E -> B :=
  fun e => f e (x e).

Class Rebuild (R : Type) := rebuild : R -> R.
Class Setter {R T : Type} (field : R -> T) := update : (T -> T) -> R -> R.
Arguments update {R T} field {Setter} _ _.

Ltac derive_setter :=
  match goal with
  | |- @Setter ?R ?T ?field =>
      let c := constr:(rebuild : R -> R) in
      let c := eval cbv [rebuild] in c in
      let c := match c with ?i => eval unfold i in i | _ => c end in
      match eval pattern field in c with
      | ?g _ => let s := constr:(fun f : T -> T => g (fun r => f (field r))) in
                let s := eval cbv beta delta [env_app env_const] in s in
                exact s
      end
  end.

#[export] Hint Extern 0 (Setter _) => derive_setter : typeclass_instances.

Notation "f '$*' x" := (env_app f x) (at level 61, left associativity)
  : vart_scope.
Notation "r <| field := v |>" := (update field (fun _ => v) r)
  (at level 1, left associativity, field constr, v at level 200,
   format "r  <|  field  :=  v  |>") : vart_scope.
Notation "r <| field '::=' f |>" := (update field f r)
  (at level 1, left associativity, field constr, f at level 200,
   format "r  <|  field  ::=  f  |>") : vart_scope.

(** * Reasoning about computations

    [wp m Q w]: run from [w], the computation [m] reaches no undefined
    behaviour, does not run out of fuel, and its result and final state
    satisfy [Q] (total correctness). *)

Definition wp {W A} (m : M W A) (Q : A -> W -> Prop) (w : W) : Prop :=
  match m w with Ok (a, w') => Q a w' | _ => False end.

Section Wp.
Context {W : Type}.
Implicit Types w : W.

Lemma wp_ok {A} (m : M W A) Q w :
  wp m Q w <-> exists a w', m w = Ok (a, w') /\ Q a w'.
Proof.
  unfold wp; split.
  - destruct (m w) as [[a w']| |]; [eauto | done | done].
  - by intros (a & w' & -> & ?).
Qed.

Lemma wp_bind {A B} (m : M W A) (k : A -> M W B) Q w :
  wp m (fun a w' => wp (k a) Q w') w -> wp (bind m k) Q w.
Proof. unfold wp, bind. by destruct (m w) as [[a w']| |]. Qed.

Lemma wp_mono {A} (m : M W A) (Q R : A -> W -> Prop) w :
  wp m Q w -> (forall a w', Q a w' -> R a w') -> wp m R w.
Proof. unfold wp. destruct (m w) as [[a w']| |]; auto. Qed.

Lemma wp_elim {A} (m : M W A) (Q : A -> W -> Prop) w a w' :
  wp m Q w -> m w = Ok (a, w') -> Q a w'.
Proof. unfold wp. intros H E. by rewrite E in H. Qed.

Lemma wp_ret {A} (a : A) (Q : A -> W -> Prop) w : Q a w -> wp (ret a) Q w.
Proof. done. Qed.
Lemma wp_get (Q : W -> W -> Prop) w : Q w w -> wp get Q w.
Proof. done. Qed.
Lemma wp_gets {A} (f : W -> A) (Q : A -> W -> Prop) w :
  Q (f w) w -> wp (gets f) Q w.
Proof. done. Qed.
Lemma wp_put w' (Q : unit -> W -> Prop) w : Q tt w' -> wp (put w') Q w.
Proof. done. Qed.
Lemma wp_modify (f : W -> W) (Q : unit -> W -> Prop) w :
  Q tt (f w) -> wp (modify f) Q w.
Proof. done. Qed.

Lemma wp_deref {A} (o : option A) a Q w :
  o = Some a -> Q a w -> wp (deref o) Q w.
Proof. by intros ->. Qed.

Lemma bind_Ok {A B} (m : M W A) (k : A -> M W B) w r :
  bind m k w = Ok r -> exists a w', m w = Ok (a, w') /\ k a w' = Ok r.
Proof. unfold bind. destruct (m w) as [[a w']| |]; [eauto | done | done]. Qed.

Lemma bind_eq {A B} (m : M W A) (k : A -> M W B) w a w' :
  m w = Ok (a, w') -> bind m k w = k a w'.
Proof. unfold bind. by intros ->. Qed.

Lemma bind_bind {A B C} (m : M W A) (k : A -> M W B) (h : B -> M W C) w :
  bind (bind m k) h w = bind m (fun a => bind (k a) h) w.
Proof. unfold bind. by destruct (m w) as [[a w']| |]. Qed.

Lemma deref_Ok {A} (o : option A) w r :
  deref o w = Ok r -> exists a, o = Some a /\ r = (a, w).
Proof. destruct o; unfold deref, ret, undefined; intros; simplify_eq; eauto. Qed.
End Wp.

(** Peel a hypothesis saying that a computation returned. *)
Ltac inv_ok_step :=
  match goal with
  | H : bind _ _ _ = Ok _ |- _ => apply bind_Ok in H as (? & ? & ? & H)
  | H : ret _ _ = Ok _ |- _ => unfold ret in H; simplify_eq
  | H : get _ = Ok _ |- _ => unfold get in H; simplify_eq
  | H : put _ _ = Ok _ |- _ => unfold put in H; simplify_eq
  | H : modify _ _ = Ok _ |- _ => unfold modify in H; simplify_eq
  | H : gets _ _ = Ok _ |- _ => unfold gets in H; simplify_eq
  | H : undefined _ = Ok _ |- _ => discriminate H
  | H : out_of_fuel _ = Ok _ |- _ => discriminate H
  | H : deref _ _ = Ok _ |- _ => apply deref_Ok in H as (? & ? & H); simplify_eq
  | H : (if ?b then _ else _) _ = Ok _ |- _ => destruct b eqn:?
  | H : (match ?o with Some _ => _ | None => _ end) _ = Ok _ |- _ =>
      destruct o eqn:?
  | H : (let '(_, _) := ?p in _) _ = Ok _ |- _ => destruct p eqn:?
  | H : (match ?p with (_, _) => _ end) _ = Ok _ |- _ => destruct p eqn:?
  end.
Ltac inv_ok := repeat (inv_ok_step; simplify_eq).

(** Run a goal [wp m Q w] or [m w = Ok _] forward by computation. *)
Ltac run_unfold :=
  unfold wp, deref, bind, ret, get, put, modify, gets, undefined, out_of_fuel.

(** * Arithmetic automation *)

(** [lia] with quotients and remainders by constants. *)
Ltac mlia := unfold u8, u16, u32, u64 in *; Z.to_euclidean_division_equations; lia.

Create HintDb vart discriminated.
Create HintDb vart_rw.

Lemma u64_small x : 0 <= x <= UINT64_MAX -> u64 x = x.
Proof. intros. apply Z.mod_small. lia. Qed.
Lemma u64_range x : 0 <= u64 x <= UINT64_MAX.
Proof. mlia. Qed.
Lemma u32_small x : 0 <= x <= UINT32_MAX -> u32 x = x.
Proof. intros. apply Z.mod_small. lia. Qed.
Lemma u32_range x : 0 <= u32 x <= UINT32_MAX.
Proof. mlia. Qed.
Lemma u16_small x : 0 <= x <= UINT16_MAX -> u16 x = x.
Proof. intros. apply Z.mod_small. lia. Qed.
Lemma u16_range x : 0 <= u16 x <= UINT16_MAX.
Proof. mlia. Qed.
Lemma u8_range x : 0 <= u8 x <= UINT8_MAX.
Proof. mlia. Qed.
Lemma u8_small x : 0 <= x <= UINT8_MAX -> u8 x = x.
Proof. intros. apply Z.mod_small. lia. Qed.
#[export] Hint Resolve u8_range u16_range u32_range u64_range : vart.

(** [x & (2^k - 1)] keeps the low [k] bits. *)
Lemma land_low_mask x k : 0 <= k -> Z.land x (2 ^ k - 1) = x mod 2 ^ k.
Proof.
  intros. rewrite <- Z.land_ones by lia. by rewrite Z.ones_equiv.
Qed.

Lemma land_nonneg_le x m : 0 <= m -> 0 <= Z.land x m <= m.
Proof.
  intros Hm. split; [apply Z.land_nonneg; lia|].
  destruct (Z.eq_dec (Z.land x m) 0) as [->|Hne]; [done|].
  assert (0 <= Z.land x m) by (apply Z.land_nonneg; lia).
  assert (Z.ldiff m (Z.land x m) = m - Z.land x m) as Hd.
  { symmetry. apply Z.sub_nocarry_ldiff. apply Z.bits_inj'. intros n Hn.
    rewrite Z.ldiff_spec, Z.land_spec, Z.bits_0.
    by destruct (Z.testbit x n), (Z.testbit m n). }
  assert (0 <= Z.ldiff m (Z.land x m)); [|lia].
  apply Z.ldiff_nonneg. lia.
Qed.

(** [x & ~(2^k - 1)] rounds down to a multiple of [2^k]. *)
Lemma land_high_mask x k :
  0 <= k -> Z.land x (Z.lnot (2 ^ k - 1)) = x - x mod 2 ^ k.
Proof.
  intros. rewrite <- land_low_mask by done.
  rewrite <- Z.ldiff_land. symmetry.
  rewrite Z.sub_nocarry_ldiff.
  - apply Z.bits_inj'. intros n Hn. rewrite !Z.ldiff_spec, Z.land_spec.
    by destruct (Z.testbit x n), (Z.testbit (2 ^ k - 1) n).
  - apply Z.bits_inj'. intros n Hn.
    rewrite Z.ldiff_spec, Z.land_spec, Z.bits_0.
    by destruct (Z.testbit x n), (Z.testbit (2 ^ k - 1) n).
Qed.

Lemma testbit_above a k n : 0 <= a < 2 ^ k -> k <= n -> Z.testbit a n = false.
Proof.
  intros Ha Hn. assert (0 <= k) by (destruct (Z.neg_nonneg_cases k); [|lia];
    rewrite Z.pow_neg_r in Ha by done; lia).
  rewrite <- (Z.mod_small a (2 ^ k)) by done.
  by apply Z.mod_pow2_bits_high.
Qed.

(** A low part and a shifted high part have no bit in common: [|] adds them. *)
Lemma lor_shiftl_add a b k :
  0 <= k -> 0 <= a < 2 ^ k -> Z.lor a (Z.shiftl b k) = a + 2 ^ k * b.
Proof.
  intros Hk Ha. rewrite <- (Z.mul_comm b), <- Z.shiftl_mul_pow2 by done.
  assert (Z.land a (Z.shiftl b k) = 0) as Hd.
  { apply Z.bits_inj'. intros n Hn. rewrite Z.land_spec, Z.bits_0.
    destruct (Z.lt_ge_cases n k).
    - by rewrite Z.shiftl_spec_low, andb_false_r.
    - by rewrite (testbit_above a k). }
  pose proof (Z.add_lor_land a (Z.shiftl b k)). lia.
Qed.

Lemma bits_true x m : bits x m = true <-> Z.land x m <> 0.
Proof. unfold bits. lia. Qed.
Lemma bits_false x m : bits x m = false <-> Z.land x m = 0.
Proof. unfold bits. lia. Qed.

(** A one-bit mask tests one bit. *)
Lemma bits_pow2 x k : 0 <= k -> bits x (2 ^ k) = Z.testbit x k.
Proof.
  intros Hk. unfold bits.
  assert (Z.land x (2 ^ k) = if Z.testbit x k then 2 ^ k else 0) as ->.
  { apply Z.bits_inj'. intros n Hn. rewrite Z.land_spec, Z.pow2_bits_eqb by done.
    destruct (Z.eqb_spec k n) as [<-|].
    - destruct (Z.testbit x k); [by rewrite Z.pow2_bits_true|by rewrite Z.bits_0].
    - rewrite andb_false_r. destruct (Z.testbit x k); [|by rewrite Z.bits_0].
      by rewrite Z.pow2_bits_false. }
  destruct (Z.testbit x k); [|done].
  assert (0 < 2 ^ k) by lia. lia.
Qed.

(** * Lists *)

Section Lists.
Context {A : Type}.
Implicit Types l : list A.

Lemma filter_all (P : A -> Prop) `{forall x, Decision (P x)} l :
  Forall P l -> filter P l = l.
Proof.
  induction 1 as [|x l Hx Hl IH]; [done|].
  by rewrite filter_cons_True, IH.
Qed.

Lemma filter_none (P : A -> Prop) `{forall x, Decision (P x)} l :
  Forall (fun x => ~ P x) l -> filter P l = [].
Proof. induction 1 as [|x l Hx Hl IH]; [done|]. by rewrite filter_cons_False. Qed.

(** Removing the first occurrence, as [memmove] over an array slot does. *)
Fixpoint remove_first `{EqDecision A} (x : A) l : list A :=
  match l with
  | [] => []
  | y :: t => if decide (y = x) then t else y :: remove_first x t
  end.

Lemma remove_first_Permutation `{EqDecision A} x l :
  x ∈ l -> l ≡ₚ x :: remove_first x l.
Proof.
  induction l as [|y t IH]; intros Hin; [set_solver|]; simpl.
  destruct (decide (y = x)) as [->|Hne]; [done|].
  rewrite (IH ltac:(set_solver)) at 1. constructor.
Qed.

Lemma elem_of_remove_first `{EqDecision A} x y l :
  NoDup l -> y ∈ remove_first x l <-> y ∈ l /\ y <> x.
Proof.
  induction 1 as [|z t Hz Ht IH]; simpl; [set_solver|].
  destruct (decide (z = x)) as [->|]; set_solver.
Qed.

Lemma NoDup_remove_first `{EqDecision A} x l :
  NoDup l -> NoDup (remove_first x l).
Proof.
  induction 1 as [|z t Hz Ht IH]; simpl; [constructor|].
  destruct (decide (z = x)); [done|]. constructor; [|done].
  rewrite elem_of_remove_first by done. tauto.
Qed.

Lemma remove_first_snoc `{EqDecision A} x l :
  x ∉ l -> remove_first x (l ++ [x]) = l.
Proof.
  induction l as [|y l IH]; intros Hx; simpl; [by rewrite decide_True|].
  rewrite decide_False by set_solver. f_equal. apply IH. set_solver.
Qed.

Lemma length_remove_first `{EqDecision A} x l :
  x ∈ l -> S (length (remove_first x l)) = length l.
Proof.
  intros Hin. by rewrite (Permutation_length (remove_first_Permutation x l Hin)).
Qed.
End Lists.
