(* ===== verification/Bytes.v ===== *)
(** Bytes, little-endian integers and host memory.

    The C code moves integers through byte buffers with loops such as
    [value |= data[i] << (i * 8)] and [data[i] = value >> (i * 8)], and copies
    buffers to and from mapped host memory with [memcpy].  A byte is a [Z] below
    256, a buffer a list of bytes, host memory a finite map from host addresses
    to bytes whose domain is what is mapped. *)

From stdpp Require Import base tactics numbers list gmap.
From Stdlib Require Import ZArith Lia.
From S2P Require Import Prelude.

Definition byte_ok (b : Z) : Prop := 0 <= b <= UINT8_MAX.
#[export] Instance byte_ok_dec b : Decision (byte_ok b).
Proof. unfold byte_ok. apply _. Defined.

(** * Little-endian integers *)

(** [for (i = 0; i < size; i++) value |= (uint64_t)data[i] << (i * 8);] *)
Fixpoint load_le_loop (i : Z) (data : list Z) (value : Z) : Z :=
  match data with
  | [] => value
  | b :: rest => load_le_loop (i + 1) rest (Z.lor value (Z.shiftl b (i * 8)))
  end.
Definition load_le (data : list Z) : Z := load_le_loop 0 data 0.

(** [for (i = 0; i < size; i++) data[i] = value >> (i * 8);] *)
Fixpoint store_le_loop (i : Z) (n : nat) (value : Z) : list Z :=
  match n with
  | O => []
  | S n => u8 (Z.shiftr value (i * 8)) :: store_le_loop (i + 1) n value
  end.
Definition store_le (n : nat) (value : Z) : list Z := store_le_loop 0 n value.

(** The positional value the loop accumulates. *)
Fixpoint le_value (data : list Z) : Z :=
  match data with
  | [] => 0
  | b :: rest => b + 256 * le_value rest
  end.

Lemma le_value_range data :
  Forall byte_ok data -> 0 <= le_value data < 256 ^ Z.of_nat (length data).
Proof.
  induction 1 as [|b rest Hb Hr IH]; [done|].
  cbn [le_value length]. unfold byte_ok in Hb.
  rewrite Nat2Z.inj_succ, Z.pow_succ_r by lia. lia.
Qed.

Lemma load_le_loop_value i data value :
  0 <= i -> Forall byte_ok data -> 0 <= value < 256 ^ i ->
  load_le_loop i data value = value + 256 ^ i * le_value data.
Proof.
  intros Hi Hd. revert i value Hi.
  induction Hd as [|b rest Hb Hr IH]; intros i value Hi Hv; simpl; [lia|].
  unfold byte_ok in Hb.
  assert (256 ^ i = 2 ^ (i * 8)) as He.
  { change 256 with (2 ^ 8). rewrite <- Z.pow_mul_r by lia. f_equal. lia. }
  rewrite lor_shiftl_add by lia.
  rewrite IH; rewrite ?(Z.pow_add_r 256 i 1) by lia; nia.
Qed.

Lemma load_le_value data :
  Forall byte_ok data -> load_le data = le_value data.
Proof.
  intros. unfold load_le. rewrite load_le_loop_value by (done || lia). lia.
Qed.

Lemma load_le_range data :
  Forall byte_ok data -> 0 <= load_le data < 256 ^ Z.of_nat (length data).
Proof. intros. rewrite load_le_value by done. by apply le_value_range. Qed.

Lemma store_le_loop_bytes i n value : Forall byte_ok (store_le_loop i n value).
Proof.
  revert i. induction n; intros; constructor; [apply u8_range|auto].
Qed.
Lemma store_le_bytes n value : Forall byte_ok (store_le n value).
Proof. apply store_le_loop_bytes. Qed.

Lemma store_le_loop_length i n value : length (store_le_loop i n value) = n.
Proof. revert i. induction n; intros; simpl; auto. Qed.
Lemma store_le_length n value : length (store_le n value) = n.
Proof. apply store_le_loop_length. Qed.

Lemma store_le_loop_value i n value :
  0 <= i ->
  le_value (store_le_loop i n value) =
  (value / 256 ^ i) mod 256 ^ Z.of_nat n.
Proof.
  revert i. induction n as [|n IH]; intros i Hi.
  { cbn [store_le_loop le_value]. rewrite Z.mod_1_r. done. }
  cbn [store_le_loop le_value]. rewrite IH by lia.
  rewrite Z.shiftr_div_pow2 by lia.
  replace (2 ^ (i * 8)) with (256 ^ i)
    by (change 256 with (2 ^ 8); rewrite <- Z.pow_mul_r by lia; f_equal; lia).
  rewrite Nat2Z.inj_succ, Z.pow_succ_r by lia.
  rewrite Z.rem_mul_r by lia. unfold u8. f_equal. f_equal. f_equal.
  rewrite Z.pow_add_r, Z.pow_1_r by lia.
  by rewrite Z.div_div by lia.
Qed.

(** Storing then loading gives the value at the buffer's width. *)
Lemma load_store_le n value :
  load_le (store_le n value) = value mod 256 ^ Z.of_nat n.
Proof.
  rewrite load_le_value by apply store_le_bytes.
  unfold store_le. rewrite store_le_loop_value by lia.
  by rewrite Z.pow_0_r, Z.div_1_r.
Qed.

Lemma load_store_le64 value :
  0 <= value <= UINT64_MAX -> load_le (store_le 8 value) = value.
Proof.
  intros. rewrite load_store_le. apply Z.mod_small.
  change (256 ^ Z.of_nat 8) with 18446744073709551616. lia.
Qed.

Lemma load_le64_range data :
  Forall byte_ok data -> length data = 8%nat -> 0 <= load_le data <= UINT64_MAX.
Proof.
  intros Hd Hl. pose proof (load_le_range data Hd) as H. rewrite Hl in H.
  change (256 ^ Z.of_nat 8) with 18446744073709551616 in H. lia.
Qed.

#[export] Hint Resolve store_le_bytes load_le64_range : vart.

(** * Host memory *)

(** [memcpy] out of and into mapped memory; [None] when a byte is not mapped. *)
Fixpoint mem_read (h : gmap Z Z) (a : Z) (n : nat) : option (list Z) :=
  match n with
  | O => Some []
  | S n =>
      match h !! a, mem_read h (a + 1) n with
      | Some b, Some rest => Some (b :: rest)
      | _, _ => None
      end
  end.

Fixpoint mem_write (h : gmap Z Z) (a : Z) (data : list Z) : option (gmap Z Z) :=
  match data with
  | [] => Some h
  | b :: rest =>
      match h !! a with
      | Some _ => mem_write (<[a := b]> h) (a + 1) rest
      | None => None
      end
  end.

(** A fresh mapping of [n] zero bytes at [a] ([mmap] of anonymous memory). *)
Fixpoint mem_map (h : gmap Z Z) (a : Z) (n : nat) : gmap Z Z :=
  match n with
  | O => h
  | S n => mem_map (<[a := 0]> h) (a + 1) n
  end.

Definition mapped (h : gmap Z Z) (a n : Z) : Prop :=
  forall x, a <= x < a + n -> is_Some (h !! x).
Definition bytes_mem (h : gmap Z Z) : Prop :=
  map_Forall (fun _ b => byte_ok b) h.

Lemma mapped_sub h a n a' n' :
  mapped h a n -> a <= a' -> a' + n' <= a + n -> mapped h a' n'.
Proof. intros H ?? x ?. apply H. lia. Qed.
#[export] Hint Resolve mapped_sub : vart.

Lemma mem_read_lookup h a n data :
  mem_read h a n = Some data <->
  length data = n /\ forall i : nat, (i < n)%nat -> h !! (a + Z.of_nat i) = data !! i.
Proof.
  revert a data. induction n as [|n IH]; intros a data; simpl.
  { split; [intros [= <-]; split; [done|lia]|]. intros [Hl _]. by destruct data. }
  split.
  - destruct (h !! a) as [b|] eqn:Hb; [|done].
    destruct (mem_read h (a + 1) n) as [rest|] eqn:Hr; [|done].
    intros [= <-]. apply IH in Hr as [Hl Hi]. split; [simpl; lia|].
    intros [|i] Hlt; simpl; [by rewrite Z.add_0_r|].
    rewrite <- Hi by lia. f_equal. lia.
  - intros [Hl Hi]. destruct data as [|b rest]; [done|]. simpl in Hl.
    pose proof (Hi 0%nat ltac:(lia)) as H0. simpl in H0.
    rewrite Z.add_0_r in H0. rewrite H0.
    rewrite (proj2 (IH (a + 1) rest)); [done|]. split; [lia|].
    intros i Hlt. specialize (Hi (S i) ltac:(lia)). simpl in Hi.
    rewrite <- Hi. f_equal. lia.
Qed.

Lemma mem_read_length h a n data : mem_read h a n = Some data -> length data = n.
Proof. intros H. by apply mem_read_lookup in H as []. Qed.

Lemma mem_read_mapped h a n :
  mapped h a (Z.of_nat n) -> exists data, mem_read h a n = Some data.
Proof.
  revert a. induction n as [|n IH]; intros a H; simpl; [eauto|].
  destruct (H a ltac:(lia)) as [b ->].
  destruct (IH (a + 1)) as [rest ->]; [|eauto].
  eapply mapped_sub; [exact H|lia..].
Qed.

Lemma mem_read_bytes h a n data :
  bytes_mem h -> mem_read h a n = Some data -> Forall byte_ok data.
Proof.
  intros Hh H. apply mem_read_lookup in H as [Hl Hi].
  apply Forall_lookup. intros i b Hb.
  assert (i < n)%nat by (rewrite <- Hl; by eapply lookup_lt_Some).
  rewrite <- Hi in Hb by done. by eapply Hh.
Qed.

(** The bytes of memory after a copy into it. *)
Lemma mem_write_lookup h a data h' x :
  mem_write h a data = Some h' ->
  h' !! x = if decide (a <= x < a + Z.of_nat (length data))
            then data !! Z.to_nat (x - a) else h !! x.
Proof.
  revert h a. induction data as [|b rest IH]; intros h a; simpl.
  { intros [= ->]. case_decide; [lia|done]. }
  destruct (h !! a) eqn:Ha; [|done]. intros Hw. rewrite (IH _ _ Hw).
  repeat case_decide; try lia.
  - replace (Z.to_nat (x - a)) with (S (Z.to_nat (x - (a + 1)))) by lia. done.
  - assert (x = a) as -> by lia. rewrite lookup_insert_eq, Z.sub_diag. done.
  - rewrite lookup_insert_ne by lia. done.
Qed.

Lemma mem_write_mapped h a data :
  mapped h a (Z.of_nat (length data)) -> exists h', mem_write h a data = Some h'.
Proof.
  revert h a. induction data as [|b rest IH]; intros h a H; simpl in *; [eauto|].
  destruct (H a ltac:(lia)) as [b0 ->]. apply IH. intros x Hx.
  destruct (decide (x = a)) as [->|]; [rewrite lookup_insert_eq; eauto|].
  rewrite lookup_insert_ne by done. apply H. lia.
Qed.

(** Reading back what was written, and reading elsewhere. *)
Lemma mem_read_write_same h a data h' :
  mem_write h a data = Some h' -> mem_read h' a (length data) = Some data.
Proof.
  intros Hw. apply mem_read_lookup. split; [done|]. intros i Hi.
  rewrite (mem_write_lookup _ _ _ _ _ Hw). case_decide; [|lia].
  f_equal. lia.
Qed.

Lemma mem_read_write_disjoint h a data h' b n :
  mem_write h a data = Some h' ->
  b + Z.of_nat n <= a \/ a + Z.of_nat (length data) <= b ->
  mem_read h' b n = mem_read h b n.
Proof.
  intros Hw. revert b. induction n as [|n IH]; intros b Hd; [done|].
  simpl. rewrite IH by lia. rewrite (mem_write_lookup _ _ _ _ _ Hw).
  case_decide; [lia|done].
Qed.

Lemma mem_write_dom h a data h' x :
  mem_write h a data = Some h' -> is_Some (h !! x) -> is_Some (h' !! x).
Proof.
  intros Hw Hx. rewrite (mem_write_lookup _ _ _ _ _ Hw).
  case_decide; [|done]. apply lookup_lt_is_Some_2. lia.
Qed.

Lemma mem_write_bytes h a data h' :
  bytes_mem h -> Forall byte_ok data -> mem_write h a data = Some h' -> bytes_mem h'.
Proof.
  intros Hh Hd Hw x b. rewrite (mem_write_lookup _ _ _ _ _ Hw).
  case_decide; [intros; by eapply Forall_lookup_1|apply Hh].
Qed.

Lemma mem_map_lookup h a n x :
  mem_map h a n !! x =
  if decide (a <= x < a + Z.of_nat n) then Some 0 else h !! x.
Proof.
  revert h a. induction n as [|n IH]; intros h a; simpl.
  { case_decide; [lia|done]. }
  rewrite IH. repeat case_decide; try lia; try done.
  - assert (x = a) as -> by lia. by rewrite lookup_insert_eq.
  - by rewrite lookup_insert_ne by lia.
Qed.
