(* ===== verification/Machine.v ===== *)
(** The program's heap: the C structs of [include/vart] that point to each other.

    Every object is named by an identifier (its address); a pointer field is an
    [option] of an identifier, [None] being [NULL].  A struct embedded in another
    (the [region] of a BAR, the [address_space] of an IOMMU context) has an
    identifier of its own, held by the enclosing record.  An array with a
    [count] is the list of its first [count] elements.  A function pointer names
    the C function ([fnptr]); what calling it does is given by the callback
    classes of the files that call through it. *)

From stdpp Require Import base tactics numbers list gmap.
From Stdlib Require Import ZArith.
From S2P Require Import Prelude Bytes.

Definition ptr := positive.

(** The functions of the program whose address is stored in a struct;
    [fn_external n] stands for any other function. *)
Inductive fnptr : Type :=
| fn_iommu_context_translate
| fn_iommu_fault_handler
| fn_iommu_remap_msi
| fn_iommu_mmio_read
| fn_iommu_mmio_write
| fn_uart_read
| fn_uart_write
| fn_test_device_read
| fn_test_device_write
| fn_uart_realize
| fn_uart_unrealize
| fn_uart_reset_device
| fn_test_device_realize
| fn_test_device_unrealize
| fn_test_device_reset_device
| fn_pci_device_realize
| fn_pci_device_unrealize
| fn_pci_device_reset
| fn_pci_root_complex_realize
| fn_pci_root_complex_unrealize
| fn_pci_ecam_read
| fn_pci_ecam_write
| fn_pci_msix_table_read
| fn_pci_msix_table_write
| fn_pci_msix_pba_read
| fn_pci_msix_pba_write
| fn_pci_bridge_config_read
| fn_pci_bridge_config_write
| fn_virtio_pci_bar_read
| fn_virtio_pci_bar_write
| fn_virtio_blk_dma_read
| fn_virtio_blk_dma_write
| fn_virtio_blk_config_read
| fn_virtio_blk_config_write
| fn_virtio_blk_notify
| fn_virtio_net_dma_read
| fn_virtio_net_dma_write
| fn_virtio_net_config_read
| fn_virtio_net_config_write
| fn_virtio_net_notify
| fn_virtio_net_backend_event
| fn_pci_msix_irqfd_inject
| fn_pci_msix_aia_inject
| fn_riscv_aia_irq_set
| fn_external (n : positive).
#[export] Instance fnptr_eq_dec : EqDecision fnptr.
Proof. solve_decision. Defined.

(** * [include/vart/address-space.h] *)

Record VartMmioOps := mkMmioOps {
  mmio_read : option fnptr;
  mmio_write : option fnptr;
}.

Inductive VartAddressRegionType : Type :=
| VART_REGION_RAM
| VART_REGION_ROM
| VART_REGION_MMIO
| VART_REGION_ALIAS.
#[export] Instance VartAddressRegionType_eq_dec : EqDecision VartAddressRegionType.
Proof. solve_decision. Defined.

Record VartAddressRegion := mkRegion {
  r_base : Z;
  r_size : Z;
  r_priority : Z;
  r_type : VartAddressRegionType;
  r_enabled : bool;
  r_owner : option ptr;
  r_address_space : option ptr;
  r_mmio_ops : option VartMmioOps;
  r_mmio_opaque : option ptr;
  r_ram_addr : option Z;
}.
#[export] Instance VartAddressRegion_rebuild : Rebuild VartAddressRegion :=
  env_const mkRegion $* r_base $* r_size $* r_priority $* r_type $* r_enabled
    $* r_owner $* r_address_space $* r_mmio_ops $* r_mmio_opaque $* r_ram_addr.

(** [as_regions] holds the first [count] pointers of the array. *)
Record VartAddressSpace := mkSpace {
  as_regions : list ptr;
  as_capacity : Z;
  as_translate : option fnptr;
  as_translate_opaque : option ptr;
}.
#[export] Instance VartAddressSpace_rebuild : Rebuild VartAddressSpace :=
  env_const mkSpace $* as_regions $* as_capacity $* as_translate
    $* as_translate_opaque.

(** * [include/vart/iommu.h] *)

Inductive VartIommuContextMode : Type :=
| VART_IOMMU_CONTEXT_IDENTITY
| VART_IOMMU_CONTEXT_FAULT
| VART_IOMMU_CONTEXT_SV39
| VART_IOMMU_CONTEXT_SV39X4.
#[export] Instance VartIommuContextMode_eq_dec : EqDecision VartIommuContextMode.
Proof. solve_decision. Defined.

Definition VART_IOMMU_CACHE_ENTRIES : nat := 64.

Record VartIommuCacheEntry := mkCacheEntry {
  ce_iova_base : Z;
  ce_translated_base : Z;
  ce_size : Z;
  ce_permissions : Z;
  ce_valid : bool;
}.

(** [ctx_cache] is the whole array of 64 entries, of which the first
    [ctx_cache_count] are in use. *)
Record VartIommuContext := mkContext {
  ctx_address_space : ptr;
  ctx_downstream : option ptr;
  ctx_attached_device : option ptr;
  ctx_saved_dma_as : option ptr;
  ctx_saved_dma_as_from_bus : bool;
  ctx_requester_id : Z;
  ctx_mode : VartIommuContextMode;
  ctx_root_ppn : Z;
  ctx_invalidation_generation : Z;
  ctx_root_valid : bool;
  ctx_update_ad : bool;
  ctx_fault_handler : option fnptr;
  ctx_fault_opaque : option ptr;
  ctx_cache : list VartIommuCacheEntry;
  ctx_cache_count : Z;
  ctx_cache_next : Z;
  ctx_cache_lock_initialized : bool;
}.
#[export] Instance VartIommuContext_rebuild : Rebuild VartIommuContext :=
  env_const mkContext $* ctx_address_space $* ctx_downstream
    $* ctx_attached_device $* ctx_saved_dma_as $* ctx_saved_dma_as_from_bus
    $* ctx_requester_id $* ctx_mode $* ctx_root_ppn
    $* ctx_invalidation_generation $* ctx_root_valid $* ctx_update_ad
    $* ctx_fault_handler $* ctx_fault_opaque $* ctx_cache $* ctx_cache_count
    $* ctx_cache_next $* ctx_cache_lock_initialized.

(** * [include/vart/device.h] and [include/vart/irq.h] *)

Record VartDeviceOps := mkDeviceOps {
  ops_realize : option fnptr;
  ops_unrealize : option fnptr;
  ops_reset : option fnptr;
}.

(** The [name], a constant string that no operation reads, is left out. *)
Record VartDevice := mkDevice {
  dev_bus : option ptr;
  dev_dma_as : option ptr;
  dev_dma_as_from_bus : bool;
  dev_ops : option VartDeviceOps;
  dev_opaque : option ptr;
  dev_realized : bool;
}.
#[export] Instance VartDevice_rebuild : Rebuild VartDevice :=
  env_const mkDevice $* dev_bus $* dev_dma_as $* dev_dma_as_from_bus
    $* dev_ops $* dev_opaque $* dev_realized.

(** [include/vart/bus.h]; [bus_devices] holds the first [device_count]
    pointers. *)
Record VartBus := mkBus {
  bus_parent : option ptr;
  bus_address_space : option ptr;
  bus_devices : list ptr;
  bus_device_capacity : Z;
}.
#[export] Instance VartBus_rebuild : Rebuild VartBus :=
  env_const mkBus $* bus_parent $* bus_address_space $* bus_devices
    $* bus_device_capacity.

Record VartIrq := mkIrq {
  irq_set : option fnptr;
  irq_opaque : option ptr;
  irq_line : Z;
  irq_level : bool;
}.
#[export] Instance VartIrq_rebuild : Rebuild VartIrq :=
  env_const mkIrq $* irq_set $* irq_opaque $* irq_line $* irq_level.

(** * [include/vart/memory.h] *)

(** [mem_address_region] names the embedded region. *)
Record VartMemoryRegion := mkMemoryRegion {
  mem_host_addr : option Z;
  mem_guest_addr : Z;
  mem_size : Z;
  mem_slot : Z;
  mem_registered : bool;
  mem_address_region : ptr;
  mem_address_space_mapped : bool;
}.
#[export] Instance VartMemoryRegion_rebuild : Rebuild VartMemoryRegion :=
  env_const mkMemoryRegion $* mem_host_addr $* mem_guest_addr $* mem_size
    $* mem_slot $* mem_registered $* mem_address_region
    $* mem_address_space_mapped.

(** * [include/vart/pci.h] *)

(** [msix_irq_routes] is the array of [vector_count] interrupt pointers;
    [msix_table_region] and [msix_pba_region] name the embedded regions. *)
Record VartPciMsix := mkMsix {
  msix_table_region : ptr;
  msix_pba_region : ptr;
  msix_table : list Z;
  msix_pba : list Z;
  msix_irq_routes : list (option ptr);
  msix_inject : option fnptr;
  msix_inject_opaque : option ptr;
  msix_remap : option fnptr;
  msix_remap_opaque : option ptr;
  msix_table_offset : Z;
  msix_pba_offset : Z;
  msix_table_bar : Z;
  msix_pba_bar : Z;
  msix_capability_offset : Z;
  msix_vector_count : Z;
  msix_configured : bool;
  msix_mapped : bool;
  msix_enabled : bool;
  msix_function_mask : bool;
}.
#[export] Instance VartPciMsix_rebuild : Rebuild VartPciMsix :=
  env_const mkMsix $* msix_table_region $* msix_pba_region $* msix_table $* msix_pba $* msix_irq_routes $* msix_inject
    $* msix_inject_opaque $* msix_remap $* msix_remap_opaque
    $* msix_table_offset $* msix_pba_offset $* msix_table_bar $* msix_pba_bar
    $* msix_capability_offset $* msix_vector_count $* msix_configured
    $* msix_mapped $* msix_enabled $* msix_function_mask.

Record VartPciConfigOps := mkConfigOps {
  cfg_read : option fnptr;
  cfg_write : option fnptr;
}.

(** [bar_region] names the embedded region. *)
Record VartPciBar := mkBar {
  bar_region : ptr;
  bar_size : Z;
  bar_address : Z;
  bar_flags : Z;
  bar_mmio_ops : option VartMmioOps;
  bar_mmio_opaque : option ptr;
  bar_implemented : bool;
  bar_high_part : bool;
  bar_is_64bit : bool;
  bar_mapped : bool;
  bar_probe : bool;
}.
#[export] Instance VartPciBar_rebuild : Rebuild VartPciBar :=
  env_const mkBar $* bar_region $* bar_size $* bar_address $* bar_flags
    $* bar_mmio_ops $* bar_mmio_opaque $* bar_implemented $* bar_high_part
    $* bar_is_64bit $* bar_mapped $* bar_probe.

(** The first member [parent] has the address of the function itself. *)
Record VartPciDevice := mkPciDevice {
  pci_parent : VartDevice;
  pci_bus : option ptr;
  pci_devfn : Z;
  pci_requester_id : Z;
  pci_config_space : list Z;
  pci_bars : list VartPciBar;
  pci_config_ops : option VartPciConfigOps;
  pci_capability_next : Z;
  pci_capability_tail : Z;
  pci_msix : VartPciMsix;
  pci_intx_irq : option ptr;
  pci_intx_pin : Z;
  pci_intx_asserted : bool;
  pci_memory_enabled : bool;
  pci_bus_master_enabled : bool;
}.
#[export] Instance VartPciDevice_rebuild : Rebuild VartPciDevice :=
  env_const mkPciDevice $* pci_parent $* pci_bus $* pci_devfn
    $* pci_requester_id $* pci_config_space $* pci_bars $* pci_config_ops
    $* pci_capability_next $* pci_capability_tail $* pci_msix $* pci_intx_irq
    $* pci_intx_pin $* pci_intx_asserted $* pci_memory_enabled
    $* pci_bus_master_enabled.

(** Zeroed structs around the embedded regions. *)
Definition zero_bar (region : ptr) : VartPciBar :=
  mkBar region 0 0 0 None None false false false false false.
Definition zero_msix (table_region pba_region : ptr) : VartPciMsix :=
  mkMsix table_region pba_region [] [] [] None None None None 0 0 0 0 0 0
    false false false false.
Definition zero_device : VartDevice := mkDevice None None false None None false.
Definition zero_pci_device (bar_regions : list ptr) (table_region pba_region : ptr)
    : VartPciDevice :=
  mkPciDevice zero_device None 0 0 (replicate 4096 0) (map zero_bar bar_regions) None
    0 0 (zero_msix table_region pba_region) None 0 false false false.

(** The first member [bus] is the [VartBus] at the same address; [pb_children]
    holds the first [child_count] pointers, [pb_functions] the 256 slots. *)
Record VartPciBus := mkPciBus {
  pb_parent_pci_bus : option ptr;
  pb_owner_bridge : option ptr;
  pb_children : list ptr;
  pb_child_capacity : Z;
  pb_number : Z;
  pb_secondary_number : Z;
  pb_subordinate_number : Z;
  pb_functions : list (option ptr);
  pb_mmio_base : Z;
  pb_mmio_size : Z;
  pb_mmio_next : Z;
  pb_prefetch_mmio_base : Z;
  pb_prefetch_mmio_size : Z;
  pb_prefetch_mmio_next : Z;
}.
#[export] Instance VartPciBus_rebuild : Rebuild VartPciBus :=
  env_const mkPciBus $* pb_parent_pci_bus $* pb_owner_bridge $* pb_children
    $* pb_child_capacity $* pb_number $* pb_secondary_number
    $* pb_subordinate_number $* pb_functions $* pb_mmio_base $* pb_mmio_size
    $* pb_mmio_next $* pb_prefetch_mmio_base $* pb_prefetch_mmio_size
    $* pb_prefetch_mmio_next.

(** The first member [parent] is the PCI function at the same address;
    [br_secondary_bus] names the embedded bus. *)
Record VartPciBridge := mkBridge {
  br_secondary_bus : ptr;
  br_mmio_base : Z;
  br_mmio_size : Z;
  br_prefetch_mmio_base : Z;
  br_prefetch_mmio_size : Z;
}.
#[export] Instance VartPciBridge_rebuild : Rebuild VartPciBridge :=
  env_const mkBridge $* br_secondary_bus $* br_mmio_base $* br_mmio_size
    $* br_prefetch_mmio_base $* br_prefetch_mmio_size.

(** The first member [upstream] is the bridge at the same address;
    [sw_downstream_ports] holds the [downstream_count] ports. *)
Record VartPciSwitch := mkSwitch {
  sw_downstream_ports : option (list ptr);
}.
#[export] Instance VartPciSwitch_rebuild : Rebuild VartPciSwitch :=
  env_const mkSwitch $* sw_downstream_ports.

(** The first member [parent] is the device at the same address. *)
Record VartPciRootComplex := mkComplex {
  rc_root_bus : ptr;
  rc_ecam_region : ptr;
  rc_ecam_mapped : bool;
}.
#[export] Instance VartPciRootComplex_rebuild : Rebuild VartPciRootComplex :=
  env_const mkComplex $* rc_root_bus $* rc_ecam_region $* rc_ecam_mapped.

(** * [include/vart/riscv-iommu.h] *)

Record VartRiscvIommuMsiMapping := mkMsiMapping {
  mm_iova : Z;
  mm_target : Z;
  mm_size : Z;
}.

Record VartRiscvIommuBinding := mkBinding {
  bind_device : ptr;
  bind_context : ptr;
}.

(** [iommu_pci] names the embedded PCI function; the two arrays hold their
    first [binding_count] and [msi_mapping_count] entries. *)
Record VartRiscvIommu := mkRiscvIommu {
  iommu_pci : ptr;
  iommu_address_space : option ptr;
  iommu_context : option ptr;
  iommu_bindings : list VartRiscvIommuBinding;
  iommu_msi_mappings : list VartRiscvIommuMsiMapping;
  iommu_msi_remapping_enabled : bool;
  iommu_cap : Z;
  iommu_fctl : Z;
  iommu_ddtp : Z;
  iommu_cqb : Z;
  iommu_cqh : Z;
  iommu_cqt : Z;
  iommu_fqb : Z;
  iommu_fqh : Z;
  iommu_fqt : Z;
  iommu_pqb : Z;
  iommu_pqh : Z;
  iommu_pqt : Z;
  iommu_cqcsr : Z;
  iommu_fqcsr : Z;
  iommu_pqcsr : Z;
  iommu_icvec : Z;
  iommu_fault_address : Z;
  iommu_fault_info : Z;
  iommu_fault_status : Z;
  iommu_lock_initialized : bool;
}.
#[export] Instance VartRiscvIommu_rebuild : Rebuild VartRiscvIommu :=
  env_const mkRiscvIommu $* iommu_pci $* iommu_address_space $* iommu_context
    $* iommu_bindings $* iommu_msi_mappings $* iommu_msi_remapping_enabled
    $* iommu_cap $* iommu_fctl $* iommu_ddtp $* iommu_cqb $* iommu_cqh
    $* iommu_cqt $* iommu_fqb $* iommu_fqh $* iommu_fqt $* iommu_pqb
    $* iommu_pqh $* iommu_pqt $* iommu_cqcsr $* iommu_fqcsr $* iommu_pqcsr
    $* iommu_icvec $* iommu_fault_address $* iommu_fault_info
    $* iommu_fault_status $* iommu_lock_initialized.

(** * [include/vart/devices] and [include/vart/console.h] *)

(** [uart_parent] and [uart_region] name the embedded device and region. *)
Record VartUart16550 := mkUart {
  uart_parent : ptr;
  uart_region : ptr;
  uart_ier : Z;
  uart_iir : Z;
  uart_fcr : Z;
  uart_lcr : Z;
  uart_mcr : Z;
  uart_lsr : Z;
  uart_msr : Z;
  uart_scr : Z;
  uart_rbr : Z;
  uart_divisor : Z;
  uart_irq : option ptr;
  uart_output : option fnptr;
  uart_output_opaque : option ptr;
}.
#[export] Instance VartUart16550_rebuild : Rebuild VartUart16550 :=
  env_const mkUart $* uart_parent $* uart_region $* uart_ier $* uart_iir
    $* uart_fcr $* uart_lcr $* uart_mcr $* uart_lsr $* uart_msr $* uart_scr
    $* uart_rbr $* uart_divisor $* uart_irq $* uart_output
    $* uart_output_opaque.

Record VartTestDevice := mkTestDevice {
  test_parent : ptr;
  test_region : ptr;
  test_scratch : Z;
  test_status : Z;
  test_output : option fnptr;
  test_output_opaque : option ptr;
  test_irq : option ptr;
}.
#[export] Instance VartTestDevice_rebuild : Rebuild VartTestDevice :=
  env_const mkTestDevice $* test_parent $* test_region $* test_scratch
    $* test_status $* test_output $* test_output_opaque $* test_irq.

(** [con_input] is the whole array of [VART_CONSOLE_INPUT_CAPACITY] bytes. *)
Record VartConsole := mkConsole {
  con_uart : option ptr;
  con_input : list Z;
  con_input_head : Z;
  con_input_count : Z;
}.
#[export] Instance VartConsole_rebuild : Rebuild VartConsole :=
  env_const mkConsole $* con_uart $* con_input $* con_input_head
    $* con_input_count.

(** * [include/vart/fdt.h] *)

(** A buffer is the list of the bytes of its allocation, [None] for NULL. *)
Record VartFdt := mkFdt {
  fdt_structure : option (list Z);
  fdt_structure_size : Z;
  fdt_structure_capacity : Z;
  fdt_strings : option (list Z);
  fdt_strings_size : Z;
  fdt_strings_capacity : Z;
  fdt_child_seen : option (list bool);
  fdt_depth_capacity : Z;
  fdt_depth : Z;
  fdt_root_seen : bool;
  fdt_root_closed : bool;
  fdt_finished : bool;
}.
#[export] Instance VartFdt_rebuild : Rebuild VartFdt :=
  env_const mkFdt $* fdt_structure $* fdt_structure_size
    $* fdt_structure_capacity $* fdt_strings $* fdt_strings_size
    $* fdt_strings_capacity $* fdt_child_seen $* fdt_depth_capacity
    $* fdt_depth $* fdt_root_seen $* fdt_root_closed $* fdt_finished.

(** * [include/vart/virtio.h] *)

Record VartVirtioDmaOps := mkDmaOps {
  dma_read : option fnptr;
  dma_write : option fnptr;
  dma_opaque : option ptr;
}.

Record VartVirtioDescriptor := mkDescriptor {
  d_address : Z;
  d_length : Z;
  d_flags : Z;
  d_next : Z;
}.

(** [ch_descriptors] holds the descriptors stored so far. *)
Record VartVirtioChain := mkChain {
  ch_head : Z;
  ch_count : Z;
  ch_descriptors : list VartVirtioDescriptor;
}.
#[export] Instance VartVirtioChain_rebuild : Rebuild VartVirtioChain :=
  env_const mkChain $* ch_head $* ch_count $* ch_descriptors.

Record VartVirtioQueue := mkQueue {
  q_size : Z;
  q_last_avail : Z;
  q_next_used : Z;
  q_descriptor_address : Z;
  q_available_address : Z;
  q_used_address : Z;
  q_dma : VartVirtioDmaOps;
  q_ready : bool;
}.
#[export] Instance VartVirtioQueue_rebuild : Rebuild VartVirtioQueue :=
  env_const mkQueue $* q_size $* q_last_avail $* q_next_used
    $* q_descriptor_address $* q_available_address $* q_used_address $* q_dma
    $* q_ready.

(** [v_queues] is the array ([None] for [NULL]); its length is [queue_count]. *)
Record VartVirtioDevice := mkVirtio {
  v_device_id : Z;
  v_device_features : Z;
  v_driver_features : Z;
  v_status : Z;
  v_queues : option (list VartVirtioQueue);
}.
#[export] Instance VartVirtioDevice_rebuild : Rebuild VartVirtioDevice :=
  env_const mkVirtio $* v_device_id $* v_device_features $* v_driver_features
    $* v_status $* v_queues.

(** * [include/vart/virtio-pci.h], [virtio-blk.h] *)

Record VartVirtioPciConfigOps := mkVirtioConfigOps {
  vcfg_read : option fnptr;
  vcfg_write : option fnptr;
  vcfg_opaque : option ptr;
}.

Record VartVirtioPciQueueState := mkQueueState {
  qs_size : Z;
  qs_msix_vector : Z;
  qs_descriptor_address : Z;
  qs_available_address : Z;
  qs_used_address : Z;
}.
#[export] Instance VartVirtioPciQueueState_rebuild : Rebuild VartVirtioPciQueueState :=
  env_const mkQueueState $* qs_size $* qs_msix_vector $* qs_descriptor_address
    $* qs_available_address $* qs_used_address.

(** The first member [pci] is the PCI function at the same address.  Of the
    ioeventfd members only the flag is kept. *)
Record VartVirtioPciDevice := mkVirtioPci {
  vp_virtio : VartVirtioDevice;
  vp_queue_state : option (list VartVirtioPciQueueState);
  vp_notify : option fnptr;
  vp_notify_opaque : option ptr;
  vp_config_ops : VartVirtioPciConfigOps;
  vp_device_feature_select : Z;
  vp_driver_feature_select : Z;
  vp_queue_select : Z;
  vp_config_msix_vector : Z;
  vp_config_generation : Z;
  vp_isr_status : Z;
  vp_ioeventfd_enabled : bool;
  vp_initialized : bool;
}.
#[export] Instance VartVirtioPciDevice_rebuild : Rebuild VartVirtioPciDevice :=
  env_const mkVirtioPci $* vp_virtio $* vp_queue_state $* vp_notify
    $* vp_notify_opaque $* vp_config_ops $* vp_device_feature_select
    $* vp_driver_feature_select $* vp_queue_select $* vp_config_msix_vector
    $* vp_config_generation $* vp_isr_status $* vp_ioeventfd_enabled
    $* vp_initialized.

(** The first member [pci] is the virtio PCI device at the same address. *)
Record VartVirtioBlkDevice := mkBlk {
  blk_fd : Z;
  blk_capacity_sectors : Z;
  blk_block_size : Z;
  blk_readonly : bool;
  blk_initialized : bool;
}.
#[export] Instance VartVirtioBlkDevice_rebuild : Rebuild VartVirtioBlkDevice :=
  env_const mkBlk $* blk_fd $* blk_capacity_sectors $* blk_block_size
    $* blk_readonly $* blk_initialized.

(** * [include/vart/event-loop.h] *)

Record VartEventSource := mkSource {
  src_loop : option ptr;
  src_callback : option fnptr;
  src_opaque : option ptr;
  src_generation : Z;
  src_fd : Z;
  src_events : Z;
  src_registered : bool;
}.
#[export] Instance VartEventSource_rebuild : Rebuild VartEventSource :=
  env_const mkSource $* src_loop $* src_callback $* src_opaque
    $* src_generation $* src_fd $* src_events $* src_registered.

(** [loop_sources] holds the first [count] pointers of the array. *)
Record VartEventLoop := mkLoop {
  loop_sources : list ptr;
  loop_capacity : Z;
  loop_wake_fd : Z;
  loop_initialized : bool;
}.
#[export] Instance VartEventLoop_rebuild : Rebuild VartEventLoop :=
  env_const mkLoop $* loop_sources $* loop_capacity $* loop_wake_fd
    $* loop_initialized.

(** * [include/vart/virtio-net.h] *)

(** The first member [pci] is the virtio PCI device at the same address;
    [net_rx_packet] is the allocation of 65535 bytes, [None] for NULL. *)
Record VartVirtioNetDevice := mkNet {
  net_config : list Z;
  net_backend_source : ptr;
  net_event_loop : option ptr;
  net_rx_packet : option (list Z);
  net_rx_packet_length : Z;
  net_backend_fd : Z;
  net_backend_owned : bool;
  net_lock_initialized : bool;
  net_initialized : bool;
}.
#[export] Instance VartVirtioNetDevice_rebuild : Rebuild VartVirtioNetDevice :=
  env_const mkNet $* net_config $* net_backend_source $* net_event_loop
    $* net_rx_packet $* net_rx_packet_length $* net_backend_fd
    $* net_backend_owned $* net_lock_initialized $* net_initialized.

(** * [include/vart/kvm.h], [vm.h], [kvm-device.h] *)

Record VartKvm := mkKvm {
  kvm_fd : Z;
  kvm_api_version : Z;
  kvm_vcpu_mmap_size : Z;
  kvm_recommended_vcpus : Z;
  kvm_max_vcpus : Z;
  kvm_user_memory : bool;
  kvm_one_reg : bool;
  kvm_irqfd : bool;
  kvm_ioeventfd : bool;
  kvm_irq_routing : bool;
  kvm_signal_msi : bool;
  kvm_immediate_exit : bool;
  kvm_mp_state : bool;
  kvm_riscv_mp_state_reset : bool;
}.

(** The mutex [big_lock] is left out; [vm_vcpus] is the head of a list linked by
    [vcpu_next]. *)
Record VartVm := mkVm {
  vm_kvm : option ptr;
  vm_fd : Z;
  vm_vcpus : option ptr;
  vm_shutdown_requested : bool;
}.
#[export] Instance VartVm_rebuild : Rebuild VartVm :=
  env_const mkVm $* vm_kvm $* vm_fd $* vm_vcpus $* vm_shutdown_requested.

Record VartKvmDevice := mkKvmDevice {
  kd_vm : option ptr;
  kd_fd : Z;
  kd_type : Z;
}.
#[export] Instance VartKvmDevice_rebuild : Rebuild VartKvmDevice :=
  env_const mkKvmDevice $* kd_vm $* kd_fd $* kd_type.

(** * [include/vart/kvm-irq-routing.h] *)

Record VartKvmMsiRoute := mkMsiRoute {
  route_gsi : Z;
  route_address : Z;
  route_data : Z;
  route_devid : Z;
}.

(** [routing_routes] holds the first [count] elements of [msi_routes]. *)
Record VartKvmIrqRouting := mkRouting {
  routing_vm : option ptr;
  routing_routes : list VartKvmMsiRoute;
  routing_capacity : Z;
  routing_initialized : bool;
}.
#[export] Instance VartKvmIrqRouting_rebuild : Rebuild VartKvmIrqRouting :=
  env_const mkRouting $* routing_vm $* routing_routes $* routing_capacity
    $* routing_initialized.

(** * [include/vart/eventfd.h], [pci-msix-irqfd.h] *)

Record VartEventNotifier := mkNotifier {
  notifier_fd : Z;
  notifier_initialized : bool;
}.

(** The three arrays have [vector_count] elements. *)
Record VartPciMsixIrqfd := mkMsixIrqfd {
  mi_device : option ptr;
  mi_routing : option ptr;
  mi_notifiers : list VartEventNotifier;
  mi_route_added : list bool;
  mi_assigned : list bool;
  mi_first_gsi : Z;
  mi_vector_count : Z;
  mi_connected : bool;
}.
#[export] Instance VartPciMsixIrqfd_rebuild : Rebuild VartPciMsixIrqfd :=
  env_const mkMsixIrqfd $* mi_device $* mi_routing $* mi_notifiers
    $* mi_route_added $* mi_assigned $* mi_first_gsi $* mi_vector_count
    $* mi_connected.

(** * [include/vart/riscv-aia.h] *)

Record VartRiscvAia := mkAia {
  aia_device : VartKvmDevice;
  aia_mode : Z;
  aia_nr_ids : Z;
  aia_nr_sources : Z;
  aia_vcpu_count : Z;
  aia_imsic_base : Z;
  aia_aplic_base : Z;
  aia_initialized : bool;
}.
#[export] Instance VartRiscvAia_rebuild : Rebuild VartRiscvAia :=
  env_const mkAia $* aia_device $* aia_mode $* aia_nr_ids $* aia_nr_sources
    $* aia_vcpu_count $* aia_imsic_base $* aia_aplic_base $* aia_initialized.

(** * [include/vart/riscv-cpu.h], [vcpu.h], [riscv-sbi.h] *)

Record VartRiscvCoreState := mkCore {
  core_pc : Z;
  core_gpr : list Z;
  core_mode : Z;
}.
#[export] Instance VartRiscvCoreState_rebuild : Rebuild VartRiscvCoreState :=
  env_const mkCore $* core_pc $* core_gpr $* core_mode.

Record VartRiscvCsrState := mkCsr {
  csr_sstatus : Z;
  csr_sie : Z;
  csr_stvec : Z;
  csr_sscratch : Z;
  csr_sepc : Z;
  csr_scause : Z;
  csr_stval : Z;
  csr_sip : Z;
  csr_satp : Z;
  csr_scounteren : Z;
  csr_senvcfg : Z;
}.
#[export] Instance VartRiscvCsrState_rebuild : Rebuild VartRiscvCsrState :=
  env_const mkCsr $* csr_sstatus $* csr_sie $* csr_stvec $* csr_sscratch
    $* csr_sepc $* csr_scause $* csr_stval $* csr_sip $* csr_satp
    $* csr_scounteren $* csr_senvcfg.

Record VartRiscvTimerState := mkTimer {
  timer_frequency : Z;
  timer_time : Z;
  timer_compare : Z;
  timer_state : Z;
}.
#[export] Instance VartRiscvTimerState_rebuild : Rebuild VartRiscvTimerState :=
  env_const mkTimer $* timer_frequency $* timer_time $* timer_compare
    $* timer_state.

Record VartRiscvCpuState := mkCpuState {
  cs_core : VartRiscvCoreState;
  cs_csr : VartRiscvCsrState;
  cs_timer : VartRiscvTimerState;
  cs_valid : Z;
  cs_dirty : Z;
}.
#[export] Instance VartRiscvCpuState_rebuild : Rebuild VartRiscvCpuState :=
  env_const mkCpuState $* cs_core $* cs_csr $* cs_timer $* cs_valid $* cs_dirty.

Inductive VartVcpuThreadState :=
| VART_VCPU_THREAD_CREATED
| VART_VCPU_THREAD_RUNNING
| VART_VCPU_THREAD_STOPPED.
#[export] Instance VartVcpuThreadState_eq_dec : EqDecision VartVcpuThreadState.
Proof. solve_decision. Defined.

(** The page that the kernel shares with the program; [run_exit] is the union of
    the data of an exit, as bytes. *)
Record kvm_run := mkRun {
  run_immediate_exit : Z;
  run_exit_reason : Z;
  run_exit : list Z;
}.
#[export] Instance kvm_run_rebuild : Rebuild kvm_run :=
  env_const mkRun $* run_immediate_exit $* run_exit_reason $* run_exit.

(** [vcpu_run] is the mapping of [struct kvm_run], [None] for NULL. *)
Record VartVcpu := mkVcpu {
  vcpu_vm : option ptr;
  vcpu_fd : Z;
  vcpu_hart_id : Z;
  vcpu_run : option kvm_run;
  vcpu_run_size : Z;
  vcpu_mmio_read_pending : bool;
  vcpu_mmio_read_size : Z;
  vcpu_sbi_pending : bool;
  vcpu_thread : Z;
  vcpu_thread_state : VartVcpuThreadState;
  vcpu_thread_created : bool;
  vcpu_thread_joined : bool;
  vcpu_thread_result : Z;
  vcpu_exit_handler : option fnptr;
  vcpu_exit_opaque : option ptr;
  vcpu_kick_requested : bool;
  vcpu_stop_requested : bool;
  vcpu_cpu_state : VartRiscvCpuState;
  vcpu_next : option ptr;
}.
#[export] Instance VartVcpu_rebuild : Rebuild VartVcpu :=
  env_const mkVcpu $* vcpu_vm $* vcpu_fd $* vcpu_hart_id $* vcpu_run
    $* vcpu_run_size $* vcpu_mmio_read_pending $* vcpu_mmio_read_size
    $* vcpu_sbi_pending $* vcpu_thread $* vcpu_thread_state
    $* vcpu_thread_created $* vcpu_thread_joined $* vcpu_thread_result
    $* vcpu_exit_handler $* vcpu_exit_opaque $* vcpu_kick_requested
    $* vcpu_stop_requested $* vcpu_cpu_state $* vcpu_next.

Record VartRiscvSbiHandler := mkSbiHandler {
  sbi_extension_start : Z;
  sbi_extension_end : Z;
  sbi_callback : option fnptr;
  sbi_opaque : option ptr;
  sbi_next : option ptr;
}.
#[export] Instance VartRiscvSbiHandler_rebuild : Rebuild VartRiscvSbiHandler :=
  env_const mkSbiHandler $* sbi_extension_start $* sbi_extension_end
    $* sbi_callback $* sbi_opaque $* sbi_next.

Record VartRiscvSbiDispatcher := mkSbiDispatcher { sbi_handlers : option ptr }.

(** * The heap *)

(** [w_devices] holds the PCI functions and [w_plain_devices] the other devices.
    [w_host] is the memory that [mmap] gave the program; [w_oom] says, for the
    coming allocations in order, which fail (those past its end succeed);
    [w_files] holds the contents of the host's regular files by descriptor. *)
Record World := mkWorld {
  w_regions : gmap ptr VartAddressRegion;
  w_spaces : gmap ptr VartAddressSpace;
  w_host : gmap Z Z;
  w_oom : list bool;
  w_contexts : gmap ptr VartIommuContext;
  w_devices : gmap ptr VartPciDevice;
  w_irqs : gmap ptr VartIrq;
  w_iommus : gmap ptr VartRiscvIommu;
  w_memory : gmap ptr VartMemoryRegion;
  w_plain_devices : gmap ptr VartDevice;
  w_buses : gmap ptr VartBus;
  w_uarts : gmap ptr VartUart16550;
  w_test_devices : gmap ptr VartTestDevice;
  w_consoles : gmap ptr VartConsole;
  w_fdts : gmap ptr VartFdt;
  w_pci_buses : gmap ptr VartPciBus;
  w_bridges : gmap ptr VartPciBridge;
  w_switches : gmap ptr VartPciSwitch;
  w_complexes : gmap ptr VartPciRootComplex;
  w_virtio_pcis : gmap ptr VartVirtioPciDevice;
  w_blks : gmap ptr VartVirtioBlkDevice;
  w_nets : gmap ptr VartVirtioNetDevice;
  w_sources : gmap ptr VartEventSource;
  w_loops : gmap ptr VartEventLoop;
  w_files : gmap Z (list Z);
  w_kvms : gmap ptr VartKvm;
  w_vms : gmap ptr VartVm;
  w_routings : gmap ptr VartKvmIrqRouting;
  w_irqfds : gmap ptr VartPciMsixIrqfd;
  w_aias : gmap ptr VartRiscvAia;
  w_vcpus : gmap ptr VartVcpu;
  w_sbi_handlers : gmap ptr VartRiscvSbiHandler;
  w_sbi_dispatchers : gmap ptr VartRiscvSbiDispatcher;
}.
#[export] Instance World_rebuild : Rebuild World :=
  env_const mkWorld $* w_regions $* w_spaces $* w_host $* w_oom $* w_contexts
    $* w_devices $* w_irqs $* w_iommus $* w_memory $* w_plain_devices
    $* w_buses $* w_uarts $* w_test_devices $* w_consoles $* w_fdts
    $* w_pci_buses $* w_bridges $* w_switches $* w_complexes
    $* w_virtio_pcis $* w_blks $* w_nets $* w_sources $* w_loops $* w_files
    $* w_kvms $* w_vms $* w_routings $* w_irqfds $* w_aias $* w_vcpus
    $* w_sbi_handlers $* w_sbi_dispatchers.

Definition empty_world : World := 
  mkWorld ∅ ∅ ∅ [] ∅ ∅ ∅ ∅ ∅ ∅ ∅ ∅ ∅ ∅ ∅ ∅ ∅ ∅ ∅ ∅ ∅ ∅ ∅ ∅ ∅
    ∅ ∅ ∅ ∅ ∅ ∅ ∅ ∅.

(** Loads and stores of whole objects. *)
Definition load_region (r : ptr) : M World VartAddressRegion :=
  let* w := get in deref (w_regions w !! r).
Definition store_region (r : ptr) (v : VartAddressRegion) : M World unit :=
  modify (fun w => w <| w_regions ::= <[r := v]> |>).
Definition load_space (s : ptr) : M World VartAddressSpace :=
  let* w := get in deref (w_spaces w !! s).
Definition store_space (s : ptr) (v : VartAddressSpace) : M World unit :=
  modify (fun w => w <| w_spaces ::= <[s := v]> |>).
Definition load_context (c : ptr) : M World VartIommuContext :=
  let* w := get in deref (w_contexts w !! c).
Definition store_context (c : ptr) (v : VartIommuContext) : M World unit :=
  modify (fun w => w <| w_contexts ::= <[c := v]> |>).
Definition load_device (d : ptr) : M World VartPciDevice :=
  let* w := get in deref (w_devices w !! d).
Definition store_device (d : ptr) (v : VartPciDevice) : M World unit :=
  modify (fun w => w <| w_devices ::= <[d := v]> |>).
Definition load_irq (i : ptr) : M World VartIrq :=
  let* w := get in deref (w_irqs w !! i).
Definition store_irq (i : ptr) (v : VartIrq) : M World unit :=
  modify (fun w => w <| w_irqs ::= <[i := v]> |>).
Definition load_iommu (i : ptr) : M World VartRiscvIommu :=
  let* w := get in deref (w_iommus w !! i).
Definition store_iommu (i : ptr) (v : VartRiscvIommu) : M World unit :=
  modify (fun w => w <| w_iommus ::= <[i := v]> |>).

Definition load_memory (r : ptr) : M World VartMemoryRegion :=
  let* w := get in deref (w_memory w !! r).
Definition store_memory (r : ptr) (v : VartMemoryRegion) : M World unit :=
  modify (fun w => w <| w_memory ::= <[r := v]> |>).
Definition load_plain_device (d : ptr) : M World VartDevice :=
  let* w := get in deref (w_plain_devices w !! d).
Definition store_plain_device (d : ptr) (v : VartDevice) : M World unit :=
  modify (fun w => w <| w_plain_devices ::= <[d := v]> |>).
Definition load_bus (b : ptr) : M World VartBus :=
  let* w := get in deref (w_buses w !! b).
Definition store_bus (b : ptr) (v : VartBus) : M World unit :=
  modify (fun w => w <| w_buses ::= <[b := v]> |>).
Definition load_uart (u : ptr) : M World VartUart16550 :=
  let* w := get in deref (w_uarts w !! u).
Definition store_uart (u : ptr) (v : VartUart16550) : M World unit :=
  modify (fun w => w <| w_uarts ::= <[u := v]> |>).
Definition load_test_device (t : ptr) : M World VartTestDevice :=
  let* w := get in deref (w_test_devices w !! t).
Definition store_test_device (t : ptr) (v : VartTestDevice) : M World unit :=
  modify (fun w => w <| w_test_devices ::= <[t := v]> |>).
Definition load_console (c : ptr) : M World VartConsole :=
  let* w := get in deref (w_consoles w !! c).
Definition store_console (c : ptr) (v : VartConsole) : M World unit :=
  modify (fun w => w <| w_consoles ::= <[c := v]> |>).
Definition load_fdt (f : ptr) : M World VartFdt :=
  let* w := get in deref (w_fdts w !! f).
Definition store_fdt (f : ptr) (v : VartFdt) : M World unit :=
  modify (fun w => w <| w_fdts ::= <[f := v]> |>).
Definition load_pci_bus (p : ptr) : M World VartPciBus :=
  let* w := get in deref (w_pci_buses w !! p).
Definition store_pci_bus (p : ptr) (v : VartPciBus) : M World unit :=
  modify (fun w => w <| w_pci_buses ::= <[p := v]> |>).
Definition load_bridge (p : ptr) : M World VartPciBridge :=
  let* w := get in deref (w_bridges w !! p).
Definition store_bridge (p : ptr) (v : VartPciBridge) : M World unit :=
  modify (fun w => w <| w_bridges ::= <[p := v]> |>).
Definition load_switch (p : ptr) : M World VartPciSwitch :=
  let* w := get in deref (w_switches w !! p).
Definition store_switch (p : ptr) (v : VartPciSwitch) : M World unit :=
  modify (fun w => w <| w_switches ::= <[p := v]> |>).
Definition load_complex (p : ptr) : M World VartPciRootComplex :=
  let* w := get in deref (w_complexes w !! p).
Definition store_complex (p : ptr) (v : VartPciRootComplex) : M World unit :=
  modify (fun w => w <| w_complexes ::= <[p := v]> |>).
Definition load_virtio_pci (p : ptr) : M World VartVirtioPciDevice :=
  let* w := get in deref (w_virtio_pcis w !! p).
Definition store_virtio_pci (p : ptr) (v : VartVirtioPciDevice) : M World unit :=
  modify (fun w => w <| w_virtio_pcis ::= <[p := v]> |>).
Definition load_blk (p : ptr) : M World VartVirtioBlkDevice :=
  let* w := get in deref (w_blks w !! p).
Definition store_blk (p : ptr) (v : VartVirtioBlkDevice) : M World unit :=
  modify (fun w => w <| w_blks ::= <[p := v]> |>).
Definition load_net (p : ptr) : M World VartVirtioNetDevice :=
  let* w := get in deref (w_nets w !! p).
Definition store_net (p : ptr) (v : VartVirtioNetDevice) : M World unit :=
  modify (fun w => w <| w_nets ::= <[p := v]> |>).
Definition load_source (p : ptr) : M World VartEventSource :=
  let* w := get in deref (w_sources w !! p).
Definition store_source (p : ptr) (v : VartEventSource) : M World unit :=
  modify (fun w => w <| w_sources ::= <[p := v]> |>).
Definition load_loop (p : ptr) : M World VartEventLoop :=
  let* w := get in deref (w_loops w !! p).
Definition store_loop (p : ptr) (v : VartEventLoop) : M World unit :=
  modify (fun w => w <| w_loops ::= <[p := v]> |>).

Definition load_kvm (p : ptr) : M World VartKvm :=
  let* w := get in deref (w_kvms w !! p).
Definition load_vm (p : ptr) : M World VartVm :=
  let* w := get in deref (w_vms w !! p).
Definition store_vm (p : ptr) (v : VartVm) : M World unit :=
  modify (fun w => w <| w_vms ::= <[p := v]> |>).
Definition load_routing (p : ptr) : M World VartKvmIrqRouting :=
  let* w := get in deref (w_routings w !! p).
Definition store_routing (p : ptr) (v : VartKvmIrqRouting) : M World unit :=
  modify (fun w => w <| w_routings ::= <[p := v]> |>).
Definition load_irqfd (p : ptr) : M World VartPciMsixIrqfd :=
  let* w := get in deref (w_irqfds w !! p).
Definition store_irqfd (p : ptr) (v : VartPciMsixIrqfd) : M World unit :=
  modify (fun w => w <| w_irqfds ::= <[p := v]> |>).
Definition load_aia (p : ptr) : M World VartRiscvAia :=
  let* w := get in deref (w_aias w !! p).
Definition store_aia (p : ptr) (v : VartRiscvAia) : M World unit :=
  modify (fun w => w <| w_aias ::= <[p := v]> |>).
Definition load_vcpu (p : ptr) : M World VartVcpu :=
  let* w := get in deref (w_vcpus w !! p).
Definition store_vcpu (p : ptr) (v : VartVcpu) : M World unit :=
  modify (fun w => w <| w_vcpus ::= <[p := v]> |>).
Definition load_sbi_handler (p : ptr) : M World VartRiscvSbiHandler :=
  let* w := get in deref (w_sbi_handlers w !! p).
Definition store_sbi_handler (p : ptr) (v : VartRiscvSbiHandler) : M World unit :=
  modify (fun w => w <| w_sbi_handlers ::= <[p := v]> |>).
Definition load_sbi_dispatcher (p : ptr) : M World VartRiscvSbiDispatcher :=
  let* w := get in deref (w_sbi_dispatchers w !! p).
Definition store_sbi_dispatcher (p : ptr) (v : VartRiscvSbiDispatcher) : M World unit :=
  modify (fun w => w <| w_sbi_dispatchers ::= <[p := v]> |>).

(** [malloc], [calloc] or [realloc]: whether the allocation succeeds. *)
Definition allocate : M World bool :=
  let* w := get in
  match w_oom w with
  | [] => ret true
  | failed :: rest => put (w <| w_oom := rest |>) ;;; ret (negb failed)
  end.

(** [memcpy] from and to host memory. *)
Definition host_read (a n : Z) : M World (list Z) :=
  let* w := get in deref (mem_read (w_host w) a (Z.to_nat n)).
Definition host_write (a : Z) (data : list Z) : M World unit :=
  let* w := get in
  let* h := deref (mem_write (w_host w) a data) in
  put (w <| w_host := h |>).

(** * Steps of the heap operations under [wp] *)

Section WpHeap.
Implicit Types w : World.

Lemma wp_load_region r v Q w :
  w_regions w !! r = Some v -> Q v w -> wp (load_region r) Q w.
Proof. intros H ?. unfold load_region. run_unfold. by rewrite H. Qed.
Lemma wp_load_space a s Q w :
  w_spaces w !! a = Some s -> Q s w -> wp (load_space a) Q w.
Proof. intros H ?. unfold load_space. run_unfold. by rewrite H. Qed.
Lemma wp_load_context c v Q w :
  w_contexts w !! c = Some v -> Q v w -> wp (load_context c) Q w.
Proof. intros H ?. unfold load_context. run_unfold. by rewrite H. Qed.
Lemma wp_load_device d v Q w :
  w_devices w !! d = Some v -> Q v w -> wp (load_device d) Q w.
Proof. intros H ?. unfold load_device. run_unfold. by rewrite H. Qed.
Lemma wp_load_irq i v Q w :
  w_irqs w !! i = Some v -> Q v w -> wp (load_irq i) Q w.
Proof. intros H ?. unfold load_irq. run_unfold. by rewrite H. Qed.
Lemma wp_load_iommu i v Q w :
  w_iommus w !! i = Some v -> Q v w -> wp (load_iommu i) Q w.
Proof. intros H ?. unfold load_iommu. run_unfold. by rewrite H. Qed.

Lemma wp_load_memory i v Q w :
  w_memory w !! i = Some v -> Q v w -> wp (load_memory i) Q w.
Proof. intros H ?. unfold load_memory. run_unfold. by rewrite H. Qed.
Lemma wp_load_plain_device i v Q w :
  w_plain_devices w !! i = Some v -> Q v w -> wp (load_plain_device i) Q w.
Proof. intros H ?. unfold load_plain_device. run_unfold. by rewrite H. Qed.
Lemma wp_load_bus i v Q w :
  w_buses w !! i = Some v -> Q v w -> wp (load_bus i) Q w.
Proof. intros H ?. unfold load_bus. run_unfold. by rewrite H. Qed.
Lemma wp_load_fdt i v Q w :
  w_fdts w !! i = Some v -> Q v w -> wp (load_fdt i) Q w.
Proof. intros H ?. unfold load_fdt. run_unfold. by rewrite H. Qed.
Lemma wp_load_pci_bus i v Q w :
  w_pci_buses w !! i = Some v -> Q v w -> wp (load_pci_bus i) Q w.
Proof. intros H ?. unfold load_pci_bus. run_unfold. by rewrite H. Qed.
Lemma wp_load_bridge i v Q w :
  w_bridges w !! i = Some v -> Q v w -> wp (load_bridge i) Q w.
Proof. intros H ?. unfold load_bridge. run_unfold. by rewrite H. Qed.
Lemma wp_load_switch i v Q w :
  w_switches w !! i = Some v -> Q v w -> wp (load_switch i) Q w.
Proof. intros H ?. unfold load_switch. run_unfold. by rewrite H. Qed.
Lemma wp_load_complex i v Q w :
  w_complexes w !! i = Some v -> Q v w -> wp (load_complex i) Q w.
Proof. intros H ?. unfold load_complex. run_unfold. by rewrite H. Qed.
Lemma wp_load_virtio_pci i v Q w :
  w_virtio_pcis w !! i = Some v -> Q v w -> wp (load_virtio_pci i) Q w.
Proof. intros H ?. unfold load_virtio_pci. run_unfold. by rewrite H. Qed.
Lemma wp_load_blk i v Q w :
  w_blks w !! i = Some v -> Q v w -> wp (load_blk i) Q w.
Proof. intros H ?. unfold load_blk. run_unfold. by rewrite H. Qed.
Lemma wp_load_net i v Q w :
  w_nets w !! i = Some v -> Q v w -> wp (load_net i) Q w.
Proof. intros H ?. unfold load_net. run_unfold. by rewrite H. Qed.
Lemma wp_load_source i v Q w :
  w_sources w !! i = Some v -> Q v w -> wp (load_source i) Q w.
Proof. intros H ?. unfold load_source. run_unfold. by rewrite H. Qed.
Lemma wp_load_loop i v Q w :
  w_loops w !! i = Some v -> Q v w -> wp (load_loop i) Q w.
Proof. intros H ?. unfold load_loop. run_unfold. by rewrite H. Qed.

Lemma wp_load_kvm i v Q w :
  w_kvms w !! i = Some v -> Q v w -> wp (load_kvm i) Q w.
Proof. intros H ?. unfold load_kvm. run_unfold. by rewrite H. Qed.
Lemma wp_load_vm i v Q w :
  w_vms w !! i = Some v -> Q v w -> wp (load_vm i) Q w.
Proof. intros H ?. unfold load_vm. run_unfold. by rewrite H. Qed.
Lemma wp_load_routing i v Q w :
  w_routings w !! i = Some v -> Q v w -> wp (load_routing i) Q w.
Proof. intros H ?. unfold load_routing. run_unfold. by rewrite H. Qed.
Lemma wp_load_irqfd i v Q w :
  w_irqfds w !! i = Some v -> Q v w -> wp (load_irqfd i) Q w.
Proof. intros H ?. unfold load_irqfd. run_unfold. by rewrite H. Qed.
Lemma wp_load_aia i v Q w :
  w_aias w !! i = Some v -> Q v w -> wp (load_aia i) Q w.
Proof. intros H ?. unfold load_aia. run_unfold. by rewrite H. Qed.
Lemma wp_load_vcpu i v Q w :
  w_vcpus w !! i = Some v -> Q v w -> wp (load_vcpu i) Q w.
Proof. intros H ?. unfold load_vcpu. run_unfold. by rewrite H. Qed.
Lemma wp_load_sbi_handler i v Q w :
  w_sbi_handlers w !! i = Some v -> Q v w -> wp (load_sbi_handler i) Q w.
Proof. intros H ?. unfold load_sbi_handler. run_unfold. by rewrite H. Qed.
Lemma wp_load_sbi_dispatcher i v Q w :
  w_sbi_dispatchers w !! i = Some v -> Q v w -> wp (load_sbi_dispatcher i) Q w.
Proof. intros H ?. unfold load_sbi_dispatcher. run_unfold. by rewrite H. Qed.

Lemma wp_allocate Q w :
  (forall b rest, w_oom w = b :: rest -> Q (negb b) (w <| w_oom := rest |>)) ->
  (w_oom w = [] -> Q true w) -> wp allocate Q w.
Proof.
  intros H1 H2. unfold allocate. run_unfold.
  destruct (w_oom w) eqn:E; [by apply H2|by apply H1].
Qed.

Lemma wp_host_read a n data Q w :
  mem_read (w_host w) a (Z.to_nat n) = Some data -> Q data w ->
  wp (host_read a n) Q w.
Proof. intros H ?. unfold host_read. run_unfold. by rewrite H. Qed.

Lemma wp_host_write a data h Q w :
  mem_write (w_host w) a data = Some h -> Q tt (w <| w_host := h |>) ->
  wp (host_write a data) Q w.
Proof. intros H ?. unfold host_write. run_unfold. by rewrite H. Qed.
End WpHeap.

(** Loads that returned. *)
Section LoadOk.
Implicit Types w : World.
Lemma load_context_Ok w c v w' :
  load_context c w = Ok (v, w') -> w_contexts w !! c = Some v /\ w' = w.
Proof. unfold load_context. intros. by inv_ok. Qed.
Lemma load_device_Ok w d v w' :
  load_device d w = Ok (v, w') -> w_devices w !! d = Some v /\ w' = w.
Proof. unfold load_device. intros. by inv_ok. Qed.
Lemma load_irq_Ok w i v w' :
  load_irq i w = Ok (v, w') -> w_irqs w !! i = Some v /\ w' = w.
Proof. unfold load_irq. intros. by inv_ok. Qed.
Lemma load_iommu_Ok w i v w' :
  load_iommu i w = Ok (v, w') -> w_iommus w !! i = Some v /\ w' = w.
Proof. unfold load_iommu. intros. by inv_ok. Qed.
Lemma load_memory_Ok w r v w' :
  load_memory r w = Ok (v, w') -> w_memory w !! r = Some v /\ w' = w.
Proof. unfold load_memory. intros. by inv_ok. Qed.
Lemma load_plain_device_Ok w d v w' :
  load_plain_device d w = Ok (v, w') -> w_plain_devices w !! d = Some v /\ w' = w.
Proof. unfold load_plain_device. intros. by inv_ok. Qed.
Lemma load_bus_Ok w b v w' :
  load_bus b w = Ok (v, w') -> w_buses w !! b = Some v /\ w' = w.
Proof. unfold load_bus. intros. by inv_ok. Qed.
Lemma load_uart_Ok w u v w' :
  load_uart u w = Ok (v, w') -> w_uarts w !! u = Some v /\ w' = w.
Proof. unfold load_uart. intros. by inv_ok. Qed.
Lemma load_console_Ok w c v w' :
  load_console c w = Ok (v, w') -> w_consoles w !! c = Some v /\ w' = w.
Proof. unfold load_console. intros. by inv_ok. Qed.
Lemma load_test_device_Ok w t v w' :
  load_test_device t w = Ok (v, w') -> w_test_devices w !! t = Some v /\ w' = w.
Proof. unfold load_test_device. intros. by inv_ok. Qed.
Lemma load_fdt_Ok w f v w' :
  load_fdt f w = Ok (v, w') -> w_fdts w !! f = Some v /\ w' = w.
Proof. unfold load_fdt. intros. by inv_ok. Qed.
Lemma load_pci_bus_Ok w i v w' :
  load_pci_bus i w = Ok (v, w') -> w_pci_buses w !! i = Some v /\ w' = w.
Proof. unfold load_pci_bus. intros. by inv_ok. Qed.
Lemma load_bridge_Ok w i v w' :
  load_bridge i w = Ok (v, w') -> w_bridges w !! i = Some v /\ w' = w.
Proof. unfold load_bridge. intros. by inv_ok. Qed.
Lemma load_switch_Ok w i v w' :
  load_switch i w = Ok (v, w') -> w_switches w !! i = Some v /\ w' = w.
Proof. unfold load_switch. intros. by inv_ok. Qed.
Lemma load_complex_Ok w i v w' :
  load_complex i w = Ok (v, w') -> w_complexes w !! i = Some v /\ w' = w.
Proof. unfold load_complex. intros. by inv_ok. Qed.
Lemma load_virtio_pci_Ok w i v w' :
  load_virtio_pci i w = Ok (v, w') -> w_virtio_pcis w !! i = Some v /\ w' = w.
Proof. unfold load_virtio_pci. intros. by inv_ok. Qed.
Lemma load_blk_Ok w i v w' :
  load_blk i w = Ok (v, w') -> w_blks w !! i = Some v /\ w' = w.
Proof. unfold load_blk. intros. by inv_ok. Qed.
Lemma load_net_Ok w i v w' :
  load_net i w = Ok (v, w') -> w_nets w !! i = Some v /\ w' = w.
Proof. unfold load_net. intros. by inv_ok. Qed.
Lemma load_source_Ok w i v w' :
  load_source i w = Ok (v, w') -> w_sources w !! i = Some v /\ w' = w.
Proof. unfold load_source. intros. by inv_ok. Qed.
Lemma load_loop_Ok w i v w' :
  load_loop i w = Ok (v, w') -> w_loops w !! i = Some v /\ w' = w.
Proof. unfold load_loop. intros. by inv_ok. Qed.
End LoadOk.

(** * Linked lists *)

(** The links from [head] on run through the objects [l] and end. *)
Fixpoint list_from {V} (next : V -> option ptr) (objects : gmap ptr V) (head : option ptr)
    (l : list ptr) : Prop :=
  match l with
  | [] => head = None
  | p :: l => head = Some p /\ exists v, objects !! p = Some v /\ list_from next objects (next v) l
  end.

Lemma list_from_ext {V} (next : V -> option ptr) vs vs' head l :
  (forall p, p ∈ l -> vs' !! p = vs !! p) -> list_from next vs head l -> list_from next vs' head l.
Proof.
  revert head. induction l as [|p l IH]; intros head Hext; cbn; [done|].
  intros (-> & v & Hv & Hc). split; [done|]. exists v. rewrite Hext by set_solver.
  split; [done|]. apply IH; [|done]. intros q Hq. apply Hext. set_solver.
Qed.

Lemma list_from_mapped {V} (next : V -> option ptr) vs head l p :
  list_from next vs head l -> p ∈ l -> is_Some (vs !! p).
Proof.
  revert head. induction l as [|x l IH]; intros head; cbn; [set_solver|].
  intros (_ & v & Hv & Hc) [->|Hp]%elem_of_cons; [done|by eapply IH].
Qed.

(** A system call changes the host's state only. *)
Definition host_only (w w' : World) : Prop := exists f, w' = w <| w_files := f |>.

Lemma host_only_refl w : host_only w w.
Proof. exists (w_files w). by destruct w. Qed.
Lemma host_only_trans w1 w2 w3 : host_only w1 w2 -> host_only w2 w3 -> host_only w1 w3.
Proof. intros [f1 ->] [f2 ->]. exists f2. by destruct w1. Qed.
#[export] Instance host_only_preorder : PreOrder host_only.
Proof. split; [exact host_only_refl|exact host_only_trans]. Qed.

(** One symbolic step: sequencing, loads of objects known to exist, stores. *)
Ltac wstep :=
  lazymatch goal with
  | |- wp (bind _ _) _ _ => apply wp_bind
  | |- wp (ret _) _ _ => apply wp_ret
  | |- wp get _ _ => apply wp_get
  | |- wp (modify _) _ _ => apply wp_modify
  | |- wp (put _) _ _ => apply wp_put
  | |- wp (gets _) _ _ => apply wp_gets
  | |- wp (deref _) _ _ => eapply wp_deref; [eassumption|]
  | |- wp (load_region _) _ _ => eapply wp_load_region; [eassumption|]
  | |- wp (load_space _) _ _ => eapply wp_load_space; [eassumption|]
  | |- wp (load_context _) _ _ => eapply wp_load_context; [eassumption|]
  | |- wp (load_device _) _ _ => eapply wp_load_device; [eassumption|]
  | |- wp (load_irq _) _ _ => eapply wp_load_irq; [eassumption|]
  | |- wp (load_iommu _) _ _ => eapply wp_load_iommu; [eassumption|]
  | |- wp (store_region _ _) _ _ => apply wp_modify
  | |- wp (store_space _ _) _ _ => apply wp_modify
  | |- wp (store_context _ _) _ _ => apply wp_modify
  | |- wp (store_device _ _) _ _ => apply wp_modify
  | |- wp (store_irq _ _) _ _ => apply wp_modify
  | |- wp (store_iommu _ _) _ _ => apply wp_modify
  | |- wp (load_memory _) _ _ => eapply wp_load_memory; [eassumption|]
  | |- wp (store_memory _ _) _ _ => apply wp_modify
  | |- wp (load_plain_device _) _ _ => eapply wp_load_plain_device; [eassumption|]
  | |- wp (store_plain_device _ _) _ _ => apply wp_modify
  | |- wp (load_bus _) _ _ => eapply wp_load_bus; [eassumption|]
  | |- wp (store_bus _ _) _ _ => apply wp_modify
  | |- wp (load_fdt _) _ _ => eapply wp_load_fdt; [eassumption|]
  | |- wp (store_fdt _ _) _ _ => apply wp_modify
  | |- wp (load_pci_bus _) _ _ => eapply wp_load_pci_bus; [eassumption|]
  | |- wp (store_pci_bus _ _) _ _ => apply wp_modify
  | |- wp (load_bridge _) _ _ => eapply wp_load_bridge; [eassumption|]
  | |- wp (store_bridge _ _) _ _ => apply wp_modify
  | |- wp (load_switch _) _ _ => eapply wp_load_switch; [eassumption|]
  | |- wp (store_switch _ _) _ _ => apply wp_modify
  | |- wp (load_complex _) _ _ => eapply wp_load_complex; [eassumption|]
  | |- wp (store_complex _ _) _ _ => apply wp_modify
  | |- wp (load_virtio_pci _) _ _ => eapply wp_load_virtio_pci; [eassumption|]
  | |- wp (store_virtio_pci _ _) _ _ => apply wp_modify
  | |- wp (load_blk _) _ _ => eapply wp_load_blk; [eassumption|]
  | |- wp (store_blk _ _) _ _ => apply wp_modify
  | |- wp (load_net _) _ _ => eapply wp_load_net; [eassumption|]
  | |- wp (store_net _ _) _ _ => apply wp_modify
  | |- wp (load_source _) _ _ => eapply wp_load_source; [eassumption|]
  | |- wp (store_source _ _) _ _ => apply wp_modify
  | |- wp (load_loop _) _ _ => eapply wp_load_loop; [eassumption|]
  | |- wp (store_loop _ _) _ _ => apply wp_modify
  | |- wp (load_kvm _) _ _ => eapply wp_load_kvm; [eassumption|]
  | |- wp (load_vm _) _ _ => eapply wp_load_vm; [eassumption|]
  | |- wp (store_vm _ _) _ _ => apply wp_modify
  | |- wp (load_routing _) _ _ => eapply wp_load_routing; [eassumption|]
  | |- wp (store_routing _ _) _ _ => apply wp_modify
  | |- wp (load_irqfd _) _ _ => eapply wp_load_irqfd; [eassumption|]
  | |- wp (store_irqfd _ _) _ _ => apply wp_modify
  | |- wp (load_aia _) _ _ => eapply wp_load_aia; [eassumption|]
  | |- wp (store_aia _ _) _ _ => apply wp_modify
  | |- wp (load_vcpu _) _ _ => eapply wp_load_vcpu; [eassumption|]
  | |- wp (store_vcpu _ _) _ _ => apply wp_modify
  | |- wp (load_sbi_handler _) _ _ => eapply wp_load_sbi_handler; [eassumption|]
  | |- wp (store_sbi_handler _ _) _ _ => apply wp_modify
  | |- wp (load_sbi_dispatcher _) _ _ => eapply wp_load_sbi_dispatcher; [eassumption|]
  | |- wp (store_sbi_dispatcher _ _) _ _ => apply wp_modify
  end.
Ltac wsteps := repeat (wstep; cbv beta iota).
