(* ===== verification/AddressSpace.v ===== *)
(** Address spaces and regions: [src/core/address-space.c].

    An address space is a growable array of region pointers; a region points
    back to the space it is mapped in.  Lookup picks the enabled region of the
    highest priority that contains the whole accessed range; MMIO accesses go to
    the region's callbacks, buffer accesses go to RAM, through the translator of
    the space when it has one. *)

From stdpp Require Import base tactics numbers list gmap.
From Stdlib Require Import ZArith Lia.
From S2P Require Import Prelude Bytes Machine.

(** * Callbacks *)

(** What the MMIO functions stored in [VartMmioOps] do: the callback receives
    its opaque pointer, the offset, the access size and (for a read) the
    current contents of [*value]. *)
Class MmioCallbacks := {
  call_mmio_read : fnptr -> option ptr -> Z -> Z -> Z -> M World (Z * Z);
  call_mmio_write : fnptr -> option ptr -> Z -> Z -> Z -> M World Z;
}.

(** A buffer access to an address space: the space, the address, the caller's
    buffer ([None] for [NULL]), the size and the direction; it returns the
    error code and the buffer afterwards. *)
Definition Accessor : Type :=
  ptr -> Z -> option (list Z) -> Z -> bool -> M World (Z * option (list Z)).

(** What a translator stored in an address space does, given the accessor it
    may use on other spaces: it returns the error code and the two values
    stored through [target] and [translated]. *)
Class TranslateCallbacks :=
  call_translate : Accessor -> fnptr -> option ptr -> Z -> Z -> bool ->
                   M World (Z * option ptr * Z).

(** * Regions *)

Definition region_type_of_Z (t : Z) : option VartAddressRegionType :=
  if t =? 0 then Some VART_REGION_RAM
  else if t =? 1 then Some VART_REGION_ROM
  else if t =? 2 then Some VART_REGION_MMIO
  else if t =? 3 then Some VART_REGION_ALIAS
  else None.

(** The all-zero struct [memset] leaves. *)
Definition zero_region : VartAddressRegion :=
  mkRegion 0 0 0 VART_REGION_RAM false None None None None None.

(** [type > VART_REGION_ALIAS] holds of exactly the values that decode to no
    enumerator. *)
Definition vart_address_region_init (region : option ptr) (type base size
    priority : Z) (owner : option ptr) : M World Z :=
  match region, region_type_of_Z type with
  | Some r, Some ty =>
      if (size =? 0) || (UINT64_MAX - (size - 1) <? base) then ret (-EINVAL)
      else
        store_region r (zero_region <| r_base := base |> <| r_size := size |>
          <| r_priority := priority |> <| r_type := ty |> <| r_enabled := true |>
          <| r_owner := owner |>) ;;;
        ret 0
  | _, _ => ret (-EINVAL)
  end.

Definition mmio_ops_usable (ops : option VartMmioOps) : bool :=
  match ops with
  | Some o => bool_decide (is_Some (mmio_read o) \/ is_Some (mmio_write o))
  | None => false
  end.

Definition vart_address_region_init_mmio (region : option ptr) (base size
    priority : Z) (owner : option ptr) (ops : option VartMmioOps)
    (opaque : option ptr) : M World Z :=
  if negb (mmio_ops_usable ops) then ret (-EINVAL)
  else
    let* err := vart_address_region_init region 2 base size priority owner in
    if err <? 0 then ret err
    else
      let* r := deref region in
      let* v := load_region r in
      store_region r (v <| r_mmio_ops := ops |> <| r_mmio_opaque := opaque |>) ;;;
      ret 0.

Definition vart_address_region_init_ram (region : option ptr) (base size
    priority : Z) (owner : option ptr) (host_addr : option Z) : M World Z :=
  match host_addr with
  | None => ret (-EINVAL)
  | Some _ =>
      let* err := vart_address_region_init region 0 base size priority owner in
      if err <? 0 then ret err
      else
        let* r := deref region in
        let* v := load_region r in
        store_region r (v <| r_ram_addr := host_addr |>) ;;;
        ret 0
  end.

Definition vart_address_region_set_enabled (region : option ptr) (e : bool)
    : M World Z :=
  match region with
  | None => ret (-EBUSY)
  | Some r =>
      let* v := load_region r in
      match r_address_space v with
      | Some _ => ret (-EBUSY)
      | None => store_region r (v <| r_enabled := e |>) ;;; ret 0
      end
  end.

Definition vart_address_region_contains (region : option VartAddressRegion)
    (address size : Z) : bool :=
  match region with
  | None => false
  | Some r =>
      if negb (r_enabled r) || (address <? r_base r) then false
      else
        let offset := u64 (address - r_base r) in
        if r_size r <? offset then false
        else size <=? u64 (r_size r - offset)
  end.

Arguments vart_address_region_contains : simpl never.

(** * Address spaces *)

Definition zero_space : VartAddressSpace := mkSpace [] 0 None None.

Definition vart_address_space_init (address_space : ptr) : M World unit :=
  store_space address_space zero_space.

Fixpoint detach_regions (l : list ptr) : M World unit :=
  match l with
  | [] => ret tt
  | r :: rest =>
      let* v := load_region r in
      store_region r (v <| r_address_space := None |>) ;;;
      detach_regions rest
  end.

Definition vart_address_space_destroy (address_space : ptr) : M World unit :=
  let* s := load_space address_space in
  detach_regions (as_regions s) ;;;
  store_space address_space zero_space.

Definition vart_address_space_set_translator (address_space : option ptr)
    (translate : option fnptr) (opaque : option ptr) : M World Z :=
  match address_space with
  | None => ret (-EINVAL)
  | Some a =>
      if bool_decide (translate = None /\ opaque <> None) then ret (-EINVAL)
      else
        let* s := load_space a in
        if negb (Z.of_nat (length (as_regions s)) =? 0) ||
           bool_decide (as_translate s <> None)
        then ret (-EBUSY)
        else
          store_space a (s <| as_translate := translate |>
                           <| as_translate_opaque := opaque |>) ;;;
          ret 0
  end.

Definition address_regions_overlap (a b : VartAddressRegion) : bool :=
  let a_last := u64 (r_base a + r_size a - 1) in
  let b_last := u64 (r_base b + r_size b - 1) in
  (r_base a <=? b_last) && (r_base b <=? a_last).

(** The scan for an equal-priority overlap. *)
Fixpoint overlap_loop (region : VartAddressRegion) (l : list ptr)
    : M World bool :=
  match l with
  | [] => ret false
  | r :: rest =>
      let* v := load_region r in
      if (r_priority region =? r_priority v) && address_regions_overlap region v
      then ret true
      else overlap_loop region rest
  end.

Definition sizeof_ptr : Z := 8.

(** Growth of a pointer array from [cap] entries, [first] when it is empty:
    the new capacity, or the error code. *)
Definition grow_capacity (cap first : Z) : M World (Z + Z) :=
  let capacity := if cap =? 0 then first else u64 (cap * 2) in
  if (capacity <? cap) || (SIZE_MAX / sizeof_ptr <? capacity)
  then ret (inl (-EOVERFLOW))
  else
    let* ok := allocate in
    if ok then ret (inr capacity) else ret (inl (-ENOMEM)).

Definition vart_address_space_add (address_space region : option ptr)
    : M World Z :=
  match address_space, region with
  | Some a, Some r =>
      let* v := load_region r in
      if bool_decide (r_address_space v <> None) then ret (-EALREADY)
      else
        let* s := load_space a in
        let* overlap := overlap_loop v (as_regions s) in
        if overlap then ret (-EEXIST)
        else
          let* grown :=
            if Z.of_nat (length (as_regions s)) =? as_capacity s
            then grow_capacity (as_capacity s) 8
            else ret (inr (as_capacity s)) in
          match grown with
          | inl err => ret err
          | inr capacity =>
              store_space a (s <| as_regions ::= fun l => l ++ [r] |>
                               <| as_capacity := capacity |>) ;;;
              store_region r (v <| r_address_space := Some a |>) ;;;
              ret 0
          end
  | _, _ => ret (-EINVAL)
  end.

Definition vart_address_space_remove (address_space region : option ptr)
    : M World Z :=
  match address_space, region with
  | Some a, Some r =>
      let* v := load_region r in
      if bool_decide (r_address_space v <> Some a) then ret (-ENOENT)
      else
        let* s := load_space a in
        if bool_decide (r ∈ as_regions s) then
          store_space a (s <| as_regions ::= remove_first r |>) ;;;
          store_region r (v <| r_address_space := None |>) ;;;
          ret 0
        else ret (-ENOENT)
  | _, _ => ret (-ENOENT)
  end.

Definition vart_address_space_set_enabled (address_space region : option ptr)
    (e : bool) : M World Z :=
  match address_space, region with
  | Some a, Some r =>
      let* v := load_region r in
      if bool_decide (r_address_space v <> Some a) then ret (-ENOENT)
      else store_region r (v <| r_enabled := e |>) ;;; ret 0
  | _, _ => ret (-ENOENT)
  end.

(** The scan of [vart_address_space_find] with the best region so far. *)
Fixpoint find_loop (address size : Z) (l : list ptr) (best : option ptr)
    : M World (option ptr) :=
  match l with
  | [] => ret best
  | r :: rest =>
      let* region := load_region r in
      if vart_address_region_contains (Some region) address size then
        match best with
        | None => find_loop address size rest (Some r)
        | Some b =>
            let* best_region := load_region b in
            if r_priority best_region <? r_priority region
            then find_loop address size rest (Some r)
            else find_loop address size rest best
        end
      else find_loop address size rest best
  end.

Definition vart_address_space_find (address_space : option ptr)
    (address size : Z) : M World (option ptr) :=
  match address_space with
  | None => ret None
  | Some a =>
      let* s := load_space a in
      find_loop address size (as_regions s) None
  end.

Definition mmio_access_size_valid (size : Z) : bool :=
  (size =? 1) || (size =? 2) || (size =? 4) || (size =? 8).

Definition mmio_value_mask (size : Z) : Z :=
  if size =? 8 then UINT64_MAX else u64 (Z.shiftl 1 (size * 8)) - 1.

Section Mmio.
Context `{MmioCallbacks}.

(** Returns the error code and the contents of [*value] afterwards. *)
Definition vart_address_space_read (address_space : option ptr)
    (address size : Z) (value : option Z) : M World (Z * option Z) :=
  match value with
  | Some v0 =>
      if negb (mmio_access_size_valid size) then ret (-EINVAL, value)
      else
        let* found := vart_address_space_find address_space address size in
        match found with
        | None => ret (-ENOENT, value)
        | Some r =>
            let* region := load_region r in
            if negb (bool_decide (r_type region = VART_REGION_MMIO))
            then ret (-EACCES, value)
            else
              match r_mmio_ops region ≫= mmio_read with
              | None => ret (-ENOSYS, value)
              | Some f =>
                  let* (err, v) :=
                    call_mmio_read f (r_mmio_opaque region)
                      (u64 (address - r_base region)) size v0 in
                  if err <? 0 then ret (err, Some v)
                  else ret (0, Some (Z.land v (mmio_value_mask size)))
              end
        end
  | None => ret (-EINVAL, None)
  end.

Definition vart_address_space_write (address_space : option ptr)
    (address size value : Z) : M World Z :=
  if negb (mmio_access_size_valid size) then ret (-EINVAL)
  else
    let* found := vart_address_space_find address_space address size in
    match found with
    | None => ret (-ENOENT)
    | Some r =>
        let* region := load_region r in
        if negb (bool_decide (r_type region = VART_REGION_MMIO))
        then ret (-EACCES)
        else
          match r_mmio_ops region ≫= mmio_write with
          | None => ret (-ENOSYS)
          | Some f =>
              call_mmio_write f (r_mmio_opaque region)
                (u64 (address - r_base region)) size
                (Z.land value (mmio_value_mask size))
          end
    end.
End Mmio.

Section Buffers.
Context `{TranslateCallbacks}.

(** The copy between the caller's buffer and RAM at host address [a]; a
    buffer shorter than [size] is undefined behaviour. *)
Definition copy_ram (a : Z) (data : list Z) (size : Z) (write : bool)
    : M World (Z * option (list Z)) :=
  if Z.of_nat (length data) <? size then undefined
  else if write then
    host_write a (take (Z.to_nat size) data) ;;; ret (0, Some data)
  else
    let* bytes := host_read a size in
    ret (0, Some (bytes ++ drop (Z.to_nat size) data)).

(** The recursion on the translated target is bounded by [fuel]. *)
Fixpoint address_space_buffer_access (fuel : nat) : Accessor :=
  fun address_space address buffer size write =>
  match fuel with
  | O => out_of_fuel
  | S fuel =>
      if size =? 0 then ret (0, buffer)
      else
        match buffer with
        | None => ret (-EINVAL, buffer)
        | Some data =>
            let* s := load_space address_space in
            match as_translate s with
            | Some f =>
                let* (err, target, translated) :=
                  call_translate (address_space_buffer_access fuel) f
                    (as_translate_opaque s) address size write in
                if err <? 0 then ret (err, buffer)
                else
                  match target with
                  | None => ret (-EINVAL, buffer)
                  | Some t =>
                      if bool_decide (t = address_space)
                      then ret (-EINVAL, buffer)
                      else address_space_buffer_access fuel t translated
                             buffer size write
                  end
            | None =>
                let* found :=
                  vart_address_space_find (Some address_space) address size in
                match found with
                | None => ret (-ENOENT, buffer)
                | Some r =>
                    let* region := load_region r in
                    match r_ram_addr region with
                    | Some host =>
                        if negb (bool_decide (r_type region = VART_REGION_RAM))
                        then ret (-EACCES, buffer)
                        else
                          let offset := u64 (address - r_base region) in
                          copy_ram (host + offset) data size write
                    | None => ret (-EACCES, buffer)
                    end
                end
            end
        end
  end.

Definition vart_address_space_read_buffer (fuel : nat) (address_space : ptr)
    (address : Z) (buffer : option (list Z)) (size : Z)
    : M World (Z * option (list Z)) :=
  address_space_buffer_access fuel address_space address buffer size false.

Definition vart_address_space_write_buffer (fuel : nat) (address_space : ptr)
    (address : Z) (buffer : option (list Z)) (size : Z) : M World Z :=
  let* (err, _) :=
    address_space_buffer_access fuel address_space address buffer size true in
  ret err.
End Buffers.

(** * Well-formedness

    What [vart_address_region_init] establishes of one region. *)
Record region_ok (v : VartAddressRegion) : Prop := {
  ro_base : 0 <= r_base v;
  ro_size : 0 < r_size v <= UINT64_MAX;
  ro_last : r_base v + r_size v - 1 <= UINT64_MAX;
}.

Definition region_last (v : VartAddressRegion) : Z := r_base v + r_size v - 1.
Definition disjoint_regions (v v' : VartAddressRegion) : Prop :=
  region_last v < r_base v' \/ region_last v' < r_base v.

(** The regions of a space exist, are distinct and point back to it; those of
    equal priority do not overlap; the array's count is within its capacity. *)
Record space_ok (w : World) (a : ptr) (s : VartAddressSpace) : Prop := {
  so_nodup : NoDup (as_regions s);
  so_region : forall r, r ∈ as_regions s -> exists v,
      w_regions w !! r = Some v /\ region_ok v /\ r_address_space v = Some a;
  so_disjoint : forall r r' v v',
      r ∈ as_regions s -> r' ∈ as_regions s -> r <> r' ->
      w_regions w !! r = Some v -> w_regions w !! r' = Some v' ->
      r_priority v = r_priority v' -> disjoint_regions v v';
  so_count : Z.of_nat (length (as_regions s)) <= as_capacity s;
  so_capacity : as_capacity s <= SIZE_MAX / sizeof_ptr;
}.

(** A region that points to a space is in that space's array. *)
Definition backlinks_ok (w : World) : Prop :=
  forall r v a, w_regions w !! r = Some v -> r_address_space v = Some a ->
    exists s, w_spaces w !! a = Some s /\ r ∈ as_regions s.

Record spaces_ok (w : World) : Prop := {
  wo_space : forall a s, w_spaces w !! a = Some s -> space_ok w a s;
  wo_back : backlinks_ok w;
}.

(** * Range containment *)

(** A region answers for a range of guest addresses: it is enabled and the whole range lies
    in it. *)
Definition covers (v : VartAddressRegion) (address size : Z) : Prop :=
  r_enabled v = true /\ r_base v <= address /\ address + size <= r_base v + r_size v.

Lemma contains_iff v address size :
  region_ok v -> 0 <= address <= UINT64_MAX -> 0 <= size <= UINT64_MAX ->
  vart_address_region_contains (Some v) address size = true <-> covers v address size.
Proof.
  intros [] Ha Hs. unfold vart_address_region_contains, covers.
  destruct (r_enabled v); [|by split; [|intros []]]. simpl.
  destruct (Z.ltb_spec address (r_base v)); [split; [done|lia]|].
  rewrite (u64_small (address - r_base v)) by lia.
  destruct (Z.ltb_spec (r_size v) (address - r_base v)); [split; [done|lia]|].
  rewrite u64_small by lia. lia.
Qed.

Lemma overlap_disjoint v v' :
  region_ok v -> region_ok v' ->
  address_regions_overlap v v' = false <-> disjoint_regions v v'.
Proof.
  intros [] []. unfold address_regions_overlap, disjoint_regions, region_last.
  rewrite !u64_small by lia. lia.
Qed.

(** * Lookup *)

(** The specification of a lookup among the regions [l]: [o] is a region of
    the highest priority that covers the range, or there is none. *)
Definition best_of (w : World) (l : list ptr) (address size : Z)
    (o : option ptr) : Prop :=
  match o with
  | None => forall r v, r ∈ l -> w_regions w !! r = Some v ->
      ~ covers v address size
  | Some b => exists vb, b ∈ l /\ w_regions w !! b = Some vb /\ covers vb address size /\
      forall r v, r ∈ l -> w_regions w !! r = Some v -> covers v address size ->
        r_priority v <= r_priority vb
  end.

Definition resolves (w : World) (a : ptr) (address size : Z) (o : option ptr)
    : Prop :=
  exists s, w_spaces w !! a = Some s /\ best_of w (as_regions s) address size o.

(** Lookups depend only on the regions and on the space's array. *)
Lemma resolves_ext w w' a s s' address size o :
  w_regions w' = w_regions w -> w_spaces w !! a = Some s ->
  w_spaces w' !! a = Some s' -> as_regions s' = as_regions s ->
  resolves w' a address size o <-> resolves w a address size o.
Proof.
  intros Hr Hs Hs' Hl. unfold resolves, best_of. rewrite Hr, Hs, Hs'.
  split; intros (? & [= <-] & H); eexists; (split; [done|]); [by rewrite <- Hl|by rewrite Hl].
Qed.

Lemma best_of_snoc_miss w l r v address size o :
  w_regions w !! r = Some v ->
  ~ covers v address size ->
  best_of w l address size o -> best_of w (l ++ [r]) address size o.
Proof.
  intros Hr Hc. destruct o as [b|]; simpl.
  - intros (vb & Hb & Hvb & Hcb & Hmax). exists vb.
    split_and!; [set_solver|done|done|].
    intros r' v' [Hin|Hin%list_elem_of_singleton]%elem_of_app Hr' Hc';
      [by eapply Hmax|congruence].
  - intros Hn r' v' [Hin|Hin%list_elem_of_singleton]%elem_of_app Hr';
      [by eapply Hn|congruence].
Qed.

Lemma find_loop_correct w address size l : forall pre best,
  (forall r, r ∈ pre ++ l -> exists v, w_regions w !! r = Some v /\ region_ok v) ->
  0 <= address <= UINT64_MAX -> 0 <= size <= UINT64_MAX ->
  best_of w pre address size best ->
  wp (find_loop address size l best)
    (fun o w' => w' = w /\ best_of w (pre ++ l) address size o) w.
Proof.
  induction l as [|r rest IH]; intros pre best Hex Ha Hs Hbest.
  { simpl. rewrite app_nil_r. done. }
  replace (pre ++ r :: rest) with ((pre ++ [r]) ++ rest) in * by
    (by rewrite <- app_assoc).
  destruct (Hex r) as (v & Hv & Hok); [set_solver|].
  pose proof (contains_iff v address size Hok Ha Hs) as Hiff.
  cbn [find_loop]. wsteps.
  destruct (vart_address_region_contains (Some v) address size) eqn:Hc;
    [apply proj1 in Hiff; specialize (Hiff eq_refl)|].
  - destruct best as [b|].
    + destruct Hbest as (vb & Hb & Hvb & Hcb & Hmax).
      wsteps. destruct (Z.ltb_spec (r_priority vb) (r_priority v)).
      * apply (IH (pre ++ [r])); [done..|]. exists v.
        split_and!; [set_solver|done..|].
        intros r' v' [Hin|Hin%list_elem_of_singleton]%elem_of_app Hr' Hc'.
        -- specialize (Hmax _ _ Hin Hr' Hc'). lia.
        -- simplify_eq. lia.
      * apply (IH (pre ++ [r])); [done..|]. exists vb.
        split_and!; [set_solver|done..|].
        intros r' v' [Hin|Hin%list_elem_of_singleton]%elem_of_app Hr' Hc';
          [by eapply Hmax|simplify_eq; lia].
    + apply (IH (pre ++ [r])); [done..|]. exists v.
      split_and!; [set_solver|done..|].
      intros r' v' [Hin|Hin%list_elem_of_singleton]%elem_of_app Hr' Hc'.
      * by destruct (Hbest _ _ Hin Hr').
      * simplify_eq. lia.
  - apply (IH (pre ++ [r])); [done..|]. eapply best_of_snoc_miss; [done| |done].
    by intros ?%Hiff.
Qed.

Lemma space_region_exists w a s r :
  spaces_ok w -> w_spaces w !! a = Some s -> r ∈ as_regions s ->
  exists v, w_regions w !! r = Some v /\ region_ok v /\ r_address_space v = Some a.
Proof. intros Hw Hs Hr. by apply (so_region _ _ _ (wo_space _ Hw _ _ Hs)). Qed.

Lemma find_total w a s address size :
  spaces_ok w -> w_spaces w !! a = Some s ->
  0 <= address <= UINT64_MAX -> 0 <= size <= UINT64_MAX ->
  wp (vart_address_space_find (Some a) address size)
    (fun o w' => w' = w /\ best_of w (as_regions s) address size o) w.
Proof.
  intros Hw Hs Ha Hsz. unfold vart_address_space_find. wsteps.
  apply (find_loop_correct w address size (as_regions s) []); [|done..|].
  - intros r Hr. destruct (space_region_exists w a s r) as (v & -> & ? & _); eauto.
  - intros r v Hr. set_solver.
Qed.

(** Equal-priority regions of a space do not overlap, so a non-empty range has
    at most one best region. *)
Lemma best_of_unique w a s address size o o' :
  spaces_ok w -> w_spaces w !! a = Some s ->
  0 <= address <= UINT64_MAX -> 0 < size <= UINT64_MAX ->
  best_of w (as_regions s) address size o ->
  best_of w (as_regions s) address size o' -> o = o'.
Proof.
  intros Hw Hs Ha Hsz H1 H2.
  destruct o as [b|], o' as [b'|]; [| | |done].
  - destruct H1 as (v & Hin & Hv & Hc & Hmax), H2 as (v' & Hin' & Hv' & Hc' & Hmax').
    destruct (decide (b = b')) as [->|Hne]; [done|exfalso].
    pose proof (Hmax _ _ Hin' Hv' Hc'). pose proof (Hmax' _ _ Hin Hv Hc).
    destruct (space_region_exists w a s b) as (? & ? & Hok & _); [done..|].
    destruct (space_region_exists w a s b') as (? & ? & Hok' & _); [done..|].
    simplify_eq.
    destruct Hc as (_ & ? & ?), Hc' as (_ & ? & ?).
    destruct (so_disjoint _ _ _ (wo_space _ Hw _ _ Hs) b b' v v');
      unfold region_last in *; [done..|lia| |]; lia.
  - destruct H1 as (v & Hin & Hv & Hc & _). by destruct (H2 _ _ Hin Hv).
  - destruct H2 as (v & Hin & Hv & Hc & _). by destruct (H1 _ _ Hin Hv).
Qed.

Lemma resolves_unique w a address size o o' :
  spaces_ok w -> 0 <= address <= UINT64_MAX -> 0 < size <= UINT64_MAX ->
  resolves w a address size o -> resolves w a address size o' -> o = o'.
Proof.
  intros Hw Ha Hs (s & Hsp & Hb) (s' & Hsp' & Hb'). simplify_eq.
  by eapply best_of_unique.
Qed.

(** * Registration *)

Lemma overlap_loop_correct w v l :
  (forall r, r ∈ l -> is_Some (w_regions w !! r)) ->
  wp (overlap_loop v l)
    (fun b w' => w' = w /\
       if b then exists r v', r ∈ l /\ w_regions w !! r = Some v' /\
                  r_priority v = r_priority v' /\ address_regions_overlap v v' = true
       else forall r v', r ∈ l -> w_regions w !! r = Some v' ->
              r_priority v = r_priority v' -> address_regions_overlap v v' = false) w.
Proof.
  induction l as [|r rest IH]; intros Hex; cbn [overlap_loop].
  { apply wp_ret. split; [done|]. set_solver. }
  destruct (Hex r) as [v' Hv']; [set_solver|]. wsteps.
  destruct ((r_priority v =? r_priority v') && address_regions_overlap v v') eqn:E.
  - apply wp_ret. split; [done|]. exists r, v'.
    apply andb_true_iff in E as [E1%Z.eqb_eq E2]. set_solver.
  - eapply wp_mono; [apply IH; set_solver|]. intros b w' [-> Hb].
    split; [done|]. destruct b.
    + destruct Hb as (r' & v'' & ? & ? & ? & ?). exists r', v''. set_solver.
    + intros r' v'' [->|Hin]%elem_of_cons Hr' Hp; [|by eapply Hb].
      simplify_eq. apply andb_false_iff in E as [E%Z.eqb_neq|E]; done.
Qed.

Lemma grow_capacity_correct cap first w :
  0 < first <= SIZE_MAX / sizeof_ptr -> 0 <= cap <= SIZE_MAX / sizeof_ptr ->
  wp (grow_capacity cap first)
    (fun g w' => (exists oom, w' = w <| w_oom := oom |>) /\
       match g with
       | inl err => err = -EOVERFLOW \/ err = -ENOMEM
       | inr cap' => cap < cap' <= SIZE_MAX / sizeof_ptr
       end) w.
Proof.
  change (SIZE_MAX / sizeof_ptr) with 2305843009213693951.
  intros Hf Hc. unfold grow_capacity.
  change (SIZE_MAX / sizeof_ptr) with 2305843009213693951.
  assert (w = w <| w_oom := w_oom w |>) as Hid by (by destruct w).
  rewrite u64_small by lia.
  destruct (Z.eqb_spec cap 0) as [->|]; repeat case_match; wsteps; try lia;
    try (split; [by eexists|lia]).
  all: apply wp_allocate; [intros b rest _|intros _]; try destruct b; cbn;
    split; try lia; by eexists.
Qed.

(** Updates of fields that no part of [space_ok] mentions. *)
Lemma spaces_ok_ext w w' :
  w_regions w' = w_regions w -> w_spaces w' = w_spaces w ->
  spaces_ok w -> spaces_ok w'.
Proof.
  intros Hr Hs [H1 H2]. split.
  - intros a s. rewrite Hs. intros Ha. destruct (H1 _ _ Ha).
    split; try done; by rewrite Hr.
  - unfold backlinks_ok. by rewrite Hr, Hs.
Qed.

(** The world after [r] is linked into [a]. *)
Definition linked (w : World) (a r : ptr) (s : VartAddressSpace)
    (v : VartAddressRegion) (cap : Z) : World :=
  w <| w_spaces ::= <[a := s <| as_regions ::= fun l => l ++ [r] |>
                            <| as_capacity := cap |>]> |>
    <| w_regions ::= <[r := v <| r_address_space := Some a |>]> |>.

Lemma linked_ok w a r s v cap :
  spaces_ok w -> w_spaces w !! a = Some s -> w_regions w !! r = Some v ->
  region_ok v -> r_address_space v = None ->
  (forall r' v', r' ∈ as_regions s -> w_regions w !! r' = Some v' ->
     r_priority v = r_priority v' -> address_regions_overlap v v' = false) ->
  Z.of_nat (length (as_regions s)) < cap <= SIZE_MAX / sizeof_ptr ->
  spaces_ok (linked w a r s v cap).
Proof.
  intros Hw Hs Hr Hok Hfree Hno Hcap.
  assert (forall a' s', w_spaces w !! a' = Some s' -> r ∉ as_regions s') as Hnew.
  { intros a' s' Hs' Hin.
    destruct (space_region_exists w a' s' r) as (? & ? & _ & ?); [done..|]. congruence. }
  pose proof (wo_space _ Hw _ _ Hs) as [Hnd Hreg Hdis Hcnt _].
  split.
  - intros a' s'. cbn. rewrite lookup_insert.
    destruct (decide (a = a')) as [<-|Hne]; intros Ha'.
    + simplify_eq. split; cbn.
      * apply NoDup_app. split_and!; [done| |apply NoDup_singleton].
        intros x Hx ->%list_elem_of_singleton. by eapply Hnew.
      * intros r' [Hin| ->%list_elem_of_singleton]%elem_of_app.
        -- rewrite lookup_insert_ne by (intros ->; by eapply Hnew). by apply Hreg.
        -- rewrite lookup_insert_eq. eexists. split_and!; [done| |done].
           destruct Hok. by split.
      * intros r1 r2 v1 v2 [H1| ->%list_elem_of_singleton]%elem_of_app
          [H2| ->%list_elem_of_singleton]%elem_of_app Hne; try done.
        -- rewrite !lookup_insert_ne by (intros ->; by eapply Hnew).
           by apply Hdis.
        -- rewrite lookup_insert_eq, lookup_insert_ne by (intros ->; done).
           intros Hv1 [= <-] Hp. destruct (Hreg _ H1) as (v1' & ? & Hok1 & _).
           simplify_eq. apply or_comm, (overlap_disjoint v v1); [done..|].
           by eapply Hno.
        -- rewrite lookup_insert_eq, lookup_insert_ne by (intros ->; done).
           intros [= <-] Hv2 Hp. destruct (Hreg _ H2) as (v2' & ? & Hok2 & _).
           simplify_eq. apply (overlap_disjoint v v2); [done..|]. by eapply Hno.
      * rewrite length_app. simpl. lia.
      * lia.
    + pose proof (wo_space _ Hw _ _ Ha') as []. split; cbn; try done.
      * intros r' Hin. rewrite lookup_insert_ne by (intros ->; by eapply Hnew).
        eauto.
      * intros r1 r2 v1 v2 H1 H2 Hne'.
        rewrite !lookup_insert_ne by (intros ->; by eapply Hnew). eauto.
  - intros r' v' a'. cbn. rewrite lookup_insert.
    destruct (decide (r = r')) as [<-|Hne].
    + intros [= <-] [= <-]. rewrite lookup_insert_eq. eexists. split; [done|].
      cbn. set_solver.
    + intros Hr' Ha'. destruct (wo_back _ Hw _ _ _ Hr' Ha') as (s' & Hs' & Hin).
      rewrite lookup_insert. case_decide; simplify_eq; eexists; split; try done.
      cbn. set_solver.
Qed.

(** Every outcome of [vart_address_space_add] on existing objects. *)
Definition add_outcome (w : World) (a r : ptr) (s : VartAddressSpace)
    (v : VartAddressRegion) (err : Z) (w' : World) : Prop :=
  (err = -EALREADY /\ w' = w /\ r_address_space v <> None) \/
  (err = -EEXIST /\ w' = w /\ r_address_space v = None /\
     exists r' v', r' ∈ as_regions s /\ w_regions w !! r' = Some v' /\
       r_priority v' = r_priority v /\ ~ disjoint_regions v v') \/
  ((err = -EOVERFLOW \/ err = -ENOMEM) /\ r_address_space v = None /\
     exists oom, w' = w <| w_oom := oom |>) \/
  (err = 0 /\ r_address_space v = None /\
     (forall r' v', r' ∈ as_regions s -> w_regions w !! r' = Some v' ->
        r_priority v' = r_priority v -> disjoint_regions v v') /\
     exists oom cap, w' = linked (w <| w_oom := oom |>) a r s v cap).

Lemma add_correct w a r s v :
  spaces_ok w -> w_spaces w !! a = Some s -> w_regions w !! r = Some v ->
  region_ok v ->
  wp (vart_address_space_add (Some a) (Some r))
    (fun err w' => spaces_ok w' /\ add_outcome w a r s v err w') w.
Proof.
  intros Hw Hs Hr Hok. unfold vart_address_space_add, add_outcome. wsteps.
  pose proof (wo_space _ Hw _ _ Hs) as [Hnd Hreg _ Hcnt Hcap].
  case_bool_decide as Hfree.
  { wsteps. eauto. }
  wsteps.
  eapply wp_mono.
  { apply overlap_loop_correct. intros r' Hin. destruct (Hreg _ Hin) as (? & -> & _). eauto. }
  intros b w1 [-> Hb]. destruct b.
  { wsteps. split; [done|]. right; left. split_and!; [done..|].
    destruct Hb as (r' & v' & Hin & Hv' & Hp & Hov). exists r', v'.
    split_and!; [done..|]. destruct (Hreg _ Hin) as (? & ? & ? & _). simplify_eq.
    intros Hd%overlap_disjoint; [congruence|done..]. }
  assert (forall r' v', r' ∈ as_regions s -> w_regions w !! r' = Some v' ->
        r_priority v' = r_priority v -> disjoint_regions v v') as Hd.
  { intros r' v' Hin Hv' Hp. destruct (Hreg _ Hin) as (? & ? & ? & _). simplify_eq.
    apply overlap_disjoint; eauto. }
  assert (w = w <| w_oom := w_oom w |>) as Hid by (by destruct w).
  assert (forall oom, spaces_ok (w <| w_oom := oom |>)) as Hoom
    by (intros; by apply (spaces_ok_ext w)).
  wsteps. case_match eqn:Ecap.
  - eapply wp_mono; [apply grow_capacity_correct; [done|]; split; lia|].
    intros g w1 [[oom ->] Hg]. destruct g as [err|cap]; wsteps.
    + split; [done|]. right; right; left. eauto.
    + fold (linked (w <| w_oom := oom |>) a r s v cap). split.
      * apply linked_ok; [apply Hoom|done..|exact Hb|lia].
      * right; right; right. split_and!; [done..|]. by exists oom, cap.
  - wsteps. fold (linked w a r s v (as_capacity s)). split.
    + apply linked_ok; [done..|exact Hb|lia].
    + right; right; right. split_and!; [done..|].
      exists (w_oom w), (as_capacity s). by rewrite <- Hid.
Qed.

(** The world after [r] is unlinked from [a]. *)
Definition unlinked (w : World) (a r : ptr) (s : VartAddressSpace)
    (v : VartAddressRegion) : World :=
  w <| w_spaces ::= <[a := s <| as_regions ::= remove_first r |>]> |>
    <| w_regions ::= <[r := v <| r_address_space := None |>]> |>.

Lemma unlinked_ok w a r s v :
  spaces_ok w -> w_spaces w !! a = Some s -> w_regions w !! r = Some v ->
  r ∈ as_regions s -> spaces_ok (unlinked w a r s v).
Proof.
  intros Hw Hs Hr Hin.
  pose proof (wo_space _ Hw _ _ Hs) as [Hnd Hreg Hdis Hcnt Hcap].
  pose proof (length_remove_first r (as_regions s) Hin) as Hlen.
  assert (forall a' s', w_spaces w !! a' = Some s' -> a <> a' -> r ∉ as_regions s') as Hown.
  { intros a' s' Hs' Hne Hin'.
    destruct (space_region_exists w a' s' r) as (? & ? & _ & ?); [done..|].
    destruct (space_region_exists w a s r) as (? & ? & _ & ?); [done..|]. congruence. }
  split.
  - intros a' s'. cbn. rewrite lookup_insert.
    destruct (decide (a = a')) as [<-|Hne]; intros Ha'.
    + simplify_eq. split; cbn.
      * by apply NoDup_remove_first.
      * intros r' [? ?]%elem_of_remove_first; [|done].
        rewrite lookup_insert_ne by done. by apply Hreg.
      * intros r1 r2 v1 v2 [? ?]%elem_of_remove_first
          [? ?]%elem_of_remove_first Hne; try done.
        rewrite !lookup_insert_ne by done. by apply Hdis.
      * lia.
      * lia.
    + pose proof (wo_space _ Hw _ _ Ha') as []. split; cbn; try done.
      * intros r' Hin'. rewrite lookup_insert_ne by (intros ->; by eapply Hown). eauto.
      * intros r1 r2 v1 v2 H1 H2 Hne'.
        rewrite !lookup_insert_ne by (intros ->; by eapply Hown). eauto.
  - intros r' v' a'. cbn. rewrite lookup_insert.
    destruct (decide (r = r')) as [<-|Hne]; [by intros [= <-]|].
    intros Hr' Ha'. destruct (wo_back _ Hw _ _ _ Hr' Ha') as (s' & Hs' & Hin').
    rewrite lookup_insert. case_decide; simplify_eq; eexists; split; try done.
    cbn. apply elem_of_remove_first; [|split]; done.
Qed.

(** In a well-formed heap the region's back pointer alone decides whether
    [vart_address_space_remove] succeeds. *)
Lemma remove_correct w a r v :
  spaces_ok w -> w_regions w !! r = Some v ->
  wp (vart_address_space_remove (Some a) (Some r))
    (fun err w' => spaces_ok w' /\
       ((err = -ENOENT /\ w' = w /\ r_address_space v <> Some a) \/
        (err = 0 /\ r_address_space v = Some a /\
         exists s, w_spaces w !! a = Some s /\ w' = unlinked w a r s v))) w.
Proof.
  intros Hw Hr. unfold vart_address_space_remove. wsteps.
  case_bool_decide as Hne.
  { wsteps. auto. }
  destruct (wo_back _ Hw _ _ _ Hr Hne) as (s & Hs & Hin). wsteps.
  rewrite bool_decide_true by done. wsteps.
  fold (unlinked w a r s v). split; [by apply unlinked_ok|]. eauto 6.
Qed.

(** * Toggling, creating and destroying *)

(** A store to a region that keeps its range, priority and owner space. *)
Lemma store_region_ok w r v v' :
  spaces_ok w -> w_regions w !! r = Some v ->
  r_base v' = r_base v -> r_size v' = r_size v -> r_priority v' = r_priority v ->
  r_address_space v' = r_address_space v ->
  spaces_ok (w <| w_regions ::= <[r := v']> |>).
Proof.
  intros Hw Hr Hb Hs Hp Ha. split.
  - intros a s Hsp. pose proof (wo_space _ Hw _ _ Hsp) as [Hnd Hreg Hdis ? ?].
    split; cbn; try done.
    + intros r' Hin. destruct (Hreg _ Hin) as (v0 & Hv0 & [] & ?).
      rewrite lookup_insert. case_decide; [|by eauto using Build_region_ok].
      simplify_eq. exists v'. split_and!; [done|split; congruence|congruence].
    + intros r1 r2 v1 v2 H1 H2 Hne Hv1 Hv2 Hpr.
      assert (forall x vx, <[r:=v']> (w_regions w) !! x = Some vx ->
        exists vo, w_regions w !! x = Some vo /\ r_base vx = r_base vo /\
          r_size vx = r_size vo /\ r_priority vx = r_priority vo) as Hback.
      { intros x vx. rewrite lookup_insert. case_decide; [|eauto].
        intros [= <-]. simplify_eq. eauto. }
      apply Hback in Hv1 as (o1 & Ho1 & Hb1 & Hs1 & Hp1), Hv2 as (o2 & Ho2 & Hb2 & Hs2 & Hp2).
      unfold disjoint_regions, region_last. rewrite Hb1, Hb2, Hs1, Hs2.
      apply (Hdis r1 r2 o1 o2); [done..|congruence].
  - intros r' v0 a. cbn. rewrite lookup_insert.
    case_decide; [intros [= <-]; simplify_eq; rewrite Ha|]; by apply wo_back.
Qed.

(** A store to a region that is in no space. *)
Lemma store_free_region_ok w r v' :
  spaces_ok w -> (forall v, w_regions w !! r = Some v -> r_address_space v = None) ->
  r_address_space v' = None ->
  spaces_ok (w <| w_regions ::= <[r := v']> |>).
Proof.
  intros Hw Hfree Ha.
  assert (forall a s, w_spaces w !! a = Some s -> r ∉ as_regions s) as Hnew.
  { intros a s Hs Hin. destruct (space_region_exists w a s r) as (v & Hv & _ & ?); [done..|].
    specialize (Hfree _ Hv). congruence. }
  split.
  - intros a s Hs. pose proof (wo_space _ Hw _ _ Hs) as []. split; cbn; try done.
    + intros r' Hin. rewrite lookup_insert_ne by (intros ->; by eapply Hnew). eauto.
    + intros r1 r2 v1 v2 H1 H2 Hne.
      rewrite !lookup_insert_ne by (intros ->; by eapply Hnew). eauto.
  - intros r' v0 a. cbn. rewrite lookup_insert.
    case_decide; [intros [= <-]; congruence|by apply wo_back].
Qed.

Definition detached (l : list ptr) (m : gmap ptr VartAddressRegion)
    : gmap ptr VartAddressRegion :=
  foldl (fun m r => alter (fun v => v <| r_address_space := None |>) r m) m l.

Lemma detached_lookup l m r :
  detached l m !! r =
  if decide (r ∈ l) then (fun v => v <| r_address_space := None |>) <$> m !! r
  else m !! r.
Proof.
  unfold detached. revert m. induction l as [|x l IH]; intros m; cbn [foldl].
  { case_decide; set_solver. }
  rewrite IH, lookup_alter. clear IH.
  destruct (decide (x = r)) as [->|Hne];
    destruct (m !! r); repeat case_decide; try reflexivity; exfalso; set_solver.
Qed.

Lemma detach_regions_correct l w :
  (forall r, r ∈ l -> is_Some (w_regions w !! r)) ->
  wp (detach_regions l) (fun _ w' => w' = w <| w_regions ::= detached l |>) w.
Proof.
  revert w. induction l as [|r l IH]; intros w Hex; cbn [detach_regions].
  { apply wp_ret. by destruct w. }
  destruct (Hex r) as [v Hv]; [set_solver|]. wsteps.
  eapply wp_mono; [apply IH|]; cbn.
  - intros r' Hr'. rewrite lookup_insert. case_decide; [eauto|set_solver].
  - intros _ w' ->. destruct w; unfold update; cbn in *. f_equal.
    unfold detached. cbn [foldl]. f_equal. apply map_eq. intros i.
    rewrite lookup_insert, lookup_alter. case_decide; [|done]. subst. by rewrite Hv.
Qed.

Lemma destroy_correct w a s :
  spaces_ok w -> w_spaces w !! a = Some s ->
  wp (vart_address_space_destroy a)
    (fun _ w' => spaces_ok w' /\
       w' = w <| w_regions ::= detached (as_regions s) |>
              <| w_spaces ::= <[a := zero_space]> |>) w.
Proof.
  intros Hw Hs. unfold vart_address_space_destroy. wsteps.
  pose proof (wo_space _ Hw _ _ Hs) as [Hnd Hreg Hdis ? ?].
  eapply wp_mono; [apply detach_regions_correct|].
  { intros r Hr. destruct (Hreg _ Hr) as (? & -> & _). eauto. }
  intros _ w' ->. wsteps. split; [|done].
  assert (forall a' s' r, w_spaces w !! a' = Some s' -> a <> a' ->
            r ∈ as_regions s' -> r ∉ as_regions s) as Hown.
  { intros a' s' r Hs' Hne Hin' Hin.
    destruct (space_region_exists w a' s' r) as (? & ? & _ & ?); [done..|].
    destruct (space_region_exists w a s r) as (? & ? & _ & ?); [done..|]. congruence. }
  split.
  - intros a' s'. cbn. rewrite lookup_insert.
    destruct (decide (a = a')) as [<-|Hne]; intros Ha'.
    + simplify_eq. split; cbn; try done; try set_solver; try lia.
      apply NoDup_nil_2.
    + pose proof (wo_space _ Hw _ _ Ha') as [? Hreg' Hdis' ? ?]. split; cbn; try done.
      * intros r Hr. rewrite detached_lookup, decide_False by eauto. eauto.
      * intros r r' v v' Hr Hr' Hne'.
        rewrite !detached_lookup, !decide_False by eauto. eauto.
  - intros r v a'. cbn. rewrite detached_lookup.
    destruct (decide (r ∈ as_regions s)) as [Hin|Hnin].
    { destruct (w_regions w !! r); [|done]. by intros [= <-]. }
    intros Hr Ha'. destruct (wo_back _ Hw _ _ _ Hr Ha') as (s' & Hs' & Hin').
    exists s'. rewrite lookup_insert_ne; [done|]. intros ->. congruence.
Qed.

(** A space is initialised before any region is linked to it. *)
Lemma init_space_ok w a :
  spaces_ok w -> (forall s, w_spaces w !! a = Some s -> as_regions s = []) ->
  spaces_ok (w <| w_spaces ::= <[a := zero_space]> |>).
Proof.
  intros Hw He. split.
  - intros a' s. cbn. rewrite lookup_insert. case_decide as E.
    + intros [= <-]. split; cbn; try set_solver; try lia; [apply NoDup_nil_2|done].
    + intros Hs. by destruct (wo_space _ Hw _ _ Hs).
  - intros r v a' Hr Ha'. cbn in *.
    destruct (wo_back _ Hw _ _ _ Hr Ha') as (s' & Hs' & Hin').
    exists s'. rewrite lookup_insert_ne; [done|]. intros ->.
    rewrite (He _ Hs') in Hin'. set_solver.
Qed.

Lemma set_translator_ok w a s f o :
  spaces_ok w -> w_spaces w !! a = Some s ->
  spaces_ok (w <| w_spaces ::= <[a := s <| as_translate := f |>
                                      <| as_translate_opaque := o |>]> |>).
Proof.
  intros Hw Hs. split.
  - intros a' s'. cbn. rewrite lookup_insert. case_decide as E.
    + intros [= <-]. subst. by destruct (wo_space _ Hw _ _ Hs).
    + intros Hs'. by destruct (wo_space _ Hw _ _ Hs').
  - intros r v a' Hr Ha'. cbn in *.
    destruct (wo_back _ Hw _ _ _ Hr Ha') as (s' & Hs' & Hin').
    rewrite lookup_insert. case_decide; simplify_eq; eauto.
Qed.

(** * Histories of address-space operations *)

Definition u64_ok (x : Z) : Prop := 0 <= x <= UINT64_MAX.
Definition region_free (w : World) (r : ptr) : Prop :=
  forall v, w_regions w !! r = Some v -> r_address_space v = None.

(** One call of the interface.  The callers' obligations are that a region is
    initialised only while it is in no space and that a space is initialised
    only while it is empty. *)
Inductive as_step (w w' : World) : Prop :=
| as_region_init r t b sz p o err :
    region_free w r -> u64_ok b -> u64_ok sz ->
    vart_address_region_init (Some r) t b sz p o w = Ok (err, w') ->
    as_step w w'
| as_region_init_mmio r b sz p o ops opaque err :
    region_free w r -> u64_ok b -> u64_ok sz ->
    vart_address_region_init_mmio (Some r) b sz p o ops opaque w = Ok (err, w') ->
    as_step w w'
| as_region_init_ram r b sz p o host err :
    region_free w r -> u64_ok b -> u64_ok sz ->
    vart_address_region_init_ram (Some r) b sz p o host w = Ok (err, w') ->
    as_step w w'
| as_region_set_enabled r e err :
    vart_address_region_set_enabled r e w = Ok (err, w') -> as_step w w'
| as_space_init a :
    (forall s, w_spaces w !! a = Some s -> as_regions s = []) ->
    vart_address_space_init a w = Ok (tt, w') -> as_step w w'
| as_space_set_translator a f o err :
    vart_address_space_set_translator a f o w = Ok (err, w') -> as_step w w'
| as_space_add a r err :
    vart_address_space_add a r w = Ok (err, w') -> as_step w w'
| as_space_remove a r err :
    vart_address_space_remove a r w = Ok (err, w') -> as_step w w'
| as_space_set_enabled a r e err :
    vart_address_space_set_enabled a r e w = Ok (err, w') -> as_step w w'
| as_space_destroy a :
    vart_address_space_destroy a w = Ok (tt, w') -> as_step w w'.

Record heap_ok (w : World) : Prop := {
  ho_spaces : spaces_ok w;
  ho_regions : map_Forall (fun _ v => region_ok v) (w_regions w);
}.

Lemma region_init_Ok w r t b sz p o err w' :
  vart_address_region_init (Some r) t b sz p o w = Ok (err, w') ->
  u64_ok b -> u64_ok sz ->
  (err = -EINVAL /\ w' = w) \/
  (err = 0 /\ exists ty, region_type_of_Z t = Some ty /\
     0 < sz /\ b + sz - 1 <= UINT64_MAX /\
     w' = w <| w_regions ::= <[r := zero_region <| r_base := b |>
       <| r_size := sz |> <| r_priority := p |> <| r_type := ty |>
       <| r_enabled := true |> <| r_owner := o |>]> |>).
Proof.
  unfold vart_address_region_init, store_region, u64_ok. intros H Hb Hs.
  destruct (region_type_of_Z t) as [ty|] eqn:Ht; inv_ok; [by left| |by left].
  right. split; [done|]. exists ty. split_and!; [done|lia|lia|done].
Qed.

Lemma init_region_heap_ok w r v :
  heap_ok w -> region_free w r -> region_ok v -> r_address_space v = None ->
  heap_ok (w <| w_regions ::= <[r := v]> |>).
Proof.
  intros [Hs Hr] Hf Hv Ha. split; [by apply store_free_region_ok|].
  by apply map_Forall_insert_2.
Qed.

Lemma store_region_heap_ok w r v v' :
  heap_ok w -> w_regions w !! r = Some v ->
  r_base v' = r_base v -> r_size v' = r_size v -> r_priority v' = r_priority v ->
  r_address_space v' = r_address_space v ->
  heap_ok (w <| w_regions ::= <[r := v']> |>).
Proof.
  intros [Hs Hr] Hv Hb Hsz Hp Ha. split; [by eapply store_region_ok|].
  apply map_Forall_insert_2; [|done].
  destruct (Hr _ _ Hv). split; congruence.
Qed.

Lemma mapped_regions_ok w (m : gmap ptr VartAddressRegion) :
  heap_ok w ->
  (forall r v, m !! r = Some v -> exists v', w_regions w !! r = Some v' /\
     r_base v = r_base v' /\ r_size v = r_size v') ->
  map_Forall (fun _ v => region_ok v) m.
Proof.
  intros [_ Hr] Hm r v Hv. destruct (Hm _ _ Hv) as (v' & Hv' & Hb & Hs).
  destruct (Hr _ _ Hv'). split; congruence.
Qed.

(** A load that returned found its object. *)
Lemma load_region_Ok w r v w' :
  load_region r w = Ok (v, w') -> w_regions w !! r = Some v /\ w' = w.
Proof. unfold load_region. intros H. by inv_ok. Qed.
Lemma load_space_Ok w a s w' :
  load_space a w = Ok (s, w') -> w_spaces w !! a = Some s /\ w' = w.
Proof. unfold load_space. intros H. by inv_ok. Qed.

Lemma add_heap_ok w a r err w' :
  heap_ok w -> vart_address_space_add a r w = Ok (err, w') -> heap_ok w'.
Proof.
  intros Hw H. destruct a as [a|], r as [r|]; try (cbn in H; by inv_ok).
  pose proof H as H0. unfold vart_address_space_add in H0.
  apply bind_Ok in H0 as (v & ? & [Hv ->]%load_region_Ok & H0).
  case_bool_decide; [by inv_ok|].
  apply bind_Ok in H0 as (s & ? & [Hs ->]%load_space_Ok & _).
  pose proof (wp_elim _ _ _ _ _ (add_correct w a r s v (ho_spaces _ Hw) Hs Hv
         (ho_regions _ Hw _ _ Hv)) H) as [Hok Ho]. split; [done|].
  eapply mapped_regions_ok; [exact Hw|]. intros r' v'.
  destruct Ho as [(_&->&_)|[(_&->&_)|[(_&_&?&->)|(_&_&_&?&?&->)]]]; cbn; eauto 7.
  rewrite lookup_insert. case_decide; [|eauto 7]. intros [= <-]. subst. eauto 7.
Qed.

Lemma remove_heap_ok w a r err w' :
  heap_ok w -> vart_address_space_remove a r w = Ok (err, w') -> heap_ok w'.
Proof.
  intros Hw H. destruct a as [a|], r as [r|]; try (cbn in H; by inv_ok).
  pose proof H as H0. unfold vart_address_space_remove in H0.
  apply bind_Ok in H0 as (v & ? & [Hv ->]%load_region_Ok & _).
  pose proof (wp_elim _ _ _ _ _ (remove_correct w a r v (ho_spaces _ Hw) Hv) H)
    as [Hok Ho]. split; [done|].
  eapply mapped_regions_ok; [exact Hw|]. intros r' v'.
  destruct Ho as [(_&->&_)|(_&_&s&_&->)]; cbn; eauto 7.
  rewrite lookup_insert. case_decide; [|eauto 7]. intros [= <-]. subst. eauto 7.
Qed.

Lemma destroy_heap_ok w a w' :
  heap_ok w -> vart_address_space_destroy a w = Ok (tt, w') -> heap_ok w'.
Proof.
  intros Hw H. pose proof H as H0. unfold vart_address_space_destroy in H0.
  apply bind_Ok in H0 as (s & ? & [Hs ->]%load_space_Ok & _).
  pose proof (wp_elim _ _ _ _ _ (destroy_correct w a s (ho_spaces _ Hw) Hs) H)
    as [Hok ->]. split; [done|].
  eapply mapped_regions_ok; [exact Hw|]. intros r v. cbn.
  rewrite detached_lookup. case_decide; [|eauto 7].
  destruct (w_regions w !! r); [|done]. intros [= <-]. eauto 7.
Qed.

Lemma store_region_twice w r v v' :
  w <| w_regions ::= <[r := v]> |> <| w_regions ::= <[r := v']> |> =
  w <| w_regions ::= <[r := v']> |>.
Proof. destruct w. unfold update. cbn. by rewrite insert_insert_eq. Qed.

Lemma store_region_lookup w r v :
  w_regions (w <| w_regions ::= <[r := v]> |>) !! r = Some v.
Proof. apply lookup_insert_eq. Qed.

Lemma init_mmio_heap_ok w r b sz p o ops opaque err w' :
  heap_ok w -> region_free w r -> u64_ok b -> u64_ok sz ->
  vart_address_region_init_mmio (Some r) b sz p o ops opaque w = Ok (err, w') ->
  heap_ok w'.
Proof.
  intros Hw Hf Hb Hs H. unfold vart_address_region_init_mmio in H.
  destruct (negb _); [by inv_ok|].
  apply bind_Ok in H as (e & w1 & Hi & H).
  apply region_init_Ok in Hi as [[-> ->]|(-> & ty & _ & ? & ? & ->)]; [by inv_ok| |done..].
  apply bind_Ok in H as (r' & w1 & (? & [= <-] & [= -> ->])%deref_Ok & H).
  apply bind_Ok in H as (v & w1 & [Hv ->]%load_region_Ok & H).
  cbn in Hv. rewrite lookup_insert_eq in Hv. apply (inj Some) in Hv as <-.
  unfold store_region in H. inv_ok. rewrite store_region_twice.
  apply init_region_heap_ok; try done. unfold u64_ok in *. split; cbn; lia.
Qed.

Lemma init_ram_heap_ok w r b sz p o host err w' :
  heap_ok w -> region_free w r -> u64_ok b -> u64_ok sz ->
  vart_address_region_init_ram (Some r) b sz p o host w = Ok (err, w') ->
  heap_ok w'.
Proof.
  intros Hw Hf Hb Hs H. unfold vart_address_region_init_ram in H.
  destruct host as [host|]; [|by inv_ok].
  apply bind_Ok in H as (e & w1 & Hi & H).
  apply region_init_Ok in Hi as [[-> ->]|(-> & ty & _ & ? & ? & ->)]; [by inv_ok| |done..].
  apply bind_Ok in H as (r' & w1 & (? & [= <-] & [= -> ->])%deref_Ok & H).
  apply bind_Ok in H as (v & w1 & [Hv ->]%load_region_Ok & H).
  cbn in Hv. rewrite lookup_insert_eq in Hv. apply (inj Some) in Hv as <-.
  unfold store_region in H. inv_ok. rewrite store_region_twice.
  apply init_region_heap_ok; try done. unfold u64_ok in *. split; cbn; lia.
Qed.

Lemma region_init_heap_ok w r t b sz p o err w' :
  heap_ok w -> region_free w r -> u64_ok b -> u64_ok sz ->
  vart_address_region_init (Some r) t b sz p o w = Ok (err, w') -> heap_ok w'.
Proof.
  intros Hw Hf Hb Hs H.
  apply region_init_Ok in H as [[-> ->]|(-> & ty & _ & ? & ? & ->)]; [done| |done..].
  apply init_region_heap_ok; try done. unfold u64_ok in *. split; cbn; lia.
Qed.

Lemma region_set_enabled_heap_ok w r e err w' :
  heap_ok w -> vart_address_region_set_enabled r e w = Ok (err, w') -> heap_ok w'.
Proof.
  intros Hw H. destruct r as [r|]; [|cbn in H; by inv_ok].
  unfold vart_address_region_set_enabled, load_region, store_region in H.
  inv_ok; [done|]. by eapply store_region_heap_ok.
Qed.

Lemma space_init_heap_ok w a w' :
  heap_ok w -> (forall s, w_spaces w !! a = Some s -> as_regions s = []) ->
  vart_address_space_init a w = Ok (tt, w') -> heap_ok w'.
Proof.
  intros [] He H. unfold vart_address_space_init, store_space in H. inv_ok.
  split; [by apply init_space_ok|done].
Qed.

Lemma set_translator_heap_ok w a f o err w' :
  heap_ok w -> vart_address_space_set_translator a f o w = Ok (err, w') -> heap_ok w'.
Proof.
  intros Hw H. destruct a as [a|]; [|cbn in H; by inv_ok].
  unfold vart_address_space_set_translator, load_space, store_space in H.
  inv_ok; try done. destruct Hw. split; [by apply set_translator_ok|done].
Qed.

Lemma set_enabled_heap_ok w a r e err w' :
  heap_ok w -> vart_address_space_set_enabled a r e w = Ok (err, w') -> heap_ok w'.
Proof.
  intros Hw H. destruct a as [a|], r as [r|]; try (cbn in H; by inv_ok).
  unfold vart_address_space_set_enabled, load_region, store_region in H.
  inv_ok; [done|]. by eapply store_region_heap_ok.
Qed.

Lemma as_step_heap_ok w w' : heap_ok w -> as_step w w' -> heap_ok w'.
Proof.
  intros Hw [].
  - eapply region_init_heap_ok; [exact Hw|..|eassumption]; eassumption.
  - eapply init_mmio_heap_ok; [exact Hw|..|eassumption]; eassumption.
  - eapply init_ram_heap_ok; [exact Hw|..|eassumption]; eassumption.
  - eapply region_set_enabled_heap_ok; [exact Hw|..|eassumption]; eassumption.
  - eapply space_init_heap_ok; [exact Hw|..|eassumption]; eassumption.
  - eapply set_translator_heap_ok; [exact Hw|..|eassumption]; eassumption.
  - eapply add_heap_ok; [exact Hw|..|eassumption]; eassumption.
  - eapply remove_heap_ok; [exact Hw|..|eassumption]; eassumption.
  - eapply set_enabled_heap_ok; [exact Hw|..|eassumption]; eassumption.
  - eapply destroy_heap_ok; [exact Hw|..|eassumption]; eassumption.
Qed.

Lemma empty_heap_ok : heap_ok empty_world.
Proof. split; [split; [by intros a s|by intros r v a]|done]. Qed.

(** * Buffer accesses to a space without a translator *)

(** Every RAM region is backed by mapped host memory. *)
Definition ram_backed (w : World) : Prop :=
  forall r v h, w_regions w !! r = Some v -> r_type v = VART_REGION_RAM ->
    r_ram_addr v = Some h -> mapped (w_host w) h (r_size v).

(** The host address that the guest range resolves to, if it is RAM. *)
Definition ram_target (w : World) (a : ptr) (address size host : Z) : Prop :=
  exists r v h, resolves w a address size (Some r) /\
    w_regions w !! r = Some v /\ r_type v = VART_REGION_RAM /\
    r_ram_addr v = Some h /\ host = h + (address - r_base v).

(** What a buffer access to a plain space does, on every branch. *)
Definition plain_outcome (w : World) (a : ptr) (address : Z) (data : list Z)
    (size : Z) (write : bool) (err : Z) (buf : option (list Z)) (w' : World)
    : Prop :=
  (err = 0 /\ exists host, ram_target w a address size host /\
     if write then
       exists h', mem_write (w_host w) host (take (Z.to_nat size) data) = Some h' /\
         w' = w <| w_host := h' |> /\ buf = Some data
     else
       exists bytes, mem_read (w_host w) host (Z.to_nat size) = Some bytes /\
         w' = w /\ buf = Some (bytes ++ drop (Z.to_nat size) data)) \/
  (err = -ENOENT /\ resolves w a address size None /\ w' = w /\ buf = Some data) \/
  (err = -EACCES /\ w' = w /\ buf = Some data /\
     exists r v, resolves w a address size (Some r) /\ w_regions w !! r = Some v /\
       (r_type v <> VART_REGION_RAM \/ r_ram_addr v = None)).

Lemma resolved_range w a address size r :
  spaces_ok w -> u64_ok address -> u64_ok size ->
  resolves w a address size (Some r) ->
  exists v, w_regions w !! r = Some v /\ region_ok v /\ r_address_space v = Some a /\
    r_base v <= address /\ address + size <= r_base v + r_size v.
Proof.
  intros Hw Ha Hs (s & Hsp & v & Hin & Hv & Hc & _).
  destruct (space_region_exists w a s r) as (v' & Hv' & Hok & Hb); [done..|].
  simplify_eq. destruct Hc as (_ & ? & ?).
  exists v. done.
Qed.

Lemma copy_ram_correct h data size write w :
  0 < size -> size <= Z.of_nat (length data) -> mapped (w_host w) h size ->
  wp (copy_ram h data size write)
    (fun '(err, buf) w' => err = 0 /\
       if write then
         exists h', mem_write (w_host w) h (take (Z.to_nat size) data) = Some h' /\
           w' = w <| w_host := h' |> /\ buf = Some data
       else
         exists bytes, mem_read (w_host w) h (Z.to_nat size) = Some bytes /\
           w' = w /\ buf = Some (bytes ++ drop (Z.to_nat size) data)) w.
Proof.
  intros Hs Hl Hm. unfold copy_ram.
  destruct (Z.ltb_spec (Z.of_nat (length data)) size); [lia|].
  assert (length (take (Z.to_nat size) data) = Z.to_nat size) as Hlt.
  { rewrite length_take. lia. }
  destruct write; apply wp_bind.
  - destruct (mem_write_mapped (w_host w) h (take (Z.to_nat size) data)) as [h' Hh'].
    { rewrite Hlt, Z2Nat.id by lia. done. }
    eapply wp_host_write; [exact Hh'|]. apply wp_ret. eauto.
  - destruct (mem_read_mapped (w_host w) h (Z.to_nat size)) as [bytes Hb].
    { by rewrite Z2Nat.id by lia. }
    eapply wp_host_read; [exact Hb|]. apply wp_ret. eauto.
Qed.

Section PlainAccess.
Context `{TranslateCallbacks}.

(** In a well-formed heap the access is memory safe and its result is the
    one [plain_outcome] describes. *)
Lemma plain_access w a s address data size write fuel :
  spaces_ok w -> ram_backed w -> w_spaces w !! a = Some s ->
  as_translate s = None -> u64_ok address -> 0 < size <= UINT64_MAX ->
  size <= Z.of_nat (length data) ->
  wp (address_space_buffer_access (S fuel) a address (Some data) size write)
    (fun '(err, buf) w' =>
       plain_outcome w a address data size write err buf w') w.
Proof.
  intros Hw Hram Hs Htr Ha Hsz Hl. cbn [address_space_buffer_access].
  destruct (Z.eqb_spec size 0); [lia|]. wsteps. rewrite Htr. wsteps.
  eapply wp_mono; [apply find_total; unfold u64_ok; eauto with lia|]. intros o w' [-> Hbest].
  assert (resolves w a address size o) as Hres by (by exists s).
  unfold plain_outcome. destruct o as [r|].
  2: { apply wp_ret. right; left. done. }
  destruct (resolved_range w a address size r) as (v & Hv & [] & _ & ? & ?);
    [done|done|unfold u64_ok; lia|done|].
  wsteps. destruct (r_ram_addr v) as [h|] eqn:Hh.
  2: { apply wp_ret. right; right. eauto 10. }
  case_bool_decide as Hty; cbn [negb].
  2: { apply wp_ret. right; right. eauto 10. }
  unfold u64_ok in *. rewrite u64_small by lia.
  eapply wp_mono; [apply copy_ram_correct; [lia|done|]|].
  { eapply mapped_sub; [by eapply Hram|lia..]. }
  intros [err buf] w' [-> Hc]. left. split; [done|].
  eexists. split; [|exact Hc]. exists r, v, h. done.
Qed.

(** A host address is determined by the guest range. *)
Lemma ram_target_unique w a address size h h' :
  spaces_ok w -> u64_ok address -> 0 < size <= UINT64_MAX ->
  ram_target w a address size h -> ram_target w a address size h' -> h = h'.
Proof.
  intros Hw Ha Hs (r & v & b & (s & Hsp & Hb) & Hv & _ & Hh & ->)
    (r' & v' & b' & (s' & Hsp' & Hb') & Hv' & _ & Hh' & ->).
  simplify_eq.
  assert (Some r = Some r') as [= <-] by (by eapply best_of_unique).
  simplify_eq. done.
Qed.

(** A store to host memory changes neither the heap's shape nor lookups. *)
Lemma store_host_ok w a host data h' :
  mem_write (w_host w) host data = Some h' -> spaces_ok w -> ram_backed w ->
  spaces_ok (w <| w_host := h' |>) /\ ram_backed (w <| w_host := h' |>) /\
  forall address size x, ram_target (w <| w_host := h' |>) a address size x <->
    ram_target w a address size x.
Proof.
  intros Hm Hw Hr. split_and!.
  - by apply (spaces_ok_ext w).
  - intros r v h Hv Ht Hh x Hx. eapply mem_write_dom; [exact Hm|]. by eapply Hr.
  - done.
Qed.
End PlainAccess.

(** * The theorems *)

(** C1. Lookup resolves a range to the region of the highest priority.  In a
    heap reachable through the interface, [vart_address_space_find] on a
    non-empty range returns region [o] exactly when [o] is an enabled region of
    the space that contains the whole range and has the highest priority among
    those, and returns NULL exactly when there is none; it changes nothing. *)
Theorem find_iff_resolves w a s address size o :
  heap_ok w -> w_spaces w !! a = Some s -> u64_ok address ->
  0 < size <= UINT64_MAX ->
  vart_address_space_find (Some a) address size w = Ok (o, w) <->
  resolves w a address size o.
Proof.
  intros [Hw _] Hs Ha Hsz.
  pose proof (find_total w a s address size Hw Hs Ha ltac:(unfold u64_ok; lia)) as H.
  apply wp_ok in H as (o' & w' & E & -> & Hb). rewrite E. split.
  - intros [= ->]. by exists s.
  - intros (s' & Hs' & Hb'). simplify_eq. do 2 f_equal.
    by eapply best_of_unique.
Qed.

(** The order in which regions were added does not matter: permuting a
    space's array leaves every lookup of a non-empty range unchanged. *)
Theorem find_order_independent w a s l address size :
  heap_ok w -> w_spaces w !! a = Some s -> as_regions s ≡ₚ l ->
  u64_ok address -> 0 < size <= UINT64_MAX ->
  exists o,
    vart_address_space_find (Some a) address size w = Ok (o, w) /\
    let w' := w <| w_spaces ::= <[a := s <| as_regions := l |>]> |> in
    vart_address_space_find (Some a) address size w' = Ok (o, w').
Proof.
  intros [Hw _] Hs Hp Ha Hsz.
  pose proof (find_total w a s address size Hw Hs Ha ltac:(unfold u64_ok; lia))
    as (o & ? & E & -> & Hb)%wp_ok.
  exists o. split; [done|]. intros w'.
  assert (w_spaces w' !! a = Some (s <| as_regions := l |>)) as Hs'
    by (cbn; by rewrite lookup_insert_eq).
  assert (wp (vart_address_space_find (Some a) address size)
    (fun o w'' => w'' = w' /\ best_of w' l address size o) w') as H.
  { unfold vart_address_space_find. wsteps.
    apply (find_loop_correct w' address size l []); [|done|unfold u64_ok; lia|set_solver].
    intros r Hr. destruct (space_region_exists w a s r) as (v & Hv & Hok & _);
      [done..|by rewrite Hp|]. cbn. by exists v. }
  apply wp_ok in H as (o' & ? & E' & -> & Hb'). rewrite E'. do 2 f_equal.
  assert (best_of w (as_regions s) address size o') as Hb2.
  { destruct o' as [b|]; cbn in Hb' |- *.
    - destruct Hb' as (vb & ? & ? & ? & Hmax). exists vb. rewrite Hp.
      split_and!; try done. intros r v. rewrite Hp. apply Hmax.
    - intros r v. rewrite Hp. apply Hb'. }
  symmetry. by eapply best_of_unique.
Qed.

Lemma steps_heap_ok w : rtc as_step empty_world w -> heap_ok w.
Proof.
  revert w. apply (rtc_ind_r heap_ok); [apply empty_heap_ok|].
  intros w w' _ Hstep Hw. by eapply as_step_heap_ok.
Qed.

(** Every heap reached from an empty one by calls of the address-space
    interface, in any order and with any error returns and allocation failures,
    is well formed: each space's array holds distinct existing regions that
    point back to it, regions of equal priority never overlap, no region range
    wraps around, and the count stays within the capacity. *)
Theorem reachable_heap_ok w : rtc as_step empty_world w -> heap_ok w.
Proof. apply steps_heap_ok. Qed.

(** Mapping a region and unmapping it again is invisible: when both calls
    succeed the region is as before and every lookup gives the same answer as
    before. *)
Theorem add_remove_roundtrip w a r v w1 w2 :
  heap_ok w -> w_regions w !! r = Some v ->
  vart_address_space_add (Some a) (Some r) w = Ok (0, w1) ->
  vart_address_space_remove (Some a) (Some r) w1 = Ok (0, w2) ->
  w_regions w2 = w_regions w /\
  forall address size o,
    resolves w2 a address size o <-> resolves w a address size o.
Proof.
  intros Hw Hv Hadd Hrem.
  pose proof (add_heap_ok _ _ _ _ _ Hw Hadd) as Hw1.
  pose proof Hadd as H0. unfold vart_address_space_add in H0.
  apply bind_Ok in H0 as (v0 & ? & [Hv0 ->]%load_region_Ok & H0). simplify_eq.
  case_bool_decide; [by inv_ok|].
  apply bind_Ok in H0 as (s & ? & [Hs ->]%load_space_Ok & _).
  pose proof (wp_elim _ _ _ _ _ (add_correct w a r s v (ho_spaces _ Hw) Hs Hv
         (ho_regions _ Hw _ _ Hv)) Hadd) as [_ Ho].
  destruct Ho as [(?&_)|[(?&_)|[([]&_)|(_&Hfree&_&oom&cap&->)]]]; try done.
  assert (r ∉ as_regions s) as Hnin.
  { intros Hin. destruct (space_region_exists w a s r) as (? & ? & _ & ?);
      [apply Hw|done..|]. congruence. }
  unfold linked in *.
  pose proof (wp_elim _ _ _ _ _ (remove_correct _ a r _ (ho_spaces _ Hw1)
    (store_region_lookup _ r _)) Hrem) as [_ [(?&_)|(_&_&s1&Hs1&Ew2)]]; [done|].
  cbn in Hs1. rewrite lookup_insert_eq in Hs1. simplify_eq Hs1. intros <-.
  assert (w_regions w2 = w_regions w) as Hreg.
  { rewrite Ew2. cbn. rewrite insert_insert_eq. apply insert_id. rewrite Hv.
    f_equal. destruct v. cbn in *. by subst. }
  split; [done|]. intros address size o.
  eapply resolves_ext; [done|exact Hs| |].
  - rewrite Ew2. cbn. apply lookup_insert_eq.
  - cbn. by apply remove_first_snoc.
Qed.

(** A space that accesses RAM directly. *)
Definition plain_space (w : World) (a : ptr) : Prop :=
  exists s, w_spaces w !! a = Some s /\ as_translate s = None.

(** C2. A buffer access to a space without a translator never touches memory
    outside the region it resolves to and never misbehaves: it copies exactly
    [size] bytes between the buffer and the host memory behind the RAM region
    the lookup picks, or fails with ENOENT when nothing contains the range, or
    with EACCES when the region is not RAM, without changing anything. *)
Theorem ram_access_correct `{TranslateCallbacks} w a address data size write fuel :
  heap_ok w -> ram_backed w -> plain_space w a ->
  u64_ok address -> 0 < size <= UINT64_MAX -> size <= Z.of_nat (length data) ->
  exists err buf w',
    address_space_buffer_access (S fuel) a address (Some data) size write w =
      Ok ((err, buf), w') /\
    plain_outcome w a address data size write err buf w'.
Proof.
  intros [Hw _] Hr (s & Hs & Ht) Ha Hsz Hl.
  pose proof (plain_access w a s address data size write fuel Hw Hr Hs Ht Ha Hsz Hl)
    as ([err buf] & w' & E & Ho)%wp_ok. eauto.
Qed.

(** What a device writes to RAM it reads back, and it changes no other
    byte: after a successful write of [data], a read of the same range returns
    [data], and every host byte outside the written range is as before. *)
Theorem write_read_roundtrip `{TranslateCallbacks} w a address data buf w1 fuel :
  heap_ok w -> ram_backed w -> plain_space w a -> u64_ok address ->
  0 < Z.of_nat (length data) <= UINT64_MAX -> length buf = length data ->
  vart_address_space_write_buffer (S fuel) a address (Some data)
    (Z.of_nat (length data)) w = Ok (0, w1) ->
  vart_address_space_read_buffer (S fuel) a address (Some buf)
    (Z.of_nat (length data)) w1 = Ok ((0, Some data), w1) /\
  exists host, ram_target w a address (Z.of_nat (length data)) host /\
    forall x, x < host \/ host + Z.of_nat (length data) <= x ->
      w_host w1 !! x = w_host w !! x.
Proof.
  intros [Hw _] Hr (s & Hs & Ht) Ha Hsz Hb Hwr.
  set (n := Z.of_nat (length data)) in *.
  assert (Z.to_nat n = length data) as Hn by lia.
  unfold vart_address_space_write_buffer in Hwr.
  apply bind_Ok in Hwr as ([err b1] & w' & Hacc & Hret). inv_ok.
  pose proof (wp_elim _ _ _ _ _ (plain_access w a s address data n true fuel
    Hw Hr Hs Ht Ha Hsz ltac:(lia)) Hacc) as Ho.
  destruct Ho as [(_ & host & Htgt & h' & Hm & -> & _)|[(?&_)|(?&_)]]; try done.
  rewrite Hn, firstn_all in Hm.
  destruct (store_host_ok w a host data h' Hm Hw Hr) as (Hw' & Hr' & Hiff).
  pose proof (plain_access _ a s address buf n false fuel Hw' Hr' Hs Ht Ha Hsz
    ltac:(lia)) as ([err b2] & w2 & E & Ho)%wp_ok.
  assert (ram_target (w <| w_host := h' |>) a address n host) as Htgt' by (by apply Hiff).
  split.
  - unfold vart_address_space_read_buffer. rewrite E.
    destruct Htgt' as (r & v & hh & Hres & Hv & Hty & Hh & ->).
    destruct Ho as [(-> & host' & Htgt2 & bytes & Hrd & -> & ->)
      |[(_ & Hnone & _)|(_ & _ & _ & r' & v' & Hres' & Hv' & Hbad)]].
    + do 3 f_equal. rewrite Hn, <- Hb, drop_all, app_nil_r.
      assert (hh + (address - r_base v) = host') as <-.
      { eapply ram_target_unique; [exact Hw'|exact Ha|exact Hsz| |exact Htgt2].
        exists r, v, hh. done. }
      cbn in Hrd. rewrite Hn, (mem_read_write_same _ _ _ _ Hm) in Hrd. congruence.
    + by pose proof (resolves_unique _ _ _ _ _ _ Hw' Ha Hsz Hnone Hres).
    + pose proof (resolves_unique _ _ _ _ _ _ Hw' Ha Hsz Hres' Hres).
      cbn in Hv, Hv'. simplify_eq. destruct Hbad; congruence.
  - exists host. split; [done|]. intros x Hx. cbn.
    rewrite (mem_write_lookup _ _ _ _ _ Hm). case_decide; [lia|done].
Qed.

Lemma mmio_mask_mod size x :
  mmio_access_size_valid size = true ->
  Z.land x (mmio_value_mask size) = x mod 2 ^ (8 * size).
Proof.
  unfold mmio_access_size_valid, mmio_value_mask. intros Hs.
  rewrite <- land_low_mask by lia. f_equal.
  assert (size = 1 \/ size = 2 \/ size = 4 \/ size = 8) as Hc by lia.
  by destruct Hc as [->|[->|[->| ->]]].
Qed.

(** The error code of an MMIO access that reaches no callback. *)
Definition mmio_refused (w : World) (a : ptr) (address size err : Z)
    (fn_of : VartMmioOps -> option fnptr) : Prop :=
  (err = -ENOENT /\ resolves w a address size None) \/
  exists r v, resolves w a address size (Some r) /\ w_regions w !! r = Some v /\
    ((err = -EACCES /\ r_type v <> VART_REGION_MMIO) \/
     (err = -ENOSYS /\ r_type v = VART_REGION_MMIO /\
        r_mmio_ops v ≫= fn_of = None)).

(** The lookup of an MMIO access: nothing contains the range, or a region does
    and the offset passed on stays inside it. *)
Lemma mmio_lookup w a s address size :
  heap_ok w -> w_spaces w !! a = Some s -> u64_ok address ->
  mmio_access_size_valid size = true ->
  exists o, vart_address_space_find (Some a) address size w = Ok (o, w) /\
    resolves w a address size o /\
    forall r, o = Some r -> exists v,
      w_regions w !! r = Some v /\ load_region r w = Ok (v, w) /\
      0 <= address - r_base v /\ address - r_base v + size <= r_size v /\
      u64 (address - r_base v) = address - r_base v.
Proof.
  intros [Hw _] Hs Ha Hsz.
  assert (0 < size <= UINT64_MAX) as Hpos by (unfold mmio_access_size_valid in Hsz; lia).
  pose proof (find_total w a s address size Hw Hs Ha ltac:(unfold u64_ok in *; lia))
    as (o & ? & E & -> & Hb)%wp_ok.
  assert (resolves w a address size o) as Hres by (by exists s).
  exists o. split_and!; try done. intros r ->.
  destruct (resolved_range w a address size r) as (v & Hv & [] & _ & ? & ?);
    [done|done|unfold u64_ok; lia|done|].
  exists v. unfold u64_ok in *. rewrite u64_small by lia.
  split_and!; try done; try lia. unfold load_region. run_unfold. by rewrite Hv.
Qed.

(** MMIO dispatch.  An access of 1, 2, 4 or 8 bytes either is refused
    (ENOENT, EACCES or ENOSYS, heap unchanged) or calls the callback of the
    highest-priority region once, with an offset whose whole range lies inside
    that region; a read returns the callback's value truncated to the access
    size and a write hands it the truncated value. *)
Theorem mmio_dispatch `{MmioCallbacks} w a s address size value :
  heap_ok w -> w_spaces w !! a = Some s -> u64_ok address ->
  mmio_access_size_valid size = true ->
  ((exists err,
     mmio_refused w a address size err mmio_read /\
     vart_address_space_read (Some a) address size (Some value) w =
       Ok ((err, Some value), w)) \/
   (exists r v f,
     resolves w a address size (Some r) /\ w_regions w !! r = Some v /\
     0 <= address - r_base v /\ address - r_base v + size <= r_size v /\
     r_mmio_ops v ≫= mmio_read = Some f /\
     vart_address_space_read (Some a) address size (Some value) w =
       bind (call_mmio_read f (r_mmio_opaque v) (address - r_base v) size value)
         (fun '(err, x) =>
            if err <? 0 then ret (err, Some x)
            else ret (0, Some (x mod 2 ^ (8 * size)))) w)) /\
  ((exists err,
     mmio_refused w a address size err mmio_write /\
     vart_address_space_write (Some a) address size value w = Ok (err, w)) \/
   (exists r v f,
     resolves w a address size (Some r) /\ w_regions w !! r = Some v /\
     0 <= address - r_base v /\ address - r_base v + size <= r_size v /\
     r_mmio_ops v ≫= mmio_write = Some f /\
     vart_address_space_write (Some a) address size value w =
       call_mmio_write f (r_mmio_opaque v) (address - r_base v) size
         (value mod 2 ^ (8 * size)) w)).
Proof.
  intros Hw Hs Ha Hsz.
  destruct (mmio_lookup w a s address size Hw Hs Ha Hsz) as (o & E & Hres & Hr).
  unfold vart_address_space_read, vart_address_space_write. rewrite Hsz. cbn [negb].
  rewrite !(bind_eq _ _ _ _ _ E). destruct o as [r|].
  2: { split; left; exists (-ENOENT); (split; [by left|done]). }
  destruct (Hr r eq_refl) as (v & Hv & Hld & Hlo & Hhi & Hoff).
  rewrite !(bind_eq _ _ _ _ _ Hld). case_bool_decide as Hty; cbn [negb].
  2: { split; left; exists (-EACCES); (split; [|done]); right; exists r, v;
       (split_and!; [done..|by left]). }
  rewrite !Hoff, (mmio_mask_mod size value Hsz). split.
  - destruct (r_mmio_ops v ≫= mmio_read) as [f|] eqn:Hf.
    2: { left. exists (-ENOSYS). split; [|done]. right. exists r, v.
         split_and!; [done..|by right]. }
    right. exists r, v, f. split_and!; try done. unfold bind.
    destruct (call_mmio_read _ _ _ _ _ w) as [[[err x] w']| |]; [|done|done].
    by rewrite mmio_mask_mod.
  - destruct (r_mmio_ops v ≫= mmio_write) as [f|] eqn:Hf.
    2: { left. exists (-ENOSYS). split; [|done]. right. exists r, v.
         split_and!; [done..|by right]. }
    right. exists r, v, f. by split_and!.
Qed.

(** Well-formedness does not depend on the contents of host memory. *)
Lemma heap_ok_host w h : heap_ok w -> heap_ok (w <| w_host := h |>).
Proof. intros [Hs Hr]. split; [|exact Hr]. by apply (spaces_ok_ext w). Qed.

(** * A concrete heap

    A space with 64 bytes of RAM at 0x80000000 (priority -1, as
    [vart_memory_region_map] maps it), an MMIO window of priority 0 above part
    of it and another MMIO region that is not mapped, built by running the
    interface. *)
Module Demo.
Definition exec {A} (m : M World A) (w : World) : World :=
  match m w with Ok (_, w') => w' | _ => w end.

Definition ops : option VartMmioOps :=
  Some (mkMmioOps (Some (fn_external 1)) (Some (fn_external 2))).
Definition sys : ptr := 1%positive.
Definition ram : ptr := 1%positive.
Definition window : ptr := 2%positive.
Definition spare : ptr := 3%positive.

Definition w1 := exec (vart_address_space_init sys) empty_world.
Definition w2 := exec (vart_address_region_init_ram (Some ram)
  0x80000000 64 (-1) None (Some 0x1000)) w1.
Definition w3 := exec (vart_address_region_init_mmio (Some window)
  0x80000010 16 0 None ops None) w2.
Definition w4 := exec (vart_address_region_init_mmio (Some spare)
  0x10000000 256 0 None ops None) w3.
Definition w5 := exec (vart_address_space_add (Some sys) (Some ram)) w4.
Definition w6 := exec (vart_address_space_add (Some sys) (Some window)) w5.
Definition s6 : VartAddressSpace := mkSpace [ram; window] 8 None None.
Definition plain := w6 <| w_host := mem_map ∅ 0x1000 64 |>.

(** The callbacks of the example: reads return the offset; no translator. *)
#[local] Instance mmio : MmioCallbacks := {|
  call_mmio_read _ _ offset _ _ := ret (0, offset);
  call_mmio_write _ _ _ _ _ := ret 0;
|}.
#[local] Instance no_translate : TranslateCallbacks :=
  fun _ _ _ _ _ _ => ret (-EINVAL, None, 0).

Lemma as_demo_steps : rtc as_step empty_world w6.
Proof.
  apply (rtc_l _ _ w1).
  { apply (as_space_init _ _ sys); [by intros|]. vm_compute. reflexivity. }
  apply (rtc_l _ _ w2).
  { apply (as_region_init_ram _ _ ram 0x80000000 64 (-1) None (Some 0x1000) 0);
      [by intros ?|by vm_compute..]. }
  apply (rtc_l _ _ w3).
  { apply (as_region_init_mmio _ _ window 0x80000010 16 0 None ops None 0);
      [by intros ?|by vm_compute..]. }
  apply (rtc_l _ _ w4).
  { apply (as_region_init_mmio _ _ spare 0x10000000 256 0 None ops None 0);
      [by intros ?|by vm_compute..]. }
  apply (rtc_l _ _ w5).
  { apply (as_space_add _ _ (Some sys) (Some ram) 0). vm_compute. reflexivity. }
  apply rtc_once.
  apply (as_space_add _ _ (Some sys) (Some window) 0). vm_compute. reflexivity.
Qed.

Lemma w6_ok : heap_ok w6.
Proof. apply steps_heap_ok, as_demo_steps. Qed.

Lemma plain_ok : heap_ok plain.
Proof. apply heap_ok_host, w6_ok. Qed.

Lemma plain_backed : ram_backed plain.
Proof.
  intros r v h Hv Hty Hh x Hx.
  change (w_host plain) with (mem_map ∅ 0x1000 64). rewrite mem_map_lookup.
  apply elem_of_map_to_list in Hv. vm_compute in Hv.
  repeat (apply elem_of_cons in Hv as [Hv|Hv]; [simplify_eq|]); try done;
    try by apply elem_of_nil in Hv.
  cbn in Hx, Hh. simplify_eq. by rewrite decide_True by lia.
Qed.

Lemma plain_is_plain : plain_space plain sys.
Proof. exists s6. split; vm_compute; reflexivity. Qed.

(** Two bytes below the window resolve to RAM. *)
Lemma find_iff_resolves_witness : resolves w6 sys 0x80000000 2 (Some ram).
Proof.
  apply (find_iff_resolves w6 sys s6 0x80000000 2 (Some ram)).
  - apply w6_ok.
  - vm_compute. reflexivity.
  - unfold u64_ok. lia.
  - lia.
  - vm_compute. reflexivity.
Defined.

(** The window wins over the RAM below it, whichever was added first. *)
Lemma find_order_independent_witness :
  exists o, vart_address_space_find (Some sys) 0x80000012 2 w6 = Ok (o, w6) /\
    let w' := w6 <| w_spaces ::= <[sys := s6 <| as_regions := [window; ram] |>]> |> in
    vart_address_space_find (Some sys) 0x80000012 2 w' = Ok (o, w').
Proof.
  apply (find_order_independent w6 sys s6 [window; ram] 0x80000012 2).
  - apply w6_ok.
  - vm_compute. reflexivity.
  - apply Permutation_swap.
  - unfold u64_ok. lia.
  - lia.
Defined.

Lemma reachable_heap_ok_witness : heap_ok w6.
Proof. apply (reachable_heap_ok w6). apply as_demo_steps. Defined.

Definition w7 := exec (vart_address_space_add (Some sys) (Some spare)) w6.
Definition w8 := exec (vart_address_space_remove (Some sys) (Some spare)) w7.
Definition spare_region : VartAddressRegion :=
  mkRegion 0x10000000 256 0 VART_REGION_MMIO true None None ops None None.

Lemma add_remove_roundtrip_witness :
  w_regions w8 = w_regions w6 /\
  forall address size o, resolves w8 sys address size o <-> resolves w6 sys address size o.
Proof.
  apply (add_remove_roundtrip w6 sys spare spare_region w7 w8).
  - apply w6_ok.
  - vm_compute. reflexivity.
  - vm_compute. reflexivity.
  - vm_compute. reflexivity.
Defined.

Lemma ram_access_correct_witness :
  exists err buf w',
    address_space_buffer_access 1 sys 0x80000004 (Some [0; 0]) 2 false plain =
      Ok ((err, buf), w') /\
    plain_outcome plain sys 0x80000004 [0; 0] 2 false err buf w'.
Proof.
  apply (ram_access_correct plain sys 0x80000004 [0; 0] 2 false 0).
  - apply plain_ok.
  - apply plain_backed.
  - apply plain_is_plain.
  - unfold u64_ok. lia.
  - lia.
  - simpl. lia.
Defined.

Definition plain1 := exec (vart_address_space_write_buffer 1 sys 0x80000004
  (Some [171; 205]) 2) plain.

Lemma write_read_roundtrip_witness :
  vart_address_space_read_buffer 1 sys 0x80000004 (Some [0; 0]) 2 plain1 =
    Ok ((0, Some [171; 205]), plain1) /\
  exists host, ram_target plain sys 0x80000004 2 host /\
    forall x, x < host \/ host + 2 <= x -> w_host plain1 !! x = w_host plain !! x.
Proof.
  apply (write_read_roundtrip plain sys 0x80000004 [171; 205] [0; 0] plain1 0).
  - apply plain_ok.
  - apply plain_backed.
  - apply plain_is_plain.
  - unfold u64_ok. lia.
  - simpl. lia.
  - reflexivity.
  - vm_compute. reflexivity.
Defined.

(** A four-byte access to the window reaches its callbacks at offset 4. *)
Lemma mmio_dispatch_witness :
  exists P Q, (P \/ Q) /\
  vart_address_space_read (Some sys) 0x80000014 4 (Some 0) w6 =
    Ok ((0, Some 4), w6).
Proof.
  pose proof (mmio_dispatch w6 sys s6 0x80000014 4 0 w6_ok eq_refl
    ltac:(unfold u64_ok; lia) eq_refl) as [H _].
  eexists _, _. split; [exact H|vm_compute; reflexivity].
Defined.
End Demo.
