(* ===== verification/Iommu.v ===== *)
(** IOMMU contexts: [src/iommu/iommu.c], with the two accessors of
    [src/hw/pci/pci.c] it calls.

    A context owns an address space whose translator is
    [iommu_context_translate]: identity, always-fault, or a three-level Sv39 or
    Sv39x4 page-table walk over the downstream space, with a cache of 64
    translations.  The mutex of a context makes each operation atomic: the
    model runs them one after the other and keeps the lock only as the
    [cache_lock_initialized] flag. *)

From stdpp Require Import base tactics numbers list gmap.
From Stdlib Require Import ZArith Lia.
From S2P Require Import Prelude Bytes Machine AddressSpace.

(** * Constants *)

Abbreviation IOMMU_PAGE_SHIFT := 12 (only parsing).
Abbreviation IOMMU_PTE_SIZE := 8 (only parsing).
Abbreviation IOMMU_PT_INDEX_BITS := 9 (only parsing).
Abbreviation IOMMU_SV39_ROOT_BITS := 9 (only parsing).
Abbreviation IOMMU_SV39_VA_BITS := 39 (only parsing).
Abbreviation IOMMU_SV39X4_ROOT_BITS := 11 (only parsing).
Abbreviation IOMMU_SV39X4_LEVELS := 3 (only parsing).
Abbreviation IOMMU_SV39X4_VA_BITS := 41 (only parsing).
Abbreviation IOMMU_PTE_V := 0x001 (only parsing).
Abbreviation IOMMU_PTE_R := 0x002 (only parsing).
Abbreviation IOMMU_PTE_W := 0x004 (only parsing).
Abbreviation IOMMU_PTE_X := 0x008 (only parsing).
Abbreviation IOMMU_PTE_U := 0x010 (only parsing).
Abbreviation IOMMU_PTE_A := 0x040 (only parsing).
Abbreviation IOMMU_PTE_D := 0x080 (only parsing).
Abbreviation IOMMU_PTE_PPN_MASK := 0x003ffffffffffc00 (only parsing).
Abbreviation IOMMU_PTE_RESERVED := 0x1fc0000000000000 (only parsing).
Abbreviation IOMMU_PTE_N := 0x8000000000000000 (only parsing).

Record VartIommuTranslation := mkTranslation {
  tr_iova_base : Z;
  tr_translated_base : Z;
  tr_size : Z;
  tr_permissions : Z;
}.

(** * Page tables *)

(** The error code, or the canonical address cut to [va_bits] bits. *)
Definition iommu_canonical_iova (address va_bits : Z) : Z + Z :=
  let low_mask := u64 (Z.shiftl 1 va_bits) - 1 in
  let upper := Z.shiftr address (va_bits - 1) in
  let sign_extended := Z.shiftr UINT64_MAX (va_bits - 1) in
  if negb (upper =? 0) && negb (upper =? sign_extended) then inl (-EFAULT)
  else inr (Z.land address low_mask).

Section Walk.
Variable access : Accessor.

Definition iommu_read_pte (context : ptr) (address : Z) : M World (Z + Z) :=
  let* ctx := load_context context in
  let* downstream := deref (ctx_downstream ctx) in
  let* (err, data) := access downstream address
    (Some (repeat 0 (Z.to_nat IOMMU_PTE_SIZE))) IOMMU_PTE_SIZE false in
  if err <? 0 then ret (inl err)
  else
    let* bytes := deref data in
    ret (inr (load_le bytes)).

Definition iommu_write_pte (context : ptr) (address pte : Z) : M World Z :=
  let* ctx := load_context context in
  let* downstream := deref (ctx_downstream ctx) in
  let* (err, _) := access downstream address
    (Some (store_le (Z.to_nat IOMMU_PTE_SIZE) pte)) IOMMU_PTE_SIZE true in
  ret err.

(** One leaf PTE: permission checks, the A/D update, alignment and range.
    [shift] is the size of the page in bits. *)
Definition sv39_leaf (context : ptr) (iova size : Z) (write : bool)
    (shift pte_address pte permissions ppn : Z)
    : M World (Z + VartIommuTranslation) :=
  if (permissions =? IOMMU_PTE_W) ||
     (permissions =? Z.lor IOMMU_PTE_W IOMMU_PTE_X) ||
     negb (bits pte IOMMU_PTE_U) ||
     (if write then negb (bits pte IOMMU_PTE_W) else negb (bits pte IOMMU_PTE_R))
  then ret (inl (-EACCES))
  else
    let* err :=
      if negb (bits pte IOMMU_PTE_A) || (write && negb (bits pte IOMMU_PTE_D))
      then
        let* ctx := load_context context in
        if negb (ctx_update_ad ctx) then ret (-EFAULT)
        else
          let pte := Z.lor pte IOMMU_PTE_A in
          let pte := if write then Z.lor pte IOMMU_PTE_D else pte in
          iommu_write_pte context pte_address pte
      else ret 0 in
    if err <? 0 then ret (inl err)
    else if Z.shiftr UINT64_MAX IOMMU_PAGE_SHIFT <? ppn then ret (inl (-EFAULT))
    else if negb (Z.land ppn (Z.shiftl 1 (shift - IOMMU_PAGE_SHIFT) - 1) =? 0)
    then ret (inl (-EFAULT))
    else
      let page_mask := Z.shiftl 1 shift - 1 in
      if (UINT64_MAX - u64 (size - 1) <? Z.land iova page_mask) ||
         (page_mask + 1 <? u64 (Z.land iova page_mask + size))
      then ret (inl (-ERANGE))
      else
        let translation := mkTranslation (Z.land iova (Z.lnot page_mask))
          (u64 (Z.shiftl ppn IOMMU_PAGE_SHIFT)) (page_mask + 1) permissions in
        if UINT64_MAX - Z.land iova page_mask <? tr_translated_base translation
        then ret (inl (-EFAULT))
        else ret (inr translation).

(** The loop over the levels; [levels] counts those left, so that the C
    variable [level] is [3 - levels]. *)
Fixpoint sv39_walk (context : ptr) (iova size : Z) (write : bool)
    (root_bits : Z) (levels : nat) (table : Z)
    : M World (Z + VartIommuTranslation) :=
  match levels with
  | O => ret (inl (-EFAULT))
  | S rest =>
      let level := IOMMU_SV39X4_LEVELS - Z.of_nat levels in
      let index_bits := if level =? 0 then root_bits else IOMMU_PT_INDEX_BITS in
      let shift := IOMMU_PAGE_SHIFT +
        IOMMU_PT_INDEX_BITS * (IOMMU_SV39X4_LEVELS - 1 - level) in
      let index := Z.land (Z.shiftr iova shift) (Z.shiftl 1 index_bits - 1) in
      if UINT64_MAX - index * IOMMU_PTE_SIZE <? table then ret (inl (-EFAULT))
      else
        let pte_address := table + index * IOMMU_PTE_SIZE in
        let* r := iommu_read_pte context pte_address in
        match r with
        | inl err => ret (inl err)
        | inr pte =>
            if negb (bits pte IOMMU_PTE_V) || bits pte IOMMU_PTE_RESERVED ||
               bits pte IOMMU_PTE_N
            then ret (inl (-EFAULT))
            else
              let permissions := Z.land pte
                (Z.lor IOMMU_PTE_R (Z.lor IOMMU_PTE_W IOMMU_PTE_X)) in
              let ppn := Z.shiftr (Z.land pte IOMMU_PTE_PPN_MASK) 10 in
              if permissions =? 0 then
                if (level =? IOMMU_SV39X4_LEVELS - 1) ||
                   (Z.shiftr UINT64_MAX IOMMU_PAGE_SHIFT <? ppn)
                then ret (inl (-EFAULT))
                else sv39_walk context iova size write root_bits rest
                       (u64 (Z.shiftl ppn IOMMU_PAGE_SHIFT))
              else sv39_leaf context iova size write shift pte_address pte
                     permissions ppn
        end
  end.

Definition iommu_translate_sv39_mode (context : ptr) (address size : Z)
    (write : bool) (root_bits va_bits : Z)
    : M World (Z + VartIommuTranslation) :=
  match iommu_canonical_iova address va_bits with
  | inl err => ret (inl err)
  | inr iova =>
      let* ctx := load_context context in
      sv39_walk context iova size write root_bits
        (Z.to_nat IOMMU_SV39X4_LEVELS)
        (u64 (Z.shiftl (ctx_root_ppn ctx) IOMMU_PAGE_SHIFT))
  end.

Definition iommu_translate_sv39 (context : ptr) (address size : Z)
    (write : bool) : M World (Z + VartIommuTranslation) :=
  iommu_translate_sv39_mode context address size write
    IOMMU_SV39_ROOT_BITS IOMMU_SV39_VA_BITS.

Definition iommu_translate_sv39x4 (context : ptr) (address size : Z)
    (write : bool) : M World (Z + VartIommuTranslation) :=
  iommu_translate_sv39_mode context address size write
    IOMMU_SV39X4_ROOT_BITS IOMMU_SV39X4_VA_BITS.
End Walk.

(** * The translation cache *)

Definition zero_entry : VartIommuCacheEntry := mkCacheEntry 0 0 0 0 false.
Definition zero_cache : list VartIommuCacheEntry :=
  repeat zero_entry VART_IOMMU_CACHE_ENTRIES.

Definition iommu_cache_flush (ctx : VartIommuContext) : VartIommuContext :=
  ctx <| ctx_cache := zero_cache |> <| ctx_cache_count := 0 |>
      <| ctx_cache_next := 0 |>.

(** The conditions under which the loop skips an entry. *)
Definition cache_entry_misses (entry : VartIommuCacheEntry) (address size : Z)
    (write : bool) : bool :=
  negb (ce_valid entry) || (address <? ce_iova_base entry) ||
  (UINT64_MAX - u64 (size - 1) <? address) ||
  (u64 (ce_iova_base entry + ce_size entry) <? u64 (address + size)) ||
  negb (bits (ce_permissions entry) IOMMU_PTE_R) ||
  (write && negb (bits (ce_permissions entry) IOMMU_PTE_W)).

(** The scan of the used entries: whether it hits, and [*translated]. *)
Fixpoint cache_lookup_loop (entries : list VartIommuCacheEntry)
    (address size : Z) (write : bool) (translated : Z) : bool * Z :=
  match entries with
  | [] => (false, translated)
  | entry :: rest =>
      if cache_entry_misses entry address size write
      then cache_lookup_loop rest address size write translated
      else if UINT64_MAX - u64 (address - ce_iova_base entry) <?
              ce_translated_base entry
      then (false, translated)
      else
        let translated :=
          u64 (ce_translated_base entry + u64 (address - ce_iova_base entry)) in
        if UINT64_MAX - u64 (size - 1) <? translated then (false, translated)
        else (true, translated)
  end.

Definition cache_used (ctx : VartIommuContext) : list VartIommuCacheEntry :=
  take (Z.to_nat (ctx_cache_count ctx)) (ctx_cache ctx).

Definition iommu_cache_lookup (ctx : VartIommuContext) (address size : Z)
    (write : bool) (translated : Z) : bool * Z :=
  if ctx_update_ad ctx then (false, translated)
  else cache_lookup_loop (cache_used ctx) address size write translated.

Definition iommu_cache_insert (ctx : VartIommuContext)
    (t : VartIommuTranslation) : VartIommuContext :=
  let entry := mkCacheEntry (tr_iova_base t) (tr_translated_base t) (tr_size t)
                 (tr_permissions t) true in
  let entries := Z.of_nat VART_IOMMU_CACHE_ENTRIES in
  if ctx_cache_count ctx <? entries then
    ctx <| ctx_cache ::= <[Z.to_nat (ctx_cache_count ctx) := entry]> |>
        <| ctx_cache_count := ctx_cache_count ctx + 1 |>
  else
    ctx <| ctx_cache ::= <[Z.to_nat (ctx_cache_next ctx mod entries) := entry]> |>
        <| ctx_cache_next := u64 (ctx_cache_next ctx + 1) |>.

Definition iommu_cache_ranges_overlap (entry : VartIommuCacheEntry)
    (address size : Z) : bool :=
  let end_ := u64 (address + size) in
  let entry_end := u64 (ce_iova_base entry + ce_size entry) in
  (address <? entry_end) && (ce_iova_base entry <? end_).

(** [memmove] of the [count - i - 1] entries after slot [i] down by one: the
    slot [count - 1] keeps its old contents. *)
Definition cache_shift (cache : list VartIommuCacheEntry) (i count : nat)
    : list VartIommuCacheEntry :=
  take i cache ++ take (count - i - 1) (drop (S i) cache) ++
  drop (count - 1) cache.

(** The loop of [iommu_cache_invalidate] with [left] entries still to visit, so
    that [i = count - left]. *)
Fixpoint cache_invalidate_loop (left : nat) (count : nat)
    (cache : list VartIommuCacheEntry) (address size : Z)
    : list VartIommuCacheEntry * nat :=
  match left with
  | O => (cache, count)
  | S rest =>
      let i := (count - left)%nat in
      match cache !! i with
      | Some entry =>
          if iommu_cache_ranges_overlap entry address size
          then cache_invalidate_loop rest (count - 1)
                 (cache_shift cache i count) address size
          else cache_invalidate_loop rest count cache address size
      | None => (cache, count)
      end
  end.

Definition iommu_cache_invalidate (ctx : VartIommuContext) (address size : Z)
    : VartIommuContext :=
  let n := Z.to_nat (ctx_cache_count ctx) in
  let (cache, count) := cache_invalidate_loop n n (ctx_cache ctx) address size in
  let ctx := ctx <| ctx_cache := cache |> <| ctx_cache_count := Z.of_nat count |> in
  if Z.of_nat count =? 0 then ctx <| ctx_cache_next := 0 |>
  else ctx <| ctx_cache_next := ctx_cache_next ctx mod Z.of_nat count |>.

(** * Translation *)

(** What the fault handler stored in a context does: it receives the context,
    the access, the error and its opaque pointer. *)
Class FaultCallbacks :=
  call_fault_handler : fnptr -> ptr -> Z -> Z -> bool -> Z -> option ptr ->
                       M World unit.

Definition is_sv39 (mode : VartIommuContextMode) : bool :=
  match mode with
  | VART_IOMMU_CONTEXT_SV39 | VART_IOMMU_CONTEXT_SV39X4 => true
  | _ => false
  end.

Definition mode_va_bits (mode : VartIommuContextMode) : Z :=
  if bool_decide (mode = VART_IOMMU_CONTEXT_SV39) then IOMMU_SV39_VA_BITS
  else IOMMU_SV39X4_VA_BITS.

(** The part under the lock: the error code, [*target] and [*translated]. *)
Definition translate_locked (access : Accessor) (context : ptr)
    (address size : Z) (write : bool) : M World (Z * option ptr * Z) :=
  let* ctx := load_context context in
  if bool_decide (ctx_mode ctx = VART_IOMMU_CONTEXT_FAULT)
  then ret (-EACCES, None, 0)
  else
    match ctx_downstream ctx with
    | None => ret (-ENODEV, None, 0)
    | Some target =>
        if is_sv39 (ctx_mode ctx) then
          if negb (ctx_root_valid ctx) then ret (-ENODEV, Some target, 0)
          else
            match iommu_canonical_iova address (mode_va_bits (ctx_mode ctx)) with
            | inl err => ret (err, Some target, 0)
            | inr lookup_address =>
                let (hit, translated) :=
                  iommu_cache_lookup ctx lookup_address size write 0 in
                if hit then ret (0, Some target, translated)
                else
                  let* r :=
                    if bool_decide (ctx_mode ctx = VART_IOMMU_CONTEXT_SV39)
                    then iommu_translate_sv39 access context address size write
                    else iommu_translate_sv39x4 access context address size write in
                  match r with
                  | inl err => ret (err, Some target, translated)
                  | inr translation =>
                      let* ctx := load_context context in
                      store_context context (iommu_cache_insert ctx translation) ;;;
                      ret (0, Some target,
                           u64 (tr_translated_base translation +
                             u64 (lookup_address - tr_iova_base translation)))
                  end
            end
        else if bool_decide (ctx_mode ctx = VART_IOMMU_CONTEXT_IDENTITY)
        then ret (0, Some target, address)
        else ret (-ENODEV, Some target, 0)
    end.

Section Translate.
Context `{FaultCallbacks}.

Definition iommu_context_translate (access : Accessor) (opaque : option ptr)
    (address size : Z) (write : bool) : M World (Z * option ptr * Z) :=
  match opaque with
  | Some context =>
      if size =? 0 then ret (-EINVAL, None, 0)
      else
        let* (err, target, translated) :=
          translate_locked access context address size write in
        let* ctx := load_context context in
        match ctx_fault_handler ctx with
        | Some f =>
            if err <? 0 then
              call_fault_handler f context address size write err
                (ctx_fault_opaque ctx) ;;;
              ret (err, target, translated)
            else ret (err, target, translated)
        | None => ret (err, target, translated)
        end
  | None => ret (-EINVAL, None, 0)
  end.

(** The address spaces' translators: [iommu_context_translate] is the only
    function of the program that is installed as one. *)
#[export] Instance iommu_translate_callbacks : TranslateCallbacks :=
  fun access f opaque address size write =>
    match f with
    | fn_iommu_context_translate =>
        iommu_context_translate access opaque address size write
    | _ => undefined
    end.

(** The error code and [*translated]. *)
Definition vart_iommu_context_translate_address (fuel : nat)
    (context : option ptr) (address size : Z) (write : bool) : M World (Z * Z) :=
  let* (err, _, translated) :=
    iommu_context_translate (address_space_buffer_access fuel) context address
      size write in
  ret (err, translated).
End Translate.

(** * Life cycle of a context *)

(** The zero struct, around the embedded address space. *)
Definition zero_context (address_space : ptr) : VartIommuContext :=
  mkContext address_space None None None false 0 VART_IOMMU_CONTEXT_IDENTITY 0 0
    false false None None zero_cache 0 0 false.

Definition context_mode_of_Z (m : Z) : option VartIommuContextMode :=
  if m =? 0 then Some VART_IOMMU_CONTEXT_IDENTITY
  else if m =? 1 then Some VART_IOMMU_CONTEXT_FAULT
  else if m =? 2 then Some VART_IOMMU_CONTEXT_SV39
  else if m =? 3 then Some VART_IOMMU_CONTEXT_SV39X4
  else None.

(** [pthread_mutex_init] either succeeds or fails with ENOMEM. *)
Definition vart_iommu_context_init (context downstream : option ptr) (mode : Z)
    : M World Z :=
  match context, downstream with
  | Some c, Some d =>
      let* old := load_context c in
      let space := ctx_address_space old in
      match context_mode_of_Z mode with
      | None => ret (-EINVAL)
      | Some m =>
          if bool_decide (d = space) then ret (-EINVAL)
          else
            store_context c (zero_context space) ;;;
            vart_address_space_init space ;;;
            let* ok := allocate in
            if negb ok then vart_address_space_destroy space ;;; ret (-ENOMEM)
            else
              let* ctx := load_context c in
              store_context c (ctx <| ctx_cache_lock_initialized := true |>) ;;;
              let* err := vart_address_space_set_translator (Some space)
                (Some fn_iommu_context_translate) (Some c) in
              let* ctx := load_context c in
              if err <? 0 then
                store_context c (ctx <| ctx_cache_lock_initialized := false |>) ;;;
                vart_address_space_destroy space ;;;
                ret err
              else
                store_context c (ctx <| ctx_downstream := Some d |>
                                     <| ctx_mode := m |>) ;;;
                ret 0
      end
  | _, _ => ret (-EINVAL)
  end.

Definition vart_iommu_context_destroy (context : option ptr) : M World unit :=
  match context with
  | None => ret tt
  | Some c =>
      let* ctx := load_context c in
      match ctx_attached_device ctx with
      | Some _ => ret tt
      | None =>
          (if ctx_cache_lock_initialized ctx
           then store_context c (iommu_cache_flush ctx) else ret tt) ;;;
          vart_address_space_destroy (ctx_address_space ctx) ;;;
          store_context c (zero_context (ctx_address_space ctx))
      end
  end.

Definition vart_iommu_context_set_mode (context : option ptr) (mode : Z)
    : M World Z :=
  match context, context_mode_of_Z mode with
  | Some c, Some m =>
      let* ctx := load_context c in
      if bool_decide (ctx_downstream ctx = None) ||
         (is_sv39 m && negb (ctx_root_valid ctx))
      then ret (-EINVAL)
      else
        store_context c (iommu_cache_flush (ctx <| ctx_mode := m |>)) ;;; ret 0
  | _, _ => ret (-EINVAL)
  end.

Definition iommu_context_set_sv39_mode (context : option ptr) (root_ppn : Z)
    (update_ad : bool) (mode : VartIommuContextMode)
    (require_root_alignment : bool) : M World Z :=
  match context with
  | None => ret (-EINVAL)
  | Some c =>
      let* ctx := load_context c in
      if bool_decide (ctx_downstream ctx = None) ||
         (Z.shiftr UINT64_MAX IOMMU_PAGE_SHIFT <? root_ppn) ||
         (require_root_alignment && negb (Z.land root_ppn 3 =? 0))
      then ret (-EINVAL)
      else
        store_context c (iommu_cache_flush (ctx <| ctx_root_ppn := root_ppn |>
          <| ctx_root_valid := true |> <| ctx_update_ad := update_ad |>
          <| ctx_mode := mode |>)) ;;;
        ret 0
  end.

Definition vart_iommu_context_set_sv39 (context : option ptr) (root_ppn : Z)
    (update_ad : bool) : M World Z :=
  iommu_context_set_sv39_mode context root_ppn update_ad
    VART_IOMMU_CONTEXT_SV39 false.

Definition vart_iommu_context_set_sv39x4 (context : option ptr) (root_ppn : Z)
    (update_ad : bool) : M World Z :=
  iommu_context_set_sv39_mode context root_ppn update_ad
    VART_IOMMU_CONTEXT_SV39X4 true.

Definition vart_iommu_context_invalidate (context : option ptr)
    (address size : Z) : M World Z :=
  match context with
  | None => ret (-EINVAL)
  | Some c =>
      if (size =? 0) || (UINT64_MAX - u64 (size - 1) <? address)
      then ret (-EINVAL)
      else
        let* ctx := load_context c in
        let bump ctx := ctx <| ctx_invalidation_generation ::=
                               (fun g => u64 (g + 1)) |> in
        if is_sv39 (ctx_mode ctx) then
          let va_bits := mode_va_bits (ctx_mode ctx) in
          let iova_limit := Z.shiftl 1 va_bits in
          match iommu_canonical_iova address va_bits with
          | inl _ => ret (-EFAULT)
          | inr iova =>
              if iova_limit <=? size then
                store_context c (bump (iommu_cache_flush ctx)) ;;; ret 0
              else if iova_limit - size <? iova then ret (-ERANGE)
              else
                store_context c (bump (iommu_cache_invalidate ctx iova size)) ;;;
                ret 0
          end
        else store_context c (bump (iommu_cache_flush ctx)) ;;; ret 0
  end.

Definition vart_iommu_context_set_fault_handler (context : option ptr)
    (handler : option fnptr) (opaque : option ptr) : M World Z :=
  match context with
  | None => ret (-EINVAL)
  | Some c =>
      let* ctx := load_context c in
      if negb (ctx_cache_lock_initialized ctx) then ret (-EINVAL)
      else
        store_context c (ctx <| ctx_fault_handler := handler |>
                             <| ctx_fault_opaque := opaque |>) ;;;
        ret 0
  end.

Definition vart_iommu_context_address_space (context : option ptr)
    : M World (option ptr) :=
  match context with
  | None => ret None
  | Some c => let* ctx := load_context c in ret (Some (ctx_address_space ctx))
  end.

(** * Attaching devices *)

Definition vart_pci_device_requester_id (device : option ptr) : M World Z :=
  match device with
  | None => ret 0
  | Some d => let* dev := load_device d in ret (pci_requester_id dev)
  end.

Definition vart_pci_device_set_dma_as (device address_space : option ptr)
    : M World Z :=
  match device with
  | None => ret (-EINVAL)
  | Some d =>
      let* dev := load_device d in
      if dev_realized (pci_parent dev) then ret (-EBUSY)
      else
        store_device d (dev <| pci_parent := (pci_parent dev)
          <| dev_dma_as := address_space |> <| dev_dma_as_from_bus := false |> |>) ;;;
        ret 0
  end.

Definition vart_iommu_context_attach (context device : option ptr) : M World Z :=
  match context, device with
  | Some c, Some d =>
      let* ctx := load_context c in
      match ctx_attached_device ctx with
      | Some _ => ret (-EINVAL)
      | None =>
          let* dev := load_device d in
          if dev_realized (pci_parent dev) then ret (-EINVAL)
          else
            store_context c (ctx <| ctx_saved_dma_as := dev_dma_as (pci_parent dev) |>
              <| ctx_saved_dma_as_from_bus := dev_dma_as_from_bus (pci_parent dev) |>) ;;;
            let* err := vart_pci_device_set_dma_as (Some d)
                          (Some (ctx_address_space ctx)) in
            if err <? 0 then ret err
            else
              let* id := vart_pci_device_requester_id (Some d) in
              let* ctx := load_context c in
              store_context c (ctx <| ctx_attached_device := Some d |>
                                   <| ctx_requester_id := id |>) ;;;
              ret 0
      end
  | _, _ => ret (-EINVAL)
  end.

Definition vart_iommu_context_detach (context device : option ptr) : M World Z :=
  match context, device with
  | Some c, Some d =>
      let* ctx := load_context c in
      if negb (bool_decide (ctx_attached_device ctx = Some d)) then ret (-EINVAL)
      else
        let* dev := load_device d in
        if dev_realized (pci_parent dev) then ret (-EINVAL)
        else
          store_device d (dev <| pci_parent := (pci_parent dev)
            <| dev_dma_as := ctx_saved_dma_as ctx |>
            <| dev_dma_as_from_bus := ctx_saved_dma_as_from_bus ctx |> |>) ;;;
          store_context c (ctx <| ctx_attached_device := None |>
            <| ctx_saved_dma_as := None |> <| ctx_saved_dma_as_from_bus := false |>) ;;;
          ret 0
  | _, _ => ret (-EINVAL)
  end.

Definition vart_iommu_context_matches_requester (context : option ptr)
    (requester_id : Z) : M World bool :=
  match context with
  | None => ret false
  | Some c =>
      let* ctx := load_context c in
      match ctx_attached_device ctx with
      | None => ret false
      | Some d =>
          if negb (ctx_requester_id ctx =? requester_id) then ret false
          else
            let* id := vart_pci_device_requester_id (Some d) in
            ret (id =? requester_id)
      end
  end.

(** * Reference semantics of the page tables

    Addresses are computed with division and remainder; [pt] gives the PTE at a
    physical address or the error of reading it. *)

Definition PageTable : Type := Z -> Z + Z.

Definition pte_invalid (pte : Z) : bool :=
  negb (bits pte IOMMU_PTE_V) || bits pte IOMMU_PTE_RESERVED || bits pte IOMMU_PTE_N.
Definition pte_permissions (pte : Z) : Z := Z.land pte 14.
Definition pte_ppn (pte : Z) : Z := (pte / 2 ^ 10) mod 2 ^ 44.

(** The leaf PTE that maps [iova], with the size of its page in bits. *)
Fixpoint find_leaf (pt : PageTable) (root_bits : Z) (levels : nat)
    (table iova : Z) : Z + Z * Z :=
  match levels with
  | O => inl (-EFAULT)
  | S below =>
      let shift := 12 + 9 * Z.of_nat below in
      let index := (iova / 2 ^ shift) mod
        2 ^ (if Nat.eqb below 2 then root_bits else 9) in
      if UINT64_MAX <? table + 8 * index then inl (-EFAULT)
      else
        match pt (table + 8 * index) with
        | inl err => inl err
        | inr pte =>
            if pte_invalid pte then inl (-EFAULT)
            else if pte_permissions pte =? 0
            then find_leaf pt root_bits below (4096 * pte_ppn pte) iova
            else inr (shift, pte)
        end
  end.

(** The leaf lets the device read (or write) at all. *)
Definition leaf_allows (pte : Z) (write : bool) : bool :=
  negb (pte_permissions pte =? 4) && negb (pte_permissions pte =? 12) &&
  bits pte IOMMU_PTE_U &&
  (if write then bits pte IOMMU_PTE_W else bits pte IOMMU_PTE_R).

(** The accessed bit, and for a write the dirty bit, are set. *)
Definition leaf_used (pte : Z) (write : bool) : bool :=
  bits pte IOMMU_PTE_A && (negb write || bits pte IOMMU_PTE_D).

Definition leaf_page (iova shift pte : Z) : VartIommuTranslation :=
  mkTranslation (iova - iova mod 2 ^ shift) (4096 * pte_ppn pte) (2 ^ shift)
    (pte_permissions pte).

Definition leaf_result (iova size : Z) (write : bool) (shift pte : Z)
    : Z + VartIommuTranslation :=
  if negb (leaf_allows pte write) then inl (-EACCES)
  else if negb (leaf_used pte write) then inl (-EFAULT)
  else if negb (pte_ppn pte mod 2 ^ (shift - 12) =? 0) then inl (-EFAULT)
  else if 2 ^ shift <? iova mod 2 ^ shift + size then inl (-ERANGE)
  else inr (leaf_page iova shift pte).

Definition walk_result (pt : PageTable) (root_bits : Z) (levels : nat)
    (table iova size : Z) (write : bool) : Z + VartIommuTranslation :=
  match find_leaf pt root_bits levels table iova with
  | inl err => inl err
  | inr (shift, pte) => leaf_result iova size write shift pte
  end.

(** A 64-bit address is canonical when it is the sign extension of its low
    [va_bits] bits. *)
Definition signed64 (x : Z) : Z := if x <? 2 ^ 63 then x else x - 2 ^ 64.
Definition canonical (address va_bits : Z) : bool :=
  (- 2 ^ (va_bits - 1) <=? signed64 address) && (signed64 address <? 2 ^ (va_bits - 1)).

Definition mode_root_bits (mode : VartIommuContextMode) : Z :=
  if bool_decide (mode = VART_IOMMU_CONTEXT_SV39) then IOMMU_SV39_ROOT_BITS
  else IOMMU_SV39X4_ROOT_BITS.

(** What a translation without a cache gives: an error or the address. *)
Definition ref_translate (pt : PageTable) (ctx : VartIommuContext)
    (address size : Z) (write : bool) : Z + Z :=
  let va_bits := mode_va_bits (ctx_mode ctx) in
  if negb (canonical address va_bits) then inl (-EFAULT)
  else
    let iova := address mod 2 ^ va_bits in
    match walk_result pt (mode_root_bits (ctx_mode ctx)) 3
            (4096 * ctx_root_ppn ctx) iova size write with
    | inl err => inl err
    | inr t => inr (tr_translated_base t + iova mod tr_size t)
    end.

(** * Lemmas on the walk *)

Lemma canonical_iova_correct address va_bits :
  u64_ok address -> 1 <= va_bits <= 63 ->
  iommu_canonical_iova address va_bits =
  if canonical address va_bits then inr (address mod 2 ^ va_bits) else inl (-EFAULT).
Proof.
  intros Ha Hv. unfold iommu_canonical_iova, canonical, signed64, u64_ok in *.
  rewrite Z.shiftl_1_l, !Z.shiftr_div_pow2 by lia.
  assert (2 ^ va_bits < 2 ^ 64) by (apply Z.pow_lt_mono_r; lia).
  assert (0 < 2 ^ va_bits) by lia.
  rewrite u64_small, land_low_mask by lia.
  set (k := va_bits - 1). assert (0 <= k <= 62) as Hk by lia.
  assert (2 ^ 64 = 2 ^ k * 2 ^ (64 - k)) as Hs by (rewrite <- Z.pow_add_r; [f_equal|..]; lia).
  assert (0 < 2 ^ k) by lia. assert (2 ^ 2 <= 2 ^ (64 - k)) by (apply Z.pow_le_mono_r; lia).
  assert (2 ^ k <= 2 ^ 62) by (apply Z.pow_le_mono_r; lia).
  set (P := 2 ^ k) in *. set (Q := 2 ^ (64 - k)) in *.
  assert (UINT64_MAX / P = Q - 1) as ->.
  { symmetry. apply (Z.div_unique _ _ _ (P - 1)); nia. }
  assert (address / P = 0 <-> address < P) as HP0.
  { split; intros; [|apply Z.div_small; lia].
    pose proof (Z.div_mod address P). pose proof (Z.mod_pos_bound address P). nia. }
  assert (address / P = Q - 1 <-> 2 ^ 64 - P <= address) as HP1.
  { split; intros Hd.
    - pose proof (Z.div_mod address P). pose proof (Z.mod_pos_bound address P). nia.
    - symmetry. apply (Z.div_unique _ _ _ (address - (2 ^ 64 - P))); nia. }
  destruct (Z.ltb_spec address (2 ^ 63)); cbn zeta;
  destruct (Z.eqb_spec (address / P) 0), (Z.eqb_spec (address / P) (Q - 1));
    cbn [negb andb]; repeat match goal with |- context [?a <=? ?b] => destruct (Z.leb_spec a b)
      | |- context [?a <? ?b] => destruct (Z.ltb_spec a b) end; cbn [andb]; lia || done.
Qed.

Lemma pte_ppn_correct pte :
  Z.shiftr (Z.land pte IOMMU_PTE_PPN_MASK) 10 = pte_ppn pte.
Proof.
  unfold pte_ppn. rewrite Z.shiftr_land, Z.shiftr_div_pow2 by lia.
  rewrite <- land_low_mask by lia. done.
Qed.

Lemma pte_ppn_range pte : 0 <= pte_ppn pte < 2 ^ 44.
Proof. apply Z.mod_pos_bound. lia. Qed.

Lemma page_table_of_ppn pte :
  u64 (Z.shiftl (pte_ppn pte) IOMMU_PAGE_SHIFT) = 4096 * pte_ppn pte.
Proof.
  pose proof (pte_ppn_range pte). rewrite Z.shiftl_mul_pow2 by lia.
  rewrite u64_small by lia. lia.
Qed.

(** The size of an object that exists: at most PTRDIFF_MAX. *)
Definition buffer_size (size : Z) : Prop := 1 <= size < 2 ^ 63.

(** What the walk needs of the downstream space: in the heap [w], reading the
    eight bytes of a PTE through [access] gives [pt] and changes nothing. *)
Class PteReader (access : Accessor) (w : World) (d : ptr) (pt : PageTable) : Prop :=
  read_pte_spec : forall address, u64_ok address ->
    match pt address with
    | inr pte => u64_ok pte /\ exists bytes, load_le bytes = pte /\
        access d address (Some (repeat 0 8)) 8 false w = Ok ((0, Some bytes), w)
    | inl err => err < 0 /\ exists buf,
        access d address (Some (repeat 0 8)) 8 false w = Ok ((err, buf), w)
    end.

Section WalkCorrect.
Context (access : Accessor) (w : World) (d : ptr) (pt : PageTable)
  `{HR : !PteReader access w d pt} (c : ptr) (ctx : VartIommuContext).
Hypothesis Hc : w_contexts w !! c = Some ctx.
Hypothesis Hd : ctx_downstream ctx = Some d.
Hypothesis Had : ctx_update_ad ctx = false.

Lemma load_context_eq : load_context c w = Ok (ctx, w).
Proof using Hc. unfold load_context. run_unfold. by rewrite Hc. Qed.

Lemma read_pte_eq address :
  u64_ok address -> iommu_read_pte access c address w = Ok (pt address, w).
Proof using HR Hc Hd.
  intros Ha. unfold iommu_read_pte. rewrite (bind_eq _ _ _ _ _ load_context_eq), Hd.
  pose proof (read_pte_spec address Ha) as Hp. run_unfold.
  change (Z.to_nat 8) with 8%nat. destruct (pt address) as [err|pte].
  - destruct Hp as [Hneg (buf & ->)]. by destruct (Z.ltb_spec err 0); [|lia].
  - destruct Hp as [_ (bytes & <- & ->)]. done.
Qed.

Lemma leaf_correct iova size write shift pte_address pte :
  0 <= iova -> buffer_size size -> 12 <= shift <= 62 ->
  sv39_leaf access c iova size write shift pte_address pte (pte_permissions pte)
    (pte_ppn pte) w = Ok (leaf_result iova size write shift pte, w).
Proof using Hc Had.
  intros Hi Hs Hsh. unfold sv39_leaf, leaf_result, buffer_size in *.
  assert (((pte_permissions pte =? 4) || (pte_permissions pte =? Z.lor 4 8)
    || negb (bits pte 16) || (if write then negb (bits pte 4) else negb (bits pte 2)))
    = negb (leaf_allows pte write)) as ->.
  { unfold leaf_allows. change (Z.lor 4 8) with 12.
    destruct (_ =? 4), (_ =? 12), (bits pte 16), write; cbn; try done.
    all: by rewrite ?negb_involutive. }
  destruct (leaf_allows pte write); [cbn [negb]|done].
  assert (negb (bits pte 64) || (write && negb (bits pte 128)) =
    negb (leaf_used pte write)) as ->.
  { unfold leaf_used. by destruct (bits pte 64), (bits pte 128), write. }
  destruct (leaf_used pte write) eqn:Hu; cbn [negb].
  2: { unfold bind at 1. rewrite (bind_eq _ _ _ _ _ load_context_eq), Had. done. }
  unfold bind, ret at 1. cbn [Z.ltb Z.compare].
  pose proof (pte_ppn_range pte) as Hppn.
  rewrite Z.shiftr_div_pow2 by lia.
  destruct (Z.ltb_spec (UINT64_MAX / 2 ^ 12) (pte_ppn pte)) as [Hbad|_].
  { change (UINT64_MAX / 2 ^ 12) with 4503599627370495 in Hbad. lia. }
  rewrite !Z.shiftl_1_l, !land_low_mask, land_high_mask by lia.
  destruct (negb (_ =? 0)); [done|].
  assert (2 ^ shift <= 2 ^ 62) by (apply Z.pow_le_mono_r; lia).
  pose proof (Z.mod_pos_bound iova (2 ^ shift) ltac:(lia)) as Hm.
  set (off := iova mod 2 ^ shift) in *. rewrite (u64_small (size - 1)) by lia.
  assert ((UINT64_MAX - (size - 1) <? off) || (2 ^ shift - 1 + 1 <? u64 (off + size))
    = (2 ^ shift <? off + size)) as ->.
  { destruct (Z.ltb_spec (UINT64_MAX - (size - 1)) off), (Z.ltb_spec (2 ^ shift) (off + size));
      cbn [orb]; try lia. all: rewrite u64_small by lia; lia. }
  destruct (2 ^ shift <? off + size); [done|]. cbn [tr_translated_base].
  rewrite page_table_of_ppn.
  destruct (Z.ltb_spec (UINT64_MAX - off) (4096 * pte_ppn pte)) as [Hbad|_].
  { assert (2 ^ 56 + 2 ^ 63 < 2 ^ 64) by done. lia. }
  unfold ret, leaf_page. fold off. do 4 f_equal. lia.
Qed.

Lemma walk_correct iova size write root_bits levels table :
  0 <= iova -> buffer_size size -> 1 <= root_bits <= 11 ->
  (levels <= 3)%nat -> u64_ok table ->
  sv39_walk access c iova size write root_bits levels table w =
    Ok (walk_result pt root_bits levels table iova size write, w).
Proof using All.
  intros Hi Hs Hr. unfold walk_result. revert table.
  induction levels as [|below IH]; intros table Hl Ht; [done|].
  cbn [sv39_walk find_leaf]. unfold u64_ok in *.
  assert ((3 - Z.of_nat (S below) =? 0) = Nat.eqb below 2) as ->
    by (apply Bool.eq_iff_eq_true; rewrite Z.eqb_eq, Nat.eqb_eq; lia).
  replace (12 + 9 * (3 - 1 - (3 - Z.of_nat (S below)))) with (12 + 9 * Z.of_nat below) by lia.
  set (shift := 12 + 9 * Z.of_nat below).
  set (ib := if Nat.eqb below 2 then root_bits else 9).
  assert (1 <= ib <= 11) as Hib by (subst ib; destruct (Nat.eqb below 2); lia).
  rewrite Z.shiftl_1_l, land_low_mask, Z.shiftr_div_pow2 by lia.
  pose proof (Z.mod_pos_bound (iova / 2 ^ shift) (2 ^ ib) ltac:(lia)) as Hx.
  assert (2 ^ ib <= 2 ^ 11) by (apply Z.pow_le_mono_r; lia).
  set (index := (iova / 2 ^ shift) mod 2 ^ ib) in *.
  replace (table + index * 8) with (table + 8 * index) by lia.
  destruct (Z.ltb_spec UINT64_MAX (table + 8 * index)), (Z.ltb_spec (UINT64_MAX - index * 8) table);
    try lia; [done|].
  rewrite (bind_eq _ _ _ _ _ (read_pte_eq (table + 8 * index) ltac:(unfold u64_ok; lia))).
  destruct (pt (table + 8 * index)) as [err|pte]; [done|].
  change (negb (bits pte 1) || bits pte _ || bits pte _) with (pte_invalid pte).
  destruct (pte_invalid pte); [done|].
  change (Z.land pte (Z.lor 2 (Z.lor 4 8))) with (pte_permissions pte).
  rewrite pte_ppn_correct. destruct (pte_permissions pte =? 0) eqn:Hp.
  2: { apply leaf_correct; [lia|done|lia]. }
  pose proof (pte_ppn_range pte).
  destruct (Z.ltb_spec (Z.shiftr UINT64_MAX 12) (pte_ppn pte)) as [Hbad|_].
  { change (Z.shiftr UINT64_MAX 12) with 4503599627370495 in Hbad. lia. }
  rewrite orb_false_r, page_table_of_ppn.
  destruct (Z.eqb_spec (3 - Z.of_nat (S below)) (3 - 1)).
  { by replace below with 0%nat by lia. }
  apply IH; [lia|]. lia.
Qed.
End WalkCorrect.

(** * The cache against the page tables *)

Lemma land_low4 x m : 0 <= m < 16 -> Z.land x m = Z.land (x mod 16) m.
Proof.
  intros Hm. change 16 with (2 ^ 4). rewrite <- land_low_mask, <- Z.land_assoc by lia.
  f_equal. rewrite Z.land_comm, land_low_mask by lia. symmetry. by apply Z.mod_small.
Qed.

Lemma pte_permissions_bits pte :
  pte_permissions pte = (if bits pte 2 then 2 else 0) + (if bits pte 4 then 4 else 0) +
    (if bits pte 8 then 8 else 0).
Proof.
  unfold pte_permissions, bits. rewrite !(land_low4 pte) by lia.
  pose proof (Z.mod_pos_bound pte 16 ltac:(lia)) as H.
  assert (exists n : nat, pte mod 16 = Z.of_nat n /\ (n < 16)%nat) as (n & -> & Hn)
    by (exists (Z.to_nat (pte mod 16)); lia).
  do 16 (destruct n as [|n]; [done|]). lia.
Qed.

(** The permissions kept in a cache entry are those of the PTE. *)
Lemma permissions_bits pte :
  bits (pte_permissions pte) IOMMU_PTE_R = bits pte IOMMU_PTE_R /\
  bits (pte_permissions pte) IOMMU_PTE_W = bits pte IOMMU_PTE_W.
Proof.
  rewrite pte_permissions_bits.
  by destruct (bits pte 2), (bits pte 4), (bits pte 8).
Qed.

Lemma leaf_allows_read pte write : leaf_allows pte write = true -> leaf_allows pte false = true.
Proof.
  unfold leaf_allows. rewrite pte_permissions_bits.
  by destruct (bits pte 2), (bits pte 4), (bits pte 8), (bits pte 16), write.
Qed.

(** All addresses of a page are mapped by the same leaf. *)
Lemma find_leaf_page pt root_bits levels table iova iova' shift pte :
  find_leaf pt root_bits levels table iova = inr (shift, pte) ->
  12 <= shift < 12 + 9 * Z.of_nat levels /\
  (iova' / 2 ^ shift = iova / 2 ^ shift ->
   find_leaf pt root_bits levels table iova' = inr (shift, pte)).
Proof.
  revert table. induction levels as [|below IH]; intros table H; [done|].
  cbn [find_leaf] in *. set (s := 12 + 9 * Z.of_nat below) in *.
  destruct (UINT64_MAX <? _) eqn:Ho in H; [done|].
  destruct (pt _) as [err|p] eqn:Hp in H; [done|].
  destruct (pte_invalid p) eqn:Hv; [done|].
  assert (forall sh, 12 <= sh <= s -> iova' / 2 ^ sh = iova / 2 ^ sh ->
    iova' / 2 ^ s = iova / 2 ^ s) as Hdiv.
  { intros sh Hsh E. replace s with (sh + (s - sh)) by lia.
    rewrite Z.pow_add_r, <- !Z.div_div, E by lia. done. }
  destruct (pte_permissions p =? 0) eqn:Hz.
  - destruct (IH _ H) as [Hr Hnext]. split; [lia|]. intros E.
    rewrite (Hdiv shift), Ho, Hp, Hv, Hz by (done || lia). by apply Hnext.
  - injection H as <- <-. split; [lia|]. intros E.
    rewrite (Hdiv s), Ho, Hp, Hv, Hz by (done || lia). done.
Qed.

Record context_ok (ctx : VartIommuContext) : Prop := {
  co_root : 0 <= ctx_root_ppn ctx < 2 ^ 52;
  co_cache : length (ctx_cache ctx) = VART_IOMMU_CACHE_ENTRIES;
  co_count : 0 <= ctx_cache_count ctx <= 64;
  co_next : 0 <= ctx_cache_next ctx <= UINT64_MAX;
}.

Definition context_leaf (pt : PageTable) (ctx : VartIommuContext) (iova : Z)
    : Z + Z * Z :=
  find_leaf pt (mode_root_bits (ctx_mode ctx)) 3 (4096 * ctx_root_ppn ctx) iova.

(** A cache entry describes a page that the tables still map, readable, with
    the accessed bit set. *)
Definition entry_coherent (pt : PageTable) (ctx : VartIommuContext)
    (e : VartIommuCacheEntry) : Prop :=
  0 <= ce_iova_base e /\
  ce_iova_base e + ce_size e <= 2 ^ mode_va_bits (ctx_mode ctx) /\
  exists shift pte, 12 <= shift <= 30 /\ ce_size e = 2 ^ shift /\
    ce_iova_base e mod 2 ^ shift = 0 /\
    ce_translated_base e = 4096 * pte_ppn pte /\
    ce_permissions e = pte_permissions pte /\
    pte_ppn pte mod 2 ^ (shift - 12) = 0 /\
    leaf_allows pte false = true /\ leaf_used pte false = true /\
    forall iova, ce_iova_base e <= iova < ce_iova_base e + ce_size e ->
      context_leaf pt ctx iova = inr (shift, pte).

Definition cache_coherent (pt : PageTable) (ctx : VartIommuContext) : Prop :=
  ctx_update_ad ctx = false -> Forall (entry_coherent pt ctx) (cache_used ctx).

(** Every leaf that allows writes is already marked dirty. *)
Definition writable_leaves_dirty (pt : PageTable) (ctx : VartIommuContext) : Prop :=
  forall iova shift pte, context_leaf pt ctx iova = inr (shift, pte) ->
    bits pte IOMMU_PTE_W = true -> bits pte IOMMU_PTE_D = true.

Lemma context_va_bits mode :
  39 <= mode_va_bits mode <= 41 /\ 2 ^ mode_va_bits mode <= 2 ^ 41.
Proof. unfold mode_va_bits. case_bool_decide; split; lia. Qed.

Section CacheCorrect.
Context (pt : PageTable) (ctx : VartIommuContext).

(** A hit in a coherent entry gives what the walk would give. *)
Lemma entry_hit e iova size write :
  entry_coherent pt ctx e -> 0 <= iova < 2 ^ 41 -> buffer_size size ->
  (write = true -> writable_leaves_dirty pt ctx) ->
  cache_entry_misses e iova size write = false ->
  ce_iova_base e <= iova /\ 0 <= ce_translated_base e < 2 ^ 56 /\
  ce_iova_base e + ce_size e <= 2 ^ 41 /\
  exists t, walk_result pt (mode_root_bits (ctx_mode ctx)) 3
      (4096 * ctx_root_ppn ctx) iova size write = inr t /\
    tr_translated_base t + iova mod tr_size t =
      ce_translated_base e + (iova - ce_iova_base e).
Proof.
  intros (Hb & He & shift & pte & Hsh & Hsz & Hal & Htb & Hpm & Hppn & Hra & Hru & Hleaf)
    Hi Hs Hw Hmiss.
  pose proof (context_va_bits (ctx_mode ctx)) as [_ Hvb].
  unfold cache_entry_misses, buffer_size in *. rewrite Hpm in Hmiss.
  destruct (permissions_bits pte) as [HR HW]. rewrite HR, HW in Hmiss.
  assert (0 < ce_size e) by (rewrite Hsz; lia).
  rewrite (u64_small (ce_iova_base e + ce_size e)), (u64_small (iova + size)),
    (u64_small (size - 1)) in Hmiss by lia.
  rewrite !orb_false_iff in Hmiss. destruct Hmiss as [[[[[_ H1] _] H3] H4] H5].
  pose proof (pte_ppn_range pte).
  split_and!; [lia|lia|lia|lia|].
  unfold walk_result. fold (context_leaf pt ctx iova). rewrite Hleaf by lia.
  unfold leaf_result.
  assert (leaf_allows pte write = true) as ->.
  { destruct write; [|done]. unfold leaf_allows in Hra |- *.
    rewrite !andb_true_iff in Hra |- *. destruct Hra as [[[] ] ].
    split_and!; [done..|by apply negb_false_iff]. }
  assert (leaf_used pte write = true) as ->.
  { unfold leaf_used in *. destruct write; [|done].
    rewrite andb_true_iff in *. split; [apply Hru|].
    apply (Hw eq_refl iova shift pte); [apply Hleaf; lia|].
    by apply negb_false_iff. }
  rewrite Hppn. cbn [negb Z.eqb].
  assert (iova mod 2 ^ shift = iova - ce_iova_base e) as Hmod.
  { symmetry. apply (Z.mod_unique_pos _ _ (ce_iova_base e / 2 ^ shift)); [lia|].
    pose proof (Z.div_mod (ce_iova_base e) (2 ^ shift)). lia. }
  rewrite Hmod. destruct (Z.ltb_spec (2 ^ shift) (iova - ce_iova_base e + size)); [lia|].
  eexists. split; [done|]. cbn. rewrite Hmod. lia.
Qed.

Lemma lookup_correct iova size write entries :
  Forall (entry_coherent pt ctx) entries -> 0 <= iova < 2 ^ 41 -> buffer_size size ->
  (write = true -> writable_leaves_dirty pt ctx) ->
  match cache_lookup_loop entries iova size write 0 with
  | (true, x) => exists t, walk_result pt (mode_root_bits (ctx_mode ctx)) 3
      (4096 * ctx_root_ppn ctx) iova size write = inr t /\
      x = tr_translated_base t + iova mod tr_size t
  | (false, x) => x = 0
  end.
Proof.
  intros Hall Hi Hs Hw. induction Hall as [|e rest He _ IH]; [done|].
  cbn [cache_lookup_loop]. destruct (cache_entry_misses e iova size write) eqn:Hm; [done|].
  destruct (entry_hit e iova size write He Hi Hs Hw Hm) as (? & ? & ? & t & Ht & Heq).
  destruct He as (Hb & _). unfold buffer_size in *.
  rewrite (u64_small (iova - _)), (u64_small (ce_translated_base e + _)),
    (u64_small (size - 1)) by lia.
  destruct (Z.ltb_spec (UINT64_MAX - (iova - ce_iova_base e)) (ce_translated_base e)); [lia|].
  destruct (Z.ltb_spec (UINT64_MAX - (size - 1))
    (ce_translated_base e + (iova - ce_iova_base e))); [lia|].
  eauto.
Qed.

(** The page of a successful walk makes a coherent entry. *)
Lemma new_entry_coherent iova size write t :
  0 <= iova < 2 ^ mode_va_bits (ctx_mode ctx) ->
  walk_result pt (mode_root_bits (ctx_mode ctx)) 3 (4096 * ctx_root_ppn ctx)
    iova size write = inr t ->
  (exists shift, tr_size t = 2 ^ shift /\ 12 <= shift <= 30) /\
  tr_iova_base t = iova - iova mod tr_size t /\
  0 <= tr_translated_base t < 2 ^ 56 /\
  entry_coherent pt ctx (mkCacheEntry (tr_iova_base t) (tr_translated_base t)
    (tr_size t) (tr_permissions t) true).
Proof.
  intros Hi. unfold walk_result. destruct (find_leaf _ _ _ _ _) as [|[shift pte]] eqn:Hf; [done|].
  unfold leaf_result. destruct (leaf_allows pte write) eqn:Ha; [|done].
  destruct (leaf_used pte write) eqn:Hu; [|done]. cbn [negb].
  destruct (Z.eqb_spec (pte_ppn pte mod 2 ^ (shift - 12)) 0); [|done]. cbn [negb].
  destruct (_ <? _); [done|]. intros [= <-].
  pose proof (find_leaf_page _ _ _ _ _ iova _ _ Hf) as [Hsh _].
  pose proof (Z.mod_pos_bound iova (2 ^ shift) ltac:(lia)).
  pose proof (Z.div_mod iova (2 ^ shift) ltac:(lia)).
  pose proof (pte_ppn_range pte). change (Z.of_nat 3) with 3 in Hsh.
  assert (2 ^ shift <= 2 ^ 38) by (apply Z.pow_le_mono_r; lia).
  assert (iova mod 2 ^ shift <= iova) by (apply Z.mod_le; lia).
  assert (shift <= 30) as Hsh30.
  { clear -Hf. cbn [find_leaf] in Hf.
    repeat match type of Hf with
    | (if ?b then _ else _) = _ => destruct b
    | match pt ?a with _ => _ end = _ => destruct (pt a)
    end; simplify_eq; lia. }
  cbn [leaf_page tr_size tr_iova_base tr_translated_base tr_permissions].
  split_and!; [exists shift; split; [done|lia]|done|lia|lia|].
  unfold entry_coherent. cbn. split; [lia|]. split.
  { pose proof (context_va_bits (ctx_mode ctx)) as [? _].
    set (vb := mode_va_bits (ctx_mode ctx)) in *.
    assert (2 ^ vb = 2 ^ (vb - shift) * 2 ^ shift) as Hvb
      by (rewrite <- Z.pow_add_r; [f_equal|..]; lia).
    assert (iova / 2 ^ shift < 2 ^ (vb - shift)); [|nia].
    apply Z.div_lt_upper_bound; lia. }
  exists shift, pte. split_and!; try done; try lia.
  - rewrite Zminus_mod_idemp_r, Z.sub_diag. by rewrite Z.mod_0_l by lia.
  - by eapply leaf_allows_read.
  - unfold leaf_used in *. destruct write; cbn in *; [|done].
    apply andb_true_iff in Hu as [-> _]. done.
  - intros iova' Hi'. unfold context_leaf.
    apply (find_leaf_page _ _ _ _ _ iova' _ _ Hf).
    symmetry. apply (Z.div_unique_pos _ _ _ (iova' - (iova - iova mod 2 ^ shift))); lia.
Qed.
End CacheCorrect.

(** The registers that translation depends on. *)
Definition same_mapping (ctx ctx' : VartIommuContext) : Prop :=
  ctx_mode ctx' = ctx_mode ctx /\ ctx_root_ppn ctx' = ctx_root_ppn ctx /\
  ctx_update_ad ctx' = ctx_update_ad ctx.

Lemma entry_coherent_ext pt ctx ctx' e :
  same_mapping ctx ctx' -> entry_coherent pt ctx e -> entry_coherent pt ctx' e.
Proof.
  unfold entry_coherent, context_leaf. by intros (-> & -> & _) ?.
Qed.

Lemma insert_same_mapping ctx t : same_mapping ctx (iommu_cache_insert ctx t).
Proof. unfold iommu_cache_insert. destruct (_ <? _); by repeat split. Qed.

Lemma insert_ok ctx t : context_ok ctx -> context_ok (iommu_cache_insert ctx t).
Proof.
  intros [Hr Hl Hc Hn]. unfold iommu_cache_insert.
  change (Z.of_nat VART_IOMMU_CACHE_ENTRIES) with 64.
  destruct (Z.ltb_spec (ctx_cache_count ctx) 64);
    split; cbn; rewrite ?length_insert; try done; try lia.
  apply u64_range.
Qed.

(** The used entries after an insertion are old ones and the new one. *)
Lemma insert_used (P : VartIommuCacheEntry -> Prop) ctx t :
  context_ok ctx -> Forall P (cache_used ctx) ->
  P (mkCacheEntry (tr_iova_base t) (tr_translated_base t) (tr_size t)
       (tr_permissions t) true) ->
  Forall P (cache_used (iommu_cache_insert ctx t)).
Proof.
  intros [Hr Hl Hc Hn] Hall He. unfold cache_used, iommu_cache_insert in *.
  set (e := mkCacheEntry _ _ _ _ _) in *.
  change (Z.of_nat VART_IOMMU_CACHE_ENTRIES) with 64.
  destruct (Z.ltb_spec (ctx_cache_count ctx) 64) as [Hlt|Hge].
  - cbn. replace (Z.to_nat (ctx_cache_count ctx + 1))
      with (S (Z.to_nat (ctx_cache_count ctx))) by lia.
    rewrite (take_S_r _ _ e) by (rewrite list_lookup_insert_eq; [done|];
      rewrite Hl; unfold VART_IOMMU_CACHE_ENTRIES; lia).
    rewrite take_insert_ge by lia. by apply Forall_app_2; [|constructor].
  - cbn. rewrite take_insert. case_decide; [by apply Forall_insert|done].
Qed.

Lemma insert_coherent pt ctx t :
  context_ok ctx -> cache_coherent pt ctx ->
  (ctx_update_ad ctx = false -> entry_coherent pt ctx
     (mkCacheEntry (tr_iova_base t) (tr_translated_base t) (tr_size t)
        (tr_permissions t) true)) ->
  cache_coherent pt (iommu_cache_insert ctx t).
Proof.
  intros Hok Hco He Had. pose proof (insert_same_mapping ctx t) as Hsame.
  assert (ctx_update_ad ctx = false) as Had' by (by destruct Hsame as (_ & _ & <-)).
  eapply Forall_impl; [apply insert_used; [done|by apply Hco|by apply He]|].
  intros e. by apply entry_coherent_ext.
Qed.

Lemma flush_coherent pt ctx : cache_coherent pt (iommu_cache_flush ctx).
Proof. intros _. constructor. Qed.

Lemma flush_ok ctx : context_ok ctx -> context_ok (iommu_cache_flush ctx).
Proof. intros []. by split; cbn. Qed.

Lemma walk_error_neg pt root_bits levels table iova size write err :
  (forall a e, u64_ok a -> pt a = inl e -> e < 0) -> 1 <= root_bits -> 0 <= table ->
  walk_result pt root_bits levels table iova size write = inl err -> err < 0.
Proof.
  intros Hpt Hrb Ht. unfold walk_result. destruct (find_leaf _ _ _ _ _) as [e|[shift pte]] eqn:Hf.
  - intros [= <-]. revert table Ht Hf.
    induction levels as [|below IH]; intros table Ht Hf; cbn [find_leaf] in Hf; [by simplify_eq|].
    match type of Hf with context [table + 8 * ?i] => set (index := i) in Hf end.
    assert (0 <= index) by (apply Z.mod_pos_bound; destruct (Nat.eqb below 2); lia).
    destruct (Z.ltb_spec UINT64_MAX (table + 8 * index)); [by simplify_eq|].
    destruct (pt (table + 8 * index)) as [e'|pte] eqn:Hp.
    { simplify_eq. eapply Hpt; [|done]. unfold u64_ok. lia. }
    destruct (pte_invalid pte); [by simplify_eq|].
    destruct (pte_permissions pte =? 0); [|done]. eapply IH; [|done].
    pose proof (pte_ppn_range pte). lia.
  - unfold leaf_result. repeat case_match; intros; by simplify_eq.
Qed.

Section TranslateCorrect.
Context (access : Accessor) (w : World) (d : ptr) (pt : PageTable)
  `{HR : !PteReader access w d pt} (c : ptr) (ctx : VartIommuContext).
Hypothesis Hc : w_contexts w !! c = Some ctx.
Hypothesis Hd : ctx_downstream ctx = Some d.
Hypothesis Had : ctx_update_ad ctx = false.
Hypothesis Hmode : is_sv39 (ctx_mode ctx) = true.
Hypothesis Hroot : ctx_root_valid ctx = true.
Hypothesis Hok : context_ok ctx.

Lemma translate_mode_correct address size write :
  u64_ok address -> buffer_size size ->
  (if bool_decide (ctx_mode ctx = VART_IOMMU_CONTEXT_SV39)
   then iommu_translate_sv39 access c address size write
   else iommu_translate_sv39x4 access c address size write) w =
  Ok (if canonical address (mode_va_bits (ctx_mode ctx))
      then walk_result pt (mode_root_bits (ctx_mode ctx)) 3 (4096 * ctx_root_ppn ctx)
             (address mod 2 ^ mode_va_bits (ctx_mode ctx)) size write
      else inl (-EFAULT), w).
Proof using All.
  intros Ha Hs.
  assert (forall root_bits va_bits, 1 <= va_bits <= 41 -> 1 <= root_bits <= 11 ->
    iommu_translate_sv39_mode access c address size write root_bits va_bits w =
    Ok (if canonical address va_bits then
      walk_result pt root_bits 3 (4096 * ctx_root_ppn ctx) (address mod 2 ^ va_bits) size write
      else inl (-EFAULT), w)) as Hgen.
  { intros rb vb Hvb Hrb. unfold iommu_translate_sv39_mode.
    rewrite canonical_iova_correct by (done || lia).
    destruct (canonical address vb); [|done].
    rewrite (bind_eq _ _ _ _ _ (load_context_eq w c ctx Hc)).
    pose proof (co_root _ Hok) as Hrp.
    rewrite Z.shiftl_mul_pow2, u64_small by lia.
    change (Z.to_nat 3) with 3%nat.
    replace (ctx_root_ppn ctx * 2 ^ 12) with (4096 * ctx_root_ppn ctx) by lia.
    pose proof (Z.mod_pos_bound address (2 ^ vb) ltac:(lia)).
    apply (walk_correct access w d pt c ctx); try done; [lia|unfold u64_ok; lia]. }
  unfold mode_va_bits, mode_root_bits. case_bool_decide; by apply Hgen.
Qed.

Lemma pt_error_neg address err : u64_ok address -> pt address = inl err -> err < 0.
Proof using HR.
  intros Ha E. pose proof (read_pte_spec address Ha) as H. rewrite E in H. by destruct H.
Qed.

(** The cached translation returns what the reference does, and keeps the
    cache coherent. *)
Lemma translate_locked_correct address size write :
  cache_coherent pt ctx -> u64_ok address -> buffer_size size ->
  (write = true -> writable_leaves_dirty pt ctx) ->
  exists err translated ctx',
    translate_locked access c address size write w =
      Ok ((err, Some d, translated), w <| w_contexts ::= <[c := ctx']> |>) /\
    match ref_translate pt ctx address size write with
    | inl e => err = e /\ err < 0 /\ ctx' = ctx
    | inr x => err = 0 /\ translated = x
    end /\
    (ctx' = ctx \/ exists t, ctx' = iommu_cache_insert ctx t) /\
    context_ok ctx' /\ cache_coherent pt ctx'.
Proof using All.
  intros Hco Ha Hs Hw. unfold translate_locked.
  rewrite (bind_eq _ _ _ _ _ (load_context_eq w c ctx Hc)).
  rewrite bool_decide_false by (destruct (ctx_mode ctx); done).
  rewrite Hd, Hmode, Hroot. cbn [negb].
  pose proof (context_va_bits (ctx_mode ctx)) as [Hvb Hvp].
  rewrite canonical_iova_correct by (done || lia).
  pose proof (translate_mode_correct address size write Ha Hs) as Hwalk.
  unfold ref_translate. set (vb := mode_va_bits (ctx_mode ctx)) in *.
  assert (w = w <| w_contexts ::= <[c := ctx]> |>) as Hw0.
  { destruct w; unfold update; cbn. by rewrite insert_id. }
  destruct (canonical address vb) eqn:Hcan; cbn [negb].
  2: { exists (-EFAULT), 0, ctx. rewrite <- Hw0. split_and!; auto; done. }
  pose proof (Z.mod_pos_bound address (2 ^ vb) ltac:(lia)) as Hi.
  set (iova := address mod 2 ^ vb) in *.
  pose proof (lookup_correct pt ctx iova size write (cache_used ctx) (Hco Had)
    ltac:(lia) Hs Hw) as Hl.
  unfold iommu_cache_lookup. rewrite Had.
  destruct (cache_lookup_loop _ _ _ _ _) as [[|] x]; cbn beta iota.
  { destruct Hl as (t & -> & ->). exists 0, (tr_translated_base t + iova mod tr_size t), ctx.
    rewrite <- Hw0. split_and!; auto; done. }
  rewrite (bind_eq _ _ _ _ _ Hwalk).
  destruct (walk_result _ _ _ _ iova _ _) as [err|t] eqn:Hres.
  { exists err, x, ctx. rewrite <- Hw0. split_and!; auto; try done.
    pose proof (co_root _ Hok).
    eapply walk_error_neg; [apply pt_error_neg| | |done]; [|lia].
    unfold mode_root_bits. case_bool_decide; lia. }
  rewrite (bind_eq _ _ _ _ _ (load_context_eq w c ctx Hc)).
  destruct (new_entry_coherent pt ctx iova size write t Hi Hres)
    as ((shift & Hsz & Hsh) & Hbase & Htb & Hent).
  assert (2 ^ shift <= 2 ^ 30) by (apply Z.pow_le_mono_r; lia).
  pose proof (Z.mod_pos_bound iova (tr_size t) ltac:(rewrite Hsz; lia)).
  exists 0, (tr_translated_base t + iova mod tr_size t), (iommu_cache_insert ctx t).
  split_and!; [|done|done|by eauto|by apply insert_ok|by apply insert_coherent].
  unfold store_context, bind, modify, ret. rewrite Hbase.
  rewrite (u64_small (iova - _)), u64_small by lia.
  do 3 f_equal. lia.
Qed.
End TranslateCorrect.

(** * Invalidation *)

(** A cached translation shares no address with a range. *)
Definition entry_outside (address size : Z) (e : VartIommuCacheEntry) : Prop :=
  ce_iova_base e + ce_size e <= address \/ address + size <= ce_iova_base e.
#[export] Instance entry_outside_dec address size e : Decision (entry_outside address size e).
Proof. unfold entry_outside. apply _. Defined.

Section Invalidate.
Context (address size : Z).
Let keep (e : VartIommuCacheEntry) : Prop :=
  iommu_cache_ranges_overlap e address size = false.

(** Closing the gap of slot [i] removes exactly that entry. *)
Lemma cache_shift_take cache pre e rest count :
  (count <= length cache)%nat -> take count cache = pre ++ e :: rest ->
  length (cache_shift cache (length pre) count) = length cache /\
  take (count - 1) (cache_shift cache (length pre) count) = pre ++ rest.
Proof.
  intros Hc Ht. set (i := length pre) in *.
  assert (count = S (i + length rest)) as Hn.
  { apply (f_equal length) in Ht. rewrite length_take, length_app in Ht. cbn in Ht. lia. }
  assert (cache = pre ++ e :: rest ++ drop count cache) as Hcache.
  { rewrite <- (take_drop count cache) at 1. rewrite Ht, <- app_assoc. done. }
  unfold cache_shift.
  assert (take i cache = pre) as -> by (rewrite Hcache at 1; by rewrite take_app_length').
  assert (drop (S i) cache = rest ++ drop count cache) as ->.
  { rewrite Hcache at 1. change (pre ++ e :: ?x) with (pre ++ [e] ++ x).
    rewrite app_assoc, drop_app_length' by (rewrite length_app; cbn; lia). done. }
  assert (take (count - i - 1) (rest ++ drop count cache) = rest) as ->.
  { rewrite take_app_length'; [done|lia]. }
  split.
  - rewrite !length_app, length_drop. lia.
  - rewrite app_assoc, take_app_length'; [done|]. rewrite length_app. lia.
Qed.

Lemma cache_invalidate_loop_correct left : forall count cache pre todo,
  (count <= length cache)%nat -> take count cache = pre ++ todo ->
  length todo = left ->
  let '(cache', count') := cache_invalidate_loop left count cache address size in
  length cache' = length cache /\ (count' <= count)%nat /\
  take count' cache' = pre ++ filter keep todo /\
  count' = (length pre + length (filter keep todo))%nat.
Proof.
  induction left as [|left IH]; intros count cache pre todo Hc Ht Hl.
  { destruct todo; [|done]. cbn. rewrite app_nil_r in *. split_and!; try done.
    apply (f_equal length) in Ht. rewrite length_take in Ht. lia. }
  destruct todo as [|e rest]; [done|]. cbn in Hl.
  assert (count = S (length pre + length rest)) as Hn.
  { apply (f_equal length) in Ht. rewrite length_take, length_app in Ht. cbn in Ht. lia. }
  cbn [cache_invalidate_loop].
  replace (count - S left)%nat with (length pre) by lia.
  assert (cache !! length pre = Some e) as ->.
  { rewrite <- (lookup_take_lt _ count) by lia. rewrite Ht. by apply list_lookup_middle. }
  destruct (iommu_cache_ranges_overlap e address size) eqn:Ho.
  - destruct (cache_shift_take cache pre e rest count Hc Ht) as [Hlen Htake].
    specialize (IH (count - 1)%nat (cache_shift cache (length pre) count) pre rest
      ltac:(lia) Htake ltac:(lia)).
    destruct (cache_invalidate_loop left _ _ _ _) as [cache' count'].
    rewrite filter_cons_False by (unfold keep; congruence).
    rewrite Hlen in IH. destruct IH as (? & ? & ? & ?). split_and!; try done; lia.
  - specialize (IH count cache (pre ++ [e]) rest Hc
      ltac:(rewrite Ht, <- app_assoc; done) ltac:(lia)).
    destruct (cache_invalidate_loop left _ _ _ _) as [cache' count'].
    rewrite filter_cons_True by done. rewrite <- app_assoc, length_app in IH. cbn in IH |- *.
    destruct IH as (? & ? & ? & ?). split_and!; try done; lia.
Qed.

(** Invalidation keeps, in order, the used entries outside the range. *)
Lemma invalidate_used ctx :
  context_ok ctx ->
  cache_used (iommu_cache_invalidate ctx address size) = filter keep (cache_used ctx) /\
  context_ok (iommu_cache_invalidate ctx address size) /\
  same_mapping ctx (iommu_cache_invalidate ctx address size).
Proof.
  intros [Hr Hl Hc Hn]. unfold iommu_cache_invalidate.
  set (n := Z.to_nat (ctx_cache_count ctx)).
  pose proof (cache_invalidate_loop_correct n n (ctx_cache ctx) [] (cache_used ctx)) as H.
  destruct (cache_invalidate_loop n n (ctx_cache ctx) address size) as [cache' count'].
  unfold VART_IOMMU_CACHE_ENTRIES in *.
  destruct H as (Hlen & Hle & Ht & _); [lia|done|unfold cache_used; rewrite length_take; lia|].
  assert (context_ok (ctx <| ctx_cache := cache' |> <| ctx_cache_count := Z.of_nat count' |>)) as Hok
    by (split; cbn; unfold VART_IOMMU_CACHE_ENTRIES; lia || congruence).
  destruct (Z.eqb_spec (Z.of_nat count') 0) as [|Hne].
  - split_and!; [|destruct Hok; by split|by repeat split].
    unfold cache_used at 1. cbn. by rewrite Nat2Z.id.
  - split_and!; [|destruct Hok; split; cbn in *; try done|by repeat split].
    + unfold cache_used at 1. cbn. by rewrite Nat2Z.id.
    + pose proof (Z.mod_pos_bound (ctx_cache_next ctx) (Z.of_nat count') ltac:(lia)).
      pose proof (Z.mod_le (ctx_cache_next ctx) (Z.of_nat count') ltac:(lia) ltac:(lia)). lia.
Qed.

(** They are those that share no address with the range. *)
Lemma keep_outside pt ctx l :
  Forall (entry_coherent pt ctx) l -> 0 <= address -> 0 < size ->
  address + size <= 2 ^ 63 -> filter keep l = filter (entry_outside address size) l.
Proof.
  intros Hco Ha Hs Hlim. induction Hco as [|e l (Hb & He & shift & pte & Hsh & Hsz & _) _ IH];
    [done|]. rewrite !filter_cons, IH. apply decide_ext.
  pose proof (context_va_bits (ctx_mode ctx)) as [_ Hvb].
  unfold keep, iommu_cache_ranges_overlap, entry_outside.
  assert (0 < ce_size e) by (rewrite Hsz; lia). rewrite !u64_small by lia. lia.
Qed.

(** No address of a kept entry is in the range. *)
Lemma kept_disjoint pt ctx e iova :
  entry_coherent pt ctx e -> keep e -> 0 <= address -> 0 < size ->
  address + size <= 2 ^ 63 ->
  ce_iova_base e <= iova < ce_iova_base e + ce_size e ->
  iova < address \/ address + size <= iova.
Proof.
  intros (Hb & He & shift & pte & Hsh & Hsz & _) Hk Ha Hs Hlim Hi.
  pose proof (context_va_bits (ctx_mode ctx)) as [_ Hvb].
  unfold keep, iommu_cache_ranges_overlap in Hk.
  assert (0 < ce_size e) by (rewrite Hsz; lia).
  rewrite !u64_small in Hk by lia. lia.
Qed.
End Invalidate.

(** Reading a plain downstream space: the page tables are what its RAM holds. *)
Section RamTables.
Context `{TranslateCallbacks}.

Definition ram_pt (w : World) (d : ptr) : PageTable := fun address =>
  match address_space_buffer_access 1 d address (Some (repeat 0 8)) 8 false w with
  | Ok ((err, Some bytes), _) => if err <? 0 then inl err else inr (load_le bytes)
  | _ => inl (-EFAULT)
  end.

Lemma plain_access_fuel w d s address buffer size write fuel :
  w_spaces w !! d = Some s -> as_translate s = None ->
  address_space_buffer_access (S fuel) d address buffer size write w =
  address_space_buffer_access 1 d address buffer size write w.
Proof.
  intros Hs Ht. cbn [address_space_buffer_access].
  destruct (size =? 0); [done|]. destruct buffer as [data|]; [|done].
  assert (load_space d w = Ok (s, w)) as Hld
    by (unfold load_space; run_unfold; by rewrite Hs).
  by rewrite !(bind_eq _ _ _ _ _ Hld), Ht.
Qed.

(** A plain space of RAM discharges the interface of the walk. *)
Lemma ram_pte_reader w d fuel :
  heap_ok w -> ram_backed w -> bytes_mem (w_host w) -> plain_space w d ->
  PteReader (address_space_buffer_access (S fuel)) w d (ram_pt w d).
Proof.
  intros [Hw _] Hb Hm (s & Hs & Ht) address Ha. unfold ram_pt.
  rewrite (plain_access_fuel w d s _ _ _ _ fuel) by done.
  pose proof (plain_access w d s address (repeat 0 8) 8 false 0 Hw Hb Hs Ht Ha
    ltac:(lia) ltac:(done)) as ([err buf] & w' & E & Ho)%wp_ok.
  rewrite E. change (Z.to_nat 8) with 8%nat in Ho.
  destruct Ho as [(-> & host & _ & bytes & Hrd & -> & ->)|[(-> & _ & -> & ->)|(-> & -> & -> & _)]].
  - change (drop (Z.to_nat 8) (repeat 0 8)) with (@nil Z). rewrite app_nil_r. cbn [Z.ltb Z.compare].
    split; [|by exists bytes]. apply load_le64_range.
    + by eapply mem_read_bytes.
    + by eapply mem_read_length.
  - cbn. split; [done|by eexists].
  - cbn. split; [done|by eexists].
Qed.
End RamTables.

(** * Theorems *)

(** A context in one of the page-table modes, without hardware A/D updates. *)
Record translating (ctx : VartIommuContext) (d : ptr) : Prop := {
  tg_ok : context_ok ctx;
  tg_mode : is_sv39 (ctx_mode ctx) = true;
  tg_root : ctx_root_valid ctx = true;
  tg_update_ad : ctx_update_ad ctx = false;
  tg_downstream : ctx_downstream ctx = Some d;
}.

(** The report of a failed translation: to the handler, when there is one. *)
Definition report_fault `{FaultCallbacks} (ctx : VartIommuContext) (c : ptr)
    (address size : Z) (write : bool) (err : Z) : M World unit :=
  match ctx_fault_handler ctx with
  | Some f => call_fault_handler f c address size write err (ctx_fault_opaque ctx)
  | None => ret tt
  end.

Section TranslateTheorems.
Context `{FaultCallbacks} (access : Accessor) (w : World) (d : ptr) (pt : PageTable)
  `{HR : !PteReader access w d pt} (c : ptr) (ctx : VartIommuContext)
  (address size : Z) (write : bool).
Hypothesis Hc : w_contexts w !! c = Some ctx.
Hypothesis Htg : translating ctx d.
Hypothesis Hco : cache_coherent pt ctx.
Hypothesis Ha : u64_ok address.
Hypothesis Hs : buffer_size size.
Hypothesis Hw : write = true -> writable_leaves_dirty pt ctx.

Lemma context_translate_correct :
  match ref_translate pt ctx address size write with
  | inl err => exists x, err < 0 /\
      iommu_context_translate access (Some c) address size write w =
        bind (report_fault ctx c address size write err)
          (fun _ => ret (err, Some d, x)) w
  | inr x => exists ctx',
      iommu_context_translate access (Some c) address size write w =
        Ok ((0, Some d, x), w <| w_contexts ::= <[c := ctx']> |>) /\
      same_mapping ctx ctx' /\ context_ok ctx' /\ cache_coherent pt ctx'
  end.
Proof using All.
  destruct Htg as [Hok Hm Hr Had Hd].
  destruct (translate_locked_correct access w d pt c ctx Hc Hd Had Hm Hr Hok address
    size write Hco Ha Hs Hw) as (err & x & ctx' & E & Href & Hctx' & Hok' & Hco').
  unfold iommu_context_translate. unfold buffer_size in Hs.
  destruct (Z.eqb_spec size 0); [lia|]. rewrite (bind_eq _ _ _ _ _ E).
  set (w' := w <| w_contexts ::= <[c := ctx']> |>) in *.
  assert (load_context c w' = Ok (ctx', w')) as Hld.
  { apply load_context_eq. cbn. apply lookup_insert_eq. }
  rewrite (bind_eq _ _ _ _ _ Hld).
  assert (same_mapping ctx ctx' /\ ctx_fault_handler ctx' = ctx_fault_handler ctx)
    as [Hsame Hf].
  { destruct Hctx' as [->|[t ->]]; [by repeat split|]. split; [apply insert_same_mapping|].
    unfold iommu_cache_insert. by destruct (_ <? _). }
  destruct (ref_translate pt ctx address size write) as [e|y].
  - destruct Href as (-> & Hneg & ->). exists x. split; [done|].
    assert (w' = w) as -> by (destruct w; unfold w', update; cbn; by rewrite insert_id).
    unfold report_fault. destruct (ctx_fault_handler ctx); [|done].
    by destruct (Z.ltb_spec e 0); [|lia].
  - destruct Href as [-> ->]. exists ctx'. split_and!; try done; try apply Hsame.
    by destruct (ctx_fault_handler ctx').
Qed.
End TranslateTheorems.

(** The leaf behind a successful reference translation. *)
Lemma ref_translate_leaf pt ctx address size write x :
  buffer_size size ->
  ref_translate pt ctx address size write = inr x ->
  exists shift pte,
    context_leaf pt ctx (address mod 2 ^ mode_va_bits (ctx_mode ctx)) = inr (shift, pte) /\
    leaf_allows pte write = true /\ leaf_used pte write = true /\ 12 <= shift <= 38 /\
    x = 4096 * pte_ppn pte + (address mod 2 ^ mode_va_bits (ctx_mode ctx)) mod 2 ^ shift /\
    x + size <= 4096 * pte_ppn pte + 2 ^ shift.
Proof.
  unfold ref_translate, buffer_size. intros Hs. destruct (canonical _ _); [|done]. cbn [negb].
  set (iova := address mod _). unfold walk_result.
  fold (context_leaf pt ctx iova). destruct (context_leaf pt ctx iova) as [|[shift pte]] eqn:Hf; [done|].
  unfold leaf_result. destruct (leaf_allows pte write) eqn:Hal; [|done].
  destruct (leaf_used pte write) eqn:Hu; [|done]. cbn [negb].
  destruct (negb _); [done|]. destruct (Z.ltb_spec (2 ^ shift) (iova mod 2 ^ shift + size)); [done|].
  intros [= <-]. exists shift, pte. cbn [leaf_page tr_translated_base tr_size].
  pose proof (find_leaf_page _ _ _ _ _ iova _ _ Hf) as [? _].
  split_and!; done || lia.
Qed.

(** C3. The cache is invisible: with a cache that is coherent with the page
    tables, [iommu_context_translate] returns what a walk of the tables without
    any cache gives (the error reported to the fault handler, or the downstream
    space and the translated address), and leaves the cache coherent.  For
    writes the writable leaves must already be dirty (see [dirty_bit_bypass]). *)
Theorem cached_translation_correct `{FaultCallbacks} access w d pt
    `{HR : !PteReader access w d pt} c ctx address size write :
  w_contexts w !! c = Some ctx -> translating ctx d -> cache_coherent pt ctx ->
  u64_ok address -> buffer_size size ->
  (write = true -> writable_leaves_dirty pt ctx) ->
  match ref_translate pt ctx address size write with
  | inl err => exists x, err < 0 /\
      iommu_context_translate access (Some c) address size write w =
        bind (report_fault ctx c address size write err)
          (fun _ => ret (err, Some d, x)) w
  | inr x => exists ctx',
      iommu_context_translate access (Some c) address size write w =
        Ok ((0, Some d, x), w <| w_contexts ::= <[c := ctx']> |>) /\
      same_mapping ctx ctx' /\ context_ok ctx' /\ cache_coherent pt ctx'
  end.
Proof. intros. by apply context_translate_correct. Qed.

(** Isolation: an access that the IOMMU lets through goes to the downstream
    space, inside the page frame of a leaf PTE of the context's own tables that
    is user-accessible and allows the direction of the access; the whole range
    lies in that frame. *)
Theorem translation_isolated `{FaultCallbacks} access w d pt
    `{HR : !PteReader access w d pt} c ctx address size write target x w' :
  w_contexts w !! c = Some ctx -> translating ctx d -> cache_coherent pt ctx ->
  u64_ok address -> buffer_size size ->
  (write = true -> writable_leaves_dirty pt ctx) ->
  ctx_fault_handler ctx = None ->
  iommu_context_translate access (Some c) address size write w =
    Ok ((0, target, x), w') ->
  target = Some d /\ exists shift pte,
    context_leaf pt ctx (address mod 2 ^ mode_va_bits (ctx_mode ctx)) = inr (shift, pte) /\
    leaf_allows pte write = true /\
    4096 * pte_ppn pte <= x /\ x + size <= 4096 * pte_ppn pte + 2 ^ shift.
Proof.
  intros Hc Htg Hco Ha Hs Hw Hf E.
  pose proof (context_translate_correct access w d pt c ctx address size write Hc Htg Hco
    Ha Hs Hw) as Hcorrect.
  destruct (ref_translate pt ctx address size write) as [err|y] eqn:Href.
  - destruct Hcorrect as (y & Hneg & E'). unfold report_fault in E'. rewrite Hf, E in E'.
    unfold bind, ret in E'. simplify_eq. lia.
  - destruct Hcorrect as (ctx' & E' & _). rewrite E in E'. simplify_eq.
    split; [done|]. destruct (ref_translate_leaf _ _ _ _ _ _ Hs Href)
      as (shift & pte & Hl & Hal & _ & Hsh & -> & Hend).
    exists shift, pte. split_and!; try done.
    pose proof (Z.mod_pos_bound (address mod 2 ^ mode_va_bits (ctx_mode ctx)) (2 ^ shift)
      ltac:(lia)). lia.
Qed.

(** Changing the tables only inside a range leaves every entry outside it
    coherent. *)
Lemma entry_coherent_remap pt pt' ctx ctx' e :
  same_mapping ctx ctx' -> entry_coherent pt ctx e ->
  (forall iova, ce_iova_base e <= iova < ce_iova_base e + ce_size e ->
     context_leaf pt' ctx iova = context_leaf pt ctx iova) ->
  entry_coherent pt' ctx' e.
Proof.
  intros Hsame (Hb & He & shift & pte & Hsh & Hsz & H1 & H2 & H3 & H4 & H5 & H6 & Hleaf) Hpt.
  apply (entry_coherent_ext pt' ctx); [done|].
  split; [done|]. split; [done|]. exists shift, pte. split_and!; try done; try lia.
  intros iova Hi. rewrite Hpt by done. by apply Hleaf.
Qed.

(** C4. Shoot-down, for an Sv39 or Sv39x4 context: once the tables have changed for addresses
    inside a range and that range is invalidated, the cache is coherent with the new tables.
    The used entries of the cache are then exactly the earlier ones that share no address with
    the range, in their order; a range as long as the whole address space empties the cache.
    (With hardware A and D updates the cache is not used and nothing is said of it.) *)
Theorem invalidate_restores_coherence c ctx w w' pt pt' address size :
  w_contexts w !! c = Some ctx -> context_ok ctx -> cache_coherent pt ctx ->
  is_sv39 (ctx_mode ctx) = true -> u64_ok address -> u64_ok size ->
  vart_iommu_context_invalidate (Some c) address size w = Ok (0, w') ->
  (forall iova, 0 <= iova < 2 ^ mode_va_bits (ctx_mode ctx) ->
     iova < address mod 2 ^ mode_va_bits (ctx_mode ctx) \/
     address mod 2 ^ mode_va_bits (ctx_mode ctx) + size <= iova ->
     context_leaf pt' ctx iova = context_leaf pt ctx iova) ->
  exists ctx', w' = w <| w_contexts ::= <[c := ctx']> |> /\
    context_ok ctx' /\ same_mapping ctx ctx' /\ cache_coherent pt' ctx' /\
    (ctx_update_ad ctx = false ->
     cache_used ctx' =
       if 2 ^ mode_va_bits (ctx_mode ctx) <=? size then []
       else filter (entry_outside (address mod 2 ^ mode_va_bits (ctx_mode ctx)) size)
              (cache_used ctx)).
Proof.
  intros Hc Hok Hco Hm Ha Hsz E Hpt. unfold vart_iommu_context_invalidate in E.
  unfold u64_ok in *. destruct (Z.eqb_spec size 0); [by inv_ok|]. cbn [orb] in E.
  destruct (_ <? address); [by inv_ok|].
  rewrite (bind_eq _ _ _ _ _ (load_context_eq w c ctx Hc)), Hm in E.
  pose proof (context_va_bits (ctx_mode ctx)) as [Hvb Hvp].
  set (vb := mode_va_bits (ctx_mode ctx)) in *.
  rewrite canonical_iova_correct in E by (unfold u64_ok; lia).
  destruct (canonical address vb); [|by inv_ok].
  rewrite Z.shiftl_1_l in E.
  assert (forall x, context_ok x -> context_ok (x <| ctx_invalidation_generation ::=
    (fun g => u64 (g + 1)) |>)) as Hgen by (intros x []; by split).
  destruct (Z.leb_spec (2 ^ vb) size).
  - unfold bind, store_context, modify, ret in E. simplify_eq.
    eexists. split; [done|]. split_and!; [by apply Hgen, flush_ok|done..|by intros _|done].
  - pose proof (Z.mod_pos_bound address (2 ^ vb) ltac:(lia)) as Hi.
    set (iova := address mod 2 ^ vb) in *.
    destruct (Z.ltb_spec (2 ^ vb - size) iova); [by inv_ok|].
    unfold bind, store_context, modify, ret in E. simplify_eq.
    destruct (invalidate_used iova size ctx Hok) as (Hused & Hok' & Hsame).
    eexists. split; [done|]. split_and!; [by apply Hgen|by apply Hsame..| |].
    2: { intros Had. rewrite <- (keep_outside iova size pt ctx) by (lia || by apply Hco).
         exact Hused. }
    intros Had. unfold cache_used. cbn. fold (cache_used (iommu_cache_invalidate ctx iova size)).
    rewrite Hused. apply Forall_forall. intros e [Hkeep He]%list_elem_of_filter.
    assert (entry_coherent pt ctx e) as Hent.
    { eapply Forall_forall; [|exact He]. apply Hco. destruct Hsame as (_ & _ & <-). exact Had. }
    apply (entry_coherent_remap pt pt' ctx); [by apply Hsame|done|].
    intros i Hie. apply Hpt.
    + destruct Hent as (? & Hend & _). fold vb in Hend. lia.
    + apply (kept_disjoint iova size pt ctx e i); try done; lia.
Qed.

(** A heap in which context [c] translates for its own address space in front
    of the plain space [d], with a cache coherent with the tables in RAM. *)
Record dma_setup `{FaultCallbacks} (w : World) (c d : ptr) (ctx : VartIommuContext)
    : Prop := {
  ds_heap : heap_ok w;
  ds_ram : ram_backed w;
  ds_bytes : bytes_mem (w_host w);
  ds_plain : plain_space w d;
  ds_context : w_contexts w !! c = Some ctx;
  ds_translating : translating ctx d;
  ds_space : exists s, w_spaces w !! ctx_address_space ctx = Some s /\
    as_translate s = Some fn_iommu_context_translate /\ as_translate_opaque s = Some c;
  ds_coherent : cache_coherent (ram_pt w d) ctx;
}.

Lemma call_translate_iommu `{FaultCallbacks} access opaque address size write :
  call_translate access fn_iommu_context_translate opaque address size write =
  iommu_context_translate access opaque address size write.
Proof. done. Qed.

Lemma contexts_frame w f :
  heap_ok w -> ram_backed w ->
  heap_ok (w <| w_contexts ::= f |>) /\ ram_backed (w <| w_contexts ::= f |>).
Proof.
  intros [Hs Hr] Hb. split; [split; [|exact Hr]|exact Hb]. by apply (spaces_ok_ext w).
Qed.

(** C5. A device access through an IOMMU context, end to end, under the conditions of
    [dma_setup]: the context is in Sv39 or Sv39x4 mode with a root and without hardware A and
    D updates, it translates in front of plain RAM that holds its page tables, and its cache
    is coherent with these tables.  A write requires besides that every writable leaf is
    marked dirty: without that the code lets writes through that a walk refuses
    ([dirty_bit_bypass]).  Then either the tables refuse the access, nothing is touched and
    the fault is reported; or it is exactly an access of the downstream RAM at the address a
    walk without a cache gives, with the outcome [vart_address_space_read_buffer] or
    [_write_buffer] has there, and of the context only the cache changes, which stays coherent
    with the tables as they were. *)
Theorem iommu_dma_correct `{FaultCallbacks} w c d ctx address data size write fuel :
  dma_setup w c d ctx -> u64_ok address -> buffer_size size ->
  size <= Z.of_nat (length data) ->
  (write = true -> writable_leaves_dirty (ram_pt w d) ctx) ->
  match ref_translate (ram_pt w d) ctx address size write with
  | inl err =>
      address_space_buffer_access (S (S fuel)) (ctx_address_space ctx) address
        (Some data) size write w =
      bind (report_fault ctx c address size write err)
        (fun _ => ret (err, Some data)) w
  | inr x => exists ctx' err buf w',
      address_space_buffer_access (S (S fuel)) (ctx_address_space ctx) address
        (Some data) size write w = Ok ((err, buf), w') /\
      plain_outcome (w <| w_contexts ::= <[c := ctx']> |>) d x data size write
        err buf w' /\
      same_mapping ctx ctx' /\ context_ok ctx' /\ cache_coherent (ram_pt w d) ctx'
  end.
Proof.
  intros [Hh Hb Hby Hp Hc Htg (s & Hs & Htr & Hop) Hco] Ha Hsz Hl Hw.
  pose proof (ram_pte_reader w d fuel Hh Hb Hby Hp) as HR.
  pose proof (context_translate_correct _ w d _ c ctx address size write Hc Htg Hco
    Ha Hsz Hw) as E.
  destruct Hp as (sd & Hsd & Htd).
  remember (S fuel) as f eqn:Hf. cbn [address_space_buffer_access].
  destruct (Z.eqb_spec size 0); [unfold buffer_size in Hsz; lia|].
  assert (load_space (ctx_address_space ctx) w = Ok (s, w)) as Hld
    by (unfold load_space; run_unfold; by rewrite Hs).
  rewrite (bind_eq _ _ _ _ _ Hld), Htr, Hop.
  rewrite call_translate_iommu.
  destruct (ref_translate (ram_pt w d) ctx address size write) as [err|x] eqn:Href.
  - destruct E as (y & Hneg & E). unfold bind in E |- *. rewrite E.
    destruct (report_fault ctx c address size write err w) as [[[] w']| |]; [|done|done].
    cbn. by destruct (Z.ltb_spec err 0); [|lia].
  - destruct E as (ctx' & E & Hkeep). rewrite (bind_eq _ _ _ _ _ E). cbn [Z.ltb Z.compare].
    rewrite bool_decide_false by congruence.
    destruct (ref_translate_leaf _ _ _ _ _ _ Hsz Href)
      as (shift & pte & _ & _ & _ & Hsh & -> & Hend).
    pose proof (pte_ppn_range pte). unfold buffer_size in Hsz.
    assert (2 ^ shift <= 2 ^ 38) by (apply Z.pow_le_mono_r; lia).
    pose proof (Z.mod_pos_bound (address mod 2 ^ mode_va_bits (ctx_mode ctx)) (2 ^ shift)
      ltac:(lia)).
    destruct (contexts_frame w (<[c := ctx']>) Hh Hb) as [[Hh' _] Hb'].
    epose proof (plain_access _ d sd _ data size write fuel Hh' Hb' Hsd Htd _ _ Hl)
      as ([err buf] & w' & E' & Ho)%wp_ok.
    exists ctx', err, buf, w'. subst f. split_and!; [exact E'|exact Ho|apply Hkeep..].
    Unshelve. all: unfold u64_ok; lia.
Qed.

(** What a successful attach and a successful detach do. *)
Lemma attach_Ok c d w w' :
  vart_iommu_context_attach (Some c) (Some d) w = Ok (0, w') ->
  exists ctx dev, w_contexts w !! c = Some ctx /\ w_devices w !! d = Some dev /\
    ctx_attached_device ctx = None /\ dev_realized (pci_parent dev) = false /\
    w_contexts w' = <[c := ctx <| ctx_saved_dma_as := dev_dma_as (pci_parent dev) |>
      <| ctx_saved_dma_as_from_bus := dev_dma_as_from_bus (pci_parent dev) |>
      <| ctx_attached_device := Some d |>
      <| ctx_requester_id := pci_requester_id dev |>]> (w_contexts w) /\
    w_devices w' = <[d := dev <| pci_parent := (pci_parent dev)
      <| dev_dma_as := Some (ctx_address_space ctx) |>
      <| dev_dma_as_from_bus := false |> |>]> (w_devices w).
Proof.
  intros Hat. unfold vart_iommu_context_attach, load_context, load_device in Hat.
  inv_ok. unfold vart_pci_device_set_dma_as, load_device in *. inv_ok.
  unfold store_device, store_context, vart_pci_device_requester_id, load_device,
    load_context in *.
  inv_ok. cbn in *.
  repeat match goal with H : <[_ := _]> _ !! _ = _ |- _ => rewrite lookup_insert_eq in H end.
  simplify_eq. eexists _, _. split_and!; try done. cbn. by rewrite insert_insert_eq.
Qed.

Lemma detach_Ok c d w w' :
  vart_iommu_context_detach (Some c) (Some d) w = Ok (0, w') ->
  exists ctx dev, w_contexts w !! c = Some ctx /\ w_devices w !! d = Some dev /\
    w_contexts w' = <[c := ctx <| ctx_attached_device := None |>
      <| ctx_saved_dma_as := None |> <| ctx_saved_dma_as_from_bus := false |>]>
      (w_contexts w) /\
    w_devices w' = <[d := dev <| pci_parent := (pci_parent dev)
      <| dev_dma_as := ctx_saved_dma_as ctx |>
      <| dev_dma_as_from_bus := ctx_saved_dma_as_from_bus ctx |> |>]> (w_devices w).
Proof.
  intros Hde. unfold vart_iommu_context_detach, load_context, load_device in Hde.
  inv_ok. unfold store_device, store_context in *. inv_ok.
  eexists _, _. split_and!; done.
Qed.

(** Attaching a device and detaching it again gives back its DMA address
    space: the device record is unchanged and the context is free.  In between
    the device's DMA goes to the context's space and the context answers for
    its requester id. *)
Theorem attach_detach_roundtrip c d w w1 w2 dev :
  w_devices w !! d = Some dev ->
  vart_iommu_context_attach (Some c) (Some d) w = Ok (0, w1) ->
  vart_iommu_context_detach (Some c) (Some d) w1 = Ok (0, w2) ->
  w_devices w2 = w_devices w /\
  (exists ctx1 dev1, w_contexts w1 !! c = Some ctx1 /\ w_devices w1 !! d = Some dev1 /\
     dev_dma_as (pci_parent dev1) = Some (ctx_address_space ctx1) /\
     vart_iommu_context_matches_requester (Some c) (pci_requester_id dev) w1 =
       Ok (true, w1)) /\
  exists ctx2, w_contexts w2 !! c = Some ctx2 /\ ctx_attached_device ctx2 = None.
Proof.
  intros Hdev (ctx & dev0 & Hc & Hd & _ & _ & Hc1 & Hd1)%attach_Ok
    (ctx1 & dev1 & Hc1' & Hd1' & Hc2 & Hd2)%detach_Ok. simplify_eq.
  rewrite Hc1, lookup_insert_eq in Hc1'. rewrite Hd1, lookup_insert_eq in Hd1'. simplify_eq.
  split_and!.
  - rewrite Hd2, Hd1, insert_insert_eq. apply insert_id. rewrite Hdev.
    by destruct dev as [[]].
  - eexists _, _. rewrite Hc1, Hd1, !lookup_insert_eq. split_and!; try done.
    unfold vart_iommu_context_matches_requester, vart_pci_device_requester_id,
      load_context, load_device. run_unfold.
    rewrite Hc1, lookup_insert_eq. cbn. rewrite Z.eqb_refl. cbn.
    rewrite Hd1, lookup_insert_eq. cbn. by rewrite Z.eqb_refl.
  - eexists. by rewrite Hc2, lookup_insert_eq.
Qed.

(** * A concrete IOMMU

    64 bytes of RAM at address 0 hold a root table: entry 1 maps the gigabyte
    at 0x40000000 to frame 0 (V, R, W, U and A set, not D) and entry 2 maps the
    gigabyte at 0x80000000 to frame 0 with D set as well. *)
Module IommuDemo.
Import AddressSpace.Demo.

#[export] Instance no_faults : FaultCallbacks := fun _ _ _ _ _ _ _ => ret tt.

Definition sys : ptr := 1%positive.
Definition ctx_space : ptr := 2%positive.
Definition ram : ptr := 1%positive.
Definition context : ptr := 1%positive.
Definition device : ptr := 1%positive.
Definition memory : gmap Z Z :=
  <[0x1008 := 0x57]> (<[0x1010 := 0xd7]> (mem_map ∅ 0x1000 64)).
Definition nic : VartPciDevice :=
  mkPciDevice (mkDevice None (Some sys) true None None false) None 0 0x18
    [] [] None 0 0 (zero_msix 1%positive 1%positive) None 0 false false true.

Definition a1 := exec (vart_address_space_init sys) empty_world.
Definition a2 := exec (vart_address_region_init_ram (Some ram) 0 64 (-1) None
  (Some 0x1000)) a1.
Definition a3 := exec (vart_address_space_add (Some sys) (Some ram)) a2.
Definition a4 := exec (vart_address_space_init ctx_space) a3.
Definition a5 := exec (vart_address_space_set_translator (Some ctx_space)
  (Some fn_iommu_context_translate) (Some context)) a4.

(** The same heap with the context and a device, made by the IOMMU's own
    interface. *)
Definition b0 := a3 <| w_contexts := {[context := zero_context ctx_space]} |>
  <| w_devices := {[device := nic]} |> <| w_host := memory |>.
Definition b1 := exec (vart_iommu_context_init (Some context) (Some sys) 0) b0.
Definition b2 := exec (vart_iommu_context_set_sv39 (Some context) 0 false) b1.
Definition ctx2 : VartIommuContext :=
  mkContext ctx_space (Some sys) None None false 0 VART_IOMMU_CONTEXT_SV39 0 0
    true false None None zero_cache 0 0 true.

Lemma iommu_demo_steps : rtc as_step empty_world a5.
Proof.
  apply (rtc_l _ _ a1).
  { apply (as_space_init _ _ sys); [by intros|]. vm_compute. reflexivity. }
  apply (rtc_l _ _ a2).
  { apply (as_region_init_ram _ _ ram 0 64 (-1) None (Some 0x1000) 0);
      [by intros ?|by vm_compute..]. }
  apply (rtc_l _ _ a3).
  { apply (as_space_add _ _ (Some sys) (Some ram) 0). vm_compute. reflexivity. }
  apply (rtc_l _ _ a4).
  { apply (as_space_init _ _ ctx_space); [by intros|]. vm_compute. reflexivity. }
  apply rtc_once. apply (as_space_set_translator _ _ (Some ctx_space)
    (Some fn_iommu_context_translate) (Some context) 0). vm_compute. reflexivity.
Qed.

Lemma heap : heap_ok b2.
Proof.
  assert (w_spaces b2 = w_spaces a5 /\ w_regions b2 = w_regions a5) as [Es Er]
    by (split; vm_compute; reflexivity).
  destruct (steps_heap_ok a5 iommu_demo_steps) as [Hs Hr]. split; [|by rewrite Er].
  by apply (spaces_ok_ext a5).
Qed.

Lemma backed : ram_backed b2.
Proof.
  intros r v h Hv Hty Hh x Hx. apply elem_of_map_to_list in Hv. vm_compute in Hv.
  apply elem_of_cons in Hv as [Hv|Hv]; [simplify_eq|by apply elem_of_nil in Hv].
  cbn in Hx, Hh. simplify_eq. change (w_host b2) with memory. unfold memory.
  do 2 (apply lookup_insert_is_Some'; right). rewrite mem_map_lookup.
  by rewrite decide_True by lia.
Qed.

Lemma memory_bytes : bytes_mem (w_host b2).
Proof.
  change (w_host b2) with memory. unfold memory, bytes_mem.
  do 2 (apply map_Forall_insert_2; [done|]). intros x b.
  rewrite mem_map_lookup. case_decide; [|by rewrite lookup_empty].
  intros [= <-]. done.
Qed.

Lemma setup : dma_setup b2 context sys ctx2.
Proof.
  split; [apply heap|apply backed|apply memory_bytes| | | | |].
  - eexists. split; vm_compute; reflexivity.
  - vm_compute. reflexivity.
  - split; [split|..]; cbn; done.
  - eexists. split_and!; vm_compute; reflexivity.
  - intros _. constructor.
Qed.

Definition access : Accessor := address_space_buffer_access 1.
#[local] Instance reader : PteReader access b2 sys (ram_pt b2 sys).
Proof. apply ram_pte_reader; apply setup. Qed.

(** Reading eight bytes at 0x40000008 is translated to address 8. *)
Lemma cached_translation_correct_witness :
  exists ctx', iommu_context_translate access (Some context) 0x40000008 8 false b2 =
      Ok ((0, Some sys, 8), b2 <| w_contexts ::= <[context := ctx']> |>) /\
    same_mapping ctx2 ctx' /\ context_ok ctx' /\ cache_coherent (ram_pt b2 sys) ctx'.
Proof.
  pose proof (cached_translation_correct access b2 sys (ram_pt b2 sys) context ctx2
    0x40000008 8 false (ds_context _ _ _ _ setup) (ds_translating _ _ _ _ setup)
    (ds_coherent _ _ _ _ setup) ltac:(unfold u64_ok; lia)
    ltac:(unfold buffer_size; lia) ltac:(done)) as H.
  replace (ref_translate (ram_pt b2 sys) ctx2 0x40000008 8 false)
    with (inr 8 : Z + Z) in H by (vm_compute; reflexivity).
  exact H.
Defined.

Definition b3 :=
  exec (iommu_context_translate access (Some context) 0x40000008 8 false) b2.

Lemma translation_isolated_witness :
  Some sys = Some sys /\ exists shift pte,
    context_leaf (ram_pt b2 sys) ctx2
      (0x40000008 mod 2 ^ mode_va_bits (ctx_mode ctx2)) = inr (shift, pte) /\
    leaf_allows pte false = true /\
    4096 * pte_ppn pte <= 8 /\ 8 + 8 <= 4096 * pte_ppn pte + 2 ^ shift.
Proof.
  apply (translation_isolated access b2 sys (ram_pt b2 sys) context ctx2 0x40000008 8
    false (Some sys) 8 b3).
  - apply setup.
  - apply setup.
  - apply setup.
  - unfold u64_ok. lia.
  - unfold buffer_size. lia.
  - intros E. discriminate E.
  - reflexivity.
  - vm_compute. reflexivity.
Defined.

(** A read at 0x40000008 through the context reaches the RAM at address 8. *)
Lemma iommu_dma_correct_witness :
  exists ctx' err buf w',
    address_space_buffer_access 2 ctx_space 0x40000008 (Some (repeat 0 8)) 8 false b2 =
      Ok ((err, buf), w') /\
    plain_outcome (b2 <| w_contexts ::= <[context := ctx']> |>) sys 8 (repeat 0 8) 8
      false err buf w' /\
    same_mapping ctx2 ctx' /\ context_ok ctx' /\ cache_coherent (ram_pt b2 sys) ctx'.
Proof.
  pose proof (iommu_dma_correct b2 context sys ctx2 0x40000008 (repeat 0 8) 8 false 0
    setup ltac:(unfold u64_ok; lia) ltac:(unfold buffer_size; lia) ltac:(simpl; lia)
    ltac:(done)) as H.
  replace (ref_translate (ram_pt b2 sys) ctx2 0x40000008 8 false)
    with (inr 8 : Z + Z) in H by (vm_compute; reflexivity).
  exact H.
Defined.

Definition b4 := exec (vart_iommu_context_attach (Some context) (Some device)) b2.
Definition b5 := exec (vart_iommu_context_detach (Some context) (Some device)) b4.

Lemma attach_detach_roundtrip_witness :
  w_devices b5 = w_devices b2 /\
  (exists ctx1 dev1, w_contexts b4 !! context = Some ctx1 /\
     w_devices b4 !! device = Some dev1 /\
     dev_dma_as (pci_parent dev1) = Some (ctx_address_space ctx1) /\
     vart_iommu_context_matches_requester (Some context) (pci_requester_id nic) b4 =
       Ok (true, b4)) /\
  exists ctx2, w_contexts b5 !! context = Some ctx2 /\ ctx_attached_device ctx2 = None.
Proof.
  apply (attach_detach_roundtrip context device b2 b4 b5 nic);
    vm_compute; reflexivity.
Defined.

(** Tables that map only the gigabyte at 0x40000000, and empty tables. *)
Definition pt1 : PageTable := fun a => if a =? 8 then inr 0x57 else inl (-ENOENT).
Definition pt0 : PageTable := fun a => if a =? 8 then inr 0 else inl (-ENOENT).
Definition entry1 : VartIommuTranslation := mkTranslation 0x40000000 0 (2 ^ 30) 6.
Definition ctx3 : VartIommuContext := iommu_cache_insert ctx2 entry1.
Definition c0 := empty_world <| w_contexts := {[context := ctx3]} |>.
Definition c1 :=
  exec (vart_iommu_context_invalidate (Some context) 0x40000000 0x40000000) c0.

Lemma ctx3_coherent : cache_coherent pt1 ctx3.
Proof.
  apply insert_coherent; [apply setup|intros _; constructor|]. intros _.
  by eapply (new_entry_coherent pt1 ctx2 0x40000008 8 false entry1).
Qed.

Lemma invalidate_restores_coherence_witness :
  exists ctx', c1 = c0 <| w_contexts ::= <[context := ctx']> |> /\
    context_ok ctx' /\ same_mapping ctx3 ctx' /\ cache_coherent pt0 ctx' /\
    (ctx_update_ad ctx3 = false -> cache_used ctx' =
       if 2 ^ mode_va_bits (ctx_mode ctx3) <=? 0x40000000 then []
       else filter (entry_outside (0x40000000 mod 2 ^ mode_va_bits (ctx_mode ctx3)) 0x40000000)
              (cache_used ctx3)).
Proof.
  apply (invalidate_restores_coherence context ctx3 c0 c1 pt1 pt0 0x40000000 0x40000000).
  - vm_compute. reflexivity.
  - apply insert_ok, setup.
  - apply ctx3_coherent.
  - reflexivity.
  - unfold u64_ok. lia.
  - unfold u64_ok. lia.
  - vm_compute. reflexivity.
  - intros iova Hi Ho. change (mode_va_bits (ctx_mode ctx3)) with 39 in *.
    change (0x40000000 mod 2 ^ 39) with 0x40000000 in Ho.
    unfold context_leaf. change (mode_root_bits (ctx_mode ctx3)) with 9.
    change (ctx_root_ppn ctx3) with 0. cbn [find_leaf Nat.eqb].
    change (4096 * 0 + ?x) with x. change (12 + 9 * Z.of_nat 2) with 30.
    unfold pt0, pt1. destruct (Z.eqb_spec (8 * ((iova / 2 ^ 30) mod 2 ^ 9)) 8) as [E|]; [|done].
    rewrite Z.mod_small in E; Z.to_euclidean_division_equations; lia.
Defined.

(** The dirty bit is not enforced through the cache: a write to a page whose
    leaf is not dirty faults, but after a read of the same page has filled
    the cache the same write is let through. *)
Theorem dirty_bit_bypass :
  exists w w',
    iommu_context_translate access (Some context) 0x40000008 8 true b2 =
      Ok ((-EFAULT, Some sys, 0), w) /\
    iommu_context_translate access (Some context) 0x40000008 8 true b3 =
      Ok ((0, Some sys, 8), w').
Proof. eexists _, _. split; vm_compute; reflexivity. Qed.

(** The range check wraps: an access of 2^64 - 8 bytes at offset 8 of a page is
    translated although it cannot fit in the page. *)
Theorem page_range_check_wraps :
  exists w', iommu_context_translate access (Some context) 0x40000008
    (2 ^ 64 - 8) false b2 = Ok ((0, Some sys, 8), w').
Proof. eexists. vm_compute. reflexivity. Qed.
End IommuDemo.
