(* ===== verification/Devices.v ===== *)
(** Interrupt lines, devices and buses: [src/core/irq.c], [src/core/device.c]
    and [src/core/bus.c].

    An interrupt line forwards level changes to a sink; a device has a realize /
    unrealize / reset life cycle with optional callbacks; a bus is a growable
    array of devices that point back to it. *)

From stdpp Require Import base tactics numbers list gmap.
From Stdlib Require Import ZArith Lia.
From S2P Require Import Prelude Machine.

(** * Callbacks *)

(** [VartIrqSet]: the opaque pointer, the line and the level. *)
Class IrqCallbacks :=
  call_irq_set : fnptr -> option ptr -> Z -> bool -> M World Z.

(** [VartDeviceOps]: each function receives the device. *)
Class DeviceCallbacks := {
  call_realize : fnptr -> ptr -> M World Z;
  call_unrealize : fnptr -> ptr -> M World unit;
  call_reset : fnptr -> ptr -> M World unit;
}.

(** * Interrupt lines *)

Definition vart_irq_init (irq : option ptr) (set : option fnptr)
    (opaque : option ptr) (line : Z) : M World Z :=
  match irq, set with
  | Some i, Some _ => store_irq i (mkIrq set opaque line false) ;;; ret 0
  | _, _ => ret (-EINVAL)
  end.

Section Irq.
Context `{IrqCallbacks}.

Definition vart_irq_set (irq : option ptr) (level : bool) : M World Z :=
  match irq with
  | None => ret (-EINVAL)
  | Some i =>
      let* v := load_irq i in
      match irq_set v with
      | None => ret (-EINVAL)
      | Some f =>
          if Bool.eqb (irq_level v) level then ret 0
          else
            let* err := call_irq_set f (irq_opaque v) (irq_line v) level in
            if err <? 0 then ret err
            else
              let* v := load_irq i in
              store_irq i (v <| irq_level := level |>) ;;; ret 0
      end
  end.

Definition vart_irq_raise (irq : option ptr) : M World Z := vart_irq_set irq true.
Definition vart_irq_lower (irq : option ptr) : M World Z := vart_irq_set irq false.

Definition vart_irq_pulse (irq : option ptr) : M World Z :=
  match irq with
  | None => ret (-EINVAL)
  | Some i =>
      let* v := load_irq i in
      if bool_decide (irq_set v = None) || irq_level v then ret (-EINVAL)
      else
        let* err := vart_irq_raise irq in
        if err <? 0 then ret err else vart_irq_lower irq
  end.
End Irq.

(** * Devices *)

(** Where the [VartDevice] at an address is kept: on its own, or as the first
    member of a larger struct. *)
Class DeviceHeap := {
  load_dev : ptr -> M World VartDevice;
  store_dev : ptr -> VartDevice -> M World unit;
}.

Section DeviceLife.
Context `{DeviceHeap}.

Definition vart_device_init (device : ptr) (ops : option VartDeviceOps)
    (opaque dma_as : option ptr) : M World unit :=
  store_dev device (mkDevice None dma_as false ops opaque false).

Context `{DeviceCallbacks}.

Definition vart_device_realize (device : option ptr) : M World Z :=
  match device with
  | None => ret (-EALREADY)
  | Some d =>
      let* dev := load_dev d in
      if dev_realized dev then ret (-EALREADY)
      else
        let* err := match dev_ops dev ≫= ops_realize with
                    | Some f => call_realize f d
                    | None => ret 0
                    end in
        if err <? 0 then ret err
        else
          let* dev := load_dev d in
          store_dev d (dev <| dev_realized := true |>) ;;; ret 0
  end.

Definition vart_device_unrealize (device : option ptr) : M World unit :=
  match device with
  | None => ret tt
  | Some d =>
      let* dev := load_dev d in
      if negb (dev_realized dev) then ret tt
      else
        match dev_ops dev ≫= ops_unrealize with
        | Some f => call_unrealize f d
        | None => ret tt
        end ;;;
        let* dev := load_dev d in
        store_dev d (dev <| dev_realized := false |>)
  end.

Definition vart_device_reset (device : option ptr) : M World Z :=
  match device with
  | None => ret (-EINVAL)
  | Some d =>
      let* dev := load_dev d in
      if negb (dev_realized dev) then ret (-EINVAL)
      else
        match dev_ops dev ≫= ops_reset with
        | Some f => call_reset f d
        | None => ret tt
        end ;;;
        ret 0
  end.
End DeviceLife.

(** * Buses *)

Definition vart_bus_init (bus : ptr) (parent address_space : option ptr)
    : M World unit :=
  store_bus bus (mkBus parent address_space [] 0).

Definition vart_bus_destroy (bus : option ptr) : M World Z :=
  match bus with
  | None => ret (-EINVAL)
  | Some b =>
      let* v := load_bus b in
      if negb (Z.of_nat (length (bus_devices v)) =? 0) then ret (-EBUSY)
      else store_bus b (mkBus None None [] 0) ;;; ret 0
  end.

(** The growth of the array: the new capacity, or an error. *)
Definition bus_grow (v : VartBus) : M World (Z + Z) :=
  if Z.of_nat (length (bus_devices v)) =? bus_device_capacity v then
    let cap := bus_device_capacity v in
    let capacity := if cap =? 0 then 4 else u64 (cap * 2) in
    if (capacity <? cap) || (SIZE_MAX / 8 <? capacity) then ret (inl (-EOVERFLOW))
    else
      let* ok := allocate in
      if ok then ret (inr capacity) else ret (inl (-ENOMEM))
  else ret (inr (bus_device_capacity v)).

Section BusMembers.
Context `{DeviceHeap}.

Definition vart_bus_add_device (bus device : option ptr) : M World Z :=
  match bus, device with
  | Some b, Some d =>
      let* dev := load_dev d in
      if negb (bool_decide (dev_bus dev = None)) then ret (-EALREADY)
      else if dev_realized dev then ret (-EBUSY)
      else
        let* v := load_bus b in
        let* r := bus_grow v in
        match r with
        | inl err => ret err
        | inr capacity =>
            store_bus b (v <| bus_device_capacity := capacity |>
                           <| bus_devices := bus_devices v ++ [d] |>) ;;;
            store_dev d (dev <| dev_bus := Some b |>) ;;;
            ret 0
        end
  | _, _ => ret (-EINVAL)
  end.

Definition vart_bus_remove_device (bus device : option ptr) : M World Z :=
  match bus, device with
  | Some b, Some d =>
      let* dev := load_dev d in
      if negb (bool_decide (dev_bus dev = Some b)) then ret (-ENOENT)
      else if dev_realized dev then ret (-EBUSY)
      else
        let* v := load_bus b in
        if bool_decide (d ∈ bus_devices v) then
          store_bus b (v <| bus_devices ::= remove_first d |>) ;;;
          store_dev d (dev <| dev_bus := None |>) ;;;
          ret 0
        else ret (-ENOENT)
  | _, _ => ret (-ENOENT)
  end.
End BusMembers.

(** Devices on their own. *)
#[export] Instance plain_devices : DeviceHeap := {|
  load_dev := load_plain_device; store_dev := store_plain_device |}.

(** * The bus invariant *)

(** The array of a bus holds, once each, exactly the devices that point to it. *)
Record bus_ok (w : World) (b : ptr) (v : VartBus) : Prop := {
  bo_nodup : NoDup (bus_devices v);
  bo_members : forall d, d ∈ bus_devices v <->
    exists dev, w_plain_devices w !! d = Some dev /\ dev_bus dev = Some b;
  bo_capacity : Z.of_nat (length (bus_devices v)) <= bus_device_capacity v;
}.

Record buses_ok (w : World) : Prop := {
  bs_buses : map_Forall (bus_ok w) (w_buses w);
  bs_devices : forall d dev b, w_plain_devices w !! d = Some dev ->
    dev_bus dev = Some b -> is_Some (w_buses w !! b);
}.

Lemma buses_ok_ext w w' :
  w_buses w' = w_buses w -> w_plain_devices w' = w_plain_devices w ->
  buses_ok w -> buses_ok w'.
Proof.
  intros Eb Ed [Hb Hd]. split; rewrite Eb, ?Ed; [|done].
  intros b v Hv. destruct (Hb b v Hv) as [H1 H2 H3]. split; [done| |done].
  by rewrite Ed.
Qed.

(** Updating a device without changing its bus. *)
Lemma store_device_buses_ok w d dev dev' :
  buses_ok w -> w_plain_devices w !! d = Some dev -> dev_bus dev' = dev_bus dev ->
  buses_ok (w <| w_plain_devices ::= <[d := dev']> |>).
Proof.
  intros [Hb Hd] Hdev E. split; cbn.
  - intros b v Hv. destruct (Hb b v Hv) as [H1 H2 H3]. split; [done| |done].
    intros d'. rewrite H2. cbn. destruct (decide (d' = d)) as [->|].
    + rewrite lookup_insert_eq. split; intros (x & Hx & ?); simplify_eq; eexists; split; done || congruence.
    + by rewrite lookup_insert_ne.
  - intros d' x b. destruct (decide (d' = d)) as [->|].
    + rewrite lookup_insert_eq. intros [= <-] Hx. eapply Hd; [done|congruence].
    + rewrite lookup_insert_ne by done. apply Hd.
Qed.

(** Storing a bus and one of its devices together, for linking and unlinking. *)
Lemma relink_buses_ok w b v v' d dev dev' :
  buses_ok w -> w_buses w !! b = Some v -> w_plain_devices w !! d = Some dev ->
  (dev_bus dev = None \/ dev_bus dev = Some b) ->
  (dev_bus dev' = None \/ dev_bus dev' = Some b) ->
  NoDup (bus_devices v') ->
  (forall x, x ∈ bus_devices v' <->
     (x = d /\ dev_bus dev' = Some b) \/ (x <> d /\ x ∈ bus_devices v)) ->
  Z.of_nat (length (bus_devices v')) <= bus_device_capacity v' ->
  buses_ok (w <| w_buses ::= <[b := v']> |> <| w_plain_devices ::= <[d := dev']> |>).
Proof.
  intros [Hb Hd] Hv Hdev Hold Hnew Hnd Hmem Hcap. split; cbn.
  - apply map_Forall_lookup. intros b' x Hx. destruct (decide (b' = b)) as [->|Hne].
    + rewrite lookup_insert_eq in Hx. injection Hx as <-. split; [done| |done].
      intros d'. cbn. rewrite Hmem, (bo_members _ _ _ (Hb b v Hv)).
      destruct (decide (d' = d)) as [->|].
      * rewrite lookup_insert_eq. naive_solver.
      * rewrite lookup_insert_ne by done. naive_solver.
    + rewrite lookup_insert_ne in Hx by done. destruct (Hb b' x Hx) as [H1 H2 H3].
      split; [done| |done]. intros d'. cbn. rewrite H2.
      destruct (decide (d' = d)) as [->|].
      * rewrite lookup_insert_eq. split; intros (y & Hy & Hyb); simplify_eq;
          destruct Hold, Hnew; congruence.
      * by rewrite lookup_insert_ne.
  - intros d' x b' Hx Hxb. destruct (decide (b' = b)) as [->|].
    { rewrite lookup_insert_eq. by eexists. }
    rewrite lookup_insert_ne by done. destruct (decide (d' = d)) as [->|].
    + rewrite lookup_insert_eq in Hx. simplify_eq. destruct Hnew; congruence.
    + rewrite lookup_insert_ne in Hx by done. by eapply Hd.
Qed.

Lemma bus_grow_correct v w :
  wp (bus_grow v)
    (fun r w' => w_buses w' = w_buses w /\ w_plain_devices w' = w_plain_devices w /\
       match r with
       | inl err => err = -EOVERFLOW \/ err = -ENOMEM
       | inr cap => Z.of_nat (length (bus_devices v)) <= bus_device_capacity v ->
                    Z.of_nat (length (bus_devices v)) + 1 <= cap
       end) w.
Proof.
  unfold bus_grow. destruct (Z.eqb_spec (Z.of_nat (length (bus_devices v))) (bus_device_capacity v)).
  2: { wsteps. split_and!; try done. lia. }
  destruct (_ || _) eqn:Ho; [wsteps; by auto|]. apply wp_bind, wp_allocate.
  - intros [] rest E; wsteps; (split_and!; [done|done|]); [by right|].
    intros _. destruct (Z.eqb_spec (bus_device_capacity v) 0); [lia|].
    unfold u64 in *. Z.to_euclidean_division_equations. lia.
  - intros E. wsteps. split_and!; [done|done|]. intros _.
    destruct (Z.eqb_spec (bus_device_capacity v) 0); [lia|].
    unfold u64 in *. Z.to_euclidean_division_equations. lia.
Qed.

Lemma add_device_ok w b d err w' :
  buses_ok w -> vart_bus_add_device (Some b) (Some d) w = Ok (err, w') ->
  buses_ok w' /\ (err = 0 -> exists dev, w_plain_devices w' !! d = Some dev /\
    dev_bus dev = Some b /\ dev_realized dev = false).
Proof.
  intros Hw E. unfold vart_bus_add_device in E.
  apply bind_Ok in E as (dev & w0 & [Hdv ->]%load_plain_device_Ok & E).
  case_bool_decide as Hfree; cbn [negb] in E; [|by inv_ok].
  destruct (dev_realized dev) eqn:Hr; [by inv_ok|].
  apply bind_Ok in E as (v & w1 & [Hbv ->]%load_bus_Ok & E).
  apply bind_Ok in E as (r & w2 & E2 & E).
  pose proof (wp_elim _ _ _ _ _ (bus_grow_correct v _) E2) as (Hb & Hd & Hcap).
  assert (buses_ok w2) as Hw2 by (by eapply buses_ok_ext).
  destruct r as [e|cap].
  { unfold ret in E. simplify_eq. split; [done|]. intros. destruct Hcap; lia. }
  unfold store_bus, store_dev, plain_devices, store_plain_device, bind, modify, ret in E. simplify_eq.
  split.
  2: { intros _. eexists. cbn. rewrite lookup_insert_eq. by split_and!. }
  destruct (bs_buses _ Hw2 b v ltac:(by rewrite Hb)) as [H1 H2 H3].
  assert (d ∉ bus_devices v) as Hnin.
  { rewrite H2. intros (x & Hx & Hxb). rewrite Hd in Hx. simplify_eq. }
  eapply relink_buses_ok; cbn; try rewrite Hb; try rewrite Hd; try done; try by auto.
  - apply NoDup_app. split_and!; [done| |apply NoDup_singleton]. set_solver.
  - set_solver.
  - rewrite length_app. cbn. specialize (Hcap H3). lia.
Qed.

Lemma remove_device_ok w b d err w' :
  buses_ok w -> vart_bus_remove_device (Some b) (Some d) w = Ok (err, w') ->
  buses_ok w' /\ (err = 0 -> exists v, w_buses w' !! b = Some v /\ d ∉ bus_devices v).
Proof.
  intros Hw E. unfold vart_bus_remove_device in E.
  apply bind_Ok in E as (dev & w0 & [Hdv ->]%load_plain_device_Ok & E).
  case_bool_decide as Hon; cbn [negb] in E; [|by inv_ok].
  destruct (dev_realized dev) eqn:Hr; [by inv_ok|].
  apply bind_Ok in E as (v & w1 & [Hbv ->]%load_bus_Ok & E).
  destruct (bs_buses _ Hw b v Hbv) as [H1 H2 H3].
  case_bool_decide as Hin; [|by inv_ok].
  unfold store_bus, store_dev, plain_devices, store_plain_device, bind, modify, ret in E. simplify_eq. split.
  - eapply relink_buses_ok; cbn; try done; try by auto.
    + by apply NoDup_remove_first.
    + intros x. rewrite elem_of_remove_first by done. naive_solver.
    + pose proof (length_remove_first d (bus_devices v) Hin). lia.
  - intros _. eexists. cbn. rewrite lookup_insert_eq. split; [done|].
    cbn. rewrite elem_of_remove_first by done. naive_solver.
Qed.

(** * Histories of bus operations *)

(** Callbacks of devices do not touch the bus topology: they may change their
    own device and anything else, but link and unlink no device. *)
Class TopologyFrame `{DeviceCallbacks} : Prop := {
  realize_frame f d w err w' : call_realize f d w = Ok (err, w') ->
    buses_ok w -> buses_ok w';
  unrealize_frame f d w w' : call_unrealize f d w = Ok (tt, w') ->
    buses_ok w -> buses_ok w';
  reset_frame f d w w' : call_reset f d w = Ok (tt, w') -> buses_ok w -> buses_ok w';
}.

Section History.
Context `{HF : TopologyFrame}.

(** One call of the device and bus interface.  A device is initialised only
    while it is on no bus, a bus only while no device is on it. *)
Inductive bus_step (w w' : World) : Prop :=
| step_device_init d ops opaque as_ :
    (forall dev, w_plain_devices w !! d = Some dev -> dev_bus dev = None) ->
    vart_device_init d ops opaque as_ w = Ok (tt, w') -> bus_step w w'
| step_device_realize d err : vart_device_realize d w = Ok (err, w') -> bus_step w w'
| step_device_unrealize d : vart_device_unrealize d w = Ok (tt, w') -> bus_step w w'
| step_device_reset d err : vart_device_reset d w = Ok (err, w') -> bus_step w w'
| step_bus_init b parent as_ :
    (forall v, w_buses w !! b = Some v -> bus_devices v = []) ->
    vart_bus_init b parent as_ w = Ok (tt, w') -> bus_step w w'
| step_bus_destroy b err : vart_bus_destroy b w = Ok (err, w') -> bus_step w w'
| step_bus_add b d err : vart_bus_add_device b d w = Ok (err, w') -> bus_step w w'
| step_bus_remove b d err : vart_bus_remove_device b d w = Ok (err, w') -> bus_step w w'.

Lemma device_init_buses_ok w d dev' :
  buses_ok w -> dev_bus dev' = None ->
  (forall dev, w_plain_devices w !! d = Some dev -> dev_bus dev = None) ->
  buses_ok (w <| w_plain_devices ::= <[d := dev']> |>).
Proof.
  intros [Hb Hd] Hnew Hold. destruct (w_plain_devices w !! d) as [dev|] eqn:Hdev.
  { eapply store_device_buses_ok; [by split|done|]. by rewrite (Hold dev). }
  split; cbn.
  - intros b v Hv. destruct (Hb b v Hv) as [H1 H2 H3]. split; [done| |done].
    intros d'. rewrite H2. cbn. destruct (decide (d' = d)) as [->|].
    + rewrite lookup_insert_eq. split; intros (x & Hx & ?); simplify_eq.
    + by rewrite lookup_insert_ne.
  - intros d' x b. destruct (decide (d' = d)) as [->|].
    + rewrite lookup_insert_eq. intros [= <-] ?. congruence.
    + rewrite lookup_insert_ne by done. apply Hd.
Qed.

(** An empty bus may be stored where no device points. *)
Lemma empty_bus_buses_ok w b v' :
  buses_ok w -> bus_devices v' = [] -> bus_device_capacity v' = 0 ->
  (forall v, w_buses w !! b = Some v -> bus_devices v = []) ->
  buses_ok (w <| w_buses ::= <[b := v']> |>).
Proof.
  intros [Hb Hd] He Hc Hold. split; cbn.
  - apply map_Forall_lookup. intros b' x Hx. destruct (decide (b' = b)) as [->|].
    + rewrite lookup_insert_eq in Hx. injection Hx as <-.
      split; rewrite ?He, ?Hc; [constructor| |done].
      intros d. split; [set_solver|]. cbn. intros (dev & Hdev & Hon).
      destruct (Hd d dev b Hdev Hon) as [v Hv].
      pose proof (bo_members _ _ _ (Hb b v Hv) d) as Hm. rewrite (Hold v Hv) in Hm.
      assert (d ∈ []) as Hin by (apply Hm; eauto). set_solver.
    + rewrite lookup_insert_ne in Hx by done. destruct (Hb b' x Hx). by split.
  - intros d dev b' Hdev Hon. destruct (decide (b' = b)) as [->|].
    + rewrite lookup_insert_eq. by eexists.
    + rewrite lookup_insert_ne by done. by eapply Hd.
Qed.

Lemma realized_buses_ok w d dev r :
  buses_ok w -> w_plain_devices w !! d = Some dev ->
  buses_ok (w <| w_plain_devices ::= <[d := dev <| dev_realized := r |>]> |>).
Proof. intros. by eapply store_device_buses_ok. Qed.

Lemma realize_buses_ok w d err w' :
  buses_ok w -> vart_device_realize (Some d) w = Ok (err, w') -> buses_ok w'.
Proof using HF.
  intros Hw E. unfold vart_device_realize in E.
  apply bind_Ok in E as (dev & ? & [Hdev ->]%load_plain_device_Ok & E).
  destruct (dev_realized dev); [by inv_ok|].
  apply bind_Ok in E as (e & w1 & Ecall & E).
  assert (buses_ok w1) as Hw1.
  { destruct (dev_ops dev ≫= ops_realize); [exact (realize_frame _ _ _ _ _ Ecall Hw)|by inv_ok]. }
  destruct (e <? 0); [by inv_ok|].
  apply bind_Ok in E as (dev1 & ? & [Hdev1 ->]%load_plain_device_Ok & E).
  clear Ecall. unfold store_dev, plain_devices, store_plain_device in E. inv_ok. by apply realized_buses_ok.
Qed.

Lemma unrealize_buses_ok w d w' :
  buses_ok w -> vart_device_unrealize (Some d) w = Ok (tt, w') -> buses_ok w'.
Proof using HF.
  intros Hw E. unfold vart_device_unrealize in E.
  apply bind_Ok in E as (dev & ? & [Hdev ->]%load_plain_device_Ok & E).
  destruct (negb _); [by inv_ok|].
  apply bind_Ok in E as ([] & w1 & Ecall & E).
  assert (buses_ok w1) as Hw1.
  { destruct (dev_ops dev ≫= ops_unrealize); [exact (unrealize_frame _ _ _ _ Ecall Hw)|by inv_ok]. }
  apply bind_Ok in E as (dev1 & ? & [Hdev1 ->]%load_plain_device_Ok & E).
  clear Ecall. unfold store_dev, plain_devices, store_plain_device in E. inv_ok. by apply realized_buses_ok.
Qed.

Lemma reset_buses_ok w d err w' :
  buses_ok w -> vart_device_reset (Some d) w = Ok (err, w') -> buses_ok w'.
Proof using HF.
  intros Hw E. unfold vart_device_reset in E.
  apply bind_Ok in E as (dev & ? & [Hdev ->]%load_plain_device_Ok & E).
  destruct (negb _); [by inv_ok|].
  apply bind_Ok in E as ([] & w1 & Ecall & E). unfold ret in E. simplify_eq.
  destruct (dev_ops dev ≫= ops_reset); [exact (reset_frame _ _ _ _ Ecall Hw)|by inv_ok].
Qed.

Lemma bus_step_buses_ok w w' : buses_ok w -> bus_step w w' -> buses_ok w'.
Proof using HF.
  intros Hw [d ops o a Hfree E|[d|] err E|[d|] E|[d|] err E|b p a Hfree E|[b|] err E
    |[b|] [d|] err E|[b|] [d|] err E]; try (by cbn in E; unfold ret in E; simplify_eq).
  - unfold vart_device_init, store_dev, plain_devices, store_plain_device in E. inv_ok.
    by apply device_init_buses_ok.
  - by eapply realize_buses_ok.
  - by eapply unrealize_buses_ok.
  - by eapply reset_buses_ok.
  - unfold vart_bus_init, store_bus in E. inv_ok. by apply empty_bus_buses_ok.
  - unfold vart_bus_destroy in E.
    apply bind_Ok in E as (v & ? & [Hv ->]%load_bus_Ok & E).
    destruct (Z.eqb_spec (Z.of_nat (length (bus_devices v))) 0) as [Hz|]; [|by inv_ok].
    unfold store_bus in E. cbn in E. inv_ok. apply empty_bus_buses_ok; try done.
    intros v' Hv'. simplify_eq. by apply length_zero_iff_nil; lia.
  - by eapply add_device_ok.
  - by eapply remove_device_ok.
Qed.
End History.

(** In every history of device and bus calls, with any failures, the array
    of each bus holds exactly the devices that point to it, once each, and a bus
    that was destroyed successfully has no device left pointing to it. *)
Theorem bus_topology_consistent `{TopologyFrame} w :
  rtc bus_step empty_world w ->
  buses_ok w /\
  forall b w', vart_bus_destroy (Some b) w = Ok (0, w') ->
    forall d dev, w_plain_devices w' !! d = Some dev -> dev_bus dev <> Some b.
Proof.
  intros Hrtc. assert (buses_ok w) as Hw.
  { revert w Hrtc. apply (rtc_ind_r buses_ok).
    - split; [apply map_Forall_empty|]. intros d dev b. cbn. by rewrite lookup_empty.
    - intros w w' _ Hstep Hok. by eapply bus_step_buses_ok. }
  split; [done|]. intros b w' E d dev Hdev Hon. unfold vart_bus_destroy in E.
  apply bind_Ok in E as (v & ? & [Hv ->]%load_bus_Ok & E).
  destruct (Z.eqb_spec (Z.of_nat (length (bus_devices v))) 0) as [Hz|]; [|by inv_ok].
  unfold store_bus in E. cbn in E. inv_ok.
  pose proof (bo_members _ _ _ (bs_buses _ Hw b v Hv) d) as [_ Hm].
  pose proof (Hm (ex_intro _ dev (conj Hdev Hon))) as Hin.
  destruct (bus_devices v); [by apply not_elem_of_nil in Hin|done].
Qed.

(** * Interrupt lines and their sink *)

(** A sink with a wire: an accepted change sets the wire, a refused one leaves
    it; the sink changes no interrupt record. *)
Class WiredSink `{IrqCallbacks} (wire : World -> bool) : Prop := {
  sink_irqs f o line level w err w' :
    call_irq_set f o line level w = Ok (err, w') -> w_irqs w' = w_irqs w;
  sink_wire f o line level w err w' :
    call_irq_set f o line level w = Ok (err, w') ->
    wire w' = if err <? 0 then wire w else level;
  sink_frame w i v : wire (w <| w_irqs ::= <[i := v]> |>) = wire w;
}.

(** One call on an interrupt line. *)
Inductive irq_call := irq_set_to (level : bool) | irq_pulse_once.

Section Sink.
Context `{IrqCallbacks}.

Definition run_irq_call (i : ptr) (c : irq_call) : M World Z :=
  match c with
  | irq_set_to true => vart_irq_raise (Some i)
  | irq_set_to false => vart_irq_lower (Some i)
  | irq_pulse_once => vart_irq_pulse (Some i)
  end.

Fixpoint run_irq_calls (i : ptr) (l : list irq_call) : M World unit :=
  match l with
  | [] => ret tt
  | c :: rest => run_irq_call i c ;;; run_irq_calls i rest
  end.

Context (wire : World -> bool) `{HS : !WiredSink wire}.

Definition in_sync (i : ptr) (w : World) : Prop :=
  exists v, w_irqs w !! i = Some v /\ irq_level v = wire w.

Lemma irq_set_in_sync i level w err w' :
  in_sync i w -> vart_irq_set (Some i) level w = Ok (err, w') ->
  in_sync i w' /\
  (err = 0 -> exists v, w_irqs w' !! i = Some v /\ irq_level v = level).
Proof using HS.
  intros (v & Hv & Hl) E. unfold vart_irq_set in E.
  apply bind_Ok in E as (v0 & ? & [Hv0 ->]%load_irq_Ok & E). simplify_eq.
  destruct (irq_set v) as [f|]; [|unfold ret in E; simplify_eq; split; [by exists v|done]].
  destruct (Bool.eqb_spec (irq_level v) level) as [Heq|Hne].
  { unfold ret in E. injection E as <- <-. split; [by exists v|]. intros _. by exists v. }
  apply bind_Ok in E as (e & w1 & Ecall & E).
  pose proof (sink_irqs _ _ _ _ _ _ _ Ecall) as Hirqs.
  pose proof (sink_wire _ _ _ _ _ _ _ Ecall) as Hwire.
  destruct (Z.ltb_spec e 0).
  - unfold ret in E. simplify_eq. split; [|lia]. exists v. split; congruence.
  - apply bind_Ok in E as (v1 & ? & [Hv1 ->]%load_irq_Ok & E).
    unfold store_irq, bind, modify, ret in E. injection E as <- <-. split.
    + exists (v1 <| irq_level := level |>). rewrite sink_frame. split; [|done].
      cbn. apply lookup_insert_eq.
    + intros _. eexists. split; [apply lookup_insert_eq|done].
Qed.

Lemma irq_call_in_sync i c w err w' :
  in_sync i w -> run_irq_call i c w = Ok (err, w') -> in_sync i w'.
Proof using HS.
  intros Hin E. destruct c as [[]|]; [exact (proj1 (irq_set_in_sync _ _ _ _ _ Hin E))..|].
  cbn in E. unfold vart_irq_pulse in E.
  apply bind_Ok in E as (v0 & ? & [Hv0 ->]%load_irq_Ok & E).
  destruct (_ || _); [unfold ret in E; by simplify_eq|].
  apply bind_Ok in E as (e & w1 & E1 & E).
  pose proof (proj1 (irq_set_in_sync _ _ _ _ _ Hin E1)) as Hin1.
  destruct (e <? 0); [unfold ret in E; by simplify_eq|].
  exact (proj1 (irq_set_in_sync _ _ _ _ _ Hin1 E)).
Qed.
End Sink.

(** The recorded level of an interrupt line is the level of the wire: after
    any sequence of raise, lower and pulse calls, some refused by the sink, the
    record and the wire agree, so that suppressing repeated levels loses no
    change; and a pulse that succeeds leaves the line low. *)
Theorem irq_level_tracks_wire `{IrqCallbacks} (wire : World -> bool)
    `{!WiredSink wire} i l w w' :
  in_sync wire i w -> run_irq_calls i l w = Ok (tt, w') ->
  in_sync wire i w' /\
  forall w2, vart_irq_pulse (Some i) w' = Ok (0, w2) -> wire w2 = false.
Proof.
  intros Hin E. assert (in_sync wire i w') as Hin'.
  { revert w Hin E. induction l as [|c rest IH]; intros w Hin E; cbn in E.
    - unfold ret in E. by simplify_eq.
    - apply bind_Ok in E as (err & w1 & E1 & E). eapply IH; [|done].
      by eapply irq_call_in_sync. }
  split; [done|]. intros w2 Ep. unfold vart_irq_pulse in Ep.
  apply bind_Ok in Ep as (v0 & ? & [Hv0 ->]%load_irq_Ok & Ep).
  destruct (_ || _); [unfold ret in Ep; by simplify_eq|].
  apply bind_Ok in Ep as (e & w1 & E1 & Ep).
  destruct (irq_set_in_sync wire i true _ _ _ Hin' E1) as [Hin1 _].
  destruct (Z.ltb_spec e 0); [unfold ret in Ep; simplify_eq; lia|].
  destruct (irq_set_in_sync wire i false _ _ _ Hin1 Ep) as [(v & Hv & <-) Hlow].
  destruct (Hlow eq_refl) as (v' & Hv' & ?). by simplify_eq.
Qed.

(** * Concrete instances *)
Module DevicesDemo.
(** A wire kept in the host byte 0; callbacks of devices that do nothing. *)
#[export] Instance sink : IrqCallbacks := fun _ _ _ level =>
  modify (fun w => w <| w_host ::= <[0 := if level then 1 else 0]> |>) ;;; ret 0.
Definition wire (w : World) : bool := bool_decide (w_host w !! 0 = Some 1).
#[export] Instance sink_wired : WiredSink wire.
Proof.
  split; [intros ??????? E|intros ??? level ??? E|done];
    unfold call_irq_set, sink in E; inv_ok; [done|].
  unfold wire. cbn. rewrite lookup_insert_eq. by destruct level.
Qed.
#[export] Instance callbacks : DeviceCallbacks := {|
  call_realize _ _ := ret 0; call_unrealize _ _ := ret tt; call_reset _ _ := ret tt |}.
#[export] Instance frame : TopologyFrame.
Proof. split; intros; cbn in *; by inv_ok. Qed.

Definition exec {A} (m : M World A) (w : World) : World :=
  match m w with Ok (_, w') => w' | _ => w end.
Definition bus : ptr := 1%positive.
Definition dev : ptr := 7%positive.
Definition w1 := exec (vart_bus_init bus None None) empty_world.
Definition w2 := exec (vart_device_init dev None None None) w1.
Definition w3 := exec (vart_bus_add_device (Some bus) (Some dev)) w2.

Lemma bus_topology_consistent_witness :
  buses_ok w3 /\
  forall b w', vart_bus_destroy (Some b) w3 = Ok (0, w') ->
    forall d dev, w_plain_devices w' !! d = Some dev -> dev_bus dev <> Some b.
Proof.
  apply (bus_topology_consistent w3).
  apply (rtc_l _ _ w1).
  { apply (step_bus_init _ _ bus None None); [by intros|vm_compute; reflexivity]. }
  apply (rtc_l _ _ w2).
  { apply (step_device_init _ _ dev None None None); [by intros|vm_compute; reflexivity]. }
  apply rtc_once. apply (step_bus_add _ _ (Some bus) (Some dev) 0).
  vm_compute. reflexivity.
Defined.

Definition i : ptr := 1%positive.
Definition line : VartIrq := mkIrq (Some (fn_external 1)) None 5 false.
Definition v0 := empty_world <| w_irqs := {[i := line]} |>.
Definition calls := [irq_set_to true; irq_pulse_once; irq_set_to false; irq_pulse_once].
Definition v1 := exec (run_irq_calls i calls) v0.

Lemma irq_level_tracks_wire_witness :
  in_sync wire i v1 /\
  forall w2, vart_irq_pulse (Some i) v1 = Ok (0, w2) -> wire w2 = false.
Proof.
  apply (irq_level_tracks_wire wire i calls v0 v1).
  - exists line. split; vm_compute; reflexivity.
  - vm_compute. reflexivity.
Defined.
End DevicesDemo.
