(* ===== verification/Memory.v ===== *)
(** Guest RAM: [src/core/memory.c].

    A memory region owns an anonymous host mapping, may be registered with KVM
    as a slot and may be mapped into an address space as a RAM region of
    priority -1.  The operating system and KVM are parameters. *)

From stdpp Require Import base tactics numbers list gmap.
From Stdlib Require Import ZArith Lia.
From S2P Require Import Prelude Bytes Machine AddressSpace.

(** The system calls the file makes: [sysconf(_SC_PAGESIZE)], [mmap] of a size
    (the errno, or the address), [munmap], and the
    [KVM_SET_USER_MEMORY_REGION] ioctl for a slot, guest address, size and host
    address (0, or the errno negated). *)
Class HostOs := {
  sysconf_page_size : Z;
  call_mmap : Z -> M World (Z + Z);
  call_munmap : Z -> Z -> M World unit;
  call_set_user_memory : Z -> Z -> Z -> option Z -> M World Z;
}.

Definition zero_memory (address_region : ptr) : VartMemoryRegion :=
  mkMemoryRegion None 0 0 0 false address_region false.

(** [memset(region, 0, sizeof( *region))], the embedded region included. *)
Definition clear_memory (r : ptr) : M World unit :=
  let* v := load_memory r in
  store_region (mem_address_region v) zero_region ;;;
  store_memory r (zero_memory (mem_address_region v)).

Section Memory.
Context `{HostOs}.

Definition memory_region_is_valid (guest_addr size : Z) : bool :=
  if (sysconf_page_size <=? 0) || (size =? 0) then false
  else if negb (guest_addr mod sysconf_page_size =? 0) ||
          negb (size mod sysconf_page_size =? 0) then false
  else guest_addr <=? UINT64_MAX - size.

Definition vart_memory_region_create (region : ptr) (guest_addr size slot : Z)
    : M World Z :=
  clear_memory region ;;;
  if negb (memory_region_is_valid guest_addr size) then ret (-EINVAL)
  else
    let* r := call_mmap size in
    match r with
    | inl errno => ret (- errno)
    | inr mapping =>
        let* v := load_memory region in
        store_memory region (v <| mem_host_addr := Some mapping |>
          <| mem_guest_addr := guest_addr |> <| mem_size := size |>
          <| mem_slot := slot |>) ;;;
        ret 0
    end.

Definition vart_memory_region_register (region : ptr) : M World Z :=
  let* v := load_memory region in
  if bool_decide (mem_host_addr v = None) || mem_registered v then ret (-EINVAL)
  else
    let* err := call_set_user_memory (mem_slot v) (mem_guest_addr v) (mem_size v)
                  (mem_host_addr v) in
    if err <? 0 then ret err
    else
      let* v := load_memory region in
      store_memory region (v <| mem_registered := true |>) ;;; ret 0.

(** A zero [memory_size] deletes the slot. *)
Definition vart_memory_region_unregister (region : ptr) : M World Z :=
  let* v := load_memory region in
  if negb (mem_registered v) then ret 0
  else
    let* err := call_set_user_memory (mem_slot v) (mem_guest_addr v) 0
                  (mem_host_addr v) in
    if err <? 0 then ret err
    else
      let* v := load_memory region in
      store_memory region (v <| mem_registered := false |>) ;;; ret 0.

Definition vart_memory_region_map (region address_space : option ptr)
    : M World Z :=
  match region, address_space with
  | Some r, Some a =>
      let* v := load_memory r in
      if bool_decide (mem_host_addr v = None) then ret (-EINVAL)
      else if mem_address_space_mapped v then ret (-EALREADY)
      else
        let* err := vart_address_region_init_ram (Some (mem_address_region v))
          (mem_guest_addr v) (mem_size v) (-1) (Some r) (mem_host_addr v) in
        if err <? 0 then ret err
        else
          let* err := vart_address_space_add (Some a)
                        (Some (mem_address_region v)) in
          if err <? 0 then
            store_region (mem_address_region v) zero_region ;;; ret err
          else
            let* v := load_memory r in
            store_memory r (v <| mem_address_space_mapped := true |>) ;;; ret 0
  | _, _ => ret (-EINVAL)
  end.

Definition vart_memory_region_unmap (region : option ptr) : M World Z :=
  match region with
  | None => ret (-EINVAL)
  | Some r =>
      let* v := load_memory r in
      if negb (mem_address_space_mapped v) then ret 0
      else
        let* ar := load_region (mem_address_region v) in
        let* err := match r_address_space ar with
                    | Some a => vart_address_space_remove (Some a)
                                  (Some (mem_address_region v))
                    | None => ret 0
                    end in
        if err <? 0 then ret err
        else
          store_region (mem_address_region v) zero_region ;;;
          let* v := load_memory r in
          store_memory r (v <| mem_address_space_mapped := false |>) ;;; ret 0
  end.

(** The error code and the caller's buffer afterwards. *)
Definition memory_region_access (region : option ptr) (guest_addr : Z)
    (data : option (list Z)) (size : Z) (write : bool)
    : M World (Z * option (list Z)) :=
  match region with
  | None => ret (-ERANGE, data)
  | Some r =>
      let* v := load_memory r in
      match mem_host_addr v with
      | None => ret (-ERANGE, data)
      | Some host =>
          if guest_addr <? mem_guest_addr v then ret (-ERANGE, data)
          else
            let offset := u64 (guest_addr - mem_guest_addr v) in
            if (mem_size v <? offset) || (u64 (mem_size v - offset) <? size)
            then ret (-ERANGE, data)
            else if size =? 0 then ret (0, data)
            else
              match data with
              | None => ret (-EINVAL, data)
              | Some bytes => copy_ram (host + offset) bytes size write
              end
      end
  end.

Definition vart_memory_region_read (region : option ptr) (guest_addr : Z)
    (data : option (list Z)) (size : Z) : M World (Z * option (list Z)) :=
  memory_region_access region guest_addr data size false.

Definition vart_memory_region_write (region : option ptr) (guest_addr : Z)
    (data : option (list Z)) (size : Z) : M World Z :=
  let* (err, _) := memory_region_access region guest_addr data size true in
  ret err.

Definition vart_memory_region_destroy (region : ptr) : M World unit :=
  vart_memory_region_unmap (Some region) ;;;
  let* v := load_memory region in
  match mem_host_addr v with
  | Some host => call_munmap host (mem_size v)
  | None => ret tt
  end ;;;
  clear_memory region.
End Memory.

(** * Mapped regions *)

(** The memory region [r] is mapped in space [a]: its embedded address region
    describes the same range and host memory. *)
Definition mapped_in (w : World) (r a : ptr) : Prop :=
  exists v ar, w_memory w !! r = Some v /\
    w_regions w !! mem_address_region v = Some ar /\
    mem_address_space_mapped v = true /\
    r_address_space ar = Some a /\ r_base ar = mem_guest_addr v /\
    r_size ar = mem_size v /\ r_type ar = VART_REGION_RAM /\
    r_priority ar = -1 /\ is_Some (mem_host_addr v) /\
    r_ram_addr ar = mem_host_addr v.

Lemma init_ram_Ok w r b sz p o host err w' :
  vart_address_region_init_ram (Some r) b sz p o (Some host) w = Ok (err, w') ->
  err < 0 /\ w' = w \/
  err = 0 /\ sz <> 0 /\ b <= UINT64_MAX - (sz - 1) /\
  w' = w <| w_regions ::= <[r :=
    mkRegion b sz p VART_REGION_RAM true o None None None (Some host)]> |>.
Proof.
  intros E. pattern err, w'. refine (wp_elim _ _ _ _ _ _ E). clear E.
  unfold vart_address_region_init_ram, vart_address_region_init.
  cbn [region_type_of_Z Z.eqb]. wsteps.
  destruct (_ || _) eqn:Hc; wsteps; [left; split; [lia|done]|].
  change (0 <? 0) with false. cbv iota. apply wp_bind.
  eapply wp_deref; [reflexivity|]. apply wp_bind.
  eapply wp_load_region; [apply lookup_insert_eq|]. wsteps.
  right. split_and!; [done|lia|lia|]. apply store_region_twice.
Qed.

(** What the callers of [vart_memory_region_map] guarantee: the range fits the
    width of its fields and the embedded region is in no space yet. *)
Definition mappable (w : World) (r : ptr) : Prop :=
  exists v, w_memory w !! r = Some v /\ region_free w (mem_address_region v) /\
    u64_ok (mem_guest_addr v) /\ u64_ok (mem_size v).

Section Map.
Context `{HostOs}.

(** A successful map links the embedded region. *)
Lemma map_Ok r a w w' :
  spaces_ok w -> mappable w r ->
  vart_memory_region_map (Some r) (Some a) w = Ok (0, w') ->
  spaces_ok w' /\ mapped_in w' r a /\ w_host w' = w_host w.
Proof.
  intros Hw (v & Hv & Hfree & Hg & Hsz) E. unfold vart_memory_region_map in E.
  apply bind_Ok in E as (v0 & ? & [Hv0 ->]%load_memory_Ok & E). simplify_eq.
  destruct (mem_host_addr v) as [host|] eqn:Hh.
  2: { rewrite bool_decide_true in E by done. by inv_ok. }
  rewrite bool_decide_false in E by done.
  destruct (mem_address_space_mapped v); [by inv_ok|].
  apply bind_Ok in E as (e1 & w1 & E1 & E).
  destruct (init_ram_Ok _ _ _ _ _ _ _ _ _ E1) as [[Hneg ->]|(-> & Hnz & Hlast & ->)].
  { destruct (Z.ltb_spec e1 0); [|lia]. unfold ret in E. simplify_eq. lia. }
  clear E1. cbn [Z.ltb Z.compare] in E.
  match type of E with context [<[_ := ?x]>] => set (ar := x) in * end.
  assert (spaces_ok (w <| w_regions ::= <[mem_address_region v := ar]> |>)) as Hw1
    by (by apply store_free_region_ok).
  apply bind_Ok in E as (e2 & w2 & E2 & E).
  assert (exists s, w_spaces w !! a = Some s) as [s Hs].
  { unfold vart_address_space_add in E2.
    apply bind_Ok in E2 as (x & ? & [Hx ->]%load_region_Ok & E2).
    cbn in Hx. rewrite lookup_insert_eq in Hx. injection Hx as <-.
    rewrite bool_decide_false in E2 by (cbn; tauto).
    apply bind_Ok in E2 as (s & ? & [Hs ->]%load_space_Ok & _). by exists s. }
  unfold u64_ok in *.
  pose proof (wp_elim _ _ _ _ _ (add_correct _ a (mem_address_region v) s ar Hw1 Hs
    (store_region_lookup w _ ar) ltac:(split; cbn; lia)) E2) as [Hw2 Hout].
  destruct Hout as [(-> & _)|[(-> & _)|[([->| ->] & _)|(-> & _ & _ & oom & cap & ->)]]];
    try (by inv_ok).
  cbn [Z.ltb Z.compare] in E. unfold linked in *.
  apply bind_Ok in E as (v' & ? & [Hv' ->]%load_memory_Ok & E). cbn in Hv'. simplify_eq.
  unfold store_memory, bind, modify, ret in E. simplify_eq. split_and!; [|..|done].
  - by eapply spaces_ok_ext; [..|exact Hw2].
  - eexists _, _. cbn. rewrite lookup_insert_eq. split; [done|]. cbn.
    rewrite lookup_insert_eq. split; [done|]. cbn. by rewrite Hh.
Qed.
End Map.

(** The guest range lies inside the region. *)
Definition inside (v : VartMemoryRegion) (guest_addr size : Z) : Prop :=
  mem_guest_addr v <= guest_addr /\
  guest_addr + size <= mem_guest_addr v + mem_size v.

(** A non-empty access is a copy inside the mapping, or ERANGE. *)
Lemma access_cases `{HostOs} r v host w guest_addr data size write :
  w_memory w !! r = Some v -> mem_host_addr v = Some host ->
  u64_ok (mem_guest_addr v) -> u64_ok (mem_size v) -> u64_ok guest_addr ->
  0 < size ->
  (inside v guest_addr size /\
   memory_region_access (Some r) guest_addr (Some data) size write w =
     copy_ram (host + (guest_addr - mem_guest_addr v)) data size write w) \/
  (~ inside v guest_addr size /\
   memory_region_access (Some r) guest_addr (Some data) size write w =
     Ok ((-ERANGE, Some data), w)).
Proof.
  intros Hv Hh Hg Hsz Ha Hpos. unfold memory_region_access, inside, u64_ok in *.
  assert (load_memory r w = Ok (v, w)) as Hld
    by (unfold load_memory; run_unfold; by rewrite Hv).
  rewrite (bind_eq _ _ _ _ _ Hld), Hh.
  destruct (Z.ltb_spec guest_addr (mem_guest_addr v)); [right; split; [lia|done]|].
  rewrite (u64_small (guest_addr - _)) by lia.
  destruct (Z.ltb_spec (mem_size v) (guest_addr - mem_guest_addr v));
    [right; split; [lia|done]|].
  rewrite u64_small by lia.
  destruct (Z.ltb_spec (mem_size v - (guest_addr - mem_guest_addr v)) size); cbn [orb];
    [right; split; [lia|done]|].
  destruct (Z.eqb_spec size 0); [lia|]. left. split; [lia|done].
Qed.

(** Guest RAM has one view: after a region is mapped into an address space
    without a translator, accessing it directly ([vart_memory_region_read] and
    [_write], the loader's path) and accessing it through the address space
    (the devices' path) are the same computation, for every range the space
    resolves to it; and every such range lies inside the host mapping. *)
Theorem memory_paths_agree `{HostOs} `{TranslateCallbacks} r a v w w' address data size
    write fuel :
  spaces_ok w -> mappable w r ->
  vart_memory_region_map (Some r) (Some a) w = Ok (0, w') ->
  plain_space w' a -> w_memory w' !! r = Some v ->
  u64_ok (mem_guest_addr v) -> u64_ok (mem_size v) ->
  u64_ok address -> 0 < size <= UINT64_MAX ->
  resolves w' a address size (Some (mem_address_region v)) ->
  inside v address size /\
  memory_region_access (Some r) address (Some data) size write w' =
  address_space_buffer_access (S fuel) a address (Some data) size write w'.
Proof.
  intros Hw Hm Hmap (s & Hs & Ht) Hv Hg Hsz Ha Hpos Hres.
  destruct (map_Ok r a w w' Hw Hm Hmap) as (Hw' & (v0 & ar & Hv0 & Har & _ & _ & Hb & Hn
    & Hty & _ & [host Hh] & Hram) & _). simplify_eq.
  pose proof (find_total w' a s address size Hw' Hs Ha ltac:(unfold u64_ok; lia)) as (o & ? & E & -> & Hbest)%wp_ok.
  assert (o = Some (mem_address_region v)) as ->.
  { eapply (resolves_unique w' a address size); [done..|by exists s|done]. }
  destruct (resolved_range w' a address size (mem_address_region v))
    as (ar' & Har' & _ & _ & Hlo & Hhi); [done|done|unfold u64_ok; lia|done|]. simplify_eq.
  destruct (access_cases r v host w' address data size write Hv Hh Hg Hsz Ha ltac:(lia))
    as [[Hin ->]|[Hout _]]; [|exfalso; apply Hout; unfold inside; lia].
  split; [done|]. cbn [address_space_buffer_access]. destruct (Z.eqb_spec size 0); [lia|].
  assert (load_space a w' = Ok (s, w')) as Hld
    by (unfold load_space; run_unfold; by rewrite Hs).
  rewrite (bind_eq _ _ _ _ _ Hld), Ht, (bind_eq _ _ _ _ _ E).
  rewrite (bind_eq _ _ w' ar w') by (unfold load_region; run_unfold; by rewrite Har).
  rewrite Hram, Hh, bool_decide_true by done. cbn [negb].
  unfold u64_ok in *. rewrite u64_small by lia. by rewrite Hb.
Qed.

(** Bounds: a non-empty direct access to guest RAM is refused with ERANGE,
    changing nothing, exactly when the range is not inside the region; otherwise
    it succeeds, touching only the bytes of the host mapping behind the range,
    and reading back what was written gives the same bytes. *)
Theorem memory_access_bounds `{HostOs} r v host w guest_addr data :
  w_memory w !! r = Some v -> mem_host_addr v = Some host ->
  u64_ok (mem_guest_addr v) -> u64_ok (mem_size v) -> u64_ok guest_addr ->
  mapped (w_host w) host (mem_size v) -> data <> [] ->
  let size := Z.of_nat (length data) in
  let target := host + (guest_addr - mem_guest_addr v) in
  if decide (mem_guest_addr v <= guest_addr /\
             guest_addr + size <= mem_guest_addr v + mem_size v)
  then exists h',
    vart_memory_region_write (Some r) guest_addr (Some data) size w =
      Ok (0, w <| w_host := h' |>) /\
    vart_memory_region_read (Some r) guest_addr (Some (repeat 0 (length data))) size
      (w <| w_host := h' |>) = Ok ((0, Some data), w <| w_host := h' |>) /\
    host <= target /\ target + size <= host + mem_size v /\
    forall x, x < target \/ target + size <= x -> h' !! x = w_host w !! x
  else
    vart_memory_region_write (Some r) guest_addr (Some data) size w = Ok (-ERANGE, w).
Proof.
  intros Hv Hh Hg Hsz Ha Hmap Hne size target.
  assert (0 < size) as Hpos by (subst size; destruct data; [done|cbn; lia]).
  destruct (access_cases r v host w guest_addr data size true Hv Hh Hg Hsz Ha Hpos)
    as [[Hin E]|[Hout E]]; unfold inside in *.
  2: { rewrite decide_False by done. unfold vart_memory_region_write. by rewrite (bind_eq _ _ _ _ _ E). }
  rewrite decide_True by done. fold target in E.
  pose proof (copy_ram_correct target data size true w ltac:(lia) ltac:(lia)
    ltac:(eapply mapped_sub; [exact Hmap|subst target; lia..]))
    as ([err buf] & w1 & Ec & -> & h' & Hm & -> & ->)%wp_ok.
  replace (Z.to_nat size) with (length data) in Hm by lia. rewrite firstn_all in Hm.
  exists h'. split_and!.
  - unfold vart_memory_region_write. rewrite Ec in E. by rewrite (bind_eq _ _ _ _ _ E).
  - set (w1 := w <| w_host := h' |>).
    destruct (access_cases r v host w1 guest_addr (repeat 0 (length data)) size
      false Hv Hh Hg Hsz Ha Hpos) as [[_ E']|[Hout _]]; [|done].
    etrans; [exact E'|]. fold target. unfold copy_ram.
    rewrite repeat_length. destruct (Z.ltb_spec (Z.of_nat (length data)) size); [lia|].
    unfold host_read. run_unfold. cbn.
    replace (Z.to_nat size) with (length data) by lia.
    rewrite (mem_read_write_same _ _ _ _ Hm).
    by rewrite drop_ge, app_nil_r by (rewrite repeat_length; lia).
  - subst target. lia.
  - subst target. lia.
  - intros x Hx. rewrite (mem_write_lookup _ _ _ _ _ Hm). case_decide; [lia|done].
Qed.

(** * A concrete memory region: one page of 64 bytes at 0x80000000. *)
Module MemoryDemo.
Import AddressSpace.Demo.

#[export] Instance os : HostOs := {|
  sysconf_page_size := 64;
  call_mmap n :=
    modify (fun w => w <| w_host ::= fun h => mem_map h 0x1000 (Z.to_nat n) |>) ;;;
    ret (inr 0x1000);
  call_munmap _ _ := ret tt;
  call_set_user_memory _ _ _ _ := ret 0;
|}.

Definition mem : ptr := 1%positive.
Definition embedded : ptr := 4%positive.
Definition m0 := exec (vart_address_space_init sys)
  (empty_world <| w_memory := {[mem := zero_memory embedded]} |>).
Definition m1 := exec (vart_memory_region_create mem 0x80000000 64 0) m0.
Definition m2 := exec (vart_memory_region_map (Some mem) (Some sys)) m1.
Definition region : VartMemoryRegion :=
  mkMemoryRegion (Some 0x1000) 0x80000000 64 0 false embedded false.
Definition region2 := region <| mem_address_space_mapped := true |>.

Lemma m1_spaces_ok : spaces_ok m1.
Proof.
  assert (spaces_ok empty_world) as H0 by apply empty_heap_ok.
  assert (spaces_ok (exec (vart_address_space_init sys) empty_world)) as H1.
  { eapply (as_step_heap_ok empty_world); [apply empty_heap_ok|].
    apply (as_space_init _ _ sys); [by intros|]. vm_compute. reflexivity. }
  assert (spaces_ok ((exec (vart_address_space_init sys) empty_world)
    <| w_regions ::= <[embedded := zero_region]> |>)) as H2.
  { apply store_free_region_ok; [done| |done]. intros v. cbn. by rewrite lookup_empty. }
  eapply spaces_ok_ext; [..|exact H2]; vm_compute; reflexivity.
Qed.

Lemma mem_mappable : mappable m1 mem.
Proof.
  exists region. split_and!; try (unfold u64_ok; cbn; lia).
  - vm_compute. reflexivity.
  - intros v Hv. vm_compute in Hv. injection Hv as <-. reflexivity.
Qed.

Definition m2_space : VartAddressSpace := mkSpace [embedded] 8 None None.

Lemma m2_resolves : resolves m2 sys 0x80000008 4 (Some embedded).
Proof.
  exists m2_space. split; [vm_compute; reflexivity|]. eexists.
  split_and!; [set_solver|vm_compute; reflexivity|repeat split; vm_compute; discriminate|].
  intros r v ->%list_elem_of_singleton Hv _. vm_compute in Hv. injection Hv as <-.
  vm_compute. discriminate.
Qed.

#[local] Instance no_translate : TranslateCallbacks :=
  fun _ _ _ _ _ _ => ret (-EINVAL, None, 0).

Lemma memory_paths_agree_witness :
  inside region2 0x80000008 4 /\
  memory_region_access (Some mem) 0x80000008 (Some [1; 2; 3; 4]) 4 true m2 =
  address_space_buffer_access 1 sys 0x80000008 (Some [1; 2; 3; 4]) 4 true m2.
Proof.
  apply (memory_paths_agree mem sys region2 m1 m2 0x80000008 [1; 2; 3; 4] 4 true 0).
  - apply m1_spaces_ok.
  - apply mem_mappable.
  - vm_compute. reflexivity.
  - exists m2_space. split; vm_compute; reflexivity.
  - vm_compute. reflexivity.
  - unfold u64_ok. cbn. lia.
  - unfold u64_ok. cbn. lia.
  - unfold u64_ok. lia.
  - lia.
  - apply m2_resolves.
Defined.

Lemma m1_mapped : mapped (w_host m1) 0x1000 64.
Proof.
  change (w_host m1) with (mem_map ∅ 0x1000 64). intros x Hx.
  rewrite mem_map_lookup, decide_True by lia. by eexists.
Qed.

Lemma memory_access_bounds_witness :
  exists h',
    vart_memory_region_write (Some mem) 0x8000003e (Some [7; 9]) 2 m1 =
      Ok (0, m1 <| w_host := h' |>) /\
    vart_memory_region_read (Some mem) 0x8000003e (Some [0; 0]) 2
      (m1 <| w_host := h' |>) = Ok ((0, Some [7; 9]), m1 <| w_host := h' |>) /\
    0x1000 <= 0x103e /\ 0x103e + 2 <= 0x1000 + 64 /\
    forall x, x < 0x103e \/ 0x103e + 2 <= x -> h' !! x = w_host m1 !! x.
Proof.
  pose proof (memory_access_bounds mem region 0x1000 m1 0x8000003e [7; 9]
    ltac:(vm_compute; reflexivity) eq_refl ltac:(unfold u64_ok; cbn; lia)
    ltac:(unfold u64_ok; cbn; lia) ltac:(unfold u64_ok; lia) m1_mapped ltac:(done)) as H.
  cbv zeta in H. rewrite decide_True in H by (cbn; lia). exact H.
Defined.
End MemoryDemo.
