(* ===== verification/Virtio.v ===== *)
(** The virtio transport core: [src/hw/virtio/virtio.c].

    A device has negotiated features, a status byte and an array of split
    virtqueues; [vart_virtio_queue_pop] follows a descriptor chain that the guest
    driver laid out in its own memory and [vart_virtio_queue_push_used] returns a
    buffer.  Guest memory is reached only through the DMA callbacks of the queue;
    what they do is a parameter, so the theorems hold for a driver that rewrites
    the rings at any time. *)

From stdpp Require Import base tactics numbers list gmap.
From Stdlib Require Import ZArith Lia.
From S2P Require Import Prelude Bytes Machine.

(** The structs are in [Machine.v]. *)


Abbreviation VIRTIO_DESCRIPTOR_SIZE := 16 (only parsing).
Abbreviation VIRTIO_AVAILABLE_HEADER_SIZE := 4 (only parsing).
Abbreviation VIRTIO_USED_HEADER_SIZE := 4 (only parsing).
Abbreviation VIRTIO_USED_ELEMENT_SIZE := 8 (only parsing).
Abbreviation VART_VIRTIO_STATUS_MASK := 0xcf (only parsing).
Abbreviation VART_VIRTIO_DESC_F_NEXT := 1 (only parsing).
Abbreviation VART_VIRTIO_DESC_F_WRITE := 2 (only parsing).
Abbreviation VART_VIRTIO_DESC_F_INDIRECT := 4 (only parsing).
Abbreviation VART_VIRTIO_DESC_F_MASK := 7 (only parsing).
Abbreviation VART_VIRTIO_MAX_QUEUE_SIZE := 1024 (only parsing).
Abbreviation VART_VIRTIO_MAX_QUEUES := 256 (only parsing).

(** * DMA *)

(** The DMA functions run in an environment [E] of their own (guest memory, the
    IOMMU); a read returns the error code and the buffer, given its previous
    contents, a write the error code; [call_calloc] says whether the next
    allocation succeeds. *)
Class VirtioDma (E : Type) := {
  call_calloc : M E bool;
  call_dma_read : fnptr -> option ptr -> Z -> list Z -> M E (Z * list Z);
  call_dma_write : fnptr -> option ptr -> Z -> list Z -> M E Z;
}.

(** The state of the code: the device and the environment. *)
Record VirtioState (E : Type) := mkState {
  vs_device : VartVirtioDevice;
  vs_env : E;
}.
Arguments mkState {E}.
Arguments vs_device {E}.
Arguments vs_env {E}.

Section Ops.
Context {E : Type} `{VirtioDma E}.
Abbreviation St := (VirtioState E).

Definition in_env {A} (m : M E A) : M St A := fun s =>
  match m (vs_env s) with
  | Ok (a, e) => Ok (a, mkState (vs_device s) e)
  | UB => UB
  | NoFuel => NoFuel
  end.
Definition load_virtio : M St VartVirtioDevice := gets vs_device.
Definition store_virtio (d : VartVirtioDevice) : M St unit :=
  modify (fun s => mkState d (vs_env s)).

(** ** Little-endian fields *)
Definition virtio_load_le16 (data : list Z) : M St Z :=
  match data with
  | b0 :: b1 :: _ => ret (Z.lor b0 (Z.shiftl b1 8))
  | _ => undefined
  end.
Definition virtio_load_le32 (data : list Z) : M St Z :=
  match data with
  | b0 :: b1 :: b2 :: b3 :: _ =>
      ret (Z.lor (Z.lor (Z.lor b0 (Z.shiftl b1 8)) (Z.shiftl b2 16)) (Z.shiftl b3 24))
  | _ => undefined
  end.
Definition virtio_load_le64 (data : list Z) : M St Z :=
  if (8 <=? length data)%nat then ret (load_le (take 8 data)) else undefined.
Definition virtio_store_le16 (value : Z) : list Z :=
  [u8 value; u8 (Z.shiftr value 8)].
Definition virtio_store_le32 (value : Z) : list Z :=
  [u8 value; u8 (Z.shiftr value 8); u8 (Z.shiftr value 16); u8 (Z.shiftr value 24)].

Definition virtio_address_range_valid (address size : Z) : bool :=
  (size =? 0) || (address <=? UINT64_MAX - (size - 1)).

(** ** Queues of the device *)

(** The queue at [queue_index], or the error code. *)
Definition virtio_queue_get (queue_index : Z) : M St (Z + VartVirtioQueue) :=
  let* device := load_virtio in
  match v_queues device with
  | None => ret (inl (-EINVAL))
  | Some queues =>
      if Z.of_nat (length queues) <=? queue_index then ret (inl (-EINVAL))
      else
        let* queue := deref (queues !! Z.to_nat queue_index) in
        if negb (q_ready queue) then ret (inl (-ENODEV)) else ret (inr queue)
  end.

(** [*queue = v] through the pointer [&device->queues[queue_index]]. *)
Definition store_queue (queue_index : Z) (v : VartVirtioQueue) : M St unit :=
  let* device := load_virtio in
  store_virtio (device <| v_queues ::= fmap (<[Z.to_nat queue_index := v]>) |>).

Definition virtio_queue_read (queue : VartVirtioQueue) (address : Z)
    (size : nat) : M St (Z * list Z) :=
  match dma_read (q_dma queue) with
  | None => ret (-ENOSYS, repeat 0 size)
  | Some f => in_env (call_dma_read f (dma_opaque (q_dma queue)) address (repeat 0 size))
  end.

Definition virtio_queue_write (queue : VartVirtioQueue) (address : Z)
    (data : list Z) : M St Z :=
  match dma_write (q_dma queue) with
  | None => ret (-ENOSYS)
  | Some f => in_env (call_dma_write f (dma_opaque (q_dma queue)) address data)
  end.

Definition zero_queue : VartVirtioQueue :=
  mkQueue 0 0 0 0 0 0 (mkDmaOps None None None) false.
Definition zero_virtio : VartVirtioDevice := mkVirtio 0 0 0 0 None.

Definition vart_virtio_device_init (device_id device_features
    queue_count : Z) (dma : option VartVirtioDmaOps) : M St Z :=
  match dma with
  | None => ret (-EINVAL)
  | Some ops =>
      if (queue_count =? 0) || (VART_VIRTIO_MAX_QUEUES <? queue_count) ||
         bool_decide (dma_read ops = None) || bool_decide (dma_write ops = None)
      then ret (-EINVAL)
      else
        store_virtio zero_virtio ;;;
        let* allocated := in_env call_calloc in
        if negb allocated then ret (-ENOMEM)
        else
          store_virtio (mkVirtio device_id device_features 0 0
            (Some (repeat (zero_queue <| q_dma := ops |>) (Z.to_nat queue_count)))) ;;;
          ret 0
  end.

Definition vart_virtio_device_destroy : M St unit := store_virtio zero_virtio.

Definition vart_virtio_device_set_features (driver_features : Z) : M St Z :=
  let* device := load_virtio in
  if negb (Z.land driver_features (u64 (Z.lnot (v_device_features device))) =? 0)
  then ret (-EINVAL)
  else store_virtio (device <| v_driver_features := driver_features |>) ;;; ret 0.

Definition reset_queue_state (q : VartVirtioQueue) : VartVirtioQueue :=
  q <| q_ready := false |> <| q_last_avail := 0 |> <| q_next_used := 0 |>.

Definition vart_virtio_device_set_status (status : Z) : M St Z :=
  let* device := load_virtio in
  if negb (Z.land status (Z.lnot VART_VIRTIO_STATUS_MASK) =? 0) then ret (-EINVAL)
  else
    let device :=
      if status =? 0 then
        device <| v_queues ::= fmap (map reset_queue_state) |>
               <| v_driver_features := 0 |>
      else device in
    store_virtio (device <| v_status := status |>) ;;; ret 0.

Definition vart_virtio_queue_configure (queue_index queue_size
    descriptor_address available_address used_address : Z) : M St Z :=
  let* device := load_virtio in
  match v_queues device with
  | None => ret (-EINVAL)
  | Some queues =>
      if (Z.of_nat (length queues) <=? queue_index) || (queue_size =? 0) ||
         (VART_VIRTIO_MAX_QUEUE_SIZE <? queue_size) ||
         negb (Z.land queue_size (queue_size - 1) =? 0) ||
         negb (Z.land descriptor_address 15 =? 0) ||
         negb (Z.land available_address 1 =? 0) ||
         negb (Z.land used_address 3 =? 0)
      then ret (-EINVAL)
      else
        let* queue := deref (queues !! Z.to_nat queue_index) in
        if q_ready queue then ret (-EBUSY)
        else
          let descriptor_size := queue_size * VIRTIO_DESCRIPTOR_SIZE in
          let available_size := VIRTIO_AVAILABLE_HEADER_SIZE + queue_size * 2 in
          let used_size :=
            VIRTIO_USED_HEADER_SIZE + queue_size * VIRTIO_USED_ELEMENT_SIZE in
          if negb (virtio_address_range_valid descriptor_address descriptor_size) ||
             negb (virtio_address_range_valid available_address available_size) ||
             negb (virtio_address_range_valid used_address used_size)
          then ret (-EOVERFLOW)
          else
            store_queue queue_index (queue <| q_size := queue_size |>
              <| q_last_avail := 0 |> <| q_next_used := 0 |>
              <| q_descriptor_address := descriptor_address |>
              <| q_available_address := available_address |>
              <| q_used_address := used_address |> <| q_ready := true |>) ;;;
            ret 0
  end.

Definition vart_virtio_queue_reset (queue_index : Z) : M St Z :=
  let* device := load_virtio in
  match v_queues device with
  | None => ret (-EINVAL)
  | Some queues =>
      if Z.of_nat (length queues) <=? queue_index then ret (-EINVAL)
      else
        let* queue := deref (queues !! Z.to_nat queue_index) in
        store_queue queue_index (queue <| q_ready := false |> <| q_size := 0 |>
          <| q_last_avail := 0 |> <| q_next_used := 0 |>) ;;;
        ret 0
  end.

(** ** Popping a chain *)

Definition load_descriptor (raw : list Z) : M St VartVirtioDescriptor :=
  let* address := virtio_load_le64 raw in
  let* length := virtio_load_le32 (drop 8 raw) in
  let* flags := virtio_load_le16 (drop 12 raw) in
  let* next := virtio_load_le16 (drop 14 raw) in
  ret (mkDescriptor address length flags next).

(** The [for] loop.  [visited] is the array of 1024 flags; reading or writing
    outside it, or storing a descriptor past the end of the chain's array, is
    undefined behaviour.  Returns the error code and the chain. *)
Fixpoint pop_loop (fuel : nat) (queue : VartVirtioQueue) (visited : list bool)
    (descriptor_index : Z) (chain : VartVirtioChain) (count : Z)
    : M St (Z * VartVirtioChain) :=
  match fuel with
  | O => out_of_fuel
  | S fuel =>
      let descriptor_address := u64 (q_descriptor_address queue +
        descriptor_index * VIRTIO_DESCRIPTOR_SIZE) in
      let* seen := deref (visited !! Z.to_nat descriptor_index) in
      if seen : bool then ret (-ELOOP, chain)
      else
        let visited := <[Z.to_nat descriptor_index := true]> visited in
        let* (err, raw) := virtio_queue_read queue descriptor_address
                             (Z.to_nat VIRTIO_DESCRIPTOR_SIZE) in
        if err <? 0 then ret (err, chain)
        else if VART_VIRTIO_MAX_QUEUE_SIZE <=? count then undefined
        else
          let* descriptor := load_descriptor raw in
          let chain := chain <| ch_descriptors ::= fun l => l ++ [descriptor] |> in
          let count := count + 1 in
          if bits (d_flags descriptor) VART_VIRTIO_DESC_F_INDIRECT
          then ret (-ENOTSUP, chain)
          else if bits (d_flags descriptor) (Z.lnot VART_VIRTIO_DESC_F_MASK)
          then ret (-EPROTO, chain)
          else if negb (bits (d_flags descriptor) VART_VIRTIO_DESC_F_NEXT)
          then ret (0, chain <| ch_count := count |>)
          else if (q_size queue <=? d_next descriptor) ||
                  (count =? VART_VIRTIO_MAX_QUEUE_SIZE)
          then ret (-EPROTO, chain)
          else pop_loop fuel queue visited (d_next descriptor) chain count
  end.

(** Returns the error code and [*chain] afterwards. *)
Definition vart_virtio_queue_pop (fuel : nat) (queue_index : Z)
    (chain : option VartVirtioChain) : M St (Z * option VartVirtioChain) :=
  match chain with
  | None => ret (-EINVAL, None)
  | Some _ =>
      let* r := virtio_queue_get queue_index in
      match r with
      | inl err => ret (err, chain)
      | inr queue =>
          let* (err, raw) := virtio_queue_read queue
            (u64 (q_available_address queue + 2)) 2 in
          if err <? 0 then ret (err, chain)
          else
            let* available_index := virtio_load_le16 raw in
            if available_index =? q_last_avail queue then ret (-EAGAIN, chain)
            else
              let pending := u16 (available_index - q_last_avail queue) in
              if q_size queue <? pending then ret (-EPROTO, chain)
              else if q_size queue =? 0 then undefined
              else
                let* (err, raw) := virtio_queue_read queue
                  (u64 (q_available_address queue + VIRTIO_AVAILABLE_HEADER_SIZE +
                     q_last_avail queue mod q_size queue * 2)) 2 in
                if err <? 0 then ret (err, chain)
                else
                  let* head := virtio_load_le16 raw in
                  if q_size queue <=? head then ret (-EPROTO, chain)
                  else
                    let* (err, filled) := pop_loop fuel queue
                      (repeat false (Z.to_nat VART_VIRTIO_MAX_QUEUE_SIZE)) head
                      (mkChain head 0 []) 0 in
                    if err <? 0 then ret (err, Some filled)
                    else
                      store_queue queue_index
                        (queue <| q_last_avail := u16 (q_last_avail queue + 1) |>) ;;;
                      ret (0, Some filled)
      end
  end.

Definition vart_virtio_queue_push_used (queue_index head length : Z) : M St Z :=
  let* r := virtio_queue_get queue_index in
  match r with
  | inl err => ret err
  | inr queue =>
      if q_size queue <=? head then ret (-EINVAL)
      else if q_size queue =? 0 then undefined
      else
        let used_element_address := u64 (q_used_address queue +
          VIRTIO_USED_HEADER_SIZE +
          q_next_used queue mod q_size queue * VIRTIO_USED_ELEMENT_SIZE) in
        let raw_used := virtio_store_le32 head ++ virtio_store_le32 length in
        let* err := virtio_queue_write queue used_element_address raw_used in
        if err <? 0 then ret err
        else
          let used_index := u16 (q_next_used queue + 1) in
          store_queue queue_index (queue <| q_next_used := used_index |>) ;;;
          virtio_queue_write queue (u64 (q_used_address queue + 2))
            (virtio_store_le16 used_index)
  end.
End Ops.

(** * Well-formed devices *)

(** What [vart_virtio_queue_configure] establishes of a ready queue. *)
Record queue_ready_ok (q : VartVirtioQueue) : Prop := {
  qr_size : exists k, 0 <= k <= 10 /\ q_size q = 2 ^ k;
  qr_descriptors : q_descriptor_address q mod 16 = 0 /\
    0 <= q_descriptor_address q /\
    q_descriptor_address q + 16 * q_size q <= 2 ^ 64;
  qr_available : q_available_address q mod 2 = 0 /\ 0 <= q_available_address q /\
    q_available_address q + 4 + 2 * q_size q <= 2 ^ 64;
  qr_used : q_used_address q mod 4 = 0 /\ 0 <= q_used_address q /\
    q_used_address q + 4 + 8 * q_size q <= 2 ^ 64;
}.

Record queue_ok (q : VartVirtioQueue) : Prop := {
  qo_last_avail : 0 <= q_last_avail q <= UINT16_MAX;
  qo_next_used : 0 <= q_next_used q <= UINT16_MAX;
  qo_ready : q_ready q = true -> queue_ready_ok q;
}.

(** The driver's features are among those offered; every queue is well formed. *)
Record device_ok (d : VartVirtioDevice) : Prop := {
  do_features : Z.land (v_driver_features d) (u64 (Z.lnot (v_device_features d))) = 0;
  do_queues : forall queues, v_queues d = Some queues ->
    Forall queue_ok queues /\ Z.of_nat (length queues) <= 256;
}.

Lemma queue_size_range q : queue_ready_ok q -> 1 <= q_size q <= 1024.
Proof.
  intros [(k & Hk & ->) _ _ _].
  assert (2 ^ k <= 2 ^ 10) by (apply Z.pow_le_mono_r; lia).
  assert (0 < 2 ^ k) by lia. lia.
Qed.

(** * Popping: safety against any driver *)

Definition u64_arg (x : Z) : Prop := 0 <= x <= UINT64_MAX.

(** A buffer that a device transfers. *)
Definition buffer_ok (buf : list Z) : Prop :=
  Forall byte_ok buf /\ Z.of_nat (length buf) <= UINT32_MAX.

(** What a client of the queues relies on: from the states of the environment
    that satisfy [I], the DMA functions [ops] return, a read with as many bytes as
    were asked for (on failure too the buffer keeps its length), and [I] is kept. *)
Class DmaTotal (E : Type) `{VirtioDma E} (ops : VartVirtioDmaOps) (I : E -> Prop)
    : Prop := {
  dma_read_total f a buf e : dma_read ops = Some f -> u64_arg a ->
    buffer_ok buf -> I e ->
    exists err data e', call_dma_read f (dma_opaque ops) a buf e = Ok ((err, data), e') /\
      length data = length buf /\ Forall byte_ok data /\ I e';
  dma_write_total f a data e : dma_write ops = Some f -> u64_arg a ->
    buffer_ok data -> I e ->
    exists err e', call_dma_write f (dma_opaque ops) a data e = Ok (err, e') /\ I e';
}.

(** The fields of a descriptor have their widths. *)
Record descriptor_ok (d : VartVirtioDescriptor) : Prop := {
  dk_address : u64_arg (d_address d);
  dk_length : 0 <= d_length d <= UINT32_MAX;
  dk_flags : 0 <= d_flags d <= UINT16_MAX;
  dk_next : 0 <= d_next d <= UINT16_MAX;
}.

(** A descriptor whose flags the device accepts. *)
Definition flags_ok (d : VartVirtioDescriptor) : Prop :=
  bits (d_flags d) VART_VIRTIO_DESC_F_INDIRECT = false /\
  bits (d_flags d) (Z.lnot VART_VIRTIO_DESC_F_MASK) = false.
Definition has_next (d : VartVirtioDescriptor) : bool :=
  bits (d_flags d) VART_VIRTIO_DESC_F_NEXT.

(** Descriptors linked by NEXT up to a last one. *)
Fixpoint chain_shape (size : Z) (l : list VartVirtioDescriptor) : Prop :=
  match l with
  | [] => False
  | [d] => flags_ok d /\ has_next d = false
  | d :: rest => flags_ok d /\ has_next d = true /\ 0 <= d_next d < size /\
                 chain_shape size rest
  end.

(** Distinct indices below [size] are at most [size] many. *)
Lemma distinct_indices_bound (l : list Z) size :
  NoDup l -> Forall (fun i => 0 <= i < size) l -> 0 <= size ->
  Z.of_nat (length l) <= size.
Proof.
  intros Hnd Hr Hs.
  assert (l ⊆ seqZ 0 size) as Hsub.
  { intros i Hi. apply elem_of_seqZ. eapply Forall_forall in Hr; [|exact Hi]. lia. }
  apply NoDup_submseteq in Hsub; [|done]. apply submseteq_length in Hsub.
  rewrite length_seqZ in Hsub. lia.
Qed.

(** The [visited] array marks exactly the indices of [l]. *)
Definition marks (visited : list bool) (l : list Z) : Prop :=
  length visited = 1024%nat /\
  forall i, 0 <= i < 1024 -> visited !! Z.to_nat i = Some (bool_decide (i ∈ l)).

Lemma marks_none : marks (repeat false 1024) [].
Proof.
  split; [done|]. intros i Hi. rewrite bool_decide_false by set_solver.
  assert (Z.to_nat i < 1024)%nat as Hn by lia. revert Hn. generalize (Z.to_nat i) as n.
  intros n. generalize 1024%nat. intros m. revert n.
  induction m as [|m IH]; intros [|n] Hn; cbn; try lia; [done|]. apply IH. lia.
Qed.

Lemma marks_insert visited l i :
  marks visited l -> 0 <= i < 1024 ->
  marks (<[Z.to_nat i := true]> visited) (l ++ [i]).
Proof.
  intros [Hl Hm] Hi. split; [by rewrite length_insert|]. intros j Hj.
  destruct (decide (j = i)) as [->|Hne].
  - rewrite list_lookup_insert_eq by lia. by rewrite bool_decide_true by set_solver.
  - rewrite list_lookup_insert_ne by lia. rewrite Hm by done. f_equal.
    apply bool_decide_ext. set_solver.
Qed.

Section PopSafe.
Context {E : Type} `{VirtioDma E} {ops : VartVirtioDmaOps} {I : E -> Prop}
  `{HD : !DmaTotal E ops I}.

Lemma queue_read_total q a n (s : VirtioState E) :
  q_dma q = ops -> u64_arg a -> Z.of_nat n <= UINT32_MAX -> I (vs_env s) ->
  wp (virtio_queue_read q a n)
    (fun '(err, data) s' => (vs_device s' = vs_device s /\ I (vs_env s')) /\
       length data = n /\ Forall byte_ok data) s.
Proof using HD.
  intros Hops Ha Hn HI. unfold virtio_queue_read. rewrite Hops.
  assert (buffer_ok (repeat 0 n)) as Hz.
  { split; [|by rewrite repeat_length].
    apply Forall_forall. intros x Hx%list_elem_of_In%repeat_spec. by subst. }
  destruct (dma_read ops) as [f|] eqn:Hf.
  - destruct (dma_read_total f a (repeat 0 n) (vs_env s) Hf Ha Hz HI)
      as (err & data & e' & Hr & Hl & Hb & HI').
    unfold wp, in_env. rewrite Hr. cbn. rewrite repeat_length in Hl. done.
  - apply wp_ret. split_and!; [done|done|apply repeat_length|apply Hz].
Qed.

Lemma load_le16_total data (s : VirtioState E) :
  (2 <= length data)%nat -> Forall byte_ok data ->
  exists v, virtio_load_le16 data s = Ok (v, s) /\ 0 <= v <= UINT16_MAX.
Proof.
  intros Hl Hb. destruct data as [|b0 [|b1 rest]]; cbn in Hl; try lia.
  rewrite !Forall_cons in Hb. destruct Hb as (H0 & H1 & _). unfold byte_ok in *.
  eexists. split; [done|]. rewrite lor_shiftl_add by lia. lia.
Qed.

Lemma load_le16_frame data (s : VirtioState E) v s' :
  virtio_load_le16 data s = Ok (v, s') -> s' = s.
Proof. destruct data as [|? [|]]; [done|done|]. by intros [= _ <-]. Qed.
Lemma load_le32_frame data (s : VirtioState E) v s' :
  virtio_load_le32 data s = Ok (v, s') -> s' = s.
Proof. destruct data as [|? [|? [|? [|]]]]; try done. by intros [= _ <-]. Qed.
Lemma load_descriptor_frame raw (s : VirtioState E) d s' :
  load_descriptor raw s = Ok (d, s') -> s' = s.
Proof.
  unfold load_descriptor, virtio_load_le64. intros Hl.
  apply bind_Ok in Hl as (? & ? & H64 & Hl). destruct (Nat.leb 8 (length raw)); [|done].
  unfold ret in H64. simplify_eq.
  apply bind_Ok in Hl as (? & ? & ->%load_le32_frame & Hl).
  apply bind_Ok in Hl as (? & ? & ->%load_le16_frame & Hl).
  apply bind_Ok in Hl as (? & ? & ->%load_le16_frame & Hl). unfold ret in Hl. by simplify_eq.
Qed.

Lemma load_descriptor_total raw (s : VirtioState E) :
  length raw = 16%nat -> Forall byte_ok raw ->
  exists d, load_descriptor raw s = Ok (d, s) /\ descriptor_ok d.
Proof.
  intros Hl Hb. unfold load_descriptor, virtio_load_le64. rewrite Hl. cbn [Nat.leb].
  assert (Forall byte_ok (take 8 raw)) as H8 by (by apply Forall_take).
  assert (length (take 8 raw) = 8%nat) as Hl8 by (rewrite length_take; lia).
  pose proof (load_le64_range _ H8 Hl8).
  do 16 (destruct raw as [|? raw]; [done|]). destruct raw; [|done].
  rewrite !Forall_cons in Hb. destruct_and!. unfold byte_ok in *.
  eexists. split; [done|]. split; cbn -[load_le take]; [done|..];
    repeat match goal with |- context [Z.lor ?a (Z.shiftl ?b ?k)] =>
      lazymatch a with Z.lor _ _ => fail | _ => rewrite (lor_shiftl_add a b k) by lia end end;
    lia.
Qed.

Lemma pop_loop_safe q fuel : q_dma q = ops ->
  forall visited l i chain count (s : VirtioState E), I (vs_env s) ->
  queue_ready_ok q -> 0 <= i < q_size q -> marks visited l -> NoDup l ->
  Forall (fun j => 0 <= j < q_size q) l -> count = Z.of_nat (length l) ->
  length (ch_descriptors chain) = length l ->
  q_size q - count < Z.of_nat fuel ->
  wp (pop_loop fuel q visited i chain count)
    (fun '(err, chain') s' => (vs_device s' = vs_device s /\ I (vs_env s')) /\
       (err < 0 \/
        err = 0 /\ ch_head chain' = ch_head chain /\
        ch_count chain' = Z.of_nat (length (ch_descriptors chain')) /\
        ch_count chain' <= q_size q /\
        exists rest, ch_descriptors chain' = ch_descriptors chain ++ rest /\
          chain_shape (q_size q) rest /\ Forall descriptor_ok rest)) s.
Proof using HD.
  intros Hops. induction fuel as [|fuel IH];
    intros visited l i chain count s HI Hq Hi Hm Hnd Hr -> Hlen Hf.
  { pose proof (distinct_indices_bound l (q_size q) Hnd Hr ltac:(lia)). lia. }
  pose proof (queue_size_range q Hq) as Hsz. cbn [pop_loop]. apply wp_bind.
  eapply wp_deref; [apply Hm; lia|]. case_bool_decide as Hin.
  { apply wp_ret. split; [done|left; lia]. }
  apply wp_bind. eapply wp_mono; [apply queue_read_total; [done|apply u64_range|lia|done]|].
  intros [err raw] s1 ([Hdev1 HI1] & Hl1 & Hb1). cbv beta iota.
  destruct (Z.ltb_spec err 0) as [|Herr]; [apply wp_ret; by auto|].
  assert (Z.of_nat (length (l ++ [i])) <= q_size q) as Hbound.
  { apply distinct_indices_bound; [|apply Forall_app_2; [done|by apply Forall_singleton]|lia].
    apply NoDup_app. split_and!; [done|set_solver|apply NoDup_singleton]. }
  rewrite length_app in Hbound. cbn in Hbound.
  destruct (Z.leb_spec 1024 (Z.of_nat (length l))); [lia|].
  destruct (load_descriptor_total raw s1 Hl1 Hb1) as (d & Hd & Hdok).
  pose proof (dk_next _ Hdok) as Hnext.
  apply wp_bind. unfold wp at 1. rewrite Hd.
  destruct (bits (d_flags d) 4) eqn:Hind; [apply wp_ret; split; [done|left; lia]|].
  destruct (bits (d_flags d) (Z.lnot 7)) eqn:Hunk; [apply wp_ret; split; [done|left; lia]|].
  destruct (bits (d_flags d) 1) eqn:Hnx; cbn [negb].
  2: { apply wp_ret. split; [done|]. right. cbn. rewrite length_app. cbn.
       split_and!; [done|done|lia|lia|]. exists [d]. split; [done|].
       split; [by repeat split|by apply Forall_singleton]. }
  destruct (Z.leb_spec (q_size q) (d_next d)); [apply wp_ret; split; [done|left; lia]|].
  cbn [orb]. destruct (Z.eqb_spec (Z.of_nat (length l) + 1) 1024) as [Hfull|].
  { apply wp_ret. split; [done|left; lia]. }
  eapply wp_mono.
  - apply (IH _ (l ++ [i]) (d_next d)); try done; try lia.
    + apply marks_insert; [done|lia].
    + apply NoDup_app. split_and!; [done|set_solver|apply NoDup_singleton].
    + apply Forall_app_2; [done|by apply Forall_singleton].
    + rewrite length_app. cbn. lia.
    + cbn. rewrite !length_app. cbn. lia.
  - intros [err' chain'] s' [[Hdev HI'] [|(-> & Hh & Hc & Hle & rest & Hrest & Hshape & Hall)]];
      (split; [split; [congruence|done]|]); [by left|].
    right. split_and!; try done. exists (d :: rest). cbn in Hrest.
    rewrite <- app_assoc in Hrest. split; [done|]. split; [|by constructor].
    destruct rest as [|d' rest]; [done|]. split; [by split|]. split; [done|]. split; [lia|done].
Qed.
End PopSafe.

(** * Popping: the descriptor chain in guest memory *)

(** DMA reads that come from a memory which does not change meanwhile:
    [load e a n] is the [n] bytes at [a]. *)
Class DmaMemory (E : Type) `{VirtioDma E} (load : E -> Z -> nat -> list Z) : Prop := {
  dma_read_memory f o a buf e :
    call_dma_read f o a buf e = Ok ((0, load e a (length buf)), e);
  load_length e a n : length (load e a n) = n;
  load_bytes e a n : Forall byte_ok (load e a n);
}.

Definition parse_descriptor (raw : list Z) : VartVirtioDescriptor :=
  mkDescriptor (load_le (take 8 raw)) (load_le (take 4 (drop 8 raw)))
    (load_le (take 2 (drop 12 raw))) (load_le (take 2 (drop 14 raw))).

(** The indices of a well-formed chain that starts at [i]: distinct, in range,
    linked by NEXT, ending in a descriptor without it. *)
Inductive is_chain (size : Z) (desc : Z -> VartVirtioDescriptor) : Z -> list Z -> Prop :=
| chain_last i : 0 <= i < size -> flags_ok (desc i) -> has_next (desc i) = false ->
    is_chain size desc i [i]
| chain_link i l : 0 <= i < size -> flags_ok (desc i) -> has_next (desc i) = true ->
    is_chain size desc (d_next (desc i)) l -> i ∉ l ->
    is_chain size desc i (i :: l).

Lemma is_chain_facts size desc i l :
  is_chain size desc i l ->
  NoDup l /\ Forall (fun j => 0 <= j < size) l /\ (1 <= length l)%nat /\ i ∈ l.
Proof.
  induction 1 as [i Hi|i l Hi _ _ _ (IH1 & IH2 & IH3 & _) Hn].
  - split_and!; [apply NoDup_singleton|by apply Forall_singleton|done|set_solver].
  - split_and!; [by constructor|by constructor|cbn; lia|set_solver].
Qed.

Section PopMemory.
Context {E : Type} `{VirtioDma E} {load : E -> Z -> nat -> list Z} `{HM : !DmaMemory E load}.
Implicit Types s : VirtioState E.

Definition queue_readable (q : VartVirtioQueue) : Prop := is_Some (dma_read (q_dma q)).

Definition descriptor_at (e : E) (q : VartVirtioQueue) (i : Z) : VartVirtioDescriptor :=
  parse_descriptor (load e (q_descriptor_address q + 16 * i) 16).

Lemma queue_read_memory q a n s :
  queue_readable q -> virtio_queue_read q a n s = Ok ((0, load (vs_env s) a n), s).
Proof using HM.
  intros [f Hf]. unfold virtio_queue_read, in_env. rewrite Hf, dma_read_memory, repeat_length.
  by destruct s.
Qed.

Lemma load_le16_memory data s :
  length data = 2%nat -> virtio_load_le16 data s = Ok (load_le data, s).
Proof.
  intros Hl. by destruct data as [|b0 [|b1 [|? ?]]].
Qed.

Lemma load_descriptor_memory raw s :
  length raw = 16%nat -> load_descriptor raw s = Ok (parse_descriptor raw, s).
Proof.
  intros Hl. do 16 (destruct raw as [|? raw]; [done|]). destruct raw; [|done].
  unfold load_descriptor, parse_descriptor, load_le.
  cbn [take drop length Nat.leb virtio_load_le64 virtio_load_le32 virtio_load_le16 load_le_loop].
  unfold virtio_load_le64, bind, ret, load_le. cbn [length Nat.leb take load_le_loop].
  by rewrite !Z.shiftl_0_r, !Z.lor_0_l.
Qed.

Lemma descriptor_next_range e q i : 0 <= d_next (descriptor_at e q i) <= UINT16_MAX.
Proof using HM.
  unfold descriptor_at, parse_descriptor. cbn.
  pose proof (load_length e (q_descriptor_address q + 16 * i) 16) as Hl.
  pose proof (load_bytes e (q_descriptor_address q + 16 * i) 16) as Hb.
  pose proof (load_le_range (take 2 (drop 14 (load e (q_descriptor_address q + 16 * i) 16)))
    ltac:(by apply Forall_take, Forall_drop)) as Hr.
  rewrite length_take, length_drop, Hl in Hr. cbn in Hr. lia.
Qed.

(** One iteration of the loop on a descriptor not seen before. *)
Lemma pop_loop_step q fuel visited l i chain s :
  queue_ready_ok q -> queue_readable q -> 0 <= i < q_size q -> marks visited l ->
  i ∉ l -> Z.of_nat (length l) < 1024 ->
  let d := descriptor_at (vs_env s) q i in
  let chain' := chain <| ch_descriptors := ch_descriptors chain ++ [d] |> in
  pop_loop (S fuel) q visited i chain (Z.of_nat (length l)) s =
  if bits (d_flags d) VART_VIRTIO_DESC_F_INDIRECT then Ok ((-ENOTSUP, chain'), s)
  else if bits (d_flags d) (Z.lnot VART_VIRTIO_DESC_F_MASK) then Ok ((-EPROTO, chain'), s)
  else if negb (has_next d) then
    Ok ((0, chain' <| ch_count := Z.of_nat (length l) + 1 |>), s)
  else if (q_size q <=? d_next d) || (Z.of_nat (length l) + 1 =? 1024)
  then Ok ((-EPROTO, chain'), s)
  else pop_loop fuel q (<[Z.to_nat i := true]> visited) (d_next d) chain'
         (Z.of_nat (length (l ++ [i]))) s.
Proof using HM.
  intros Hq Hrd Hi [Hlen Hm] Hin Hc d chain'. cbn [pop_loop].
  pose proof (queue_size_range q Hq). pose proof (qr_descriptors q Hq) as (_ & ? & ?).
  rewrite (bind_eq _ _ s false s).
  2: { rewrite Hm by lia. by rewrite bool_decide_false. }
  rewrite u64_small by lia.
  rewrite (bind_eq _ _ _ _ _ (queue_read_memory q _ _ s Hrd)). cbn [Z.ltb Z.compare].
  destruct (Z.leb_spec 1024 (Z.of_nat (length l))); [lia|].
  rewrite (bind_eq _ _ _ _ _ (load_descriptor_memory _ s (load_length _ _ _))).
  replace (q_descriptor_address q + i * 16) with (q_descriptor_address q + 16 * i) by lia.
  fold (descriptor_at (vs_env s) q i). fold d. unfold has_next.
  replace (Z.of_nat (length (l ++ [i]))) with (Z.of_nat (length l) + 1)
    by (rewrite length_app; cbn; lia).
  destruct (bits (d_flags d) 4); [done|]. destruct (bits _ _); [done|].
  destruct (negb _); [done|]. by destruct (_ || _).
Qed.

Lemma pop_loop_complete q i idxs s :
  is_chain (q_size q) (descriptor_at (vs_env s) q) i idxs ->
  forall fuel visited l chain,
    queue_ready_ok q -> queue_readable q -> marks visited l -> NoDup l ->
    Forall (fun j => 0 <= j < q_size q) l -> (forall j, j ∈ idxs -> j ∉ l) ->
    (length idxs <= fuel)%nat ->
    pop_loop fuel q visited i chain (Z.of_nat (length l)) s =
      Ok ((0, chain <| ch_descriptors := ch_descriptors chain ++
                        map (descriptor_at (vs_env s) q) idxs |>
                    <| ch_count := Z.of_nat (length l + length idxs) |>), s).
Proof using HM.
  intros Hch. induction Hch as [i Hi [Hf1 Hf2] Hn|i idxs Hi [Hf1 Hf2] Hn Hch IH Hnin];
    intros fuel visited l chain Hq Hrd Hm Hnd Hr Hdis Hfuel;
    (destruct fuel as [|fuel]; [cbn in Hfuel; lia|]);
    pose proof (queue_size_range q Hq) as Hsz.
  all: assert (NoDup (l ++ [i]) /\ Forall (fun j => 0 <= j < q_size q) (l ++ [i])) as [Hnd' Hr']
    by (split; [apply NoDup_app; split_and!; [done| |apply NoDup_singleton]; set_solver
               |apply Forall_app_2; [done|by apply Forall_singleton]]).
  all: pose proof (distinct_indices_bound _ _ Hnd' Hr' ltac:(lia)) as Hb;
    rewrite length_app in Hb; cbn in Hb.
  - rewrite (pop_loop_step q fuel visited l) by (done || set_solver || lia). cbn zeta.
    rewrite Hf1, Hf2, Hn. cbn [negb map]. by rewrite Nat2Z.inj_add.
  - rewrite (pop_loop_step q fuel visited l) by (done || set_solver || lia). cbn zeta.
    rewrite Hf1, Hf2, Hn. cbn [negb].
    assert (0 <= d_next (descriptor_at (vs_env s) q i) < q_size q) as Hnx.
    { apply is_chain_facts in Hch as (_ & Hall & _ & Hin). rewrite Forall_forall in Hall. by apply Hall. }
    destruct (Z.leb_spec (q_size q) (d_next (descriptor_at (vs_env s) q i))); [lia|]. cbn [orb].
    destruct (is_chain_facts _ _ _ _ Hch) as (Hnd2 & Hr2 & Hl2 & _).
    assert (Z.of_nat (length ((l ++ [i]) ++ idxs)) <= q_size q) as Hb2.
    { apply distinct_indices_bound; [|by apply Forall_app_2|lia].
      apply NoDup_app. split_and!; [done|set_solver|done]. }
    rewrite !length_app in Hb2. cbn in Hb2.
    destruct (Z.eqb_spec (Z.of_nat (length l) + 1) 1024); [lia|].
    rewrite (IH fuel _ (l ++ [i])); try done.
    + cbn. rewrite <- app_assoc, length_app. cbn. do 3 f_equal.
      unfold update. cbn. f_equal. lia.
    + apply marks_insert; [done|lia].
    + set_solver.
    + cbn in Hfuel. lia.
Qed.

Lemma pop_loop_sound q fuel : forall visited l i chain chain' s s',
  queue_ready_ok q -> queue_readable q -> 0 <= i < q_size q -> marks visited l ->
  NoDup l -> Forall (fun j => 0 <= j < q_size q) l ->
  pop_loop fuel q visited i chain (Z.of_nat (length l)) s = Ok ((0, chain'), s') ->
  s' = s /\ exists idxs, is_chain (q_size q) (descriptor_at (vs_env s) q) i idxs /\
    (forall j, j ∈ idxs -> j ∉ l) /\
    chain' = chain <| ch_descriptors := ch_descriptors chain ++
                        map (descriptor_at (vs_env s) q) idxs |>
                   <| ch_count := Z.of_nat (length l + length idxs) |>.
Proof using HM.
  induction fuel as [|fuel IH];
    intros visited l i chain chain' s s' Hq Hrd Hi Hm Hnd Hr E'; [done|].
  pose proof (queue_size_range q Hq) as Hsz.
  destruct (decide (i ∈ l)) as [Hin|Hin].
  { cbn [pop_loop] in E'. rewrite (bind_eq _ _ s true s) in E'; [done|].
    rewrite (proj2 Hm) by lia. by rewrite bool_decide_true. }
  assert (NoDup (l ++ [i]) /\ Forall (fun j => 0 <= j < q_size q) (l ++ [i])) as [Hnd' Hr'].
  { split; [apply NoDup_app; split_and!; [done| |apply NoDup_singleton]; set_solver|].
    apply Forall_app_2; [done|by apply Forall_singleton]. }
  pose proof (distinct_indices_bound _ _ Hnd' Hr' ltac:(lia)) as Hb.
  rewrite length_app in Hb; cbn in Hb.
  rewrite (pop_loop_step q fuel visited l) in E' by (done || set_solver || lia).
  cbn zeta in E'. set (d := descriptor_at (vs_env s) q i) in *.
  destruct (bits (d_flags d) 4) eqn:Hf1; [done|].
  destruct (bits (d_flags d) (Z.lnot 7)) eqn:Hf2; [done|].
  destruct (has_next d) eqn:Hn; cbn [negb] in E'.
  - destruct (Z.leb_spec (q_size q) (d_next d)); [done|]. cbn [orb] in E'.
    destruct (Z.eqb_spec (Z.of_nat (length l) + 1) 1024); [done|].
    pose proof (descriptor_next_range (vs_env s) q i) as Hnx. fold d in Hnx.
    apply IH in E' as (-> & idxs & Hch & Hdis & ->); try done.
    + split; [done|]. exists (i :: idxs). split_and!.
      * apply chain_link; try done. intros Hbad. apply (Hdis i Hbad). set_solver.
      * set_solver.
      * cbn. rewrite <- app_assoc, length_app. cbn. unfold update. cbn. f_equal. lia.
    + lia.
    + apply marks_insert; [done|lia].
  - simplify_eq. split; [done|]. exists [i]. split_and!.
    + by apply chain_last.
    + set_solver.
    + cbn. by rewrite Nat2Z.inj_add.
Qed.
End PopMemory.

(** The loop returns 0 or a negative error code. *)
Lemma pop_loop_err {E} `{VirtioDma E} q fuel : forall visited i chain count
    (s : VirtioState E) err chain' s',
  pop_loop fuel q visited i chain count s = Ok ((err, chain'), s') -> err <= 0.
Proof.
  induction fuel as [|fuel IH]; intros visited i chain count s err chain' s' Hloop; [done|].
  cbn [pop_loop] in Hloop.
  apply bind_Ok in Hloop as (seen & ? & _ & Hloop).
  destruct seen; [unfold ret in Hloop; simplify_eq; lia|].
  apply bind_Ok in Hloop as ([e raw] & ? & _ & Hloop).
  destruct (Z.ltb_spec e 0); [unfold ret in Hloop; simplify_eq; lia|].
  destruct (_ <=? count); [done|].
  apply bind_Ok in Hloop as (d & ? & _ & Hloop).
  repeat (match type of Hloop with (if ?b then _ else _) _ = _ => destruct b end;
    try (unfold ret in Hloop; simplify_eq; lia)).
  by eapply IH.
Qed.

(** * Theorems on popping and returning buffers *)

Definition has_queue (d : VartVirtioDevice) (index : Z) (q : VartVirtioQueue) : Prop :=
  exists queues, v_queues d = Some queues /\ 0 <= index < Z.of_nat (length queues) /\
    queues !! Z.to_nat index = Some q.

Definition with_queue (d : VartVirtioDevice) (index : Z) (q : VartVirtioQueue)
    : VartVirtioDevice :=
  d <| v_queues ::= fmap (<[Z.to_nat index := q]>) |>.

Lemma queue_get_cases {E} (s : VirtioState E) index :
  0 <= index ->
  (exists err, (err = -EINVAL \/ err = -ENODEV) /\
     virtio_queue_get index s = Ok (inl err, s)) \/
  (exists q, has_queue (vs_device s) index q /\ q_ready q = true /\
     virtio_queue_get index s = Ok (inr q, s)).
Proof.
  intros Hi. unfold virtio_queue_get, load_virtio. run_unfold.
  destruct (v_queues (vs_device s)) as [queues|] eqn:Hq; [|left; eauto].
  destruct (Z.leb_spec (Z.of_nat (length queues)) index); [left; eauto|].
  destruct (lookup_lt_is_Some_2 queues (Z.to_nat index)) as [q Hlk]; [lia|].
  rewrite Hlk. destruct (q_ready q) eqn:Hr; cbn [negb]; [|left; eauto].
  right. exists q. split_and!; try done. exists queues. split_and!; done || lia.
Qed.

Lemma queue_get_ready {E} (s : VirtioState E) index q :
  has_queue (vs_device s) index q -> q_ready q = true ->
  virtio_queue_get index s = Ok (inr q, s).
Proof.
  intros (queues & Hq & Hi & Hl) Hr. unfold virtio_queue_get, load_virtio. run_unfold.
  rewrite Hq. destruct (Z.leb_spec (Z.of_nat (length queues)) index); [lia|].
  by rewrite Hl, Hr.
Qed.

Lemma has_queue_ok d index q : device_ok d -> has_queue d index q -> queue_ok q.
Proof.
  intros Hd (queues & Hq & _ & Hl). destruct (do_queues _ Hd _ Hq) as [Hall _].
  by eapply Forall_lookup_1 in Hall.
Qed.

Lemma has_queue_functional d index q q' :
  has_queue d index q -> has_queue d index q' -> q = q'.
Proof. intros (? & ? & _ & ?) (? & ? & _ & ?). congruence. Qed.

(** The fuel that is always enough: one step per descriptor of the largest
    queue and one to notice a repetition. *)
Definition pop_fuel : nat := 1025.

(** What popping guarantees whatever the driver does. *)
Definition pop_outcome {E} (s : VirtioState E) (index err : Z)
    (chain : option VartVirtioChain) (s' : VirtioState E) : Prop :=
  (err < 0 /\ vs_device s' = vs_device s) \/
  (err = 0 /\ exists q c, has_queue (vs_device s) index q /\ chain = Some c /\
     0 <= ch_head c < q_size q /\
     1 <= ch_count c <= q_size q /\
     ch_count c = Z.of_nat (length (ch_descriptors c)) /\
     chain_shape (q_size q) (ch_descriptors c) /\ Forall descriptor_ok (ch_descriptors c) /\
     vs_device s' = with_queue (vs_device s) index
       (q <| q_last_avail := (q_last_avail q + 1) mod 2 ^ 16 |>)).

(** The DMA functions that a queue was given. *)
Definition queue_uses (d : VartVirtioDevice) (index : Z) (ops : VartVirtioDmaOps) : Prop :=
  forall q, has_queue d index q -> q_dma q = ops.

Section PopTheorems.
Context {E : Type} `{VirtioDma E} {ops : VartVirtioDmaOps} {I : E -> Prop}
  `{HD : !DmaTotal E ops I}.

Lemma pop_total (s : VirtioState E) index c0 :
  device_ok (vs_device s) -> 0 <= index -> queue_uses (vs_device s) index ops ->
  I (vs_env s) ->
  wp (vart_virtio_queue_pop pop_fuel index (Some c0))
    (fun '(err, chain) s' => pop_outcome s index err chain s' /\ I (vs_env s')) s.
Proof using HD.
  intros Hd Hi Huse HI. unfold vart_virtio_queue_pop. apply wp_bind.
  destruct (queue_get_cases s index Hi) as [(err & Herr & E0)|(q & Hhas & Hrdy & E0)];
    unfold wp at 1; rewrite E0.
  { apply wp_ret. split; [|done]. left. split; [destruct Herr; lia|done]. }
  pose proof (has_queue_ok _ _ _ Hd Hhas) as [Hla _ Hok]. specialize (Hok Hrdy).
  pose proof (queue_size_range q Hok) as Hsz. specialize (Huse q Hhas).
  apply wp_bind. eapply wp_mono; [apply queue_read_total; [done|apply u64_range|lia|done]|].
  intros [e1 raw1] s1 ([Hdev1 HI1] & Hl1 & Hb1). cbv beta iota.
  destruct (Z.ltb_spec e1 0); [apply wp_ret; split; [by left|done]|].
  destruct (load_le16_total raw1 s1 ltac:(lia) Hb1) as (avail & Ha & Har).
  apply wp_bind. unfold wp at 1. rewrite Ha.
  destruct (Z.eqb_spec avail (q_last_avail q)); [apply wp_ret; split; [left; split; [lia|done]|done]|].
  destruct (_ <? u16 _); [apply wp_ret; split; [left; split; [lia|done]|done]|].
  destruct (Z.eqb_spec (q_size q) 0); [lia|].
  apply wp_bind. eapply wp_mono; [apply queue_read_total; [done|apply u64_range|lia|done]|].
  intros [e2 raw2] s2 ([Hdev2 HI2] & Hl2 & Hb2). cbv beta iota.
  destruct (Z.ltb_spec e2 0); [apply wp_ret; split; [left; split; [done|congruence]|done]|].
  destruct (load_le16_total raw2 s2 ltac:(lia) Hb2) as (head & Hh & Hhr).
  apply wp_bind. unfold wp at 1. rewrite Hh.
  destruct (Z.leb_spec (q_size q) head).
  { apply wp_ret. split; [left; split; [lia|congruence]|done]. }
  apply wp_bind. eapply wp_mono.
  { apply (pop_loop_safe q pop_fuel Huse _ [] head (mkChain head 0 []) 0 s2 HI2);
      [done|lia|apply marks_none|constructor|constructor|done|done|unfold pop_fuel; lia]. }
  intros [e3 filled] s3 [[Hdev3 HI3] Hout]. cbv beta iota.
  destruct (Z.ltb_spec e3 0).
  { apply wp_ret. split; [left; split; [done|congruence]|done]. }
  destruct Hout as [|(_ & Hhd & Hct & Hle & rest & Hrest & Hshape & Hdk)]; [lia|].
  cbn in Hrest, Hhd. subst rest.
  apply wp_bind. unfold store_queue, load_virtio, store_virtio.
  apply wp_bind, wp_gets, wp_modify, wp_ret. split; [|done]. right. split; [done|].
  exists q, filled. split_and!; try done; try lia.
  - destruct (ch_descriptors filled); [done|]. cbn in Hct. lia.
  - cbn. by rewrite Hdev3, Hdev2, Hdev1.
Qed.
End PopTheorems.

(** C6. Popping is safe against any guest: whatever bytes the driver puts in
    the rings and the descriptor table, and even if it changes them between two
    reads (DMA reads return some bytes and keep an invariant [I]), [vart_virtio_queue_pop] terminates (1025 steps suffice), stays within
    its arrays, and either fails leaving the device as it was or returns a chain
    of at most [size] descriptors linked by NEXT with only known flags and fields
    of their widths, taking
    exactly one entry of the available ring. *)
Theorem pop_safe {E : Type} `{VirtioDma E} {ops : VartVirtioDmaOps} {I : E -> Prop}
    `{!DmaTotal E ops I} (s : VirtioState E) index c0 :
  device_ok (vs_device s) -> 0 <= index -> queue_uses (vs_device s) index ops ->
  I (vs_env s) ->
  exists err chain s',
    vart_virtio_queue_pop pop_fuel index (Some c0) s = Ok ((err, chain), s') /\
    pop_outcome s index err chain s' /\ I (vs_env s').
Proof.
  intros Hd Hi Hu HI.
  pose proof (pop_total s index c0 Hd Hi Hu HI) as ([err chain] & s' & E0 & Ho)%wp_ok. eauto.
Qed.

(** The available ring holds an entry for the device to take: [head] is the
    descriptor index in the next slot. *)
Definition pending_head {E} (load : E -> Z -> nat -> list Z) (e : E)
    (q : VartVirtioQueue) (head : Z) : Prop :=
  let available := load_le (load e (q_available_address q + 2) 2%nat) in
  0 < (available - q_last_avail q) mod 2 ^ 16 <= q_size q /\
  head = load_le (load e (q_available_address q + 4 +
                          2 * (q_last_avail q mod q_size q)) 2%nat) /\
  head < q_size q.

(** C7. Popping is correct: when the available ring has an entry and memory does
    not change meanwhile, [vart_virtio_queue_pop] succeeds exactly when the
    descriptors reachable from that entry form a well-formed chain, and then
    returns exactly the descriptors of that chain, in order. *)
Theorem pop_correct {E : Type} `{VirtioDma E} {load : E -> Z -> nat -> list Z}
    `{!DmaMemory E load} (s : VirtioState E) index q head c0 :
  device_ok (vs_device s) -> has_queue (vs_device s) index q -> q_ready q = true ->
  queue_readable q -> pending_head load (vs_env s) q head ->
  forall chain s',
    vart_virtio_queue_pop pop_fuel index (Some c0) s = Ok ((0, Some chain), s') <->
    exists idxs, is_chain (q_size q) (descriptor_at (load := load) (vs_env s) q) head idxs /\
      chain = mkChain head (Z.of_nat (length idxs))
                (map (descriptor_at (load := load) (vs_env s) q) idxs) /\
      s' = mkState (with_queue (vs_device s) index
             (q <| q_last_avail := (q_last_avail q + 1) mod 2 ^ 16 |>)) (vs_env s).
Proof.
  intros Hd Hhas Hrdy Hrd (Hpend & Hhead & Hlt) chain s'.
  pose proof (has_queue_ok _ _ _ Hd Hhas) as [Hla _ Hok]. specialize (Hok Hrdy).
  pose proof (queue_size_range q Hok) as Hsz.
  destruct (qr_available q Hok) as (_ & Hav0 & Hav1).
  assert (0 <= head) as Hh0.
  { subst head. apply (load_le_range _ (load_bytes _ _ _)). }
  pose proof (Z.mod_pos_bound (q_last_avail q) (q_size q) ltac:(lia)) as Hslot.
  assert (0 <= index) as Hi by (destruct Hhas as (? & _ & ? & _); lia).
  unfold vart_virtio_queue_pop.
  rewrite (bind_eq _ _ _ _ _ (queue_get_ready s index q Hhas Hrdy)).
  rewrite (bind_eq _ _ _ _ _ (queue_read_memory q _ _ s Hrd)). cbn [Z.ltb Z.compare].
  rewrite (bind_eq _ _ _ _ _ (load_le16_memory _ s (load_length _ _ _))).
  rewrite (u64_small (q_available_address q + 2)) by lia.
  set (avail := load_le (load (vs_env s) (q_available_address q + 2) 2%nat)) in *.
  assert (avail <> q_last_avail q) as Hne by (intros Heq; rewrite Heq, Z.sub_diag, Z.mod_0_l in Hpend; lia).
  destruct (Z.eqb_spec avail (q_last_avail q)) as [|_]; [done|].
  unfold u16 at 1. change 65536 with (2 ^ 16).
  destruct (Z.ltb_spec (q_size q) ((avail - q_last_avail q) mod 2 ^ 16)) as [|_]; [lia|].
  destruct (Z.eqb_spec (q_size q) 0) as [|_]; [lia|].
  rewrite (bind_eq _ _ _ _ _ (queue_read_memory q _ _ s Hrd)). cbn [Z.ltb Z.compare].
  rewrite (bind_eq _ _ _ _ _ (load_le16_memory _ s (load_length _ _ _))).
  replace (u64 (q_available_address q + 4 + q_last_avail q mod q_size q * 2))
    with (q_available_address q + 4 + 2 * (q_last_avail q mod q_size q))
    by (rewrite u64_small; lia).
  rewrite <- Hhead. destruct (Z.leb_spec (q_size q) head) as [|_]; [lia|].
  change (Z.to_nat 1024) with 1024%nat.
  assert (forall c : VartVirtioChain, bind (store_queue index (q <| q_last_avail := u16 (q_last_avail q + 1) |>))
    (fun _ => ret (0, Some c)) s = Ok ((0, Some c), mkState (with_queue (vs_device s) index
      (q <| q_last_avail := (q_last_avail q + 1) mod 2 ^ 16 |>)) (vs_env s))) as Hstore by done.
  split.
  - intros Hpop. apply bind_Ok in Hpop as ([err filled] & s1 & Hloop & Hpop).
    destruct (Z.ltb_spec err 0) as [|Herr]; [unfold ret in Hpop; simplify_eq; lia|].
    assert (err = 0) as ->.
    { pose proof (pop_loop_err q pop_fuel _ _ _ _ _ _ _ _ Hloop). lia. }
    apply (pop_loop_sound q pop_fuel _ [] head (mkChain head 0 [])) in Hloop
      as (-> & idxs & Hch & _ & ->); try done; try apply marks_none; try by constructor.
    rewrite Hstore in Hpop. simplify_eq. by exists idxs.
  - intros (idxs & Hch & -> & ->).
    destruct (is_chain_facts _ _ _ _ Hch) as (Hnd & Hr & _ & _).
    pose proof (distinct_indices_bound _ _ Hnd Hr ltac:(lia)).
    rewrite (bind_eq _ _ _ _ _ (pop_loop_complete q head idxs s Hch pop_fuel _ []
      (mkChain head 0 []) Hok Hrd marks_none (NoDup_nil_2) (List.Forall_nil _)
      ltac:(set_solver) ltac:(unfold pop_fuel; lia))).
    cbn [Z.ltb Z.compare]. rewrite Hstore. done.
Qed.

(** * Configuration and life cycle *)

(** [n & (n - 1) == 0] recognises the powers of two. *)
Lemma power_of_two_bits n :
  1 <= n <= 1024 -> Z.land n (n - 1) = 0 -> exists k, 0 <= k <= 10 /\ n = 2 ^ k.
Proof.
  intros Hn Hl.
  assert (forallb (fun n => implb (Z.land n (n - 1) =? 0)
    (existsb (fun k => n =? 2 ^ k) (seqZ 0 11))) (seqZ 1 1024) = true) as Hall
    by (vm_compute; reflexivity).
  rewrite forallb_forall in Hall. specialize (Hall n).
  rewrite <- list_elem_of_In, elem_of_seqZ in Hall. specialize (Hall ltac:(lia)).
  rewrite Hl in Hall. cbn [Z.eqb implb] in Hall.
  apply existsb_exists in Hall as (k & Hk & He).
  rewrite <- list_elem_of_In, elem_of_seqZ in Hk. exists k. lia.
Qed.


Section LifeCycle.
Context {E : Type} `{VirtioDma E}.
Implicit Types s : VirtioState E.

Lemma with_queue_ok d index q :
  device_ok d -> queue_ok q -> device_ok (with_queue d index q).
Proof.
  intros [Hf Hq] Hok. split; [done|]. cbn. intros queues.
  destruct (v_queues d) as [l|] eqn:Hl; [|done]. intros [= <-].
  destruct (Hq l eq_refl) as [Hall Hlen]. rewrite length_insert. split; [|done].
  by apply Forall_insert.
Qed.

(** The queue that a successful configuration stores is well formed. *)
Lemma configured_ready q size da aa ua :
  1 <= size <= 1024 -> Z.land size (size - 1) = 0 ->
  Z.land da 15 = 0 -> Z.land aa 1 = 0 -> Z.land ua 3 = 0 ->
  u64_arg da -> u64_arg aa -> u64_arg ua ->
  virtio_address_range_valid da (size * 16) = true ->
  virtio_address_range_valid aa (4 + size * 2) = true ->
  virtio_address_range_valid ua (4 + size * 8) = true ->
  queue_ready_ok (q <| q_size := size |> <| q_last_avail := 0 |> <| q_next_used := 0 |>
    <| q_descriptor_address := da |> <| q_available_address := aa |>
    <| q_used_address := ua |> <| q_ready := true |>).
Proof.
  intros Hs Hp Hd Ha Hu Rd Ra Ru Vd Va Vu. unfold virtio_address_range_valid, u64_arg in *.
  change 15 with (2 ^ 4 - 1) in Hd. change 1 with (2 ^ 1 - 1) in Ha.
  change 3 with (2 ^ 2 - 1) in Hu. rewrite land_low_mask in Hd, Ha, Hu by lia.
  split; cbn; [by apply power_of_two_bits|..]; (split; [done|lia]).
Qed.

(** Every outcome of a configuration. *)
Lemma configure_cases s index size da aa ua err s' :
  0 <= index -> 0 <= size -> u64_arg da -> u64_arg aa -> u64_arg ua ->
  vart_virtio_queue_configure index size da aa ua s = Ok (err, s') ->
  (err < 0 /\ s' = s) \/
  (err = 0 /\ exists q, has_queue (vs_device s) index q /\ q_ready q = false /\
     let q' := q <| q_size := size |> <| q_last_avail := 0 |> <| q_next_used := 0 |>
       <| q_descriptor_address := da |> <| q_available_address := aa |>
       <| q_used_address := ua |> <| q_ready := true |> in
     queue_ready_ok q' /\
     s' = mkState (with_queue (vs_device s) index q') (vs_env s)).
Proof.
  intros Hi Hsz Rd Ra Ru Hcfg. unfold vart_virtio_queue_configure, load_virtio in Hcfg.
  unfold bind at 1, gets in Hcfg.
  destruct (v_queues (vs_device s)) as [queues|] eqn:Hq;
    [|unfold ret in Hcfg; simplify_eq; left; split; [lia|done]].
  destruct (_ || _) eqn:Hg in Hcfg; [unfold ret in Hcfg; simplify_eq; left; split; [lia|done]|].
  rewrite !orb_false_iff, !negb_false_iff in Hg.
  destruct Hg as [[[[[[H1 H2] H3] H4] H5] H6] H7].
  apply bind_Ok in Hcfg as (q & ? & (q0 & Hl & [= -> ->])%deref_Ok & Hcfg).
  destruct (q_ready q0) eqn:Hr; [unfold ret in Hcfg; simplify_eq; left; split; [lia|done]|].
  destruct (_ || _) eqn:Hv in Hcfg; [unfold ret in Hcfg; simplify_eq; left; split; [lia|done]|].
  rewrite !orb_false_iff, !negb_false_iff in Hv. destruct Hv as [[V1 V2] V3].
  unfold store_queue, load_virtio, store_virtio, bind, gets, modify, ret in Hcfg. simplify_eq.
  right. split; [done|]. exists q0. cbv zeta. split_and!; [|done| |done].
  - exists queues. split_and!; [done|lia|lia|done].
  - apply configured_ready; try done; lia.
Qed.

(** One call of the interface. *)
Inductive virtio_step (s s' : VirtioState E) : Prop :=
| step_init id features count dma err :
    0 <= count ->
    vart_virtio_device_init id features count dma s = Ok (err, s') ->
    virtio_step s s'
| step_destroy : vart_virtio_device_destroy s = Ok (tt, s') -> virtio_step s s'
| step_set_features f err :
    vart_virtio_device_set_features f s = Ok (err, s') -> virtio_step s s'
| step_set_status st err :
    vart_virtio_device_set_status st s = Ok (err, s') -> virtio_step s s'
| step_configure index size da aa ua err :
    0 <= index -> 0 <= size -> u64_arg da -> u64_arg aa -> u64_arg ua ->
    vart_virtio_queue_configure index size da aa ua s = Ok (err, s') ->
    virtio_step s s'
| step_reset index err :
    vart_virtio_queue_reset index s = Ok (err, s') -> virtio_step s s'
| step_pop index c err chain :
    0 <= index ->
    vart_virtio_queue_pop pop_fuel index (Some c) s = Ok ((err, chain), s') ->
    virtio_step s s'
| step_push_used index head len err :
    0 <= index ->
    vart_virtio_queue_push_used index head len s = Ok (err, s') -> virtio_step s s'
(** the driver writes to its memory *)
| step_driver e : s' = mkState (vs_device s) e -> virtio_step s s'.

Lemma in_env_device {A} (m : M E A) s a s' :
  in_env m s = Ok (a, s') -> vs_device s' = vs_device s.
Proof. unfold in_env. destruct (m (vs_env s)) as [[]| |]; intros; by simplify_eq. Qed.

Lemma init_device_ok id features count dma s err s' :
  0 <= count -> device_ok (vs_device s) ->
  vart_virtio_device_init id features count dma s = Ok (err, s') ->
  device_ok (vs_device s').
Proof.
  intros Hc Hd Hini. unfold vart_virtio_device_init in Hini.
  destruct dma as [ops|]; [|unfold ret in Hini; by simplify_eq].
  destruct (_ || _) eqn:Hg in Hini; [unfold ret in Hini; by simplify_eq|].
  unfold store_virtio, modify in Hini. unfold bind at 1 in Hini.
  apply bind_Ok in Hini as (ok & s1 & Hal & Hini). apply in_env_device in Hal. cbn in Hal.
  destruct (negb ok).
  { unfold ret in Hini. simplify_eq. rewrite Hal. by split. }
  unfold bind in Hini.
  unfold ret in Hini. simplify_eq. split; [done|]. cbn. intros queues [= <-].
  rewrite repeat_length. split; [|lia]. apply Forall_forall.
  intros q Hq%list_elem_of_In%repeat_spec. subst q. by split.
Qed.

Lemma set_status_device_ok st s err s' :
  device_ok (vs_device s) -> vart_virtio_device_set_status st s = Ok (err, s') ->
  device_ok (vs_device s').
Proof.
  intros [Hf Hq] Hst. unfold vart_virtio_device_set_status, load_virtio, store_virtio in Hst.
  unfold bind, gets in Hst. destruct (negb _); [unfold ret in Hst; by simplify_eq|].
  unfold modify, ret in Hst. simplify_eq. cbn. destruct (st =? 0); [|by split].
  split; cbn; [done|]. intros queues. destruct (v_queues (vs_device s)) as [l|]; [|done].
  intros [= <-]. destruct (Hq l eq_refl) as [Hall Hlen]. rewrite length_map.
  split; [|done]. apply Forall_map. eapply Forall_impl; [exact Hall|].
  intros q [] ; by split.
Qed.

Lemma reset_device_ok index s err s' :
  device_ok (vs_device s) -> vart_virtio_queue_reset index s = Ok (err, s') ->
  device_ok (vs_device s').
Proof.
  intros Hd Hr. unfold vart_virtio_queue_reset, load_virtio in Hr. unfold bind at 1, gets in Hr.
  destruct (v_queues (vs_device s)) as [queues|] eqn:Hq; [|unfold ret in Hr; by simplify_eq].
  destruct (_ <=? _); [unfold ret in Hr; by simplify_eq|].
  apply bind_Ok in Hr as (q & ? & (q0 & Hl & [= -> ->])%deref_Ok & Hr).
  unfold store_queue, load_virtio, store_virtio, bind, gets, modify, ret in Hr. simplify_eq.
  apply with_queue_ok; [done|]. by split.
Qed.

Lemma set_features_device_ok f s err s' :
  device_ok (vs_device s) -> vart_virtio_device_set_features f s = Ok (err, s') ->
  device_ok (vs_device s').
Proof.
  intros [Hf Hq] Hs. unfold vart_virtio_device_set_features, load_virtio, store_virtio in Hs.
  unfold bind, gets in Hs.
  destruct (Z.eqb_spec (Z.land f (u64 (Z.lnot (v_device_features (vs_device s))))) 0) as [Hz|];
    unfold modify, ret in Hs; cbn in Hs; simplify_eq; by split.
Qed.
End LifeCycle.

(** The two DMA writes of [vart_virtio_queue_push_used]. *)
Definition used_element_at (q : VartVirtioQueue) : Z :=
  q_used_address q + 4 + 8 * (q_next_used q mod q_size q).

Section Push.
Context {E : Type} `{VirtioDma E}.
Implicit Types s : VirtioState E.

Lemma queue_write_frame q a data s err s' :
  virtio_queue_write q a data s = Ok (err, s') -> vs_device s' = vs_device s.
Proof.
  unfold virtio_queue_write, in_env. destruct (dma_write _); [|by intros [= <- <-]].
  destruct (call_dma_write _ _ _ _ _) as [[]| |]; [|done|done]. by intros [= <- <-].
Qed.

Lemma queue_read_frame q a n s r s' :
  virtio_queue_read q a n s = Ok (r, s') -> vs_device s' = vs_device s.
Proof.
  unfold virtio_queue_read. destruct (dma_read _); [apply in_env_device|by intros [= <- <-]].
Qed.

Lemma pop_loop_frame q fuel : forall visited i chain count s r s',
  pop_loop fuel q visited i chain count s = Ok (r, s') -> vs_device s' = vs_device s.
Proof.
  induction fuel as [|fuel IH]; intros visited i chain count s r s' Hp; [done|].
  cbn [pop_loop] in Hp. apply bind_Ok in Hp as (? & ? & (seen & _ & [= -> ->])%deref_Ok & Hp).
  destruct seen; [unfold ret in Hp; by simplify_eq|].
  apply bind_Ok in Hp as ([err raw] & s1 & <-%queue_read_frame & Hp).
  destruct (err <? 0); [unfold ret in Hp; by simplify_eq|].
  destruct (_ <=? count); [done|]. apply bind_Ok in Hp as (d & s2 & Hd & Hp).
  apply load_descriptor_frame in Hd as ->.
  repeat (destruct (bits _ _); cbn [negb] in Hp; [try (unfold ret in Hp; by simplify_eq)|
    try (unfold ret in Hp; by simplify_eq)]).
  destruct (_ || _); [unfold ret in Hp; by simplify_eq|]. by eapply IH.
Qed.

(** Every outcome on the device. *)
Lemma pop_device fuel s index c err chain s' :
  0 <= index -> vart_virtio_queue_pop fuel index c s = Ok ((err, chain), s') ->
  vs_device s' = vs_device s \/
  exists q, has_queue (vs_device s) index q /\
    vs_device s' = with_queue (vs_device s) index
      (q <| q_last_avail := u16 (q_last_avail q + 1) |>).
Proof.
  intros Hi Hp. unfold vart_virtio_queue_pop in Hp.
  destruct c as [c|]; [|unfold ret in Hp; simplify_eq; by left].
  destruct (queue_get_cases s index Hi) as [(e & _ & E0)|(q & Hhas & Hrdy & E0)];
    rewrite (bind_eq _ _ _ _ _ E0) in Hp; [unfold ret in Hp; simplify_eq; by left|].
  apply bind_Ok in Hp as ([e1 r1] & s1 & Hd1%queue_read_frame & Hp).
  destruct (e1 <? 0); [unfold ret in Hp; simplify_eq; by left|].
  apply bind_Ok in Hp as (av & s1' & ->%load_le16_frame & Hp).
  destruct (_ =? _); [unfold ret in Hp; simplify_eq; by left|].
  destruct (_ <? _); [unfold ret in Hp; simplify_eq; by left|]. destruct (_ =? _); [done|].
  apply bind_Ok in Hp as ([e2 r2] & s2 & Hd2%queue_read_frame & Hp).
  destruct (e2 <? 0); [unfold ret in Hp; simplify_eq; left; congruence|].
  apply bind_Ok in Hp as (hd & s2' & ->%load_le16_frame & Hp).
  destruct (_ <=? _); [unfold ret in Hp; simplify_eq; left; congruence|].
  apply bind_Ok in Hp as ([e3 ch] & s3 & Hd3%pop_loop_frame & Hp).
  destruct (e3 <? 0); [unfold ret in Hp; simplify_eq; left; congruence|].
  unfold store_queue, load_virtio, store_virtio, bind, gets, modify, ret in Hp. simplify_eq.
  right. exists q. split; [done|]. cbn. by rewrite Hd3, Hd2, Hd1.
Qed.

Lemma push_used_device s index head len err s' :
  0 <= index -> vart_virtio_queue_push_used index head len s = Ok (err, s') ->
  vs_device s' = vs_device s \/
  exists q, has_queue (vs_device s) index q /\
    vs_device s' = with_queue (vs_device s) index
      (q <| q_next_used := u16 (q_next_used q + 1) |>).
Proof.
  intros Hi Hp. unfold vart_virtio_queue_push_used in Hp.
  destruct (queue_get_cases s index Hi) as [(e & _ & E0)|(q & Hhas & Hrdy & E0)];
    rewrite (bind_eq _ _ _ _ _ E0) in Hp; [unfold ret in Hp; simplify_eq; by left|].
  destruct (_ <=? _); [unfold ret in Hp; simplify_eq; by left|].
  destruct (_ =? _); [done|].
  apply bind_Ok in Hp as (e1 & s1 & Hdev1%queue_write_frame & Hp).
  destruct (_ <? _); [unfold ret in Hp; simplify_eq; by left|].
  apply bind_Ok in Hp as ([] & s2 & Hst & Hdev3%queue_write_frame).
  unfold store_queue, load_virtio, store_virtio, bind, gets, modify in Hst. simplify_eq.
  right. exists q. split; [done|]. rewrite Hdev3. cbn. by rewrite Hdev1.
Qed.

Lemma virtio_step_ok s s' :
  device_ok (vs_device s) -> virtio_step s s' -> device_ok (vs_device s').
Proof.
  intros Hd [id f n dma err Hn Hs|Hs|f err Hs|st err Hs|i n da aa ua err Hi Hn ??? Hs
    |i err Hs|i c err chain Hi Hs|i head len err Hi Hs|e ->].
  - by eapply init_device_ok.
  - unfold vart_virtio_device_destroy, store_virtio, modify in Hs. simplify_eq. by split.
  - by eapply set_features_device_ok.
  - by eapply set_status_device_ok.
  - apply configure_cases in Hs as [[_ ->]|(_ & q & Hhas & _ & Hok & ->)]; try done.
    apply with_queue_ok; [done|]. by split.
  - by eapply reset_device_ok.
  - destruct (pop_device _ _ _ _ _ _ _ Hi Hs) as [->|(q & Hhas & ->)]; [done|].
    apply with_queue_ok; [done|]. destruct (has_queue_ok _ _ _ Hd Hhas) as [? ? Hr].
    split; cbn; [apply u16_range|done|].
    intros Hrdy. destruct (Hr Hrdy). by split.
  - destruct (push_used_device _ _ _ _ _ _ Hi Hs) as [->|(q & Hhas & ->)]; [done|].
    apply with_queue_ok; [done|]. destruct (has_queue_ok _ _ _ Hd Hhas) as [? ? Hr].
    split; cbn; [done|apply u16_range|]. intros Hrdy. destruct (Hr Hrdy). by split.
  - done.
Qed.
End Push.

(** Returning a buffer is safe against any guest as well. *)
Section PushSafe.
Context {E : Type} `{VirtioDma E} {ops : VartVirtioDmaOps} {I : E -> Prop}
  `{HD : !DmaTotal E ops I}.

Lemma queue_write_total q a data (s : VirtioState E) :
  q_dma q = ops -> u64_arg a -> buffer_ok data -> I (vs_env s) ->
  wp (virtio_queue_write q a data)
    (fun _ s' => vs_device s' = vs_device s /\ I (vs_env s')) s.
Proof using HD.
  intros Hops Ha Hb HI. unfold virtio_queue_write. rewrite Hops.
  destruct (dma_write ops) as [f|] eqn:Hf; [|by apply wp_ret].
  destruct (dma_write_total f a data (vs_env s) Hf Ha Hb HI) as (err & e' & Hr & HI').
  unfold wp, in_env. by rewrite Hr.
Qed.

Lemma virtio_store_bytes v :
  Forall byte_ok (virtio_store_le32 v) /\ Forall byte_ok (virtio_store_le16 v).
Proof. split; repeat constructor; apply u8_range. Qed.

Lemma push_used_total (s : VirtioState E) index head len :
  device_ok (vs_device s) -> 0 <= index -> queue_uses (vs_device s) index ops ->
  I (vs_env s) ->
  wp (vart_virtio_queue_push_used index head len)
    (fun _ s' => I (vs_env s') /\
       (vs_device s' = vs_device s \/
        exists q, has_queue (vs_device s) index q /\
          vs_device s' = with_queue (vs_device s) index
            (q <| q_next_used := u16 (q_next_used q + 1) |>))) s.
Proof using HD.
  intros Hd Hi Huse HI. unfold vart_virtio_queue_push_used. apply wp_bind.
  destruct (queue_get_cases s index Hi) as [(err & Herr & E0)|(q & Hhas & Hrdy & E0)];
    unfold wp at 1; rewrite E0; [apply wp_ret; by auto|].
  pose proof (has_queue_ok _ _ _ Hd Hhas) as [_ _ Hok]. specialize (Hok Hrdy).
  pose proof (queue_size_range q Hok) as Hsz. specialize (Huse q Hhas).
  destruct (_ <=? _); [apply wp_ret; by auto|]. destruct (Z.eqb_spec (q_size q) 0); [lia|].
  apply wp_bind. eapply wp_mono.
  { apply queue_write_total; [done|apply u64_range| |done].
    split; [|done]. apply Forall_app_2; apply virtio_store_bytes. }
  intros err s1 [Hd1 HI1]. destruct (err <? 0); [apply wp_ret; by auto|].
  apply wp_bind. unfold store_queue, load_virtio, store_virtio.
  apply wp_bind, wp_gets, wp_modify. eapply wp_mono.
  { apply queue_write_total; [done|apply u64_range| |done].
    split; [apply virtio_store_bytes|done]. }
  intros e2 s2 [Hd2 HI2]. split; [done|]. right. exists q. split; [done|].
  rewrite Hd2. cbn. by rewrite Hd1.
Qed.
End PushSafe.

(** In every history of calls on a virtio device, interleaved with
    arbitrary changes of guest memory by the driver, the negotiated features stay
    within those offered, there are at most 256 queues, and every ready queue has
    a power-of-two size of at most 1024 and aligned rings that do not wrap around
    the 64-bit address space. *)
Theorem virtio_reachable_ok {E : Type} `{VirtioDma E} (e : E) (s : VirtioState E) :
  rtc virtio_step (mkState zero_virtio e) s -> device_ok (vs_device s).
Proof.
  revert s. apply (rtc_ind_r (fun s => device_ok (vs_device s))); [by split|].
  intros s s' _ Hstep Hd. by eapply virtio_step_ok.
Qed.

(** A configuration that succeeds. *)
Lemma configure_run {E : Type} (s : VirtioState E) index q k da aa ua :
  has_queue (vs_device s) index q -> q_ready q = false -> 0 <= k <= 10 ->
  u64_arg da -> u64_arg aa -> u64_arg ua ->
  da mod 16 = 0 -> da + 16 * 2 ^ k <= 2 ^ 64 ->
  aa mod 2 = 0 -> aa + 4 + 2 * 2 ^ k <= 2 ^ 64 ->
  ua mod 4 = 0 -> ua + 4 + 8 * 2 ^ k <= 2 ^ 64 ->
  vart_virtio_queue_configure index (2 ^ k) da aa ua s =
    Ok (0, mkState (with_queue (vs_device s) index
      (q <| q_size := 2 ^ k |> <| q_last_avail := 0 |> <| q_next_used := 0 |>
         <| q_descriptor_address := da |> <| q_available_address := aa |>
         <| q_used_address := ua |> <| q_ready := true |>)) (vs_env s)).
Proof.
  intros (queues & Hq & Hin & Hl) Hrdy Hk Rd Ra Ru Hd Hd' Ha Ha' Hu Hu'. unfold u64_arg in *.
  assert (2 ^ k <= 2 ^ 10) by (apply Z.pow_le_mono_r; lia). assert (0 < 2 ^ k) by lia.
  unfold vart_virtio_queue_configure, load_virtio. unfold bind at 1, gets. rewrite Hq.
  destruct (Z.leb_spec (Z.of_nat (length queues)) index); [lia|].
  destruct (Z.eqb_spec (2 ^ k) 0); [lia|]. destruct (Z.ltb_spec 1024 (2 ^ k)); [lia|].
  assert (Z.land (2 ^ k) (2 ^ k - 1) = 0) as ->.
  { rewrite land_low_mask by lia. by rewrite Z.mod_same by lia. }
  change 15 with (2 ^ 4 - 1). change (Z.land aa 1) with (Z.land aa (2 ^ 1 - 1)).
  change 3 with (2 ^ 2 - 1). rewrite !land_low_mask by lia.
  change (2 ^ 4) with 16. change (2 ^ 1) with 2. change (2 ^ 2) with 4.
  rewrite Hd, Ha, Hu. cbn [negb orb Z.eqb]. rewrite Hl. cbn [deref].
  unfold bind at 1, ret at 1. rewrite Hrdy. unfold virtio_address_range_valid.
  destruct (Z.eqb_spec (2 ^ k * 16) 0); [lia|]. destruct (Z.eqb_spec (4 + 2 ^ k * 2) 0); [lia|].
  destruct (Z.eqb_spec (4 + 2 ^ k * 8) 0); [lia|]. cbn [orb].
  destruct (Z.leb_spec da (UINT64_MAX - (2 ^ k * 16 - 1))); [|lia].
  destruct (Z.leb_spec aa (UINT64_MAX - (4 + 2 ^ k * 2 - 1))); [|lia].
  destruct (Z.leb_spec ua (UINT64_MAX - (4 + 2 ^ k * 8 - 1))); [|lia].
  done.
Qed.

(** Configuring an idle queue succeeds exactly for the sizes 1, 2, 4, ...,
    1024 with the three rings aligned to 16, 2 and 4 bytes and inside the 64-bit
    address space; it then makes the queue ready with both indices at zero. *)
Theorem configure_accepts_iff {E : Type} `{VirtioDma E} (s : VirtioState E) index q
    size da aa ua :
  has_queue (vs_device s) index q -> q_ready q = false ->
  0 <= size <= UINT16_MAX -> u64_arg da -> u64_arg aa -> u64_arg ua ->
  let q' := q <| q_size := size |> <| q_last_avail := 0 |> <| q_next_used := 0 |>
    <| q_descriptor_address := da |> <| q_available_address := aa |>
    <| q_used_address := ua |> <| q_ready := true |> in
  vart_virtio_queue_configure index size da aa ua s =
    Ok (0, mkState (with_queue (vs_device s) index q') (vs_env s)) <->
  (exists k, 0 <= k <= 10 /\ size = 2 ^ k) /\
  da mod 16 = 0 /\ da + 16 * size <= 2 ^ 64 /\
  aa mod 2 = 0 /\ aa + 4 + 2 * size <= 2 ^ 64 /\
  ua mod 4 = 0 /\ ua + 4 + 8 * size <= 2 ^ 64.
Proof.
  intros Hhas Hrdy Hsz Rd Ra Ru q'.
  assert (0 <= index) as Hi by (destruct Hhas as (? & _ & ? & _); lia). split.
  - intros Hs. apply configure_cases in Hs as [[? _]|(_ & q0 & Hhas0 & _ & [Hk Hd Ha Hu] & _)];
      try done; try lia. cbn in Hk, Hd, Ha, Hu.
    destruct Hd as (? & ? & ?), Ha as (? & ? & ?), Hu as (? & ? & ?). split_and!; done || lia.
  - intros ((k & Hk & ->) & Hd & Hd' & Ha & Ha' & Hu & Hu'). by apply configure_run.
Qed.

(** Ring indices are free-running 16-bit counters; because the size divides
    2^16, incrementing one always moves to the next slot. *)
Lemma next_slot q x :
  queue_ready_ok q -> ((x + 1) mod 2 ^ 16) mod q_size q = (x mod q_size q + 1) mod q_size q.
Proof.
  intros [(k & Hk & ->) _ _ _].
  replace (2 ^ 16) with (2 ^ k * 2 ^ (16 - k)) by (rewrite <- Z.pow_add_r; [f_equal|..]; lia).
  rewrite Z.rem_mul_r by lia.
  rewrite (Z.mul_comm (2 ^ k)), Z.mod_add, Z.mod_mod by lia.
  by rewrite Zplus_mod_idemp_l.
Qed.

(** A DMA environment that records the writes that succeed, in order. *)
Class DmaLog (E : Type) `{VirtioDma E} (log : E -> list (Z * list Z)) : Prop :=
  dma_write_log f o a data e err e' :
    call_dma_write f o a data e = Ok (err, e') ->
    log e' = if err <? 0 then log e else log e ++ [(a, data)].

Lemma queue_write_log {E} `{DmaLog E log} q a data (s : VirtioState E) err s' :
  virtio_queue_write q a data s = Ok (err, s') -> 0 <= err ->
  log (vs_env s') = log (vs_env s) ++ [(a, data)].
Proof.
  unfold virtio_queue_write, in_env. destruct (dma_write _) as [f|].
  2: { intros [= <- <-]. lia. }
  destruct (call_dma_write f _ _ _ _) as [[e env]| |] eqn:Hc; [|done|done].
  intros [= <- <-] He. cbn. rewrite (dma_write_log _ _ _ _ _ _ _ Hc).
  destruct (Z.ltb_spec e 0); [lia|done].
Qed.

(** Returning a buffer publishes it correctly: a successful
    [vart_virtio_queue_push_used] makes exactly two DMA writes, first the used
    element (the chain's head and the length, little-endian) in the current
    slot of the used ring, then the incremented index, so that the driver never
    sees the index before the element; the next buffer goes to the next slot. *)
Theorem push_used_publishes {E : Type} `{VirtioDma E} (log : E -> list (Z * list Z))
    `{!DmaLog E log} (s s' : VirtioState E) index q head len :
  device_ok (vs_device s) -> has_queue (vs_device s) index q -> q_ready q = true ->
  0 <= head -> 0 <= len <= UINT32_MAX ->
  vart_virtio_queue_push_used index head len s = Ok (0, s') ->
  head < q_size q /\
  exists element published q',
    log (vs_env s') = log (vs_env s) ++
      [(used_element_at q, element); (q_used_address q + 2, published)] /\
    load_le (take 4 element) = head /\ load_le (drop 4 element) = len /\
    load_le published = (q_next_used q + 1) mod 2 ^ 16 /\
    vs_device s' = with_queue (vs_device s) index q' /\
    q_next_used q' = (q_next_used q + 1) mod 2 ^ 16 /\
    q_next_used q' mod q_size q' = (q_next_used q mod q_size q + 1) mod q_size q.
Proof.
  intros Hd Hhas Hrdy Hh Hlen Hp. unfold vart_virtio_queue_push_used in Hp.
  rewrite (bind_eq _ _ _ _ _ (queue_get_ready s index q Hhas Hrdy)) in Hp.
  pose proof (has_queue_ok _ _ _ Hd Hhas) as [_ Hnu Hok]. specialize (Hok Hrdy).
  pose proof (queue_size_range q Hok) as Hsz. destruct (qr_used q Hok) as (_ & Hu0 & Hu1).
  destruct (Z.leb_spec (q_size q) head); [unfold ret in Hp; simplify_eq|].
  destruct (Z.eqb_spec (q_size q) 0); [lia|].
  pose proof (Z.mod_pos_bound (q_next_used q) (q_size q) ltac:(lia)).
  apply bind_Ok in Hp as (e1 & s1 & Hw1 & Hp).
  destruct (Z.ltb_spec e1 0); [unfold ret in Hp; simplify_eq; lia|].
  apply bind_Ok in Hp as ([] & s2 & Hst & Hw2).
  pose proof (queue_write_log _ _ _ _ _ _ Hw1 ltac:(lia)) as Hlog1.
  pose proof (queue_write_log _ _ _ _ _ _ Hw2 ltac:(lia)) as Hlog2.
  apply queue_write_frame in Hw1, Hw2.
  unfold store_queue, load_virtio, store_virtio, bind, gets, modify in Hst. simplify_eq. cbn in *.
  split; [done|].
  exists (store_le 4 head ++ store_le 4 len), (store_le 2 (u16 (q_next_used q + 1))), (q <| q_next_used := u16 (q_next_used q + 1) |>).
  split_and!.
  - rewrite Hlog2, Hlog1, <- app_assoc. unfold used_element_at.
    rewrite !u64_small by lia. cbn.
    replace (q_used_address q + 4 + q_next_used q mod q_size q * 8)
      with (q_used_address q + 4 + 8 * (q_next_used q mod q_size q)) by lia.
    done.
  - rewrite take_app_length' by done. rewrite load_store_le. apply Z.mod_small. lia.
  - rewrite drop_app_length' by done. rewrite load_store_le. apply Z.mod_small. lia.
  - rewrite load_store_le. unfold u16. apply Z.mod_small.
    apply Z.mod_pos_bound. lia.
  - rewrite Hw2. by rewrite Hw1.
  - done.
  - cbn. by apply (next_slot q).
Qed.

(** * A concrete device

    Guest memory is a finite map of bytes (0 elsewhere) with a log of writes;
    queue 0 has size 4, descriptors at 0x1000, available ring at 0x2000 and used
    ring at 0x3000; the driver has queued the chain 2, 0. *)
Module VirtioDemo.
Record Guest := mkGuest { g_bytes : gmap Z Z; g_log : list (Z * list Z) }.

Definition load (g : Guest) (a : Z) (n : nat) : list Z :=
  map (fun i => u8 (default 0 (g_bytes g !! (a + Z.of_nat i)))) (seq 0 n).

#[export] Instance dma : VirtioDma Guest := {|
  call_calloc := ret true;
  call_dma_read _ _ a buf := fun g => Ok ((0, load g a (length buf)), g);
  call_dma_write _ _ a data := fun g => Ok (0, mkGuest (g_bytes g) (g_log g ++ [(a, data)]));
|}.

Lemma demo_load_bytes g a n : Forall byte_ok (load g a n).
Proof.
  apply Forall_map, Forall_forall. intros i _. unfold byte_ok. cbn.
  pose proof (u8_range (default 0 (g_bytes g !! (a + Z.of_nat i)))). lia.
Qed.
Lemma demo_load_length g a n : length (load g a n) = n.
Proof. unfold load. by rewrite length_map, length_seq. Qed.

#[export] Instance dma_total ops : DmaTotal Guest ops (fun _ => True).
Proof.
  split; intros; [|by eexists _, _]. eexists _, _, _. split; [done|].
  split_and!; [apply demo_load_length|apply demo_load_bytes|done].
Qed.
#[export] Instance dma_memory : DmaMemory Guest load.
Proof. split; [done|apply demo_load_length|apply demo_load_bytes]. Qed.
#[export] Instance dma_log : DmaLog Guest g_log.
Proof. intros f o a data e err e'. by intros [= <- <-]. Qed.

Definition exec {A} (m : M (VirtioState Guest) A) (s : VirtioState Guest) :=
  match m s with Ok (_, s') => s' | _ => s end.

(** Descriptor 2 (flags NEXT, next 0), descriptor 0 (flags WRITE); available
    index 1, ring slot 0 holds head 2. *)
Definition guest : Guest := mkGuest
  (list_to_map [(0x102c, 1); (0x102e, 0); (0x1020, 0x40); (0x1028, 8);
                (0x100c, 2); (0x1008, 16); (0x2002, 1); (0x2004, 2)]) [].
Definition s0 : VirtioState Guest := mkState zero_virtio guest.
Definition ops := Some (mkDmaOps (Some (fn_external 1)) (Some (fn_external 2)) None).
Definition s1 := exec (vart_virtio_device_init 2 0x30 1 ops) s0.
Definition s2 := exec (vart_virtio_queue_configure 0 4 0x1000 0x2000 0x3000) s1.
Definition q2 : VartVirtioQueue :=
  mkQueue 4 0 0 0x1000 0x2000 0x3000 (mkDmaOps (Some (fn_external 1)) (Some (fn_external 2)) None) true.
Definition empty_chain : VartVirtioChain := mkChain 0 0 [].

Lemma virtio_demo_steps : rtc virtio_step s0 s2.
Proof.
  apply (rtc_l _ _ s1).
  { apply (step_init _ _ 2 0x30 1 ops 0); [lia|]. vm_compute. reflexivity. }
  apply rtc_once.
  apply (step_configure _ _ 0 4 0x1000 0x2000 0x3000 0); try (unfold u64_arg; lia).
  vm_compute. reflexivity.
Qed.

Lemma s2_ok : device_ok (vs_device s2).
Proof.
  assert (device_ok (vs_device s0)) as H0 by (by split).
  assert (forall a b, rtc virtio_step a b -> device_ok (vs_device a) -> device_ok (vs_device b)).
  { induction 1 as [|a b c Hab _ IH]; [done|]. intros Ha. apply IH. by eapply virtio_step_ok. }
  eauto using virtio_demo_steps.
Qed.

Lemma s2_queue : has_queue (vs_device s2) 0 q2.
Proof. eexists. split_and!; [vm_compute; reflexivity|lia|cbn; lia|reflexivity]. Qed.

Lemma virtio_reachable_ok_witness : device_ok (vs_device s2).
Proof. apply (virtio_reachable_ok guest s2). apply virtio_demo_steps. Defined.

Lemma pop_safe_witness :
  exists err chain s',
    vart_virtio_queue_pop pop_fuel 0 (Some empty_chain) s2 = Ok ((err, chain), s') /\
    pop_outcome s2 0 err chain s' /\ True.
Proof.
  apply (pop_safe (ops := q_dma q2) (I := fun _ => True) s2 0 empty_chain);
    [apply s2_ok|lia| |done].
  intros q Hq. by rewrite (has_queue_functional _ _ _ _ Hq s2_queue).
Defined.

Definition popped : VartVirtioChain :=
  mkChain 2 2 [mkDescriptor 0x40 8 1 0; mkDescriptor 0 16 2 0].
Definition s3 := exec (vart_virtio_queue_pop pop_fuel 0 (Some empty_chain)) s2.

Lemma pop_correct_witness :
  exists idxs, is_chain 4 (descriptor_at (load := load) guest q2) 2 idxs /\
    popped = mkChain 2 (Z.of_nat (length idxs)) (map (descriptor_at (load := load) guest q2) idxs) /\
    s3 = mkState (with_queue (vs_device s2) 0
           (q2 <| q_last_avail := (q_last_avail q2 + 1) mod 2 ^ 16 |>)) guest.
Proof.
  apply (pop_correct s2 0 q2 2 empty_chain).
  - apply s2_ok.
  - apply s2_queue.
  - reflexivity.
  - eexists. reflexivity.
  - split_and!; vm_compute; congruence.
  - vm_compute. reflexivity.
Defined.

Definition q1 : VartVirtioQueue :=
  mkQueue 0 0 0 0 0 0 (mkDmaOps (Some (fn_external 1)) (Some (fn_external 2)) None) false.

Lemma configure_accepts_iff_witness :
  (exists k, 0 <= k <= 10 /\ 4 = 2 ^ k) /\
  0x1000 mod 16 = 0 /\ 0x1000 + 16 * 4 <= 2 ^ 64 /\
  0x2000 mod 2 = 0 /\ 0x2000 + 4 + 2 * 4 <= 2 ^ 64 /\
  0x3000 mod 4 = 0 /\ 0x3000 + 4 + 8 * 4 <= 2 ^ 64.
Proof.
  apply (configure_accepts_iff s1 0 q1 4 0x1000 0x2000 0x3000).
  - eexists. split_and!; [vm_compute; reflexivity|lia|cbn; lia|reflexivity].
  - reflexivity.
  - lia.
  - unfold u64_arg. lia.
  - unfold u64_arg. lia.
  - unfold u64_arg. lia.
  - vm_compute. reflexivity.
Defined.

Definition s4 := exec (vart_virtio_queue_push_used 0 2 16) s3.
Definition q3 := q2 <| q_last_avail := 1 |>.

Lemma s3_ok : device_ok (vs_device s3).
Proof.
  apply (virtio_step_ok s2); [apply s2_ok|].
  apply (step_pop _ _ 0 empty_chain 0 (Some popped)); [lia|]. vm_compute. reflexivity.
Qed.

Lemma push_used_publishes_witness :
  2 < q_size q3 /\
  exists element published q',
    g_log (vs_env s4) = g_log (vs_env s3) ++
      [(used_element_at q3, element); (q_used_address q3 + 2, published)] /\
    load_le (take 4 element) = 2 /\ load_le (drop 4 element) = 16 /\
    load_le published = (q_next_used q3 + 1) mod 2 ^ 16 /\
    vs_device s4 = with_queue (vs_device s3) 0 q' /\
    q_next_used q' = (q_next_used q3 + 1) mod 2 ^ 16 /\
    q_next_used q' mod q_size q' = (q_next_used q3 mod q_size q3 + 1) mod q_size q3.
Proof.
  apply (push_used_publishes g_log s3 s4 0 q3 2 16).
  - apply s3_ok.
  - eexists. split_and!; [vm_compute; reflexivity|lia|cbn; lia|reflexivity].
  - reflexivity.
  - lia.
  - lia.
  - vm_compute. reflexivity.
Defined.
End VirtioDemo.
