(* ===== verification/Msix.v ===== *)
(** MSI-X and device DMA: the message-signalled interrupts and the DMA entry
    points of a PCI function in [src/hw/pci/pci.c].

    The table and the pending-bit array are byte arrays that the guest reads and
    writes through MMIO regions; raising a vector sets its pending bit and
    delivers it when it is not masked, and unmasking delivers what is pending. *)

From stdpp Require Import base tactics numbers list gmap.
From Stdlib Require Import ZArith Lia.
From S2P Require Import Prelude Bytes Machine AddressSpace Iommu Devices.

(** What the injector of a function does: the function, the vector and the
    opaque pointer; and its remapper, which may rewrite the message's address
    and data. *)
Class MsixCallbacks := {
  call_msix_inject : fnptr -> ptr -> Z -> option ptr -> M World Z;
  call_msix_remap : fnptr -> ptr -> Z -> Z -> Z -> option ptr -> M World (Z * Z * Z);
}.

(** The [size] bytes at [offset] of an array; outside it is undefined. *)
Definition slice (l : list Z) (offset size : Z) : M World (list Z) :=
  if (0 <=? offset) && (offset + size <=? Z.of_nat (length l))
  then ret (take (Z.to_nat size) (drop (Z.to_nat offset) l))
  else undefined.

Definition config_load_le (l : list Z) (offset size : Z) : M World Z :=
  let* data := slice l offset size in ret (load_le data).

(** The array after storing the [size] low bytes of [value] at [offset]. *)
Definition config_store_le (l : list Z) (offset size value : Z) : M World (list Z) :=
  let* _ := slice l offset size in
  ret (take (Z.to_nat offset) l ++ store_le (Z.to_nat size) value ++
       drop (Z.to_nat (offset + size)) l).

Definition load_msix (device : ptr) : M World VartPciMsix :=
  let* dev := load_device device in ret (pci_msix dev).
Definition store_msix (device : ptr) (m : VartPciMsix) : M World unit :=
  let* dev := load_device device in store_device device (dev <| pci_msix := m |>).

Definition pba_size (m : VartPciMsix) : Z := (msix_vector_count m + 63) / 64 * 8.

Section Msix.
Context `{MsixCallbacks} `{IrqCallbacks}.

(** The message itself: through the vector's interrupt line, or else through
    the injector. *)
Definition msix_send (msix : VartPciMsix) (route : option ptr) (device : ptr)
    (vector : Z) : M World Z :=
  match route with
  | None =>
      match msix_inject msix with
      | None => ret (-ENOTCONN)
      | Some f => call_msix_inject f device vector (msix_inject_opaque msix)
      end
  | Some irq => vart_irq_pulse (Some irq)
  end.

Definition pci_msix_deliver (device : ptr) (vector : Z) : M World Z :=
  let* msix := load_msix device in
  if negb (msix_enabled msix) || msix_function_mask msix then ret (-EAGAIN)
  else
    let* vector_control := config_load_le (msix_table msix) (vector * 16 + 12) 4 in
    if bits vector_control 1 then ret (-EAGAIN)
    else
      let* route := deref (msix_irq_routes msix !! Z.to_nat vector) in
      let* err := msix_send msix route device vector in
      if err <? 0 then ret err
      else
        let* msix := load_msix device in
        let* b := deref (msix_pba msix !! Z.to_nat (vector / 8)) in
        store_msix device (msix <| msix_pba ::= <[Z.to_nat (vector / 8) :=
          Z.land b (u8 (Z.lnot (Z.shiftl 1 (vector mod 8))))]> |>) ;;;
        ret 0.

(** The loop over the vectors from [vector] on. *)
Fixpoint flush_loop (device : ptr) (n : nat) (vector : Z) : M World unit :=
  match n with
  | O => ret tt
  | S n =>
      let* msix := load_msix device in
      let* b := deref (msix_pba msix !! Z.to_nat (vector / 8)) in
      (if bits b (Z.shiftl 1 (vector mod 8))
       then pci_msix_deliver device vector ;;; ret tt
       else ret tt) ;;;
      flush_loop device n (vector + 1)
  end.

Definition pci_msix_flush_pending (device : ptr) : M World unit :=
  let* msix := load_msix device in
  if negb (msix_configured msix) || negb (msix_enabled msix) ||
     msix_function_mask msix
  then ret tt
  else flush_loop device (Z.to_nat (msix_vector_count msix)) 0.

Definition pci_msix_table_read (device : ptr) (offset size value : Z)
    : M World (Z * Z) :=
  let* msix := load_msix device in
  let table_size := msix_vector_count msix * 16 in
  if (table_size <? offset) || (table_size - offset <? size)
  then ret (-EINVAL, value)
  else
    let* v := config_load_le (msix_table msix) offset size in
    ret (0, v).

Definition pci_msix_table_write (device : ptr) (offset size value : Z)
    : M World Z :=
  let* msix := load_msix device in
  let table_size := msix_vector_count msix * 16 in
  if (table_size <? offset) || (table_size - offset <? size) then ret (-EINVAL)
  else
    let* table := config_store_le (msix_table msix) offset size value in
    store_msix device (msix <| msix_table := table |>) ;;;
    pci_msix_flush_pending device ;;;
    ret 0.

Definition pci_msix_pba_read (device : ptr) (offset size value : Z)
    : M World (Z * Z) :=
  let* msix := load_msix device in
  if (pba_size msix <? offset) || (pba_size msix - offset <? size)
  then ret (-EINVAL, value)
  else
    let* v := config_load_le (msix_pba msix) offset size in
    ret (0, v).

Definition pci_msix_pba_write (device : ptr) (offset size value : Z)
    : M World Z :=
  let* msix := load_msix device in
  if (pba_size msix <? offset) || (pba_size msix - offset <? size)
  then ret (-EINVAL) else ret 0.

Definition vart_pci_device_connect_msix (device : option ptr) (vector : Z)
    (irq : option ptr) : M World Z :=
  match device, irq with
  | Some d, Some i =>
      let* msix := load_msix d in
      let* line := load_irq i in
      if negb (msix_configured msix) || (msix_vector_count msix <=? vector) ||
         bool_decide (irq_set line = None)
      then ret (-EINVAL)
      else
        store_msix d (msix <| msix_irq_routes ::= <[Z.to_nat vector := Some i]> |>) ;;;
        ret 0
  | _, _ => ret (-EINVAL)
  end.

Definition vart_pci_device_set_msix_injector (device : option ptr)
    (inject : option fnptr) (opaque : option ptr) : M World Z :=
  match device with
  | None => ret (-EINVAL)
  | Some d =>
      let* msix := load_msix d in
      if negb (msix_configured msix) then ret (-EINVAL)
      else
        store_msix d (msix <| msix_inject := inject |>
                           <| msix_inject_opaque := opaque |>) ;;;
        ret 0
  end.

Definition vart_pci_device_set_msix_remapper (device : option ptr)
    (remap : option fnptr) (opaque : option ptr) : M World Z :=
  match device with
  | None => ret (-EINVAL)
  | Some d =>
      let* msix := load_msix d in
      if negb (msix_configured msix) then ret (-EINVAL)
      else
        store_msix d (msix <| msix_remap := remap |>
                           <| msix_remap_opaque := opaque |>) ;;;
        ret 0
  end.

(** The error code, and the message's address and data afterwards. *)
Definition vart_pci_device_remap_msix_message (device : option ptr)
    (vector address data : Z) : M World (Z * Z * Z) :=
  match device with
  | None => ret (-EINVAL, address, data)
  | Some d =>
      let* msix := load_msix d in
      if negb (msix_configured msix) || (msix_vector_count msix <=? vector)
      then ret (-EINVAL, address, data)
      else
        match msix_remap msix with
        | None => ret (0, address, data)
        | Some f => call_msix_remap f d vector address data (msix_remap_opaque msix)
        end
  end.

Definition vart_pci_device_raise_msix (device : option ptr) (vector : Z)
    : M World Z :=
  match device with
  | None => ret (-EINVAL)
  | Some d =>
      let* msix := load_msix d in
      if negb (msix_configured msix) || (msix_vector_count msix <=? vector)
      then ret (-EINVAL)
      else
        let* b := deref (msix_pba msix !! Z.to_nat (vector / 8)) in
        store_msix d (msix <| msix_pba ::= <[Z.to_nat (vector / 8) :=
          Z.lor b (u8 (Z.shiftl 1 (vector mod 8)))]> |>) ;;;
        let* masked :=
          if negb (msix_enabled msix) || msix_function_mask msix then ret true
          else
            let* c := config_load_le (msix_table msix) (vector * 16 + 12) 4 in
            ret (bits c 1) in
        if masked : bool then ret 0 else pci_msix_deliver d vector
  end.
End Msix.

(** * DMA by a PCI function *)

Definition pci_dma_validate (device : option ptr) (requester_id : Z) : M World Z :=
  match device with
  | None => ret (-EPERM)
  | Some d =>
      let* dev := load_device d in
      if bool_decide (pci_bus dev = None) ||
         negb (requester_id =? pci_requester_id dev) ||
         negb (pci_bus_master_enabled dev)
      then ret (-EPERM)
      else if bool_decide (dev_dma_as (pci_parent dev) = None) then ret (-ENODEV)
      else ret 0
  end.

Section Dma.
Context `{TranslateCallbacks}.

Definition vart_pci_device_dma_read_with_requester_id (fuel : nat)
    (device : option ptr) (requester_id guest_addr : Z) (data : option (list Z))
    (size : Z) : M World (Z * option (list Z)) :=
  let* err := pci_dma_validate device requester_id in
  if err <? 0 then ret (err, data)
  else
    let* d := deref device in
    let* dev := load_device d in
    let* space := deref (dev_dma_as (pci_parent dev)) in
    vart_address_space_read_buffer fuel space guest_addr data size.

Definition vart_pci_device_dma_write_with_requester_id (fuel : nat)
    (device : option ptr) (requester_id guest_addr : Z) (data : option (list Z))
    (size : Z) : M World Z :=
  let* err := pci_dma_validate device requester_id in
  if err <? 0 then ret err
  else
    let* d := deref device in
    let* dev := load_device d in
    let* space := deref (dev_dma_as (pci_parent dev)) in
    vart_address_space_write_buffer fuel space guest_addr data size.

Definition vart_pci_device_dma_read (fuel : nat) (device : option ptr)
    (guest_addr : Z) (data : option (list Z)) (size : Z)
    : M World (Z * option (list Z)) :=
  let* id := vart_pci_device_requester_id device in
  vart_pci_device_dma_read_with_requester_id fuel device id guest_addr data size.

Definition vart_pci_device_dma_write (fuel : nat) (device : option ptr)
    (guest_addr : Z) (data : option (list Z)) (size : Z) : M World Z :=
  let* id := vart_pci_device_requester_id device in
  vart_pci_device_dma_write_with_requester_id fuel device id guest_addr data size.
End Dma.

(** * Pending and masked vectors *)

Definition pending (m : VartPciMsix) (v : Z) : bool :=
  match msix_pba m !! Z.to_nat (v / 8) with
  | Some b => Z.testbit b (v mod 8)
  | None => false
  end.

Definition vector_masked (m : VartPciMsix) (v : Z) : bool :=
  bits (load_le (take 4 (drop (Z.to_nat (v * 16 + 12)) (msix_table m)))) 1.

Record msix_ok (m : VartPciMsix) : Prop := {
  mo_count : 1 <= msix_vector_count m <= 2048;
  mo_table : Z.of_nat (length (msix_table m)) = msix_vector_count m * 16;
  mo_pba : Z.of_nat (length (msix_pba m)) = pba_size m;
  mo_bytes : Forall byte_ok (msix_pba m);
  mo_routes : Z.of_nat (length (msix_irq_routes m)) = msix_vector_count m;
}.

(** The same function with another pending array. *)
Definition with_pba (m : VartPciMsix) (pba : list Z) : VartPciMsix :=
  m <| msix_pba := pba |>.

Definition set_bit (b k : Z) : Z := Z.lor b (u8 (Z.shiftl 1 k)).
Definition clear_bit (b k : Z) : Z := Z.land b (u8 (Z.lnot (Z.shiftl 1 k))).

Lemma set_bit_spec b k j :
  byte_ok b -> 0 <= k < 8 -> 0 <= j < 8 ->
  byte_ok (set_bit b k) /\ Z.testbit (set_bit b k) j = Z.testbit b j || (j =? k).
Proof.
  intros Hb Hk Hj. unfold set_bit. rewrite Z.shiftl_1_l.
  assert (0 < 2 ^ k <= 2 ^ 7) by (split; [lia|apply Z.pow_le_mono_r; lia]).
  rewrite u8_small by lia. split.
  - unfold byte_ok in *. split; [apply Z.lor_nonneg; lia|].
    destruct (Z.eq_dec (Z.lor b (2 ^ k)) 0); [lia|].
    assert (0 <= Z.lor b (2 ^ k)) by (apply Z.lor_nonneg; lia).
    assert (Z.lor b (2 ^ k) < 2 ^ 8); [|lia]. apply Z.log2_lt_pow2; [lia|].
    rewrite Z.log2_lor by lia. rewrite Z.log2_pow2 by lia.
    destruct (Z.eq_dec b 0) as [->|]; [cbn; lia|].
    apply Z.max_lub_lt; [|lia]. apply Z.log2_lt_pow2; lia.
  - rewrite Z.lor_spec, Z.pow2_bits_eqb by lia. by rewrite (Z.eqb_sym k j).
Qed.

Lemma clear_bit_spec b k j :
  byte_ok b -> 0 <= k < 8 -> 0 <= j < 8 ->
  byte_ok (clear_bit b k) /\ Z.testbit (clear_bit b k) j = Z.testbit b j && negb (j =? k).
Proof.
  intros Hb Hk Hj. unfold clear_bit. rewrite Z.shiftl_1_l. split.
  - unfold byte_ok in *. pose proof (u8_range (Z.lnot (2 ^ k))).
    pose proof (land_nonneg_le b (u8 (Z.lnot (2 ^ k))) ltac:(lia)). lia.
  - rewrite Z.land_spec. f_equal. unfold u8. change 256 with (2 ^ 8).
    rewrite Z.mod_pow2_bits_low, Z.lnot_spec, Z.pow2_bits_eqb by lia.
    by rewrite (Z.eqb_sym k j).
Qed.

Section PendingBits.
Context (m : VartPciMsix) (Hm : msix_ok m) (v : Z) (Hv : 0 <= v < msix_vector_count m).

Lemma pba_index_lt : (Z.to_nat (v / 8) < length (msix_pba m))%nat.
Proof using All.
  pose proof (mo_pba _ Hm) as Hl. unfold pba_size in Hl.
  assert (v / 8 < (msix_vector_count m + 63) / 64 * 8); [|pose proof (Z.div_pos v 8); lia].
  Z.to_euclidean_division_equations. lia.
Qed.

Lemma pba_lookup : exists b, msix_pba m !! Z.to_nat (v / 8) = Some b /\ byte_ok b.
Proof using All.
  destruct (lookup_lt_is_Some_2 _ _ pba_index_lt) as [b Hb]. exists b. split; [done|].
  by eapply Forall_lookup_1; [apply Hm|].
Qed.

(** Replacing the byte of [v] by one that differs at most in the bit of [v]. *)
Lemma pending_update b' bit b :
  msix_pba m !! Z.to_nat (v / 8) = Some b -> byte_ok b' ->
  (forall j, 0 <= j < 8 -> Z.testbit b' j = if j =? v mod 8 then bit else Z.testbit b j) ->
  let m' := with_pba m (<[Z.to_nat (v / 8) := b']> (msix_pba m)) in
  msix_ok m' /\ forall u, 0 <= u -> pending m' u = if u =? v then bit else pending m u.
Proof using All.
  intros Hb Hb' Hbits m'. split.
  - destruct Hm. split; cbn; rewrite ?length_insert; try done. by apply Forall_insert.
  - intros u Hu. unfold pending. cbn.
    pose proof (Z.mod_pos_bound u 8 ltac:(lia)). pose proof pba_index_lt as Hlt.
    destruct (decide (Z.to_nat (u / 8) = Z.to_nat (v / 8))) as [Heq|Hne].
    + rewrite Heq, list_lookup_insert_eq, Hb, Hbits by done.
      assert (u / 8 = v / 8) by (pose proof (Z.div_pos u 8); pose proof (Z.div_pos v 8); lia).
      assert ((u mod 8 =? v mod 8) = (u =? v)) as ->; [|done].
      apply Bool.eq_iff_eq_true. rewrite !Z.eqb_eq.
      Z.to_euclidean_division_equations. lia.
    + rewrite list_lookup_insert_ne by done.
      destruct (Z.eqb_spec u v) as [->|]; [done|done].
Qed.

Lemma pending_set b : msix_pba m !! Z.to_nat (v / 8) = Some b -> byte_ok b ->
  let m' := with_pba m (<[Z.to_nat (v / 8) := set_bit b (v mod 8)]> (msix_pba m)) in
  msix_ok m' /\ forall u, 0 <= u -> pending m' u = if u =? v then true else pending m u.
Proof using All.
  intros Hb Hbyte. pose proof (Z.mod_pos_bound v 8 ltac:(lia)) as Hmod.
  apply (pending_update _ true b Hb).
  - by apply (set_bit_spec b (v mod 8) 0); [| |lia].
  - intros j Hj. rewrite (proj2 (set_bit_spec b (v mod 8) j Hbyte Hmod Hj)).
    destruct (j =? v mod 8); cbn; [by rewrite orb_true_r|by rewrite orb_false_r].
Qed.

Lemma pending_clear b : msix_pba m !! Z.to_nat (v / 8) = Some b -> byte_ok b ->
  let m' := with_pba m (<[Z.to_nat (v / 8) := clear_bit b (v mod 8)]> (msix_pba m)) in
  msix_ok m' /\ forall u, 0 <= u -> pending m' u = if u =? v then false else pending m u.
Proof using All.
  intros Hb Hbyte. pose proof (Z.mod_pos_bound v 8 ltac:(lia)) as Hmod.
  apply (pending_update _ false b Hb).
  - by apply (clear_bit_spec b (v mod 8) 0); [| |lia].
  - intros j Hj. rewrite (proj2 (clear_bit_spec b (v mod 8) j Hbyte Hmod Hj)).
    destruct (j =? v mod 8); cbn; [by rewrite andb_false_r|by rewrite andb_true_r].
Qed.
End PendingBits.

(** * Delivery *)

Definition msix_of (w : World) (d : ptr) : option VartPciMsix :=
  pci_msix <$> w_devices w !! d.

(** Sending a message over a route that is set up ([ready]) always returns,
    appends to the log of messages whether it was accepted, and changes no
    function's own record nor the set-up of the routes. *)
Class MessageLog `{MsixCallbacks} `{IrqCallbacks} (d : ptr)
    (ready : World -> option fnptr -> option ptr -> Prop) (sent : World -> list (Z * bool)) : Prop := {
  send_logged m route v w : ready w (msix_inject m) route -> exists err w',
    msix_send m route d v w = Ok (err, w') /\ w_devices w' = w_devices w /\
    (forall i r, ready w i r -> ready w' i r) /\
    sent w' = sent w ++ [(v, negb (err <? 0))];
  log_frame w devs : sent (w <| w_devices := devs |>) = sent w;
  ready_frame w devs i r : ready w i r -> ready (w <| w_devices := devs |>) i r;
}.

Section Delivery.
Context `{HMC : MsixCallbacks} `{HIC : IrqCallbacks} (d : ptr)
  (ready : World -> option fnptr -> option ptr -> Prop) (sent : World -> list (Z * bool))
  `{HL : !MessageLog d ready sent}.

Definition routes_ready (w : World) (m : VartPciMsix) : Prop :=
  Forall (ready w (msix_inject m)) (msix_irq_routes m).

Lemma load_msix_eq w m : msix_of w d = Some m -> load_msix d w = Ok (m, w).
Proof.
  unfold msix_of, load_msix, load_device. run_unfold.
  destruct (w_devices w !! d); [|done]. cbn. by intros [= <-].
Qed.

Lemma store_msix_devices w m m' : msix_of w d = Some m ->
  exists devs, store_msix d m' w = Ok (tt, w <| w_devices := devs |>) /\
    msix_of (w <| w_devices := devs |>) d = Some m'.
Proof.
  unfold msix_of, store_msix, load_device, store_device. run_unfold.
  destruct (w_devices w !! d) as [dev|]; [|done]. intros _. eexists. split; [done|].
  cbn. by rewrite lookup_insert_eq.
Qed.

(** Storing the MSI-X state changes nothing else. *)
Lemma store_msix_eq w m m' :
  msix_of w d = Some m ->
  exists w', store_msix d m' w = Ok (tt, w') /\ msix_of w' d = Some m' /\
    sent w' = sent w /\ forall i r, ready w i r -> ready w' i r.
Proof using HL.
  unfold msix_of, store_msix, load_device, store_device. run_unfold.
  destruct (w_devices w !! d) as [dev|]; [|done]. intros _. eexists. split; [done|].
  cbn. rewrite lookup_insert_eq. split; [done|].
  split; [apply (log_frame w (<[d := dev <| pci_msix := m' |>]> (w_devices w)))|].
  intros i r. apply (ready_frame w (<[d := dev <| pci_msix := m' |>]> (w_devices w))).
Qed.

Lemma vector_control_eq w m v :
  msix_ok m -> 0 <= v < msix_vector_count m ->
  config_load_le (msix_table m) (v * 16 + 12) 4 w =
    Ok (load_le (take 4 (drop (Z.to_nat (v * 16 + 12)) (msix_table m))), w).
Proof.
  intros Hm Hv. unfold config_load_le, slice. pose proof (mo_table _ Hm).
  destruct (Z.leb_spec 0 (v * 16 + 12)), (Z.leb_spec (v * 16 + 12 + 4)
    (Z.of_nat (length (msix_table m)))); try lia. done.
Qed.

(** The vector may be delivered now. *)
Definition deliverable (m : VartPciMsix) (v : Z) : bool :=
  msix_enabled m && negb (msix_function_mask m) && negb (vector_masked m v).

(** Delivering a deliverable vector sends one message and clears its pending
    bit exactly when the message was accepted. *)
Lemma deliver_eq w m v :
  msix_of w d = Some m -> msix_ok m -> 0 <= v < msix_vector_count m ->
  routes_ready w m -> deliverable m v = true ->
  exists err w' pba, pci_msix_deliver d v w = Ok (err, w') /\
    msix_of w' d = Some (with_pba m pba) /\ msix_ok (with_pba m pba) /\
    routes_ready w' (with_pba m pba) /\
    sent w' = sent w ++ [(v, negb (err <? 0))] /\
    forall u, 0 <= u -> pending (with_pba m pba) u =
      if u =? v then pending m v && (err <? 0) else pending m u.
Proof using HL.
  intros Hd Hm Hv Hrd Hdel. unfold deliverable in Hdel.
  rewrite !andb_true_iff, !negb_true_iff in Hdel. destruct Hdel as [[He Hf] Hmask].
  unfold pci_msix_deliver. rewrite (bind_eq _ _ _ _ _ (load_msix_eq w m Hd)), He, Hf.
  cbn [negb orb]. rewrite (bind_eq _ _ _ _ _ (vector_control_eq w m v Hm Hv)).
  fold (vector_masked m v). rewrite Hmask.
  destruct (lookup_lt_is_Some_2 (msix_irq_routes m) (Z.to_nat v)) as [route Hroute].
  { pose proof (mo_routes _ Hm). lia. }
  rewrite Hroute. unfold bind at 1. cbn [deref ret].
  destruct (send_logged m route v w) as (err & w1 & Hsend & Hdev & Hkeep & Hlog).
  { by eapply Forall_lookup_1 in Hroute. }
  assert (routes_ready w1 m) as Hrd1
    by (eapply Forall_impl; [exact Hrd|intros r; apply Hkeep]).
  unfold ret at 1. rewrite (bind_eq _ _ _ _ _ Hsend).
  assert (msix_of w1 d = Some m) as Hd1 by (unfold msix_of in *; by rewrite Hdev).
  destruct (Z.ltb_spec err 0) as [Herr|Herr].
  - exists err, w1, (msix_pba m). destruct (Z.ltb_spec err 0); [|lia].
    assert (with_pba m (msix_pba m) = m) as -> by (by destruct m).
    split_and!; try done. intros u _. destruct (Z.eqb_spec u v) as [->|]; [|done].
    by rewrite andb_true_r.
  - rewrite (bind_eq _ _ _ _ _ (load_msix_eq w1 m Hd1)).
    destruct (pba_lookup m Hm v Hv) as (b & Hb & Hbyte). rewrite Hb.
    pose proof (Z.mod_pos_bound v 8 ltac:(lia)) as Hmod.
    set (m' := with_pba m (<[Z.to_nat (v / 8) := clear_bit b (v mod 8)]> (msix_pba m))).
    destruct (store_msix_eq w1 m m' Hd1) as (w2 & Hst & Hd2 & Hlog2 & Hkeep2).
    exists 0, w2, (<[Z.to_nat (v / 8) := clear_bit b (v mod 8)]> (msix_pba m)).
    destruct (pending_clear m Hm v Hv b Hb Hbyte) as [Hok Hpend].
    split_and!; try done.
    + unfold bind at 1. cbn [deref]. unfold ret at 1.
      change (msix_pba m) with (msix_pba m) in *. unfold bind. unfold m', with_pba in Hst.
      unfold clear_bit in Hst. cbn in Hst |- *. unfold update in *. by rewrite Hst.
    + eapply Forall_impl; [exact Hrd1|]. intros r. apply Hkeep2.
    + by rewrite Hlog2, Hlog.
    + intros u Hu. rewrite Hpend by done. by destruct (u =? v); [rewrite andb_false_r|].
Qed.

Lemma deliver_refused w m v :
  msix_of w d = Some m -> msix_ok m -> 0 <= v < msix_vector_count m ->
  deliverable m v = false -> pci_msix_deliver d v w = Ok (-EAGAIN, w).
Proof.
  intros Hd Hm Hv Hdel. unfold pci_msix_deliver.
  rewrite (bind_eq _ _ _ _ _ (load_msix_eq w m Hd)). unfold deliverable in Hdel.
  destruct (msix_enabled m), (msix_function_mask m); try done. cbn [negb orb andb] in *.
  rewrite (bind_eq _ _ _ _ _ (vector_control_eq w m v Hm Hv)).
  fold (vector_masked m v). by destruct (vector_masked m v).
Qed.
End Delivery.

Section Flush.
Context `{HMC : MsixCallbacks} `{HIC : IrqCallbacks} (d : ptr)
  (ready : World -> option fnptr -> option ptr -> Prop) (sent : World -> list (Z * bool))
  `{HL : !MessageLog d ready sent}.

(** The pending vectors among [n] from [v] on that may be delivered. *)
Definition due (m : VartPciMsix) (v : Z) (n : nat) : list Z :=
  filter (fun u => pending m u = true /\ deliverable m u = true) (seqZ v (Z.of_nat n)).

Lemma deliverable_with_pba m pba v : deliverable (with_pba m pba) v = deliverable m v.
Proof. done. Qed.

(** Filtering looks at the vectors of the list only. *)
Lemma due_ext m m' v n :
  (forall u, v <= u -> pending m' u = pending m u /\ deliverable m' u = deliverable m u) ->
  due m' v n = due m v n.
Proof.
  intros Heq. unfold due. revert v Heq. induction n as [|n IH]; intros v Heq; [done|].
  rewrite Nat2Z.inj_succ, seqZ_cons by lia. rewrite Z.pred_succ.
  destruct (Heq v ltac:(lia)) as [H1 H2]. rewrite !filter_cons, H1, H2.
  rewrite IH by (intros u Hu; apply Heq; lia). done.
Qed.

Lemma flush_loop_correct n : forall v w m,
  msix_of w d = Some m -> msix_ok m -> routes_ready ready w m ->
  msix_enabled m = true -> msix_function_mask m = false -> 0 <= v -> v + Z.of_nat n <= msix_vector_count m ->
  exists w' pba log, flush_loop d n v w = Ok (tt, w') /\
    msix_of w' d = Some (with_pba m pba) /\ msix_ok (with_pba m pba) /\
    sent w' = sent w ++ log /\ map fst log = due m v n /\
    forall u, 0 <= u -> pending (with_pba m pba) u =
      pending m u && negb (bool_decide ((u, true) ∈ log)).
Proof using HL.
  induction n as [|n IH]; intros v w m Hd Hm Hrd He Hf Hv Hn.
  { exists w, (msix_pba m), []. assert (with_pba m (msix_pba m) = m) as -> by (by destruct m).
    split_and!; try done; [by rewrite app_nil_r|]. intros u _.
    rewrite bool_decide_false by set_solver. by rewrite andb_true_r. }
  cbn [flush_loop]. rewrite (bind_eq _ _ _ _ _ (load_msix_eq d w m Hd)).
  destruct (pba_lookup m Hm v ltac:(lia)) as (b & Hb & Hbyte). rewrite Hb.
  unfold bind at 1. cbn [deref]. unfold ret at 1.
  pose proof (Z.mod_pos_bound v 8 ltac:(lia)) as Hmod.
  rewrite Z.shiftl_1_l, bits_pow2 by lia.
  assert (Z.testbit b (v mod 8) = pending m v) as -> by (unfold pending; by rewrite Hb).
  assert (due m v (S n) = (if decide (pending m v = true /\ deliverable m v = true)
    then [v] else []) ++ due m (v + 1) n) as Hdue.
  { unfold due. rewrite Nat2Z.inj_succ, seqZ_cons, Z.pred_succ by lia.
    rewrite filter_cons. replace (Z.succ v) with (v + 1) by lia.
    by destruct (decide _). }
  destruct (pending m v) eqn:Hp.
  2: { destruct (IH (v + 1) w m Hd Hm Hrd He Hf ltac:(lia) ltac:(lia))
         as (w' & pba & log & E' & ? & ? & ? & Hlog & ?).
       exists w', pba, log. split_and!; try done.
       rewrite Hdue, decide_False by (intros []; done). done. }
  destruct (deliverable m v) eqn:Hdel.
  2: { unfold bind at 2. rewrite (bind_eq _ _ w tt w).
       2: { unfold bind. by rewrite (deliver_refused d w m v Hd Hm ltac:(lia) Hdel). }
       destruct (IH (v + 1) w m Hd Hm Hrd He Hf ltac:(lia) ltac:(lia))
         as (w' & pba & log & E' & ? & ? & ? & Hlog & ?).
       exists w', pba, log. split_and!; try done.
       rewrite Hdue, decide_False by (intros []; done). done. }
  destruct (deliver_eq d ready sent w m v Hd Hm ltac:(lia) Hrd Hdel)
    as (err & w1 & pba1 & E1 & Hd1 & Hm1 & Hrd1 & Hlog1 & Hp1).
  rewrite (bind_eq _ _ w tt w1) by (unfold bind; by rewrite E1).
  destruct (IH (v + 1) w1 (with_pba m pba1) Hd1 Hm1 Hrd1 He Hf ltac:(lia) ltac:(done || cbn; lia))
    as (w' & pba & log & E' & Hd' & Hm' & Hlog' & Hfst & Hp').
  exists w', pba, ((v, negb (err <? 0)) :: log). split_and!; try done.
  - by rewrite Hlog', Hlog1, <- app_assoc.
  - cbn. rewrite Hfst, Hdue, decide_True by done. cbn. f_equal. apply due_ext.
    intros u Hu. split; [|done]. rewrite Hp1 by lia. by destruct (Z.eqb_spec u v); [lia|].
  - intros u Hu. change (with_pba (with_pba m pba1) pba) with (with_pba m pba) in Hp'.
    rewrite Hp', Hp1 by done. destruct (Z.eqb_spec u v) as [->|Hne].
    + rewrite Hp. cbn. destruct (Z.ltb_spec err 0) as [Herr|Herr]; cbn.
      * f_equal. apply bool_decide_ext. set_solver.
      * by rewrite bool_decide_true by set_solver.
    + do 2 f_equal. apply bool_decide_ext. set_solver.
Qed.
End Flush.

(** C16. A raised interrupt is never lost: raising a vector of a configured
    function leaves its pending bit clear exactly when a message was sent and
    accepted; when the vector, the function or MSI-X is masked nothing is sent
    and the bit stays set.  No other vector is affected. *)
Theorem raise_never_lost `{MsixCallbacks} `{IrqCallbacks} d
    ready (sent : World -> list (Z * bool)) `{!MessageLog d ready sent} w m v :
  msix_of w d = Some m -> msix_ok m -> routes_ready ready w m ->
  msix_configured m = true ->
  0 <= v < msix_vector_count m ->
  exists err w' pba log, vart_pci_device_raise_msix (Some d) v w = Ok (err, w') /\
    msix_of w' d = Some (with_pba m pba) /\ msix_ok (with_pba m pba) /\
    sent w' = sent w ++ log /\
    (if deliverable m v then log = [(v, negb (err <? 0))] else log = [] /\ err = 0) /\
    pending (with_pba m pba) v = negb (bool_decide ((v, true) ∈ log)) /\
    forall u, 0 <= u -> u <> v -> pending (with_pba m pba) u = pending m u.
Proof.
  intros Hd Hm Hrd Hcfg Hv. unfold vart_pci_device_raise_msix.
  rewrite (bind_eq _ _ _ _ _ (load_msix_eq d w m Hd)), Hcfg. cbn [negb orb].
  destruct (Z.leb_spec (msix_vector_count m) v); [lia|].
  destruct (pba_lookup m Hm v Hv) as (b & Hb & Hbyte). rewrite Hb.
  unfold bind at 1. cbn [deref]. unfold ret at 1.
  pose proof (Z.mod_pos_bound v 8 ltac:(lia)) as Hmod.
  set (pba1 := <[Z.to_nat (v / 8) := set_bit b (v mod 8)]> (msix_pba m)).
  destruct (store_msix_eq d ready sent w m (with_pba m pba1) Hd)
    as (w1 & Hst & Hd1 & Hlog1 & Hkeep).
  assert (routes_ready ready w1 (with_pba m pba1)) as Hrd1
    by (eapply Forall_impl; [exact Hrd|intros r; apply Hkeep]).
  destruct (pending_set m Hm v Hv b Hb Hbyte) as [Hok1 Hp1].
  fold pba1 in Hok1, Hp1.
  rewrite (bind_eq _ _ w tt w1) by exact Hst.
  assert ((if negb (msix_enabled m) || msix_function_mask m then ret true
    else let* c := config_load_le (msix_table m) (v * 16 + 12) 4 in ret (bits c 1)) w1 =
    Ok (negb (deliverable m v), w1)) as Hmask.
  { unfold deliverable. destruct (msix_enabled m), (msix_function_mask m); try done.
    cbn [negb orb andb]. rewrite (bind_eq _ _ _ _ _ (vector_control_eq w1 m v Hm Hv)).
    fold (vector_masked m v). by rewrite negb_involutive. }
  rewrite (bind_eq _ _ _ _ _ Hmask). destruct (deliverable m v) eqn:Hdel; cbn [negb].
  - destruct (deliver_eq d ready sent w1 (with_pba m pba1) v Hd1 Hok1 Hv Hrd1 Hdel)
      as (err & w2 & pba2 & E2 & Hd2 & Hm2 & _ & Hlog2 & Hp2).
    change (with_pba (with_pba m pba1) pba2) with (with_pba m pba2) in *.
    exists err, w2, pba2, [(v, negb (err <? 0))]. split_and!; try done.
    + by rewrite Hlog2, Hlog1.
    + rewrite Hp2, Hp1, Z.eqb_refl by lia. cbn [andb].
      destruct (err <? 0); cbn [negb];
        [rewrite bool_decide_false by set_solver|rewrite bool_decide_true by set_solver]; done.
    + intros u Hu Hne. rewrite Hp2 by done. destruct (Z.eqb_spec u v); [done|].
      rewrite Hp1 by done. by destruct (Z.eqb_spec u v).
  - exists 0, w1, pba1, []. split_and!; try done.
    + by rewrite Hlog1, app_nil_r.
    + rewrite Hp1, Z.eqb_refl by lia. by rewrite bool_decide_false by set_solver.
    + intros u Hu Hne. rewrite Hp1 by done. by destruct (Z.eqb_spec u v).
Qed.

(** Unmasking delivers what is pending: a guest write to the MSI-X table
    that is in range stores the bytes and then, if the function is enabled and
    unmasked, sends exactly the pending vectors whose mask bit the new table has
    clear, each once, in increasing order; a vector stays pending unless its
    message was accepted. *)
Theorem table_write_delivers_pending `{MsixCallbacks} `{IrqCallbacks} d
    ready (sent : World -> list (Z * bool)) `{!MessageLog d ready sent} w m offset size
    value :
  msix_of w d = Some m -> msix_ok m -> routes_ready ready w m ->
  msix_configured m = true ->
  0 <= offset -> 0 <= size -> offset + size <= msix_vector_count m * 16 ->
  msix_enabled m = true -> msix_function_mask m = false ->
  let table := take (Z.to_nat offset) (msix_table m) ++ store_le (Z.to_nat size) value ++
               drop (Z.to_nat (offset + size)) (msix_table m) in
  let m1 := m <| msix_table := table |> in
  exists w' pba log, pci_msix_table_write d offset size value w = Ok (0, w') /\
    msix_of w' d = Some (with_pba m1 pba) /\
    sent w' = sent w ++ log /\
    map fst log = due m1 0 (Z.to_nat (msix_vector_count m)) /\
    forall u, 0 <= u -> pending (with_pba m1 pba) u =
      pending m u && negb (bool_decide ((u, true) ∈ log)).
Proof.
  intros Hd Hm Hrd Hcfg Ho Hs Hr He Hf table m1. unfold pci_msix_table_write.
  rewrite (bind_eq _ _ _ _ _ (load_msix_eq d w m Hd)).
  pose proof (mo_table _ Hm) as Ht. pose proof (mo_count _ Hm) as Hcount.
  destruct (Z.ltb_spec (msix_vector_count m * 16) offset); [lia|].
  destruct (Z.ltb_spec (msix_vector_count m * 16 - offset) size); [lia|]. cbn [orb].
  assert (config_store_le (msix_table m) offset size value w = Ok (table, w)) as Hstore.
  { unfold config_store_le, slice.
    destruct (Z.leb_spec 0 offset), (Z.leb_spec (offset + size)
      (Z.of_nat (length (msix_table m)))); try lia. done. }
  rewrite (bind_eq _ _ _ _ _ Hstore).
  destruct (store_msix_eq d ready sent w m m1 Hd) as (w1 & Hst & Hd1 & Hlog1 & Hkeep).
  assert (routes_ready ready w1 m1) as Hrd1
    by (eapply Forall_impl; [exact Hrd|intros r; apply Hkeep]).
  rewrite (bind_eq _ _ _ _ _ Hst). unfold pci_msix_flush_pending.
  assert (msix_ok m1) as Hm1.
  { destruct Hm. split; cbn; try done. subst table.
    rewrite !length_app, length_take, length_drop, store_le_length. lia. }
  destruct (flush_loop_correct d ready sent (Z.to_nat (msix_vector_count m)) 0 w1 m1 Hd1 Hm1
    Hrd1 He Hf ltac:(lia) ltac:(cbn; lia)) as (w' & pba & log & E' & Hd' & _ & Hlog' & Hfst & Hp').
  exists w', pba, log. split_and!; try done.
  - rewrite (bind_eq _ _ w1 tt w'); [done|].
    rewrite (bind_eq _ _ _ _ _ (load_msix_eq d w1 m1 Hd1)). cbn. by rewrite Hcfg, He, Hf.
  - by rewrite Hlog', Hlog1.
Qed.

Section Sending.
Context `{MsixCallbacks} `{IrqCallbacks} (d : ptr) (P : Z -> World -> Prop)
  (HP : forall err w devs, P err w -> P err (w <| w_devices := devs |>)).

(** Sending the message of [v] returns, leaves the functions alone and establishes [P]. *)
Definition sends (m : VartPciMsix) (v : Z) (w : World) : Prop :=
  exists route err w', msix_irq_routes m !! Z.to_nat v = Some route /\
    msix_send m route d v w = Ok (err, w') /\ w_devices w' = w_devices w /\ P err w'.

(** Delivering sends the message and clears the pending bit unless sending fails. *)
Lemma deliver_sends w m v :
  msix_of w d = Some m -> msix_ok m -> 0 <= v < msix_vector_count m ->
  deliverable m v = true -> pending m v = true -> sends m v w ->
  exists err w' pba, pci_msix_deliver d v w = Ok (if err <? 0 then err else 0, w') /\
    P err w' /\ msix_of w' d = Some (with_pba m pba) /\
    pending (with_pba m pba) v = (err <? 0).
Proof using HP.
  intros Hd Hm Hv Hdel Hpend (route & err & w2 & Hroute & Es & Hdevs & HP2).
  unfold deliverable in Hdel. rewrite !andb_true_iff, !negb_true_iff in Hdel.
  destruct Hdel as [[He Hf] Hmask].
  unfold pci_msix_deliver. rewrite (bind_eq _ _ _ _ _ (load_msix_eq d _ _ Hd)), He, Hf.
  cbn [negb orb]. rewrite (bind_eq _ _ _ _ _ (vector_control_eq _ m v Hm Hv)).
  fold (vector_masked m v). rewrite Hmask, Hroute.
  unfold bind at 1. cbn [deref]. unfold ret at 1. rewrite (bind_eq _ _ _ _ _ Es). exists err.
  assert (msix_of w2 d = Some m) as Hd2 by (unfold msix_of in *; by rewrite Hdevs).
  destruct (Z.ltb_spec err 0).
  { exists w2, (msix_pba m). assert (with_pba m (msix_pba m) = m) as -> by (by destruct m).
    done. }
  rewrite (bind_eq _ _ _ _ _ (load_msix_eq d _ _ Hd2)).
  destruct (pba_lookup m Hm v Hv) as (b & Hb & Hbyte). rewrite Hb.
  destruct (pending_clear m Hm v Hv b Hb Hbyte) as [_ Hp3].
  destruct (store_msix_devices d w2 _ (with_pba m (<[Z.to_nat (v / 8) :=
    clear_bit b (v mod 8)]> (msix_pba m))) Hd2) as (devs3 & Hst3 & Hd3).
  eexists _, _. split_and!; [|by apply HP|exact Hd3|].
  - unfold bind at 1. cbn [deref]. unfold ret at 1. by rewrite (bind_eq _ _ _ _ _ Hst3).
  - specialize (Hp3 v ltac:(lia)). by rewrite Z.eqb_refl in Hp3.
Qed.

(** Raising a vector that may be delivered sends its message from a state in which only
    the pending array differs; its pending bit is left set exactly when sending fails. *)
Lemma raise_sends w m v :
  msix_of w d = Some m -> msix_ok m -> msix_configured m = true ->
  0 <= v < msix_vector_count m -> deliverable m v = true ->
  (forall devs pba, msix_of (w <| w_devices := devs |>) d = Some (with_pba m pba) ->
     sends (with_pba m pba) v (w <| w_devices := devs |>)) ->
  exists err w' pba,
    vart_pci_device_raise_msix (Some d) v w = Ok (if err <? 0 then err else 0, w') /\
    P err w' /\ msix_of w' d = Some (with_pba m pba) /\
    pending (with_pba m pba) v = (err <? 0).
Proof using HP.
  intros Hd Hm Hcfg Hv Hdel Hsend. unfold vart_pci_device_raise_msix.
  rewrite (bind_eq _ _ _ _ _ (load_msix_eq d w m Hd)), Hcfg. cbn [negb orb].
  destruct (Z.leb_spec (msix_vector_count m) v); [lia|].
  destruct (pba_lookup m Hm v Hv) as (b & Hb & Hbyte). rewrite Hb.
  unfold bind at 1. cbn [deref]. unfold ret at 1.
  destruct (pending_set m Hm v Hv b Hb Hbyte) as [Hok1 Hp1].
  set (pba1 := <[Z.to_nat (v / 8) := _]> (msix_pba m)) in *.
  destruct (store_msix_devices d w m (with_pba m pba1) Hd) as (devs & Hst & Hd1).
  rewrite (bind_eq _ _ w tt _) by exact Hst.
  destruct (deliver_sends _ _ v Hd1 Hok1 Hv Hdel) as (err & w' & pba & E & HPw & Hd' & Hp').
  { rewrite Hp1 by lia. by rewrite Z.eqb_refl. }
  { by apply Hsend. }
  exists err, w', pba. split_and!; [|done..].
  unfold deliverable in Hdel. rewrite !andb_true_iff, !negb_true_iff in Hdel.
  destruct Hdel as [[He Hf] Hmask]. rewrite He, Hf. cbn [negb orb]. rewrite !bind_bind.
  rewrite (bind_eq _ _ _ _ _ (vector_control_eq _ m v Hm Hv)).
  fold (vector_masked m v). rewrite Hmask. exact E.
Qed.
End Sending.

(** * A concrete function with three vectors

    Accepted messages are recorded, encoded, in the device array of bus 1; the
    vectors are delivered through the injector. *)
Module MsixDemo.
Definition log_bus : ptr := 1%positive.
Definition sent (w : World) : list (Z * bool) :=
  match w_buses w !! log_bus with
  | Some b => omap decode (bus_devices b)
  | None => []
  end.
Definition record (v : Z) (w : World) : World :=
  let old := match w_buses w !! log_bus with Some b => bus_devices b | None => [] end in
  w <| w_buses ::= <[log_bus := mkBus None None (old ++ [encode (v, true)]) 0]> |>.

#[export] Instance irq : IrqCallbacks := fun _ _ _ _ => ret 0.
#[export] Instance callbacks : MsixCallbacks := {|
  call_msix_inject _ _ v _ := modify (record v) ;;; ret 0;
  call_msix_remap _ _ _ a x _ := ret (0, a, x);
|}.

Definition fn : ptr := 9%positive.
Definition ready (w : World) (i : option fnptr) (r : option ptr) : Prop :=
  is_Some i /\ r = None.

#[export] Instance log : MessageLog fn ready sent.
Proof.
  split; [|done..]. intros m route v w [[f Hf] ->]. unfold msix_send. rewrite Hf.
  eexists _, _. split; [done|]. split_and!; [done|done|]. unfold sent, record. cbn.
  rewrite lookup_insert_eq. cbn. rewrite omap_app. cbn. rewrite decode_encode.
  by destruct (w_buses w !! log_bus).
Qed.

(** Vector 2 is masked, vectors 1 and 2 are pending. *)
Definition table : list Z := repeat 0 44 ++ [1] ++ repeat 0 3.
Definition m0 : VartPciMsix :=
  mkMsix 1%positive 1%positive table [6; 0; 0; 0; 0; 0; 0; 0] [None; None; None] (Some (fn_external 3)) None
    None None 0 0 0 0 0 3 true true true false.
Definition w0 : World := empty_world <| w_devices := {[fn :=
  mkPciDevice (mkDevice None None false None None true) None 0 0 [] [] None 0 0 m0
    None 0 false false true]} |>.

Lemma m0_ok : msix_ok m0.
Proof.
  split; [cbn; lia|reflexivity|reflexivity| |reflexivity].
  repeat (constructor; [unfold byte_ok; lia|]). constructor.
Qed.
Lemma m0_ready : routes_ready ready w0 m0.
Proof. repeat (constructor; [by split; [eexists|]|]). constructor. Qed.

(** Raising vector 2 leaves it pending, since it is masked. *)
Lemma raise_never_lost_witness :
  exists err w' pba log, vart_pci_device_raise_msix (Some fn) 2 w0 = Ok (err, w') /\
    msix_of w' fn = Some (with_pba m0 pba) /\ msix_ok (with_pba m0 pba) /\
    sent w' = sent w0 ++ log /\
    (if deliverable m0 2 then log = [(2, negb (err <? 0))] else log = [] /\ err = 0) /\
    pending (with_pba m0 pba) 2 = negb (bool_decide ((2, true) ∈ log)) /\
    forall u, 0 <= u -> u <> 2 -> pending (with_pba m0 pba) u = pending m0 u.
Proof.
  apply (raise_never_lost fn ready sent w0 m0 2).
  - vm_compute. reflexivity.
  - apply m0_ok.
  - apply m0_ready.
  - reflexivity.
  - cbn. lia.
Defined.

(** Clearing the mask bit of vector 2 (byte 44 of the table) sends 1 and 2. *)
Lemma table_write_delivers_pending_witness :
  exists w' pba log, pci_msix_table_write fn 44 4 0 w0 = Ok (0, w') /\
    msix_of w' fn = Some (with_pba (m0 <| msix_table := repeat 0 48 |>) pba) /\
    sent w' = sent w0 ++ log /\ map fst log = [1; 2] /\
    forall u, 0 <= u ->
      pending (with_pba (m0 <| msix_table := repeat 0 48 |>) pba) u =
      pending m0 u && negb (bool_decide ((u, true) ∈ log)).
Proof.
  apply (table_write_delivers_pending fn ready sent w0 m0 44 4 0).
  - vm_compute. reflexivity.
  - apply m0_ok.
  - apply m0_ready.
  - reflexivity.
  - lia.
  - lia.
  - cbn. lia.
  - reflexivity.
  - reflexivity.
Defined.
End MsixDemo.
