(* ===== verification/Pci.v ===== *)
(** PCI configuration: the rest of [src/hw/pci/pci.c].

    A function has 4096 bytes of configuration space, six base address registers
    and a list of capabilities; the guest reaches them through the ECAM window of
    the root complex, sizes and places the registers, and enables memory decoding.
    Buses form a tree below the root, each secondary bus behind a bridge. *)

From stdpp Require Import base tactics numbers list gmap.
From Stdlib Require Import ZArith Lia.
From S2P Require Import Prelude Bytes Machine AddressSpace Iommu Devices Msix.

Abbreviation VART_PCI_MAX_FUNCTIONS := 256 (only parsing).
Abbreviation VART_PCI_BAR_COUNT := 6 (only parsing).
Abbreviation VART_PCI_CONFIG_SPACE_SIZE := 0x1000 (only parsing).
Abbreviation VART_PCI_COMMAND_MEMORY_ENABLE := 0x0002 (only parsing).
Abbreviation VART_PCI_COMMAND_BUS_MASTER := 0x0004 (only parsing).
Abbreviation VART_PCI_BAR_MEM_64 := 0x4 (only parsing).
Abbreviation VART_PCI_BAR_PREFETCHABLE := 0x8 (only parsing).
Abbreviation VART_PCI_HEADER_TYPE_MULTIFUNCTION := 0x80 (only parsing).
Abbreviation VART_PCI_BRIDGE_MMIO_WINDOW_SIZE := 0x10000000 (only parsing).
Abbreviation VART_PCI_CAPABILITY_LIST_OFFSET := 0x34 (only parsing).
Abbreviation VART_PCI_CAPABILITY_START := 0x40 (only parsing).
Abbreviation VART_PCI_CAPABILITY_END := 0x100 (only parsing).
Abbreviation VART_PCI_STATUS_CAPABILITIES := 0x0010 (only parsing).
Abbreviation VART_PCI_CAP_ID_MSIX := 0x11 (only parsing).
Abbreviation VART_PCI_MSIX_MAX_VECTORS := 2048 (only parsing).

(** The generic device code works on the first member of a PCI function. *)
Definition pci_devices : DeviceHeap := {|
  load_dev d := let* dev := load_device d in ret (pci_parent dev);
  store_dev d v := let* dev := load_device d in store_device d (dev <| pci_parent := v |>);
|}.

(** [memset(device, 0, sizeof( *device))]: the embedded regions with it. *)
Fixpoint clear_regions (l : list ptr) : M World unit :=
  match l with
  | [] => ret tt
  | r :: l => store_region r zero_region ;;; clear_regions l
  end.
Definition clear_pci_device (d : ptr) : M World unit :=
  let* dev := load_device d in
  let regions := map bar_region (pci_bars dev) in
  let table := msix_table_region (pci_msix dev) in
  let pba := msix_pba_region (pci_msix dev) in
  clear_regions (regions ++ [table; pba]) ;;;
  store_device d (zero_pci_device regions table pba).

Definition update_device (d : ptr) (f : VartPciDevice -> VartPciDevice) : M World unit :=
  let* dev := load_device d in store_device d (f dev).
Definition load_bar (d : ptr) (index : Z) : M World VartPciBar :=
  let* dev := load_device d in deref (pci_bars dev !! Z.to_nat index).
Definition store_bar (d : ptr) (index : Z) (bar : VartPciBar) : M World unit :=
  update_device d (fun dev => dev <| pci_bars ::= <[Z.to_nat index := bar]> |>).

(** [config_store_le(&device->config_space[offset], size, value)]. *)
Definition store_config (d : ptr) (offset size value : Z) : M World unit :=
  let* dev := load_device d in
  let* c := config_store_le (pci_config_space dev) offset size value in
  store_device d (dev <| pci_config_space := c |>).
Definition load_config (d : ptr) (offset size : Z) : M World Z :=
  let* dev := load_device d in config_load_le (pci_config_space dev) offset size.

(** What the access routines installed with [vart_pci_device_set_config_ops] do. *)
Class ConfigCallbacks := {
  call_config_read : fnptr -> ptr -> Z -> Z -> Z -> M World (Z * Z);
  call_config_write : fnptr -> ptr -> Z -> Z -> Z -> M World Z;
}.

(** * Base address registers *)

(** The register at a configuration offset, and whether it is its upper half. *)
Definition pci_bar_from_offset (device : ptr) (offset : Z) : M World (option (Z * bool)) :=
  if (offset <? 0x10) || (0x28 <=? offset) then ret None
  else
    let index := (offset - 0x10) / 4 in
    let* bar := load_bar device index in
    let* (index, high) :=
      if bar_high_part bar
      then (if index =? 0 then undefined else ret (index - 1, true))
      else ret (index, false) in
    let* bar := load_bar device index in
    ret (if bar_implemented bar then Some (index, high) else None).

Definition pci_bar_probe_value (bar : VartPciBar) (high : bool) : Z :=
  let mask := u64 (Z.lnot (bar_size bar - 1)) in
  if high then (if bar_is_64bit bar then Z.shiftr mask 32 else 0)
  else Z.lor (u32 mask) (bar_flags bar).

Definition pci_bar_update_config (device : ptr) (index : Z) : M World unit :=
  let* bar := load_bar device index in
  let offset := 0x10 + index * 4 in
  store_config device offset 4 (Z.lor (u32 (bar_address bar)) (bar_flags bar)) ;;;
  if bar_is_64bit bar
  then store_config device (offset + 4) 4 (Z.shiftr (bar_address bar) 32)
  else ret tt.

(** The [while] loop towards the root. *)
Fixpoint pci_bus_window_contains (fuel : nat) (bus : option ptr) (prefetch : bool)
    (address last : Z) : M World bool :=
  match bus with
  | None => ret false
  | Some b =>
      match fuel with
      | O => out_of_fuel
      | S fuel =>
          let* bus := load_pci_bus b in
          let base := if prefetch then pb_prefetch_mmio_base bus else pb_mmio_base bus in
          let size := if prefetch then pb_prefetch_mmio_size bus else pb_mmio_size bus in
          if negb (size =? 0) && (base <=? UINT64_MAX - size) &&
             (base <=? address) && (last <? base + size)
          then ret true
          else pci_bus_window_contains fuel (pb_parent_pci_bus bus) prefetch address last
      end
  end.

Definition pci_msix_table_ops : VartMmioOps :=
  mkMmioOps (Some fn_pci_msix_table_read) (Some fn_pci_msix_table_write).
Definition pci_msix_pba_ops : VartMmioOps :=
  mkMmioOps (Some fn_pci_msix_pba_read) (Some fn_pci_msix_pba_write).

Section Bars.
Context (fuel : nat).

Definition pci_bar_map (device : ptr) (index address : Z) : M World Z :=
  let* dev := load_device device in
  let* bar := load_bar device index in
  let prefetch := bits (bar_flags bar) VART_PCI_BAR_PREFETCHABLE in
  if bar_size bar =? 0 then undefined
  else if negb (address mod bar_size bar =? 0) ||
          (UINT64_MAX - (bar_size bar - 1) <? address)
  then ret (-EINVAL)
  else
    let last := address + bar_size bar - 1 in
    let* inside := pci_bus_window_contains fuel (pci_bus dev) prefetch address last in
    if negb inside then ret (-ERANGE)
    else
      let* err := vart_address_region_init_mmio (Some (bar_region bar)) address
                    (bar_size bar) 0 (Some device) (bar_mmio_ops bar)
                    (bar_mmio_opaque bar) in
      if err <? 0 then ret err
      else
        let* b := deref (pci_bus dev) in
        let* bus := load_bus b in
        let* err := vart_address_space_add (bus_address_space bus)
                      (Some (bar_region bar)) in
        if err <? 0 then ret err
        else
          store_bar device index (bar <| bar_address := address |> <| bar_mapped := true |>) ;;;
          ret 0.

(** [vart_address_space_remove(region->address_space, region)]. *)
Definition remove_region (r : ptr) : M World unit :=
  let* region := load_region r in
  vart_address_space_remove (r_address_space region) (Some r) ;;; ret tt.

Definition pci_bar_unmap (device : ptr) (index : Z) : M World unit :=
  let* bar := load_bar device index in
  if bar_mapped bar then
    remove_region (bar_region bar) ;;;
    store_bar device index (bar <| bar_mapped := false |>)
  else ret tt.

Definition pci_msix_uses_bar (dev : VartPciDevice) (index : Z) : bool :=
  msix_configured (pci_msix dev) &&
  ((msix_table_bar (pci_msix dev) =? index) || (msix_pba_bar (pci_msix dev) =? index)).

Definition pci_msix_unmap (device : ptr) : M World unit :=
  let* msix := load_msix device in
  if negb (msix_mapped msix) then ret tt
  else
    remove_region (msix_table_region msix) ;;;
    remove_region (msix_pba_region msix) ;;;
    store_msix device (msix <| msix_mapped := false |>).

(** The table and the pending bits fit in their registers, without overlapping. *)
Definition msix_layout (msix : VartPciMsix) (table_bar pba_bar : VartPciBar) : Z :=
  let table_size := msix_vector_count msix * 16 in
  let pba := pba_size msix in
  if negb (bar_implemented table_bar) || negb (bar_implemented pba_bar) ||
     (bar_size table_bar <? msix_table_offset msix) ||
     (bar_size table_bar - msix_table_offset msix <? table_size) ||
     (bar_size pba_bar <? msix_pba_offset msix) ||
     (bar_size pba_bar - msix_pba_offset msix <? pba)
  then -ERANGE
  else
    let table_last := msix_table_offset msix + table_size - 1 in
    let pba_last := msix_pba_offset msix + pba - 1 in
    if (msix_table_bar msix =? msix_pba_bar msix) &&
       (msix_table_offset msix <=? pba_last) && (msix_pba_offset msix <=? table_last)
    then -EINVAL else 0.

Definition pci_msix_map (device : ptr) : M World Z :=
  let* dev := load_device device in
  let msix := pci_msix dev in
  if negb (msix_configured msix) || msix_mapped msix then ret 0
  else
    let* table_bar := load_bar device (msix_table_bar msix) in
    let* pba_bar := load_bar device (msix_pba_bar msix) in
    let err := msix_layout msix table_bar pba_bar in
    if err <? 0 then ret err
    else
      let* b := deref (pci_bus dev) in
      let* bus := load_bus b in
      let space := bus_address_space bus in
      let table := msix_table_region msix in
      let pba := msix_pba_region msix in
      let* err := vart_address_region_init_mmio (Some table)
                    (u64 (bar_address table_bar + msix_table_offset msix))
                    (msix_vector_count msix * 16) 1 (Some device)
                    (Some pci_msix_table_ops) (Some device) in
      if err <? 0 then ret err
      else
        let* err := vart_address_space_add space (Some table) in
        if err <? 0 then ret err
        else
          let* err := vart_address_region_init_mmio (Some pba)
                        (u64 (bar_address pba_bar + msix_pba_offset msix))
                        (pba_size msix) 1 (Some device)
                        (Some pci_msix_pba_ops) (Some device) in
          if err <? 0
          then vart_address_space_remove space (Some table) ;;; ret err
          else
            let* err := vart_address_space_add space (Some pba) in
            if err <? 0
            then vart_address_space_remove space (Some table) ;;; ret err
            else store_msix device (msix <| msix_mapped := true |>) ;;; ret 0.

(** The [for] loops over the six registers, from [index] on. *)
Fixpoint unmap_bars (n : nat) (device : ptr) (index : Z) : M World unit :=
  match n with
  | O => ret tt
  | S n => pci_bar_unmap device index ;;; unmap_bars n device (index + 1)
  end.

Definition pci_device_disable_memory (device : ptr) : M World unit :=
  pci_msix_unmap device ;;; unmap_bars 6 device 0.

Fixpoint map_bars (n : nat) (device : ptr) (index : Z) : M World Z :=
  match n with
  | O => ret 0
  | S n =>
      let* bar := load_bar device index in
      if negb (bar_implemented bar) || bar_high_part bar || bar_mapped bar
      then map_bars n device (index + 1)
      else
        let* err := pci_bar_map device index (bar_address bar) in
        if err <? 0 then ret err else map_bars n device (index + 1)
  end.

Definition pci_device_enable_memory (device : ptr) : M World Z :=
  let* err := map_bars 6 device 0 in
  let* err := if err <? 0 then ret err else pci_msix_map device in
  if err <? 0 then pci_device_disable_memory device ;;; ret err else ret 0.

(** The label [restore]. *)
Definition restore_bar (device : ptr) (index old_address : Z)
    (old_mapped msix_mapped : bool) (err : Z) : M World Z :=
  (if old_mapped then
     let* r := pci_bar_map device index old_address in
     if (r =? 0) && msix_mapped then pci_msix_map device ;;; ret tt else ret tt
   else ret tt) ;;;
  ret err.

Definition pci_bar_relocate (device : ptr) (index address : Z) : M World Z :=
  let* dev := load_device device in
  let* bar := load_bar device index in
  let old_address := bar_address bar in
  let old_mapped := bar_mapped bar in
  let msix_mapped := msix_mapped (pci_msix dev) && pci_msix_uses_bar dev index in
  if negb (pci_memory_enabled dev) then
    store_bar device index (bar <| bar_address := address |>) ;;;
    pci_bar_update_config device index ;;;
    ret 0
  else
    (if msix_mapped then pci_msix_unmap device else ret tt) ;;;
    pci_bar_unmap device index ;;;
    let* err := pci_bar_map device index address in
    if err <? 0 then restore_bar device index old_address old_mapped msix_mapped err
    else
      let* err := if msix_mapped then pci_msix_map device else ret 0 in
      if err <? 0 then
        pci_bar_unmap device index ;;;
        restore_bar device index old_address old_mapped msix_mapped err
      else pci_bar_update_config device index ;;; ret 0.

(** [value] is the [uint32_t] that is written. *)
Definition pci_bar_write (device : ptr) (index : Z) (high : bool) (value : Z) : M World Z :=
  let* bar := load_bar device index in
  if value =? UINT32_MAX then
    store_bar device index (bar <| bar_probe := true |>) ;;; ret 0
  else
    store_bar device index (bar <| bar_probe := false |>) ;;;
    let address :=
      if high then Z.lor (Z.land (bar_address bar) UINT32_MAX) (Z.shiftl value 32)
      else Z.lor (Z.land (bar_address bar) 0xffffffff00000000)
             (Z.land value 0xfffffff0) in
    pci_bar_relocate device index address.
End Bars.

(** * Configuration accesses *)

Section Config.
Context `{ConfigCallbacks} `{MsixCallbacks} `{IrqCallbacks}.
Context (fuel : nat).

(** The register that a four-byte access at [offset] hits. *)
Definition accessed_bar (device : ptr) (offset size : Z) : M World (option (Z * bool)) :=
  if size =? 4 then pci_bar_from_offset device offset else ret None.

Definition pci_config_read (device : ptr) (offset size value : Z) : M World (Z * Z) :=
  let* hit := accessed_bar device offset size in
  let* dev := load_device device in
  let plain := let* v := load_config device offset size in ret (0, v) in
  match hit with
  | Some (index, high) =>
      let* bar := load_bar device index in
      if bar_probe bar then ret (0, pci_bar_probe_value bar high) else plain
  | None =>
      match pci_config_ops dev ≫= cfg_read with
      | Some f =>
          let* (err, value) := call_config_read f device offset size value in
          if negb (err =? -ENOENT) then ret (err, value) else plain
      | None => plain
      end
  end.

Definition pci_msix_update_control (device : ptr) : M World unit :=
  let* msix := load_msix device in
  if negb (msix_configured msix) then ret tt
  else
    let* control := load_config device (msix_capability_offset msix + 2) 2 in
    store_msix device (msix <| msix_enabled := bits control 0x8000 |>
                            <| msix_function_mask := bits control 0x4000 |>) ;;;
    pci_msix_flush_pending device.

Definition pci_msix_config_readonly (dev : VartPciDevice) (offset : Z) : bool :=
  let capability_offset := msix_capability_offset (pci_msix dev) in
  msix_configured (pci_msix dev) && (capability_offset + 4 <=? offset) &&
  (offset <? capability_offset + 12).

(** The [for] loop over the bytes of [value] from the [i]th on. *)
Fixpoint config_store_loop (n : nat) (dev : VartPciDevice) (offset value : Z) (i : Z)
    (config : list Z) : M World (list Z) :=
  match n with
  | O => ret config
  | S n =>
      if pci_msix_config_readonly dev (offset + i)
      then config_store_loop n dev offset value (i + 1) config
      else
        let* _ := deref (config !! Z.to_nat (offset + i)) in
        config_store_loop n dev offset value (i + 1)
          (<[Z.to_nat (offset + i) := u8 (Z.shiftr value (i * 8))]> config)
  end.

Definition pci_config_store (device : ptr) (offset size value : Z) : M World unit :=
  let* dev := load_device device in
  let* c := config_store_loop (Z.to_nat size) dev offset value 0 (pci_config_space dev) in
  store_device device (dev <| pci_config_space := c |>).

(** The command register has been written: its new value decides which
    decoders are on.  The result is negative when enabling memory failed. *)
Definition apply_command (device : ptr) (old_command : Z) : M World Z :=
  let* command := load_config device 0x04 2 in
  let now := bits command VART_PCI_COMMAND_MEMORY_ENABLE in
  let before := bits old_command VART_PCI_COMMAND_MEMORY_ENABLE in
  let* err :=
    if now && negb before then
      let* err := pci_device_enable_memory fuel device in
      if err <? 0
      then pci_config_store device 0x04 2 old_command ;;; ret err
      else ret 0
    else if negb now && before then pci_device_disable_memory device ;;; ret 0
    else ret 0 in
  if err <? 0 then ret err
  else
    update_device device (fun dev => dev <| pci_memory_enabled := now |>
      <| pci_bus_master_enabled := bits command VART_PCI_COMMAND_BUS_MASTER |>) ;;;
    ret 0.

Definition pci_config_write (device : ptr) (offset size value : Z) : M World Z :=
  let* hit := accessed_bar device offset size in
  match hit with
  | Some (index, high) => pci_bar_write fuel device index high (u32 value)
  | None =>
      let* dev := load_device device in
      let* handled :=
        match pci_config_ops dev ≫= cfg_write with
        | Some f =>
            let* err := call_config_write f device offset size value in
            ret (if err =? -ENOENT then None else Some err)
        | None => ret None
        end in
      match handled with
      | Some err => ret err
      | None =>
          let command_write := (offset <? 0x06) && (0x04 <? offset + size) in
          let* old_command := load_config device 0x04 2 in
          pci_config_store device offset size value ;;;
          let* err := if command_write then apply_command device old_command else ret 0 in
          if err <? 0 then ret err
          else pci_msix_update_control device ;;; ret 0
      end
  end.
End Config.

(** * The tree of buses *)

(** The [while] loop to the root. *)
Fixpoint pci_bus_root (fuel : nat) (bus : option ptr) : M World (option ptr) :=
  match bus with
  | None => ret None
  | Some b =>
      let* v := load_pci_bus b in
      match pb_parent_pci_bus v with
      | None => ret (Some b)
      | Some parent =>
          match fuel with
          | O => out_of_fuel
          | S fuel => pci_bus_root fuel (Some parent)
          end
      end
  end.

(** Depth-first search; [fuel] bounds the depth. *)
Fixpoint vart_pci_bus_find (fuel : nat) (bus : option ptr) (number : Z)
    : M World (option ptr) :=
  match bus with
  | None => ret None
  | Some b =>
      match fuel with
      | O => out_of_fuel
      | S fuel =>
          let* v := load_pci_bus b in
          if pb_number v =? number then ret (Some b)
          else
            (fix children (l : list ptr) : M World (option ptr) :=
               match l with
               | [] => ret None
               | c :: l =>
                   let* found := vart_pci_bus_find fuel (Some c) number in
                   match found with
                   | Some f => ret (Some f)
                   | None => children l
                   end
               end) (pb_children v)
      end
  end.

(** [((uint16_t)bus->number << 8) | (uint16_t)devfn]. *)
Definition requester_id_of (number devfn : Z) : Z := u16 (Z.lor (Z.shiftl number 8) devfn).

(** The first loop: the functions of one bus, from slot [i] on. *)
Fixpoint renumber_functions (number : Z) (functions : list (option ptr)) (i : Z)
    : M World unit :=
  match functions with
  | [] => ret tt
  | f :: rest =>
      match f with
      | Some d => update_device d (fun dev => dev
                    <| pci_requester_id := requester_id_of number i |>)
      | None => ret tt
      end ;;;
      renumber_functions number rest (i + 1)
  end.

Fixpoint pci_bus_update_requester_ids (fuel : nat) (bus : ptr) : M World unit :=
  match fuel with
  | O => out_of_fuel
  | S fuel =>
      let* v := load_pci_bus bus in
      renumber_functions (pb_number v) (pb_functions v) 0 ;;;
      (fix children (l : list ptr) : M World unit :=
         match l with
         | [] => ret tt
         | c :: l => pci_bus_update_requester_ids fuel c ;;; children l
         end) (pb_children v)
  end.

Definition update_pci_bus (b : ptr) (f : VartPciBus -> VartPciBus) : M World unit :=
  let* v := load_pci_bus b in store_pci_bus b (f v).

(** One step of the loop: the bridge above [bus] and the parent bus. *)
Definition widen_parent (bus : VartPciBus) (parent : ptr) : M World unit :=
  match pb_owner_bridge bus with
  | Some bridge =>
      let* subordinate := load_config bridge 0x1a 1 in
      if subordinate <? pb_subordinate_number bus
      then store_config bridge 0x1a 1 (pb_subordinate_number bus)
      else ret tt
  | None => ret tt
  end ;;;
  let* p := load_pci_bus parent in
  if pb_subordinate_number p <? pb_subordinate_number bus
  then store_pci_bus parent (p <| pb_subordinate_number := pb_subordinate_number bus |>)
  else ret tt.

Fixpoint pci_bus_update_ancestors (fuel : nat) (bus : option ptr) : M World unit :=
  match bus with
  | None => ret tt
  | Some b =>
      let* v := load_pci_bus b in
      match pb_parent_pci_bus v with
      | None => ret tt
      | Some parent =>
          match fuel with
          | O => out_of_fuel
          | S fuel =>
              widen_parent v parent ;;;
              pci_bus_update_ancestors fuel (Some parent)
          end
      end
  end.

Fixpoint pci_bus_visible (fuel : nat) (root : ptr) (bus : option ptr) : M World bool :=
  match bus with
  | None => ret false
  | Some b =>
      if decide (b = root) then ret true
      else
        let* v := load_pci_bus b in
        match pb_parent_pci_bus v with
        | None => ret false
        | Some parent =>
            if pb_subordinate_number v <? pb_number v then ret false
            else
              match fuel with
              | O => out_of_fuel
              | S fuel => pci_bus_visible fuel root (Some parent)
              end
        end
  end.

(** * Bridges *)

(** The bridge has the address of its function. *)
Definition pci_bridge_config_read (device : ptr) (offset size value : Z)
    : M World (Z * Z) :=
  let* bridge := load_bridge device in
  let* secondary := load_pci_bus (br_secondary_bus bridge) in
  if (0x20 <=? offset) && (offset <=? 0x23) && (size <=? 4 - (offset - 0x20)) then
    let* v := load_config device offset size in ret (0, v)
  else if (offset <? 0x18) || (0x1b <? offset) || (4 - (offset - 0x18) <? size)
  then ret (-ENOENT, value)
  else
    let* primary :=
      match pb_parent_pci_bus secondary with
      | Some p => let* parent := load_pci_bus p in ret (pb_number parent)
      | None => ret 0
      end in
    let* latency := load_config device 0x1b 1 in
    let data := [primary; pb_secondary_number secondary;
                 pb_subordinate_number secondary; latency] in
    let* v := config_load_le data (offset - 0x18) size in
    ret (0, v).

(** Both the bridge and its secondary bus get the window. *)
Definition set_mmio_window (bridge : ptr) (base size : Z) : M World unit :=
  let* br := load_bridge bridge in
  store_bridge bridge (br <| br_mmio_base := base |> <| br_mmio_size := size |>) ;;;
  update_pci_bus (br_secondary_bus br)
    (fun v => v <| pb_mmio_base := base |> <| pb_mmio_size := size |>).

Definition pci_bridge_update_mmio_window (bridge : ptr) (config : Z) : M World Z :=
  let base := Z.shiftl (Z.land config 0xfff0) 16 in
  let limit := Z.lor (Z.shiftl (Z.land (Z.shiftr config 16) 0xfff0) 16) 0xfffff in
  (if limit <? base then set_mmio_window bridge base 0
   else set_mmio_window bridge base (limit - base + 1)) ;;;
  ret 0.

Definition pci_bridge_update_prefetch_window (bridge : ptr) : M World Z :=
  let* base_low := load_config bridge 0x24 2 in
  let* limit_low := load_config bridge 0x26 2 in
  let* base_high := load_config bridge 0x28 4 in
  let* limit_high := load_config bridge 0x2c 4 in
  let base := Z.lor (Z.shiftl (Z.land base_low 0xfff0) 16) (Z.shiftl base_high 32) in
  let limit := Z.lor (Z.lor (Z.shiftl (Z.land limit_low 0xfff0) 16)
                        (Z.shiftl limit_high 32)) 0xfffff in
  let size := if limit <? base then 0 else u64 (limit - base + 1) in
  let* br := load_bridge bridge in
  store_bridge bridge (br <| br_prefetch_mmio_base := base |>
                          <| br_prefetch_mmio_size := size |>) ;;;
  update_pci_bus (br_secondary_bus br) (fun v => v <| pb_prefetch_mmio_base := base |>
    <| pb_prefetch_mmio_size := size |> <| pb_prefetch_mmio_next := base |>) ;;;
  ret 0.

(** The loop that merges the bytes of [value] into the window register; the
    shift amount is the position of the byte in it. *)
Fixpoint merge_window (n : nat) (config offset value i : Z) : Z :=
  match n with
  | O => config
  | S n =>
      let shift := (offset - 0x20 + i) * 8 in
      let config := Z.land config (u32 (Z.lnot (Z.shiftl 0xff shift))) in
      let config := Z.lor config
                      (u32 (Z.shiftl (Z.land (u32 (Z.shiftr value (i * 8))) 0xff) shift)) in
      merge_window n config offset value (i + 1)
  end.

(** The loop that picks the bus numbers and the latency timer out of [value]. *)
Fixpoint pick_numbers (n : nat) (offset value i : Z) (numbers : Z * Z * Z) : Z * Z * Z :=
  match n with
  | O => numbers
  | S n =>
      let '(secondary, subordinate, latency) := numbers in
      let byte := u8 (Z.shiftr value (i * 8)) in
      let at_ := offset + i in
      pick_numbers n offset value (i + 1)
        (if at_ =? 0x19 then (byte, subordinate, latency)
         else if at_ =? 0x1a then (secondary, byte, latency)
         else if at_ =? 0x1b then (secondary, subordinate, byte)
         else numbers)
  end.

(** The bus-number registers: the new numbers must lie below the parent and be
    used by no other bus. *)
Definition write_bus_numbers (fuel : nat) (device : ptr) (offset size value : Z)
    : M World Z :=
  let* bridge := load_bridge device in
  let child := br_secondary_bus bridge in
  let* c := load_pci_bus child in
  match pb_parent_pci_bus c with
  | None => ret (-EINVAL)
  | Some p =>
      let* parent := load_pci_bus p in
      let* latency := load_config device 0x1b 1 in
      let '(secondary, subordinate, latency) :=
        pick_numbers (Z.to_nat size) offset value 0
          (pb_secondary_number c, pb_subordinate_number c, latency) in
      if (secondary =? 0) && (subordinate =? 0) then ret 0
      else if (secondary <=? pb_number parent) || (subordinate <? secondary)
      then ret (-EINVAL)
      else
        let* root := pci_bus_root fuel (Some p) in
        let* existing := vart_pci_bus_find fuel root secondary in
        if bool_decide (existing <> None /\ existing <> Some child) then ret (-EEXIST)
        else
          update_pci_bus child (fun v => v <| pb_number := secondary |>
            <| pb_secondary_number := secondary |>
            <| pb_subordinate_number := subordinate |>) ;;;
          store_config device 0x1b 1 latency ;;;
          pci_bus_update_requester_ids fuel child ;;;
          pci_bus_update_ancestors fuel (Some child) ;;;
          ret 0
  end.

Definition pci_bridge_config_write (fuel : nat) (device : ptr) (offset size value : Z)
    : M World Z :=
  if (offset <? 0x18) || (0x1b <? offset) || (4 - (offset - 0x18) <? size) then
    if (0x20 <=? offset) && (offset <=? 0x23) && (size <=? 4 - (offset - 0x20)) then
      let* config := load_config device 0x20 4 in
      let config := merge_window (Z.to_nat size) config offset value 0 in
      store_config device 0x20 4 config ;;;
      pci_bridge_update_mmio_window device config
    else if (0x24 <=? offset) && (offset <=? 0x2f) && (size <=? 0x30 - offset) then
      store_config device offset size value ;;;
      pci_bridge_update_prefetch_window device
    else ret (-ENOENT)
  else write_bus_numbers fuel device offset size value.

Definition pci_bridge_config_ops : VartPciConfigOps :=
  mkConfigOps (Some fn_pci_bridge_config_read) (Some fn_pci_bridge_config_write).

(** * The configuration window of the root complex *)

Section Ecam.
Context `{ConfigCallbacks} `{MsixCallbacks} `{IrqCallbacks}.
Context (fuel : nat).

(** The function that answers, and the offset in its configuration space. *)
Definition pci_ecam_lookup (complex : ptr) (offset size : Z) : M World (option (ptr * Z)) :=
  let* rc := load_complex complex in
  let bus_number := u32 (Z.shiftr offset 20) in
  let devfn := Z.land (Z.shiftr offset 12) 0xff in
  let register_offset := Z.land offset 0xfff in
  if VART_PCI_CONFIG_SPACE_SIZE - size <? register_offset then ret None
  else
    let* bus := vart_pci_bus_find fuel (Some (rc_root_bus rc)) (u8 bus_number) in
    match bus with
    | None => ret None
    | Some b =>
        let* visible := pci_bus_visible fuel (rc_root_bus rc) (Some b) in
        if negb visible then ret None
        else
          let* v := load_pci_bus b in
          let* f := deref (pb_functions v !! Z.to_nat devfn) in
          match f with
          | None => ret None
          | Some d =>
              let* dev := load_device d in
              ret (if dev_realized (pci_parent dev) then Some (d, register_offset) else None)
          end
    end.

Definition pci_ecam_read (opaque : option ptr) (offset size value : Z) : M World (Z * Z) :=
  let* complex := deref opaque in
  let* hit := pci_ecam_lookup complex offset size in
  match hit with
  | None => ret (0, UINT64_MAX)
  | Some (device, config_offset) => pci_config_read device config_offset size value
  end.

Definition pci_ecam_write (opaque : option ptr) (offset size value : Z) : M World Z :=
  let* complex := deref opaque in
  let* hit := pci_ecam_lookup complex offset size in
  match hit with
  | None => ret 0
  | Some (device, config_offset) => pci_config_write fuel device config_offset size value
  end.
End Ecam.

Definition pci_ecam_ops : VartMmioOps :=
  mkMmioOps (Some fn_pci_ecam_read) (Some fn_pci_ecam_write).

Definition pci_root_complex_realize (device : ptr) : M World Z :=
  let* dev := load_plain_device device in
  let* complex := deref (dev_opaque dev) in
  let* rc := load_complex complex in
  match dev_bus dev with
  | None => ret (-EINVAL)
  | Some b =>
      let* root := load_bus (rc_root_bus rc) in
      let* bus := load_bus b in
      if negb (bool_decide (bus_parent root = Some b)) ||
         negb (bool_decide (bus_address_space bus = bus_address_space root))
      then ret (-EINVAL)
      else
        let* err := vart_address_space_add (bus_address_space bus) (Some (rc_ecam_region rc)) in
        if err <? 0 then ret err
        else store_complex complex (rc <| rc_ecam_mapped := true |>) ;;; ret 0
  end.

Definition pci_root_complex_unrealize (device : ptr) : M World unit :=
  let* dev := load_plain_device device in
  let* complex := deref (dev_opaque dev) in
  let* rc := load_complex complex in
  if rc_ecam_mapped rc then
    remove_region (rc_ecam_region rc) ;;;
    store_complex complex (rc <| rc_ecam_mapped := false |>)
  else ret tt.

Definition pci_root_complex_ops : VartDeviceOps :=
  mkDeviceOps (Some fn_pci_root_complex_realize) (Some fn_pci_root_complex_unrealize) None.

(** * The life cycle of a function *)

(** The next free address of the window of [bus] for a register. *)
Definition next_address (bus : VartPciBus) (bar : VartPciBar) : Z + Z :=
  let prefetch := bits (bar_flags bar) VART_PCI_BAR_PREFETCHABLE in
  let next := if prefetch then pb_prefetch_mmio_next bus else pb_mmio_next bus in
  let base := if prefetch then pb_prefetch_mmio_base bus else pb_mmio_base bus in
  let size := if prefetch then pb_prefetch_mmio_size bus else pb_mmio_size bus in
  let address := Z.land (u64 (next + bar_size bar - 1)) (u64 (Z.lnot (bar_size bar - 1))) in
  if (address <? next) || (UINT64_MAX - (bar_size bar - 1) <? address)
  then inl (-EOVERFLOW)
  else if (size =? 0) || (size <? bar_size bar) || (UINT64_MAX - size <? base) ||
          (address <? base) || (base + size - bar_size bar <? address)
  then inl (-ERANGE)
  else inr address.

(** [*next = value], for the window that the register belongs to. *)
Definition set_next (bar : VartPciBar) (value : Z) (bus : VartPciBus) : VartPciBus :=
  if bits (bar_flags bar) VART_PCI_BAR_PREFETCHABLE
  then bus <| pb_prefetch_mmio_next := value |> else bus <| pb_mmio_next := value |>.

(** The loop that places the registers, from [index] on. *)
Fixpoint place_bars (fuel : nat) (n : nat) (device bus : ptr) (index : Z) : M World Z :=
  match n with
  | O => ret 0
  | S n =>
      let* bar := load_bar device index in
      if negb (bar_implemented bar) || bar_high_part bar
      then place_bars fuel n device bus (index + 1)
      else
        let* v := load_pci_bus bus in
        match next_address v bar with
        | inl err => ret err
        | inr address =>
            let* err := pci_bar_map fuel device index address in
            if err <? 0 then ret err
            else
              update_pci_bus bus (set_next bar (u64 (address + bar_size bar))) ;;;
              pci_bar_update_config device index ;;;
              place_bars fuel n device bus (index + 1)
        end
  end.

Definition pci_device_realize (fuel : nat) (device : ptr) : M World Z :=
  let* dev := load_device device in
  match pci_bus dev with
  | None => ret (-EINVAL)
  | Some b =>
      if negb (bool_decide (dev_bus (pci_parent dev) = Some b)) then ret (-EINVAL)
      else
        let* old := load_pci_bus b in
        let* err := place_bars fuel 6 device b 0 in
        let* err := if err <? 0 then ret err else pci_msix_map device in
        if err <? 0 then
          pci_msix_unmap device ;;;
          unmap_bars 6 device 0 ;;;
          update_pci_bus b (fun v => v <| pb_mmio_next := pb_mmio_next old |>
            <| pb_prefetch_mmio_next := pb_prefetch_mmio_next old |>) ;;;
          ret err
        else
          let* dev := load_device device in
          (if negb (pci_memory_enabled dev) then pci_device_disable_memory device
           else ret tt) ;;;
          ret 0
  end.

Section Intx.
Context `{IrqCallbacks}.

(** An asserted interrupt pin is lowered. *)
Definition lower_intx (device : ptr) : M World unit :=
  let* dev := load_device device in
  match pci_intx_irq dev with
  | Some i =>
      if pci_intx_asserted dev then
        vart_irq_lower (Some i) ;;;
        update_device device (fun dev => dev <| pci_intx_asserted := false |>)
      else ret tt
  | None => ret tt
  end.

Definition pci_device_unrealize (device : ptr) : M World unit :=
  lower_intx device ;;; pci_msix_unmap device ;;; unmap_bars 6 device 0.

(** The function's own state after a reset. *)
Definition reset_function (dev : VartPciDevice) : VartPciDevice :=
  dev <| pci_memory_enabled := false |> <| pci_bus_master_enabled := false |>
    <| pci_config_space ::= (fun c => <[5%nat := 0]> (<[4%nat := 0]> c)) |>
    <| pci_bars ::= map (fun bar => bar <| bar_probe := false |>) |>.

Definition pci_device_reset_internal (device : ptr) : M World unit :=
  pci_device_disable_memory device ;;;
  lower_intx device ;;;
  update_device device reset_function ;;;
  let* msix := load_msix device in
  if msix_configured msix then
    let* _ := slice (msix_table msix) 0 (msix_vector_count msix * 16) in
    let* _ := slice (msix_pba msix) 0 (pba_size msix) in
    store_msix device (msix <| msix_enabled := false |> <| msix_function_mask := false |>
      <| msix_table ::= (fun t => replicate (Z.to_nat (msix_vector_count msix * 16)) 0 ++
           drop (Z.to_nat (msix_vector_count msix * 16)) t) |>
      <| msix_pba ::= (fun p => replicate (Z.to_nat (pba_size msix)) 0 ++
           drop (Z.to_nat (pba_size msix)) p) |>) ;;;
    store_config device (msix_capability_offset msix + 2) 2 0
  else ret tt.

Definition pci_device_reset (device : ptr) : M World unit :=
  pci_device_reset_internal device.

Definition vart_pci_device_reset (device : option ptr) : M World Z :=
  match device with
  | None => ret (-EINVAL)
  | Some d =>
      let* dev := load_device d in
      if negb (dev_realized (pci_parent dev)) then ret (-EINVAL)
      else pci_device_reset_internal d ;;; ret 0
  end.

Definition vart_pci_device_set_intx (device : option ptr) (level : bool) : M World Z :=
  match device with
  | None => ret (-ENOTCONN)
  | Some d =>
      let* dev := load_device d in
      match pci_intx_irq dev with
      | None => ret (-ENOTCONN)
      | Some i =>
          let* err := vart_irq_set (Some i) level in
          if err <? 0 then ret err
          else update_device d (fun dev => dev <| pci_intx_asserted := level |>) ;;; ret 0
      end
  end.
End Intx.

Definition pci_device_ops : VartDeviceOps :=
  mkDeviceOps (Some fn_pci_device_realize) (Some fn_pci_device_unrealize)
    (Some fn_pci_device_reset).

(** [bytes] written to the configuration space, in order. *)
Fixpoint write_config_bytes (d : ptr) (bytes : list (Z * Z)) : M World unit :=
  match bytes with
  | [] => ret tt
  | (offset, value) :: rest => store_config d offset 1 value ;;; write_config_bytes d rest
  end.

Definition vart_pci_device_init (device : option ptr)
    (vendor_id device_id revision prog_if subclass class_code : Z) : M World Z :=
  match device with
  | None => ret (-EINVAL)
  | Some d =>
      clear_pci_device d ;;;
      @vart_device_init pci_devices d (Some pci_device_ops) (Some d) None ;;;
      write_config_bytes d
        [(0x00, vendor_id); (0x01, Z.shiftr vendor_id 8); (0x02, device_id);
         (0x03, Z.shiftr device_id 8); (0x08, revision); (0x09, prog_if);
         (0x0a, subclass); (0x0b, class_code)] ;;;
      update_device d (fun dev => dev <| pci_capability_next := VART_PCI_CAPABILITY_START |>) ;;;
      ret 0
  end.

Definition vart_pci_device_connect_intx (device : option ptr) (pin : Z) (irq : option ptr)
    : M World Z :=
  match device, irq with
  | Some d, Some i =>
      if (pin <? 1) || (4 <? pin) then ret (-EINVAL)
      else
        let* dev := load_device d in
        if dev_realized (pci_parent dev) then ret (-EBUSY)
        else
          let* line := load_irq i in
          store_device d (dev <| pci_intx_irq := Some i |> <| pci_intx_pin := pin |>) ;;;
          write_config_bytes d
            [(0x3c, if irq_line line <=? UINT8_MAX then u8 (irq_line line) else UINT8_MAX);
             (0x3d, pin)] ;;;
          ret 0
  | _, _ => ret (-EINVAL)
  end.

(** The arguments that the first test of [vart_pci_device_set_bar] refuses. *)
Definition bar_invalid (index size flags : Z) (ops : option VartMmioOps) : bool :=
  (VART_PCI_BAR_COUNT <=? index) || (size =? 0) ||
  negb (Z.land size (u64 (size - 1)) =? 0) || negb (mmio_ops_usable ops) ||
  bits flags (u32 (Z.lnot (Z.lor VART_PCI_BAR_MEM_64 VART_PCI_BAR_PREFETCHABLE))).

Definition vart_pci_device_set_bar (device : option ptr) (index size flags : Z)
    (mmio_ops : option VartMmioOps) (mmio_opaque : option ptr) : M World Z :=
  match device with
  | None => ret (-EINVAL)
  | Some d =>
      if bar_invalid index size flags mmio_ops then ret (-EINVAL)
      else
        let* dev := load_device d in
        let wide := bits flags VART_PCI_BAR_MEM_64 in
        if dev_realized (pci_parent dev) || bool_decide (is_Some (pci_bus dev)) ||
           (wide && (index =? VART_PCI_BAR_COUNT - 1))
        then ret (-EBUSY)
        else
          let* bar := load_bar d index in
          let* taken :=
            if bar_implemented bar || bar_high_part bar then ret true
            else if wide then
              let* upper := load_bar d (index + 1) in
              ret (bar_implemented upper || bar_high_part upper)
            else ret false in
          if (taken : bool) then ret (-EEXIST)
          else if negb wide && (UINT32_MAX <? size) then ret (-ERANGE)
          else
            store_region (bar_region bar) zero_region ;;;
            store_bar d index (mkBar (bar_region bar) size 0 flags mmio_ops mmio_opaque
                                 true false wide false false) ;;;
            (if wide then
               let* upper := load_bar d (index + 1) in
               store_bar d (index + 1) (upper <| bar_high_part := true |>)
             else ret tt) ;;;
            ret 0
  end.

Definition vart_pci_device_set_config_ops (device : option ptr)
    (config_ops : option VartPciConfigOps) : M World Z :=
  match device with
  | None => ret (-EINVAL)
  | Some d =>
      let* dev := load_device d in
      if dev_realized (pci_parent dev) || bool_decide (is_Some (pci_bus dev))
      then ret (-EBUSY)
      else if match config_ops with
              | Some o => bool_decide (cfg_read o = None) && bool_decide (cfg_write o = None)
              | None => false
              end
      then ret (-EINVAL)
      else store_device d (dev <| pci_config_ops := config_ops |>) ;;; ret 0
  end.

(** * Capabilities *)

(** [memcpy(&config[offset], bytes, n)] on the array itself. *)
Definition config_put (config : list Z) (offset : Z) (bytes : list Z) : M World (list Z) :=
  let* _ := slice config offset (Z.of_nat (length bytes)) in
  ret (take (Z.to_nat offset) config ++ bytes ++
       drop (Z.to_nat offset + length bytes) config).

(** The configuration space with the new capability in it, linked to the list
    that ended at [tail]. *)
Definition link_capability (config : list Z) (id : Z) (data : list Z)
    (offset allocation tail : Z) : M World (list Z) :=
  let* config := config_put config offset (replicate (Z.to_nat allocation) 0) in
  let* config := config_put config offset [id] in
  let* config := config_put config (offset + 2) data in
  let* config := if tail =? 0
                 then config_put config VART_PCI_CAPABILITY_LIST_OFFSET [u8 offset]
                 else config_put config (tail + 1) [u8 offset] in
  let* status := config_load_le config 0x06 2 in
  config_store_le config 0x06 2 (Z.lor status VART_PCI_STATUS_CAPABILITIES).

(** [data] points to [data_size] bytes; the result is the error code and the
    value left in [*offset], a pointer that is not NULL. *)
Definition vart_pci_device_add_capability (device : option ptr) (id : Z)
    (data : option (list Z)) (data_size offset : Z) : M World (Z * Z) :=
  match device with
  | None => ret (-EINVAL, offset)
  | Some d =>
      if (id =? 0) || (bool_decide (data = None) && negb (data_size =? 0)) ||
         (UINT8_MAX - 2 <? data_size)
      then ret (-EINVAL, offset)
      else
        let* dev := load_device d in
        if dev_realized (pci_parent dev) || bool_decide (is_Some (pci_bus dev))
        then ret (-EBUSY, offset)
        else
          let capability_size := data_size + 2 in
          let allocation_size := Z.land (capability_size + 3) (Z.lnot 3) in
          let capability_offset := pci_capability_next dev in
          if (capability_offset <? VART_PCI_CAPABILITY_START) ||
             (VART_PCI_CAPABILITY_END <=? capability_offset) ||
             (VART_PCI_CAPABILITY_END - capability_offset <? allocation_size)
          then ret (-ENOSPC, offset)
          else
            let* bytes := if data_size =? 0 then ret []
                          else let* b := deref data in slice b 0 data_size in
            let* config := link_capability (pci_config_space dev) id bytes
                             capability_offset allocation_size
                             (pci_capability_tail dev) in
            store_device d (dev <| pci_config_space := config |>
              <| pci_capability_tail := u8 capability_offset |>
              <| pci_capability_next := u16 (capability_offset + allocation_size) |>) ;;;
            ret (0, u8 capability_offset)
  end.

(** The ten bytes after the two of the header. *)
Definition msix_capability_body (vector_count table_bar table_offset pba_bar pba_offset : Z)
    : list Z :=
  store_le 2 (Z.land (u16 (vector_count - 1)) 0x07ff) ++
  store_le 4 (Z.lor table_offset table_bar) ++ store_le 4 (Z.lor pba_offset pba_bar).

(** Three allocations: [None] when one of them failed. *)
Definition allocate3 : M World bool :=
  let* a := allocate in let* b := allocate in let* c := allocate in
  ret (a && b && c).

Definition vart_pci_device_init_msix (device : option ptr) (vector_count table_bar
    table_offset pba_bar pba_offset : Z) : M World Z :=
  match device with
  | None => ret (-EINVAL)
  | Some d =>
      if (vector_count =? 0) || (VART_PCI_MSIX_MAX_VECTORS <? vector_count) ||
         (VART_PCI_BAR_COUNT <=? table_bar) || (VART_PCI_BAR_COUNT <=? pba_bar) ||
         bits table_offset 7 || bits pba_offset 7
      then ret (-EINVAL)
      else
        let* dev := load_device d in
        if dev_realized (pci_parent dev) || bool_decide (is_Some (pci_bus dev))
        then ret (-EBUSY)
        else if msix_configured (pci_msix dev) then ret (-EALREADY)
        else
          let clear := let* msix := load_msix d in
            store_msix d (msix <| msix_table := [] |> <| msix_pba := [] |>
                               <| msix_irq_routes := [] |>) in
          let* ok := allocate3 in
          if negb ok then clear ;;; ret (-ENOMEM)
          else
            let* msix := load_msix d in
            store_msix d (msix
              <| msix_table := replicate (Z.to_nat (vector_count * 16)) 0 |>
              <| msix_pba := replicate (Z.to_nat ((vector_count + 63) / 64 * 8)) 0 |>
              <| msix_irq_routes := replicate (Z.to_nat vector_count) None |>) ;;;
            let* (err, capability_offset) :=
              vart_pci_device_add_capability (Some d) VART_PCI_CAP_ID_MSIX
                (Some (msix_capability_body vector_count table_bar table_offset
                         pba_bar pba_offset)) 10 0 in
            if err <? 0 then clear ;;; ret err
            else
              let* msix := load_msix d in
              store_msix d (msix <| msix_table_offset := table_offset |>
                <| msix_pba_offset := pba_offset |> <| msix_table_bar := table_bar |>
                <| msix_pba_bar := pba_bar |>
                <| msix_capability_offset := capability_offset |>
                <| msix_vector_count := vector_count |> <| msix_configured := true |>) ;;;
              ret 0
  end.

(** * Buses and their functions *)

Definition zero_pci_bus : VartPciBus :=
  mkPciBus None None [] 0 0 0 0 (replicate 256 None) 0 0 0 0 0 0.

(** The growth of the array of children: the new capacity, or an error. *)
Definition children_grow (v : VartPciBus) : M World (Z + Z) :=
  if Z.of_nat (length (pb_children v)) =? pb_child_capacity v then
    let cap := pb_child_capacity v in
    let capacity := if cap =? 0 then 4 else u64 (cap * 2) in
    if (capacity <? cap) || (SIZE_MAX / 8 <? capacity) then ret (inl (-EOVERFLOW))
    else
      let* ok := allocate in
      if ok then ret (inr capacity) else ret (inl (-ENOMEM))
  else ret (inr (pb_child_capacity v)).

(** The name is not NULL.  A parent PCI bus has the address of its [VartBus]. *)
Definition vart_pci_bus_init (fuel : nat) (bus parent_bus parent_pci_bus
    address_space : option ptr) (number : Z) : M World Z :=
  match bus, parent_bus, address_space with
  | Some b, Some _, Some _ =>
      if match parent_pci_bus with
         | Some p => negb (bool_decide (parent_bus = Some p))
         | None => false
         end
      then ret (-EINVAL)
      else
        let* clash :=
          match parent_pci_bus with
          | Some p =>
              let* parent := load_pci_bus p in
              if number <=? pb_number parent then ret true
              else
                let* found := vart_pci_bus_find fuel (Some p) number in
                ret (bool_decide (is_Some found))
          | None => ret false
          end in
        if (clash : bool) then ret (-EINVAL)
        else
          vart_bus_init b parent_bus address_space ;;;
          store_pci_bus b (zero_pci_bus <| pb_parent_pci_bus := parent_pci_bus |>
            <| pb_number := number |> <| pb_secondary_number := number |>
            <| pb_subordinate_number := UINT8_MAX |>) ;;;
          match parent_pci_bus with
          | None => ret 0
          | Some p =>
              let* parent := load_pci_bus p in
              let* r := children_grow parent in
              match r with
              | inl err => ret err
              | inr capacity =>
                  store_pci_bus p (parent <| pb_child_capacity := capacity |>
                    <| pb_children := pb_children parent ++ [b] |>) ;;;
                  ret 0
              end
          end
  | _, _, _ => ret (-EINVAL)
  end.

Definition vart_pci_bus_destroy (bus : option ptr) : M World Z :=
  match bus with
  | None => ret (-EINVAL)
  | Some b =>
      let* plain := load_bus b in
      let* v := load_pci_bus b in
      if negb (Z.of_nat (length (bus_devices plain)) =? 0) ||
         negb (Z.of_nat (length (pb_children v)) =? 0)
      then ret (-EBUSY)
      else
        match pb_parent_pci_bus v with
        | Some p => update_pci_bus p (fun parent => parent
                      <| pb_children ::= remove_first b |>)
        | None => ret tt
        end ;;;
        update_pci_bus b (fun v => v <| pb_children := [] |> <| pb_child_capacity := 0 |>
                                     <| pb_parent_pci_bus := None |>) ;;;
        vart_bus_destroy (Some b)
  end.

Definition load_slot (bus : ptr) (devfn : Z) : M World (option ptr) :=
  let* v := load_pci_bus bus in deref (pb_functions v !! Z.to_nat devfn).

Definition vart_pci_bus_add_device (bus device : option ptr) (devfn : Z) : M World Z :=
  let function := Z.land devfn 0x7 in
  let function0_devfn := Z.land devfn 0xf8 in
  match bus, device with
  | Some b, Some d =>
      let* dev := load_device d in
      if bool_decide (is_Some (pci_bus dev)) then ret (-EALREADY)
      else
        let* slot := load_slot b devfn in
        let* slot0 := load_slot b function0_devfn in
        if bool_decide (is_Some slot) then ret (-EEXIST)
        else if negb (function =? 0) && bool_decide (slot0 = None) then ret (-EINVAL)
        else
          let* err := @vart_bus_add_device pci_devices (Some b) (Some d) in
          if err <? 0 then ret err
          else
            let* plain := load_bus b in
            let* v := load_pci_bus b in
            update_device d (fun dev =>
              let parent := pci_parent dev in
              dev <| pci_bus := Some b |>
                <| pci_parent :=
                     match dev_dma_as parent with
                     | None => parent <| dev_dma_as := bus_address_space plain |>
                                      <| dev_dma_as_from_bus := true |>
                     | Some _ => parent <| dev_dma_as_from_bus := false |>
                     end |>
                <| pci_devfn := devfn |>
                <| pci_requester_id := requester_id_of (pb_number v) devfn |>) ;;;
            store_pci_bus b (v <| pb_functions ::= <[Z.to_nat devfn := Some d]> |>) ;;;
            (if negb (function =? 0) then
               let* f0 := deref slot0 in
               let* header := load_config f0 0x0e 1 in
               store_config f0 0x0e 1 (Z.lor header VART_PCI_HEADER_TYPE_MULTIFUNCTION)
             else ret tt) ;;;
            ret 0
  | _, _ => ret (-EINVAL)
  end.

(** One of the functions 1 to 7 of the slot is present. *)
Definition other_functions (functions : list (option ptr)) (devfn : Z) : bool :=
  existsb (fun i => match functions !! (Z.to_nat (Z.land devfn 0xf8) + i)%nat with
                    | Some (Some _) => true
                    | _ => false
                    end) (seq 1 7).

Definition vart_pci_bus_remove_device (bus device : option ptr) : M World Z :=
  match bus, device with
  | Some b, Some d =>
      let* dev := load_device d in
      let devfn := pci_devfn dev in
      if negb (bool_decide (pci_bus dev = Some b)) then ret (-ENOENT)
      else
        let* slot := load_slot b devfn in
        if negb (bool_decide (slot = Some d)) then ret (-ENOENT)
        else if dev_realized (pci_parent dev) then ret (-EBUSY)
        else
          let function := Z.land devfn 0x7 in
          let* v := load_pci_bus b in
          if (function =? 0) && other_functions (pb_functions v) devfn then ret (-EBUSY)
          else
            let* err := @vart_bus_remove_device pci_devices (Some b) (Some d) in
            if err <? 0 then ret err
            else
              let* v := load_pci_bus b in
              let v := v <| pb_functions ::= <[Z.to_nat devfn := None]> |> in
              store_pci_bus b v ;;;
              update_device d (fun dev =>
                let parent := pci_parent dev in
                dev <| pci_bus := None |> <| pci_requester_id := 0 |>
                  <| pci_parent :=
                       if dev_dma_as_from_bus parent
                       then parent <| dev_dma_as := None |> <| dev_dma_as_from_bus := false |>
                       else parent |>) ;;;
              let* slot0 := load_slot b (Z.land devfn 0xf8) in
              match slot0 with
              | Some f0 =>
                  if negb (function =? 0) && negb (other_functions (pb_functions v) devfn)
                  then
                    let* header := load_config f0 0x0e 1 in
                    store_config f0 0x0e 1
                      (Z.land header (u8 (Z.lnot VART_PCI_HEADER_TYPE_MULTIFUNCTION))) ;;;
                    ret 0
                  else ret 0
              | None => ret 0
              end
  | _, _ => ret (-ENOENT)
  end.

(** * Bridges and switches *)

(** The window of a new bridge in the window of its parent bus: base and end. *)
Definition bridge_window (parent : VartPciBus) (window_size : Z) : option (Z * Z) :=
  if (pb_mmio_size parent <? window_size) ||
     (UINT64_MAX - pb_mmio_size parent <? pb_mmio_base parent)
  then None
  else
    let next := if pb_mmio_next parent <? pb_mmio_base parent
                then pb_mmio_base parent else pb_mmio_next parent in
    let window_base := Z.land (u64 (next + window_size - 1))
                         (u64 (Z.lnot (window_size - 1))) in
    if (window_base <? next) || (UINT64_MAX - window_size <? window_base) then None
    else
      let window_end := window_base + window_size in
      if (window_base <? pb_mmio_base parent) ||
         (pb_mmio_base parent + pb_mmio_size parent <? window_end)
      then None else Some (window_base, window_end).

(** The registers of a new bridge: bus numbers and memory window. *)
Definition bridge_registers (bridge : ptr) (primary secondary window_base window_end : Z)
    : M World unit :=
  write_config_bytes bridge [(0x18, primary); (0x19, secondary); (0x1a, secondary)] ;;;
  store_config bridge 0x20 2 (Z.land (u16 (Z.shiftr window_base 16)) 0xfff0) ;;;
  store_config bridge 0x22 2
    (Z.lor (Z.land (u16 (Z.shiftr (window_end - 1) 16)) 0xfff0) 0x000f).

(** The name is not NULL. *)
Definition pci_bridge_init_with_window (fuel : nat) (bridge parent_bus address_space : option ptr)
    (secondary_number window_size : Z) : M World Z :=
  match bridge, parent_bus, address_space with
  | Some br, Some p, Some _ =>
      let* parent := load_pci_bus p in
      if (secondary_number <=? pb_number parent) || (window_size =? 0) ||
         negb (Z.land window_size (u64 (window_size - 1)) =? 0)
      then ret (-EINVAL)
      else
        let* root := pci_bus_root fuel (Some p) in
        let* found := vart_pci_bus_find fuel root secondary_number in
        if bool_decide (is_Some found) then ret (-EEXIST)
        else
          match bridge_window parent window_size with
          | None => ret (-ENOSPC)
          | Some (window_base, window_end) =>
              let* err := vart_pci_device_init (Some br) 0x1b36 0x0001 0 0 0x04 0x06 in
              if err <? 0 then ret err
              else
                update_device br (fun dev => dev
                  <| pci_config_ops := Some pci_bridge_config_ops |>) ;;;
                store_config br 0x0e 1 0x01 ;;;
                let* v := load_bridge br in
                let secondary := br_secondary_bus v in
                let* err := vart_pci_bus_init fuel (Some secondary) (Some p) (Some p)
                              address_space secondary_number in
                if err <? 0 then ret err
                else
                  update_pci_bus p (fun parent => parent <| pb_mmio_next := window_end |>) ;;;
                  store_bridge br (v <| br_mmio_base := window_base |>
                                     <| br_mmio_size := window_size |>) ;;;
                  update_pci_bus secondary (fun bus => bus
                    <| pb_mmio_base := window_base |> <| pb_mmio_size := window_size |>
                    <| pb_mmio_next := window_base |> <| pb_owner_bridge := Some br |>) ;;;
                  let* err := pci_bridge_update_prefetch_window br in
                  if err <? 0 then vart_pci_bus_destroy (Some secondary) ;;; ret err
                  else
                    update_pci_bus secondary (fun bus => bus
                      <| pb_subordinate_number := secondary_number |>) ;;;
                    bridge_registers br (pb_number parent) secondary_number
                      window_base window_end ;;;
                    pci_bus_update_ancestors fuel (Some secondary) ;;;
                    ret 0
          end
  | _, _, _ => ret (-EINVAL)
  end.

Definition vart_pci_bridge_init (fuel : nat) (bridge parent_bus address_space : option ptr)
    (secondary_number : Z) : M World Z :=
  pci_bridge_init_with_window fuel bridge parent_bus address_space secondary_number
    VART_PCI_BRIDGE_MMIO_WINDOW_SIZE.

Definition bridge_in_use (dev : VartPciDevice) : bool :=
  dev_realized (pci_parent dev) || bool_decide (is_Some (pci_bus dev)).

Definition vart_pci_bridge_destroy (bridge : option ptr) : M World Z :=
  match bridge with
  | None => ret (-EINVAL)
  | Some br =>
      let* dev := load_device br in
      if bridge_in_use dev then ret (-EBUSY)
      else
        let* v := load_bridge br in
        vart_pci_bus_destroy (Some (br_secondary_bus v))
  end.

(** The ports before the one that failed are destroyed, last first. *)
Fixpoint destroy_ports (ports : list ptr) : M World unit :=
  match ports with
  | [] => ret tt
  | port :: rest => vart_pci_bridge_destroy (Some port) ;;; destroy_ports rest
  end.

(** The [for] loop over the ports; [made] are those set up so far, last first. *)
Fixpoint init_ports (fuel : nat) (ports made : list ptr) (upstream_bus : ptr)
    (address_space : option ptr) (number : Z) : M World Z :=
  match ports with
  | [] => ret 0
  | port :: rest =>
      let* err := pci_bridge_init_with_window fuel (Some port) (Some upstream_bus)
                    address_space (u8 number) VART_PCI_BRIDGE_MMIO_WINDOW_SIZE in
      if err <? 0 then destroy_ports made ;;; ret err
      else init_ports fuel rest (port :: made) upstream_bus address_space (number + 1)
  end.

(** [memset] of the upstream bridge inside the switch. *)
Definition clear_bridge (br : ptr) : M World unit :=
  let* v := load_bridge br in
  clear_pci_device br ;;;
  store_pci_bus (br_secondary_bus v) zero_pci_bus ;;;
  store_bus (br_secondary_bus v) (mkBus None None [] 0) ;;;
  store_bridge br (mkBridge (br_secondary_bus v) 0 0 0 0).

(** [ports] is the array that [calloc] would return, zeroed already.  At most four
    ports pass the first test, so the product below cannot overflow and the test
    for that is left out. *)
Definition vart_pci_switch_init (fuel : nat) (sw parent_bus address_space : option ptr)
    (secondary_number : Z) (ports : list ptr) : M World Z :=
  let port_count := Z.of_nat (length ports) in
  match sw, parent_bus, address_space with
  | Some s, Some p, Some _ =>
      if (port_count =? 0) || negb (Z.land port_count (port_count - 1) =? 0) ||
         (4 <? port_count) || (UINT8_MAX - port_count <? secondary_number)
      then ret (-EINVAL)
      else
        let window_size := port_count * VART_PCI_BRIDGE_MMIO_WINDOW_SIZE in
        let* parent := load_pci_bus p in
        let old_mmio_next := pb_mmio_next parent in
        clear_bridge s ;;;
        let* ok := allocate in
        if negb ok then store_switch s (mkSwitch None) ;;; ret (-ENOMEM)
        else
          store_switch s (mkSwitch (Some ports)) ;;;
          let* err := pci_bridge_init_with_window fuel (Some s) (Some p) address_space
                        secondary_number window_size in
          if err <? 0 then store_switch s (mkSwitch None) ;;; ret err
          else
            let* up := load_bridge s in
            let* err := init_ports fuel ports [] (br_secondary_bus up) address_space
                          (secondary_number + 1) in
            if err <? 0 then
              vart_pci_bridge_destroy (Some s) ;;;
              store_switch s (mkSwitch None) ;;;
              update_pci_bus p (fun parent => parent <| pb_mmio_next := old_mmio_next |>) ;;;
              ret err
            else ret 0
  | _, _, _ => ret (-EINVAL)
  end.

Fixpoint any_port_in_use (ports : list ptr) : M World bool :=
  match ports with
  | [] => ret false
  | port :: rest =>
      let* dev := load_device port in
      if bridge_in_use dev then ret true else any_port_in_use rest
  end.

(** The second loop, from the last port to the first. *)
Fixpoint destroy_all (ports : list ptr) : M World Z :=
  match ports with
  | [] => ret 0
  | port :: rest =>
      let* err := vart_pci_bridge_destroy (Some port) in
      if err <? 0 then ret err else destroy_all rest
  end.

Definition vart_pci_switch_destroy (sw : option ptr) : M World Z :=
  match sw with
  | None => ret (-EINVAL)
  | Some s =>
      let* v := load_switch s in
      match sw_downstream_ports v with
      | None | Some [] => ret (-EINVAL)
      | Some ports =>
          let* busy := any_port_in_use ports in
          if (busy : bool) then ret (-EBUSY)
          else
            let* err := destroy_all (rev ports) in
            if err <? 0 then ret err
            else store_switch s (mkSwitch None) ;;; vart_pci_bridge_destroy (Some s)
      end
  end.

(** * The root complex *)

Abbreviation VART_PCI_ROOT_BUS_NUMBER := 0 (only parsing).
Abbreviation VART_VIRT_PCIE_ECAM_BASE := 0x30000000 (only parsing).
Abbreviation VART_VIRT_PCIE_ECAM_SIZE := 0x10000000 (only parsing).
Abbreviation VART_VIRT_PCIE_MMIO_BASE := 0x40000000 (only parsing).
Abbreviation VART_VIRT_PCIE_MMIO_SIZE := 0x40000000 (only parsing).

Definition vart_pci_root_complex_init (fuel : nat) (complex parent_bus address_space : option ptr)
    : M World Z :=
  match complex, parent_bus, address_space with
  | Some c, Some _, Some _ =>
      let* rc := load_complex c in
      store_region (rc_ecam_region rc) zero_region ;;;
      store_complex c (rc <| rc_ecam_mapped := false |>) ;;;
      vart_device_init c (Some pci_root_complex_ops) (Some c) None ;;;
      let* err := vart_pci_bus_init fuel (Some (rc_root_bus rc)) parent_bus None
                    address_space VART_PCI_ROOT_BUS_NUMBER in
      if err <? 0 then ret err
      else
        update_pci_bus (rc_root_bus rc) (fun v => v
          <| pb_mmio_base := VART_VIRT_PCIE_MMIO_BASE |>
          <| pb_mmio_size := VART_VIRT_PCIE_MMIO_SIZE |>
          <| pb_mmio_next := VART_VIRT_PCIE_MMIO_BASE |>) ;;;
        let* err := vart_address_region_init_mmio (Some (rc_ecam_region rc))
                      VART_VIRT_PCIE_ECAM_BASE VART_VIRT_PCIE_ECAM_SIZE 0 (Some c)
                      (Some pci_ecam_ops) (Some c) in
        if err <? 0 then vart_pci_bus_destroy (Some (rc_root_bus rc)) ;;; ret err
        else ret 0
  | _, _, _ => ret (-EINVAL)
  end.

Definition vart_pci_root_complex_destroy `{DeviceCallbacks} (complex : option ptr) : M World Z :=
  match complex with
  | None => ret (-EINVAL)
  | Some c =>
      let* rc := load_complex c in
      let* plain := load_bus (rc_root_bus rc) in
      let* root := load_pci_bus (rc_root_bus rc) in
      if negb (Z.of_nat (length (bus_devices plain)) =? 0) ||
         negb (Z.of_nat (length (pb_children root)) =? 0)
      then ret (-EBUSY)
      else
        vart_device_unrealize (Some c) ;;;
        let* dev := load_plain_device c in
        let* err := match dev_bus dev with
                    | Some b => vart_bus_remove_device (Some b) (Some c)
                    | None => ret 0
                    end in
        if err <? 0 then ret err else vart_pci_bus_destroy (Some (rc_root_bus rc))
  end.

(** * The callbacks of this file *)

(** The configuration routines of bridges. *)
Definition bridge_config_callbacks (fuel : nat) : ConfigCallbacks := {|
  call_config_read f device offset size value :=
    match f with
    | fn_pci_bridge_config_read => pci_bridge_config_read device offset size value
    | _ => undefined
    end;
  call_config_write f device offset size value :=
    match f with
    | fn_pci_bridge_config_write => pci_bridge_config_write fuel device offset size value
    | _ => undefined
    end;
|}.

(** The regions of the root complex and of MSI-X. *)
Definition pci_mmio_callbacks `{ConfigCallbacks} `{MsixCallbacks} `{IrqCallbacks}
    (fuel : nat) : MmioCallbacks := {|
  call_mmio_read f opaque offset size value :=
    match f with
    | fn_pci_ecam_read => pci_ecam_read fuel opaque offset size value
    | fn_pci_msix_table_read =>
        let* d := deref opaque in pci_msix_table_read d offset size value
    | fn_pci_msix_pba_read =>
        let* d := deref opaque in pci_msix_pba_read d offset size value
    | _ => undefined
    end;
  call_mmio_write f opaque offset size value :=
    match f with
    | fn_pci_ecam_write => pci_ecam_write fuel opaque offset size value
    | fn_pci_msix_table_write =>
        let* d := deref opaque in pci_msix_table_write d offset size value
    | fn_pci_msix_pba_write =>
        let* d := deref opaque in pci_msix_pba_write d offset size value
    | _ => undefined
    end;
|}.
