(* ===== verification/PciTheorems.v ===== *)
(** Theorems about PCI configuration: the list of capabilities, the sizing of base
    address registers, memory decoding, and the routing of configuration accesses
    through the tree of buses.  The definitions are in [Pci.v]. *)

From stdpp Require Import base tactics numbers list gmap.
From Stdlib Require Import ZArith Lia.
From S2P Require Import Prelude Bytes Machine AddressSpace Iommu Devices Msix Pci.

Abbreviation zlen l := (Z.of_nat (length l)).

(** * Bytes of the configuration space *)

Lemma slice_Ok l offset size w :
  0 <= offset -> 0 <= size -> offset + size <= zlen l ->
  slice l offset size w = Ok (take (Z.to_nat size) (drop (Z.to_nat offset) l), w).
Proof.
  intros. unfold slice. rewrite (proj2 (Z.leb_le 0 offset)) by lia.
  by rewrite (proj2 (Z.leb_le _ _)) by lia.
Qed.

(** The array with [bytes] at [offset]. *)
Definition put_bytes (l : list Z) (offset : nat) (bytes : list Z) : list Z :=
  take offset l ++ bytes ++ drop (offset + length bytes) l.

Lemma put_bytes_length l offset bytes :
  (offset + length bytes <= length l)%nat -> length (put_bytes l offset bytes) = length l.
Proof. intros. unfold put_bytes. rewrite !length_app, length_take, length_drop. lia. Qed.

Lemma put_bytes_lookup l offset bytes i :
  (offset + length bytes <= length l)%nat ->
  put_bytes l offset bytes !! i =
  if decide (offset <= i < offset + length bytes)%nat then bytes !! (i - offset)%nat
  else l !! i.
Proof.
  intros Hl. unfold put_bytes. case_decide as Hi.
  - rewrite lookup_app_r by (rewrite length_take; lia).
    rewrite length_take, Nat.min_l by lia. by rewrite lookup_app_l by lia.
  - destruct (decide (i < offset)%nat).
    + rewrite lookup_app_l by (rewrite length_take; lia). by rewrite lookup_take_lt.
    + rewrite lookup_app_r by (rewrite length_take; lia).
      rewrite length_take, Nat.min_l by lia. rewrite lookup_app_r by lia.
      rewrite lookup_drop. f_equal. lia.
Qed.

Lemma config_put_Ok l offset bytes w :
  0 <= offset -> offset + zlen bytes <= zlen l ->
  config_put l offset bytes w = Ok (put_bytes l (Z.to_nat offset) bytes, w).
Proof.
  intros. unfold config_put.
  by rewrite (bind_eq _ _ _ _ _ (slice_Ok l offset (zlen bytes) w ltac:(lia) ltac:(lia) ltac:(lia))).
Qed.

(** Lengths of nested updates. *)
Ltac put_length :=
  repeat first [rewrite put_bytes_length | rewrite length_replicate | progress cbn [length]];
  lia.

Lemma bind_eq_then {W A B} (m : M W A) (k : A -> M W B) w a w' r :
  m w = Ok (a, w') -> k a w' = r -> bind m k w = r.
Proof. intros H <-. by apply bind_eq. Qed.

(** Step over a [config_put] in bounds. *)
Ltac run_put :=
  eapply bind_eq_then; [apply config_put_Ok; put_length|].

Lemma config_store_Ok l offset size value w :
  0 <= offset -> 0 <= size -> offset + size <= zlen l ->
  config_store_le l offset size value w =
  Ok (put_bytes l (Z.to_nat offset) (store_le (Z.to_nat size) value), w).
Proof.
  intros. unfold config_store_le.
  rewrite (bind_eq _ _ _ _ _ (slice_Ok l offset size w ltac:(lia) ltac:(lia) ltac:(lia))).
  unfold ret, put_bytes. rewrite store_le_length. do 4 f_equal. f_equal. lia.
Qed.

Lemma config_load_Ok l offset size w :
  0 <= offset -> 0 <= size -> offset + size <= zlen l ->
  config_load_le l offset size w =
  Ok (load_le (take (Z.to_nat size) (drop (Z.to_nat offset) l)), w).
Proof.
  intros. unfold config_load_le.
  by rewrite (bind_eq _ _ _ _ _ (slice_Ok l offset size w ltac:(lia) ltac:(lia) ltac:(lia))).
Qed.

(** Reading back a word that was stored, and one next to it. *)
Lemma read_put_same l offset bytes :
  (offset + length bytes <= length l)%nat ->
  take (length bytes) (drop offset (put_bytes l offset bytes)) = bytes.
Proof.
  intros Hl. unfold put_bytes. rewrite drop_app_ge; rewrite length_take_le by lia; [|done].
  by rewrite Nat.sub_diag, drop_0, take_app_length.
Qed.

Lemma read_put_other l offset bytes a n :
  (offset + length bytes <= length l)%nat ->
  (a + n <= offset \/ offset + length bytes <= a)%nat ->
  take n (drop a (put_bytes l offset bytes)) = take n (drop a l).
Proof.
  intros Hl Hd. apply list_eq. intros i. destruct (decide (i < n)%nat).
  - rewrite !lookup_take_lt, !lookup_drop, put_bytes_lookup, decide_False by lia. done.
  - by rewrite !lookup_take_ge by lia.
Qed.

Lemma load_store_word v : 0 <= v < 2 ^ 32 -> load_le (store_le 4 v) = v.
Proof. intros. rewrite load_store_le. by apply Z.mod_small. Qed.

(** * The list of capabilities *)

(** A capability: where it is, its identifier and the bytes after its header. *)
Record capability := Cap { cap_offset : nat; cap_id : Z; cap_data : list Z }.

(** The four-byte units that a capability takes up. *)
Definition cap_size (data : list Z) : nat := ((length data + 5) / 4 * 4)%nat.

(** What a guest does: it follows the pointer at [loc] until it is zero. *)
Fixpoint cap_walk (fuel : nat) (config : list Z) (loc : nat) : option (list (nat * Z)) :=
  match fuel with
  | O => None
  | S fuel =>
      pointer ← config !! loc;
      if pointer =? 0 then Some []
      else
        id ← config !! Z.to_nat pointer;
        rest ← cap_walk fuel config (S (Z.to_nat pointer));
        Some ((Z.to_nat pointer, id) :: rest)
  end.

Definition cap_at (config : list Z) (c : capability) : Prop :=
  config !! cap_offset c = Some (cap_id c) /\
  forall k b, cap_data c !! k = Some b -> config !! (cap_offset c + 2 + k)%nat = Some b.

(** The capabilities [caps] in their places, linked from [loc] on. *)
Fixpoint linked (config : list Z) (loc : nat) (caps : list capability) : Prop :=
  match caps with
  | [] => config !! loc = Some 0
  | c :: rest =>
      config !! loc = Some (Z.of_nat (cap_offset c)) /\ cap_at config c /\
      linked config (S (cap_offset c)) rest
  end.

(** They fill [lo .. hi) one after the other. *)
Fixpoint placed (lo hi : nat) (caps : list capability) : Prop :=
  match caps with
  | [] => lo = hi
  | c :: rest => cap_offset c = lo /\ placed (lo + cap_size (cap_data c)) hi rest
  end.

(** Where the next pointer goes. *)
Fixpoint tail_link (loc : nat) (caps : list capability) : nat :=
  match caps with
  | [] => loc
  | c :: rest => tail_link (S (cap_offset c)) rest
  end.

Lemma cap_size_bounds data : (length data + 2 <= cap_size data < length data + 6)%nat.
Proof.
  unfold cap_size. pose proof (Nat.div_mod (length data + 5) 4 ltac:(lia)).
  pose proof (Nat.mod_upper_bound (length data + 5) 4 ltac:(lia)). lia.
Qed.

Lemma placed_le lo hi caps : placed lo hi caps -> (lo <= hi)%nat.
Proof.
  revert lo. induction caps as [|c rest IH]; intros lo; simpl; [lia|].
  intros [_ H]. apply IH in H. lia.
Qed.

Lemma placed_snoc lo hi caps c :
  placed lo hi caps -> cap_offset c = hi ->
  placed lo (hi + cap_size (cap_data c)) (caps ++ [c]).
Proof.
  revert lo. induction caps as [|c0 rest IH]; intros lo; simpl; [by intros -> ->|].
  intros [H0 H] Hc. split; [done|]. by apply IH.
Qed.

Lemma placed_bounds lo hi caps c :
  placed lo hi caps -> c ∈ caps ->
  (lo <= cap_offset c /\ cap_offset c + cap_size (cap_data c) <= hi)%nat.
Proof.
  revert lo. induction caps as [|c0 rest IH]; intros lo; simpl; [set_solver|].
  intros [H0 H] [->|Hc]%elem_of_cons.
  - apply placed_le in H. lia.
  - specialize (IH _ H Hc). lia.
Qed.

(** The link of the last capability lies inside it. *)
Lemma tail_link_range lo hi caps loc :
  placed lo hi caps -> caps <> [] -> (lo < tail_link loc caps < hi)%nat.
Proof.
  revert lo loc. induction caps as [|c rest IH]; intros lo loc; simpl; [done|].
  intros [H0 H] _. pose proof (cap_size_bounds (cap_data c)). subst lo.
  destruct rest as [|c1 rest].
  - simpl in *. lia.
  - specialize (IH _ (S (cap_offset c)) H ltac:(done)). lia.
Qed.

(** A capability appended: all other bytes of the list are as before. *)
Lemma linked_snoc config config' loc lo hi caps c :
  linked config loc caps -> placed lo hi caps -> (loc < lo)%nat ->
  (forall i, (i = loc \/ lo <= i < hi)%nat -> i <> tail_link loc caps ->
     config' !! i = config !! i) ->
  config' !! tail_link loc caps = Some (Z.of_nat (cap_offset c)) ->
  cap_at config' c -> config' !! S (cap_offset c) = Some 0 ->
  linked config' loc (caps ++ [c]).
Proof.
  revert loc lo. induction caps as [|c0 rest IH]; intros loc lo Hl Hp Hlt Hsame Ht Hc Hz; simpl.
  - done.
  - destruct Hl as (Hloc & [Hid Hdata] & Hrest), Hp as [Hc0 Hp].
    pose proof (cap_size_bounds (cap_data c0)) as Hs. pose proof (placed_le _ _ _ Hp) as Hle.
    assert (forall i, (i = loc \/ cap_offset c0 <= i < lo + cap_size (cap_data c0))%nat ->
      i <> S (cap_offset c0) -> config' !! i = config !! i) as Hsame0.
    { intros i Hi Hne. apply Hsame; [lia|]. simpl.
      destruct rest as [|c1 rest]; [done|].
      pose proof (tail_link_range _ _ (c1 :: rest) (S (cap_offset c0)) Hp ltac:(done)). lia. }
    split_and!.
    + rewrite Hsame0 by lia. done.
    + split; [rewrite Hsame0 by lia; done|].
      intros k b Hk. assert (k < length (cap_data c0))%nat by (by eapply lookup_lt_Some).
      rewrite Hsame0 by lia. by apply Hdata.
    + eapply (IH _ (lo + cap_size (cap_data c0))%nat); [done|done|lia| |done|done|done].
      intros i Hi Hne. apply Hsame; [lia|done].
Qed.

(** The guest's walk finds the capabilities. *)
Lemma cap_walk_linked fuel config loc caps :
  linked config loc caps -> Forall (fun c => 0 < cap_offset c)%nat caps ->
  (length caps < fuel)%nat ->
  cap_walk fuel config loc = Some (map (fun c => (cap_offset c, cap_id c)) caps).
Proof.
  revert fuel loc. induction caps as [|c rest IH]; intros [|fuel] loc Hl Hpos Hf;
    simpl in *; try lia.
  - by rewrite Hl.
  - destruct Hl as (-> & [Hid _] & Hrest). inversion_clear Hpos as [|? ? Hc Hr].
    cbn [mbind option_bind]. rewrite (proj2 (Z.eqb_neq _ 0)) by lia.
    rewrite Nat2Z.id, Hid. cbn [mbind option_bind].
    rewrite (IH fuel _ Hrest Hr ltac:(lia)). done.
Qed.

(** Where [link_capability] stores the pointer to the new capability. *)
Definition link_loc (tail : Z) : nat :=
  if tail =? 0 then 52%nat else S (Z.to_nat tail).

Lemma store_le2_lookup v :
  store_le 2 v !! 0%nat = Some (u8 v) /\ length (store_le 2 v) = 2%nat.
Proof. unfold store_le. cbn [store_le_loop]. by rewrite Z.shiftr_0_r. Qed.

Lemma status_bit x : Z.testbit (u8 (Z.lor x VART_PCI_STATUS_CAPABILITIES)) 4 = true.
Proof.
  unfold u8. change 256 with (2 ^ 8). rewrite Z.mod_pow2_bits_low by lia.
  rewrite Z.lor_spec. change (Z.testbit 16 4) with true. apply orb_true_r.
Qed.

(** The configuration space after a link, before and after the status bit. *)
Definition with_capability (config : list Z) (id : Z) (data : list Z) (off : nat)
    (tail : Z) : list Z :=
  put_bytes (put_bytes (put_bytes (put_bytes config off (replicate (cap_size data) 0))
    off [id]) (off + 2) data) (link_loc tail) [Z.of_nat off].
Definition after_link (config : list Z) (id : Z) (data : list Z) (off : nat) (tail : Z)
    : list Z :=
  let c := with_capability config id data off tail in
  put_bytes c 6 (store_le 2 (Z.lor (load_le (take 2 (drop 6 c))) VART_PCI_STATUS_CAPABILITIES)).

Section Link.
Context (config : list Z) (id : Z) (data : list Z) (off : nat) (tail : Z).
Hypothesis Hlen : length config = 4096%nat.
Hypothesis Hlo : (64 <= off)%nat.
Hypothesis Hhi : (off + cap_size data <= 256)%nat.
Hypothesis Htail : 0 <= tail.
Hypothesis Hloc : (link_loc tail < off)%nat.

Lemma with_capability_length : length (with_capability config id data off tail) = 4096%nat.
Proof using All.
  pose proof (cap_size_bounds data). unfold with_capability.
  put_length.
Qed.

(** Every byte after the link. *)
Lemma after_link_lookup i :
  after_link config id data off tail !! i =
  if decide (6 <= i < 8)%nat then
    store_le 2 (Z.lor (load_le (take 2 (drop 6 (with_capability config id data off tail))))
      VART_PCI_STATUS_CAPABILITIES) !! (i - 6)%nat
  else if decide (i = link_loc tail) then Some (Z.of_nat off)
  else if decide (off + 2 <= i < off + 2 + length data)%nat then data !! (i - off - 2)%nat
  else if decide (i = off) then Some id
  else if decide (off <= i < off + cap_size data)%nat then Some 0
  else config !! i.
Proof using All.
  pose proof (cap_size_bounds data). unfold after_link. cbv zeta.
  rewrite put_bytes_lookup by (rewrite with_capability_length, store_le_length; lia).
  rewrite store_le_length. change (6 + 2)%nat with 8%nat. case_decide; [done|].
  unfold with_capability.
  rewrite put_bytes_lookup by put_length. cbn [length].
  destruct (decide (i = link_loc tail)) as [->|];
    [rewrite decide_True by lia; by rewrite Nat.sub_diag|rewrite decide_False by lia].
  rewrite put_bytes_lookup by put_length.
  destruct (decide (off + 2 <= i < off + 2 + length data)%nat); [f_equal; lia|].
  rewrite put_bytes_lookup by put_length. cbn [length].
  destruct (decide (i = off)) as [->|];
    [rewrite decide_True by lia; by rewrite Nat.sub_diag|rewrite decide_False by lia].
  rewrite put_bytes_lookup by put_length. rewrite length_replicate.
  case_decide; [|done]. apply lookup_replicate. split; [done|lia].
Qed.

Lemma link_capability_Ok w :
  link_capability config id data (Z.of_nat off) (Z.of_nat (cap_size data)) tail w =
  Ok (after_link config id data off tail, w).
Proof using All.
  pose proof (cap_size_bounds data). unfold link_capability. rewrite Nat2Z.id.
  run_put. run_put. run_put. rewrite u8_small by lia.
  apply (bind_eq_then _ _ _ (with_capability config id data off tail) w).
  - unfold with_capability, link_loc in *. destruct (Z.eqb_spec tail 0); cbv iota.
    + rewrite config_put_Ok by put_length. rewrite !Nat2Z.id. repeat f_equal; lia.
    + rewrite config_put_Ok by put_length. repeat f_equal; lia.
  - rewrite (bind_eq _ _ _ _ _ (config_load_Ok (with_capability config id data off tail) 6 2 w
      ltac:(lia) ltac:(lia) ltac:(rewrite with_capability_length; lia))).
    rewrite config_store_Ok by (rewrite ?with_capability_length; lia). done.
Qed.
End Link.

(** ** The invariant *)

Record caps_ok (dev : VartPciDevice) (caps : list capability) : Prop := {
  co_length : length (pci_config_space dev) = 4096%nat;
  co_linked : linked (pci_config_space dev) 52 caps;
  co_placed : placed 64 (Z.to_nat (pci_capability_next dev)) caps;
  co_next : 64 <= pci_capability_next dev <= 256;
  co_tail : 0 <= pci_capability_tail dev /\
            tail_link 52 caps = link_loc (pci_capability_tail dev);
  co_status : caps <> [] ->
    exists b, pci_config_space dev !! 6%nat = Some b /\ Z.testbit b 4 = true;
}.

Lemma caps_ok_frame dev dev' caps :
  pci_config_space dev' = pci_config_space dev ->
  pci_capability_next dev' = pci_capability_next dev ->
  pci_capability_tail dev' = pci_capability_tail dev -> caps_ok dev caps -> caps_ok dev' caps.
Proof. intros H1 H2 H3 []. constructor; rewrite ?H1, ?H2, ?H3; done. Qed.

Lemma tail_link_snoc loc caps c : tail_link loc (caps ++ [c]) = S (cap_offset c).
Proof. revert loc. induction caps as [|c0 rest IH]; intros; simpl; auto. Qed.

(** The size that the code reserves. *)
Lemma allocation_size data :
  Z.land (zlen data + 2 + 3) (Z.lnot 3) = Z.of_nat (cap_size data).
Proof.
  change 3 with (2 ^ 2 - 1) at 2. rewrite land_high_mask by lia. change (2 ^ 2) with 4.
  unfold cap_size. rewrite Nat2Z.inj_mul, Nat2Z.inj_div. mlia.
Qed.

(** The place of the new link: before the new capability, not in the status. *)
Lemma link_loc_bounds dev caps :
  caps_ok dev caps ->
  (link_loc (pci_capability_tail dev) < Z.to_nat (pci_capability_next dev))%nat /\
  (link_loc (pci_capability_tail dev) = 52 \/ 64 < link_loc (pci_capability_tail dev))%nat.
Proof.
  intros [_ _ Hp Hn [_ Ht] _]. rewrite <- Ht. destruct caps as [|c rest].
  - cbn [tail_link]. lia.
  - pose proof (tail_link_range _ _ _ 52 Hp ltac:(done)). lia.
Qed.

(** The capability that the code adds. *)
Lemma caps_ok_add dev caps id data :
  caps_ok dev caps ->
  (Z.to_nat (pci_capability_next dev) + cap_size data <= 256)%nat ->
  let off := Z.to_nat (pci_capability_next dev) in
  caps_ok (dev <| pci_config_space := after_link (pci_config_space dev) id data off
                    (pci_capability_tail dev) |>
               <| pci_capability_tail := u8 (pci_capability_next dev) |>
               <| pci_capability_next :=
                    u16 (pci_capability_next dev + Z.of_nat (cap_size data)) |>)
    (caps ++ [Cap off id data]).
Proof.
  intros Hok Hhi off. pose proof (link_loc_bounds dev caps Hok) as [Hloc Hloc2].
  destruct Hok as [Hlen Hl Hp Hn [Ht0 Ht] Hst]. pose proof (cap_size_bounds data) as Hs.
  assert (64 <= off)%nat as Hlo by lia.
  pose proof (after_link_lookup (pci_config_space dev) id data off _ Hlen Hlo Hhi Ht0 Hloc)
    as Hlook.
  constructor; cbn -[u8 u16 link_loc after_link Z.to_nat Z.of_nat cap_size].
  - unfold after_link. cbv zeta.
    rewrite put_bytes_length; rewrite with_capability_length, ?store_le_length; lia || done.
  - eapply (linked_snoc (pci_config_space dev) _ 52 64); [done|exact Hp|lia| | | |].
    + rewrite Ht. intros i Hi Hne. rewrite Hlook.
      rewrite !decide_False by lia. done.
    + rewrite Ht, Hlook, decide_False, decide_True by lia. done.
    + split; cbn [cap_offset cap_id cap_data].
      * rewrite Hlook. rewrite !decide_False by lia. by rewrite decide_True.
      * intros k b Hk. assert (k < length data)%nat by (by eapply lookup_lt_Some).
        rewrite Hlook, decide_False, decide_False, decide_True by lia. rewrite <- Hk. f_equal. lia.
    + cbn [cap_offset]. rewrite Hlook. rewrite !decide_False by lia. by rewrite decide_True by lia.
  - rewrite u16_small by lia.
    replace (Z.to_nat (_ + _)) with (off + cap_size data)%nat by lia.
    by apply (placed_snoc _ _ _ (Cap off id data)).
  - rewrite u16_small by lia. lia.
  - rewrite tail_link_snoc. cbn [cap_offset]. split; [apply u8_range|].
    unfold link_loc. rewrite u8_small by lia.
    rewrite (proj2 (Z.eqb_neq _ 0)) by lia. done.
  - intros _. rewrite Hlook, decide_True by lia. eexists. split; [|apply status_bit].
    unfold store_le. cbn [store_le_loop Nat.sub]. by rewrite Z.shiftr_0_r.
Qed.

(** ** The operations *)

(** The call is refused: the function [dev] is as before. *)
Ltac refused :=
  wsteps; match goal with H : w_devices _ !! _ = Some ?dev |- _ => exists dev end;
  split_and!; auto; right; split; [lia|done].

Lemma add_capability_spec d dev caps id data o w :
  w_devices w !! d = Some dev -> caps_ok dev caps ->
  wp (vart_pci_device_add_capability (Some d) id (Some data) (zlen data) o)
    (fun '(err, off) w' => exists dev', w_devices w' !! d = Some dev' /\
       pci_msix dev' = pci_msix dev /\
       (err = 0 /\ caps_ok dev' (caps ++ [Cap (Z.to_nat off) id data]) \/
        err < 0 /\ dev' = dev)) w.
Proof.
  intros Hd Hok. unfold vart_pci_device_add_capability.
  rewrite bool_decide_eq_false_2 by done. cbn [andb].
  destruct (_ || _ || _) eqn:Hargs; [refused|].
  wsteps. destruct (dev_realized (pci_parent dev) || _); [refused|].
  rewrite allocation_size.
  destruct ((pci_capability_next dev <? 64) || _ || _) eqn:Hroom; [refused|].
  pose proof (co_next _ _ Hok) as Hnext. pose proof (link_loc_bounds dev caps Hok) as [Hloc _].
  apply orb_false_iff in Hroom as [_ Hroom]. apply Z.ltb_ge in Hroom.
  wstep. eapply wp_mono with (Q := fun b w' => b = data /\ w' = w).
  { destruct (Z.eqb_spec (zlen data) 0).
    - wsteps. by destruct data.
    - wstep. eapply wp_deref; [done|]. unfold wp.
      rewrite slice_Ok by lia. change (Z.to_nat 0) with 0%nat.
      by rewrite Nat2Z.id, drop_0, firstn_all. }
  intros ? ? [-> ->]. wstep.
  pose proof (link_capability_Ok (pci_config_space dev) id data
    (Z.to_nat (pci_capability_next dev)) (pci_capability_tail dev) (co_length _ _ Hok)
    ltac:(lia) ltac:(lia) (proj1 (co_tail _ _ Hok)) Hloc w) as Hlink.
  rewrite Z2Nat.id in Hlink by lia. apply wp_ok. do 2 eexists. split; [exact Hlink|]. wsteps.
  eexists. split; [apply lookup_insert_eq|]. split; [done|]. left. split; [done|].
  pose proof (caps_ok_add dev caps id data Hok ltac:(lia)) as Hadd. cbv zeta in Hadd.
  pose proof (cap_size_bounds data).
  by rewrite (u8_small (pci_capability_next dev)) in Hadd |- * by lia.
Qed.

Lemma caps_ok_msix dev caps m : caps_ok dev caps -> caps_ok (dev <| pci_msix := m |>) caps.
Proof. by apply caps_ok_frame. Qed.

Lemma msix_body_length vc tb to_ pb po : zlen (msix_capability_body vc tb to_ pb po) = 10.
Proof. unfold msix_capability_body. by rewrite !length_app, !store_le_length. Qed.

(** [load_msix] and [store_msix] of a function that exists. *)
Lemma wp_load_msix d dev Q w :
  w_devices w !! d = Some dev -> Q (pci_msix dev) w -> wp (load_msix d) Q w.
Proof. intros. unfold load_msix. by wsteps. Qed.
Lemma wp_store_msix d dev m (Q : unit -> World -> Prop) w :
  w_devices w !! d = Some dev ->
  Q tt (w <| w_devices ::= <[d := dev <| pci_msix := m |>]> |>) -> wp (store_msix d m) Q w.
Proof. intros. unfold store_msix. by wsteps. Qed.

Lemma wp_allocate_frame (Q : bool -> World -> Prop) w :
  (forall b w', w_devices w' = w_devices w -> Q b w') -> wp allocate Q w.
Proof. intros HQ. apply wp_allocate; intros; by apply HQ. Qed.

Lemma wp_allocate3 (Q : bool -> World -> Prop) w :
  (forall b w', w_devices w' = w_devices w -> Q b w') -> wp allocate3 Q w.
Proof.
  intros HQ. unfold allocate3.
  wstep. apply wp_allocate_frame. intros b1 w1 H1.
  wstep. apply wp_allocate_frame. intros b2 w2 H2.
  wstep. apply wp_allocate_frame. intros b3 w3 H3. wsteps. apply HQ. congruence.
Qed.

Lemma init_msix_spec d dev caps vc tb to_ pb po w :
  w_devices w !! d = Some dev -> caps_ok dev caps ->
  wp (vart_pci_device_init_msix (Some d) vc tb to_ pb po)
    (fun err w' => exists dev', w_devices w' !! d = Some dev' /\
       (err = 0 /\ caps_ok dev' (caps ++ [Cap (Z.to_nat (msix_capability_offset (pci_msix dev')))
            VART_PCI_CAP_ID_MSIX (msix_capability_body vc tb to_ pb po)]) \/
        err < 0 /\ caps_ok dev' caps)) w.
Proof.
  intros Hd Hok. unfold vart_pci_device_init_msix.
  assert (forall err w', err < 0 -> w_devices w' !! d = Some dev -> exists dev',
    w_devices w' !! d = Some dev' /\
       (err = 0 /\ caps_ok dev' (caps ++ [Cap (Z.to_nat (msix_capability_offset (pci_msix dev')))
            VART_PCI_CAP_ID_MSIX (msix_capability_body vc tb to_ pb po)]) \/
        err < 0 /\ caps_ok dev' caps)) as Hfail by (intros; exists dev; auto).
  destruct (_ || bits po 7); [wsteps; by apply Hfail|].
  wsteps. destruct (dev_realized (pci_parent dev) || _); [wsteps; by apply Hfail|].
  destruct (msix_configured _); [wsteps; by apply Hfail|].
  wstep. apply wp_allocate3. intros ok w1 Hw1. rewrite <- Hw1 in Hd.
  destruct ok; cbn [negb].
  2:{ wstep. wstep. eapply wp_load_msix; [exact Hd|]. eapply wp_store_msix; [exact Hd|]. wsteps.
      eexists. split; [apply lookup_insert_eq|]. right. split; [lia|by apply caps_ok_msix]. }
  wstep. eapply wp_load_msix; [exact Hd|]. wstep. eapply wp_store_msix; [exact Hd|].
  wstep. rewrite <- (msix_body_length vc tb to_ pb po) at 1.
  eapply wp_mono.
  { eapply add_capability_spec; [apply lookup_insert_eq|by apply caps_ok_msix]. }
  intros [err off] w2 (dev2 & Hd2 & Hm & Hpost).
  destruct (Z.ltb_spec err 0).
  - wstep. wstep. eapply wp_load_msix; [exact Hd2|]. eapply wp_store_msix; [exact Hd2|]. wsteps.
    eexists. split; [apply lookup_insert_eq|]. right. split; [done|].
    destruct Hpost as [[-> _]|[_ ->]]; [lia|]. by do 2 apply caps_ok_msix.
  - destruct Hpost as [[-> Hcaps]|[? _]]; [|lia].
    wstep. eapply wp_load_msix; [exact Hd2|]. wstep. eapply wp_store_msix; [exact Hd2|]. wsteps.
    eexists. split; [apply lookup_insert_eq|]. left. split; [done|].
    by apply caps_ok_msix.
Qed.

Lemma wp_store_config d dev offset size value (Q : unit -> World -> Prop) w :
  w_devices w !! d = Some dev -> 0 <= offset -> 0 <= size ->
  offset + size <= zlen (pci_config_space dev) ->
  Q tt (w <| w_devices ::= <[d := dev <| pci_config_space := put_bytes (pci_config_space dev)
          (Z.to_nat offset) (store_le (Z.to_nat size) value) |>]> |>) ->
  wp (store_config d offset size value) Q w.
Proof.
  intros Hd H0 H1 H2 HQ. unfold store_config. wsteps.
  apply wp_ok. do 2 eexists. split; [by apply config_store_Ok|]. by wsteps.
Qed.

(** Writing header bytes leaves the pointer to the capabilities alone. *)
Lemma wp_write_config_bytes d bytes dev w :
  w_devices w !! d = Some dev -> length (pci_config_space dev) = 4096%nat ->
  Forall (fun p => 0 <= p.1 < 4096 /\ p.1 <> 52) bytes ->
  wp (write_config_bytes d bytes) (fun _ w' => exists c,
    w_devices w' !! d = Some (dev <| pci_config_space := c |>) /\ length c = 4096%nat /\
    c !! 52%nat = pci_config_space dev !! 52%nat) w.
Proof.
  intros Hd Hl Hb. revert w dev Hd Hl.
  induction Hb as [|[o v] rest [Ho Hne] Hr IH]; intros w dev Hd Hl; cbn [write_config_bytes].
  - wsteps. exists (pci_config_space dev). split_and!; [|done..]. rewrite Hd. by destruct dev.
  - cbn [fst] in *. wstep. eapply wp_store_config; [done|lia..|].
    eapply wp_mono; [eapply IH; [apply lookup_insert_eq|]|].
    + cbn [pci_config_space update]. rewrite put_bytes_length; [done|].
      rewrite store_le_length. lia.
    + intros _ w' (c & Hw' & Hc & H52). exists c. split_and!; [exact Hw'|done|].
      rewrite H52. cbn. rewrite put_bytes_lookup, decide_False; rewrite ?store_le_length; lia || done.
Qed.

Lemma clear_regions_frame l D w :
  w_devices w = D -> wp (clear_regions l) (fun _ w' => w_devices w' = D) w.
Proof.
  revert w. induction l as [|r l IH]; intros w Hw; cbn [clear_regions]; wsteps; [done|].
  by apply IH.
Qed.

Lemma wp_clear_pci_device d dev (Q : unit -> World -> Prop) w :
  w_devices w !! d = Some dev ->
  (forall w' regions table pba,
     w_devices w' !! d = Some (zero_pci_device regions table pba) -> Q tt w') ->
  wp (clear_pci_device d) Q w.
Proof.
  intros Hd HQ. unfold clear_pci_device. wsteps.
  eapply wp_mono; [by apply (clear_regions_frame _ (w_devices w))|]. intros ? w1 Hw1. wsteps.
  eapply HQ. apply lookup_insert_eq.
Qed.

Lemma device_init_spec d vendor device rev prog sub class w dev :
  w_devices w !! d = Some dev ->
  wp (vart_pci_device_init (Some d) vendor device rev prog sub class)
    (fun err w' => err = 0 /\ exists dev', w_devices w' !! d = Some dev' /\ caps_ok dev' []) w.
Proof.
  intros Hd. unfold vart_pci_device_init. wstep.
  eapply wp_clear_pci_device; [done|]. intros w1 rs tr pr H1.
  unfold vart_device_init, store_dev, pci_devices. wsteps.
  eapply wp_mono; [eapply wp_write_config_bytes; [apply lookup_insert_eq|done|]|].
  { repeat constructor; cbn; lia. }
  intros _ w2 (c & H2 & Hc & H52). unfold update_device. wsteps.
  split; [done|]. eexists. split; [apply lookup_insert_eq|].
  constructor; cbn -[Z.to_nat link_loc]; try done.
Qed.

(** Any sequence of calls that set up a function; [caps] are the capabilities
    whose addition succeeded, in order. *)
Inductive cap_history (d : ptr) : list capability -> World -> Prop :=
| cap_init vendor device rev prog sub class w w' :
    vart_pci_device_init (Some d) vendor device rev prog sub class w = Ok (0, w') ->
    cap_history d [] w'
| cap_add caps w id data o err off w' :
    cap_history d caps w ->
    vart_pci_device_add_capability (Some d) id (Some data) (Z.of_nat (length data)) o w =
      Ok ((err, off), w') ->
    cap_history d (if err =? 0 then caps ++ [Cap (Z.to_nat off) id data] else caps) w'
| cap_msix caps w vc tb to_ pb po err w' dev' :
    cap_history d caps w ->
    vart_pci_device_init_msix (Some d) vc tb to_ pb po w = Ok (err, w') ->
    w_devices w' !! d = Some dev' ->
    cap_history d (if err =? 0
      then caps ++ [Cap (Z.to_nat (msix_capability_offset (pci_msix dev'))) VART_PCI_CAP_ID_MSIX
                      (msix_capability_body vc tb to_ pb po)] else caps) w'
| cap_other caps w w' dev dev' :
    cap_history d caps w ->
    w_devices w !! d = Some dev -> w_devices w' !! d = Some dev' ->
    pci_config_space dev' = pci_config_space dev ->
    pci_capability_next dev' = pci_capability_next dev ->
    pci_capability_tail dev' = pci_capability_tail dev -> cap_history d caps w'.

Lemma cap_history_ok d caps w :
  cap_history d caps w -> exists dev, w_devices w !! d = Some dev /\ caps_ok dev caps.
Proof.
  induction 1 as [vendor device rev prog sub class w w' Hr
    |caps w id data o err off w' Hh (dev & Hd & Hok) Hr
    |caps w vc tb to_ pb po err w' dev' Hh (dev & Hd & Hok) Hr Hd'
    |caps w w' dev dev' Hh (dev0 & Hd0 & Hok) Hd Hd' H1 H2 H3].
  - assert (exists dev, w_devices w !! d = Some dev) as [dev Hd].
    { unfold vart_pci_device_init, clear_pci_device in Hr.
      apply bind_Ok in Hr as (? & ? & Hr & _). apply bind_Ok in Hr as (dev & ? & Hr & _).
      apply load_device_Ok in Hr as [Hr _]. eauto. }
    by destruct (wp_elim _ _ _ _ _ (device_init_spec d vendor device rev prog sub class w dev Hd) Hr)
      as (_ & dev' & Hd' & Hok); eauto.
  - destruct (wp_elim _ _ _ _ _ (add_capability_spec d dev caps id data o w Hd Hok) Hr)
      as (dev' & Hd' & _ & [[-> Hcaps]|[Hneg ->]]); [eauto|].
    rewrite (proj2 (Z.eqb_neq _ 0)) by lia. eauto.
  - destruct (wp_elim _ _ _ _ _ (init_msix_spec d dev caps vc tb to_ pb po w Hd Hok) Hr)
      as (dev1 & Hd1 & Hpost). assert (dev1 = dev') as -> by congruence.
    destruct Hpost as [[-> Hcaps]|[Hneg Hcaps]]; [eauto|].
    rewrite (proj2 (Z.eqb_neq _ 0)) by lia. eauto.
  - assert (dev0 = dev) as -> by congruence. exists dev'. split; [done|].
    by eapply caps_ok_frame.
Qed.

Lemma placed_count lo hi caps : placed lo hi caps -> (lo + 2 * length caps <= hi)%nat.
Proof.
  revert lo. induction caps as [|c rest IH]; intros lo; simpl; [lia|].
  intros [_ H]. apply IH in H. pose proof (cap_size_bounds (cap_data c)). lia.
Qed.

(** C26. The capabilities of a PCI function form the list that the guest walks.
    After any sequence of [vart_pci_device_add_capability] and
    [vart_pci_device_init_msix] calls on an initialised function, refused ones
    included, following the pointers from offset 0x34 meets exactly the added
    capabilities in the order of their addition and stops; they lie one after the
    other in the bytes 0x40 to 0x100 without overlapping, each with its identifier
    and its data in place; and the capability bit of the status register is set
    once there is one. *)
Theorem capability_list_correct d caps w :
  cap_history d caps w ->
  exists dev, w_devices w !! d = Some dev /\
    cap_walk 97 (pci_config_space dev) 0x34 =
      Some (map (fun c => (cap_offset c, cap_id c)) caps) /\
    (exists hi, (hi <= 0x100)%nat /\ placed 0x40 hi caps) /\
    (forall c, c ∈ caps -> cap_at (pci_config_space dev) c) /\
    (caps <> [] -> exists b, pci_config_space dev !! 6%nat = Some b /\ Z.testbit b 4 = true).
Proof.
  intros Hh. destruct (cap_history_ok d caps w Hh) as (dev & Hd & [Hlen Hl Hp Hn _ Hst]).
  exists dev. split_and!; [done| | | |done].
  - pose proof (placed_count _ _ _ Hp). apply cap_walk_linked; [done| |lia].
    apply Forall_forall. intros c Hc. pose proof (placed_bounds _ _ _ c Hp Hc). lia.
  - exists (Z.to_nat (pci_capability_next dev)). split; [lia|done].
  - clear -Hl. revert Hl. generalize 52%nat. induction caps as [|c0 rest IH]; intros loc Hl c Hc.
    + set_solver.
    + destruct Hl as (_ & H0 & Hr). apply elem_of_cons in Hc as [->|Hc]; [done|]. by eapply IH.
Qed.

(** * Base address registers as the guest programs them *)

(** The register [index] of a function, not its upper half. *)
Record bar_ready (dev : VartPciDevice) (index : nat) (bar : VartPciBar) : Prop := {
  br_index : (index < 6)%nat;
  br_bars : length (pci_bars dev) = 6%nat;
  br_bar : pci_bars dev !! index = Some bar;
  br_implemented : bar_implemented bar = true;
  br_low : bar_high_part bar = false;
  br_upper : bar_is_64bit bar = true -> exists up, pci_bars dev !! S index = Some up /\
    bar_high_part up = true;
  br_config : length (pci_config_space dev) = 4096%nat;
}.

(** The offset of the low half, and of the high half of a 64-bit register. *)
Definition bar_offset (index : nat) (high : bool) : Z :=
  0x10 + 4 * Z.of_nat index + (if high then 4 else 0).

(** What the configuration bytes show of the register. *)
Definition bar_word (bar : VartPciBar) (high : bool) : Z :=
  if high then Z.shiftr (bar_address bar) 32
  else Z.lor (u32 (bar_address bar)) (bar_flags bar).

Section Bar.
Context `{ConfigCallbacks} `{MsixCallbacks} `{IrqCallbacks} (fuel : nat).
Context (d : ptr) (index : nat).

Definition bar_state (w : World) (dev : VartPciDevice) (bar : VartPciBar) : Prop :=
  w_devices w !! d = Some dev /\ bar_ready dev index bar /\ pci_memory_enabled dev = false.

Lemma wp_load_bar dev bar i (Q : VartPciBar -> World -> Prop) w :
  w_devices w !! d = Some dev -> pci_bars dev !! Z.to_nat i = Some bar -> Q bar w ->
  wp (load_bar d i) Q w.
Proof. intros. unfold load_bar. by wsteps. Qed.

Lemma accessed_bar_spec w dev bar high (Q : option (Z * bool) -> World -> Prop) :
  bar_state w dev bar -> (high = true -> bar_is_64bit bar = true) ->
  Q (Some (Z.of_nat index, high)) w ->
  wp (accessed_bar d (bar_offset index high) 4) Q w.
Proof.
  intros (Hd & [Hi Hl Hb Himp Hlow Hup Hc] & _) Hhigh HQ.
  unfold accessed_bar, pci_bar_from_offset, bar_offset. change (4 =? 4) with true. cbv iota.
  rewrite (proj2 (Z.ltb_ge _ 0x10)) by (destruct high; lia). cbn [orb].
  assert (high = true -> (S index < 6)%nat) as Hi2.
  { intros ->. destruct (Hup (Hhigh eq_refl)) as (up & Hu & _).
    apply lookup_lt_Some in Hu. lia. }
  rewrite (proj2 (Z.leb_gt 0x28 _)) by (destruct high; [specialize (Hi2 eq_refl)|]; lia).
  destruct high.
  - destruct (Hup (Hhigh eq_refl)) as (up & Hu & Hhp).
    replace ((0x10 + 4 * Z.of_nat index + 4 - 0x10) / 4) with (Z.of_nat (S index)) by mlia.
    wstep. eapply wp_load_bar; [done|by rewrite Nat2Z.id|]. rewrite Hhp.
    rewrite (proj2 (Z.eqb_neq _ 0)) by lia.
    replace (Z.of_nat (S index) - 1) with (Z.of_nat index) by lia.
    wsteps. eapply wp_load_bar; [done|by rewrite Nat2Z.id|]. rewrite Himp. by wsteps.
  - replace ((0x10 + 4 * Z.of_nat index + 0 - 0x10) / 4) with (Z.of_nat index) by mlia.
    wstep. eapply wp_load_bar; [done|by rewrite Nat2Z.id|]. rewrite Hlow.
    wsteps. eapply wp_load_bar; [done|by rewrite Nat2Z.id|]. rewrite Himp. by wsteps.
Qed.

(** The function with another value of the register. *)
Definition with_bar (dev : VartPciDevice) (bar : VartPciBar) : VartPciDevice :=
  dev <| pci_bars ::= <[index := bar]> |>.

Lemma with_bar_state w dev bar bar' :
  bar_state w dev bar -> bar_implemented bar' = true -> bar_high_part bar' = false ->
  bar_is_64bit bar' = bar_is_64bit bar ->
  bar_state (w <| w_devices ::= <[d := with_bar dev bar']> |>) (with_bar dev bar') bar'.
Proof.
  intros (Hd & [Hi Hl Hb Himp Hlow Hup Hc] & Hm) Ha Hb2 Hc3.
  split_and!; [apply lookup_insert_eq| |done]. constructor; cbn; try done.
  - by rewrite length_insert.
  - by rewrite list_lookup_insert_eq by lia.
  - rewrite Hc3. intros Hw. destruct (Hup Hw) as (up & Hu & ?). exists up.
    rewrite list_lookup_insert_ne by lia. done.
Qed.

Lemma wp_store_bar w dev bar' (Q : unit -> World -> Prop) :
  w_devices w !! d = Some dev ->
  Q tt (w <| w_devices ::= <[d := with_bar dev bar']> |>) ->
  wp (store_bar d (Z.of_nat index) bar') Q w.
Proof.
  intros Hd HQ. unfold store_bar, update_device. wsteps. rewrite Nat2Z.id. done.
Qed.

(** All ones start the sizing of the register. *)
Lemma write_ones_spec w dev bar high :
  bar_state w dev bar -> (high = true -> bar_is_64bit bar = true) ->
  wp (pci_config_write fuel d (bar_offset index high) 4 0xffffffff) (fun err w' => err = 0 /\
    exists dev', bar_state w' dev' (bar <| bar_probe := true |>)) w.
Proof.
  intros Hs Hhigh. pose proof Hs as (Hd & [Hi Hl Hb Himp Hlow Hup Hc] & _).
  unfold pci_config_write. wstep. eapply accessed_bar_spec; [done|done|].
  unfold pci_bar_write. wstep. eapply wp_load_bar; [done|by rewrite Nat2Z.id|].
  change (u32 0xffffffff =? UINT32_MAX) with true. cbv iota.
  wstep. eapply wp_store_bar; [done|]. wsteps. split; [done|].
  eexists. by eapply with_bar_state.
Qed.

Lemma read_probe_spec w dev bar high v :
  bar_state w dev bar -> (high = true -> bar_is_64bit bar = true) -> bar_probe bar = true ->
  wp (pci_config_read d (bar_offset index high) 4 v)
    (fun r w' => r = (0, pci_bar_probe_value bar high) /\ w' = w) w.
Proof.
  intros Hs Hhigh Hp. pose proof Hs as (Hd & [Hi Hl Hb Himp Hlow Hup Hc] & _).
  unfold pci_config_read. wstep. eapply accessed_bar_spec; [done|done|]. wsteps.
  eapply wp_load_bar; [done|by rewrite Nat2Z.id|]. rewrite Hp. by wsteps.
Qed.

(** The configuration bytes show the address of the register. *)
Definition shows (dev : VartPciDevice) (bar : VartPciBar) : Prop :=
  forall high, (high = true -> bar_is_64bit bar = true) ->
  load_le (take 4 (drop (Z.to_nat (bar_offset index high)) (pci_config_space dev))) =
  bar_word bar high.

Lemma bar_word_range bar high :
  0 <= bar_address bar < 2 ^ 64 -> 0 <= bar_flags bar < 16 -> 0 <= bar_word bar high < 2 ^ 32.
Proof.
  intros Ha Hf. unfold bar_word. destruct high.
  - rewrite Z.shiftr_div_pow2 by lia. mlia.
  - assert (0 <= u32 (bar_address bar) < 2 ^ 32) as Hu by (unfold u32; apply Z.mod_pos_bound; lia).
    split; [apply Z.lor_nonneg; lia|].
    destruct (Z.eq_dec (Z.lor (u32 (bar_address bar)) (bar_flags bar)) 0) as [->|Hne]; [lia|].
    apply Z.log2_lt_pow2; [pose proof (Z.lor_nonneg (u32 (bar_address bar)) (bar_flags bar)); lia|].
    rewrite Z.log2_lor by lia.
    assert (forall x, 0 <= x < 2 ^ 32 -> Z.log2 x < 32) as Hlog.
    { intros x Hx. destruct (Z.eq_dec x 0) as [->|]; [done|]. apply Z.log2_lt_pow2; lia. }
    apply Z.max_lub_lt; apply Hlog; lia.
Qed.

Lemma update_config_spec w dev bar :
  bar_state w dev bar -> 0 <= bar_address bar < 2 ^ 64 -> 0 <= bar_flags bar < 16 ->
  wp (pci_bar_update_config d (Z.of_nat index)) (fun _ w' =>
    exists dev', bar_state w' dev' bar /\ shows dev' bar) w.
Proof.
  intros Hs Ha Hf. pose proof Hs as (Hd & [Hi Hl Hb Himp Hlow Hup Hc] & Hm).
  pose proof (bar_word_range bar false Ha Hf) as Hw0.
  pose proof (bar_word_range bar true Ha Hf) as Hw1.
  assert (bar_is_64bit bar = true -> (S index < 6)%nat) as Hi2.
  { intros Hw. destruct (Hup Hw) as (up & Hu & _). apply lookup_lt_Some in Hu. lia. }
  unfold pci_bar_update_config. wstep. eapply wp_load_bar; [done|by rewrite Nat2Z.id|].
  wstep. eapply wp_store_config; [done|lia..|].
  change (Z.to_nat 4) with 4%nat. fold (bar_word bar false).
  replace (16 + Z.of_nat index * 4) with (bar_offset index false) by (unfold bar_offset; lia).
  set (c1 := put_bytes _ _ _).
  assert (length c1 = 4096%nat) as Hc1
    by (unfold c1, bar_offset; rewrite put_bytes_length; rewrite ?store_le_length; lia).
  assert (load_le (take 4 (drop (Z.to_nat (bar_offset index false)) c1)) = bar_word bar false) as H1'.
  { unfold c1. rewrite <- (store_le_length 4 (bar_word bar false)) at 1.
    rewrite read_put_same by (rewrite store_le_length; unfold bar_offset; lia).
    by apply load_store_word. }
  destruct (bar_is_64bit bar) eqn:Hwide.
  - specialize (Hi2 eq_refl). eapply wp_store_config;
      [apply lookup_insert_eq|unfold bar_offset; lia|lia|cbn; unfold bar_offset; lia|].
    change (Z.to_nat 4) with 4%nat. fold (bar_word bar true).
    replace (bar_offset index false + 4) with (bar_offset index true) by (unfold bar_offset; lia).
    cbn -[bar_word bar_offset c1 store_le put_bytes].
    eexists. split.
    { split_and!; [apply lookup_insert_eq| |done]. constructor; cbn -[c1 store_le put_bytes bar_word bar_offset]; try done.
      { intros _. exact (Hup eq_refl). }
      rewrite put_bytes_length; [done|]. rewrite store_le_length. unfold bar_offset. lia. }
    intros [] _; cbn -[bar_word bar_offset c1 store_le put_bytes].
    + rewrite <- (store_le_length 4 (bar_word bar true)) at 1.
      rewrite read_put_same by (rewrite store_le_length; unfold bar_offset; lia).
      by apply load_store_word.
    + rewrite read_put_other; [done|rewrite store_le_length; unfold bar_offset; lia..].
  - wsteps. eexists. split.
    { split_and!; [apply lookup_insert_eq| |done]. constructor; cbn -[c1 store_le put_bytes bar_word bar_offset]; try done.
      by rewrite Hwide. }
    intros [] Hh; [rewrite Hwide in Hh; by specialize (Hh eq_refl)|done].
Qed.

(** The address that a write of one half gives. *)
Definition written (bar : VartPciBar) (high : bool) (value : Z) : Z :=
  if high then Z.lor (Z.land (bar_address bar) UINT32_MAX) (Z.shiftl value 32)
  else Z.lor (Z.land (bar_address bar) 0xffffffff00000000) (Z.land value 0xfffffff0).

Lemma write_address_spec w dev bar high value :
  bar_state w dev bar -> (high = true -> bar_is_64bit bar = true) ->
  0 <= value < UINT32_MAX -> 0 <= written bar high value < 2 ^ 64 -> 0 <= bar_flags bar < 16 ->
  wp (pci_config_write fuel d (bar_offset index high) 4 value) (fun err w' => err = 0 /\
    exists dev', let bar' := bar <| bar_probe := false |>
                               <| bar_address := written bar high value |> in
      bar_state w' dev' bar' /\ shows dev' bar') w.
Proof.
  intros Hs Hhigh Hv Hw Hf. pose proof Hs as (Hd & [Hi Hl Hb Himp Hlow Hup Hc] & Hm).
  unfold pci_config_write. wstep. eapply accessed_bar_spec; [done|done|].
  unfold pci_bar_write. wstep. eapply wp_load_bar; [done|by rewrite Nat2Z.id|].
  rewrite u32_small by lia. rewrite (proj2 (Z.eqb_neq value _)) by lia.
  wstep. eapply wp_store_bar; [done|]. fold (written bar high value).
  set (bar1 := bar <| bar_probe := false |>).
  assert (bar_state (w <| w_devices ::= <[d := with_bar dev bar1]> |>) (with_bar dev bar1) bar1)
    as Hs1 by (by eapply with_bar_state).
  pose proof Hs1 as (Hd1 & [_ _ Hb1 _ _ _ _] & Hm1).
  unfold pci_bar_relocate. wsteps. eapply wp_load_bar; [done|by rewrite Nat2Z.id|].
  rewrite Hm1. cbn [negb]. wstep. eapply wp_store_bar; [done|]. wstep.
  eapply wp_mono; [eapply update_config_spec; [by eapply with_bar_state|done|done]|].
  intros [] w' (dev' & Hs' & Hshow). wsteps. split; [done|]. by exists dev'.
Qed.

Lemma read_address_spec w dev bar high v :
  bar_state w dev bar -> (high = true -> bar_is_64bit bar = true) -> bar_probe bar = false ->
  shows dev bar ->
  wp (pci_config_read d (bar_offset index high) 4 v)
    (fun r w' => r = (0, bar_word bar high) /\ w' = w) w.
Proof.
  intros Hs Hhigh Hp Hshow. pose proof Hs as (Hd & [Hi Hl Hb Himp Hlow Hup Hc] & _).
  unfold pci_config_read. wstep. eapply accessed_bar_spec; [done|done|]. wsteps.
  eapply wp_load_bar; [done|by rewrite Nat2Z.id|]. rewrite Hp.
  unfold load_config. wsteps. apply wp_ok. do 2 eexists. split.
  { apply config_load_Ok; unfold bar_offset; destruct high; lia. }
  wsteps. split; [|done]. change (Z.to_nat 4) with 4%nat. by rewrite Hshow.
Qed.
End Bar.

(** ** The guest's procedure *)

Section Program.
Context `{ConfigCallbacks} `{MsixCallbacks} `{IrqCallbacks} (fuel : nat).

(** The PCI sizing protocol: write all ones, read back, invert and add one; the
    low four bits are the flags. *)
Definition guest_size_bar (d : ptr) (index : nat) (wide : bool) : M World (Z * Z) :=
  pci_config_write fuel d (bar_offset index false) 4 0xffffffff ;;;
  let* (_, lo) := pci_config_read d (bar_offset index false) 4 0 in
  let base := Z.land lo 0xfffffff0 in
  if wide then
    pci_config_write fuel d (bar_offset index true) 4 0xffffffff ;;;
    let* (_, hi) := pci_config_read d (bar_offset index true) 4 0 in
    ret (u64 (Z.lnot (Z.lor base (Z.shiftl hi 32))) + 1, Z.land lo 0xf)
  else ret (u32 (Z.lnot base) + 1, Z.land lo 0xf).

(** Write an address and read it back. *)
Definition guest_set_bar (d : ptr) (index : nat) (wide : bool) (address : Z) : M World Z :=
  pci_config_write fuel d (bar_offset index false) 4 (u32 address) ;;;
  if wide then
    pci_config_write fuel d (bar_offset index true) 4 (Z.shiftr address 32) ;;;
    let* (_, lo) := pci_config_read d (bar_offset index false) 4 0 in
    let* (_, hi) := pci_config_read d (bar_offset index true) 4 0 in
    ret (Z.lor (Z.land lo 0xfffffff0) (Z.shiftl hi 32))
  else
    let* (_, lo) := pci_config_read d (bar_offset index false) 4 0 in
    ret (Z.land lo 0xfffffff0).
End Program.

(** A register as [vart_pci_device_set_bar] sets it up, at least 16 bytes large. *)
Definition bar_shape (bar : VartPciBar) : Prop :=
  (exists k, 4 <= k < (if bar_is_64bit bar then 64 else 32) /\ bar_size bar = 2 ^ k) /\
  bar_flags bar ∈ [0; 4; 8; 12].

(** What the probe values say. *)
Definition probe_size (bar : VartPciBar) : Z :=
  let base := Z.land (pci_bar_probe_value bar false) 0xfffffff0 in
  if bar_is_64bit bar
  then u64 (Z.lnot (Z.lor base (Z.shiftl (pci_bar_probe_value bar true) 32))) + 1
  else u32 (Z.lnot base) + 1.

Definition probe_check (k flags : Z) (wide : bool) : bool :=
  let bar := mkBar 1%positive (2 ^ k) 0 flags None None true false wide false true in
  (probe_size bar =? 2 ^ k) && (Z.land (pci_bar_probe_value bar false) 0xf =? flags).

(** The registers have finitely many shapes. *)
Lemma probe_check_all :
  forallb (fun f => forallb (fun k => probe_check (Z.of_nat k) f true) (seq 4 60) &&
                    forallb (fun k => probe_check (Z.of_nat k) f false) (seq 4 28))
    [0; 4; 8; 12] = true.
Proof. vm_compute. reflexivity. Qed.

Lemma probe_correct bar :
  bar_shape bar ->
  probe_size bar = bar_size bar /\ Z.land (pci_bar_probe_value bar false) 0xf = bar_flags bar.
Proof.
  intros [(k & Hk & Hsize) Hf].
  assert (probe_check k (bar_flags bar) (bar_is_64bit bar) = true) as Hc.
  { pose proof probe_check_all as Hall. rewrite forallb_forall in Hall.
    apply list_elem_of_In, Hall in Hf. apply andb_true_iff in Hf as [H1 H2].
    rewrite forallb_forall in H1, H2.
    destruct (bar_is_64bit bar); [specialize (H1 (Z.to_nat k))|specialize (H2 (Z.to_nat k))];
      rewrite Z2Nat.id in * by lia; [apply H1|apply H2]; apply in_seq; lia. }
  unfold probe_check in Hc. apply andb_true_iff in Hc as [H1%Z.eqb_eq H2%Z.eqb_eq].
  unfold probe_size, pci_bar_probe_value in *. rewrite Hsize. by split.
Qed.

(** Halves of an address. *)
Lemma land_high_half a :
  0 <= a < 2 ^ 64 -> Z.land a 0xffffffff00000000 = Z.shiftl (a / 2 ^ 32) 32.
Proof.
  intros Ha. change 0xffffffff00000000 with (Z.shiftl (Z.ones 32) 32).
  rewrite <- Z.shiftr_div_pow2 by lia. apply Z.bits_inj'. intros n Hn.
  rewrite Z.land_spec. destruct (Z.lt_ge_cases n 32).
  - by rewrite !Z.shiftl_spec_low, andb_false_r.
  - rewrite !Z.shiftl_spec, Z.shiftr_spec by lia. replace (n - 32 + 32) with n by lia.
    destruct (Z.lt_ge_cases n 64).
    + by rewrite Z.ones_spec_low, andb_true_r by lia.
    + rewrite (testbit_above a 64) by lia. done.
Qed.

Lemma land_flag_bits v f :
  0 <= v < 2 ^ 32 -> v mod 16 = 0 -> 0 <= f < 16 -> Z.land (Z.lor v f) 0xfffffff0 = v.
Proof.
  intros Hv H16 Hf. change 0xfffffff0 with (Z.shiftl (Z.ones 28) 4).
  assert (v = Z.shiftl (v / 16) 4) as Hq
    by (rewrite Z.shiftl_mul_pow2 by lia; change (2 ^ 4) with 16; mlia).
  apply Z.bits_inj'. intros n Hn. rewrite Z.land_spec, Z.lor_spec.
  destruct (Z.lt_ge_cases n 4).
  - rewrite Hq. by rewrite !Z.shiftl_spec_low, andb_false_r by lia.
  - rewrite (testbit_above f 4), orb_false_r by lia. rewrite (Z.shiftl_spec (Z.ones 28)) by lia.
    destruct (Z.lt_ge_cases n 32).
    + by rewrite Z.ones_spec_low, andb_true_r by lia.
    + rewrite (testbit_above v 32) by lia. done.
Qed.

Lemma written_low bar v :
  0 <= bar_address bar < 2 ^ 64 -> 0 <= v < 2 ^ 32 -> v mod 16 = 0 ->
  written bar false v = bar_address bar / 2 ^ 32 * 2 ^ 32 + v.
Proof.
  intros Ha Hv H16. unfold written. rewrite land_high_half by done.
  rewrite <- (Z.lor_0_r v) at 1. rewrite land_flag_bits by (done || lia).
  rewrite Z.lor_comm, lor_shiftl_add by lia. lia.
Qed.

Lemma written_high bar v h :
  bar_address bar mod 2 ^ 32 = v -> written bar true h = v + h * 2 ^ 32.
Proof.
  intros Ha. unfold written. change UINT32_MAX with (2 ^ 32 - 1).
  rewrite land_low_mask, Ha by lia. rewrite lor_shiftl_add; [lia|lia|].
  rewrite <- Ha. apply Z.mod_pos_bound. lia.
Qed.

Section Programming.
Context `{ConfigCallbacks} `{MsixCallbacks} `{IrqCallbacks} (fuel : nat).
Context (d : ptr) (index : nat).

Lemma guest_size_bar_spec w dev bar :
  bar_state d index w dev bar -> bar_shape bar ->
  wp (guest_size_bar fuel d index (bar_is_64bit bar)) (fun r w' =>
    r = (bar_size bar, bar_flags bar) /\
    exists dev', bar_state d index w' dev' (bar <| bar_probe := true |>)) w.
Proof.
  intros Hs Hshape. destruct (probe_correct bar Hshape) as [Hsize Hflags].
  unfold guest_size_bar. wstep.
  eapply wp_mono; [by eapply write_ones_spec|]. intros err w1 (_ & dev1 & Hs1). wstep.
  eapply wp_mono; [by eapply read_probe_spec|]. intros r w1' [-> ->]. cbv beta iota zeta.
  unfold probe_size in Hsize. destruct (bar_is_64bit bar) eqn:Hw.
  - wstep. eapply wp_mono; [by eapply write_ones_spec|]. intros err2 w2 (_ & dev2 & Hs2). wstep.
    eapply wp_mono; [by eapply read_probe_spec|]. intros r w2' [-> ->]. wsteps.
    split; [|by exists dev2]. f_equal; [exact Hsize|exact Hflags].
  - wsteps. split; [|by exists dev1]. f_equal; [exact Hsize|exact Hflags].
Qed.

Lemma guest_set_bar_spec w dev bar address :
  bar_state d index w dev bar -> bar_shape bar -> 0 <= bar_address bar < 2 ^ 64 ->
  (bar_is_64bit bar = false -> bar_address bar < 2 ^ 32 /\ address < 2 ^ 32) ->
  0 <= address < 0xffffffff00000000 -> address mod bar_size bar = 0 ->
  wp (guest_set_bar fuel d index (bar_is_64bit bar) address) (fun a w' => a = address /\
    exists dev', bar_state d index w' dev' (bar <| bar_probe := false |> <| bar_address := address |>)) w.
Proof.
  intros Hs [(k & Hk & Hsize) Hf] Ha Hnarrow Haddr Hmod.
  assert (0 <= bar_flags bar < 16) as Hf16 by (set_unfold in Hf; lia).
  assert (address mod 16 = 0) as H16.
  { rewrite Hsize in Hmod. apply Z.mod_divide in Hmod; [|lia]. apply Z.mod_divide; [lia|].
    etransitivity; [|done]. exists (2 ^ (k - 4)). change 16 with (2 ^ 4). rewrite <- Z.pow_add_r by lia. f_equal. lia. }
  assert (0 <= u32 address < UINT32_MAX /\ u32 address mod 16 = 0) as [Hlo Hlo16] by mlia.
  pose proof (written_low bar (u32 address) Ha ltac:(lia) Hlo16) as Hw1.
  assert (0 <= written bar false (u32 address) < 2 ^ 64) as Hr1 by (rewrite Hw1; mlia).
  unfold guest_set_bar. wstep.
  eapply wp_mono; [eapply write_address_spec; [done|done|done|done|done]|].
  intros err w1 (_ & dev1 & Hs1 & Hshow1).
  set (bar1 := bar <| bar_probe := false |> <| bar_address := written bar false (u32 address) |>) in *.
  change (bar_is_64bit bar) with (bar_is_64bit bar1) in *.
  destruct (bar_is_64bit bar1) eqn:Hwide.
  - assert (written bar1 true (Z.shiftr address 32) = address) as Hw2.
    { rewrite (written_high bar1 (u32 address)).
      - rewrite Z.shiftr_div_pow2 by lia. clear. mlia.
      - change (bar_address bar1) with (written bar false (u32 address)). rewrite Hw1. clear. mlia. }
    wstep. eapply wp_mono; [eapply write_address_spec; [done|done| | |done]|].
    { rewrite Z.shiftr_div_pow2 by lia. mlia. } { rewrite Hw2. lia. }
    intros err2 w2 (_ & dev2 & Hs2 & Hshow2). rewrite Hw2 in Hs2, Hshow2.
    wstep. eapply wp_mono; [by eapply read_address_spec|]. intros r w2' [-> ->].
    wstep. eapply wp_mono; [by eapply read_address_spec|]. intros r w2' [-> ->]. wsteps.
    split; [|by exists dev2]. unfold bar_word. cbn.
    rewrite land_flag_bits by (done || lia). rewrite lor_shiftl_add by lia.
    rewrite Z.shiftr_div_pow2 by lia. clear. mlia.
  - destruct (Hnarrow eq_refl) as [Hold Hnew].
    assert (written bar false (u32 address) = address) as Hw.
    { rewrite Hw1, u32_small, (Z.div_small (bar_address bar)) by lia. lia. }
    wstep. eapply wp_mono; [by eapply read_address_spec|]. intros r w1' [-> ->]. wsteps.
    unfold bar1 in *. rewrite Hw in Hs1. split; [|by exists dev1]. unfold bar_word. cbn -[written].
    rewrite Hw, u32_small, land_flag_bits by (done || lia). done.
Qed.
End Programming.

(** A guest can size and place every base address register by the PCI
    protocol.  For a register set up with a power-of-two size of at least 16 bytes,
    32 or 64 bits wide, of a function whose memory decoding is off: writing all ones
    and reading back tells the guest the size of the register and its flags, and
    writing an aligned address then moves the register to that address, which reads
    back through the configuration space.  (A high half of all ones is taken as
    another sizing request, so such addresses are excluded.) *)
Theorem bar_sizing_and_placing `{ConfigCallbacks} `{MsixCallbacks} `{IrqCallbacks}
    fuel d index w dev bar address :
  bar_state d index w dev bar -> bar_shape bar -> 0 <= bar_address bar < 2 ^ 64 ->
  (bar_is_64bit bar = false -> bar_address bar < 2 ^ 32 /\ address < 2 ^ 32) ->
  0 <= address < 0xffffffff00000000 -> address mod bar_size bar = 0 ->
  exists w', (let* s := guest_size_bar fuel d index (bar_is_64bit bar) in
              let* a := guest_set_bar fuel d index (bar_is_64bit bar) address in
              ret (s, a)) w = Ok ((bar_size bar, bar_flags bar, address), w') /\
    exists dev', bar_state d index w' dev'
      (bar <| bar_probe := false |> <| bar_address := address |>).
Proof.
  intros Hs Hshape Ha Hn Haddr Hmod.
  assert (wp (let* s := guest_size_bar fuel d index (bar_is_64bit bar) in
              let* a := guest_set_bar fuel d index (bar_is_64bit bar) address in
              ret (s, a)) (fun r w' => r = (bar_size bar, bar_flags bar, address) /\
    exists dev', bar_state d index w' dev'
      (bar <| bar_probe := false |> <| bar_address := address |>)) w) as Hwp.
  { wstep. eapply wp_mono; [by eapply guest_size_bar_spec|].
    intros s w1 (-> & dev1 & Hs1). wstep.
    pose proof (guest_set_bar_spec fuel d index w1 dev1 (bar <| bar_probe := true |>) address
      Hs1 Hshape Ha Hn Haddr Hmod) as Hset.
    eapply wp_mono; [exact Hset|].
    intros a w2 (-> & dev2 & Hs2). wsteps. split; [done|]. by exists dev2. }
  apply wp_ok in Hwp as (r & w' & Hr & -> & Hst). by exists w'.
Qed.

(** * The tree of buses *)

(** The buses below [b], in the order of a depth-first walk: [b] has the parent
    [par], and the subtree is at most [n] buses high. *)
Fixpoint tree_at (n : nat) (w : World) (par : option ptr) (b : ptr) (nodes : list ptr) : Prop :=
  match n with
  | O => False
  | S n => exists v subtrees, w_pci_buses w !! b = Some v /\ pb_parent_pci_bus v = par /\
      Forall2 (fun c l => tree_at n w (Some b) c l) (pb_children v) subtrees /\
      nodes = b :: concat subtrees
  end.

Definition has_number (w : World) (number : Z) (b : ptr) : bool :=
  match w_pci_buses w !! b with Some v => pb_number v =? number | None => false end.

Lemma find_app {A} (f : A -> bool) l1 l2 :
  List.find f (l1 ++ l2) =
  match List.find f l1 with Some x => Some x | None => List.find f l2 end.
Proof. induction l1 as [|x l1 IH]; simpl; [done|]. by destruct (f x). Qed.

Lemma elem_of_concat {A} (x : A) (ls : list (list A)) :
  x ∈ concat ls -> exists l, l ∈ ls /\ x ∈ l.
Proof.
  intros (l & Hl & Hx)%list_elem_of_In%in_concat. exists l.
  by split; apply list_elem_of_In.
Qed.

(** The search is the first bus of the walk with the number. *)
Lemma bus_find_spec n w par b nodes number :
  tree_at n w par b nodes ->
  vart_pci_bus_find n (Some b) number w = Ok (List.find (has_number w number) nodes, w).
Proof.
  revert par b nodes. induction n as [|n IH]; intros par b nodes; [done|].
  intros (v & subtrees & Hb & _ & Hall & ->). cbn [vart_pci_bus_find].
  rewrite (bind_eq _ _ _ v w) by (unfold load_pci_bus; run_unfold; by rewrite Hb).
  cbn [List.find]. unfold has_number at 1. rewrite Hb.
  destruct (pb_number v =? number); [done|].
  induction Hall as [|c l children subtrees Hc Hall IHl]; [done|].
  cbn [concat]. rewrite find_app, (bind_eq _ _ _ _ _ (IH _ _ _ Hc)).
  by destruct (List.find (has_number w number) l).
Qed.

(** A bus of the tree exists. *)
Lemma tree_lookup n w par b nodes x :
  tree_at n w par b nodes -> x ∈ nodes -> is_Some (w_pci_buses w !! x).
Proof.
  revert par b nodes. induction n as [|n IH]; intros par b nodes; [done|].
  intros (v & subtrees & Hb & _ & Hall & ->) [->|Hx]%elem_of_cons; [by eexists|].
  apply elem_of_concat in Hx as (l & Hl & Hx).
  apply list_elem_of_lookup in Hl as [i Hi].
  destruct (Forall2_lookup_r _ _ _ _ _ Hall Hi) as (c & _ & Hc). by eapply IH.
Qed.

(** Towards the root: the buses on the way decode their own number. *)
Inductive visible_path (w : World) (root : ptr) : ptr -> Prop :=
| vp_root : visible_path w root root
| vp_step b v p : w_pci_buses w !! b = Some v -> pb_parent_pci_bus v = Some p ->
    pb_number v <= pb_subordinate_number v -> visible_path w root p -> visible_path w root b.

Definition decides (m : M World bool) (w : World) (P : Prop) : Prop :=
  exists r, m w = Ok (r, w) /\ (r = true <-> P).

Lemma visible_step w root b v p fuel :
  w_pci_buses w !! b = Some v -> pb_parent_pci_bus v = Some p ->
  decides (pci_bus_visible fuel root (Some p)) w (visible_path w root p) ->
  decides (pci_bus_visible (S fuel) root (Some b)) w (visible_path w root b).
Proof.
  intros Hb Hp (r & Hr & Hiff). cbn [pci_bus_visible].
  destruct (decide (b = root)) as [->|Hne].
  { exists true. split; [done|]. split; [constructor|done]. }
  unfold decides. rewrite (bind_eq _ _ _ v w) by (unfold load_pci_bus; run_unfold; by rewrite Hb).
  rewrite Hp. destruct (Z.ltb_spec (pb_subordinate_number v) (pb_number v)).
  - exists false. split; [done|]. split; [done|]. intros Hv. inversion Hv; [done|].
    simplify_eq. lia.
  - exists r. split; [done|]. rewrite Hiff. split; [by eapply vp_step|].
    intros Hv. inversion Hv; [done|]. by simplify_eq.
Qed.

Lemma visible_below n w root par b nodes m x :
  tree_at n w par b nodes -> x ∈ nodes ->
  (forall k, (m <= k)%nat -> decides (pci_bus_visible k root (Some b)) w (visible_path w root b)) ->
  forall k, (m + n <= S k)%nat ->
  decides (pci_bus_visible k root (Some x)) w (visible_path w root x).
Proof.
  revert par b nodes m. induction n as [|n IH]; intros par b nodes m; [done|].
  intros (v & subtrees & Hb & _ & Hall & ->) [->|Hx]%elem_of_cons Hroot k Hk;
    [apply Hroot; lia|].
  apply elem_of_concat in Hx as (l & Hl & Hx).
  apply list_elem_of_lookup in Hl as [i Hi].
  destruct (Forall2_lookup_r _ _ _ _ _ Hall Hi) as (c & _ & Hc).
  eapply (IH _ _ _ (S m) Hc Hx); [|lia].
  intros [|k'] Hk'; [lia|]. destruct n as [|n]; [done|].
  destruct Hc as (vc & ? & Hvc & Hparent & _).
  eapply visible_step; [done|done|]. apply Hroot. lia.
Qed.

Lemma visible_spec n w root nodes x :
  tree_at n w None root nodes -> x ∈ nodes ->
  decides (pci_bus_visible n root (Some x)) w (visible_path w root x).
Proof.
  intros Ht Hx. eapply (visible_below n w root None root nodes 0 x Ht Hx); [|lia].
  intros k _. exists true. split; [|split; [constructor|done]].
  destruct k; cbn [pci_bus_visible]; by rewrite decide_True.
Qed.

(** ** Routing of configuration accesses *)

Definition numbers_unique (w : World) (nodes : list ptr) : Prop :=
  forall number b1 b2, b1 ∈ nodes -> b2 ∈ nodes ->
    has_number w number b1 = true -> has_number w number b2 = true -> b1 = b2.

(** Every bus has its 256 slots, and the functions in them exist. *)
Definition slots_ok (w : World) (nodes : list ptr) : Prop :=
  forall b v, b ∈ nodes -> w_pci_buses w !! b = Some v ->
    length (pb_functions v) = 256%nat /\
    forall f, Some f ∈ pb_functions v -> is_Some (w_devices w !! f).

(** The function [f] answers at [number], [devfn]. *)
Definition answers (w : World) (root : ptr) (nodes : list ptr) (number devfn : Z) (f : ptr)
    : Prop :=
  exists b v dev, b ∈ nodes /\ w_pci_buses w !! b = Some v /\ pb_number v = number /\
    visible_path w root b /\ pb_functions v !! Z.to_nat devfn = Some (Some f) /\
    w_devices w !! f = Some dev /\ dev_realized (pci_parent dev) = true.

Definition ecam_offset (number devfn reg : Z) : Z := number * 2 ^ 20 + devfn * 2 ^ 12 + reg.

Lemma ecam_fields number devfn reg :
  0 <= number < 256 -> 0 <= devfn < 256 -> 0 <= reg < 4096 ->
  u8 (u32 (Z.shiftr (ecam_offset number devfn reg) 20)) = number /\
  Z.land (Z.shiftr (ecam_offset number devfn reg) 12) 0xff = devfn /\
  Z.land (ecam_offset number devfn reg) 0xfff = reg.
Proof.
  intros Hn Hd Hr. unfold ecam_offset. change 0xff with (2 ^ 8 - 1).
  change 0xfff with (2 ^ 12 - 1). rewrite !land_low_mask, !Z.shiftr_div_pow2 by lia.
  change (2 ^ 20) with 1048576. change (2 ^ 12) with 4096. change (2 ^ 8) with 256.
  split_and!; mlia.
Qed.

Lemma has_number_spec w number b :
  has_number w number b = true <-> exists v, w_pci_buses w !! b = Some v /\ pb_number v = number.
Proof.
  unfold has_number. destruct (w_pci_buses w !! b) as [v|]; split.
  - intros ?%Z.eqb_eq. eauto.
  - intros (v' & [= <-] & <-). apply Z.eqb_refl.
  - done.
  - by intros (? & ? & _).
Qed.

Lemma ecam_lookup_spec n w complex rc nodes number devfn reg size :
  w_complexes w !! complex = Some rc -> tree_at n w None (rc_root_bus rc) nodes ->
  numbers_unique w nodes -> slots_ok w nodes ->
  0 <= number < 256 -> 0 <= devfn < 256 -> 0 <= reg -> 1 <= size -> reg + size <= 4096 ->
  exists r, pci_ecam_lookup n complex (ecam_offset number devfn reg) size w = Ok (r, w) /\
    forall f o, r = Some (f, o) <-> o = reg /\ answers w (rc_root_bus rc) nodes number devfn f.
Proof.
  intros Hc Ht Huniq Hslots Hn Hd Hr Hs Hrs.
  destruct (ecam_fields number devfn reg Hn Hd ltac:(lia)) as (F1 & F2 & F3).
  unfold pci_ecam_lookup. rewrite (bind_eq _ _ _ rc w) by (unfold load_complex; run_unfold; by rewrite Hc).
  cbv zeta. rewrite F1, F2, F3. rewrite (proj2 (Z.ltb_ge _ reg)) by lia.
  rewrite (bind_eq _ _ _ _ _ (bus_find_spec _ _ _ _ _ number Ht)).
  destruct (List.find (has_number w number) nodes) as [b|] eqn:Hfind.
  2:{ exists None. split; [done|]. intros f o. split; [done|].
      intros (_ & b & v & _ & Hb & Hv & Hnum & _).
      pose proof (find_none _ _ Hfind b ltac:(by apply list_elem_of_In)) as Hno.
      by rewrite (proj2 (has_number_spec w number b)) in Hno by eauto. }
  apply find_some in Hfind as [Hin%list_elem_of_In Hnum].
  apply has_number_spec in Hnum as Hnum'. destruct Hnum' as (v & Hv & Hvn).
  assert (forall f, answers w (rc_root_bus rc) nodes number devfn f <->
    visible_path w (rc_root_bus rc) b /\ pb_functions v !! Z.to_nat devfn = Some (Some f) /\
    exists dev, w_devices w !! f = Some dev /\ dev_realized (pci_parent dev) = true) as Hans.
  { intros f. split.
    - intros (b' & v' & dev & Hb' & Hv' & Hn' & Hvis & Hf & Hdev & Hre).
      assert (b' = b) as -> by (eapply (Huniq number); [done..| |done]; apply has_number_spec; eauto).
      assert (v' = v) as -> by congruence. eauto.
    - intros (Hvis & Hf & dev & Hdev & Hre). by exists b, v, dev. }
  destruct (visible_spec n w _ nodes b Ht Hin) as (r & Hrun & Hiff).
  rewrite (bind_eq _ _ _ _ _ Hrun). destruct r; cbn [negb].
  2:{ exists None. split; [done|]. intros f o. split; [done|].
      rewrite Hans. intros (_ & Hvis & _). by apply Hiff in Hvis. }
  rewrite (bind_eq _ _ _ v w) by (unfold load_pci_bus; run_unfold; by rewrite Hv).
  destruct (Hslots b v Hin Hv) as [Hlen Hdevs].
  destruct (lookup_lt_is_Some_2 (pb_functions v) (Z.to_nat devfn) ltac:(lia)) as [slot Hslot].
  rewrite Hslot. cbn [deref]. rewrite (bind_eq _ _ _ slot w) by done.
  destruct slot as [f|].
  2:{ exists None. split; [done|]. intros f o. rewrite Hans.
      split; [done|]. intros (_ & _ & Hf & _). congruence. }
  destruct (Hdevs f ltac:(by eapply list_elem_of_lookup_2)) as [dev Hdev].
  rewrite (bind_eq _ _ _ dev w) by (unfold load_device; run_unfold; by rewrite Hdev).
  eexists. split; [done|]. intros f' o. rewrite Hans.
  pose proof (proj1 Hiff eq_refl) as Hvis. destruct (dev_realized (pci_parent dev)) eqn:Hre.
  - split; [intros [= <- <-]; eauto 6|]. intros (-> & _ & Hf & _). congruence.
  - split; [done|]. intros (_ & _ & Hf & dev' & Hd' & Hr'). congruence.
Qed.

(** ** What keeps the bus numbers *)

(** Two worlds with the same buses: parents and children, and numbers. *)
Definition same_bus (v v' : VartPciBus) : Prop :=
  pb_parent_pci_bus v' = pb_parent_pci_bus v /\ pb_children v' = pb_children v /\
  pb_number v' = pb_number v.
Definition same_topology (w w' : World) : Prop :=
  forall b, option_Forall2 same_bus (w_pci_buses w !! b) (w_pci_buses w' !! b).

#[export] Instance same_topology_refl : Reflexive same_topology.
Proof. intros w b. destruct (w_pci_buses w !! b); constructor; by split_and!. Qed.
#[export] Instance same_topology_trans : Transitive same_topology.
Proof.
  intros w1 w2 w3 H12 H23 b. specialize (H12 b). specialize (H23 b).
  destruct H12 as [v1 v2 (A1 & A2 & A3)|]; inversion H23 as [? v3 (B1 & B2 & B3)|]; constructor.
  split_and!; congruence.
Qed.

Lemma same_topology_buses w w' : w_pci_buses w' = w_pci_buses w -> same_topology w w'.
Proof. intros H b. rewrite H. apply (same_topology_refl w b). Qed.

(** ** Renumbering *)

Definition same_links (v v' : VartPciBus) : Prop :=
  pb_parent_pci_bus v' = pb_parent_pci_bus v /\ pb_children v' = pb_children v.

Lemma tree_at_frame n w w' par b nodes :
  (forall x, option_Forall2 same_links (w_pci_buses w !! x) (w_pci_buses w' !! x)) ->
  tree_at n w par b nodes -> tree_at n w' par b nodes.
Proof.
  intros Hsame. revert par b nodes. induction n as [|n IH]; intros par b nodes; [done|].
  intros (v & subtrees & Hb & Hp & Hall & ->). specialize (Hsame b) as Hx. rewrite Hb in Hx.
  inversion Hx as [? v' [E1 E2] Hv|]; subst. exists v', subtrees.
  split_and!; [done|congruence| |done]. rewrite E2.
  eapply Forall2_impl; [exact Hall|]. intros c l. apply IH.
Qed.

Lemma topology_tree n w w' par b nodes :
  same_topology w w' -> tree_at n w par b nodes -> tree_at n w' par b nodes.
Proof.
  intros Hsame. apply tree_at_frame. intros x. specialize (Hsame x).
  destruct Hsame as [v v' (? & ? & _)|]; constructor. by split.
Qed.

Lemma topology_number w w' k b : same_topology w w' -> has_number w' k b = has_number w k b.
Proof.
  intros Hsame. unfold has_number. specialize (Hsame b).
  destruct Hsame as [v v' (_ & _ & ->)|]; done.
Qed.

Lemma topology_unique w w' nodes :
  same_topology w w' -> numbers_unique w nodes -> numbers_unique w' nodes.
Proof.
  intros Hsame Hu k b1 b2. rewrite !(topology_number w w') by done. apply Hu.
Qed.

(** The parent of a bus of the tree is in the tree. *)
Lemma tree_parent n w par b nodes x v p :
  tree_at n w par b nodes -> x ∈ nodes -> w_pci_buses w !! x = Some v ->
  pb_parent_pci_bus v = Some p -> p ∈ nodes \/ (x = b /\ par = Some p).
Proof.
  revert par b nodes. induction n as [|n IH]; intros par b nodes; [done|].
  intros (vb & subtrees & Hb & Hpar & Hall & ->) [->|Hx]%elem_of_cons Hv Hp.
  { right. split; congruence. }
  apply elem_of_concat in Hx as (l & Hl & Hx). left.
  apply list_elem_of_lookup in Hl as [i Hi].
  destruct (Forall2_lookup_r _ _ _ _ _ Hall Hi) as (c & _ & Hc).
  destruct (IH _ _ _ Hc Hx Hv Hp) as [Hin|[-> [= ->]]]; [|by left].
  right. apply list_elem_of_In, in_concat. exists l. split; [|by apply list_elem_of_In].
  apply list_elem_of_In. by eapply list_elem_of_lookup_2.
Qed.

Lemma root_below n w root par b nodes m x :
  tree_at n w par b nodes -> x ∈ nodes ->
  (forall k, (m <= k)%nat -> pci_bus_root k (Some b) w = Ok (Some root, w)) ->
  forall k, (m + n <= S k)%nat -> pci_bus_root k (Some x) w = Ok (Some root, w).
Proof.
  revert par b nodes m. induction n as [|n IH]; intros par b nodes m; [done|].
  intros (v & subtrees & Hb & _ & Hall & ->) [->|Hx]%elem_of_cons Hroot k Hk;
    [apply Hroot; lia|].
  apply elem_of_concat in Hx as (l & Hl & Hx).
  apply list_elem_of_lookup in Hl as [i Hi].
  destruct (Forall2_lookup_r _ _ _ _ _ Hall Hi) as (c & _ & Hc).
  eapply (IH _ _ _ (S m) Hc Hx); [|lia].
  intros [|k'] Hk'; [lia|]. destruct n as [|n]; [done|].
  destruct Hc as (vc & ? & Hvc & Hparent & _). cbn [pci_bus_root].
  rewrite (bind_eq _ _ _ vc w) by (unfold load_pci_bus; run_unfold; by rewrite Hvc).
  rewrite Hparent. apply Hroot. lia.
Qed.

Lemma bus_root_spec n w root nodes x :
  tree_at n w None root nodes -> x ∈ nodes -> pci_bus_root n (Some x) w = Ok (Some root, w).
Proof.
  intros Ht Hx. eapply (root_below n w root None root nodes 0 x Ht Hx); [|lia].
  intros k _. destruct n as [|n]; [done|]. destruct Ht as (v & ? & Hv & Hp & _).
  destruct k; cbn [pci_bus_root];
    rewrite (bind_eq _ _ _ v w) by (unfold load_pci_bus; run_unfold; by rewrite Hv);
    by rewrite Hp.
Qed.

(** A bus takes a number that no other bus of the tree has. *)
Lemma renumber_unique w nodes child c f s :
  w_pci_buses w !! child = Some c -> pb_number (f c) = s -> child ∈ nodes ->
  numbers_unique w nodes ->
  (forall b, b ∈ nodes -> has_number w s b = true -> b = child) ->
  numbers_unique (w <| w_pci_buses ::= <[child := f c]> |>) nodes.
Proof.
  intros Hc Hs Hin Hu Hfree k b1 b2 H1 H2.
  assert (forall b, has_number (w <| w_pci_buses ::= <[child := f c]> |>) k b =
    if decide (b = child) then s =? k else has_number w k b) as Hnum.
  { intros b. unfold has_number. cbn. case_decide as Hb.
    - subst b. rewrite lookup_insert_eq. cbn. by rewrite Hs.
    - by rewrite lookup_insert_ne. }
  rewrite !Hnum. repeat case_decide; subst; try done.
  - intros <-%Z.eqb_eq Hk. symmetry. by apply Hfree.
  - intros Hk E%Z.eqb_eq. subst k. by apply Hfree.
  - by apply Hu.
Qed.

Lemma find_only w s nodes child b :
  numbers_unique w nodes -> child ∈ nodes ->
  ~ (List.find (has_number w s) nodes <> None /\
     List.find (has_number w s) nodes <> Some child) ->
  b ∈ nodes -> has_number w s b = true -> b = child.
Proof.
  intros Hu Hc Hno Hb Hs. destruct (List.find (has_number w s) nodes) as [x|] eqn:Hf.
  - destruct (decide (x = child)) as [->|]; [|exfalso; apply Hno; split; congruence].
    apply find_some in Hf as [_ Hx]. by apply (Hu s).
  - pose proof (find_none _ _ Hf b ltac:(by apply list_elem_of_In)). congruence.
Qed.

(** ** The tree with its functions *)

(** What the accesses to a bridge leave alone, apart from the renumbering of a bus. *)
Definition bus_key (v : VartPciBus) :=
  (pb_parent_pci_bus v, pb_owner_bridge v, pb_children v, pb_number v, pb_secondary_number v,
   pb_functions v).
Definition function_key (dev : VartPciDevice) :=
  (pci_bus dev, pci_devfn dev, pci_requester_id dev, length (pci_config_space dev)).
Definition pci_view (w : World) :=
  (bus_key <$> w_pci_buses w, function_key <$> w_devices w, br_secondary_bus <$> w_bridges w).

(** The buses under [root], at most [n] high: their numbers are bytes and distinct, the
    functions in their slots know their place and have the requester identifier of it. *)
Record pci_tree (n : nat) (w : World) (root : ptr) (nodes : list ptr) : Prop := {
  pt_tree : tree_at n w None root nodes;
  pt_unique : numbers_unique w nodes;
  pt_bus b v : b ∈ nodes -> w_pci_buses w !! b = Some v ->
    0 <= pb_number v < 256 /\ 0 <= pb_secondary_number v < 256 /\
    length (pb_functions v) = 256%nat;
  pt_function b v i f : b ∈ nodes -> w_pci_buses w !! b = Some v ->
    pb_functions v !! i = Some (Some f) -> exists dev, w_devices w !! f = Some dev /\
      pci_bus dev = Some b /\ pci_devfn dev = Z.of_nat i /\
      pci_requester_id dev = 256 * pb_number v + Z.of_nat i;
  pt_owner b v d : b ∈ nodes -> w_pci_buses w !! b = Some v -> pb_owner_bridge v = Some d ->
    exists dev, w_devices w !! d = Some dev /\ length (pci_config_space dev) = 4096%nat;
}.

(** No two functions of the tree have the same requester identifier. *)
Definition requesters_distinct (w : World) (nodes : list ptr) : Prop :=
  forall b1 b2 v1 v2 i1 i2 f1 f2 dev1 dev2,
    b1 ∈ nodes -> b2 ∈ nodes ->
    w_pci_buses w !! b1 = Some v1 -> w_pci_buses w !! b2 = Some v2 ->
    pb_functions v1 !! i1 = Some (Some f1) -> pb_functions v2 !! i2 = Some (Some f2) ->
    w_devices w !! f1 = Some dev1 -> w_devices w !! f2 = Some dev2 ->
    pci_requester_id dev1 = pci_requester_id dev2 -> f1 = f2.

Lemma tree_requesters_distinct n w root nodes :
  pci_tree n w root nodes -> requesters_distinct w nodes.
Proof.
  intros Ht b1 b2 v1 v2 i1 i2 f1 f2 dev1 dev2 Hb1 Hb2 Hv1 Hv2 Hf1 Hf2 Hd1 Hd2 Heq.
  destruct (pt_function _ _ _ _ Ht _ _ _ _ Hb1 Hv1 Hf1) as (? & Hd1' & _ & _ & Hr1).
  destruct (pt_function _ _ _ _ Ht _ _ _ _ Hb2 Hv2 Hf2) as (? & Hd2' & _ & _ & Hr2).
  simplify_eq. destruct (pt_bus _ _ _ _ Ht _ _ Hb1 Hv1) as (? & _ & Hl1).
  destruct (pt_bus _ _ _ _ Ht _ _ Hb2 Hv2) as (? & _ & Hl2).
  pose proof (lookup_lt_Some _ _ _ Hf1). pose proof (lookup_lt_Some _ _ _ Hf2).
  assert (pb_number v1 = pb_number v2 /\ i1 = i2) as [Hn ->] by lia.
  assert (b1 = b2) as ->; [|by simplify_eq].
  apply (pt_unique _ _ _ _ Ht (pb_number v1)); try done; apply has_number_spec; eauto.
Qed.

(** *** Lookups through a view *)

Lemma view_bus w w' b v' : pci_view w' = pci_view w -> w_pci_buses w' !! b = Some v' ->
  exists v, w_pci_buses w !! b = Some v /\ bus_key v' = bus_key v.
Proof.
  intros [= Hb _ _] Hv'. apply (f_equal (lookup b)) in Hb. rewrite !lookup_fmap, Hv' in Hb.
  destruct (w_pci_buses w !! b) as [v|]; [|done]. exists v. split; [done|]. by apply (inj Some).
Qed.
Lemma view_device w w' d dev' : pci_view w' = pci_view w -> w_devices w' !! d = Some dev' ->
  exists dev, w_devices w !! d = Some dev /\ function_key dev' = function_key dev.
Proof.
  intros [= _ Hd _] Hv'. apply (f_equal (lookup d)) in Hd. rewrite !lookup_fmap, Hv' in Hd.
  destruct (w_devices w !! d) as [dev|]; [|done]. exists dev. split; [done|]. by apply (inj Some).
Qed.
Lemma view_bridge w w' d br' : pci_view w' = pci_view w -> w_bridges w' !! d = Some br' ->
  exists br, w_bridges w !! d = Some br /\ br_secondary_bus br' = br_secondary_bus br.
Proof.
  intros [= _ _ Hd] Hv'. apply (f_equal (lookup d)) in Hd. rewrite !lookup_fmap, Hv' in Hd.
  destruct (w_bridges w !! d) as [br|]; [|done]. exists br. split; [done|]. by apply (inj Some).
Qed.

Lemma view_topology w w' : pci_view w' = pci_view w -> same_topology w w'.
Proof.
  intros [= Hb _ _] b. apply (f_equal (lookup b)) in Hb. rewrite !lookup_fmap in Hb.
  destruct (w_pci_buses w !! b) as [v|], (w_pci_buses w' !! b) as [v'|]; try done; constructor.
  cbn in Hb. injection Hb as ? ? ? ? ? ?. by split_and!.
Qed.

Lemma view_tree n w w' root nodes :
  pci_view w' = pci_view w -> pci_tree n w root nodes -> pci_tree n w' root nodes.
Proof.
  intros Hview Ht. pose proof (view_topology _ _ Hview) as Htop. split.
  - eapply topology_tree; [done|apply Ht].
  - eapply topology_unique; [done|apply Ht].
  - intros b v' Hb (v & Hv & [= _ _ _ -> -> ->])%(view_bus w); [|done]. by apply (pt_bus _ _ _ _ Ht b).
  - intros b v' i f Hb (v & Hv & [= _ _ _ -> _ ->])%(view_bus w) Hf; [|done].
    destruct (pt_function _ _ _ _ Ht _ _ _ _ Hb Hv Hf) as (dev & Hd & ? & ? & ?).
    destruct (view_device w' w f dev) as (dev' & ? & [= ? ? ? _]); [done|done|].
    exists dev'. split_and!; congruence.
  - intros b v' d Hb (v & Hv & [= _ -> _ _ _ _])%(view_bus w) Ho; [|done].
    destruct (pt_owner _ _ _ _ Ht _ _ _ Hb Hv Ho) as (dev & Hd & Hl).
    destruct (view_device w' w d dev) as (dev' & ? & [= _ _ _ ?]); [done|done|].
    exists dev'. split; [done|congruence].
Qed.

(** *** Accesses that leave the view alone *)

Definition quiet {A} (w : World) : A -> World -> Prop := fun _ w' => pci_view w' = pci_view w.

Lemma quiet_load_config d dev offset size w :
  w_devices w !! d = Some dev -> length (pci_config_space dev) = 4096%nat ->
  0 <= offset -> 0 <= size -> offset + size <= 4096 ->
  wp (load_config d offset size) (fun _ w' => w' = w) w.
Proof.
  intros Hd Hl Ho Hs Hend. unfold load_config, config_load_le, slice. wsteps.
  destruct (_ && _) eqn:E; [by wsteps|lia].
Qed.

Lemma quiet_devices w d dev dev' : w_devices w !! d = Some dev ->
  function_key dev' = function_key dev ->
  pci_view (w <| w_devices ::= <[d := dev']> |>) = pci_view w.
Proof.
  intros Hd Hk. unfold pci_view. cbn. rewrite fmap_insert, insert_id; [done|].
  by rewrite lookup_fmap, Hd, Hk.
Qed.

Lemma quiet_store_config d dev offset size value w :
  w_devices w !! d = Some dev -> length (pci_config_space dev) = 4096%nat ->
  0 <= offset -> 0 <= size -> offset + size <= 4096 ->
  wp (store_config d offset size value) (quiet w) w.
Proof.
  intros Hd Hl Ho Hs Hend. eapply wp_store_config; [done|done|done|lia|].
  eapply quiet_devices; [done|]. unfold function_key. cbn.
  rewrite put_bytes_length; [done|]. rewrite store_le_length. lia.
Qed.

Lemma quiet_buses w b v v' : w_pci_buses w !! b = Some v -> bus_key v' = bus_key v ->
  pci_view (w <| w_pci_buses ::= <[b := v']> |>) = pci_view w.
Proof.
  intros Hb Hk. unfold pci_view. cbn. rewrite fmap_insert, insert_id; [done|].
  by rewrite lookup_fmap, Hb, Hk.
Qed.

Lemma quiet_update_pci_bus b v f w : w_pci_buses w !! b = Some v -> bus_key (f v) = bus_key v ->
  wp (update_pci_bus b f) (quiet w) w.
Proof. intros Hb Hk. unfold update_pci_bus. wsteps. by eapply quiet_buses. Qed.

Lemma quiet_bridges w d br br' : w_bridges w !! d = Some br ->
  br_secondary_bus br' = br_secondary_bus br ->
  pci_view (w <| w_bridges ::= <[d := br']> |>) = pci_view w.
Proof.
  intros Hd Hk. unfold pci_view. cbn. rewrite fmap_insert, insert_id; [done|].
  by rewrite lookup_fmap, Hd, Hk.
Qed.

(** A step whose result is not looked at, then the rest in a world with the same view. *)
Lemma quiet_then {A B} (m : M World A) (k : A -> M World B) (Q : B -> World -> Prop) w :
  wp m (quiet w) w -> (forall a w1, pci_view w1 = pci_view w -> wp (k a) Q w1) ->
  wp (bind m k) Q w.
Proof. intros Hm Hk. apply wp_bind. eapply wp_mono; [exact Hm|]. intros a w1 H1. by apply Hk. Qed.
Lemma view_then_quiet {A} (m : M World A) w w1 :
  pci_view w1 = pci_view w -> wp m (quiet w1) w1 -> wp m (quiet w) w1.
Proof. intros H1 Hm. eapply wp_mono; [exact Hm|]. intros a w2 H2. by etransitivity. Qed.

(** The bridge [d] is there, with its function and its secondary bus. *)
Definition bridge_at (w : World) (d b : ptr) : Prop :=
  exists br dev v, w_bridges w !! d = Some br /\ br_secondary_bus br = b /\
    w_devices w !! d = Some dev /\ length (pci_config_space dev) = 4096%nat /\
    w_pci_buses w !! b = Some v.

Lemma view_bridge_at w w' d b : pci_view w' = pci_view w -> bridge_at w d b -> bridge_at w' d b.
Proof.
  intros Hview (br & dev & v & Hbr & Hb & Hd & Hl & Hv).
  destruct (view_bridge w' w d br) as (br' & ? & ?); [done|done|].
  destruct (view_device w' w d dev) as (dev' & ? & [= _ _ _ ?]); [done|done|].
  destruct (view_bus w' w b v) as (v' & ? & _); [done|done|].
  exists br', dev', v'. split_and!; congruence.
Qed.

Lemma quiet_mmio_window w d b config :
  bridge_at w d b -> wp (pci_bridge_update_mmio_window d config) (quiet w) w.
Proof.
  intros Hat. unfold pci_bridge_update_mmio_window, set_mmio_window.
  assert (forall base size, wp (let* br := load_bridge d in
      store_bridge d (br <| br_mmio_base := base |> <| br_mmio_size := size |>) ;;;
      update_pci_bus (br_secondary_bus br)
        (fun v => v <| pb_mmio_base := base |> <| pb_mmio_size := size |>)) (quiet w) w) as Hset.
  { intros base size. destruct Hat as (br & dev & v & Hbr & Hb & _ & _ & Hv). subst b. wsteps.
    eapply (view_then_quiet _ w); [by eapply quiet_bridges|]. by eapply quiet_update_pci_bus. }
  cbv zeta. eapply quiet_then.
  - match goal with |- wp (if ?b then _ else _) _ _ => destruct b end; apply Hset.
  - intros _ w1 H1. by wsteps.
Qed.

Lemma quiet_prefetch_window w d b :
  bridge_at w d b -> wp (pci_bridge_update_prefetch_window d) (quiet w) w.
Proof.
  intros (br & dev & v & Hbr & Hb & Hd & Hl & Hv). subst b.
  unfold pci_bridge_update_prefetch_window.
  do 4 (wstep; eapply wp_mono; [eapply quiet_load_config; [done|done|lia..]|]; intros ? ? ->).
  wsteps. eapply wp_mono; [by eapply quiet_update_pci_bus|].
  intros ? w1 H1. wsteps. etransitivity; [exact H1|]. by eapply quiet_bridges.
Qed.

Lemma quiet_windows w d b offset size value : bridge_at w d b -> 1 <= size ->
  wp (if (0x20 <=? offset) && (offset <=? 0x23) && (size <=? 4 - (offset - 0x20)) then
     let* config := load_config d 0x20 4 in
     let config := merge_window (Z.to_nat size) config offset value 0 in
     store_config d 0x20 4 config ;;; pci_bridge_update_mmio_window d config
   else if (0x24 <=? offset) && (offset <=? 0x2f) && (size <=? 0x30 - offset) then
     store_config d offset size value ;;; pci_bridge_update_prefetch_window d
   else ret (-ENOENT)) (quiet w) w.
Proof.
  intros Hat Hs. pose proof Hat as (br & dev & v & Hbr & Hb & Hd & Hl & Hv).
  match goal with |- wp (if ?c then _ else _) _ _ => destruct c eqn:E1 end;
    [|match goal with |- wp (if ?c then _ else _) _ _ => destruct c eqn:E2 end; [|by wsteps]].
  - wstep. eapply wp_mono; [eapply quiet_load_config; [done|done|lia..]|]. intros config ? ->.
    cbv zeta. eapply quiet_then; [eapply quiet_store_config; [done|done|lia..]|].
    intros _ w1 H1. eapply view_then_quiet; [done|]. eapply quiet_mmio_window.
    by eapply view_bridge_at.
  - eapply quiet_then; [eapply quiet_store_config; [done|done|lia..]|].
    intros _ w1 H1. eapply view_then_quiet; [done|]. eapply quiet_prefetch_window.
    by eapply view_bridge_at.
Qed.

Lemma quiet_widen_parent n w root nodes b v p :
  pci_tree n w root nodes -> b ∈ nodes -> w_pci_buses w !! b = Some v -> p ∈ nodes ->
  wp (widen_parent v p) (quiet w) w.
Proof.
  intros Ht Hb Hv Hp. unfold widen_parent. eapply (quiet_then _ _ _ _).
  - destruct (pb_owner_bridge v) as [d|] eqn:Ho; [|by wsteps].
    destruct (pt_owner _ _ _ _ Ht _ _ _ Hb Hv Ho) as (dev & Hd & Hl).
    wstep. eapply wp_mono; [eapply quiet_load_config; [done|done|lia..]|]. intros sub ? ->.
    destruct (_ <? _); [eapply quiet_store_config; [done|done|lia..]|by wsteps].
  - intros _ w1 H1. assert (pci_tree n w1 root nodes) as Ht1 by (by eapply view_tree).
    destruct (tree_lookup _ _ _ _ _ p (pt_tree _ _ _ _ Ht1) Hp) as [pv Hpv]. wsteps.
    destruct (_ <? _); wsteps; [|done]. etransitivity; [by eapply quiet_buses|done].
Qed.

(** The walk up to the root takes at most as many steps as the tree is high. *)
Lemma update_ancestors_below n w root nodes : pci_tree n w root nodes ->
  forall h par b sub m x, tree_at h w par b sub -> sub ⊆ nodes -> x ∈ sub ->
  (forall k w1, (m <= k)%nat -> pci_view w1 = pci_view w ->
     wp (pci_bus_update_ancestors k (Some b)) (quiet w) w1) ->
  forall k w1, (m + h <= S k)%nat -> pci_view w1 = pci_view w ->
    wp (pci_bus_update_ancestors k (Some x)) (quiet w) w1.
Proof.
  intros Ht h. induction h as [|h IH]; intros par b sub m x; [done|].
  intros (v & subtrees & Hb & _ & Hall & ->) Hsub [->|Hx]%elem_of_cons Hroot k w1 Hk H1;
    [apply Hroot; [lia|done]|].
  apply elem_of_concat in Hx as (l & Hl & Hx). apply list_elem_of_lookup in Hl as [i Hi].
  destruct (Forall2_lookup_r _ _ _ _ _ Hall Hi) as (c & _ & Hc).
  assert (l ⊆ nodes) as Hln.
  { intros y Hy. apply Hsub. right. apply list_elem_of_In, in_concat. exists l.
    split; apply list_elem_of_In; [by eapply list_elem_of_lookup_2|done]. }
  eapply (IH _ _ _ (S m) _ Hc Hln Hx); [|lia|done].
  intros [|k'] w2 Hk' H2; [lia|]. destruct h as [|h]; [done|].
  destruct Hc as (vc & cs & Hvc & Hparent & _ & ->).
  assert (pci_tree n w2 root nodes) as Ht2 by (by eapply view_tree).
  destruct (view_bus w2 w c vc) as (vc2 & Hvc2 & Hkey); [done|done|].
  cbn [pci_bus_update_ancestors]. wsteps.
  assert (pb_parent_pci_bus vc2 = Some b) as -> by (injection Hkey; congruence).
  eapply view_then_quiet; [exact H2|]. eapply quiet_then.
  - eapply (quiet_widen_parent n w2 root nodes c); [done|apply Hln; by left|done|].
    apply Hsub. by left.
  - intros _ w3 H3. eapply wp_mono; [apply Hroot; [lia|congruence]|].
    intros ? w4 H4. unfold quiet in *. congruence.
Qed.

Lemma quiet_update_ancestors n w root nodes x : pci_tree n w root nodes -> x ∈ nodes ->
  wp (pci_bus_update_ancestors n (Some x)) (quiet w) w.
Proof.
  intros Ht Hx. pose proof (pt_tree _ _ _ _ Ht) as Htree.
  apply (update_ancestors_below n w root nodes Ht n None root nodes 0 x Htree); [done|done| |lia|done].
  intros k w1 _ H1. destruct n as [|n]; [done|]. destruct Htree as (v & ? & Hv & Hp & _).
  destruct (view_bus w1 w root v) as (v1 & Hv1 & Hkey); [done|done|].
  assert (pb_parent_pci_bus v1 = None) as Hp1 by (injection Hkey; congruence).
  destruct k; cbn [pci_bus_update_ancestors]; wsteps; rewrite Hp1; by wsteps.
Qed.

(** *** Requester identifiers *)

(** The functions for which [R] has an identifier get one, the others keep theirs, and nothing
    else changes. *)
Record ids_changed (R : ptr -> Z -> Prop) (w w' : World) : Prop := {
  ic_buses : w_pci_buses w' = w_pci_buses w;
  ic_bridges : w_bridges w' = w_bridges w;
  ic_device f : option_Forall2 (fun dev dev' =>
    dev' = dev <| pci_requester_id := pci_requester_id dev' |> /\
    (R f (pci_requester_id dev') \/
     pci_requester_id dev' = pci_requester_id dev /\ forall rid, ~ R f rid))
    (w_devices w !! f) (w_devices w' !! f);
}.

Lemma ids_none w : ids_changed (fun _ _ => False) w w.
Proof.
  split; [done|done|]. intros f. destruct (w_devices w !! f) as [dev|]; constructor.
  split; [by destruct dev|]. right. naive_solver.
Qed.

Lemma ids_ext (R R' : ptr -> Z -> Prop) w w' :
  (forall f rid, R f rid <-> R' f rid) -> ids_changed R w w' -> ids_changed R' w w'.
Proof.
  intros HR [Hb Hbr Hd]. split; [done|done|]. intros f.
  destruct (Hd f) as [dev dev' [Hdev Hid]|]; constructor. split; [done|]. naive_solver.
Qed.

Lemma ids_trans R1 R2 w w1 w2 : ids_changed R1 w w1 -> ids_changed R2 w1 w2 ->
  ids_changed (fun f rid => R1 f rid \/ R2 f rid) w w2.
Proof.
  intros [Hb1 Hbr1 Hd1] [Hb2 Hbr2 Hd2]. split; [congruence|congruence|]. intros f.
  specialize (Hd1 f). specialize (Hd2 f).
  destruct Hd1 as [dev dev1 [Hdev1 H1]|]; inversion Hd2 as [? dev2 [Hdev2 H2]|]; constructor.
  split; [rewrite Hdev2, Hdev1; by destruct dev|].
  destruct H2 as [H2|[E2 H2]]; [by left; right|].
  destruct H1 as [H1|[E1 H1]]; [left; left; by rewrite E2|right; naive_solver congruence].
Qed.

Lemma ids_exists R w w' f : ids_changed R w w' -> is_Some (w_devices w !! f) ->
  is_Some (w_devices w' !! f).
Proof. intros [_ _ Hd] [dev Hf]. specialize (Hd f). rewrite Hf in Hd. inversion Hd. by eexists. Qed.

Lemma ids_one f dev rid w : w_devices w !! f = Some dev ->
  ids_changed (fun f' rid' => f' = f /\ rid' = rid) w
    (w <| w_devices ::= <[f := dev <| pci_requester_id := rid |>]> |>).
Proof.
  intros Hf. split; [done|done|]. intros f'. cbn. destruct (decide (f' = f)) as [->|Hne].
  - rewrite Hf, lookup_insert_eq. constructor. split; [done|]. by left.
  - rewrite lookup_insert_ne by done. destruct (w_devices w !! f') as [dev'|]; constructor.
    split; [by destruct dev'|]. right. naive_solver.
Qed.

(** The slots of one bus, from [i] on. *)
Lemma renumber_functions_spec number functions : forall i w,
  (forall f, Some f ∈ functions -> is_Some (w_devices w !! f)) ->
  wp (renumber_functions number functions i) (fun _ w' => ids_changed (fun f rid =>
    exists j, functions !! j = Some (Some f) /\ rid = requester_id_of number (i + Z.of_nat j))
    w w') w.
Proof.
  induction functions as [|slot rest IH]; intros i w Hex; cbn [renumber_functions].
  { wsteps. eapply ids_ext; [|apply ids_none]. naive_solver. }
  destruct slot as [f|].
  - destruct (Hex f) as [dev Hdev]; [by left|]. unfold update_device. wsteps.
    pose proof (ids_one f dev (requester_id_of number i) w Hdev) as H1.
    eapply wp_mono; [apply IH|].
    { intros f' Hf'. eapply ids_exists; [exact H1|]. apply Hex. by right. }
    intros ? w2 H2. eapply ids_ext; [|eapply ids_trans; [exact H1|exact H2]].
    intros f' rid. split.
    + intros [[-> ->]|(j & Hj & ->)]; [exists 0%nat|exists (S j)]; (split; [done|f_equal; lia]).
    + intros ([|j] & Hj & ->); cbn in Hj; [left; simplify_eq; split; [done|f_equal; lia]|].
      right. exists j. split; [done|f_equal; lia].
  - wsteps. eapply wp_mono; [apply IH; intros f Hf; apply Hex; by right|].
    intros ? w2 H2. eapply ids_ext; [|exact H2]. intros f' rid. split.
    + intros (j & Hj & ->). exists (S j). split; [done|f_equal; lia].
    + intros ([|j] & Hj & ->); [done|]. exists j. split; [done|f_equal; lia].
Qed.

(** The identifiers that the places in the buses [l] give. *)
Definition place_ids (w : World) (l : list ptr) (f : ptr) (rid : Z) : Prop :=
  exists b v j, b ∈ l /\ w_pci_buses w !! b = Some v /\ pb_functions v !! j = Some (Some f) /\
    rid = requester_id_of (pb_number v) (Z.of_nat j).
Definition places_filled (w : World) (l : list ptr) : Prop :=
  forall b v f, b ∈ l -> w_pci_buses w !! b = Some v -> Some f ∈ pb_functions v ->
    is_Some (w_devices w !! f).

Lemma place_ids_app w l1 l2 f rid :
  place_ids w (l1 ++ l2) f rid <-> place_ids w l1 f rid \/ place_ids w l2 f rid.
Proof.
  unfold place_ids. split.
  - intros (b & v & j & [Hb|Hb]%elem_of_app & H); [left|right]; by exists b, v, j.
  - intros [(b & v & j & Hb & H)|(b & v & j & Hb & H)]; exists b, v, j;
      (split; [apply elem_of_app; auto|done]).
Qed.
Lemma place_ids_buses w w' l f rid : w_pci_buses w' = w_pci_buses w ->
  place_ids w' l f rid <-> place_ids w l f rid.
Proof. intros Hb. unfold place_ids. by rewrite Hb. Qed.

Lemma update_requester_ids_spec k : forall m par b l w, (m <= k)%nat -> tree_at m w par b l ->
  places_filled w l ->
  wp (pci_bus_update_requester_ids k b) (fun _ w' => ids_changed (place_ids w l) w w') w.
Proof.
  induction k as [|k IH]; intros m par b l w Hk Ht Hpl; (destruct m as [|m]; [done|]); [lia|].
  destruct Ht as (v & subtrees & Hb & _ & Hall & ->). cbn [pci_bus_update_requester_ids]. wsteps.
  eapply wp_mono; [apply renumber_functions_spec; intros f Hf; eapply Hpl; [by left|done|done]|].
  intros ? w1 H1.
  assert (forall w2 R, ids_changed R w w2 ->
    wp ((fix children (l : list ptr) : M World unit :=
         match l with
         | [] => ret tt
         | c :: l => pci_bus_update_requester_ids k c ;;; children l
         end) (pb_children v))
      (fun _ w' => ids_changed (fun f rid => R f rid \/ place_ids w (concat subtrees) f rid) w w')
      w2) as Hch.
  { assert (places_filled w (concat subtrees)) as Hpl'
      by (intros b' v' f Hb'; apply Hpl; by right).
    clear Hpl H1 w1. induction Hall as [|c l children subtrees Hc Hall IHl]; intros w2 R H2.
    - wsteps. eapply ids_ext; [|exact H2]. unfold place_ids. cbn. intros f rid.
      split; [by left|]. intros [?|(? & ? & ? & ?%not_elem_of_nil & _)]; done.
    - assert (tree_at m w2 (Some b) c l) as Hc2.
      { eapply topology_tree; [|exact Hc]. apply same_topology_buses, (ic_buses _ _ _ H2). }
      wstep. eapply wp_mono; [eapply (IH m); [lia|exact Hc2|]|].
      { intros b' v' f Hb' Hv' Hf. eapply ids_exists; [exact H2|].
        rewrite (ic_buses _ _ _ H2) in Hv'. eapply Hpl'; [|done|done]. cbn.
        apply elem_of_app. by left. }
      intros ? w3 H3. eapply wp_mono; [eapply IHl|].
      + intros b' v' f Hb'. apply Hpl'. cbn. apply elem_of_app. by right.
      + eapply ids_trans; [exact H2|exact H3].
      + intros ? w4 H4. eapply ids_ext; [|exact H4]. intros f rid.
        cbn [concat]. rewrite place_ids_app, (place_ids_buses w w2) by apply H2. tauto. }
  eapply wp_mono; [apply Hch; exact H1|]. intros ? w2 H2. eapply ids_ext; [|exact H2].
  intros f rid. unfold place_ids. setoid_rewrite elem_of_cons. split.
  - intros [(j & Hj & ->)|?]; [|naive_solver]. exists b, v, j. by split_and!; [left| | |].
  - intros (b' & v' & j & [->|Hin] & Hv' & Hj & ->); [left|right; naive_solver].
    simplify_eq. exists j. by split.
Qed.

(** *** A bus gets a new number *)

Lemma subtree n w par b nodes x : tree_at n w par b nodes -> x ∈ nodes ->
  exists m par' l, (m <= n)%nat /\ tree_at m w par' x l /\ x ∈ l /\ l ⊆ nodes.
Proof.
  revert par b nodes. induction n as [|n IH]; intros par b nodes; [done|].
  intros Ht Hx. pose proof Ht as (v & subtrees & Hb & _ & Hall & Hnodes).
  rewrite Hnodes in Hx. apply elem_of_cons in Hx as [->|Hx].
  { exists (S n), par, nodes. split_and!; [lia|done|rewrite Hnodes; by left|done]. }
  apply elem_of_concat in Hx as (l & Hl & Hx). apply list_elem_of_lookup in Hl as [i Hi].
  destruct (Forall2_lookup_r _ _ _ _ _ Hall Hi) as (c & _ & Hc).
  destruct (IH _ _ _ Hc Hx) as (m & par' & l' & Hm & Ht' & Hin & Hsub).
  exists m, par', l'. split_and!; [lia|done|done|]. intros y Hy%Hsub. rewrite Hnodes. right.
  apply list_elem_of_In, in_concat. exists l.
  split; apply list_elem_of_In; [by eapply list_elem_of_lookup_2|done].
Qed.

Lemma requester_id_value number i : 0 <= number < 256 -> (i < 256)%nat ->
  requester_id_of number (Z.of_nat i) = 256 * number + Z.of_nat i.
Proof.
  intros Hn Hi. unfold requester_id_of. rewrite Z.lor_comm, lor_shiftl_add by lia.
  unfold u16. rewrite Z.mod_small; lia.
Qed.

Definition numbered (s sub : Z) (v : VartPciBus) : VartPciBus :=
  v <| pb_number := s |> <| pb_secondary_number := s |> <| pb_subordinate_number := sub |>.

(** What the buses and the functions have become. *)
Section Renumbered.
Context (w w3 w4 : World) (child : ptr) (c : VartPciBus) (s sub : Z) (l : list ptr).
Context (Hview : pci_view w3 = pci_view (w <| w_pci_buses ::= <[child := numbered s sub c]> |>)).
Context (Hids : ids_changed (place_ids w3 l) w3 w4).

Lemma renumbered_bus b v4 : w_pci_buses w !! child = Some c -> w_pci_buses w4 !! b = Some v4 ->
  exists v, w_pci_buses w !! b = Some v /\
    pb_owner_bridge v4 = pb_owner_bridge v /\ pb_functions v4 = pb_functions v /\
    pb_number v4 = (if decide (b = child) then s else pb_number v) /\
    pb_secondary_number v4 = (if decide (b = child) then s else pb_secondary_number v).
Proof using Hview Hids.
  intros Hc. rewrite (ic_buses _ _ _ Hids).
  intros (v2 & Hv2 & Hkey)%(view_bus (w <| w_pci_buses ::= <[child := numbered s sub c]> |>));
    [|done].
  injection Hkey as _ -> _ -> -> ->. cbn in Hv2. destruct (decide (b = child)) as [->|].
  - rewrite lookup_insert_eq in Hv2. injection Hv2 as <-. by exists c.
  - rewrite lookup_insert_ne in Hv2 by done. by exists v2.
Qed.

Lemma renumbered_device f dev : w_devices w !! f = Some dev ->
  exists dev4, w_devices w4 !! f = Some dev4 /\
    pci_bus dev4 = pci_bus dev /\ pci_devfn dev4 = pci_devfn dev /\
    length (pci_config_space dev4) = length (pci_config_space dev) /\
    (place_ids w3 l f (pci_requester_id dev4) \/
     pci_requester_id dev4 = pci_requester_id dev /\ forall rid, ~ place_ids w3 l f rid).
Proof using Hview Hids.
  intros Hf. destruct (view_device w3 (w <| w_pci_buses ::= <[child := numbered s sub c]> |>) f dev)
    as (dev3 & Hd3 & [= ? ? Hr ?]); [done|done|].
  pose proof (ic_device _ _ _ Hids f) as Hd. rewrite Hd3 in Hd.
  inversion Hd as [? dev4 [Hd4 Hid] Hx|]; subst. exists dev4. split; [done|].
  rewrite Hd4 at 1 2 3. cbn. split_and!; [congruence..|]. rewrite <- Hr in Hid. exact Hid.
Qed.
End Renumbered.

(** The number is free, the identifiers below the bus follow: the tree is well formed again. *)
Lemma renumbered_tree n w w3 w4 root nodes child c s sub l : pci_tree n w root nodes ->
  child ∈ nodes -> w_pci_buses w !! child = Some c -> 0 <= s < 256 ->
  (forall b, b ∈ nodes -> has_number w s b = true -> b = child) ->
  child ∈ l -> l ⊆ nodes ->
  pci_view w3 = pci_view (w <| w_pci_buses ::= <[child := numbered s sub c]> |>) ->
  ids_changed (place_ids w3 l) w3 w4 -> pci_tree n w4 root nodes.
Proof.
  intros Ht Hin Hc Hs Hfree Hcl Hl Hview Hids.
  pose proof (fun b v4 => renumbered_bus w w3 w4 child c s sub l Hview Hids b v4 Hc) as Hbus.
  pose proof (renumbered_device w w3 w4 child c s sub l Hview Hids) as Hdev.
  assert (forall b v i f, b ∈ nodes -> w_pci_buses w !! b = Some v ->
    pb_functions v !! i = Some (Some f) -> (i < 256)%nat /\ exists dev, w_devices w !! f = Some dev /\
      pci_bus dev = Some b /\ pci_devfn dev = Z.of_nat i /\
      pci_requester_id dev = 256 * pb_number v + Z.of_nat i) as Hfun.
  { intros b v i f Hb Hv Hf. split; [|by eapply (pt_function _ _ _ _ Ht)].
    destruct (pt_bus _ _ _ _ Ht b v Hb Hv) as (_ & _ & <-). by eapply lookup_lt_Some. }
  split.
  - eapply tree_at_frame; [|exact (pt_tree _ _ _ _ Ht)]. intros b.
    rewrite (ic_buses _ _ _ Hids). pose proof (view_topology _ _ Hview b) as Htop. cbn in Htop.
    destruct (decide (b = child)) as [->|].
    + rewrite lookup_insert_eq in Htop. inversion Htop as [? v' (? & ? & _)|]. rewrite Hc.
      by constructor.
    + rewrite lookup_insert_ne in Htop by done.
      destruct Htop as [v v' (? & ? & _)|]; by constructor.
  - eapply topology_unique; [|eapply (renumber_unique w nodes child c (numbered s sub) s)]; try done.
    2: apply Ht. etransitivity; [by eapply view_topology|].
    apply same_topology_buses, (ic_buses _ _ _ Hids).
  - intros b v4 Hb (v & Hv & _ & -> & -> & ->)%Hbus.
    destruct (pt_bus _ _ _ _ Ht b v Hb Hv) as (? & ? & ?). by case_decide.
  - intros b v4 i f Hb Hv4 Hf. destruct (Hbus b v4 Hv4) as (v & Hv & _ & Ef & En & _).
    rewrite Ef in Hf. destruct (Hfun b v i f Hb Hv Hf) as (Hi & dev & Hd & Hdb & Hdf & Hdr).
    destruct (Hdev f dev Hd) as (dev4 & Hd4 & E1 & E2 & _ & Hid). exists dev4.
    split_and!; [done|congruence|congruence|].
    destruct Hid as [(b' & v' & j & Hb' & Hv' & Hj & ->)|[-> Hno]].
    + rewrite <- (ic_buses _ _ _ Hids) in Hv'. destruct (Hbus b' v' Hv') as (v0 & Hv0 & _ & Ef' & En' & _).
      rewrite Ef' in Hj. destruct (Hfun b' v0 j f ltac:(by apply Hl) Hv0 Hj)
        as (_ & dev' & Hd' & Hdb' & Hdf' & _).
      assert (b' = b /\ j = i) as [-> ->] by (simplify_eq; split; [congruence|lia]).
      simplify_eq. apply requester_id_value; [|done]. rewrite En'.
      destruct (pt_bus _ _ _ _ Ht b v Hb Hv) as (? & _). by case_decide.
    + rewrite Hdr, En. rewrite decide_False; [done|]. intros ->.
      eapply Hno. exists child, v4, i. rewrite (ic_buses _ _ _ Hids) in Hv4.
      split_and!; [done|done|by rewrite Ef|done].
  - intros b v4 d Hb (v & Hv & -> & _)%Hbus Ho.
    destruct (pt_owner _ _ _ _ Ht b v d Hb Hv Ho) as (dev & Hd & Hlen).
    destruct (Hdev d dev Hd) as (dev4 & Hd4 & _ & _ & El & _). exists dev4. split; [done|congruence].
Qed.

Lemma pick_numbers_range k : forall offset value i s sub lat, 0 <= s < 256 ->
  0 <= (pick_numbers k offset value i (s, sub, lat)).1.1 < 256.
Proof.
  induction k as [|k IH]; intros offset value i s sub lat Hs; cbn [pick_numbers]; [done|].
  repeat case_match; apply IH; [|done..]. unfold u8. apply Z.mod_pos_bound. lia.
Qed.

Lemma write_bus_numbers_spec n w root nodes d b offset size value :
  pci_tree n w root nodes -> bridge_at w d b -> b ∈ nodes ->
  wp (write_bus_numbers n d offset size value) (fun _ w' => pci_tree n w' root nodes) w.
Proof.
  intros Ht Hat Hin. pose proof Hat as (br & dev & c & Hbr & Hb & Hd & Hl & Hc). subst b.
  unfold write_bus_numbers. wsteps.
  destruct (pb_parent_pci_bus c) as [p|] eqn:Hp; [|by wsteps].
  pose proof (pt_tree _ _ _ _ Ht) as Htree.
  assert (p ∈ nodes) as Hpin
    by (destruct (tree_parent _ _ _ _ _ _ _ _ Htree Hin Hc Hp) as [|[_ ?]]; done).
  destruct (tree_lookup _ _ _ _ _ p Htree Hpin) as [parent Hpv]. wsteps.
  eapply wp_mono; [eapply quiet_load_config; [done|done|lia..]|]. intros latency ? ->.
  destruct (pt_bus _ _ _ _ Ht _ _ Hin Hc) as (_ & Hsec & _).
  pose proof (pick_numbers_range (Z.to_nat size) offset value 0 _ (pb_subordinate_number c)
    latency Hsec) as Hs.
  destruct (pick_numbers _ _ _ _ _) as [[s sub] lat]. cbn [fst] in Hs.
  destruct (_ && _); [by wsteps|]. destruct (_ || _); [by wsteps|].
  wstep. apply wp_ok. do 2 eexists. split; [by apply (bus_root_spec n w root nodes)|].
  wstep. apply wp_ok. do 2 eexists. split; [by apply (bus_find_spec n w None root nodes)|].
  case_bool_decide as Hno; [by wsteps|]. unfold update_pci_bus. wsteps.
  set (w2 := w <| w_pci_buses ::= _ |>).
  eapply wp_mono; [eapply (quiet_store_config d dev); [done|done|lia..]|]. intros ? w3 H3.
  destruct (subtree _ _ _ _ _ _ Htree Hin) as (m & par' & l & Hm & Hsub & Hcl & Hln).
  assert (tree_at m w3 par' (br_secondary_bus br) l) as Hsub3.
  { eapply topology_tree; [by eapply view_topology|]. eapply tree_at_frame; [|exact Hsub].
    intros y. unfold w2. cbn. destruct (decide (y = br_secondary_bus br)) as [->|].
    - rewrite Hc, lookup_insert_eq. by constructor.
    - rewrite lookup_insert_ne by done. destruct (w_pci_buses w !! y); by constructor. }
  wstep. eapply wp_mono; [eapply (update_requester_ids_spec n m); [done|exact Hsub3|]|].
  { intros x v3 f Hx Hv3 [i Hf]%list_elem_of_lookup.
    destruct (view_bus w2 w3 x v3) as (v2 & Hv2 & [= _ _ _ _ _ Ef]); [done|done|].
    assert (exists v, w_pci_buses w !! x = Some v /\ pb_functions v = pb_functions v2) as (v & Hv & Ev).
    { unfold w2 in Hv2. cbn in Hv2. destruct (decide (x = br_secondary_bus br)) as [->|].
      - rewrite lookup_insert_eq in Hv2. injection Hv2 as <-. by exists c.
      - rewrite lookup_insert_ne in Hv2 by done. by exists v2. }
    destruct (pt_function _ _ _ _ Ht x v i f) as (df & Hdf & _); [by apply Hln|done|congruence|].
    destruct (view_device w3 w2 f df) as (? & -> & _); [done|done|by eexists]. }
  intros ? w4 H4.
  assert (pci_tree n w4 root nodes) as Ht4.
  { eapply (renumbered_tree n w w3 w4 root nodes (br_secondary_bus br) c s sub l); try done.
    intros y Hy Hys. by eapply find_only; [apply Ht|..]. }
  wstep. eapply wp_mono; [by eapply quiet_update_ancestors|]. intros ? w5 H5. wsteps.
  by eapply view_tree.
Qed.

(** Configuration accesses reach the function they name.  In a tree of buses
    with distinct numbers, an access to the ECAM window at a bus number, a device and
    function number and a register is carried out on the function in that slot of the
    bus with that number, provided the function is realized and every bridge on the
    way decodes the number; if there is no such function, a read gives all ones and a
    write does nothing. *)
Theorem ecam_routing `{ConfigCallbacks} `{MsixCallbacks} `{IrqCallbacks}
    n w complex rc nodes number devfn reg size value :
  w_complexes w !! complex = Some rc -> tree_at n w None (rc_root_bus rc) nodes ->
  numbers_unique w nodes -> slots_ok w nodes ->
  0 <= number < 256 -> 0 <= devfn < 256 -> 0 <= reg -> 1 <= size -> reg + size <= 4096 ->
  let offset := ecam_offset number devfn reg in
  (forall f, answers w (rc_root_bus rc) nodes number devfn f ->
     pci_ecam_read n (Some complex) offset size value w = pci_config_read f reg size value w /\
     pci_ecam_write n (Some complex) offset size value w = pci_config_write n f reg size value w) /\
  ((forall f, ~ answers w (rc_root_bus rc) nodes number devfn f) ->
     pci_ecam_read n (Some complex) offset size value w = Ok ((0, UINT64_MAX), w) /\
     pci_ecam_write n (Some complex) offset size value w = Ok (0, w)).
Proof.
  intros Hc Ht Hu Hs Hn Hd Hr Hz Hrz offset.
  destruct (ecam_lookup_spec n w complex rc nodes number devfn reg size Hc Ht Hu Hs Hn Hd Hr Hz Hrz)
    as (r & Hrun & Hiff).
  unfold pci_ecam_read, pci_ecam_write. cbn [deref].
  rewrite !(bind_eq (ret complex) _ w complex w) by done. rewrite !(bind_eq _ _ _ _ _ Hrun).
  split.
  - intros f Hf. rewrite (proj2 (Hiff f reg) (conj eq_refl Hf)). done.
  - intros Hno. destruct r as [[f o]|]; [|done].
    destruct (proj1 (Hiff f o) eq_refl) as [_ Hf]. by apply Hno in Hf.
Qed.

(** C27. The guest cannot make two buses or two functions look alike.  Whatever a guest writes
    to the bus-number and window registers of a bridge, the write returns, accepted or refused,
    and the tree of buses is well formed afterwards: the same buses with distinct numbers, and
    in every slot a function whose requester identifier is made of the number of its bus and
    its slot, so that no two functions have the same identifier.  The walks over the tree
    take at most as many steps as it is high. *)
Theorem bus_numbers_stay_unique n w root nodes d b offset size value :
  pci_tree n w root nodes -> bridge_at w d b -> b ∈ nodes -> 1 <= size ->
  exists err w', pci_bridge_config_write n d offset size value w = Ok (err, w') /\
    pci_tree n w' root nodes /\ requesters_distinct w' nodes.
Proof.
  intros Ht Hat Hin Hs.
  assert (wp (pci_bridge_config_write n d offset size value)
    (fun _ w' => pci_tree n w' root nodes) w) as (err & w' & E & Ht')%wp_ok.
  { unfold pci_bridge_config_write. destruct (_ || (4 - (offset - 0x18) <? size)).
    - eapply wp_mono; [by eapply quiet_windows|]. intros err w' Hw. by eapply view_tree.
    - by eapply write_bus_numbers_spec. }
  exists err, w'. split_and!; [done|done|by eapply tree_requesters_distinct].
Qed.

Module PciDemo.
Definition exec {A} (m : M World A) (w : World) : World :=
  match m w with Ok (_, w') => w' | _ => w end.
Definition fn : ptr := 5%positive.
Definition space : ptr := 1%positive.
Definition platform : ptr := 1%positive.
Definition root : ptr := 2%positive.
Definition secondary : ptr := 3%positive.
Definition complex : ptr := 6%positive.
Definition c0 : World := empty_world
  <| w_devices := {[fn := zero_pci_device [10; 11; 12; 13; 14; 15]%positive 16%positive 17%positive]} |>
  <| w_bridges := {[fn := mkBridge secondary 0 0 0 0]} |>
  <| w_buses := {[platform := mkBus None (Some space) [] 0]} |>
  <| w_spaces := {[space := zero_space]} |>
  <| w_complexes := {[complex := mkComplex root 20%positive false]} |>.

Definition c1 := exec (vart_pci_device_init (Some fn) 0x1b36 5 0 0 0 2) c0.
Definition c2 := exec (vart_pci_device_add_capability (Some fn) 9 (Some [7; 8; 9]) 3 0) c1.
Definition ops : VartMmioOps := mkMmioOps (Some (fn_external 1)) None.
Definition c3 := exec (vart_pci_device_set_bar (Some fn) 0 0x4000 12 (Some ops) None) c1.

Definition r1 := exec (vart_pci_root_complex_init 2 (Some complex) (Some platform) (Some space)) c0.
Definition r2 := exec (vart_pci_bridge_init 2 (Some fn) (Some root) (Some space) 4) r1.
Example bridge_made : w_pci_buses r2 !! secondary ≫= (fun v => Some (pb_number v, pb_mmio_base v)) =
  Some (4, 0x40000000).
Proof. vm_compute. reflexivity. Qed.

Definition dev_of (w : World) : VartPciDevice :=
  default (zero_pci_device [] 1%positive 1%positive) (w_devices w !! fn).
Definition bar_of (w : World) : VartPciBar :=
  default (zero_bar 1%positive) (pci_bars (dev_of w) !! 0%nat).
Definition bus_of (w : World) (b : ptr) : VartPciBus := default zero_pci_bus (w_pci_buses w !! b).

Lemma capability_list_correct_witness :
  exists dev, w_devices c2 !! fn = Some dev /\
    cap_walk 97 (pci_config_space dev) 0x34 = Some [(64%nat, 9)].
Proof.
  assert (cap_history fn [Cap 64 9 [7; 8; 9]] c2) as Hh.
  { apply (cap_add fn [] c1 9 [7; 8; 9] 0 0 64 c2).
    - apply (cap_init fn 0x1b36 5 0 0 0 2 c0 c1). vm_compute. reflexivity.
    - vm_compute. reflexivity. }
  destruct (capability_list_correct fn _ c2 Hh) as (dev & Hd & Hwalk & _).
  exists dev. split; [exact Hd|exact Hwalk].
Defined.

#[local] Instance no_config : ConfigCallbacks := {|
  call_config_read _ _ _ _ _ := undefined; call_config_write _ _ _ _ _ := undefined |}.
#[local] Instance no_msix : MsixCallbacks := {|
  call_msix_inject _ _ _ _ := undefined; call_msix_remap _ _ _ _ _ _ := undefined |}.
#[local] Instance no_irq : IrqCallbacks := fun _ _ _ _ => undefined.

Lemma c3_state : bar_state fn 0 c3 (dev_of c3) (bar_of c3).
Proof.
  split_and!; [vm_compute; reflexivity| |vm_compute; reflexivity].
  constructor; try (vm_compute; reflexivity); [lia|]. intros _.
  exists (default (zero_bar 1%positive) (pci_bars (dev_of c3) !! 1%nat)).
  split; vm_compute; reflexivity.
Qed.

Lemma bar_sizing_and_placing_witness :
  exists w', (let* s := guest_size_bar 2 fn 0 true in
              let* a := guest_set_bar 2 fn 0 true 0x1_4000_8000 in
              ret (s, a)) c3 = Ok ((0x4000, 12, 0x1_4000_8000), w').
Proof.
  destruct (bar_sizing_and_placing 2 fn 0 c3 (dev_of c3) (bar_of c3) 0x1_4000_8000)
    as (w' & Hr & _).
  - exact c3_state.
  - split; [exists 14; split; [vm_compute; split; congruence|vm_compute; reflexivity]|].
    apply (bool_decide_unpack _). vm_compute. exact I.
  - vm_compute. split; congruence.
  - vm_compute. discriminate.
  - lia.
  - vm_compute. reflexivity.
  - exists w'. exact Hr.
Defined.

Lemma r2_tree : tree_at 2 r2 None root [root; secondary].
Proof.
  exists (bus_of r2 root), [[secondary]]. split_and!; [vm_compute; reflexivity..| |reflexivity].
  replace (pb_children (bus_of r2 root)) with [secondary] by (vm_compute; reflexivity).
  constructor; [|constructor]. exists (bus_of r2 secondary), [].
  split_and!; [vm_compute; reflexivity..| |reflexivity].
  replace (pb_children (bus_of r2 secondary)) with (@nil ptr) by (vm_compute; reflexivity).
  constructor.
Qed.

Lemma r2_unique : numbers_unique r2 [root; secondary].
Proof.
  intros k b1 b2 H1 H2.
  assert (forall b, b ∈ [root; secondary] -> has_number r2 k b = true ->
    b = if k =? 0 then root else secondary) as Hb.
  { intros b Hb E. apply has_number_spec in E as (v & Hv & <-).
    apply elem_of_cons in Hb as [->|Hb]; [|apply list_elem_of_singleton in Hb as ->];
      vm_compute in Hv; injection Hv as <-; reflexivity. }
  intros E1 E2. rewrite (Hb b1 H1 E1), (Hb b2 H2 E2). reflexivity.
Qed.

Lemma r2_slots : slots_ok r2 [root; secondary].
Proof.
  intros b v Hb Hv. apply elem_of_cons in Hb as [->|Hb];
    [|apply list_elem_of_singleton in Hb as ->]; vm_compute in Hv; injection Hv as <-;
    (split; [vm_compute; reflexivity|]); intros f Hf;
    exfalso; apply list_elem_of_In in Hf; vm_compute in Hf; intuition discriminate.
Qed.

Lemma ecam_routing_witness :
  pci_ecam_read 2 (Some complex) (ecam_offset 4 0 0) 4 0 r2 = Ok ((0, UINT64_MAX), r2).
Proof.
  destruct (ecam_routing 2 r2 complex (mkComplex root 20%positive false) [root; secondary]
    4 0 0 4 0) as [_ Hnone]; [vm_compute; reflexivity|exact r2_tree|exact r2_unique|
    exact r2_slots|lia..|].
  apply Hnone. intros f (b & v & dev & Hb & Hv & Hn & _ & Hf & _).
  apply elem_of_cons in Hb as [->|Hb]; [|apply list_elem_of_singleton in Hb as ->];
    vm_compute in Hv; injection Hv as <-; vm_compute in Hf; discriminate.
Defined.

(** The bridge in slot 1 of the root bus, and a function in slot 0 behind it. *)
Definition nic : ptr := 7%positive.
Definition q1 := exec (vart_pci_bus_add_device (Some root) (Some fn) 8) r2.
Definition q2 := exec (vart_pci_device_init (Some nic) 0x1af4 0x1041 0 0 0 2)
  (q1 <| w_devices ::= <[nic := zero_pci_device [30; 31; 32; 33; 34; 35]%positive
    36%positive 37%positive]> |>).
Definition q3 := exec (vart_pci_bus_add_device (Some secondary) (Some nic) 0) q2.

Definition slot_fits (w : World) (b : ptr) (v : VartPciBus) (i : nat) : bool :=
  match pb_functions v !! i with
  | Some (Some f) =>
      match w_devices w !! f with
      | Some dev => bool_decide (pci_bus dev = Some b) && (pci_devfn dev =? Z.of_nat i) &&
          (pci_requester_id dev =? 256 * pb_number v + Z.of_nat i)
      | None => false
      end
  | _ => true
  end.
Definition bus_fits (w : World) (b : ptr) : bool :=
  match w_pci_buses w !! b with
  | Some v => (0 <=? pb_number v) && (pb_number v <? 256) && (0 <=? pb_secondary_number v) &&
      (pb_secondary_number v <? 256) && (length (pb_functions v) =? 256)%nat &&
      forallb (slot_fits w b v) (seq 0 256) &&
      match pb_owner_bridge v with
      | Some d => match w_devices w !! d with
                  | Some dev => (length (pci_config_space dev) =? 4096)%nat
                  | None => false
                  end
      | None => true
      end
  | None => false
  end.

Lemma bus_fits_spec n w r nodes : tree_at n w None r nodes -> numbers_unique w nodes ->
  forallb (bus_fits w) nodes = true -> pci_tree n w r nodes.
Proof.
  intros Ht Hu Hall. rewrite forallb_forall in Hall.
  assert (forall b v, b ∈ nodes -> w_pci_buses w !! b = Some v ->
    (0 <= pb_number v < 256 /\ 0 <= pb_secondary_number v < 256 /\
     length (pb_functions v) = 256%nat) /\
    (forall i, (i < 256)%nat -> slot_fits w b v i = true) /\
    match pb_owner_bridge v with
    | Some d => exists dev, w_devices w !! d = Some dev /\
        length (pci_config_space dev) = 4096%nat
    | None => True
    end) as Hfit.
  { intros b v Hb%list_elem_of_In%Hall Hv. unfold bus_fits in Hb. rewrite Hv in Hb.
    rewrite !andb_true_iff, forallb_forall, Nat.eqb_eq in Hb.
    destruct Hb as ((((((H1 & H2) & H3) & H4) & H5) & H6) & H7). split_and!; [lia..|done| |].
    - intros i Hi. apply H6, in_seq. lia.
    - destruct (pb_owner_bridge v) as [d|]; [|done]. destruct (w_devices w !! d) as [dev|]; [|done].
      exists dev. split; [done|]. by apply Nat.eqb_eq. }
  split; [done|done|by intros b v Hb Hv; apply (Hfit b v)| |].
  - intros b v i f Hb Hv Hf. destruct (Hfit b v Hb Hv) as ((_ & _ & Hl) & Hs & _).
    assert (i < 256)%nat as Hi by (rewrite <- Hl; by eapply lookup_lt_Some).
    specialize (Hs i Hi). unfold slot_fits in Hs. rewrite Hf in Hs.
    destruct (w_devices w !! f) as [dev|]; [|done]. exists dev.
    case_bool_decide; [|done]. split_and!; [done|done|lia|lia].
  - intros b v d Hb Hv Ho. destruct (Hfit b v Hb Hv) as (_ & _ & Hd). by rewrite Ho in Hd.
Qed.

Lemma q3_tree : pci_tree 2 q3 root [root; secondary].
Proof.
  apply bus_fits_spec; [| |vm_compute; reflexivity].
  - exists (bus_of q3 root), [[secondary]]. split_and!; [vm_compute; reflexivity..| |reflexivity].
    replace (pb_children (bus_of q3 root)) with [secondary] by (vm_compute; reflexivity).
    constructor; [|constructor]. exists (bus_of q3 secondary), [].
    split_and!; [vm_compute; reflexivity..| |reflexivity].
    replace (pb_children (bus_of q3 secondary)) with (@nil ptr) by (vm_compute; reflexivity).
    constructor.
  - intros k b1 b2 H1 H2. assert (forall b, has_number q3 k b = has_number r2 k b) as Hn.
    { intros b. unfold has_number.
      assert (pb_number <$> w_pci_buses q3 = pb_number <$> w_pci_buses r2) as E
        by (vm_compute; reflexivity).
      apply (f_equal (lookup b)) in E. rewrite !lookup_fmap in E.
      destruct (w_pci_buses q3 !! b), (w_pci_buses r2 !! b); cbn in E; congruence. }
    rewrite !Hn. by apply r2_unique.
Qed.

(** The guest moves the secondary bus to number 7, and the identifier of the function behind
    the bridge follows. *)
Definition q4 := exec (pci_bridge_config_write 2 fn 0x18 4 0x00070700) q3.
Example function_follows :
  (pci_requester_id <$> w_devices q3 !! nic, pci_requester_id <$> w_devices q4 !! nic) =
  (Some 0x400, Some 0x700).
Proof. vm_compute. reflexivity. Qed.

Lemma bus_numbers_stay_unique_witness :
  exists err w', pci_bridge_config_write 2 fn 0x18 4 0x00070700 q3 = Ok (err, w') /\
    pci_tree 2 w' root [root; secondary] /\ requesters_distinct w' [root; secondary].
Proof.
  apply (bus_numbers_stay_unique 2 q3 root [root; secondary] fn secondary 0x18 4 0x00070700).
  - exact q3_tree.
  - do 3 eexists. split_and!; vm_compute; reflexivity.
  - apply list_elem_of_In. vm_compute. auto.
  - lia.
Defined.
End PciDemo.
