(* ===== verification/VirtioPci.v ===== *)
(** The PCI transport of virtio: [src/hw/virtio/virtio-pci.c].

    A virtio device is a PCI function whose first base address register holds the
    common configuration registers, one notification register per queue, the
    interrupt status and the device's own configuration.  The driver negotiates
    features, sets up queues and notifies the device through them; what a
    notification does, and the device's configuration, belong to the device. *)

From stdpp Require Import base tactics numbers list gmap.
From Stdlib Require Import ZArith Lia.
From S2P Require Import Prelude Bytes Machine AddressSpace Iommu Devices Msix Pci Virtio.

Abbreviation VART_VIRTIO_PCI_VENDOR_ID := 0x1af4 (only parsing).
Abbreviation VART_VIRTIO_PCI_BAR_SIZE := 0x1000 (only parsing).
Abbreviation VART_VIRTIO_PCI_COMMON_OFFSET := 0 (only parsing).
Abbreviation VART_VIRTIO_PCI_COMMON_SIZE := 0x100 (only parsing).
Abbreviation VART_VIRTIO_PCI_NOTIFY_OFFSET := 0x100 (only parsing).
Abbreviation VART_VIRTIO_PCI_ISR_OFFSET := 0x200 (only parsing).
Abbreviation VART_VIRTIO_PCI_DEVICE_OFFSET := 0x300 (only parsing).
Abbreviation VART_VIRTIO_PCI_DEVICE_SIZE := 0x100 (only parsing).
Abbreviation VART_VIRTIO_PCI_NOTIFY_MULTIPLIER := 4 (only parsing).
Abbreviation VART_VIRTIO_PCI_NO_VECTOR := 0xffff (only parsing).
Abbreviation VIRTIO_PCI_CAP_VENDOR := 0x09 (only parsing).
Abbreviation VIRTIO_PCI_CAP_COMMON_CFG := 1 (only parsing).
Abbreviation VIRTIO_PCI_CAP_NOTIFY_CFG := 2 (only parsing).
Abbreviation VIRTIO_PCI_CAP_ISR_CFG := 3 (only parsing).
Abbreviation VIRTIO_PCI_CAP_DEVICE_CFG := 4 (only parsing).
Abbreviation VIRTIO_PCI_CAP_HEADER_SIZE := 16 (only parsing).
Abbreviation VIRTIO_PCI_NOTIFY_CAP_SIZE := 20 (only parsing).

(** What the functions that a device installs do: the configuration accessors
    and the queue notification. *)
Class VirtioPciCallbacks := {
  call_virtio_config_read : fnptr -> ptr -> Z -> Z -> Z -> option ptr -> M World (Z * Z);
  call_virtio_config_write : fnptr -> ptr -> Z -> Z -> Z -> option ptr -> M World Z;
  call_virtio_notify : fnptr -> ptr -> Z -> option ptr -> M World Z;
}.

Definition zero_queue_state : VartVirtioPciQueueState := mkQueueState 0 0 0 0 0.
Definition zero_virtio_pci : VartVirtioPciDevice :=
  mkVirtioPci zero_virtio None None None (mkVirtioConfigOps None None None)
    0 0 0 0 0 0 false false.

(** [virtio.queue_count]. *)
Definition vp_queue_count (dev : VartVirtioPciDevice) : Z :=
  match v_queues (vp_virtio dev) with
  | Some queues => Z.of_nat (length queues)
  | None => 0
  end.

Definition update_virtio_pci (d : ptr) (f : VartVirtioPciDevice -> VartVirtioPciDevice)
    : M World unit :=
  let* dev := load_virtio_pci d in store_virtio_pci d (f dev).

(** [device->queue_state[i]] *)
Definition load_queue_state (d : ptr) (i : Z) : M World VartVirtioPciQueueState :=
  let* dev := load_virtio_pci d in
  let* states := deref (vp_queue_state dev) in
  deref (states !! Z.to_nat i).
Definition store_queue_state (d : ptr) (i : Z) (v : VartVirtioPciQueueState) : M World unit :=
  update_virtio_pci d (fun dev => dev <| vp_queue_state ::= fmap (<[Z.to_nat i := v]>) |>).

Definition virtio_pci_store_le32 (value : Z) : list Z :=
  [u8 value; u8 (Z.shiftr value 8); u8 (Z.shiftr value 16); u8 (Z.shiftr value 24)].
Definition virtio_pci_load16 (value : Z) : Z := u16 value.
Definition virtio_pci_load32 (value : Z) : Z := u32 value.

(** A 64-bit register written one half at a time. *)
Definition set_low_half (x value : Z) : Z :=
  Z.lor (Z.land x 0xffffffff00000000) (virtio_pci_load32 value).
Definition set_high_half (x value : Z) : Z :=
  Z.lor (Z.land x 0xffffffff) (Z.shiftl (virtio_pci_load32 value) 32).

Section Transport.
Context `{VirtioDma World} `{VirtioPciCallbacks}.

(** The virtio core works on the embedded [virtio] member. *)
Definition with_virtio {A} (d : ptr) (m : M (VirtioState World) A) : M World A :=
  let* dev := load_virtio_pci d in
  let* w := get in
  match m (mkState (vp_virtio dev) w) with
  | Ok (a, s) =>
      put (vs_env s) ;;;
      update_virtio_pci d (fun dev => dev <| vp_virtio := vs_device s |>) ;;;
      ret a
  | UB => undefined
  | NoFuel => out_of_fuel
  end.

Definition reset_state (queue : VartVirtioPciQueueState) : VartVirtioPciQueueState :=
  queue <| qs_size := 0 |> <| qs_msix_vector := VART_VIRTIO_PCI_NO_VECTOR |>
    <| qs_descriptor_address := 0 |> <| qs_available_address := 0 |>
    <| qs_used_address := 0 |>.
Definition virtio_pci_reset_queue_state (device : ptr) (queue_index : Z) : M World unit :=
  let* queue := load_queue_state device queue_index in
  store_queue_state device queue_index (reset_state queue).

(** The loop of a status write of 0, from [i] on. *)
Fixpoint reset_queue_states (n : nat) (device : ptr) (i : Z) : M World unit :=
  match n with
  | O => ret tt
  | S n => virtio_pci_reset_queue_state device i ;;; reset_queue_states n device (i + 1)
  end.

(** The six halves of the ring addresses. *)
Definition is_address_register (offset : Z) : bool :=
  (offset =? 0x20) || (offset =? 0x24) || (offset =? 0x28) || (offset =? 0x2c) ||
  (offset =? 0x30) || (offset =? 0x34).

Definition virtio_pci_read_common (device : ptr) (offset size : Z) : M World (Z * Z) :=
  let* dev := load_virtio_pci device in
  let v := vp_virtio dev in
  let select := vp_queue_select dev in
  if (size =? 4) && (offset =? 0x00) then ret (0, vp_device_feature_select dev)
  else if (size =? 4) && (offset =? 0x04) then
    ret (0, if vp_device_feature_select dev =? 0 then u32 (v_device_features v)
            else u32 (Z.shiftr (v_device_features v) 32))
  else if (size =? 4) && (offset =? 0x08) then ret (0, vp_driver_feature_select dev)
  else if (size =? 4) && (offset =? 0x0c) then
    ret (0, if vp_driver_feature_select dev =? 0 then u32 (v_driver_features v)
            else u32 (Z.shiftr (v_driver_features v) 32))
  else if (size =? 2) && (offset =? 0x10) then ret (0, vp_config_msix_vector dev)
  else if (size =? 2) && (offset =? 0x12) then ret (0, vp_queue_count dev)
  else if (size =? 1) && (offset =? 0x14) then ret (0, v_status v)
  else if (size =? 1) && (offset =? 0x15) then ret (0, vp_config_generation dev)
  else if (size =? 2) && (offset =? 0x16) then ret (0, select)
  else if (size =? 2) && (offset =? 0x18) then
    if vp_queue_count dev <=? select then ret (-EINVAL, 0)
    else
      let* queue := load_queue_state device select in
      ret (0, if negb (qs_size queue =? 0) then qs_size queue
              else VART_VIRTIO_MAX_QUEUE_SIZE)
  else if (size =? 2) && (offset =? 0x1a) then
    if vp_queue_count dev <=? select then ret (-EINVAL, 0)
    else
      let* queue := load_queue_state device select in ret (0, qs_msix_vector queue)
  else if (size =? 2) && (offset =? 0x1c) then
    if vp_queue_count dev <=? select then ret (-EINVAL, 0)
    else
      let* queues := deref (v_queues v) in
      let* q := deref (queues !! Z.to_nat select) in ret (0, Z.b2z (q_ready q))
  else if (size =? 2) && (offset =? 0x1e) then ret (0, select)
  else if (size =? 4) && is_address_register offset then
    if vp_queue_count dev <=? select then ret (-EINVAL, 0)
    else
      let* queue := load_queue_state device select in
      if (offset =? 0x20) || (offset =? 0x24) then
        ret (0, u32 (Z.shiftr (qs_descriptor_address queue) (if offset =? 0x20 then 0 else 32)))
      else if (offset =? 0x28) || (offset =? 0x2c) then
        ret (0, u32 (Z.shiftr (qs_available_address queue) (if offset =? 0x28 then 0 else 32)))
      else
        ret (0, u32 (Z.shiftr (qs_used_address queue) (if offset =? 0x30 then 0 else 32)))
  else ret (-EINVAL, 0).

(** A half of a ring address, written. *)
Definition set_ring_address (offset value : Z) (queue : VartVirtioPciQueueState)
    : VartVirtioPciQueueState :=
  if (offset =? 0x20) || (offset =? 0x24) then
    queue <| qs_descriptor_address ::= (fun x =>
      if offset =? 0x20 then set_low_half x value else set_high_half x value) |>
  else if (offset =? 0x28) || (offset =? 0x2c) then
    queue <| qs_available_address ::= (fun x =>
      if offset =? 0x28 then set_low_half x value else set_high_half x value) |>
  else
    queue <| qs_used_address ::= (fun x =>
      if offset =? 0x30 then set_low_half x value else set_high_half x value) |>.

(** The queue-enable register. *)
Definition write_queue_enable (device : ptr) (value : Z) : M World Z :=
  let* dev := load_virtio_pci device in
  let select := vp_queue_select dev in
  if vp_queue_count dev <=? select then ret (-EINVAL)
  else
    let* queue := load_queue_state device select in
    if value =? 0 then
      let* err := with_virtio device (vart_virtio_queue_reset select) in
      if err <? 0 then ret err
      else virtio_pci_reset_queue_state device select ;;; ret 0
    else if negb (value =? 1) || (qs_size queue =? 0) then ret (-EINVAL)
    else with_virtio device (vart_virtio_queue_configure select (qs_size queue)
           (qs_descriptor_address queue) (qs_available_address queue)
           (qs_used_address queue)).

Definition virtio_pci_write_common (device : ptr) (offset size value : Z) : M World Z :=
  let* dev := load_virtio_pci device in
  let select := vp_queue_select dev in
  if (size =? 4) && (offset =? 0x00) then
    update_virtio_pci device (fun dev =>
      dev <| vp_device_feature_select := virtio_pci_load32 value |>) ;;; ret 0
  else if (size =? 4) && (offset =? 0x08) then
    update_virtio_pci device (fun dev =>
      dev <| vp_driver_feature_select := virtio_pci_load32 value |>) ;;; ret 0
  else if (size =? 4) && (offset =? 0x0c) then
    let driver_features := v_driver_features (vp_virtio dev) in
    let driver_features := if vp_driver_feature_select dev =? 0
                           then set_low_half driver_features value
                           else set_high_half driver_features value in
    with_virtio device (vart_virtio_device_set_features driver_features)
  else if (size =? 2) && (offset =? 0x10) then
    update_virtio_pci device (fun dev =>
      dev <| vp_config_msix_vector := virtio_pci_load16 value |>) ;;; ret 0
  else if (size =? 2) && (offset =? 0x1a) then
    if vp_queue_count dev <=? select then ret (-EINVAL)
    else
      let* queue := load_queue_state device select in
      store_queue_state device select
        (queue <| qs_msix_vector := virtio_pci_load16 value |>) ;;; ret 0
  else if (size =? 1) && (offset =? 0x14) then
    let* err := with_virtio device (vart_virtio_device_set_status (u8 value)) in
    if err <? 0 then ret err
    else
      (if value =? 0 then
         let* dev := load_virtio_pci device in
         reset_queue_states (Z.to_nat (vp_queue_count dev)) device 0
       else ret tt) ;;; ret 0
  else if (size =? 2) && (offset =? 0x16) then
    if vp_queue_count dev <=? value then ret (-EINVAL)
    else update_virtio_pci device (fun dev =>
           dev <| vp_queue_select := virtio_pci_load16 value |>) ;;; ret 0
  else if (size =? 2) && (offset =? 0x18) then
    if (vp_queue_count dev <=? select) || (value =? 0) ||
       (VART_VIRTIO_MAX_QUEUE_SIZE <? value) || negb (Z.land value (value - 1) =? 0)
    then ret (-EINVAL)
    else
      let* queue := load_queue_state device select in
      store_queue_state device select
        (queue <| qs_size := virtio_pci_load16 value |>) ;;; ret 0
  else if (size =? 2) && (offset =? 0x1c) then write_queue_enable device value
  else if (size =? 4) && is_address_register offset then
    if vp_queue_count dev <=? select then ret (-EINVAL)
    else
      let* queue := load_queue_state device select in
      store_queue_state device select (set_ring_address offset value queue) ;;; ret 0
  else ret (-EINVAL).

(** [opaque] is the device; [value] is what [*value] holds before. *)
Definition virtio_pci_bar_read (device : ptr) (offset size value : Z) : M World (Z * Z) :=
  if offset <? VART_VIRTIO_PCI_COMMON_OFFSET + VART_VIRTIO_PCI_COMMON_SIZE then
    virtio_pci_read_common device (offset - VART_VIRTIO_PCI_COMMON_OFFSET) size
  else if (VART_VIRTIO_PCI_ISR_OFFSET <=? offset) && (size =? 1) &&
          (offset <? VART_VIRTIO_PCI_ISR_OFFSET + 1) then
    let* dev := load_virtio_pci device in
    store_virtio_pci device (dev <| vp_isr_status := 0 |>) ;;;
    ret (0, vp_isr_status dev)
  else if (VART_VIRTIO_PCI_DEVICE_OFFSET <=? offset) &&
          (offset <? VART_VIRTIO_PCI_DEVICE_OFFSET + VART_VIRTIO_PCI_DEVICE_SIZE) then
    let relative := offset - VART_VIRTIO_PCI_DEVICE_OFFSET in
    if VART_VIRTIO_PCI_DEVICE_SIZE <? relative + size then ret (-EINVAL, value)
    else
      let* dev := load_virtio_pci device in
      match vcfg_read (vp_config_ops dev) with
      | None => ret (0, 0)
      | Some f => call_virtio_config_read f device relative size value
                    (vcfg_opaque (vp_config_ops dev))
      end
  else ret (-EINVAL, value).

Definition virtio_pci_bar_write (device : ptr) (offset size value : Z) : M World Z :=
  if offset <? VART_VIRTIO_PCI_COMMON_OFFSET + VART_VIRTIO_PCI_COMMON_SIZE then
    virtio_pci_write_common device (offset - VART_VIRTIO_PCI_COMMON_OFFSET) size value
  else
    let* dev := load_virtio_pci device in
    if (VART_VIRTIO_PCI_NOTIFY_OFFSET <=? offset) &&
       (offset <? VART_VIRTIO_PCI_NOTIFY_OFFSET +
                  vp_queue_count dev * VART_VIRTIO_PCI_NOTIFY_MULTIPLIER) then
      if negb (size =? 2) && negb (size =? 4) then ret (-EINVAL)
      else
        let relative := offset - VART_VIRTIO_PCI_NOTIFY_OFFSET in
        let queue_index := relative / VART_VIRTIO_PCI_NOTIFY_MULTIPLIER in
        match vp_notify dev with
        | Some f =>
            if negb (relative mod VART_VIRTIO_PCI_NOTIFY_MULTIPLIER =? 0) then ret 0
            else call_virtio_notify f device queue_index (vp_notify_opaque dev)
        | None => ret 0
        end
    else if (VART_VIRTIO_PCI_DEVICE_OFFSET <=? offset) &&
            (offset <? VART_VIRTIO_PCI_DEVICE_OFFSET + VART_VIRTIO_PCI_DEVICE_SIZE) then
      let relative := offset - VART_VIRTIO_PCI_DEVICE_OFFSET in
      if VART_VIRTIO_PCI_DEVICE_SIZE <? relative + size then ret (-EINVAL)
      else
        match vcfg_write (vp_config_ops dev) with
        | None => ret (-ENOSYS)
        | Some f => call_virtio_config_write f device relative size value
                      (vcfg_opaque (vp_config_ops dev))
        end
    else ret (-EINVAL).

Definition virtio_pci_bar_ops : VartMmioOps :=
  mkMmioOps (Some fn_virtio_pci_bar_read) (Some fn_virtio_pci_bar_write).

(** * Life cycle *)

(** The bytes of [body] and their number. *)
Definition capability_body (type offset length multiplier : Z) : list Z * Z :=
  let body_size := if multiplier =? 0 then VIRTIO_PCI_CAP_HEADER_SIZE - 2
                   else VIRTIO_PCI_NOTIFY_CAP_SIZE - 2 in
  ([u8 (body_size + 2); type; 0; 0; 0; 0] ++ virtio_pci_store_le32 offset ++
   virtio_pci_store_le32 length ++
   (if multiplier =? 0 then [0; 0; 0; 0] else virtio_pci_store_le32 multiplier), body_size).

Definition virtio_pci_add_capability (device : ptr) (type offset length multiplier : Z)
    : M World Z :=
  let '(body, body_size) := capability_body type offset length multiplier in
  let* (err, _) := vart_pci_device_add_capability (Some device) VIRTIO_PCI_CAP_VENDOR
                     (Some body) body_size 0 in
  ret err.

(** The capabilities in their order, up to the first that is refused. *)
Fixpoint add_capabilities (device : ptr) (l : list (Z * Z * Z * Z)) : M World Z :=
  match l with
  | [] => ret 0
  | (type, offset, length, multiplier) :: l =>
      let* err := virtio_pci_add_capability device type offset length multiplier in
      if err <? 0 then ret err else add_capabilities device l
  end.

Definition virtio_capabilities (queue_count : Z) : list (Z * Z * Z * Z) :=
  [(VIRTIO_PCI_CAP_COMMON_CFG, 0, VART_VIRTIO_PCI_COMMON_SIZE, 0);
   (VIRTIO_PCI_CAP_NOTIFY_CFG, VART_VIRTIO_PCI_NOTIFY_OFFSET,
    u32 (queue_count * VART_VIRTIO_PCI_NOTIFY_MULTIPLIER),
    VART_VIRTIO_PCI_NOTIFY_MULTIPLIER);
   (VIRTIO_PCI_CAP_ISR_CFG, VART_VIRTIO_PCI_ISR_OFFSET, 1, 0);
   (VIRTIO_PCI_CAP_DEVICE_CFG, VART_VIRTIO_PCI_DEVICE_OFFSET,
    VART_VIRTIO_PCI_DEVICE_SIZE, 0)].

(** The PCI function around the device. *)
Definition init_function (device : ptr) (device_id queue_count : Z) : M World Z :=
  let* err := vart_pci_device_init (Some device) VART_VIRTIO_PCI_VENDOR_ID
                (u16 (0x1040 + device_id)) 0 0 0 0x02 in
  if err <? 0 then ret err
  else
    let* err := vart_pci_device_set_bar (Some device) 0 VART_VIRTIO_PCI_BAR_SIZE 0
                  (Some virtio_pci_bar_ops) (Some device) in
    if err <? 0 then ret err
    else add_capabilities device (virtio_capabilities queue_count).

Definition vart_virtio_pci_device_init (device : option ptr) (device_id device_features
    queue_count : Z) (dma : option VartVirtioDmaOps)
    (config_ops : option VartVirtioPciConfigOps) (notify : option fnptr)
    (notify_opaque : option ptr) : M World Z :=
  match device with
  | None => ret (-EINVAL)
  | Some d =>
      if (UINT16_MAX - 0x1040 <? device_id) || (queue_count =? 0) then ret (-EINVAL)
      else
        clear_pci_device d ;;;
        store_virtio_pci d zero_virtio_pci ;;;
        let* err := with_virtio d
          (vart_virtio_device_init device_id device_features queue_count dma) in
        if err <? 0 then ret err
        else
          let* allocated := allocate in
          if negb allocated then
            with_virtio d vart_virtio_device_destroy ;;; ret (-ENOMEM)
          else
            update_virtio_pci d (fun dev => dev
              <| vp_queue_state := Some (replicate (Z.to_nat queue_count)
                   (zero_queue_state <| qs_msix_vector := VART_VIRTIO_PCI_NO_VECTOR |>)) |>
              <| vp_config_msix_vector := VART_VIRTIO_PCI_NO_VECTOR |>
              <| vp_config_generation := 1 |> <| vp_notify := notify |>
              <| vp_notify_opaque := notify_opaque |>
              <| vp_config_ops ::= (fun old => default old config_ops) |>) ;;;
            let* err := init_function d device_id queue_count in
            if err <? 0 then
              update_virtio_pci d (fun dev => dev <| vp_queue_state := None |>) ;;;
              with_virtio d vart_virtio_device_destroy ;;; ret err
            else
              update_virtio_pci d (fun dev => dev <| vp_initialized := true |>) ;;; ret 0
  end.

Definition vart_virtio_pci_device_destroy (device : option ptr) : M World Z :=
  match device with
  | None => ret (-EINVAL)
  | Some d =>
      let* pci := load_device d in
      let* dev := load_virtio_pci d in
      if bool_decide (is_Some (dev_bus (pci_parent pci))) || dev_realized (pci_parent pci) ||
         vp_ioeventfd_enabled dev
      then ret (-EBUSY)
      else
        store_virtio_pci d (dev <| vp_queue_state := None |>) ;;;
        with_virtio d vart_virtio_device_destroy ;;;
        update_virtio_pci d (fun dev => dev <| vp_initialized := false |>) ;;;
        ret 0
  end.

Definition vart_virtio_pci_device_set_class_code (device : option ptr) (class_code : Z)
    : M World Z :=
  match device with
  | None => ret (-EINVAL)
  | Some d =>
      let* pci := load_device d in
      if bool_decide (is_Some (dev_bus (pci_parent pci))) || dev_realized (pci_parent pci)
      then ret (-EBUSY)
      else store_config d 0x0b 1 class_code ;;; ret 0
  end.

(** * Interrupts *)

Section Interrupts.
Context `{MsixCallbacks} `{IrqCallbacks}.

Definition virtio_pci_raise_vector (device : ptr) (vector : Z) : M World Z :=
  if vector =? VART_VIRTIO_PCI_NO_VECTOR then ret 0
  else
    let* msix := load_msix device in
    if negb (msix_configured msix) then ret 0
    else vart_pci_device_raise_msix (Some device) vector.

Definition vart_virtio_pci_raise_queue_interrupt (device : option ptr) (queue_index : Z)
    : M World Z :=
  match device with
  | None => ret (-EINVAL)
  | Some d =>
      let* dev := load_virtio_pci d in
      if negb (vp_initialized dev) || (vp_queue_count dev <=? queue_index)
      then ret (-EINVAL)
      else
        store_virtio_pci d (dev <| vp_isr_status ::= (fun s => Z.lor s 1) |>) ;;;
        let* queue := load_queue_state d queue_index in
        virtio_pci_raise_vector d (qs_msix_vector queue)
  end.

Definition vart_virtio_pci_raise_interrupt (device : option ptr)
    (configuration_change : bool) : M World Z :=
  match device with
  | None => ret (-EINVAL)
  | Some d =>
      let* dev := load_virtio_pci d in
      if negb (vp_initialized dev) then ret (-EINVAL)
      else
        store_virtio_pci d (dev <| vp_isr_status ::= (fun s =>
          Z.lor s (if configuration_change then 2 else 1)) |>) ;;;
        if configuration_change then
          virtio_pci_raise_vector d (vp_config_msix_vector dev)
        else
          let* queue := load_queue_state d 0 in
          virtio_pci_raise_vector d (qs_msix_vector queue)
  end.
End Interrupts.

(** The register's routines, for the address space that dispatches to them. *)
Definition virtio_mmio_callbacks : MmioCallbacks := {|
  call_mmio_read f opaque offset size value :=
    match f with
    | fn_virtio_pci_bar_read =>
        let* d := deref opaque in virtio_pci_bar_read d offset size value
    | _ => undefined
    end;
  call_mmio_write f opaque offset size value :=
    match f with
    | fn_virtio_pci_bar_write =>
        let* d := deref opaque in virtio_pci_bar_write d offset size value
    | _ => undefined
    end;
|}.
End Transport.

(** * What every guest access preserves *)

(** [m] reaches no undefined behaviour from [w], and [Q] holds of its result if
    it has one within its bound. *)
Definition safe {A} (m : M World A) (Q : A -> World -> Prop) (w : World) : Prop :=
  match m w with Ok (a, w') => Q a w' | UB => False | NoFuel => True end.

Lemma wp_safe {A} (m : M World A) Q w : wp m Q w -> safe m Q w.
Proof. unfold wp, safe. by destruct (m w) as [[]| |]. Qed.
Lemma safe_bind {A B} (m : M World A) (k : A -> M World B) Q w :
  safe m (fun a w' => safe (k a) Q w') w -> safe (bind m k) Q w.
Proof. unfold safe, bind. by destruct (m w) as [[]| |]. Qed.
Lemma safe_mono {A} (m : M World A) (Q R : A -> World -> Prop) w :
  safe m Q w -> (forall a w', Q a w' -> R a w') -> safe m R w.
Proof. unfold safe. destruct (m w) as [[]| |]; auto. Qed.

(** [n] queues that use [ops]. *)
Definition queues_use (ops : VartVirtioDmaOps) (n : nat) (v : VartVirtioDevice) : Prop :=
  exists queues, v_queues v = Some queues /\ length queues = n /\
    Forall (fun q => q_dma q = ops) queues.

(** The virtio member is well formed. *)
Record virtio_ok (ops : VartVirtioDmaOps) (n : nat) (v : VartVirtioDevice) : Prop := {
  vk_device : device_ok v;
  vk_queues : queues_use ops n v;
}.

(** The registers of a queue hold values of their width; a size is 0 or one that
    the queue can have. *)
Record queue_state_ok (st : VartVirtioPciQueueState) : Prop := {
  so_size : qs_size st = 0 \/ exists k, 0 <= k <= 10 /\ qs_size st = 2 ^ k;
  so_vector : 0 <= qs_msix_vector st <= UINT16_MAX;
  so_descriptor : u64_arg (qs_descriptor_address st);
  so_available : u64_arg (qs_available_address st);
  so_used : u64_arg (qs_used_address st);
}.

Record vp_ok (ops : VartVirtioDmaOps) (dev : VartVirtioPciDevice) : Prop := {
  vo_count : 1 <= vp_queue_count dev <= 256;
  vo_virtio : virtio_ok ops (Z.to_nat (vp_queue_count dev)) (vp_virtio dev);
  vo_states : exists states, vp_queue_state dev = Some states /\
    Z.of_nat (length states) = vp_queue_count dev /\ Forall queue_state_ok states;
  vo_select : 0 <= vp_queue_select dev < vp_queue_count dev;
  vo_vector : 0 <= vp_config_msix_vector dev <= UINT16_MAX;
  vo_isr : 0 <= vp_isr_status dev <= UINT8_MAX;
}.

Lemma virtio_ok_count ops n v dev :
  virtio_ok ops n v -> vp_queue_count (dev <| vp_virtio := v |>) = Z.of_nat n.
Proof. intros [_ (queues & Hq & Hn & _)]. unfold vp_queue_count. cbn. by rewrite Hq, Hn. Qed.

Lemma vp_ok_virtio ops dev v :
  vp_ok ops dev -> virtio_ok ops (Z.to_nat (vp_queue_count dev)) v ->
  vp_ok ops (dev <| vp_virtio := v |>).
Proof.
  intros [Hc Hv Hs Hsel Hvec Hisr] Hv'. pose proof (virtio_ok_count _ _ _ dev Hv') as Hcnt.
  rewrite Z2Nat.id in Hcnt by lia. split; rewrite ?Hcnt; done.
Qed.

(** ** The virtio core on the member *)

Section Core.
Context `{VirtioDma World}.
Implicit Types s : VirtioState World.

(** An operation that returns and works on the member only. *)
Definition pure_result (ops : VartVirtioDmaOps) (n : nat) (m : M (VirtioState World) Z) s : Prop :=
  exists err v', m s = Ok (err, mkState v' (vs_env s)) /\ virtio_ok ops n v'.

Lemma pure_intro ops n m s err v' :
  m s = Ok (err, mkState v' (vs_env s)) -> queues_use ops n v' ->
  (forall err s', m s = Ok (err, s') -> device_ok (vs_device s')) -> pure_result ops n m s.
Proof. intros Hrun Hq Hd. exists err, v'. split; [done|]. split; [by apply (Hd _ _ Hrun)|done]. Qed.

Lemma queues_use_with ops n v index q :
  queues_use ops n v -> q_dma q = ops -> queues_use ops n (with_queue v index q).
Proof.
  intros (queues & Hq & Hn & Hall) Hops. exists (<[Z.to_nat index := q]> queues).
  unfold with_queue. cbn. rewrite Hq, length_insert. split_and!; [done|done|].
  by apply Forall_insert.
Qed.

Lemma queues_use_dma ops n v index q : queues_use ops n v -> has_queue v index q -> q_dma q = ops.
Proof.
  intros (queues & Hq & _ & Hall) (queues' & Hq' & _ & Hl). simplify_eq.
  by apply (Forall_lookup_1 _ _ _ _ Hall Hl).
Qed.

Lemma set_features_result ops n f s :
  virtio_ok ops n (vs_device s) -> pure_result ops n (vart_virtio_device_set_features f) s.
Proof.
  intros [Hd Hq].
  assert (exists err v', vart_virtio_device_set_features f s = Ok (err, mkState v' (vs_env s)) /\
    queues_use ops n v') as (err & v' & Hrun & Hq').
  { unfold vart_virtio_device_set_features, load_virtio, store_virtio. run_unfold.
    destruct (negb _); [exists (-EINVAL), (vs_device s); split; [by destruct s|exact Hq]|].
    eexists _, _. split; [done|]. exact Hq. }
  eapply pure_intro; [done|done|]. intros err' s'. by apply set_features_device_ok.
Qed.

Lemma set_status_result ops n st s :
  virtio_ok ops n (vs_device s) -> pure_result ops n (vart_virtio_device_set_status st) s.
Proof.
  intros [Hd Hq].
  assert (exists err v', vart_virtio_device_set_status st s = Ok (err, mkState v' (vs_env s)) /\
    queues_use ops n v') as (err & v' & Hrun & Hq').
  { unfold vart_virtio_device_set_status, load_virtio, store_virtio. run_unfold.
    destruct (negb _); [exists (-EINVAL), (vs_device s); split; [by destruct s|exact Hq]|].
    eexists _, _. split; [done|]. destruct (st =? 0); [|exact Hq].
    destruct Hq as (queues & Hq & Hn & Hall). exists (map reset_queue_state queues).
    cbn. rewrite Hq, length_map. split_and!; [done|done|]. by apply Forall_map. }
  eapply pure_intro; [done|done|]. intros err' s'. by apply set_status_device_ok.
Qed.

Lemma has_queue_at v n ops index :
  queues_use ops n v -> 0 <= index < Z.of_nat n -> exists q, has_queue v index q.
Proof.
  intros (queues & Hq & Hn & _) Hi.
  destruct (lookup_lt_is_Some_2 queues (Z.to_nat index)) as [q Hl]; [lia|].
  exists q, queues. split_and!; [done|lia|lia|done].
Qed.

Lemma reset_result ops n index s :
  virtio_ok ops n (vs_device s) -> 0 <= index < Z.of_nat n ->
  pure_result ops n (vart_virtio_queue_reset index) s.
Proof.
  intros [Hd Hq] Hi. destruct (has_queue_at _ _ _ index Hq Hi) as [q Hhas].
  pose proof (queues_use_dma _ _ _ _ _ Hq Hhas) as Hdma.
  destruct Hhas as (queues & Hqs & Hin & Hl).
  eapply (pure_intro _ _ _ _ 0 (with_queue (vs_device s) index
    (q <| q_ready := false |> <| q_size := 0 |> <| q_last_avail := 0 |> <| q_next_used := 0 |>))).
  - unfold vart_virtio_queue_reset, store_queue, load_virtio, store_virtio. run_unfold.
    rewrite Hqs. destruct (Z.leb_spec (Z.of_nat (length queues)) index); [lia|]. by rewrite Hl.
  - by apply queues_use_with.
  - intros err' s'. by apply reset_device_ok.
Qed.

Lemma configure_result ops n index size da aa ua s :
  virtio_ok ops n (vs_device s) -> 0 <= index < Z.of_nat n -> 0 <= size ->
  u64_arg da -> u64_arg aa -> u64_arg ua ->
  pure_result ops n (vart_virtio_queue_configure index size da aa ua) s.
Proof.
  intros [Hd Hq] Hi Hsz Hda Haa Hua.
  assert (exists r, vart_virtio_queue_configure index size da aa ua s = Ok r) as [[err s'] Hrun].
  { destruct (has_queue_at _ _ _ index Hq Hi) as (q & queues & Hqs & Hin & Hl).
    unfold vart_virtio_queue_configure, store_queue, load_virtio, store_virtio. run_unfold.
    rewrite Hqs. destruct (_ || _); [by eexists|]. rewrite Hl. cbv beta iota.
    destruct (q_ready q); [by eexists|]. by destruct (_ || _); eexists. }
  destruct (configure_cases s index size da aa ua err s' ltac:(lia) Hsz Hda Haa Hua Hrun)
    as [[_ ->]|(-> & q & Hhas & Hr & Hok & ->)].
  - exists err, (vs_device s). split; [|by split]. by destruct s.
  - eexists _, _. split; [done|]. split.
    + apply with_queue_ok; [done|]. by split.
    + apply queues_use_with; [done|]. cbn. by eapply queues_use_dma.
Qed.
End Core.

(** The queue operations that reach guest memory. *)
Section CoreDma.
Context `{VirtioDma World} {ops : VartVirtioDmaOps} {I : World -> Prop}
  `{HD : !DmaTotal World ops I} (n : nat).
Implicit Types s : VirtioState World.

Lemma queues_use_index index s : virtio_ok ops n (vs_device s) -> queue_uses (vs_device s) index ops.
Proof. intros [_ Hq] q. by apply queues_use_dma with (n := n). Qed.

(** A chain as [vart_virtio_queue_pop] returns it. *)
Definition chain_ok (ch : VartVirtioChain) : Prop :=
  1 <= ch_count ch /\ ch_count ch = Z.of_nat (length (ch_descriptors ch)) /\
  Forall descriptor_ok (ch_descriptors ch).

Lemma pop_virtio_ok index c0 s :
  virtio_ok ops n (vs_device s) -> 0 <= index -> I (vs_env s) ->
  wp (vart_virtio_queue_pop pop_fuel index (Some c0))
    (fun '(err, chain) s' => virtio_ok ops n (vs_device s') /\ I (vs_env s') /\
       (err < 0 \/ err = 0 /\ exists ch, chain = Some ch /\ chain_ok ch)) s.
Proof using HD.
  intros Hv Hi HI. pose proof (queues_use_index index s Hv) as Hu. destruct Hv as [Hd Hq].
  pose proof (pop_total s index c0 Hd Hi Hu HI) as ([err chain] & s' & Hrun & Ho & HI')%wp_ok.
  unfold wp. rewrite Hrun. split_and!; [|done|].
  - split; [by eapply virtio_step_ok, step_pop|].
    destruct (pop_device _ _ _ _ _ _ _ Hi Hrun) as [->|(q & Hhas & ->)]; [done|].
    apply queues_use_with; [done|]. exact (Hu q Hhas).
  - destruct Ho as [[Herr _]|(-> & q & ch & _ & -> & _ & [Hc _] & Hct & _ & Hdk & _)]; [by left|].
    right. split; [done|]. by exists ch.
Qed.

Lemma push_virtio_ok index head len s :
  virtio_ok ops n (vs_device s) -> 0 <= index -> I (vs_env s) ->
  wp (vart_virtio_queue_push_used index head len)
    (fun _ s' => virtio_ok ops n (vs_device s') /\ I (vs_env s')) s.
Proof using HD.
  intros Hv Hi HI. pose proof (queues_use_index index s Hv) as Hu. destruct Hv as [Hd Hq].
  pose proof (push_used_total s index head len Hd Hi Hu HI) as (err & s' & Hrun & HI' & Ho)%wp_ok.
  unfold wp. rewrite Hrun. split; [|done]. split; [by eapply virtio_step_ok, step_push_used|].
  destruct Ho as [->|(q & Hhas & ->)]; [done|].
  apply queues_use_with; [done|]. exact (Hu q Hhas).
Qed.
End CoreDma.

(** The core on the member, where DMA changes the rest of the heap. *)
Lemma wp_with_virtio_env `{VirtioDma World} {A} d dev (m : M (VirtioState World) A) Q w :
  w_virtio_pcis w !! d = Some dev ->
  wp m (fun a s' => w_virtio_pcis (vs_env s') = w_virtio_pcis w /\
    Q a ((vs_env s') <| w_virtio_pcis ::= <[d := dev <| vp_virtio := vs_device s' |>]> |>))
    (mkState (vp_virtio dev) w) ->
  wp (with_virtio d m) Q w.
Proof.
  intros Hd (a & s' & Hm & Hw & HQ)%wp_ok. unfold with_virtio. wsteps. rewrite Hm.
  unfold update_virtio_pci. wsteps. assert (w_virtio_pcis (vs_env s') !! d = Some dev) by congruence.
  by wsteps.
Qed.

(** ** The interface to the device behind the transport *)

(** The callbacks that the device installed. *)
Definition vp_client (dev : VartVirtioPciDevice)
    : option fnptr * option ptr * VartVirtioPciConfigOps :=
  (vp_notify dev, vp_notify_opaque dev, vp_config_ops dev).

(** The transport [d] is well formed, has [n] queues, serves the client [c] and the rest of the
    heap satisfies what the client relies on. *)
Definition guest_state (d : ptr) (ops : VartVirtioDmaOps) (n : Z)
    (c : option fnptr * option ptr * VartVirtioPciConfigOps) (F : World -> Prop)
    (w : World) : Prop :=
  exists dev, w_virtio_pcis w !! d = Some dev /\ vp_ok ops dev /\ vp_queue_count dev = n /\
    vp_client dev = c /\ F w.

(** The sizes of an access that reaches a device. *)
Definition access_size (size : Z) : Prop := size = 1 \/ size = 2 \/ size = 4 \/ size = 8.

Class VirtioClient `{VirtioPciCallbacks} (d : ptr) (ops : VartVirtioDmaOps) (n : Z)
    (c : option fnptr * option ptr * VartVirtioPciConfigOps) (F : World -> Prop) : Prop := {
  client_frame w x : F w -> F (w <| w_virtio_pcis := x |>);
  client_config_read f offset size value w :
    vcfg_read (snd c) = Some f -> guest_state d ops n c F w -> access_size size ->
    0 <= offset -> offset + size <= 0x100 ->
    safe (call_virtio_config_read f d offset size value (vcfg_opaque (snd c)))
      (fun _ w' => guest_state d ops n c F w') w;
  client_config_write f offset size value w :
    vcfg_write (snd c) = Some f -> guest_state d ops n c F w -> access_size size ->
    0 <= offset -> offset + size <= 0x100 ->
    safe (call_virtio_config_write f d offset size value (vcfg_opaque (snd c)))
      (fun _ w' => guest_state d ops n c F w') w;
  client_notify f queue w :
    fst (fst c) = Some f -> guest_state d ops n c F w -> 0 <= queue < n ->
    safe (call_virtio_notify f d queue (snd (fst c)))
      (fun _ w' => guest_state d ops n c F w') w;
}.

(** Case analysis on the tests of a computation. *)
Ltac wp_ifs :=
  repeat match goal with |- wp (if ?b then _ else _) _ _ => destruct b eqn:? end.

(** Every queue has its register state. *)
Lemma wp_load_queue_state d ops dev i Q w :
  w_virtio_pcis w !! d = Some dev -> vp_ok ops dev -> 0 <= i < vp_queue_count dev ->
  (forall states st, vp_queue_state dev = Some states -> states !! Z.to_nat i = Some st ->
     queue_state_ok st -> Q st w) ->
  wp (load_queue_state d i) Q w.
Proof.
  intros Hd Hok Hi HQ. destruct (vo_states _ _ Hok) as (states & Hs & Hlen & Hall).
  destruct (lookup_lt_is_Some_2 states (Z.to_nat i)) as [st Hst]; [lia|].
  unfold load_queue_state. wsteps.
  apply (HQ states); [done|done|]. by apply (Forall_lookup_1 _ _ _ _ Hall Hst).
Qed.

Section GuestSafe.
Context `{VirtioDma World} `{VirtioPciCallbacks}.
Context (d : ptr) (ops : VartVirtioDmaOps) (n : Z)
  (c : option fnptr * option ptr * VartVirtioPciConfigOps) (F : World -> Prop)
  `{HC : !VirtioClient d ops n c F}.
Abbreviation ok := (guest_state d ops n c F).

(** ** Register updates *)

Lemma guest_update f w :
  ok w -> (forall dev, w_virtio_pcis w !! d = Some dev -> vp_ok ops dev ->
     vp_ok ops (f dev) /\ vp_queue_count (f dev) = vp_queue_count dev /\
     vp_client (f dev) = vp_client dev) ->
  wp (update_virtio_pci d f) (fun _ w' => ok w') w.
Proof using HC.
  intros (dev & Hd & Hok & Hn & Hc & HF) Hf. unfold update_virtio_pci. wsteps.
  destruct (Hf dev Hd Hok) as (Hok' & Hn' & Hc'). exists (f dev). cbn. rewrite lookup_insert_eq.
  split_and!; [done|done|congruence|congruence|]. by apply client_frame.
Qed.

Lemma guest_store_queue_state i st w :
  ok w -> queue_state_ok st -> wp (store_queue_state d i st) (fun _ w' => ok w') w.
Proof using HC.
  intros Hw Hst. apply guest_update; [done|]. intros dev _ [? ? (states & Hs & Hl & Ha) ? ? ?].
  split; [|done]. split; try done. exists (<[Z.to_nat i := st]> states). cbn. rewrite Hs.
  split_and!; [done|by rewrite length_insert|by apply Forall_insert].
Qed.

Lemma guest_with_virtio m w :
  ok w -> (forall dev, w_virtio_pcis w !! d = Some dev -> vp_ok ops dev ->
    pure_result ops (Z.to_nat (vp_queue_count dev)) m (mkState (vp_virtio dev) w)) ->
  wp (with_virtio d m) (fun _ w' => ok w') w.
Proof using HC.
  intros (dev & Hd & Hok & Hn & Hc & HF) Hm. unfold with_virtio. wsteps.
  destruct (Hm dev Hd Hok) as (err & v' & -> & Hv'). cbn [vs_env vs_device]. wsteps.
  eapply wp_mono; [apply guest_update|].
  - by exists dev.
  - intros dev' Hd' Hok'. simplify_eq. split_and!; [by apply vp_ok_virtio| |done].
    rewrite (virtio_ok_count _ _ _ _ Hv'). destruct Hok. lia.
  - intros u w' Hw'. by wsteps.
Qed.

Lemma guest_reset_queue_state i w :
  ok w -> 0 <= i < n -> wp (virtio_pci_reset_queue_state d i) (fun _ w' => ok w') w.
Proof using HC.
  intros Hw Hi. pose proof Hw as (dev & Hd & Hok & Hn & _). unfold virtio_pci_reset_queue_state.
  wstep. eapply wp_load_queue_state; [done|done|lia|]. intros states st _ _ [].
  apply guest_store_queue_state; [done|]. split; cbn; try lia; unfold u64_arg; lia.
Qed.

Lemma guest_reset_queue_states k : forall i w,
  ok w -> 0 <= i -> i + Z.of_nat k <= n ->
  wp (reset_queue_states k d i) (fun _ w' => ok w') w.
Proof using HC.
  induction k as [|k IH]; intros i w Hw Hi Hk; cbn [reset_queue_states]; [done|].
  wstep. eapply wp_mono; [apply guest_reset_queue_state; [done|lia]|].
  intros u w' Hw'. apply IH; [done|lia|lia].
Qed.

(** The state of the selected queue's registers can be read. *)
Lemma guest_load_selected dev Q w :
  w_virtio_pcis w !! d = Some dev -> vp_ok ops dev ->
  (forall st, queue_state_ok st -> Q st w) ->
  wp (load_queue_state d (vp_queue_select dev)) Q w.
Proof.
  intros Hd Hok HQ. eapply wp_load_queue_state; [done|done|apply Hok|]. intros states st _ _.
  apply HQ.
Qed.

Lemma guest_read_common offset size w :
  ok w -> wp (virtio_pci_read_common d offset size) (fun _ w' => ok w') w.
Proof using HC.
  intros Hw. pose proof Hw as (dev & Hd & Hok & Hn & _).
  destruct (vk_queues _ _ _ (vo_virtio _ _ Hok)) as (queues & Hq & Hl & _). pose proof Hok as [].
  destruct (lookup_lt_is_Some_2 queues (Z.to_nat (vp_queue_select dev))) as [q Hlk]; [lia|].
  unfold virtio_pci_read_common. wstep. wstep.
  cbv beta zeta. wp_ifs; try done; wstep;
    try (eapply guest_load_selected; [done|done|]; intros st Hst; wp_ifs; done).
  by wsteps.
Qed.

Lemma set_low_half_range x value : 0 <= x -> u64_arg (set_low_half x value).
Proof.
  intros Hx. unfold set_low_half, virtio_pci_load32.
  change 0xffffffff00000000 with (Z.shiftl (2 ^ 32 - 1) 32).
  assert (Z.land x (Z.shiftl (2 ^ 32 - 1) 32) = Z.shiftl ((x / 2 ^ 32) mod 2 ^ 32) 32) as ->.
  { rewrite <- land_low_mask, <- Z.shiftr_div_pow2 by lia. apply Z.bits_inj'. intros k Hk.
    rewrite Z.land_spec. destruct (Z.lt_ge_cases k 32).
    - by rewrite !Z.shiftl_spec_low, andb_false_r.
    - rewrite !Z.shiftl_spec, Z.land_spec, Z.shiftr_spec by lia. do 2 f_equal. lia. }
  rewrite Z.lor_comm, lor_shiftl_add by (try apply u32_range; mlia).
  unfold u64_arg. pose proof (u32_range value).
  pose proof (Z.mod_pos_bound (x / 2 ^ 32) (2 ^ 32) ltac:(lia)). lia.
Qed.

Lemma set_high_half_range x value : u64_arg (set_high_half x value).
Proof.
  unfold set_high_half, virtio_pci_load32. change 0xffffffff with (2 ^ 32 - 1).
  rewrite land_low_mask by lia.
  pose proof (Z.mod_pos_bound x (2 ^ 32) ltac:(lia)). pose proof (u32_range value).
  rewrite lor_shiftl_add by lia. unfold u64_arg. lia.
Qed.

Lemma set_ring_address_ok offset value st :
  queue_state_ok st -> queue_state_ok (set_ring_address offset value st).
Proof.
  intros [Hs Hv Hd Ha Hu]. unfold u64_arg in *.
  unfold set_ring_address. repeat (destruct (_ || _); [|]); cbn;
    (split; cbn; try done; destruct (_ =? _);
     by apply set_high_half_range || (by apply set_low_half_range; lia)).
Qed.

Lemma guest_write_queue_enable value w :
  ok w -> wp (write_queue_enable d value) (fun _ w' => ok w') w.
Proof using HC.
  intros Hw. pose proof Hw as (dev & Hd & Hok & Hn & _). pose proof (vo_select _ _ Hok) as Hsel.
  unfold write_queue_enable. wstep. wstep. cbv beta zeta.
  destruct (_ <=? _); [done|]. wstep. eapply guest_load_selected; [done|done|].
  intros st [Hs _ Ha1 Ha2 Ha3]. destruct (value =? 0).
  - wstep. eapply wp_mono; [apply guest_with_virtio; [done|]|].
    + intros dev' Hd' Hok'. simplify_eq. apply reset_result; [apply Hok'|].
      cbn [vs_device]. lia.
    + intros err w' Hw'. destruct (err <? 0); [done|]. wstep.
      eapply wp_mono; [apply guest_reset_queue_state; [done|lia]|]. intros u w2 Hw2. done.
  - destruct (_ || _); [done|]. apply guest_with_virtio; [done|].
    intros dev' Hd' Hok'. simplify_eq. apply configure_result; [apply Hok'|lia| |done|done|done].
    destruct Hs as [->|(k & Hk & ->)]; lia.
Qed.

(** What the registers of the guest are worth. *)
Lemma guest_write_common offset size value w :
  ok w -> 0 <= value <= UINT64_MAX ->
  wp (virtio_pci_write_common d offset size value) (fun _ w' => ok w') w.
Proof using HC.
  intros Hw Hval. pose proof Hw as (dev & Hd & Hok & Hn & _).
  pose proof (vo_count _ _ Hok) as Hcount.
  unfold virtio_pci_write_common. wstep. wstep. cbv beta zeta.
  destruct (_ && _). { wstep. eapply wp_mono; [apply guest_update; [done|]|done]. by intros ? _ []. }
  destruct (_ && _). { wstep. eapply wp_mono; [apply guest_update; [done|]|done]. by intros ? _ []. }
  destruct (_ && _).
  { apply guest_with_virtio; [done|]. intros dev' Hd' Hok'. apply set_features_result, Hok'. }
  destruct (_ && _).
  { wstep. eapply wp_mono; [apply guest_update; [done|]|done]. intros ? _ [].
    split; [|done]. split; try done. apply u16_range. }
  destruct (_ && _).
  { destruct (_ <=? _); [done|]. wstep. eapply guest_load_selected; [done|done|]. intros st [].
    wstep. eapply wp_mono; [apply guest_store_queue_state; [done|]|done].
    split; cbn; try done. apply u16_range. }
  destruct (_ && _).
  { wstep. eapply wp_mono; [apply guest_with_virtio; [done|]|].
    - intros dev' Hd' Hok'. apply set_status_result, Hok'.
    - intros err w' Hw'. destruct (err <? 0); [done|]. destruct (value =? 0); [|done].
      pose proof Hw' as (dev' & Hd' & Hok' & Hn' & _). pose proof (vo_count _ _ Hok'). wstep. wstep.
      wstep. eapply wp_mono; [apply guest_reset_queue_states; [done|lia|lia]|]. done. }
  destruct (_ && _).
  { destruct (Z.leb_spec (vp_queue_count dev) value); [done|]. wstep.
    eapply wp_mono; [apply guest_update; [done|]|done]. intros dev' Hd' []. simplify_eq.
    split; [|done]. split; try done. cbn. unfold virtio_pci_load16.
    change (vp_queue_count _) with (vp_queue_count dev). rewrite u16_small; lia. }
  destruct (_ && _).
  { destruct (_ || _) eqn:Hg; [done|]. rewrite !orb_false_iff, negb_false_iff in Hg.
    destruct Hg as [[[_ Hv0] Hv1] Hv2]. wstep. eapply guest_load_selected; [done|done|].
    intros st []. wstep. eapply wp_mono; [apply guest_store_queue_state; [done|]|done].
    split; cbn; try done. right. unfold virtio_pci_load16. rewrite u16_small by lia.
    apply power_of_two_bits; lia. }
  destruct (_ && _); [by apply guest_write_queue_enable|].
  destruct (_ && _); [|done]. destruct (_ <=? _); [done|].
  wstep. eapply guest_load_selected; [done|done|]. intros st Hst. wstep.
  eapply wp_mono; [apply guest_store_queue_state; [done|]|done]. by apply set_ring_address_ok.
Qed.

Lemma guest_bar_read offset size value w :
  ok w -> access_size size -> 0 <= offset ->
  safe (virtio_pci_bar_read d offset size value) (fun _ w' => ok w') w.
Proof using HC.
  intros Hw Hsz Ho. unfold virtio_pci_bar_read.
  destruct (_ <? _); [apply wp_safe; by apply guest_read_common|].
  pose proof Hw as (dev & Hd & Hok & Hn & Hc & HF). destruct (_ && _).
  { apply wp_safe. wsteps. exists (dev <| vp_isr_status := 0 |>). cbn.
    rewrite lookup_insert_eq. split_and!; try done; [|by apply client_frame].
    destruct Hok. by split. }
  destruct (_ && _) eqn:Hg; [|done]. apply andb_true_iff in Hg as [Hg1 Hg2].
  destruct (Z.ltb_spec 0x100 (offset - 0x300 + size)); [done|].
  apply safe_bind, wp_safe. wstep.
  unfold vp_client in Hc. destruct (vcfg_read _) as [f|] eqn:Hf; [|done].
  assert (snd c = vp_config_ops dev) as <- by (by subst c).
  apply client_config_read; [by subst c|done|done|lia|lia].
Qed.

Lemma guest_bar_write offset size value w :
  ok w -> access_size size -> 0 <= offset -> 0 <= value <= UINT64_MAX ->
  safe (virtio_pci_bar_write d offset size value) (fun _ w' => ok w') w.
Proof using HC.
  intros Hw Hsz Ho Hval. unfold virtio_pci_bar_write.
  destruct (Z.ltb_spec offset (0 + 0x100)); [apply wp_safe; by apply guest_write_common|].
  pose proof Hw as (dev & Hd & Hok & Hn & Hc & HF). pose proof (vo_count _ _ Hok) as Hcount.
  apply safe_bind, wp_safe. wstep. unfold vp_client in Hc. destruct (_ && _) eqn:Hg.
  { apply andb_true_iff in Hg as [Hg1 Hg2]. destruct (_ && _); [done|].
    destruct (vp_notify dev) as [f|] eqn:Hf; [|done]. destruct (negb _); [done|].
    assert (snd (fst c) = vp_notify_opaque dev) as <- by (by subst c).
    apply client_notify; [by subst c|done|]. Z.to_euclidean_division_equations. lia. }
  clear Hg. destruct (_ && _) eqn:Hg2; [|done]. apply andb_true_iff in Hg2 as [Hg1 Hg2].
  destruct (Z.ltb_spec 0x100 (offset - 0x300 + size)); [done|].
  destruct (vcfg_write _) as [f|] eqn:Hf; [|done].
  assert (snd c = vp_config_ops dev) as <- by (by subst c).
  apply client_config_write; [by subst c|done|done|lia|lia].
Qed.
End GuestSafe.

(** An access of the guest to the register space. *)
Inductive guest_access : Type :=
| guest_read (offset size : Z)
| guest_write (offset size value : Z).

Definition access_ok (a : guest_access) : Prop :=
  match a with
  | guest_read offset size => access_size size /\ 0 <= offset
  | guest_write offset size value =>
      access_size size /\ 0 <= offset /\ 0 <= value <= UINT64_MAX
  end.

Definition run_access `{VirtioDma World} `{VirtioPciCallbacks} (d : ptr) (a : guest_access)
    : M World unit :=
  match a with
  | guest_read offset size => virtio_pci_bar_read d offset size 0 ;;; ret tt
  | guest_write offset size value => virtio_pci_bar_write d offset size value ;;; ret tt
  end.

Fixpoint run_accesses `{VirtioDma World} `{VirtioPciCallbacks} (d : ptr)
    (l : list guest_access) : M World unit :=
  match l with
  | [] => ret tt
  | a :: l => run_access d a ;;; run_accesses d l
  end.

Lemma run_accesses_safe `{VirtioDma World} `{VirtioPciCallbacks} d ops n c F
    `{!VirtioClient d ops n c F} l w :
  guest_state d ops n c F w -> Forall access_ok l ->
  safe (run_accesses d l) (fun _ w' => guest_state d ops n c F w') w.
Proof.
  intros Hw Hl. revert w Hw. induction Hl as [|a l Ha _ IH]; intros w Hw; [done|].
  cbn [run_accesses]. apply safe_bind. eapply safe_mono; [|intros u w'; apply IH].
  destruct a as [offset size|offset size value]; cbn in Ha; apply safe_bind.
  - eapply safe_mono; [apply (guest_bar_read d ops n c F); tauto|done].
  - eapply safe_mono; [apply (guest_bar_write d ops n c F); tauto|done].
Qed.

(** C8. No sequence of register accesses by the guest breaks the virtio transport.
    Whatever offsets, access sizes (1, 2, 4 or 8) and values the guest uses, in whatever order, the
    transport reads and writes only inside its arrays, and afterwards still has its
    queues, a selected queue among them, ring addresses and sizes that a queue can
    have and driver features within those offered; provided the device behind it
    keeps the same contract in its notification and configuration callbacks. *)
Theorem virtio_pci_guest_safe `{VirtioDma World} `{VirtioPciCallbacks} d ops n c F
    `{!VirtioClient d ops n c F} l w :
  guest_state d ops n c F w -> Forall access_ok l ->
  safe (run_accesses d l) (fun _ w' => guest_state d ops n c F w') w.
Proof. by apply run_accesses_safe. Qed.

(** * A driver that follows the protocol *)

(** Decide the tests of a computation that are closed. *)
Ltac wp_closed_ifs :=
  repeat match goal with
    |- wp (if ?b then _ else _) _ _ =>
      let v := eval vm_compute in b in
      lazymatch v with
      | true => change b with true
      | false => change b with false
      end; cbv iota
    end.

(** The driver's accesses: the offered features, word by word; the accepted ones;
    the set-up of a queue.  A write that fails ends the sequence. *)
Definition driver_offered `{VirtioDma World} `{VirtioPciCallbacks} (d : ptr) : M World Z :=
  virtio_pci_bar_write d 0x00 4 0 ;;;
  let* (_, low) := virtio_pci_bar_read d 0x04 4 0 in
  virtio_pci_bar_write d 0x00 4 1 ;;;
  let* (_, high) := virtio_pci_bar_read d 0x04 4 0 in
  ret (low + 2 ^ 32 * high).

Fixpoint driver_writes `{VirtioDma World} `{VirtioPciCallbacks} (d : ptr)
    (l : list (Z * Z * Z)) : M World Z :=
  match l with
  | [] => ret 0
  | (offset, size, value) :: l =>
      let* err := virtio_pci_bar_write d offset size value in
      if err <? 0 then ret err else driver_writes d l
  end.

Definition accept_features (f : Z) : list (Z * Z * Z) :=
  [(0x08, 4, 0); (0x0c, 4, f mod 2 ^ 32); (0x08, 4, 1); (0x0c, 4, f / 2 ^ 32)].

Definition setup_queue (index size da aa ua : Z) : list (Z * Z * Z) :=
  [(0x16, 2, index); (0x18, 2, size);
   (0x20, 4, da mod 2 ^ 32); (0x24, 4, da / 2 ^ 32);
   (0x28, 4, aa mod 2 ^ 32); (0x2c, 4, aa / 2 ^ 32);
   (0x30, 4, ua mod 2 ^ 32); (0x34, 4, ua / 2 ^ 32); (0x1c, 2, 1)].

Lemma halves x a :
  0 <= x -> u64_arg a -> set_high_half (set_low_half x (a mod 2 ^ 32)) (a / 2 ^ 32) = a.
Proof.
  intros Hx Ha. unfold u64_arg in Ha.
  assert (set_low_half x (a mod 2 ^ 32) mod 2 ^ 32 = a mod 2 ^ 32) as Hlow.
  { unfold set_low_half, virtio_pci_load32. rewrite <- land_low_mask by lia.
    rewrite Z.land_lor_distr_l, <- Z.land_assoc.
    change (Z.land 0xffffffff00000000 (2 ^ 32 - 1)) with 0. rewrite Z.land_0_r, Z.lor_0_l.
    rewrite land_low_mask by lia. unfold u32. change 4294967296 with (2 ^ 32).
    by rewrite !Z.mod_mod by lia. }
  unfold set_high_half, virtio_pci_load32. change 0xffffffff with (2 ^ 32 - 1).
  rewrite land_low_mask, Hlow by lia.
  pose proof (Z.mod_pos_bound a (2 ^ 32) ltac:(lia)).
  rewrite lor_shiftl_add by lia. rewrite u32_small by (split; [apply Z.div_pos; lia|];
    assert (a / 2 ^ 32 < 2 ^ 32) by (apply Z.div_lt_upper_bound; lia); lia).
  pose proof (Z.div_mod a (2 ^ 32) ltac:(lia)). lia.
Qed.

Section Driver.
Context `{VirtioDma World} `{VirtioPciCallbacks}.

(** ** One register each *)

Lemma wp_update_virtio_pci d f dev Q w :
  w_virtio_pcis w !! d = Some dev ->
  Q tt (w <| w_virtio_pcis ::= <[d := f dev]> |>) -> wp (update_virtio_pci d f) Q w.
Proof. intros Hd HQ. unfold update_virtio_pci. by wsteps. Qed.

Lemma wp_with_virtio {A} d dev (m : M (VirtioState World) A) a v' Q w :
  w_virtio_pcis w !! d = Some dev ->
  m (mkState (vp_virtio dev) w) = Ok (a, mkState v' w) ->
  Q a (w <| w_virtio_pcis ::= <[d := dev <| vp_virtio := v' |>]> |>) ->
  wp (with_virtio d m) Q w.
Proof.
  intros Hd Hm HQ. unfold with_virtio. wsteps. rewrite Hm. cbn [vs_env vs_device]. wsteps.
  eapply wp_update_virtio_pci; [done|]. by wsteps.
Qed.

(** A write that changes only the transport's record. *)
Definition writes (d : ptr) (dev : VartVirtioPciDevice) (offset size value : Z)
    (dev' : VartVirtioPciDevice) : Prop :=
  forall w Q, w_virtio_pcis w !! d = Some dev ->
    Q 0 (w <| w_virtio_pcis ::= <[d := dev']> |>) ->
    wp (virtio_pci_bar_write d offset size value) Q w.

Lemma writes_wp d dev offset size value dev' Q w :
  writes d dev offset size value dev' -> w_virtio_pcis w !! d = Some dev ->
  (forall w', w_virtio_pcis w' !! d = Some dev' -> Q 0 w') ->
  wp (virtio_pci_bar_write d offset size value) Q w.
Proof. intros Hwr Hd HQ. apply (Hwr _ _ Hd), HQ. cbn. by rewrite lookup_insert_eq. Qed.

Lemma writes_run d dev offset size value dev' l Q w :
  w_virtio_pcis w !! d = Some dev -> writes d dev offset size value dev' ->
  (forall w', w_virtio_pcis w' !! d = Some dev' -> wp (driver_writes d l) Q w') ->
  wp (driver_writes d ((offset, size, value) :: l)) Q w.
Proof.
  intros Hd Hwr HQ. cbn [driver_writes]. wstep. by eapply writes_wp.
Qed.

Ltac open_write :=
  let w := fresh "w" in let Q := fresh "Q" in
  let Hw := fresh "Hw" in let HQ := fresh "HQ" in
  intros w Q Hw HQ; unfold virtio_pci_bar_write; wp_closed_ifs;
  unfold virtio_pci_write_common; wstep; wstep; cbv beta zeta; wp_closed_ifs.

Lemma write_device_feature_select d dev v :
  writes d dev 0x00 4 v (dev <| vp_device_feature_select := u32 v |>).
Proof. open_write. wstep. eapply wp_update_virtio_pci; [done|]. by wsteps. Qed.

Lemma write_driver_feature_select d dev v :
  writes d dev 0x08 4 v (dev <| vp_driver_feature_select := u32 v |>).
Proof. open_write. wstep. eapply wp_update_virtio_pci; [done|]. by wsteps. Qed.

Lemma write_queue_select d dev i :
  0 <= i < vp_queue_count dev -> i <= UINT16_MAX ->
  writes d dev 0x16 2 i (dev <| vp_queue_select := i |>).
Proof.
  intros Hi Hmax. open_write. destruct (Z.leb_spec (vp_queue_count dev) i); [lia|]. wstep.
  eapply wp_update_virtio_pci; [done|]. wsteps.
  unfold virtio_pci_load16. by rewrite u16_small by lia.
Qed.

(** The record with another register state for the selected queue. *)
Definition with_state (dev : VartVirtioPciDevice) (st : VartVirtioPciQueueState)
    : VartVirtioPciDevice :=
  dev <| vp_queue_state ::= fmap (<[Z.to_nat (vp_queue_select dev) := st]>) |>.

(** The selected queue has the register state [st]. *)
Record selected (dev : VartVirtioPciDevice) (st : VartVirtioPciQueueState) : Prop := {
  sel_range : 0 <= vp_queue_select dev < vp_queue_count dev;
  sel_state : exists states, vp_queue_state dev = Some states /\
    states !! Z.to_nat (vp_queue_select dev) = Some st;
}.

Lemma selected_with dev st st' : selected dev st -> selected (with_state dev st') st'.
Proof.
  intros [Hr (states & Hs & Hl)]. split; [done|].
  exists (<[Z.to_nat (vp_queue_select dev) := st']> states). unfold with_state. cbn. rewrite Hs.
  split; [done|]. apply list_lookup_insert_eq. by apply lookup_lt_Some in Hl.
Qed.

Lemma with_state_twice dev st st' : with_state (with_state dev st) st' = with_state dev st'.
Proof.
  unfold with_state, update. cbn. destruct (vp_queue_state dev) as [l|]; [|done]. cbn.
  by rewrite list_insert_insert_eq.
Qed.

Lemma wp_load_selected d dev st Q w :
  w_virtio_pcis w !! d = Some dev -> selected dev st -> Q st w ->
  wp (load_queue_state d (vp_queue_select dev)) Q w.
Proof. intros Hd [_ (states & Hs & Hl)] HQ. unfold load_queue_state. by wsteps. Qed.

Lemma write_queue_size d dev st k :
  selected dev st -> 0 <= k <= 10 ->
  writes d dev 0x18 2 (2 ^ k) (with_state dev (st <| qs_size := 2 ^ k |>)).
Proof.
  intros Hsel Hk. open_write. pose proof (sel_range _ _ Hsel).
  assert (0 < 2 ^ k <= 2 ^ 10) by (split; [lia|apply Z.pow_le_mono_r; lia]).
  destruct (Z.leb_spec (vp_queue_count dev) (vp_queue_select dev)); [lia|].
  destruct (Z.eqb_spec (2 ^ k) 0); [lia|]. destruct (Z.ltb_spec 1024 (2 ^ k)); [lia|].
  rewrite land_low_mask, Z.mod_same by lia. cbn [negb orb Z.eqb].
  wstep. eapply wp_load_selected; [done|done|]. wstep. unfold store_queue_state.
  eapply wp_update_virtio_pci; [done|]. wsteps.
  unfold virtio_pci_load16. by rewrite u16_small by lia.
Qed.

Lemma write_ring_address d dev st offset v :
  selected dev st -> is_address_register offset = true ->
  writes d dev offset 4 v (with_state dev (set_ring_address offset v st)).
Proof.
  intros Hsel Ho. pose proof (sel_range _ _ Hsel). unfold is_address_register in Ho.
  rewrite !orb_true_iff in Ho.
  destruct Ho as [[[[[Ho|Ho]|Ho]|Ho]|Ho]|Ho]; apply Z.eqb_eq in Ho; subst offset; open_write;
    (destruct (Z.leb_spec (vp_queue_count dev) (vp_queue_select dev)); [lia|]);
    wstep; (eapply wp_load_selected; [done|done|]); wstep; unfold store_queue_state;
    (eapply wp_update_virtio_pci; [done|]); by wsteps.
Qed.

Lemma write_features d dev v f :
  f = (if vp_driver_feature_select dev =? 0
       then set_low_half (v_driver_features (vp_virtio dev)) v
       else set_high_half (v_driver_features (vp_virtio dev)) v) ->
  Z.land f (u64 (Z.lnot (v_device_features (vp_virtio dev)))) = 0 ->
  writes d dev 0x0c 4 v
    (dev <| vp_virtio := (vp_virtio dev) <| v_driver_features := f |> |>).
Proof.
  intros Hf Hsub. open_write. rewrite <- Hf. eapply wp_with_virtio; [done| |exact HQ].
  unfold vart_virtio_device_set_features, load_virtio, store_virtio. run_unfold. cbn [vs_device].
  rewrite Hsub. done.
Qed.

Lemma write_enable d dev st q k :
  selected dev st -> has_queue (vp_virtio dev) (vp_queue_select dev) q -> q_ready q = false ->
  qs_size st = 2 ^ k -> 0 <= k <= 10 ->
  let da := qs_descriptor_address st in
  let aa := qs_available_address st in
  let ua := qs_used_address st in
  u64_arg da -> u64_arg aa -> u64_arg ua ->
  da mod 16 = 0 -> da + 16 * 2 ^ k <= 2 ^ 64 -> aa mod 2 = 0 -> aa + 4 + 2 * 2 ^ k <= 2 ^ 64 ->
  ua mod 4 = 0 -> ua + 4 + 8 * 2 ^ k <= 2 ^ 64 ->
  writes d dev 0x1c 2 1 (dev <| vp_virtio := with_queue (vp_virtio dev) (vp_queue_select dev)
    (q <| q_size := 2 ^ k |> <| q_last_avail := 0 |> <| q_next_used := 0 |>
       <| q_descriptor_address := da |> <| q_available_address := aa |>
       <| q_used_address := ua |> <| q_ready := true |>) |>).
Proof.
  intros Hsel Hhas Hrdy Hsz Hk da aa ua Rd Ra Ru Hd Hd' Ha Ha' Hu Hu'. open_write.
  unfold write_queue_enable. wstep. wstep. cbv beta zeta. pose proof (sel_range _ _ Hsel).
  destruct (Z.leb_spec (vp_queue_count dev) (vp_queue_select dev)); [lia|].
  wstep. eapply wp_load_selected; [done|done|]. wp_closed_ifs. rewrite Hsz.
  assert (0 < 2 ^ k) by lia. destruct (Z.eqb_spec (2 ^ k) 0); [lia|]. cbn [negb orb Z.eqb Pos.eqb].
  eapply wp_with_virtio; [done| |exact HQ].
  by apply (configure_run (mkState (vp_virtio dev) w) _ q).
Qed.

Ltac open_read :=
  unfold virtio_pci_bar_read; wp_closed_ifs; unfold virtio_pci_read_common;
  wstep; wstep; cbv beta zeta; wp_closed_ifs.

Lemma driver_offered_spec d dev Q w :
  w_virtio_pcis w !! d = Some dev -> u64_arg (v_device_features (vp_virtio dev)) ->
  (forall w', w_virtio_pcis w' !! d = Some (dev <| vp_device_feature_select := 1 |>) ->
    Q (v_device_features (vp_virtio dev)) w') ->
  wp (driver_offered d) Q w.
Proof.
  intros Hd Hf HQ. unfold driver_offered. unfold u64_arg in Hf.
  wstep. eapply writes_wp; [apply write_device_feature_select|done|]. intros w1 H1.
  wstep. open_read. wstep. wstep.
  eapply writes_wp; [apply write_device_feature_select|done|]. intros w2 H2.
  wstep. open_read. wsteps. set (o := v_device_features (vp_virtio dev)) in *.
  assert (u32 o + 2 ^ 32 * u32 (Z.shiftr o 32) = o) as Hsum.
  { rewrite Z.shiftr_div_pow2 by lia. unfold u32. change 4294967296 with (2 ^ 32).
    rewrite (Z.mod_small (_ / _))
      by (split; [apply Z.div_pos; lia|apply Z.div_lt_upper_bound; lia]).
    pose proof (Z.div_mod o (2 ^ 32) ltac:(lia)). lia. }
  change (Q (u32 o + 2 ^ 32 * u32 (Z.shiftr o 32)) w2). rewrite Hsum. by apply HQ.
Qed.

(** The high word is still that of [x] after the low word was accepted. *)
Lemma low_word_offered x f o :
  Z.land x (u64 (Z.lnot o)) = 0 -> Z.land f (u64 (Z.lnot o)) = 0 ->
  Z.land (set_low_half x (f mod 2 ^ 32)) (u64 (Z.lnot o)) = 0.
Proof.
  intros Hx Hf. unfold set_low_half, virtio_pci_load32.
  pose proof (Z.mod_pos_bound f (2 ^ 32) ltac:(lia)). rewrite u32_small by lia.
  rewrite Z.land_lor_distr_l, <- land_low_mask by lia.
  rewrite <- (Z.land_assoc x), (Z.land_comm 0xffffffff00000000), Z.land_assoc, Hx, Z.land_0_l.
  by rewrite <- Z.land_assoc, (Z.land_comm (2 ^ 32 - 1)), Z.land_assoc, Hf, Z.land_0_l.
Qed.

Lemma accept_features_run d dev f l Q w :
  w_virtio_pcis w !! d = Some dev -> u64_arg f -> 0 <= v_driver_features (vp_virtio dev) ->
  Z.land (v_driver_features (vp_virtio dev)) (u64 (Z.lnot (v_device_features (vp_virtio dev)))) = 0 ->
  Z.land f (u64 (Z.lnot (v_device_features (vp_virtio dev)))) = 0 ->
  (forall w', w_virtio_pcis w' !! d = Some (dev <| vp_driver_feature_select := 1 |>
     <| vp_virtio := (vp_virtio dev) <| v_driver_features := f |> |>) ->
     wp (driver_writes d l) Q w') ->
  wp (driver_writes d (accept_features f ++ l)) Q w.
Proof.
  intros Hd Hf Hx0 Hx Hsub HQ. unfold accept_features. cbn [app].
  eapply writes_run; [exact Hd|apply write_driver_feature_select|]. intros w1 H1.
  eapply writes_run; [exact H1|by apply write_features; [reflexivity|apply low_word_offered]|].
  intros w2 H2. eapply writes_run; [exact H2|apply write_driver_feature_select|]. intros w3 H3.
  eapply writes_run; [exact H3| |].
  - apply (write_features _ _ _ f); [|done]. symmetry. by apply halves.
  - intros w4 H4. by apply HQ.
Qed.

Lemma setup_queue_run d dev ops i q k da aa ua Q w :
  w_virtio_pcis w !! d = Some dev -> vp_ok ops dev ->
  has_queue (vp_virtio dev) i q -> q_ready q = false -> 0 <= k <= 10 ->
  u64_arg da -> u64_arg aa -> u64_arg ua ->
  da mod 16 = 0 -> da + 16 * 2 ^ k <= 2 ^ 64 -> aa mod 2 = 0 -> aa + 4 + 2 * 2 ^ k <= 2 ^ 64 ->
  ua mod 4 = 0 -> ua + 4 + 8 * 2 ^ k <= 2 ^ 64 ->
  (forall dev' w', w_virtio_pcis w' !! d = Some dev' ->
     vp_virtio dev' = with_queue (vp_virtio dev) i
       (q <| q_size := 2 ^ k |> <| q_last_avail := 0 |> <| q_next_used := 0 |>
          <| q_descriptor_address := da |> <| q_available_address := aa |>
          <| q_used_address := ua |> <| q_ready := true |>) -> Q 0 w') ->
  wp (driver_writes d (setup_queue i (2 ^ k) da aa ua)) Q w.
Proof.
  intros Hd Hok Hhas Hrdy Hk Rd Ra Ru Hda Hda' Haa Haa' Hua Hua' HQ. unfold setup_queue.
  assert (0 <= i < vp_queue_count dev) as Hi.
  { unfold vp_queue_count. destruct Hhas as (queues & -> & ? & _). done. }
  destruct (vo_states _ _ Hok) as (states & Hs & Hlen & Hall). pose proof (vo_count _ _ Hok) as Hcnt.
  destruct (lookup_lt_is_Some_2 states (Z.to_nat i)) as [st Hst]; [lia|].
  pose proof (Forall_lookup_1 _ _ _ _ Hall Hst) as [_ _ [Hd0 _] [Ha0 _] [Hu0 _]].
  eapply writes_run; [exact Hd|apply write_queue_select; lia|]. intros w1 H1.
  assert (selected (dev <| vp_queue_select := i |>) st) as Hsel by (split; [done|by exists states]).
  eapply writes_run; [exact H1|by apply (write_queue_size _ _ st)|]. intros w2 H2.
  apply (selected_with _ _ (st <| qs_size := 2 ^ k |>)) in Hsel.
  do 6 (eapply writes_run; [eassumption|apply write_ring_address; [eassumption|reflexivity]|];
    let w' := fresh "w" in let Hw := fresh "H" in intros w' Hw; rewrite with_state_twice in Hw;
    match type of Hw with _ = Some (with_state ?x ?s) => apply (selected_with _ _ s) in Hsel end;
    rewrite ?with_state_twice in Hsel).
  cbv [set_ring_address Z.eqb Pos.eqb orb] in *.
  eapply writes_run; [eassumption|eapply (write_enable _ _ _ q k); [exact Hsel|..]|].
  all: cbn -[set_low_half set_high_half Z.add Z.mul Z.pow Z.modulo]; rewrite ?halves by done; try done.
  intros w9 H9. cbn [driver_writes]. apply wp_ret. eapply HQ; [exact H9|done].
Qed.
End Driver.

(** A driver that follows the virtio protocol gets the device it asked for.
    Reading the two feature words gives the features the device offers; writing any
    subset of them word by word and then setting up an idle queue (select it, write
    its size, a power of two up to 1024, the halves of its three aligned ring
    addresses, and enable it) succeeds at every step, and leaves exactly those
    features negotiated, the queue ready with that size and those addresses and both
    indices at zero, and every other queue as it was. *)
Theorem virtio_driver_setup `{VirtioDma World} `{VirtioPciCallbacks} d ops dev f i q k
    da aa ua w :
  w_virtio_pcis w !! d = Some dev -> vp_ok ops dev ->
  u64_arg (v_device_features (vp_virtio dev)) -> 0 <= v_driver_features (vp_virtio dev) ->
  u64_arg f -> Z.land f (u64 (Z.lnot (v_device_features (vp_virtio dev)))) = 0 ->
  has_queue (vp_virtio dev) i q -> q_ready q = false -> 0 <= k <= 10 ->
  u64_arg da -> u64_arg aa -> u64_arg ua ->
  da mod 16 = 0 -> da + 16 * 2 ^ k <= 2 ^ 64 -> aa mod 2 = 0 -> aa + 4 + 2 * 2 ^ k <= 2 ^ 64 ->
  ua mod 4 = 0 -> ua + 4 + 8 * 2 ^ k <= 2 ^ 64 ->
  exists w' dev' q',
    (let* offered := driver_offered d in
     let* err := driver_writes d (accept_features f ++ setup_queue i (2 ^ k) da aa ua) in
     ret (offered, err)) w = Ok ((v_device_features (vp_virtio dev), 0), w') /\
    w_virtio_pcis w' !! d = Some dev' /\
    v_driver_features (vp_virtio dev') = f /\ has_queue (vp_virtio dev') i q' /\
    q' = q <| q_size := 2 ^ k |> <| q_last_avail := 0 |> <| q_next_used := 0 |>
           <| q_descriptor_address := da |> <| q_available_address := aa |>
           <| q_used_address := ua |> <| q_ready := true |> /\
    (forall j qj, j <> i -> has_queue (vp_virtio dev) j qj -> has_queue (vp_virtio dev') j qj).
Proof.
  intros Hd Hok Ho Hx Hf Hsub Hhas Hrdy Hk Rd Ra Ru Hda Hda' Haa Haa' Hua Hua'.
  set (q' := q <| q_size := 2 ^ k |> <| q_last_avail := 0 |> <| q_next_used := 0 |>
    <| q_descriptor_address := da |> <| q_available_address := aa |>
    <| q_used_address := ua |> <| q_ready := true |>).
  assert (wp (let* offered := driver_offered d in
     let* err := driver_writes d (accept_features f ++ setup_queue i (2 ^ k) da aa ua) in
     ret (offered, err)) (fun r w' => r = (v_device_features (vp_virtio dev), 0) /\
       exists dev', w_virtio_pcis w' !! d = Some dev' /\
         vp_virtio dev' = with_queue ((vp_virtio dev) <| v_driver_features := f |>) i q') w) as Hwp.
  { pose proof (vk_device _ _ _ (vo_virtio _ _ Hok)) as [Hdf _].
    wstep. eapply driver_offered_spec; [done|done|]. intros w1 H1. wstep.
    eapply accept_features_run; [exact H1|done|done|done|done|]. intros w2 H2.
    eapply setup_queue_run; [exact H2| |exact Hhas|done|done|done|done|done|..]; try done.
    - destruct Hok as [? [Hvd Hvq] ? ? ? ?]. split; try done. split; [|done].
      destruct Hvd as [_ Hvd]. by split.
    - intros dev' w' Hd' Hv'. wsteps. split; [done|]. exists dev'. by split. }
  apply wp_ok in Hwp as (r & w' & Hrun & -> & dev' & Hd' & Hv').
  exists w', dev', q'. destruct Hhas as (queues & Hq & Hi & Hl). split_and!; try done.
  - by rewrite Hv'.
  - exists (<[Z.to_nat i := q']> queues). rewrite Hv'. unfold with_queue. cbn. rewrite Hq.
    rewrite length_insert. split_and!; [done|lia|lia|].
    apply list_lookup_insert_eq. by apply lookup_lt_Some in Hl.
  - intros j qj Hj (queues' & Hq' & Hji & Hjl). simplify_eq.
    exists (<[Z.to_nat i := q']> queues). rewrite Hv'. unfold with_queue. cbn. rewrite Hq.
    rewrite length_insert. split_and!; [done|lia|lia|]. rewrite list_lookup_insert_ne by lia. done.
Qed.

(** A transport as its initialisation leaves it. *)
Lemma initial_vp_ok ops n dev :
  1 <= Z.of_nat n <= 256 ->
  v_queues (vp_virtio dev) = Some (replicate n (zero_queue <| q_dma := ops |>)) ->
  vp_queue_state dev =
    Some (replicate n (zero_queue_state <| qs_msix_vector := VART_VIRTIO_PCI_NO_VECTOR |>)) ->
  v_driver_features (vp_virtio dev) = 0 -> vp_queue_select dev = 0 ->
  vp_config_msix_vector dev = VART_VIRTIO_PCI_NO_VECTOR -> vp_isr_status dev = 0 -> vp_ok ops dev.
Proof.
  intros Hn Hq Hs Hf Hsel Hv Hi.
  assert (vp_queue_count dev = Z.of_nat n) as Hc
    by (unfold vp_queue_count; by rewrite Hq, length_replicate).
  split; rewrite ?Hc, ?Hsel, ?Hv, ?Hi; try lia.
  - rewrite Nat2Z.id. split; [split|].
    + rewrite Hf. apply Z.land_0_l.
    + rewrite Hq. intros queues [= <-]. rewrite length_replicate. split; [|lia].
      by apply Forall_replicate.
    + eexists. split; [exact Hq|]. rewrite length_replicate. split; [done|].
      by apply Forall_replicate.
  - eexists. split; [exact Hs|]. rewrite length_replicate. split; [done|].
    apply Forall_replicate. split; cbn; unfold u64_arg; lia.
Qed.

(** * A concrete transport

    A device with two queues, whose notification returns at once; one queue is set
    up by the driver. *)
Module VirtioPciDemo.
Definition fn : ptr := 5%positive.
Definition ops : VartVirtioDmaOps :=
  mkDmaOps (Some (fn_external 1)) (Some (fn_external 2)) (Some fn).
Definition cfg : VartVirtioPciConfigOps :=
  mkVirtioConfigOps (Some (fn_external 3)) (Some (fn_external 4)) (Some fn).
#[export] Instance dma : VirtioDma World := {|
  call_calloc := allocate;
  call_dma_read _ _ _ buf := ret (0, buf);
  call_dma_write _ _ _ _ := ret 0;
|}.
#[export] Instance callbacks : VirtioPciCallbacks := {|
  call_virtio_config_read _ _ _ _ _ _ := ret (0, 7);
  call_virtio_config_write _ _ _ _ _ _ := ret (-EPERM);
  call_virtio_notify _ _ _ _ := ret 0;
|}.
Definition exec {A} (m : M World A) (w : World) : World :=
  match m w with Ok (_, w') => w' | _ => w end.
Definition t0 : World := empty_world
  <| w_devices := {[fn := zero_pci_device [10; 11; 12; 13; 14; 15]%positive 16%positive 17%positive]} |>
  <| w_virtio_pcis := {[fn := zero_virtio_pci]} |>.
Definition t1 : World := exec (vart_virtio_pci_device_init (Some fn) 2 0x130000020 2 (Some ops)
  (Some cfg) (Some (fn_external 5)) (Some fn)) t0.
Definition dev1 : VartVirtioPciDevice := default zero_virtio_pci (w_virtio_pcis t1 !! fn).
Definition client := (Some (fn_external 5), Some fn, cfg).

(** The driver's view: the device is there, with its identity and its first
    capability. *)
Example t1_visible :
  vp_initialized dev1 = true /\ vp_queue_count dev1 = 2 /\
  option_map (fun p => take 4 (pci_config_space p)) (w_devices t1 !! fn) =
    Some [0xf4; 0x1a; 0x42; 0x10] /\
  option_map (fun p => (take 14 (drop 0x40 (pci_config_space p)))) (w_devices t1 !! fn) =
    Some [9; 0x50; 16; 1; 0; 0; 0; 0; 0; 0; 0; 0; 0; 1].
Proof. vm_compute. done. Qed.

Lemma dev1_here : w_virtio_pcis t1 !! fn = Some dev1.
Proof. vm_compute. reflexivity. Qed.
Definition q1 : VartVirtioQueue := zero_queue <| q_dma := ops |>.
Lemma dev1_queues : v_queues (vp_virtio dev1) = Some [q1; q1].
Proof. vm_compute. reflexivity. Qed.
Lemma dev1_ok : vp_ok ops dev1.
Proof. apply (initial_vp_ok ops 2); [lia|vm_compute; reflexivity..]. Qed.

#[export] Instance demo_client : VirtioClient fn ops 2 client (fun _ => True).
Proof. by split. Qed.

(** Unknown registers, a notification, a queue index out of range, a reset. *)
Definition accesses : list guest_access :=
  [guest_read 0x18 2; guest_write 0x16 2 9; guest_write 0x1c 2 1; guest_write 0x100 2 0;
   guest_read 0x3f0 4; guest_write 0x14 1 0; guest_read 0x999 8].

Lemma virtio_pci_guest_safe_witness :
  safe (run_accesses fn accesses)
    (fun _ w' => guest_state fn ops 2 client (fun _ => True) w') t1.
Proof.
  apply (virtio_pci_guest_safe fn ops 2 client (fun _ => True)).
  - exists dev1. split_and!; [apply dev1_here|apply dev1_ok|vm_compute; reflexivity..|done].
  - repeat (apply Forall_cons; split; [unfold access_ok, access_size; lia|]). by apply Forall_nil.
Defined.

Lemma virtio_driver_setup_witness :
  exists w' dev' q',
    (let* offered := driver_offered fn in
     let* err := driver_writes fn
       (accept_features 0x100000020 ++ setup_queue 1 (2 ^ 8) 0x180001000 0x2000 0x3000) in
     ret (offered, err)) t1 = Ok ((0x130000020, 0), w') /\
    w_virtio_pcis w' !! fn = Some dev' /\
    v_driver_features (vp_virtio dev') = 0x100000020 /\ has_queue (vp_virtio dev') 1 q' /\
    q' = q1 <| q_size := 2 ^ 8 |> <| q_last_avail := 0 |> <| q_next_used := 0 |>
           <| q_descriptor_address := 0x180001000 |> <| q_available_address := 0x2000 |>
           <| q_used_address := 0x3000 |> <| q_ready := true |> /\
    (forall j qj, j <> 1 -> has_queue (vp_virtio dev1) j qj -> has_queue (vp_virtio dev') j qj).
Proof.
  apply (virtio_driver_setup fn ops dev1 0x100000020 1 q1 8 0x180001000 0x2000 0x3000 t1);
    [apply dev1_here|apply dev1_ok|..];
    try (unfold u64_arg; vm_compute; intuition congruence).
  exists [q1; q1]. split_and!; [apply dev1_queues|done|done|done].
Defined.
End VirtioPciDemo.
