(* ===== verification/GuestDma.v ===== *)
(** What a device model relies on of its PCI function.

    The virtio devices reach guest memory with [vart_pci_device_dma_read] and
    [vart_pci_device_dma_write] and interrupt the guest with
    [vart_pci_device_raise_msix].  [DmaPort] states what they rely on; a function
    whose DMA goes to an address space without a translator provides it. *)

From stdpp Require Import base tactics numbers list gmap.
From Stdlib Require Import ZArith Lia.
From S2P Require Import Prelude Bytes Machine AddressSpace Iommu Devices Msix Pci Virtio.
From S2P Require Import VirtioPci.

(** The tables that belong to the device models and the host's files... *)
Record same_models (w w' : World) : Prop := {
  sm_files : w_files w' = w_files w;
  sm_blks : w_blks w' = w_blks w;
  sm_nets : w_nets w' = w_nets w;
  sm_virtio : w_virtio_pcis w' = w_virtio_pcis w;
  sm_sources : w_sources w' = w_sources w;
  sm_loops : w_loops w' = w_loops w;
}.

(** ... and those of the machine behind them. *)
Record same_machine (w w' : World) : Prop := {
  sx_regions : w_regions w' = w_regions w;
  sx_spaces : w_spaces w' = w_spaces w;
  sx_host : w_host w' = w_host w;
  sx_contexts : w_contexts w' = w_contexts w;
  sx_devices : w_devices w' = w_devices w;
  sx_irqs : w_irqs w' = w_irqs w;
  sx_iommus : w_iommus w' = w_iommus w;
  sx_buses : w_buses w' = w_buses w;
}.

#[export] Instance same_models_preorder : PreOrder same_models.
Proof.
  split; [by split|]. intros w1 w2 w3 [] []. split; congruence.
Qed.
#[export] Instance same_machine_preorder : PreOrder same_machine.
Proof.
  split; [by split|]. intros w1 w2 w3 [] []. split; congruence.
Qed.

(** From the states that satisfy [I], DMA and interrupts of the function [d]
    return, leave the device models alone and keep [I], which depends on the
    machine only. *)
Class DmaPort `{TranslateCallbacks} `{MsixCallbacks} `{IrqCallbacks} (fuel : nat) (d : ptr)
    (I : World -> Prop) : Prop := {
  port_machine w w' : same_machine w w' -> I w -> I w';
  port_device w : I w -> is_Some (w_devices w !! d);
  port_read w a buf : I w -> u64_arg a -> buffer_ok buf ->
    exists err data w',
      vart_pci_device_dma_read fuel (Some d) a (Some buf) (Z.of_nat (length buf)) w =
        Ok ((err, Some data), w') /\
      length data = length buf /\ Forall byte_ok data /\ I w' /\ same_models w w';
  port_write w a data : I w -> u64_arg a -> buffer_ok data ->
    exists err w',
      vart_pci_device_dma_write fuel (Some d) a (Some data) (Z.of_nat (length data)) w =
        Ok (err, w') /\ I w' /\ same_models w w';
  port_raise w v : I w -> 0 <= v ->
    exists err w', vart_pci_device_raise_msix (Some d) v w = Ok (err, w') /\ I w' /\
      same_models w w';
}.

(** ** The device's DMA functions *)

Section DeviceDma.
Context `{TranslateCallbacks} `{MsixCallbacks} `{IrqCallbacks} (fuel : nat) (d : ptr)
  (I : World -> Prop) `{HP : !DmaPort fuel d I}.

(** The body that the DMA functions of the devices share. *)
Definition device_read (opaque : option ptr) (address : Z) (data : list Z)
    : M World (Z * list Z) :=
  let* d := deref opaque in
  let* (err, data) := vart_pci_device_dma_read fuel (Some d) address (Some data)
                        (Z.of_nat (length data)) in
  let* data := deref data in
  ret (err, data).
Definition device_write (opaque : option ptr) (address : Z) (data : list Z) : M World Z :=
  let* d := deref opaque in
  vart_pci_device_dma_write fuel (Some d) address (Some data) (Z.of_nat (length data)).

Lemma wp_device_read a buf Q w :
  I w -> u64_arg a -> buffer_ok buf ->
  (forall err data w', length data = length buf -> Forall byte_ok data -> I w' ->
     same_models w w' -> Q (err, data) w') ->
  wp (device_read (Some d) a buf) Q w.
Proof using HP.
  intros HI Ha Hb HQ. unfold device_read. wstep. eapply wp_deref; [done|]. wstep.
  destruct (port_read w a buf HI Ha Hb) as (err & data & w' & Hrun & Hl & Hby & HI' & Hs).
  unfold wp at 1. rewrite Hrun. wstep. eapply wp_deref; [done|]. wsteps. by apply HQ.
Qed.

Lemma wp_device_write a data Q w :
  I w -> u64_arg a -> buffer_ok data ->
  (forall err w', I w' -> same_models w w' -> Q err w') ->
  wp (device_write (Some d) a data) Q w.
Proof using HP.
  intros HI Ha Hb HQ. unfold device_write. wstep. eapply wp_deref; [done|].
  destruct (port_write w a data HI Ha Hb) as (err & w' & Hrun & HI' & Hs).
  unfold wp. rewrite Hrun. by apply HQ.
Qed.

Lemma wp_device_allocate Q w :
  I w -> (forall b w', I w' -> same_models w w' -> Q b w') -> wp allocate Q w.
Proof using HP.
  intros Hw HQ. apply wp_allocate; [intros b rest _|intros _; by apply HQ].
  apply HQ; [|by split]. eapply port_machine; [|exact Hw]. by split.
Qed.

(** Functions with that body are what a queue relies on. *)
Lemma device_dma_total `{VirtioDma World} ops w0 :
  dma_opaque ops = Some d ->
  (forall f, dma_read ops = Some f -> call_dma_read f = device_read) ->
  (forall f, dma_write ops = Some f -> call_dma_write f = device_write) ->
  DmaTotal World ops (fun e => I e /\ same_models w0 e).
Proof using HP.
  intros Ho Hr Hw. split.
  - intros f a buf e Hf Ha Hb [HI Hs]. rewrite (Hr f Hf), Ho.
    assert (wp (device_read (Some d) a buf) (fun '(_, data) e' =>
      length data = length buf /\ Forall byte_ok data /\ I e' /\ same_models w0 e') e)
      as ([err data] & e' & Hrun & Hq)%wp_ok.
    { apply wp_device_read; [done|done|done|]. intros err data e' Hl Hby HI' Hs'.
      split_and!; [done|done|done|]. by etransitivity. }
    by exists err, data, e'.
  - intros f a data e Hf Ha Hb [HI Hs]. rewrite (Hw f Hf), Ho.
    assert (wp (device_write (Some d) a data) (fun _ e' =>
      I e' /\ same_models w0 e') e) as (err & e' & Hrun & Hq)%wp_ok.
    { apply wp_device_write; [done|done|done|]. intros err e' HI' Hs'. split; [done|]. by etransitivity. }
    by exists err, e'.
Qed.
End DeviceDma.

(** * A function in front of plain memory *)

(** No vector has a route, and there is no injector: a message that is not masked
    stays pending. *)
Record plain_msix (m : VartPciMsix) : Prop := {
  pm_ok : msix_configured m = true -> msix_ok m;
  pm_routes : Forall (eq None) (msix_irq_routes m);
  pm_inject : msix_inject m = None;
}.

Record plain_port (d a : ptr) (w : World) : Prop := {
  pp_spaces : spaces_ok w;
  pp_backed : ram_backed w;
  pp_bytes : bytes_mem (w_host w);
  pp_plain : plain_space w a;
  pp_device : exists dev, w_devices w !! d = Some dev /\
    dev_dma_as (pci_parent dev) = Some a /\ plain_msix (pci_msix dev);
}.

Section Plain.
Context `{TranslateCallbacks} `{MsixCallbacks} `{IrqCallbacks} (d a : ptr).

Lemma plain_port_machine w w' : same_machine w w' -> plain_port d a w -> plain_port d a w'.
Proof.
  intros [Hr Hs Hh _ Hd _ _ _] [Hsp Hb Hby (s & Hpl & Ht) Hdev]. split.
  - eapply spaces_ok_ext; [| |exact Hsp]; done.
  - intros r v h. rewrite Hr, Hh. apply Hb.
  - by rewrite Hh.
  - exists s. by rewrite Hs.
  - by rewrite Hd.
Qed.

(** Host memory changes and nothing else. *)
Lemma plain_port_host w host data h' :
  plain_port d a w -> mem_write (w_host w) host data = Some h' -> Forall byte_ok data ->
  plain_port d a (w <| w_host := h' |>).
Proof.
  intros [Hsp Hb Hby Hpl Hdev] Hm Hd.
  destruct (store_host_ok w a host data h' Hm Hsp Hb) as (Hsp' & Hb' & _).
  split; try done. by eapply mem_write_bytes.
Qed.

(** The checks before a transfer: a refusal, or the space of the function. *)
Lemma wp_validate w id dev Q :
  w_devices w !! d = Some dev -> dev_dma_as (pci_parent dev) = Some a ->
  Q (-EPERM) w -> Q 0 w -> wp (pci_dma_validate (Some d) id) Q w.
Proof.
  intros Hd Has He H0'. unfold pci_dma_validate. wsteps. destruct (_ || _); [done|].
  by rewrite Has, bool_decide_false.
Qed.

Lemma plain_dma_read fuel w x buf :
  plain_port d a w -> u64_arg x -> buffer_ok buf ->
  wp (vart_pci_device_dma_read (S fuel) (Some d) x (Some buf) (Z.of_nat (length buf)))
    (fun '(_, r) w' => w' = w /\
       exists data, r = Some data /\ length data = length buf /\ Forall byte_ok data) w.
Proof.
  intros Hp Hx [Hb Hl]. pose proof Hp as [Hsp Hbk Hby (s & Hs & Ht) (dev & Hd & Has & _)].
  unfold vart_pci_device_dma_read, vart_pci_device_dma_read_with_requester_id,
    vart_pci_device_requester_id. wsteps. eapply wp_validate; [done|done|apply (wp_ret (-EPERM, Some buf)); by eauto|].
  change (0 <? 0) with false. cbv iota. wstep. eapply wp_deref; [done|]. wsteps.
  unfold vart_address_space_read_buffer.
  destruct (decide (length buf = 0%nat)) as [H0'|H0'].
  { destruct buf; [|done]. unfold wp. cbn. split; [done|]. by exists []. }
  eapply wp_mono; [apply (plain_access w a s); try done; lia|].
  intros [err b] w' [(-> & host & _ & bytes & Hrd & -> & ->)
    |[(-> & _ & -> & ->)|(-> & -> & -> & _)]]; (split; [done|]); [|by eauto|by eauto].
  rewrite Nat2Z.id in Hrd |- *. pose proof (mem_read_length _ _ _ _ Hrd) as Hlen.
  eexists. split; [done|]. rewrite drop_all, app_nil_r. split; [done|].
  by eapply mem_read_bytes.
Qed.

Lemma plain_dma_write fuel w x data :
  plain_port d a w -> u64_arg x -> buffer_ok data ->
  wp (vart_pci_device_dma_write (S fuel) (Some d) x (Some data) (Z.of_nat (length data)))
    (fun _ w' => plain_port d a w' /\ same_models w w') w.
Proof.
  intros Hp Hx [Hb Hl]. pose proof Hp as [Hsp Hbk Hby (s & Hs & Ht) (dev & Hd & Has & _)].
  unfold vart_pci_device_dma_write, vart_pci_device_dma_write_with_requester_id,
    vart_pci_device_requester_id. wsteps. eapply wp_validate; [done|done|by apply (wp_ret (-EPERM))|].
  change (0 <? 0) with false. cbv iota. wstep. eapply wp_deref; [done|]. wsteps.
  unfold vart_address_space_write_buffer. wstep.
  destruct (decide (length data = 0%nat)) as [H0'|H0'].
  { destruct data; [|done]. unfold wp. by cbn. }
  eapply wp_mono; [apply (plain_access w a s); try done; lia|].
  intros [err b] w' [(-> & host & _ & h' & Hm & -> & ->)
    |[(-> & _ & -> & ->)|(-> & -> & -> & _)]]; wsteps; [|done|done].
  split; [|done]. rewrite Nat2Z.id, firstn_all in Hm. by eapply plain_port_host.
Qed.

(** A function's MSI-X state with another pending array. *)
Lemma plain_port_msix w dev m' :
  plain_port d a w -> w_devices w !! d = Some dev -> plain_msix m' ->
  plain_port d a (w <| w_devices ::= <[d := dev <| pci_msix := m' |>]> |>).
Proof.
  intros [Hsp Hb Hby Hpl (dev' & Hd' & Has & _)] Hd Hm. simplify_eq. split; try done.
  - eapply spaces_ok_ext; [| |exact Hsp]; done.
  - eexists. cbn. rewrite lookup_insert_eq. by split_and!.
Qed.

(** The state after the pending bit of [v] was set. *)
Lemma plain_pending m v b :
  plain_msix m -> msix_configured m = true -> 0 <= v < msix_vector_count m ->
  msix_pba m !! Z.to_nat (v / 8) = Some b ->
  plain_msix (m <| msix_pba ::= <[Z.to_nat (v / 8) :=
    Z.lor b (u8 (Z.shiftl 1 (v mod 8)))]> |>).
Proof.
  intros [Hok Hroutes Hinj] Hc Hv Hb. specialize (Hok Hc).
  pose proof (Z.mod_pos_bound v 8 ltac:(lia)) as Hmod.
  assert (byte_ok b) as Hbyte by (eapply Forall_lookup_1; [apply (mo_bytes _ Hok)|done]).
  destruct (pending_update _ Hok v Hv (set_bit b (v mod 8)) true b Hb) as [Hok' _]; [| |by split].
  - by apply (set_bit_spec b (v mod 8) 0); [| |lia].
  - intros j Hj. rewrite (proj2 (set_bit_spec b (v mod 8) j Hbyte Hmod Hj)).
    destruct (j =? v mod 8); [by rewrite orb_true_r|by rewrite orb_false_r].
Qed.

(** Without a route a message that is not masked is refused. *)
Lemma plain_deliver w dev v :
  w_devices w !! d = Some dev -> plain_msix (pci_msix dev) ->
  msix_configured (pci_msix dev) = true -> 0 <= v < msix_vector_count (pci_msix dev) ->
  wp (pci_msix_deliver d v) (fun _ w' => w' = w) w.
Proof.
  intros Hd [Hok Hroutes Hinj] Hc Hv. specialize (Hok Hc).
  unfold pci_msix_deliver, load_msix. wsteps. destruct (_ || _); [done|].
  wstep. unfold wp at 1. rewrite (vector_control_eq w _ v Hok Hv). destruct (bits _ _); [done|].
  destruct (lookup_lt_is_Some_2 (msix_irq_routes (pci_msix dev)) (Z.to_nat v)) as [route Hr].
  { pose proof (mo_routes _ Hok). lia. }
  pose proof (Forall_lookup_1 _ _ _ _ Hroutes Hr) as <-. wsteps. unfold msix_send.
  rewrite Hinj. by wsteps.
Qed.

Lemma plain_raise w v :
  plain_port d a w -> 0 <= v ->
  wp (vart_pci_device_raise_msix (Some d) v)
    (fun _ w' => plain_port d a w' /\ same_models w w') w.
Proof.
  intros Hp Hv. pose proof Hp as [_ _ _ _ (dev & Hd & Has & Hpm)].
  unfold vart_pci_device_raise_msix, load_msix. wsteps. destruct (_ || _) eqn:Hg; [done|].
  rewrite orb_false_iff, negb_false_iff in Hg. destruct Hg as [Hc Hlt].
  assert (0 <= v < msix_vector_count (pci_msix dev)) as Hr by lia.
  pose proof (pm_ok _ Hpm Hc) as Hok. destruct (pba_lookup _ Hok v Hr) as (b & Hb & Hbyte). wsteps.
  pose proof (plain_pending _ v b Hpm Hc Hr Hb) as Hpm'. unfold store_msix. wsteps.
  match goal with |- wp _ _ ?w' => set (w1 := w') end.
  pose proof (plain_port_msix w dev _ Hp Hd Hpm') as Hp1.
  assert (plain_port d a w1 /\ same_models w w1) as Hq by done.
  destruct (_ || _); [by wsteps|]. wstep. unfold wp at 1.
  rewrite (vector_control_eq w1 _ v Hok Hr). wsteps. destruct (bits _ _); [by wsteps|].
  eapply wp_mono; [eapply (plain_deliver w1); [apply lookup_insert_eq|done|done|done]|].
  by intros err w' ->.
Qed.
End Plain.

#[export] Instance plain_dma_port `{TranslateCallbacks} `{MsixCallbacks} `{IrqCallbacks}
    fuel d a : DmaPort (S fuel) d (plain_port d a).
Proof.
  split.
  - apply plain_port_machine.
  - intros w [_ _ _ _ (dev & Hd & _)]. by exists dev.
  - intros w x buf Hp Hx Hb.
    pose proof (plain_dma_read d a fuel w x buf Hp Hx Hb)
      as ([err r] & w' & Hrun & -> & data & -> & Hl & Hby)%wp_ok. by exists err, data, w.
  - intros w x data Hp Hx Hb.
    pose proof (plain_dma_write d a fuel w x data Hp Hx Hb) as (err & w' & Hrun & Hp' & Hs)%wp_ok.
    by exists err, w'.
  - intros w v Hp Hv. pose proof (plain_raise d a w v Hp Hv) as (err & w' & Hrun & Hp' & Hs)%wp_ok.
    by exists err, w'.
Qed.

(** * A virtio device on a port *)

(** What the device model relies on, [F], contains what the port relies on, [I],
    and depends on the device models' tables only, the transport's excepted. *)
Class PortModel (I F : World -> Prop) : Prop := {
  model_port w : F w -> I w;
  model_frame w w' : F w -> I w' -> same_models w w' -> F w';
  model_virtio w x : F w -> F (w <| w_virtio_pcis := x |>);
}.

Section OnPort.
Context `{TranslateCallbacks} `{MsixCallbacks} `{IrqCallbacks} `{VirtioDma World}.
Context (fuel : nat) (d : ptr) (I : World -> Prop) `{HP : !DmaPort fuel d I}
  (ops : VartVirtioDmaOps) `{HD : forall w0, DmaTotal World ops (fun e => I e /\ same_models w0 e)}
  (n : Z) (c : option fnptr * option ptr * VartVirtioPciConfigOps) (F : World -> Prop)
  `{HM : !PortModel I F}.
Abbreviation ok := (guest_state d ops n c F).

Lemma port_state w w' : ok w -> I w' -> same_models w w' -> ok w'.
Proof using HM.
  intros (pdev & Hp & Hok & Hn & Hc & HF) HI Hs. exists pdev.
  rewrite (sm_virtio _ _ Hs). split_and!; try done. by eapply model_frame.
Qed.

Lemma port_state_virtio w w' pdev v :
  ok w -> w_virtio_pcis w !! d = Some pdev -> I w' -> same_models w w' ->
  virtio_ok ops (Z.to_nat n) v ->
  ok (w' <| w_virtio_pcis ::= <[d := pdev <| vp_virtio := v |>]> |>).
Proof using HM.
  intros (pdev' & Hp & Hok & Hn & Hc & HF) Hp' HI Hs Hv.
  assert (pdev' = pdev) as -> by congruence. subst n c.
  exists (pdev <| vp_virtio := v |>). cbn. rewrite lookup_insert_eq. split_and!; try done.
  - by apply vp_ok_virtio.
  - rewrite (virtio_ok_count _ _ _ _ Hv). destruct Hok. lia.
  - apply (model_virtio w'). by eapply model_frame.
Qed.

Lemma port_pop index c0 w :
  ok w -> 0 <= index ->
  wp (with_virtio d (vart_virtio_queue_pop pop_fuel index (Some c0)))
    (fun '(err, chain) w' => ok w' /\
       (err < 0 \/ err = 0 /\ exists ch, chain = Some ch /\ chain_ok ch)) w.
Proof using HD HM.
  intros Hw Hi. pose proof Hw as (pdev & Hp & Hok & Hn & Hc & HF).
  eapply wp_with_virtio_env; [done|]. eapply wp_mono.
  - apply (pop_virtio_ok (ops := ops) (I := fun e => I e /\ same_models w e) (Z.to_nat n));
      [subst n; apply Hok|done|]. split; [by apply model_port|done].
  - intros [err chain] s' (Hv & [HI Hs] & Hch). split; [apply Hs|]. split; [|done].
    by eapply port_state_virtio.
Qed.

Lemma port_push index head len w :
  ok w -> 0 <= index ->
  wp (with_virtio d (vart_virtio_queue_push_used index head len)) (fun _ w' => ok w') w.
Proof using HD HM.
  intros Hw Hi. pose proof Hw as (pdev & Hp & Hok & Hn & Hc & HF).
  eapply wp_with_virtio_env; [done|]. eapply wp_mono.
  - apply (push_virtio_ok (ops := ops) (I := fun e => I e /\ same_models w e) (Z.to_nat n));
      [subst n; apply Hok|done|]. split; [by apply model_port|done].
  - intros err s' (Hv & HI & Hs). split; [apply Hs|]. by eapply port_state_virtio.
Qed.

Lemma port_raise_vector v w :
  ok w -> 0 <= v -> wp (virtio_pci_raise_vector d v) (fun _ w' => ok w') w.
Proof using HP HM.
  intros Hw Hv. pose proof Hw as (pdev & Hp & Hok & Hn & Hc & HF).
  destruct (port_device w (model_port _ HF)) as [dev Hd].
  unfold virtio_pci_raise_vector, load_msix. destruct (_ =? _); [done|]. wsteps.
  destruct (negb _); [done|].
  destruct (port_raise w v (model_port _ HF) Hv) as (err & w' & Hrun & HI & Hs).
  unfold wp. rewrite Hrun. by eapply port_state.
Qed.

Lemma port_queue_interrupt index w :
  ok w -> 0 <= index ->
  wp (vart_virtio_pci_raise_queue_interrupt (Some d) index) (fun _ w' => ok w') w.
Proof using HP HM.
  intros Hw Hi. pose proof Hw as (pdev & Hp & Hok & Hn & Hc & HF).
  unfold vart_virtio_pci_raise_queue_interrupt. wsteps. destruct (_ || _) eqn:Hg; [done|].
  rewrite orb_false_iff in Hg. destruct Hg as [_ Hlt%Z.leb_gt]. wsteps.
  set (pdev' := pdev <| vp_isr_status ::= (fun s => Z.lor s 1) |>).
  assert (vp_ok ops pdev') as Hok'.
  { destruct Hok as [? ? ? ? ? [Hi0 Hi1]]. split; try done. unfold pdev'. cbn.
    split; [by apply Z.lor_nonneg|]. change UINT8_MAX with (2 ^ 8 - 1) in *.
    apply Z.lt_succ_r. change (Z.succ _) with (2 ^ 8).
    destruct (Z.eq_dec (vp_isr_status pdev) 0) as [->|Hne]; [done|].
    apply Z.log2_lt_pow2; [|rewrite Z.log2_lor by lia; apply Z.max_lub_lt; [|done];
      apply Z.log2_lt_pow2; lia].
    assert (0 <= Z.lor (vp_isr_status pdev) 1) by (by apply Z.lor_nonneg).
    assert (Z.lor (vp_isr_status pdev) 1 <> 0) by (intros [? _]%Z.lor_eq_0_iff; done). lia. }
  match goal with |- wp _ _ ?w1 => assert (ok w1) as Hw1 end.
  { exists pdev'. cbn. rewrite lookup_insert_eq. split_and!; try done. by apply (model_virtio w). }
  eapply wp_load_queue_state; [apply lookup_insert_eq|exact Hok'|split; [done|exact Hlt]|].
  intros states st _ _ [_ [Hv _] _ _ _]. by apply port_raise_vector.
Qed.
End OnPort.

(** * A concrete function

    Its DMA reaches 2 KiB of RAM; nothing answers its interrupts. *)
Module PortDemo.
Definition fn : ptr := 5%positive.
Definition sys : ptr := 1%positive.
Definition ram : ptr := 1%positive.
#[export] Instance no_translate : TranslateCallbacks :=
  fun _ _ _ _ _ _ => ret (-EINVAL, None, 0).
#[export] Instance no_msix : MsixCallbacks := {|
  call_msix_inject _ _ _ _ := undefined; call_msix_remap _ _ _ _ _ _ := undefined |}.
#[export] Instance no_irq : IrqCallbacks := fun _ _ _ _ => undefined.

Definition exec {A} (m : M World A) (w : World) : World :=
  match m w with Ok (_, w') => w' | _ => w end.
(** Bytes of guest memory, and a descriptor in it. *)
Definition poke (a : Z) (data : list Z) (h : gmap Z Z) : gmap Z Z :=
  default h (mem_write h (0x1000 + a) data).
Definition descriptor (a len flags next : Z) : list Z :=
  store_le 8 a ++ store_le 4 len ++ store_le 2 flags ++ store_le 2 next.
(** One space with one region of RAM, and regions that are in no space. *)
Definition ram_region : VartAddressRegion :=
  mkRegion 0 2048 (-1) VART_REGION_RAM true None (Some sys) None None (Some 0x1000).
Definition lone_ram (w : World) : Prop :=
  w_spaces w = {[sys := mkSpace [ram] 8 None None]} /\ w_regions w !! ram = Some ram_region /\
  map_Forall (fun r v => r = ram \/ r_address_space v = None /\ r_ram_addr v = None) (w_regions w).

Lemma lone_ram_spaces w : lone_ram w -> spaces_ok w.
Proof.
  intros (Hs & Hr & Hall). split.
  - intros a s. rewrite Hs. intros [<- <-]%lookup_singleton_Some. split; cbn.
    + apply NoDup_singleton.
    + intros r ->%list_elem_of_singleton. exists ram_region. split; [done|]. split; [|done]. by split.
    + intros r r' v v' ->%list_elem_of_singleton ->%list_elem_of_singleton. done.
    + lia.
    + vm_compute. congruence.
  - intros r v a Hv Ha. destruct (Hall r v Hv) as [->|[Hn _]]; [|congruence].
    rewrite Hr in Hv. simplify_eq. cbn in Ha. simplify_eq. eexists. rewrite Hs.
    split; [done|]. by apply list_elem_of_singleton.
Qed.

Lemma lone_ram_backed w :
  lone_ram w -> (forall x, 0x1000 <= x < 0x1800 -> is_Some (w_host w !! x)) -> ram_backed w.
Proof.
  intros (_ & Hr & Hall) Hm r v h Hv _ Hh x Hx. destruct (Hall r v Hv) as [->|[_ Hn]]; [|congruence].
  rewrite Hr in Hv. simplify_eq. cbn in *. simplify_eq. apply Hm. lia.
Qed.

Lemma poke_ram_bytes a data h : bytes_mem h -> Forall byte_ok data -> bytes_mem (poke a data h).
Proof.
  intros Hh Hd. unfold poke. destruct (mem_write _ _ _) as [h'|] eqn:Hm; [|done].
  by eapply mem_write_bytes.
Qed.
Lemma poke_ram_dom a data h x : is_Some (h !! x) -> is_Some (poke a data h !! x).
Proof.
  intros Hx. unfold poke. destruct (mem_write _ _ _) as [h'|] eqn:Hm; [|done].
  by eapply mem_write_dom.
Qed.

Lemma plain_msix_intro n m :
  1 <= Z.of_nat n <= 64 -> msix_vector_count m = Z.of_nat n ->
  length (msix_table m) = (16 * n)%nat -> msix_pba m = replicate 8 0 ->
  msix_irq_routes m = replicate n None -> msix_inject m = None -> plain_msix m.
Proof.
  intros Hb Hn Ht Hp Hr Hi. split; [|rewrite Hr; by apply Forall_replicate|done].
  intros _. split; unfold pba_size; rewrite ?Hn, ?Ht, ?Hp, ?Hr, ?length_replicate.
  - lia.
  - lia.
  - Z.to_euclidean_division_equations. lia.
  - by apply Forall_replicate.
  - done.
Qed.

Lemma lone_ram_port w dev :
  lone_ram w -> bytes_mem (w_host w) ->
  (forall x, 0x1000 <= x < 0x1800 -> is_Some (w_host w !! x)) ->
  w_devices w !! fn = Some dev -> dev_dma_as (pci_parent dev) = Some sys ->
  plain_msix (pci_msix dev) -> plain_port fn sys w.
Proof.
  intros Hl Hb Hm Hd Ha Hx. split.
  - by apply lone_ram_spaces.
  - by apply lone_ram_backed.
  - done.
  - exists (mkSpace [ram] 8 None None). split; [|done]. by rewrite (proj1 Hl).
  - by exists dev.
Qed.
End PortDemo.
