(* ===== verification/VirtioBlk.v ===== *)
(** The virtio block device: [src/hw/virtio/virtio-blk.c].

    A request is a descriptor chain: a header of 16 bytes (type and first sector),
    data segments, and a status byte that the device writes.  The device moves the
    data between guest memory, by DMA, and a regular file of the host, by [pread]
    and [pwrite], which may transfer less than they are asked to. *)

From stdpp Require Import base tactics numbers list gmap.
From Stdlib Require Import ZArith Lia.
From S2P Require Import Prelude Bytes Machine AddressSpace Iommu Devices Msix Pci Virtio.
From S2P Require Import VirtioPci GuestDma.

Abbreviation VIRTIO_F_VERSION_1 := 32 (only parsing).
Abbreviation VIRTIO_BLK_F_SIZE_MAX := 1 (only parsing).
Abbreviation VIRTIO_BLK_F_SEG_MAX := 2 (only parsing).
Abbreviation VIRTIO_BLK_F_RO := 5 (only parsing).
Abbreviation VIRTIO_BLK_F_BLK_SIZE := 6 (only parsing).
Abbreviation VIRTIO_BLK_F_FLUSH := 9 (only parsing).
Abbreviation VIRTIO_BLK_T_IN := 0 (only parsing).
Abbreviation VIRTIO_BLK_T_OUT := 1 (only parsing).
Abbreviation VIRTIO_BLK_T_FLUSH := 4 (only parsing).
Abbreviation VIRTIO_BLK_S_OK := 0 (only parsing).
Abbreviation VIRTIO_BLK_S_IOERR := 1 (only parsing).
Abbreviation VIRTIO_BLK_S_UNSUPP := 2 (only parsing).
Abbreviation VIRTIO_BLK_REQUEST_HEADER_SIZE := 16 (only parsing).
Abbreviation VART_VIRTIO_BLK_SECTOR_SIZE := 512 (only parsing).
Abbreviation VART_VIRTIO_BLK_MAX_SEGMENT := 1048576 (only parsing).

(** System calls on files.  A negative result is [-errno]; [sys_fstat] gives its
    result, whether the file is a regular one and its size. *)
Class BlockHost := {
  sys_open : list Z -> bool -> M World Z;
  sys_fstat : Z -> M World (Z * bool * Z);
  sys_pread : Z -> Z -> Z -> M World (Z * list Z);
  sys_pwrite : Z -> list Z -> Z -> M World Z;
  sys_fsync : Z -> M World Z;
  sys_close : Z -> M World unit;
}.

(** The conversion to [off_t]. *)
Definition s64 (x : Z) : Z := if x <? 2 ^ 63 then x else x - 2 ^ 64.

Definition zero_blk : VartVirtioBlkDevice := mkBlk 0 0 0 false false.

Section Blk.
Context `{TranslateCallbacks} `{MsixCallbacks} `{IrqCallbacks} `{BlockHost} (fuel : nat).

Definition virtio_blk_dma_read (opaque : option ptr) (address : Z) (data : list Z)
    : M World (Z * list Z) :=
  let* d := deref opaque in
  let* (err, data) := vart_pci_device_dma_read fuel (Some d) address (Some data)
                        (Z.of_nat (length data)) in
  let* data := deref data in
  ret (err, data).

Definition virtio_blk_dma_write (opaque : option ptr) (address : Z) (data : list Z)
    : M World Z :=
  let* d := deref opaque in
  vart_pci_device_dma_write fuel (Some d) address (Some data) (Z.of_nat (length data)).

(** The DMA functions that the device gives its queue. *)
#[local] Instance blk_dma : VirtioDma World := {|
  call_calloc := allocate;
  call_dma_read f opaque address data :=
    match f with
    | fn_virtio_blk_dma_read => virtio_blk_dma_read opaque address data
    | _ => undefined
    end;
  call_dma_write f opaque address data :=
    match f with
    | fn_virtio_blk_dma_write => virtio_blk_dma_write opaque address data
    | _ => undefined
    end;
|}.

Definition virtio_blk_load_le32 (data : list Z) : M World Z :=
  match data with
  | b0 :: b1 :: b2 :: b3 :: _ =>
      ret (Z.lor (Z.lor (Z.lor b0 (Z.shiftl b1 8)) (Z.shiftl b2 16)) (Z.shiftl b3 24))
  | _ => undefined
  end.
Definition virtio_blk_load_le64 (data : list Z) : M World Z :=
  if (8 <=? length data)%nat then ret (load_le (take 8 data)) else undefined.

Definition virtio_blk_config_read (pci : ptr) (offset size value : Z) (opaque : option ptr)
    : M World (Z * Z) :=
  let* d := deref opaque in
  let* device := load_blk d in
  if (offset =? 0) && (size =? 8) then ret (0, blk_capacity_sectors device)
  else if (size =? 4) && ((offset =? 0) || (offset =? 4)) then
    ret (0, u32 (Z.shiftr (blk_capacity_sectors device) (offset * 8)))
  else if (offset =? 8) && (size =? 4) then ret (0, VART_VIRTIO_BLK_MAX_SEGMENT)
  else if (offset =? 12) && (size =? 4) then ret (0, 128)
  else if (offset =? 20) && (size =? 4) then ret (0, blk_block_size device)
  else ret (-EINVAL, 0).

Definition virtio_blk_config_write (pci : ptr) (offset size value : Z) (opaque : option ptr)
    : M World Z := ret (-EPERM).

Definition virtio_blk_write_status (device : ptr) (status_desc : VartVirtioDescriptor)
    (status : Z) : M World Z :=
  virtio_blk_dma_write (Some device) (d_address status_desc) [status].

(** The value of [*offset], or [None] for false. *)
Definition virtio_blk_offset_valid (device : VartVirtioBlkDevice) (sector bytes : Z)
    : option Z :=
  if UINT64_MAX / VART_VIRTIO_BLK_SECTOR_SIZE <? sector then None
  else if UINT64_MAX / VART_VIRTIO_BLK_SECTOR_SIZE <? blk_capacity_sectors device then None
  else
    let byte_offset := u64 (sector * VART_VIRTIO_BLK_SECTOR_SIZE) in
    let capacity_bytes := u64 (blk_capacity_sectors device * VART_VIRTIO_BLK_SECTOR_SIZE) in
    if (UINT64_MAX - bytes <? byte_offset) || (capacity_bytes <? byte_offset + bytes)
    then None
    else
      let converted := s64 byte_offset in
      if negb (u64 converted =? byte_offset) then None else Some converted.

(** The descriptors between the header and the status. *)
Definition data_segments (chain : VartVirtioChain) : list VartVirtioDescriptor :=
  take (Z.to_nat (ch_count chain - 2)) (drop 1 (ch_descriptors chain)).

(** The first loop: the sum of the lengths, or [None] for a segment refused. *)
Fixpoint check_segments (to_guest : bool) (l : list VartVirtioDescriptor) (total : Z)
    : option Z :=
  match l with
  | [] => Some total
  | d :: l =>
      if (d_length d =? 0) || (VART_VIRTIO_BLK_MAX_SEGMENT <? d_length d) ||
         negb (Bool.eqb (bits (d_flags d) VART_VIRTIO_DESC_F_WRITE) to_guest) ||
         (UINT64_MAX - d_length d <? total)
      then None
      else check_segments to_guest l (total + d_length d)
  end.

(** [while (done < length) pread(...)]: the error code, what is in the buffer and
    the offset afterwards.  Each turn transfers at least one byte. *)
Fixpoint pread_loop (steps : nat) (fd length offset : Z) (buffer : list Z)
    : M World (Z * list Z * Z) :=
  let done := Z.of_nat (List.length buffer) in
  if length <=? done then ret (0, buffer, offset)
  else
    match steps with
    | O => out_of_fuel
    | S steps =>
        let* (count, data) := sys_pread fd (length - done) offset in
        if count <=? 0 then ret (if count =? 0 then -EIO else count, buffer, offset)
        else pread_loop steps fd length (offset + count) (buffer ++ data)
    end.

Fixpoint pwrite_loop (steps : nat) (fd offset : Z) (buffer : list Z) : M World (Z * Z) :=
  match buffer with
  | [] => ret (0, offset)
  | _ =>
      match steps with
      | O => out_of_fuel
      | S steps =>
          let* count := sys_pwrite fd buffer offset in
          if count <=? 0 then ret (if count =? 0 then -EIO else count, offset)
          else pwrite_loop steps fd (offset + count) (drop (Z.to_nat count) buffer)
      end
  end.

(** One data segment: the error code and the offset afterwards. *)
Definition transfer_segment (device : ptr) (fd : Z) (to_guest : bool)
    (descriptor : VartVirtioDescriptor) (offset : Z) : M World (Z * Z) :=
  let length := d_length descriptor in
  let* allocated := allocate in
  if negb allocated then ret (-ENOMEM, offset)
  else if to_guest then
    let* (err, buffer, offset) := pread_loop (Z.to_nat length) fd length offset [] in
    if err <? 0 then ret (err, offset)
    else
      let* err := virtio_blk_dma_write (Some device) (d_address descriptor) buffer in
      if err <? 0 then ret (-EIO, offset) else ret (0, offset)
  else
    let* (err, buffer) := virtio_blk_dma_read (Some device) (d_address descriptor)
                            (replicate (Z.to_nat length) 0) in
    if err <? 0 then ret (-EIO, offset)
    else pwrite_loop (Z.to_nat length) fd offset buffer.

(** The second loop: the error code and [*used_length]. *)
Fixpoint transfer_loop (device : ptr) (fd : Z) (to_guest : bool)
    (l : list VartVirtioDescriptor) (offset used_length : Z) : M World (Z * Z) :=
  match l with
  | [] => ret (0, used_length)
  | d :: l =>
      let* (err, offset) := transfer_segment device fd to_guest d offset in
      if err <? 0 then ret (err, used_length)
      else transfer_loop device fd to_guest l offset (u32 (used_length + d_length d))
  end.

Definition virtio_blk_io (device : ptr) (chain : VartVirtioChain) (type sector : Z)
    (used_length : Z) : M World (Z * Z) :=
  let* dev := load_blk device in
  let to_guest := type =? VIRTIO_BLK_T_IN in
  match check_segments to_guest (data_segments chain) 0 with
  | None => ret (-EINVAL, used_length)
  | Some total =>
      if (total =? 0) || negb (total mod VART_VIRTIO_BLK_SECTOR_SIZE =? 0) ||
         (UINT32_MAX <? total)
      then ret (-EINVAL, used_length)
      else
        match virtio_blk_offset_valid dev sector total with
        | None => ret (-EINVAL, used_length)
        | Some offset =>
            transfer_loop device (blk_fd dev) to_guest (data_segments chain) offset used_length
        end
  end.

(** The work of a request: the status byte and the used length. *)
Definition run_request (device : ptr) (chain : VartVirtioChain) (type sector : Z)
    : M World (Z * Z) :=
  let* dev := load_blk device in
  let* pci := load_virtio_pci device in
  if (type =? VIRTIO_BLK_T_IN) || (type =? VIRTIO_BLK_T_OUT) then
    if (type =? VIRTIO_BLK_T_OUT) && blk_readonly dev then ret (VIRTIO_BLK_S_IOERR, 0)
    else
      let* (err, used_length) := virtio_blk_io device chain type sector 0 in
      ret (if err <? 0 then VIRTIO_BLK_S_IOERR else VIRTIO_BLK_S_OK, used_length)
  else if (type =? VIRTIO_BLK_T_FLUSH) &&
          bits (v_driver_features (vp_virtio pci)) (Z.shiftl 1 VIRTIO_BLK_F_FLUSH) then
    let* err := sys_fsync (blk_fd dev) in
    ret (if err <? 0 then VIRTIO_BLK_S_IOERR else VIRTIO_BLK_S_OK, 0)
  else ret (VIRTIO_BLK_S_UNSUPP, 0).

Definition virtio_blk_process_request (device : ptr) (chain : VartVirtioChain) : M World Z :=
  if ch_count chain <? 2 then ret (-EPROTO)
  else
    let* header_desc := deref (ch_descriptors chain !! 0%nat) in
    let* status_desc := deref (ch_descriptors chain !! Z.to_nat (ch_count chain - 1)) in
    if (d_length header_desc <? VIRTIO_BLK_REQUEST_HEADER_SIZE) ||
       bits (d_flags header_desc) VART_VIRTIO_DESC_F_WRITE ||
       (d_length status_desc =? 0) ||
       negb (bits (d_flags status_desc) VART_VIRTIO_DESC_F_WRITE)
    then ret (-EPROTO)
    else
      let* (err, header) := virtio_blk_dma_read (Some device) (d_address header_desc)
                              (replicate (Z.to_nat VIRTIO_BLK_REQUEST_HEADER_SIZE) 0) in
      if err <? 0 then ret err
      else
        let* type := virtio_blk_load_le32 header in
        let* sector := virtio_blk_load_le64 (drop 8 header) in
        let* (status, used_length) := run_request device chain type sector in
        let* err := virtio_blk_write_status device status_desc status in
        if err <? 0 then ret err
        else with_virtio device (vart_virtio_queue_push_used 0 (ch_head chain) used_length).

(** The [for (;;)] loop; [completed] is returned with the error code, a code of 1
    standing for the [break]. *)
Fixpoint notify_loop (steps : nat) (device : ptr) (completed : bool) : M World (Z * bool) :=
  match steps with
  | O => out_of_fuel
  | S steps =>
      let* (err, chain) := with_virtio device
        (vart_virtio_queue_pop pop_fuel 0 (Some (mkChain 0 0 []))) in
      if err =? -EAGAIN then ret (1, completed)
      else if err <? 0 then ret (err, completed)
      else
        let* chain := deref chain in
        let* err := virtio_blk_process_request device chain in
        if err <? 0 then ret (err, completed)
        else notify_loop steps device true
  end.

Definition virtio_blk_notify (steps : nat) (pci : ptr) (queue_index : Z) (opaque : option ptr)
    : M World Z :=
  let* device := deref opaque in
  if negb (queue_index =? 0) then ret (-EINVAL)
  else
    let* (err, completed) := notify_loop steps device false in
    if err <? 0 then ret err
    else if (completed : bool) then vart_virtio_pci_raise_queue_interrupt (Some pci) 0
    else ret 0.

(** * Life cycle *)

Definition blk_features (readonly : bool) : Z :=
  let features :=
    Z.lor (Z.lor (Z.lor (Z.lor (Z.shiftl 1 VIRTIO_F_VERSION_1)
      (Z.shiftl 1 VIRTIO_BLK_F_SIZE_MAX)) (Z.shiftl 1 VIRTIO_BLK_F_SEG_MAX))
      (Z.shiftl 1 VIRTIO_BLK_F_BLK_SIZE)) (Z.shiftl 1 VIRTIO_BLK_F_FLUSH) in
  if readonly then Z.lor features (Z.shiftl 1 VIRTIO_BLK_F_RO) else features.

Definition blk_dma_ops (d : ptr) : VartVirtioDmaOps :=
  mkDmaOps (Some fn_virtio_blk_dma_read) (Some fn_virtio_blk_dma_write) (Some d).
Definition blk_config_ops (d : ptr) : VartVirtioPciConfigOps :=
  mkVirtioConfigOps (Some fn_virtio_blk_config_read) (Some fn_virtio_blk_config_write) (Some d).

(** [fail_fd] *)
Definition close_disk (d : ptr) (err : Z) : M World Z :=
  let* dev := load_blk d in
  sys_close (blk_fd dev) ;;;
  store_blk d (dev <| blk_fd := -1 |>) ;;;
  ret err.

(** What follows [vart_virtio_pci_device_init]. *)
Definition setup_blk_function (d : ptr) (dma_as : option ptr) : M World Z :=
  let* err := vart_virtio_pci_device_set_class_code (Some d) 0x01 in
  if err <? 0 then ret err
  else
    let* err := vart_pci_device_init_msix (Some d) 2 0 0x800 0 0xc00 in
    if err <? 0 then ret err else vart_pci_device_set_dma_as (Some d) dma_as.

Definition vart_virtio_blk_init (device : option ptr) (path : option (list Z))
    (readonly : bool) (dma_as : option ptr) : M World Z :=
  match device, path with
  | Some d, Some p =>
      clear_pci_device d ;;;
      store_virtio_pci d zero_virtio_pci ;;;
      store_blk d zero_blk ;;;
      let* fd := sys_open p readonly in
      store_blk d (zero_blk <| blk_fd := fd |>) ;;;
      if fd <? 0 then ret fd
      else
        let* (err, regular, size) := sys_fstat fd in
        if (err <? 0) || negb regular || (size <? 0) ||
           (u64 size / VART_VIRTIO_BLK_SECTOR_SIZE =? 0)
        then close_disk d (-EINVAL)
        else
          store_blk d (mkBlk fd (u64 size / VART_VIRTIO_BLK_SECTOR_SIZE)
                         VART_VIRTIO_BLK_SECTOR_SIZE readonly false) ;;;
          let* err := vart_virtio_pci_device_init (Some d) 2 (blk_features readonly) 1
                        (Some (blk_dma_ops d)) (Some (blk_config_ops d))
                        (Some fn_virtio_blk_notify) (Some d) in
          if err <? 0 then close_disk d err
          else
            let* err := setup_blk_function d dma_as in
            if err <? 0 then
              vart_virtio_pci_device_destroy (Some d) ;;; close_disk d err
            else
              let* dev := load_blk d in
              store_blk d (dev <| blk_initialized := true |>) ;;; ret 0
  | _, _ => ret (-EINVAL)
  end.

Definition vart_virtio_blk_destroy (device : option ptr) : M World Z :=
  match device with
  | None => ret (-EINVAL)
  | Some d =>
      let* dev := load_blk d in
      if negb (blk_initialized dev) then ret (-EINVAL)
      else
        let* err := vart_virtio_pci_device_destroy (Some d) in
        if err <? 0 then ret err
        else
          let* dev := load_blk d in
          sys_close (blk_fd dev) ;;;
          store_blk d (dev <| blk_fd := -1 |> <| blk_initialized := false |>) ;;;
          ret 0
  end.

(** The functions that the transport calls. *)
Definition blk_callbacks (steps : nat) : VirtioPciCallbacks := {|
  call_virtio_config_read f pci offset size value opaque :=
    match f with
    | fn_virtio_blk_config_read => virtio_blk_config_read pci offset size value opaque
    | _ => undefined
    end;
  call_virtio_config_write f pci offset size value opaque :=
    match f with
    | fn_virtio_blk_config_write => virtio_blk_config_write pci offset size value opaque
    | _ => undefined
    end;
  call_virtio_notify f pci queue_index opaque :=
    match f with
    | fn_virtio_blk_notify => virtio_blk_notify steps pci queue_index opaque
    | _ => undefined
    end;
|}.
End Blk.

(** * The contents of files *)

(** [data] written at [offset]; a gap past the end reads as zeros. *)
Definition file_write (content : list Z) (offset : Z) (data : list Z) : list Z :=
  take (Z.to_nat offset) content ++ replicate (Z.to_nat offset - length content) 0 ++
  data ++ drop (Z.to_nat offset + length data) content.
Definition file_slice (content : list Z) (offset count : Z) : list Z :=
  take (Z.to_nat count) (drop (Z.to_nat offset) content).

(** [pread], [pwrite] and [fsync] as POSIX documents them for a regular file: they
    return an error or at most as many bytes as were asked for, those of the file
    at the offset. *)
Class FileHost `{BlockHost} : Prop := {
  host_pread fd n offset w : 0 < n ->
    exists count data, sys_pread fd n offset w = Ok ((count, data), w) /\ count <= n /\
      (0 < count -> exists content, w_files w !! fd = Some content /\ 0 <= offset /\
         data = file_slice content offset count /\ Z.of_nat (length data) = count);
  host_pwrite fd data offset w : data <> [] ->
    exists count w', sys_pwrite fd data offset w = Ok (count, w') /\
      count <= Z.of_nat (length data) /\ (count <= 0 -> w' = w) /\
      (0 < count -> exists content, w_files w !! fd = Some content /\ 0 <= offset /\
         w' = w <| w_files ::= <[fd := file_write content offset
                                  (take (Z.to_nat count) data)]> |>);
  host_fsync fd w : exists err, sys_fsync fd w = Ok (err, w);
}.

Section Files.
Implicit Types content data : list Z.

Lemma file_write_inside content offset data :
  0 <= offset -> offset + Z.of_nat (length data) <= Z.of_nat (length content) ->
  file_write content offset data =
    take (Z.to_nat offset) content ++ data ++ drop (Z.to_nat offset + length data) content.
Proof.
  intros Ho Hl. unfold file_write.
  replace (Z.to_nat offset - length content)%nat with 0%nat by lia. done.
Qed.

Lemma file_write_length content offset data :
  0 <= offset -> offset + Z.of_nat (length data) <= Z.of_nat (length content) ->
  length (file_write content offset data) = length content.
Proof.
  intros Ho Hl. rewrite file_write_inside by done.
  rewrite !length_app, length_take, length_drop. lia.
Qed.

Lemma file_write_nil content offset :
  0 <= offset <= Z.of_nat (length content) -> file_write content offset [] = content.
Proof.
  intros Ho. rewrite file_write_inside by (cbn; lia). cbn. rewrite Nat.add_0_r.
  apply take_drop.
Qed.

Lemma file_write_lookup content offset data (i : nat) :
  0 <= offset -> offset + Z.of_nat (length data) <= Z.of_nat (length content) ->
  file_write content offset data !! i =
    if decide (offset <= Z.of_nat i < offset + Z.of_nat (length data))
    then data !! (i - Z.to_nat offset)%nat else content !! i.
Proof.
  intros Ho Hl. rewrite file_write_inside by done. case_decide.
  - rewrite lookup_app_r by (rewrite length_take; lia).
    rewrite length_take, Nat.min_l by lia. by rewrite lookup_app_l by lia.
  - destruct (decide (Z.of_nat i < offset)).
    + rewrite lookup_app_l by (rewrite length_take; lia). by rewrite lookup_take_lt by lia.
    + rewrite lookup_app_r by (rewrite length_take; lia).
      rewrite length_take, Nat.min_l by lia. rewrite lookup_app_r by lia.
      rewrite lookup_drop. f_equal. lia.
Qed.

Lemma file_write_app content offset a b :
  0 <= offset -> offset + Z.of_nat (length a + length b) <= Z.of_nat (length content) ->
  file_write (file_write content offset a) (offset + Z.of_nat (length a)) b =
    file_write content offset (a ++ b).
Proof.
  intros Ho Hl. apply list_eq. intros i.
  rewrite !file_write_lookup; rewrite ?file_write_length, ?length_app by lia; try lia.
  repeat case_decide; try lia; try done.
  - rewrite lookup_app_r by lia. f_equal. lia.
  - by rewrite lookup_app_l by lia.
Qed.

Lemma file_write_bytes content offset data :
  0 <= offset -> offset + Z.of_nat (length data) <= Z.of_nat (length content) ->
  Forall byte_ok content -> Forall byte_ok data ->
  Forall byte_ok (file_write content offset data).
Proof.
  intros Ho Hl Hc Hd. rewrite file_write_inside by done.
  repeat apply Forall_app_2; [by apply Forall_take|done|by apply Forall_drop].
Qed.

Lemma file_slice_app content offset a b :
  0 <= offset -> 0 <= a -> 0 <= b ->
  file_slice content offset a ++ file_slice content (offset + a) b =
    file_slice content offset (a + b).
Proof.
  intros Ho Ha Hb. unfold file_slice. rewrite !Z2Nat.inj_add by lia.
  rewrite <- drop_drop. apply take_take_drop.
Qed.

(** What was written reads back. *)
Lemma file_slice_write content offset data :
  0 <= offset -> offset + Z.of_nat (length data) <= Z.of_nat (length content) ->
  file_slice (file_write content offset data) offset (Z.of_nat (length data)) = data.
Proof.
  intros Ho Hl. unfold file_slice. rewrite file_write_inside by done.
  rewrite drop_app_length' by (rewrite length_take; lia).
  by rewrite Nat2Z.id, take_app_length.
Qed.
End Files.

Lemma set_file_same w fd content :
  w_files w !! fd = Some content -> w <| w_files ::= <[fd := content]> |> = w.
Proof. intros Hf. destruct w. unfold update. cbn in *. by rewrite insert_id. Qed.
Lemma set_file_twice w fd c c' :
  (w <| w_files ::= <[fd := c]> |>) <| w_files ::= <[fd := c']> |> =
    w <| w_files ::= <[fd := c']> |>.
Proof. unfold update. cbn. by rewrite insert_insert_eq. Qed.

(** * The disk is protected from the guest *)

(** A file afterwards: of the same length, unchanged past [limit] and unchanged
    altogether when the disk is read-only. *)
Record protected (limit : Z) (readonly : bool) (c c' : list Z) : Prop := {
  pr_length : length c' = length c;
  pr_beyond : forall i : nat, limit <= Z.of_nat i -> c' !! i = c !! i;
  pr_readonly : readonly = true -> c' = c;
  pr_bytes : Forall byte_ok c -> Forall byte_ok c';
}.
#[export] Instance protected_preorder limit readonly : PreOrder (protected limit readonly).
Proof.
  split; [by split|]. intros c1 c2 c3 [L1 B1 R1 Y1] [L2 B2 R2 Y2]. split; [congruence| | |auto].
  - intros i Hi. by rewrite B2, B1.
  - intros Hro. by rewrite R2, R1.
Qed.

Definition blk_limit (dev : VartVirtioBlkDevice) : Z :=
  blk_capacity_sectors dev * VART_VIRTIO_BLK_SECTOR_SIZE.

(** The device [dev] has a file that holds its sectors. *)
Record disk_ok (dev : VartVirtioBlkDevice) (w : World) : Prop := {
  dko_capacity : 0 <= blk_capacity_sectors dev;
  dko_small : blk_limit dev < 2 ^ 63;
  dko_file : exists content, w_files w !! blk_fd dev = Some content /\
    Forall byte_ok content /\ blk_limit dev <= Z.of_nat (length content);
}.

(** No other file changes; the disk's own is protected. *)
Record disk_kept (dev : VartVirtioBlkDevice) (w w' : World) : Prop := {
  dk_others : forall fd, fd <> blk_fd dev -> w_files w' !! fd = w_files w !! fd;
  dk_own : forall c, w_files w !! blk_fd dev = Some c ->
    exists c', w_files w' !! blk_fd dev = Some c' /\
      protected (blk_limit dev) (blk_readonly dev) c c';
}.
#[export] Instance disk_kept_preorder dev : PreOrder (disk_kept dev).
Proof.
  split.
  - intros w. split; [done|]. intros c Hc. exists c. by split.
  - intros w1 w2 w3 [O1 P1] [O2 P2]. split.
    + intros fd Hfd. by rewrite O2, O1.
    + intros c Hc. destruct (P1 c Hc) as (c2 & Hc2 & Hp2).
      destruct (P2 c2 Hc2) as (c3 & Hc3 & Hp3). exists c3. split; [done|]. by etransitivity.
Qed.

Lemma disk_kept_ok dev w w' : disk_kept dev w w' -> disk_ok dev w -> disk_ok dev w'.
Proof.
  intros [_ Hown] [? ? (c & Hc & Hb & Hl)]. split; [done|done|].
  destruct (Hown c Hc) as (c' & Hc' & [Hlen _ _ Hy]). exists c'. split; [done|].
  split; [auto|]. by rewrite Hlen.
Qed.

Section Loops.
Context `{HB : BlockHost} `{HF : !FileHost}.

Lemma pread_loop_safe fd len w :
  (forall c, w_files w !! fd = Some c -> Forall byte_ok c) ->
  forall steps offset buf,
  Forall byte_ok buf -> Z.of_nat (length buf) <= len -> len - Z.of_nat (length buf) <= Z.of_nat steps ->
  wp (pread_loop steps fd len offset buf)
    (fun '(err, b, offset') w' => w' = w /\ err <= 0 /\ Forall byte_ok b /\
       (0 <= err -> Z.of_nat (length b) = len /\
          offset' = offset + (len - Z.of_nat (length buf)))) w.
Proof using HF.
  intros Hf. induction steps as [|steps IH]; intros offset buf Hb Hl Hs; cbn [pread_loop].
  { destruct (Z.leb_spec len (Z.of_nat (length buf))); [|lia]. wsteps. split_and!; done || lia. }
  destruct (Z.leb_spec len (Z.of_nat (length buf))).
  { wsteps. split_and!; done || lia. }
  destruct (host_pread fd (len - Z.of_nat (length buf)) offset w ltac:(lia))
    as (count & data & Hrun & Hle & Hdata).
  wstep. unfold wp at 1. rewrite Hrun. destruct (Z.leb_spec count 0).
  { wsteps. split_and!; try done; destruct (Z.eqb_spec count 0); lia. }
  destruct Hdata as (c & Hc & Ho & -> & Hcnt); [lia|].
  eapply wp_mono.
  - apply IH; rewrite ?length_app; try lia.
    apply Forall_app_2; [done|]. unfold file_slice. by apply Forall_take, Forall_drop, Hf.
  - intros [[err b] offset'] w' (-> & Herr & Hb' & Hall). split_and!; [done|done|done|].
    rewrite length_app in Hall. lia.
Qed.

(** The bytes written are a prefix of the buffer, all of it on success. *)
Lemma pwrite_loop_spec fd : forall steps offset buf c w,
  w_files w !! fd = Some c -> 0 <= offset ->
  offset + Z.of_nat (length buf) <= Z.of_nat (length c) ->
  (length buf <= steps)%nat ->
  wp (pwrite_loop steps fd offset buf)
    (fun '(err, offset') w' => exists k, (k <= length buf)%nat /\ offset' = offset + Z.of_nat k /\
       w' = w <| w_files ::= <[fd := file_write c offset (take k buf)]> |> /\
       err <= 0 /\ (0 <= err -> k = length buf)) w.
Proof using HF.
  induction steps as [|steps IH]; intros offset buf c w Hc Ho Hl Hs; cbn [pwrite_loop].
  { destruct buf; [|cbn in Hs; lia]. wsteps. exists 0%nat. cbn in Hl.
    rewrite file_write_nil, set_file_same by (done || lia). split_and!; done || lia. }
  destruct buf as [|b0 buf0] eqn:Hbuf.
  { wsteps. exists 0%nat. cbn in Hl. rewrite file_write_nil, set_file_same by (done || lia).
    split_and!; done || lia. }
  rewrite <- Hbuf in *. assert (buf <> []) as Hne by congruence. clear Hbuf b0 buf0.
  destruct (host_pwrite fd buf offset w Hne) as (count & w1 & Hrun & Hle & H0 & H1).
  wstep. unfold wp at 1. rewrite Hrun. destruct (Z.leb_spec count 0) as [Hn|Hp].
  { rewrite H0 by lia. wsteps. exists 0%nat.
    rewrite take_0, file_write_nil, set_file_same by (done || lia).
    split_and!; try lia; try done; destruct (Z.eqb_spec count 0); try lia; done. }
  destruct (H1 Hp) as (c0 & Hc0 & _ & ->). simplify_eq. set (k := Z.to_nat count) in *.
  assert (length (take k buf) = k) as Hk by (rewrite length_take; lia).
  assert (length (file_write c offset (take k buf)) = length c) as Hlen
    by (apply file_write_length; rewrite ?Hk; lia).
  eapply wp_mono.
  - apply (IH (offset + count) (drop k buf) (file_write c offset (take k buf))).
    + cbn. by rewrite lookup_insert_eq.
    + lia.
    + rewrite length_drop, Hlen. lia.
    + rewrite length_drop. lia.
  - intros [err offset'] w' (j & Hj & -> & -> & Herr & Hall). rewrite length_drop in Hj.
    exists (k + j)%nat. split_and!; [lia|lia| |done|rewrite length_drop in Hall; lia].
    rewrite set_file_twice. f_equal. f_equal.
    rewrite <- take_take_drop, <- file_write_app; rewrite ?Hk;
      [|lia|rewrite length_take, length_drop; lia].
    do 2 f_equal. lia.
Qed.
End Loops.

(** The change that a request makes to the device models: the disk at most. *)
Record blk_step (dev : VartVirtioBlkDevice) (w w' : World) : Prop := {
  bs_disk : disk_kept dev w w';
  bs_blks : w_blks w' = w_blks w;
  bs_virtio : w_virtio_pcis w' = w_virtio_pcis w;
}.
#[export] Instance blk_step_preorder dev : PreOrder (blk_step dev).
Proof.
  split; [by split|]. intros w1 w2 w3 [] []. split; [by etransitivity|congruence|congruence].
Qed.

Lemma same_models_step dev w w' : same_models w w' -> blk_step dev w w'.
Proof.
  intros [Hf Hb _ Hv _ _]. split; [|done|done]. split; rewrite Hf; [done|].
  intros c Hc. exists c. by split.
Qed.

Section Requests.
Context `{TranslateCallbacks} `{MsixCallbacks} `{IrqCallbacks} `{BlockHost} `{HF : !FileHost}
  (fuel : nat) (d : ptr) (I : World -> Prop) `{HP : !DmaPort fuel d I}
  (dev : VartVirtioBlkDevice).

(** What holds between two steps of a request. *)
Record blk_ready (w : World) : Prop := {
  bk_port : I w;
  bk_dev : w_blks w !! d = Some dev;
  bk_disk : disk_ok dev w;
}.

Lemma ready_step w w' : blk_step dev w w' -> I w' -> blk_ready w -> blk_ready w'.
Proof.
  intros [Hd Hb _] HI [_ Hdev Hok]. split; [done|by rewrite Hb|]. by eapply disk_kept_ok.
Qed.

Lemma wp_dma_read a buf Q w :
  I w -> u64_arg a -> buffer_ok buf ->
  (forall err data w', length data = length buf -> Forall byte_ok data -> I w' ->
     same_models w w' -> Q (err, data) w') ->
  wp (virtio_blk_dma_read fuel (Some d) a buf) Q w.
Proof using HP. exact (wp_device_read fuel d I a buf Q w). Qed.

Lemma wp_dma_write a data Q w :
  I w -> u64_arg a -> buffer_ok data ->
  (forall err w', I w' -> same_models w w' -> Q err w') ->
  wp (virtio_blk_dma_write fuel (Some d) a data) Q w.
Proof using HP. exact (wp_device_write fuel d I a data Q w). Qed.

Lemma wp_allocate_ready Q w :
  blk_ready w -> (forall b w', blk_ready w' -> blk_step dev w w' -> Q b w') -> wp allocate Q w.
Proof using HP.
  intros Hw HQ. eapply (wp_device_allocate fuel d I); [apply Hw|]. intros b w' HI' Hs.
  apply HQ; [|by apply same_models_step]. by eapply ready_step; [apply same_models_step|..].
Qed.

(** A write inside the sectors of a disk that may be written. *)
Lemma write_step w c offset data :
  blk_ready w -> w_files w !! blk_fd dev = Some c -> blk_readonly dev = false ->
  0 <= offset -> offset + Z.of_nat (length data) <= blk_limit dev -> Forall byte_ok data ->
  let w' := w <| w_files ::= <[blk_fd dev := file_write c offset data]> |> in
  blk_ready w' /\ blk_step dev w w'.
Proof using HP.
  intros Hw Hc Hro Ho Hl Hb w'. destruct (dko_file _ _ (bk_disk _ Hw)) as (c0 & Hc0 & Hcb & Hcl).
  simplify_eq. assert (blk_step dev w w') as Hstep.
  { split; [|done|done]. split.
    - intros fd Hfd. cbn. by rewrite lookup_insert_ne.
    - intros c1 Hc1. simplify_eq. eexists. split; [apply lookup_insert_eq|]. split.
      + apply file_write_length; lia.
      + intros i Hi. rewrite file_write_lookup by lia. case_decide; [lia|done].
      + congruence.
      + intros _. apply file_write_bytes; [lia|lia|done|done]. }
  split; [|done]. eapply ready_step; [done| |done]. eapply port_machine; [|apply Hw]. by split.
Qed.

(** The segments that [check_segments] accepts: their lengths add up. *)
Definition seg_ok (s : VartVirtioDescriptor) : Prop :=
  descriptor_ok s /\ 0 < d_length s <= VART_VIRTIO_BLK_MAX_SEGMENT.

Definition seg_total (l : list VartVirtioDescriptor) : Z :=
  foldr (fun s t => d_length s + t) 0 l.

Lemma seg_total_cons s l : seg_total (s :: l) = d_length s + seg_total l.
Proof. done. Qed.

Lemma check_segments_total to_guest l : forall total r,
  Forall descriptor_ok l -> 0 <= total -> check_segments to_guest l total = Some r ->
  r = total + seg_total l /\ Forall seg_ok l /\ 0 <= seg_total l.
Proof.
  induction l as [|s l IH]; intros total r Hl Ht Hc; cbn [check_segments] in *.
  { simplify_eq. cbn. split_and!; [lia|done|lia]. }
  rewrite seg_total_cons. apply Forall_cons in Hl as [Hs Hl]. destruct (_ || _) eqn:Hg in Hc; [done|].
  rewrite !orb_false_iff in Hg. destruct Hg as [[[Hz Hm] _] _]. pose proof (dk_length _ Hs).
  apply IH in Hc as (-> & Hok & Hpos); [|done|lia].
  split_and!; [lia| |lia]. constructor; [|done]. split; [done|lia].
Qed.

Lemma transfer_segment_safe to_guest s offset w :
  blk_ready w -> seg_ok s -> 0 <= offset -> offset + d_length s <= blk_limit dev ->
  (to_guest = false -> blk_readonly dev = false) ->
  wp (transfer_segment fuel d (blk_fd dev) to_guest s offset)
    (fun '(err, offset') w' => blk_ready w' /\ blk_step dev w w' /\ err <= 0 /\
       (0 <= err -> offset' = offset + d_length s)) w.
Proof using HP HF.
  intros Hw [[Ha _ _ _] Hlen] Ho Hl Hro. unfold transfer_segment. wstep.
  apply wp_allocate_ready; [done|]. intros ok w1 Hw1 Hs1. destruct ok; cbn [negb].
  2: { wsteps. split_and!; done || lia. }
  destruct (dko_file _ _ (bk_disk _ Hw1)) as (c & Hc & Hcb & Hcl). destruct to_guest.
  - wstep. eapply wp_mono.
    { apply pread_loop_safe; cbn; [|done|lia|lia]. intros c' Hc'. by simplify_eq. }
    intros [[err b] offset'] w2 (-> & Herr & Hb & Hall). cbv beta iota.
    destruct (Z.ltb_spec err 0); [wsteps; split_and!; done || lia|].
    destruct Hall as [Hlb ->]; [lia|]. wstep. apply wp_dma_write; [apply Hw1|done| |].
    { split; [done|lia]. }
    intros e2 w3 HI3 Hm3. pose proof (same_models_step dev _ _ Hm3) as Hs3.
    assert (blk_ready w3) by (by eapply ready_step).
    assert (blk_step dev w w3) by (by etransitivity).
    destruct (Z.ltb_spec e2 0); wsteps; split_and!; done || (cbn in *; lia).
  - wstep. apply wp_dma_read; [apply Hw1|done| |].
    { split; [by apply Forall_replicate|rewrite length_replicate; lia]. }
    intros e2 data w3 Hld Hbd HI3 Hm3. rewrite length_replicate in Hld.
    pose proof (same_models_step dev _ _ Hm3) as Hs3.
    assert (blk_ready w3) as Hw3 by (by eapply ready_step).
    assert (blk_step dev w w3) as Hs by (by etransitivity). cbv beta iota.
    destruct (Z.ltb_spec e2 0); [wsteps; split_and!; done || lia|].
    assert (w_files w3 !! blk_fd dev = Some c) as Hc3 by (by rewrite (sm_files _ _ Hm3)).
    eapply wp_mono; [apply (pwrite_loop_spec _ _ _ _ c); [done|lia|lia|lia]|].
    intros [err offset'] w4 (k & Hk & -> & -> & Herr & Hall).
    assert (length (take k data) = k) as Hlk by (rewrite length_take; lia).
    destruct (write_step w3 c offset (take k data)) as [Hw4 Hs4];
      [done|done|by apply Hro|lia|rewrite Hlk; lia|by apply Forall_take|].
    split_and!; [done|by etransitivity|done|lia].
Qed.

Lemma transfer_loop_safe to_guest l : forall offset used w,
  blk_ready w -> Forall seg_ok l -> 0 <= offset -> offset + seg_total l <= blk_limit dev ->
  (to_guest = false -> blk_readonly dev = false) ->
  wp (transfer_loop fuel d (blk_fd dev) to_guest l offset used)
    (fun _ w' => blk_ready w' /\ blk_step dev w w') w.
Proof using HP HF.
  induction l as [|s l IH]; intros offset used w Hw Hl Ho Hlim Hro; cbn [transfer_loop].
  { by wsteps. }
  apply Forall_cons in Hl as [Hs Hl]. rewrite seg_total_cons in Hlim.
  assert (0 <= seg_total l) as Hpos.
  { clear -Hl. induction Hl as [|s l [_ ?] _ IH]; [done|]. rewrite seg_total_cons. lia. }
  wstep. eapply wp_mono; [apply transfer_segment_safe; [done|done|done|lia|done]|].
  intros [err offset'] w1 (Hw1 & Hs1 & Herr & Hoff). cbv beta iota.
  destruct (Z.ltb_spec err 0); [by wsteps|]. rewrite Hoff by lia. destruct Hs as [_ ?].
  eapply wp_mono; [apply IH; [done|done|lia|lia|done]|].
  intros r w2 [Hw2 Hs2]. split; [done|]. by etransitivity.
Qed.

Lemma offset_valid_spec sector total offset :
  0 <= sector -> 0 <= total -> 0 <= blk_capacity_sectors dev -> blk_limit dev < 2 ^ 63 ->
  virtio_blk_offset_valid dev sector total = Some offset ->
  offset = sector * 512 /\ offset + total <= blk_limit dev.
Proof.
  intros Hs Ht Hc Hlim Hv. unfold virtio_blk_offset_valid, blk_limit in *.
  assert (UINT64_MAX / 512 * 512 <= UINT64_MAX) by (vm_compute; congruence).
  destruct (Z.ltb_spec (UINT64_MAX / 512) sector); [done|].
  destruct (_ <? blk_capacity_sectors dev); [done|].
  rewrite !u64_small in Hv by lia. destruct (_ || _) eqn:Hg in Hv; [done|].
  rewrite orb_false_iff in Hg. destruct Hg as [Hg1 Hg2].
  unfold s64 in Hv. destruct (Z.ltb_spec (sector * 512) (2 ^ 63)); [|lia].
  destruct (negb _); [done|]. simplify_eq. lia.
Qed.

Lemma blk_io_safe chain type sector used w :
  blk_ready w -> Forall descriptor_ok (ch_descriptors chain) -> 0 <= sector ->
  (type <> VIRTIO_BLK_T_IN -> blk_readonly dev = false) ->
  wp (virtio_blk_io fuel d chain type sector used)
    (fun _ w' => blk_ready w' /\ blk_step dev w w') w.
Proof using HP HF.
  intros Hw Hch Hs Hro. pose proof (bk_dev _ Hw) as Hdev. unfold virtio_blk_io. wstep. wstep.
  cbv zeta. destruct (check_segments _ _ _) as [total|] eqn:Hc; [|by wsteps].
  apply check_segments_total in Hc as (-> & Hseg & Hpos);
    [|by apply Forall_take, Forall_drop|lia].
  destruct (_ || _); [by wsteps|].
  destruct (virtio_blk_offset_valid _ _ _) as [offset|] eqn:Hv; [|by wsteps].
  pose proof (bk_disk _ Hw) as [Hcap Hsm _].
  apply offset_valid_spec in Hv as [-> Hlim]; [|done|lia|done|done].
  apply transfer_loop_safe; [done|done|lia|lia|]. intros Ht. apply Hro. lia.
Qed.

Lemma run_request_safe chain type sector w pdev :
  blk_ready w -> w_virtio_pcis w !! d = Some pdev ->
  Forall descriptor_ok (ch_descriptors chain) -> 0 <= sector ->
  wp (run_request fuel d chain type sector)
    (fun '(status, _) w' => 0 <= status <= 2 /\ blk_ready w' /\ blk_step dev w w') w.
Proof using HP HF.
  intros Hw Hp Hch Hs. pose proof (bk_dev _ Hw) as Hdev. unfold run_request. wsteps.
  destruct ((type =? 0) || (type =? 1)) eqn:Ht.
  - destruct (_ && _) eqn:Hro; [wsteps; split_and!; done || lia|]. wstep.
    eapply wp_mono; [apply blk_io_safe; [done|done|done|]|].
    + intros Hin. assert ((type =? 1) = true) as Hone by lia. by rewrite Hone in Hro.
    + intros [err used] w' [Hw' Hs']. wsteps. split_and!; [..|done|done]; destruct (err <? 0); lia.
  - destruct (_ && _); [|wsteps; split_and!; done || lia]. wstep.
    destruct (host_fsync (blk_fd dev) w) as [err Hrun]. unfold wp at 1. rewrite Hrun. wsteps.
    split_and!; [..|done|done]; destruct (err <? 0); lia.
Qed.

(** ** The device on its transport *)

Definition blk_client : option fnptr * option ptr * VartVirtioPciConfigOps :=
  (Some fn_virtio_blk_notify, Some d, blk_config_ops d).

(** Since [w0], only the disk changed. *)
Definition blk_model (w0 w : World) : Prop := blk_ready w /\ disk_kept dev w0 w.

#[export] Instance blk_port_model w0 : PortModel I (blk_model w0).
Proof using HP.
  split.
  - intros w [[]]. done.
  - intros w w' [Hw Hk] HI Hs. pose proof (same_models_step dev _ _ Hs) as Hst.
    split; [by eapply ready_step|]. etransitivity; [exact Hk|apply Hst].
  - intros w x [[HI Hb []] []]. split; [|by split]. split; [|done|by split].
    eapply port_machine; [|exact HI]. by split.
Qed.

#[export] Instance blk_dma_total w0 :
  DmaTotal (H := blk_dma fuel) World (blk_dma_ops d) (fun e => I e /\ same_models w0 e).
Proof using HP. by apply (device_dma_total fuel d I); [|intros f [= <-]..]. Qed.

Abbreviation G w0 := (guest_state d (blk_dma_ops d) 1 blk_client (blk_model w0)).

Lemma blk_state_step w0 w w' : G w0 w -> blk_ready w' -> blk_step dev w w' -> G w0 w'.
Proof.
  intros (pdev & Hp & Hok & Hn & Hc & _ & Hk) Hw' Hs. exists pdev. rewrite (bs_virtio _ _ _ Hs).
  split_and!; try done. split; [done|]. etransitivity; [exact Hk|apply Hs].
Qed.

Lemma load_le32_read data w : (4 <= length data)%nat -> Forall byte_ok data ->
  exists v, virtio_blk_load_le32 data w = Ok (v, w).
Proof. intros Hl _. destruct data as [|? [|? [|? [|? ?]]]]; cbn in Hl; try lia. by eexists. Qed.

Lemma process_request_safe w0 chain w :
  G w0 w -> chain_ok chain ->
  wp (virtio_blk_process_request fuel d chain) (fun _ w' => G w0 w') w.
Proof using HP HF.
  intros Hw (_ & Hct & Hch). pose proof Hw as (pdev & Hp & Hok & Hn & Hc & Hr & Hk).
  unfold virtio_blk_process_request. destruct (Z.ltb_spec (ch_count chain) 2); [done|].
  destruct (lookup_lt_is_Some_2 (ch_descriptors chain) 0) as [hd Hhd]; [lia|].
  destruct (lookup_lt_is_Some_2 (ch_descriptors chain) (Z.to_nat (ch_count chain - 1)))
    as [sd Hsd]; [lia|].
  pose proof (Forall_lookup_1 _ _ _ _ Hch Hhd) as [Hha _ _ _].
  pose proof (Forall_lookup_1 _ _ _ _ Hch Hsd) as [Hsa _ _ _].
  wstep. wstep. wstep. wstep. destruct (_ || _); [done|]. wstep.
  apply wp_dma_read; [apply Hr|done|split; [by apply Forall_replicate|done]|].
  intros err header w1 Hl Hby HI1 Hm1. change (length header = 16%nat) in Hl.
  assert (G w0 w1) as Hw1 by (by eapply port_state; [apply blk_port_model|..]).
  destruct (err <? 0); [done|]. wstep.
  destruct (load_le32_read header w1 ltac:(lia) Hby) as [type Htype]. unfold wp at 1. rewrite Htype.
  unfold virtio_blk_load_le64. rewrite length_drop, Hl.
  change (8 <=? 16 - 8)%nat with true. wsteps.
  pose proof Hw1 as (pdev1 & Hp1 & _ & _ & _ & Hr1 & _).
  eapply wp_mono; [apply (run_request_safe _ _ _ _ pdev1); [done|done|done|]|].
  { apply load_le_range. by apply Forall_take, Forall_drop. }
  intros [status used] w2 (Hst & Hw2 & Hs2). cbv beta iota.
  pose proof (blk_state_step _ _ _ Hw1 Hw2 Hs2) as HG2. wstep. unfold virtio_blk_write_status.
  apply wp_dma_write; [apply Hw2|done| |].
  { split; [|done]. repeat constructor; lia. }
  intros e3 w3 HI3 Hm3. assert (G w0 w3) by (by eapply port_state; [apply blk_port_model|..]).
  destruct (e3 <? 0); [done|]. eapply port_push; [apply blk_dma_total|apply blk_port_model|done|lia].
Qed.

Lemma notify_loop_safe w0 steps : forall completed w,
  G w0 w -> safe (notify_loop fuel steps d completed) (fun _ w' => G w0 w') w.
Proof using HP HF.
  induction steps as [|steps IH]; intros completed w Hw; cbn [notify_loop]; [done|].
  apply safe_bind, wp_safe. eapply wp_mono.
  { eapply (port_pop d I); [intros w1; apply blk_dma_total|apply blk_port_model|exact Hw|lia]. }
  intros [err chain] w1 [Hw1 Hch]. destruct (err =? -EAGAIN); [by apply wp_safe, wp_ret|].
  destruct (Z.ltb_spec err 0); [by apply wp_safe, wp_ret|].
  destruct Hch as [|(-> & ch & -> & Hch)]; [lia|]. apply safe_bind. cbn.
  apply safe_bind, wp_safe. eapply wp_mono; [by apply process_request_safe|].
  intros e w2 Hw2. destruct (e <? 0); [by apply wp_safe, wp_ret|]. by apply IH.
Qed.

Lemma notify_safe w0 steps queue w :
  G w0 w -> safe (virtio_blk_notify fuel steps d queue (Some d)) (fun _ w' => G w0 w') w.
Proof using HP HF.
  intros Hw. unfold virtio_blk_notify. apply safe_bind. cbn.
  destruct (negb _); [by apply wp_safe, wp_ret|]. apply safe_bind.
  eapply safe_mono; [by apply notify_loop_safe|]. intros [err completed] w1 Hw1.
  destruct (err <? 0); [by apply wp_safe, wp_ret|]. destruct completed; [|by apply wp_safe, wp_ret].
  apply wp_safe. eapply (port_queue_interrupt fuel d I); [apply blk_port_model|done|lia].
Qed.

Lemma config_read_safe w0 offset size value w :
  G w0 w -> safe (virtio_blk_config_read d offset size value (Some d)) (fun _ w' => G w0 w') w.
Proof.
  intros Hw. pose proof Hw as (pdev & _ & _ & _ & _ & [_ Hdev _] & _).
  apply wp_safe. unfold virtio_blk_config_read. wstep. eapply wp_deref; [done|]. wsteps.
  repeat (destruct (_ && _); [done|]). done.
Qed.

#[export] Instance blk_virtio_client w0 steps :
  VirtioClient (H := blk_callbacks fuel steps) d (blk_dma_ops d) 1 blk_client (blk_model w0).
Proof using HP HF.
  split.
  - intros w x. apply (model_virtio (PortModel := blk_port_model w0)).
  - intros f offset size value w [= <-] Hw _ _ _. by apply config_read_safe.
  - intros f offset size value w [= <-] Hw _ _ _. by apply wp_safe, wp_ret.
  - intros f queue w [= <-] Hw _. by apply notify_safe.
Qed.
End Requests.

(** C9. A guest cannot reach past its disk.  Whatever a guest writes to the
    registers of a virtio block device, in whatever order, and whatever it puts in its
    descriptor rings, request headers and data buffers, the device touches no file of
    the host but its own disk image; of the image it changes neither the length nor
    any byte past the last whole sector, and a read-only image it does not change at
    all.  No access reaches undefined behaviour, and the host's reads and writes may
    fail or be short at any point. *)
Theorem blk_disk_protected `{TranslateCallbacks} `{MsixCallbacks} `{IrqCallbacks} `{BlockHost}
    `{!FileHost} fuel steps d I `{!DmaPort fuel d I} dev l w :
  guest_state d (blk_dma_ops d) 1 (blk_client d) (blk_ready d I dev) w -> Forall access_ok l ->
  safe (run_accesses (H := blk_dma fuel) (H0 := blk_callbacks fuel steps) d l)
    (fun _ w' => guest_state d (blk_dma_ops d) 1 (blk_client d) (blk_ready d I dev) w' /\
       disk_kept dev w w') w.
Proof.
  intros (pdev & Hp & Hok & Hn & Hc & Hr) Hl. eapply safe_mono.
  - eapply (run_accesses_safe d (blk_dma_ops d) 1 (blk_client d) (blk_model d I dev w)); [|done].
    by exists pdev.
  - intros u w' (pdev' & Hp' & Hok' & Hn' & Hc' & Hr' & Hk). split; [by exists pdev'|done].
Qed.

(** * Data transfer, against a reference that does it in one piece *)

(** A host whose disk works: reading and writing inside a file makes progress. *)
Class LiveHost `{FileHost} : Prop := {
  live_pread fd n offset content count data w w' :
    w_files w !! fd = Some content -> 0 < n -> 0 <= offset ->
    offset + n <= Z.of_nat (length content) ->
    sys_pread fd n offset w = Ok ((count, data), w') -> 0 < count;
  live_pwrite fd data offset content count w w' :
    w_files w !! fd = Some content -> data <> [] -> 0 <= offset ->
    offset + Z.of_nat (length data) <= Z.of_nat (length content) ->
    sys_pwrite fd data offset w = Ok (count, w') -> 0 < count;
}.

(** The file [fd] as a whole. *)
Definition load_file (fd : Z) : M World (list Z) :=
  let* files := gets w_files in deref (files !! fd).
Definition store_file (fd : Z) (content : list Z) : M World unit :=
  modify (fun w => w <| w_files ::= <[fd := content]> |>).

Lemma load_file_eq fd c w : w_files w !! fd = Some c -> load_file fd w = Ok (c, w).
Proof. intros Hc. unfold load_file, bind, gets, deref. by rewrite Hc. Qed.

Section Reference.
Context `{TranslateCallbacks} `{MsixCallbacks} `{IrqCallbacks} (fuel : nat).

(** A segment copied in one piece. *)
Definition reference_segment (device : ptr) (fd : Z) (to_guest : bool)
    (s : VartVirtioDescriptor) (offset : Z) : M World Z :=
  let* allocated := allocate in
  if negb allocated then ret (-ENOMEM)
  else if to_guest then
    let* content := load_file fd in
    let* err := virtio_blk_dma_write fuel (Some device) (d_address s)
                  (file_slice content offset (d_length s)) in
    ret (if err <? 0 then -EIO else 0)
  else
    let* (err, data) := virtio_blk_dma_read fuel (Some device) (d_address s)
                          (replicate (Z.to_nat (d_length s)) 0) in
    if err <? 0 then ret (-EIO)
    else
      let* content := load_file fd in
      store_file fd (file_write content offset data) ;;;
      ret 0.

(** The segments one after the other; the second result is the number of bytes in
    the segments that were transferred. *)
Fixpoint reference_loop (device : ptr) (fd : Z) (to_guest : bool)
    (l : list VartVirtioDescriptor) (start done : Z) : M World (Z * Z) :=
  match l with
  | [] => ret (0, done)
  | s :: l =>
      let* err := reference_segment device fd to_guest s (start + done) in
      if err <? 0 then ret (err, done)
      else reference_loop device fd to_guest l start (done + d_length s)
  end.

(** The request is for a positive number of whole sectors of the disk, at most
    4 GiB, in segments of at most 1 MiB that all go the right way. *)
Definition request_valid (dev : VartVirtioBlkDevice) (to_guest : bool)
    (l : list VartVirtioDescriptor) (sector : Z) : Prop :=
  Forall (fun s => 0 < d_length s <= VART_VIRTIO_BLK_MAX_SEGMENT /\
            bits (d_flags s) VART_VIRTIO_DESC_F_WRITE = to_guest) l /\
  0 < seg_total l <= UINT32_MAX /\ seg_total l mod 512 = 0 /\
  sector * 512 + seg_total l <= blk_capacity_sectors dev * 512.
#[export] Instance request_valid_dec dev to_guest l sector :
  Decision (request_valid dev to_guest l sector).
Proof. unfold request_valid. apply _. Defined.

Definition reference_io (device : ptr) (chain : VartVirtioChain) (type sector : Z)
    : M World (Z * Z) :=
  let* dev := load_blk device in
  let to_guest := type =? VIRTIO_BLK_T_IN in
  let segments := data_segments chain in
  if decide (request_valid dev to_guest segments sector)
  then reference_loop device (blk_fd dev) to_guest segments (sector * 512) 0
  else ret (-EINVAL, 0).
End Reference.

Section Live.
Context `{HB : BlockHost} `{HF : !FileHost} `{HL : !LiveHost}.

Lemma pread_loop_live fd c len w :
  w_files w !! fd = Some c -> forall steps offset buf,
  0 <= offset -> Z.of_nat (length buf) <= len -> len - Z.of_nat (length buf) <= Z.of_nat steps ->
  offset + (len - Z.of_nat (length buf)) <= Z.of_nat (length c) ->
  pread_loop steps fd len offset buf w =
    Ok ((0, buf ++ file_slice c offset (len - Z.of_nat (length buf)),
         offset + (len - Z.of_nat (length buf))), w).
Proof using HL.
  intros Hc. assert (forall offset buf, Z.of_nat (length buf) = len ->
    Ok ((0, buf, offset), w) = Ok ((0, buf ++ file_slice c offset (len - Z.of_nat (length buf)),
      offset + (len - Z.of_nat (length buf))), w)) as Hdone.
  { intros offset buf <-. rewrite Z.sub_diag, Z.add_0_r. unfold file_slice. cbn.
    by rewrite take_0, app_nil_r. }
  induction steps as [|steps IH]; intros offset buf Ho Hl Hs Hin; cbn [pread_loop].
  { destruct (Z.leb_spec len (Z.of_nat (length buf))); [|lia]. apply Hdone. lia. }
  destruct (Z.leb_spec len (Z.of_nat (length buf))); [apply Hdone; lia|].
  destruct (host_pread fd (len - Z.of_nat (length buf)) offset w ltac:(lia))
    as (count & data & Hrun & Hle & Hdata).
  assert (0 < count) as Hpos by (eapply live_pread; [exact Hc|..|exact Hrun]; lia).
  destruct (Hdata Hpos) as (c' & Hc' & _ & -> & Hcnt). simplify_eq.
  rewrite (bind_eq _ _ _ _ _ Hrun). destruct (Z.leb_spec count 0); [lia|].
  rewrite IH; rewrite ?length_app, ?Nat2Z.inj_add, ?Hcnt; try lia.
  set (n := Z.of_nat (length buf)) in *.
  replace (len - n) with (count + (len - (n + count))) by lia.
  rewrite <- app_assoc, file_slice_app by lia. by rewrite Z.add_assoc.
Qed.

Lemma pwrite_loop_live_err fd : forall steps offset buf c w,
  w_files w !! fd = Some c -> 0 <= offset ->
  offset + Z.of_nat (length buf) <= Z.of_nat (length c) ->
  (length buf <= steps)%nat ->
  wp (pwrite_loop steps fd offset buf) (fun '(err, _) _ => err = 0) w.
Proof using HL.
  induction steps as [|steps IH]; intros offset buf c w Hc Ho Hl Hs; cbn [pwrite_loop];
    (destruct buf as [|b0 buf0] eqn:Hbuf; [by wsteps|]); rewrite <- Hbuf in *;
    assert (buf <> []) as Hne by congruence; clear Hbuf b0 buf0.
  { destruct buf; [done|cbn in Hs; lia]. }
  destruct (host_pwrite fd buf offset w Hne) as (count & w1 & Hrun & Hle & _ & Hw1).
  assert (0 < count) as Hpos by (eapply live_pwrite; [exact Hc|..|exact Hrun]; done).
  wstep. unfold wp at 1. rewrite Hrun. destruct (Z.leb_spec count 0); [lia|].
  destruct (Hw1 Hpos) as (c0 & Hc0 & _ & ->). simplify_eq. set (k := Z.to_nat count) in *.
  apply (IH _ _ (file_write c offset (take k buf))).
  - cbn. by rewrite lookup_insert_eq.
  - lia.
  - rewrite length_drop, file_write_length; rewrite ?length_take; lia.
  - rewrite length_drop. lia.
Qed.

Lemma pwrite_loop_live fd steps offset buf c w :
  w_files w !! fd = Some c -> 0 <= offset ->
  offset + Z.of_nat (length buf) <= Z.of_nat (length c) -> (length buf <= steps)%nat ->
  pwrite_loop steps fd offset buf w =
    Ok ((0, offset + Z.of_nat (length buf)),
        w <| w_files ::= <[fd := file_write c offset buf]> |>).
Proof using HL.
  intros Hc Ho Hl Hs.
  pose proof (pwrite_loop_live_err fd steps offset buf c w Hc Ho Hl Hs)
    as ([err o] & w1 & Hrun & ->)%wp_ok.
  pose proof (pwrite_loop_spec fd steps offset buf c w Hc Ho Hl Hs) as Hspec.
  unfold wp in Hspec. rewrite Hrun in Hspec.
  destruct Hspec as (k & _ & -> & -> & _ & Hk). rewrite Hk in * by lia.
  rewrite Hrun. by rewrite firstn_all.
Qed.
End Live.

(** Two computations that begin with the same step. *)
Lemma run_bind_same {W A B C} (m : M W A) (k : A -> M W B) (k' : A -> M W C) w
    (r : outcome (B * W)) (r' : outcome (C * W)) :
  r <> UB -> r <> NoFuel ->
  (forall a w1, m w = Ok (a, w1) -> k a w1 = r -> k' a w1 = r') ->
  bind m k w = r -> bind m k' w = r'.
Proof. unfold bind. destruct (m w) as [[a w1]| |]; [by auto|congruence|congruence]. Qed.

Section Equivalence.
Context `{TranslateCallbacks} `{MsixCallbacks} `{IrqCallbacks} `{BlockHost} `{HF : !FileHost}
  `{HL : !LiveHost} (fuel : nat) (d : ptr) (I : World -> Prop) `{HP : !DmaPort fuel d I}
  (dev : VartVirtioBlkDevice).
Abbreviation ready := (blk_ready d I dev).

Definition seg_fits (to_guest : bool) (s : VartVirtioDescriptor) : Prop :=
  0 < d_length s <= VART_VIRTIO_BLK_MAX_SEGMENT /\
  bits (d_flags s) VART_VIRTIO_DESC_F_WRITE = to_guest.

Lemma seg_total_pos to_guest l : Forall (seg_fits to_guest) l -> 0 <= seg_total l.
Proof. induction 1 as [|s l [? _] _ IH]; [done|]. rewrite seg_total_cons. lia. Qed.

Lemma check_segments_iff to_guest l : forall total r,
  0 <= total <= UINT64_MAX -> Forall descriptor_ok l ->
  check_segments to_guest l total = Some r <->
    Forall (seg_fits to_guest) l /\ r = total + seg_total l /\ total + seg_total l <= UINT64_MAX.
Proof.
  induction l as [|s l IH]; intros total r Ht Hl; cbn [check_segments].
  { cbn. rewrite Z.add_0_r. split; [intros [= <-]; split_and!; [done|done|lia]|].
    by intros (_ & -> & _). }
  rewrite seg_total_cons, Forall_cons. apply Forall_cons in Hl as [Hs Hl].
  pose proof (dk_length _ Hs) as Hlen. unfold seg_fits at 1.
  destruct (_ || _) eqn:Hg.
  - split; [done|]. intros ([[Hfit Hdir] Hall] & _ & Hsum). exfalso.
    pose proof (seg_total_pos _ _ Hall). rewrite Hdir, eqb_reflx in Hg. cbn in Hg. lia.
  - rewrite !orb_false_iff, negb_false_iff in Hg. destruct Hg as [[[Hz Hm] Hdir%eqb_prop] Ho].
    rewrite (IH (total + d_length s)) by (done || lia). rewrite Z.add_assoc. split.
    + intros (Hall & -> & Hsum). split_and!; try done; lia.
    + by intros ([_ Hall] & -> & Hsum).
Qed.

Lemma offset_valid_eq sector total :
  0 <= sector -> 0 <= total -> 0 <= blk_capacity_sectors dev -> blk_limit dev < 2 ^ 63 ->
  virtio_blk_offset_valid dev sector total =
    if decide (sector * 512 + total <= blk_limit dev) then Some (sector * 512) else None.
Proof.
  intros Hs Ht Hc Hlim. case_decide as Hin.
  - unfold virtio_blk_offset_valid, blk_limit, s64 in *.
    assert (sector <= UINT64_MAX / 512) by (apply Z.div_le_lower_bound; lia).
    assert (blk_capacity_sectors dev <= UINT64_MAX / 512) by (apply Z.div_le_lower_bound; lia).
    rewrite !u64_small by lia.
    repeat match goal with |- context [?x <? ?y] => destruct (Z.ltb_spec x y); try lia end.
    cbn [orb]. by rewrite u64_small, Z.eqb_refl by lia.
  - destruct (virtio_blk_offset_valid _ _ _) eqn:Hv; [|done].
    apply offset_valid_spec in Hv as [-> ?]; done || lia.
Qed.

(** The segments of a device that passed the checks. *)
Lemma transfer_segment_reference to_guest s offset w :
  ready w -> seg_ok s -> 0 <= offset -> offset + d_length s <= blk_limit dev ->
  (to_guest = false -> blk_readonly dev = false) ->
  exists err offset' w',
    transfer_segment fuel d (blk_fd dev) to_guest s offset w = Ok ((err, offset'), w') /\
    reference_segment fuel d (blk_fd dev) to_guest s offset w = Ok (err, w') /\
    (0 <= err -> offset' = offset + d_length s) /\ ready w'.
Proof using HP HL.
  intros Hw Hs Ho Hl Hro.
  pose proof (transfer_segment_safe fuel d I dev to_guest s offset w Hw Hs Ho Hl Hro)
    as ([err offset'] & w' & Hrun & Hw' & _ & Herr & Hoff)%wp_ok.
  exists err, offset', w'. split_and!; [done| |done|done].
  destruct Hs as [[Ha _ _ _] Hlen]. revert Hrun. unfold transfer_segment, reference_segment.
  apply run_bind_same; [done|done|]. intros ok w1 Hal.
  assert (ready w1) as Hw1.
  { pose proof (wp_allocate_ready fuel d I dev (fun _ w' => ready w') w Hw ltac:(by auto)) as Hwp.
    unfold wp in Hwp. by rewrite Hal in Hwp. }
  destruct (dko_file _ _ (bk_disk _ _ _ _ Hw1)) as (c & Hc & Hcb & Hcl).
  destruct ok; cbn [negb]; [|unfold ret; intros; by simplify_eq]. destruct to_guest.
  - pose proof (pread_loop_live _ c (d_length s) w1 Hc (Z.to_nat (d_length s)) offset [])
      as Hrd. cbn [length app Z.of_nat] in Hrd. rewrite Z.sub_0_r in Hrd.
    rewrite (bind_eq _ _ _ _ _ (Hrd Ho ltac:(lia) ltac:(lia) ltac:(lia))).
    rewrite (bind_eq _ _ _ _ _ (load_file_eq _ _ _ Hc)).
    cbv beta iota. change (0 <? 0) with false. cbv iota.
    apply run_bind_same; [done|done|]. intros e w2 _. unfold ret.
    destruct (e <? 0); intros; by simplify_eq.
  - apply run_bind_same; [done|done|]. intros [e data] w2 Hrd.
    destruct (e <? 0); [unfold ret; intros; by simplify_eq|].
    assert (length data = Z.to_nat (d_length s) /\ w_files w2 = w_files w1) as [Hld Hf2].
    { assert (wp (virtio_blk_dma_read fuel (Some d) (d_address s) (replicate (Z.to_nat (d_length s)) 0))
        (fun '(_, data) w2 => length data = Z.to_nat (d_length s) /\ w_files w2 = w_files w1) w1) as Hwp.
      { eapply (wp_dma_read fuel d I); [apply Hw1|done| |].
        - split; [by apply Forall_replicate|rewrite length_replicate; lia].
        - intros e' data' w2' Hld' _ _ Hm. rewrite length_replicate in Hld'. by destruct Hm. }
      unfold wp in Hwp. by rewrite Hrd in Hwp. }
    rewrite <- Hf2 in Hc. rewrite (pwrite_loop_live _ _ _ _ c) by (done || lia).
    rewrite (bind_eq _ _ _ _ _ (load_file_eq _ _ _ Hc)). unfold store_file, bind, modify, ret.
    intros; by simplify_eq.
Qed.

Lemma transfer_loop_reference to_guest start l : forall moved w,
  ready w -> Forall seg_ok l -> 0 <= start -> 0 <= moved -> moved + seg_total l <= UINT32_MAX ->
  start + moved + seg_total l <= blk_limit dev ->
  (to_guest = false -> blk_readonly dev = false) ->
  transfer_loop fuel d (blk_fd dev) to_guest l (start + moved) moved w =
    reference_loop fuel d (blk_fd dev) to_guest l start moved w.
Proof using HP HL.
  induction l as [|s l IH]; intros moved w Hw Hl Hst Hd Hu Hlim Hro; [done|].
  cbn [transfer_loop reference_loop]. rewrite seg_total_cons in *.
  apply Forall_cons in Hl as [Hs Hl].
  assert (0 <= seg_total l) as Hpos.
  { clear -Hl. induction Hl as [|s l [_ ?] _ IH]; [done|]. rewrite seg_total_cons. lia. }
  destruct (transfer_segment_reference to_guest s (start + moved) w) as
    (err & offset' & w1 & Ht & Hr & Hoff & Hw1); [done|done|lia|lia|done|].
  destruct Hs as [_ Hlen]. rewrite (bind_eq _ _ _ _ _ Ht), (bind_eq _ _ _ _ _ Hr). cbv beta iota.
  destruct (Z.ltb_spec err 0); [done|]. rewrite Hoff, u32_small by lia.
  rewrite <- Z.add_assoc. apply IH; try done; lia.
Qed.

Lemma blk_io_equiv chain type sector w :
  ready w -> Forall descriptor_ok (ch_descriptors chain) -> 0 <= sector ->
  (type <> VIRTIO_BLK_T_IN -> blk_readonly dev = false) ->
  virtio_blk_io fuel d chain type sector 0 w = reference_io fuel d chain type sector w.
Proof using HP HL.
  intros Hw Hch Hs Hro. pose proof (bk_dev _ _ _ _ Hw) as Hdev. pose proof Hw as [_ _ [Hcap Hsm _]].
  assert (load_blk d w = Ok (dev, w)) as Hload.
  { unfold load_blk, bind, get, deref. by rewrite Hdev. }
  unfold virtio_blk_io, reference_io. rewrite !(bind_eq _ _ _ _ _ Hload). cbv zeta.
  set (to_guest := type =? VIRTIO_BLK_T_IN) in *. set (l := data_segments chain).
  assert (Forall descriptor_ok l) as Hdl by (by apply Forall_take, Forall_drop).
  pose proof (check_segments_iff to_guest l 0) as Hck.
  destruct (decide _) as [(Hfit & Htot & Hmod & Hin)|Hbad].
  - rewrite (proj2 (Hck (seg_total l) ltac:(lia) Hdl)); [|split_and!; [done|lia|lia]].
    rewrite Hmod. destruct (Z.eqb_spec (seg_total l) 0); [lia|].
    destruct (Z.ltb_spec UINT32_MAX (seg_total l)); [lia|]. cbn [orb negb Z.eqb].
    rewrite offset_valid_eq by (done || lia). rewrite decide_True by done.
    rewrite <- (Z.add_0_r (sector * 512)) at 1. apply transfer_loop_reference; try (done || lia).
    + apply Forall_forall. intros s Hs'. rewrite Forall_forall in Hfit, Hdl.
      split; [by apply Hdl|]. by apply Hfit.
    + rewrite Z.add_0_r. exact Hin.
    + intros Hg. apply Hro. unfold to_guest in Hg. lia.
  - destruct (check_segments to_guest l 0) as [total|] eqn:Hc in |- *; [|done].
    apply Hck in Hc as (Hfit & -> & Hle); [|lia|done]. rewrite Z.add_0_l in *.
    pose proof (seg_total_pos _ _ Hfit). destruct (_ || _) eqn:Hg; [done|].
    rewrite !orb_false_iff, negb_false_iff in Hg. destruct Hg as [[Hg1 Hg2] Hg3].
    rewrite offset_valid_eq by (done || lia). rewrite decide_False; [done|].
    intros Hin. apply Hbad. split_and!; [done|lia|lia|lia|exact Hin].
Qed.
End Equivalence.

(** C10. Short transfers do not show.  For a disk that works (each [pread] and
    [pwrite] inside the file moves at least one byte, as few as the host likes),
    [virtio_blk_io] computes exactly what a reference computes that copies each
    segment in one piece: it refuses the request unless it is for a positive number
    of whole sectors inside the disk, at most 4 GiB, in segments of at most 1 MiB
    that go the right way; otherwise the segments are moved in order between guest
    memory and consecutive offsets of the file from the first sector on, the length
    reported is that of the segments moved, and the first segment that guest memory
    or the allocator refuses ends the request with its error. *)
Theorem blk_io_matches_reference `{TranslateCallbacks} `{MsixCallbacks} `{IrqCallbacks}
    `{BlockHost} `{!FileHost} `{!LiveHost} fuel d I `{!DmaPort fuel d I} dev chain type sector w :
  blk_ready d I dev w -> Forall descriptor_ok (ch_descriptors chain) -> 0 <= sector ->
  (type <> VIRTIO_BLK_T_IN -> blk_readonly dev = false) ->
  virtio_blk_io fuel d chain type sector 0 w = reference_io fuel d chain type sector w.
Proof. by apply blk_io_equiv. Qed.

(** * A concrete disk

    Two sectors and 100 spare bytes, behind a function whose DMA reaches 2 KiB of
    RAM; the host moves at most 100 bytes per call. *)
Module VirtioBlkDemo.
Import PortDemo.

Definition chunk : Z := 100.

#[export] Instance host : BlockHost := {|
  sys_open _ _ := ret 7;
  sys_fstat fd w :=
    match w_files w !! fd with
    | Some c => Ok ((0, true, Z.of_nat (length c)), w)
    | None => Ok ((-9, false, 0), w)
    end;
  sys_pread fd n offset w :=
    match w_files w !! fd with
    | Some c =>
        let data := file_slice c offset (Z.min n chunk) in
        Ok (if 0 <=? offset then (Z.of_nat (length data), data) else (-EINVAL, []), w)
    | None => Ok ((-9, []), w)
    end;
  sys_pwrite fd data offset w :=
    match w_files w !! fd with
    | Some c =>
        if 0 <=? offset then
          let data := take (Z.to_nat chunk) data in
          Ok (Z.of_nat (length data), w <| w_files ::= <[fd := file_write c offset data]> |>)
        else Ok (-EINVAL, w)
    | None => Ok (-9, w)
    end;
  sys_fsync _ := ret 0;
  sys_close _ := ret tt;
|}.

Lemma take_min {A} n (l : list A) : take (n `min` length l) l = take n l.
Proof. rewrite <- take_take. by rewrite firstn_all. Qed.
Lemma slice_length c offset n :
  0 <= n -> Z.of_nat (length (file_slice c offset n)) <= n.
Proof. intros. unfold file_slice. rewrite length_take. lia. Qed.

#[export] Instance file_host : FileHost.
Proof.
  split.
  - intros fd n offset w Hn. cbn. destruct (w_files w !! fd) as [c|];
      [|eexists _, _; split_and!; [done|lia|intros; lia]].
    set (data := file_slice c offset (Z.min n chunk)).
    pose proof (slice_length c offset (Z.min n chunk) ltac:(unfold chunk; lia)) as Hl. fold data in Hl.
    destruct (Z.leb_spec 0 offset); [|eexists _, _; split_and!; [done|lia|intros; lia]].
    exists (Z.of_nat (length data)), data. split_and!; [done|lia|]. intros Hp. exists c.
    split_and!; [done|done| |done]. unfold data, file_slice in *. rewrite Nat2Z.id.
    by rewrite length_take, take_min.
  - intros fd data offset w Hne. cbn. destruct (w_files w !! fd) as [c|];
      [|eexists _, _; split_and!; [done|lia|done|intros; lia]].
    destruct (Z.leb_spec 0 offset); [|eexists _, _; split_and!; [done|lia|done|intros; lia]].
    eexists _, _. split_and!; [done|rewrite length_take; lia| |].
    + intros Hle. exfalso. destruct data; [done|]. revert Hle. rewrite length_take.
      unfold chunk. cbn [length]. lia.
    + intros _. exists c. split_and!; [done|done|].
      by rewrite Nat2Z.id, length_take, take_min.
  - intros fd w. by exists 0.
Qed.
#[export] Instance live_host : LiveHost.
Proof.
  split.
  - intros fd n offset c count data w w' Hc Hn Ho Hin. cbn. rewrite Hc.
    destruct (Z.leb_spec 0 offset); [|lia]. intros [= <- _ _]. unfold file_slice, chunk.
    rewrite length_take, length_drop. lia.
  - intros fd data offset c count w w' Hc Hne Ho Hin. cbn. rewrite Hc.
    destruct (Z.leb_spec 0 offset); [|lia]. intros [= <- _]. destruct data; [done|].
    rewrite length_take. unfold chunk. cbn [length]. lia.
Qed.

Definition image : list Z := map (fun i => Z.of_nat i mod 256) (seq 0 1124).

(** Guest memory: the header of a write of one sector to sector 1, three descriptors
    (header, data, status) and one entry of the available ring. *)
Definition memory : gmap Z Z :=
  poke 0x00 (descriptor 0x100 16 1 1 ++ descriptor 0x200 512 1 2 ++ descriptor 0x400 1 2 0)
  (poke 0x40 [0; 0; 1; 0; 0; 0]
  (poke 0x100 (store_le 4 1 ++ store_le 4 0 ++ store_le 8 1)
  (poke 0x200 (replicate 512 0xab) (mem_map ∅ 0x1000 2048)))).

Definition d0 : World := empty_world
  <| w_devices := {[fn := zero_pci_device [10; 11; 12; 13; 14; 15]%positive 16%positive 17%positive]} |>
  <| w_virtio_pcis := {[fn := zero_virtio_pci]} |> <| w_blks := {[fn := zero_blk]} |>
  <| w_files := {[7 := image]} |>.
Definition d1 := exec (vart_address_space_init sys) d0.
Definition d2 := exec (vart_address_region_init_ram (Some ram) 0 2048 (-1) None (Some 0x1000)) d1.
Definition d3 := exec (vart_address_space_add (Some sys) (Some ram)) d2.
Definition d4 := exec (vart_virtio_blk_init 1 (Some fn) (Some []) false (Some sys)) d3.
Example d4_ready : option_map (fun b => (blk_capacity_sectors b, blk_initialized b)) (w_blks d4 !! fn)
  = Some (2, true).
Proof. vm_compute. reflexivity. Qed.

(** The driver sets up the queue and notifies the device, which is on a bus with bus
    mastering enabled. *)
Definition program : list guest_access :=
  [guest_write 0x16 2 0; guest_write 0x18 2 4; guest_write 0x20 4 0; guest_write 0x24 4 0;
   guest_write 0x28 4 0x40; guest_write 0x2c 4 0; guest_write 0x30 4 0x80; guest_write 0x34 4 0;
   guest_write 0x1c 2 1; guest_write 0x100 2 0].
Definition d5 : World := d4 <| w_host := memory |> <| w_devices ::= alter (fun p =>
  p <| pci_bus := Some 2%positive |> <| pci_bus_master_enabled := true |>) fn |>.
Definition run (l : list guest_access) :=
  run_accesses (H := blk_dma 1) (H0 := blk_callbacks 1 4) fn l.
Definition d6 := exec (run program) d5.

(** The sector was written, 100 bytes at a time, and the status says so. *)
Example sector_written :
  (option_map (fun c => (length c, take 3 (drop 511 c), drop 1023 c)) (w_files d6 !! 7),
   mem_read (w_host d6) 0x1400 1, mem_read (w_host d6) 0x1080 12) =
  (Some (1124%nat, [0xff; 0xab; 0xab], 0xab :: drop 1024 image), Some [0],
   Some [0; 0; 1; 0; 0; 0; 0; 0; 0; 2; 0; 0]).
Proof. vm_compute. reflexivity. Qed.

Definition blk5 : VartVirtioBlkDevice := mkBlk 7 2 512 false true.
Definition dev5 : VartVirtioPciDevice := default zero_virtio_pci (w_virtio_pcis d5 !! fn).
Definition pci5 : VartPciDevice :=
  default (zero_pci_device [] 1%positive 1%positive) (w_devices d5 !! fn).

Lemma d5_lone : lone_ram d5.
Proof.
  split_and!; [vm_compute; reflexivity..|]. apply (bool_decide_unpack _). vm_compute. exact Logic.I.
Qed.
Lemma d5_host : w_host d5 = memory.
Proof. reflexivity. Qed.
Lemma blk_memory_bytes : bytes_mem memory.
Proof.
  unfold memory.
  do 4 (apply poke_ram_bytes; [|repeat apply Forall_app_2; (apply store_le_bytes || by repeat constructor)]).
  intros x b. rewrite mem_map_lookup. case_decide; [|by rewrite lookup_empty]. by intros [= <-].
Qed.
Lemma blk_memory_mapped x : 0x1000 <= x < 0x1800 -> is_Some (memory !! x).
Proof.
  intros Hx. unfold memory. do 4 apply poke_ram_dom. rewrite mem_map_lookup.
  by rewrite decide_True by lia.
Qed.

Lemma d5_device : w_devices d5 !! fn = Some pci5 /\ dev_dma_as (pci_parent pci5) = Some sys.
Proof. vm_compute. done. Qed.
Definition msix5 : VartPciMsix := pci_msix pci5.
Lemma msix5_plain : plain_msix msix5.
Proof. apply (plain_msix_intro 2); [lia|vm_compute; reflexivity..]. Qed.

Lemma d5_port : plain_port fn sys d5.
Proof.
  apply (lone_ram_port _ pci5); rewrite ?d5_host;
    [apply d5_lone|apply blk_memory_bytes|apply blk_memory_mapped|apply d5_device..|apply msix5_plain].
Qed.

Lemma d5_file : w_files d5 = {[7 := image]}.
Proof. vm_compute. reflexivity. Qed.
Lemma image_bytes : Forall byte_ok image.
Proof.
  apply Forall_map, Forall_forall. intros i _. unfold compose. pose proof (Z.mod_pos_bound (Z.of_nat i) 256).
  unfold byte_ok. cbn. lia.
Qed.

Lemma d5_blk_ready : blk_ready fn (plain_port fn sys) blk5 d5.
Proof.
  split; [apply d5_port|vm_compute; reflexivity|]. split; [done|done|].
  exists image. rewrite d5_file. split_and!; [done|apply image_bytes|done].
Qed.

Lemma dev5_count : vp_queue_count dev5 = 1.
Proof. vm_compute. reflexivity. Qed.
Lemma dev5_ok : vp_ok (blk_dma_ops fn) dev5.
Proof. apply (initial_vp_ok _ 1); [lia|vm_compute; reflexivity..]. Qed.
Lemma d5_virtio : w_virtio_pcis d5 !! fn = Some dev5 /\ vp_client dev5 = blk_client fn.
Proof. vm_compute. done. Qed.

Lemma blk_disk_protected_witness :
  safe (run program)
    (fun _ w' => guest_state fn (blk_dma_ops fn) 1 (blk_client fn)
         (blk_ready fn (plain_port fn sys) blk5) w' /\ disk_kept blk5 d5 w') d5.
Proof.
  unfold run. apply (blk_disk_protected 1 4 fn (plain_port fn sys) blk5 program d5).
  - exists dev5. split_and!; [apply d5_virtio|apply dev5_ok|apply dev5_count|apply d5_virtio
      |apply d5_blk_ready].
  - repeat (apply Forall_cons; split; [unfold access_ok, access_size; lia|]). by apply Forall_nil.
Defined.

(** The chain of the request in guest memory. *)
Definition chain5 : VartVirtioChain := mkChain 0 3
  [mkDescriptor 0x100 16 1 1; mkDescriptor 0x200 512 1 2; mkDescriptor 0x400 1 2 0].
Lemma blk_io_matches_reference_witness :
  virtio_blk_io 1 fn chain5 VIRTIO_BLK_T_OUT 1 0 d5 = reference_io 1 fn chain5 VIRTIO_BLK_T_OUT 1 d5.
Proof.
  apply (blk_io_matches_reference 1 fn (plain_port fn sys) blk5).
  - apply d5_blk_ready.
  - repeat constructor; cbn; unfold u64_arg; lia.
  - lia.
  - done.
Defined.
End VirtioBlkDemo.
