(* ===== verification/EventLoop.v ===== *)
(** The event loop: [src/event/event-loop.c].

    A loop holds an array of the sources registered with it.  One turn polls the
    descriptors of all sources and calls the callbacks of those that are ready.  A
    callback, or another thread while the loop waits, may register, change or remove
    any source; a source carries a generation that every such change advances, and
    the loop compares it with the generation it saw before it polled. *)

From stdpp Require Import base tactics numbers list gmap.
From Stdlib Require Import ZArith Lia.
From S2P Require Import Prelude Bytes Machine.

Abbreviation EINTR := 4 (only parsing).
Abbreviation VART_EVENT_READ := 1 (only parsing).
Abbreviation VART_EVENT_WRITE := 2 (only parsing).
Abbreviation VART_EVENT_ERROR := 4 (only parsing).
Abbreviation VART_EVENT_HANGUP := 8 (only parsing).
(** [~VART_EVENT_INTERESTS] *)
Abbreviation not_interests := 0xfffffffc (only parsing).
Abbreviation POLLIN := 1 (only parsing).
Abbreviation POLLOUT := 4 (only parsing).
Abbreviation POLLERR := 8 (only parsing).
Abbreviation POLLHUP := 16 (only parsing).
Abbreviation POLLNVAL := 32 (only parsing).

(** System calls; a negative result is [-errno].  [sys_poll] takes the pairs of
    descriptor and requested events and gives the returned events. *)
Class EventHost := {
  sys_eventfd : M World Z;
  sys_eventfd_write : Z -> M World Z;
  sys_eventfd_read : Z -> M World Z;
  sys_eventfd_close : Z -> M World unit;
  sys_poll : list (Z * Z) -> Z -> M World (Z * list Z);
}.

(** The callbacks of sources. *)
Class EventCallbacks := call_event : fnptr -> ptr -> Z -> option ptr -> M World Z.

Record VartPollEntry := mkPollEntry { pe_source : ptr; pe_generation : Z }.

Definition events_to_poll (events : Z) : Z :=
  Z.lor (if bits events VART_EVENT_READ then POLLIN else 0)
    (if bits events VART_EVENT_WRITE then POLLOUT else 0).

Definition events_from_poll (events : Z) : Z :=
  Z.lor (Z.lor (Z.lor (if bits events POLLIN then VART_EVENT_READ else 0)
    (if bits events POLLOUT then VART_EVENT_WRITE else 0))
    (if bits events (Z.lor POLLERR POLLNVAL) then VART_EVENT_ERROR else 0))
    (if bits events POLLHUP then VART_EVENT_HANGUP else 0).

Definition zero_source : VartEventSource := mkSource None None None 0 0 0 false.
Definition zero_loop : VartEventLoop := mkLoop [] 0 0 false.

Section Loop.
Context `{EventHost}.

Definition vart_event_loop_init (loop : option ptr) : M World Z :=
  match loop with
  | None => ret (-EINVAL)
  | Some l =>
      let* fd := sys_eventfd in
      store_loop l (zero_loop <| loop_wake_fd := fd |>) ;;;
      if fd <? 0 then ret fd
      else store_loop l (zero_loop <| loop_wake_fd := fd |> <| loop_initialized := true |>) ;;; ret 0
  end.

(** [source->generation++] *)
Definition bump (v : VartEventSource) : VartEventSource :=
  v <| src_generation ::= (fun g => u64 (g + 1)) |>.

Definition unregister (v : VartEventSource) : VartEventSource :=
  bump (v <| src_loop := None |> <| src_registered := false |>).

Fixpoint unregister_all (l : list ptr) : M World unit :=
  match l with
  | [] => ret tt
  | s :: l =>
      let* v := load_source s in
      store_source s (unregister v) ;;;
      unregister_all l
  end.

Definition vart_event_loop_destroy (loop : option ptr) : M World unit :=
  match loop with
  | None => ret tt
  | Some l =>
      let* v := load_loop l in
      (if loop_initialized v then unregister_all (loop_sources v) else ret tt) ;;;
      (if loop_initialized v then sys_eventfd_close (loop_wake_fd v) else ret tt) ;;;
      store_loop l (zero_loop <| loop_wake_fd := -1 |>)
  end.

Definition vart_event_source_init (source : option ptr) : M World unit :=
  match source with
  | None => ret tt
  | Some s => store_source s (zero_source <| src_fd := -1 |>)
  end.

Definition grow_sources (v : VartEventLoop) : M World (Z + Z) :=
  if Z.of_nat (length (loop_sources v)) =? loop_capacity v then
    let cap := loop_capacity v in
    let capacity := if cap =? 0 then 8 else u64 (cap * 2) in
    if (capacity <? cap) || (SIZE_MAX / 8 <? capacity) then ret (inl (-EOVERFLOW))
    else
      let* ok := allocate in
      if ok then ret (inr capacity) else ret (inl (-ENOMEM))
  else ret (inr (loop_capacity v)).

Definition vart_event_add (loop source : option ptr) (fd events : Z)
    (callback : option fnptr) (opaque : option ptr) : M World Z :=
  match loop with
  | None => ret (-EINVAL)
  | Some l =>
      let* v := load_loop l in
      match negb (loop_initialized v), source, callback with
      | false, Some s, Some f =>
          if (fd <? 0) || bits events not_interests then ret (-EINVAL)
          else
            let* sv := load_source s in
            if src_registered sv then ret (-EEXIST)
            else
              let* grown := grow_sources v in
              match grown with
              | inl err => ret err
              | inr capacity =>
                  store_source s (mkSource (Some l) (Some f) opaque
                    (u64 (src_generation sv + 1)) fd events true) ;;;
                  store_loop l (v <| loop_capacity := capacity |>
                                  <| loop_sources ::= (fun x => x ++ [s]) |>) ;;;
                  ret 0
              end
      | _, _, _ => ret (-EINVAL)
      end
  end.

Definition vart_event_modify (source : option ptr) (events : Z) : M World Z :=
  match source with
  | None => ret (-EINVAL)
  | Some s =>
      let* v := load_source s in
      if negb (src_registered v) || bits events not_interests then ret (-EINVAL)
      else store_source s (bump (v <| src_events := events |>)) ;;; ret 0
  end.

Definition vart_event_remove (source : option ptr) : M World Z :=
  match source with
  | None => ret (-EINVAL)
  | Some s =>
      let* v := load_source s in
      match src_registered v, src_loop v with
      | true, Some l =>
          let* loop := load_loop l in
          if bool_decide (s ∈ loop_sources loop) then
            store_loop l (loop <| loop_sources ::= remove_first s |>) ;;;
            store_source s (unregister v) ;;;
            ret 0
          else ret (-ENOENT)
      | _, _ => ret (-EINVAL)
      end
  end.

(** [do ... while (count < 0 && errno == EINTR)] *)
Fixpoint retry (steps : nat) (call : M World Z) : M World Z :=
  match steps with
  | O => out_of_fuel
  | S steps =>
      let* count := call in
      if count =? -EINTR then retry steps call else ret count
  end.

(** The result of an 8-byte transfer on the event descriptor. *)
Definition eventfd_result (count : Z) : Z :=
  if (count =? 8) || (count =? -EAGAIN) then 0
  else if count <? 0 then count else -EIO.

Definition vart_event_loop_wake (steps : nat) (loop : option ptr) : M World Z :=
  match loop with
  | None => ret (-EINVAL)
  | Some l =>
      let* v := load_loop l in
      if negb (loop_initialized v) then ret (-EINVAL)
      else
        let* count := retry steps (sys_eventfd_write (loop_wake_fd v)) in
        ret (eventfd_result count)
  end.

Definition event_loop_drain_wake (steps : nat) (l : ptr) : M World Z :=
  let* v := load_loop l in
  let* count := retry steps (sys_eventfd_read (loop_wake_fd v)) in
  ret (eventfd_result count).

(** The first loop of a turn: what is polled and the generations seen. *)
Fixpoint poll_entries (l : list ptr) : M World (list (Z * Z) * list VartPollEntry) :=
  match l with
  | [] => ret ([], [])
  | s :: l =>
      let* v := load_source s in
      let* (fds, entries) := poll_entries l in
      ret ((if src_events v =? 0 then -1 else src_fd v, events_to_poll (src_events v)) :: fds,
           mkPollEntry s (src_generation v) :: entries)
  end.

Section Dispatch.
Context `{EventCallbacks}.

(** The second loop: the error of a callback or the number of callbacks called. *)
Fixpoint dispatch_loop (l : ptr) (entries : list VartPollEntry) (revents : list Z)
    (callbacks : Z) : M World Z :=
  match entries, revents with
  | [], _ => ret callbacks
  | _ :: _, [] => undefined
  | entry :: entries, r :: revents =>
      if r =? 0 then dispatch_loop l entries revents callbacks
      else
        let* v := load_source (pe_source entry) in
        if negb (src_registered v) || negb (bool_decide (src_loop v = Some l)) ||
           negb (src_generation v =? pe_generation entry)
        then dispatch_loop l entries revents callbacks
        else
          let events := events_from_poll r in
          if events =? 0 then dispatch_loop l entries revents callbacks
          else
            let* f := deref (src_callback v) in
            let* err := call_event f (pe_source entry) events (src_opaque v) in
            if err <? 0 then ret err
            else dispatch_loop l entries revents (callbacks + 1)
  end.

(** What follows [poll]. *)
Definition handle_events (steps : nat) (l : ptr) (entries : list VartPollEntry)
    (err : Z) (revents : list Z) : M World Z :=
  if err <? 0 then ret err
  else
    match revents with
    | [] => undefined
    | wake :: revents =>
        if bits wake (Z.lor (Z.lor POLLERR POLLHUP) POLLNVAL) then ret (-EIO)
        else
          let* err := if bits wake POLLIN then event_loop_drain_wake steps l else ret 0 in
          if err <? 0 then ret err else dispatch_loop l entries revents 0
    end.

Definition vart_event_loop_run_once (steps : nat) (loop : option ptr) (timeout_ms : Z)
    : M World Z :=
  match loop with
  | None => ret (-EINVAL)
  | Some l =>
      let* v := load_loop l in
      if negb (loop_initialized v) || (timeout_ms <? -1) then ret (-EINVAL)
      else
        let* ok1 := allocate in
        let* ok2 := if bool_decide (loop_sources v = []) then ret true else allocate in
        if negb ok1 || negb ok2 then ret (-ENOMEM)
        else
          let* (fds, entries) := poll_entries (loop_sources v) in
          let* (err, revents) := sys_poll ((loop_wake_fd v, POLLIN) :: fds) timeout_ms in
          handle_events steps l entries err revents
  end.
End Dispatch.
End Loop.

(** * The registry stays consistent *)

Record source_ok (v : VartEventSource) : Prop := {
  sro_loop : src_registered v = true <-> is_Some (src_loop v);
  sro_callback : src_registered v = true -> is_Some (src_callback v);
  sro_fd : src_registered v = true -> 0 <= src_fd v;
}.

(** The sources of a loop are distinct, exist and point back to it, and fit in its
    array; a source that points to a loop is in its array. *)
Record registry_ok (w : World) : Prop := {
  rg_source : forall s v, w_sources w !! s = Some v -> source_ok v;
  rg_nodup : forall l v, w_loops w !! l = Some v -> NoDup (loop_sources v);
  rg_fits : forall l v, w_loops w !! l = Some v ->
    Z.of_nat (length (loop_sources v)) <= loop_capacity v;
  rg_init : forall l v, w_loops w !! l = Some v -> loop_sources v <> [] ->
    loop_initialized v = true;
  rg_member : forall l v s, w_loops w !! l = Some v -> s ∈ loop_sources v ->
    exists sv, w_sources w !! s = Some sv /\ src_loop sv = Some l;
  rg_back : forall s sv l, w_sources w !! s = Some sv -> src_loop sv = Some l ->
    exists v, w_loops w !! l = Some v /\ s ∈ loop_sources v;
}.

(** Nothing of the registry changed. *)
Definition same_registry (w w' : World) : Prop :=
  w_sources w' = w_sources w /\ w_loops w' = w_loops w.

Lemma registry_ext w w' : same_registry w w' -> registry_ok w -> registry_ok w'.
Proof. intros [Hs Hl] []. by split; rewrite ?Hs, ?Hl. Qed.

Lemma allocate_registry w : wp allocate (fun _ w' => same_registry w w') w.
Proof. by apply wp_allocate. Qed.

Lemma grow_sources_spec v w :
  wp (grow_sources v)
    (fun r w' => same_registry w w' /\
       match r with
       | inl err => err < 0
       | inr cap => Z.of_nat (length (loop_sources v)) <= loop_capacity v ->
                    Z.of_nat (length (loop_sources v)) + 1 <= cap
       end) w.
Proof.
  unfold grow_sources.
  destruct (Z.eqb_spec (Z.of_nat (length (loop_sources v))) (loop_capacity v)).
  2: { wsteps. split; [done|lia]. }
  destruct (_ || _) eqn:Ho; [wsteps; split; [done|lia]|]. wstep.
  eapply wp_mono; [apply allocate_registry|]. intros [] w' Hw; wsteps; (split; [done|]); [|lia].
  intros _. destruct (Z.eqb_spec (loop_capacity v) 0); [lia|].
  unfold u64 in *. Z.to_euclidean_division_equations. lia.
Qed.

(** The three changes of the registry: of a source that stays where it is, its entry
    and its exit. *)
Lemma registry_store_source w s v v' :
  registry_ok w -> w_sources w !! s = Some v -> src_loop v' = src_loop v -> source_ok v' ->
  registry_ok (w <| w_sources ::= <[s := v']> |>).
Proof.
  intros [Hsrc Hnd Hfit Hini Hmem Hback] Hs Hl Hok. split; cbn; try done.
  - intros s0 v0. rewrite lookup_insert_Some. intros [[<- <-]|[_ H0]]; [done|]. by eapply Hsrc.
  - intros l lv s0 Hlv Hin. destruct (Hmem l lv s0 Hlv Hin) as (sv & Hsv & Hsl).
    destruct (decide (s0 = s)) as [->|Hne].
    + exists v'. rewrite lookup_insert_eq. split; [done|]. congruence.
    + exists sv. by rewrite lookup_insert_ne.
  - intros s0 v0 l. rewrite lookup_insert_Some. intros [[<- <-]|[_ H0]] Hl0; [|by eapply Hback].
    eapply Hback; [exact Hs|]. congruence.
Qed.

Lemma registry_enter w s l sv v cap v' :
  registry_ok w -> w_sources w !! s = Some sv -> src_loop sv = None ->
  w_loops w !! l = Some v -> loop_initialized v = true ->
  Z.of_nat (length (loop_sources v)) + 1 <= cap ->
  src_loop v' = Some l -> source_ok v' ->
  registry_ok (w <| w_sources ::= <[s := v']> |> <| w_loops ::= <[l :=
    v <| loop_capacity := cap |> <| loop_sources ::= (fun x => x ++ [s]) |>]> |>).
Proof.
  intros [Hsrc Hnd Hfit Hini Hmem Hback] Hs Hn Hv Hi Hcap Hl Hok.
  assert (forall l0 v0, w_loops w !! l0 = Some v0 -> s ∉ loop_sources v0) as Hout.
  { intros l0 v0 H0 Hin. destruct (Hmem l0 v0 s H0 Hin) as (sv' & Hs' & Hl'). congruence. }
  split; cbn.
  - intros s0 v0. rewrite lookup_insert_Some. intros [[<- <-]|[_ H0]]; [done|]. by eapply Hsrc.
  - intros l0 v0. rewrite lookup_insert_Some. intros [[<- <-]|[_ H0]]; [|by eapply Hnd].
    cbn. apply NoDup_app. split_and!; [by eapply Hnd| |apply NoDup_singleton].
    intros x Hx ->%list_elem_of_singleton. by eapply Hout.
  - intros l0 v0. rewrite lookup_insert_Some. intros [[<- <-]|[_ H0]]; [|by eapply Hfit].
    cbn. rewrite length_app. cbn. lia.
  - intros l0 v0. rewrite lookup_insert_Some. intros [[<- <-]|[_ H0]]; [done|by eapply Hini].
  - intros l0 v0 s0 H0 Hin. assert (s0 = s /\ l0 = l \/ s0 <> s /\
      exists v1, w_loops w !! l0 = Some v1 /\ s0 ∈ loop_sources v1) as [[-> ->]|[Hne (v1 & H1 & Hin1)]].
    { revert H0 Hin. rewrite lookup_insert_Some. intros [[<- <-]|[_ H0]] Hin.
      - cbn in Hin. apply elem_of_app in Hin as [Hin| ->%list_elem_of_singleton]; [|by left].
        right. split; [|by eauto]. intros ->. by eapply Hout.
      - right. split; [|by eauto]. intros ->. by eapply Hout. }
    + exists v'. by rewrite lookup_insert_eq.
    + rewrite lookup_insert_ne by done. by eapply Hmem.
  - intros s0 v0 l0. rewrite lookup_insert_Some. intros [[<- <-]|[Hne H0]] Hl0.
    + rewrite Hl in Hl0. simplify_eq. eexists. rewrite lookup_insert_eq. split; [done|].
      cbn. apply elem_of_app. right. by apply list_elem_of_singleton.
    + destruct (Hback s0 v0 l0 H0 Hl0) as (v1 & Hv1 & Hin). destruct (decide (l0 = l)) as [->|Hl1].
      * simplify_eq. eexists. rewrite lookup_insert_eq. split; [done|]. cbn. apply elem_of_app. by left.
      * exists v1. by rewrite lookup_insert_ne.
Qed.

Lemma registry_leave w s l sv v v' :
  registry_ok w -> w_sources w !! s = Some sv -> src_loop sv = Some l ->
  w_loops w !! l = Some v -> src_loop v' = None -> source_ok v' ->
  registry_ok (w <| w_loops ::= <[l := v <| loop_sources ::= remove_first s |>]> |>
                 <| w_sources ::= <[s := v']> |>).
Proof.
  intros [Hsrc Hnd Hfit Hini Hmem Hback] Hs Hsl Hv Hn Hok. pose proof (Hnd _ _ Hv) as Hnv.
  split; cbn.
  - intros s0 v0. rewrite lookup_insert_Some. intros [[<- <-]|[_ H0]]; [done|]. by eapply Hsrc.
  - intros l0 v0. rewrite lookup_insert_Some. intros [[<- <-]|[_ H0]]; [|by eapply Hnd].
    cbn. by apply NoDup_remove_first.
  - intros l0 v0. rewrite lookup_insert_Some. intros [[<- <-]|[_ H0]]; [|by eapply Hfit].
    cbn. pose proof (Hfit _ _ Hv).
    destruct (Hback s sv l Hs Hsl) as (v1 & Hv1 & Hin). simplify_eq.
    apply remove_first_Permutation, Permutation_length in Hin. cbn in Hin. lia.
  - intros l0 v0. rewrite lookup_insert_Some. intros [[<- <-]|[_ H0]]; [|by eapply Hini].
    intros _. apply (Hini _ _ Hv). destruct (Hback s sv l Hs Hsl) as (v1 & Hv1 & Hin).
    simplify_eq. intros Hnil. rewrite Hnil in Hin. by apply elem_of_nil in Hin.
  - intros l0 v0 s0 H0 Hin. assert (s0 <> s /\ exists v1, w_loops w !! l0 = Some v1 /\
      s0 ∈ loop_sources v1) as [Hne (v1 & H1 & Hin1)].
    { revert H0 Hin. rewrite lookup_insert_Some. intros [[<- <-]|[Hl0 H0]] Hin.
      - cbn in Hin. apply elem_of_remove_first in Hin as [Hin Hne]; [|done]. split; [done|by eauto].
      - split; [|by eauto]. intros ->. destruct (Hmem _ _ _ H0 Hin) as (? & ? & ?). congruence. }
    rewrite lookup_insert_ne by done. by eapply Hmem.
  - intros s0 v0 l0. rewrite lookup_insert_Some. intros [[<- <-]|[Hne H0]] Hl0; [congruence|].
    destruct (Hback s0 v0 l0 H0 Hl0) as (v1 & Hv1 & Hin). destruct (decide (l0 = l)) as [->|Hl1].
    + simplify_eq. eexists. rewrite lookup_insert_eq. split; [done|]. cbn.
      by apply elem_of_remove_first.
    + exists v1. by rewrite lookup_insert_ne.
Qed.

(** [k] or fewer changes were made to each source. *)
Definition evolves (k : Z) (w w' : World) : Prop :=
  forall s v, w_sources w !! s = Some v -> exists v', w_sources w' !! s = Some v' /\
    (v' = v \/ exists j, 0 < j <= k /\ src_generation v' = u64 (src_generation v + j)).

Lemma evolves_same k w w' : w_sources w' = w_sources w -> evolves k w w'.
Proof. intros Hs s v Hv. exists v. rewrite Hs. by auto. Qed.
Lemma evolves_mono k k' w w' : k <= k' -> evolves k w w' -> evolves k' w w'.
Proof.
  intros Hk He s v Hv. destruct (He s v Hv) as (v' & Hv' & [->|(j & Hj & Hg)]); eauto.
  exists v'. split; [done|]. right. exists j. split; [lia|done].
Qed.
Lemma evolves_trans k k' w1 w2 w3 :
  0 <= k -> 0 <= k' -> evolves k w1 w2 -> evolves k' w2 w3 -> evolves (k + k') w1 w3.
Proof.
  intros Hk Hk' H12 H23 s v Hv. destruct (H12 s v Hv) as (v2 & Hv2 & He2).
  destruct (H23 s v2 Hv2) as (v3 & Hv3 & He3). exists v3. split; [done|].
  destruct He2 as [->|(j & Hj & Hg)], He3 as [->|(j' & Hj' & Hg')].
  - by left.
  - right. exists j'. split; [lia|done].
  - right. exists j. split; [lia|done].
  - right. exists (j + j'). split; [lia|]. rewrite Hg', Hg. unfold u64.
    rewrite Zplus_mod_idemp_l. f_equal. lia.
Qed.

(** A source whose generation did not move did not change. *)
Lemma evolves_stable k w w' s v v' :
  evolves k w w' -> k < 2 ^ 64 -> w_sources w !! s = Some v -> w_sources w' !! s = Some v' ->
  src_generation v' = src_generation v -> v' = v.
Proof.
  intros He Hk Hv Hv' Hg. destruct (He s v Hv) as (v1 & Hv1 & [->|(j & Hj & Hg1)]); [congruence|].
  exfalso. simplify_eq. rewrite Hg in Hg1. unfold u64 in Hg1.
  Z.to_euclidean_division_equations. lia.
Qed.

Lemma evolves_store k w s v v' :
  0 < k -> w_sources w !! s = Some v -> src_generation v' = u64 (src_generation v + 1) ->
  evolves k w (w <| w_sources ::= <[s := v']> |>).
Proof.
  intros Hk Hv Hg s0 v0 Hv0. cbn. destruct (decide (s0 = s)) as [->|Hne].
  - simplify_eq. exists v'. rewrite lookup_insert_eq. split; [done|]. right. exists 1. split; [lia|done].
  - exists v0. rewrite lookup_insert_ne by done. by auto.
Qed.

(** What an operation on the registry does. *)
Definition registry_change (w w' : World) : Prop := registry_ok w' /\ evolves 1 w w'.

Lemma change_same w w' : registry_ok w -> same_registry w w' -> registry_change w w'.
Proof.
  intros Hok Hs. split; [by eapply registry_ext|]. apply evolves_same. apply Hs.
Qed.
Lemma change_before w w1 w2 :
  same_registry w w1 -> registry_change w1 w2 -> registry_change w w2.
Proof.
  intros [Hs _] [Hok He]. split; [done|]. change 1 with (0 + 1).
  by eapply evolves_trans; [lia|lia|apply (evolves_same 0)|].
Qed.

(** The event descriptor is no part of the registry. *)
Class EventHostFrame `{EventHost} : Prop := {
  eventfd_frame w : wp sys_eventfd (fun _ w' => same_registry w w') w;
  close_frame fd w : wp (sys_eventfd_close fd) (fun _ w' => same_registry w w') w;
}.

Section Operations.
Context `{EventHost}.

Lemma add_spec loop s fd events f opaque w :
  registry_ok w -> is_Some (w_sources w !! s) -> (forall l, loop = Some l -> is_Some (w_loops w !! l)) ->
  wp (vart_event_add loop (Some s) fd events f opaque) (fun _ w' => registry_change w w') w.
Proof.
  intros Hok [sv Hsv] Hl. assert (registry_change w w) as Hid by (by apply change_same).
  unfold vart_event_add. destruct loop as [l|]; [|by wsteps]. destruct (Hl l eq_refl) as [v Hv].
  wsteps. destruct (loop_initialized v) eqn:Hini; [|by wsteps]. cbn [negb]. destruct f as [f|]; [|by wsteps].
  destruct (_ || _) eqn:Hg; [by wsteps|]. rewrite orb_false_iff in Hg. destruct Hg as [Hfd _].
  wsteps. destruct (src_registered sv) eqn:Hreg; [by wsteps|].
  wstep. eapply wp_mono; [apply grow_sources_spec|]. intros [err|cap] w1 [Hsame Hcap].
  { wsteps. by apply change_same. }
  wsteps. apply (change_before _ w1); [done|]. destruct Hsame as [Hs1 Hl1].
  assert (registry_ok w1) as Hok1 by (eapply registry_ext; [by split|done]).
  assert (src_loop sv = None) as Hn.
  { destruct (src_loop sv) eqn:E; [|done]. destruct (rg_source _ Hok _ _ Hsv) as [[_ Hr] _ _].
    rewrite Hr in Hreg by (by rewrite E). done. }
  split.
  - eapply registry_enter; try done; try congruence.
    + apply Hcap. exact (rg_fits _ Hok _ _ Hv).
    + split; cbn; [by eauto|by eauto|lia].
  - apply (evolves_store 1 w1 s sv); [lia|congruence|done].
Qed.

Lemma modify_spec s events w :
  registry_ok w -> is_Some (w_sources w !! s) ->
  wp (vart_event_modify (Some s) events) (fun _ w' => registry_change w w') w.
Proof.
  intros Hok [sv Hsv]. unfold vart_event_modify. wsteps.
  destruct (_ || _); [by apply change_same|]. wsteps. split.
  - eapply registry_store_source; [done|done|done|].
    destruct (rg_source _ Hok _ _ Hsv). by split.
  - by apply (evolves_store 1 w s sv).
Qed.

Lemma unregister_ok v : source_ok (unregister v).
Proof. split; cbn; [|done|done]. by split; [|intros []]. Qed.

Lemma remove_spec s w :
  registry_ok w -> is_Some (w_sources w !! s) ->
  wp (vart_event_remove (Some s)) (fun _ w' => registry_change w w') w.
Proof.
  intros Hok [sv Hsv]. unfold vart_event_remove. wsteps.
  destruct (src_registered sv); [|by apply change_same].
  destruct (src_loop sv) as [l|] eqn:Hl; [|by apply change_same].
  destruct (rg_back _ Hok _ _ _ Hsv Hl) as (v & Hv & Hin). wsteps.
  rewrite bool_decide_true by done. wsteps. split.
  - by eapply registry_leave; [done|done|done|done|done|apply unregister_ok].
  - exact (evolves_store 1 w s sv (unregister sv) eq_refl Hsv eq_refl).
Qed.

Lemma unregister_all_spec l : forall w,
  NoDup l -> (forall s, s ∈ l -> is_Some (w_sources w !! s)) ->
  wp (unregister_all l) (fun _ w' => w_loops w' = w_loops w /\
    forall s, w_sources w' !! s =
      if decide (s ∈ l) then unregister <$> w_sources w !! s else w_sources w !! s) w.
Proof.
  induction l as [|s l IH]; intros w Hnd Hall; cbn [unregister_all].
  { wsteps. split; [done|]. intros s. by rewrite decide_False by apply not_elem_of_nil. }
  apply NoDup_cons in Hnd as [Hs Hnd]. destruct (Hall s) as [v Hv]; [by left|]. wsteps.
  eapply wp_mono; [apply IH; [done|]|].
  - intros s0 Hs0. cbn. rewrite lookup_insert_is_Some. destruct (decide (s0 = s)) as [->|]; [by left|].
    right. split; [done|]. apply Hall. by right.
  - intros [] w' [Hl Hsrc]. split; [done|]. intros s0. rewrite Hsrc. cbn.
    destruct (decide (s0 = s)) as [->|Hne].
    + rewrite decide_False by done. rewrite lookup_insert_eq, Hv.
      by rewrite decide_True by (by left).
    + rewrite lookup_insert_ne by done. destruct (decide (s0 ∈ l)) as [Hin|Hin].
      * by rewrite decide_True by (by right).
      * rewrite decide_False; [done|]. by intros [?|?]%elem_of_cons.
Qed.

(** All sources of a loop leave it. *)
Lemma registry_drop w w' l v v0 :
  registry_ok w -> w_loops w !! l = Some v -> loop_sources v0 = [] -> 0 <= loop_capacity v0 ->
  w_loops w' = <[l := v0]> (w_loops w) ->
  (forall s, w_sources w' !! s =
     if decide (s ∈ loop_sources v) then unregister <$> w_sources w !! s else w_sources w !! s) ->
  registry_ok w'.
Proof.
  intros [Hsrc Hnd Hfit Hini Hmem Hback] Hv Hnil Hcap Hl Hs. split; rewrite ?Hl.
  - intros s sv. rewrite Hs. case_decide; [|by apply Hsrc].
    intros (v1 & Hv1 & ->)%fmap_Some. apply unregister_ok.
  - intros l0 lv [[<- <-]|[_ Hl0]]%lookup_insert_Some; [rewrite Hnil; constructor|by eapply Hnd].
  - intros l0 lv [[<- <-]|[_ Hl0]]%lookup_insert_Some; [rewrite Hnil; done|by eapply Hfit].
  - intros l0 lv [[<- <-]|[_ Hl0]]%lookup_insert_Some; [done|by eapply Hini].
  - intros l0 lv s [[<- <-]|[Hne Hl0]]%lookup_insert_Some Hin.
    { rewrite Hnil in Hin. by apply elem_of_nil in Hin. }
    rewrite Hs. rewrite decide_False; [by eapply Hmem|]. intros Hin'.
    destruct (Hmem _ _ _ Hl0 Hin) as (? & ? & ?), (Hmem _ _ _ Hv Hin') as (? & ? & ?). congruence.
  - intros s sv l0. rewrite Hs. case_decide as Hin.
    { intros (v1 & Hv1 & ->)%fmap_Some. done. }
    intros Hsv Hsl. destruct (Hback _ _ _ Hsv Hsl) as (lv & Hlv & Hin'). exists lv.
    rewrite lookup_insert_ne by congruence. done.
Qed.

Context `{HH : !EventHostFrame}.

Lemma destroy_spec l w :
  registry_ok w -> is_Some (w_loops w !! l) ->
  wp (vart_event_loop_destroy (Some l)) (fun _ w' => registry_change w w') w.
Proof using HH.
  intros Hok [v Hv]. unfold vart_event_loop_destroy. wsteps.
  assert (wp (if loop_initialized v then unregister_all (loop_sources v) else ret tt)
    (fun _ w' => w_loops w' = w_loops w /\ forall s, w_sources w' !! s =
      if decide (s ∈ loop_sources v) then unregister <$> w_sources w !! s
      else w_sources w !! s) w) as Hun.
  { destruct (loop_initialized v) eqn:Hi.
    - apply unregister_all_spec; [by eapply rg_nodup|]. intros s Hs.
      destruct (rg_member _ Hok _ _ _ Hv Hs) as (sv & Hsv & _). by exists sv.
    - wsteps. split; [done|]. intros s. assert (loop_sources v = []) as ->.
      { destruct (loop_sources v) eqn:E; [done|]. rewrite (rg_init _ Hok _ _ Hv) in Hi by (by rewrite E).
        done. }
      by rewrite decide_False by apply not_elem_of_nil. }
  eapply wp_mono; [exact Hun|]. intros [] w1 [Hl1 Hs1]. wstep.
  eapply (wp_mono _ (fun _ w2 => same_registry w1 w2)).
  { destruct (loop_initialized v); [apply close_frame|by wsteps]. }
  intros [] w2 [Hs2 Hl2]. wsteps. split.
  - eapply (registry_drop w _ l v (zero_loop <| loop_wake_fd := -1 |>)); [done|done|done|done| |].
    + cbn. congruence.
    + intros s. cbn. rewrite Hs2. apply Hs1.
  - intros s sv Hsv. cbn. rewrite Hs2, Hs1, Hsv. case_decide; [|by eauto].
    eexists. split; [done|]. right. by exists 1.
Qed.

Lemma source_init_spec s w :
  registry_ok w -> (forall v, w_sources w !! s = Some v -> src_loop v = None) ->
  wp (vart_event_source_init (Some s)) (fun _ w' => registry_ok w') w.
Proof.
  intros [Hsrc Hnd Hfit Hini Hmem Hback] Hn. unfold vart_event_source_init. wsteps.
  split; cbn; try done.
  - intros s0 v0 [[<- <-]|[_ H0]]%lookup_insert_Some; [|by eapply Hsrc]. split; cbn; [|done|done].
    by split; [|intros []].
  - intros l v s0 Hv Hin. destruct (Hmem _ _ _ Hv Hin) as (sv & Hsv & Hsl). exists sv.
    rewrite lookup_insert_ne; [done|]. intros <-. rewrite (Hn _ Hsv) in Hsl. done.
  - intros s0 v0 l [[<- <-]|[_ H0]]%lookup_insert_Some; [done|]. by eapply Hback.
Qed.

Lemma loop_init_spec l w :
  registry_ok w -> (forall v, w_loops w !! l = Some v -> loop_sources v = []) ->
  wp (vart_event_loop_init (Some l)) (fun _ w' => registry_ok w') w.
Proof using HH.
  intros Hok Hn. unfold vart_event_loop_init. wstep.
  eapply wp_mono; [apply eventfd_frame|]. intros fd w1 Hsame.
  pose proof (registry_ext _ _ Hsame Hok) as [Hsrc Hnd Hfit Hini Hmem Hback].
  destruct Hsame as [_ Hl1]. rewrite <- Hl1 in Hn.
  assert (forall v, loop_sources v = [] -> 0 <= loop_capacity v ->
    registry_ok (w1 <| w_loops ::= <[l := v]> |>)) as Hnew.
  { intros v Hnil Hcap. split; cbn.
    - done.
    - intros l0 lv [[<- <-]|[_ Hl0]]%lookup_insert_Some; [rewrite Hnil; constructor|by eapply Hnd].
    - intros l0 lv [[<- <-]|[_ Hl0]]%lookup_insert_Some; [rewrite Hnil; done|by eapply Hfit].
    - intros l0 lv [[<- <-]|[_ Hl0]]%lookup_insert_Some; [done|by eapply Hini].
    - intros l0 lv s [[<- <-]|[_ Hl0]]%lookup_insert_Some Hin; [|by eapply Hmem].
      rewrite Hnil in Hin. by apply elem_of_nil in Hin.
    - intros s sv l0 Hsv Hsl. destruct (Hback _ _ _ Hsv Hsl) as (lv & Hlv & Hin). exists lv.
      rewrite lookup_insert_ne; [done|]. intros <-. rewrite (Hn _ Hlv) in Hin.
      by apply elem_of_nil in Hin. }
  wsteps. destruct (fd <? 0); wsteps; [by apply Hnew|].
  unfold update. cbn. rewrite insert_insert_eq. by apply Hnew.
Qed.
End Operations.

(** One call of the interface, on objects that exist.  A source is initialised when
    it is in no loop, and a loop when it has no sources. *)
Inductive loop_step `{EventHost} (w w' : World) : Prop :=
| loop_init l err :
    (forall v, w_loops w !! l = Some v -> loop_sources v = []) ->
    vart_event_loop_init (Some l) w = Ok (err, w') -> loop_step w w'
| loop_destroy l :
    is_Some (w_loops w !! l) ->
    vart_event_loop_destroy (Some l) w = Ok (tt, w') -> loop_step w w'
| loop_source_init s :
    (forall v, w_sources w !! s = Some v -> src_loop v = None) ->
    vart_event_source_init (Some s) w = Ok (tt, w') -> loop_step w w'
| loop_add l s fd events f opaque err :
    is_Some (w_sources w !! s) -> is_Some (w_loops w !! l) ->
    vart_event_add (Some l) (Some s) fd events f opaque w = Ok (err, w') -> loop_step w w'
| loop_modify s events err :
    is_Some (w_sources w !! s) ->
    vart_event_modify (Some s) events w = Ok (err, w') -> loop_step w w'
| loop_remove s err :
    is_Some (w_sources w !! s) ->
    vart_event_remove (Some s) w = Ok (err, w') -> loop_step w w'
(** the rest of the program *)
| loop_other : same_registry w w' -> loop_step w w'.

Lemma wp_run {W A} (m : M W A) Q w a w' : wp m Q w -> m w = Ok (a, w') -> Q a w'.
Proof. unfold wp. intros Hm Hr. by rewrite Hr in Hm. Qed.

Lemma loop_step_ok `{EventHostFrame} w w' : registry_ok w -> loop_step w w' -> registry_ok w'.
Proof.
  intros Hok [l err Hn Hr|l Hl Hr|s Hn Hr|l s fd ev f o err Hs Hl Hr|s ev err Hs Hr|s err Hs Hr|Hs].
  - by eapply (wp_run _ _ _ _ _ (loop_init_spec l w Hok Hn)).
  - by apply (wp_run _ _ _ _ _ (destroy_spec l w Hok Hl) Hr).
  - by eapply (wp_run _ _ _ _ _ (source_init_spec s w Hok Hn)).
  - assert (forall l0, Some l = Some l0 -> is_Some (w_loops w !! l0)) as Hl' by congruence.
    by apply (wp_run _ _ _ _ _ (add_spec (Some l) s fd ev f o w Hok Hs Hl') Hr).
  - by apply (wp_run _ _ _ _ _ (modify_spec s ev w Hok Hs) Hr).
  - by apply (wp_run _ _ _ _ _ (remove_spec s w Hok Hs) Hr).
  - by eapply registry_ext.
Qed.

Lemma registry_reachable `{EventHostFrame} w w' :
  w_sources w = ∅ -> w_loops w = ∅ -> rtc loop_step w w' -> registry_ok w'.
Proof.
  intros Hs Hl. revert w'. apply (rtc_ind_r (registry_ok)).
  - by split; intros *; rewrite ?Hs, ?Hl.
  - intros w1 w2 _ Hstep Hok. by eapply loop_step_ok.
Qed.

(** In every history of calls on event loops and sources, each loop holds
    distinct sources that exist and point back to it, within the capacity of its
    array; every source that is registered is in the array of exactly the loop it
    points to, and has a callback and a descriptor; and a loop that was not
    initialised or was destroyed holds none. *)
Theorem event_registry_consistent `{EventHostFrame} w w' :
  w_sources w = ∅ -> w_loops w = ∅ -> rtc loop_step w w' -> registry_ok w'.
Proof. apply registry_reachable. Qed.

(** * No stale events *)

(** The environment of one turn of the loop [l]: what [poll] does, which may let
    other threads run, and what the callbacks do.  [reported fd events r] says that
    the host reports [r] for a descriptor polled for [events]; [start] is the state
    when the turn begins.  A callback has to be correct only when its source is
    registered in the loop, has not been changed since the turn began, was polled
    for a non-empty set of events, and is called with the events that the host
    reported for it.  Anything done meanwhile changes a source at most [K] times. *)
Class TurnEnv `{EventHost} `{EventCallbacks} (l : ptr) (start : World) (K : Z)
    (reported : Z -> Z -> Z -> Prop) (I : World -> Prop) : Prop := {
  turn_oom w x : I w -> I (w <| w_oom := x |>);
  turn_poll w fds timeout : I w ->
    wp (sys_poll fds timeout) (fun '(n, revents) w' => I w' /\ evolves K w w' /\
      (0 <= n -> Forall2 (fun p r => r = 0 \/ 0 <= p.1 /\ reported p.1 p.2 r) fds revents)) w;
  turn_registry w : I w -> registry_ok w;
  turn_loop w : I w -> is_Some (w_loops w !! l);
  turn_read fd w : I w ->
    wp (sys_eventfd_read fd) (fun n w' => n <> -EINTR /\ I w' /\ evolves 0 w w') w;
  turn_callback w s v f r :
    I w -> w_sources w !! s = Some v -> w_sources start !! s = Some v ->
    src_registered v = true -> src_loop v = Some l -> src_callback v = Some f ->
    src_events v <> 0 -> reported (src_fd v) (events_to_poll (src_events v)) r ->
    events_from_poll r <> 0 ->
    wp (call_event f s (events_from_poll r) (src_opaque v))
      (fun _ w' => I w' /\ evolves K w w') w;
}.

(** What one turn saw of a source before it polled. *)
Definition seen (w : World) (s : ptr) (p : Z * Z) (entry : VartPollEntry) : Prop :=
  exists v, w_sources w !! s = Some v /\ entry = mkPollEntry s (src_generation v) /\
    p = (if src_events v =? 0 then -1 else src_fd v, events_to_poll (src_events v)).

Lemma poll_entries_spec w l :
  (forall s, s ∈ l -> is_Some (w_sources w !! s)) ->
  exists fds entries, poll_entries l w = Ok ((fds, entries), w) /\
    Forall3 (seen w) l fds entries.
Proof.
  induction l as [|s l IH]; intros Hall; cbn [poll_entries].
  { exists [], []. split; [done|constructor]. }
  destruct (Hall s) as [v Hv]; [by left|].
  destruct IH as (fds & entries & Hrun & Hseen); [intros s0 Hs0; apply Hall; by right|].
  eexists _, _. split.
  - unfold bind at 1. unfold load_source, bind at 1, get, deref. rewrite Hv. unfold ret.
    rewrite (bind_eq _ _ _ _ _ Hrun). done.
  - constructor; [|done]. by exists v.
Qed.

Section Turn.
Context `{EventHost} `{EventCallbacks} (l : ptr) (start : World) (K : Z)
  (reported : Z -> Z -> Z -> Prop) (I : World -> Prop) `{HT : !TurnEnv l start K reported I}.

(** An entry of the turn with what the host reported for it. *)
Definition entry_ok (entry : VartPollEntry) (r : Z) : Prop :=
  exists v, w_sources start !! pe_source entry = Some v /\
    pe_generation entry = src_generation v /\
    (r = 0 \/ src_events v <> 0 /\ reported (src_fd v) (events_to_poll (src_events v)) r).

Lemma entries_ok sources fds entries revents :
  Forall3 (seen start) sources fds entries ->
  Forall2 (fun p r => r = 0 \/ 0 <= p.1 /\ reported p.1 p.2 r) fds revents ->
  Forall2 entry_ok entries revents.
Proof.
  intros Hseen. revert revents. induction Hseen as [|s p e ss fds es (v & Hv & -> & ->) _ IH];
    intros revents Hr; [by apply Forall2_nil_inv_l in Hr as ->|].
  apply Forall2_cons_inv_l in Hr as (r & rs & Hr & Hrs & ->). constructor; [|by apply IH].
  exists v. split_and!; [done|done|]. destruct Hr as [->|[Hpos Hr]]; [by left|]. right.
  cbn in Hpos, Hr. destruct (Z.eqb_spec (src_events v) 0); [lia|done].
Qed.

Lemma dispatch_loop_spec entries revents :
  Forall2 entry_ok entries revents -> 0 <= K -> forall k callbacks w,
  I w -> 0 <= k -> evolves k start w -> k + K * Z.of_nat (length entries) < 2 ^ 64 ->
  0 <= callbacks ->
  wp (dispatch_loop l entries revents callbacks) (fun ret w' => I w' /\
    evolves (k + K * Z.of_nat (length entries)) start w' /\
    ret <= callbacks + Z.of_nat (length entries)) w.
Proof using HT.
  intros Hall HK. induction Hall as [|e r es rs (v0 & Hv0 & Hgen & Hr) _ IH];
    intros k callbacks w HI Hk Hev Hlim Hcb; cbn [dispatch_loop].
  { wsteps. split_and!; [done|by eapply evolves_mono; [|exact Hev]; cbn; lia|cbn; lia]. }
  assert (forall k' callbacks' w', I w' -> k <= k' <= k + K -> evolves k' start w' ->
    0 <= callbacks' <= callbacks + 1 ->
    wp (dispatch_loop l es rs callbacks') (fun ret w' => I w' /\
      evolves (k + K * Z.of_nat (length (e :: es))) start w' /\
      ret <= callbacks + Z.of_nat (length (e :: es))) w') as Hnext.
  { intros k' cb' w' HI' Hk' Hev' Hcb'. cbn [length] in *. eapply wp_mono; [apply (IH k')|];
      [done|lia|done|nia|lia|].
    intros ret' w2 (HI2 & Hev2 & Hret). split_and!; [done| |lia].
    eapply evolves_mono; [|exact Hev2]. nia. }
  assert (wp (dispatch_loop l es rs callbacks) (fun ret w' => I w' /\
      evolves (k + K * Z.of_nat (length (e :: es))) start w' /\
      ret <= callbacks + Z.of_nat (length (e :: es))) w) as Hskip by (apply (Hnext k); done || lia).
  destruct (Z.eqb_spec r 0); [done|]. destruct Hr as [|[Hne Hr]]; [done|].
  destruct (Hev _ _ Hv0) as (v & Hv & _). wsteps.
  destruct (_ || _) eqn:Hg; [done|]. rewrite !orb_false_iff, !negb_false_iff in Hg.
  destruct Hg as [[Hreg Hl%bool_decide_eq_true] Hg%Z.eqb_eq].
  assert (v = v0) as ->.
  { eapply (evolves_stable k); [exact Hev|cbn in Hlim; nia|exact Hv0|exact Hv|congruence]. }
  destruct (Z.eqb_spec (events_from_poll r) 0); [done|].
  destruct (sro_callback _ (rg_source _ (turn_registry _ HI) _ _ Hv) Hreg) as [f Hf].
  wstep. wstep. wstep. eapply wp_mono; [by eapply turn_callback|]. intros err w1 [HI1 Hev1].
  pose proof (evolves_trans _ _ _ _ _ Hk HK Hev Hev1) as Hev2.
  destruct (Z.ltb_spec err 0); [|apply (Hnext (k + K)); done || lia].
  wsteps. split_and!; [done| |cbn; lia]. eapply evolves_mono; [|exact Hev2]. cbn. nia.
Qed.

Lemma drain_wake_spec steps w :
  I w -> wp (event_loop_drain_wake (S steps) l) (fun _ w' => I w' /\ evolves 0 w w') w.
Proof using HT.
  intros HI. destruct (turn_loop w HI) as [v Hv]. unfold event_loop_drain_wake. wsteps.
  cbn [retry]. wstep. eapply wp_mono; [by apply turn_read|]. intros n w' (Hn & HI' & Hev).
  destruct (Z.eqb_spec n (-EINTR)); [done|]. by wsteps.
Qed.

Lemma handle_events_spec steps entries err revents w :
  (0 <= err -> exists wake rs, revents = wake :: rs /\ Forall2 entry_ok entries rs) ->
  I w -> 0 <= K -> evolves K start w -> K * Z.of_nat (S (length entries)) < 2 ^ 64 ->
  wp (handle_events (S steps) l entries err revents) (fun ret w' => I w' /\
    evolves (K * Z.of_nat (S (length entries))) start w' /\
    ret <= Z.of_nat (length entries)) w.
Proof using HT.
  intros Hr HI HK Hev Hlim. unfold handle_events.
  assert (forall e w', e <= 0 -> I w' -> evolves K start w' -> I w' /\
    evolves (K * Z.of_nat (S (length entries))) start w' /\ e <= Z.of_nat (length entries)) as Hend.
  { intros e w' He HI' Hev'. split_and!; [done| |lia]. eapply evolves_mono; [|exact Hev']. nia. }
  destruct (Z.ltb_spec err 0); [wsteps; apply Hend; done || lia|].
  destruct (Hr ltac:(lia)) as (wake & rs & -> & Hall).
  destruct (bits wake _); [wsteps; apply Hend; done || lia|]. wstep.
  eapply (wp_mono _ (fun _ w' => I w' /\ evolves 0 w w')).
  { destruct (bits wake POLLIN); [by apply drain_wake_spec|]. wsteps. split; [done|].
    by apply evolves_same. }
  intros e w' [HI' Hev']. pose proof (evolves_trans _ _ _ _ _ HK (Z.le_refl 0) Hev Hev') as Hev2.
  rewrite Z.add_0_r in Hev2. destruct (Z.ltb_spec e 0); [wsteps; apply Hend; done || lia|].
  eapply wp_mono; [by apply (dispatch_loop_spec entries rs Hall HK K); [| | |lia|]|].
  intros ret' w2 (HI2 & Hev3 & Hret). split_and!; [done| |lia].
  eapply evolves_mono; [|exact Hev3]. lia.
Qed.
End Turn.

(** C13. No stale events.  In a turn of the event loop a callback is called only for a
    source that is registered in this loop and has not been changed in any way since
    the turn began, with the events that the host reported for exactly the descriptor
    and the interest set it has now; callbacks and other threads may register, modify
    and remove sources in the meantime.  (Callbacks are assumed correct only for such
    calls, and the turn is proved to end without undefined behaviour.)  The turn
    reports at most as many callbacks as there were sources. *)
Theorem run_once_no_stale_events `{EventHost} `{EventCallbacks} l v K reported I w timeout
    steps `{!TurnEnv l w K reported I} :
  I w -> w_loops w !! l = Some v -> 0 <= K ->
  K * Z.of_nat (S (length (loop_sources v))) < 2 ^ 64 ->
  exists ret w', vart_event_loop_run_once (S steps) (Some l) timeout w = Ok (ret, w') /\
    I w' /\ ret <= Z.of_nat (length (loop_sources v)) /\
    evolves (K * Z.of_nat (S (length (loop_sources v)))) w w'.
Proof.
  intros HI Hv HK Hlim. set (n := length (loop_sources v)) in *.
  assert (forall e w', I w' -> same_registry w w' -> e <= 0 -> I w' /\
    evolves (K * Z.of_nat (S n)) w w' /\ e <= Z.of_nat n) as Hend.
  { intros e w' HI' [Hs _] He. split_and!; [done| |lia]. by apply evolves_same. }
  assert (forall w0, I w0 -> same_registry w w0 ->
    wp allocate (fun _ w' => I w' /\ same_registry w w') w0) as Halloc.
  { intros w0 HI0 [Hs Hl]. apply wp_allocate; [intros b rest _|done]. split; [|done].
    by apply turn_oom. }
  assert (wp (vart_event_loop_run_once (S steps) (Some l) timeout) (fun ret w' => I w' /\
    evolves (K * Z.of_nat (S n)) w w' /\ ret <= Z.of_nat n) w) as Hwp.
  { unfold vart_event_loop_run_once. wsteps. destruct (_ || _); [wsteps; apply Hend; done || lia|].
    wstep. eapply wp_mono; [by apply Halloc|]. intros ok1 w1 [HI1 Hs1]. wstep.
    eapply (wp_mono _ (fun _ w' => I w' /\ same_registry w w')).
    { destruct (bool_decide _); [by wsteps|by apply Halloc]. }
    intros ok2 w2 [HI2 Hs2]. destruct (_ || _); [wsteps; apply Hend; done || lia|].
    destruct (poll_entries_spec w2 (loop_sources v)) as (fds & entries & Hrun & Hseen).
    { intros s Hs. destruct Hs2 as [Hs2 _]. rewrite Hs2.
      destruct (rg_member _ (turn_registry _ HI) _ _ _ Hv Hs) as (sv & Hsv & _). by exists sv. }
    wstep. unfold wp at 1. rewrite Hrun. wstep. eapply wp_mono; [by apply turn_poll|].
    intros [err revents] w3 (HI3 & Hev & Hrev).
    assert (length entries = n) as Hlen by (symmetry; by eapply Forall3_length_lr).
    destruct Hs2 as [Hs2 _]. rewrite <- Hlen. apply (handle_events_spec l w K reported I); try done.
    - intros He. apply Forall2_cons_inv_l in Hrev as (wake & rs & _ & Hrs & ->); [|done].
      exists wake, rs. split; [done|]. eapply entries_ok; [|exact Hrs].
      eapply Forall3_impl; [exact Hseen|]. intros s p e. unfold seen. by rewrite Hs2.
    - intros s sv Hsv. apply Hev. by rewrite Hs2.
    - by rewrite Hlen. }
  apply wp_ok in Hwp as (ret' & w' & Hrun & HI' & Hev & Hret). eauto 6.
Qed.

(** * A concrete loop

    Two sources that are both ready; the callback of the first changes the interest
    set of the second, so that the second is not called in this turn. *)
Module EventDemo.
Definition lp : ptr := 1%positive.
Definition s1 : ptr := 1%positive.
Definition s2 : ptr := 2%positive.
#[export] Instance host : EventHost := {|
  sys_eventfd := ret 3;
  sys_eventfd_write _ := ret 8;
  sys_eventfd_read _ := ret 8;
  sys_eventfd_close _ := ret tt;
  sys_poll fds _ := ret (1, map (fun p => if p.1 <? 0 then 0 else POLLIN) fds);
|}.
#[export] Instance host_frame : EventHostFrame.
Proof. split; intros; by apply wp_ret. Qed.
#[export] Instance callbacks : EventCallbacks := fun f _ _ _ =>
  match f with
  | fn_external 1 => vart_event_modify (Some s2) 3
  | _ => ret 0
  end.

Definition exec {A} (m : M World A) (w : World) : World :=
  match m w with Ok (_, w') => w' | _ => w end.
Definition e1 := exec (vart_event_loop_init (Some lp)) empty_world.
Definition e2 := exec (vart_event_source_init (Some s1)) e1.
Definition e3 := exec (vart_event_source_init (Some s2)) e2.
Definition e4 := exec (vart_event_add (Some lp) (Some s1) 7 1 (Some (fn_external 1)) None) e3.
Definition e5 := exec (vart_event_add (Some lp) (Some s2) 8 1 (Some (fn_external 2)) None) e4.

Lemma event_demo_steps : rtc loop_step empty_world e5.
Proof.
  apply (rtc_l _ _ e1).
  { apply (loop_init _ _ lp 0); [by intros|]. vm_compute. reflexivity. }
  apply (rtc_l _ _ e2).
  { apply (loop_source_init _ _ s1); [by intros|]. vm_compute. reflexivity. }
  apply (rtc_l _ _ e3).
  { apply (loop_source_init _ _ s2); [by intros|]. vm_compute. reflexivity. }
  apply (rtc_l _ _ e4).
  { apply (loop_add _ _ lp s1 7 1 (Some (fn_external 1)) None 0); [by eexists|by eexists|].
    vm_compute. reflexivity. }
  apply rtc_once. apply (loop_add _ _ lp s2 8 1 (Some (fn_external 2)) None 0); [by eexists|by eexists|].
  vm_compute. reflexivity.
Qed.

Lemma event_registry_consistent_witness : registry_ok e5.
Proof.
  apply (event_registry_consistent empty_world e5); [reflexivity|reflexivity|apply event_demo_steps].
Defined.

(** One of the two callbacks is called. *)
Example second_not_called :
  match vart_event_loop_run_once 1 (Some lp) 0 e5 with Ok (n, _) => n = 1 | _ => False end.
Proof. vm_compute. reflexivity. Qed.

Definition turn (w : World) : Prop :=
  registry_ok w /\ is_Some (w_loops w !! lp) /\ is_Some (w_sources w !! s2).

Lemma turn_modify events w :
  turn w -> wp (vart_event_modify (Some s2) events) (fun _ w' => turn w' /\ evolves 1 w w') w.
Proof.
  intros (Hok & Hl & Hs). pose proof (modify_spec s2 events w Hok Hs) as (err & w' & Hrun & Hok' & Hev)%wp_ok.
  unfold wp. rewrite Hrun. split; [|done]. split_and!; [done| |].
  - assert (wp (vart_event_modify (Some s2) events) (fun _ w' => w_loops w' = w_loops w) w) as Hf.
    { destruct Hs as [v Hv]. unfold vart_event_modify. wsteps. by destruct (_ || _); wsteps. }
    by rewrite (wp_run _ _ _ _ _ Hf Hrun).
  - destruct Hs as [v Hv]. destruct (Hev _ _ Hv) as (v' & Hv' & _). by exists v'.
Qed.

#[export] Instance turn_env : TurnEnv lp e5 1 (fun _ _ r => r = POLLIN) turn.
Proof.
  split.
  - intros w x (Hok & Hl & Hs). split_and!; [|done|done]. by apply (registry_ext w).
  - intros w fds timeout Hw. apply wp_ret. split_and!; [done|by apply evolves_same|]. intros _.
    induction fds as [|p fds IH]; [constructor|]. constructor; [|done].
    destruct (Z.ltb_spec p.1 0); [by left|by right].
  - by intros w (Hok & _).
  - by intros w (_ & Hl & _).
  - intros fd w Hw. apply wp_ret. split_and!; [done|done|by apply evolves_same].
  - intros w s v f r Hw Hv _ _ _ _ _ _ _. unfold call_event, callbacks.
    assert (wp (ret 0) (fun (_ : Z) w' => turn w' /\ evolves 1 w w') w) as Hret.
    { apply wp_ret. split; [done|by apply evolves_same]. }
    destruct f; try exact Hret.
    match goal with |- wp (match ?n with _ => _ end) _ _ => destruct n as [n|n|] end;
      [exact Hret|exact Hret|by apply turn_modify].
Qed.

Lemma run_once_no_stale_events_witness :
  exists ret w', vart_event_loop_run_once 1 (Some lp) 0 e5 = Ok (ret, w') /\
    turn w' /\ ret <= 2 /\ evolves 3 e5 w'.
Proof.
  apply (run_once_no_stale_events lp (mkLoop [s1; s2] 8 3 true) 1 (fun _ _ r => r = POLLIN) turn e5 0 0).
  - split_and!; [|by eexists|by eexists].
    apply (registry_reachable empty_world e5); [reflexivity|reflexivity|apply event_demo_steps].
  - vm_compute. reflexivity.
  - lia.
  - cbn. lia.
Defined.

(** Initialising a source again resets its generation.  A callback that removes the
    second source, initialises it and registers it for another descriptor gives it the
    generation it had when the turn began, and the turn calls it for the descriptor it
    had then. *)
Definition reinit_callbacks : EventCallbacks := fun f _ _ _ =>
  match f with
  | fn_external 1 =>
      let* _ := vart_event_remove (Some s2) in
      vart_event_source_init (Some s2) ;;;
      vart_event_add (Some lp) (Some s2) 9 1 (Some (fn_external 2)) None
  | _ => ret 0
  end.
Lemma reinitialised_source_gets_stale_event :
  exists w', vart_event_loop_run_once (H0 := reinit_callbacks) 1 (Some lp) 0 e5 = Ok (2, w') /\
    option_map (fun v => (src_fd v, src_generation v)) (w_sources e5 !! s2) = Some (8, 1) /\
    option_map (fun v => (src_fd v, src_generation v)) (w_sources w' !! s2) = Some (9, 1).
Proof. eexists. vm_compute. by split_and!. Qed.
End EventDemo.
