(* ===== verification/VirtioNet.v ===== *)
(** The virtio network device: [src/hw/virtio/virtio-net.c].

    Queue 0 receives and queue 1 transmits.  A frame to transmit is gathered from the
    guest's buffers and written to the TAP descriptor of the host; a frame received is
    kept until the guest posts a buffer for it, and meanwhile the descriptor is not
    polled.  The lock of the device is not modelled: each operation runs in one
    piece. *)

From stdpp Require Import base tactics numbers list gmap.
From Stdlib Require Import ZArith Lia.
From S2P Require Import Prelude Bytes Machine AddressSpace Iommu Devices Msix Pci Virtio.
From S2P Require Import VirtioPci GuestDma EventLoop.

Abbreviation EPIPE := 32 (only parsing).
Abbreviation ENAMETOOLONG := 36 (only parsing).
Abbreviation VIRTIO_F_VERSION_1 := 32 (only parsing).
Abbreviation VIRTIO_NET_F_MAC := 5 (only parsing).
Abbreviation VIRTIO_NET_F_STATUS := 16 (only parsing).
Abbreviation VIRTIO_NET_HDR_SIZE := 12 (only parsing).
Abbreviation VART_VIRTIO_NET_CONFIG_SIZE := 16 (only parsing).
Abbreviation IFNAMSIZ := 16 (only parsing).
Abbreviation RX_PACKET_SIZE := 65535 (only parsing).

(** System calls; a negative result is [-errno].  [malloc_contents n] is what a fresh
    allocation of [n] bytes holds. *)
Class NetHost := {
  net_malloc_contents : Z -> M World (list Z);
  sys_net_write : Z -> list Z -> M World Z;
  sys_net_read : Z -> Z -> M World (Z * list Z);
  sys_net_close : Z -> M World unit;
  sys_open_tun : M World Z;
  sys_tunsetiff : Z -> list Z -> M World Z;
  net_mutex_init : M World Z;
}.

Section Net.
Context `{TranslateCallbacks} `{MsixCallbacks} `{IrqCallbacks} `{NetHost} (fuel : nat).

Definition virtio_net_dma_read (opaque : option ptr) (address : Z) (data : list Z)
    : M World (Z * list Z) :=
  let* d := deref opaque in
  let* (err, data) := vart_pci_device_dma_read fuel (Some d) address (Some data)
                        (Z.of_nat (length data)) in
  let* data := deref data in
  ret (err, data).

Definition virtio_net_dma_write (opaque : option ptr) (address : Z) (data : list Z)
    : M World Z :=
  let* d := deref opaque in
  vart_pci_device_dma_write fuel (Some d) address (Some data) (Z.of_nat (length data)).

(** The DMA functions that the device gives its queues. *)
#[local] Instance net_dma : VirtioDma World := {|
  call_calloc := allocate;
  call_dma_read f opaque address data :=
    match f with
    | fn_virtio_net_dma_read => virtio_net_dma_read opaque address data
    | _ => undefined
    end;
  call_dma_write f opaque address data :=
    match f with
    | fn_virtio_net_dma_write => virtio_net_dma_write opaque address data
    | _ => undefined
    end;
|}.

(** Shifting by 64 bits or more is undefined. *)
Definition virtio_net_config_read (pci : ptr) (offset size value : Z) (opaque : option ptr)
    : M World (Z * Z) :=
  let* d := deref opaque in
  let* device := load_net d in
  if (VART_VIRTIO_NET_CONFIG_SIZE <? offset) ||
     (VART_VIRTIO_NET_CONFIG_SIZE - offset <? size)
  then ret (-EINVAL, value)
  else if 8 <? size then undefined
  else ret (0, load_le (take (Z.to_nat size) (drop (Z.to_nat offset) (net_config device)))).

Definition virtio_net_config_write (pci : ptr) (offset size value : Z) (opaque : option ptr)
    : M World Z := ret (-EPERM).

(** ** Transmission *)

(** The checks of the descriptors after the first: an error or the packet length. *)
Fixpoint tx_length (l : list VartVirtioDescriptor) (packet_length : Z) : Z + Z :=
  match l with
  | [] => inr packet_length
  | d :: l =>
      if bits (d_flags d) VART_VIRTIO_DESC_F_WRITE then inl (-EPROTO)
      else if UINT32_MAX - d_length d <? packet_length then inl (-EOVERFLOW)
      else tx_length l (packet_length + d_length d)
  end.

(** The buffers read one after the other into the packet, an allocation of
    [packet_length] bytes. *)
Fixpoint tx_gather (device : ptr) (packet_length : Z) (l : list (Z * Z)) (packet : list Z)
    : M World (Z * list Z) :=
  match l with
  | [] => ret (0, packet)
  | (address, length) :: l =>
      if packet_length <? Z.of_nat (List.length packet) + length then undefined
      else
      let* (err, data) := virtio_net_dma_read (Some device) address
                            (replicate (Z.to_nat length) 0) in
      if err <? 0 then ret (err, packet) else tx_gather device packet_length l (packet ++ data)
  end.

(** The parts of the first buffer past its header and of the others. *)
Definition payload_pieces (first : VartVirtioDescriptor) (rest : list VartVirtioDescriptor)
    : list (Z * Z) :=
  (if VIRTIO_NET_HDR_SIZE <? d_length first
   then [(u64 (d_address first + VIRTIO_NET_HDR_SIZE), d_length first - VIRTIO_NET_HDR_SIZE)]
   else []) ++
  map (fun d => (d_address d, d_length d)) rest.

(** One chain, from its checks to its return to the guest. *)
Definition transmit_chain (steps : nat) (device : ptr) (fd : Z) (chain : VartVirtioChain)
    : M World Z :=
  let descriptors := take (Z.to_nat (ch_count chain)) (ch_descriptors chain) in
  match descriptors with
  | [] => ret (-EPROTO)
  | first :: rest =>
      if bits (d_flags first) VART_VIRTIO_DESC_F_WRITE ||
         (d_length first <? VIRTIO_NET_HDR_SIZE)
      then ret (-EPROTO)
      else
        match tx_length rest (d_length first - VIRTIO_NET_HDR_SIZE) with
        | inl err => ret err
        | inr packet_length =>
            if packet_length =? 0 then ret (-EPROTO)
            else
              let* allocated := allocate in
              if negb allocated then ret (-ENOMEM)
              else
                let* (err, packet) := tx_gather device packet_length
                                        (payload_pieces first rest) [] in
                if err <? 0 then ret err
                else
                  let* packet := slice packet 0 packet_length in
                  let* written := retry steps (sys_net_write fd packet) in
                  if written <? 0 then ret written
                  else if negb (written =? packet_length) then ret (-EIO)
                  else with_virtio device
                         (vart_virtio_queue_push_used 1 (ch_head chain) packet_length)
        end
  end.

(** The [for (;;)] loop; a code of 1 stands for the [break]. *)
Fixpoint tx_loop (steps : nat) (device : ptr) (fd : Z) (completed : bool)
    : M World (Z * bool) :=
  match steps with
  | O => out_of_fuel
  | S steps' =>
      let* (err, chain) := with_virtio device
        (vart_virtio_queue_pop pop_fuel 1 (Some (mkChain 0 0 []))) in
      if err =? -EAGAIN then ret (1, completed)
      else if err <? 0 then ret (err, completed)
      else
        let* chain := deref chain in
        let* err := transmit_chain steps device fd chain in
        if err <? 0 then ret (err, completed) else tx_loop steps' device fd true
  end.

Definition virtio_net_process_tx (steps : nat) (device : ptr) : M World Z :=
  let* dev := load_net device in
  if net_backend_fd dev <? 0 then ret 0
  else
    let* (err, completed) := tx_loop steps device (net_backend_fd dev) false in
    if err <? 0 then ret err
    else if (completed : bool) then vart_virtio_pci_raise_queue_interrupt (Some device) 1
    else ret 0.

(** ** Reception *)

Definition virtio_net_set_rx_interest (device : ptr) (enabled : bool) : M World Z :=
  let* dev := load_net device in
  let* source := load_source (net_backend_source dev) in
  if negb (src_registered source) then ret 0
  else vart_event_modify (Some (net_backend_source dev)) (if enabled then VART_EVENT_READ else 0).

(** The checks of the descriptors after the first: [None] for an error, or the
    capacity of the chain. *)
Fixpoint rx_capacity (l : list VartVirtioDescriptor) (capacity : Z) : option Z :=
  match l with
  | [] => Some capacity
  | d :: l =>
      if negb (bits (d_flags d) VART_VIRTIO_DESC_F_WRITE) || (UINT32_MAX - d_length d <? capacity)
      then None
      else rx_capacity l (capacity + d_length d)
  end.

(** The [length] bytes from [copied] on that a write takes out of the packet; what lies past
    its end has no value, and the zeros stand for it only until the write is accepted. *)
Definition packet_window (packet : list Z) (copied length : Z) : list Z :=
  let inside := take (Z.to_nat length) (drop (Z.to_nat copied) packet) in
  inside ++ replicate (Z.to_nat length - List.length inside) 0.

(** The packet scattered over the buffers: [length] bytes from [copied] on for each of
    them, whatever the length of the frame.  A write that guest memory refuses reads nothing
    from the packet; one that it accepts reads all the bytes, which is undefined when they are
    not all there. *)
Fixpoint rx_scatter (device : ptr) (packet : list Z) (l : list (Z * Z)) (copied : Z)
    : M World Z :=
  match l with
  | [] => ret 0
  | (address, length) :: l =>
      let* err := virtio_net_dma_write (Some device) address
                    (packet_window packet copied length) in
      if err <? 0 then ret err
      else if Z.of_nat (List.length packet) <? copied + length then undefined
      else rx_scatter device packet l (copied + length)
  end.

(** [free(device->rx_packet)] and what follows it. *)
Definition release_rx (device : ptr) : M World unit :=
  let* dev := load_net device in
  store_net device (dev <| net_rx_packet := None |> <| net_rx_packet_length := 0 |>).

(** A chain with enough room: the header, the packet, the used entry. *)
Definition receive_chain (device : ptr) (chain : VartVirtioChain)
    (first : VartVirtioDescriptor) (rest : list VartVirtioDescriptor) (packet : list Z)
    (packet_length : Z) : M World Z :=
  let* err := virtio_net_dma_write (Some device) (d_address first)
                (replicate (Z.to_nat VIRTIO_NET_HDR_SIZE) 0) in
  if err <? 0 then ret err
  else
    let* err := rx_scatter device packet (payload_pieces first rest) 0 in
    if err <? 0 then ret err
    else
      let* err := with_virtio device (vart_virtio_queue_push_used 0 (ch_head chain)
                    (u32 (VIRTIO_NET_HDR_SIZE + packet_length))) in
      if err <? 0 then ret err
      else
        release_rx device ;;;
        let* err := vart_virtio_pci_raise_queue_interrupt (Some device) 0 in
        if err <? 0 then ret err else virtio_net_set_rx_interest device true.

Definition virtio_net_deliver_rx (device : ptr) : M World Z :=
  let* dev := load_net device in
  match net_rx_packet dev with
  | None => ret 0
  | Some packet =>
      let* (err, chain) := with_virtio device
        (vart_virtio_queue_pop pop_fuel 0 (Some (mkChain 0 0 []))) in
      if (err =? -EAGAIN) || (err =? -ENODEV) then virtio_net_set_rx_interest device false
      else if err <? 0 then ret err
      else
        let* chain := deref chain in
        let descriptors := take (Z.to_nat (ch_count chain)) (ch_descriptors chain) in
        match descriptors with
        | [] => ret (-EPROTO)
        | first :: rest =>
            if negb (bits (d_flags first) VART_VIRTIO_DESC_F_WRITE) ||
               (d_length first <? VIRTIO_NET_HDR_SIZE)
            then ret (-EPROTO)
            else
              match rx_capacity rest (d_length first - VIRTIO_NET_HDR_SIZE) with
              | None => ret (-EPROTO)
              | Some capacity =>
                  if capacity <? net_rx_packet_length dev then
                    let* err := with_virtio device
                      (vart_virtio_queue_push_used 0 (ch_head chain) 0) in
                    if err <? 0 then ret err
                    else
                      release_rx device ;;;
                      vart_virtio_pci_raise_queue_interrupt (Some device) 0
                  else receive_chain device chain first rest packet (net_rx_packet_length dev)
              end
        end
  end.

(** [do read(...) while (received < 0 && errno == EINTR)] *)
Fixpoint read_frame (steps : nat) (fd : Z) : M World (Z * list Z) :=
  match steps with
  | O => out_of_fuel
  | S steps =>
      let* (received, data) := sys_net_read fd RX_PACKET_SIZE in
      if received =? -EINTR then read_frame steps fd else ret (received, data)
  end.

Definition virtio_net_receive_locked (steps : nat) (device : ptr) : M World Z :=
  let* dev := load_net device in
  if net_backend_fd dev <? 0 then ret 0
  else
    match net_rx_packet dev with
    | Some _ => virtio_net_deliver_rx device
    | None =>
        let* allocated := allocate in
        if negb allocated then ret (-ENOMEM)
        else
          let* contents := net_malloc_contents RX_PACKET_SIZE in
          let* (received, data) := read_frame steps (net_backend_fd dev) in
          if received <? 0 then ret (if received =? -EAGAIN then 0 else received)
          else if received =? 0 then ret (-EPIPE)
          else
            let* dev := load_net device in
            store_net device (dev
              <| net_rx_packet := Some (data ++ drop (length data) contents) |>
              <| net_rx_packet_length := received |>) ;;;
            virtio_net_deliver_rx device
    end.

Definition virtio_net_backend_event (steps : nat) (source : ptr) (events : Z)
    (opaque : option ptr) : M World Z :=
  match opaque with
  | None => ret (-EINVAL)
  | Some device =>
      if bits events (Z.lor VART_EVENT_ERROR VART_EVENT_HANGUP) then ret (-EIO)
      else if negb (bits events VART_EVENT_READ) then ret 0
      else virtio_net_receive_locked steps device
  end.

Definition virtio_net_notify (steps : nat) (pci : ptr) (queue_index : Z) (opaque : option ptr)
    : M World Z :=
  match opaque with
  | None => ret 0
  | Some device =>
      let* dev := load_net device in
      if net_backend_fd dev <? 0 then ret 0
      else if queue_index =? 0 then virtio_net_deliver_rx device
      else if queue_index =? 1 then virtio_net_process_tx steps device
      else ret (-EINVAL)
  end.

(** ** Life cycle *)

Definition net_features : Z :=
  Z.lor (Z.lor (Z.shiftl 1 VIRTIO_F_VERSION_1) (Z.shiftl 1 VIRTIO_NET_F_MAC))
    (Z.shiftl 1 VIRTIO_NET_F_STATUS).
Definition net_dma_ops (d : ptr) : VartVirtioDmaOps :=
  mkDmaOps (Some fn_virtio_net_dma_read) (Some fn_virtio_net_dma_write) (Some d).
Definition net_config_ops (d : ptr) : VartVirtioPciConfigOps :=
  mkVirtioConfigOps (Some fn_virtio_net_config_read) (Some fn_virtio_net_config_write) (Some d).
(** The address, link up, one queue pair. *)
Definition net_config_of (mac : list Z) : list Z :=
  take 6 mac ++ [1; 0; 1] ++ replicate 7 0.
Definition zero_net (source : ptr) : VartVirtioNetDevice :=
  mkNet (replicate (Z.to_nat VART_VIRTIO_NET_CONFIG_SIZE) 0) source None None 0 0 false false false.

(** What follows [vart_virtio_pci_device_init]. *)
Definition setup_net_function (d : ptr) (dma_as : option ptr) (source : ptr) : M World Z :=
  let* err := vart_virtio_pci_device_set_class_code (Some d) 0x02 in
  if err <? 0 then ret err
  else
    let* err := vart_pci_device_init_msix (Some d) 3 0 0x800 0 0xc00 in
    if err <? 0 then ret err
    else
      let* err := vart_pci_device_set_dma_as (Some d) dma_as in
      if err <? 0 then ret err
      else
        vart_event_source_init (Some source) ;;;
        net_mutex_init.

Definition vart_virtio_net_init (device : option ptr) (mac : option (list Z))
    (dma_as : option ptr) : M World Z :=
  match device, mac, dma_as with
  | Some d, Some mac, Some _ =>
      let* old := load_net d in
      let source := net_backend_source old in
      clear_pci_device d ;;;
      store_virtio_pci d zero_virtio_pci ;;;
      store_source source zero_source ;;;
      store_net d ((zero_net source) <| net_backend_fd := -1 |> <| net_config := net_config_of mac |>) ;;;
      let* err := vart_virtio_pci_device_init (Some d) 1 net_features 2
                    (Some (net_dma_ops d)) (Some (net_config_ops d))
                    (Some fn_virtio_net_notify) (Some d) in
      if err <? 0 then ret err
      else
        let* err := setup_net_function d dma_as source in
        if err <? 0 then vart_virtio_pci_device_destroy (Some d) ;;; ret err
        else
          let* dev := load_net d in
          store_net d (dev <| net_lock_initialized := true |> <| net_initialized := true |>) ;;;
          ret 0
  | _, _, _ => ret (-EINVAL)
  end.

Definition vart_virtio_net_attach_backend (device : option ptr) (fd : Z) : M World Z :=
  match device with
  | None => ret (-EINVAL)
  | Some d =>
      let* dev := load_net d in
      if negb (net_initialized dev) || (fd <? 0) || (0 <=? net_backend_fd dev) then ret (-EINVAL)
      else store_net d (dev <| net_backend_fd := fd |> <| net_backend_owned := true |>) ;;; ret 0
  end.

Definition virtio_net_tap_ioctl (fd : Z) (name : list Z) : M World Z :=
  let* err := sys_tunsetiff fd name in ret (if err <? 0 then err else 0).

(** [interface_name] without its final zero. *)
Definition vart_virtio_net_open_tap (device : option ptr) (interface_name : option (list Z))
    : M World Z :=
  match device with
  | None => ret (-EINVAL)
  | Some d =>
      let* dev := load_net d in
      if negb (net_initialized dev) || (0 <=? net_backend_fd dev) then ret (-EINVAL)
      else
        let* fd := sys_open_tun in
        if fd <? 0 then ret fd
        else if IFNAMSIZ <=? Z.of_nat (length (default [] interface_name)) then
          sys_net_close fd ;;; ret (-ENAMETOOLONG)
        else
          let* err := virtio_net_tap_ioctl fd (default [] interface_name) in
          if err <? 0 then sys_net_close fd ;;; ret err
          else
            let* err := vart_virtio_net_attach_backend (Some d) fd in
            if err <? 0 then sys_net_close fd ;;; ret err else ret 0
  end.

Definition vart_virtio_net_attach_event_loop (device loop : option ptr) : M World Z :=
  match device, loop with
  | Some d, Some l =>
      let* dev := load_net d in
      let* lv := load_loop l in
      if negb (net_initialized dev) || negb (loop_initialized lv) || (net_backend_fd dev <? 0)
      then ret (-EINVAL)
      else
        let* source := load_source (net_backend_source dev) in
        if src_registered source then ret (-EBUSY)
        else
          store_net d (dev <| net_event_loop := Some l |>) ;;;
          vart_event_source_init (Some (net_backend_source dev)) ;;;
          let* err := vart_event_add (Some l) (Some (net_backend_source dev))
                        (net_backend_fd dev) VART_EVENT_READ
                        (Some fn_virtio_net_backend_event) (Some d) in
          (if err <? 0 then store_net d (dev <| net_event_loop := None |>) else ret tt) ;;;
          ret err
  | _, _ => ret (-EINVAL)
  end.

Definition vart_virtio_net_detach_event_loop (device : option ptr) : M World Z :=
  match device with
  | None => ret (-EINVAL)
  | Some d =>
      let* dev := load_net d in
      if negb (net_initialized dev) then ret (-EINVAL)
      else
        let* source := load_source (net_backend_source dev) in
        let* err := if src_registered source
                    then vart_event_remove (Some (net_backend_source dev)) else ret 0 in
        (if err =? 0 then store_net d (dev <| net_event_loop := None |>) else ret tt) ;;;
        ret err
  end.

Definition vart_virtio_net_detach_backend (device : option ptr) : M World Z :=
  match device with
  | None => ret (-EINVAL)
  | Some d =>
      let* dev := load_net d in
      let* err := if net_initialized dev
                  then vart_virtio_net_detach_event_loop (Some d) else ret 0 in
      if err <? 0 then ret err
      else
        let* dev := load_net d in
        (if (0 <=? net_backend_fd dev) && net_backend_owned dev
         then sys_net_close (net_backend_fd dev) else ret tt) ;;;
        store_net d (dev <| net_rx_packet := None |> <| net_rx_packet_length := 0 |>
                         <| net_backend_fd := -1 |> <| net_backend_owned := false |>) ;;;
        ret 0
  end.

Definition vart_virtio_net_destroy (device : option ptr) : M World Z :=
  match device with
  | None => ret (-EINVAL)
  | Some d =>
      let* dev := load_net d in
      if negb (net_initialized dev) then ret (-EINVAL)
      else
        let* err := vart_virtio_net_detach_backend (Some d) in
        if err <? 0 then ret err
        else
          let* err := vart_virtio_pci_device_destroy (Some d) in
          if err <? 0 then ret err
          else
            let* dev := load_net d in
            store_net d (dev <| net_lock_initialized := false |> <| net_initialized := false |>) ;;;
            ret 0
  end.

(** The functions that the transport and the event loop call. *)
Definition net_callbacks (steps : nat) : VirtioPciCallbacks := {|
  call_virtio_config_read f pci offset size value opaque :=
    match f with
    | fn_virtio_net_config_read => virtio_net_config_read pci offset size value opaque
    | _ => undefined
    end;
  call_virtio_config_write f pci offset size value opaque :=
    match f with
    | fn_virtio_net_config_write => virtio_net_config_write pci offset size value opaque
    | _ => undefined
    end;
  call_virtio_notify f pci queue_index opaque :=
    match f with
    | fn_virtio_net_notify => virtio_net_notify steps pci queue_index opaque
    | _ => undefined
    end;
|}.
Definition net_event_callbacks (steps : nat) : EventCallbacks := fun f source events opaque =>
  match f with
  | fn_virtio_net_backend_event => virtio_net_backend_event steps source events opaque
  | _ => undefined
  end.
End Net.

(** * The guest cannot break transmission *)

(** The host's descriptors are no part of the machine. *)
Class TapHost `{NetHost} : Prop := {
  tap_write fd packet w : Forall byte_ok packet ->
    exists n w', sys_net_write fd packet w = Ok (n, w') /\ same_machine w w' /\ same_models w w';
}.

Section Transmit.
Context `{TranslateCallbacks} `{MsixCallbacks} `{IrqCallbacks} `{NetHost} `{HT : !TapHost}
  (fuel : nat) (d : ptr) (I : World -> Prop) `{HP : !DmaPort fuel d I}
  (dev : VartVirtioNetDevice).

Record net_ready (w : World) : Prop := {
  nr_port : I w;
  nr_dev : w_nets w !! d = Some dev;
}.

#[export] Instance net_port_model : PortModel I net_ready.
Proof using HP.
  split.
  - by intros w [].
  - intros w w' [HI Hd] HI' Hs. split; [done|]. by rewrite (sm_nets _ _ Hs).
  - intros w x [HI Hd]. split; [|done]. eapply port_machine; [|exact HI]. by split.
Qed.
#[export] Instance net_dma_total w0 :
  DmaTotal (H := net_dma fuel) World (net_dma_ops d) (fun e => I e /\ same_models w0 e).
Proof using HP. by apply (device_dma_total fuel d I); [|intros f [= <-]..]. Qed.

Definition net_client : option fnptr * option ptr * VartVirtioPciConfigOps :=
  (Some fn_virtio_net_notify, Some d, net_config_ops d).
Abbreviation G := (guest_state d (net_dma_ops d) 2 net_client net_ready).

Lemma net_state w w' : G w -> I w' -> same_models w w' -> G w'.
Proof using HP. apply port_state. apply net_port_model. Qed.

(** ** The length of a packet *)

Definition piece_ok (p : Z * Z) : Prop := u64_arg p.1 /\ 0 <= p.2 <= UINT32_MAX.
Definition pieces_length (l : list (Z * Z)) : Z := foldr (fun p t => p.2 + t) 0 l.
Lemma pieces_length_cons p l : pieces_length (p :: l) = p.2 + pieces_length l.
Proof. done. Qed.
Lemma pieces_length_pos l : Forall piece_ok l -> 0 <= pieces_length l.
Proof. induction 1 as [|p l [_ ?] _ IH]; [done|]. rewrite pieces_length_cons. lia. Qed.

Lemma payload_pieces_ok first rest :
  descriptor_ok first -> Forall descriptor_ok rest -> VIRTIO_NET_HDR_SIZE <= d_length first ->
  Forall piece_ok (payload_pieces first rest) /\
  pieces_length (payload_pieces first rest) = d_length first - VIRTIO_NET_HDR_SIZE +
    pieces_length (map (fun s => (d_address s, d_length s)) rest).
Proof.
  intros Hf Hr Hl. pose proof (dk_length _ Hf). unfold payload_pieces.
  assert (Forall piece_ok (map (fun s => (d_address s, d_length s)) rest)) as Hrest.
  { apply Forall_map. eapply Forall_impl; [exact Hr|]. intros s []. by split. }
  destruct (Z.ltb_spec VIRTIO_NET_HDR_SIZE (d_length first)).
  - split; [|done]. constructor; [|done]. split; [apply u64_range|cbn; lia].
  - split; [done|]. cbn [app]. lia.
Qed.

Lemma tx_length_spec l : forall start n, tx_length l start = inr n ->
  n = start + pieces_length (map (fun s => (d_address s, d_length s)) l).
Proof.
  induction l as [|s l IH]; intros start n Hn; cbn [tx_length map] in *.
  { simplify_eq. cbn. lia. }
  destruct (bits _ _); [done|]. destruct (_ <? _); [done|]. apply IH in Hn. rewrite Hn.
  rewrite pieces_length_cons. cbn. lia.
Qed.

(** ** Gathering a packet stays inside its allocation *)
Lemma tx_gather_safe cap l : forall packet w,
  I w -> Forall piece_ok l -> Forall byte_ok packet ->
  Z.of_nat (length packet) + pieces_length l <= cap ->
  wp (tx_gather fuel d cap l packet) (fun '(err, p) w' => I w' /\ same_models w w' /\
    Forall byte_ok p /\ (0 <= err -> Z.of_nat (length p) = Z.of_nat (length packet) + pieces_length l)) w.
Proof using HP.
  induction l as [|[a n] l IH]; intros packet w HI Hl Hp Hcap; cbn [tx_gather].
  { wsteps. cbn. split_and!; [done|done|done|lia]. }
  apply Forall_cons in Hl as [[Ha Hn] Hl]. cbn in Ha, Hn.
  rewrite pieces_length_cons in *. cbn [snd] in *. pose proof (pieces_length_pos _ Hl).
  destruct (Z.ltb_spec cap (Z.of_nat (length packet) + n)); [lia|]. wstep.
  eapply (wp_device_read fuel d I); [done|done| |].
  { split; [by apply Forall_replicate|rewrite length_replicate; lia]. }
  intros err data w1 Hlen Hby HI1 Hs1. rewrite length_replicate in Hlen. cbv beta iota.
  destruct (Z.ltb_spec err 0); [wsteps; split_and!; done || lia|].
  eapply wp_mono; [apply IH|].
  - done.
  - done.
  - by apply Forall_app_2.
  - rewrite length_app. lia.
  - intros [e p] w2 (HI2 & Hs2 & Hb2 & Hl2). rewrite length_app in Hl2.
    split_and!; [done|by etransitivity|done|lia].
Qed.

Lemma retry_write_safe steps fd packet w :
  G w -> Forall byte_ok packet ->
  safe (retry steps (sys_net_write fd packet)) (fun _ w' => G w') w.
Proof using HP HT.
  intros Hw Hp. revert w Hw. induction steps as [|steps IH]; intros w Hw; cbn [retry]; [done|].
  apply safe_bind. destruct (tap_write fd packet w Hp) as (n & w' & Hrun & Hx & Hs).
  unfold safe at 1. rewrite Hrun. assert (G w') as Hw'.
  { eapply net_state; [exact Hw| |done]. pose proof Hw as (pdev & _ & _ & _ & _ & [HI _]).
    by eapply port_machine. }
  destruct (_ =? _); [by apply IH|by apply wp_safe, wp_ret].
Qed.

Lemma transmit_chain_safe steps fd chain w :
  G w -> chain_ok chain ->
  safe (transmit_chain fuel steps d fd chain) (fun _ w' => G w') w.
Proof using HP HT.
  intros Hw (Hone & Hct & Hch). unfold transmit_chain. cbv zeta.
  rewrite Hct, Nat2Z.id, firstn_all. destruct (ch_descriptors chain) as [|first rest]; [by apply wp_safe, wp_ret|].
  apply Forall_cons in Hch as [Hf Hr].
  destruct (_ || _) eqn:Hg; [by apply wp_safe, wp_ret|]. rewrite orb_false_iff in Hg.
  destruct Hg as [_ Hlen%Z.ltb_ge]. destruct (tx_length _ _) as [err|n] eqn:Hn; [by apply wp_safe, wp_ret|].
  apply tx_length_spec in Hn. destruct (payload_pieces_ok first rest Hf Hr Hlen) as [Hpieces Hsum].
  rewrite <- Hn in Hsum. destruct (_ =? _); [by apply wp_safe, wp_ret|]. apply safe_bind, wp_safe.
  pose proof Hw as (_ & _ & _ & _ & _ & [HI _]).
  eapply (wp_device_allocate fuel d I); [done|]. intros b w1 HI1 Hs1.
  pose proof (net_state _ _ Hw HI1 Hs1) as Hw1. destruct b; cbn [negb]; [|by apply wp_safe, wp_ret].
  apply safe_bind, wp_safe. eapply wp_mono.
  { apply (tx_gather_safe n); [done|done|done|]. cbn. lia. }
  intros [err p] w2 (HI2 & Hs2 & Hb2 & Hl2). pose proof (net_state _ _ Hw1 HI2 Hs2) as Hw2.
  destruct (Z.ltb_spec err 0); [by apply wp_safe, wp_ret|]. specialize (Hl2 ltac:(lia)). cbn in Hl2.
  apply safe_bind. unfold slice. destruct (_ && _) eqn:Hsl; [|lia]. apply wp_safe, wp_ret.
  apply safe_bind. eapply safe_mono; [apply retry_write_safe; [done|]|].
  { by apply Forall_take. }
  intros wr w3 Hw3. destruct (wr <? 0); [by apply wp_safe, wp_ret|].
  destruct (negb _); [by apply wp_safe, wp_ret|]. apply wp_safe.
  eapply (port_push d I); [apply net_dma_total|apply net_port_model|done|lia].
Qed.

Lemma tx_loop_safe fd steps : forall completed w,
  G w -> safe (tx_loop fuel steps d fd completed) (fun _ w' => G w') w.
Proof using HP HT.
  induction steps as [|steps IH]; intros completed w Hw; cbn [tx_loop]; [done|].
  apply safe_bind, wp_safe. eapply wp_mono.
  { eapply (port_pop d I); [intros w1; apply net_dma_total|apply net_port_model|exact Hw|lia]. }
  intros [err chain] w1 [Hw1 Hch]. destruct (err =? -EAGAIN); [by apply wp_safe, wp_ret|].
  destruct (Z.ltb_spec err 0); [by apply wp_safe, wp_ret|].
  destruct Hch as [|(-> & ch & -> & Hch)]; [lia|]. apply safe_bind. apply wp_safe. eapply wp_deref; [done|].
  apply safe_bind. eapply safe_mono; [by apply transmit_chain_safe|].
  intros e w2 Hw2. destruct (e <? 0); [by apply wp_safe, wp_ret|]. by apply IH.
Qed.

Lemma process_tx_safe steps w :
  G w -> safe (virtio_net_process_tx fuel steps d) (fun _ w' => G w') w.
Proof using HP HT.
  intros Hw. pose proof Hw as (pdev & _ & _ & _ & _ & [_ Hdev]). unfold virtio_net_process_tx.
  apply safe_bind, wp_safe. wstep. destruct (_ <? 0); [by apply wp_safe, wp_ret|]. apply safe_bind.
  eapply safe_mono; [by apply tx_loop_safe|]. intros [err completed] w1 Hw1.
  destruct (err <? 0); [by apply wp_safe, wp_ret|]. destruct completed; [|by apply wp_safe, wp_ret].
  apply wp_safe. eapply (port_queue_interrupt fuel d I); [apply net_port_model|done|lia].
Qed.

Lemma net_config_read_safe offset size value w :
  G w -> access_size size ->
  safe (virtio_net_config_read d offset size value (Some d)) (fun _ w' => G w') w.
Proof.
  intros Hw Hsz. pose proof Hw as (pdev & _ & _ & _ & _ & [_ Hdev]). apply wp_safe.
  unfold virtio_net_config_read. wstep. eapply wp_deref; [done|]. wsteps.
  destruct (_ || _); [done|]. destruct (Z.ltb_spec 8 size); [|done]. unfold access_size in Hsz. lia.
Qed.

Context (Hidle : net_rx_packet dev = None).

Lemma net_notify_safe steps queue w :
  G w -> safe (virtio_net_notify fuel steps d queue (Some d)) (fun _ w' => G w') w.
Proof using HP HT Hidle.
  intros Hw. pose proof Hw as (pdev & _ & _ & _ & _ & [_ Hdev]). unfold virtio_net_notify.
  apply safe_bind, wp_safe. wstep. destruct (_ <? 0); [by apply wp_safe, wp_ret|].
  destruct (queue =? 0).
  - apply wp_safe. unfold virtio_net_deliver_rx. wsteps. by rewrite Hidle.
  - destruct (queue =? 1); [by apply process_tx_safe|by apply wp_safe, wp_ret].
Qed.

#[export] Instance net_virtio_client steps :
  VirtioClient (H := net_callbacks fuel steps) d (net_dma_ops d) 2 net_client net_ready.
Proof using HP HT Hidle.
  split.
  - intros w x. apply (model_virtio (PortModel := net_port_model)).
  - intros f offset size value w [= <-] Hw Hsz _ _. by apply net_config_read_safe.
  - intros f offset size value w [= <-] Hw _ _ _. by apply wp_safe, wp_ret.
  - intros f queue w [= <-] Hw _. by apply net_notify_safe.
Qed.
End Transmit.


(** * The bounds of the receive path *)

Lemma rx_capacity_spec l : forall start n, rx_capacity l start = Some n ->
  n = start + pieces_length (map (fun s => (d_address s, d_length s)) l).
Proof.
  induction l as [|s l IH]; intros start n Hn; cbn [rx_capacity map] in *.
  { simplify_eq. cbn. lia. }
  destruct (_ || _); [done|]. apply IH in Hn. rewrite Hn. rewrite pieces_length_cons. cbn. lia.
Qed.

Section Scatter.
Context `{TranslateCallbacks} `{MsixCallbacks} `{IrqCallbacks} (fuel : nat) (d : ptr)
  (I : World -> Prop) `{HP : !DmaPort fuel d I} (packet : list Z) (Hbytes : Forall byte_ok packet).

(** One buffer of the chain. *)
Lemma packet_window_ok copied n : 0 <= n <= UINT32_MAX -> buffer_ok (packet_window packet copied n).
Proof using Hbytes.
  intros Hn. unfold packet_window. split.
  - apply Forall_app. split; [by apply Forall_take, Forall_drop|]. by apply Forall_replicate.
  - rewrite length_app, length_replicate, length_take. lia.
Qed.

Lemma rx_scatter_inside l : forall copied w,
  I w -> Forall piece_ok l -> 0 <= copied ->
  copied + pieces_length l <= Z.of_nat (length packet) ->
  wp (rx_scatter fuel d packet l copied) (fun _ w' => I w' /\ same_models w w') w.
Proof using HP Hbytes.
  induction l as [|[a n] l IH]; intros copied w HI Hl Hc Hin; cbn [rx_scatter]; [by wsteps|].
  apply Forall_cons in Hl as [[Ha Hn] Hl]. cbn in Ha, Hn. rewrite pieces_length_cons in Hin.
  cbn in Hin. pose proof (pieces_length_pos _ Hl).
  wstep. eapply (wp_device_write fuel d I); [done|done|by apply packet_window_ok|].
  intros err w1 HI1 Hm1. destruct (err <? 0); [by wsteps|].
  destruct (Z.ltb_spec (Z.of_nat (length packet)) (copied + n)); [lia|].
  eapply wp_mono; [apply IH; [done|done|lia|lia]|]. intros r w2 [HI2 Hm2].
  split; [done|]. by etransitivity.
Qed.

Lemma rx_scatter_outside l : forall copied w,
  I w -> Forall piece_ok l -> 0 <= copied <= Z.of_nat (length packet) ->
  Z.of_nat (length packet) < copied + pieces_length l ->
  rx_scatter fuel d packet l copied w = UB \/
  exists err w', rx_scatter fuel d packet l copied w = Ok (err, w') /\ err < 0.
Proof using HP Hbytes.
  induction l as [|[a n] l IH]; intros copied w HI Hl Hc Hout; [cbn in Hout; lia|].
  apply Forall_cons in Hl as [[Ha Hn] Hl]. cbn in Ha, Hn. rewrite pieces_length_cons in Hout.
  cbn in Hout. cbn [rx_scatter].
  assert (wp (virtio_net_dma_write fuel (Some d) a (packet_window packet copied n))
    (fun _ w' => I w') w) as (err & w1 & Hrun & HI1)%wp_ok.
  { eapply (wp_device_write fuel d I); [done|done|by apply packet_window_ok|done]. }
  rewrite (bind_eq _ _ _ _ _ Hrun). destruct (Z.ltb_spec err 0) as [Hneg|Hpos].
  { right. by exists err, w1. }
  destruct (Z.ltb_spec (Z.of_nat (length packet)) (copied + n)); [by left|].
  apply IH; [done|done|lia|lia].
Qed.
End Scatter.

(** C12. The receive path copies as much as the guest's buffers hold, not as much as
    the frame has: it stays inside the allocation of the packet exactly for chains
    that hold no more than the allocation does.  For a longer chain it reads past the
    end of the packet, unless guest memory refuses a part of the chain. *)
Theorem rx_copy_in_bounds_iff `{TranslateCallbacks} `{MsixCallbacks} `{IrqCallbacks} fuel d I
    `{!DmaPort fuel d I} packet first rest capacity w :
  I w -> Forall byte_ok packet -> descriptor_ok first -> Forall descriptor_ok rest ->
  VIRTIO_NET_HDR_SIZE <= d_length first ->
  rx_capacity rest (d_length first - VIRTIO_NET_HDR_SIZE) = Some capacity ->
  (capacity <= Z.of_nat (length packet) ->
     exists err w', rx_scatter fuel d packet (payload_pieces first rest) 0 w = Ok (err, w')) /\
  (Z.of_nat (length packet) < capacity ->
     rx_scatter fuel d packet (payload_pieces first rest) 0 w = UB \/
     exists err w', rx_scatter fuel d packet (payload_pieces first rest) 0 w = Ok (err, w') /\
       err < 0).
Proof.
  intros HI Hb Hf Hr Hl Hcap%rx_capacity_spec.
  destruct (payload_pieces_ok first rest Hf Hr Hl) as [Hpieces Hsum]. rewrite <- Hcap in Hsum.
  split; intros Hlen.
  - pose proof (rx_scatter_inside fuel d I packet Hb (payload_pieces first rest) 0 w HI Hpieces
      ltac:(lia) ltac:(lia)) as (err & w' & Hrun & _)%wp_ok. by eauto.
  - apply (rx_scatter_outside fuel d I packet Hb); done || lia.
Qed.

(** * A concrete device

    A transmit queue with one frame of 8 bytes, and a receive queue whose chain of 34
    buffers, all at the same address, holds 68396 bytes. *)
Module VirtioNetDemo.
Import PortDemo.
Definition src : ptr := 7%positive.
#[export] Instance host : NetHost := {|
  net_malloc_contents n := ret (replicate (Z.to_nat n) 0xee);
  sys_net_write _ packet := ret (Z.of_nat (length packet));
  sys_net_read _ _ := ret (60, replicate 60 0x55);
  sys_net_close _ := ret tt;
  sys_open_tun := ret 9;
  sys_tunsetiff _ _ := ret 0;
  net_mutex_init := ret 0;
|}.
#[export] Instance tap_host : TapHost.
Proof. split. intros fd packet w _. by eexists _, w. Qed.

Definition rx_table : list Z :=
  concat (map (fun i => descriptor 0 2012 3 (Z.of_nat i + 1)) (seq 0 33)) ++ descriptor 0 2012 2 0.
Definition memory : gmap Z Z :=
  poke 0x00 (descriptor 0xc0 20 0 0) (poke 0x40 [0; 0; 1; 0; 0; 0]
  (poke 0x100 rx_table (poke 0x500 [0; 0; 1; 0; 0; 0] (mem_map ∅ 0x1000 2048)))).

Definition n0 : World := empty_world
  <| w_devices := {[fn := zero_pci_device [10; 11; 12; 13; 14; 15]%positive 16%positive 17%positive]} |>
  <| w_virtio_pcis := {[fn := zero_virtio_pci]} |> <| w_nets := {[fn := zero_net src]} |>.
Definition n1 := exec (vart_address_space_init sys) n0.
Definition n2 := exec (vart_address_region_init_ram (Some ram) 0 2048 (-1) None (Some 0x1000)) n1.
Definition n3 := exec (vart_address_space_add (Some sys) (Some ram)) n2.
Definition n4 := exec (vart_virtio_net_init 1 (Some fn) (Some [2; 0; 0; 0; 0; 1]) (Some sys)) n3.
Definition n5 := exec (vart_virtio_net_open_tap (Some fn) None) n4.
(** The device is on a bus with bus mastering enabled. *)
Definition n6 : World := n5 <| w_host := memory |> <| w_devices ::= alter (fun p =>
  p <| pci_bus := Some 2%positive |> <| pci_bus_master_enabled := true |>) fn |>.

Definition setup (q size desc avail used : Z) : list guest_access :=
  [guest_write 0x16 2 q; guest_write 0x18 2 size; guest_write 0x20 4 desc; guest_write 0x24 4 0;
   guest_write 0x28 4 avail; guest_write 0x2c 4 0; guest_write 0x30 4 used; guest_write 0x34 4 0;
   guest_write 0x1c 2 1].
Definition run (l : list guest_access) :=
  run_accesses (H := net_dma 1) (H0 := net_callbacks 1 4) fn l.
Definition program : list guest_access :=
  setup 0 64 0x100 0x500 0x5a0 ++ setup 1 4 0x00 0x40 0x80 ++
  [guest_read 0x300 4; guest_write 0x104 2 1].
Definition n7 := exec (run program) n6.

(** The frame was transmitted and its buffer returned. *)
Example frame_sent :
  (option_map net_backend_fd (w_nets n7 !! fn), mem_read (w_host n7) 0x1080 12) =
  (Some 9, Some [0; 0; 1; 0; 0; 0; 0; 0; 8; 0; 0; 0]).
Proof. vm_compute. reflexivity. Qed.

(** A frame of 60 bytes arrives: the copy reads past the 65535 bytes allocated. *)
Lemma long_chain_overruns : virtio_net_receive_locked 1 1 fn n7 = UB.
Proof. vm_compute. reflexivity. Qed.

Definition net6 : VartVirtioNetDevice :=
  mkNet (net_config_of [2; 0; 0; 0; 0; 1]) src None None 0 9 true true true.
Definition dev6 : VartVirtioPciDevice := default zero_virtio_pci (w_virtio_pcis n6 !! fn).
Definition pci6 : VartPciDevice :=
  default (zero_pci_device [] 1%positive 1%positive) (w_devices n6 !! fn).

Lemma net_memory_bytes : bytes_mem memory.
Proof.
  unfold memory. apply poke_ram_bytes; [|repeat apply Forall_app_2; apply store_le_bytes].
  apply poke_ram_bytes; [|by repeat constructor].
  do 2 (apply poke_ram_bytes; [|vm_compute; by repeat constructor]).
  intros x b. rewrite mem_map_lookup. case_decide; [|by rewrite lookup_empty]. by intros [= <-].
Qed.
Lemma net_memory_mapped x : 0x1000 <= x < 0x1800 -> is_Some (memory !! x).
Proof.
  intros Hx. unfold memory. do 4 apply poke_ram_dom. rewrite mem_map_lookup.
  by rewrite decide_True by lia.
Qed.
Lemma n6_lone : lone_ram n6.
Proof.
  split_and!; [vm_compute; reflexivity..|]. apply (bool_decide_unpack _). vm_compute. exact Logic.I.
Qed.
Lemma n6_host : w_host n6 = memory.
Proof. reflexivity. Qed.
Lemma n6_device : w_devices n6 !! fn = Some pci6 /\ dev_dma_as (pci_parent pci6) = Some sys.
Proof. vm_compute. done. Qed.
Lemma msix6_plain : plain_msix (pci_msix pci6).
Proof. apply (plain_msix_intro 3); [lia|vm_compute; reflexivity..]. Qed.
Lemma n6_port : plain_port fn sys n6.
Proof.
  apply (lone_ram_port _ pci6); rewrite ?n6_host;
    [apply n6_lone|apply net_memory_bytes|apply net_memory_mapped|apply n6_device..|apply msix6_plain].
Qed.
Lemma n6_net_ready : net_ready fn (plain_port fn sys) net6 n6.
Proof. split; [apply n6_port|vm_compute; reflexivity]. Qed.

Lemma dev6_count : vp_queue_count dev6 = 2.
Proof. vm_compute. reflexivity. Qed.
Lemma dev6_ok : vp_ok (net_dma_ops fn) dev6.
Proof. apply (initial_vp_ok _ 2); [lia|vm_compute; reflexivity..]. Qed.
Lemma n6_virtio : w_virtio_pcis n6 !! fn = Some dev6 /\ vp_client dev6 = net_client fn.
Proof. vm_compute. done. Qed.


(** A buffer of 20 bytes takes 8 bytes of a packet of 16. *)
Lemma rx_copy_in_bounds_iff_witness :
  (8 <= Z.of_nat (length (replicate 16 1)) -> exists err w',
     rx_scatter 1 fn (replicate 16 1) (payload_pieces (mkDescriptor 0xc0 20 2 0) []) 0 n6 = Ok (err, w')) /\
  (Z.of_nat (length (replicate 16 1)) < 8 ->
     rx_scatter 1 fn (replicate 16 1) (payload_pieces (mkDescriptor 0xc0 20 2 0) []) 0 n6 = UB \/
     exists err w',
       rx_scatter 1 fn (replicate 16 1) (payload_pieces (mkDescriptor 0xc0 20 2 0) []) 0 n6 =
         Ok (err, w') /\ err < 0).
Proof.
  apply (rx_copy_in_bounds_iff 1 fn (plain_port fn sys)).
  - apply n6_port.
  - by apply Forall_replicate.
  - split; cbn; unfold u64_arg; lia.
  - constructor.
  - cbn. lia.
  - reflexivity.
Defined.
End VirtioNetDemo.
