(* ===== verification/Sync.v ===== *)
(** Locks with run-time checks: [src/event/sync.c], built with [CONFIG_DEBUG_LOCKS].

    A mutex wraps a POSIX mutex of the error-checking type and records its owner and
    its rank; each thread keeps the stack of the mutexes it holds.  Taking a mutex
    whose rank is not above that of the innermost one held, taking one twice,
    releasing them out of order and the like abort the program.  The threads of the
    program are interleaved at the calls of this interface. *)

From stdpp Require Import base tactics numbers list gmap relations.
From Stdlib Require Import ZArith Lia.
From S2P Require Import Prelude Machine.

Abbreviation thread := positive (only parsing).
Abbreviation EDEADLK := 35 (only parsing).
Abbreviation VART_LOCK_DEPTH_MAX := 16%nat (only parsing).

Inductive VartLockRank :=
| VART_LOCK_RANK_UNCLASSIFIED
| VART_LOCK_RANK_VM
| VART_LOCK_RANK_ADDRESS_SPACE
| VART_LOCK_RANK_DEVICE
| VART_LOCK_RANK_QUEUE.
#[export] Instance VartLockRank_eq_dec : EqDecision VartLockRank.
Proof. solve_decision. Defined.

Definition rank_value (rank : VartLockRank) : Z :=
  match rank with
  | VART_LOCK_RANK_UNCLASSIFIED => 0
  | VART_LOCK_RANK_VM => 10
  | VART_LOCK_RANK_ADDRESS_SPACE => 20
  | VART_LOCK_RANK_DEVICE => 30
  | VART_LOCK_RANK_QUEUE => 40
  end.
Definition classified (rank : VartLockRank) : bool :=
  bool_decide (rank <> VART_LOCK_RANK_UNCLASSIFIED).

(** [mu_mutex] is the thread that holds the POSIX mutex and [mu_owner] the [owner]
    token; the name and the place of initialisation, which only messages show, are
    left out. *)
Record VartMutex := mkMutex {
  mu_mutex : option thread;
  mu_owner : option thread;
  mu_rank : VartLockRank;
}.
#[export] Instance VartMutex_rebuild : Rebuild VartMutex :=
  env_const mkMutex $* mu_mutex $* mu_owner $* mu_rank.

(** The mutexes, and per thread the first [held_lock_count] entries of
    [held_locks], outermost first. *)
Record Sync := mkSync {
  sy_mutexes : gmap ptr VartMutex;
  sy_held : gmap thread (list ptr);
}.
#[export] Instance Sync_rebuild : Rebuild Sync := env_const mkSync $* sy_mutexes $* sy_held.

(** A call returns, aborts the program, blocks at the POSIX mutex (and leaves the
    state as it is), or uses a mutex that does not exist. *)
Inductive sync_outcome (A : Type) :=
| Return (a : A) (s : Sync)
| Aborted
| Blocked
| NoMutex.
Arguments Return {A} a s.
Arguments Aborted {A}.
Arguments Blocked {A}.
Arguments NoMutex {A}.
Definition SyncM (A : Type) : Type := Sync -> sync_outcome A.
Definition sret {A} (a : A) : SyncM A := fun s => Return a s.
Definition sbind {A B} (m : SyncM A) (k : A -> SyncM B) : SyncM B := fun s =>
  match m s with
  | Return a s' => k a s'
  | Aborted => Aborted
  | Blocked => Blocked
  | NoMutex => NoMutex
  end.
Declare Scope sync_scope.
Delimit Scope sync_scope with sync.
Notation "'do' x := m 'in' k" := (sbind m (fun x => k))
  (at level 10, x name, m at level 100, k at level 200) : sync_scope.
Notation "'run' m 'then' k" := (sbind m (fun _ => k))
  (at level 10, m at level 100, k at level 200) : sync_scope.
#[local] Open Scope sync_scope.

Definition load_mutex (m : ptr) : SyncM VartMutex := fun s =>
  match sy_mutexes s !! m with Some v => Return v s | None => NoMutex end.
Definition store_mutex (m : ptr) (v : VartMutex) : SyncM unit := fun s =>
  Return tt (s <| sy_mutexes ::= <[m := v]> |>).
Definition held_by (s : Sync) (t : thread) : list ptr := default [] (sy_held s !! t).
Definition load_held (t : thread) : SyncM (list ptr) := fun s => Return (held_by s t) s.
Definition store_held (t : thread) (l : list ptr) : SyncM unit := fun s =>
  Return tt (s <| sy_held ::= <[t := l]> |>).

(** ** POSIX *)

Definition pthread_mutex_lock (t : thread) (m : ptr) : SyncM Z :=
  do v := load_mutex m in
  match mu_mutex v with
  | None => run store_mutex m (v <| mu_mutex := Some t |>) then sret 0
  | Some t' => if decide (t' = t) then sret EDEADLK else fun _ => Blocked
  end.
Definition pthread_mutex_unlock (t : thread) (m : ptr) : SyncM Z :=
  do v := load_mutex m in
  if decide (mu_mutex v = Some t) then run store_mutex m (v <| mu_mutex := None |>) then sret 0
  else sret EPERM.
Definition pthread_mutex_destroy (m : ptr) : SyncM Z := fun s =>
  match sy_mutexes s !! m with
  | Some v =>
      match mu_mutex v with
      | None => Return 0 (s <| sy_mutexes ::= delete m |>)
      | Some _ => Return EBUSY s
      end
  | None => NoMutex
  end.

(** ** The interface, called by the thread [t] *)

Definition lock_abort {A} : SyncM A := fun _ => Aborted.
Definition lock_set_unowned (m : ptr) : SyncM unit :=
  do v := load_mutex m in store_mutex m (v <| mu_owner := None |>).
Definition lock_set_owned (t : thread) (m : ptr) : SyncM unit :=
  do v := load_mutex m in store_mutex m (v <| mu_owner := Some t |>).
Definition lock_is_owned (t : thread) (m : ptr) : SyncM bool :=
  do v := load_mutex m in sret (bool_decide (mu_owner v = Some t)).

(** [mutex->rank <= parent->rank] of two classified mutexes *)
Definition inverted (rank parent : VartLockRank) : bool :=
  classified rank && classified parent && (rank_value rank <=? rank_value parent).

Definition lockdep_acquire (t : thread) (m : ptr) : SyncM unit :=
  do held := load_held t in
  if decide (length held = VART_LOCK_DEPTH_MAX) then lock_abort
  else
    do v := load_mutex m in
    match last held with
    | Some p =>
        do parent := load_mutex p in
        if inverted (mu_rank v) (mu_rank parent) then lock_abort
        else store_held t (held ++ [m])
    | None => store_held t (held ++ [m])
    end.

Definition lockdep_release (t : thread) (m : ptr) : SyncM unit :=
  do held := load_held t in
  if decide (last held = Some m) then store_held t (removelast held) else lock_abort.

Definition pthread_abort (error : Z) : SyncM unit :=
  if error =? 0 then sret tt else fun _ => Aborted.

(** [error] is what [pthread_mutexattr_init], [pthread_mutexattr_settype] or
    [pthread_mutex_init] returns, 0 when all succeed. *)
Definition vart_mutex_init_impl (error : Z) (m : ptr) (rank : VartLockRank) : SyncM Z :=
  if error =? 0 then run store_mutex m (mkMutex None None rank) then sret 0
  else sret (-error).

Definition vart_mutex_destroy_impl (m : ptr) : SyncM unit :=
  do v := load_mutex m in
  if decide (mu_owner v = None) then
    do error := pthread_mutex_destroy m in pthread_abort error
  else lock_abort.

(** From [pthread_mutex_lock] on. *)
Definition finish_lock (t : thread) (m : ptr) : SyncM unit :=
  do error := pthread_mutex_lock t m in
  run pthread_abort error then
  run lock_set_owned t m then
  lockdep_acquire t m.

Definition vart_mutex_lock_impl (t : thread) (m : ptr) : SyncM unit :=
  do owned := lock_is_owned t m in
  if (owned : bool) then lock_abort else finish_lock t m.

Definition vart_mutex_unlock_impl (t : thread) (m : ptr) : SyncM unit :=
  do owned := lock_is_owned t m in
  if negb owned then lock_abort
  else
    run lockdep_release t m then
    run lock_set_unowned m then
    do error := pthread_mutex_unlock t m in
    pthread_abort error.

Definition vart_mutex_assert_held_impl (t : thread) (m : ptr) : SyncM unit :=
  do owned := lock_is_owned t m in if negb owned then lock_abort else sret tt.
Definition vart_mutex_assert_not_held_impl (t : thread) (m : ptr) : SyncM unit :=
  do owned := lock_is_owned t m in if (owned : bool) then lock_abort else sret tt.

(** [vart_cond_wait_impl] up to the moment when [pthread_cond_wait] has released the
    mutex; once woken it takes the mutex again with [finish_lock], whose steps are
    those of the second half. *)
Definition cond_wait_release (t : thread) (m : ptr) : SyncM unit :=
  do owned := lock_is_owned t m in
  if negb owned then lock_abort
  else
    run lockdep_release t m then
    run lock_set_unowned m then
    do error := pthread_mutex_unlock t m in
    pthread_abort error.

(** * Threads *)

(** [cf_waiting] has the threads blocked at a POSIX mutex, and [cf_sleeping] those in
    [pthread_cond_wait], with the mutex they will take again. *)
Record Config := mkConfig {
  cf_sync : Sync;
  cf_waiting : gmap thread ptr;
  cf_sleeping : gmap thread ptr;
}.

Definition running (c : Config) (t : thread) : Prop :=
  cf_waiting c !! t = None /\ cf_sleeping c !! t = None.

(** A step of some thread.  A mutex is initialised in memory that holds none. *)
Inductive sync_step (c : Config) : Config -> Prop :=
| sync_init m rank error r s' :
    sy_mutexes (cf_sync c) !! m = None ->
    vart_mutex_init_impl error m rank (cf_sync c) = Return r s' ->
    sync_step c (mkConfig s' (cf_waiting c) (cf_sleeping c))
| sync_destroy m s' :
    vart_mutex_destroy_impl m (cf_sync c) = Return tt s' ->
    sync_step c (mkConfig s' (cf_waiting c) (cf_sleeping c))
| sync_lock t m s' :
    running c t -> vart_mutex_lock_impl t m (cf_sync c) = Return tt s' ->
    sync_step c (mkConfig s' (cf_waiting c) (cf_sleeping c))
| sync_block t m :
    running c t -> vart_mutex_lock_impl t m (cf_sync c) = Blocked ->
    sync_step c (mkConfig (cf_sync c) (<[t := m]> (cf_waiting c)) (cf_sleeping c))
| sync_resume t m s' :
    cf_waiting c !! t = Some m -> finish_lock t m (cf_sync c) = Return tt s' ->
    sync_step c (mkConfig s' (delete t (cf_waiting c)) (cf_sleeping c))
| sync_unlock t m s' :
    running c t -> vart_mutex_unlock_impl t m (cf_sync c) = Return tt s' ->
    sync_step c (mkConfig s' (cf_waiting c) (cf_sleeping c))
| sync_sleep t m s' :
    running c t -> cond_wait_release t m (cf_sync c) = Return tt s' ->
    sync_step c (mkConfig s' (cf_waiting c) (<[t := m]> (cf_sleeping c)))
| sync_wake t m :
    cf_sleeping c !! t = Some m ->
    sync_step c (mkConfig (cf_sync c) (<[t := m]> (cf_waiting c)) (delete t (cf_sleeping c))).

Definition initial : Config := mkConfig (mkSync ∅ ∅) ∅ ∅.

(** Neighbours on a stack of locks have increasing ranks, those without a rank
    apart. *)
Definition in_order (s : Sync) (held : list ptr) : Prop :=
  forall i a b va vb, held !! i = Some a -> held !! S i = Some b ->
    sy_mutexes s !! a = Some va -> sy_mutexes s !! b = Some vb ->
    inverted (mu_rank vb) (mu_rank va) = false.

Record sync_ok (s : Sync) : Prop := {
  sk_held : forall t m, m ∈ held_by s t <->
    exists v, sy_mutexes s !! m = Some v /\ mu_owner v = Some t;
  sk_native : forall m v, sy_mutexes s !! m = Some v -> mu_mutex v = mu_owner v;
  sk_nodup : forall t, NoDup (held_by s t);
  sk_depth : forall t, (length (held_by s t) <= VART_LOCK_DEPTH_MAX)%nat;
  sk_order : forall t, in_order s (held_by s t);
}.

(** The state after [t] took [m] and after it released it. *)
Definition taken (t : thread) (m : ptr) (v : VartMutex) (s : Sync) : Sync :=
  s <| sy_mutexes ::= <[m := v <| mu_mutex := Some t |> <| mu_owner := Some t |>]> |>
    <| sy_held ::= <[t := held_by s t ++ [m]]> |>.
Definition dropped (t : thread) (m : ptr) (v : VartMutex) (s : Sync) : Sync :=
  s <| sy_held ::= <[t := removelast (held_by s t)]> |>
    <| sy_mutexes ::= <[m := v <| mu_owner := None |> <| mu_mutex := None |>]> |>.

(** Taking a mutex is possible when it is free, the stack has room and the rank is
    above that of the innermost one. *)
Definition may_take (s : Sync) (t : thread) (m : ptr) (v : VartMutex) : Prop :=
  sy_mutexes s !! m = Some v /\ mu_mutex v = None /\
  (length (held_by s t) < VART_LOCK_DEPTH_MAX)%nat /\
  forall p vp, last (held_by s t) = Some p -> sy_mutexes s !! p = Some vp ->
    inverted (mu_rank v) (mu_rank vp) = false.

Lemma finish_lock_Return t m s s' :
  sync_ok s -> finish_lock t m s = Return tt s' ->
  exists v, may_take s t m v /\ s' = taken t m v s.
Proof.
  intros [Hh Hn Hnd Hd Ho]. unfold finish_lock, pthread_mutex_lock, load_mutex, store_mutex,
    lock_set_owned, lockdep_acquire, pthread_abort, sbind, sret, load_mutex, load_held, store_held.
  destruct (sy_mutexes s !! m) as [v|] eqn:Hm; [|done].
  destruct (mu_mutex v) as [t'|] eqn:Hmx; [by destruct (decide (t' = t))|].
  cbn [Z.eqb]. cbn. rewrite lookup_insert_eq. unfold held_by. cbn. fold (held_by s t).
  destruct (decide _) as [|Hlen]; [done|]. cbn. rewrite lookup_insert_eq.
  specialize (Hd t). destruct (last (held_by s t)) as [p|] eqn:Hl.
  - assert (p <> m) as Hpm.
    { intros ->. assert (m ∈ held_by s t) as (v' & Hv' & Hown)%Hh by (by apply last_Some_elem_of).
      pose proof (Hn _ _ Hv'). simplify_eq. congruence. }
    cbn. rewrite !lookup_insert_ne by done. destruct (sy_mutexes s !! p) as [vp|] eqn:Hp; [|done].
    destruct (inverted _ _) eqn:Hinv; [done|]. intros [= <-]. exists v.
    split; [|unfold taken, update; cbn; by rewrite insert_insert_eq].
    split_and!; [done|done|lia|]. intros p' vp' Hp' Hvp'. assert (p' = p) as -> by congruence. by simplify_eq.
  - intros [= <-]. exists v. split; [|unfold taken, update; cbn; by rewrite insert_insert_eq].
    split_and!; [done|done|lia|]. intros p vp Hp. congruence.
Qed.

(** Releasing is the same in an unlock and before a wait. *)
Lemma release_Return t m s s' :
  sync_ok s -> vart_mutex_unlock_impl t m s = Return tt s' ->
  exists v, sy_mutexes s !! m = Some v /\ mu_owner v = Some t /\
    last (held_by s t) = Some m /\ s' = dropped t m v s.
Proof.
  intros [Hh Hn Hnd Hd Ho]. unfold vart_mutex_unlock_impl, lock_is_owned, lockdep_release,
    lock_set_unowned, pthread_mutex_unlock, load_mutex, store_mutex, load_held, store_held,
    pthread_abort, sbind, sret.
  destruct (sy_mutexes s !! m) as [v|] eqn:Hm; [|done]. case_bool_decide as Hown; [|done].
  cbn [negb]. destruct (decide _) as [Hl|]; [|done]. cbn. rewrite Hm. cbn.
  rewrite lookup_insert_eq. cbn. rewrite (Hn _ _ Hm). destruct (decide _); [|done]. cbn. intros [= <-].
  exists v. split_and!; [done|done|done|]. unfold dropped, update. cbn. by rewrite insert_insert_eq.
Qed.

Lemma taken_held t m v s t' :
  held_by (taken t m v s) t' = if decide (t' = t) then held_by s t ++ [m] else held_by s t'.
Proof.
  unfold held_by, taken. cbn. case_decide as Ht; [subst; by rewrite lookup_insert_eq|].
  by rewrite lookup_insert_ne.
Qed.
Lemma taken_mutexes t m v s :
  sy_mutexes (taken t m v s) = <[m := mkMutex (Some t) (Some t) (mu_rank v)]> (sy_mutexes s).
Proof. done. Qed.
Lemma dropped_held t m v s t' :
  held_by (dropped t m v s) t' = if decide (t' = t) then removelast (held_by s t) else held_by s t'.
Proof.
  unfold held_by, dropped. cbn. case_decide as Ht; [subst; by rewrite lookup_insert_eq|].
  by rewrite lookup_insert_ne.
Qed.
Lemma dropped_mutexes t m v s :
  sy_mutexes (dropped t m v s) = <[m := mkMutex None None (mu_rank v)]> (sy_mutexes s).
Proof. done. Qed.

(** Mutexes change and keep their ranks. *)
Lemma in_order_ext s s' l :
  (forall m v', sy_mutexes s' !! m = Some v' -> exists v, sy_mutexes s !! m = Some v /\
     mu_rank v = mu_rank v') -> in_order s l -> in_order s' l.
Proof.
  intros He Ho i a b va vb Ha Hb Hva Hvb.
  destruct (He _ _ Hva) as (va' & Hva' & <-), (He _ _ Hvb) as (vb' & Hvb' & <-).
  exact (Ho i a b va' vb' Ha Hb Hva' Hvb').
Qed.

Lemma taken_ok t m v s : sync_ok s -> may_take s t m v -> sync_ok (taken t m v s).
Proof.
  intros Hok (Hm & Hfree & Hlen & Hlast). pose proof Hok as [Hh Hn Hnd Hd Ho].
  assert (mu_owner v = None) as Hown by (by rewrite <- (Hn _ _ Hm)).
  assert (forall t', m ∉ held_by s t') as Hout.
  { intros t' (v' & Hv' & Hv'')%Hh. congruence. }
  assert (forall l, in_order s l -> in_order (taken t m v s) l) as Hext.
  { intros l. apply in_order_ext. intros m' v'. rewrite taken_mutexes. intros [[<- <-]|[_ Hv']]%lookup_insert_Some; by eauto. }
  split; rewrite ?taken_mutexes; try setoid_rewrite taken_held.
  - intros t' m'. destruct (decide (m' = m)) as [->|Hne].
    + rewrite lookup_insert_eq. case_decide as Ht.
      * split; [intros _; subst; by eauto|]. intros _. apply elem_of_app. right.
        by apply list_elem_of_singleton.
      * split; [by intros ?%Hout|]. intros (v' & [= <-] & [= ->]). done.
    + rewrite lookup_insert_ne by done. rewrite <- Hh. case_decide as Ht; [|done]. subst t'.
      rewrite elem_of_app, list_elem_of_singleton. split; [by intros [?|?]|by left].
  - intros m' v' [[<- <-]|[_ Hv']]%lookup_insert_Some; [done|]. by eapply Hn.
  - intros t'. case_decide; [|done]. subst. apply NoDup_app.
    split_and!; [done| |apply NoDup_singleton]. intros x Hx ->%list_elem_of_singleton. by eapply Hout.
  - intros t'. case_decide; [|done]. rewrite length_app. cbn. lia.
  - intros t'. case_decide; [|by apply Hext, Ho]. subst.
    intros i a b va vb Ha Hb Hva Hvb. destruct (decide (S i < length (held_by s t))%nat) as [Hi|Hi].
    + rewrite lookup_app_l in Ha by lia. rewrite lookup_app_l in Hb by done.
      exact (Hext _ (Ho t) i a b va vb Ha Hb Hva Hvb).
    + assert (S i = length (held_by s t)) as Hi'.
      { apply lookup_lt_Some in Hb. rewrite length_app in Hb. cbn in Hb. lia. }
      rewrite Hi', list_lookup_middle in Hb by done. simplify_eq.
      rewrite lookup_app_l in Ha by lia. assert (last (held_by s t) = Some a) as Hl.
      { rewrite last_lookup, <- Hi'. done. }
      rewrite taken_mutexes in Hva, Hvb. rewrite lookup_insert_eq in Hvb. simplify_eq. cbn.
      apply lookup_insert_Some in Hva as [[<- _]|[_ Hva]]; [|by eapply Hlast].
      exfalso. eapply Hout. by apply last_Some_elem_of.
Qed.

Lemma dropped_ok t m v s :
  sync_ok s -> sy_mutexes s !! m = Some v -> mu_owner v = Some t ->
  last (held_by s t) = Some m -> sync_ok (dropped t m v s).
Proof.
  intros [Hh Hn Hnd Hd Ho] Hm Hown Hlast. apply last_Some in Hlast as [l Hl].
  assert (forall l, in_order s l -> in_order (dropped t m v s) l) as Hext.
  { intros l'. apply in_order_ext. intros m' v'. rewrite dropped_mutexes.
    intros [[<- <-]|[_ Hv']]%lookup_insert_Some; by eauto. }
  pose proof (Hnd t) as Hndt. pose proof (Hd t) as Hdt. rewrite Hl in Hndt, Hdt.
  apply NoDup_app in Hndt as (Hndl & Hml & _). rewrite length_app in Hdt. cbn in Hdt.
  assert (removelast (held_by s t) = l) as Hrem by (rewrite Hl; apply removelast_last).
  split; rewrite ?dropped_mutexes; try setoid_rewrite dropped_held; try rewrite Hrem.
  - intros t' m'. destruct (decide (m' = m)) as [->|Hne].
    + rewrite lookup_insert_eq. split; [|by intros (v' & [= <-] & ?)]. case_decide as Ht.
      * intros Hin. exfalso. apply (Hml m Hin). by apply list_elem_of_singleton.
      * intros (v' & Hv' & Hvo)%Hh. congruence.
    + rewrite lookup_insert_ne by done. rewrite <- Hh. case_decide as Ht; [|done]. subst t'.
      rewrite Hl, elem_of_app, list_elem_of_singleton. split; [by left|by intros [?|?]].
  - intros m' v' [[<- <-]|[_ Hv']]%lookup_insert_Some; [done|]. by eapply Hn.
  - intros t'. by case_decide.
  - intros t'. case_decide; [lia|done].
  - intros t'. apply Hext. case_decide as Ht; [|done]. subst t'.
    intros i a b va vb Ha Hb. apply (Ho t i a b); rewrite Hl; by apply lookup_app_l_Some.
Qed.

(** A mutex that no one holds appears or disappears. *)
Lemma unheld_ok s mutexes m :
  sync_ok s ->
  (forall v, sy_mutexes s !! m = Some v -> mu_owner v = None) ->
  (forall m', m' <> m -> mutexes !! m' = sy_mutexes s !! m') ->
  (forall v, mutexes !! m = Some v -> mu_owner v = None /\ mu_mutex v = None) ->
  sync_ok (mkSync mutexes (sy_held s)).
Proof.
  intros [Hh Hn Hnd Hd Ho] Hold Hsame Hnew.
  assert (forall t, m ∉ held_by s t) as Hout.
  { intros t (v & Hv & Hown)%Hh. rewrite (Hold _ Hv) in Hown. done. }
  split; try done.
  - intros t m'. change (held_by (mkSync mutexes (sy_held s)) t) with (held_by s t). cbn.
    destruct (decide (m' = m)) as [->|Hne]; [|by rewrite Hsame, Hh].
    split; [by intros ?%Hout|]. intros (v & Hv & Hown). destruct (Hnew _ Hv). congruence.
  - intros m' v. cbn. destruct (decide (m' = m)) as [->|Hne]; [|rewrite Hsame by done; apply Hn].
    intros [-> ->]%Hnew. done.
  - intros t i a b va vb Ha Hb. cbn. intros Hva Hvb.
    assert (forall i x, held_by s t !! i = Some x -> x <> m) as Hx.
    { intros j x Hj ->. apply (Hout t). by eapply list_elem_of_lookup_2. }
    rewrite Hsame in Hva, Hvb by (by eapply Hx). by eapply (Ho t i a b).
Qed.

Record config_ok (c : Config) : Prop := {
  ck_sync : sync_ok (cf_sync c);
  ck_waiting : forall t m, cf_waiting c !! t = Some m -> m ∉ held_by (cf_sync c) t;
  ck_sleeping : forall t m, cf_sleeping c !! t = Some m -> m ∉ held_by (cf_sync c) t;
  ck_apart : forall t, cf_waiting c !! t = None \/ cf_sleeping c !! t = None;
}.

Lemma lock_Return t m s s' :
  vart_mutex_lock_impl t m s = Return tt s' -> finish_lock t m s = Return tt s'.
Proof.
  unfold vart_mutex_lock_impl, sbind at 1, lock_is_owned, sbind at 1, load_mutex at 1.
  destruct (sy_mutexes s !! m) as [v|]; [|done]. cbn. by case_bool_decide.
Qed.
Lemma lock_Blocked t m s :
  sync_ok s -> vart_mutex_lock_impl t m s = Blocked -> m ∉ held_by s t.
Proof.
  intros [Hh _ _ _ _]. unfold vart_mutex_lock_impl, sbind at 1, lock_is_owned, sbind at 1,
    load_mutex at 1. destruct (sy_mutexes s !! m) as [v|] eqn:Hm; [|done]. cbn.
  case_bool_decide as Ho; [done|]. intros _ (v' & Hv' & Ho')%Hh. congruence.
Qed.

Lemma init_step_ok m rank error r s s' :
  sync_ok s -> sy_mutexes s !! m = None -> vart_mutex_init_impl error m rank s = Return r s' ->
  sync_ok s' /\ sy_held s' = sy_held s.
Proof.
  intros Hok Hm. unfold vart_mutex_init_impl. destruct (error =? 0); intros [= <- <-]; [|done].
  split; [|done]. apply (unheld_ok s _ m Hok).
  - congruence.
  - intros m' Hne. by apply lookup_insert_ne.
  - intros v. rewrite lookup_insert_eq. by intros [= <-].
Qed.

Lemma destroy_step_ok m s s' :
  sync_ok s -> vart_mutex_destroy_impl m s = Return tt s' ->
  sync_ok s' /\ sy_held s' = sy_held s.
Proof.
  intros Hok. unfold vart_mutex_destroy_impl, sbind, load_mutex, pthread_mutex_destroy.
  destruct (sy_mutexes s !! m) as [v|] eqn:Hm; [|done]. destruct (decide _) as [Ho|]; [|done].
  rewrite Hm, (sk_native _ Hok _ _ Hm), Ho. cbn. intros [= <-]. split; [|done].
  apply (unheld_ok s _ m Hok).
  - congruence.
  - intros m' Hne. by apply lookup_delete_ne.
  - intros v'. by rewrite lookup_delete_eq.
Qed.

(** Threads that do not move keep what they hold. *)
Lemma config_frame c s' t wait sleep :
  config_ok c -> sync_ok s' -> (forall t', t' <> t -> held_by s' t' = held_by (cf_sync c) t') ->
  (forall t', t' <> t -> wait !! t' = cf_waiting c !! t' /\ sleep !! t' = cf_sleeping c !! t') ->
  (forall m, wait !! t = Some m \/ sleep !! t = Some m -> m ∉ held_by s' t) ->
  (wait !! t = None \/ sleep !! t = None) -> config_ok (mkConfig s' wait sleep).
Proof.
  intros [Hs Hw Hsl Hap] Hok Hheld Hmaps Ht Hta. split; cbn; [done| | |].
  - intros t' m Hm. destruct (decide (t' = t)) as [->|Hne]; [by apply Ht; left|].
    rewrite Hheld by done. apply Hw. by rewrite <- (proj1 (Hmaps t' Hne)).
  - intros t' m Hm. destruct (decide (t' = t)) as [->|Hne]; [by apply Ht; right|].
    rewrite Hheld by done. apply Hsl. by rewrite <- (proj2 (Hmaps t' Hne)).
  - intros t'. destruct (decide (t' = t)) as [->|Hne]; [done|].
    destruct (Hmaps t' Hne) as [-> ->]. apply Hap.
Qed.

Lemma drop_not_held t m v s :
  sync_ok s -> last (held_by s t) = Some m -> m ∉ held_by (dropped t m v s) t.
Proof.
  intros Hok [l Hl]%last_Some. rewrite dropped_held, decide_True by done.
  pose proof (sk_nodup _ Hok t) as Hnd. rewrite Hl in Hnd |- *. rewrite removelast_last.
  apply NoDup_app in Hnd as (_ & Hml & _). intros Hin. apply (Hml m Hin).
  by apply list_elem_of_singleton.
Qed.

Lemma sync_step_ok c c' : config_ok c -> sync_step c c' -> config_ok c'.
Proof.
  intros Hc Hstep. pose proof Hc as [Hs Hw Hsl Hap].
  assert (forall s', sync_ok s' -> sy_held s' = sy_held (cf_sync c) ->
    config_ok (mkConfig s' (cf_waiting c) (cf_sleeping c))) as Hsame.
  { intros s' Hok Hh. split; cbn; unfold held_by; rewrite ?Hh; done. }
  destruct Hstep as [m rank error r s' Hn Hr|m s' Hr|t m s' [Hrw Hrs] Hr|t m [Hrw Hrs] Hr
    |t m s' Hwt Hr|t m s' [Hrw Hrs] Hr|t m s' [Hrw Hrs] Hr|t m Hst].
  - by apply Hsame; eapply init_step_ok.
  - by apply Hsame; eapply destroy_step_ok.
  - apply lock_Return in Hr. destruct (finish_lock_Return _ _ _ _ Hs Hr) as (v & Hmay & ->).
    apply (config_frame c _ t); [done|by apply taken_ok| |done| |by left].
    + intros t' Hne. by rewrite taken_held, decide_False.
    + intros m'. rewrite Hrw, Hrs. by intros [?|?].
  - apply (config_frame c _ t); [done|done|done| | |by right].
    + intros t' Hne. by rewrite lookup_insert_ne.
    + intros m'. rewrite lookup_insert_eq, Hrs. intros [[= <-]|?]; [|done]. by apply lock_Blocked.
  - destruct (finish_lock_Return _ _ _ _ Hs Hr) as (v & Hmay & ->).
    assert (cf_sleeping c !! t = None) as Hns by (destruct (Hap t); [congruence|done]).
    apply (config_frame c _ t); [done|by apply taken_ok| | | |by right].
    + intros t' Hne. by rewrite taken_held, decide_False.
    + intros t' Hne. by rewrite lookup_delete_ne.
    + intros m'. rewrite lookup_delete_eq, Hns. by intros [?|?].
  - destruct (release_Return _ _ _ _ Hs Hr) as (v & Hm & Hown & Hl & ->).
    apply (config_frame c _ t); [done|by apply dropped_ok| |done| |by left].
    + intros t' Hne. by rewrite dropped_held, decide_False.
    + intros m'. rewrite Hrw, Hrs. by intros [?|?].
  - destruct (release_Return _ _ _ _ Hs Hr) as (v & Hm & Hown & Hl & ->).
    apply (config_frame c _ t); [done|by apply dropped_ok| | | |by left].
    + intros t' Hne. by rewrite dropped_held, decide_False.
    + intros t' Hne. by rewrite lookup_insert_ne.
    + intros m'. rewrite Hrw, lookup_insert_eq. intros [?|[= <-]]; [done|]. by apply drop_not_held.
  - apply (config_frame c _ t); [done|done|done| | |].
    + intros t' Hne. by rewrite lookup_insert_ne, lookup_delete_ne.
    + intros m'. rewrite lookup_insert_eq, lookup_delete_eq. intros [[= <-]|?]; [|done]. by apply Hsl.
    + right. apply lookup_delete_eq.
Qed.

Lemma initial_ok : config_ok initial.
Proof.
  split; [|done|done|by left]. split.
  - intros t m. split; [by intros ?%elem_of_nil|]. by intros (v & ? & _).
  - done.
  - intros t. constructor.
  - intros t. unfold held_by. cbn. rewrite lookup_empty. cbn. lia.
  - by intros t i a b va vb ?.
Qed.

Lemma reachable_ok c : rtc sync_step initial c -> config_ok c.
Proof.
  revert c. apply (rtc_ind_r config_ok); [apply initial_ok|]. intros c c' _ Hs Hc.
  by eapply sync_step_ok.
Qed.

(** C14. Mutual exclusion and honest book-keeping, in every interleaving of threads
    that call the interface.  A mutex is never held by two threads; the owner it
    records is the thread that holds its POSIX mutex and has it on its stack of held
    locks, exactly; a stack holds distinct mutexes, at most 16, whose ranks increase
    from each one to the next where both have one. *)
Theorem locks_consistent c :
  rtc sync_step initial c -> sync_ok (cf_sync c) /\
  forall t t' m, m ∈ held_by (cf_sync c) t -> m ∈ held_by (cf_sync c) t' -> t = t'.
Proof.
  intros Hc%reachable_ok. split; [apply Hc|]. intros t t' m.
  rewrite !(sk_held _ (ck_sync _ Hc)). intros (v & Hv & Ht) (v' & Hv' & Ht'). congruence.
Qed.

(** * No deadlock *)

Definition all_classified (s : Sync) : Prop :=
  forall m v, sy_mutexes s !! m = Some v -> classified (mu_rank v) = true.

(** Every thread that is blocked asked for a mutex that [lockdep_acquire] lets it
    have. *)
Definition requests_in_order (c : Config) : Prop :=
  forall t m, cf_waiting c !! t = Some m ->
    exists v, sy_mutexes (cf_sync c) !! m = Some v /\
      forall p vp, last (held_by (cf_sync c) t) = Some p ->
        sy_mutexes (cf_sync c) !! p = Some vp -> inverted (mu_rank v) (mu_rank vp) = false.

Definition mutex_rank (s : Sync) (m : ptr) : Z :=
  match sy_mutexes s !! m with Some v => rank_value (mu_rank v) | None => 0 end.

Lemma not_inverted s a b va vb :
  all_classified s -> sy_mutexes s !! a = Some va -> sy_mutexes s !! b = Some vb ->
  inverted (mu_rank vb) (mu_rank va) = false -> mutex_rank s a < mutex_rank s b.
Proof.
  intros Hall Ha Hb. unfold inverted, mutex_rank. rewrite Ha, Hb, (Hall _ _ Ha), (Hall _ _ Hb).
  cbn. intros ?%Z.leb_gt. done.
Qed.

(** The innermost lock has the highest rank. *)
Lemma stack_below_last s t m p :
  sync_ok s -> all_classified s -> m ∈ held_by s t -> last (held_by s t) = Some p ->
  mutex_rank s m <= mutex_rank s p.
Proof.
  intros Hok Hall [i Hi]%list_elem_of_lookup Hl. rewrite last_lookup in Hl.
  remember (pred (length (held_by s t)) - i)%nat as k eqn:Hk.
  pose proof (lookup_lt_Some _ _ _ Hi) as Hlt.
  revert i m Hi Hk Hlt. induction k as [|k IH]; intros i m Hi Hk Hlt.
  - replace i with (pred (length (held_by s t))) in Hi by lia. simplify_eq. lia.
  - destruct (lookup_lt_is_Some_2 (held_by s t) (S i)) as [b Hb]; [lia|].
    assert (forall j x, held_by s t !! j = Some x -> exists v, sy_mutexes s !! x = Some v) as Hex.
    { intros j x Hj%list_elem_of_lookup_2%(sk_held _ Hok). destruct Hj as (v & Hv & _). by exists v. }
    destruct (Hex _ _ Hi) as [vm Hvm], (Hex _ _ Hb) as [vb Hvb].
    pose proof (not_inverted s m b vm vb Hall Hvm Hvb (sk_order _ Hok t i m b vm vb Hi Hb Hvm Hvb)).
    specialize (IH (S i) b Hb ltac:(lia) ltac:(lia)). lia.
Qed.

Lemma list_argmax {A} (f : A -> Z) (l : list A) :
  l <> [] -> exists x, x ∈ l /\ forall y, y ∈ l -> f y <= f x.
Proof.
  induction l as [|a l IH]; [done|]. intros _. destruct l as [|b l].
  - exists a. split; [by left|]. by intros y ->%list_elem_of_singleton.
  - destruct IH as (x & Hx & Hmax); [done|]. destruct (Z.leb_spec (f a) (f x)).
    + exists x. split; [by right|]. intros y [->|Hy]%elem_of_cons; [done|by apply Hmax].
    + exists a. split; [by left|]. intros y [->|Hy]%elem_of_cons; [done|].
      specialize (Hmax y Hy). lia.
Qed.

(** Thread [t] is blocked at a mutex that [t'] holds. *)
Definition waits_for (c : Config) (t t' : thread) : Prop :=
  exists m, cf_waiting c !! t = Some m /\ m ∈ held_by (cf_sync c) t'.

Lemma chain_starts_blocked c t t' : tc (waits_for c) t t' -> exists m, cf_waiting c !! t = Some m.
Proof. destruct 1 as [? ? (m & ? & _)|? ? ? (m & ? & _) _]; by exists m. Qed.

Section Ranked.
Context (c : Config).
Hypothesis reachable : rtc sync_step initial c.
Hypothesis classified : all_classified (cf_sync c).
Hypothesis in_order : requests_in_order c.

(** The thread that is waited for waits itself only for a mutex of a higher rank. *)
Lemma wait_rank_grows t' m m' : m ∈ held_by (cf_sync c) t' -> cf_waiting c !! t' = Some m' ->
  mutex_rank (cf_sync c) m < mutex_rank (cf_sync c) m'.
Proof using All.
  intros Hin Hw. pose proof (reachable_ok _ reachable) as Hc.
  destruct (in_order t' m' Hw) as (v' & Hv' & Horder).
  destruct (last (held_by (cf_sync c) t')) as [p|] eqn:Hl.
  - pose proof (stack_below_last _ _ _ _ (ck_sync _ Hc) classified Hin Hl).
    apply last_Some_elem_of in Hl. apply (sk_held _ (ck_sync _ Hc)) in Hl as (vp & Hvp & _).
    pose proof (not_inverted _ p m' vp v' classified Hvp Hv' (Horder p vp eq_refl Hvp)). lia.
  - apply last_None in Hl. rewrite Hl in Hin. by apply elem_of_nil in Hin.
Qed.

Lemma wait_chain_rank_grows t t' : tc (waits_for c) t t' -> forall m m',
  cf_waiting c !! t = Some m -> cf_waiting c !! t' = Some m' ->
  mutex_rank (cf_sync c) m < mutex_rank (cf_sync c) m'.
Proof using All.
  induction 1 as [t t' (m0 & Hm0 & Hin)|t u t' (m0 & Hm0 & Hin) Hut IH]; intros m m' Hm Hm';
    (assert (m0 = m) as -> by congruence); [by eapply wait_rank_grows|].
  destruct (chain_starts_blocked c u t' Hut) as [mu Hu].
  pose proof (wait_rank_grows u m mu Hin Hu). specialize (IH mu m' Hu Hm'). lia.
Qed.

(** Of some blocked threads, take one whose mutex has the highest rank. *)
Lemma some_waits_outside (X : gset thread) : X <> ∅ -> X ⊆ dom (cf_waiting c) ->
  exists t m, t ∈ X /\ cf_waiting c !! t = Some m /\
    forall t', m ∈ held_by (cf_sync c) t' -> t' ∉ X.
Proof using All.
  intros Hne Hsub.
  set (rank (t : thread) :=
    match cf_waiting c !! t with Some m => mutex_rank (cf_sync c) m | None => 0 end).
  destruct (list_argmax rank (elements X)) as (t & Ht & Hmax);
    [by rewrite elements_empty_iff, leibniz_equiv_iff|].
  apply elem_of_elements in Ht. pose proof (Hsub t Ht) as [m Hm]%elem_of_dom.
  exists t, m. split_and!; [done|done|]. intros t' Hin Ht'.
  pose proof (Hsub t' Ht') as [m' Hm']%elem_of_dom.
  specialize (Hmax t' ltac:(by apply elem_of_elements)). 
  assert (rank t = mutex_rank (cf_sync c) m) as Et by (unfold rank; by rewrite Hm).
  assert (rank t' = mutex_rank (cf_sync c) m') as Et' by (unfold rank; by rewrite Hm').
  pose proof (wait_rank_grows t' m m' Hin Hm'). lia.
Qed.
End Ranked.

(** C15. Ranks prevent deadlock.  In every interleaving of threads in which all mutexes have a
    rank and the threads that are blocked asked for mutexes in the order of their ranks, no
    set of threads waits for each other: no chain of threads, each blocked at a mutex that the
    next one holds, comes back to its start, and every set of blocked threads that is not
    empty has a member that waits for a mutex no member of the set holds.  (A request out of
    order is not covered: it blocks before it is checked, see [real_deadlock_is_silent].) *)
Theorem ranked_locks_no_deadlock c :
  rtc sync_step initial c -> all_classified (cf_sync c) -> requests_in_order c ->
  (forall t, ~ tc (waits_for c) t t) /\
  forall X : gset thread, X <> ∅ -> X ⊆ dom (cf_waiting c) ->
    exists t m, t ∈ X /\ cf_waiting c !! t = Some m /\
      forall t', m ∈ held_by (cf_sync c) t' -> t' ∉ X.
Proof.
  intros Hc Hall Hreq. split; [|intros X; by apply some_waits_outside].
  intros t Ht. destruct (chain_starts_blocked c t t Ht) as [m Hm].
  pose proof (wait_chain_rank_grows c Hc Hall Hreq t t Ht m m Hm Hm). lia.
Qed.

(** * Concrete interleavings *)
Module SyncDemo.
Definition vm : ptr := 1%positive.
Definition dev : ptr := 2%positive.
Definition other : ptr := 3%positive.
Definition state {A} (o : sync_outcome A) (s : Sync) : Sync :=
  match o with Return _ s' => s' | _ => s end.
Definition y1 : Sync := state (vart_mutex_init_impl 0 vm VART_LOCK_RANK_VM (cf_sync initial)) (cf_sync initial).
Definition y2 : Sync := state (vart_mutex_init_impl 0 dev VART_LOCK_RANK_DEVICE y1) y1.
Definition y3 : Sync := state (vart_mutex_lock_impl 1 vm y2) y2.
Definition c3 : Config := mkConfig y3 ∅ ∅.
(** Thread 2 holds [dev]; thread 1, which holds [vm], waits for it. *)
Definition y4 : Sync := state (vart_mutex_lock_impl 2 dev y3) y3.
Definition c5 : Config := mkConfig y4 {[1%positive := dev]} ∅.

Lemma c5_reachable : rtc sync_step initial c5.
Proof.
  apply (rtc_l _ _ (mkConfig y1 ∅ ∅)).
  { apply (sync_init initial vm VART_LOCK_RANK_VM 0 0 y1); reflexivity. }
  apply (rtc_l _ _ (mkConfig y2 ∅ ∅)).
  { apply (sync_init (mkConfig y1 ∅ ∅) dev VART_LOCK_RANK_DEVICE 0 0 y2); reflexivity. }
  apply (rtc_l _ _ c3).
  { apply (sync_lock (mkConfig y2 ∅ ∅) 1 vm y3); [done|]. vm_compute. reflexivity. }
  apply (rtc_l _ _ (mkConfig y4 ∅ ∅)).
  { apply (sync_lock c3 2 dev y4); [done|]. vm_compute. reflexivity. }
  apply rtc_once. apply (sync_block (mkConfig y4 ∅ ∅) 1 dev); [done|]. vm_compute. reflexivity.
Qed.

Lemma locks_consistent_witness :
  sync_ok (cf_sync c5) /\
  forall t t' m, m ∈ held_by (cf_sync c5) t -> m ∈ held_by (cf_sync c5) t' -> t = t'.
Proof. apply (locks_consistent c5). apply c5_reachable. Defined.

Lemma c5_mutexes : sy_mutexes (cf_sync c5) =
  {[vm := mkMutex (Some 1%positive) (Some 1%positive) VART_LOCK_RANK_VM;
    dev := mkMutex (Some 2%positive) (Some 2%positive) VART_LOCK_RANK_DEVICE]}.
Proof. vm_compute. reflexivity. Qed.

Lemma ranked_locks_no_deadlock_witness :
  (forall t, ~ tc (waits_for c5) t t) /\
  forall X : gset thread, X <> ∅ -> X ⊆ dom (cf_waiting c5) ->
    exists t m, t ∈ X /\ cf_waiting c5 !! t = Some m /\
      forall t', m ∈ held_by (cf_sync c5) t' -> t' ∉ X.
Proof.
  apply (ranked_locks_no_deadlock c5).
  - apply c5_reachable.
  - intros m v. rewrite c5_mutexes, lookup_insert_Some.
    rewrite lookup_singleton_Some. intros [[_ <-]|[_ [_ <-]]]; done.
  - intros t m. unfold c5. cbn. intros [<- <-]%lookup_singleton_Some. eexists.
    split; [vm_compute; reflexivity|].
    intros p vp Hp Hvp. vm_compute in Hp. injection Hp as <-. vm_compute in Hvp.
    injection Hvp as <-. reflexivity.
Defined.

(** The order is checked after the POSIX mutex was taken.  When thread 2 now asks for
    [vm], which is an inversion, it blocks before the check: both threads wait for
    each other and nothing is reported. *)
Lemma real_deadlock_is_silent :
  exists c, rtc sync_step initial c /\
    (forall t, t = 1%positive \/ t = 2%positive -> exists m, cf_waiting c !! t = Some m /\
       finish_lock t m (cf_sync c) = Blocked) /\
    (forall p vp vr, last (held_by (cf_sync c) 2%positive) = Some p ->
       sy_mutexes (cf_sync c) !! p = Some vp -> sy_mutexes (cf_sync c) !! vm = Some vr ->
       cf_waiting c !! 2%positive = Some vm /\ inverted (mu_rank vr) (mu_rank vp) = true).
Proof.
  exists (mkConfig y4 {[2%positive := vm; 1%positive := dev]} ∅). split_and!.
  - eapply rtc_r; [apply c5_reachable|].
    apply (sync_block c5 2 vm); [done|]. vm_compute. reflexivity.
  - intros t [->| ->]; eexists; (split; [vm_compute; reflexivity|]); vm_compute; reflexivity.
  - intros p vp vr Hp Hvp Hvr. split; [reflexivity|]. vm_compute in Hp. injection Hp as <-.
    vm_compute in Hvp, Hvr. injection Hvp as <-. injection Hvr as <-. reflexivity.
Qed.

(** The rank is compared with that of the innermost mutex only: one without a rank in
    between hides an inversion that is refused without it. *)
Lemma unclassified_hides_inversion :
  let s := state (vart_mutex_init_impl 0 other VART_LOCK_RANK_UNCLASSIFIED y2) y2 in
  let s1 := state (vart_mutex_lock_impl 1 dev s) s in
  let s2 := state (vart_mutex_lock_impl 1 other s1) s1 in
  vart_mutex_lock_impl 1 vm s1 = Aborted /\
  exists s3, vart_mutex_lock_impl 1 vm s2 = Return tt s3 /\
    held_by s3 1%positive = [dev; other; vm].
Proof. cbv zeta. split; [vm_compute; reflexivity|]. eexists. split; vm_compute; reflexivity. Qed.
End SyncDemo.
