(* ===== verification/RiscvIommu.v ===== *)
(** The RISC-V IOMMU device: [src/hw/riscv/riscv-iommu.c].

    The device keeps the programming interface of the RISC-V IOMMU: a device
    directory in guest memory that decides each bound function's translation
    context, a command queue, a fault queue, a register file, and a table that
    remaps the address of message-signalled interrupts.

    [iommu_pci] of the record names the PCI function embedded in the struct.
    The mutex is not modelled: each function runs in one piece.  [fuel] bounds
    the nesting of translated address spaces, [steps] the iterations of the
    command loop. *)

From stdpp Require Import base tactics numbers list gmap.
From Stdlib Require Import ZArith Lia.
From S2P Require Import Prelude Bytes Machine AddressSpace Iommu Devices Msix Pci.

(** * Constants of [include/vart/riscv-iommu.h] *)

Abbreviation REG_CAP := 0x0 (only parsing).
Abbreviation REG_FCTL := 0x8 (only parsing).
Abbreviation REG_DDTP := 0x10 (only parsing).
Abbreviation REG_CQB := 0x18 (only parsing).
Abbreviation REG_CQH := 0x20 (only parsing).
Abbreviation REG_CQT := 0x24 (only parsing).
Abbreviation REG_FQB := 0x28 (only parsing).
Abbreviation REG_FQH := 0x30 (only parsing).
Abbreviation REG_FQT := 0x34 (only parsing).
Abbreviation REG_PQB := 0x38 (only parsing).
Abbreviation REG_PQH := 0x40 (only parsing).
Abbreviation REG_PQT := 0x44 (only parsing).
Abbreviation REG_CQCSR := 0x48 (only parsing).
Abbreviation REG_FQCSR := 0x4c (only parsing).
Abbreviation REG_PQCSR := 0x50 (only parsing).
Abbreviation REG_IPSR := 0x54 (only parsing).
Abbreviation REG_FAULT_ADDR := 0x200 (only parsing).
Abbreviation REG_FAULT_INFO := 0x208 (only parsing).
Abbreviation REG_FAULT_STATUS := 0x210 (only parsing).
Abbreviation REG_ICVEC := 0x2f8 (only parsing).

Abbreviation CAP_MSI_FLAT := 0x400000 (only parsing).
Abbreviation DDTP_MODE_MASK := 0xf (only parsing).
Abbreviation DDTP_PPN_MASK := 0x003fffffffffc00 (only parsing).
Abbreviation DDTE_VALID := 1 (only parsing).
Abbreviation DDTE_PPN_MASK := 0x003fffffffffc00 (only parsing).
Abbreviation DC_TC_VALID := 1 (only parsing).
Abbreviation DC_FSC_MODE_MASK := 0xf000000000000000 (only parsing).
Abbreviation DC_FSC_PPN_MASK := 0x00000fffffffffff (only parsing).
Abbreviation QUEUE_LOG2SZ_MASK := 0x1f (only parsing).
Abbreviation QUEUE_PPN_MASK := 0x003fffffffffc00 (only parsing).
Abbreviation CQCSR_CQEN := 1 (only parsing).
Abbreviation CQCSR_CIE := 2 (only parsing).
Abbreviation CQCSR_CQMF := 0x100 (only parsing).
Abbreviation CQCSR_CMD_ILL := 0x400 (only parsing).
Abbreviation CQCSR_CQON := 0x10000 (only parsing).
Abbreviation CMD_IOTINVAL := 1 (only parsing).
Abbreviation CMD_IOFENCE := 2 (only parsing).
Abbreviation CMD_IODIR := 3 (only parsing).
Abbreviation CMD_AV := 0x400 (only parsing).
Abbreviation CMD_IODIR_DV := 0x200000000 (only parsing).
Abbreviation CMD_IODIR_DID_SHIFT := 40 (only parsing).
Abbreviation FAULT_STATUS_PENDING := 1 (only parsing).
Abbreviation FAULT_INFO_WRITE := 1 (only parsing).
Abbreviation FQ_RECORD_SIZE := 32 (only parsing).
Abbreviation FQ_HDR_DID_SHIFT := 40 (only parsing).
Abbreviation FQ_CAUSE_READ_FAULT := 5 (only parsing).
Abbreviation FQ_CAUSE_WRITE_FAULT := 7 (only parsing).
Abbreviation FQCSR_FQEN := 1 (only parsing).
Abbreviation FQCSR_FIE := 2 (only parsing).
Abbreviation FQCSR_FQMF := 0x100 (only parsing).
Abbreviation FQCSR_FQOF := 0x200 (only parsing).
Abbreviation FQCSR_FQON := 0x10000 (only parsing).
Abbreviation VART_RISCV_IOMMU_MAX_BINDINGS := 32 (only parsing).
Abbreviation VART_RISCV_IOMMU_MAX_MSI_MAPPINGS := 64 (only parsing).
Abbreviation VART_IOMMU_PAGE_SIZE := 0x1000 (only parsing).
Abbreviation VART_IOMMU_MAX_QUEUE_LOG2 := 13 (only parsing).
Abbreviation MODE_IDENTITY := 0 (only parsing).
Abbreviation MODE_FAULT := 1 (only parsing).

(** [iommu->field op= ...] *)
Definition update_iommu (iommu : ptr) (f : VartRiscvIommu -> VartRiscvIommu)
    : M World unit :=
  let* v := load_iommu iommu in store_iommu iommu (f v).

(** The physical address of a page-number field at bit 10. *)
Definition ppn_base (x mask : Z) : Z := Z.shiftl (Z.shiftr (Z.land x mask) 10) 12.

Definition iommu_access_valid (offset size reg reg_size : Z) : bool :=
  (offset =? reg) && (size =? reg_size).

Fixpoint context_bound_loop (l : list VartRiscvIommuBinding) (context : ptr) : bool :=
  match l with
  | [] => false
  | b :: l => if bool_decide (bind_context b = context) then true
              else context_bound_loop l context
  end.
Definition iommu_context_is_bound (iommu : VartRiscvIommu) (context : ptr) : bool :=
  context_bound_loop (iommu_bindings iommu) context.

Section Device.
Context `{FaultCallbacks} `{MsixCallbacks} `{IrqCallbacks} (fuel : nat).

Definition iommu_raise_msix (iommu : ptr) (vector : Z) : M World unit :=
  let* v := load_iommu iommu in
  vart_pci_device_raise_msix (Some (iommu_pci v)) vector ;;; ret tt.

(** [inl error] or [inr value]. *)
Definition iommu_read_guest64 (iommu : ptr) (address : Z) : M World (Z + Z) :=
  let* v := load_iommu iommu in
  let* space := deref (iommu_address_space v) in
  let* (err, data) :=
    vart_address_space_read_buffer fuel space address (Some (repeat 0 8)) 8 in
  if err <? 0 then ret (inl err)
  else let* data := deref data in ret (inr (load_le data)).

(** The record: cause and requester, a reserved word, the address, and the
    error with the size. *)
Definition fault_record (requester_id address size : Z) (write : bool) (error : Z)
    : list Z :=
  store_le 8 (Z.lor (if write then FQ_CAUSE_WRITE_FAULT else FQ_CAUSE_READ_FAULT)
                (Z.shiftl requester_id FQ_HDR_DID_SHIFT)) ++
  repeat 0 8 ++
  store_le 8 address ++
  store_le 8 (Z.lor (u32 (- error)) (u64 (Z.shiftl size 32))).

Definition iommu_enqueue_fault (iommu : ptr) (context : option ptr)
    (address size : Z) (write : bool) (error : Z) : M World Z :=
  let* v := load_iommu iommu in
  let fail flag err :=
    update_iommu iommu (fun v => v <| iommu_fqcsr ::= (fun x => Z.lor x flag) |>) ;;;
    ret err in
  if negb (bits (iommu_fqcsr v) FQCSR_FQON) then ret 0
  else
    let log2sz := Z.land (iommu_fqb v) QUEUE_LOG2SZ_MASK in
    if (log2sz =? 0) || (VART_IOMMU_MAX_QUEUE_LOG2 <? log2sz)
    then fail FQCSR_FQMF (-EINVAL)
    else
      let entries := Z.shiftl 1 log2sz in
      let mask := entries - 1 in
      let head := Z.land (iommu_fqh v) mask in
      let tail := Z.land (iommu_fqt v) mask in
      let next := Z.land (tail + 1) mask in
      if next =? head then fail FQCSR_FQOF (-ENOSPC)
      else
        let queue_base := ppn_base (iommu_fqb v) QUEUE_PPN_MASK in
        if (UINT64_MAX - queue_base - FQ_RECORD_SIZE) / FQ_RECORD_SIZE <? tail
        then fail FQCSR_FQMF (-EFAULT)
        else
          let record_address := queue_base + tail * FQ_RECORD_SIZE in
          let* requester_id :=
            match context with
            | Some c => let* ctx := load_context c in ret (ctx_requester_id ctx)
            | None => ret 0
            end in
          let record := fault_record requester_id address size write error in
          let* space := deref (iommu_address_space v) in
          let* err := vart_address_space_write_buffer fuel space record_address
                        (Some record) FQ_RECORD_SIZE in
          if err <? 0 then fail FQCSR_FQMF (-EFAULT)
          else
            update_iommu iommu (fun v => v <| iommu_fqt := next |>) ;;;
            ret 0.

(** * The device directory *)

(** The non-leaf levels: [Some base] of the leaf page, or [None] for the jump
    to [invalid]. *)
Fixpoint ddt_walk (iommu : ptr) (requester_id : Z) (base_format : bool)
    (depth : nat) (base : Z) : M World (option Z) :=
  match depth with
  | O => ret (Some base)
  | S depth =>
      let split := Z.of_nat depth * 9 + 6 + Z.b2z base_format in
      let index := Z.shiftl (Z.shiftr requester_id split) 3 in
      if (UINT64_MAX - base <? index) || (0xff8 <? index) then ret None
      else
        let* r := iommu_read_guest64 iommu (base + index) in
        match r with
        | inl _ => ret None
        | inr dte =>
            if negb (bits dte DDTE_VALID) ||
               bits dte (u64 (Z.lnot (Z.lor DDTE_PPN_MASK DDTE_VALID)))
            then ret None
            else ddt_walk iommu requester_id base_format depth
                   (ppn_base dte DDTE_PPN_MASK)
        end
  end.

(** The label [invalid]. *)
Definition ddt_invalid (context : ptr) : M World Z :=
  vart_iommu_context_set_mode (Some context) MODE_FAULT ;;; ret (-EINVAL).

(** The device context found at the end of the walk. *)
Definition ddt_load_context (iommu context : ptr) (requester_id base dc_size : Z)
    : M World Z :=
  if (UINT64_MAX - base) / dc_size <? requester_id then ddt_invalid context
  else
    let dc_base := base + Z.land (requester_id * dc_size) 0xfff in
    let* tc := iommu_read_guest64 iommu dc_base in
    match tc with
    | inl _ => ddt_invalid context
    | inr tc =>
        if negb (bits tc DC_TC_VALID) then ddt_invalid context
        else
          let* fsc := iommu_read_guest64 iommu (dc_base + 24) in
          match fsc with
          | inl _ => ddt_invalid context
          | inr fsc =>
              let mode := Z.shiftr (Z.land fsc DC_FSC_MODE_MASK) 60 in
              if mode =? 0
              then vart_iommu_context_set_mode (Some context) MODE_IDENTITY
              else if mode =? 8
              then vart_iommu_context_set_sv39 (Some context)
                     (Z.land fsc DC_FSC_PPN_MASK) false
              else ddt_invalid context
          end
    end.

Definition iommu_apply_ddt_binding (iommu : ptr) (device context : option ptr)
    : M World Z :=
  let* v := load_iommu iommu in
  let mode := Z.land (iommu_ddtp v) DDTP_MODE_MASK in
  let base_format := negb (bits (iommu_cap v) CAP_MSI_FLAT) in
  let dc_size := if base_format then 32 else 64 in
  match device, context with
  | Some d, Some c =>
      if mode =? 0
      then vart_iommu_context_set_mode (Some c) MODE_FAULT ;;; ret 0
      else if mode =? 1
      then vart_iommu_context_set_mode (Some c) MODE_IDENTITY
      else if (mode <? 2) || (4 <? mode)
      then vart_iommu_context_set_mode (Some c) MODE_FAULT ;;; ret (-EINVAL)
      else
        let base := ppn_base (iommu_ddtp v) DDTP_PPN_MASK in
        let ddi_bits :=
          (mode - 2) * 9 + 6 + Z.b2z (base_format && negb (mode =? 4)) in
        let* dev := load_device d in
        let requester_id := pci_requester_id dev in
        if (ddi_bits <? 16) && (Z.shiftl 1 ddi_bits <=? requester_id)
        then ddt_invalid c
        else
          let* leaf := ddt_walk iommu requester_id base_format
                         (Z.to_nat (mode - 2)) base in
          match leaf with
          | None => ddt_invalid c
          | Some base => ddt_load_context iommu c requester_id base dc_size
          end
  | _, _ => ret 0
  end.

Fixpoint apply_ddt_loop (iommu : ptr) (l : list VartRiscvIommuBinding) (err : Z)
    : M World Z :=
  match l with
  | [] => ret err
  | b :: l =>
      let* current := iommu_apply_ddt_binding iommu (Some (bind_device b))
                        (Some (bind_context b)) in
      apply_ddt_loop iommu l (if (current <? 0) && (err =? 0) then current else err)
  end.
Definition iommu_apply_ddt (iommu : ptr) : M World Z :=
  let* v := load_iommu iommu in apply_ddt_loop iommu (iommu_bindings v) 0.

(** * MSI remapping *)

Fixpoint msi_lookup (l : list VartRiscvIommuMsiMapping) (address : Z) : option Z :=
  match l with
  | [] => None
  | m :: l =>
      if (mm_iova m <=? address) && (address - mm_iova m <=? u64 (mm_size m - 4))
      then Some (u64 (mm_target m + (address - mm_iova m)))
      else msi_lookup l address
  end.

Fixpoint binding_of (l : list VartRiscvIommuBinding) (device : ptr)
    : option VartRiscvIommuBinding :=
  match l with
  | [] => None
  | b :: l => if bool_decide (bind_device b = device) then Some b
              else binding_of l device
  end.

(** The error code, the address and the data afterwards. *)
Definition iommu_remap_msi (device : ptr) (vector address data : Z)
    (opaque : option ptr) : M World (Z * Z * Z) :=
  match opaque with
  | None => ret (-EINVAL, address, data)
  | Some iommu =>
      let* v := load_iommu iommu in
      if negb (iommu_lock_initialized v) then ret (-EINVAL, address, data)
      else if negb (iommu_msi_remapping_enabled v) then ret (0, address, data)
      else
        match msi_lookup (iommu_msi_mappings v) address with
        | Some target => ret (0, target, data)
        | None =>
            match binding_of (iommu_bindings v) device with
            | None => ret (-EACCES, address, data)
            | Some b =>
                let* ctx := load_context (bind_context b) in
                if negb (is_sv39 (ctx_mode ctx)) then ret (-EACCES, address, data)
                else
                  let* (err, translated) :=
                    vart_iommu_context_translate_address fuel
                      (Some (bind_context b)) address 4 true in
                  if err <? 0 then ret (-EACCES, address, data)
                  else ret (0, translated, data)
            end
        end
  end.

(** * The command queue *)

Fixpoint iodir_all_loop (iommu : ptr) (l : list VartRiscvIommuBinding) : M World Z :=
  match l with
  | [] => ret 0
  | b :: l =>
      iommu_apply_ddt_binding iommu (Some (bind_device b)) (Some (bind_context b)) ;;;
      iodir_all_loop iommu l
  end.

Fixpoint iodir_one_loop (iommu : ptr) (requester_id : Z)
    (l : list VartRiscvIommuBinding) : M World Z :=
  match l with
  | [] => ret 0
  | b :: l =>
      let* dev := load_device (bind_device b) in
      if pci_requester_id dev =? requester_id then
        iommu_apply_ddt_binding iommu (Some (bind_device b))
          (Some (bind_context b)) ;;;
        ret 0
      else iodir_one_loop iommu requester_id l
  end.

Fixpoint iotinval_loop (l : list VartRiscvIommuBinding) (address size err : Z)
    : M World Z :=
  match l with
  | [] => ret err
  | b :: l =>
      let* current :=
        vart_iommu_context_invalidate (Some (bind_context b)) address size in
      iotinval_loop l address size
        (if (current <? 0) && (err =? 0) then current else err)
  end.

Definition iommu_invalidate_command (iommu : ptr) (dword0 dword1 : Z) : M World Z :=
  let opcode := Z.land dword0 0x7f in
  let function := Z.land (Z.shiftr dword0 7) 0x7 in
  let* v := load_iommu iommu in
  let bindings := iommu_bindings v in
  if (opcode =? CMD_IODIR) && (function =? 0) then
    if negb (bits dword0 CMD_IODIR_DV) then iodir_all_loop iommu bindings
    else
      let requester_id := Z.land (Z.shiftr dword0 CMD_IODIR_DID_SHIFT) 0xffffff in
      iodir_one_loop iommu requester_id bindings
  else if (opcode =? CMD_IOFENCE) && (function =? 0) then ret 0
  else if negb (opcode =? CMD_IOTINVAL) || negb (function =? 0) ||
          (bool_decide (bindings = []) && bool_decide (iommu_context v = None)) ||
          bits dword0 (Z.lor (Z.shiftl 1 32) (Z.shiftl 1 33))
  then ret (-EINVAL)
  else
    let av := bits dword0 CMD_AV in
    if av && (UINT64_MAX / 4 <? dword1) then ret (-EFAULT)
    else
      let address :=
        if av then Z.land (dword1 * 4) (u64 (Z.lnot (VART_IOMMU_PAGE_SIZE - 1)))
        else 0 in
      let size := if av then VART_IOMMU_PAGE_SIZE else Z.shiftl 1 41 in
      match bindings with
      | [] => vart_iommu_context_invalidate (iommu_context v) address size
      | _ => iotinval_loop bindings address size 0
      end.

(** The [while] loop; [steps] bounds its iterations. *)
Fixpoint command_loop (steps : nat) (iommu : ptr) (queue_base entries : Z)
    : M World Z :=
  let* v := load_iommu iommu in
  if iommu_cqh v =? iommu_cqt v then ret 0
  else
    match steps with
    | O => out_of_fuel
    | S steps =>
        let set_csr flag :=
          update_iommu iommu (fun v => v <| iommu_cqcsr ::= (fun x => Z.lor x flag) |>) in
        let index := Z.land (iommu_cqh v) (entries - 1) in
        if (UINT64_MAX - queue_base - 16) / 16 <? index then
          set_csr CQCSR_CQMF ;;; iommu_raise_msix iommu 1 ;;; ret (-EFAULT)
        else
          let address := queue_base + index * 16 in
          let* space := deref (iommu_address_space v) in
          let* (err, command) :=
            vart_address_space_read_buffer fuel space address
              (Some (repeat 0 16)) 16 in
          if err <? 0 then
            set_csr CQCSR_CQMF ;;; iommu_raise_msix iommu 1 ;;; ret err
          else
            let* command := deref command in
            let* err := iommu_invalidate_command iommu (load_le (take 8 command))
                          (load_le (drop 8 command)) in
            update_iommu iommu (fun v => v <| iommu_cqh ::= (fun h => u32 (h + 1)) |>) ;;;
            (if err <? 0 then
               set_csr CQCSR_CMD_ILL ;;; iommu_raise_msix iommu 1
             else ret tt) ;;;
            command_loop steps iommu queue_base entries
    end.

Definition iommu_process_command_queue (steps : nat) (iommu : ptr) : M World Z :=
  let* v := load_iommu iommu in
  if negb (bits (iommu_cqcsr v) CQCSR_CQON) then ret 0
  else
    let log2sz := Z.land (iommu_cqb v) QUEUE_LOG2SZ_MASK in
    if (log2sz =? 0) || (VART_IOMMU_MAX_QUEUE_LOG2 <? log2sz) then
      update_iommu iommu (fun v => v <| iommu_cqcsr ::=
        (fun x => Z.lor x CQCSR_CQMF) |>) ;;;
      ret (-EINVAL)
    else
      command_loop steps iommu (ppn_base (iommu_cqb v) QUEUE_PPN_MASK)
        (Z.shiftl 1 log2sz).

(** * The register file *)

(** [*value] is left alone by a refused access. *)
Definition iommu_mmio_read (opaque : option ptr) (offset size value : Z)
    : M World (Z * Z) :=
  match opaque with
  | None => ret (-EINVAL, value)
  | Some iommu =>
      let* v := load_iommu iommu in
      let reg width x :=
        if iommu_access_valid offset size offset width then ret (0, x)
        else ret (-EINVAL, value) in
      if offset =? REG_CAP then reg 8 (iommu_cap v)
      else if offset =? REG_FCTL then reg 4 (iommu_fctl v)
      else if offset =? REG_DDTP then reg 8 (iommu_ddtp v)
      else if offset =? REG_CQB then reg 8 (iommu_cqb v)
      else if offset =? REG_CQH then reg 4 (iommu_cqh v)
      else if offset =? REG_CQT then reg 4 (iommu_cqt v)
      else if offset =? REG_CQCSR then reg 4 (iommu_cqcsr v)
      else if offset =? REG_FQB then reg 8 (iommu_fqb v)
      else if offset =? REG_FQH then reg 4 (iommu_fqh v)
      else if offset =? REG_FQT then reg 4 (iommu_fqt v)
      else if offset =? REG_PQB then ret (0, iommu_pqb v)
      else if offset =? REG_PQH then ret (0, iommu_pqh v)
      else if offset =? REG_PQT then ret (0, iommu_pqt v)
      else if offset =? REG_FQCSR then reg 4 (iommu_fqcsr v)
      else if offset =? REG_PQCSR then ret (0, iommu_pqcsr v)
      else if offset =? REG_IPSR
      then ret (0, if iommu_fault_status v =? 0 then 0 else 2)
      else if offset =? REG_FAULT_ADDR then reg 8 (iommu_fault_address v)
      else if offset =? REG_FAULT_INFO then reg 8 (iommu_fault_info v)
      else if offset =? REG_FAULT_STATUS then reg 4 (iommu_fault_status v)
      else if offset =? REG_ICVEC then reg 8 (iommu_icvec v)
      else ret (-EINVAL, value)
  end.

Definition queue_size_invalid (qb : Z) : bool :=
  (Z.land qb QUEUE_LOG2SZ_MASK =? 0) ||
  (VART_IOMMU_MAX_QUEUE_LOG2 <? Z.land qb QUEUE_LOG2SZ_MASK).

(** The case of [CQCSR]. *)
Definition write_cqcsr (v : VartRiscvIommu) (value : Z) : Z * VartRiscvIommu :=
  let csr := Z.lor (Z.land (iommu_cqcsr v) (Z.lor CQCSR_CQMF CQCSR_CMD_ILL))
                   (Z.land (u32 value) (Z.lor CQCSR_CQEN CQCSR_CIE)) in
  if bits csr CQCSR_CQEN then
    if queue_size_invalid (iommu_cqb v)
    then (-EINVAL, v <| iommu_cqcsr := Z.lor csr CQCSR_CQMF |>)
    else (0, v <| iommu_cqcsr := Z.lor csr CQCSR_CQON |>)
  else (0, v <| iommu_cqcsr := Z.land csr (u32 (Z.lnot CQCSR_CQON)) |>).

(** The case of [FQCSR]. *)
Definition write_fqcsr (v : VartRiscvIommu) (value : Z) : Z * VartRiscvIommu :=
  let old := Z.land (iommu_fqcsr v)
    (u32 (Z.lnot (Z.land (u32 value) (Z.lor FQCSR_FQMF FQCSR_FQOF)))) in
  let csr := Z.lor (Z.land old (Z.lor FQCSR_FQMF FQCSR_FQOF))
                   (Z.land (u32 value) (Z.lor FQCSR_FQEN FQCSR_FIE)) in
  if bits csr FQCSR_FQEN then
    if queue_size_invalid (iommu_fqb v)
    then (-EINVAL, v <| iommu_fqcsr := Z.lor csr FQCSR_FQMF |>)
    else (0, v <| iommu_fqcsr := Z.lor csr FQCSR_FQON |>)
  else (0, v <| iommu_fqcsr := Z.land csr (u32 (Z.lnot FQCSR_FQON)) |>).

Definition queue_mask : Z := Z.lor QUEUE_PPN_MASK QUEUE_LOG2SZ_MASK.

Definition iommu_mmio_write (steps : nat) (opaque : option ptr)
    (offset size value : Z) : M World Z :=
  match opaque with
  | None => ret (-EINVAL)
  | Some iommu =>
      let* v := load_iommu iommu in
      let valid width := iommu_access_valid offset size offset width in
      let store v := store_iommu iommu v ;;; ret 0 in
      if offset =? REG_FCTL then
        if negb (valid 4) || bits value (u32 (Z.lnot 0x7)) then ret (-EINVAL)
        else store (v <| iommu_fctl := u32 value |>)
      else if offset =? REG_DDTP then
        if negb (valid 8) || (4 <? Z.land value DDTP_MODE_MASK) then ret (-EINVAL)
        else
          store_iommu iommu (v <| iommu_ddtp :=
            Z.land value (Z.lor DDTP_PPN_MASK DDTP_MODE_MASK) |>) ;;;
          iommu_apply_ddt iommu ;;; ret 0
      else if offset =? REG_CQB then
        if negb (valid 8) || bits value (u64 (Z.lnot queue_mask)) then ret (-EINVAL)
        else store (v <| iommu_cqb := Z.land value queue_mask |>)
      else if offset =? REG_CQH then
        if negb (valid 4) then ret (-EINVAL)
        else store (v <| iommu_cqh := u32 value |>)
      else if offset =? REG_CQT then
        if negb (valid 4) then ret (-EINVAL)
        else
          store_iommu iommu (v <| iommu_cqt := u32 value |>) ;;;
          iommu_process_command_queue steps iommu
      else if offset =? REG_CQCSR then
        if negb (valid 4) then ret (-EINVAL)
        else let (err, v) := write_cqcsr v value in store_iommu iommu v ;;; ret err
      else if offset =? REG_FQB then
        if negb (valid 8) || bits value (u64 (Z.lnot queue_mask)) then ret (-EINVAL)
        else store (v <| iommu_fqb := Z.land value queue_mask |>)
      else if offset =? REG_FQH then
        if negb (valid 4) then ret (-EINVAL)
        else store (v <| iommu_fqh := u32 value |>)
      else if offset =? REG_FQCSR then
        if negb (valid 4) then ret (-EINVAL)
        else let (err, v) := write_fqcsr v value in store_iommu iommu v ;;; ret err
      else if offset =? REG_PQCSR then
        if negb (valid 4) then ret (-EINVAL)
        else store (v <| iommu_pqcsr := u32 value |>)
      else if offset =? REG_FAULT_STATUS then
        if negb (valid 4) then ret (-EINVAL)
        else store (v <| iommu_fault_status := Z.land (iommu_fault_status v)
               (u32 (Z.lnot (Z.land (u32 value) FAULT_STATUS_PENDING))) |>)
      else if offset =? REG_IPSR then
        if negb (valid 4) then ret (-EINVAL)
        else if bits value 2 then store (v <| iommu_fault_status := 0 |>) else ret 0
      else if offset =? REG_ICVEC then
        if negb (valid 8) || bits value (u64 (Z.lnot 0xffff)) then ret (-EINVAL)
        else store (v <| iommu_icvec := value |>)
      else ret (-EINVAL)
  end.

(** * Contexts and bindings *)

Definition vart_riscv_iommu_set_context (iommu context : option ptr) : M World Z :=
  match iommu with
  | None => ret (-EINVAL)
  | Some i =>
      let* v := load_iommu i in
      if negb (iommu_lock_initialized v) then ret (-EINVAL)
      else
        let* pci := load_device (iommu_pci v) in
        if dev_realized (pci_parent pci) then ret (-EINVAL)
        else
          match iommu_context v with
          | Some old =>
              if negb (iommu_context_is_bound v old)
              then vart_iommu_context_set_fault_handler (Some old) None None ;;; ret tt
              else ret tt
          | None => ret tt
          end ;;;
          update_iommu i (fun v => v <| iommu_context := context |>) ;;;
          match context with
          | None => ret 0
          | Some c =>
              let* err := vart_iommu_context_set_fault_handler (Some c)
                            (Some fn_iommu_fault_handler) (Some i) in
              if err <? 0
              then update_iommu i (fun v => v <| iommu_context := None |>) ;;; ret err
              else ret 0
          end
  end.

(** Whether a binding collides with the new one. *)
Fixpoint binding_conflict_loop (l : list VartRiscvIommuBinding)
    (device context : ptr) : M World bool :=
  match l with
  | [] => ret false
  | b :: l =>
      if bool_decide (bind_device b = device) ||
         bool_decide (bind_context b = context)
      then ret true
      else
        let* other := load_device (bind_device b) in
        let* dev := load_device device in
        if pci_requester_id other =? pci_requester_id dev then ret true
        else binding_conflict_loop l device context
  end.

(** Setting the remapper of a function that has MSI-X. *)
Definition set_remapper_if_configured (device : ptr) (remap : option fnptr)
    (opaque : option ptr) : M World Z :=
  let* dev := load_device device in
  if msix_configured (pci_msix dev)
  then vart_pci_device_set_msix_remapper (Some device) remap opaque
  else ret 0.

Definition vart_riscv_iommu_bind_device (iommu device context : option ptr)
    : M World Z :=
  match iommu, device, context with
  | Some i, Some d, Some c =>
      let* v := load_iommu i in
      if negb (iommu_lock_initialized v) ||
         (VART_RISCV_IOMMU_MAX_BINDINGS <=? Z.of_nat (length (iommu_bindings v)))
      then ret (-EINVAL)
      else
        let* conflict := binding_conflict_loop (iommu_bindings v) d c in
        if conflict : bool then ret (-EEXIST)
        else
          let* err := vart_iommu_context_attach (Some c) (Some d) in
          let* err :=
            if err =? 0
            then vart_iommu_context_set_fault_handler (Some c)
                   (Some fn_iommu_fault_handler) (Some i)
            else ret err in
          let* err :=
            if err =? 0
            then set_remapper_if_configured d (Some fn_iommu_remap_msi) (Some i)
            else ret err in
          if err =? 0 then
            update_iommu i (fun v => v <| iommu_bindings ::=
              (fun l => l ++ [mkBinding d c]) |>) ;;;
            ret err
          else
            let* ctx := load_context c in
            (if bool_decide (ctx_attached_device ctx = Some d) then
               set_remapper_if_configured d None None ;;;
               vart_iommu_context_set_fault_handler (Some c) None None ;;;
               vart_iommu_context_detach (Some c) (Some d) ;;; ret tt
             else ret tt) ;;;
            ret err
  | _, _, _ => ret (-EINVAL)
  end.

(** The index of the device's binding, from [index] on. *)
Fixpoint binding_index (l : list VartRiscvIommuBinding) (device : ptr)
    (index : nat) : option (nat * VartRiscvIommuBinding) :=
  match l with
  | [] => None
  | b :: l => if bool_decide (bind_device b = device) then Some (index, b)
              else binding_index l device (S index)
  end.

(** [a[index] = a[count - 1]; count--] *)
Definition swap_remove {A} (index : nat) (l : list A) : list A :=
  match last l with
  | Some x => take (length l - 1) (<[index := x]> l)
  | None => l
  end.

Definition vart_riscv_iommu_unbind_device (iommu device : option ptr) : M World Z :=
  match iommu, device with
  | Some i, Some d =>
      let* v := load_iommu i in
      if negb (iommu_lock_initialized v) then ret (-EINVAL)
      else
        match binding_index (iommu_bindings v) d 0 with
        | None => ret (-ENOENT)
        | Some (index, b) =>
            let* err := vart_iommu_context_detach (Some (bind_context b)) (Some d) in
            (if err =? 0 then
               set_remapper_if_configured d None None ;;;
               vart_iommu_context_set_fault_handler (Some (bind_context b))
                 None None ;;;
               update_iommu i (fun v => v <| iommu_bindings ::= swap_remove index |>)
             else ret tt) ;;;
            ret err
        end
  | _, _ => ret (-EINVAL)
  end.

Definition vart_riscv_iommu_set_msi_remapping (iommu : option ptr)
    (enabled : bool) : M World Z :=
  match iommu with
  | None => ret (-EINVAL)
  | Some i =>
      let* v := load_iommu i in
      if negb (iommu_lock_initialized v) then ret (-EINVAL)
      else store_iommu i (v <| iommu_msi_remapping_enabled := enabled |>) ;;; ret 0
  end.

Definition page_aligned (x : Z) : bool := Z.land x (VART_IOMMU_PAGE_SIZE - 1) =? 0.

(** The first mapping that overlaps the range, with its index. *)
Fixpoint msi_overlap (l : list VartRiscvIommuMsiMapping) (iova size : Z)
    (index : nat) : option (nat * VartRiscvIommuMsiMapping) :=
  match l with
  | [] => None
  | m :: l =>
      if (iova <? u64 (mm_iova m + mm_size m)) && (mm_iova m <? u64 (iova + size))
      then Some (index, m)
      else msi_overlap l iova size (S index)
  end.

Definition vart_riscv_iommu_map_msi (iommu : option ptr) (iova target size : Z)
    : M World Z :=
  match iommu with
  | None => ret (-EINVAL)
  | Some i =>
      let* v := load_iommu i in
      if negb (iommu_lock_initialized v) || (size <? 4) ||
         negb (page_aligned size) || negb (page_aligned iova) ||
         negb (page_aligned target) ||
         (UINT64_MAX - (size - 1) <? iova) || (UINT64_MAX - (size - 1) <? target)
      then ret (-EINVAL)
      else
        match msi_overlap (iommu_msi_mappings v) iova size 0 with
        | Some (index, m) =>
            if (mm_iova m =? iova) && (mm_size m =? size) then
              store_iommu i (v <| iommu_msi_mappings ::=
                <[index := mkMsiMapping (mm_iova m) target (mm_size m)]> |>) ;;;
              ret 0
            else ret (-EEXIST)
        | None =>
            if VART_RISCV_IOMMU_MAX_MSI_MAPPINGS <=?
               Z.of_nat (length (iommu_msi_mappings v))
            then ret (-ENOSPC)
            else
              store_iommu i (v <| iommu_msi_mappings ::=
                (fun l => l ++ [mkMsiMapping iova target size]) |>) ;;;
              ret 0
        end
  end.

Fixpoint msi_index (l : list VartRiscvIommuMsiMapping) (iova size : Z)
    (index : nat) : option nat :=
  match l with
  | [] => None
  | m :: l => if (mm_iova m =? iova) && (mm_size m =? size) then Some index
              else msi_index l iova size (S index)
  end.

Definition vart_riscv_iommu_unmap_msi (iommu : option ptr) (iova size : Z)
    : M World Z :=
  match iommu with
  | None => ret (-EINVAL)
  | Some i =>
      let* v := load_iommu i in
      if negb (iommu_lock_initialized v) || (size =? 0) then ret (-EINVAL)
      else
        match msi_index (iommu_msi_mappings v) iova size 0 with
        | Some index =>
            store_iommu i (v <| iommu_msi_mappings ::= swap_remove index |>) ;;;
            ret 0
        | None => ret (-ENOENT)
        end
  end.

Definition vart_riscv_iommu_set_msix_injector (iommu : option ptr)
    (inject : option fnptr) (opaque : option ptr) : M World Z :=
  match iommu with
  | None => ret (-EINVAL)
  | Some i =>
      let* v := load_iommu i in
      if negb (iommu_lock_initialized v) then ret (-EINVAL)
      else vart_pci_device_set_msix_injector (Some (iommu_pci v)) inject opaque
  end.

(** * Reset, destruction, faults *)

Fixpoint reset_contexts (l : list VartRiscvIommuBinding) : M World unit :=
  match l with
  | [] => ret tt
  | b :: l =>
      vart_iommu_context_set_mode (Some (bind_context b)) MODE_FAULT ;;;
      reset_contexts l
  end.

Definition reset_registers (v : VartRiscvIommu) : VartRiscvIommu :=
  v <| iommu_fctl := 0 |> <| iommu_ddtp := 0 |> <| iommu_cqb := 0 |>
    <| iommu_cqh := 0 |> <| iommu_cqt := 0 |> <| iommu_cqcsr := 0 |>
    <| iommu_fqb := 0 |> <| iommu_fqh := 0 |> <| iommu_fqt := 0 |>
    <| iommu_pqb := 0 |> <| iommu_pqh := 0 |> <| iommu_pqt := 0 |>
    <| iommu_fqcsr := 0 |> <| iommu_pqcsr := 0 |> <| iommu_fault_address := 0 |>
    <| iommu_fault_info := 0 |> <| iommu_fault_status := 0 |>.

Definition vart_riscv_iommu_reset (iommu : option ptr) : M World Z :=
  match iommu with
  | None => ret (-EINVAL)
  | Some i =>
      let* v := load_iommu i in
      if negb (iommu_lock_initialized v) then ret (-EINVAL)
      else
        store_iommu i (reset_registers v) ;;;
        reset_contexts (iommu_bindings v) ;;;
        match iommu_bindings v, iommu_context v with
        | [], Some c =>
            vart_iommu_context_set_mode (Some c) MODE_FAULT ;;; ret 0
        | _, _ => ret 0
        end
  end.

Definition zero_riscv_iommu (pci : ptr) : VartRiscvIommu :=
  mkRiscvIommu pci None None [] [] false 0 0 0 0 0 0 0 0 0 0 0 0 0 0 0 0 0 0 0 false.

Definition vart_riscv_iommu_destroy (iommu : option ptr) : M World Z :=
  match iommu with
  | None => ret (-EINVAL)
  | Some i =>
      let* v := load_iommu i in
      let* pci := load_device (iommu_pci v) in
      if negb (iommu_lock_initialized v) || dev_realized (pci_parent pci) ||
         bool_decide (is_Some (pci_bus pci)) ||
         negb (bool_decide (iommu_bindings v = []))
      then ret (-EINVAL)
      else
        match iommu_context v with
        | Some c => vart_iommu_context_set_fault_handler (Some c) None None ;;; ret tt
        | None => ret tt
        end ;;;
        clear_pci_device (iommu_pci v) ;;;
        store_iommu i (zero_riscv_iommu (iommu_pci v)) ;;;
        ret 0
  end.

Definition iommu_mmio_ops : VartMmioOps :=
  mkMmioOps (Some fn_iommu_mmio_read) (Some fn_iommu_mmio_write).

(** [mutex_error] is what [pthread_mutex_init] returns. *)
Definition vart_riscv_iommu_init (iommu address_space : option ptr) (mutex_error : Z)
    : M World Z :=
  match iommu, address_space with
  | Some i, Some _ =>
      let* old := load_iommu i in
      let pci := iommu_pci old in
      clear_pci_device pci ;;;
      store_iommu i (zero_riscv_iommu pci) ;;;
      let* err := vart_pci_device_init (Some pci) 0x1b36 0x0014 1 0 6 8 in
      if err <? 0 then ret err
      else if negb (mutex_error =? 0) then ret (- mutex_error)
      else
        store_iommu i ((zero_riscv_iommu pci) <| iommu_lock_initialized := true |>
          <| iommu_address_space := address_space |>
          <| iommu_cap := Z.lor (Z.lor (Z.lor 0x10 (Z.shiftl 1 9)) (Z.shiftl 1 17))
                            (Z.shiftl 1 38) |>) ;;;
        let* err := vart_pci_device_set_bar (Some pci) 0 0x1000 VART_PCI_BAR_MEM_64
                      (Some iommu_mmio_ops) (Some i) in
        if err <? 0 then vart_riscv_iommu_destroy (Some i) ;;; ret err
        else
          let* err := vart_pci_device_init_msix (Some pci) 2 0 0x400 0 0x800 in
          if err <? 0 then vart_riscv_iommu_destroy (Some i) ;;; ret err
          else ret 0
  | _, _ => ret (-EINVAL)
  end.

Definition iommu_fault_handler (context : ptr) (address size : Z) (write : bool)
    (error : Z) (opaque : option ptr) : M World unit :=
  let* iommu := deref opaque in
  update_iommu iommu (fun v => v <| iommu_fault_address := address |>
    <| iommu_fault_info := Z.lor (Z.lor (if write then FAULT_INFO_WRITE else 0)
         (Z.shiftl (u32 (- error)) 8)) (u64 (Z.shiftl size 32)) |>
    <| iommu_fault_status ::= (fun x => Z.lor x FAULT_STATUS_PENDING) |>) ;;;
  iommu_enqueue_fault iommu (Some context) address size write error ;;;
  iommu_raise_msix iommu 0.
End Device.

(** The handler the contexts call: [iommu_fault_handler] is the only function of
    the program that is installed as one.  [base] is what a fault of the space
    that holds the queues would call in turn; that space has no translator. *)
Definition riscv_fault_callbacks `{base : FaultCallbacks} `{MsixCallbacks}
    `{IrqCallbacks} (fuel : nat) : FaultCallbacks :=
  fun f context address size write error opaque =>
    match f with
    | fn_iommu_fault_handler =>
        iommu_fault_handler fuel context address size write error opaque
    | _ => undefined
    end.

(** * The device directory: reference

    The directory of the RISC-V IOMMU specification, for 16-bit requester ids in
    the base format (32-byte device contexts): levels are indexed by the fields
    [DDI[i]] of the id, a directory entry holds the next page's number from bit
    10 on, and the device context of the leaf page says how the device's
    accesses are translated.  The number of bits of a page number is a parameter:
    the format has 44 (bits 53 to 10), and the masks of the code keep 40. *)

Inductive device_config : Type :=
| dc_fault
| dc_identity
| dc_sv39 (root_ppn : Z).

(** [DDI[i]]: seven bits for the leaf, nine for each level above. *)
Definition ddi (i : nat) (rid : Z) : Z :=
  match i with
  | O => rid mod 2 ^ 7
  | S i => (rid / 2 ^ (7 + 9 * Z.of_nat i)) mod 2 ^ 9
  end.

(** A page-number field of [width] bits from bit 10 on. *)
Definition ppn_field (width x : Z) : Z := (x / 2 ^ 10) mod 2 ^ width.

Fixpoint ref_ddt_leaf (width : Z) (rd : PageTable) (rid : Z) (level : nat) (table : Z)
    : option Z :=
  match level with
  | O => Some table
  | S l =>
      match rd (table + 8 * ddi level rid) with
      | inl _ => None
      | inr dte =>
          if bool_decide (dte = 1 + 2 ^ 10 * ppn_field width dte)
          then ref_ddt_leaf width rd rid l (4096 * ppn_field width dte) else None
      end
  end.

Definition ref_device_context (rd : PageTable) (rid leaf : Z) : device_config :=
  match rd (leaf + 32 * ddi 0 rid), rd (leaf + 32 * ddi 0 rid + 24) with
  | inr tc, inr fsc =>
      if Z.even tc then dc_fault
      else if fsc / 2 ^ 60 =? 0 then dc_identity
      else if fsc / 2 ^ 60 =? 8 then dc_sv39 (fsc mod 2 ^ 44)
      else dc_fault
  | _, _ => dc_fault
  end.

Definition ref_device_config (width : Z) (rd : PageTable) (ddtp rid : Z) : device_config :=
  let mode := ddtp mod 16 in
  if mode =? 1 then dc_identity
  else if (mode <? 2) || (4 <? mode) then dc_fault
  else if (mode =? 2) && (2 ^ 7 <=? rid) then dc_fault
  else
    match ref_ddt_leaf width rd rid (Z.to_nat (mode - 2)) (4096 * ppn_field width ddtp) with
    | None => dc_fault
    | Some leaf => ref_device_context rd rid leaf
    end.

(** The context that a configuration asks for. *)
Definition config_context (ctx : VartIommuContext) (cfg : device_config)
    : VartIommuContext :=
  iommu_cache_flush
    match cfg with
    | dc_fault => ctx <| ctx_mode := VART_IOMMU_CONTEXT_FAULT |>
    | dc_identity => ctx <| ctx_mode := VART_IOMMU_CONTEXT_IDENTITY |>
    | dc_sv39 root => ctx <| ctx_root_ppn := root |> <| ctx_root_valid := true |>
        <| ctx_update_ad := false |> <| ctx_mode := VART_IOMMU_CONTEXT_SV39 |>
    end.

(** * The walk computes the reference *)

Lemma land_disjoint_add x a b :
  Z.land a b = 0 -> Z.land x (Z.lor a b) = Z.land x a + Z.land x b.
Proof.
  intros Hab. rewrite Z.land_lor_distr_r.
  assert (Z.land (Z.land x a) (Z.land x b) = 0) as Hz.
  { replace (Z.land (Z.land x a) (Z.land x b)) with (Z.land x (Z.land a b)); [by rewrite Hab, Z.land_0_r|].
    apply Z.bits_inj'. intros n _. rewrite !Z.land_spec.
    by destruct (Z.testbit x n), (Z.testbit a n). }
  pose proof (Z.add_lor_land (Z.land x a) (Z.land x b)). lia.
Qed.

Lemma land_field x k n : 0 <= k -> 0 <= n ->
  Z.land x (Z.shiftl (2 ^ n - 1) k) = 2 ^ k * ((x / 2 ^ k) mod 2 ^ n).
Proof.
  intros Hk Hn. rewrite <- land_low_mask, <- Z.shiftr_div_pow2, Z.mul_comm by lia.
  rewrite <- Z.shiftl_mul_pow2 by lia. apply Z.bits_inj'. intros m Hm.
  rewrite Z.land_spec. destruct (Z.lt_ge_cases m k).
  - by rewrite !Z.shiftl_spec_low, andb_false_r by lia.
  - rewrite !Z.shiftl_spec, Z.land_spec, Z.shiftr_spec by lia.
    by replace (m - k + k) with m by lia.
Qed.

Lemma ppn_mask_field x : Z.land x DDTP_PPN_MASK = 2 ^ 10 * ppn_field 40 x.
Proof. change DDTP_PPN_MASK with (Z.shiftl (2 ^ 40 - 1) 10). by apply land_field. Qed.

Lemma ppn_base_eq x : ppn_base x DDTP_PPN_MASK = 4096 * ppn_field 40 x.
Proof.
  unfold ppn_base. rewrite ppn_mask_field, Z.shiftr_div_pow2, Z.shiftl_mul_pow2 by lia.
  rewrite (Z.mul_comm (2 ^ 10)), Z.div_mul by lia. lia.
Qed.

Lemma kept_ppn_range x : 0 <= ppn_field 40 x < 2 ^ 40.
Proof. apply Z.mod_pos_bound. lia. Qed.

Lemma dde_valid_iff x :
  u64_ok x ->
  negb (bits x DDTE_VALID) || bits x (u64 (Z.lnot (Z.lor DDTE_PPN_MASK DDTE_VALID))) =
  negb (bool_decide (x = 1 + 2 ^ 10 * ppn_field 40 x)).
Proof.
  intros Hx. unfold u64_ok in Hx.
  set (K := u64 _). assert (0 <= Z.land x K) by (apply Z.land_nonneg; left; lia).
  assert (x = Z.land x DDTE_PPN_MASK + Z.land x 1 + Z.land x K) as Hsum.
  { rewrite <- (land_disjoint_add x DDTE_PPN_MASK 1) by reflexivity.
    rewrite <- land_disjoint_add by reflexivity.
    change (Z.lor (Z.lor DDTE_PPN_MASK 1) K) with (2 ^ 64 - 1).
    rewrite land_low_mask by lia. symmetry. apply Z.mod_small. lia. }
  rewrite ppn_mask_field in Hsum.
  assert (Z.land x 1 = x mod 2) as H1 by (apply (land_low_mask x 1); lia).
  unfold bits. rewrite H1 in *.
  destruct (Z.eqb_spec (x mod 2) 0), (Z.eqb_spec (Z.land x K) 0);
    case_bool_decide; try done; exfalso; mlia.
Qed.

Lemma land_top_nibble x :
  u64_ok x -> Z.shiftr (Z.land x DC_FSC_MODE_MASK) 60 = x / 2 ^ 60.
Proof.
  intros Hx. change DC_FSC_MODE_MASK with (Z.shiftl (2 ^ 4 - 1) 60).
  rewrite land_field, Z.shiftr_div_pow2 by lia. rewrite (Z.mul_comm (2 ^ 60)), Z.div_mul by lia.
  unfold u64_ok in Hx. apply Z.mod_small. split; [apply Z.div_pos; lia|].
  apply Z.div_lt_upper_bound; lia.
Qed.

Lemma bits_odd x : bits x 1 = negb (Z.even x).
Proof. change 1 with (2 ^ 0). by rewrite bits_pow2, Z.bit0_odd, Z.negb_even by lia. Qed.

Lemma set_mode_correct c ctx w z m :
  w_contexts w !! c = Some ctx -> is_Some (ctx_downstream ctx) ->
  context_mode_of_Z z = Some m -> is_sv39 m = false ->
  vart_iommu_context_set_mode (Some c) z w =
  Ok (0, w <| w_contexts ::= <[c := iommu_cache_flush (ctx <| ctx_mode := m |>)]> |>).
Proof.
  intros Hc [d Hd] Hz Hm. unfold vart_iommu_context_set_mode.
  rewrite Hz, (bind_eq _ _ _ _ _ (load_context_eq w c ctx Hc)), Hd, Hm. done.
Qed.

Lemma set_sv39_correct c ctx w root :
  w_contexts w !! c = Some ctx -> is_Some (ctx_downstream ctx) ->
  0 <= root < 2 ^ 44 ->
  vart_iommu_context_set_sv39 (Some c) root false w =
  Ok (0, w <| w_contexts ::= <[c := config_context ctx (dc_sv39 root)]> |>).
Proof.
  intros Hc [d Hd] Hr. unfold vart_iommu_context_set_sv39, iommu_context_set_sv39_mode.
  rewrite (bind_eq _ _ _ _ _ (load_context_eq w c ctx Hc)), Hd.
  change (Z.shiftr UINT64_MAX 12) with (2 ^ 52 - 1).
  destruct (Z.ltb_spec (2 ^ 52 - 1) root); [lia|done].
Qed.

(** The configuration a directory gives, with the code's error. *)
Definition config_error (ddtp : Z) (cfg : device_config) : Z :=
  match cfg with
  | dc_fault => if ddtp mod 16 =? 0 then 0 else -EINVAL
  | _ => 0
  end.

Section Directory.
Context `{FaultCallbacks} `{MsixCallbacks} `{IrqCallbacks} (fuel : nat).
Context (w : World) (i s c : ptr) (v : VartRiscvIommu) (ctx : VartIommuContext)
  (rd : PageTable) `{HR : !PteReader (address_space_buffer_access fuel) w s rd}.
Hypothesis Hi : w_iommus w !! i = Some v.
Hypothesis Hs : iommu_address_space v = Some s.
Hypothesis Hc : w_contexts w !! c = Some ctx.
Hypothesis Hd : is_Some (ctx_downstream ctx).

Lemma load_iommu_eq : load_iommu i w = Ok (v, w).
Proof using Hi. unfold load_iommu. run_unfold. by rewrite Hi. Qed.

Lemma read_guest64_eq a :
  u64_ok a -> iommu_read_guest64 fuel i a w = Ok (rd a, w).
Proof using HR Hi Hs.
  intros Ha. unfold iommu_read_guest64.
  rewrite (bind_eq _ _ _ _ _ load_iommu_eq), Hs. cbn [deref].
  unfold vart_address_space_read_buffer. pose proof (HR a Ha) as Hrd.
  rewrite (bind_eq (ret s) _ w s w) by done. destruct (rd a) as [e|x].
  - destruct Hrd as (Hneg & buf & E). rewrite (bind_eq _ _ _ _ _ E).
    by destruct (Z.ltb_spec e 0); [|lia].
  - destruct Hrd as (_ & bytes & Hl & E). rewrite (bind_eq _ _ _ _ _ E).
    cbn. by rewrite Hl.
Qed.

Lemma rd_range a x : u64_ok a -> rd a = inr x -> u64_ok x.
Proof using HR. intros Ha Hx. pose proof (HR a Ha) as Hr. rewrite Hx in Hr. by destruct Hr. Qed.

Lemma ddt_walk_correct rid depth base :
  0 <= rid <= UINT16_MAX -> 0 <= base <= 2 ^ 52 - 4096 ->
  ddt_walk fuel i rid true depth base w = Ok (ref_ddt_leaf 40 rd rid depth base, w).
Proof using HR Hi Hs.
  intros Hrid. revert base. induction depth as [|depth IH]; intros base Hb; [done|].
  cbn [ddt_walk ref_ddt_leaf].
  replace (Z.of_nat depth * 9 + 6 + Z.b2z true) with (7 + 9 * Z.of_nat depth) by (cbn; lia).
  rewrite Z.shiftl_mul_pow2, Z.shiftr_div_pow2 by lia. cbn [ddi].
  set (q := rid / 2 ^ (7 + 9 * Z.of_nat depth)).
  assert (0 <= q < 2 ^ 9) as Hq.
  { subst q. split; [apply Z.div_pos; lia|].
    apply Z.div_lt_upper_bound; [lia|]. rewrite <- Z.pow_add_r by lia.
    pose proof (Z.pow_le_mono_r 2 16 (7 + 9 * Z.of_nat depth + 9)). lia. }
  rewrite (Z.mod_small q) by lia.
  destruct (_ || _) eqn:Hov; [exfalso; lia|].
  replace (base + q * 2 ^ 3) with (base + 8 * q) by lia.
  rewrite (bind_eq _ _ _ _ _ (read_guest64_eq (base + 8 * q) ltac:(unfold u64_ok; lia))).
  destruct (rd (base + 8 * q)) as [e|dte] eqn:Hrd; [done|].
  apply rd_range in Hrd; [|unfold u64_ok; lia].
  rewrite dde_valid_iff by done. case_bool_decide; cbn [negb]; [|done].
  rewrite ppn_base_eq. apply IH. pose proof (kept_ppn_range dte). lia.
Qed.

Lemma ddt_invalid_eq :
  ddt_invalid c w =
  Ok (-EINVAL, w <| w_contexts ::= <[c := config_context ctx dc_fault]> |>).
Proof using Hc Hd.
  unfold ddt_invalid. by rewrite (bind_eq _ _ _ _ _
    (set_mode_correct c ctx w MODE_FAULT _ Hc Hd eq_refl eq_refl)).
Qed.

Lemma load_device_context_correct rid leaf :
  0 <= rid <= UINT16_MAX -> 0 <= leaf <= 2 ^ 52 - 4096 ->
  ddt_load_context fuel i c rid leaf 32 w =
  Ok (config_error 2 (ref_device_context rd rid leaf),
      w <| w_contexts ::= <[c := config_context ctx (ref_device_context rd rid leaf)]> |>).
Proof using HR Hi Hs Hc Hd.
  intros Hrid Hleaf. unfold ddt_load_context, ref_device_context.
  destruct (Z.ltb_spec ((UINT64_MAX - leaf) / 32) rid) as [Hov|_].
  { exfalso. assert (UINT16_MAX <= (UINT64_MAX - leaf) / 32); [|lia].
    apply Z.div_le_lower_bound; lia. }
  change 0xfff with (2 ^ 12 - 1). rewrite land_low_mask by lia.
  assert ((rid * 32) mod 2 ^ 12 = 32 * ddi 0 rid) as ->.
  { change (2 ^ 12) with (2 ^ 7 * 32). rewrite Z.mul_mod_distr_r by lia. cbn [ddi]. lia. }
  assert (0 <= ddi 0 rid < 2 ^ 7) by (apply Z.mod_pos_bound; lia).
  set (a := leaf + 32 * ddi 0 rid).
  assert (u64_ok a /\ u64_ok (a + 24)) as [Ha Ha'] by (unfold u64_ok; lia).
  rewrite (bind_eq _ _ _ _ _ (read_guest64_eq a Ha)).
  destruct (rd a) as [|tc] eqn:Htc; [apply ddt_invalid_eq|].
  rewrite bits_odd, negb_involutive. destruct (Z.even tc).
  { destruct (rd (a + 24)); apply ddt_invalid_eq. }
  rewrite (bind_eq _ _ _ _ _ (read_guest64_eq (a + 24) Ha')).
  destruct (rd (a + 24)) as [|fsc] eqn:Hfsc; [apply ddt_invalid_eq|].
  apply rd_range in Hfsc; [|done]. rewrite land_top_nibble by done.
  destruct (fsc / 2 ^ 60 =? 0).
  { by rewrite (set_mode_correct c ctx w MODE_IDENTITY VART_IOMMU_CONTEXT_IDENTITY). }
  destruct (fsc / 2 ^ 60 =? 8); [|apply ddt_invalid_eq].
  change DC_FSC_PPN_MASK with (2 ^ 44 - 1). rewrite land_low_mask by lia.
  apply set_sv39_correct; [done..|]. apply Z.mod_pos_bound. lia.
Qed.
End Directory.

Lemma ref_ddt_leaf_range rd rid depth base leaf :
  0 <= base <= 2 ^ 52 - 4096 -> ref_ddt_leaf 40 rd rid depth base = Some leaf ->
  0 <= leaf <= 2 ^ 52 - 4096.
Proof.
  revert base. induction depth as [|depth IH]; intros base Hb; cbn [ref_ddt_leaf].
  { by intros [= <-]. }
  destruct (rd _) as [|dte]; [done|]. case_bool_decide; [|done]. apply IH.
  pose proof (kept_ppn_range dte). lia.
Qed.

Lemma apply_ddt_binding_eq `{FaultCallbacks} `{MsixCallbacks} `{IrqCallbacks} fuel
    w i s d c v dev ctx rd `{HR : !PteReader (address_space_buffer_access fuel) w s rd} :
  w_iommus w !! i = Some v -> iommu_address_space v = Some s ->
  w_devices w !! d = Some dev -> w_contexts w !! c = Some ctx ->
  is_Some (ctx_downstream ctx) -> bits (iommu_cap v) CAP_MSI_FLAT = false ->
  u64_ok (iommu_ddtp v) -> 0 <= pci_requester_id dev <= UINT16_MAX ->
  let cfg := ref_device_config 40 rd (iommu_ddtp v) (pci_requester_id dev) in
  iommu_apply_ddt_binding fuel i (Some d) (Some c) w =
  Ok (config_error (iommu_ddtp v) cfg,
      w <| w_contexts ::= <[c := config_context ctx cfg]> |>).
Proof.
  intros Hi Hs Hd Hc Hdn Hcap Hddtp Hrid. cbv zeta.
  unfold iommu_apply_ddt_binding. rewrite (bind_eq _ _ _ _ _ (load_iommu_eq w i v Hi)).
  rewrite Hcap. cbn [negb andb]. unfold ref_device_config, config_error.
  change DDTP_MODE_MASK with (2 ^ 4 - 1). rewrite land_low_mask by lia.
  change (2 ^ 4) with 16. set (mode := iommu_ddtp v mod 16).
  pose proof (set_mode_correct c ctx w MODE_FAULT _ Hc Hdn eq_refl eq_refl) as Hfault.
  destruct (Z.eqb_spec mode 0) as [Hm0|Hm0].
  { rewrite (bind_eq _ _ _ _ _ Hfault). by rewrite Hm0. }
  destruct (Z.eqb_spec mode 1) as [Hm1|Hm1].
  { by rewrite (set_mode_correct c ctx w MODE_IDENTITY VART_IOMMU_CONTEXT_IDENTITY). }
  destruct (_ || _) eqn:Hrange; [by rewrite (bind_eq _ _ _ _ _ Hfault)|].
  assert (load_device d w = Ok (dev, w)) as Hld
    by (unfold load_device; run_unfold; by rewrite Hd).
  rewrite (bind_eq _ _ _ _ _ Hld). set (rid := pci_requester_id dev) in *.
  rewrite ppn_base_eq.
  assert (((mode - 2) * 9 + 6 + Z.b2z (negb (mode =? 4)) <? 16) &&
    (Z.shiftl 1 ((mode - 2) * 9 + 6 + Z.b2z (negb (mode =? 4))) <=? rid) =
    (mode =? 2) && (2 ^ 7 <=? rid)) as ->.
  { assert (mode = 2 \/ mode = 3 \/ mode = 4) as [Hm|[Hm|Hm]] by lia; rewrite Hm; done. }
  destruct (_ && _); [by rewrite (ddt_invalid_eq w c ctx)|].
  pose proof (kept_ppn_range (iommu_ddtp v)) as Hp.
  rewrite (bind_eq _ _ _ _ _ (ddt_walk_correct fuel w i s v rd Hi Hs rid _
    (4096 * ppn_field 40 (iommu_ddtp v)) Hrid ltac:(lia))).
  destruct (ref_ddt_leaf _ _ _ _ _) as [leaf|] eqn:Hleaf;
    [|by rewrite (ddt_invalid_eq w c ctx)].
  apply ref_ddt_leaf_range in Hleaf; [|lia].
  by rewrite (load_device_context_correct fuel w i s c v ctx rd).
Qed.

(** When no memory can be read at or above 2^52, the bits of a page number that the code does
    not keep make no difference: such a directory entry leads nowhere. *)
Section Width.
Context (rd : PageTable) (rid : Z).
Hypothesis Hrid : 0 <= rid.
Hypothesis Hhigh : forall a, 2 ^ 52 <= a <= UINT64_MAX -> exists e, rd a = inl e.

Lemma ppn_field_cases x : 0 <= x ->
  ppn_field 44 x = ppn_field 40 x \/ ppn_field 40 x < 2 ^ 40 <= ppn_field 44 x.
Proof.
  intros Hx. unfold ppn_field. assert (0 <= x / 2 ^ 10) by (apply Z.div_pos; lia).
  destruct (Z.lt_ge_cases ((x / 2 ^ 10) mod 2 ^ 44) (2 ^ 40)); [left|right]; mlia.
Qed.

Lemma ddi_range i : 0 <= ddi i rid < 2 ^ 9.
Proof using Hrid.
  destruct i as [|i]; cbn [ddi]; [pose proof (Z.mod_pos_bound rid (2 ^ 7)); lia|].
  apply Z.mod_pos_bound. lia.
Qed.

Lemma high_table_leads_nowhere level table : 2 ^ 52 <= table <= 2 ^ 56 - 4096 ->
  match ref_ddt_leaf 44 rd rid level table with
  | Some leaf => ref_device_context rd rid leaf
  | None => dc_fault
  end = dc_fault.
Proof using Hrid Hhigh.
  intros Ht. destruct level as [|l]; cbn [ref_ddt_leaf].
  - unfold ref_device_context. pose proof (ddi_range 0).
    by destruct (Hhigh (table + 32 * ddi 0 rid)) as [e ->]; [lia|].
  - pose proof (ddi_range (S l)). by destruct (Hhigh (table + 8 * ddi (S l) rid)) as [e ->]; [lia|].
Qed.

Lemma kept_bits_suffice level table :
  (forall a x, u64_ok a -> rd a = inr x -> u64_ok x) -> 0 <= table <= 2 ^ 52 - 4096 ->
  match ref_ddt_leaf 40 rd rid level table with
  | Some leaf => ref_device_context rd rid leaf
  | None => dc_fault
  end =
  match ref_ddt_leaf 44 rd rid level table with
  | Some leaf => ref_device_context rd rid leaf
  | None => dc_fault
  end.
Proof using Hrid Hhigh.
  intros Hval. revert table. induction level as [|l IH]; intros table Ht; [done|].
  cbn [ref_ddt_leaf]. pose proof (ddi_range (S l)).
  destruct (rd (table + 8 * ddi (S l) rid)) as [e|dte] eqn:Hdte; [done|].
  apply Hval in Hdte; unfold u64_ok in *; [|lia]. pose proof (kept_ppn_range dte).
  destruct (ppn_field_cases dte ltac:(lia)) as [->|[Hlow Hup]].
  { case_bool_decide; [|done]. apply IH. lia. }
  rewrite bool_decide_false. 2: { intros Heq. unfold ppn_field in *. mlia. }
  case_bool_decide; [|done]. symmetry. apply high_table_leads_nowhere.
  assert (ppn_field 44 dte < 2 ^ 44) by (apply Z.mod_pos_bound; lia). lia.
Qed.
End Width.

(** C17. The device directory decides a bound function's translation context.  The unit uses
    the base format of device contexts (it does not announce [MSI_FLAT], as
    [vart_riscv_iommu_init] leaves it); the directory in guest memory reads as [rd], guest
    memory ends below 2^52, and the page number of the directory pointer is below 2^40 (the
    code drops the upper four of its 44 bits, see [ddtp_base_truncated]).  Then the code
    leaves the function's context in the configuration that the documented directory walk,
    with page numbers in bits 53 to 10, gives for its requester id (fault, bypass, or Sv39
    with the root of its device context), with an empty cache, and changes nothing else;
    whatever is invalid, unreadable or not supported ends in the fault mode. *)
Theorem ddt_binding_correct `{FaultCallbacks} `{MsixCallbacks} `{IrqCallbacks} fuel
    w i s d c v dev ctx rd `{HR : !PteReader (address_space_buffer_access fuel) w s rd} :
  w_iommus w !! i = Some v -> iommu_address_space v = Some s ->
  w_devices w !! d = Some dev -> w_contexts w !! c = Some ctx ->
  is_Some (ctx_downstream ctx) -> bits (iommu_cap v) CAP_MSI_FLAT = false ->
  u64_ok (iommu_ddtp v) -> 0 <= pci_requester_id dev <= UINT16_MAX ->
  (forall a, 2 ^ 52 <= a <= UINT64_MAX -> exists e, rd a = inl e) ->
  ppn_field 44 (iommu_ddtp v) < 2 ^ 40 ->
  let cfg := ref_device_config 44 rd (iommu_ddtp v) (pci_requester_id dev) in
  iommu_apply_ddt_binding fuel i (Some d) (Some c) w =
  Ok (config_error (iommu_ddtp v) cfg,
      w <| w_contexts ::= <[c := config_context ctx cfg]> |>).
Proof.
  intros Hi Hs Hd Hc Hdn Hcap Hddtp Hrid Hhigh Hroot. cbv zeta.
  assert (ref_device_config 44 rd (iommu_ddtp v) (pci_requester_id dev) =
    ref_device_config 40 rd (iommu_ddtp v) (pci_requester_id dev)) as ->;
    [|by apply (apply_ddt_binding_eq fuel w i s d c v dev ctx rd)].
  unfold ref_device_config. repeat (case_match; [done|]).
  unfold u64_ok in Hddtp. pose proof (kept_ppn_range (iommu_ddtp v)).
  destruct (ppn_field_cases (iommu_ddtp v)) as [->|]; [lia| |lia]. symmetry.
  apply kept_bits_suffice; [lia|done|intros a x; by apply (rd_range fuel w s rd)|lia].
Qed.

(** * The table of MSI mappings *)

(** Removing by moving the last element keeps the others. *)
Lemma swap_remove_perm {A} (l : list A) (idx : nat) (x : A) :
  l !! idx = Some x -> l ≡ₚ x :: swap_remove idx l.
Proof.
  intros Hx. destruct l as [|z l _] using rev_ind; [done|].
  unfold swap_remove. rewrite last_snoc, length_app. cbn [length].
  replace (length l + 1 - 1)%nat with (length l) by lia.
  destruct (decide (idx = length l)) as [->|Hne].
  - rewrite lookup_app_r, Nat.sub_diag in Hx by done. injection Hx as <-.
    rewrite insert_app_r_alt, take_app_length by lia. apply Permutation_app_comm.
  - assert (idx < length l)%nat as Hlt.
    { apply lookup_lt_Some in Hx. rewrite length_app in Hx. cbn in Hx. lia. }
    rewrite lookup_app_l in Hx by done. rewrite insert_app_l by done.
    rewrite take_app_length' by (by rewrite length_insert).
    rewrite <- (take_drop_middle l idx x) at 1 by done.
    rewrite insert_take_drop by done.
    rewrite (Permutation_app_comm _ [z]). cbn.
    rewrite <- Permutation_middle, <- Permutation_middle. apply Permutation_swap.
Qed.

(** A mapping within the address space, not ending at its very top. *)
Record mapping_ok (m : VartRiscvIommuMsiMapping) : Prop := {
  mp_iova : 0 <= mm_iova m;
  mp_target : 0 <= mm_target m /\ mm_target m + mm_size m <= 2 ^ 64;
  mp_size : 4 <= mm_size m;
  mp_end : mm_iova m + mm_size m <= UINT64_MAX;
}.
Definition apart (m m' : VartRiscvIommuMsiMapping) : Prop :=
  mm_iova m + mm_size m <= mm_iova m' \/ mm_iova m' + mm_size m' <= mm_iova m.
Record msi_ok (l : list VartRiscvIommuMsiMapping) : Prop := {
  mk_each : Forall mapping_ok l;
  mk_nodup : NoDup l;
  mk_apart : forall m m', m ∈ l -> m' ∈ l -> m <> m' -> apart m m';
}.

(** The mapping holds all four bytes of a message at [a]. *)
Definition covers (m : VartRiscvIommuMsiMapping) (a : Z) : Prop :=
  mm_iova m <= a <= mm_iova m + mm_size m - 4.
#[export] Instance covers_dec m a : Decision (covers m a).
Proof. unfold covers. apply _. Defined.

Lemma msi_ok_perm l l' : l ≡ₚ l' -> msi_ok l -> msi_ok l'.
Proof.
  intros Hp [H1 H2 H3]. split.
  - by rewrite <- Hp.
  - by rewrite <- Hp.
  - intros m m'. rewrite <- !Hp. apply H3.
Qed.

Lemma msi_ok_cons m l :
  msi_ok (m :: l) <-> mapping_ok m /\ msi_ok l /\ Forall (apart m) l.
Proof.
  split.
  - intros [Hf Hn Ha]. apply Forall_cons in Hf as [Hm Hf].
    apply NoDup_cons in Hn as [Hnin Hn].
    split; [done|]. split.
    + split; [done..|]. intros x y Hx Hy. apply Ha; by apply list_elem_of_further.
    + apply Forall_forall. intros x Hx. apply Ha; [left|by right|].
      intros ->. done.
  - intros (Hm & [Hf Hn Ha] & Hap). rewrite Forall_forall in Hap.
    assert (forall x y, mapping_ok x -> apart x y -> x <> y) as Hirr.
    { intros x y [] Hxy ->. unfold apart in Hxy. lia. }
    split.
    + by constructor.
    + constructor; [|done]. intros Hin. exact (Hirr m m Hm (Hap m Hin) eq_refl).
    + intros x y [->|Hx]%elem_of_cons [->|Hy]%elem_of_cons Hne; try done.
      * by apply Hap.
      * pose proof (Hap x Hx). unfold apart in *. lia.
      * by apply Ha.
Qed.

Lemma mapping_covers m a :
  mapping_ok m ->
  (mm_iova m <=? a) && (a - mm_iova m <=? u64 (mm_size m - 4)) = bool_decide (covers m a).
Proof.
  intros []. rewrite u64_small by lia. unfold covers. case_bool_decide; lia.
Qed.

(** The lookup finds the mapping that covers the address, whatever the order. *)
Lemma msi_lookup_iff l a t :
  msi_ok l ->
  (msi_lookup l a = Some t <->
   exists m, m ∈ l /\ covers m a /\ t = mm_target m + (a - mm_iova m)).
Proof.
  induction l as [|m l IH]; [intros _; split; [done|intros (? & ?%not_elem_of_nil & _); done]|].
  intros (Hm & Hl & Hap)%msi_ok_cons. cbn [msi_lookup]. rewrite mapping_covers by done.
  rewrite Forall_forall in Hap. case_bool_decide as Hcov.
  - assert (u64 (mm_target m + (a - mm_iova m)) = mm_target m + (a - mm_iova m)) as ->.
    { destruct Hm as [? [? ?] ? ?]. unfold covers in Hcov. apply u64_small. lia. }
    split.
    + intros [= <-]. exists m. split; [left|done].
    + intros (m' & [->|Hin]%elem_of_cons & Hcov' & ->); [done|].
      exfalso. pose proof (Hap m' Hin) as Hx. destruct Hm.
      pose proof (proj1 (Forall_forall _ _) (mk_each _ Hl) m' Hin) as [].
      unfold covers, apart in *. lia.
  - rewrite IH by done. split; intros (m' & Hin & Hrest).
    + exists m'. split; [by right|done].
    + apply elem_of_cons in Hin as [->|Hin]; [naive_solver|eauto].
Qed.

Lemma msi_lookup_ext l l' a :
  msi_ok l -> msi_ok l' -> (forall m, covers m a -> m ∈ l <-> m ∈ l') ->
  msi_lookup l a = msi_lookup l' a.
Proof.
  intros Hl Hl' Hext. apply option_eq. intros t. rewrite !msi_lookup_iff by done.
  naive_solver.
Qed.

Lemma msi_overlap_spec l iova size k :
  Forall mapping_ok l -> 0 <= iova -> 4 <= size -> iova + size <= UINT64_MAX ->
  match msi_overlap l iova size k with
  | None => forall t, Forall (apart (mkMsiMapping iova t size)) l
  | Some (j, m) => (k <= j)%nat /\ l !! (j - k)%nat = Some m /\
      forall t, ~ apart (mkMsiMapping iova t size) m
  end.
Proof.
  intros Hl Hi Hs He. revert k. induction Hl as [|m l Hm Hl IH]; intros k; cbn [msi_overlap].
  { intros t. constructor. }
  destruct Hm. rewrite !u64_small by lia. destruct (_ && _) eqn:Hov.
  - split; [done|]. rewrite Nat.sub_diag. split; [done|]. intros t. unfold apart. cbn. lia.
  - specialize (IH (S k)). destruct (msi_overlap _ _ _ _) as [[j m']|].
    + destruct IH as (Hj & Hlk & Hno). split_and!; [lia| |done].
      by replace (j - k)%nat with (S (j - S k)) by lia.
    + intros t. constructor; [|apply IH]. unfold apart. cbn. lia.
Qed.

Lemma msi_index_spec l iova size k :
  match msi_index l iova size k with
  | None => Forall (fun m => ~ (mm_iova m = iova /\ mm_size m = size)) l
  | Some j => (k <= j)%nat /\ exists m, l !! (j - k)%nat = Some m /\
      mm_iova m = iova /\ mm_size m = size
  end.
Proof.
  revert k. induction l as [|m l IH]; intros k; cbn [msi_index]; [constructor|].
  destruct (_ && _) eqn:Hm.
  - split; [done|]. rewrite Nat.sub_diag. exists m. split; [done|lia].
  - specialize (IH (S k)). destruct (msi_index _ _ _ _) as [j|].
    + destruct IH as (Hj & m' & Hlk & Hr). split; [lia|]. exists m'. split; [|done].
      by replace (j - k)%nat with (S (j - S k)) by lia.
    + constructor; [lia|done].
Qed.

Lemma page_aligned_pos size : page_aligned size = true -> 4 <= size -> 4096 <= size.
Proof.
  unfold page_aligned. change (VART_IOMMU_PAGE_SIZE - 1) with (2 ^ 12 - 1).
  rewrite land_low_mask by lia. intros. mlia.
Qed.

Lemma insert_perm {A} (l : list A) j x y :
  l !! j = Some x ->
  exists rest, l ≡ₚ x :: rest /\ <[j := y]> l ≡ₚ y :: rest.
Proof.
  intros Hx. exists (take j l ++ drop (S j) l). split.
  - rewrite <- (take_drop_middle l j x) at 1 by done. by rewrite <- Permutation_middle.
  - rewrite insert_take_drop by (by eapply lookup_lt_Some). by rewrite <- Permutation_middle.
Qed.

(** The new mapping in place of those it overlaps: either none or its twin. *)
Definition mapping_added (new : VartRiscvIommuMsiMapping)
    (l l' : list VartRiscvIommuMsiMapping) : Prop :=
  msi_ok l' /\ mapping_ok new /\ (length l' <= Nat.max (length l) 64)%nat /\
  (forall m, m ∈ l' <-> m = new \/ (m ∈ l /\ apart new m)) /\
  (forall m, m ∈ l -> apart new m \/ (mm_iova m = mm_iova new /\ mm_size m = mm_size new)).

Lemma mapping_replaced l j old t :
  msi_ok l -> l !! j = Some old ->
  0 <= t /\ t + mm_size old <= 2 ^ 64 ->
  let new := mkMsiMapping (mm_iova old) t (mm_size old) in
  mapping_added new l (<[j := new]> l).
Proof.
  intros Hl Hj Ht new. destruct (insert_perm l j old new Hj) as (rest & Hp & Hp').
  pose proof (msi_ok_perm _ _ Hp Hl) as (Hold & Hrest & Hap)%msi_ok_cons.
  assert (mapping_ok new) as Hnew by (by destruct Hold; split).
  split_and!; [|done|rewrite length_insert; lia| |].
  - eapply msi_ok_perm; [by symmetry|]. apply msi_ok_cons. done.
  - intros m. rewrite Hp', Hp, !elem_of_cons. rewrite Forall_forall in Hap.
    split; [intros [->|Hm]; [by left|right]; split; [by right|by apply Hap]|].
    intros [->|[[->|Hm] Hx]]; [by left| |by right].
    destruct Hold. unfold apart in Hx. cbn in Hx. lia.
  - intros m. rewrite Hp, elem_of_cons. rewrite Forall_forall in Hap.
    intros [->|Hm]; [by right|left]. by apply Hap.
Qed.

Lemma map_msi_correct i v w iova target size err w' :
  w_iommus w !! i = Some v -> msi_ok (iommu_msi_mappings v) ->
  0 <= iova -> 0 <= target -> iova + size <= UINT64_MAX ->
  vart_riscv_iommu_map_msi (Some i) iova target size w = Ok (err, w') ->
  (err < 0 /\ w' = w) \/
  (err = 0 /\ exists l', mapping_added (mkMsiMapping iova target size)
     (iommu_msi_mappings v) l' /\
   w' = w <| w_iommus ::= <[i := v <| iommu_msi_mappings := l' |>]> |>).
Proof.
  intros Hi Hl Hiova Htgt Hend. unfold vart_riscv_iommu_map_msi.
  rewrite (bind_eq _ _ _ _ _ (load_iommu_eq w i v Hi)).
  destruct (_ || _) eqn:Hguard; [intros [= <- <-]; by left|].
  apply orb_false_elim in Hguard as [Hguard Hg1].
  apply orb_false_elim in Hguard as [Hguard Hg2].
  do 2 apply orb_false_elim in Hguard as [Hguard _].
  apply orb_false_elim in Hguard as [Hguard Hg3].
  assert (4 <= size) as Hsize by (apply orb_false_elim in Hguard; lia).
  apply negb_false_iff, page_aligned_pos in Hg3; [|done].
  pose proof (msi_overlap_spec (iommu_msi_mappings v) iova size 0 (mk_each _ Hl)
    Hiova Hsize Hend) as Hspec.
  destruct (msi_overlap _ _ _ _) as [[j m]|].
  - destruct Hspec as (_ & Hj & _). rewrite Nat.sub_0_r in Hj.
    destruct (_ && _) eqn:Hsame; [|intros [= <- <-]; by left].
    intros [= <- <-]. right. split; [done|]. eexists. split; [|done].
    assert (mm_iova m = iova /\ mm_size m = size) as [<- <-] by lia.
    apply mapping_replaced; [done..|]. lia.
  - destruct (Z.leb_spec 64 (Z.of_nat (length (iommu_msi_mappings v))));
      [intros [= <- <-]; by left|].
    intros [= <- <-]. right. split; [done|]. eexists. split; [|done].
    assert (mapping_ok (mkMsiMapping iova target size)) as Hnew by (split; cbn; lia).
    split_and!; [|done|rewrite length_app; cbn; lia| |].
    + eapply msi_ok_perm; [apply Permutation_app_comm|]. cbn. apply msi_ok_cons.
      split_and!; [done..|apply Hspec].
    + specialize (Hspec target). rewrite Forall_forall in Hspec.
      intros m. rewrite elem_of_app, list_elem_of_singleton. naive_solver.
    + specialize (Hspec target). rewrite Forall_forall in Hspec. auto.
Qed.

(** Removing a mapping keeps the others. *)
Lemma unmap_msi_correct i v w iova size err w' :
  w_iommus w !! i = Some v -> msi_ok (iommu_msi_mappings v) ->
  vart_riscv_iommu_unmap_msi (Some i) iova size w = Ok (err, w') ->
  (err < 0 /\ w' = w /\ (iommu_lock_initialized v = true -> size <> 0 ->
     forall m, m ∈ iommu_msi_mappings v -> ~ (mm_iova m = iova /\ mm_size m = size))) \/
  (err = 0 /\ exists l' m, m ∈ iommu_msi_mappings v /\ mm_iova m = iova /\
     mm_size m = size /\ iommu_msi_mappings v ≡ₚ m :: l' /\
     w' = w <| w_iommus ::= <[i := v <| iommu_msi_mappings := l' |>]> |>).
Proof.
  intros Hi Hl. unfold vart_riscv_iommu_unmap_msi.
  rewrite (bind_eq _ _ _ _ _ (load_iommu_eq w i v Hi)).
  destruct (_ || _) eqn:Hg.
  { intros [= <- <-]. left. split_and!; [done..|]. intros Hl0 ?. rewrite Hl0 in Hg. cbn in Hg. lia. }
  pose proof (msi_index_spec (iommu_msi_mappings v) iova size 0) as Hspec.
  destruct (msi_index _ _ _ _) as [j|].
  - destruct Hspec as (_ & m & Hj & Hm). rewrite Nat.sub_0_r in Hj.
    intros [= <- <-]. right. split; [done|]. eexists _, m.
    split_and!; [by eapply list_elem_of_lookup_2|apply Hm|apply Hm| |done].
    by apply swap_remove_perm.
  - intros [= <- <-]. left. rewrite Forall_forall in Hspec. done.
Qed.

(** One call of the MSI interface of the IOMMU [i]; mappings that end at the top
    of the address space are left out (see [msi_top_mapping_duplicated]). *)
Inductive msi_step (i : ptr) (w w' : World) : Prop :=
| msi_step_map iova target size err :
    0 <= iova -> 0 <= target -> iova + size <= UINT64_MAX ->
    vart_riscv_iommu_map_msi (Some i) iova target size w = Ok (err, w') ->
    msi_step i w w'
| msi_step_unmap iova size err :
    vart_riscv_iommu_unmap_msi (Some i) iova size w = Ok (err, w') -> msi_step i w w'
| msi_step_remapping enabled err :
    vart_riscv_iommu_set_msi_remapping (Some i) enabled w = Ok (err, w') ->
    msi_step i w w'.

(** The table of IOMMU [i]: mappings apart, at most 64 of them. *)
Definition msi_table_ok (i : ptr) (w : World) : Prop :=
  exists v, w_iommus w !! i = Some v /\ msi_ok (iommu_msi_mappings v) /\
    (length (iommu_msi_mappings v) <= 64)%nat.

Lemma msi_step_ok i w w' : msi_table_ok i w -> msi_step i w w' -> msi_table_ok i w'.
Proof.
  intros (v & Hi & Hok & Hlen) [iova target size err H1 H2 H3 E|iova size err E|b err E].
  - apply (map_msi_correct i v) in E as [(_ & ->)|(_ & l' & (Hok' & _ & Hl & _) & ->)];
      try done; [by exists v|].
    eexists. cbn. rewrite lookup_insert_eq. split; [done|]. cbn. split; [done|lia].
  - apply (unmap_msi_correct i v) in E
      as [(_ & -> & _)|(_ & l' & m & _ & _ & _ & Hp & ->)]; try done; [by exists v|].
    eexists. cbn. rewrite lookup_insert_eq. split; [done|]. cbn. split.
    + by apply (msi_ok_perm _ _ Hp), msi_ok_cons in Hok as (_ & ? & _).
    + apply Permutation_length in Hp. cbn in Hp. lia.
  - unfold vart_riscv_iommu_set_msi_remapping in E.
    rewrite (bind_eq _ _ _ _ _ (load_iommu_eq w i v Hi)) in E.
    destruct (negb _); injection E as <- <-; [by exists v|].
    eexists. cbn. by rewrite lookup_insert_eq.
Qed.

Lemma msi_ok_nil : msi_ok [].
Proof. split; [constructor..|]. by intros ? ? ?%not_elem_of_nil. Qed.

(** MSI remapping is a function of the address alone: however mappings
    were added, retargeted and removed, those in the table never overlap, there
    are at most 64, and a message address is remapped to [t] exactly when the
    unique mapping that covers it sends it there. *)
Theorem msi_remap_deterministic i w0 v0 w :
  w_iommus w0 !! i = Some v0 -> iommu_msi_mappings v0 = [] ->
  rtc (msi_step i) w0 w ->
  exists v, w_iommus w !! i = Some v /\ (length (iommu_msi_mappings v) <= 64)%nat /\
    (forall m m', m ∈ iommu_msi_mappings v -> m' ∈ iommu_msi_mappings v ->
       m <> m' -> apart m m') /\
    forall a t, msi_lookup (iommu_msi_mappings v) a = Some t <->
      exists m, m ∈ iommu_msi_mappings v /\ covers m a /\
        t = mm_target m + (a - mm_iova m).
Proof.
  intros Hi He Hsteps. assert (msi_table_ok i w) as (v & Hv & Hok & Hlen).
  { assert (msi_table_ok i w0) as H0.
    { exists v0. rewrite He. split; [done|]. split; [apply msi_ok_nil|cbn; lia]. }
    clear Hi He. induction Hsteps as [|x y z Hxy _ IH]; [done|].
    apply IH. by eapply msi_step_ok. }
  exists v. split_and!; try done; [apply Hok|]. intros a t. by apply msi_lookup_iff.
Qed.

(** Mapping and unmapping MSIs: after a successful [map_msi] every message
    in the range goes to the new target and every other message goes where it
    went before; unmapping the same range then succeeds, and leaves messages in
    the range without a mapping and the others as they were. *)
Theorem msi_map_unmap i v w iova target size w1 :
  w_iommus w !! i = Some v -> msi_ok (iommu_msi_mappings v) ->
  0 <= iova -> 0 <= target -> iova + size <= UINT64_MAX ->
  vart_riscv_iommu_map_msi (Some i) iova target size w = Ok (0, w1) ->
  exists v1 v2 w2,
    w_iommus w1 !! i = Some v1 /\
    (forall a, msi_lookup (iommu_msi_mappings v1) a =
       if decide (iova <= a <= iova + size - 4) then Some (target + (a - iova))
       else msi_lookup (iommu_msi_mappings v) a) /\
    vart_riscv_iommu_unmap_msi (Some i) iova size w1 = Ok (0, w2) /\
    w_iommus w2 !! i = Some v2 /\
    forall a, msi_lookup (iommu_msi_mappings v2) a =
      if decide (iova <= a <= iova + size - 4) then None
      else msi_lookup (iommu_msi_mappings v) a.
Proof.
  intros Hi Hok H1 H2 H3 E.
  assert (iommu_lock_initialized v = true) as Hlock.
  { revert E. unfold vart_riscv_iommu_map_msi.
    rewrite (bind_eq _ _ _ _ _ (load_iommu_eq w i v Hi)).
    by destruct (iommu_lock_initialized v). }
  destruct (map_msi_correct i v w iova target size 0 w1 Hi Hok H1 H2 H3 E)
    as [[? _]|(_ & l' & (Hok' & Hnew & _ & Hin & Htwin) & Hw1)]; [lia|].
  set (new := mkMsiMapping iova target size) in *.
  set (v1 := v <| iommu_msi_mappings := l' |>) in *.
  assert (w_iommus w1 !! i = Some v1) as Hi1 by (rewrite Hw1; cbn; apply lookup_insert_eq).
  assert (new ∈ l') as Hnin by (apply Hin; by left).
  assert (forall m a, m ∈ iommu_msi_mappings v -> covers m a -> ~ covers new a ->
    apart new m) as Hout.
  { intros m a Hm Hc Hnc. destruct (Htwin m Hm) as [|[He1 He2]]; [done|].
    exfalso. apply Hnc. unfold covers in *. cbn in *. lia. }
  assert (size <> 0) as Hsz by (destruct Hnew; cbn in *; lia).
  assert (exists err w2, vart_riscv_iommu_unmap_msi (Some i) iova size w1 = Ok (err, w2))
    as (err & w2 & E2).
  { unfold vart_riscv_iommu_unmap_msi. rewrite (bind_eq _ _ _ _ _ (load_iommu_eq w1 i v1 Hi1)).
    destruct (_ || _); [by eexists _, _|]. by destruct (msi_index _ _ _ _); eexists _, _. }
  destruct (unmap_msi_correct i v1 w1 iova size err w2 Hi1 Hok' E2)
    as [(_ & _ & Hno)|(-> & l2 & m & Hm & Hm1 & Hm2 & Hp & Hw2)].
  { exfalso. by apply (Hno Hlock Hsz new). }
  change (iommu_msi_mappings v1) with l' in *.
  assert (m = new) as ->.
  { destruct (decide (apart new m)) as [Ha|Hna].
    - exfalso. destruct Hnew. unfold apart in Ha. cbn in *. lia.
    - apply Hin in Hm as [?|[_ ?]]; done. }
  pose proof (msi_ok_perm _ _ Hp Hok') as (_ & Hok2 & Hap)%msi_ok_cons.
  rewrite Forall_forall in Hap.
  exists v1, (v1 <| iommu_msi_mappings := l2 |>), w2. split_and!; try done.
  - intros a. change (iommu_msi_mappings v1) with l'. case_decide as Hc.
    + apply msi_lookup_iff; [done|]. by exists new.
    + apply msi_lookup_ext; [done..|]. intros m Hcm. rewrite Hin. naive_solver.
  - rewrite Hw2. cbn. apply lookup_insert_eq.
  - intros a. change (iommu_msi_mappings (v1 <| iommu_msi_mappings := l2 |>)) with l2.
    case_decide as Hc.
    + destruct (msi_lookup l2 a) as [t|] eqn:Hl; [exfalso|done].
      apply msi_lookup_iff in Hl as (m & Hm2' & Hcm & _); [|done].
      pose proof (Hap m Hm2') as Ha. destruct Hnew.
      pose proof (proj1 (Forall_forall _ _) (mk_each _ Hok2) m Hm2') as [].
      unfold apart, covers in *. cbn in *. lia.
    + apply msi_lookup_ext; [done..|]. intros m Hcm.
      assert (m ∈ l2 <-> m ∈ l' /\ m <> new) as ->; [|rewrite Hin; naive_solver].
      rewrite Hp, elem_of_cons. split; [|naive_solver]. intros Hm2'. split; [by right|].
      intros ->. pose proof (Hap new Hm2') as Ha. destruct Hnew. unfold apart in Ha. lia.
Qed.

(** * The command queue *)

(** What an interrupt may change: nothing the command queue works on. *)
Record quiet (w w' : World) : Prop := {
  q_regions : w_regions w' = w_regions w;
  q_spaces : w_spaces w' = w_spaces w;
  q_host : w_host w' = w_host w;
  q_contexts : w_contexts w' = w_contexts w;
  q_iommus : w_iommus w' = w_iommus w;
  q_ids : forall d, pci_requester_id <$> w_devices w' !! d =
                    pci_requester_id <$> w_devices w !! d;
}.

(** What the queue needs of the interrupts of its function [p]: while [inv]
    holds, raising a vector returns and is [quiet]. *)
Class QuietInterrupts `{MsixCallbacks} `{IrqCallbacks} (p : ptr) (inv : World -> Prop)
    : Prop := {
  raise_quiet w vector : 0 <= vector -> inv w -> exists err w',
    vart_pci_device_raise_msix (Some p) vector w = Ok (err, w') /\
    quiet w w' /\ inv w';
  inv_contexts w cs : inv w -> inv (w <| w_contexts := cs |>);
  inv_iommus w ims : inv w -> inv (w <| w_iommus := ims |>);
}.

(** A step that only updates contexts, all of which keep their downstream. *)
Definition contexts_upd (w w' : World) : Prop :=
  exists cs, w' = w <| w_contexts := cs |> /\
    forall c ctx, w_contexts w !! c = Some ctx -> is_Some (ctx_downstream ctx) ->
      exists ctx', cs !! c = Some ctx' /\ is_Some (ctx_downstream ctx').

#[export] Instance contexts_upd_preorder : PreOrder contexts_upd.
Proof.
  split.
  - intros w. exists (w_contexts w). split; [by destruct w|eauto].
  - intros w w1 w2 (cs1 & -> & H1) (cs2 & -> & H2). exists cs2. split; [done|].
    intros c ctx Hc Hd. destruct (H1 c ctx Hc Hd) as (ctx1 & Hc1 & Hd1).
    by apply (H2 c ctx1).
Qed.

Lemma contexts_upd_insert w c ctx ctx' :
  w_contexts w !! c = Some ctx -> is_Some (ctx_downstream ctx') ->
  contexts_upd w (w <| w_contexts ::= <[c := ctx']> |>).
Proof.
  intros Hc Hd. eexists. split; [done|]. intros c1 ctx1 Hc1 Hd1.
  destruct (decide (c1 = c)) as [->|]; [rewrite lookup_insert_eq; eauto|].
  rewrite lookup_insert_ne by done. eauto.
Qed.

Section Queue.
Context `{FaultCallbacks} `{HMC : MsixCallbacks} `{HIC : IrqCallbacks}
  (fuel : nat) (i s p : ptr).

(** The environment of the queue: the IOMMU [v] works on the plain space [s]
    in a well-formed heap, and what it is bound to exists. *)
Record queue_env (w : World) (v : VartRiscvIommu) : Prop := {
  qe_iommu : w_iommus w !! i = Some v;
  qe_space : iommu_address_space v = Some s;
  qe_pci : iommu_pci v = p;
  qe_heap : heap_ok w;
  qe_ram : ram_backed w;
  qe_bytes : bytes_mem (w_host w);
  qe_plain : plain_space w s;
  qe_cap : bits (iommu_cap v) CAP_MSI_FLAT = false;
  qe_ddtp : u64_ok (iommu_ddtp v);
  qe_bindings : Forall (fun b =>
    (exists dev, w_devices w !! bind_device b = Some dev /\
       0 <= pci_requester_id dev <= UINT16_MAX) /\
    exists ctx, w_contexts w !! bind_context b = Some ctx /\
      is_Some (ctx_downstream ctx)) (iommu_bindings v);
  qe_default : forall c, iommu_context v = Some c ->
    exists ctx, w_contexts w !! c = Some ctx /\ is_Some (ctx_downstream ctx);
}.

Lemma queue_env_contexts w v w' : queue_env w v -> contexts_upd w w' -> queue_env w' v.
Proof.
  intros [] (cs & -> & Hcs). split; try done.
  - by apply (contexts_frame w (fun _ => cs)).
  - eapply Forall_impl; [done|]. intros b (Hdev & ctx & Hc & Hd). eauto.
  - intros c Hc. destruct (qe_default0 c Hc) as (ctx & ? & ?). eauto.
Qed.

Lemma apply_binding_upd w v b :
  queue_env w v -> b ∈ iommu_bindings v ->
  exists err w', iommu_apply_ddt_binding (S fuel) i (Some (bind_device b))
    (Some (bind_context b)) w = Ok (err, w') /\ contexts_upd w w'.
Proof.
  intros [] Hb. rewrite Forall_forall in qe_bindings0.
  destruct (qe_bindings0 b Hb) as ((dev & Hdev & Hrid) & ctx & Hctx & Hdn).
  pose proof (ram_pte_reader w s fuel qe_heap0 qe_ram0 qe_bytes0 qe_plain0).
  eexists _, _. split; [by apply (apply_ddt_binding_eq (S fuel) w i s _ _ v dev ctx (ram_pt w s))|].
  eapply contexts_upd_insert; [done|]. by destruct (ref_device_config _ _ _ _).
Qed.

Lemma invalidate_upd w c ctx address size :
  w_contexts w !! c = Some ctx -> is_Some (ctx_downstream ctx) ->
  exists err w', vart_iommu_context_invalidate (Some c) address size w = Ok (err, w') /\
    contexts_upd w w'.
Proof.
  intros Hc Hd. unfold vart_iommu_context_invalidate.
  assert (forall err, exists e w', (ret err : M World Z) w = Ok (e, w') /\ contexts_upd w w')
    as Hret by (intros err; eexists _, w; done).
  destruct (_ || _); [apply Hret|].
  rewrite (bind_eq _ _ _ _ _ (load_context_eq w c ctx Hc)).
  assert (forall ctx', ctx_downstream ctx' = ctx_downstream ctx ->
    exists e w', (store_context c ctx' ;;; ret 0) w = Ok (e, w') /\ contexts_upd w w') as Hst.
  { intros ctx' He. eexists _, _. split; [done|].
    eapply contexts_upd_insert; [done|by rewrite He]. }
  destruct (is_sv39 (ctx_mode ctx)); [|by apply Hst].
  destruct (iommu_canonical_iova _ _); [apply Hret|].
  destruct (_ <=? _); [by apply Hst|]. destruct (_ <? _); [apply Hret|].
  apply Hst. unfold iommu_cache_invalidate. cbn.
  destruct (cache_invalidate_loop _ _ _ _ _) as [cache count].
  by destruct (_ =? _).
Qed.

(** Each loop over the bindings returns and only updates contexts. *)
Definition safe_on (w : World) (m : M World Z) : Prop :=
  exists err w', m w = Ok (err, w') /\ contexts_upd w w'.

Lemma iodir_all_upd w v l :
  queue_env w v -> incl l (iommu_bindings v) -> safe_on w (iodir_all_loop (S fuel) i l).
Proof.
  revert w. induction l as [|b l IH]; intros w Hw Hl; [by eexists _, w|].
  destruct (apply_binding_upd w v b Hw) as (e & w1 & E1 & H1).
  { apply list_elem_of_In, Hl. by left. }
  unfold safe_on. cbn [iodir_all_loop]. rewrite (bind_eq _ _ _ _ _ E1).
  destruct (IH w1) as (e' & w2 & E2 & H2).
  { by eapply queue_env_contexts. } { intros x Hx. apply Hl. by right. }
  exists e', w2. split; [done|by trans w1].
Qed.

Lemma iodir_one_upd w v rid l :
  queue_env w v -> incl l (iommu_bindings v) ->
  safe_on w (iodir_one_loop (S fuel) i rid l).
Proof.
  intros Hw. induction l as [|b l IH]; intros Hl; [by eexists _, w|].
  assert (b ∈ iommu_bindings v) as Hb by (apply list_elem_of_In, Hl; by left).
  pose proof (qe_bindings w v Hw) as Hall. rewrite Forall_forall in Hall.
  destruct (Hall b Hb) as ((dev & Hdev & _) & _).
  assert (load_device (bind_device b) w = Ok (dev, w)) as Hld
    by (unfold load_device; run_unfold; by rewrite Hdev).
  unfold safe_on. cbn [iodir_one_loop]. rewrite (bind_eq _ _ _ _ _ Hld).
  destruct (_ =? _); [|apply IH; intros x Hx; apply Hl; by right].
  destruct (apply_binding_upd w v b Hw Hb) as (e & w1 & E1 & H1).
  rewrite (bind_eq _ _ _ _ _ E1). by eexists _, w1.
Qed.

Lemma iotinval_upd w v l address size err :
  queue_env w v -> incl l (iommu_bindings v) -> safe_on w (iotinval_loop l address size err).
Proof.
  revert w err. induction l as [|b l IH]; intros w err Hw Hl; [by eexists _, w|].
  pose proof (qe_bindings w v Hw) as Hall. rewrite Forall_forall in Hall.
  destruct (Hall b) as (_ & ctx & Hc & Hd). { apply list_elem_of_In, Hl. by left. }
  destruct (invalidate_upd w (bind_context b) ctx address size Hc Hd) as (e & w1 & E1 & H1).
  unfold safe_on. cbn [iotinval_loop]. rewrite (bind_eq _ _ _ _ _ E1).
  destruct (IH w1 (if (e <? 0) && (err =? 0) then e else err)) as (e' & w2 & E2 & H2).
  { by eapply queue_env_contexts. } { intros x Hx. apply Hl. by right. }
  exists e', w2. split; [done|by trans w1].
Qed.

Lemma invalidate_command_upd w v d0 d1 :
  queue_env w v -> safe_on w (iommu_invalidate_command (S fuel) i d0 d1).
Proof.
  intros Hw. unfold safe_on, iommu_invalidate_command.
  rewrite (bind_eq _ _ _ _ _ (load_iommu_eq w i v (qe_iommu w v Hw))).
  assert (forall err, safe_on w (ret err)) as Hret by (intros err; by eexists _, w).
  destruct (_ && _).
  { destruct (negb _); [eapply iodir_all_upd|eapply iodir_one_upd];
      [exact Hw|apply incl_refl|exact Hw|apply incl_refl]. }
  destruct (_ && _); [apply Hret|]. destruct (_ || _) eqn:Hg; [apply Hret|].
  destruct (bits d0 CMD_AV && _); [apply Hret|].
  destruct (iommu_bindings v) as [|b l] eqn:Hb.
  - destruct (iommu_context v) as [c|] eqn:Hc.
    + destruct (qe_default w v Hw c Hc) as (ctx & Hctx & Hd). by eapply invalidate_upd.
    + rewrite !bool_decide_true in Hg by done. cbn in Hg.
      by rewrite orb_true_r in Hg.
  - rewrite <- Hb. eapply iotinval_upd; [exact Hw|apply incl_refl].
Qed.
End Queue.

Lemma update_iommu_eq i v f w :
  w_iommus w !! i = Some v ->
  update_iommu i f w = Ok (tt, w <| w_iommus ::= <[i := f v]> |>).
Proof.
  intros Hi. unfold update_iommu. by rewrite (bind_eq _ _ _ _ _ (load_iommu_eq w i v Hi)).
Qed.

(** The fields of the IOMMU that the queues do not change. *)
Definition same_setup (v v' : VartRiscvIommu) : Prop :=
  iommu_address_space v' = iommu_address_space v /\ iommu_pci v' = iommu_pci v /\
  iommu_cap v' = iommu_cap v /\ iommu_ddtp v' = iommu_ddtp v /\
  iommu_bindings v' = iommu_bindings v /\ iommu_context v' = iommu_context v.

Lemma queue_env_update i s p w v v' :
  queue_env i s p w v -> same_setup v v' ->
  queue_env i s p (w <| w_iommus ::= <[i := v']> |>) v'.
Proof.
  intros [] (H1 & H2 & H3 & H4 & H5 & H6).
  split; rewrite ?H1, ?H2, ?H3, ?H4, ?H5, ?H6; try done.
  - cbn. apply lookup_insert_eq.
  - destruct qe_heap0 as [Hs Hr]. split; [|exact Hr]. by apply (spaces_ok_ext w).
Qed.

Lemma queue_env_quiet i s p w w' v :
  queue_env i s p w v -> quiet w w' -> queue_env i s p w' v.
Proof.
  intros [] []. split; rewrite ?q_iommus0; try done.
  - destruct qe_heap0 as [Hs Hr]. split; [|intros r x; rewrite q_regions0; apply Hr].
    by apply (spaces_ok_ext w).
  - intros r x h. rewrite q_regions0, q_host0. apply qe_ram0.
  - by rewrite q_host0.
  - destruct qe_plain0 as (sp & ? & ?). exists sp. by rewrite q_spaces0.
  - eapply Forall_impl; [done|]. intros b ((dev & Hd & Hid) & Hctx). rewrite q_contexts0.
    split; [|done]. specialize (q_ids0 (bind_device b)). rewrite Hd in q_ids0.
    destruct (w_devices w' !! bind_device b) as [dev'|]; [|done].
    exists dev'. split; [done|]. cbn in q_ids0. injection q_ids0 as ->. done.
  - by rewrite q_contexts0.
Qed.

Section Drain.
Context `{FaultCallbacks} `{HMC : MsixCallbacks} `{HIC : IrqCallbacks}
  (fuel : nat) (i s p : ptr) (inv : World -> Prop) `{HQ : !QuietInterrupts p inv}.

Lemma flag_and_raise w v flag :
  queue_env i s p w v -> inv w ->
  exists w', (update_iommu i (fun v => v <| iommu_cqcsr ::= (fun x => Z.lor x flag) |>) ;;;
    iommu_raise_msix i 1) w = Ok (tt, w') /\
    queue_env i s p w' (v <| iommu_cqcsr ::= (fun x => Z.lor x flag) |>) /\ inv w'.
Proof using HQ.
  intros Hw Hinv. rewrite (bind_eq _ _ _ _ _ (update_iommu_eq _ _ _ _ (qe_iommu _ _ _ _ _ Hw))).
  set (v1 := v <| iommu_cqcsr ::= _ |>). set (w1 := w <| w_iommus ::= _ |>).
  assert (queue_env i s p w1 v1) as Hw1 by (apply (queue_env_update _ _ _ _ _ _ Hw); done).
  assert (inv w1) as Hinv1 by (apply (inv_iommus w (<[i := v1]> (w_iommus w)) Hinv)).
  unfold iommu_raise_msix.
  rewrite (bind_eq _ _ _ _ _ (load_iommu_eq w1 i v1 (qe_iommu _ _ _ _ _ Hw1))).
  rewrite (qe_pci _ _ _ _ _ Hw1).
  destruct (raise_quiet w1 1 ltac:(lia) Hinv1) as (err & w2 & E2 & Hq & Hinv2).
  exists w2. rewrite (bind_eq _ _ _ _ _ E2). split_and!; [done| |done].
  by eapply queue_env_quiet.
Qed.

Lemma read_command w v address :
  queue_env i s p w v -> u64_ok address ->
  exists err data, vart_address_space_read_buffer (S fuel) s address
    (Some (repeat 0 16)) 16 w = Ok ((err, Some data), w) /\ err <= 0.
Proof.
  intros [] Ha. destruct qe_plain0 as (sp & Hsp & Htr). destruct qe_heap0 as [Hs _].
  pose proof (plain_access w s sp address (repeat 0 16) 16 false fuel Hs qe_ram0 Hsp Htr Ha
    ltac:(lia) ltac:(done)) as ([err buf] & w' & E & Ho)%wp_ok.
  unfold vart_address_space_read_buffer. rewrite E.
  destruct Ho as [(-> & h & _ & bytes & _ & -> & ->)|[(-> & _ & -> & ->)|(-> & -> & -> & _)]];
    by eexists _, _.
Qed.

Definition drained (w : World) (v : VartRiscvIommu) (err : Z) (w' : World) : Prop :=
  exists v', queue_env i s p w' v' /\ inv w' /\ iommu_cqt v' = iommu_cqt v /\
    ((err = 0 /\ iommu_cqh v' = iommu_cqt v) \/
     (err < 0 /\ bits (iommu_cqcsr v') CQCSR_CQMF = true)).

Lemma bits_lor_flag x : bits (Z.lor x CQCSR_CQMF) CQCSR_CQMF = true.
Proof. change CQCSR_CQMF with (2 ^ 8). by rewrite bits_pow2, Z.lor_spec, orb_true_r by lia. Qed.

Lemma fault_stops w v err :
  queue_env i s p w v -> inv w -> err < 0 ->
  exists w', (update_iommu i (fun v => v <| iommu_cqcsr ::= (fun x => Z.lor x CQCSR_CQMF) |>) ;;;
    iommu_raise_msix i 1 ;;; ret err) w = Ok (err, w') /\ drained w v err w'.
Proof using HQ.
  intros Hw Hinv Herr.
  destruct (flag_and_raise w v CQCSR_CQMF Hw Hinv) as (w1 & E1 & Hw1 & Hinv1).
  exists w1. split.
  - apply bind_Ok in E1 as (u & w2 & E1 & E2). rewrite (bind_eq _ _ _ _ _ E1).
    by rewrite (bind_eq _ _ _ _ _ E2).
  - eexists. split_and!; [exact Hw1|done|done|right]. split; [done|]. apply bits_lor_flag.
Qed.

Lemma command_loop_drains steps w v qb entries :
  queue_env i s p w v -> inv w -> 0 <= qb <= 2 ^ 52 -> 1 <= entries <= 2 ^ 13 ->
  0 <= iommu_cqh v <= UINT32_MAX -> 0 <= iommu_cqt v <= UINT32_MAX ->
  (iommu_cqt v - iommu_cqh v) mod 2 ^ 32 <= Z.of_nat steps ->
  exists err w', command_loop (S fuel) steps i qb entries w = Ok (err, w') /\
    drained w v err w'.
Proof using HQ.
  revert w v. induction steps as [|steps IH]; intros w v Hw Hinv Hqb Hen Hh Ht Hst;
    cbn [command_loop];
    rewrite (bind_eq _ _ _ _ _ (load_iommu_eq w i v (qe_iommu _ _ _ _ _ Hw)));
    destruct (Z.eqb_spec (iommu_cqh v) (iommu_cqt v)) as [He|Hne].
  1, 3: eexists _, w; split; [done|]; exists v; auto 10.
  { exfalso. mlia. }
  assert (0 <= Z.land (iommu_cqh v) (entries - 1) <= entries - 1) as Hidx
    by (apply land_nonneg_le; lia).
  destruct (_ <? _).
  { destruct (fault_stops w v (-EFAULT) Hw Hinv ltac:(lia)) as (w1 & E1 & Hd). eauto. }
  set (address := qb + _). rewrite (qe_space _ _ _ _ _ Hw).
  rewrite (bind_eq (deref (Some s)) _ w s w) by done.
  destruct (read_command w v address Hw) as (err & data & E & Herr); [unfold u64_ok; lia|].
  rewrite (bind_eq _ _ _ _ _ E). destruct (Z.ltb_spec err 0).
  { destruct (fault_stops w v err Hw Hinv ltac:(lia)) as (w1 & E1 & Hd). eauto. }
  rewrite (bind_eq (deref (Some data)) _ w data w) by done.
  destruct (invalidate_command_upd fuel i s p w v (load_le (take 8 data))
    (load_le (drop 8 data)) Hw) as (err' & w1 & E1 & Hupd).
  rewrite (bind_eq _ _ _ _ _ E1).
  assert (queue_env i s p w1 v) as Hw1 by (by eapply queue_env_contexts).
  assert (inv w1) as Hinv1 by (destruct Hupd as (cs & -> & _); by apply inv_contexts).
  rewrite (bind_eq _ _ _ _ _ (update_iommu_eq _ _ _ _ (qe_iommu _ _ _ _ _ Hw1))).
  set (v2 := v <| iommu_cqh ::= _ |>). set (w2 := w1 <| w_iommus ::= _ |>).
  assert (queue_env i s p w2 v2) as Hw2 by (apply (queue_env_update _ _ _ _ _ _ Hw1); done).
  assert (inv w2) as Hinv2 by (apply (inv_iommus w1 (<[i := v2]> (w_iommus w1)) Hinv1)).
  assert (0 <= iommu_cqh v2 <= UINT32_MAX) as Hh2 by (cbn; apply u32_range).
  assert ((iommu_cqt v2 - iommu_cqh v2) mod 2 ^ 32 <= Z.of_nat steps) as Hst2
    by (cbn; mlia).
  destruct (err' <? 0).
  - destruct (flag_and_raise w2 v2 CQCSR_CMD_ILL Hw2 Hinv2) as (w3 & E3 & Hw3 & Hinv3).
    rewrite (bind_eq _ _ _ _ _ E3). by apply (IH w3 _ Hw3).
  - rewrite (bind_eq (ret tt) _ w2 tt w2) by done. by apply (IH w2 v2).
Qed.
End Drain.


(** * The fault queue *)

(** The queue's slots, and how many hold records the guest has not consumed. *)
Definition fq_entries (v : VartRiscvIommu) : Z :=
  2 ^ Z.land (iommu_fqb v) QUEUE_LOG2SZ_MASK.
Definition fq_count (v : VartRiscvIommu) : Z :=
  (iommu_fqt v - iommu_fqh v) mod fq_entries v.
Definition fq_slot (v : VartRiscvIommu) : Z :=
  4096 * ppn_field 40 (iommu_fqb v) + 32 * (iommu_fqt v mod fq_entries v).

Definition set_fqcsr (w : World) (i : ptr) (v : VartRiscvIommu) (flag : Z) : World :=
  w <| w_iommus ::= <[i := v <| iommu_fqcsr ::= (fun x => Z.lor x flag) |>]> |>.

Lemma ring_full n h t :
  0 < n -> (((t mod n + 1) mod n =? h mod n) = true <-> (t - h) mod n = n - 1).
Proof.
  intros Hn. pose proof (Z.mod_pos_bound h n Hn). pose proof (Z.mod_pos_bound t n Hn).
  rewrite Zminus_mod. set (a := t mod n) in *. set (b := h mod n) in *.
  rewrite Z.eqb_eq.
  assert ((a + 1) mod n = if decide (a + 1 = n) then 0 else a + 1) as ->.
  { case_decide as Hd; [rewrite Hd; apply Z.mod_same|apply Z.mod_small]; lia. }
  assert ((a - b) mod n = if decide (b <= a) then a - b else a - b + n) as ->.
  { case_decide; [apply Z.mod_small; lia|].
    rewrite <- (Z.mod_add _ 1), Z.mul_1_l by lia. apply Z.mod_small. lia. }
  repeat case_decide; lia.
Qed.

(** A whole-buffer write to a plain space either lands in RAM or changes
    nothing. *)
Lemma plain_write_cases `{TranslateCallbacks} fuel w s address data :
  heap_ok w -> ram_backed w -> plain_space w s -> u64_ok address ->
  0 < Z.of_nat (length data) <= UINT64_MAX ->
  exists err w',
    vart_address_space_write_buffer (S fuel) s address (Some data)
      (Z.of_nat (length data)) w = Ok (err, w') /\
    ((err = 0 /\ exists host h', ram_target w s address (Z.of_nat (length data)) host /\
        mem_write (w_host w) host data = Some h' /\ w' = w <| w_host := h' |>) \/
     (err < 0 /\ w' = w /\
        forall host, ~ ram_target w s address (Z.of_nat (length data)) host)).
Proof.
  intros [Hh _] Hr (sp & Hsp & Htr) Ha Hl.
  pose proof (plain_access w s sp address data (Z.of_nat (length data)) true fuel Hh Hr
    Hsp Htr Ha Hl ltac:(lia)) as ([err buf] & w' & E & Ho)%wp_ok.
  unfold vart_address_space_write_buffer. rewrite (bind_eq _ _ _ _ _ E).
  exists err, w'. split; [done|].
  destruct Ho as [(-> & host & Ht & h' & Hm & -> & _)|[(-> & Hno & -> & _)|(-> & -> & _ & Hno)]].
  - left. split; [done|]. exists host, h'. rewrite Nat2Z.id, take_ge in Hm by lia. done.
  - right. split_and!; [lia|done|]. intros host (r & v & h & Hres & _).
    pose proof (resolves_unique w s address _ _ _ Hh Ha Hl Hno Hres). done.
  - right. split_and!; [lia|done|]. intros host (r & v & h & Hres & Hv & Hty & Hra & _).
    destruct Hno as (r' & v' & Hres' & Hv' & Hbad).
    pose proof (resolves_unique w s address _ _ _ Hh Ha Hl Hres Hres'). simplify_eq.
    destruct Hbad; congruence.
Qed.

(** A fault is recorded in the next free slot of the fault queue, or its
    loss is flagged: with the queue on, a full queue only gets the overflow bit
    (no unread record is overwritten); otherwise the 32-byte record is written
    at the tail's slot and the tail moves one slot on, or, when the slot is not
    RAM, only the memory-fault bit is set. *)
Theorem fault_enqueue_correct `{FaultCallbacks} fuel w i s c v ctx address size write error :
  w_iommus w !! i = Some v -> iommu_address_space v = Some s ->
  heap_ok w -> ram_backed w -> plain_space w s -> w_contexts w !! c = Some ctx ->
  bits (iommu_fqcsr v) FQCSR_FQON = true -> queue_size_invalid (iommu_fqb v) = false ->
  exists err w',
    iommu_enqueue_fault (S fuel) i (Some c) address size write error w = Ok (err, w') /\
    if fq_count v =? fq_entries v - 1
    then err = -ENOSPC /\ w' = set_fqcsr w i v FQCSR_FQOF
    else
      (err = 0 /\ exists host h', ram_target w s (fq_slot v) 32 host /\
         mem_write (w_host w) host
           (fault_record (ctx_requester_id ctx) address size write error) = Some h' /\
         w' = w <| w_host := h' |> <| w_iommus ::= <[i :=
           v <| iommu_fqt := (iommu_fqt v mod fq_entries v + 1) mod fq_entries v |>]> |>) \/
      (err = -EFAULT /\ w' = set_fqcsr w i v FQCSR_FQMF /\
         forall host, ~ ram_target w s (fq_slot v) 32 host).
Proof.
  intros Hi Hs Hh Hr Hpl Hc Hon Hsz. unfold iommu_enqueue_fault.
  rewrite (bind_eq _ _ _ _ _ (load_iommu_eq w i v Hi)), Hon. cbn [negb].
  fold (queue_size_invalid (iommu_fqb v)). rewrite Hsz.
  assert (0 < Z.land (iommu_fqb v) QUEUE_LOG2SZ_MASK <= 13) as Hlog.
  { unfold queue_size_invalid in Hsz. pose proof (land_nonneg_le (iommu_fqb v) 31). lia. }
  rewrite (Z.shiftl_mul_pow2 1), Z.mul_1_l by lia. rewrite !land_low_mask by lia.
  fold (fq_entries v). set (n := fq_entries v).
  assert (2 <= n <= 2 ^ 13) as Hn.
  { unfold n, fq_entries. set (k := Z.land _ _) in *.
    pose proof (Z.pow_le_mono_r 2 k 13). pose proof (Z.pow_le_mono_r 2 1 k). lia. }
  pose proof (ring_full n (iommu_fqh v) (iommu_fqt v) ltac:(lia)) as Hfull.
  fold (fq_count v) in Hfull.
  assert (forall flag (err : Z), (update_iommu i (fun v => v <| iommu_fqcsr ::=
    (fun x => Z.lor x flag) |>) ;;; ret err) w = Ok (err, set_fqcsr w i v flag)) as Hfail
    by (intros; by rewrite (bind_eq _ _ _ _ _ (update_iommu_eq i v _ w Hi))).
  destruct (_ =? _) eqn:Hf.
  { rewrite Hfail. eexists _, _. split; [done|].
    destruct (Z.eqb_spec (fq_count v) (n - 1)); [done|]. exfalso. naive_solver. }
  assert ((fq_count v =? n - 1) = false) as -> by (apply Z.eqb_neq; naive_solver).
  change QUEUE_PPN_MASK with DDTP_PPN_MASK. rewrite ppn_base_eq.
  pose proof (kept_ppn_range (iommu_fqb v)) as Hp.
  pose proof (Z.mod_pos_bound (iommu_fqt v) n ltac:(lia)) as Ht.
  destruct (Z.ltb_spec ((UINT64_MAX - 4096 * ppn_field 40 (iommu_fqb v) - FQ_RECORD_SIZE) / FQ_RECORD_SIZE)
    (iommu_fqt v mod n)) as [Hov|_].
  { exfalso. assert (2 ^ 13 <= (UINT64_MAX - 4096 * ppn_field 40 (iommu_fqb v) - 32) / 32); [|lia].
    apply Z.div_le_lower_bound; lia. }
  assert ((let* ctx := load_context c in ret (ctx_requester_id ctx)) w =
    Ok (ctx_requester_id ctx, w)) as Hid
    by (by rewrite (bind_eq _ _ _ _ _ (load_context_eq w c ctx Hc))).
  rewrite (bind_eq _ _ _ _ _ Hid), Hs. rewrite (bind_eq (deref (Some s)) _ w s w) by done.
  set (record := fault_record _ _ _ _ _).
  assert (length record = 32%nat) as Hrec
    by (unfold record, fault_record; by rewrite !length_app, !store_le_length).
  replace (4096 * ppn_field 40 (iommu_fqb v) + iommu_fqt v mod n * FQ_RECORD_SIZE) with (fq_slot v)
    by (unfold fq_slot; fold n; lia).
  assert (u64_ok (fq_slot v)) as Hslot by (unfold u64_ok, fq_slot; fold n; lia).
  change FQ_RECORD_SIZE with (Z.of_nat 32). rewrite <- Hrec.
  destruct (plain_write_cases fuel w s (fq_slot v) record Hh Hr Hpl Hslot ltac:(lia))
    as (err & w' & E & [(-> & host & h' & Htgt & Hm & ->)|(Herr & -> & Hno)]);
    rewrite (bind_eq _ _ _ _ _ E); rewrite Hrec in *.
  - cbn [Z.ltb Z.compare]. set (w1 := w <| w_host := h' |>).
    assert (w_iommus w1 !! i = Some v) as Hi1 by done.
    rewrite (bind_eq _ _ _ _ _ (update_iommu_eq i v _ w1 Hi1)).
    eexists _, _. split; [done|]. left. split; [done|]. by exists host, h'.
  - destruct (Z.ltb_spec err 0); [|lia]. rewrite Hfail. eexists _, _. split; [done|].
    by right.
Qed.

(** A fault record decodes to what happened: the 32 bytes written to the
    fault queue hold, as the guest reads them, the cause of a read or write
    fault, the requester id of the device, the faulting address, and the error
    with the low 32 bits of the size. *)
Theorem fault_record_fields rid address size write error :
  0 <= rid <= UINT16_MAX -> u64_ok address ->
  let record := fault_record rid address size write error in
  length record = 32%nat /\
  load_le (take 8 record) = (if write then 7 else 5) + 2 ^ 40 * rid /\
  load_le (take 8 (drop 16 record)) = address /\
  load_le (take 8 (drop 24 record)) = u32 (- error) + 2 ^ 32 * u32 size.
Proof.
  intros Hrid Ha record. subst record. unfold fault_record.
  set (d0 := Z.lor _ _). set (d3 := Z.lor (u32 _) _).
  assert (d0 = (if write then 7 else 5) + 2 ^ 40 * rid) as H0.
  { subst d0. apply lor_shiftl_add; [lia|]. destruct write; lia. }
  assert (d3 = u32 (- error) + 2 ^ 32 * u32 size) as H3.
  { subst d3. rewrite Z.shiftl_mul_pow2 by lia.
    assert (u64 (size * 2 ^ 32) = Z.shiftl (u32 size) 32) as ->.
    { rewrite Z.shiftl_mul_pow2 by lia. unfold u64, u32.
      change 18446744073709551616 with (4294967296 * 2 ^ 32). by rewrite Z.mul_mod_distr_r. }
    apply lor_shiftl_add; [lia|]. pose proof (u32_range (- error)). lia. }
  pose proof (store_le_length 8) as Hl. pose proof (u32_range (- error)).
  pose proof (u32_range size).
  split_and!.
  - by rewrite !length_app, !Hl.
  - rewrite (take_app_length' _ _ _ (eq_sym (Hl _))). rewrite load_store_le64; [done|].
    destruct write; lia.
  - rewrite app_assoc, drop_app_length' by (by rewrite length_app, Hl).
    rewrite (take_app_length' _ _ _ (eq_sym (Hl _))). by apply load_store_le64.
  - rewrite !app_assoc, drop_app_length' by (by rewrite !length_app, !Hl).
    rewrite take_ge by (by rewrite Hl). rewrite load_store_le64; [done|]. lia.
Qed.

(** * Reset *)

Lemma reset_contexts_eq l w :
  Forall (fun b => exists ctx, w_contexts w !! bind_context b = Some ctx /\
    is_Some (ctx_downstream ctx)) l ->
  exists cs, reset_contexts l w = Ok (tt, w <| w_contexts := cs |>) /\
    (forall c ctx, w_contexts w !! c = Some ctx -> is_Some (ctx_downstream ctx) ->
       exists ctx', cs !! c = Some ctx' /\ is_Some (ctx_downstream ctx') /\
         (ctx_mode ctx = VART_IOMMU_CONTEXT_FAULT -> ctx_mode ctx' = VART_IOMMU_CONTEXT_FAULT)) /\
    Forall (fun b => exists ctx, cs !! bind_context b = Some ctx /\
      ctx_mode ctx = VART_IOMMU_CONTEXT_FAULT) l.
Proof.
  revert w. induction l as [|b l IH]; intros w Hall.
  { exists (w_contexts w). split_and!; [by destruct w|eauto|constructor]. }
  apply Forall_cons in Hall as [(ctx & Hc & Hd) Hall]. cbn [reset_contexts].
  rewrite (bind_eq _ _ _ _ _ (set_mode_correct _ ctx w MODE_FAULT _ Hc Hd eq_refl eq_refl)).
  set (w1 := w <| w_contexts ::= _ |>).
  assert (forall c0 ctx0, w_contexts w !! c0 = Some ctx0 -> is_Some (ctx_downstream ctx0) ->
    exists ctx1, w_contexts w1 !! c0 = Some ctx1 /\ is_Some (ctx_downstream ctx1) /\
      (ctx_mode ctx0 = VART_IOMMU_CONTEXT_FAULT \/ c0 = bind_context b ->
       ctx_mode ctx1 = VART_IOMMU_CONTEXT_FAULT)) as Hstep.
  { intros c0 ctx0 H0 Hd0. cbn. destruct (decide (c0 = bind_context b)) as [->|Hne].
    - rewrite lookup_insert_eq. simplify_eq. by eexists.
    - rewrite lookup_insert_ne by done. exists ctx0. naive_solver. }
  destruct (IH w1) as (cs & E & Hkeep & Hf).
  { eapply Forall_impl; [exact Hall|]. intros b0 (ctx0 & H0 & Hd0).
    destruct (Hstep _ _ H0 Hd0) as (ctx1 & ? & ? & _). eauto. }
  exists cs. split_and!; [done| |constructor; [|done]].
  - intros c0 ctx0 H0 Hd0. destruct (Hstep _ _ H0 Hd0) as (ctx1 & H1 & Hd1 & Hm).
    destruct (Hkeep _ _ H1 Hd1) as (ctx2 & H2 & Hd2 & Hm2). exists ctx2. naive_solver.
  - destruct (Hstep _ _ Hc Hd) as (ctx1 & H1 & Hd1 & Hm).
    destruct (Hkeep _ _ H1 Hd1) as (ctx2 & H2 & _ & Hm2). exists ctx2. naive_solver.
Qed.

Lemma fault_mode_blocks access c ctx w address size write :
  w_contexts w !! c = Some ctx -> ctx_mode ctx = VART_IOMMU_CONTEXT_FAULT ->
  translate_locked access c address size write w = Ok ((-EACCES, None, 0), w).
Proof.
  intros Hc Hm. unfold translate_locked.
  by rewrite (bind_eq _ _ _ _ _ (load_context_eq w c ctx Hc)), Hm.
Qed.

(** Reset isolates every device: it clears the register file, keeps the
    bindings, and leaves every bound context (or the default context when
    nothing is bound) in the fault mode, in which every translation is refused
    with EACCES before any page table is read. *)
Theorem reset_isolates w i v :
  w_iommus w !! i = Some v -> iommu_lock_initialized v = true ->
  Forall (fun b => exists ctx, w_contexts w !! bind_context b = Some ctx /\
    is_Some (ctx_downstream ctx)) (iommu_bindings v) ->
  (forall c, iommu_context v = Some c -> exists ctx, w_contexts w !! c = Some ctx /\
    is_Some (ctx_downstream ctx)) ->
  exists w', vart_riscv_iommu_reset (Some i) w = Ok (0, w') /\
    w_iommus w' !! i = Some (reset_registers v) /\
    forall c, (c ∈ map bind_context (iommu_bindings v) \/
               (iommu_bindings v = [] /\ iommu_context v = Some c)) ->
      forall access address size write,
        translate_locked access c address size write w' = Ok ((-EACCES, None, 0), w').
Proof.
  intros Hi Hlock Hall Hdef. unfold vart_riscv_iommu_reset.
  rewrite (bind_eq _ _ _ _ _ (load_iommu_eq w i v Hi)), Hlock. cbn [negb].
  set (w1 := w <| w_iommus ::= <[i := reset_registers v]> |>).
  rewrite (bind_eq (store_iommu i (reset_registers v)) _ w tt w1) by done.
  assert (w_iommus w1 !! i = Some (reset_registers v)) as Hi1 by apply lookup_insert_eq.
  destruct (reset_contexts_eq (iommu_bindings v) w1 Hall) as (cs & E & _ & Hf).
  rewrite (bind_eq _ _ _ _ _ E). set (w2 := w1 <| w_contexts := cs |>) in *.
  destruct (iommu_bindings v) as [|b l] eqn:Hb.
  - assert (w2 = w1) as -> by (cbn [reset_contexts] in E; unfold ret in E; congruence).
    destruct (iommu_context v) as [c|] eqn:Hc.
    + destruct (Hdef c eq_refl) as (ctx & Hctx & Hd).
      rewrite (bind_eq _ _ _ _ _
        (set_mode_correct c ctx w1 MODE_FAULT _ Hctx Hd eq_refl eq_refl)).
      eexists. split; [done|]. split; [done|].
      intros c' [Hin|[_ [= <-]]]; [by apply not_elem_of_nil in Hin|].
      intros. eapply fault_mode_blocks; [cbn; apply lookup_insert_eq|done].
    + exists w1. split_and!; [done|done|].
      intros c' [Hin|[_ [=]]]. by apply not_elem_of_nil in Hin.
  - exists w2. split_and!; [done|done|]. intros c [Hin|[? _]]; [|done].
    apply list_elem_of_fmap in Hin as (b' & -> & Hb'). rewrite Forall_forall in Hf.
    destruct (Hf b' Hb') as (ctx & Hctx & Hm). intros. by eapply fault_mode_blocks.
Qed.

(** * Bindings *)

(** [w'] differs from [w] at most in context [c] and in what a function's
    record holds besides its requester id. *)
Record context_step (c : ptr) (w w' : World) : Prop := {
  cs_iommus : w_iommus w' = w_iommus w;
  cs_others : forall c', c' <> c -> w_contexts w' !! c' = w_contexts w !! c';
  cs_ids : forall d, pci_requester_id <$> w_devices w' !! d =
                     pci_requester_id <$> w_devices w !! d;
}.
#[export] Instance context_step_preorder c : PreOrder (context_step c).
Proof.
  split; [by split|]. intros w w1 w2 [H1 H2 H3] [H4 H5 H6]. split.
  - by rewrite H4.
  - intros c' Hc'. by rewrite H5, H2.
  - intros d. by rewrite H6, H3.
Qed.

Lemma store_device_ids (devs : gmap ptr VartPciDevice) d dev dev' d' :
  devs !! d = Some dev -> pci_requester_id dev' = pci_requester_id dev ->
  pci_requester_id <$> <[d := dev']> devs !! d' = pci_requester_id <$> devs !! d'.
Proof.
  intros Hd He. destruct (decide (d' = d)) as [->|].
  - rewrite lookup_insert_eq, Hd. cbn. by rewrite He.
  - by rewrite lookup_insert_ne.
Qed.

Lemma attach_step c d w err w' :
  vart_iommu_context_attach (Some c) (Some d) w = Ok (err, w') ->
  context_step c w w' /\
  (err = 0 -> exists ctx, w_contexts w' !! c = Some ctx /\ ctx_attached_device ctx = Some d).
Proof.
  unfold vart_iommu_context_attach. intros E.
  apply bind_Ok in E as (ctx & w0 & [Hc ->]%load_context_Ok & E).
  destruct (ctx_attached_device ctx); [injection E as <- <-; by split|].
  apply bind_Ok in E as (dev & w0 & [Hd ->]%load_device_Ok & E).
  destruct (dev_realized (pci_parent dev)) eqn:Hr; [injection E as <- <-; by split|].
  unfold vart_pci_device_set_dma_as, vart_pci_device_requester_id, load_device, load_context,
    store_context, store_device in E. revert E. run_unfold. cbn. rewrite Hd, Hr. cbn.
  repeat (rewrite lookup_insert_eq; cbn). intros [= <- <-]. split; [split|].
  - done.
  - intros c' Hne. cbn. by rewrite insert_insert_eq, lookup_insert_ne.
  - intros d'. cbn. by eapply store_device_ids.
  - intros _. cbn. rewrite lookup_insert_eq. by eexists.
Qed.

Lemma detach_step c d w err w' :
  vart_iommu_context_detach (Some c) (Some d) w = Ok (err, w') ->
  context_step c w w' /\ (err <> 0 -> w' = w).
Proof.
  unfold vart_iommu_context_detach. intros E.
  apply bind_Ok in E as (ctx & w0 & [Hc ->]%load_context_Ok & E).
  destruct (negb _); [by injection E as <- <-|].
  apply bind_Ok in E as (dev & w0 & [Hd ->]%load_device_Ok & E).
  destruct (dev_realized (pci_parent dev)) eqn:Hr; [by injection E as <- <-|].
  injection E as <- <-. split; [|done]. split; [done| |].
  - intros c' Hne. cbn. by rewrite lookup_insert_ne.
  - intros d'. cbn. by eapply store_device_ids.
Qed.

Lemma set_fault_handler_step c f o w err w' :
  vart_iommu_context_set_fault_handler (Some c) f o w = Ok (err, w') ->
  context_step c w w' /\
  (err = 0 -> exists ctx, w_contexts w !! c = Some ctx /\
     w_contexts w' !! c = Some (ctx <| ctx_fault_handler := f |> <| ctx_fault_opaque := o |>)).
Proof.
  unfold vart_iommu_context_set_fault_handler. intros E.
  apply bind_Ok in E as (ctx & w0 & [Hc ->]%load_context_Ok & E).
  destruct (negb _); [injection E as <- <-; by split|].
  injection E as <- <-. split; [split|].
  - done.
  - intros c' Hne. cbn. by rewrite lookup_insert_ne.
  - done.
  - intros _. exists ctx. split; [done|]. cbn. by rewrite lookup_insert_eq.
Qed.

Lemma set_remapper_step c d f o w err w' :
  set_remapper_if_configured d f o w = Ok (err, w') ->
  context_step c w w' /\ w_contexts w' = w_contexts w.
Proof.
  unfold set_remapper_if_configured. intros E.
  apply bind_Ok in E as (dev & w0 & [Hd ->]%load_device_Ok & E).
  destruct (msix_configured _) eqn:Hcfg; [|injection E as <- <-; by split].
  unfold vart_pci_device_set_msix_remapper, load_msix, store_msix, load_device, store_device in E.
  revert E. run_unfold. rewrite Hd. cbn. rewrite Hcfg. cbn. rewrite Hd. cbn.
  intros [= <- <-]. split; [|done]. split; [done..|].
  intros d'. cbn. by eapply store_device_ids.
Qed.

(** The context of a binding is attached to its device and reports to [i]. *)
Definition wired (w : World) (i : ptr) (b : VartRiscvIommuBinding) : Prop :=
  exists ctx, w_contexts w !! bind_context b = Some ctx /\
    ctx_attached_device ctx = Some (bind_device b) /\
    ctx_fault_handler ctx = Some fn_iommu_fault_handler /\ ctx_fault_opaque ctx = Some i.

(** Two bindings share neither device, context nor requester id. *)
Definition separate (w : World) (b b' : VartRiscvIommuBinding) : Prop :=
  bind_device b <> bind_device b' /\ bind_context b <> bind_context b' /\
  (pci_requester_id <$> w_devices w !! bind_device b) <>
  (pci_requester_id <$> w_devices w !! bind_device b').

(** Distinct elements of a list without duplicates are related. *)
Definition pairwise {A} (R : A -> A -> Prop) (l : list A) : Prop :=
  NoDup l /\ forall x y, x ∈ l -> y ∈ l -> x <> y -> R x y.

Lemma pairwise_perm {A} (R : A -> A -> Prop) l l' : l ≡ₚ l' -> pairwise R l -> pairwise R l'.
Proof.
  intros Hp [Hn HR]. split; [by rewrite <- Hp|]. intros x y. rewrite <- !Hp. apply HR.
Qed.

Lemma pairwise_cons {A} (R : A -> A -> Prop) `{!Symmetric R} `{!Irreflexive R} x l :
  pairwise R (x :: l) <-> Forall (R x) l /\ pairwise R l.
Proof.
  unfold pairwise. rewrite NoDup_cons, Forall_forall. split.
  - intros ((Hx & Hn) & HR). split_and!; [|done|].
    + intros y Hy. apply HR; [left|by right|]. by intros ->.
    + intros y z Hy Hz. apply HR; by right.
  - intros (Hx & Hn & HR). split_and!; [|done|].
    + intros Hin. by apply (irreflexivity R x), Hx.
    + intros y z [->|Hy]%elem_of_cons [->|Hz]%elem_of_cons Hne; try done.
      * by apply Hx.
      * by symmetry; apply Hx.
      * by apply HR.
Qed.

#[export] Instance separate_symmetric w : Symmetric (separate w).
Proof. intros b b' (? & ? & ?). split_and!; congruence. Qed.
#[export] Instance separate_irreflexive w : Irreflexive (separate w).
Proof. intros b (? & _). done. Qed.

Record bindings_ok (w : World) (i : ptr) (l : list VartRiscvIommuBinding) : Prop := {
  bo_count : (length l <= 32)%nat;
  bo_wired : Forall (wired w i) l;
  bo_separate : pairwise (separate w) l;
}.

Lemma bindings_frame w w' i l :
  bindings_ok w i l ->
  Forall (fun b => w_contexts w' !! bind_context b = w_contexts w !! bind_context b) l ->
  (forall d, pci_requester_id <$> w_devices w' !! d = pci_requester_id <$> w_devices w !! d) ->
  bindings_ok w' i l.
Proof.
  intros [H1 H2 [H3 H4]] Hc Hd. split; [done| |].
  - eapply Forall_impl; [apply (proj2 (Forall_and _ _) (conj H2 Hc))|].
    intros b [(ctx & Hctx & Hr) He]. exists ctx. by rewrite He.
  - split; [done|]. intros b b' Hb Hb' Hne. unfold separate. rewrite !Hd. by apply H4.
Qed.

Lemma conflict_loop_spec w l d c b w' :
  binding_conflict_loop l d c w = Ok (b, w') ->
  w' = w /\ (b = false -> Forall (separate w (mkBinding d c)) l).
Proof.
  revert b w'. induction l as [|x l IH]; intros b w' E; cbn [binding_conflict_loop] in E.
  { injection E as <- <-. split; [done|constructor]. }
  destruct (_ || _) eqn:Hor; [by injection E as <- <-|].
  apply orb_false_elim in Hor as [H1%bool_decide_eq_false H2%bool_decide_eq_false].
  apply bind_Ok in E as (o & w0 & [Ho ->]%load_device_Ok & E).
  apply bind_Ok in E as (dev & w0 & [Hd ->]%load_device_Ok & E).
  destruct (Z.eqb_spec (pci_requester_id o) (pci_requester_id dev)); [by injection E as <- <-|].
  destruct (IH _ _ E) as [-> Hl]. split; [done|]. intros Hb. constructor; [|auto].
  unfold separate. cbn. rewrite Hd, Ho. cbn. split_and!; congruence.
Qed.

Lemma separate_contexts w c d l :
  Forall (separate w (mkBinding d c)) l -> Forall (fun b => bind_context b <> c) l.
Proof. intros H. eapply Forall_impl; [exact H|]. intros b (_ & Hc & _). cbn in Hc. congruence. Qed.

(** The bindings of [i] survive a step on a context that is none of theirs. *)
Lemma bindings_context_step w w' i l c :
  bindings_ok w i l -> Forall (fun b => bind_context b <> c) l -> context_step c w w' ->
  bindings_ok w' i l.
Proof.
  intros Hok Hc [_ Ho Hd]. eapply bindings_frame; [done| |done].
  eapply Forall_impl; [exact Hc|]. intros b Hne. by apply Ho.
Qed.

(** The set-up part of a bind: what it leaves behind when it succeeds. *)
Lemma bind_setup i d c w err1 w1 err2 w2 err3 w3 :
  vart_iommu_context_attach (Some c) (Some d) w = Ok (err1, w1) ->
  (if err1 =? 0 then vart_iommu_context_set_fault_handler (Some c)
     (Some fn_iommu_fault_handler) (Some i) else ret err1) w1 = Ok (err2, w2) ->
  (if err2 =? 0 then set_remapper_if_configured d (Some fn_iommu_remap_msi) (Some i)
   else ret err2) w2 = Ok (err3, w3) ->
  context_step c w w3 /\ (err3 = 0 -> wired w3 i (mkBinding d c)).
Proof.
  intros [Hs1 Ha]%attach_step E2 E3.
  destruct (Z.eqb_spec err1 0) as [->|Hne1].
  - apply set_fault_handler_step in E2 as [Hs2 Hf].
    destruct (Z.eqb_spec err2 0) as [->|Hne2].
    + apply (set_remapper_step c) in E3 as [Hs3 Hcs].
      split; [by etrans; [|etrans]|]. intros _.
      destruct (Ha eq_refl) as (ctx & Hctx & Hatt).
      destruct (Hf eq_refl) as (ctx' & Hctx' & Hnew). simplify_eq.
      eexists. rewrite Hcs. by split.
    + injection E3 as <- <-. split; [by etrans|done].
  - injection E2 as <- <-. destruct (Z.eqb_spec err1 0); [done|].
    injection E3 as <- <-. by split.
Qed.

Lemma bind_ok i d c w v err w' :
  w_iommus w !! i = Some v -> bindings_ok w i (iommu_bindings v) ->
  vart_riscv_iommu_bind_device (Some i) (Some d) (Some c) w = Ok (err, w') ->
  exists v', w_iommus w' !! i = Some v' /\ bindings_ok w' i (iommu_bindings v') /\
    (err = 0 -> iommu_bindings v' = iommu_bindings v ++ [mkBinding d c]) /\
    (err <> 0 -> iommu_bindings v' = iommu_bindings v).
Proof.
  intros Hi Hok. unfold vart_riscv_iommu_bind_device.
  rewrite (bind_eq _ _ _ _ _ (load_iommu_eq w i v Hi)).
  destruct (_ || _) eqn:Hg; [intros [= <- <-]; by exists v|].
  apply orb_false_elim in Hg as [_ Hcount].
  intros E. apply bind_Ok in E as (conf & w0 & Ec & E).
  apply conflict_loop_spec in Ec as [-> Hsep].
  destruct conf; [injection E as <- <-; by exists v|]. specialize (Hsep eq_refl).
  pose proof (separate_contexts w c d _ Hsep) as Hne.
  apply bind_Ok in E as (err1 & w1 & E1 & E). apply bind_Ok in E as (err2 & w2 & E2 & E).
  apply bind_Ok in E as (err3 & w3 & E3 & E).
  destruct (bind_setup i d c w err1 w1 err2 w2 err3 w3 E1 E2 E3) as [Hs3 Hw3].
  pose proof (bindings_context_step w w3 i _ c Hok Hne Hs3) as Hok3.
  assert (w_iommus w3 !! i = Some v) as Hi3 by (by rewrite (cs_iommus _ _ _ Hs3)).
  destruct (Z.eqb_spec err3 0) as [->|Herr].
  - rewrite (bind_eq _ _ _ _ _ (update_iommu_eq i v _ w3 Hi3)) in E. injection E as <- <-.
    eexists. cbn. rewrite lookup_insert_eq. split_and!; [done| |done|done]. cbn.
    destruct Hok3 as [Hl Hwired Hpair]. split.
    + rewrite length_app. cbn. lia.
    + apply Forall_app. split; [done|]. constructor; [by apply Hw3|constructor].
    + eapply pairwise_perm; [apply Permutation_app_comm|]. cbn.
      apply pairwise_cons; [apply _..|]. split; [|done].
      eapply Forall_impl; [exact Hsep|]. intros b (? & ? & Hid). split_and!; [done..|].
      by rewrite <- !(cs_ids _ _ _ Hs3) in Hid.
  - apply bind_Ok in E as (ctx & w4 & [Hctx ->]%load_context_Ok & E).
    apply bind_Ok in E as ([] & w4 & E4 & E). injection E as <- <-.
    assert (context_step c w3 w4) as Hs4.
    { case_bool_decide; [|injection E4 as <-; done].
      apply bind_Ok in E4 as (? & w5 & E5 & E4). apply (set_remapper_step c) in E5 as [Hs5 _].
      apply bind_Ok in E4 as (? & w6 & E6 & E4). apply set_fault_handler_step in E6 as [Hs6 _].
      apply bind_Ok in E4 as (? & w7 & E7 & E4). apply detach_step in E7 as [Hs7 _].
      injection E4 as <-. by etrans; [|etrans]. }
    exists v. rewrite (cs_iommus _ _ _ Hs4). split_and!; try done.
    by eapply bindings_context_step.
Qed.

Lemma binding_index_spec l d k :
  match binding_index l d k with
  | None => Forall (fun b => bind_device b <> d) l
  | Some (j, b) => (k <= j)%nat /\ l !! (j - k)%nat = Some b /\ bind_device b = d
  end.
Proof.
  revert k. induction l as [|b l IH]; intros k; cbn [binding_index]; [constructor|].
  case_bool_decide as Hb.
  - by rewrite Nat.sub_diag.
  - specialize (IH (S k)). destruct (binding_index _ _ _) as [[j b']|].
    + destruct IH as (Hj & Hlk & Hd). split_and!; [lia| |done].
      by replace (j - k)%nat with (S (j - S k)) by lia.
    + by constructor.
Qed.

Lemma unbind_ok i d w v err w' :
  w_iommus w !! i = Some v -> bindings_ok w i (iommu_bindings v) ->
  vart_riscv_iommu_unbind_device (Some i) (Some d) w = Ok (err, w') ->
  exists v', w_iommus w' !! i = Some v' /\ bindings_ok w' i (iommu_bindings v').
Proof.
  intros Hi Hok. unfold vart_riscv_iommu_unbind_device.
  rewrite (bind_eq _ _ _ _ _ (load_iommu_eq w i v Hi)).
  destruct (negb _); [intros [= <- <-]; by exists v|].
  pose proof (binding_index_spec (iommu_bindings v) d 0) as Hidx.
  destruct (binding_index _ _ _) as [[j b]|]; [|intros [= <- <-]; by exists v].
  destruct Hidx as (_ & Hj & _). rewrite Nat.sub_0_r in Hj.
  pose proof (swap_remove_perm _ _ _ Hj) as Hp. set (rest := swap_remove j _) in *.
  intros E. apply bind_Ok in E as (err1 & w1 & E1 & E).
  apply bind_Ok in E as ([] & w2 & E2 & E). injection E as <- <-.
  destruct (Z.eqb_spec err1 0) as [->|Hne].
  2: { injection E2 as <-. apply detach_step in E1 as [_ Hsame]. rewrite Hsame by done.
       by exists v. }
  apply bind_Ok in E2 as (e3 & w3 & E3 & E2). apply bind_Ok in E2 as (e4 & w4 & E4 & E2).
  apply detach_step in E1 as [Hs1 _]. apply (set_remapper_step (bind_context b)) in E3 as [Hs3 _].
  apply set_fault_handler_step in E4 as [Hs4 _].
  assert (context_step (bind_context b) w w4) as Hs by (by etrans; [|etrans]).
  assert (w_iommus w4 !! i = Some v) as Hi4 by (by rewrite (cs_iommus _ _ _ Hs)).
  rewrite (update_iommu_eq i v _ w4 Hi4) in E2. injection E2 as <-.
  eexists. cbn. rewrite lookup_insert_eq. split; [done|]. cbn. fold rest.
  destruct Hok as [Hl Hw Hpair]. rewrite Hp in Hw. apply Forall_cons in Hw as [_ Hw].
  apply (pairwise_perm _ _ _ Hp), pairwise_cons in Hpair as [Hsep Hpair]; [|apply _..].
  assert (bindings_ok w i rest) as Hrest.
  { split; [|done|done]. apply Permutation_length in Hp. cbn in Hp. lia. }
  destruct (bindings_context_step w w4 i rest (bind_context b) Hrest); [|done|].
  { by apply (separate_contexts w (bind_context b) (bind_device b)); destruct b. }
  by split.
Qed.

(** A bound function that is realized is not unbound, and its context is not destroyed: the
    binding and the context stay as they are.  [vart_virt_machine_destroy] makes these two
    calls before it unrealizes the function. *)
Lemma realized_stays_bound i w v b dev :
  w_iommus w !! i = Some v -> iommu_lock_initialized v = true ->
  bindings_ok w i (iommu_bindings v) -> b ∈ iommu_bindings v ->
  w_devices w !! bind_device b = Some dev -> dev_realized (pci_parent dev) = true ->
  vart_riscv_iommu_unbind_device (Some i) (Some (bind_device b)) w = Ok (-EINVAL, w) /\
  vart_iommu_context_destroy (Some (bind_context b)) w = Ok (tt, w).
Proof.
  intros Hi Hlock [_ Hw _] Hb Hd Hreal. rewrite Forall_forall in Hw.
  destruct (Hw b Hb) as (ctx & Hctx & Hatt & _). split.
  - unfold vart_riscv_iommu_unbind_device. rewrite (bind_eq _ _ _ _ _ (load_iommu_eq w i v Hi)).
    rewrite Hlock. cbn [negb]. pose proof (binding_index_spec (iommu_bindings v) (bind_device b) 0) as Hx.
    destruct (binding_index _ _ _) as [[j b']|].
    2: { rewrite Forall_forall in Hx. by destruct (Hx b Hb). }
    destruct Hx as (_ & Hj & Hb'). apply list_elem_of_lookup_2 in Hj.
    destruct (Hw b' Hj) as (ctx' & Hctx' & Hatt' & _). unfold vart_iommu_context_detach, bind at 1 2.
    rewrite (load_context_eq w _ ctx' Hctx'), Hatt', Hb', bool_decide_true by done. cbn [negb].
    assert (load_device (bind_device b) w = Ok (dev, w)) as El.
    { unfold load_device, bind, get. by rewrite Hd. }
    by rewrite (bind_eq _ _ _ _ _ El), Hreal.
  - unfold vart_iommu_context_destroy. rewrite (bind_eq _ _ _ _ _ (load_context_eq w _ ctx Hctx)).
    by rewrite Hatt.
Qed.

(** Binding and unbinding functions of the IOMMU [i]. *)
Inductive binding_step (i : ptr) (w w' : World) : Prop :=
| binding_step_bind d c err :
    vart_riscv_iommu_bind_device (Some i) (Some d) (Some c) w = Ok (err, w') ->
    binding_step i w w'
| binding_step_unbind d err :
    vart_riscv_iommu_unbind_device (Some i) (Some d) w = Ok (err, w') ->
    binding_step i w w'.

(** The bindings stay consistent: however functions are bound and unbound,
    errors and roll-backs included, there are at most 32 bindings, two bindings
    share neither function, context nor requester id, and the context of each
    is attached to its function and reports its faults to this IOMMU. *)
Theorem bindings_consistent i w0 v0 w :
  w_iommus w0 !! i = Some v0 -> iommu_bindings v0 = [] ->
  rtc (binding_step i) w0 w ->
  exists v, w_iommus w !! i = Some v /\ bindings_ok w i (iommu_bindings v).
Proof.
  intros Hi He Hsteps.
  assert (exists v, w_iommus w0 !! i = Some v /\ bindings_ok w0 i (iommu_bindings v)) as H0.
  { exists v0. rewrite He. split; [done|]. split; [cbn; lia|constructor|].
    split; [constructor|]. by intros ? ? ?%not_elem_of_nil. }
  clear Hi He. induction Hsteps as [|x y z [d c err E|d err E] _ IH]; [done| |]; apply IH;
    destruct H0 as (v & Hv & Hok).
  - destruct (bind_ok i d c x v err y Hv Hok E) as (v' & ? & ? & _). eauto.
  - by eapply unbind_ok.
Qed.

(** * Interrupts through an injector are quiet *)

(** An injector hands the message to the host: it changes none of the program's
    objects. *)
Class QuietInjector `{MsixCallbacks} : Prop :=
  inject_quiet f d v o w : exists err w',
    call_msix_inject f d v o w = Ok (err, w') /\ quiet w w' /\
    w_devices w' = w_devices w.

(** The function's vectors are not wired to interrupt lines. *)
Definition injected (p : ptr) (w : World) : Prop :=
  exists m, msix_of w p = Some m /\ msix_ok m /\ Forall (fun r => r = None) (msix_irq_routes m).

Section Injected.
Context `{HMC : MsixCallbacks} `{HIC : IrqCallbacks} `{HQI : !QuietInjector} (p : ptr).

Lemma quiet_trans w1 w2 w3 : quiet w1 w2 -> quiet w2 w3 -> quiet w1 w3.
Proof. intros [] []. split; intros; etrans; eauto. Qed.

Lemma store_msix_quiet w m m' :
  msix_of w p = Some m ->
  exists w', store_msix p m' w = Ok (tt, w') /\ quiet w w' /\ msix_of w' p = Some m'.
Proof.
  unfold msix_of, store_msix, load_device, store_device. run_unfold.
  destruct (w_devices w !! p) as [dev|] eqn:Hd; [|done]. intros _. eexists. split; [done|].
  split; [|cbn; by rewrite lookup_insert_eq]. split; try done.
  intros d. cbn. by eapply store_device_ids.
Qed.

(** Writing one byte of the pending array keeps the function well formed. *)
Lemma pba_write_ok m v b b' :
  msix_ok m -> 0 <= v < msix_vector_count m -> byte_ok b' ->
  msix_pba m !! Z.to_nat (v / 8) = Some b ->
  msix_ok (with_pba m (<[Z.to_nat (v / 8) := b']> (msix_pba m))).
Proof.
  intros Hm Hv Hb' Hb. destruct Hm as [H1 H2 H3 H4 H5].
  split; try done; cbn; [by rewrite length_insert|by apply Forall_insert].
Qed.

Lemma deliver_quiet w m v :
  msix_of w p = Some m -> msix_ok m -> 0 <= v < msix_vector_count m ->
  Forall (fun r => r = None) (msix_irq_routes m) ->
  exists err w', pci_msix_deliver p v w = Ok (err, w') /\ quiet w w' /\ injected p w'.
Proof using HQI.
  intros Hd Hm Hv Hr.
  assert (forall err, exists e w', (ret err : M World Z) w = Ok (e, w') /\ quiet w w' /\ injected p w')
    as Hret by (intros err; exists err, w; split; [done|]; split; [done|by exists m]).
  unfold pci_msix_deliver. rewrite (bind_eq _ _ _ _ _ (load_msix_eq p w m Hd)).
  destruct (_ || _); [apply Hret|].
  rewrite (bind_eq _ _ _ _ _ (vector_control_eq w m v Hm Hv)).
  destruct (bits _ _); [apply Hret|].
  destruct (lookup_lt_is_Some_2 (msix_irq_routes m) (Z.to_nat v)) as [route Hroute].
  { pose proof (mo_routes _ Hm). lia. }
  pose proof (Forall_lookup_1 _ _ _ _ Hr Hroute) as ->. cbn in Hroute. rewrite Hroute.
  rewrite (bind_eq (deref (Some None)) _ w None w) by done. unfold msix_send.
  destruct (msix_inject m) as [f|]; [|by apply (Hret (-ENOTCONN))].
  destruct (inject_quiet f p v (msix_inject_opaque m) w) as (err & w1 & E & Hq & Hdev).
  rewrite (bind_eq _ _ _ _ _ E).
  assert (msix_of w1 p = Some m) as Hd1 by (unfold msix_of in *; by rewrite Hdev).
  destruct (err <? 0); [exists err, w1; split; [done|]; split; [done|by exists m]|].
  rewrite (bind_eq _ _ _ _ _ (load_msix_eq p w1 m Hd1)).
  destruct (pba_lookup m Hm v Hv) as (b & Hb & Hbyte). rewrite Hb.
  rewrite (bind_eq (deref (Some b)) _ w1 b w1) by done.
  pose proof (Z.mod_pos_bound v 8 ltac:(lia)) as Hmod.
  destruct (store_msix_quiet w1 m (with_pba m (<[Z.to_nat (v / 8) := clear_bit b (v mod 8)]>
    (msix_pba m))) Hd1) as (w2 & E2 & Hq2 & Hd2).
  exists 0, w2. split; [by rewrite (bind_eq _ _ w1 tt w2)|].
  split; [by eapply quiet_trans|]. eexists. split_and!; [exact Hd2| |done].
  eapply pba_write_ok; [done..| |done]. by apply (clear_bit_spec b (v mod 8) 0); [| |lia].
Qed.

#[export] Instance injected_quiet : QuietInterrupts p (injected p).
Proof using HQI.
  split; [|by intros w ? ?|by intros w ? ?]. intros w v Hv0 (m & Hd & Hm & Hr).
  unfold vart_pci_device_raise_msix. rewrite (bind_eq _ _ _ _ _ (load_msix_eq p w m Hd)).
  destruct (negb (msix_configured m)); [eexists _, w; split; [done|]; split; [done|by exists m]|].
  destruct (Z.leb_spec (msix_vector_count m) v); cbn [orb].
  { eexists _, w. split; [done|]. split; [done|by exists m]. }
  assert (0 <= v < msix_vector_count m) as Hv by lia.
  destruct (pba_lookup m Hm v Hv) as (b & Hb & Hbyte). rewrite Hb.
  rewrite (bind_eq (deref (Some b)) _ w b w) by done.
  pose proof (Z.mod_pos_bound v 8 ltac:(lia)) as Hmod.
  set (m1 := with_pba m (<[Z.to_nat (v / 8) := set_bit b (v mod 8)]> (msix_pba m))).
  destruct (store_msix_quiet w m m1 Hd) as (w1 & E1 & Hq1 & Hd1).
  rewrite (bind_eq _ _ w tt w1) by exact E1.
  assert (msix_ok m1) as Hm1.
  { eapply pba_write_ok; [done..| |done]. by apply (set_bit_spec b (v mod 8) 0); [| |lia]. }
  assert (exists masked, (if negb (msix_enabled m) || msix_function_mask m then ret true
    else let* c := config_load_le (msix_table m) (v * 16 + 12) 4 in ret (bits c 1)) w1 =
    Ok (masked, w1)) as [masked Hmask].
  { destruct (_ || _); [by eexists|].
    rewrite (bind_eq _ _ _ _ _ (vector_control_eq w1 m v Hm Hv)). by eexists. }
  rewrite (bind_eq _ _ _ _ _ Hmask). destruct masked.
  - exists 0, w1. split; [done|]. split; [done|]. by exists m1.
  - destruct (deliver_quiet w1 m1 v Hd1 Hm1 Hv Hr) as (err & w2 & E2 & Hq2 & Hinj).
    exists err, w2. split; [done|]. split; [by eapply quiet_trans|done].
Qed.
End Injected.

(** * A concrete IOMMU

    256 bytes of RAM at guest address 0 hold two commands (an IOFENCE and an
    illegal one) at 0, and the device context of requester 2 at 64: valid, with
    an Sv39 root in page 5.  The IOMMU has a default context and an injector. *)
Module RiscvIommuDemo.
Import AddressSpace.Demo.

#[export] Instance no_faults : FaultCallbacks := fun _ _ _ _ _ _ _ => ret tt.
#[export] Instance no_irqs : IrqCallbacks := fun _ _ _ _ => ret 0.
#[export] Instance accept : MsixCallbacks := {|
  call_msix_inject _ _ _ _ := ret 0;
  call_msix_remap _ _ _ a x _ := ret (0, a, x);
|}.
#[export] Instance accept_quiet : QuietInjector.
Proof. intros f d v o w. exists 0, w. done. Qed.

Definition sys : ptr := 1%positive.
Definition ram : ptr := 1%positive.
Definition ctx_space : ptr := 2%positive.
Definition context : ptr := 1%positive.
Definition nic : ptr := 1%positive.
Definition fn : ptr := 2%positive.
Definition unit0 : ptr := 1%positive.

Definition poke (h : gmap Z Z) (a v : Z) : gmap Z Z :=
  default h (mem_write h a (store_le 8 v)).
Definition memory : gmap Z Z :=
  poke (poke (poke (poke (mem_map ∅ 0x1000 256) 0x1000 2) 0x1010 0x7f)
    0x1040 1) 0x1058 (8 * 2 ^ 60 + 5).

Definition msix0 : VartPciMsix :=
  mkMsix 1%positive 1%positive (repeat 0 32) (repeat 0 8) [None; None] (Some (fn_external 1)) None None None
    0 0 0 0 0 2 true true true false.
Definition nic0 : VartPciDevice :=
  mkPciDevice (mkDevice None (Some sys) true None None false) None 0 2
    [] [] None 0 0 (zero_msix 1%positive 1%positive) None 0 false false true.
Definition fn0 : VartPciDevice :=
  mkPciDevice (mkDevice None None false None None false) None 0 8
    [] [] None 0 0 msix0 None 0 false false true.

Definition a1 := exec (vart_address_space_init sys) empty_world.
Definition a2 := exec (vart_address_region_init_ram (Some ram) 0 256 (-1) None
  (Some 0x1000)) a1.
Definition a3 := exec (vart_address_space_add (Some sys) (Some ram)) a2.
Definition a4 := exec (vart_address_space_init ctx_space) a3.
Definition a5 := exec (vart_address_space_set_translator (Some ctx_space)
  (Some fn_iommu_context_translate) (Some context)) a4.

(** Capabilities as [vart_riscv_iommu_init] sets them; one-level directory and
    queues of two entries in page 0, both queues on. *)
Definition v0 : VartRiscvIommu :=
  (zero_riscv_iommu fn) <| iommu_address_space := Some sys |> <| iommu_cap := 0x4000020210 |>
    <| iommu_ddtp := 2 |> <| iommu_cqb := 1 |> <| iommu_fqb := 1 |>
    <| iommu_cqcsr := 0x10001 |> <| iommu_fqcsr := 0x10001 |>
    <| iommu_lock_initialized := true |>.
Definition b0 := a3 <| w_contexts := {[context := zero_context ctx_space]} |>
  <| w_devices := {[nic := nic0; fn := fn0]} |> <| w_host := memory |>
  <| w_iommus := {[unit0 := v0]} |>.
Definition b1 := exec (vart_iommu_context_init (Some context) (Some sys) 0) b0.
Definition b2 := exec (vart_riscv_iommu_bind_device (Some unit0) (Some nic) (Some context)) b1.
Definition ctx1 : VartIommuContext :=
  mkContext ctx_space (Some sys) None None false 0 VART_IOMMU_CONTEXT_IDENTITY 0 0
    false false None None zero_cache 0 0 true.
Definition nic1 : VartPciDevice :=
  mkPciDevice (mkDevice None (Some ctx_space) false None None false) None 0 2
    [] [] None 0 0 (zero_msix 1%positive 1%positive) None 0 false false true.
Definition ctx2 : VartIommuContext :=
  mkContext ctx_space (Some sys) (Some nic) (Some sys) true 2 VART_IOMMU_CONTEXT_IDENTITY 0 0
    false false (Some fn_iommu_fault_handler) (Some unit0) zero_cache 0 0 true.
Definition v2 : VartRiscvIommu := v0 <| iommu_bindings := [mkBinding nic context] |>.

Lemma riscv_demo_steps : rtc as_step empty_world a5.
Proof.
  apply (rtc_l _ _ a1).
  { apply (as_space_init _ _ sys); [by intros|]. vm_compute. reflexivity. }
  apply (rtc_l _ _ a2).
  { apply (as_region_init_ram _ _ ram 0 256 (-1) None (Some 0x1000) 0);
      [by intros ?|by vm_compute..]. }
  apply (rtc_l _ _ a3).
  { apply (as_space_add _ _ (Some sys) (Some ram) 0). vm_compute. reflexivity. }
  apply (rtc_l _ _ a4).
  { apply (as_space_init _ _ ctx_space); [by intros|]. vm_compute. reflexivity. }
  apply rtc_once. apply (as_space_set_translator _ _ (Some ctx_space)
    (Some fn_iommu_context_translate) (Some context) 0). vm_compute. reflexivity.
Qed.

Lemma b2_heap : heap_ok b2.
Proof.
  assert (w_spaces b2 = w_spaces a5 /\ w_regions b2 = w_regions a5) as [Es Er]
    by (split; vm_compute; reflexivity).
  destruct (steps_heap_ok a5 riscv_demo_steps) as [Hs Hr]. split; [|by rewrite Er].
  by apply (spaces_ok_ext a5).
Qed.

Lemma poke_dom h a v x : is_Some (h !! x) -> is_Some (poke h a v !! x).
Proof.
  intros Hx. unfold poke. destruct (mem_write h a (store_le 8 v)) eqn:E; [|done].
  by eapply mem_write_dom.
Qed.
Lemma poke_bytes h a v : bytes_mem h -> bytes_mem (poke h a v).
Proof.
  intros Hh. unfold poke. destruct (mem_write h a (store_le 8 v)) eqn:E; [|done].
  eapply mem_write_bytes; [done|apply store_le_bytes|done].
Qed.

Lemma b2_host : w_host b2 = memory.
Proof. vm_compute. reflexivity. Qed.

Lemma memory_mapped x : 0x1000 <= x < 0x1100 -> is_Some (memory !! x).
Proof.
  intros Hx. unfold memory. do 4 apply poke_dom. rewrite mem_map_lookup.
  by rewrite decide_True by lia.
Qed.

Definition ram_region : VartAddressRegion :=
  mkRegion 0 256 (-1) VART_REGION_RAM true None (Some sys) None None (Some 0x1000).
Lemma b2_regions : w_regions b2 = {[ram := ram_region]}.
Proof. vm_compute. reflexivity. Qed.

Lemma b2_backed : ram_backed b2.
Proof.
  intros r v h. rewrite b2_regions, b2_host. intros [<- <-]%lookup_singleton_Some _ [= <-] x Hx.
  apply memory_mapped. cbn in Hx. lia.
Qed.

Lemma b2_bytes : bytes_mem (w_host b2).
Proof.
  rewrite b2_host. unfold memory. do 4 apply poke_bytes. intros x b.
  rewrite mem_map_lookup. case_decide; [|by rewrite lookup_empty]. by intros [= <-].
Qed.

Lemma b2_plain : plain_space b2 sys.
Proof. eexists. split; vm_compute; reflexivity. Qed.

Lemma b2_env : queue_env unit0 sys fn b2 v2.
Proof.
  split; [vm_compute; reflexivity|reflexivity|reflexivity|apply b2_heap|apply b2_backed
    |apply b2_bytes|apply b2_plain|vm_compute; reflexivity|vm_compute; split; discriminate| |].
  - constructor; [|constructor]. split.
    + exists nic1. split; [vm_compute; reflexivity|cbn; lia].
    + exists ctx2. split; [vm_compute; reflexivity|by eexists].
  - intros c E. discriminate E.
Qed.

#[local] Instance reader : PteReader (address_space_buffer_access 1) b2 sys (ram_pt b2 sys).
Proof. apply ram_pte_reader; [apply b2_heap|apply b2_backed|apply b2_bytes|apply b2_plain]. Qed.

Lemma b2_no_high_memory a : 2 ^ 52 <= a <= UINT64_MAX -> exists e, ram_pt b2 sys a = inl e.
Proof.
  intros Ha. destruct b2_plain as (s & Hs & Ht). pose proof b2_heap as [Hh _].
  pose proof (plain_access b2 sys s a (repeat 0 8) 8 false 0 Hh b2_backed Hs Ht
    ltac:(unfold u64_ok; lia) ltac:(lia) ltac:(cbn; lia)) as ([err buf] & w' & E & Ho)%wp_ok.
  unfold ram_pt. rewrite E. assert (forall r, ~ resolves b2 sys a 8 (Some r)) as Hno.
  { intros r Hr. apply resolved_range in Hr as (v & Hv & _ & _ & _ & Hend); [|done|unfold u64_ok; lia..].
    rewrite b2_regions in Hv. apply lookup_singleton_Some in Hv as [_ <-]. cbn in Hend. lia. }
  destruct Ho as [(_ & ? & (r & ? & ? & Hr & _) & _)|[(-> & _ & _ & ->)|(_ & _ & _ & r & ? & Hr & _)]];
    [by destruct (Hno r)| |by destruct (Hno r)]. by eexists.
Qed.

(** Requester 2 gets an Sv39 context with its root in page 5. *)
Lemma ddt_binding_correct_witness :
  iommu_apply_ddt_binding 1 unit0 (Some nic) (Some context) b2 =
  Ok (0, b2 <| w_contexts ::= <[context := config_context ctx2 (dc_sv39 5)]> |>).
Proof.
  pose proof (ddt_binding_correct 1 b2 unit0 sys nic context v2 nic1 ctx2 (ram_pt b2 sys)
    (qe_iommu _ _ _ _ _ b2_env) eq_refl ltac:(vm_compute; reflexivity)
    ltac:(vm_compute; reflexivity) ltac:(by eexists) ltac:(vm_compute; reflexivity)
    ltac:(unfold u64_ok; cbn; lia) ltac:(cbn; lia) b2_no_high_memory
    ltac:(vm_compute; reflexivity)) as H. cbv zeta in H.
  replace (ref_device_config 44 (ram_pt b2 sys) (iommu_ddtp v2) (pci_requester_id nic1))
    with (dc_sv39 5) in H by (vm_compute; reflexivity).
  exact H.
Defined.

Definition d1 := exec (vart_riscv_iommu_map_msi (Some unit0) 0x1000 0x8000 0x2000) b2.
Definition v_d1 : VartRiscvIommu := v2 <| iommu_msi_mappings := [mkMsiMapping 0x1000 0x8000 0x2000] |>.

Lemma msi_remap_deterministic_witness :
  exists v, w_iommus d1 !! unit0 = Some v /\ (length (iommu_msi_mappings v) <= 64)%nat /\
    (forall m m', m ∈ iommu_msi_mappings v -> m' ∈ iommu_msi_mappings v ->
       m <> m' -> apart m m') /\
    forall a t, msi_lookup (iommu_msi_mappings v) a = Some t <->
      exists m, m ∈ iommu_msi_mappings v /\ covers m a /\
        t = mm_target m + (a - mm_iova m).
Proof.
  apply (msi_remap_deterministic unit0 b2 v2 d1).
  - vm_compute. reflexivity.
  - reflexivity.
  - apply rtc_once. apply (msi_step_map _ _ _ 0x1000 0x8000 0x2000 0); [lia|lia|lia|].
    vm_compute. reflexivity.
Defined.

Lemma msi_map_unmap_witness :
  exists v1 v3 w3,
    w_iommus d1 !! unit0 = Some v1 /\
    (forall a, msi_lookup (iommu_msi_mappings v1) a =
       if decide (0x1000 <= a <= 0x1000 + 0x2000 - 4) then Some (0x8000 + (a - 0x1000))
       else msi_lookup (iommu_msi_mappings v2) a) /\
    vart_riscv_iommu_unmap_msi (Some unit0) 0x1000 0x2000 d1 = Ok (0, w3) /\
    w_iommus w3 !! unit0 = Some v3 /\
    forall a, msi_lookup (iommu_msi_mappings v3) a =
      if decide (0x1000 <= a <= 0x1000 + 0x2000 - 4) then None
      else msi_lookup (iommu_msi_mappings v2) a.
Proof.
  apply (msi_map_unmap unit0 v2 b2 0x1000 0x8000 0x2000 d1).
  - vm_compute. reflexivity.
  - apply msi_ok_nil.
  - lia.
  - lia.
  - lia.
  - vm_compute. reflexivity.
Defined.


Lemma fault_enqueue_correct_witness :
  exists err w',
    iommu_enqueue_fault 1 unit0 (Some context) 0x123 8 true (-EACCES) b2 = Ok (err, w') /\
    if fq_count v2 =? fq_entries v2 - 1
    then err = -ENOSPC /\ w' = set_fqcsr b2 unit0 v2 FQCSR_FQOF
    else
      (err = 0 /\ exists host h', ram_target b2 sys (fq_slot v2) 32 host /\
         mem_write (w_host b2) host
           (fault_record (ctx_requester_id ctx2) 0x123 8 true (-EACCES)) = Some h' /\
         w' = b2 <| w_host := h' |> <| w_iommus ::= <[unit0 :=
           v2 <| iommu_fqt := (iommu_fqt v2 mod fq_entries v2 + 1) mod fq_entries v2 |>]> |>) \/
      (err = -EFAULT /\ w' = set_fqcsr b2 unit0 v2 FQCSR_FQMF /\
         forall host, ~ ram_target b2 sys (fq_slot v2) 32 host).
Proof.
  apply (fault_enqueue_correct 0 b2 unit0 sys context v2 ctx2 0x123 8 true (-EACCES)).
  - apply b2_env.
  - reflexivity.
  - apply b2_heap.
  - apply b2_backed.
  - apply b2_plain.
  - vm_compute. reflexivity.
  - vm_compute. reflexivity.
  - vm_compute. reflexivity.
Defined.

Lemma fault_record_fields_witness :
  let record := fault_record 2 0x123 8 true (-EACCES) in
  length record = 32%nat /\
  load_le (take 8 record) = 7 + 2 ^ 40 * 2 /\
  load_le (take 8 (drop 16 record)) = 0x123 /\
  load_le (take 8 (drop 24 record)) = u32 13 + 2 ^ 32 * u32 8.
Proof. apply (fault_record_fields 2 0x123 8 true (-EACCES)); unfold u64_ok; lia. Defined.

Lemma reset_isolates_witness :
  exists w', vart_riscv_iommu_reset (Some unit0) b2 = Ok (0, w') /\
    w_iommus w' !! unit0 = Some (reset_registers v2) /\
    forall c, (c ∈ map bind_context (iommu_bindings v2) \/
               (iommu_bindings v2 = [] /\ iommu_context v2 = Some c)) ->
      forall access address size write,
        translate_locked access c address size write w' = Ok ((-EACCES, None, 0), w').
Proof.
  apply (reset_isolates b2 unit0 v2).
  - vm_compute. reflexivity.
  - reflexivity.
  - constructor; [|constructor]. exists ctx2. split; [vm_compute; reflexivity|by eexists].
  - intros c E. discriminate E.
Defined.

Lemma bindings_consistent_witness :
  exists v, w_iommus b2 !! unit0 = Some v /\ bindings_ok b2 unit0 (iommu_bindings v).
Proof.
  apply (bindings_consistent unit0 b1 v0 b2).
  - vm_compute. reflexivity.
  - reflexivity.
  - apply rtc_once. apply (binding_step_bind _ _ _ nic context 0). vm_compute. reflexivity.
Defined.

(** * Divergences from the RISC-V IOMMU interface *)

(** The head is not wrapped at the queue's size: a driver that has filled the
    last of the two slots wraps its tail to 0, and the device, whose head is 1,
    executes command after command instead of one. *)
Definition wrapped := b2 <| w_iommus := {[unit0 := v2 <| iommu_cqh := 1 |>]} |>.
Theorem command_queue_wrap_runs_on :
  iommu_mmio_write 1 64 (Some unit0) REG_CQT 4 0 wrapped = NoFuel.
Proof. vm_compute. reflexivity. Qed.

(** A directory base at or above 2^52 is silently truncated: the mask keeps 40
    of the 44 bits of the page number. *)
Theorem ddtp_base_truncated :
  exists w' v', iommu_mmio_write 1 0 (Some unit0) REG_DDTP 8 (2 ^ 50 + 2) b2 = Ok (0, w') /\
    w_iommus w' !! unit0 = Some v' /\ iommu_ddtp v' = 2.
Proof. eexists _, _. split_and!; vm_compute; reflexivity. Qed.

(** The overlap test wraps: a mapping that ends at 2^64 is not seen by it, and
    mapping the same range again adds a second, conflicting entry. *)
Definition top : Z := 2 ^ 64 - 0x1000.
Definition t1 := exec (vart_riscv_iommu_map_msi (Some unit0) top 0x8000 0x1000) b2.
Theorem msi_top_mapping_duplicated :
  exists w' v', vart_riscv_iommu_map_msi (Some unit0) top 0x9000 0x1000 t1 = Ok (0, w') /\
    w_iommus w' !! unit0 = Some v' /\
    iommu_msi_mappings v' = [mkMsiMapping top 0x8000 0x1000; mkMsiMapping top 0x9000 0x1000].
Proof. eexists _, _. split_and!; vm_compute; reflexivity. Qed.

(** A refused bind can undo an attachment it did not make: binding a function
    whose context is already attached to it fails, and detaches it. *)
Definition attached := exec (vart_iommu_context_attach (Some context) (Some nic)) b1.
Theorem failed_bind_detaches :
  exists w' c', vart_riscv_iommu_bind_device (Some unit0) (Some nic) (Some context) attached =
      Ok (-EINVAL, w') /\
    (ctx_attached_device <$> w_contexts attached !! context) = Some (Some nic) /\
    w_contexts w' !! context = Some c' /\ ctx_attached_device c' = None.
Proof. eexists _, _. split_and!; vm_compute; reflexivity. Qed.
End RiscvIommuDemo.
