(* ===== verification/Serial.v ===== *)
(** The serial port, its console and the test device:
    [src/hw/char/uart16550.c], [src/hw/char/console.c] and
    [src/hw/misc/test-device.c].

    The UART is a register file behind an MMIO region with one received byte and
    an interrupt line; the console is a ring of bytes typed at the host that are
    handed to the UART one at a time.  What the output callback and the sink of
    the interrupt line do is a parameter. *)

From stdpp Require Import base tactics numbers list gmap.
From Stdlib Require Import ZArith Lia.
From S2P Require Import Prelude Bytes Machine AddressSpace Devices.

(** [VartUartOutput] and [VartTestOutput]: the opaque pointer and the byte. *)
Class OutputCallbacks := call_output : fnptr -> option ptr -> Z -> M World unit.

Abbreviation UART_LCR_DLAB := 0x80 (only parsing).
Abbreviation UART_IIR_NO_INT := 0x01 (only parsing).
Abbreviation UART_IIR_RDI := 0x04 (only parsing).
Abbreviation UART_IIR_THRI := 0x02 (only parsing).
Abbreviation UART_IER_THRI := 0x02 (only parsing).
Abbreviation VART_UART16550_IER_RDI := 0x01 (only parsing).
Abbreviation VART_UART16550_LSR_DR := 0x01 (only parsing).
Abbreviation VART_UART16550_LSR_THRE := 0x20 (only parsing).
Abbreviation VART_UART16550_LSR_TEMT := 0x40 (only parsing).
Abbreviation VART_UART16550_MMIO_SIZE := 0x100 (only parsing).
Abbreviation VART_CONSOLE_INPUT_CAPACITY := 4096 (only parsing).

Definition update_uart (uart : ptr) (f : VartUart16550 -> VartUart16550) : M World unit :=
  let* u := load_uart uart in store_uart uart (f u).

(** * The UART *)

Section Uart.
Context `{IrqCallbacks} `{OutputCallbacks}.

Definition uart_update_irq (uart : ptr) : M World Z :=
  let* u := load_uart uart in
  let receive := bits (uart_ier u) VART_UART16550_IER_RDI &&
                 bits (uart_lsr u) VART_UART16550_LSR_DR in
  let transmit := bits (uart_ier u) UART_IER_THRI in
  let pending := receive || transmit in
  let* err := match uart_irq u with
              | None => ret 0
              | Some i => vart_irq_set (Some i) pending
              end in
  (if err =? 0 then
     update_uart uart (fun u => u <| uart_iir :=
       if receive then UART_IIR_RDI
       else if transmit then UART_IIR_THRI else UART_IIR_NO_INT |>)
   else ret tt) ;;;
  ret err.

(** The opaque pointer of the region is the UART itself, never NULL. *)
Definition uart_read (opaque : option ptr) (offset size value : Z) : M World (Z * Z) :=
  if negb (size =? 1) || (8 <=? offset) then ret (-EINVAL, value)
  else
    let* uart := deref opaque in
    let* u := load_uart uart in
    let dlab := bits (uart_lcr u) UART_LCR_DLAB in
    if offset =? 0 then
      if dlab then ret (0, Z.land (uart_divisor u) 0xff)
      else
        store_uart uart (u <| uart_lsr ::=
          (fun x => Z.land x (u8 (Z.lnot VART_UART16550_LSR_DR))) |>) ;;;
        let* err := uart_update_irq uart in
        (if err <? 0
         then update_uart uart (fun u => u <| uart_lsr ::=
                (fun x => Z.lor x VART_UART16550_LSR_DR) |>)
         else ret tt) ;;;
        ret (err, uart_rbr u)
    else if offset =? 1 then
      ret (0, if dlab then Z.shiftr (uart_divisor u) 8 else uart_ier u)
    else if offset =? 2 then ret (0, uart_iir u)
    else if offset =? 3 then ret (0, uart_lcr u)
    else if offset =? 4 then ret (0, uart_mcr u)
    else if offset =? 5 then ret (0, uart_lsr u)
    else if offset =? 6 then ret (0, uart_msr u)
    else if offset =? 7 then ret (0, uart_scr u)
    else ret (-EINVAL, value).

Definition uart_write (opaque : option ptr) (offset size value : Z) : M World Z :=
  if negb (size =? 1) || (8 <=? offset) then ret (-EINVAL)
  else
    let* uart := deref opaque in
    let* u := load_uart uart in
    let dlab := bits (uart_lcr u) UART_LCR_DLAB in
    let set f := store_uart uart (f u) ;;; ret 0 in
    if offset =? 0 then
      if dlab then
        set (fun u => u <| uart_divisor ::= (fun d => u16 (Z.lor (Z.land d 0xff00) value)) |>)
      else
        match uart_output u with
        | Some f => call_output f (uart_output_opaque u) (u8 value) ;;; ret 0
        | None => ret 0
        end
    else if offset =? 1 then
      if dlab then
        set (fun u => u <| uart_divisor ::=
          (fun d => u16 (Z.lor (Z.land d 0x00ff) (Z.shiftl value 8))) |>)
      else
        let old_ier := uart_ier u in
        store_uart uart (u <| uart_ier := Z.land value 0x0f |>) ;;;
        let* err := uart_update_irq uart in
        (if err <? 0
         then update_uart uart (fun u => u <| uart_ier := old_ier |>)
         else ret tt) ;;;
        ret err
    else if offset =? 2 then set (fun u => u <| uart_fcr := Z.land value 0xc9 |>)
    else if offset =? 3 then set (fun u => u <| uart_lcr := u8 value |>)
    else if offset =? 4 then set (fun u => u <| uart_mcr := Z.land value 0x1f |>)
    else if (offset =? 5) || (offset =? 6) then ret 0
    else if offset =? 7 then set (fun u => u <| uart_scr := u8 value |>)
    else ret (-EINVAL).

Definition uart_ops : VartMmioOps := mkMmioOps (Some fn_uart_read) (Some fn_uart_write).

Definition vart_uart16550_reset (uart : ptr) : M World unit :=
  let* u := load_uart uart in
  match uart_irq u with
  | Some i => vart_irq_lower (Some i) ;;; ret tt
  | None => ret tt
  end ;;;
  update_uart uart (fun u => u <| uart_ier := 0 |> <| uart_iir := UART_IIR_NO_INT |>
    <| uart_fcr := 0 |> <| uart_lcr := 0 |> <| uart_mcr := 0 |>
    <| uart_lsr := Z.lor VART_UART16550_LSR_THRE VART_UART16550_LSR_TEMT |>
    <| uart_msr := 0 |> <| uart_scr := 0 |> <| uart_rbr := 0 |> <| uart_divisor := 0 |>).

(** [device->opaque] is the UART, [device->bus->address_space] where it is
    mapped. *)
Definition uart_realize (device : ptr) : M World Z :=
  let* dev := load_plain_device device in
  let* uart := deref (dev_opaque dev) in
  match dev_bus dev with
  | None => ret (-EINVAL)
  | Some b =>
      let* bus := load_bus b in
      match bus_address_space bus with
      | None => ret (-EINVAL)
      | Some space =>
          let* u := load_uart uart in
          vart_address_space_add (Some space) (Some (uart_region u))
      end
  end.

Definition uart_unrealize (device : ptr) : M World unit :=
  let* dev := load_plain_device device in
  let* uart := deref (dev_opaque dev) in
  let* u := load_uart uart in
  let* region := load_region (uart_region u) in
  match r_address_space region with
  | Some space =>
      vart_address_space_remove (Some space) (Some (uart_region u)) ;;; ret tt
  | None => ret tt
  end.

Definition uart_reset_device (device : ptr) : M World unit :=
  let* dev := load_plain_device device in
  let* uart := deref (dev_opaque dev) in
  vart_uart16550_reset uart.

Definition uart_device_ops : VartDeviceOps :=
  mkDeviceOps (Some fn_uart_realize) (Some fn_uart_unrealize) (Some fn_uart_reset_device).

(** The zero struct around the embedded device and region. *)
Definition zero_uart (parent region : ptr) : VartUart16550 :=
  mkUart parent region 0 0 0 0 0 0 0 0 0 0 None None None.

Definition vart_uart16550_init (uart : ptr) (base : Z) (output : option fnptr)
    (output_opaque : option ptr) : M World Z :=
  let* old := load_uart uart in
  store_uart uart (zero_uart (uart_parent old) (uart_region old)) ;;;
  store_region (uart_region old) zero_region ;;;
  vart_device_init (uart_parent old) (Some uart_device_ops) (Some uart) None ;;;
  update_uart uart (fun u => u <| uart_output := output |>
                               <| uart_output_opaque := output_opaque |>) ;;;
  vart_uart16550_reset uart ;;;
  vart_address_region_init_mmio (Some (uart_region old)) base VART_UART16550_MMIO_SIZE 0
    (Some uart) (Some uart_ops) (Some uart).

Definition vart_uart16550_connect_irq (uart irq : option ptr) : M World Z :=
  match uart, irq with
  | Some u, Some i =>
      update_uart u (fun v => v <| uart_irq := Some i |>) ;;;
      let* err := uart_update_irq u in
      (if err <? 0 then update_uart u (fun v => v <| uart_irq := None |>) else ret tt) ;;;
      ret err
  | _, _ => ret (-EINVAL)
  end.

Definition vart_uart16550_receive (uart : option ptr) (value : Z) : M World Z :=
  match uart with
  | None => ret (-EINVAL)
  | Some u =>
      let* v := load_uart u in
      if bits (uart_lsr v) VART_UART16550_LSR_DR then ret (-EAGAIN)
      else
        let old_rbr := uart_rbr v in
        store_uart u (v <| uart_rbr := value |>
          <| uart_lsr ::= (fun x => Z.lor x VART_UART16550_LSR_DR) |>) ;;;
        let* err := uart_update_irq u in
        (if err <? 0 then
           update_uart u (fun v => v
             <| uart_lsr ::= (fun x => Z.land x (u8 (Z.lnot VART_UART16550_LSR_DR))) |>
             <| uart_rbr := old_rbr |>)
         else ret tt) ;;;
        ret err
  end.

(** * The console *)

Definition vart_console_init (console uart : option ptr) : M World Z :=
  match console, uart with
  | Some c, Some u =>
      store_console c (mkConsole (Some u) (repeat 0 (Z.to_nat VART_CONSOLE_INPUT_CAPACITY))
        0 0) ;;;
      ret 0
  | _, _ => ret (-EINVAL)
  end.

(** [memcpy(&input[at], bytes, n)]; outside the array is undefined. *)
Definition copy_into (input : list Z) (at_ : Z) (bytes : list Z) : M World (list Z) :=
  if at_ + Z.of_nat (length bytes) <=? Z.of_nat (length input)
  then ret (take (Z.to_nat at_) input ++ bytes ++
            drop (Z.to_nat at_ + length bytes) input)
  else undefined.

(** [data] is [None] for NULL; the data has [size] bytes. *)
Definition vart_console_queue_input (console : option ptr) (data : option (list Z))
    (size : Z) : M World Z :=
  match console with
  | None => ret (-EINVAL)
  | Some c =>
      let* con := load_console c in
      match con_uart con with
      | None => ret (-EINVAL)
      | Some _ =>
          match data with
          | None => if size =? 0 then ret 0 else ret (-EINVAL)
          | Some bytes =>
              if size =? 0 then ret 0
              else
                let space := VART_CONSOLE_INPUT_CAPACITY - con_input_count con in
                if space =? 0 then ret (-EAGAIN)
                else
                  let size := if space <? size then space else size in
                  let tail := (con_input_head con + con_input_count con) mod
                              VART_CONSOLE_INPUT_CAPACITY in
                  let first := VART_CONSOLE_INPUT_CAPACITY - tail in
                  let first := if size <? first then size else first in
                  if Z.of_nat (length bytes) <? size then undefined
                  else
                    let* input := copy_into (con_input con) tail
                                    (take (Z.to_nat first) bytes) in
                    let* input := copy_into input 0
                                    (take (Z.to_nat (size - first))
                                       (drop (Z.to_nat first) bytes)) in
                    store_console c (con <| con_input := input |>
                      <| con_input_count := con_input_count con + size |>) ;;;
                    ret size
          end
      end
  end.

(** The [while] loop; [fuel] bounds its iterations. *)
Fixpoint drain_loop (fuel : nat) (c u : ptr) (delivered : Z) : M World Z :=
  let* con := load_console c in
  if con_input_count con =? 0 then ret delivered
  else
    match fuel with
    | O => out_of_fuel
    | S fuel =>
        let* b := deref (con_input con !! Z.to_nat (con_input_head con)) in
        let* err := vart_uart16550_receive (Some u) b in
        if err =? -EAGAIN then ret delivered
        else if err <? 0 then ret err
        else
          let* con := load_console c in
          store_console c (con
            <| con_input_head := (con_input_head con + 1) mod VART_CONSOLE_INPUT_CAPACITY |>
            <| con_input_count := con_input_count con - 1 |>) ;;;
          drain_loop fuel c u (delivered + 1)
    end.

Definition vart_console_drain_input (fuel : nat) (console : option ptr) : M World Z :=
  match console with
  | None => ret (-EINVAL)
  | Some c =>
      let* con := load_console c in
      match con_uart con with
      | None => ret (-EINVAL)
      | Some u => drain_loop fuel c u 0
      end
  end.

Definition vart_console_pending_input (console : option ptr) : M World Z :=
  match console with
  | None => ret 0
  | Some c => let* con := load_console c in ret (con_input_count con)
  end.

Definition vart_console_input_space (console : option ptr) : M World Z :=
  match console with
  | None => ret 0
  | Some c =>
      let* con := load_console c in
      ret (VART_CONSOLE_INPUT_CAPACITY - con_input_count con)
  end.

(** * The test device *)

Abbreviation TEST_REG_OUTPUT := 0x00 (only parsing).
Abbreviation TEST_REG_SCRATCH := 0x08 (only parsing).
Abbreviation TEST_REG_STATUS := 0x10 (only parsing).
Abbreviation TEST_REG_VERSION := 0x18 (only parsing).
Abbreviation TEST_REG_IRQ_PULSE := 0x1c (only parsing).
Abbreviation VART_TEST_DEVICE_SIZE := 0x20 (only parsing).
Abbreviation VART_TEST_STATUS_NONE := 0 (only parsing).
Abbreviation VART_TEST_STATUS_PASS := 1 (only parsing).
Abbreviation VART_TEST_STATUS_FAIL := 2 (only parsing).
Abbreviation VART_TEST_DEVICE_VERSION := 1 (only parsing).

Definition test_device_read (opaque : option ptr) (offset size value : Z)
    : M World (Z * Z) :=
  let* device := deref opaque in
  let* t := load_test_device device in
  if (offset =? TEST_REG_SCRATCH) && (size =? 8) then ret (0, test_scratch t)
  else if (offset =? TEST_REG_STATUS) && (size =? 4) then ret (0, test_status t)
  else if (offset =? TEST_REG_VERSION) && (size =? 4)
  then ret (0, VART_TEST_DEVICE_VERSION)
  else ret (-EINVAL, value).

Definition test_device_write (opaque : option ptr) (offset size value : Z)
    : M World Z :=
  let* device := deref opaque in
  let* t := load_test_device device in
  if (offset =? TEST_REG_OUTPUT) && (size =? 1) then
    match test_output t with
    | Some f => call_output f (test_output_opaque t) (u8 value) ;;; ret 0
    | None => ret 0
    end
  else if (offset =? TEST_REG_SCRATCH) && (size =? 8)
  then store_test_device device (t <| test_scratch := value |>) ;;; ret 0
  else if (offset =? TEST_REG_STATUS) && (size =? 4) &&
          ((value =? VART_TEST_STATUS_PASS) || (value =? VART_TEST_STATUS_FAIL))
  then store_test_device device (t <| test_status := value |>) ;;; ret 0
  else if (offset =? TEST_REG_IRQ_PULSE) && (size =? 4) && (value =? 1) then
    match test_irq t with
    | None => ret (-ENODEV)
    | Some i => vart_irq_pulse (Some i)
    end
  else ret (-EINVAL).

Definition test_device_ops : VartMmioOps :=
  mkMmioOps (Some fn_test_device_read) (Some fn_test_device_write).

Definition test_device_realize (device : ptr) : M World Z :=
  let* dev := load_plain_device device in
  let* test_device := deref (dev_opaque dev) in
  match dev_bus dev with
  | None => ret (-EINVAL)
  | Some b =>
      let* bus := load_bus b in
      match bus_address_space bus with
      | None => ret (-EINVAL)
      | Some space =>
          let* t := load_test_device test_device in
          vart_address_space_add (Some space) (Some (test_region t))
      end
  end.

Definition test_device_unrealize (device : ptr) : M World unit :=
  let* dev := load_plain_device device in
  let* test_device := deref (dev_opaque dev) in
  let* t := load_test_device test_device in
  let* region := load_region (test_region t) in
  match r_address_space region with
  | Some space =>
      vart_address_space_remove (Some space) (Some (test_region t)) ;;; ret tt
  | None => ret tt
  end.

Definition vart_test_device_reset (device : ptr) : M World unit :=
  let* t := load_test_device device in
  store_test_device device (t <| test_scratch := 0 |>
                              <| test_status := VART_TEST_STATUS_NONE |>).

Definition test_device_reset_device (device : ptr) : M World unit :=
  let* dev := load_plain_device device in
  let* test_device := deref (dev_opaque dev) in
  vart_test_device_reset test_device.

Definition test_device_device_ops : VartDeviceOps :=
  mkDeviceOps (Some fn_test_device_realize) (Some fn_test_device_unrealize)
    (Some fn_test_device_reset_device).

Definition vart_test_device_init (device : ptr) (base : Z) (output : option fnptr)
    (output_opaque : option ptr) : M World Z :=
  let* old := load_test_device device in
  store_test_device device
    (mkTestDevice (test_parent old) (test_region old) 0 0 output output_opaque None) ;;;
  store_region (test_region old) zero_region ;;;
  vart_device_init (test_parent old) (Some test_device_device_ops) (Some device) None ;;;
  vart_address_region_init_mmio (Some (test_region old)) base VART_TEST_DEVICE_SIZE 0
    (Some device) (Some test_device_ops) (Some device).

Definition vart_test_device_connect_irq (device : ptr) (irq : option ptr) : M World unit :=
  let* t := load_test_device device in
  store_test_device device (t <| test_irq := irq |>).

(** The MMIO functions and the device callbacks of the two devices. *)
#[export] Instance serial_mmio : MmioCallbacks := {|
  call_mmio_read f opaque offset size value :=
    match f with
    | fn_uart_read => uart_read opaque offset size value
    | fn_test_device_read => test_device_read opaque offset size value
    | _ => undefined
    end;
  call_mmio_write f opaque offset size value :=
    match f with
    | fn_uart_write => uart_write opaque offset size value
    | fn_test_device_write => test_device_write opaque offset size value
    | _ => undefined
    end;
|}.
#[export] Instance serial_devices : DeviceCallbacks := {|
  call_realize f device :=
    match f with
    | fn_uart_realize => uart_realize device
    | fn_test_device_realize => test_device_realize device
    | _ => undefined
    end;
  call_unrealize f device :=
    match f with
    | fn_uart_unrealize => uart_unrealize device
    | fn_test_device_unrealize => test_device_unrealize device
    | _ => undefined
    end;
  call_reset f device :=
    match f with
    | fn_uart_reset_device => uart_reset_device device
    | fn_test_device_reset_device => test_device_reset_device device
    | _ => undefined
    end;
|}.
End Uart.

(** * The interrupt line of the UART *)

(** The sink and the output callback are outside the device: they change neither
    an interrupt record nor a UART nor a console. *)
Record untouched (w w' : World) : Prop := {
  un_irqs : w_irqs w' = w_irqs w;
  un_uarts : w_uarts w' = w_uarts w;
  un_consoles : w_consoles w' = w_consoles w;
}.
Class SerialHost `{IrqCallbacks} `{OutputCallbacks} : Prop := {
  host_irq f o line level w err w' :
    call_irq_set f o line level w = Ok (err, w') -> untouched w w';
  host_output f o b w w' : call_output f o b w = Ok (tt, w') -> untouched w w';
}.

Definition uart_receiving (v : VartUart16550) : bool :=
  bits (uart_ier v) VART_UART16550_IER_RDI && bits (uart_lsr v) VART_UART16550_LSR_DR.
Definition uart_pending (v : VartUart16550) : bool :=
  uart_receiving v || bits (uart_ier v) UART_IER_THRI.
(** The interrupt identification that the registers call for. *)
Definition uart_cause (v : VartUart16550) : Z :=
  if uart_receiving v then UART_IIR_RDI
  else if bits (uart_ier v) UART_IER_THRI then UART_IIR_THRI else UART_IIR_NO_INT.

Definition line_at (w : World) (v : VartUart16550) (level : bool) : Prop :=
  forall i, uart_irq v = Some i -> exists line, w_irqs w !! i = Some line /\
    is_Some (irq_set line) /\ irq_level line = level.

(** The UART [u] shows the cause of its interrupt and drives its line to match. *)
Definition uart_ok (u : ptr) (w : World) : Prop :=
  exists v, w_uarts w !! u = Some v /\ byte_ok (uart_lsr v) /\
    uart_iir v = uart_cause v /\ line_at w v (uart_pending v).

Section UartIrq.
Context `{HSH : SerialHost}.

Lemma irq_set_cases i level w err w' :
  vart_irq_set (Some i) level w = Ok (err, w') ->
  w_uarts w' = w_uarts w /\ w_consoles w' = w_consoles w /\
  ((err < 0 /\ w_irqs w' = w_irqs w) \/
   (err = 0 /\ exists line, w_irqs w' !! i = Some line /\ is_Some (irq_set line) /\
      irq_level line = level)).
Proof using HSH.
  unfold vart_irq_set. intros E. apply bind_Ok in E as (v & w0 & [Hv ->]%load_irq_Ok & E).
  destruct (irq_set v) as [f|] eqn:Hf; [|injection E as <- <-; auto with lia].
  destruct (Bool.eqb_spec (irq_level v) level) as [Hl|_].
  { injection E as <- <-. split_and!; [done..|]. right. split; [done|]. exists v. by rewrite Hf. }
  apply bind_Ok in E as (e & w1 & Ec & E). apply host_irq in Ec as [Hi Hu Hc].
  destruct (Z.ltb_spec e 0); [injection E as <- <-; auto|].
  apply bind_Ok in E as (v1 & w2 & [Hv1 ->]%load_irq_Ok & E). injection E as <- <-.
  split_and!; [done..|]. right. split; [done|]. eexists. cbn. rewrite lookup_insert_eq.
  split_and!; [done| |done]. rewrite Hi in Hv1. simplify_eq. cbn. by rewrite Hf.
Qed.

(** Updating the line: either the cause is shown and the line driven, or the
    sink refused and nothing changed. *)
Lemma update_irq_cases u v w err w' :
  w_uarts w !! u = Some v -> uart_update_irq u w = Ok (err, w') ->
  w_consoles w' = w_consoles w /\
  ((err < 0 /\ w_uarts w' = w_uarts w /\ w_irqs w' = w_irqs w) \/
   (err = 0 /\ w_uarts w' = <[u := v <| uart_iir := uart_cause v |>]> (w_uarts w) /\
      line_at w' v (uart_pending v))).
Proof using HSH.
  intros Hu. unfold uart_update_irq, load_uart. intros E.
  apply bind_Ok in E as (v0 & w0 & [Hv ->]%load_uart_Ok & E). simplify_eq.
  apply bind_Ok in E as (e & w1 & Ei & E). apply bind_Ok in E as ([] & w2 & E2 & E).
  injection E as <- <-.
  assert (w_uarts w1 = w_uarts w /\ w_consoles w1 = w_consoles w /\
    ((e < 0 /\ w_irqs w1 = w_irqs w) \/ (e = 0 /\ line_at w1 v (uart_pending v))))
    as (Hu1 & Hc1 & Hcase).
  { destruct (uart_irq v) as [i|] eqn:Hi.
    - apply irq_set_cases in Ei as (? & ? & [[? ?]|[-> Hl]]); split_and!; auto.
      right. split; [done|]. intros j Hj. rewrite Hi in Hj. by simplify_eq.
    - injection Ei as <- <-. split_and!; [done..|]. right. split; [done|].
      intros j Hj. by rewrite Hi in Hj. }
  destruct Hcase as [[Hneg Hirq]|[-> Hl]].
  - destruct (Z.eqb_spec e 0); [lia|]. injection E2 as <-. auto.
  - unfold update_uart in E2. apply bind_Ok in E2 as (v1 & w3 & [Hv1 ->]%load_uart_Ok & E2).
    rewrite Hu1, Hu in Hv1. simplify_eq. injection E2 as <-. cbn. split; [done|]. right.
    by rewrite Hu1.
Qed.

(** With the line already at the level called for the sink is not asked. *)
Lemma update_irq_same u v w :
  w_uarts w !! u = Some v -> line_at w v (uart_pending v) ->
  exists w', uart_update_irq u w = Ok (0, w').
Proof.
  intros Hu Hl. unfold uart_update_irq.
  assert (load_uart u w = Ok (v, w)) as Hld by (unfold load_uart; run_unfold; by rewrite Hu).
  rewrite (bind_eq _ _ _ _ _ Hld). fold (uart_receiving v). fold (uart_pending v).
  assert (match uart_irq v with
    | Some i => vart_irq_set (Some i) (uart_pending v) | None => ret 0 end w = Ok (0, w)) as Hi.
  { destruct (uart_irq v) as [i|] eqn:Hi; [|done].
    destruct (Hl i Hi) as (line & Hli & [f Hf] & Hlev). unfold vart_irq_set, load_irq. run_unfold.
    by rewrite Hli, Hf, Hlev, Bool.eqb_reflx. }
  rewrite (bind_eq _ _ _ _ _ Hi). cbn [Z.eqb]. unfold update_uart.
  unfold bind at 1. rewrite (bind_eq _ _ _ _ _ Hld). by eexists.
Qed.

(** Storing a new record and updating the line, with a roll-back [undo] when the
    sink refuses: the shape of every operation that may change the interrupt. *)
Lemma guarded_update u v v1 undo w err w' :
  w_uarts w !! u = Some v -> byte_ok (uart_lsr v) -> uart_iir v = uart_cause v ->
  line_at w v (uart_pending v) -> byte_ok (uart_lsr v1) ->
  (forall err w2, uart_update_irq u (w <| w_uarts ::= <[u := v1]> |>) = Ok (err, w2) ->
     err < 0 -> undo v1 = v) ->
  (let* err := uart_update_irq u in
   (if err <? 0 then update_uart u undo else ret tt) ;;; ret err)
    (w <| w_uarts ::= <[u := v1]> |>) = Ok (err, w') ->
  w_consoles w' = w_consoles w /\ uart_ok u w' /\
  ((err < 0 /\ w_uarts w' !! u = Some v) \/
   (err = 0 /\ w_uarts w' !! u = Some (v1 <| uart_iir := uart_cause v1 |>))).
Proof using HSH.
  intros Hu Hb Hiir Hl Hb1 Hundo E. set (w1 := w <| w_uarts ::= <[u := v1]> |>) in *.
  apply bind_Ok in E as (e & w2 & E1 & E). apply bind_Ok in E as ([] & w3 & E2 & E).
  injection E as <- <-.
  assert (w_uarts w1 !! u = Some v1) as Hu1 by apply lookup_insert_eq.
  destruct (update_irq_cases u v1 w1 e w2 Hu1 E1) as (Hc & [(Hneg & Hu2 & Hi2)|(-> & Hu2 & Hl2)]).
  - destruct (Z.ltb_spec e 0); [|lia]. unfold update_uart in E2.
    apply bind_Ok in E2 as (v2 & w4 & [Hv2 ->]%load_uart_Ok & E2).
    rewrite Hu2, Hu1 in Hv2. simplify_eq. injection E2 as <-.
    rewrite (Hundo e w2 E1 Hneg). cbn. rewrite lookup_insert_eq. split_and!; [done| |auto].
    exists v. cbn. rewrite lookup_insert_eq. split_and!; [done..|].
    intros i Hi. cbn. rewrite Hi2. by apply Hl.
  - cbn in E2. injection E2 as <-. rewrite Hu2, lookup_insert_eq. split_and!; [done| |auto].
    exists (v1 <| uart_iir := uart_cause v1 |>). rewrite Hu2, lookup_insert_eq. done.
Qed.
End UartIrq.

Lemma clear_dr_byte x : byte_ok x -> byte_ok (Z.land x (u8 (Z.lnot VART_UART16550_LSR_DR))).
Proof. intros _. unfold byte_ok. pose proof (land_nonneg_le x 254). change (u8 (Z.lnot 1)) with 254. lia. Qed.
Lemma set_dr_byte x : byte_ok x -> byte_ok (Z.lor x VART_UART16550_LSR_DR).
Proof.
  unfold byte_ok. intros Hx. pose proof (Z.add_lor_land x 1).
  destruct (Z.testbit x 0) eqn:E.
  - assert (Z.lor x 1 = x) as ->; [|lia]. apply Z.bits_inj'. intros n Hn. rewrite Z.lor_spec.
    destruct (Z.eq_dec n 0) as [->|]; [by rewrite E|].
    by rewrite (testbit_above 1 1 n), orb_false_r by lia.
  - pose proof (bits_pow2 x 0 ltac:(lia)) as Hb. rewrite E in Hb. apply bits_false in Hb.
    change (2 ^ 0) with 1 in Hb.
    pose proof (land_low_mask x 1 ltac:(lia)) as Hm. change (2 ^ 1 - 1) with 1 in Hm.
    change (2 ^ 1) with 2 in Hm. rewrite Hb in Hm. mlia.
Qed.

(** Clearing the data-ready bit and setting it again. *)
Lemma set_clear_dr x :
  byte_ok x -> bits x VART_UART16550_LSR_DR = true ->
  Z.lor (Z.land x (u8 (Z.lnot VART_UART16550_LSR_DR))) VART_UART16550_LSR_DR = x.
Proof.
  intros Hx Hb. change 1 with (2 ^ 0) in Hb. rewrite bits_pow2 in Hb by lia.
  change (u8 (Z.lnot 1)) with 254. apply Z.bits_inj'. intros n Hn.
  rewrite Z.lor_spec, Z.land_spec. destruct (Z.eq_dec n 0) as [->|Hne]; [by rewrite Hb|].
  rewrite (testbit_above 1 1 n), orb_false_r by lia. unfold byte_ok in Hx.
  destruct (Z.lt_ge_cases n 8); [|by rewrite (testbit_above x 8 n) by lia].
  assert (Z.testbit 254 n = true) as ->; [|by rewrite andb_true_r].
  assert (n = 1 \/ n = 2 \/ n = 3 \/ n = 4 \/ n = 5 \/ n = 6 \/ n = 7) as Hc by lia.
  by repeat destruct Hc as [->|Hc]; [..|subst n].
Qed.
Lemma clear_set_dr x :
  byte_ok x -> bits x VART_UART16550_LSR_DR = false ->
  Z.land (Z.lor x VART_UART16550_LSR_DR) (u8 (Z.lnot VART_UART16550_LSR_DR)) = x /\
  Z.land x (u8 (Z.lnot VART_UART16550_LSR_DR)) = x.
Proof.
  intros Hx Hb. change 1 with (2 ^ 0) in Hb. rewrite bits_pow2 in Hb by lia.
  change (u8 (Z.lnot 1)) with 254. unfold byte_ok in Hx.
  assert (forall n, 0 <= n -> n <> 0 -> Z.testbit x n && Z.testbit 254 n = Z.testbit x n) as Hm.
  { intros n Hn Hne. destruct (Z.lt_ge_cases n 8); [|by rewrite (testbit_above x 8 n) by lia].
    assert (n = 1 \/ n = 2 \/ n = 3 \/ n = 4 \/ n = 5 \/ n = 6 \/ n = 7) as Hc by lia.
    rewrite <- (andb_true_r (Z.testbit x n)) at 2. f_equal.
    by repeat destruct Hc as [->|Hc]; [..|subst n]. }
  split; apply Z.bits_inj'; intros n Hn; rewrite ?Z.land_spec, ?Z.lor_spec;
    (destruct (Z.eq_dec n 0) as [->|Hne]; [by rewrite Hb|]);
    rewrite ?(testbit_above 1 1 n), ?orb_false_r by lia; by apply Hm.
Qed.
Lemma dr_after_set x : bits (Z.lor x VART_UART16550_LSR_DR) VART_UART16550_LSR_DR = true.
Proof. change 1 with (2 ^ 0). by rewrite bits_pow2, Z.lor_spec, orb_true_r by lia. Qed.
Lemma dr_after_clear x :
  bits (Z.land x (u8 (Z.lnot VART_UART16550_LSR_DR))) VART_UART16550_LSR_DR = false.
Proof.
  change (u8 (Z.lnot 1)) with 254. change 1 with (2 ^ 0).
  by rewrite bits_pow2, Z.land_spec, andb_false_r by lia.
Qed.

(** * What each operation does to the received byte *)

Definition dr (v : VartUart16550) : bool := bits (uart_lsr v) VART_UART16550_LSR_DR.

(** The UART is well formed afterwards and its received byte is as given. *)
Definition uart_after (u : ptr) (w w' : World) (ready : bool) (byte : Z) : Prop :=
  w_consoles w' = w_consoles w /\ uart_ok u w' /\
  exists v', w_uarts w' !! u = Some v' /\ dr v' = ready /\ uart_rbr v' = byte.

Lemma uart_unchanged u w v :
  uart_ok u w -> w_uarts w !! u = Some v -> uart_after u w w (dr v) (uart_rbr v).
Proof. intros Hok Hu. split_and!; [done..|]. by exists v. Qed.

(** Registers that no interrupt depends on. *)
Lemma uart_store_ok u w v v' :
  uart_ok u w -> w_uarts w !! u = Some v -> uart_ier v' = uart_ier v ->
  uart_lsr v' = uart_lsr v -> uart_iir v' = uart_iir v -> uart_irq v' = uart_irq v ->
  uart_rbr v' = uart_rbr v ->
  uart_after u w (w <| w_uarts ::= <[u := v']> |>) (dr v) (uart_rbr v).
Proof.
  intros (v0 & Hu & Hb & Hi & Hl) Hu' He Hs Hii Hir Hr. assert (v0 = v) as -> by congruence.
  assert (uart_cause v' = uart_cause v /\ uart_pending v' = uart_pending v) as [Hc Hp]
    by (unfold uart_cause, uart_pending, uart_receiving; by rewrite He, Hs).
  split_and!; [done| |].
  - exists v'. cbn. rewrite lookup_insert_eq, Hs, Hc, Hp, Hii. split_and!; [done..|].
    intros i. rewrite Hir. apply Hl.
  - exists v'. cbn. rewrite lookup_insert_eq. unfold dr. by rewrite Hs.
Qed.

Section UartOps.
Context `{HSH : SerialHost}.

Lemma read_after u w v offset size value err x w' :
  uart_ok u w -> w_uarts w !! u = Some v ->
  uart_read (Some u) offset size value w = Ok ((err, x), w') ->
  if bool_decide (offset = 0 /\ size = 1 /\ bits (uart_lcr v) UART_LCR_DLAB = false /\ err = 0)
  then x = uart_rbr v /\ uart_after u w w' false (uart_rbr v)
  else uart_after u w w' (dr v) (uart_rbr v).
Proof using HSH.
  intros Hok Hu. unfold uart_read.
  assert (load_uart u w = Ok (v, w)) as Hld by (unfold load_uart; run_unfold; by rewrite Hu).
  pose proof (uart_unchanged u w v Hok Hu) as Hsame.
  destruct (Z.eqb_spec size 1) as [->|]; cbn [negb orb].
  2: { rewrite bool_decide_false by tauto. by intros [= <- <- <-]. }
  destruct (Z.leb_spec 8 offset).
  { rewrite bool_decide_false by lia. by intros [= <- <- <-]. }
  rewrite (bind_eq (deref (Some u)) _ w u w) by done. rewrite (bind_eq _ _ _ _ _ Hld).
  destruct (Z.eqb_spec offset 0) as [->|].
  2: { rewrite bool_decide_false by tauto. intros E.
       repeat (case_match; [by injection E as <- <- <-|]). by injection E as <- <- <-. }
  destruct (bits (uart_lcr v) UART_LCR_DLAB).
  { rewrite bool_decide_false by naive_solver. by intros [= <- <- <-]. }
  intros E. destruct Hok as (v0 & Hu0 & Hb & Hi & Hl). assert (v0 = v) as -> by congruence.
  set (v1 := v <| uart_lsr ::= _ |>) in E.
  assert (store_uart u v1 w = Ok (tt, w <| w_uarts ::= <[u := v1]> |>)) as Hst by done.
  rewrite (bind_eq _ _ _ _ _ Hst) in E.
  apply bind_Ok in E as (e & w2 & E1 & E). apply bind_Ok in E as ([] & w3 & E2 & E).
  injection E as <- <- <-.
  destruct (guarded_update u v v1 (fun u => u <| uart_lsr ::=
    (fun x => Z.lor x VART_UART16550_LSR_DR) |>) w e w3 Hu Hb Hi Hl) as (Hc & Hok' & Hcase).
  - by apply clear_dr_byte.
  - intros e2 w4 E4 Hneg. destruct (dr v) eqn:Hdr.
    + unfold v1. destruct v; cbn in *. unfold update; cbn. by rewrite set_clear_dr.
    + exfalso. assert (v1 = v) as Hv1.
      { unfold v1. destruct v; cbn in *. unfold update; cbn.
        by rewrite (proj2 (clear_set_dr _ Hb Hdr)). }
      rewrite Hv1 in E4.
      destruct (update_irq_same u v (w <| w_uarts ::= <[u := v]> |>)) as [w5 E5].
      { cbn. apply lookup_insert_eq. } { done. }
      rewrite E5 in E4. injection E4 as <- <-. lia.
  - by rewrite (bind_eq _ _ _ _ _ E1), (bind_eq _ _ _ _ _ E2).
  - destruct Hcase as [[Hneg Hu']|[-> Hu']].
    + rewrite bool_decide_false by lia. split_and!; [done..|]. by exists v.
    + rewrite bool_decide_true by done. split; [done|]. split_and!; [done..|].
      eexists. split; [exact Hu'|]. split; [|done]. apply dr_after_clear.
Qed.

Lemma write_after u w v offset size value err w' :
  uart_ok u w -> w_uarts w !! u = Some v ->
  uart_write (Some u) offset size value w = Ok (err, w') ->
  uart_after u w w' (dr v) (uart_rbr v).
Proof using HSH.
  intros Hok Hu. unfold uart_write.
  assert (load_uart u w = Ok (v, w)) as Hld by (unfold load_uart; run_unfold; by rewrite Hu).
  pose proof (uart_unchanged u w v Hok Hu) as Hsame.
  destruct (_ || _); [by intros [= <- <-]|].
  rewrite (bind_eq (deref (Some u)) _ w u w) by done. rewrite (bind_eq _ _ _ _ _ Hld).
  destruct (offset =? 0).
  { destruct (bits _ _); [intros [= <- <-]; by apply uart_store_ok|].
    destruct (uart_output v) as [f|]; [|by intros [= <- <-]]. intros E.
    apply bind_Ok in E as ([] & w1 & Eo & E). injection E as <- <-.
    apply host_output in Eo as [Hi Hua Hc]. destruct Hok as (v0 & Hu0 & Hb & Hii & Hl).
    split_and!; [done| |exists v; by rewrite Hua]. exists v0. rewrite Hua.
    split_and!; [done..|]. intros i Hir. rewrite Hi. by apply Hl. }
  destruct (offset =? 1).
  { destruct (bits _ _); [intros [= <- <-]; by apply uart_store_ok|]. intros E.
    destruct Hok as (v0 & Hu0 & Hb & Hi & Hl). assert (v0 = v) as -> by congruence.
    set (v1 := v <| uart_ier := _ |>) in E.
    assert (store_uart u v1 w = Ok (tt, w <| w_uarts ::= <[u := v1]> |>)) as Hst by done.
    rewrite (bind_eq _ _ _ _ _ Hst) in E.
    destruct (guarded_update u v v1 (fun x => x <| uart_ier := uart_ier v |>) w err w'
      Hu Hb Hi Hl) as (Hc & Hok' & Hcase); [done|by destruct v|exact E|].
    split_and!; [done..|]. destruct Hcase as [[_ Hu']|[_ Hu']]; eexists; by split. }
  repeat (case_match; [intros [= <- <-]; (by apply uart_store_ok) || done|]).
  by intros [= <- <-].
Qed.

Lemma receive_after u w v b err w' :
  uart_ok u w -> w_uarts w !! u = Some v -> byte_ok b ->
  vart_uart16550_receive (Some u) b w = Ok (err, w') ->
  if err =? 0 then dr v = false /\ uart_after u w w' true b
  else err < 0 /\ uart_after u w w' (dr v) (uart_rbr v).
Proof using HSH.
  intros Hok Hu Hbyte. unfold vart_uart16550_receive.
  assert (load_uart u w = Ok (v, w)) as Hld by (unfold load_uart; run_unfold; by rewrite Hu).
  rewrite (bind_eq _ _ _ _ _ Hld). fold (dr v). destruct (dr v) eqn:Hdr.
  { intros [= <- <-]. cbn. split; [lia|]. rewrite <- Hdr. by apply uart_unchanged. }
  intros E. destruct Hok as (v0 & Hu0 & Hb & Hi & Hl). assert (v0 = v) as -> by congruence.
  set (v1 := v <| uart_rbr := b |> <| uart_lsr ::= _ |>) in E.
  assert (store_uart u v1 w = Ok (tt, w <| w_uarts ::= <[u := v1]> |>)) as Hst by done.
  rewrite (bind_eq _ _ _ _ _ Hst) in E.
  destruct (guarded_update u v v1 (fun x => x
      <| uart_lsr ::= (fun y => Z.land y (u8 (Z.lnot VART_UART16550_LSR_DR))) |>
      <| uart_rbr := uart_rbr v |>) w err w' Hu Hb Hi Hl) as (Hc & Hok' & Hcase).
  - by apply set_dr_byte.
  - intros _ _ _ _. unfold v1. destruct v; cbn in *. unfold update; cbn.
    by rewrite (proj1 (clear_set_dr _ Hb Hdr)).
  - exact E.
  - destruct Hcase as [[Hneg Hu']|[-> Hu']].
    + destruct (Z.eqb_spec err 0); [lia|]. split; [lia|]. split_and!; [done..|]. by exists v.
    + cbn. split; [done|]. split_and!; [done..|]. eexists. split; [exact Hu'|].
      split; [|done]. apply dr_after_set.
Qed.
End UartOps.

(** * Histories of the UART *)

Section UartHistory.
Context `{HSH : SerialHost}.

Lemma connect_ok u i w err w' :
  uart_ok u w -> vart_uart16550_connect_irq (Some u) (Some i) w = Ok (err, w') ->
  uart_ok u w'.
Proof using HSH.
  intros (v & Hu & Hb & Hi & Hl) E. unfold vart_uart16550_connect_irq in E.
  apply bind_Ok in E as ([] & w1 & E0 & E). unfold update_uart in E0.
  apply bind_Ok in E0 as (v0 & w0 & [Hv0 ->]%load_uart_Ok & E0).
  assert (v0 = v) as -> by congruence.
  injection E0 as <-. set (v1 := v <| uart_irq := Some i |>) in *.
  apply bind_Ok in E as (e & w2 & E1 & E). apply bind_Ok in E as ([] & w3 & E2 & E).
  injection E as <- <-. set (w1 := w <| w_uarts ::= <[u := v1]> |>) in *.
  assert (w_uarts w1 !! u = Some v1) as Hu1 by apply lookup_insert_eq.
  destruct (update_irq_cases u v1 w1 e w2 Hu1 E1) as (_ & [(Hneg & Hu2 & Hi2)|(-> & Hu2 & Hl2)]).
  - destruct (Z.ltb_spec e 0); [|lia]. unfold update_uart in E2.
    apply bind_Ok in E2 as (v2 & w4 & [Hv2 ->]%load_uart_Ok & E2).
    rewrite Hu2, Hu1 in Hv2. assert (v2 = v1) as -> by congruence. injection E2 as <-.
    exists (v1 <| uart_irq := None |>). cbn. rewrite lookup_insert_eq. by split_and!.
  - cbn in E2. injection E2 as <-. exists (v1 <| uart_iir := uart_cause v1 |>).
    rewrite Hu2, lookup_insert_eq. done.
Qed.

Definition reset_uart (v : VartUart16550) : VartUart16550 :=
  mkUart (uart_parent v) (uart_region v) 0 UART_IIR_NO_INT 0 0 0 0x60 0 0 0 0
    (uart_irq v) (uart_output v) (uart_output_opaque v).

Lemma reset_uart_eq u v w w' :
  w_uarts w !! u = Some v -> vart_uart16550_reset u w = Ok (tt, w') ->
  w_uarts w' !! u = Some (reset_uart v) /\
  (uart_irq v = None -> w_irqs w' = w_irqs w).
Proof using HSH.
  intros Hu E. unfold vart_uart16550_reset in E.
  apply bind_Ok in E as (v0 & w0 & [Hv0 ->]%load_uart_Ok & E).
  assert (v0 = v) as -> by congruence.
  apply bind_Ok in E as ([] & w1 & E1 & E). unfold update_uart in E.
  apply bind_Ok in E as (v1 & w2 & [Hv1 ->]%load_uart_Ok & E).
  injection E as <-. cbn. rewrite lookup_insert_eq.
  destruct (uart_irq v) as [i|] eqn:Hi.
  - apply bind_Ok in E1 as (e & w3 & E3 & E1). injection E1 as <-.
    apply irq_set_cases in E3 as (Hu3 & _). rewrite Hu3, Hu in Hv1. assert (v1 = v) as -> by congruence.
    split; [|done]. clear -Hi. by destruct v; cbn in *; subst.
  - injection E1 as <-. assert (v1 = v) as -> by congruence. split; [|done]. clear -Hi. by destruct v; cbn in *; subst.
Qed.

(** One access by the guest or call by the machine.  A reset counts when the
    sink did not refuse to lower the line. *)
Inductive uart_step (u : ptr) (w w' : World) : Prop :=
| us_read offset size value r :
    uart_read (Some u) offset size value w = Ok (r, w') -> uart_step u w w'
| us_write offset size value err :
    uart_write (Some u) offset size value w = Ok (err, w') -> uart_step u w w'
| us_receive b err :
    byte_ok b -> vart_uart16550_receive (Some u) b w = Ok (err, w') -> uart_step u w w'
| us_connect i err :
    vart_uart16550_connect_irq (Some u) (Some i) w = Ok (err, w') -> uart_step u w w'
| us_reset v' :
    vart_uart16550_reset u w = Ok (tt, w') -> w_uarts w' !! u = Some v' ->
    line_at w' v' false -> uart_step u w w'.

Lemma uart_step_ok u w w' : uart_ok u w -> uart_step u w w' -> uart_ok u w'.
Proof using HSH.
  intros Hw Hstep. pose proof Hw as (v & Hu & _).
  destruct Hstep as [offset size value [err x] E|offset size value err E|b err Hb E|i err E|v' E Hv' Hl].
  - pose proof (read_after u w v _ _ _ _ _ _ Hw Hu E) as Ha. case_bool_decide; apply Ha.
  - by apply (write_after u w v _ _ _ _ _ Hw Hu E).
  - pose proof (receive_after u w v _ _ _ Hw Hu Hb E) as Ha. by destruct (err =? 0); apply Ha.
  - by eapply connect_ok.
  - destruct (reset_uart_eq u v w w' Hu E) as [Hr _]. assert (v' = reset_uart v) as -> by congruence.
    exists (reset_uart v). by split_and!.
Qed.

Lemma uart_init_ok u base out o w err w' :
  vart_uart16550_init u base out o w = Ok (err, w') -> uart_ok u w'.
Proof using HSH.
  intros E. unfold vart_uart16550_init in E.
  apply bind_Ok in E as (old & w0 & [Hold ->]%load_uart_Ok & E).
  apply bind_Ok in E as ([] & w1 & E1 & E). injection E1 as <-.
  apply bind_Ok in E as ([] & w2 & E2 & E). injection E2 as <-.
  apply bind_Ok in E as ([] & w3 & E3 & E). injection E3 as <-.
  apply bind_Ok in E as ([] & w4 & E4 & E). unfold update_uart in E4.
  apply bind_Ok in E4 as (v & w5 & [Hv ->]%load_uart_Ok & E4). cbn in Hv.
  rewrite lookup_insert_eq in Hv. simplify_eq. injection E4 as <-.
  apply bind_Ok in E as ([] & w6 & E6 & E).
  eapply reset_uart_eq in E6 as [Hu6 Hi6]; [|cbn; apply lookup_insert_eq].
  assert (w_uarts w' = w_uarts w6) as Hsame.
  { unfold vart_address_region_init_mmio, vart_address_region_init in E. cbn in E.
    revert E. run_unfold. destruct (_ <? base); cbn; [by intros [= _ <-]|].
    unfold store_region, load_region. run_unfold. cbn. rewrite lookup_insert_eq.
    by intros [= _ <-]. }
  eexists. rewrite Hsame. split; [exact Hu6|]. by split_and!.
Qed.
End UartHistory.

(** The UART's interrupt is never stale: from initialisation on, whatever
    the guest reads and writes, whatever bytes arrive and whichever updates the
    sink refuses, the interrupt identification register shows the cause that the
    enable and status registers call for, and the connected line is high exactly
    when one of the enabled causes is pending. *)
Theorem uart_irq_consistent `{SerialHost} u base out o w0 err w1 w :
  vart_uart16550_init u base out o w0 = Ok (err, w1) -> rtc (uart_step u) w1 w ->
  exists v, w_uarts w !! u = Some v /\ uart_iir v = uart_cause v /\
    line_at w v (uart_pending v).
Proof.
  intros Hinit Hsteps. assert (uart_ok u w) as (v & Hu & _ & Hi & Hl); [|by exists v].
  apply uart_init_ok in Hinit. induction Hsteps as [|x y z Hxy _ IH]; [done|].
  apply IH. by eapply uart_step_ok.
Qed.

(** * The console's ring as a queue *)

Abbreviation capacity := VART_CONSOLE_INPUT_CAPACITY (only parsing).

Record console_ok (con : VartConsole) : Prop := {
  co_input : Z.of_nat (length (con_input con)) = capacity;
  co_bytes : Forall byte_ok (con_input con);
  co_head : 0 <= con_input_head con < capacity;
  co_count : 0 <= con_input_count con <= capacity;
}.

(** The byte [k] places behind the head, and all that are waiting, in order. *)
Definition ring_at (con : VartConsole) (k : nat) : Z :=
  default 0 (con_input con !! Z.to_nat ((con_input_head con + Z.of_nat k) mod capacity)).
Definition contents (con : VartConsole) : list Z :=
  ring_at con <$> seq 0 (Z.to_nat (con_input_count con)).

Lemma copy_into_spec input at_ bytes w :
  0 <= at_ -> at_ + Z.of_nat (length bytes) <= Z.of_nat (length input) ->
  exists input', copy_into input at_ bytes w = Ok (input', w) /\
    length input' = length input /\
    (Forall byte_ok input -> Forall byte_ok bytes -> Forall byte_ok input') /\
    forall x, 0 <= x -> input' !! Z.to_nat x =
      if decide (at_ <= x < at_ + Z.of_nat (length bytes)) then bytes !! Z.to_nat (x - at_)
      else input !! Z.to_nat x.
Proof.
  intros Ha Hl. unfold copy_into.
  destruct (Z.leb_spec (at_ + Z.of_nat (length bytes)) (Z.of_nat (length input))); [|lia].
  eexists. split; [done|]. split_and!.
  - rewrite !length_app, length_take, length_drop. lia.
  - intros Hi Hb. rewrite !Forall_app. split_and!; [by apply Forall_take|done|by apply Forall_drop].
  - intros x Hx. case_decide as Hd.
    + rewrite lookup_app_r by (rewrite length_take; lia).
      rewrite lookup_app_l by (rewrite length_take; lia). f_equal. rewrite length_take. lia.
    + destruct (Z.lt_ge_cases x at_).
      * rewrite lookup_app_l by (rewrite length_take; lia). apply lookup_take_lt. lia.
      * rewrite !lookup_app_r by (rewrite ?length_take; lia). rewrite lookup_drop.
        f_equal. rewrite length_take. lia.
Qed.

Lemma ring_index h k :
  0 <= h < capacity -> 0 <= k < capacity ->
  (h + k) mod capacity = if decide (h + k < capacity) then h + k else h + k - capacity.
Proof. intros. case_decide; mlia. Qed.

(** Writing [size] bytes behind the last one, split at the end of the array. *)
Lemma ring_append con input data size :
  console_ok con -> 0 <= size <= capacity - con_input_count con ->
  size <= Z.of_nat (length data) ->
  let tail := (con_input_head con + con_input_count con) mod capacity in
  let first := Z.min size (capacity - tail) in
  (forall x, 0 <= x < capacity -> input !! Z.to_nat x =
     if decide (0 <= x < size - first) then data !! Z.to_nat (first + x)
     else if decide (tail <= x < tail + first) then data !! Z.to_nat (x - tail)
     else con_input con !! Z.to_nat x) ->
  contents (con <| con_input := input |> <| con_input_count := con_input_count con + size |>) =
  contents con ++ take (Z.to_nat size) data.
Proof.
  intros [Hlen _ Hh Hc] Hs Hd tail first Hin. unfold contents. cbn.
  rewrite Z2Nat.inj_add, seq_app, fmap_app by lia. cbn [plus].
  assert (con_input_head con + con_input_count con < capacity /\
      tail = con_input_head con + con_input_count con \/
    capacity <= con_input_head con + con_input_count con /\
      tail = con_input_head con + con_input_count con - capacity) as Ht
    by (unfold tail; mlia).
  f_equal.
  - apply list_fmap_ext. intros j k [-> Hj]%lookup_seq. unfold ring_at. cbn. f_equal.
    rewrite ring_index by lia. rewrite Hin by (case_decide; lia).
    repeat case_decide; try done; lia.
  - apply list_eq. intros j. destruct (decide (j < Z.to_nat size)%nat) as [Hj|Hj].
    + rewrite list_lookup_fmap, lookup_seq_lt by done. cbn. rewrite lookup_take_lt by done.
      destruct (lookup_lt_is_Some_2 data j) as [b Hb]; [lia|]. rewrite Hb. f_equal.
      unfold ring_at. cbn.
      assert ((con_input_head con + Z.of_nat (Z.to_nat (con_input_count con) + j)) mod capacity =
        if decide (tail + Z.of_nat j < capacity) then tail + Z.of_nat j
        else tail + Z.of_nat j - capacity) as ->.
      { rewrite Nat2Z.inj_add, Z2Nat.id, Z.add_assoc by lia.
        rewrite <- Z.add_mod_idemp_l by lia. fold tail. apply ring_index; lia. }
      rewrite Hin by (repeat case_decide; lia).
      repeat case_decide; try lia;
        (replace (Z.to_nat _) with j by lia; by rewrite Hb).
    + rewrite !lookup_ge_None_2; [done|rewrite length_take; lia|].
      rewrite length_fmap, length_seq. lia.
Qed.

(** Queueing appends what fits, in order. *)
Lemma queue_input_spec c con data w :
  w_consoles w !! c = Some con -> console_ok con -> is_Some (con_uart con) ->
  Forall byte_ok data ->
  exists n w', vart_console_queue_input (Some c) (Some data) (Z.of_nat (length data)) w =
    Ok (n, w') /\
  if (Z.of_nat (length data) =? 0) || (con_input_count con =? capacity)
  then w' = w /\ n <= 0
  else n = Z.min (Z.of_nat (length data)) (capacity - con_input_count con) /\
    exists con', w' = w <| w_consoles ::= <[c := con']> |> /\ console_ok con' /\
      con_uart con' = con_uart con /\
      contents con' = contents con ++ take (Z.to_nat n) data.
Proof.
  intros Hc [Hlen Hbytes Hhead Hcount] [u Hu] Hdata. unfold vart_console_queue_input.
  assert (load_console c w = Ok (con, w)) as Hld by (unfold load_console; run_unfold; by rewrite Hc).
  rewrite (bind_eq _ _ _ _ _ Hld), Hu.
  destruct (Z.eqb_spec (Z.of_nat (length data)) 0) as [|Hne]; [by eexists _, w|]. cbn [orb].
  destruct (Z.eqb_spec (capacity - con_input_count con) 0).
  { eexists _, w. split; [done|]. destruct (Z.eqb_spec (con_input_count con) capacity); lia || done. }
  destruct (Z.eqb_spec (con_input_count con) capacity); [lia|].
  set (size := if capacity - con_input_count con <? Z.of_nat (length data)
    then capacity - con_input_count con else Z.of_nat (length data)).
  assert (size = Z.min (Z.of_nat (length data)) (capacity - con_input_count con)) as Hsize
    by (unfold size; destruct (Z.ltb_spec (capacity - con_input_count con) (Z.of_nat (length data))); lia).
  clearbody size. set (tail := (con_input_head con + con_input_count con) mod capacity).
  assert (0 <= tail < capacity) as Htail by (apply Z.mod_pos_bound; lia).
  set (first := if size <? capacity - tail then size else capacity - tail).
  assert (first = Z.min size (capacity - tail)) as Hfirst
    by (unfold first; destruct (Z.ltb_spec size (capacity - tail)); lia).
  clearbody first.
  destruct (Z.ltb_spec (Z.of_nat (length data)) size); [lia|].
  assert (length (take (Z.to_nat first) data) = Z.to_nat first) as Hl1 by (rewrite length_take; lia).
  assert (length (take (Z.to_nat (size - first)) (drop (Z.to_nat first) data)) =
    Z.to_nat (size - first)) as Hl2 by (rewrite length_take, length_drop; lia).
  destruct (copy_into_spec (con_input con) tail (take (Z.to_nat first) data) w)
    as (in1 & E1 & Hin1 & Hb1 & Hlk1); [lia|lia|].
  rewrite (bind_eq _ _ _ _ _ E1).
  destruct (copy_into_spec in1 0 (take (Z.to_nat (size - first)) (drop (Z.to_nat first) data)) w)
    as (in2 & E2 & Hin2 & Hb2 & Hlk2); [lia|lia|].
  rewrite (bind_eq _ _ _ _ _ E2). eexists _, _. split; [done|]. split; [done|].
  eexists. split; [done|]. split_and!; [|done|].
  - split; cbn; [lia| |done|lia]. apply Hb2; [apply Hb1; [done|by apply Forall_take]|].
    by apply Forall_take, Forall_drop.
  - apply ring_append; [by split|lia|lia|]. fold tail. rewrite <- Hfirst. intros x Hx.
    rewrite Hlk2, Hlk1, Hl1, Hl2 by lia. rewrite Z.sub_0_r, Z2Nat.id, Z2Nat.id by lia.
    repeat case_decide; rewrite ?lookup_take_lt by lia; rewrite ?lookup_drop;
      try lia; try done; f_equal; lia.
Qed.

Lemma contents_pop con :
  console_ok con -> con_input_count con <> 0 ->
  exists b, con_input con !! Z.to_nat (con_input_head con) = Some b /\ byte_ok b /\
    let con' := con <| con_input_head := (con_input_head con + 1) mod capacity |>
                    <| con_input_count := con_input_count con - 1 |> in
    console_ok con' /\ contents con = b :: contents con'.
Proof.
  intros [Hlen Hb Hh Hc] Hne.
  destruct (lookup_lt_is_Some_2 (con_input con) (Z.to_nat (con_input_head con))) as [b Hlk]; [lia|].
  exists b. split; [done|]. split; [by eapply Forall_lookup_1|]. split.
  { split; cbn; [done|done|apply Z.mod_pos_bound; lia|lia]. }
  unfold contents. cbn. replace (Z.to_nat (con_input_count con))
    with (S (Z.to_nat (con_input_count con - 1))) by lia.
  cbn [seq fmap list_fmap]. f_equal.
  - unfold ring_at. rewrite Z.add_0_r, Z.mod_small, Hlk by lia. done.
  - rewrite <- fmap_S_seq, <- list_fmap_compose. apply list_fmap_ext. intros j k _.
    unfold compose, ring_at.
    assert (forall h k, ((h + 1) mod capacity + Z.of_nat k) mod capacity =
      (h + Z.of_nat (S k)) mod capacity) as He.
    { intros. rewrite Z.add_mod_idemp_l by lia. f_equal. lia. }
    change (con_input_head _) with ((con_input_head con + 1) mod capacity) at 2.
    by rewrite He.
Qed.

(** The bytes on their way to the guest: in the UART, then in the ring. *)
Definition in_flight (v : VartUart16550) (con : VartConsole) : list Z :=
  (if dr v then [uart_rbr v] else []) ++ contents con.

(** The UART [u] and the console [c] in front of it, with the bytes in flight. *)
Definition serial_state (c u : ptr) (w : World) (l : list Z) : Prop :=
  uart_ok u w /\ exists v con, w_uarts w !! u = Some v /\ w_consoles w !! c = Some con /\
    console_ok con /\ con_uart con = Some u /\ in_flight v con = l.

Lemma serial_uart_after c u w w' con ready byte :
  uart_after u w w' ready byte -> w_consoles w !! c = Some con ->
  console_ok con -> con_uart con = Some u ->
  serial_state c u w' ((if ready then [byte] else []) ++ contents con).
Proof.
  intros (Hc & Hok & v' & Hu & <- & <-) Hcon Hco Hcu. split; [done|].
  exists v', con. rewrite Hc. done.
Qed.

Section Console.
Context `{HSH : SerialHost}.

(** Draining moves at most one byte from the ring to the UART: two iterations
    are enough, and the bytes in flight stay the same, in the same order. *)
Lemma drain_loop_spec fuel c u w l n err w' :
  serial_state c u w l -> drain_loop fuel c u n w = Ok (err, w') -> serial_state c u w' l.
Proof using HSH.
  revert w n. induction fuel as [|fuel IH]; intros w n Hst E;
    pose proof Hst as (Hok & v & con & Hu & Hc & Hco & Hcu & Hl); cbn [drain_loop] in E;
    apply bind_Ok in E as (con0 & w0 & [Hc0 ->]%load_console_Ok & E);
    (assert (con0 = con) as -> by congruence);
    (destruct (Z.eqb_spec (con_input_count con) 0); [by injection E as <- <-|]); [done|].
  destruct (contents_pop con Hco) as (b & Hb & Hbyte & Hco' & Hcont); [done|].
  rewrite Hb in E. apply bind_Ok in E as (b' & w0 & Eb & E). injection Eb as <- <-.
  apply bind_Ok in E as (e & w1 & E1 & E).
  pose proof (receive_after u w v b e w1 Hok Hu Hbyte E1) as Hr.
  destruct (Z.eqb_spec e 0) as [->|Hne].
  - destruct Hr as [Hdr Hafter]. cbn in E.
    apply bind_Ok in E as (con1 & w2 & [Hc1 ->]%load_console_Ok & E).
    pose proof Hafter as (Hcs & Hok1 & v1 & Hu1 & Hdr1 & Hrbr).
    assert (con1 = con) as -> by (rewrite Hcs in Hc1; congruence).
    apply bind_Ok in E as ([] & w3 & E3 & E). injection E3 as <-. eapply IH; [|exact E].
    split.
    + destruct Hok1 as (v2 & ? & ? & ? & ?). by exists v2.
    + eexists v1, _. cbn. rewrite lookup_insert_eq. split_and!; [done..|].
      rewrite <- Hl. unfold in_flight. by rewrite Hdr1, Hrbr, Hdr, Hcont.
  - destruct Hr as [Hneg Hafter]. assert (serial_state c u w1 l).
    { rewrite <- Hl. by eapply serial_uart_after. }
    destruct (e =? -EAGAIN); [by injection E as <- <-|].
    destruct (Z.ltb_spec e 0); [|lia]. by injection E as <- <-.
Qed.

(** The sink returns. *)
Class SinkTotal : Prop :=
  sink_total f o line level w : exists err w', call_irq_set f o line level w = Ok (err, w').

Lemma irq_set_total `{!SinkTotal} i line level w :
  w_irqs w !! i = Some line -> exists err w', vart_irq_set (Some i) level w = Ok (err, w').
Proof using HSH.
  intros Hi. unfold vart_irq_set.
  assert (forall w, w_irqs w !! i = Some line -> load_irq i w = Ok (line, w)) as Hld
    by (intros w1 Hw1; unfold load_irq; run_unfold; by rewrite Hw1).
  rewrite (bind_eq _ _ _ _ _ (Hld w Hi)). destruct (irq_set line) as [f|]; [|by eexists _, _].
  destruct (Bool.eqb _ _); [by eexists _, _|].
  destruct (sink_total f (irq_opaque line) (irq_line line) level w) as (e & w1 & E).
  rewrite (bind_eq _ _ _ _ _ E). destruct (e <? 0); [by eexists _, _|].
  apply host_irq in E as [Hirq _ _]. rewrite (bind_eq _ _ _ _ _ (Hld w1 ltac:(congruence))).
  by eexists _, _.
Qed.

Lemma receive_total `{!SinkTotal} u b w :
  uart_ok u w -> exists err w', vart_uart16550_receive (Some u) b w = Ok (err, w').
Proof using HSH.
  intros (v & Hu & _ & _ & Hl). unfold vart_uart16550_receive.
  assert (forall w v, w_uarts w !! u = Some v -> load_uart u w = Ok (v, w)) as Hld
    by (intros w1 v1 Hw1; unfold load_uart; run_unfold; by rewrite Hw1).
  rewrite (bind_eq _ _ _ _ _ (Hld w v Hu)). destruct (bits _ _); [by eexists _, _|].
  set (v1 := v <| uart_rbr := b |> <| uart_lsr ::= _ |>).
  set (w1 := w <| w_uarts ::= <[u := v1]> |>).
  rewrite (bind_eq (store_uart u v1) _ w tt w1) by done.
  assert (w_uarts w1 !! u = Some v1) as Hu1 by apply lookup_insert_eq.
  assert (exists err w2, uart_update_irq u w1 = Ok (err, w2)) as (e & w2 & E).
  { unfold uart_update_irq. rewrite (bind_eq _ _ _ _ _ (Hld w1 v1 Hu1)).
    set (m := match uart_irq v1 with Some _ => _ | None => _ end).
    assert (exists e w2, m w1 = Ok (e, w2) /\ w_uarts w2 = w_uarts w1) as (e & w2 & Em & Hu2).
    { unfold m. change (uart_irq v1) with (uart_irq v). destruct (uart_irq v) as [i|] eqn:Hi.
      - destruct (Hl i Hi) as (line & Hline & _).
        destruct (irq_set_total i line (uart_pending v1) w1 Hline) as (e & w2 & E).
        exists e, w2. split; [done|]. by apply irq_set_cases in E as (? & _).
      - by exists 0, w1. }
    rewrite (bind_eq _ _ _ _ _ Em). destruct (e =? 0); [|by eexists _, _].
    unfold update_uart, bind at 1. rewrite (bind_eq _ _ _ _ _ (Hld w2 v1 ltac:(congruence))).
    by eexists _, _. }
  rewrite (bind_eq _ _ _ _ _ E).
  assert (exists v2, w_uarts w2 !! u = Some v2) as [v2 Hu2].
  { destruct (update_irq_cases u v1 w1 e w2 Hu1 E) as (_ & [(_ & -> & _)|(_ & -> & _)]); [eauto|].
    rewrite lookup_insert_eq. eauto. }
  destruct (e <? 0); [|by eexists _, _]. unfold update_uart, bind at 1.
  rewrite (bind_eq _ _ _ _ _ (Hld w2 v2 Hu2)). by eexists _, _.
Qed.

Lemma drain_loop_total `{!SinkTotal} c u w l n :
  serial_state c u w l ->
  exists r w', drain_loop 2 c u n w = Ok (r, w') /\ (r < 0 \/ r = n \/ r = n + 1).
Proof using HSH.
  intros (Hok & v & con & Hu & Hc & Hco & Hcu & Hl).
  assert (forall w con, w_consoles w !! c = Some con -> load_console c w = Ok (con, w)) as Hld
    by (intros w1 c1 Hw1; unfold load_console; run_unfold; by rewrite Hw1).
  cbn [drain_loop]. rewrite (bind_eq _ _ _ _ _ (Hld w con Hc)).
  destruct (Z.eqb_spec (con_input_count con) 0); [eexists _, w; auto|].
  destruct (contents_pop con Hco) as (b & Hb & Hbyte & Hco' & Hcont); [done|]. rewrite Hb.
  rewrite (bind_eq (deref (Some b)) _ w b w) by done.
  destruct (receive_total u b w Hok) as (e & w1 & E1). rewrite (bind_eq _ _ _ _ _ E1).
  pose proof (receive_after u w v b e w1 Hok Hu Hbyte E1) as Hr.
  destruct (Z.eqb_spec e 0) as [->|Hne].
  2: { destruct Hr as [Hneg _]. destruct (e =? -EAGAIN); [eexists _, w1; auto|].
       destruct (Z.ltb_spec e 0); [|lia]. eexists _, w1. auto. }
  destruct Hr as [_ (Hcs & Hok1 & v1 & Hu1 & Hdr1 & _)].
  change (0 =? -EAGAIN) with false. change (0 <? 0) with false. cbv iota.
  assert (w_consoles w1 !! c = Some con) as Hc1 by congruence.
  rewrite (bind_eq _ _ _ _ _ (Hld w1 con Hc1)).
  set (con2 := con <| con_input_head := _ |> <| con_input_count := _ |>) in *.
  set (w2 := w1 <| w_consoles ::= <[c := con2]> |>).
  rewrite (bind_eq (store_console c con2) _ w1 tt w2) by done.
  rewrite (bind_eq _ _ _ _ _ (Hld w2 con2 (lookup_insert_eq _ _ _))).
  destruct (Z.eqb_spec (con_input_count con2) 0); [eexists _, w2; auto|].
  destruct (contents_pop con2 Hco') as (b2 & Hb2 & _); [done|]. rewrite Hb2.
  rewrite (bind_eq (deref (Some b2)) _ w2 b2 w2) by done.
  assert (vart_uart16550_receive (Some u) b2 w2 = Ok (-EAGAIN, w2)) as E2.
  { unfold vart_uart16550_receive, load_uart. run_unfold. cbn. rewrite Hu1.
    fold (dr v1). by rewrite Hdr1. }
  rewrite (bind_eq _ _ _ _ _ E2). change (-EAGAIN =? -EAGAIN) with true.
  eexists _, w2. auto.
Qed.

(** What reaches the guest: the byte returned by a successful read of the
    receive buffer while data is ready. *)
Definition guest_gets (v : VartUart16550) (offset size err x : Z) : list Z :=
  if bool_decide (offset = 0 /\ size = 1 /\ bits (uart_lcr v) UART_LCR_DLAB = false /\
                  err = 0 /\ dr v = true)
  then [x] else [].

(** Histories of the pair: bytes typed at the host that were accepted, and bytes
    the guest got. *)
Inductive serial_trace (c u : ptr) (w : World) : list Z -> list Z -> World -> Prop :=
| st_start : serial_trace c u w [] [] w
| st_type typed got w1 data n w2 :
    serial_trace c u w typed got w1 -> Forall byte_ok data ->
    vart_console_queue_input (Some c) (Some data) (Z.of_nat (length data)) w1 = Ok (n, w2) ->
    serial_trace c u w (typed ++ take (Z.to_nat n) data) got w2
| st_drain typed got w1 fuel n w2 :
    serial_trace c u w typed got w1 ->
    vart_console_drain_input fuel (Some c) w1 = Ok (n, w2) ->
    serial_trace c u w typed got w2
| st_read typed got w1 v offset size value err x w2 :
    serial_trace c u w typed got w1 -> w_uarts w1 !! u = Some v ->
    uart_read (Some u) offset size value w1 = Ok ((err, x), w2) ->
    serial_trace c u w typed (got ++ guest_gets v offset size err x) w2
| st_write typed got w1 offset size value err w2 :
    serial_trace c u w typed got w1 ->
    uart_write (Some u) offset size value w1 = Ok (err, w2) ->
    serial_trace c u w typed got w2.

Lemma serial_trace_state c u w typed got w' :
  serial_state c u w [] -> serial_trace c u w typed got w' ->
  exists l, serial_state c u w' l /\ typed = got ++ l.
Proof using HSH.
  intros Hst0. induction 1 as [|typed got w1 data n w2 _ IH Hd E|typed got w1 fuel n w2 _ IH E
    |typed got w1 v offset size value err x w2 _ IH Hu E|typed got w1 offset size value err w2 _ IH E].
  - by exists [].
  - destruct IH as (l & (Hok & v & con & Hu & Hc & Hco & Hcu & Hl) & ->).
    destruct (queue_input_spec c con data w1 Hc Hco) as (n' & w' & E' & Hcase); [by eexists|done|].
    rewrite E' in E. injection E as <- <-. destruct (_ || _).
    + destruct Hcase as [-> Hn]. replace (Z.to_nat n') with 0%nat by lia. rewrite take_0, app_nil_r.
      exists l. split; [|done]. split; [done|]. by exists v, con.
    + destruct Hcase as (_ & con' & -> & Hco' & Hcu' & Hcont).
      exists (l ++ take (Z.to_nat n') data). split; [|by rewrite app_assoc].
      split; [exact Hok|]. exists v, con'. cbn. rewrite lookup_insert_eq.
      split_and!; [done..|congruence|]. rewrite <- Hl. unfold in_flight.
      by rewrite Hcont, app_assoc.
  - destruct IH as (l & Hst & ->). exists l. split; [|done].
    unfold vart_console_drain_input in E. pose proof Hst as (_ & v & con & _ & Hc & _ & Hcu & _).
    apply bind_Ok in E as (con0 & w0 & [Hc0 ->]%load_console_Ok & E).
    assert (con0 = con) as -> by congruence. rewrite Hcu in E. by eapply drain_loop_spec.
  - destruct IH as (l & (Hok & v0 & con & Hu0 & Hc & Hco & Hcu & Hl) & ->).
    assert (v0 = v) as -> by congruence.
    pose proof (read_after u w1 v offset size value err x w2 Hok Hu E) as Ha.
    unfold guest_gets. case_bool_decide as Hc1.
    + destruct Ha as [-> Ha]. exists (contents con).
      split; [by apply (serial_uart_after c u w1 w2 con false (uart_rbr v))|].
      rewrite <- Hl. unfold in_flight. destruct (dr v).
      * rewrite bool_decide_true by tauto. by rewrite <- app_assoc.
      * rewrite bool_decide_false by (intros (_ & _ & _ & _ & ?); done). by rewrite app_nil_r.
    + rewrite bool_decide_false by tauto. rewrite app_nil_r. exists l. split; [|done].
      rewrite <- Hl. by eapply serial_uart_after.
  - destruct IH as (l & (Hok & v0 & con & Hu0 & Hc & Hco & Hcu & Hl) & ->). exists l. split; [|done].
    pose proof (write_after u w1 v0 offset size value err w2 Hok Hu0 E) as Ha.
    rewrite <- Hl. by eapply serial_uart_after.
Qed.
End Console.

(** Console input reaches the guest complete and in order: over any history
    of typing, draining and guest accesses, with any of the interrupt updates
    refused, the bytes the guest has read followed by the one in the UART and
    those in the ring are exactly the bytes that were accepted. *)
Theorem console_input_in_order `{SerialHost} c u w typed got w' :
  serial_state c u w [] -> serial_trace c u w typed got w' ->
  exists v con, w_uarts w' !! u = Some v /\ w_consoles w' !! c = Some con /\
    typed = got ++ (if dr v then [uart_rbr v] else []) ++ contents con.
Proof.
  intros Hst Ht. destruct (serial_trace_state c u w typed got w' Hst Ht)
    as (l & (_ & v & con & Hu & Hc & _ & _ & <-) & ->). by exists v, con.
Qed.

(** Draining terminates and hands over at most one byte: with a sink that
    returns, two iterations of the loop are enough; the result is an error, 0 or
    1, and the bytes on their way to the guest stay the same. *)
Theorem console_drain_terminates `{SerialHost} `{!SinkTotal} c u w l :
  serial_state c u w l ->
  exists r w', vart_console_drain_input 2 (Some c) w = Ok (r, w') /\
    (r < 0 \/ r = 0 \/ r = 1) /\ serial_state c u w' l.
Proof.
  intros Hst. destruct (drain_loop_total c u w l 0 Hst) as (r & w' & E & Hr).
  exists r, w'. split; [|split; [lia|by eapply drain_loop_spec]].
  destruct Hst as (_ & v & con & _ & Hc & _ & Hcu & _). unfold vart_console_drain_input.
  assert (load_console c w = Ok (con, w)) as Hld by (unfold load_console; run_unfold; by rewrite Hc).
  by rewrite (bind_eq _ _ _ _ _ Hld), Hcu.
Qed.

(** * A concrete serial port

    The sink accepts every change; the console has been given "ok" and has
    handed the first byte to the UART, whose receive interrupt is enabled. *)
Module SerialDemo.
Import AddressSpace.Demo.

#[export] Instance accept : IrqCallbacks := fun _ _ _ _ => ret 0.
#[export] Instance discard : OutputCallbacks := fun _ _ _ => ret tt.
#[export] Instance demo_host : SerialHost.
Proof. split; intros; unfold call_irq_set, call_output, accept, discard in *; by inv_ok. Qed.
#[export] Instance demo_sink : SinkTotal.
Proof. intros f o line level w. exists 0, w. done. Qed.

Definition port : ptr := 1%positive.
Definition console : ptr := 1%positive.
Definition line : ptr := 1%positive.
Definition w0 : World := empty_world
  <| w_uarts := {[port := zero_uart 1%positive 1%positive]} |>
  <| w_irqs := {[line := mkIrq (Some (fn_external 1)) None 10 false]} |>.
Definition w1 := exec (vart_uart16550_init port 0x10000000 None None) w0.
Definition w2 := exec (vart_uart16550_connect_irq (Some port) (Some line)) w1.
Definition w3 := exec (uart_write (Some port) 1 1 1) w2.
Definition w4 := exec (vart_uart16550_receive (Some port) 111) w3.

(** With a byte waiting and the receive interrupt enabled the line is high. *)
Lemma uart_irq_consistent_witness :
  exists v, w_uarts w4 !! port = Some v /\ uart_iir v = uart_cause v /\
    line_at w4 v (uart_pending v).
Proof.
  apply (uart_irq_consistent port 0x10000000 None None w0 0 w1 w4).
  - vm_compute. reflexivity.
  - apply (rtc_l _ _ w2). { apply (us_connect _ _ _ line 0). vm_compute. reflexivity. }
    apply (rtc_l _ _ w3). { apply (us_write _ _ _ 1 1 1 0). vm_compute. reflexivity. }
    apply rtc_once. apply (us_receive _ _ _ 111 0); [unfold byte_ok; lia|].
    vm_compute. reflexivity.
Defined.

Definition uart3 : VartUart16550 :=
  mkUart 1%positive 1%positive 1 1 0 0 0 0x60 0 0 0 0 (Some line) None None.
Definition con0 : VartConsole := mkConsole (Some port) (repeat 0 4096) 0 0.
Definition c0 := w3 <| w_consoles := {[console := con0]} |>.

Lemma con0_ok : console_ok con0.
Proof.
  split; [reflexivity| |cbn; lia|cbn; lia]. apply Forall_forall. intros x Hx.
  apply list_elem_of_In, repeat_spec in Hx. subst x. unfold byte_ok. lia.
Qed.

Lemma c0_state : serial_state console port c0 [].
Proof.
  split.
  - exists uart3. split; [vm_compute; reflexivity|]. split; [unfold byte_ok; cbn; lia|].
    split; [reflexivity|]. intros i Hi. injection Hi as <-. eexists.
    split; [vm_compute; reflexivity|]. split; [by eexists|reflexivity].
  - exists uart3, con0. split; [vm_compute; reflexivity|]. split; [reflexivity|].
    split; [apply con0_ok|]. by split.
Qed.

Lemma console_drain_terminates_witness :
  exists r w', vart_console_drain_input 2 (Some console) c0 = Ok (r, w') /\
    (r < 0 \/ r = 0 \/ r = 1) /\ serial_state console port w' [].
Proof. apply (console_drain_terminates console port c0 []). apply c0_state. Defined.

Definition c1 := exec (vart_console_queue_input (Some console) (Some [111; 107]) 2) c0.
Definition c2 := exec (vart_console_drain_input 2 (Some console)) c1.

(** The guest reads the first byte; the second is still in the ring. *)
Lemma console_input_in_order_witness :
  exists v con, w_uarts c2 !! port = Some v /\ w_consoles c2 !! console = Some con /\
    [111; 107] = [] ++ (if dr v then [uart_rbr v] else []) ++ contents con.
Proof.
  apply (console_input_in_order console port c0 [111; 107] [] c2).
  - apply c0_state.
  - apply (st_drain _ _ _ _ _ c1 2 1); [|vm_compute; reflexivity].
    apply (st_type _ _ _ [] [] c0 [111; 107] 2 c1); [constructor| |vm_compute; reflexivity].
    repeat (constructor; [unfold byte_ok; lia|]). constructor.
Defined.
End SerialDemo.
