(* ===== verification/Fdt.v ===== *)
(** The flattened device tree builder: [src/boot/fdt.c].

    A tree is written as a stream of tokens into the structure buffer and of
    property names into the strings buffer, between [vart_fdt_init] and
    [vart_fdt_finish], which lays both out in one blob.  [parse_dtb] reads such a
    blob back, following the Devicetree specification; the theorems say that the
    blob holds exactly the tree that the calls described, and that the buffers
    are never overrun. *)

From stdpp Require Import base tactics numbers list gmap.
From Stdlib Require Import ZArith Lia.
From S2P Require Import Prelude Bytes Machine.

Abbreviation FDT_BEGIN_NODE := 1 (only parsing).
Abbreviation FDT_END_NODE := 2 (only parsing).
Abbreviation FDT_PROP := 3 (only parsing).
Abbreviation FDT_END := 9 (only parsing).
Abbreviation FDT_HEADER_SIZE := 40 (only parsing).
Abbreviation FDT_RESERVE_MAP_SIZE := 16 (only parsing).
Abbreviation FDT_VERSION := 17 (only parsing).
Abbreviation FDT_LAST_COMP_VERSION := 16 (only parsing).
Abbreviation VART_FDT_MAGIC := 0xd00dfeed (only parsing).
Abbreviation EINTR := 4 (only parsing).

(** * Buffers and strings

    A C string is the list of its bytes without the final NUL. *)

(** [memcpy(buffer + at, bytes, n)]; through NULL or past the end it is
    undefined. *)
Definition write_at {A} (buffer : option (list A)) (at_ : Z) (data : list A)
    : M World (option (list A)) :=
  let* b := deref buffer in
  if (0 <=? at_) && (at_ + Z.of_nat (length data) <=? Z.of_nat (length b))
  then ret (Some (take (Z.to_nat at_) b ++ data ++ drop (Z.to_nat at_ + length data) b))
  else undefined.

(** The C string that starts the buffer; [None] when no NUL ends it. *)
Fixpoint c_string (buffer : list Z) : option (list Z) :=
  match buffer with
  | [] => None
  | b :: rest => if b =? 0 then Some [] else s ← c_string rest; Some (b :: s)
  end.

(** [calloc(n, size)]. *)
Definition calloc {A} (zero : A) (n : Z) : M World (option (list A)) :=
  let* ok := allocate in
  ret (if ok then Some (replicate (Z.to_nat n) zero) else None).

Definition write_be32 (value : Z) : list Z :=
  [u8 (Z.shiftr value 24); u8 (Z.shiftr value 16); u8 (Z.shiftr value 8); u8 value].

Definition write_be64 (value : Z) : list Z :=
  write_be32 (u32 (Z.shiftr value 32)) ++ write_be32 (u32 value).

(** The result and the value left in [*result]. *)
Definition aligned_size (size alignment result : Z) : Z * Z :=
  let mask := alignment - 1 in
  if SIZE_MAX - mask <? size then (-EOVERFLOW, result)
  else (0, Z.land (size + mask) (Z.lnot mask)).

Definition reserve_structure (fdt : VartFdt) (size padded : Z) : Z * Z :=
  let '(err, padded) := aligned_size size 4 padded in
  if (err <? 0) ||
     (u64 (fdt_structure_capacity fdt - fdt_structure_size fdt) <? padded)
  then (if err <? 0 then err else -ENOSPC, padded)
  else (0, padded).

(** Writes at the end of the structure buffer; the caller moves the end. *)
Definition put_structure (fdt : VartFdt) (data : list Z) : M World VartFdt :=
  let* b := write_at (fdt_structure fdt) (fdt_structure_size fdt) data in
  ret (fdt <| fdt_structure := b |>).

Definition append_u32 (fdt : VartFdt) (value : Z) : M World VartFdt :=
  let* fdt := put_structure fdt (write_be32 value) in
  ret (fdt <| fdt_structure_size ::= (fun n => n + 4) |>).

(** [fdt->structure_size = (fdt->structure_size + 3) & ~(size_t)3]. *)
Definition align_structure (fdt : VartFdt) : VartFdt :=
  fdt <| fdt_structure_size ::= (fun n => Z.land (n + 3) (Z.lnot 3)) |>.

(** [memcpy] of [data] at the end, whose size is then added and rounded up. *)
Definition append_aligned (fdt : VartFdt) (data : list Z) : M World VartFdt :=
  let* fdt := put_structure fdt data in
  ret (align_structure (fdt <| fdt_structure_size ::= (fun n => n + Z.of_nat (length data)) |>)).

(** The [while] loop: the offset of [string] among the strings from [cursor] on. *)
Fixpoint find_string_loop (fuel : nat) (strings : list Z) (size cursor : Z)
    (string : list Z) : M World (option Z) :=
  if cursor <? size then
    match fuel with
    | O => out_of_fuel
    | S fuel =>
        let* s := deref (c_string (drop (Z.to_nat cursor) strings)) in
        if decide (s = string) then ret (Some (u32 cursor))
        else find_string_loop fuel strings size
               (cursor + Z.of_nat (length s) + 1) string
    end
  else ret None.

(** Each iteration moves the cursor by at least one byte, so [strings_size]
    iterations are enough. *)
Definition find_string (fdt : VartFdt) (string : list Z) : M World (option Z) :=
  if 0 <? fdt_strings_size fdt then
    let* strings := deref (fdt_strings fdt) in
    find_string_loop (Z.to_nat (fdt_strings_size fdt)) strings
      (fdt_strings_size fdt) 0 string
  else ret None.

(** * Life cycle *)

Definition zero_fdt : VartFdt := mkFdt None 0 0 None 0 0 None 0 0 false false false.

Definition vart_fdt_destroy (fdt : option ptr) : M World unit :=
  match fdt with
  | None => ret tt
  | Some f => store_fdt f zero_fdt
  end.

Definition vart_fdt_init (fdt : option ptr) (structure_capacity strings_capacity : Z)
    : M World Z :=
  match fdt with
  | None => ret (-EINVAL)
  | Some f =>
      if (structure_capacity =? 0) || (strings_capacity =? 0) then ret (-EINVAL)
      else if (UINT32_MAX <? structure_capacity) || (UINT32_MAX <? strings_capacity)
      then ret (-EOVERFLOW)
      else
        let* structure := calloc 0 structure_capacity in
        let* strings := calloc 0 strings_capacity in
        let depth_capacity := structure_capacity / 8 + 1 in
        let* child_seen := calloc false depth_capacity in
        let fdt := zero_fdt <| fdt_structure := structure |> <| fdt_strings := strings |>
          <| fdt_depth_capacity := depth_capacity |> <| fdt_child_seen := child_seen |> in
        match structure, strings, child_seen with
        | Some _, Some _, Some _ =>
            store_fdt f (fdt <| fdt_structure_capacity := structure_capacity |>
                             <| fdt_strings_capacity := strings_capacity |>) ;;;
            ret 0
        | _, _, _ => store_fdt f fdt ;;; vart_fdt_destroy (Some f) ;;; ret (-ENOMEM)
        end
  end.

(** * Nodes and properties *)

(** [fdt->child_seen[index] = value]. *)
Definition set_child_seen (fdt : VartFdt) (index : Z) (value : bool) : M World VartFdt :=
  let* b := write_at (fdt_child_seen fdt) index [value] in
  ret (fdt <| fdt_child_seen := b |>).

(** The flags and the depth once a node has begun. *)
Definition enter_node (fdt : VartFdt) : M World VartFdt :=
  let* fdt := if negb (fdt_depth fdt =? 0)
              then set_child_seen fdt (fdt_depth fdt - 1) true
              else ret fdt in
  let* fdt := set_child_seen fdt (fdt_depth fdt) false in
  ret (fdt <| fdt_depth ::= (fun d => u32 (d + 1)) |> <| fdt_root_seen := true |>).

Definition slash : Z := 47.

(** The arguments that the first test of [vart_fdt_begin_node] refuses. *)
Definition begin_invalid (fdt : VartFdt) (name : list Z) : bool :=
  fdt_finished fdt || fdt_root_closed fdt ||
  (negb (fdt_root_seen fdt) && negb (bool_decide (name = []))) ||
  (fdt_root_seen fdt && bool_decide (name = [])) ||
  bool_decide (slash ∈ name).

Definition vart_fdt_begin_node (fdt : option ptr) (name : option (list Z)) : M World Z :=
  match fdt, name with
  | Some p, Some name =>
      let* fdt := load_fdt p in
      if begin_invalid fdt name then ret (-EINVAL)
      else if fdt_depth_capacity fdt <=? fdt_depth fdt then ret (-EOVERFLOW)
      else
        let name_size := Z.of_nat (length name) + 1 in
        if SIZE_MAX - 4 <? name_size then ret (-EOVERFLOW)
        else
          let '(err, _) := reserve_structure fdt (4 + name_size) 0 in
          if err <? 0 then ret err
          else
            let* fdt := append_u32 fdt FDT_BEGIN_NODE in
            let* fdt := append_aligned fdt (name ++ [0]) in
            let* fdt := enter_node fdt in
            store_fdt p fdt ;;;
            ret 0
  | _, _ => ret (-EINVAL)
  end.

Definition vart_fdt_end_node (fdt : option ptr) : M World Z :=
  match fdt with
  | None => ret (-EINVAL)
  | Some p =>
      let* fdt := load_fdt p in
      if fdt_finished fdt || (fdt_depth fdt =? 0) then ret (-EINVAL)
      else
        let '(err, _) := reserve_structure fdt 4 0 in
        if err <? 0 then ret err
        else
          let* fdt := append_u32 fdt FDT_END_NODE in
          let fdt := fdt <| fdt_depth ::= (fun d => d - 1) |> in
          store_fdt p (if fdt_depth fdt =? 0
                       then fdt <| fdt_root_closed := true |> else fdt) ;;;
          ret 0
  end.

(** The offset of the name in the strings buffer, adding it when it is new;
    [None] when there is no room for it. *)
Definition intern_name (fdt : VartFdt) (name : list Z) : M World (option (VartFdt * Z)) :=
  let* found := find_string fdt name in
  match found with
  | Some offset => ret (Some (fdt, offset))
  | None =>
      let string_size := Z.of_nat (length name) + 1 in
      if u64 (fdt_strings_capacity fdt - fdt_strings_size fdt) <? string_size
      then ret None
      else
        let name_offset := u32 (fdt_strings_size fdt) in
        let* b := write_at (fdt_strings fdt) (fdt_strings_size fdt) (name ++ [0]) in
        ret (Some (fdt <| fdt_strings := b |>
                       <| fdt_strings_size ::= (fun n => n + string_size) |>,
                   name_offset))
  end.

(** The token, the size, the offset of the name and the data. *)
Definition emit_property (fdt : VartFdt) (name_offset : Z) (data : option (list Z))
    (size : Z) : M World VartFdt :=
  let* fdt := append_u32 fdt FDT_PROP in
  let* fdt := append_u32 fdt (u32 size) in
  let* fdt := append_u32 fdt name_offset in
  if negb (size =? 0) then
    let* d := deref data in
    if Z.of_nat (length d) <? size then undefined
    else append_aligned fdt (take (Z.to_nat size) d)
  else ret (align_structure fdt).

(** [data] points to [size] bytes. *)
Definition vart_fdt_property (fdt : option ptr) (name data : option (list Z)) (size : Z)
    : M World Z :=
  match fdt, name with
  | Some p, Some name =>
      if bool_decide (name = []) || (bool_decide (data = None) && negb (size =? 0))
      then ret (-EINVAL)
      else
        let* fdt := load_fdt p in
        if fdt_finished fdt || (fdt_depth fdt =? 0) then ret (-EINVAL)
        else
          let* seen := deref (fdt_child_seen fdt) in
          let* closed := deref (seen !! Z.to_nat (fdt_depth fdt - 1)) in
          if (closed : bool) then ret (-EINVAL)
          else if UINT32_MAX <? size then ret (-EOVERFLOW)
          else if SIZE_MAX - 3 * 4 <? size then ret (-EOVERFLOW)
          else
            let '(err, _) := reserve_structure fdt (3 * 4 + size) 0 in
            if err <? 0 then ret err
            else
              let* interned := intern_name fdt name in
              match interned with
              | None => ret (-ENOSPC)
              | Some (fdt, name_offset) =>
                  let* fdt := emit_property fdt name_offset data size in
                  store_fdt p fdt ;;;
                  ret 0
              end
  | _, _ => ret (-EINVAL)
  end.

Definition vart_fdt_property_string (fdt : option ptr) (name value : option (list Z))
    : M World Z :=
  match value with
  | None => ret (-EINVAL)
  | Some v => vart_fdt_property fdt name (Some (v ++ [0])) (Z.of_nat (length v) + 1)
  end.

Definition vart_fdt_property_u32 (fdt : option ptr) (name : option (list Z)) (value : Z)
    : M World Z :=
  vart_fdt_property fdt name (Some (write_be32 value)) 4.

Definition vart_fdt_property_u64 (fdt : option ptr) (name : option (list Z)) (value : Z)
    : M World Z :=
  vart_fdt_property fdt name (Some (write_be64 value)) 8.

(** [cells] points to [count] cells. *)
Definition vart_fdt_property_cells (fdt : option ptr) (name cells : option (list Z))
    (count : Z) : M World Z :=
  if bool_decide (cells = None) && negb (count =? 0) then ret (-EINVAL)
  else if UINT32_MAX / 4 <? count then ret (-EOVERFLOW)
  else
    let size := count * 4 in
    if size =? 0 then vart_fdt_property fdt name None 0
    else
      let* ok := allocate in
      if (ok : bool) then
        let* c := deref cells in
        if Z.of_nat (length c) <? count then undefined
        else
          let data := concat (map write_be32 (take (Z.to_nat count) c)) in
          vart_fdt_property fdt name (Some data) size
      else ret (-ENOMEM).

(** * The blob *)

Definition write_header_u32 (blob : option (list Z)) (offset value : Z)
    : M World (option (list Z)) := write_at blob offset (write_be32 value).

(** Everything written into the zeroed blob, in order. *)
Definition fill_blob (fdt : VartFdt) (result : option (list Z))
    (structure_offset strings_offset total_size : Z) : M World (option (list Z)) :=
  let* structure := deref (fdt_structure fdt) in
  let* result := write_at result structure_offset
                   (take (Z.to_nat (fdt_structure_size fdt)) structure) in
  let* strings := deref (fdt_strings fdt) in
  let* result := write_at result strings_offset
                   (take (Z.to_nat (fdt_strings_size fdt)) strings) in
  let* result := write_header_u32 result 0 VART_FDT_MAGIC in
  let* result := write_header_u32 result 4 (u32 total_size) in
  let* result := write_header_u32 result 8 (u32 structure_offset) in
  let* result := write_header_u32 result 12 (u32 strings_offset) in
  let* result := write_header_u32 result 16 FDT_HEADER_SIZE in
  let* result := write_header_u32 result 20 FDT_VERSION in
  let* result := write_header_u32 result 24 FDT_LAST_COMP_VERSION in
  let* result := write_header_u32 result 28 0 in
  let* result := write_header_u32 result 32 (u32 (fdt_strings_size fdt)) in
  write_header_u32 result 36 (u32 (fdt_structure_size fdt)).

(** The error code with the blob and the size stored through [blob] and [size];
    [outputs] says that neither pointer is NULL. *)
Definition vart_fdt_finish (fdt : option ptr) (outputs : bool)
    : M World (Z * option (list Z * Z)) :=
  match fdt with
  | None => ret (-EINVAL, None)
  | Some p =>
      let* fdt := load_fdt p in
      let structure_offset := FDT_HEADER_SIZE + FDT_RESERVE_MAP_SIZE in
      if negb outputs || fdt_finished fdt || negb (fdt_root_seen fdt) ||
         negb (fdt_root_closed fdt) || negb (fdt_depth fdt =? 0)
      then ret (-EINVAL, None)
      else
        let '(err, _) := reserve_structure fdt 4 0 in
        if err <? 0 then ret (err, None)
        else if SIZE_MAX - fdt_structure_size fdt - 4 <? structure_offset
        then ret (-EOVERFLOW, None)
        else
          let strings_offset := structure_offset + fdt_structure_size fdt + 4 in
          if (UINT32_MAX <? strings_offset) ||
             (UINT32_MAX - strings_offset <? fdt_strings_size fdt)
          then ret (-EOVERFLOW, None)
          else
            let total_size := strings_offset + fdt_strings_size fdt in
            let* result := calloc 0 total_size in
            match result with
            | None => ret (-ENOMEM, None)
            | Some _ =>
                let* fdt := append_u32 fdt FDT_END in
                let* result := fill_blob fdt result structure_offset strings_offset
                                 total_size in
                store_fdt p (fdt <| fdt_finished := true |>) ;;;
                let* blob := deref result in
                ret (0, Some (blob, total_size))
            end
  end.

(** [open], [write] and [close]: a count or a descriptor, or the negated
    [errno]. *)
Class HostFiles := {
  host_open : list Z -> M World Z;
  host_write_file : Z -> list Z -> M World Z;
  host_close : Z -> M World Z;
}.

(** The [while] loop of [vart_fdt_dump], over the bytes not yet written. *)
Fixpoint dump_loop `{HostFiles} (fuel : nat) (fd : Z) (bytes : list Z) : M World Z :=
  match bytes with
  | [] => ret 0
  | _ =>
      match fuel with
      | O => out_of_fuel
      | S fuel =>
          let* count := host_write_file fd bytes in
          if count <? 0 then
            if count =? -EINTR then dump_loop fuel fd bytes else ret count
          else if count =? 0 then ret (-EIO)
          else dump_loop fuel fd (drop (Z.to_nat count) bytes)
      end
  end.

Definition vart_fdt_dump `{HostFiles} (fuel : nat) (blob : option (list Z)) (size : Z)
    (path : option (list Z)) : M World Z :=
  match blob, path with
  | Some bytes, Some path =>
      if (size <? FDT_HEADER_SIZE) || bool_decide (path = []) then ret (-EINVAL)
      else
        let* fd := host_open path in
        if fd <? 0 then ret fd
        else if Z.of_nat (length bytes) <? size then undefined
        else
          let* err := dump_loop fuel fd (take (Z.to_nat size) bytes) in
          let* closed := host_close fd in
          ret (if (closed <? 0) && (err =? 0) then closed else err)
  | _, _ => ret (-EINVAL)
  end.

(** * Device trees and their flattened form *)

#[local] Set Warnings "-register-all".
Inductive node : Type :=
| Node (name : list Z) (props : list (list Z * list Z)) (children : list node).

(** What the calls describe, and what the tokens of a structure block say. *)
Inductive event : Type :=
| EBegin (name : list Z)
| EProp (name data : list Z)
| EEnd.

(** A node whose end has not been reached. *)
Record frame := Frame {
  fr_name : list Z;
  fr_props : list (list Z * list Z);
  fr_children : list node;
}.
Definition close_frame (f : frame) : node :=
  Node (fr_name f) (fr_props f) (fr_children f).

(** The open nodes, innermost first, and the root once it is closed. *)
Record tree_state := TreeState { ts_open : list frame; ts_root : option node }.

(** The rules of a device tree: one root, with the empty name; every other node
    has a name without a slash; properties come before child nodes. *)
Definition tree_step (s : tree_state) (e : event) : option tree_state :=
  match e, s with
  | EBegin n, TreeState [] None =>
      if decide (n = []) then Some (TreeState [Frame n [] []] None) else None
  | EBegin n, TreeState (f :: rest) None =>
      if decide (n <> [] /\ slash ∉ n)
      then Some (TreeState (Frame n [] [] :: f :: rest) None) else None
  | EProp n d, TreeState (Frame name ps [] :: rest) None =>
      if decide (n <> [])
      then Some (TreeState (Frame name (ps ++ [(n, d)]) [] :: rest) None) else None
  | EEnd, TreeState [f] None => Some (TreeState [] (Some (close_frame f)))
  | EEnd, TreeState (f :: Frame name ps cs :: rest) None =>
      Some (TreeState (Frame name ps (cs ++ [close_frame f]) :: rest) None)
  | _, _ => None
  end.

Fixpoint replay (s : tree_state) (es : list event) : option tree_state :=
  match es with
  | [] => Some s
  | e :: es => s ← tree_step s e; replay s es
  end.

(** The tree of a complete sequence of events. *)
Definition tree_of (es : list event) : option node :=
  match replay (TreeState [] None) es with
  | Some (TreeState [] (Some t)) => Some t
  | _ => None
  end.

Lemma replay_snoc_eq s es e s1 :
  replay s es = Some s1 -> replay s (es ++ [e]) = tree_step s1 e.
Proof.
  revert s. induction es as [|e0 es IH]; intros s; simpl.
  - intros [= ->]. by destruct (tree_step s1 e).
  - destruct (tree_step s e0); simpl; [apply IH|done].
Qed.

(** Once the root is closed no node is open. *)
Lemma tree_step_root s e s' :
  tree_step s e = Some s' -> ts_root s' <> None -> ts_open s' = [].
Proof.
  destruct e, s as [[|[fn fp [|]] [|[]]] [|]]; simpl; intros; repeat case_decide;
    simplify_eq; done.
Qed.

(** ** Reading a blob *)

Definition take_be32 (l : list Z) : option (Z * list Z) :=
  match l with
  | a :: b :: c :: d :: rest => Some (((a * 256 + b) * 256 + c) * 256 + d, rest)
  | _ => None
  end.

(** The bytes that pad [n] bytes to a multiple of four. *)
Definition padding (n : nat) : nat := ((4 - n mod 4) mod 4)%nat.

(** The events of a structure block, up to the [FDT_END] that must end it. *)
Fixpoint decode (fuel : nat) (bytes strings : list Z) : option (list event) :=
  match fuel with
  | O => None
  | S fuel =>
      '(token, rest) ← take_be32 bytes;
      if token =? FDT_BEGIN_NODE then
        name ← c_string rest;
        let n := S (length name) in
        es ← decode fuel (drop (n + padding n) rest) strings;
        Some (EBegin name :: es)
      else if token =? FDT_END_NODE then
        es ← decode fuel rest strings;
        Some (EEnd :: es)
      else if token =? FDT_PROP then
        '(size, rest) ← take_be32 rest;
        '(offset, rest) ← take_be32 rest;
        name ← c_string (drop (Z.to_nat offset) strings);
        if Z.of_nat (length rest) <? size then None
        else
          let n := Z.to_nat size in
          es ← decode fuel (drop (n + padding n) rest) strings;
          Some (EProp name (take n rest) :: es)
      else if token =? FDT_END then
        if decide (rest = []) then Some [] else None
      else None
  end.

Definition be32_at (blob : list Z) (offset : nat) : option Z :=
  fst <$> take_be32 (drop offset blob).

(** The bytes [offset .. offset + size) of the blob. *)
Definition block (blob : list Z) (offset size : Z) : option (list Z) :=
  if offset + size <=? Z.of_nat (length blob)
  then Some (take (Z.to_nat size) (drop (Z.to_nat offset) blob)) else None.

(** The tree in a version 17 blob: the header, an empty memory reservation block,
    the structure block and the strings block. *)
Definition parse_dtb (blob : list Z) : option node :=
  magic ← be32_at blob 0; total ← be32_at blob 4;
  off_structure ← be32_at blob 8; off_strings ← be32_at blob 12;
  off_reserve ← be32_at blob 16; version ← be32_at blob 20;
  last_compatible ← be32_at blob 24;
  size_strings ← be32_at blob 32; size_structure ← be32_at blob 36;
  structure ← block blob off_structure size_structure;
  strings ← block blob off_strings size_strings;
  reserve ← block blob off_reserve 16;
  if decide (magic = VART_FDT_MAGIC /\ total = Z.of_nat (length blob) /\
             off_structure mod 4 = 0 /\ off_reserve mod 8 = 0 /\
             version = 17 /\ last_compatible = 16 /\ reserve = replicate 16 0)
  then es ← decode (length structure) structure strings; tree_of es
  else None.


(** * The builder's buffers *)

Abbreviation zlen l := (Z.of_nat (length l)).

(** A zeroed allocation of [cap] bytes whose first bytes are [c]. *)
Definition buffer (cap : Z) (c : list Z) : list Z :=
  c ++ replicate (Z.to_nat cap - length c) 0.

(** The struct of a builder: the buffers hold [c] and [strs]. *)
Definition image (cap scap : Z) (c strs : list Z) (seen : list bool) (depth : Z)
    (root_seen root_closed finished : bool) : VartFdt :=
  mkFdt (Some (buffer cap c)) (zlen c) cap (Some (buffer scap strs)) (zlen strs) scap
    (Some seen) (cap / 8 + 1) depth root_seen root_closed finished.

(** Writing right after the contents of a zeroed buffer. *)
Lemma write_at_end cap c d w :
  zlen c + zlen d <= cap ->
  write_at (Some (buffer cap c)) (zlen c) d w = Ok (Some (buffer cap (c ++ d)), w).
Proof.
  intros Hcap. unfold write_at, buffer. cbn [deref]. unfold bind, ret.
  rewrite length_app, length_replicate.
  rewrite (proj2 (Z.leb_le 0 (zlen c))) by lia. rewrite (proj2 (Z.leb_le _ _)) by lia. cbn [andb].
  rewrite Nat2Z.id, take_app_length, drop_app_ge by lia.
  rewrite drop_replicate, length_app. do 3 f_equal. rewrite <- app_assoc. do 3 f_equal. lia.
Qed.

(** Bytes of a zeroed buffer past its contents are padding already. *)
Lemma buffer_pad cap c n :
  zlen c + Z.of_nat n <= cap -> buffer cap (c ++ replicate n 0) = buffer cap c.
Proof.
  intros Hn. unfold buffer.
  rewrite <- app_assoc, <- replicate_add, length_app, length_replicate.
  do 2 f_equal. lia.
Qed.

Lemma write_be32_length v : length (write_be32 v) = 4%nat.
Proof. done. Qed.

Lemma padding_value n : Z.of_nat (padding n) = (- Z.of_nat n) mod 4.
Proof.
  unfold padding. pose proof (Nat.mod_upper_bound n 4 ltac:(lia)).
  rewrite Nat2Z.inj_mod, Nat2Z.inj_sub, Nat2Z.inj_mod by lia. mlia.
Qed.

Section Image.
Context (cap scap : Z) (strs : list Z) (seen : list bool) (depth : Z) (rs rc fin : bool).
Implicit Types (c d : list Z) (w : World).
Abbreviation img c := (image cap scap c strs seen depth rs rc fin).

Lemma put_structure_image c d w :
  zlen c + zlen d <= cap ->
  put_structure (img c) d w =
  Ok ((img c) <| fdt_structure := Some (buffer cap (c ++ d)) |>, w).
Proof.
  intros Hd. unfold put_structure. cbn [fdt_structure fdt_structure_size image].
  by rewrite (bind_eq _ _ _ _ _ (write_at_end cap c d w Hd)).
Qed.

Lemma append_u32_image c v w :
  zlen c + 4 <= cap ->
  append_u32 (img c) v w = Ok (img (c ++ write_be32 v), w).
Proof.
  intros Hd. unfold append_u32.
  rewrite (bind_eq _ _ _ _ _ (put_structure_image c (write_be32 v) w Hd)).
  unfold ret, image, update. cbn. rewrite length_app. do 3 f_equal.
  cbn [write_be32 length]. lia.
Qed.

(** Data written at the end, its size added and the end aligned. *)
Lemma put_aligned_image c d w :
  zlen c mod 4 = 0 -> zlen c + zlen d + Z.of_nat (padding (length d)) <= cap ->
  append_aligned (img c) d w = Ok (img (c ++ d ++ replicate (padding (length d)) 0), w).
Proof.
  intros Hc Hd. unfold append_aligned. pose proof (padding_value (length d)) as Hk.
  revert Hd Hk. generalize (padding (length d)) as k. intros k Hd Hk.
  rewrite (bind_eq _ _ _ _ _ (put_structure_image c d w ltac:(lia))).
  unfold ret, align_structure, image, update. cbn.
  rewrite !app_assoc, buffer_pad by (rewrite length_app; lia).
  do 3 f_equal. rewrite !length_app, length_replicate.
  change 3 with (2 ^ 2 - 1) at 2. rewrite land_high_mask by lia.
  change (2 ^ 2) with 4. clear Hd. mlia.
Qed.

Lemma align_image c : zlen c mod 4 = 0 -> align_structure (img c) = img c.
Proof.
  intros Hc. unfold align_structure, image, update. cbn. f_equal.
  change 3 with (2 ^ 2 - 1) at 2. rewrite land_high_mask by lia. change (2 ^ 2) with 4. mlia.
Qed.
End Image.

(** * The strings block *)

Definition c_str (s : list Z) : Prop := Forall (fun b => 0 < b <= UINT8_MAX) s.
#[export] Instance c_str_dec s : Decision (c_str s).
Proof. unfold c_str. apply _. Defined.

(** The names of the table, each ended by its NUL. *)
Definition table (names : list (list Z)) : list Z := concat (map (fun n => n ++ [0]) names).

Lemma c_string_nul s rest : c_str s -> c_string (s ++ 0 :: rest) = Some s.
Proof.
  induction 1 as [|b s Hb Hs IH]; [done|]. simpl.
  destruct (Z.eqb_spec b 0); [lia|]. by rewrite IH.
Qed.

Lemma c_string_app l s rest : c_string l = Some s -> c_string (l ++ rest) = Some s.
Proof.
  revert s. induction l as [|b l IH]; intros s; simpl; [done|].
  destruct (b =? 0); [done|]. destruct (c_string l) as [s'|]; [|done].
  simpl. intros [= <-]. by rewrite (IH s').
Qed.

(** A string found at an offset stays there when the table grows. *)
Lemma c_string_prefix strs strs' o s :
  strs `prefix_of` strs' ->
  c_string (drop o strs) = Some s -> c_string (drop o strs') = Some s.
Proof.
  intros [rest ->] Hs. rewrite drop_app. by apply c_string_app.
Qed.

Lemma table_snoc names n : table (names ++ [n]) = table names ++ n ++ [0].
Proof. unfold table. rewrite map_app, concat_app. simpl. by rewrite app_nil_r. Qed.

Lemma table_length names : (length names <= length (table names))%nat.
Proof.
  induction names as [|n names IH]; unfold table in *; simpl; [lia|].
  rewrite !length_app. simpl. lia.
Qed.

(** The search meets every name of the table in turn. *)
Lemma find_string_loop_spec fuel pre post rest string w :
  Forall c_str post -> (length post <= fuel)%nat ->
  zlen (table pre ++ table post) <= UINT32_MAX ->
  exists r, find_string_loop fuel (table pre ++ table post ++ rest)
              (zlen (table pre ++ table post)) (zlen (table pre)) string w = Ok (r, w) /\
    match r with
    | Some o => 0 <= o <= UINT32_MAX /\
                c_string (drop (Z.to_nat o) (table pre ++ table post)) = Some string
    | None => string ∉ post
    end.
Proof.
  intros Hp. revert pre fuel.
  induction Hp as [|n post Hn Hp IH]; intros pre fuel Hf Hmax.
  { exists None. change (table []) with (@nil Z). rewrite app_nil_r.
    destruct fuel; simpl; rewrite (proj2 (Z.ltb_ge _ _)) by lia; split; [done|set_solver|done|set_solver]. }
  destruct fuel as [|fuel]; [simpl in Hf; lia|]. cbn [find_string_loop].
  change (table (n :: post)) with ((n ++ [0]) ++ table post) in *.
  rewrite !length_app in *. cbn [length] in *.
  rewrite (proj2 (Z.ltb_lt _ _)) by lia.
  rewrite Nat2Z.id, drop_app_length. rewrite <- !app_assoc. cbn [app].
  rewrite c_string_nul by done. cbn [deref]. unfold bind, ret.
  case_decide as Heq.
  - subst n. exists (Some (zlen (table pre))). rewrite u32_small by lia.
    split; [done|]. split; [lia|]. rewrite Nat2Z.id, drop_app_length.
    by rewrite c_string_nul.
  - destruct (IH (pre ++ [n]) fuel ltac:(lia)) as (r & Hr & Hpost).
    { rewrite table_snoc, !length_app. cbn [length]. lia. }
    rewrite table_snoc in Hr, Hpost.
    exists r. split.
    + rewrite <- Hr. rewrite !length_app, <- !app_assoc. cbn [app length]. f_equal; lia.
    + destruct r; [|set_solver]. by rewrite <- !app_assoc in Hpost.
Qed.

(** The offset of a name in the table, with the table grown when it was new. *)
Lemma intern_name_spec cap scap c names seen depth rs rc fin name w :
  Forall c_str names -> c_str name ->
  zlen (table names) <= scap -> 0 <= scap <= UINT32_MAX ->
  exists r, intern_name (image cap scap c (table names) seen depth rs rc fin) name w =
              Ok (r, w) /\
    match r with
    | None => True
    | Some (f, o) => exists names', Forall c_str names' /\
        table names `prefix_of` table names' /\ zlen (table names') <= scap /\
        0 <= o <= UINT32_MAX /\ c_string (drop (Z.to_nat o) (table names')) = Some name /\
        f = image cap scap c (table names') seen depth rs rc fin
    end.
Proof.
  intros Hns Hn Hlen Hscap. unfold intern_name, find_string.
  cbn [fdt_strings_size fdt_strings fdt_strings_capacity image].
  assert (exists r, (if 0 <? zlen (table names) then
      let* strings := deref (Some (buffer scap (table names))) in
      find_string_loop (Z.to_nat (zlen (table names))) strings (zlen (table names)) 0 name
      else ret None) w = Ok (r, w) /\
    match r with
    | Some o => 0 <= o <= UINT32_MAX /\ c_string (drop (Z.to_nat o) (table names)) = Some name
    | None => name ∉ names
    end) as (r & Hr & Hpost).
  { destruct (Z.ltb_spec 0 (zlen (table names))) as [H0|H0].
    - cbn [deref]. unfold bind, ret, buffer. rewrite Nat2Z.id.
      apply (find_string_loop_spec _ [] names); [done|apply table_length|simpl; lia].
    - exists None. split; [done|]. pose proof (table_length names).
      destruct names; [set_solver|simpl in *; lia]. }
  rewrite (bind_eq _ _ _ _ _ Hr). destruct r as [o|].
  { eexists; split; [done|]. exists names. naive_solver. }
  rewrite u64_small by lia. case (Z.ltb_spec (scap - zlen (table names)) (zlen name + 1)).
  { intros. by exists None. }
  intros Hroom.
  rewrite (bind_eq _ _ _ _ _ (write_at_end scap (table names) (name ++ [0]) w
             ltac:(rewrite length_app; simpl; lia))).
  eexists; split; [done|]. exists (names ++ [name]). rewrite table_snoc.
  split_and!; [apply Forall_app; split; auto|by apply prefix_app_r|
    rewrite !length_app; simpl; lia|apply u32_range|apply u32_range| |].
  - rewrite u32_small, Nat2Z.id, drop_app_length by lia. by apply c_string_nul.
  - unfold image, update. cbn. rewrite !length_app. cbn [length]. do 2 f_equal. lia.
Qed.

(** * The structure block *)

Lemma write_be32_value v : 0 <= v <= UINT32_MAX ->
  ((u8 (Z.shiftr v 24) * 256 + u8 (Z.shiftr v 16)) * 256 + u8 (Z.shiftr v 8)) * 256 + u8 v = v.
Proof.
  intros. rewrite !Z.shiftr_div_pow2 by lia.
  change (2 ^ 24) with 16777216. change (2 ^ 16) with 65536. change (2 ^ 8) with 256.
  mlia.
Qed.

Lemma take_be32_write v rest :
  0 <= v <= UINT32_MAX -> take_be32 (write_be32 v ++ rest) = Some (v, rest).
Proof.
  intros. unfold write_be32. cbn [app take_be32]. do 2 f_equal.
  by apply write_be32_value.
Qed.

Definition padded (l : list Z) : list Z := l ++ replicate (padding (length l)) 0.

Lemma drop_padded l rest :
  drop (length l + padding (length l)) (padded l ++ rest) = rest.
Proof.
  unfold padded. rewrite <- app_assoc, <- drop_drop, drop_app_length.
  rewrite drop_app_ge, length_replicate, Nat.sub_diag by (rewrite length_replicate; lia).
  done.
Qed.

Lemma c_string_padded name rest :
  c_str name -> c_string (padded (name ++ [0]) ++ rest) = Some name.
Proof. intros. unfold padded. rewrite <- !app_assoc. by apply c_string_nul. Qed.

Lemma padded_length l : zlen (padded l) = zlen l + (- zlen l) mod 4.
Proof.
  unfold padded. by rewrite length_app, length_replicate, Nat2Z.inj_add, padding_value.
Qed.

(** The bytes [c] of a structure block hold the events [es], the names being found
    in every strings block that starts with [strs]. *)
Definition encodes (c strs : list Z) (es : list event) : Prop :=
  forall fuel tail strs', strs `prefix_of` strs' ->
    decode (length es + fuel) (c ++ tail) strs' = app es <$> decode fuel tail strs'.

Lemma encodes_nil strs : encodes [] strs [].
Proof. intros fuel tail strs' _. simpl. by destruct (decode fuel tail strs'). Qed.

Lemma encodes_app c1 c2 strs es1 es2 :
  encodes c1 strs es1 -> encodes c2 strs es2 -> encodes (c1 ++ c2) strs (es1 ++ es2).
Proof.
  intros H1 H2 fuel tail strs' Hp.
  rewrite length_app, <- Nat.add_assoc, <- app_assoc, H1, H2 by done.
  destruct (decode fuel tail strs'); [|done]. simpl. by rewrite app_assoc.
Qed.

Lemma encodes_prefix c strs strs' es :
  strs `prefix_of` strs' -> encodes c strs es -> encodes c strs' es.
Proof. intros Hp H fuel tail strs2 Hp2. apply H. by trans strs'. Qed.

Lemma encodes_begin name strs :
  c_str name -> encodes (write_be32 FDT_BEGIN_NODE ++ padded (name ++ [0])) strs [EBegin name].
Proof.
  intros Hn fuel tail strs' _. change (length [_] + fuel)%nat with (S fuel). cbn [decode]. rewrite <- app_assoc.
  rewrite take_be32_write by lia. cbn [mbind option_bind].
  change (FDT_BEGIN_NODE =? FDT_BEGIN_NODE) with true. cbv iota.
  rewrite c_string_padded by done. cbn [mbind option_bind].
  cbv zeta.
  replace (S (length name)) with (length (name ++ [0])) by (rewrite length_app; simpl; lia).
  rewrite drop_padded. by destruct (decode fuel tail strs').
Qed.

Lemma encodes_end strs : encodes (write_be32 FDT_END_NODE) strs [EEnd].
Proof.
  intros fuel tail strs' _. change (length [_] + fuel)%nat with (S fuel). cbn [decode].
  rewrite take_be32_write by lia. cbn [mbind option_bind].
  change (FDT_END_NODE =? FDT_BEGIN_NODE) with false.
  change (FDT_END_NODE =? FDT_END_NODE) with true. cbv iota.
  by destruct (decode fuel tail strs').
Qed.

Lemma encodes_prop name data strs o :
  zlen data <= UINT32_MAX -> 0 <= o <= UINT32_MAX ->
  c_string (drop (Z.to_nat o) strs) = Some name ->
  encodes (write_be32 FDT_PROP ++ write_be32 (zlen data) ++ write_be32 o ++ padded data)
    strs [EProp name data].
Proof.
  intros Hd Ho Hs fuel tail strs' Hp. change (length [_] + fuel)%nat with (S fuel). cbn [decode]. rewrite <- !app_assoc.
  rewrite take_be32_write by lia. cbn [mbind option_bind].
  change (FDT_PROP =? FDT_BEGIN_NODE) with false.
  change (FDT_PROP =? FDT_END_NODE) with false.
  change (FDT_PROP =? FDT_PROP) with true. cbv iota.
  rewrite take_be32_write by lia. cbn [mbind option_bind].
  rewrite take_be32_write by lia. cbn [mbind option_bind].
  rewrite (c_string_prefix _ _ _ _ Hp Hs). cbn [mbind option_bind].
  rewrite (proj2 (Z.ltb_ge _ _)) by (unfold padded; rewrite !length_app; lia).
  rewrite Nat2Z.id, drop_padded. unfold padded. rewrite <- app_assoc, take_app_length.
  by destruct (decode fuel tail strs').
Qed.

Lemma decode_end strs c es :
  encodes c strs es -> (length es <= length c)%nat ->
  decode (length (c ++ write_be32 FDT_END)) (c ++ write_be32 FDT_END) strs = Some es.
Proof.
  intros He Hl. rewrite length_app, write_be32_length.
  replace (length c + 4)%nat with (length es + (S (length c - length es + 3)))%nat by lia.
  rewrite He by done. cbn [decode].
  rewrite <- (app_nil_r (write_be32 FDT_END)).
  rewrite take_be32_write by lia. cbn [mbind option_bind].
  change (app es <$> Some [] = Some es). simpl. by rewrite app_nil_r.
Qed.

(** * What the builder keeps true *)

Definition has_children (f : frame) : bool :=
  match fr_children f with [] => false | _ => true end.
Definition root_closed (s : tree_state) : bool :=
  match ts_root s with Some _ => true | None => false end.
Definition root_seen (s : tree_state) : bool :=
  match ts_open s with [] => root_closed s | _ => true end.

(** The flags [child_seen] of the open nodes, outermost first. *)
Definition marks (open : list frame) : list bool :=
  match open with
  | [] => []
  | f :: rest => replicate (length rest) true ++ [has_children f]
  end.

Lemma marks_length open : length (marks open) = length open.
Proof. destruct open; simpl; [done|]. rewrite length_app, length_replicate. simpl. lia. Qed.

(** Bytes an event takes at least in a structure block. *)
Definition event_size (e : event) : nat :=
  match e with
  | EBegin _ => 8
  | EProp _ data => 12 + length data
  | EEnd => 4
  end.
Fixpoint events_size (es : list event) : nat :=
  match es with [] => 0 | e :: es => event_size e + events_size es end.
Lemma events_size_app es1 es2 :
  events_size (es1 ++ es2) = (events_size es1 + events_size es2)%nat.
Proof. induction es1 as [|e es1 IH]; simpl; [done|lia]. Qed.
Lemma events_size_length es : (length es <= events_size es)%nat.
Proof. induction es as [|[] es IH]; simpl in *; lia. Qed.

Record builder_at (cap scap : Z) (c : list Z) (names : list (list Z)) (junk : list bool)
    (es : list event) (s : tree_state) : Prop := {
  b_cap : 0 < cap <= UINT32_MAX;
  b_scap : 0 < scap <= UINT32_MAX;
  b_fits : zlen c <= cap;
  b_aligned : zlen c mod 4 = 0;
  b_table : zlen (table names) <= scap;
  b_names : Forall c_str names;
  b_junk : Z.of_nat (length (ts_open s) + length junk) = cap / 8 + 1;
  b_encodes : encodes c (table names) es;
  b_length : (events_size es <= length c)%nat;
  b_replay : replay (TreeState [] None) es = Some s;
  b_root : root_closed s = true -> ts_open s = [];
}.

(** The struct [f] holds the events [es], which have led to the tree state [s]. *)
Definition builder (f : VartFdt) (es : list event) (s : tree_state) : Prop :=
  exists cap scap c names junk, builder_at cap scap c names junk es s /\
    f = image cap scap c (table names) (marks (ts_open s) ++ junk)
          (zlen (ts_open s)) (root_seen s) (root_closed s) false.

Lemma builder_fits f es s :
  builder f es s -> Z.of_nat (events_size es) <= fdt_structure_capacity f.
Proof. intros (cap & scap & c & names & junk & [] & ->). cbn [fdt_structure_capacity image]. lia. Qed.

(** How a call that means [e] ends: refused by the rules of a tree, refused for
    want of room or memory, without effect in all these cases, or carried out. *)
Inductive call_post (f : VartFdt) (es : list event) (s : tree_state) (e : event)
    : Z -> VartFdt -> Prop :=
| post_invalid : tree_step s e = None -> call_post f es s e (-EINVAL) f
| post_full err : is_Some (tree_step s e) -> err = -ENOSPC \/ err = -EOVERFLOW ->
    call_post f es s e err f
| post_cells err : err = -ENOMEM \/ err = -EOVERFLOW -> call_post f es s e err f
| post_done s' f' : tree_step s e = Some s' -> builder f' (es ++ [e]) s' ->
    fdt_structure_capacity f' = fdt_structure_capacity f ->
    call_post f es s e 0 f'.

Lemma reserve_spec f n pad :
  0 <= n -> 0 <= fdt_structure_capacity f - fdt_structure_size f <= UINT32_MAX ->
  (reserve_structure f n pad).1 = 0 /\
    fdt_structure_size f + n + (- n) mod 4 <= fdt_structure_capacity f \/
  (reserve_structure f n pad).1 = -ENOSPC \/ (reserve_structure f n pad).1 = -EOVERFLOW.
Proof.
  intros Hn Hf. unfold reserve_structure, aligned_size.
  case (Z.ltb_spec (SIZE_MAX - (4 - 1)) n) as [|Hmax]; [by right; right|].
  change (0 <? 0) with false. cbn [orb].
  change (4 - 1) with (2 ^ 2 - 1). rewrite land_high_mask, u64_small by lia.
  change (2 ^ 2) with 4.
  destruct (_ <? _) eqn:Hroom; [by right; left|].
  left. split; [done|]. apply Z.ltb_ge in Hroom. clear - Hroom. mlia.
Qed.

Lemma write_at_app {A} (a x b d : list A) w :
  length x = length d ->
  write_at (Some (a ++ x ++ b)) (zlen a) d w = Ok (Some (a ++ d ++ b), w).
Proof.
  intros Hx. unfold write_at. cbn [deref]. unfold bind, ret. rewrite !length_app.
  rewrite (proj2 (Z.leb_le 0 (zlen a))) by lia. rewrite (proj2 (Z.leb_le _ _)) by lia.
  cbn [andb]. rewrite Nat2Z.id, take_app_length, <- Hx, <- drop_drop, !drop_app_length.
  done.
Qed.

Lemma set_child_seen_image cap scap c strs a x b depth rs rc fin v w :
  set_child_seen (image cap scap c strs (a ++ x :: b) depth rs rc fin) (zlen a) v w =
  Ok (image cap scap c strs (a ++ v :: b) depth rs rc fin, w).
Proof.
  unfold set_child_seen. cbn [fdt_child_seen image].
  by rewrite (bind_eq _ _ _ _ _ (write_at_app a [x] b [v] w eq_refl)).
Qed.

Lemma enter_node_image cap scap c strs open x junk rs rc fin f w :
  fr_children f = [] -> zlen open < UINT32_MAX ->
  enter_node (image cap scap c strs (marks open ++ x :: junk) (zlen open) rs rc fin) w =
  Ok (image cap scap c strs (marks (f :: open) ++ junk) (zlen (f :: open)) true rc fin, w).
Proof.
  intros Hf Hmax. unfold enter_node. cbn [fdt_depth image].
  replace (marks (f :: open)) with (replicate (length open) true ++ [false])
    by (unfold marks, has_children; by rewrite Hf).
  rewrite <- app_assoc. cbn [app].
  assert (exists y, (if negb (zlen open =? 0)
      then set_child_seen (image cap scap c strs (marks open ++ x :: junk) (zlen open) rs rc fin)
             (zlen open - 1) true
      else ret (image cap scap c strs (marks open ++ x :: junk) (zlen open) rs rc fin)) w =
    Ok (image cap scap c strs (replicate (length open) true ++ y :: junk)
          (zlen open) rs rc fin, w)) as [y Hy].
  { exists x. destruct open as [|g open]; [done|].
    replace (negb _) with true by (simpl; lia).
    replace (zlen (g :: open) - 1) with (zlen (replicate (length open) true))
      by (rewrite length_replicate; simpl; lia).
    unfold marks. rewrite <- app_assoc. cbn [app]. rewrite set_child_seen_image.
    change (length (g :: open)) with (S (length open)).
    by rewrite <- Nat.add_1_r, replicate_add, <- app_assoc. }
  rewrite (bind_eq _ _ _ _ _ Hy). cbn [fdt_depth image].
  replace (zlen open) with (zlen (replicate (length open) true)) at 2
    by (by rewrite length_replicate).
  rewrite (bind_eq _ _ _ _ _ (set_child_seen_image _ _ _ _ _ _ _ _ _ _ _ _ _)).
  unfold ret, image, update. cbn -[marks Z.of_nat].
  rewrite u32_small by lia. do 3 f_equal. simpl. lia.
Qed.

Lemma marks_top f rest junk i :
  i = length rest -> (marks (f :: rest) ++ junk) !! i = Some (has_children f).
Proof.
  intros ->. unfold marks. rewrite <- app_assoc. cbn [app].
  apply list_lookup_middle. by rewrite length_replicate.
Qed.

Lemma prop_bytes_length a b c d :
  zlen (write_be32 a ++ write_be32 b ++ write_be32 c ++ padded d) =
  12 + zlen d + (- zlen d) mod 4.
Proof.
  rewrite !length_app, !Nat2Z.inj_add, padded_length, !write_be32_length. lia.
Qed.

(** ** Each call *)

Lemma wp_eq {W A} (m : M W A) a w w' Q : m w = Ok (a, w') -> Q a w' -> wp m Q w.
Proof. unfold wp. by intros ->. Qed.

(** Step over an operation whose effect on an image is known. *)
Tactic Notation "run_image" uconstr(lem) := apply wp_bind; eapply wp_eq; [eapply lem|cbv beta].

(** One more event encoded at the end. *)
Lemma builder_extend cap scap c names junk es s e s' d names' junk' :
  builder_at cap scap c names junk es s -> tree_step s e = Some s' ->
  encodes d (table names') [e] -> (event_size e <= length d)%nat -> zlen d mod 4 = 0 ->
  zlen c + zlen d <= cap -> table names `prefix_of` table names' ->
  zlen (table names') <= scap -> Forall c_str names' ->
  Z.of_nat (length (ts_open s') + length junk') = cap / 8 + 1 ->
  builder_at cap scap (c ++ d) names' junk' (es ++ [e]) s'.
Proof.
  intros HB Hstep Henc Hd0 Hd4 Hd Hp Hs Hn Hj. destruct HB.
  constructor; try done; rewrite ?length_app; try lia.
  - rewrite Nat2Z.inj_add, Z.add_mod, b_aligned0, Hd4 by lia. done.
  - apply encodes_app; [by eapply encodes_prefix|done].
  - rewrite events_size_app. simpl. lia.
  - by rewrite (replay_snoc_eq _ _ _ _ b_replay0).
  - unfold root_closed. intros Hc. eapply tree_step_root; [done|]. by destruct (ts_root s').
Qed.

(** The end of a node, in the tree and in the [child_seen] flags. *)
Lemma end_step f open :
  exists open' root b, tree_step (TreeState (f :: open) None) EEnd =
      Some (TreeState open' root) /\ length open' = length open /\
    root_closed (TreeState open' root) = bool_decide (open = []) /\
    marks (f :: open) = marks open' ++ [b].
Proof.
  destruct open as [|[n ps cs] open]; cbn [tree_step].
  - exists [], (Some (close_frame f)), (has_children f). done.
  - exists (Frame n ps (cs ++ [close_frame f]) :: open), None, (has_children f).
    split_and!; try done. unfold marks, has_children at 2. cbn [fr_children length].
    rewrite <- Nat.add_1_r, replicate_add. by destruct cs.
Qed.

Section Calls.
Context (p : ptr).
Implicit Types (f : VartFdt) (w : World).

(** The world after a call on the builder at [p]. *)
Definition called (m : M World Z) f es s e w : Prop :=
  wp m (fun err w' => exists f', call_post f es s e err f' /\
          w_fdts w' !! p = Some f') w.

(** The first test of [vart_fdt_begin_node] is the rule for new nodes. *)
Lemma begin_invalid_spec cap scap c strs seen depth s name :
  if begin_invalid (image cap scap c strs seen depth (root_seen s) (root_closed s) false) name
  then tree_step s (EBegin name) = None
  else tree_step s (EBegin name) = Some (TreeState (Frame name [] [] :: ts_open s) None) /\
       ts_root s = None.
Proof.
  unfold begin_invalid, root_seen, root_closed.
  cbn [fdt_finished fdt_root_closed fdt_root_seen image orb].
  destruct s as [[|g open] [t|]]; cbn; repeat case_bool_decide; repeat case_decide;
    subst; cbn; try done; try set_solver.
Qed.

Lemma reserve_image cap scap c strs seen depth rs rc fin n pad err :
  (reserve_structure (image cap scap c strs seen depth rs rc fin) n pad).1 = err ->
  0 <= n -> 0 <= cap - zlen c <= UINT32_MAX ->
  err = 0 /\ zlen c + n + (- n) mod 4 <= cap \/ err = -ENOSPC \/ err = -EOVERFLOW.
Proof. intros <- ??. by apply reserve_spec. Qed.

(** The call ends without effect for want of room. *)
Ltac no_room := wsteps; eexists; split; [apply post_full; eauto|done].

(** Split on the outcome of the reservation; [Hroom] when there is room. *)
Ltac reserve_room Hroom :=
  let err := fresh "err" in let Hr := fresh "Hr" in
  destruct (reserve_structure _ _ _) as [err ?] eqn:Hr;
  apply (f_equal fst) in Hr; apply reserve_image in Hr; [|lia..]; cbn [fst] in Hr;
  destruct Hr as [[-> Hroom]|Hr];
  [change (0 <? 0) with false; cbv iota
  |destruct (Z.ltb_spec err 0); [no_room|lia]].

Lemma begin_node_spec f es s w name :
  w_fdts w !! p = Some f -> builder f es s -> c_str name ->
  called (vart_fdt_begin_node (Some p) (Some name)) f es s (EBegin name) w.
Proof.
  intros Hf (cap & scap & c & names & junk & HB & ->) Hn. pose proof HB as [].
  unfold called, vart_fdt_begin_node. wsteps.
  pose proof (begin_invalid_spec cap scap c (table names) (marks (ts_open s) ++ junk)
    (zlen (ts_open s)) s name) as Hstep.
  destruct (begin_invalid _ _); [wsteps; eauto using call_post|].
  destruct Hstep as [Hstep Hroot].
  cbn [fdt_depth_capacity fdt_depth image].
  destruct (Z.leb_spec (cap / 8 + 1) (zlen (ts_open s))) as [|Hdepth].
  { no_room. }
  case (Z.ltb_spec (SIZE_MAX - 4) (zlen name + 1)) as [|Hsize].
  { no_room. }
  reserve_room Hroom.
  destruct junk as [|x junk]; [simpl in *; lia|].
  assert (zlen (name ++ [0]) = zlen name + 1) as Hlen by (rewrite length_app; simpl; lia).
  assert (Z.of_nat (padding (length (name ++ [0]))) = (- (4 + (zlen name + 1))) mod 4) as Hpad
    by (rewrite padding_value, Hlen; clear; mlia).
  run_image append_u32_image; [lia|].
  run_image put_aligned_image; [rewrite length_app, Nat2Z.inj_add, Z.add_mod, b_aligned0 by lia;
    done | rewrite length_app, Nat2Z.inj_add; change (zlen (write_be32 _)) with 4; lia|].
  run_image (enter_node_image _ _ _ _ _ _ _ _ _ _ (Frame name [] [])); [done|clear - Hdepth b_cap0; mlia|].
  wsteps. eexists; split; [|apply lookup_insert_eq].
  eapply post_done; [exact Hstep| |done].
  exists cap, scap, (c ++ (write_be32 FDT_BEGIN_NODE ++ padded (name ++ [0]))), names, junk.
  split; [|unfold root_closed; rewrite Hroot; unfold padded; by rewrite <- !app_assoc].
  eapply builder_extend; try done.
  - by apply encodes_begin.
  - pose proof (padded_length (name ++ [0])) as Hpl. rewrite (length_app name) in Hpl.
    rewrite length_app. cbn [event_size write_be32 length] in *. clear - Hpl. mlia.
  - rewrite length_app, Nat2Z.inj_add, padded_length. change (zlen (write_be32 _)) with 4. mlia.
  - rewrite length_app, Nat2Z.inj_add, padded_length. change (zlen (write_be32 _)) with 4. mlia.
  - simpl in *. lia.
Qed.

Lemma end_node_spec f es s w :
  w_fdts w !! p = Some f -> builder f es s ->
  called (vart_fdt_end_node (Some p)) f es s EEnd w.
Proof.
  intros Hf (cap & scap & c & names & junk & HB & ->). pose proof HB as [].
  unfold called, vart_fdt_end_node. wsteps. cbn [fdt_finished fdt_depth image orb].
  destruct (Z.eqb_spec (zlen (ts_open s)) 0) as [H0|H0].
  { wsteps. eexists; split; [apply post_invalid|done].
    destruct s as [[|] ]; [done|simpl in *; lia]. }
  destruct s as [[|f open] root]; [done|]. cbn [ts_open] in *.
  destruct root; [specialize (b_root0 eq_refl); done|].
  destruct (end_step f open) as (open' & root' & b & Hstep & Hlen & Hroot & Hmarks).
  assert (is_Some (tree_step (TreeState (f :: open) None) EEnd)) by eauto.
  reserve_room Hroom.
  run_image append_u32_image; [clear - Hroom; mlia|].
  wsteps. eexists; split; [|apply lookup_insert_eq].
  eapply post_done; [exact Hstep| |by destruct (_ =? 0)].
  exists cap, scap, (c ++ write_be32 FDT_END_NODE), names, (b :: junk). split.
  - eapply builder_extend; [done|exact Hstep|apply encodes_end|..]; try done.
    + change (zlen (write_be32 _)) with 4. clear - Hroom. mlia.
    + cbn [ts_open]. simpl in *. lia.
  - cbn [ts_open]. rewrite Hroot, Hmarks, <- app_assoc. cbn [app].
    unfold image, update. cbn -[marks Z.of_nat].
    replace (Z.of_nat (S (length open)) - 1) with (zlen open) by lia.
    rewrite Hlen. unfold root_seen. cbn [ts_open]. rewrite Hroot.
    by destruct open, open'.
Qed.

(** A property is accepted by the rules exactly when the tests let it in. *)
Lemma property_step s name data :
  match ts_open s with
  | [] => tree_step s (EProp name data) = None
  | f :: rest =>
      if has_children f || bool_decide (name = []) || root_closed s
      then tree_step s (EProp name data) = None
      else tree_step s (EProp name data) =
           Some (TreeState (Frame (fr_name f) (fr_props f ++ [(name, data)]) [] :: rest) None)
  end.
Proof.
  unfold has_children, root_closed.
  destruct s as [[|[fn ps [|]] rest] [|]]; cbn; repeat case_bool_decide;
    repeat case_decide; done.
Qed.

Lemma emit_property_image cap scap c strs seen depth rs rc fin o data d w :
  zlen c mod 4 = 0 -> data = Some d \/ d = [] ->
  zlen d <= UINT32_MAX -> zlen c + (3 * 4 + zlen d) + (- (3 * 4 + zlen d)) mod 4 <= cap ->
  wp (emit_property (image cap scap c strs seen depth rs rc fin) o data (zlen d))
    (fun f w' => w' = w /\ f = image cap scap
        (c ++ (write_be32 FDT_PROP ++ write_be32 (zlen d) ++ write_be32 o ++ padded d))
        strs seen depth rs rc fin) w.
Proof.
  intros Hc Hdata Hd Hroom. unfold emit_property. rewrite u32_small by lia.
  assert (forall v x, zlen (x ++ write_be32 v) = zlen x + 4) as Hlen
    by (intros; rewrite length_app; simpl; lia).
  assert (zlen c + 12 + zlen d + (- zlen d) mod 4 <= cap) as Hroom'
    by (clear - Hroom; mlia).
  pose proof (padding_value (length d)) as Hpad.
  pose proof (Z.mod_pos_bound (- zlen d) 4 ltac:(lia)).
  run_image append_u32_image; [lia|].
  run_image append_u32_image; [rewrite Hlen; lia|].
  run_image append_u32_image; [rewrite !Hlen; lia|].
  destruct (Z.eqb_spec (zlen d) 0) as [H0|H0]; cbn [negb].
  - assert (d = []) as -> by (destruct d; [done|simpl in *; lia]).
    wsteps. split; [done|].
    rewrite align_image by (rewrite !Hlen; clear - Hc; mlia).
    change (padded []) with (@nil Z). by rewrite app_nil_r, <- !app_assoc.
  - destruct Hdata as [->| ->]; [|done]. wsteps. eapply wp_deref; [done|].
    rewrite Z.ltb_irrefl, Nat2Z.id, take_ge by lia.
    eapply wp_eq; [apply put_aligned_image|].
    + rewrite !Hlen. clear - Hc. mlia.
    + rewrite !Hlen. lia.
    + split; [done|]. unfold padded. by rewrite <- !app_assoc.
Qed.

(** [data] points to the bytes [d]. *)
Lemma property_spec f es s w name data d :
  w_fdts w !! p = Some f -> builder f es s -> c_str name ->
  data = Some d \/ data = None /\ d = [] ->
  called (vart_fdt_property (Some p) (Some name) data (zlen d)) f es s (EProp name d) w.
Proof.
  intros Hf (cap & scap & c & names & junk & HB & ->) Hn Hdata. pose proof HB as [].
  unfold called, vart_fdt_property. pose proof (property_step s name d) as Hstep.
  case_bool_decide as Hname; cbn [orb].
  { wsteps. eexists; split; [apply post_invalid|done].
    destruct (ts_open s) as [|g rest]; [done|]. rewrite orb_true_r in Hstep. done. }
  replace (bool_decide (data = None) && _) with false; cbv iota.
  2:{ destruct Hdata as [->|[-> ->]]; done. }
  wsteps. cbn [fdt_finished fdt_depth image orb].
  destruct (ts_open s) as [|g rest] eqn:Hopen; cbn [length].
  { wsteps. eexists; split; [by apply post_invalid|exact Hf]. }
  rewrite (proj2 (Z.eqb_neq (Z.of_nat (S (length rest))) 0)) by lia.
  wstep. eapply wp_deref; [done|]. wstep.
  eapply wp_deref.
  { apply marks_top. lia. }
  assert (root_closed s = false) as Hroot
    by (destruct (root_closed s); [by specialize (b_root0 eq_refl)|done]).
  rewrite Hroot, !orb_false_r in Hstep.
  destruct (has_children g) eqn:Hg.
  { wsteps. eexists; split; [by apply post_invalid|exact Hf]. }
  assert (is_Some (tree_step s (EProp name d))) by eauto.
  destruct (Z.ltb_spec UINT32_MAX (zlen d)) as [|Hd]; [no_room|].
  rewrite (proj2 (Z.ltb_ge (SIZE_MAX - 3 * 4) _)) by lia.
  reserve_room Hroom.
  destruct (intern_name_spec cap scap c names (marks (g :: rest) ++ junk)
    (Z.of_nat (S (length rest))) (root_seen s) (root_closed s) false name w)
    as (r & Hr & Hpost); [done..|lia|].
  wstep. eapply wp_eq; [exact Hr|]. destruct r as [[f' o]|]; [|no_room].
  destruct Hpost as (names' & Hns & Hp & Hlen & Ho & Hs & ->).
  wstep. eapply wp_mono; [apply emit_property_image; [done|naive_solver|done..]|].
  intros ? ? [-> ->]. wsteps. eexists; split; [|apply lookup_insert_eq].
  eapply post_done; [exact Hstep| |done]. do 5 eexists. split.
  - eapply builder_extend; [done|exact Hstep|by apply encodes_prop|..]; try done.
    + apply Nat2Z.inj_le. rewrite prop_bytes_length. cbn [event_size]. clear. mlia.
    + rewrite prop_bytes_length. clear. mlia.
    + rewrite prop_bytes_length. clear - Hroom. mlia.
  - rewrite Hroot. unfold root_seen. cbn [ts_open ts_root]. rewrite Hopen.
    unfold marks. by rewrite Hg.
Qed.
End Calls.

(** * The blob *)

Definition header (fields : list Z) : list Z := concat (map write_be32 fields).

Lemma header_length fields : length (header fields) = (4 * length fields)%nat.
Proof.
  unfold header. induction fields as [|v fields IH]; [done|].
  cbn [map concat]. rewrite length_app, IH, write_be32_length. simpl. lia.
Qed.

(** The next field of the header over zero bytes. *)
Lemma header_step fields rest offset v w :
  offset = 4 * zlen fields ->
  write_header_u32 (Some (header fields ++ replicate 4 0 ++ rest)) offset v w =
  Ok (Some (header (fields ++ [v]) ++ rest), w).
Proof.
  intros ->. unfold write_header_u32.
  replace (4 * zlen fields) with (zlen (header fields)) by (rewrite header_length; lia).
  rewrite write_at_app by done. unfold header. rewrite map_app, concat_app.
  cbn [map concat]. by rewrite app_nil_r, <- app_assoc.
Qed.

Lemma be32_at_header fields tail k v :
  fields !! k = Some v -> 0 <= v <= UINT32_MAX ->
  be32_at (header fields ++ tail) (4 * k) = Some v.
Proof.
  revert k. unfold be32_at, header.
  induction fields as [|v0 fields IH]; intros k Hk Hv; [done|].
  cbn [map concat]. rewrite <- app_assoc. destruct k as [|k].
  - injection Hk as ->. rewrite Nat.mul_0_r, drop_0. by rewrite take_be32_write.
  - replace (4 * S k)%nat with (length (write_be32 v0) + 4 * k)%nat
      by (rewrite write_be32_length; lia).
    rewrite <- drop_drop, drop_app_length. by apply IH.
Qed.

Lemma block_middle a b c off size :
  off = zlen a -> size = zlen b -> block (a ++ b ++ c) off size = Some b.
Proof.
  intros -> ->. unfold block. rewrite !length_app.
  rewrite (proj2 (Z.leb_le _ _)) by lia.
  by rewrite !Nat2Z.id, drop_app_length, take_app_length.
Qed.

Definition blob_of (c strs : list Z) : list Z :=
  header [VART_FDT_MAGIC; 56 + zlen c + zlen strs; 56; 56 + zlen c; FDT_HEADER_SIZE;
          FDT_VERSION; FDT_LAST_COMP_VERSION; 0; zlen strs; zlen c] ++
  replicate 16 0 ++ c ++ strs.

Lemma blob_of_length c strs : zlen (blob_of c strs) = 56 + zlen c + zlen strs.
Proof.
  unfold blob_of. rewrite length_app, header_length, !length_app, length_replicate. simpl. lia.
Qed.

(** Uncover four more zero bytes for the next field. *)
Ltac next_field :=
  match goal with
  | |- context [replicate ?n 0 ++ ?tail] =>
      is_var tail; let m := eval vm_compute in (n - 4)%nat in
      change (replicate n 0 ++ tail) with (replicate 4 0 ++ replicate m 0 ++ tail)
  end.

Lemma fill_blob_spec cap scap c strs seen depth rs rc fin w :
  zlen c <= cap -> zlen strs <= scap -> 56 + zlen c + zlen strs <= UINT32_MAX ->
  wp (fill_blob (image cap scap c strs seen depth rs rc fin)
        (Some (replicate (Z.to_nat (56 + zlen c + zlen strs)) 0)) 56 (56 + zlen c)
        (56 + zlen c + zlen strs))
    (fun b w' => b = Some (blob_of c strs) /\ w' = w) w.
Proof.
  intros Hc Hs Hmax. unfold fill_blob.
  cbn [fdt_structure fdt_structure_size fdt_strings fdt_strings_size image].
  rewrite !u32_small by lia. unfold buffer. rewrite !Nat2Z.id.
  wstep. eapply wp_deref; [done|]. rewrite take_app_length.
  replace (Z.to_nat (56 + zlen c + zlen strs)) with (56 + (length c + length strs))%nat by lia.
  rewrite !replicate_add.
  wstep. eapply wp_eq.
  { apply (write_at_app (replicate 56 0) _ _ c). by rewrite length_replicate. }
  wstep. eapply wp_deref; [done|]. rewrite take_app_length.
  wstep. eapply wp_eq.
  { rewrite app_assoc. replace (56 + zlen c) with (zlen (replicate 56 0 ++ c)) by
      (rewrite length_app, length_replicate; lia).
    rewrite <- (app_nil_r (replicate (length strs) 0)).
    apply write_at_app. by rewrite length_replicate. }
  rewrite app_nil_r, <- app_assoc. set (tail := c ++ strs).
  change (replicate 56 0 ++ tail) with (header [] ++ replicate 4 0 ++ replicate 52 0 ++ tail).
  do 9 (run_image header_step; [done|]; next_field).
  eapply wp_eq; [by apply header_step|]. done.
Qed.

(** Reading back a blob that holds a complete tree. *)
Lemma parse_blob c strs es t :
  56 + zlen c + zlen strs <= UINT32_MAX -> 
  decode (length c) c strs = Some es -> tree_of es = Some t ->
  parse_dtb (blob_of c strs) = Some t.
Proof.
  intros Hmax Hes Ht. unfold parse_dtb.
  assert (forall k v, [VART_FDT_MAGIC; 56 + zlen c + zlen strs; 56; 56 + zlen c;
      FDT_HEADER_SIZE; FDT_VERSION; FDT_LAST_COMP_VERSION; 0; zlen strs; zlen c] !! k = Some v ->
    0 <= v <= UINT32_MAX -> forall i, i = (4 * k)%nat -> be32_at (blob_of c strs) i = Some v)
    as Hat by (intros k v ?? i ->; by apply be32_at_header).
  rewrite (Hat 0%nat _ eq_refl ltac:(lia) 0%nat eq_refl), (Hat 1%nat _ eq_refl ltac:(lia) 4%nat eq_refl), (Hat 2%nat _ eq_refl ltac:(lia) 8%nat eq_refl),
    (Hat 3%nat _ eq_refl ltac:(lia) 12%nat eq_refl), (Hat 4%nat _ eq_refl ltac:(lia) 16%nat eq_refl), (Hat 5%nat _ eq_refl ltac:(lia) 20%nat eq_refl),
    (Hat 6%nat _ eq_refl ltac:(lia) 24%nat eq_refl), (Hat 8%nat _ eq_refl ltac:(lia) 32%nat eq_refl), (Hat 9%nat _ eq_refl ltac:(lia) 36%nat eq_refl).
  cbn [mbind option_bind]. clear Hat.
  pose proof (blob_of_length c strs) as Hlen. revert Hlen.
  unfold blob_of. set (h := header _). assert (zlen h = 40) as Hh
    by (unfold h; rewrite header_length; done).
  intros Hlen.
  set (blob := h ++ _) in *.
  assert (block blob 56 (zlen c) = Some c) as ->.
  { unfold blob. rewrite app_assoc. apply block_middle; [|done].
    rewrite length_app, length_replicate. lia. }
  assert (block blob (56 + zlen c) (zlen strs) = Some strs) as ->.
  { replace blob with ((h ++ replicate 16 0 ++ c) ++ strs ++ [])
      by (unfold blob; by rewrite app_nil_r, <- !app_assoc).
    apply block_middle; [|done].
    rewrite !length_app, length_replicate. lia. }
  assert (block blob 40 16 = Some (replicate 16 0)) as ->
    by (apply block_middle; [lia|done]).
  cbn [mbind option_bind]. rewrite decide_True.
  - rewrite Hes. done.
  - rewrite Hlen. done.
Qed.

(** How [vart_fdt_finish] ends on a builder that holds the events [es]. *)
Definition finish_post (p : ptr) (f : VartFdt) (es : list event) (outputs : bool)
    (r : Z * option (list Z * Z)) (w : World) : Prop :=
  match r with
  | (err, Some (blob, size)) => err = 0 /\ size = zlen blob /\
      exists t, tree_of es = Some t /\ parse_dtb blob = Some t
  | (err, None) => w_fdts w !! p = Some f /\
      (err = -EINVAL /\ (outputs = false \/ tree_of es = None) \/
       err = -ENOSPC \/ err = -EOVERFLOW \/ err = -ENOMEM)
  end.

Lemma wp_calloc {A} (zero : A) n (Q : option (list A) -> World -> Prop) w :
  (forall w' r, w_fdts w' = w_fdts w ->
     r = None \/ r = Some (replicate (Z.to_nat n) zero) -> Q r w') ->
  wp (calloc zero n) Q w.
Proof.
  intros HQ. unfold calloc. wstep. apply wp_allocate; intros; wsteps; apply HQ; auto.
  destruct b; auto.
Qed.

Lemma finish_refused es s outputs :
  replay (TreeState [] None) es = Some s ->
  negb outputs || false || negb (root_seen s) || negb (root_closed s) ||
    negb (zlen (ts_open s) =? 0) = true -> outputs = false \/ tree_of es = None.
Proof.
  intros Hs H. destruct outputs; [right|by left]. unfold tree_of. rewrite Hs.
  destruct s as [[|] [|]]; try done.
Qed.

Lemma finish_accepted es s outputs :
  replay (TreeState [] None) es = Some s ->
  negb outputs || false || negb (root_seen s) || negb (root_closed s) ||
    negb (zlen (ts_open s) =? 0) = false -> exists t, tree_of es = Some t.
Proof.
  intros Hs H. destruct outputs; [|done]. unfold tree_of. rewrite Hs.
  destruct s as [[|] [|]]; naive_solver.
Qed.

Lemma finish_spec p f es s outputs w :
  w_fdts w !! p = Some f -> builder f es s ->
  wp (vart_fdt_finish (Some p) outputs) (finish_post p f es outputs) w.
Proof.
  intros Hf (cap & scap & c & names & junk & HB & ->). pose proof HB as [].
  unfold vart_fdt_finish. wsteps.
  cbn [fdt_finished fdt_root_seen fdt_root_closed fdt_depth fdt_structure_size
       fdt_strings_size image].
  destruct (_ || negb (zlen (ts_open s) =? 0)) eqn:Hok.
  { wsteps. split; [done|]. left. eauto using finish_refused. }
  destruct (finish_accepted _ _ _ b_replay0 Hok) as [t Ht].
  destruct (reserve_structure _ _ _) as [err ?] eqn:Hr.
  apply (f_equal fst) in Hr. apply reserve_image in Hr; [|lia..]. cbn [fst] in Hr.
  destruct Hr as [[-> Hroom]|Hr]; [|destruct (Z.ltb_spec err 0); [|lia]; wsteps;
    split; [done|tauto]].
  change (0 <? 0) with false. change (FDT_HEADER_SIZE + FDT_RESERVE_MAP_SIZE) with 56. cbv iota.
  rewrite (proj2 (Z.ltb_ge _ 56)) by lia.
  destruct (Z.ltb_spec UINT32_MAX (56 + zlen c + 4)) as [|Hoff]; cbn [orb];
    [wsteps; split; [done|tauto]|].
  destruct (Z.ltb_spec (UINT32_MAX - (56 + zlen c + 4)) (zlen (table names))) as [|Hmax];
    [wsteps; split; [done|tauto]|].
  wstep. apply wp_calloc. intros w' r Hw' [->| ->].
  { wsteps. split; [by rewrite Hw'|tauto]. }
  change (- (4) mod 4) with 0 in Hroom.
  run_image append_u32_image; [lia|].
  assert (zlen (c ++ write_be32 FDT_END) = zlen c + 4) as Hlen
    by (rewrite length_app; simpl; lia).
  wstep. replace (56 + zlen c + 4) with (56 + zlen (c ++ write_be32 FDT_END)) by lia.
  eapply wp_mono; [apply fill_blob_spec; lia|].
  intros ? ? [-> ->]. wsteps. eapply wp_deref; [done|]. wsteps.
  cbn [finish_post]. rewrite blob_of_length. split_and!; [done|done|].
  exists t. split; [done|]. eapply parse_blob; [lia| |done].
  apply decode_end; [done|]. pose proof (events_size_length es). lia.
Qed.

Lemma init_spec p cap scap w0 :
  0 <= cap -> 0 <= scap ->
  wp (vart_fdt_init (Some p) cap scap) (fun err w => err = 0 ->
    exists f, w_fdts w !! p = Some f /\ builder f [] (TreeState [] None) /\
      fdt_structure_capacity f = cap) w0.
Proof.
  intros Hc Hs. unfold vart_fdt_init.
  destruct ((cap =? 0) || (scap =? 0)) eqn:H0; [by wsteps|].
  destruct ((UINT32_MAX <? cap) || (UINT32_MAX <? scap)) eqn:H1; [by wsteps|].
  wstep. apply wp_calloc. intros w1 r1 _ Hr1.
  wstep. apply wp_calloc. intros w2 r2 _ Hr2.
  wstep. apply wp_calloc. intros w3 r3 _ Hr3.
  destruct Hr1 as [->| ->], Hr2 as [->| ->], Hr3 as [->| ->];
    unfold vart_fdt_destroy; wsteps; try done.
  intros _. eexists. split; [apply lookup_insert_eq|]. split; [|done].
  exists cap, scap, [], [], (replicate (Z.to_nat (cap / 8 + 1)) false). split.
  - constructor; try done; try (simpl; lia).
    + cbn [ts_open length]. rewrite length_replicate. mlia.
    + apply encodes_nil.
  - unfold image, buffer, update. cbn -[replicate Z.of_nat]. by rewrite !Nat.sub_0_r.
Qed.

(** ** Histories of a builder *)

(** The calls that mean an event; names and string values are C strings, and data
    has the size that is passed. *)
Inductive fdt_call (p : ptr) : event -> M World Z -> Prop :=
| call_begin name : c_str name ->
    fdt_call p (EBegin name) (vart_fdt_begin_node (Some p) (Some name))
| call_end : fdt_call p EEnd (vart_fdt_end_node (Some p))
| call_property name data : c_str name ->
    fdt_call p (EProp name data) (vart_fdt_property (Some p) (Some name) (Some data) (zlen data))
| call_empty name : c_str name ->
    fdt_call p (EProp name []) (vart_fdt_property (Some p) (Some name) None 0)
| call_string name value : c_str name ->
    fdt_call p (EProp name (value ++ [0]))
      (vart_fdt_property_string (Some p) (Some name) (Some value))
| call_u32 name value : c_str name ->
    fdt_call p (EProp name (write_be32 value))
      (vart_fdt_property_u32 (Some p) (Some name) value)
| call_u64 name value : c_str name ->
    fdt_call p (EProp name (write_be64 value))
      (vart_fdt_property_u64 (Some p) (Some name) value)
| call_cells name cells : c_str name ->
    fdt_call p (EProp name (concat (map write_be32 cells)))
      (vart_fdt_property_cells (Some p) (Some name) (Some cells) (zlen cells)).

(** The events that the calls on the builder [p] have been accepted for. *)
Inductive fdt_history (p : ptr) : list event -> World -> Prop :=
| hist_init cap scap w0 w : 0 <= cap -> 0 <= scap ->
    vart_fdt_init (Some p) cap scap w0 = Ok (0, w) -> fdt_history p [] w
| hist_call es w e m err w' : fdt_history p es w -> fdt_call p e m ->
    m w = Ok (err, w') -> fdt_history p (if err =? 0 then es ++ [e] else es) w'
| hist_refused es w outputs err w' : fdt_history p es w ->
    vart_fdt_finish (Some p) outputs w = Ok ((err, None), w') -> fdt_history p es w'
| hist_other es w w' : fdt_history p es w ->
    w_fdts w' !! p = w_fdts w !! p -> fdt_history p es w'.

Lemma concat_cells_length cells : zlen (concat (map write_be32 cells)) = zlen cells * 4.
Proof.
  change (zlen (header cells) = zlen cells * 4). rewrite header_length. lia.
Qed.

Lemma call_spec p e m f es s w :
  fdt_call p e m -> w_fdts w !! p = Some f -> builder f es s -> called p m f es s e w.
Proof.
  intros Hm Hf HB. destruct Hm as [name Hn| |name data Hn|name Hn|name value Hn|name value Hn
    |name value Hn|name cells Hn].
  - by apply begin_node_spec.
  - by apply end_node_spec.
  - apply property_spec; auto.
  - apply (property_spec p f es s w name None []); auto.
  - unfold vart_fdt_property_string.
    replace (zlen value + 1) with (zlen (value ++ [0])) by (rewrite length_app; simpl; lia).
    apply property_spec; auto.
  - apply (property_spec p f es s w name (Some _) (write_be32 value)); auto.
  - apply (property_spec p f es s w name (Some _) (write_be64 value)); auto.
  - unfold called, vart_fdt_property_cells. rewrite bool_decide_eq_false_2 by done. cbn [andb].
    destruct (Z.ltb_spec (UINT32_MAX / 4) (zlen cells)).
    { wsteps. eexists; split; [apply post_cells; auto|done]. }
    destruct (Z.eqb_spec (zlen cells * 4) 0) as [H0|H0].
    { assert (cells = []) as -> by (destruct cells; [done|simpl in *; lia]).
      apply (property_spec p f es s w name None []); auto. }
    assert (forall w', w_fdts w' = w_fdts w -> wp (
        let* c := deref (Some cells) in
        if zlen c <? zlen cells then undefined
        else vart_fdt_property (Some p) (Some name)
               (Some (concat (map write_be32 (take (Z.to_nat (zlen cells)) c)))) (zlen cells * 4))
      (fun err w' => exists f', call_post f es s (EProp name (concat (map write_be32 cells))) err f' /\
          w_fdts w' !! p = Some f') w') as Hrun.
    { intros w' Hw'. wstep. eapply wp_deref; [done|]. rewrite Z.ltb_irrefl, Nat2Z.id, take_ge by lia.
      rewrite <- concat_cells_length. apply property_spec; auto. by rewrite Hw'. }
    wstep. apply wp_allocate; [intros [|] rest Hoom|intros _]; cbn [negb]; auto.
    wsteps. eexists; split; [apply post_cells; auto|done].
Qed.

(** The builder after any history. *)
Lemma history_builder p es w :
  fdt_history p es w -> exists f s, w_fdts w !! p = Some f /\ builder f es s.
Proof.
  induction 1 as [cap scap w0 w Hc Hs Hi|es w e m err w' Hh IH Hm Hr
    |es w outputs err w' Hh IH Hr|es w w' Hh IH Hw].
  - pose proof (wp_elim _ _ _ _ _ (init_spec p cap scap w0 Hc Hs) Hi) as (f & Hf & HB & _); [done|].
    eauto.
  - destruct IH as (f & s & Hf & HB).
    destruct (wp_elim _ _ _ _ _ (call_spec p e m f es s w Hm Hf HB) Hr) as (f' & Hpost & Hf').
    destruct Hpost as [|err ? [-> | ->]|err [-> | ->]|s' f' Hstep HB']; eauto.
  - destruct IH as (f & s & Hf & HB).
    pose proof (wp_elim _ _ _ _ _ (finish_spec p f es s outputs w Hf HB) Hr) as [Hf' _]. eauto.
  - rewrite Hw. done.
Qed.

(** C19. The blob that [vart_fdt_finish] returns holds exactly the device tree that
    the calls described.  Whatever calls were made on a builder since
    [vart_fdt_init], in any order and with any of them refused, if the finish
    succeeds then the accepted calls form one complete tree (a single root, nodes
    properly nested, properties before child nodes), and a reader that follows the
    Devicetree specification (magic, offsets and sizes in the header, tokens padded
    to four bytes, property names through the strings block) gets that tree back
    from the blob, whose length is the returned size. *)
Theorem fdt_roundtrip p es w err blob size w' :
  fdt_history p es w ->
  vart_fdt_finish (Some p) true w = Ok ((err, Some (blob, size)), w') ->
  size = Z.of_nat (length blob) /\
  exists t, tree_of es = Some t /\ parse_dtb blob = Some t.
Proof.
  intros Hh Hr. destruct (history_builder _ _ _ Hh) as (f & s & Hf & HB).
  by destruct (wp_elim _ _ _ _ _ (finish_spec p f es s true w Hf HB) Hr) as (_ & ? & ?).
Qed.

(** After any history of a builder every further call returns: no write leaves
    the structure, strings or [child_seen] buffers and the search for a property
    name ends.  A call is accepted only if the rules of a device tree allow the
    event where the tree stands, it is refused with [EINVAL] only if they do not, and
    a refused call leaves the builder unchanged; the only other errors are [ENOSPC],
    [EOVERFLOW] and [ENOMEM].  Finishing a complete tree never gives [EINVAL]. *)
Theorem fdt_calls_total p es w :
  fdt_history p es w ->
  (forall e m, fdt_call p e m -> exists err w', m w = Ok (err, w') /\
     err ∈ [0; -EINVAL; -ENOSPC; -EOVERFLOW; -ENOMEM] /\
     (err = 0 -> is_Some (replay (TreeState [] None) (es ++ [e]))) /\
     (err = -EINVAL -> replay (TreeState [] None) (es ++ [e]) = None) /\
     (err <> 0 -> w_fdts w' !! p = w_fdts w !! p)) /\
  exists err out w', vart_fdt_finish (Some p) true w = Ok ((err, out), w') /\
    (is_Some (tree_of es) -> err ∈ [0; -ENOSPC; -EOVERFLOW; -ENOMEM]).
Proof.
  intros Hh. destruct (history_builder _ _ _ Hh) as (f & s & Hf & HB).
  pose proof HB as (cap & scap & c & names & junk & HA & _).
  pose proof (b_replay _ _ _ _ _ _ _ HA) as Hs. split.
  - intros e m Hm. apply wp_ok.
    eapply wp_mono; [apply (call_spec p e m f es s w Hm Hf HB)|].
    intros err w' (f' & Hpost & Hf'). rewrite Hf, Hf', (replay_snoc_eq _ _ _ _ Hs).
    destruct Hpost as [|err ? [-> | ->]|err [-> | ->]|s' f' Hstep HB'];
      split_and!; try done; try set_solver; eauto.
  - destruct (proj1 (wp_ok _ _ _) (finish_spec p f es s true w Hf HB))
      as ([err out] & w' & Hr & Hpost).
    exists err, out, w'. split; [done|]. intros [t Ht].
    destruct out as [[blob size]|]; simpl in Hpost; [destruct Hpost as (-> & _); set_solver|].
    destruct Hpost as (_ & [(_ & [|])|[->|[->| ->]]]); [done|congruence|set_solver..].
Qed.

(** * A small tree *)

Module FdtDemo.
Definition exec {A} (m : M World A) (w : World) : World :=
  match m w with Ok (_, w') => w' | _ => w end.
Definition tree : ptr := 1%positive.
Definition name : list Z := [99; 112; 117].
Definition t0 := exec (vart_fdt_init (Some tree) 64 16) empty_world.
Definition t1 := exec (vart_fdt_begin_node (Some tree) (Some [])) t0.
Definition t2 := exec (vart_fdt_property_u32 (Some tree) (Some name) 2) t1.
Definition t3 := exec (vart_fdt_end_node (Some tree)) t2.
Definition blob : list Z :=
  match vart_fdt_finish (Some tree) true t3 with Ok ((_, Some (b, _)), _) => b | _ => [] end.

Definition result {A} (m : M World A) (w : World) : option A :=
  match m w with Ok (a, _) => Some a | _ => None end.

(** A larger tree, built and read back. *)
Definition build : M World Z :=
  vart_fdt_init (Some tree) 200 40 ;;;
  vart_fdt_begin_node (Some tree) (Some []) ;;;
  vart_fdt_property_u32 (Some tree) (Some [97; 98]) 2 ;;;
  vart_fdt_property_string (Some tree) (Some [99]) (Some [120; 121; 122; 122]) ;;;
  vart_fdt_begin_node (Some tree) (Some [109; 101; 109; 64; 48]) ;;;
  vart_fdt_property_cells (Some tree) (Some [97; 98]) (Some [1; 2]) 2 ;;;
  vart_fdt_end_node (Some tree) ;;;
  vart_fdt_end_node (Some tree).
Example build_parses :
  (result (build ;;; vart_fdt_finish (Some tree) true) empty_world ≫=
   fun r => snd r ≫= fun b => parse_dtb (fst b)) =
  Some (Node [] [([97; 98], [0; 0; 0; 2]); ([99], [120; 121; 122; 122; 0])]
          [Node [109; 101; 109; 64; 48] [([97; 98], [0; 0; 0; 1; 0; 0; 0; 2])] []]).
Proof. vm_compute. reflexivity. Qed.

Lemma name_c_str : c_str name.
Proof. repeat constructor; done. Qed.

Lemma t3_history : fdt_history tree [EBegin []; EProp name (write_be32 2); EEnd] t3.
Proof.
  assert (fdt_history tree [] t0) as H0
    by (apply (hist_init tree 64 16 empty_world); [lia|lia|vm_compute; reflexivity]).
  assert (fdt_history tree [EBegin []] t1) as H1
    by (apply (hist_call tree _ _ _ _ 0 t1 H0 (call_begin tree [] (Forall_nil_2 _)));
        vm_compute; reflexivity).
  assert (fdt_history tree [EBegin []; EProp name (write_be32 2)] t2) as H2.
  { apply (hist_call tree _ _ _ _ 0 t2 H1 (call_u32 tree name 2 name_c_str));
      vm_compute; reflexivity. }
  apply (hist_call tree _ _ _ _ 0 t3 H2 (call_end tree)). vm_compute. reflexivity.
Qed.

Lemma fdt_roundtrip_witness :
  Z.of_nat (length blob) = 92 /\ exists t, parse_dtb blob = Some t.
Proof.
  split; [vm_compute; reflexivity|].
  destruct (fdt_roundtrip tree _ t3 0 blob 92 (exec (vart_fdt_finish (Some tree) true) t3)
    t3_history ltac:(vm_compute; reflexivity)) as (_ & t & _ & Ht).
  exists t. exact Ht.
Defined.

Lemma fdt_calls_total_witness :
  exists err w', vart_fdt_begin_node (Some tree) (Some name) t3 = Ok (err, w').
Proof.
  destruct (proj1 (fdt_calls_total tree _ t3 t3_history) (EBegin name) _
    (call_begin tree name name_c_str)) as (err & w' & H & _).
  exists err, w'. exact H.
Defined.
End FdtDemo.
