(* ===== verification/VirtFdt.v ===== *)
(** The device tree of the board: [src/machine/virt-fdt.c].

    [vart_virt_fdt_build] checks a description of the machine and calls the builder of
    [Fdt.v] for every node and property of the tree handed to the guest.  The theorems
    say that the blob reads back as the tree [virt_tree] of the description, that a
    description is refused exactly when it is not sound, and that in the tree every
    reference to another node resolves. *)

From Stdlib Require Import Strings.String Strings.Ascii ZArith Lia.
From stdpp Require Import base tactics numbers list gmap.
From S2P Require Import Prelude Bytes Machine Fdt.

Abbreviation VART_VIRT_MAX_CPUS := 512 (only parsing).
Abbreviation VART_VIRT_PCIE_PIO_BASE := 0x03000000 (only parsing).
Abbreviation VART_VIRT_PCIE_PIO_SIZE := 0x00010000 (only parsing).
Abbreviation VART_VIRT_APLIC_S_BASE := 0x0d000000 (only parsing).
Abbreviation VART_VIRT_APLIC_SIZE := 0x00008000 (only parsing).
Abbreviation VART_VIRT_APLIC_NUM_SOURCES := 96 (only parsing).
Abbreviation VART_VIRT_UART_BASE := 0x10000000 (only parsing).
Abbreviation VART_VIRT_UART_SIZE := 0x00000100 (only parsing).
Abbreviation VART_VIRT_UART_IRQ := 10 (only parsing).
Abbreviation VART_VIRT_UART_CLOCK_HZ := 3686400 (only parsing).
Abbreviation VART_VIRT_IMSIC_S_BASE := 0x28000000 (only parsing).
Abbreviation VART_VIRT_IMSIC_GROUP_SIZE := 0x01000000 (only parsing).
Abbreviation VART_VIRT_IMSIC_FILE_SIZE := 0x00001000 (only parsing).
Abbreviation VART_VIRT_IMSIC_NUM_IDS := 255 (only parsing).
Abbreviation VART_VIRT_PCIE_ECAM_BASE := 0x30000000 (only parsing).
Abbreviation VART_VIRT_PCIE_ECAM_SIZE := 0x10000000 (only parsing).
Abbreviation VART_VIRT_PCIE_MMIO_BASE := 0x40000000 (only parsing).
Abbreviation VART_VIRT_PCIE_MMIO_SIZE := 0x40000000 (only parsing).
Abbreviation VART_VIRT_PCIE_IRQ_BASE := 32 (only parsing).
Abbreviation VIRT_FDT_STRUCTURE_CAPACITY := 16384 (only parsing).
Abbreviation VIRT_FDT_STRINGS_CAPACITY := 2048 (only parsing).
Abbreviation RISCV_IRQ_S_EXT := 9 (only parsing).
Abbreviation IRQ_TYPE_LEVEL_HIGH := 4 (only parsing).
Abbreviation FDT_PCI_RANGE_IOPORT := 0x01000000 (only parsing).
Abbreviation FDT_PCI_RANGE_MMIO := 0x02000000 (only parsing).
Abbreviation FDT_PCI_ADDR_CELLS := 3 (only parsing).
Abbreviation FDT_PCI_INT_CELLS := 1 (only parsing).

(** * Text *)

(** The bytes of a string literal, without the final NUL. *)
Definition str (s : string) : list Z :=
  map (fun c => Z.of_N (N_of_ascii c)) (list_ascii_of_string s).
Arguments str s%_string.

Definition hex_digit (d : Z) : Z := if d <? 10 then 48 + d else 87 + d.
Fixpoint hex_loop (fuel : nat) (n : Z) : list Z :=
  match fuel with
  | O => []
  | S fuel => (if n <? 16 then [] else hex_loop fuel (n / 16)) ++ [hex_digit (n mod 16)]
  end.
(** [PRIx64] and, for a smaller number, [PRIx32]: at most sixteen digits. *)
Definition print_hex (n : Z) : list Z := hex_loop 16 n.

(** [snprintf(buffer, size, ...)] of the text [s]. *)
Definition snprintf (size : nat) (s : list Z) : list Z := take (size - 1) s.

(** * Descriptions

    A string is [None] for NULL; an array is the list of the elements that exist. *)
Record VartVirtFdtCpu := mkFdtCpu {
  cpu_hartid : Z;
  cpu_isa : option (list Z);
  cpu_isa_base : option (list Z);
  cpu_isa_extensions : option (list (option (list Z)));
  cpu_isa_extension_count : Z;
  cpu_mmu_type : option (list Z);
}.

Record VartVirtFdtConfig := mkFdtConfig {
  vc_cpus : option (list VartVirtFdtCpu);
  vc_cpu_count : Z;
  vc_timebase_frequency : Z;
  vc_ram_base : Z;
  vc_ram_size : Z;
  vc_bootargs : option (list Z);
  vc_initrd_start : Z;
  vc_initrd_size : Z;
  vc_enable_riscv_iommu : bool;
}.

(** [ret = m; if (ret == 0) ret = k;] *)
Definition and_then (m k : M World Z) : M World Z :=
  let* err := m in if err =? 0 then k else ret err.
Notation "m '&?' k" := (and_then m k) (at level 62, right associativity) : vart_scope.

(** The two cells of a 64-bit number. *)
Definition cells64 (x : Z) : list Z := [u32 (Z.shiftr x 32); u32 x].

(** * Nodes *)
Section Build.
Context (fdt : ptr).
Abbreviation begin_node n := (vart_fdt_begin_node (Some fdt) (Some n)).
Abbreviation end_node := (vart_fdt_end_node (Some fdt)).
Abbreviation property_string n v := (vart_fdt_property_string (Some fdt) (Some (str n)) v).
Abbreviation property_u32 n v := (vart_fdt_property_u32 (Some fdt) (Some (str n)) v).
Abbreviation property_u64 n v := (vart_fdt_property_u64 (Some fdt) (Some (str n)) v).
Abbreviation property_cells n l :=
  (vart_fdt_property_cells (Some fdt) (Some (str n)) (Some l%list) (zlen l)).
Abbreviation property_empty n := (vart_fdt_property (Some fdt) (Some (str n)) None 0).

(** The first loop of [add_string_list]: an error or the size of the list. *)
Fixpoint string_list_size (count : nat) (values : list (option (list Z))) (size : Z)
    : M World (Z + Z) :=
  match count, values with
  | O, _ => ret (inr size)
  | S _, [] => undefined
  | S count, v :: values =>
      let* s := deref v in
      let length := zlen s + 1 in
      if UINT32_MAX - size <? length then ret (inl (-EOVERFLOW))
      else string_list_size count values (size + length)
  end.

(** The second loop: the strings with their NULs. *)
Fixpoint string_list_data (count : nat) (values : list (option (list Z))) : M World (list Z) :=
  match count, values with
  | O, _ => ret []
  | S _, [] => undefined
  | S count, v :: values =>
      let* s := deref v in
      let* rest := string_list_data count values in
      ret (s ++ [0] ++ rest)
  end.

Definition add_string_list (name : list Z) (values : list (option (list Z))) (count : Z)
    : M World Z :=
  let* sized := string_list_size (Z.to_nat count) values 0 in
  match sized with
  | inl err => ret err
  | inr size =>
      let* allocated := allocate in
      if negb allocated then ret (-ENOMEM)
      else
        let* data := string_list_data (Z.to_nat count) values in
        vart_fdt_property (Some fdt) (Some name) (Some data) size
  end.

Definition add_cpu (cpu : VartVirtFdtCpu) (intc_phandle : Z) : M World Z :=
  begin_node (snprintf 13 (str "cpu@" ++ print_hex (cpu_hartid cpu))) &?
  property_string "device_type" (Some (str "cpu")) &?
  property_u32 "reg" (cpu_hartid cpu) &?
  property_string "status" (Some (str "okay")) &?
  property_string "compatible" (Some (str "riscv")) &?
  property_string "riscv,isa" (cpu_isa cpu) &?
  property_string "riscv,isa-base" (cpu_isa_base cpu) &?
  (let* extensions := deref (cpu_isa_extensions cpu) in
   add_string_list (str "riscv,isa-extensions") extensions (cpu_isa_extension_count cpu)) &?
  property_string "mmu-type" (cpu_mmu_type cpu) &?
  begin_node (str "interrupt-controller") &?
  property_string "compatible" (Some (str "riscv,cpu-intc")) &?
  property_empty "interrupt-controller" &?
  property_u32 "#interrupt-cells" 1 &?
  property_u32 "phandle" intc_phandle &?
  end_node &?
  end_node.

(** The [for] loop of [add_cpus], from index [i] on. *)
Fixpoint add_cpu_loop (count : nat) (cpus : list VartVirtFdtCpu) (i : Z) : M World Z :=
  match count, cpus with
  | O, _ => ret 0
  | S _, [] => undefined
  | S count, cpu :: cpus => add_cpu cpu (u32 (u32 i + 1)) &? add_cpu_loop count cpus (i + 1)
  end.

Definition add_cpus (config : VartVirtFdtConfig) : M World Z :=
  begin_node (str "cpus") &?
  property_u32 "#address-cells" 1 &?
  property_u32 "#size-cells" 0 &?
  property_u32 "timebase-frequency" (vc_timebase_frequency config) &?
  (let* cpus := deref (vc_cpus config) in
   add_cpu_loop (Z.to_nat (vc_cpu_count config)) cpus 0) &?
  end_node.

Definition add_memory (base size : Z) : M World Z :=
  begin_node (snprintf 24 (str "memory@" ++ print_hex base)) &?
  property_string "device_type" (Some (str "memory")) &?
  property_cells "reg" (cells64 base ++ cells64 size) &?
  end_node.

Definition add_chosen (config : VartVirtFdtConfig) (uart_path : list Z) : M World Z :=
  begin_node (str "chosen") &?
  (match vc_bootargs config with
   | Some (b :: l) => property_string "bootargs" (Some (b :: l))
   | _ => ret 0
   end) &?
  (if negb (vc_initrd_size config =? 0)
   then property_u64 "linux,initrd-start" (vc_initrd_start config) else ret 0) &?
  (if negb (vc_initrd_size config =? 0)
   then property_u64 "linux,initrd-end" (u64 (vc_initrd_start config + vc_initrd_size config))
   else ret 0) &?
  property_string "stdout-path" (Some uart_path) &?
  end_node.

Definition add_aliases (uart_path : list Z) : M World Z :=
  begin_node (str "aliases") &?
  property_string "serial0" (Some uart_path) &?
  end_node.

Definition add_uart (aplic_phandle : Z) : M World Z :=
  begin_node (snprintf 24 (str "serial@" ++ print_hex VART_VIRT_UART_BASE)) &?
  property_string "compatible" (Some (str "ns16550a")) &?
  property_cells "reg" (cells64 VART_VIRT_UART_BASE ++ cells64 VART_VIRT_UART_SIZE) &?
  property_u32 "clock-frequency" VART_VIRT_UART_CLOCK_HZ &?
  property_u32 "interrupt-parent" aplic_phandle &?
  property_cells "interrupts" [VART_VIRT_UART_IRQ; IRQ_TYPE_LEVEL_HIGH] &?
  end_node.

(** The entry of [interrupt_map] for a device and a pin. *)
Definition interrupt_map_entry (aplic_phandle dev pin : Z) : list Z :=
  [Z.shiftl (dev * 8) 8; 0; 0; pin + 1; aplic_phandle;
   VART_VIRT_PCIE_IRQ_BASE + (pin + dev) mod 4; IRQ_TYPE_LEVEL_HIGH].

(** The two [for] loops of [add_pcie]. *)
Definition interrupt_map (aplic_phandle : Z) : list Z :=
  concat (map (fun dev => concat (map (interrupt_map_entry aplic_phandle dev) [0; 1; 2; 3]))
            [0; 1; 2; 3]).

Definition add_iommu (aplic_phandle : Z) : M World Z :=
  begin_node (str "iommu@0") &?
  property_string "compatible" (Some (str "riscv,pci-iommu")) &?
  property_u32 "#iommu-cells" 1 &?
  property_cells "reg" [0; 0; 0; 0; 0] &?
  property_u32 "phandle" (u32 (aplic_phandle + 1)) &?
  end_node.

Definition add_pcie (imsic_phandle aplic_phandle : Z) (enable_riscv_iommu : bool) : M World Z :=
  begin_node (snprintf 21 (str "pci@" ++ print_hex VART_VIRT_PCIE_ECAM_BASE)) &?
  property_u32 "#address-cells" FDT_PCI_ADDR_CELLS &?
  property_u32 "#interrupt-cells" FDT_PCI_INT_CELLS &?
  property_u32 "#size-cells" 2 &?
  property_string "compatible" (Some (str "pci-host-ecam-generic")) &?
  property_string "device_type" (Some (str "pci")) &?
  property_u32 "linux,pci-domain" 0 &?
  property_cells "bus-range" [0; u32 (VART_VIRT_PCIE_ECAM_SIZE / 0x100000 - 1)] &?
  property_empty "dma-coherent" &?
  property_u32 "msi-parent" imsic_phandle &?
  property_cells "reg" (cells64 VART_VIRT_PCIE_ECAM_BASE ++ cells64 VART_VIRT_PCIE_ECAM_SIZE) &?
  property_cells "ranges"
    [FDT_PCI_RANGE_IOPORT; 0; 0; 0; VART_VIRT_PCIE_PIO_BASE; 0; VART_VIRT_PCIE_PIO_SIZE;
     FDT_PCI_RANGE_MMIO; 0; VART_VIRT_PCIE_MMIO_BASE; 0; VART_VIRT_PCIE_MMIO_BASE; 0;
     VART_VIRT_PCIE_MMIO_SIZE] &?
  property_cells "interrupt-map" (interrupt_map aplic_phandle) &?
  property_cells "interrupt-map-mask" [0x1800; 0; 0; 0x7] &?
  (if enable_riscv_iommu
   then property_cells "iommu-map" [0; u32 (aplic_phandle + 1); 0; 0x10000] else ret 0) &?
  (if enable_riscv_iommu then add_iommu aplic_phandle else ret 0) &?
  end_node.

(** The loop that fills [interrupts], for the indices from [i] on. *)
Fixpoint imsic_interrupts (count : nat) (i : Z) : list Z :=
  match count with
  | O => []
  | S count => u32 (u32 i + 1) :: RISCV_IRQ_S_EXT :: imsic_interrupts count (i + 1)
  end.

Definition add_imsic (cpu_count imsic_phandle : Z) : M World Z :=
  let imsic_size := u64 (cpu_count * VART_VIRT_IMSIC_FILE_SIZE) in
  let* allocated := allocate in
  if negb allocated then ret (-ENOMEM)
  else
    let interrupts := imsic_interrupts (Z.to_nat cpu_count) 0 in
    begin_node (snprintf 38 (str "interrupt-controller@" ++ print_hex VART_VIRT_IMSIC_S_BASE)) &?
    add_string_list (str "compatible") [Some (str "qemu,imsics"); Some (str "riscv,imsics")] 2 &?
    property_u32 "#interrupt-cells" 0 &?
    property_empty "interrupt-controller" &?
    property_empty "msi-controller" &?
    property_u32 "#msi-cells" 0 &?
    vart_fdt_property_cells (Some fdt) (Some (str "interrupts-extended")) (Some interrupts)
      (cpu_count * 2) &?
    property_cells "reg" (cells64 VART_VIRT_IMSIC_S_BASE ++ cells64 imsic_size) &?
    property_u32 "riscv,num-ids" VART_VIRT_IMSIC_NUM_IDS &?
    property_u32 "phandle" imsic_phandle &?
    end_node.

Definition add_aplic (imsic_phandle aplic_phandle : Z) : M World Z :=
  begin_node (snprintf 38 (str "interrupt-controller@" ++ print_hex VART_VIRT_APLIC_S_BASE)) &?
  add_string_list (str "compatible") [Some (str "qemu,aplic"); Some (str "riscv,aplic")] 2 &?
  property_u32 "#address-cells" 0 &?
  property_u32 "#interrupt-cells" 2 &?
  property_empty "interrupt-controller" &?
  property_u32 "msi-parent" imsic_phandle &?
  property_cells "reg" (cells64 VART_VIRT_APLIC_S_BASE ++ cells64 VART_VIRT_APLIC_SIZE) &?
  property_u32 "riscv,num-sources" VART_VIRT_APLIC_NUM_SOURCES &?
  property_u32 "phandle" aplic_phandle &?
  end_node.

Definition add_soc (cpu_count imsic_phandle aplic_phandle : Z) (enable_riscv_iommu : bool)
    : M World Z :=
  begin_node (str "soc") &?
  property_u32 "#address-cells" 2 &?
  property_u32 "#size-cells" 2 &?
  property_string "compatible" (Some (str "simple-bus")) &?
  property_empty "ranges" &?
  add_imsic cpu_count imsic_phandle &?
  add_aplic imsic_phandle aplic_phandle &?
  add_uart aplic_phandle &?
  add_pcie imsic_phandle aplic_phandle enable_riscv_iommu &?
  end_node.
End Build.

(** * The whole tree *)

(** NULL or the empty string. *)
Definition no_text (s : option (list Z)) : bool :=
  match s with Some (_ :: _) => false | _ => true end.

(** Whether the loop over the extensions of a CPU refuses one. *)
Fixpoint extensions_refused (count : nat) (values : list (option (list Z))) : M World bool :=
  match count, values with
  | O, _ => ret false
  | S _, [] => undefined
  | S count, v :: values =>
      if no_text v then ret true else extensions_refused count values
  end.

(** The loop over the CPUs, [before] being those already checked. *)
Fixpoint validate_cpus (count : nat) (before cpus : list VartVirtFdtCpu) : M World Z :=
  match count, cpus with
  | O, _ => ret 0
  | S _, [] => undefined
  | S count, cpu :: cpus =>
      if no_text (cpu_isa cpu) || no_text (cpu_isa_base cpu) ||
         bool_decide (cpu_isa_extensions cpu = None) || (cpu_isa_extension_count cpu =? 0) ||
         no_text (cpu_mmu_type cpu)
      then ret (-EINVAL)
      else
        let* extensions := deref (cpu_isa_extensions cpu) in
        let* refused := extensions_refused (Z.to_nat (cpu_isa_extension_count cpu)) extensions in
        if (refused : bool) then ret (-EINVAL)
        else if existsb (fun c => cpu_hartid c =? cpu_hartid cpu) before then ret (-EINVAL)
        else validate_cpus count (before ++ [cpu]) cpus
  end.

Definition validate_config (config : option VartVirtFdtConfig) : M World Z :=
  match config with
  | None => ret (-EINVAL)
  | Some config =>
      if bool_decide (vc_cpus config = None) || (vc_cpu_count config =? 0) ||
         (VART_VIRT_MAX_CPUS <? vc_cpu_count config) ||
         (VART_VIRT_IMSIC_GROUP_SIZE / VART_VIRT_IMSIC_FILE_SIZE <? vc_cpu_count config) ||
         (vc_timebase_frequency config =? 0) || (vc_ram_size config =? 0) ||
         (UINT64_MAX - vc_ram_size config <? vc_ram_base config)
      then ret (-EINVAL)
      else
        let ram_end := vc_ram_base config + vc_ram_size config in
        if ((vc_initrd_size config =? 0) && negb (vc_initrd_start config =? 0)) ||
           (UINT64_MAX - vc_initrd_size config <? vc_initrd_start config)
        then ret (-EINVAL)
        else
          let initrd_end := vc_initrd_start config + vc_initrd_size config in
          if negb (vc_initrd_size config =? 0) &&
             ((vc_initrd_start config <? vc_ram_base config) || (ram_end <? initrd_end))
          then ret (-EINVAL)
          else
            let* cpus := deref (vc_cpus config) in
            validate_cpus (Z.to_nat (vc_cpu_count config)) [] cpus
  end.

(** The path of the UART, as [snprintf] leaves it. *)
Definition uart_path : list Z :=
  snprintf 29 (str "/soc/serial@" ++ print_hex VART_VIRT_UART_BASE).

(** From the root node to its end. *)
Definition add_root (fdt : ptr) (config : VartVirtFdtConfig) : M World Z :=
  let imsic_phandle := u32 (u32 (vc_cpu_count config) + 1) in
  let aplic_phandle := u32 (imsic_phandle + 1) in
  vart_fdt_begin_node (Some fdt) (Some (str "")) &?
  vart_fdt_property_string (Some fdt) (Some (str "model"))
    (Some (str "VART RISC-V virtual machine")) &?
  vart_fdt_property_string (Some fdt) (Some (str "compatible")) (Some (str "riscv-virtio")) &?
  vart_fdt_property_u32 (Some fdt) (Some (str "#address-cells")) 2 &?
  vart_fdt_property_u32 (Some fdt) (Some (str "#size-cells")) 2 &?
  add_cpus fdt config &?
  add_memory fdt (vc_ram_base config) (vc_ram_size config) &?
  add_chosen fdt config uart_path &?
  add_aliases fdt uart_path &?
  add_soc fdt (vc_cpu_count config) imsic_phandle aplic_phandle (vc_enable_riscv_iommu config) &?
  vart_fdt_end_node (Some fdt).

(** [fdt] is the address of the local variable; [outputs] says that neither [blob] nor
    [size] is NULL; the result has what is stored through them. *)
Definition vart_virt_fdt_build (fdt : ptr) (config : option VartVirtFdtConfig) (outputs : bool)
    : M World (Z * option (list Z * Z)) :=
  if negb outputs then ret (-EINVAL, None)
  else
    let* err := validate_config config in
    if err <? 0 then ret (err, None)
    else
      let* config := deref config in
      let* err := vart_fdt_init (Some fdt) VIRT_FDT_STRUCTURE_CAPACITY
                    VIRT_FDT_STRINGS_CAPACITY in
      if err <? 0 then ret (err, None)
      else
        let* err := add_root fdt config in
        let* result := if err =? 0 then vart_fdt_finish (Some fdt) outputs
                       else ret (err, None) in
        vart_fdt_destroy (Some fdt) ;;;
        ret result.

(** * Trees and the calls that describe them *)

(** The calls of a node: its properties come first, then its children. *)
Fixpoint events_of (t : node) : list event :=
  match t with
  | Node name props children =>
      EBegin name :: map (fun p => EProp p.1 p.2) props ++ concat (map events_of children) ++ [EEnd]
  end.

Definition props_ok (props : list (list Z * list Z)) : bool :=
  forallb (fun p => bool_decide (p.1 <> [])) props.
(** The names a node other than the root may have, throughout a tree. *)
Fixpoint node_ok (t : node) : bool :=
  match t with
  | Node name props children =>
      bool_decide (name <> []) && bool_decide (slash ∉ name) && props_ok props &&
      forallb node_ok children
  end.

Section NodeInd.
Context (P : node -> Prop)
  (HP : forall name props children, Forall P children -> P (Node name props children)).
Fixpoint node_induction (t : node) : P t :=
  match t with
  | Node name props children => HP name props children
      ((fix go (l : list node) : Forall P l :=
          match l with [] => Forall_nil_2 P | t :: l => Forall_cons_2 P t l (node_induction t) (go l) end)
       children)
  end.
End NodeInd.

Lemma replay_app s es1 es2 :
  replay s (es1 ++ es2) = s1 ← replay s es1; replay s1 es2.
Proof.
  revert s. induction es1 as [|e es1 IH]; intros s; [done|].
  cbn [replay app]. destruct (tree_step s e); [apply IH|done].
Qed.

Lemma replay_props name ps rest props :
  props_ok props = true ->
  replay (TreeState (Frame name ps [] :: rest) None) (map (fun p => EProp p.1 p.2) props) =
  Some (TreeState (Frame name (ps ++ props) [] :: rest) None).
Proof.
  revert ps. induction props as [|[n d] props IH]; intros ps Hok; simpl.
  { by rewrite app_nil_r. }
  simpl in Hok. apply andb_prop in Hok as [Hn Hok]. apply bool_decide_eq_true in Hn.
  simpl in Hn. rewrite decide_True by done. simpl.
  rewrite IH by done. by rewrite <- app_assoc.
Qed.

(** The frame [f] with one more child. *)
Definition add_child (f : frame) (t : node) : frame :=
  Frame (fr_name f) (fr_props f) (fr_children f ++ [t]).

Lemma replay_children children :
  Forall (fun t => forall f rest, replay (TreeState (f :: rest) None) (events_of t) =
    Some (TreeState (add_child f t :: rest) None)) children ->
  forall f rest, replay (TreeState (f :: rest) None) (concat (map events_of children)) =
    Some (TreeState (Frame (fr_name f) (fr_props f) (fr_children f ++ children) :: rest) None).
Proof.
  induction 1 as [|t children Ht _ IH]; intros f rest; simpl.
  { rewrite app_nil_r. by destruct f. }
  rewrite replay_app, Ht. cbn [mbind option_bind]. rewrite IH. simpl. by rewrite <- app_assoc.
Qed.

Lemma replay_node t : node_ok t = true -> forall f rest,
  replay (TreeState (f :: rest) None) (events_of t) =
  Some (TreeState (add_child f t :: rest) None).
Proof.
  induction t as [name props children IH] using node_induction. simpl. intros Hok f rest.
  rewrite !andb_true_iff, !bool_decide_eq_true in Hok. destruct Hok as [[[Hn Hs] Hp] Hc].
  rewrite decide_True by done. cbn [mbind option_bind].
  rewrite replay_app, replay_props by done. cbn [mbind option_bind app].
  rewrite replay_app, replay_children; [by destruct f|].
  apply Forall_forall. intros t Ht. rewrite Forall_forall in IH. apply IH; [done|].
  rewrite forallb_forall in Hc. by apply Hc, list_elem_of_In.
Qed.

(** The calls of a whole tree describe that tree. *)
Lemma tree_of_events props children :
  props_ok props = true -> forallb node_ok children = true ->
  replay (TreeState [] None) (events_of (Node [] props children)) =
  Some (TreeState [] (Some (Node [] props children))).
Proof.
  intros Hp Hc. simpl. rewrite replay_app, replay_props by done. cbn [mbind option_bind app].
  rewrite replay_app, replay_children; [done|].
  apply Forall_forall. intros t Ht. apply replay_node.
  rewrite forallb_forall in Hc. by apply Hc, list_elem_of_In.
Qed.

(** ** What the construction leaves alone *)

(** Only the builders and the fate of allocations differ. *)
Definition fdt_frame (w w' : World) : Prop :=
  w' = w <| w_fdts := w_fdts w' |> <| w_oom := w_oom w' |>.
Definition fdt_only {A} (m : M World A) : Prop :=
  forall w a w', m w = Ok (a, w') -> fdt_frame w w'.

#[export] Instance fdt_frame_preorder : PreOrder fdt_frame.
Proof.
  split.
  - intros w. by destruct w.
  - intros w1 w2 w3 H1 H2. unfold fdt_frame in *. rewrite H2, H1. reflexivity.
Qed.

Create HintDb fdt_only.
#[export] Hint Constants Opaque : fdt_only.
Lemma fdt_only_bind {A B} (m : M World A) (k : A -> M World B) :
  fdt_only m -> (forall a, fdt_only (k a)) -> fdt_only (bind m k).
Proof.
  intros Hm Hk w b w' E. unfold bind in E. destruct (m w) as [[a w1]| |] eqn:E1; try done.
  trans w1; [by eapply Hm|by eapply Hk].
Qed.
Lemma fdt_only_ret {A} (a : A) : fdt_only (ret a).
Proof. intros w b w' [= <- <-]. reflexivity. Qed.
Lemma fdt_only_deref {A} (o : option A) : fdt_only (deref o).
Proof. destruct o; intros w b w'; [|done]. intros [= <- <-]. reflexivity. Qed.
Lemma fdt_only_undefined {A} : fdt_only (undefined (A := A)).
Proof. by intros w b w'. Qed.
Lemma fdt_only_out_of_fuel {A} : fdt_only (out_of_fuel (A := A)).
Proof. by intros w b w'. Qed.
Lemma fdt_only_load f : fdt_only (load_fdt f).
Proof. intros w b w' E. unfold load_fdt in E. inv_ok. reflexivity. Qed.
Lemma fdt_only_store f v : fdt_only (store_fdt f v).
Proof. intros w b w' [= <- <-]. by destruct w. Qed.
Lemma fdt_only_allocate : fdt_only allocate.
Proof.
  intros w b w' E. unfold allocate, bind, get in E.
  destruct (w_oom w) in E; injection E as <- <-; by destruct w.
Qed.
#[export] Hint Resolve fdt_only_bind fdt_only_ret fdt_only_deref fdt_only_undefined
  fdt_only_out_of_fuel fdt_only_load fdt_only_store fdt_only_allocate : fdt_only.

Ltac solve_fdt_only :=
  repeat first
    [ progress intros
    | progress eauto 2 with fdt_only
    | apply fdt_only_bind
    | case_match ].

Lemma fdt_only_write_at {A} (b : option (list A)) i d : fdt_only (write_at b i d).
Proof. unfold write_at. solve_fdt_only. Qed.
Lemma fdt_only_calloc {A} (z : A) n : fdt_only (calloc z n).
Proof. unfold calloc. solve_fdt_only. Qed.
#[export] Hint Resolve fdt_only_write_at fdt_only_calloc : fdt_only.
Lemma fdt_only_append_u32 f v : fdt_only (append_u32 f v).
Proof. unfold append_u32, put_structure. solve_fdt_only. Qed.
Lemma fdt_only_append_aligned f d : fdt_only (append_aligned f d).
Proof. unfold append_aligned, put_structure. solve_fdt_only. Qed.
Lemma fdt_only_find_string_loop fuel strings size cursor string :
  fdt_only (find_string_loop fuel strings size cursor string).
Proof. revert cursor. induction fuel; simpl; solve_fdt_only. Qed.
#[export] Hint Resolve fdt_only_append_u32 fdt_only_append_aligned fdt_only_find_string_loop
  : fdt_only.
Lemma fdt_only_init f a b : fdt_only (vart_fdt_init f a b).
Proof. unfold vart_fdt_init, vart_fdt_destroy. solve_fdt_only. Qed.
Lemma fdt_only_destroy f : fdt_only (vart_fdt_destroy f).
Proof. unfold vart_fdt_destroy. solve_fdt_only. Qed.
Lemma fdt_only_begin f n : fdt_only (vart_fdt_begin_node f n).
Proof. unfold vart_fdt_begin_node, enter_node, set_child_seen. solve_fdt_only. Qed.
Lemma fdt_only_end f : fdt_only (vart_fdt_end_node f).
Proof. unfold vart_fdt_end_node. solve_fdt_only. Qed.
Lemma fdt_only_property f n d s : fdt_only (vart_fdt_property f n d s).
Proof.
  unfold vart_fdt_property, intern_name, emit_property, find_string. solve_fdt_only.
Qed.
#[export] Hint Resolve fdt_only_init fdt_only_destroy fdt_only_begin fdt_only_end
  fdt_only_property : fdt_only.
Lemma fdt_only_string f n v : fdt_only (vart_fdt_property_string f n v).
Proof. unfold vart_fdt_property_string. solve_fdt_only. Qed.
Lemma fdt_only_u32 f n v : fdt_only (vart_fdt_property_u32 f n v).
Proof. apply fdt_only_property. Qed.
Lemma fdt_only_u64 f n v : fdt_only (vart_fdt_property_u64 f n v).
Proof. apply fdt_only_property. Qed.
Lemma fdt_only_cells f n l c : fdt_only (vart_fdt_property_cells f n l c).
Proof. unfold vart_fdt_property_cells. solve_fdt_only. Qed.
Lemma fdt_only_finish f o : fdt_only (vart_fdt_finish f o).
Proof. unfold vart_fdt_finish, fill_blob, write_header_u32. solve_fdt_only. Qed.
#[export] Hint Resolve fdt_only_string fdt_only_u32 fdt_only_u64 fdt_only_cells
  fdt_only_finish : fdt_only.

Lemma fdt_only_call p e m : fdt_call p e m -> fdt_only m.
Proof. destruct 1; first [apply fdt_only_begin|apply fdt_only_end|apply fdt_only_property
  |apply fdt_only_string|apply fdt_only_cells]. Qed.

(** ** Calls that emit events *)

Section Emits.
Context (p : ptr).
Implicit Types (m k : M World Z) (es : list event).

Definition no_room (err : Z) : Prop := err = -ENOMEM \/ err = -ENOSPC \/ err = -EOVERFLOW.

(** [m] adds the events [es] to the builder at [p], where the rules of a tree allow
    them, or fails for want of memory or room. *)
Definition emits m es : Prop := forall f es0 s s' w,
  w_fdts w !! p = Some f -> builder f es0 s -> replay s es = Some s' ->
  wp m (fun err w' => fdt_frame w w' /\
    (no_room err \/
     err = 0 /\ exists f', w_fdts w' !! p = Some f' /\ builder f' (es0 ++ es) s' /\
       fdt_structure_capacity f' = fdt_structure_capacity f)) w.

Lemma emits_call e m : fdt_call p e m -> emits m [e].
Proof.
  intros Hc f es0 s s' w Hf HB Hs. simpl in Hs.
  destruct (tree_step s e) as [s1|] eqn:Hstep; [|done]. simplify_eq/=.
  pose proof (call_spec p e m f es0 s w Hc Hf HB) as Hm. unfold called, wp in *.
  destruct (m w) as [[err w']| |] eqn:E; try done.
  split; [by eapply (fdt_only_call _ _ _ Hc)|].
  destruct Hm as (f' & Hpost & Hf'). destruct Hpost as [|err _ [-> | ->]|err [-> | ->]|s2 f2 Hs2 HB2 Hcap2];
    unfold no_room; auto; simplify_eq.
  right. split; [done|]. by exists f2.
Qed.

Lemma emits_ret : emits (ret 0) [].
Proof.
  intros f es0 s s' w Hf HB [= <-]. wsteps. split; [reflexivity|].
  right. split; [done|]. exists f. by rewrite app_nil_r.
Qed.

Lemma emits_then m k es1 es2 : emits m es1 -> emits k es2 -> emits (m &? k) (es1 ++ es2).
Proof.
  intros Hm Hk f es0 s s' w Hf HB Hs. rewrite replay_app in Hs.
  destruct (replay s es1) as [s1|] eqn:Hs1; [|done]. simpl in Hs.
  unfold and_then. apply wp_bind. eapply wp_mono; [by apply (Hm f es0 s s1)|].
  intros err w1 (Hw1 & [Hno|(-> & f1 & Hf1 & HB1 & Hc1)]).
  - destruct (Z.eqb_spec err 0) as [->|]; [by destruct Hno as [|[]]|]. wsteps. auto.
  - change (0 =? 0) with true. cbv iota. eapply wp_mono; [by apply (Hk f1 (es0 ++ es1) s1 s')|].
    intros err w2 (Hw2 & Hr). split; [by trans w1|]. rewrite app_assoc. by rewrite <- Hc1.
Qed.

Lemma emits_cons m k e es : emits m [e] -> emits k es -> emits (m &? k) (e :: es).
Proof. apply (emits_then m k [e] es). Qed.
Lemma emits_skip m k es : emits m [] -> emits k es -> emits (m &? k) es.
Proof. apply (emits_then m k [] es). Qed.
End Emits.

(** Literals are C strings. *)
Definition c_strb (s : list Z) : bool := forallb (fun b => (0 <? b) && (b <=? UINT8_MAX)) s.
Lemma c_strb_true s : c_strb s = true -> c_str s.
Proof.
  unfold c_strb, c_str. rewrite forallb_forall, Forall_forall. intros H x Hx.
  apply list_elem_of_In, H in Hx. lia.
Qed.

Lemma hex_digit_range d : 0 <= d < 16 -> 48 <= hex_digit d <= 102.
Proof. unfold hex_digit. destruct (_ <? _) eqn:E; lia. Qed.

Lemma hex_loop_range fuel : forall n, 0 <= n -> Forall (fun b => 48 <= b <= 102) (hex_loop fuel n).
Proof.
  induction fuel as [|fuel IH]; intros n Hn; [constructor|]. cbn [hex_loop].
  apply Forall_app. split; [|constructor; [apply hex_digit_range; mlia|constructor]].
  destruct (_ <? _); [constructor|]. apply IH. mlia.
Qed.

Lemma hex_loop_length fuel : forall n k, 0 <= n < 16 ^ Z.of_nat (S k) ->
  (length (hex_loop fuel n) <= S k)%nat.
Proof.
  induction fuel as [|fuel IH]; intros n k Hn; cbn [hex_loop]; [simpl; lia|].
  rewrite length_app. cbn [length]. destruct (Z.ltb_spec n 16) as [|Hge]; [simpl; lia|].
  destruct k as [|k]; [change (16 ^ Z.of_nat 1) with 16 in Hn; lia|].
  rewrite (Nat2Z.inj_succ (S k)), Z.pow_succ_r in Hn by lia.
  specialize (IH (n / 16) k ltac:(split; [mlia|apply Z.div_lt_upper_bound; lia])). lia.
Qed.

Lemma print_hex_c_str n : 0 <= n -> c_str (print_hex n).
Proof.
  intros Hn. eapply Forall_impl; [by apply hex_loop_range|]. simpl. lia.
Qed.

Lemma c_str_hex s n : c_str s -> 0 <= n -> c_str (s ++ print_hex n).
Proof. intros Hs Hn. apply Forall_app. split; [done|by apply print_hex_c_str]. Qed.

(** Two digits are equal for equal values only, so numbers are told apart. *)
Lemma hex_digit_inj a b : 0 <= a < 16 -> 0 <= b < 16 -> hex_digit a = hex_digit b -> a = b.
Proof. unfold hex_digit. destruct (Z.ltb_spec a 10), (Z.ltb_spec b 10); lia. Qed.

Lemma hex_loop_nonempty fuel n : hex_loop (S fuel) n <> [].
Proof. cbn [hex_loop]. intros E. by apply app_nil in E as [_ ?]. Qed.

Lemma hex_loop_inj fuel : forall fuel' a b,
  0 <= a < 16 ^ Z.of_nat fuel -> 0 <= b < 16 ^ Z.of_nat fuel' ->
  hex_loop fuel a = hex_loop fuel' b -> a = b.
Proof.
  induction fuel as [|fuel IH]; intros [|fuel'] a b Ha Hb E.
  - change (16 ^ Z.of_nat 0) with 1 in *. lia.
  - by apply symmetry, hex_loop_nonempty in E.
  - by apply hex_loop_nonempty in E.
  - cbn [hex_loop] in E. apply app_inj_tail in E as [Eh Ed].
    apply hex_digit_inj in Ed; [|mlia|mlia].
    rewrite Nat2Z.inj_succ, Z.pow_succ_r in Ha, Hb by lia.
    pose proof (Z.div_lt_upper_bound a 16 (16 ^ Z.of_nat fuel) ltac:(lia) ltac:(lia)).
    pose proof (Z.div_lt_upper_bound b 16 (16 ^ Z.of_nat fuel') ltac:(lia) ltac:(lia)).
    destruct (Z.ltb_spec a 16), (Z.ltb_spec b 16).
    + mlia.
    + destruct fuel' as [|fuel']; [change (16 ^ Z.of_nat 0) with 1 in *; mlia|].
      by apply symmetry, hex_loop_nonempty in Eh.
    + destruct fuel as [|fuel]; [change (16 ^ Z.of_nat 0) with 1 in *; mlia|].
      by apply hex_loop_nonempty in Eh.
    + apply IH in Eh; mlia.
Qed.

(** * The tree of a machine *)

(** ** Sound descriptions *)

(** The strings and arrays a description points to exist, and its numbers have the
    width of their fields. *)
Definition text_typed (s : option (list Z)) : Prop :=
  match s with Some t => c_str t | None => True end.
Record cpu_typed (cpu : VartVirtFdtCpu) : Prop := {
  ct_hartid : 0 <= cpu_hartid cpu <= UINT32_MAX;
  ct_isa : text_typed (cpu_isa cpu);
  ct_isa_base : text_typed (cpu_isa_base cpu);
  ct_mmu_type : text_typed (cpu_mmu_type cpu);
  ct_count : 0 <= cpu_isa_extension_count cpu;
  ct_extensions : forall l, cpu_isa_extensions cpu = Some l ->
    zlen l = cpu_isa_extension_count cpu /\ Forall text_typed l;
}.
Record config_typed (c : VartVirtFdtConfig) : Prop := {
  cg_cpus : forall l, vc_cpus c = Some l -> zlen l = vc_cpu_count c /\ Forall cpu_typed l;
  cg_ram : 0 <= vc_ram_base c <= UINT64_MAX /\ 0 <= vc_ram_size c <= UINT64_MAX;
  cg_initrd : 0 <= vc_initrd_start c <= UINT64_MAX /\ 0 <= vc_initrd_size c <= UINT64_MAX;
  cg_bootargs : text_typed (vc_bootargs c);
}.

(** There is text, and it is not empty. *)
Definition text_given (s : option (list Z)) : Prop := exists t, s = Some t /\ t <> [].
Record cpu_sound (cpu : VartVirtFdtCpu) : Prop := {
  cs_isa : text_given (cpu_isa cpu);
  cs_isa_base : text_given (cpu_isa_base cpu);
  cs_mmu_type : text_given (cpu_mmu_type cpu);
  cs_extensions : exists l, cpu_isa_extensions cpu = Some l /\ l <> [] /\ Forall text_given l;
}.
(** What a machine must be like: between 1 and 512 CPUs with identifiers of their own,
    a clock, memory that does not wrap around, and an initial RAM disk inside it. *)
Record config_sound (c : VartVirtFdtConfig) : Prop := {
  cf_cpus : exists l, vc_cpus c = Some l /\ Forall cpu_sound l /\ NoDup (map cpu_hartid l);
  cf_count : 0 < vc_cpu_count c <= VART_VIRT_MAX_CPUS;
  cf_clock : vc_timebase_frequency c <> 0;
  cf_memory : 0 < vc_ram_size c /\ vc_ram_base c + vc_ram_size c <= UINT64_MAX;
  cf_initrd : vc_initrd_size c = 0 /\ vc_initrd_start c = 0 \/
    0 < vc_initrd_size c /\ vc_ram_base c <= vc_initrd_start c /\
    vc_initrd_start c + vc_initrd_size c <= vc_ram_base c + vc_ram_size c;
}.

(** ** Nodes *)

Definition string_prop (n : string) (v : list Z) : list Z * list Z := (str n, v ++ [0]).
Definition list_prop (n : string) (l : list (list Z)) : list Z * list Z := (str n, table l).
Definition u32_prop (n : string) (v : Z) : list Z * list Z := (str n, write_be32 v).
Definition u64_prop (n : string) (v : Z) : list Z * list Z := (str n, write_be64 v).
Definition cells_bytes (l : list Z) : list Z := concat (map write_be32 l).
Definition cells_prop (n : string) (l : list Z) : list Z * list Z := (str n, cells_bytes l).
Definition empty_prop (n : string) : list Z * list Z := (str n, []).
Arguments string_prop n%_string v.
Arguments list_prop n%_string l.
Arguments u32_prop n%_string v.
Arguments u64_prop n%_string v.
Arguments cells_prop n%_string l.
Arguments empty_prop n%_string.
Definition text_of (s : option (list Z)) : list Z := default [] s.

Definition intc_node (phandle : Z) : node :=
  Node (str "interrupt-controller")
    [string_prop "compatible" (str "riscv,cpu-intc"); empty_prop "interrupt-controller";
     u32_prop "#interrupt-cells" 1; u32_prop "phandle" phandle] [].
Definition cpu_node (phandle : Z) (cpu : VartVirtFdtCpu) : node :=
  Node (str "cpu@" ++ print_hex (cpu_hartid cpu))
    [string_prop "device_type" (str "cpu"); u32_prop "reg" (cpu_hartid cpu);
     string_prop "status" (str "okay"); string_prop "compatible" (str "riscv");
     string_prop "riscv,isa" (text_of (cpu_isa cpu));
     string_prop "riscv,isa-base" (text_of (cpu_isa_base cpu));
     list_prop "riscv,isa-extensions" (map text_of (default [] (cpu_isa_extensions cpu)));
     string_prop "mmu-type" (text_of (cpu_mmu_type cpu))]
    [intc_node phandle].
(** The CPUs from the index [i] on; the interrupt controller of the first CPU has the
    number 1. *)
Fixpoint cpu_nodes (i : Z) (cpus : list VartVirtFdtCpu) : list node :=
  match cpus with
  | [] => []
  | cpu :: cpus => cpu_node (i + 1) cpu :: cpu_nodes (i + 1) cpus
  end.
Definition cpus_node (c : VartVirtFdtConfig) : node :=
  Node (str "cpus")
    [u32_prop "#address-cells" 1; u32_prop "#size-cells" 0;
     u32_prop "timebase-frequency" (vc_timebase_frequency c)]
    (cpu_nodes 0 (default [] (vc_cpus c))).
Definition memory_node (base size : Z) : node :=
  Node (str "memory@" ++ print_hex base)
    [string_prop "device_type" (str "memory"); cells_prop "reg" (cells64 base ++ cells64 size)] [].
Definition chosen_node (c : VartVirtFdtConfig) : node :=
  Node (str "chosen")
    (match vc_bootargs c with
     | Some (b :: l) => [string_prop "bootargs" (b :: l)]
     | _ => []
     end ++
     (if vc_initrd_size c =? 0 then []
      else [u64_prop "linux,initrd-start" (vc_initrd_start c);
            u64_prop "linux,initrd-end" (vc_initrd_start c + vc_initrd_size c)]) ++
     [string_prop "stdout-path" (str "/soc/serial@10000000")]) [].
Definition aliases_node : node :=
  Node (str "aliases") [string_prop "serial0" (str "/soc/serial@10000000")] [].
Definition uart_node (aplic : Z) : node :=
  Node (str "serial@10000000")
    [string_prop "compatible" (str "ns16550a");
     cells_prop "reg" (cells64 VART_VIRT_UART_BASE ++ cells64 VART_VIRT_UART_SIZE);
     u32_prop "clock-frequency" VART_VIRT_UART_CLOCK_HZ; u32_prop "interrupt-parent" aplic;
     cells_prop "interrupts" [VART_VIRT_UART_IRQ; IRQ_TYPE_LEVEL_HIGH]] [].
Definition iommu_node (phandle : Z) : node :=
  Node (str "iommu@0")
    [string_prop "compatible" (str "riscv,pci-iommu"); u32_prop "#iommu-cells" 1;
     cells_prop "reg" [0; 0; 0; 0; 0]; u32_prop "phandle" phandle] [].
Definition pcie_node (imsic aplic : Z) (iommu : bool) : node :=
  Node (str "pci@30000000")
    ([u32_prop "#address-cells" FDT_PCI_ADDR_CELLS; u32_prop "#interrupt-cells" FDT_PCI_INT_CELLS;
      u32_prop "#size-cells" 2; string_prop "compatible" (str "pci-host-ecam-generic");
      string_prop "device_type" (str "pci"); u32_prop "linux,pci-domain" 0;
      cells_prop "bus-range" [0; 255]; empty_prop "dma-coherent"; u32_prop "msi-parent" imsic;
      cells_prop "reg" (cells64 VART_VIRT_PCIE_ECAM_BASE ++ cells64 VART_VIRT_PCIE_ECAM_SIZE);
      cells_prop "ranges"
        [FDT_PCI_RANGE_IOPORT; 0; 0; 0; VART_VIRT_PCIE_PIO_BASE; 0; VART_VIRT_PCIE_PIO_SIZE;
         FDT_PCI_RANGE_MMIO; 0; VART_VIRT_PCIE_MMIO_BASE; 0; VART_VIRT_PCIE_MMIO_BASE; 0;
         VART_VIRT_PCIE_MMIO_SIZE];
      cells_prop "interrupt-map" (interrupt_map aplic);
      cells_prop "interrupt-map-mask" [0x1800; 0; 0; 0x7]] ++
     (if iommu then [cells_prop "iommu-map" [0; aplic + 1; 0; 0x10000]] else []))
    (if iommu then [iommu_node (aplic + 1)] else []).
Definition imsic_node (count imsic : Z) : node :=
  Node (str "interrupt-controller@28000000")
    [list_prop "compatible" [str "qemu,imsics"; str "riscv,imsics"];
     u32_prop "#interrupt-cells" 0; empty_prop "interrupt-controller";
     empty_prop "msi-controller"; u32_prop "#msi-cells" 0;
     cells_prop "interrupts-extended"
       (concat (map (fun i => [i + 1; RISCV_IRQ_S_EXT]) (seqZ 0 count)));
     cells_prop "reg" (cells64 VART_VIRT_IMSIC_S_BASE ++ cells64 (count * VART_VIRT_IMSIC_FILE_SIZE));
     u32_prop "riscv,num-ids" VART_VIRT_IMSIC_NUM_IDS; u32_prop "phandle" imsic] [].
Definition aplic_node (imsic aplic : Z) : node :=
  Node (str "interrupt-controller@d000000")
    [list_prop "compatible" [str "qemu,aplic"; str "riscv,aplic"];
     u32_prop "#address-cells" 0; u32_prop "#interrupt-cells" 2;
     empty_prop "interrupt-controller"; u32_prop "msi-parent" imsic;
     cells_prop "reg" (cells64 VART_VIRT_APLIC_S_BASE ++ cells64 VART_VIRT_APLIC_SIZE);
     u32_prop "riscv,num-sources" VART_VIRT_APLIC_NUM_SOURCES; u32_prop "phandle" aplic] [].
Definition soc_node (count : Z) (iommu : bool) : node :=
  Node (str "soc")
    [u32_prop "#address-cells" 2; u32_prop "#size-cells" 2;
     string_prop "compatible" (str "simple-bus"); empty_prop "ranges"]
    [imsic_node count (count + 1); aplic_node (count + 1) (count + 2); uart_node (count + 2);
     pcie_node (count + 1) (count + 2) iommu].
Definition virt_tree (c : VartVirtFdtConfig) : node :=
  Node []
    [string_prop "model" (str "VART RISC-V virtual machine");
     string_prop "compatible" (str "riscv-virtio");
     u32_prop "#address-cells" 2; u32_prop "#size-cells" 2]
    [cpus_node c; memory_node (vc_ram_base c) (vc_ram_size c); chosen_node c; aliases_node;
     soc_node (vc_cpu_count c) (vc_enable_riscv_iommu c)].

(** ** Each function adds its node *)

Lemma snprintf_id size s : (length s < size)%nat -> snprintf size s = s.
Proof. intros H. unfold snprintf. apply take_ge. lia. Qed.

Ltac literal := apply c_strb_true; vm_compute; reflexivity.
(** One call of the builder. *)
Ltac emit_call :=
  lazymatch goal with
  | |- emits _ (vart_fdt_begin_node _ (Some (_ ++ print_hex _))) _ =>
      apply emits_call, call_begin, c_str_hex; [literal|lia]
  | |- emits _ (vart_fdt_begin_node _ _) _ => apply emits_call, call_begin; literal
  | |- emits _ (vart_fdt_end_node _) _ => apply emits_call, call_end
  | |- emits _ (vart_fdt_property _ _ None _) _ => apply emits_call, call_empty; literal
  | |- emits ?p (vart_fdt_property_string _ (Some ?n) (Some ?v)) _ =>
      apply emits_call, (call_string p n v); literal
  | |- emits _ (vart_fdt_property_u32 _ _ _) _ => apply emits_call, call_u32; literal
  | |- emits _ (vart_fdt_property_u64 _ _ _) _ => apply emits_call, call_u64; literal
  | |- emits _ (vart_fdt_property_cells _ _ _ _) _ => apply emits_call, call_cells; literal
  end.
Ltac emit :=
  repeat (first [apply emits_cons; [emit_call|]|apply emits_then; [solve [eauto 2]|]]);
  try emit_call.
Ltac emit_node :=
  unfold string_prop, u32_prop, u64_prop, cells_prop, empty_prop, list_prop;
  cbn [events_of map app concat fst snd]; rewrite <- ?app_assoc, ?app_nil_l; emit.

Section Nodes.
Context (p : ptr).

Lemma string_list_spec values l size w :
  values = map Some l -> 0 <= size <= UINT32_MAX ->
  wp (string_list_size (length values) values size) (fun r w' => w' = w /\
    (r = inl (-EOVERFLOW) \/ r = inr (size + zlen (table l)) /\ size + zlen (table l) <= UINT32_MAX)) w /\
  wp (string_list_data (length values) values) (fun data w' => w' = w /\ data = table l) w.
Proof.
  intros -> Hsize. split.
  - revert size Hsize. induction l as [|s l IH]; intros size Hsize;
      cbn [map length string_list_size].
    { wsteps. split; [done|]. right. split; [f_equal; simpl; lia|simpl; lia]. }
    wstep. eapply wp_deref; [done|].
    destruct (Z.ltb_spec (UINT32_MAX - size) (zlen s + 1)); [wsteps; auto|].
    eapply wp_mono; [apply IH; lia|]. intros r w' (-> & Hr). split; [done|].
    change (table (s :: l)) with ((s ++ [0]) ++ table l). rewrite !length_app. cbn [length].
    destruct Hr as [Hr|[-> Hr]]; [by left|right]. split; [f_equal; lia|lia].
  - induction l as [|s l IH]; cbn [map length string_list_data]; [by wsteps|].
    wstep. eapply wp_deref; [done|]. wstep. eapply wp_mono; [apply IH|].
    intros data w' [-> ->]. wsteps. split; [done|].
    change (table (s :: l)) with ((s ++ [0]) ++ table l). by rewrite <- app_assoc.
Qed.

(** An allocation that fails ends the function. *)
Lemma emits_allocate k es :
  emits p k es -> emits p (let* ok := allocate in if negb ok then ret (-ENOMEM) else k) es.
Proof.
  intros Hk f es0 s s' w Hf HB Hs. wstep. unfold wp at 1.
  destruct (allocate w) as [[ok w1]| |] eqn:E;
    [|unfold allocate, bind, get in E; by destruct (w_oom w)..].
  pose proof (fdt_only_allocate _ _ _ E) as Hw1.
  assert (w_fdts w1 = w_fdts w) as Hw1f.
  { unfold allocate, bind, get in E. destruct (w_oom w) in E; by injection E as <- <-. }
  destruct ok; cbn [negb].
  - eapply wp_mono; [apply (Hk f es0 s s'); [by rewrite Hw1f|done|done]|].
    intros err w2 [Hw2 Hr]. split; [by trans w1|done].
  - wsteps. split; [done|]. left. unfold no_room. auto.
Qed.

(** A computation in front that leaves the world alone. *)
Lemma emits_bind {A} (m : M World A) (k : A -> M World Z) a es :
  (forall w, wp m (fun b w' => w' = w /\ b = a) w) -> emits p (k a) es -> emits p (bind m k) es.
Proof.
  intros Hm Hk f es0 s s' w Hf HB Hs. wstep. eapply wp_mono; [apply Hm|].
  intros b w' [-> ->]. by apply (Hk f es0 s s').
Qed.

Lemma emits_string_list name l :
  c_str name -> emits p (add_string_list p name (map Some l) (zlen l)) [EProp name (table l)].
Proof.
  intros Hn f es0 s s' w Hf HB Hs. unfold add_string_list. rewrite Nat2Z.id.
  destruct (string_list_spec (map Some l) l 0 w eq_refl ltac:(lia)) as [Hsz _].
  rewrite length_map in Hsz. wstep. eapply wp_mono; [exact Hsz|].
  intros r w' (-> & [-> |[-> Hmax]]).
  { wsteps. split; [reflexivity|]. left. unfold no_room. auto. }
  refine (emits_allocate _ _ _ f es0 s s' w Hf HB Hs). apply (emits_bind _ _ (table l)).
  - intros w1. destruct (string_list_spec (map Some l) l 0 w1 eq_refl ltac:(lia)) as [_ Hd].
    by rewrite length_map in Hd.
  - apply emits_call. by apply call_property.
Qed.

Lemma emits_uart aplic : emits p (add_uart p aplic) (events_of (uart_node aplic)).
Proof. unfold add_uart, uart_node. emit_node. Qed.
Lemma emits_aliases : emits p (add_aliases p uart_path) (events_of aliases_node).
Proof. unfold add_aliases, aliases_node. emit_node. Qed.
Lemma emits_aplic imsic aplic :
  emits p (add_aplic p imsic aplic) (events_of (aplic_node imsic aplic)).
Proof.
  unfold add_aplic, aplic_node. emit_node. apply emits_cons; [|emit].
  apply (emits_string_list _ [str "qemu,aplic"; str "riscv,aplic"]). literal.
Qed.

Lemma emits_memory base size : 0 <= base <= UINT64_MAX ->
  emits p (add_memory p base size) (events_of (memory_node base size)).
Proof.
  intros Hb. unfold add_memory, memory_node. rewrite snprintf_id.
  2:{ rewrite length_app. pose proof (hex_loop_length 16 base 15 ltac:(lia)).
      unfold print_hex. change (length (str "memory@")) with 7%nat. lia. }
  emit_node.
Qed.

Lemma emits_chosen c :
  0 <= vc_initrd_start c -> 0 <= vc_initrd_size c ->
  vc_initrd_start c + vc_initrd_size c <= UINT64_MAX ->
  emits p (add_chosen p c uart_path) (events_of (chosen_node c)).
Proof.
  intros Hs Hz He. unfold add_chosen, chosen_node. rewrite u64_small by lia.
  destruct (vc_bootargs c) as [[|b l]|], (vc_initrd_size c =? 0); cbn [negb];
    unfold string_prop, u64_prop; cbn [events_of map app concat fst snd];
    repeat first [apply emits_cons; [emit_call|]|apply emits_skip; [apply emits_ret|]|emit_call].
Qed.

Lemma emits_iommu aplic : emits p (add_iommu p aplic) (events_of (iommu_node (u32 (aplic + 1)))).
Proof. unfold add_iommu, iommu_node. emit_node. Qed.

Lemma emits_pcie imsic aplic iommu : 0 <= aplic < UINT32_MAX ->
  emits p (add_pcie p imsic aplic iommu) (events_of (pcie_node imsic aplic iommu)).
Proof.
  intros Ha. unfold add_pcie, pcie_node. pose proof (emits_iommu aplic) as Hi.
  rewrite (u32_small (aplic + 1)) in * by lia. destruct iommu; emit_node.
  do 2 (apply emits_skip; [apply emits_ret|]). emit_call.
Qed.

Lemma imsic_interrupts_spec count : forall i, 0 <= i -> i + Z.of_nat count < UINT32_MAX ->
  imsic_interrupts count i = concat (map (fun j => [j + 1; RISCV_IRQ_S_EXT]) (seqZ i (Z.of_nat count))).
Proof.
  induction count as [|count IH]; intros i Hi Hc; [done|].
  rewrite (seqZ_cons i) by lia. cbn [imsic_interrupts map concat app].
  rewrite !u32_small by (rewrite ?u32_small; lia). do 2 f_equal.
  rewrite IH by lia. do 3 f_equal; lia.
Qed.

Lemma emits_imsic count imsic : 0 <= count <= VART_VIRT_MAX_CPUS ->
  emits p (add_imsic p count imsic) (events_of (imsic_node count imsic)).
Proof.
  intros Hc. unfold add_imsic, imsic_node. rewrite u64_small by lia. apply emits_allocate.
  rewrite imsic_interrupts_spec, Z2Nat.id by lia.
  replace (count * 2) with (zlen (concat (map (fun j => [j + 1; RISCV_IRQ_S_EXT]) (seqZ 0 count)))).
  2:{ rewrite <- (Z2Nat.id count) at 2 by lia. rewrite <- (length_seqZ 0 count).
      induction (seqZ 0 count); simpl in *; lia. }
  emit_node. apply emits_cons; [|emit].
  apply (emits_string_list _ [str "qemu,imsics"; str "riscv,imsics"]). literal.
Qed.

Lemma emits_soc count iommu : 0 < count <= VART_VIRT_MAX_CPUS ->
  emits p (add_soc p count (count + 1) (count + 2) iommu) (events_of (soc_node count iommu)).
Proof.
  intros Hc. unfold add_soc, soc_node. emit_node.
  apply emits_then; [apply emits_imsic; lia|]. apply emits_then; [apply emits_aplic|].
  apply emits_then; [apply emits_uart|].
  apply emits_then; [apply emits_pcie; lia|]. emit_call.
Qed.

Lemma texts_given l : Forall text_given l -> l = map Some (map text_of l).
Proof.
  induction 1 as [|s l (t & -> & _) _ IH]; [done|]. cbn [map]. by rewrite <- IH.
Qed.

Lemma emits_cpu cpu phandle : cpu_typed cpu -> cpu_sound cpu ->
  emits p (add_cpu p cpu phandle) (events_of (cpu_node phandle cpu)).
Proof.
  intros [Hid _ _ _ Hn Hext] [(isa & Hisa & _) (base & Hbase & _) (mmu & Hmmu & _)
    (l & Hl & _ & Hgiven)].
  destruct (Hext l Hl) as [Hlen _]. unfold add_cpu, cpu_node, intc_node. rewrite snprintf_id.
  2:{ rewrite length_app. pose proof (hex_loop_length 16 (cpu_hartid cpu) 7 ltac:(lia)).
      unfold print_hex. change (length (str "cpu@")) with 4%nat. lia. }
  rewrite Hisa, Hbase, Hmmu, Hl. cbn [text_of default from_option id]. emit_node.
  apply emits_cons; [|emit]. cbn [deref].
  apply (emits_bind _ _ l); [by intros w; wsteps|].
  rewrite <- Hlen. rewrite (texts_given l Hgiven) at 1 2. rewrite length_map.
  apply emits_string_list. literal.
Qed.

Lemma emits_cpu_loop cpus : Forall cpu_typed cpus -> Forall cpu_sound cpus ->
  forall i, 0 <= i -> i + zlen cpus < UINT32_MAX ->
  emits p (add_cpu_loop p (length cpus) cpus i) (concat (map events_of (cpu_nodes i cpus))).
Proof.
  induction 1 as [|cpu cpus Ht _ IH]; intros Hs i Hi Hmax; [apply emits_ret|].
  inversion_clear Hs. cbn [length add_cpu_loop cpu_nodes map concat] in *.
  rewrite !u32_small by (rewrite ?u32_small; lia).
  apply emits_then; [by apply emits_cpu|]. apply IH; [done|lia|lia].
Qed.

Lemma emits_cpus c : config_typed c -> config_sound c ->
  emits p (add_cpus p c) (events_of (cpus_node c)).
Proof.
  intros Ht Hs. destruct (cf_cpus c Hs) as (l & Hl & Hls & _).
  destruct (cg_cpus c Ht l Hl) as [Hlen Hlt]. pose proof (cf_count c Hs) as Hc.
  unfold add_cpus, cpus_node. rewrite Hl. cbn [default from_option id]. emit_node.
  apply emits_then; [|emit_call]. cbn [deref].
  apply (emits_bind _ _ l); [by intros w; wsteps|].
  rewrite <- Hlen, Nat2Z.id.
  apply emits_cpu_loop; [done|done|lia|lia].
Qed.

Lemma emits_root c : config_typed c -> config_sound c ->
  emits p (add_root p c) (events_of (virt_tree c)).
Proof.
  intros Ht Hs. pose proof (cf_count c Hs) as Hc. pose proof (cg_ram c Ht) as [Hb Hsz].
  pose proof (cg_initrd c Ht) as [Hi Hiz]. pose proof (cf_initrd c Hs) as Hin.
  pose proof (cf_memory c Hs) as Hm.
  unfold add_root, virt_tree. rewrite !(u32_small (vc_cpu_count c)) by lia.
  rewrite (u32_small (_ + 1)) by lia. rewrite (u32_small (_ + 1)) by lia.
  replace (vc_cpu_count c + 1 + 1) with (vc_cpu_count c + 2) by lia. emit_node.
  apply emits_then; [by apply emits_cpus|]. apply emits_then; [by apply emits_memory|].
  apply emits_then; [apply emits_chosen; lia|]. apply emits_then; [apply emits_aliases|].
  apply emits_then; [by apply emits_soc|]. emit_call.
Qed.
End Nodes.

(** ** Checking a description *)

Lemma no_text_spec s : no_text s = false <-> text_given s.
Proof.
  unfold text_given. destruct s as [[|b l]|]; simpl; split; try done.
  - by intros (t & [= <-] & ?).
  - by exists (b :: l).
  - by intros (t & ? & _).
Qed.

Lemma extensions_refused_spec l w :
  wp (extensions_refused (length l) l)
    (fun b w' => w' = w /\ (b = false <-> Forall text_given l)) w.
Proof.
  induction l as [|s l IH]; cbn [length extensions_refused]; [by wsteps|].
  pose proof (no_text_spec s) as Hs. destruct (no_text s).
  - wsteps. split; [done|]. split; [done|]. inversion_clear 1. by apply Hs.
  - eapply wp_mono; [apply IH|]. intros b w' [-> Hb]. split; [done|].
    rewrite Forall_cons, Hb. naive_solver.
Qed.

(** An error is reported exactly when [P] fails. *)
Definition checks (P : Prop) (err : Z) : Prop := err = 0 /\ P \/ err = -EINVAL /\ ~ P.

Lemma hart_taken_spec before cpu :
  existsb (fun c => cpu_hartid c =? cpu_hartid cpu) before = true <->
  cpu_hartid cpu ∈ map cpu_hartid before.
Proof.
  rewrite existsb_exists, list_elem_of_In, in_map_iff.
  split; intros (c & H1 & H2); exists c; split; first [done|lia].
Qed.

Definition cpus_sound (before cpus : list VartVirtFdtCpu) : Prop :=
  Forall cpu_sound cpus /\ NoDup (map cpu_hartid (before ++ cpus)).

Lemma cpus_sound_cons before cpu cpus :
  cpus_sound before (cpu :: cpus) <-> cpu_sound cpu /\ cpus_sound (before ++ [cpu]) cpus.
Proof.
  unfold cpus_sound. rewrite Forall_cons, <- app_assoc. cbn [app]. tauto.
Qed.

Lemma validate_cpus_spec cpus : Forall cpu_typed cpus -> forall before w,
  NoDup (map cpu_hartid before) ->
  wp (validate_cpus (length cpus) before cpus)
    (fun err w' => w' = w /\ checks (cpus_sound before cpus) err) w.
Proof.
  induction 1 as [|cpu cpus Ht _ IH]; intros before w Hnd; cbn [length validate_cpus].
  { wsteps. split; [done|]. left. split; [done|]. split; [constructor|]. by rewrite app_nil_r. }
  assert (forall P : Prop, (P -> False) -> checks P (-EINVAL)) as Hbad by (right; auto).
  destruct (_ || _ || _ || _ || _) eqn:Hc.
  { wsteps. split; [done|]. apply Hbad. rewrite cpus_sound_cons. intros [[Hi Hb Hm (l & Hl & Hn & _)] _].
    apply no_text_spec in Hi, Hb, Hm. rewrite Hi, Hb, Hm, Hl in Hc.
    destruct (ct_extensions cpu Ht l Hl) as [Hlen _].
    rewrite bool_decide_eq_false_2, orb_false_r in Hc by done. cbn [orb] in Hc.
    destruct l; simpl in Hlen; [done|lia]. }
  rewrite !orb_false_iff, bool_decide_eq_false in Hc.
  destruct Hc as [[[[Hi Hb] Hl] Hn] Hm]. apply no_text_spec in Hi, Hb, Hm.
  destruct (cpu_isa_extensions cpu) as [l|] eqn:El; [|done].
  destruct (ct_extensions cpu Ht l El) as [Hlen _].
  wstep. eapply wp_deref; [done|]. rewrite <- Hlen, Nat2Z.id. wstep.
  eapply wp_mono; [apply extensions_refused_spec|]. intros refused w' [-> Hr].
  assert (refused = false -> cpu_sound cpu) as Hsound.
  { intros ->. split; [done..|]. exists l. split_and!; [done| |by apply Hr].
    destruct l; [simpl in Hlen; lia|done]. }
  destruct refused.
  { wsteps. split; [done|]. apply Hbad. rewrite cpus_sound_cons.
    intros [[_ _ _ (l' & Hl' & _ & Hg)] _]. simplify_eq. apply Hr in Hg. done. }
  pose proof (hart_taken_spec before cpu) as Htaken. destruct (existsb _ _).
  { wsteps. split; [done|]. apply Hbad. intros [_ Hd]. rewrite map_app, NoDup_app in Hd.
    destruct Hd as (_ & Hd & _). eapply Hd; [by apply Htaken|]. by left. }
  eapply wp_mono; [apply IH|].
  - rewrite map_app. apply NoDup_app. split_and!; [done| |repeat constructor; set_solver].
    intros x Hx Hin. apply list_elem_of_singleton in Hin as ->. apply Htaken in Hx. done.
  - intros err w' [-> Hch]. split; [done|]. unfold checks in *. rewrite cpus_sound_cons.
    specialize (Hsound eq_refl). tauto.
Qed.

Lemma validate_config_spec c w : config_typed c ->
  wp (validate_config (Some c)) (fun err w' => w' = w /\ checks (config_sound c) err) w.
Proof.
  intros [Ht [Hb Hz] [His Hiz] _]. unfold validate_config.
  change (VART_VIRT_IMSIC_GROUP_SIZE / VART_VIRT_IMSIC_FILE_SIZE) with 4096.
  assert ((config_sound c -> False) -> w = w /\ checks (config_sound c) (-EINVAL)) as Hbad.
  { split; [done|]. by right. }
  destruct (_ || _) eqn:H1; [wsteps; apply Hbad; intros [(l & Hl & _) ? ? ? ?]|].
  { rewrite bool_decide_eq_false_2 in H1 by (by rewrite Hl). lia. }
  rewrite !orb_false_iff, bool_decide_eq_false in H1.
  destruct (((vc_initrd_size c =? 0) && _) || _) eqn:H2; [wsteps; apply Hbad; intros []; lia|].
  destruct (negb _ && _) eqn:H3; [wsteps; apply Hbad; intros []; lia|].
  destruct (vc_cpus c) as [l|] eqn:Hl; [|by destruct H1 as [[[[[[]]]]]]].
  destruct (Ht l eq_refl) as [Hlen Hty]. wstep. eapply wp_deref; [done|].
  rewrite <- Hlen, Nat2Z.id. eapply wp_mono; [apply validate_cpus_spec; [done|constructor]|].
  intros err w' [-> Hch]. split; [done|]. unfold checks in *.
  assert (config_sound c <-> cpus_sound [] l) as Hiff.
  { split.
    - intros [(l' & Hl' & Hs & Hd) _ _ _ _]. simplify_eq. by split.
    - intros [Hs Hd]. split; [by exists l|lia|lia|lia|lia]. }
  by rewrite Hiff.
Qed.

(** ** The whole construction *)

Lemma slash_not_hex s n : slash ∉ s -> 0 <= n -> slash ∉ s ++ print_hex n.
Proof.
  intros Hs Hn [Hin|Hin]%elem_of_app; [done|].
  pose proof (hex_loop_range 16 n Hn) as Hr. rewrite Forall_forall in Hr.
  apply Hr in Hin. unfold slash in Hin. lia.
Qed.

Lemma cpu_node_ok phandle cpu : cpu_typed cpu -> node_ok (cpu_node phandle cpu) = true.
Proof.
  intros Ht. unfold cpu_node. cbn [node_ok forallb]. rewrite !andb_true_iff, !bool_decide_eq_true.
  split_and!; [done| |reflexivity|reflexivity|done].
  apply slash_not_hex; [by apply (bool_decide_unpack _); vm_compute|]. apply (ct_hartid cpu Ht).
Qed.

Lemma cpu_nodes_ok i cpus : Forall cpu_typed cpus -> forallb node_ok (cpu_nodes i cpus) = true.
Proof.
  intros Ht. revert i. induction Ht as [|cpu cpus Hc _ IH]; intros i; [done|].
  cbn [cpu_nodes forallb]. by rewrite cpu_node_ok, IH.
Qed.

Lemma virt_tree_replays c : config_typed c ->
  replay (TreeState [] None) (events_of (virt_tree c)) = Some (TreeState [] (Some (virt_tree c))).
Proof.
  intros Ht. apply tree_of_events; [reflexivity|].
  cbn [forallb]. rewrite !andb_true_iff. split_and!; [| | |reflexivity| |done].
  - unfold cpus_node. cbn [node_ok]. rewrite !andb_true_iff, !bool_decide_eq_true.
    split_and!; [done|by apply (bool_decide_unpack _); vm_compute|reflexivity|].
    apply cpu_nodes_ok. destruct (vc_cpus c) as [l|] eqn:Hl; [|constructor].
    by apply (cg_cpus c Ht l Hl).
  - unfold memory_node. cbn [node_ok]. rewrite !andb_true_iff, !bool_decide_eq_true.
    split_and!; [done| |reflexivity|done].
    apply slash_not_hex; [by apply (bool_decide_unpack _); vm_compute|].
    pose proof (cg_ram c Ht). lia.
  - unfold chosen_node. by destruct (vc_bootargs c) as [[]|], (vc_initrd_size c =? 0).
  - by destruct (vc_enable_riscv_iommu c).
Qed.

(** How [vart_virt_fdt_build] ends. *)
Definition build_post (c : VartVirtFdtConfig) (r : Z * option (list Z * Z)) : Prop :=
  match r with
  | (err, Some (blob, size)) =>
      err = 0 /\ size = zlen blob /\ config_sound c /\ parse_dtb blob = Some (virt_tree c) /\
      Z.of_nat (events_size (events_of (virt_tree c))) <= VIRT_FDT_STRUCTURE_CAPACITY
  | (err, None) => err = -EINVAL /\ ~ config_sound c \/ no_room err /\ config_sound c
  end.

Lemma init_error p a b w : 0 < a <= UINT32_MAX -> 0 < b <= UINT32_MAX ->
  wp (vart_fdt_init (Some p) a b) (fun err _ => err = 0 \/ err = -ENOMEM) w.
Proof.
  intros Ha Hb. unfold vart_fdt_init. replace ((a =? 0) || (b =? 0)) with false by lia.
  replace ((UINT32_MAX <? a) || (UINT32_MAX <? b)) with false by lia.
  wstep. apply wp_calloc. intros w1 r1 _ _.
  wstep. apply wp_calloc. intros w2 r2 _ _. wstep. apply wp_calloc. intros w3 r3 _ _.
  destruct r1, r2, r3; unfold vart_fdt_destroy; wsteps; auto.
Qed.

Lemma wp_and {A} (m : M World A) (Q R : A -> World -> Prop) w :
  wp m Q w -> wp m R w -> wp m (fun a w' => Q a w' /\ R a w') w.
Proof. unfold wp. by destruct (m w) as [[]| |]. Qed.

Lemma wp_fdt_only {A} (m : M World A) (Q : A -> World -> Prop) w :
  fdt_only m -> wp m Q w -> wp m (fun a w' => Q a w' /\ fdt_frame w w') w.
Proof.
  intros Hm. unfold wp. destruct (m w) as [[a w']| |] eqn:E; [|done..].
  intros HQ. split; [done|by eapply Hm].
Qed.

Lemma build_spec p c w : config_typed c ->
  wp (vart_virt_fdt_build p (Some c) true)
    (fun r w' => build_post c r /\ fdt_frame w w') w.
Proof.
  intros Ht. unfold vart_virt_fdt_build. cbn [negb].
  wstep. eapply wp_mono; [by apply validate_config_spec|].
  intros err w' [-> [[-> Hs]|[-> Hs]]]; cbn [Z.ltb Z.compare Z.opp].
  2:{ wsteps. split; [by left|reflexivity]. }
  wstep. eapply wp_deref; [done|]. wstep.
  eapply wp_mono; [apply wp_fdt_only; [apply fdt_only_init|];
    apply wp_and; [apply init_spec; lia|apply init_error; lia]|].
  intros err w1 [[Hinit [-> | ->]] Hw1]; cbn [Z.ltb Z.compare Z.opp].
  2:{ wsteps. split; [right; split; [by left|done]|done]. }
  destruct (Hinit eq_refl) as (f & Hf & HB & Hcap). wstep.
  eapply wp_mono; [apply (emits_root p c Ht Hs f [] (TreeState [] None)
    (TreeState [] (Some (virt_tree c)))); [done|done|by apply virt_tree_replays]|].
  intros err w2 (Hw2 & Hr). wstep.
  apply (wp_mono _ (fun r w3 => build_post c r /\ fdt_frame w2 w3)).
  - destruct Hr as [Hno|(-> & f2 & Hf2 & HB2 & Hcap2)].
    { destruct (Z.eqb_spec err 0) as [->|]; [by destruct Hno as [|[]]|].
      wsteps. split; [by right|reflexivity]. }
    change (0 =? 0) with true. cbv iota.
    apply wp_fdt_only; [apply fdt_only_finish|].
    eapply wp_mono; [by eapply finish_spec|]. intros [err [[blob size]|]] w3; cbn [finish_post].
    + intros (-> & -> & t & Htree & Hparse). split_and!; [done|done|done| |].
      * unfold tree_of in Htree. rewrite app_nil_l, virt_tree_replays in Htree by done. congruence.
      * apply builder_fits in HB2. by rewrite Hcap2, Hcap in HB2.
    + intros (_ & Herr). right. split; [|done].
      unfold tree_of in Herr. rewrite app_nil_l, virt_tree_replays in Herr by done.
      unfold no_room. destruct Herr as [[-> [|]]|[|[|]]]; auto; done.
  - intros r w3 [Hpost Hw3]. wstep. eapply (wp_mono _ (fun _ w4 => fdt_frame w3 w4)).
    + apply (wp_mono _ (fun _ w4 => True /\ fdt_frame w3 w4)); [|by intros ?? [_ ?]].
      apply wp_fdt_only; [apply fdt_only_destroy|]. unfold vart_fdt_destroy. by wsteps.
    + intros _ w4 Hw4. wsteps. split; [done|]. trans w1; [done|]. trans w2; [done|]. by trans w3.
Qed.

(** * References between nodes *)

(** The cells in the bytes of a property. *)
Fixpoint be_cells (data : list Z) : list Z :=
  match data with
  | a :: b :: c :: d :: rest => (((a * 256 + b) * 256 + c) * 256 + d) :: be_cells rest
  | _ => []
  end.

Lemma be_cells_bytes l : Forall (fun v => 0 <= v <= UINT32_MAX) l -> be_cells (cells_bytes l) = l.
Proof.
  induction 1 as [|v l Hv _ IH]; [done|]. unfold cells_bytes in *.
  pose proof (write_be32_value v Hv) as Hval. cbn [map concat write_be32 app be_cells].
  rewrite IH. by rewrite Hval.
Qed.
Lemma be_cells_u32 v : 0 <= v <= UINT32_MAX -> be_cells (write_be32 v) = [v].
Proof.
  intros Hv. rewrite <- (be_cells_bytes [v]) by auto. unfold cells_bytes. cbn [map concat].
  by rewrite app_nil_r.
Qed.

(** One cell in every [stride], the one at [offset]. *)
Fixpoint picks (fuel stride offset : nat) (cells : list Z) : list Z :=
  match fuel with
  | O => []
  | S fuel =>
      match cells !! offset with
      | Some x => x :: picks fuel stride offset (drop stride cells)
      | None => []
      end
  end.
Definition pick (stride offset : nat) (cells : list Z) : list Z :=
  picks (length cells) stride offset cells.

(** The nodes a property refers to, by the bindings of the Devicetree specification:
    the parents named by these nodes have the numbers of cells that give the strides. *)
Definition references (p : list Z * list Z) : list Z :=
  let cells := be_cells p.2 in
  if decide (p.1 = str "interrupt-parent" \/ p.1 = str "msi-parent") then cells
  else if decide (p.1 = str "interrupts-extended") then pick 2 0 cells
  else if decide (p.1 = str "interrupt-map") then pick 7 4 cells
  else if decide (p.1 = str "iommu-map") then pick 4 1 cells
  else [].
Definition phandle (p : list Z * list Z) : list Z :=
  if decide (p.1 = str "phandle") then be_cells p.2 else [].

Fixpoint collect (f : list Z * list Z -> list Z) (t : node) : list Z :=
  match t with
  | Node _ props children => concat (map f props) ++ concat (map (collect f) children)
  end.
Definition node_name (t : node) : list Z := match t with Node name _ _ => name end.
(** No node has two properties or two children of one name. *)
Fixpoint names_unique (t : node) : Prop :=
  match t with
  | Node _ props children =>
      NoDup (map fst props) /\ NoDup (map node_name children) /\
      foldr (fun t P => names_unique t /\ P) True children
  end.

(** A tree a guest can make sense of: every node that is referred to exists, once. *)
Record tree_linked (t : node) : Prop := {
  tl_phandles : NoDup (collect phandle t);
  tl_references : forall x, x ∈ collect references t -> x ∈ collect phandle t;
  tl_names : names_unique t;
}.

Lemma cpu_phandles i cpus : 0 <= i -> i + zlen cpus < UINT32_MAX ->
  concat (map (collect phandle) (cpu_nodes i cpus)) = seqZ (i + 1) (zlen cpus).
Proof.
  revert i. induction cpus as [|cpu cpus IH]; intros i Hi Hmax; [done|].
  cbn [cpu_nodes map concat length] in *. rewrite IH by lia.
  rewrite (seqZ_cons (i + 1)) by lia.
  change (collect phandle (cpu_node (i + 1) cpu)) with (be_cells (write_be32 (i + 1)) ++ []).
  rewrite be_cells_u32 by lia. cbn [app]. f_equal. f_equal; lia.
Qed.
Lemma cpu_references i cpus : concat (map (collect references) (cpu_nodes i cpus)) = [].
Proof.
  revert i. induction cpus as [|cpu cpus IH]; intros i; [done|]. cbn [cpu_nodes map concat].
  rewrite IH. reflexivity.
Qed.

Lemma picks_pairs l n : (length l <= n)%nat ->
  picks n 2 0 (concat (map (fun i => [i + 1; RISCV_IRQ_S_EXT]) l)) = map (fun i => i + 1) l.
Proof.
  revert n. induction l as [|i l IH]; intros [|n] Hn; simpl in *; [done..|lia|].
  rewrite drop_0, IH by lia. done.
Qed.

Section Linked.
Context (c : VartVirtFdtConfig) (Ht : config_typed c) (Hs : config_sound c).
Abbreviation n := (vc_cpu_count c).
Abbreviation iommu := (vc_enable_riscv_iommu c).

Lemma soc_phandles : collect phandle (soc_node n iommu) = seqZ (n + 1) (if iommu then 3 else 2).
Proof using Hs.
  pose proof (cf_count c Hs).
  transitivity (be_cells (write_be32 (n + 1)) ++ be_cells (write_be32 (n + 2)) ++
    if iommu then be_cells (write_be32 (n + 2 + 1)) else []); [by destruct iommu|].
  rewrite !be_cells_u32 by lia. destruct iommu; cbn [app].
  - change (seqZ (n + 1) 3) with [0 + (n + 1); 1 + (n + 1); 2 + (n + 1)].
    do 3 (apply (f_equal2 cons); [lia|]). done.
  - change (seqZ (n + 1) 2) with [0 + (n + 1); 1 + (n + 1)].
    do 2 (apply (f_equal2 cons); [lia|]). done.
Qed.

Lemma imsic_references :
  collect references (imsic_node n (n + 1)) = map (fun i => i + 1) (seqZ 0 n).
Proof using Hs.
  pose proof (cf_count c Hs).
  transitivity ((pick 2 0 (be_cells (cells_bytes
    (concat (map (fun i => [i + 1; RISCV_IRQ_S_EXT]) (seqZ 0 n))))) ++ []) ++ []); [reflexivity|].
  rewrite !app_nil_r, be_cells_bytes.
  - unfold pick. apply picks_pairs. rewrite length_concat, map_map. cbn [length].
    induction (seqZ 0 n); simpl in *; lia.
  - apply Forall_concat, Forall_map, Forall_forall. intros i Hi%elem_of_seqZ. repeat constructor; lia.
Qed.

Lemma interrupt_map_typed x : 0 <= x <= UINT32_MAX ->
  Forall (fun v => 0 <= v <= UINT32_MAX) (interrupt_map x).
Proof.
  intros Hx. unfold interrupt_map, interrupt_map_entry. cbn [map concat app].
  repeat (constructor; [first [lia|vm_compute; split; discriminate]|]). constructor.
Qed.

Lemma pcie_references x :
  x ∈ collect references (pcie_node (n + 1) (n + 2) iommu) ->
  x = n + 1 \/ x = n + 2 \/ iommu = true /\ x = n + 3.
Proof using Hs.
  pose proof (cf_count c Hs).
  assert (collect references (pcie_node (n + 1) (n + 2) iommu) =
    be_cells (write_be32 (n + 1)) ++ pick 7 4 (be_cells (cells_bytes (interrupt_map (n + 2)))) ++
    if iommu then pick 4 1 (be_cells (cells_bytes [0; n + 2 + 1; 0; 0x10000])) else []) as ->
    by (destruct iommu; reflexivity).
  rewrite be_cells_u32, be_cells_bytes by (try apply interrupt_map_typed; lia).
  change (pick 7 4 (interrupt_map (n + 2))) with (replicate 16 (n + 2)).
  rewrite !elem_of_app, elem_of_replicate, list_elem_of_singleton.
  destruct iommu; [|rewrite elem_of_nil; tauto].
  rewrite be_cells_bytes by (repeat (constructor; [lia|]); constructor).
  change (pick 4 1 [0; n + 2 + 1; 0; 0x10000]) with [n + 2 + 1].
  rewrite list_elem_of_singleton. intros [|[[]|]]; [tauto|tauto|]. right. right. split; [done|lia].
Qed.

Lemma soc_references x : x ∈ collect references (soc_node n iommu) ->
  1 <= x <= n + (if iommu then 3 else 2).
Proof using Hs.
  pose proof (cf_count c Hs).
  change (collect references (soc_node n iommu)) with ([] ++
    collect references (imsic_node n (n + 1)) ++
    collect references (aplic_node (n + 1) (n + 2)) ++
    collect references (uart_node (n + 2)) ++
    collect references (pcie_node (n + 1) (n + 2) iommu) ++ []).
  change (collect references (aplic_node (n + 1) (n + 2))) with (be_cells (write_be32 (n + 1))).
  change (collect references (uart_node (n + 2))) with (be_cells (write_be32 (n + 2))).
  rewrite app_nil_l, app_nil_r.
  rewrite imsic_references, !be_cells_u32 by lia.
  rewrite !elem_of_app, !list_elem_of_singleton.
  intros [Hin|[->|[->|Hin]]]; [|destruct iommu; lia..|].
  - apply list_elem_of_fmap in Hin as (i & -> & Hi%elem_of_seqZ). destruct iommu; lia.
  - apply pcie_references in Hin. destruct iommu; naive_solver lia.
Qed.

(** Names that are given as literals are compared. *)
Ltac literal_names := repeat split; apply (bool_decide_unpack _); vm_compute; exact I.

Lemma cpu_names_unique i cpus : Forall cpu_typed cpus -> NoDup (map cpu_hartid cpus) ->
  NoDup (map node_name (cpu_nodes i cpus)) /\
  foldr (fun t P => names_unique t /\ P) True (cpu_nodes i cpus).
Proof.
  intros Hty. revert i. induction Hty as [|cpu cpus Hc Hcs IH]; intros i Hnd; [by split; constructor|].
  cbn [map] in Hnd. apply NoDup_cons in Hnd as [Hnew Hnd]. destruct (IH (i + 1) Hnd) as [IH1 IH2].
  cbn [cpu_nodes map foldr]. split.
  - apply NoDup_cons. split; [|done]. intros Hin. apply Hnew.
    apply list_elem_of_In, in_map_iff in Hin as (t & Ht1 & Hin). clear IH IH1 IH2 Hnd Hnew.
    cbn [cpu_node node_name] in Ht1. revert Hin. generalize (i + 1). clear i.
    induction Hcs as [|cpu' cpus Hc' _ IH]; intros i; [done|]. cbn [cpu_nodes].
    intros [<-|Hin]; [|cbn [map]; right; by eapply IH]. cbn [cpu_node node_name] in Ht1.
    apply app_inv_head in Ht1. pose proof (ct_hartid _ Hc). pose proof (ct_hartid _ Hc').
    apply (hex_loop_inj 16 16) in Ht1; [|lia|lia].
    cbn [map]. rewrite Ht1. by left.
  - split; [|done]. literal_names.
Qed.

Lemma virt_names_unique : names_unique (virt_tree c).
Proof using Ht Hs.
  destruct (cf_cpus c Hs) as (l & Hl & _ & Hnd). destruct (cg_cpus c Ht l Hl) as [_ Hty].
  split; [literal_names|]. split;
    [|split; [|split; [|split; [|split; [literal_names|split; [|exact I]]]]]].
  - change (map node_name _) with [str "cpus"; str "memory@" ++ print_hex (vc_ram_base c);
      str "chosen"; str "aliases"; str "soc"].
    generalize (print_hex (vc_ram_base c)). intros x.
    repeat (apply NoDup_cons; split; [set_solver|]). constructor.
  - split; [literal_names|]. rewrite Hl. by apply cpu_names_unique.
  - literal_names.
  - unfold chosen_node. destruct (vc_bootargs c) as [[]|], (vc_initrd_size c =? 0); literal_names.
  - unfold soc_node, pcie_node. destruct iommu; literal_names.
Qed.

Lemma virt_tree_linked : tree_linked (virt_tree c).
Proof using Ht Hs.
  pose proof (cf_count c Hs) as Hc. destruct (cf_cpus c Hs) as (l & Hl & _ & Hnd).
  destruct (cg_cpus c Ht l Hl) as [Hlen Hty].
  assert (collect phandle (virt_tree c) = seqZ 1 (n + if iommu then 3 else 2)) as Hp.
  { change (collect phandle (virt_tree c)) with ([] ++
      ([] ++ concat (map (collect phandle) (cpu_nodes 0 (default [] (vc_cpus c))))) ++
      [] ++ collect phandle (chosen_node c) ++ [] ++ collect phandle (soc_node n iommu) ++ []).
    rewrite Hl. cbn [default from_option id].
    rewrite cpu_phandles, soc_phandles, Hlen by lia.
    replace (collect phandle (chosen_node c)) with (@nil Z)
      by (unfold chosen_node; by destruct (vc_bootargs c) as [[]|], (vc_initrd_size c =? 0)).
    rewrite !app_nil_l, app_nil_r, (seqZ_app 1 n) by (destruct iommu; lia).
    by rewrite (Z.add_comm 1 n). }
  split.
  - rewrite Hp. apply NoDup_seqZ.
  - intros x Hx. rewrite Hp, elem_of_seqZ.
    change (collect references (virt_tree c)) with ([] ++
      ([] ++ concat (map (collect references) (cpu_nodes 0 (default [] (vc_cpus c))))) ++
      [] ++ collect references (chosen_node c) ++ [] ++ collect references (soc_node n iommu) ++ [])
      in Hx.
    rewrite cpu_references in Hx.
    replace (collect references (chosen_node c)) with (@nil Z) in Hx
      by (unfold chosen_node; by destruct (vc_bootargs c) as [[]|], (vc_initrd_size c =? 0)).
    rewrite !app_nil_l, app_nil_r in Hx. apply soc_references in Hx. lia.
  - apply virt_names_unique.
Qed.
End Linked.

(** * The theorems *)

(** C20. The guest is told the truth about its machine.  For every description of a machine
    [vart_virt_fdt_build] returns.  It refuses the description with [EINVAL] exactly
    when it is not sound (no CPU or more than 512, a CPU without ISA text or with the
    identifier of another one, no clock, memory or an initial RAM disk out of range);
    otherwise it fails only for want of memory or room, or it returns a blob that a
    reader following the Devicetree specification reads back as exactly the tree
    [virt_tree] of the description.  Nothing but the builder and the allocator is
    touched, so guest memory and devices are as before. *)
Theorem virt_fdt_build_correct p c w : config_typed c ->
  exists r w', vart_virt_fdt_build p (Some c) true w = Ok (r, w') /\
    build_post c r /\ fdt_frame w w'.
Proof. intros Ht. by apply wp_ok, build_spec. Qed.

(** The tree handed to the guest hangs together: no two nodes have the same phandle,
    every interrupt controller, MSI controller and IOMMU that a property refers to (in
    [interrupt-parent], [msi-parent], [interrupts-extended], [interrupt-map] and
    [iommu-map]) is a node of the tree, and no node has two properties or two children
    of one name. *)
Theorem virt_fdt_tree_linked p c w err blob size w' : config_typed c ->
  vart_virt_fdt_build p (Some c) true w = Ok ((err, Some (blob, size)), w') ->
  exists t, parse_dtb blob = Some t /\ tree_linked t.
Proof.
  intros Ht E. destruct (wp_elim _ _ _ _ _ (build_spec p c w Ht) E) as [(_ & _ & Hs & Hp & _) _].
  exists (virt_tree c). split; [done|]. by apply virt_tree_linked.
Qed.

(** ** Large machines *)

Lemma table_given l : l <> [] -> Forall text_given l -> (2 <= length (table (map text_of l)))%nat.
Proof.
  destruct l as [|s l]; [done|]. intros _. inversion_clear 1 as [|?? (t & -> & Ht) _].
  cbn [map text_of default from_option id]. change (table (?a :: ?b)) with ((a ++ [0]) ++ table b).
  unfold table. cbn [map concat]. rewrite !length_app. destruct t; [done|]. simpl. lia.
Qed.

(** The bytes of a CPU: the fixed parts, and at least two for each of its texts. *)
Lemma cpu_size i cpu : cpu_sound cpu -> (218 <= events_size (events_of (cpu_node i cpu)))%nat.
Proof.
  intros [(isa & Hisa & H1) (base & Hbase & H2) (mmu & Hmmu & H3) (l & Hl & Hn & Hg)].
  pose proof (table_given l Hn Hg) as Ht.
  unfold cpu_node, intc_node, string_prop, u32_prop, empty_prop, list_prop.
  cbn [events_of map app concat fst snd events_size event_size].
  rewrite Hisa, Hbase, Hmmu, Hl. cbn [text_of default from_option id]. rewrite !length_app.
  destruct isa, base, mmu; [done..|].
  change (length (write_be32 _)) with 4%nat. change (length (str "cpu")) with 3%nat.
  change (length (str "okay")) with 4%nat. change (length (str "riscv")) with 5%nat.
  change (length (str "riscv,cpu-intc")) with 14%nat. cbn [length] in *. lia.
Qed.

Lemma cpu_nodes_size i cpus : Forall cpu_sound cpus ->
  (218 * length cpus <= events_size (concat (map events_of (cpu_nodes i cpus))))%nat.
Proof.
  intros Hs. revert i. induction Hs as [|cpu cpus Hc _ IH]; intros i; [simpl; lia|].
  cbn [cpu_nodes map concat length]. rewrite events_size_app.
  pose proof (cpu_size (i + 1) cpu Hc). specialize (IH (i + 1)). lia.
Qed.

Lemma children_size name props children :
  (events_size (concat (map events_of children)) <=
   events_size (events_of (Node name props children)))%nat.
Proof. cbn [events_of events_size]. rewrite !events_size_app. lia. Qed.

(** The structure block has a fixed capacity, which is too small for most of the 512
    CPUs that a sound description may have: the tree of a machine with 76 or more is
    never built, whatever its texts are and however much memory the host has. *)
Theorem large_machine_has_no_tree p c w : config_typed c -> config_sound c ->
  76 <= vc_cpu_count c ->
  exists err w', vart_virt_fdt_build p (Some c) true w = Ok ((err, None), w') /\ no_room err.
Proof.
  intros Ht Hs Hn. destruct (cf_cpus c Hs) as (l & Hl & Hsl & _).
  destruct (cg_cpus c Ht l Hl) as [Hlen _].
  destruct (proj1 (wp_ok _ _ _) (build_spec p c w Ht)) as ([err [[blob size]|]] & w' & E & Hpost & _).
  - destruct Hpost as (_ & _ & _ & _ & Hsize). exfalso.
    pose proof (cpu_nodes_size 0 l Hsl) as Hc.
    pose proof (children_size [] [string_prop "model" (str "VART RISC-V virtual machine");
      string_prop "compatible" (str "riscv-virtio"); u32_prop "#address-cells" 2;
      u32_prop "#size-cells" 2] [cpus_node c; memory_node (vc_ram_base c) (vc_ram_size c);
      chosen_node c; aliases_node; soc_node (vc_cpu_count c) (vc_enable_riscv_iommu c)]) as H1.
    pose proof (children_size (str "cpus") [u32_prop "#address-cells" 1; u32_prop "#size-cells" 0;
      u32_prop "timebase-frequency" (vc_timebase_frequency c)]
      (cpu_nodes 0 (default [] (vc_cpus c)))) as H2.
    change (Node _ _ [_; _; _; _; _]) with (virt_tree c) in H1. cbn [map concat] in H1.
    change (Node _ _ _) with (cpus_node c) in H2. rewrite events_size_app in H1.
    rewrite Hl in H2. cbn [default from_option id] in H2. lia.
  - exists err, w'. split; [done|]. by destruct Hpost as [[]|[]].
Qed.

(** * A small machine *)
Module VirtFdtDemo.
Definition cpu (i : Z) : VartVirtFdtCpu :=
  mkFdtCpu i (Some (str "rv64ima")) (Some (str "rv64i"))
    (Some [Some (str "i"); Some (str "m"); Some (str "a")]) 3 (Some (str "riscv,sv39")).
Definition config (cpus : nat) : VartVirtFdtConfig :=
  mkFdtConfig (Some (map (fun i => cpu (Z.of_nat i)) (seq 0 cpus))) (Z.of_nat cpus) 10000000
    0x80000000 0x20000000 (Some (str "console=ttyS0")) 0x90000000 0x1000 true.
Definition local : ptr := 1%positive.
Definition build (cpus : nat) : outcome ((Z * option (list Z * Z)) * World) :=
  vart_virt_fdt_build local (Some (config cpus)) true empty_world.
Definition blob_in (r : outcome ((Z * option (list Z * Z)) * World)) : list Z :=
  match r with Ok ((_, Some (blob, _)), _) => blob | _ => [] end.
Definition world_of (r : outcome ((Z * option (list Z * Z)) * World)) : World :=
  match r with Ok (_, w) => w | _ => empty_world end.
Definition blob1 : list Z := blob_in (build 1).
Definition size1 : Z := Z.of_nat (length blob1).
Definition world1 : World := world_of (build 1).

Lemma build1 : build 1 = Ok ((0, Some (blob1, size1)), world1).
Proof. vm_compute. reflexivity. Qed.

Lemma config_is_typed n : Z.of_nat n <= UINT32_MAX -> config_typed (config n).
Proof.
  intros Hn. split; [|cbn; lia..|apply c_strb_true; reflexivity].
  intros l [= <-]. split; [by rewrite length_map, length_seq|].
  apply Forall_map, Forall_forall. intros i Hi%elem_of_seq.
  split; [cbn; lia|apply c_strb_true; reflexivity..|cbn; lia|].
  intros l [= <-]. split; [done|]. do 3 (constructor; [apply c_strb_true; reflexivity|]). constructor.
Qed.

Lemma virt_fdt_build_correct_witness :
  exists r w', build 1 = Ok (r, w') /\ build_post (config 1) r /\ fdt_frame empty_world w'.
Proof. apply (virt_fdt_build_correct local (config 1) empty_world), config_is_typed. lia. Defined.

Lemma virt_fdt_tree_linked_witness :
  build 1 = Ok ((0, Some (blob1, size1)), world1) /\
  exists t, parse_dtb blob1 = Some t /\ tree_linked t.
Proof.
  split; [exact build1|].
  apply (virt_fdt_tree_linked local (config 1) empty_world 0 blob1 size1 world1);
    [apply config_is_typed; lia|exact build1].
Defined.

Lemma config_is_sound n : 0 < Z.of_nat n <= VART_VIRT_MAX_CPUS -> config_sound (config n).
Proof.
  intros Hn. split; [|done|done|cbn; lia|right; cbn; lia].
  eexists. split; [reflexivity|]. split.
  - apply Forall_map, Forall_forall. intros i _. split; try (by eexists).
    eexists. split; [reflexivity|]. split; [done|]. repeat constructor; by eexists.
  - rewrite map_map. apply NoDup_fmap_2; [|apply NoDup_seq]. intros i j E. cbn in E. lia.
Qed.

Lemma large_machine_has_no_tree_witness :
  exists err w', build 80 = Ok ((err, None), w') /\ no_room err.
Proof.
  apply (large_machine_has_no_tree local (config 80) empty_world);
    [apply config_is_typed; lia|apply config_is_sound; lia|cbn; lia].
Defined.
End VirtFdtDemo.
