(* ===== verification/Boot.v ===== *)
(** Direct boot: [src/machine/virt-loader.c].

    The kernel, an optional initial RAM disk and the device tree of [VirtFdt.v] are laid
    out in guest RAM and written there.  The theorems say that the layout keeps the
    three apart and inside RAM, and that loading either puts exactly these bytes into
    guest memory or fails without touching it. *)

From Stdlib Require Import Strings.String Sorting.Sorted ZArith Lia.
From stdpp Require Import base tactics numbers list gmap.
From S2P Require Import Prelude Bytes Machine AddressSpace Memory Fdt VirtFdt.

Abbreviation VART_VIRT_BOOT_ALIGN := 0x00200000 (only parsing).
Abbreviation VART_VIRT_INITRD_MAX_OFFSET := 0x20000000 (only parsing).
Abbreviation VART_VIRT_FDT_MAX_SIZE := 0x00200000 (only parsing).

(** * The layout *)

Record VartVirtBootLayoutConfig := mkLayoutConfig {
  lc_ram_base : Z;
  lc_ram_size : Z;
  lc_kernel_size : Z;
  lc_initrd_size : Z;
}.
Record VartVirtBootLayout := mkLayout {
  lo_kernel_start : Z;
  lo_kernel_end : Z;
  lo_initrd_start : Z;
  lo_initrd_end : Z;
  lo_fdt_start : Z;
}.

(** [*result], or [None] for [-EOVERFLOW]. *)
Definition add_u64 (left right : Z) : option Z :=
  if UINT64_MAX - right <? left then None else Some (left + right).
Definition align_up (value alignment : Z) : option Z :=
  let mask := alignment - 1 in
  if UINT64_MAX - mask <? value then None
  else Some (Z.land (value + mask) (Z.lnot mask)).

(** From the test of [initrd_size] on. *)
Definition place_initrd (config : VartVirtBootLayoutConfig) (result : VartVirtBootLayout)
    : Z * option VartVirtBootLayout :=
  if lc_initrd_size config =? 0 then (0, Some result)
  else
    let initrd_offset := lc_ram_size config / 2 in
    let initrd_offset := if VART_VIRT_INITRD_MAX_OFFSET <? initrd_offset
                         then VART_VIRT_INITRD_MAX_OFFSET else initrd_offset in
    match add_u64 (lo_kernel_start result) initrd_offset with
    | None => (-EOVERFLOW, None)
    | Some initrd_start =>
        match add_u64 initrd_start (lc_initrd_size config) with
        | None => (-EOVERFLOW, None)
        | Some initrd_end =>
            if (initrd_start <? lo_kernel_end result) || (lo_fdt_start result <? initrd_end)
            then (-ENOSPC, None)
            else (0, Some (mkLayout (lo_kernel_start result) (lo_kernel_end result)
                             initrd_start initrd_end (lo_fdt_start result)))
        end
    end.

(** The error with what is stored through [layout]; [output] says that the pointer is
    not NULL. *)
Definition vart_virt_boot_layout (config : option VartVirtBootLayoutConfig) (output : bool)
    : Z * option VartVirtBootLayout :=
  match config with
  | None => (-EINVAL, None)
  | Some config =>
      if negb output || (lc_ram_size config =? 0) || (lc_kernel_size config =? 0)
      then (-EINVAL, None)
      else
        match add_u64 (lc_ram_base config) (lc_ram_size config) with
        | None => (-EOVERFLOW, None)
        | Some ram_end =>
            if lc_ram_size config <? VART_VIRT_FDT_MAX_SIZE then (-ENOSPC, None)
            else
              match align_up (lc_ram_base config) VART_VIRT_BOOT_ALIGN with
              | None => (-EOVERFLOW, None)
              | Some kernel_start =>
                  match add_u64 kernel_start (lc_kernel_size config) with
                  | None => (-EOVERFLOW, None)
                  | Some kernel_end =>
                      let fdt_floor := ram_end - VART_VIRT_FDT_MAX_SIZE in
                      let fdt_start := Z.land fdt_floor (Z.lnot (VART_VIRT_BOOT_ALIGN - 1)) in
                      if fdt_start <? kernel_end then (-ENOSPC, None)
                      else place_initrd config (mkLayout kernel_start kernel_end 0 0 fdt_start)
                  end
              end
        end
  end.

(** * Loading *)

Record VartVirtBootConfig := mkBootConfig {
  bc_kernel : option (list Z);
  bc_kernel_size : Z;
  bc_initrd : option (list Z);
  bc_initrd_size : Z;
  bc_cpus : option (list VartVirtFdtCpu);
  bc_cpu_count : Z;
  bc_timebase_frequency : Z;
  bc_bootargs : option (list Z);
  bc_fdt_dump_path : option (list Z);
  bc_enable_riscv_iommu : bool;
}.
Record VartRiscvBootInfo := mkBootInfo { boot_entry : Z; boot_fdt_addr : Z }.

Definition layout_config_of (ram : VartMemoryRegion) (config : VartVirtBootConfig)
    : VartVirtBootLayoutConfig :=
  mkLayoutConfig (mem_guest_addr ram) (mem_size ram) (bc_kernel_size config)
    (bc_initrd_size config).
Definition fdt_config_of (ram : VartMemoryRegion) (config : VartVirtBootConfig)
    (layout : VartVirtBootLayout) : VartVirtFdtConfig :=
  mkFdtConfig (bc_cpus config) (bc_cpu_count config) (bc_timebase_frequency config)
    (mem_guest_addr ram) (mem_size ram) (bc_bootargs config) (lo_initrd_start layout)
    (bc_initrd_size config) (bc_enable_riscv_iommu config).

(** The three writes, in order. *)
Definition write_images (ram : ptr) (config : VartVirtBootConfig) (layout : VartVirtBootLayout)
    (fdt : list Z) (fdt_size : Z) : M World Z :=
  vart_memory_region_write (Some ram) (lo_kernel_start layout) (bc_kernel config)
    (bc_kernel_size config) &?
  (if negb (bc_initrd_size config =? 0)
   then vart_memory_region_write (Some ram) (lo_initrd_start layout) (bc_initrd config)
          (bc_initrd_size config)
   else ret 0) &?
  vart_memory_region_write (Some ram) (lo_fdt_start layout) (Some fdt) fdt_size.

(** What the test of the arguments refuses. *)
Definition boot_load_invalid (ram : VartMemoryRegion) (config : VartVirtBootConfig)
    (output : bool) : bool :=
  negb output || bool_decide (mem_host_addr ram = None) || bool_decide (bc_kernel config = None) ||
  (bc_kernel_size config =? 0) ||
  (negb (bc_initrd_size config =? 0) && bool_decide (bc_initrd config = None)).

Section Load.
Context `{HostFiles}.

(** [local] is the address of the local variable of [vart_virt_fdt_build], [fuel] a
    bound of the loop of [vart_fdt_dump]; the result has what is stored through
    [boot]. *)
Definition vart_virt_boot_load (fuel : nat) (local : ptr) (ram : option ptr)
    (config : option VartVirtBootConfig) (output : bool)
    : M World (Z * option VartRiscvBootInfo) :=
  match ram, config with
  | Some r, Some config =>
      let* ram := load_memory r in
      if boot_load_invalid ram config output then ret (-EINVAL, None)
      else
        match vart_virt_boot_layout (Some (layout_config_of ram config)) true with
        | (err, Some layout) =>
            let* (err, built) := vart_virt_fdt_build local
                                   (Some (fdt_config_of ram config layout)) true in
            if err <? 0 then ret (err, None)
            else
              let* (fdt, fdt_size) := deref built in
              if VART_VIRT_FDT_MAX_SIZE <? fdt_size then ret (-EFBIG, None)
              else
                let* err := match bc_fdt_dump_path config with
                            | Some path => vart_fdt_dump fuel (Some fdt) fdt_size (Some path)
                            | None => ret 0
                            end in
                if err <? 0 then ret (err, None)
                else
                  let* err := write_images r config layout fdt fdt_size in
                  ret (err, if err =? 0
                            then Some (mkBootInfo (lo_kernel_start layout) (lo_fdt_start layout))
                            else None)
        | (err, None) => ret (err, None)
        end
  | _, _ => ret (-EINVAL, None)
  end.
End Load.

(** * What the layout guarantees *)

Abbreviation MiB2 := 0x200000 (only parsing).

(** The first and the last place on a boundary of 2 MiB, and the room asked for: RAM
    that does not wrap, the kernel at the first boundary, the device tree in the last
    2 MiB area, and the RAM disk halfway through RAM, at most 512 MiB after the kernel. *)
Definition first_boundary (c : VartVirtBootLayoutConfig) : Z :=
  (lc_ram_base c + (MiB2 - 1)) / MiB2 * MiB2.
Definition last_boundary (c : VartVirtBootLayoutConfig) : Z :=
  (lc_ram_base c + lc_ram_size c - MiB2) / MiB2 * MiB2.
Definition disk_start (c : VartVirtBootLayoutConfig) : Z :=
  first_boundary c + Z.min (lc_ram_size c / 2) VART_VIRT_INITRD_MAX_OFFSET.
Definition layout_fits (c : VartVirtBootLayoutConfig) : Prop :=
  lc_kernel_size c <> 0 /\ MiB2 <= lc_ram_size c /\
  lc_ram_base c + lc_ram_size c <= UINT64_MAX /\
  first_boundary c + lc_kernel_size c <= last_boundary c /\
  (lc_initrd_size c = 0 \/
   first_boundary c + lc_kernel_size c <= disk_start c /\
   disk_start c + lc_initrd_size c <= last_boundary c).
Definition layout_of (c : VartVirtBootLayoutConfig) : VartVirtBootLayout :=
  mkLayout (first_boundary c) (first_boundary c + lc_kernel_size c)
    (if lc_initrd_size c =? 0 then 0 else disk_start c)
    (if lc_initrd_size c =? 0 then 0 else disk_start c + lc_initrd_size c) (last_boundary c).

Record layout_typed (c : VartVirtBootLayoutConfig) : Prop := {
  lt_base : u64_ok (lc_ram_base c);
  lt_size : u64_ok (lc_ram_size c);
  lt_kernel : u64_ok (lc_kernel_size c);
  lt_initrd : u64_ok (lc_initrd_size c);
}.

Lemma align_down_spec x : Z.land x (Z.lnot (VART_VIRT_BOOT_ALIGN - 1)) = x / MiB2 * MiB2.
Proof.
  change (VART_VIRT_BOOT_ALIGN - 1) with (2 ^ 21 - 1). rewrite land_high_mask by lia.
  change (2 ^ 21) with MiB2. mlia.
Qed.

(** The layout failed and there is no room. *)
Ltac by_room :=
  lazymatch goal with Hbad : forall err : Z, _ |- _ =>
    apply Hbad; [unfold layout_fits, disk_start in *; lia|auto] end.

Lemma layout_cases c : layout_typed c ->
  layout_fits c /\ vart_virt_boot_layout (Some c) true = (0, Some (layout_of c)) \/
  ~ layout_fits c /\ exists err, vart_virt_boot_layout (Some c) true = (err, None) /\
    (err = -EINVAL \/ err = -EOVERFLOW \/ err = -ENOSPC).
Proof.
  intros [Hb Hs Hk Hi]. unfold u64_ok in *.
  unfold vart_virt_boot_layout, place_initrd, add_u64, align_up. cbv zeta.
  cbn [lo_kernel_start lo_kernel_end lo_fdt_start].
  assert (forall err, ~ layout_fits c -> err = -EINVAL \/ err = -EOVERFLOW \/ err = -ENOSPC ->
    layout_fits c /\ (err, @None VartVirtBootLayout) = (0, Some (layout_of c)) \/
    ~ layout_fits c /\ exists err', (err, @None VartVirtBootLayout) = (err', None) /\
      (err' = -EINVAL \/ err' = -EOVERFLOW \/ err' = -ENOSPC)) as Hbad by (right; eauto).
  cbn [negb orb].
  destruct ((_ =? 0) || _) eqn:H0; [by_room|].
  destruct (Z.ltb_spec (UINT64_MAX - lc_ram_size c) (lc_ram_base c)); [by_room|].
  destruct (Z.ltb_spec (lc_ram_size c) VART_VIRT_FDT_MAX_SIZE); [by_room|].
  destruct (Z.ltb_spec (UINT64_MAX - (VART_VIRT_BOOT_ALIGN - 1)) (lc_ram_base c)); [lia|].
  rewrite !align_down_spec.
  change ((lc_ram_base c + (VART_VIRT_BOOT_ALIGN - 1)) / MiB2 * MiB2) with (first_boundary c).
  change ((lc_ram_base c + lc_ram_size c - VART_VIRT_FDT_MAX_SIZE) / MiB2 * MiB2)
    with (last_boundary c).
  assert (last_boundary c <= UINT64_MAX /\ 0 <= first_boundary c) as [Hlast Hfirst]
    by (unfold first_boundary, last_boundary; mlia).
  destruct (Z.ltb_spec (UINT64_MAX - lc_kernel_size c) (first_boundary c)); [by_room|].
  destruct (Z.ltb_spec (last_boundary c) (first_boundary c + lc_kernel_size c)); [by_room|].
  destruct (Z.eqb_spec (lc_initrd_size c) 0) as [H0i|H0i].
  { left. unfold layout_of. rewrite (proj2 (Z.eqb_eq _ _) H0i). split; [unfold layout_fits; lia|done]. }
  replace (if VART_VIRT_INITRD_MAX_OFFSET <? lc_ram_size c / 2 then _ else _)
    with (Z.min (lc_ram_size c / 2) VART_VIRT_INITRD_MAX_OFFSET)
    by (destruct (Z.ltb_spec VART_VIRT_INITRD_MAX_OFFSET (lc_ram_size c / 2)); lia).
  change (first_boundary c + Z.min _ _) with (disk_start c).
  assert (0 <= lc_ram_size c / 2) by mlia.
  destruct (Z.ltb_spec (UINT64_MAX - Z.min (lc_ram_size c / 2) VART_VIRT_INITRD_MAX_OFFSET)
    (first_boundary c)); [by_room|].
  destruct (Z.ltb_spec (UINT64_MAX - lc_initrd_size c) (disk_start c)); [by_room|].
  destruct ((disk_start c <? _) || _) eqn:Hd; [by_room|].
  left. unfold layout_of. rewrite (proj2 (Z.eqb_neq _ _) H0i). split; [unfold layout_fits; lia|done].
Qed.

(** Writing an image to RAM that holds its range. *)
Lemma region_write_ok r v host w guest_addr data :
  w_memory w !! r = Some v -> mem_host_addr v = Some host ->
  u64_ok (mem_guest_addr v) -> u64_ok (mem_size v) -> u64_ok guest_addr ->
  mapped (w_host w) host (mem_size v) -> data <> [] -> inside v guest_addr (zlen data) ->
  exists h', mem_write (w_host w) (host + (guest_addr - mem_guest_addr v)) data = Some h' /\
    vart_memory_region_write (Some r) guest_addr (Some data) (zlen data) w =
    Ok (0, w <| w_host := h' |>).
Proof.
  intros Hv Hh Hg Hs Ha Hm Hne Hin.
  assert (0 < zlen data) as Hpos by (destruct data; [done|simpl; lia]).
  destruct (mem_write_mapped (w_host w) (host + (guest_addr - mem_guest_addr v)) data) as [h' Hh'].
  { eapply mapped_sub; [exact Hm|unfold inside in *; lia..]. }
  exists h'. split; [done|]. unfold vart_memory_region_write.
  assert (load_memory r w = Ok (v, w)) as Hld by (unfold load_memory; run_unfold; by rewrite Hv).
  unfold memory_region_access. unfold bind at 1 2. rewrite Hld, Hh. unfold inside, u64_ok in *.
  rewrite (proj2 (Z.ltb_ge guest_addr _)) by lia. rewrite (u64_small (guest_addr - _)) by lia.
  rewrite (proj2 (Z.ltb_ge (mem_size v) _)), u64_small by lia.
  rewrite (proj2 (Z.ltb_ge (mem_size v - _) _)) by lia. cbn [orb].
  rewrite (proj2 (Z.eqb_neq (zlen data) 0)) by lia. unfold copy_ram, host_write.
  rewrite Z.ltb_irrefl, Nat2Z.id, take_ge by lia. run_unfold. by rewrite Hh'.
Qed.

(** * What loading guarantees *)

(** Guest RAM [r] of the struct [v], mapped at [host]. *)
Record ram_ready (w : World) (r : ptr) (v : VartMemoryRegion) (host : Z) : Prop := {
  rr_memory : w_memory w !! r = Some v;
  rr_host : mem_host_addr v = Some host;
  rr_base : u64_ok (mem_guest_addr v);
  rr_size : u64_ok (mem_size v);
  rr_mapped : mapped (w_host w) host (mem_size v);
}.

(** The pointers of a boot configuration point to what their sizes say. *)
Record boot_typed (config : VartVirtBootConfig) : Prop := {
  bt_kernel : forall k, bc_kernel config = Some k -> zlen k = bc_kernel_size config;
  bt_initrd : forall k, bc_initrd config = Some k -> zlen k = bc_initrd_size config;
  bt_sizes : u64_ok (bc_kernel_size config) /\ u64_ok (bc_initrd_size config);
  bt_cpus : forall l, bc_cpus config = Some l ->
    zlen l = bc_cpu_count config /\ Forall cpu_typed l;
  bt_bootargs : text_typed (bc_bootargs config);
}.

(** Bytes of the guest at an address. *)
Definition guest_bytes (w : World) (v : VartMemoryRegion) (host address : Z) (n : nat)
    : option (list Z) := mem_read (w_host w) (host + (address - mem_guest_addr v)) n.

(** Files of the host are no part of guest memory; a write makes progress or fails. *)
Definition ram_same (w w' : World) : Prop := w_host w' = w_host w /\ w_memory w' = w_memory w.
Class DumpHost `{HostFiles} : Prop := {
  dump_open path w : wp (host_open path) (fun _ w' => ram_same w w') w;
  dump_write fd bytes w : bytes <> [] ->
    wp (host_write_file fd bytes) (fun n w' => ram_same w w' /\
      (n < 0 /\ n <> -EINTR \/ 0 <= n <= zlen bytes)) w;
  dump_close fd w : wp (host_close fd) (fun n w' => ram_same w w') w;
}.

#[export] Instance ram_same_preorder : PreOrder ram_same.
Proof.
  split; [done|]. intros w1 w2 w3 [H1 H2] [H3 H4]. split; by etrans.
Qed.

Lemma fdt_frame_ram w w' : fdt_frame w w' -> ram_same w w'.
Proof. intros ->. done. Qed.

Lemma dump_loop_spec `{DumpHost} fd fuel : forall bytes w, (length bytes <= fuel)%nat ->
  wp (dump_loop fuel fd bytes) (fun err w' => err <= 0 /\ ram_same w w') w.
Proof.
  induction fuel as [|fuel IH]; intros [|b bytes] w Hl; cbn [dump_loop length] in *;
    try (wsteps; by split); [lia|].
  wstep. eapply wp_mono; [by apply dump_write|]. intros n w1 (Hw1 & Hn).
  destruct (Z.ltb_spec n 0).
  { rewrite (proj2 (Z.eqb_neq _ _)) by lia. wsteps. split; [lia|done]. }
  destruct (Z.eqb_spec n 0); [wsteps; by split|].
  eapply wp_mono; [apply IH; rewrite length_drop; cbn [length]; lia|].
  intros err w2 [He Hw2]. split; [done|by trans w1].
Qed.

Lemma dump_spec `{DumpHost} fuel bytes path w : (length bytes <= fuel)%nat ->
  wp (vart_fdt_dump fuel (Some bytes) (zlen bytes) (Some path)) (fun _ w' => ram_same w w') w.
Proof.
  intros Hl. unfold vart_fdt_dump. destruct (_ || _); [by wsteps|].
  wstep. eapply wp_mono; [apply dump_open|]. intros fd w1 Hw1.
  destruct (_ <? 0); [by wsteps|]. rewrite Z.ltb_irrefl, Nat2Z.id, take_ge by lia.
  wstep. eapply wp_mono; [by apply dump_loop_spec|]. intros err w2 [_ Hw2].
  wstep. eapply wp_mono; [apply dump_close|]. intros n w3 Hw3. wsteps.
  trans w1; [done|]. by trans w2.
Qed.

(** The three images are in guest memory and nothing else of it has changed. *)
Record images_loaded (w w' : World) (v : VartMemoryRegion) (host : Z)
    (config : VartVirtBootConfig) (lo : VartVirtBootLayout) (fdt : list Z) : Prop := {
  il_kernel : guest_bytes w' v host (lo_kernel_start lo) (Z.to_nat (bc_kernel_size config)) =
    bc_kernel config;
  il_initrd : bc_initrd_size config <> 0 ->
    guest_bytes w' v host (lo_initrd_start lo) (Z.to_nat (bc_initrd_size config)) =
    bc_initrd config;
  il_fdt : guest_bytes w' v host (lo_fdt_start lo) (length fdt) = Some fdt;
  il_rest : forall x, let a := mem_guest_addr v + (x - host) in
    ~ lo_kernel_start lo <= a < lo_kernel_start lo + bc_kernel_size config ->
    ~ lo_initrd_start lo <= a < lo_initrd_start lo + bc_initrd_size config ->
    ~ lo_fdt_start lo <= a < lo_fdt_start lo + zlen fdt -> w_host w' !! x = w_host w !! x;
}.

Section Images.
Context (r : ptr) (v : VartMemoryRegion) (host : Z).

(** One write: the bytes are there, the others are not touched. *)
Lemma ram_write w a data : ram_ready w r v host -> data <> [] -> u64_ok a ->
  inside v a (zlen data) ->
  exists h, vart_memory_region_write (Some r) a (Some data) (zlen data) w =
      Ok (0, w <| w_host := h |>) /\
    ram_ready (w <| w_host := h |>) r v host /\
    mem_write (w_host w) (host + (a - mem_guest_addr v)) data = Some h.
Proof.
  intros [Hv Hh Hb Hs Hm] Hne Ha Hin.
  destruct (region_write_ok r v host w a data) as (h & Hw & E); [done..|].
  exists h. split; [done|]. split; [|done]. split; [done..|].
  intros x Hx. eapply mem_write_dom; [exact Hw|]. by apply Hm.
Qed.

(** The images of a configuration, with their addresses, in the order of the writes. *)
Definition pieces (config : VartVirtBootConfig) (lo : VartVirtBootLayout) (fdt : list Z)
    : list (Z * list Z) :=
  [(lo_kernel_start lo, default [] (bc_kernel config))] ++
  (if bc_initrd_size config =? 0 then []
   else [(lo_initrd_start lo, default [] (bc_initrd config))]) ++
  [(lo_fdt_start lo, fdt)].
Definition apart (p q : Z * list Z) : Prop := p.1 + zlen p.2 <= q.1.

Fixpoint write_pieces (l : list (Z * list Z)) : M World Z :=
  match l with
  | [] => ret 0
  | (a, data) :: l =>
      vart_memory_region_write (Some r) a (Some data) (zlen data) &? write_pieces l
  end.

(** Writing images that lie one after the other: each is there at the end, and only
    their bytes have changed. *)
Lemma write_pieces_spec l : forall w, ram_ready w r v host -> StronglySorted apart l ->
  Forall (fun p => p.2 <> [] /\ u64_ok p.1 /\ inside v p.1 (zlen p.2)) l ->
  exists h, write_pieces l w = Ok (0, w <| w_host := h |>) /\
    (forall p, p ∈ l ->
       mem_read h (host + (p.1 - mem_guest_addr v)) (length p.2) = Some p.2) /\
    (forall x, Forall (fun p => ~ p.1 <= mem_guest_addr v + (x - host) < p.1 + zlen p.2) l ->
       h !! x = w_host w !! x).
Proof.
  induction l as [|[a data] l IH]; intros w Hr Hs Hl.
  { exists (w_host w). split; [by destruct w|]. split; [set_solver|done]. }
  apply Forall_cons in Hl as [(Hne & Ha & Hin) Hl]. inversion_clear Hs as [|?? Hs' Hap].
  destruct (ram_write w a data Hr Hne Ha Hin) as (h1 & E1 & R1 & W1).
  destruct (IH _ R1 Hs' Hl) as (h & E & Hread & Hrest). exists h. split; [|split].
  - cbn [write_pieces]. unfold and_then. by rewrite (bind_eq _ _ _ _ _ E1).
  - intros p [->|Hp]%elem_of_cons; [|by apply Hread]. cbn [fst snd] in *.
    apply mem_read_lookup. split; [done|]. intros i Hi.
    rewrite Hrest.
    + change (w_host (w <| w_host := h1 |>)) with h1.
      rewrite (mem_write_lookup _ _ _ _ _ W1), decide_True by lia. f_equal. lia.
    + eapply Forall_impl; [exact Hap|]. unfold apart. cbn [fst snd]. intros p Hp. lia.
  - intros x [Hx Hxs]%Forall_cons. rewrite Hrest by done. cbn [fst snd] in Hx.
    change (w_host (w <| w_host := h1 |>)) with h1.
    by rewrite (mem_write_lookup _ _ _ _ _ W1), decide_False by lia.
Qed.

Lemma and_then_ext (m k k' : M World Z) w :
  (forall w', k w' = k' w') -> (m &? k) w = (m &? k') w.
Proof.
  intros Hk. unfold and_then, bind. destruct (m w) as [[err w']| |]; [|done..].
  by destruct (err =? 0).
Qed.
Lemma and_then_ret (m : M World Z) w : (m &? ret 0) w = m w.
Proof.
  unfold and_then, bind. destruct (m w) as [[err w']| |]; [|done..].
  destruct (Z.eqb_spec err 0); by subst.
Qed.

(** The writes of the loader are those of its images. *)
Lemma write_images_pieces config lo fdt w kernel :
  boot_typed config -> bc_kernel config = Some kernel ->
  (bc_initrd_size config <> 0 -> is_Some (bc_initrd config)) ->
  write_images r config lo fdt (zlen fdt) w = write_pieces (pieces config lo fdt) w.
Proof.
  intros Ht Ek Hi. unfold write_images, pieces. rewrite Ek, <- (bt_kernel _ Ht kernel Ek).
  cbn [default from_option id app write_pieces].
  destruct (Z.eqb_spec (bc_initrd_size config) 0) as [H0|H0]; cbn [negb app write_pieces].
  - apply and_then_ext. intros w'. by rewrite and_then_ret.
  - destruct (Hi H0) as [disk Ed]. rewrite Ed, <- (bt_initrd _ Ht disk Ed).
    cbn [default from_option id]. do 2 (apply and_then_ext; intros ?). by rewrite and_then_ret.
Qed.

Lemma write_images_spec w config lo fdt kernel :
  ram_ready w r v host -> boot_typed config -> bc_kernel config = Some kernel ->
  (bc_initrd_size config <> 0 -> is_Some (bc_initrd config)) ->
  StronglySorted apart (pieces config lo fdt) ->
  Forall (fun p => p.2 <> [] /\ u64_ok p.1 /\ inside v p.1 (zlen p.2)) (pieces config lo fdt) ->
  exists h, write_images r config lo fdt (zlen fdt) w = Ok (0, w <| w_host := h |>) /\
    images_loaded w (w <| w_host := h |>) v host config lo fdt.
Proof.
  intros Hr Ht Ek Hi Hs Hl. rewrite (write_images_pieces _ _ _ _ kernel) by done.
  destruct (write_pieces_spec _ w Hr Hs Hl) as (h & E & Hread & Hrest). exists h. split; [done|].
  pose proof (bt_kernel _ Ht kernel Ek) as Hk. unfold pieces in *. rewrite Ek in *.
  split; unfold guest_bytes; change (w_host (w <| w_host := h |>)) with h.
  - rewrite Ek, <- Hk, Nat2Z.id. apply (Hread (_, kernel)). by left.
  - intros H0. destruct (Hi H0) as [disk Ed]. rewrite Ed in *.
    rewrite <- (bt_initrd _ Ht disk Ed), Nat2Z.id. apply (Hread (_, disk)).
    rewrite (proj2 (Z.eqb_neq _ _) H0). right. by left.
  - apply (Hread (_, fdt)). right. apply elem_of_app. right. by left.
  - intros x H1 H2 H3. apply Hrest. cbn [default from_option id].
    apply Forall_app. split; [|apply Forall_app; split].
    + constructor; [|done]. cbn [fst snd]. by rewrite Hk.
    + destruct (Z.eqb_spec (bc_initrd_size config) 0) as [H0|H0]; [done|].
      destruct (Hi H0) as [disk Ed]. rewrite Ed. constructor; [|done].
      cbn [fst snd default from_option id]. by rewrite (bt_initrd _ Ht disk Ed).
    + by constructor.
Qed.
End Images.

Lemma layout_bounds c : layout_typed c -> layout_fits c ->
  lc_ram_base c <= first_boundary c /\ 0 <= first_boundary c /\
  last_boundary c + VART_VIRT_FDT_MAX_SIZE <= lc_ram_base c + lc_ram_size c.
Proof.
  intros [] (? & ? & ? & ? & ?). unfold u64_ok, first_boundary, last_boundary in *. mlia.
Qed.

Section Loading.
Context `{HF : HostFiles} `{HD : !DumpHost} (fuel : nat) (local r : ptr) (v : VartMemoryRegion)
  (host : Z) (config : VartVirtBootConfig).
Abbreviation lc := (layout_config_of v config).
Abbreviation lo := (layout_of lc).

Definition load_post (w : World) (res : Z * option VartRiscvBootInfo) (w' : World) : Prop :=
  match res with
  | (err, None) => err < 0 /\ w_host w' = w_host w
  | (err, Some boot) => err = 0 /\ boot = mkBootInfo (first_boundary lc) (last_boundary lc) /\
      exists fdt, parse_dtb fdt = Some (virt_tree (fdt_config_of v config lo)) /\
        images_loaded w w' v host config lo fdt
  end.

Lemma layout_config_typed w : ram_ready w r v host -> boot_typed config -> layout_typed lc.
Proof. intros [] Ht. pose proof (bt_sizes _ Ht) as []. by split. Qed.

Lemma fdt_config_typed w : ram_ready w r v host -> boot_typed config -> layout_fits lc ->
  config_typed (fdt_config_of v config lo).
Proof.
  intros Hr Ht Hf. pose proof (layout_config_typed w Hr Ht) as Hlt.
  pose proof (layout_bounds lc Hlt Hf) as Hb. destruct Hlt. unfold u64_ok in *.
  destruct Hf as (_ & _ & Hmax & _ & Hd). cbn in Hmax, Hd.
  split; cbn; [apply (bt_cpus _ Ht)|done| |apply (bt_bootargs _ Ht)].
  destruct (Z.eqb_spec (bc_initrd_size config) 0); [lia|].
  destruct Hd as [|[]]; [done|]. cbn in *. lia.
Qed.

(** The places of the layout are those the writes need. *)
Lemma layout_pieces w fdt : ram_ready w r v host -> boot_typed config -> layout_fits lc ->
  is_Some (bc_kernel config) -> (bc_initrd_size config <> 0 -> is_Some (bc_initrd config)) ->
  0 < zlen fdt <= VART_VIRT_FDT_MAX_SIZE ->
  StronglySorted apart (pieces config lo fdt) /\
  Forall (fun p => p.2 <> [] /\ u64_ok p.1 /\ inside v p.1 (zlen p.2)) (pieces config lo fdt).
Proof.
  intros Hr Ht Hf [k Ek] Hi Hfdt. pose proof (layout_config_typed w Hr Ht) as Hlt.
  pose proof (layout_bounds lc Hlt Hf) as Hb. destruct Hf as (Hk0 & _ & Hmax & Hk & Hd).
  pose proof (bt_kernel _ Ht k Ek) as Hkl. pose proof (bt_sizes _ Ht) as [Hks His].
  pose proof (rr_base _ _ _ _ Hr) as Hbase. pose proof (rr_size _ _ _ _ Hr) as Hsize.
  unfold pieces, lo, layout_of, u64_ok, inside, apart in *.
  rewrite Ek. cbn [lc_ram_base lc_ram_size lc_kernel_size lc_initrd_size lo_kernel_start
    lo_initrd_start lo_fdt_start layout_config_of default from_option id] in *.
  assert (forall data : list Z, 0 < zlen data -> data <> []) as Hne by (by intros [|]).
  destruct (Z.eqb_spec (bc_initrd_size config) 0) as [H0|H0].
  - split; [repeat constructor; cbn [fst snd]; lia|].
    repeat (constructor; [cbn [fst snd]; split_and!; [apply Hne; lia|lia..]|]). constructor.
  - destruct (Hi H0) as [disk Ed]. pose proof (bt_initrd _ Ht disk Ed) as Hdl. rewrite Ed.
    destruct Hd as [|[Hd1 Hd2]]; [done|]. cbn [default from_option id].
    split; [repeat constructor; cbn [fst snd]; lia|].
    repeat (constructor; [cbn [fst snd]; split_and!; [apply Hne; lia|lia..]|]). constructor.
Qed.

(** The writes, in a world [w2] whose guest memory is that of [w]. *)
Lemma load_images_spec w w2 fdt : ram_ready w r v host -> boot_typed config -> layout_fits lc ->
  is_Some (bc_kernel config) -> (bc_initrd_size config <> 0 -> is_Some (bc_initrd config)) ->
  zlen fdt <= VART_VIRT_FDT_MAX_SIZE ->
  parse_dtb fdt = Some (virt_tree (fdt_config_of v config lo)) -> ram_same w w2 ->
  wp (let* err := write_images r config lo fdt (zlen fdt) in
      ret (err, if err =? 0
                then Some (mkBootInfo (lo_kernel_start lo) (lo_fdt_start lo)) else None))
    (load_post w) w2.
Proof.
  intros Hr Ht Hfits Hk Hdisk Hmax Hparse [Hh Hm].
  assert (ram_ready w2 r v host) as Hr2.
  { destruct Hr. split; [by rewrite Hm|done..|by rewrite Hh]. }
  destruct (layout_pieces w fdt Hr Ht Hfits Hk Hdisk) as [Hsorted Hpieces].
  { split; [|done]. destruct fdt; [done|simpl; lia]. }
  destruct Hk as [kernel Ek].
  destruct (write_images_spec r v host w2 config lo fdt kernel) as (h & E & Hl); [done..|].
  wstep. eapply wp_eq; [exact E|]. wsteps. split; [done|]. split; [done|].
  exists fdt. split; [done|]. destruct Hl as [? ? ? Hrest]. split; [done..|].
  intros x a H1 H2 H3. rewrite <- Hh. by apply Hrest.
Qed.

Lemma boot_load_spec w : ram_ready w r v host -> boot_typed config ->
  (Z.to_nat VART_VIRT_FDT_MAX_SIZE <= fuel)%nat ->
  wp (vart_virt_boot_load fuel local (Some r) (Some config) true) (load_post w) w.
Proof using HD.
  intros Hr Ht Hfuel. pose proof Hr as [Hv Hh _ _ _]. unfold vart_virt_boot_load.
  wstep. eapply wp_load_memory; [done|]. destruct (boot_load_invalid v config true) eqn:Hinv.
  { wsteps. split; [lia|done]. }
  unfold boot_load_invalid in Hinv. cbn [negb orb] in Hinv.
  rewrite !orb_false_iff, !bool_decide_eq_false in Hinv. destruct Hinv as [[[_ Hk] _] Hi].
  destruct (layout_cases lc (layout_config_typed w Hr Ht)) as [[Hfits ->]|[_ (err & -> & Herr)]].
  2:{ wsteps. split; [lia|done]. }
  wstep. eapply wp_mono; [apply build_spec, (fdt_config_typed w); done|].
  intros [err [[fdt size]|]] w1 [Hpost Hw1%fdt_frame_ram]; cbn [build_post] in Hpost; wsteps.
  2:{ assert (err < 0) as Hneg by (unfold no_room in Hpost; lia).
      rewrite (proj2 (Z.ltb_lt err 0) Hneg). wsteps. split; [done|by destruct Hw1]. }
  destruct Hpost as (-> & -> & _ & Hparse & _). change (0 <? 0) with false. cbv iota.
  wstep. eapply wp_deref; [done|]. cbv beta iota.
  destruct (Z.ltb_spec VART_VIRT_FDT_MAX_SIZE (zlen fdt)).
  { wsteps. split; [lia|by destruct Hw1]. }
  wstep. apply (wp_mono _ (fun _ w2 => ram_same w1 w2)).
  { destruct (bc_fdt_dump_path config); [apply dump_spec; lia|by wsteps]. }
  intros err w2 Hw2. assert (ram_same w w2) as [Hw2h Hw2m] by (by trans w1).
  destruct (Z.ltb_spec err 0); [wsteps; by split|].
  apply load_images_spec; [done..| | |done|done|done].
  - destruct (bc_kernel config); [by eexists|done].
  - intros Hz. rewrite (proj2 (Z.eqb_neq _ _) Hz) in Hi. apply bool_decide_eq_false in Hi.
    destruct (bc_initrd config); [by eexists|done].
Qed.
End Loading.

(** C23. Loading is all or nothing.  Whatever images and machine description it is given,
    [vart_virt_boot_load] returns.  If it fails, at any step, no byte of guest memory
    has changed.  If it succeeds, the kernel is at the first boundary of 2 MiB in RAM
    and the device tree in the last 2 MiB area, which is what the caller is told; guest
    memory holds exactly the kernel, the RAM disk and the device tree at their places
    and is otherwise as before; and the device tree reads back as the description of
    this machine, which names the place of the RAM disk. *)
Theorem boot_load_all_or_nothing `{HostFiles} `{!DumpHost} fuel local r v host config w :
  ram_ready w r v host -> boot_typed config ->
  (Z.to_nat VART_VIRT_FDT_MAX_SIZE <= fuel)%nat ->
  exists res w', vart_virt_boot_load fuel local (Some r) (Some config) true w = Ok (res, w') /\
    load_post v host config w res w'.
Proof. intros. by apply wp_ok, (boot_load_spec fuel local r). Qed.

(** C22. The layout is refused exactly when RAM has no room for it, and otherwise keeps the
    images apart: the kernel starts on a boundary of 2 MiB, ends before the RAM disk and
    before the device tree, whose 2 MiB area also starts on such a boundary and ends
    inside RAM. *)
Theorem boot_layout_keeps_apart c : layout_typed c ->
  (layout_fits c <-> exists lo, vart_virt_boot_layout (Some c) true = (0, Some lo)) /\
  forall lo err, vart_virt_boot_layout (Some c) true = (err, Some lo) ->
    lo_kernel_start lo mod MiB2 = 0 /\ lo_fdt_start lo mod MiB2 = 0 /\
    lc_ram_base c <= lo_kernel_start lo < lc_ram_base c + MiB2 /\
    lo_kernel_end lo = lo_kernel_start lo + lc_kernel_size c /\
    lo_kernel_end lo <= lo_fdt_start lo /\
    lo_fdt_start lo + VART_VIRT_FDT_MAX_SIZE <= lc_ram_base c + lc_ram_size c /\
    (lc_initrd_size c <> 0 -> lo_initrd_end lo = lo_initrd_start lo + lc_initrd_size c /\
       lo_kernel_end lo <= lo_initrd_start lo /\ lo_initrd_end lo <= lo_fdt_start lo).
Proof.
  intros Ht. destruct (layout_cases c Ht) as [[Hf E]|[Hf (err & E & Herr)]]; rewrite E.
  - split; [split; [by eexists|done]|]. intros lo err [= <- <-].
    pose proof (layout_bounds c Ht Hf). destruct Hf as (_ & _ & _ & ? & Hd).
    unfold layout_of. cbn [lo_kernel_start lo_kernel_end lo_initrd_start lo_initrd_end lo_fdt_start].
    split_and!; [unfold first_boundary; mlia|unfold last_boundary; mlia|lia
      |unfold first_boundary; mlia|lia|lia|lia|].
    intros Hz. rewrite (proj2 (Z.eqb_neq _ _) Hz). destruct Hd as [|[]]; [done|]. lia.
  - split; [|done]. split; [done|]. by intros (lo & [=]).
Qed.

(** * A small boot *)
Module BootDemo.
Definition ram : ptr := 1%positive.
Definition local : ptr := 1%positive.
Definition region : VartMemoryRegion :=
  mkMemoryRegion (Some 0x1000) 0x80000000 0x600000 0 false 2%positive false.
Definition memory : gmap Z Z :=
  mem_map ∅ 0x1000 (Z.to_nat 0x600000).
Definition b0 : World := empty_world <| w_host := memory |> <| w_memory := {[ram := region]} |>.
Definition config : VartVirtBootConfig :=
  mkBootConfig (Some [0x6f; 0; 0; 0]) 4 (Some [1; 2; 3]) 3 (vc_cpus (VirtFdtDemo.config 1)) 1
    10000000 (Some (str "console=ttyS0")) None true.
Definition layout : VartVirtBootLayoutConfig := layout_config_of region config.

(** No file can be opened. *)
#[local] Instance no_files : HostFiles := {|
  host_open := fun _ => ret (-ENOENT);
  host_write_file := fun _ _ => ret (-EIO);
  host_close := fun _ => ret 0;
|}.
#[local] Instance no_files_ok : DumpHost.
Proof. split; intros; wsteps; [done|split; [done|left; lia]|done]. Qed.

Lemma ram_is_ready : ram_ready b0 ram region 0x1000.
Proof.
  split; [done|done|unfold u64_ok; cbn; lia..|]. intros x Hx.
  change (w_host b0) with memory. unfold memory. rewrite mem_map_lookup, decide_True; [done|].
  rewrite Z2Nat.id by lia. exact Hx.
Qed.

Lemma boot_config_is_typed : boot_typed config.
Proof.
  split; [by intros k [= <-]..|unfold u64_ok; cbn; lia| |apply c_strb_true; reflexivity].
  apply (cg_cpus (VirtFdtDemo.config 1)). apply VirtFdtDemo.config_is_typed. lia.
Qed.

Lemma boot_load_all_or_nothing_witness :
  ram_ready b0 ram region 0x1000 /\ boot_typed config /\
  exists res w', vart_virt_boot_load (Z.to_nat VART_VIRT_FDT_MAX_SIZE) local (Some ram)
      (Some config) true b0 = Ok (res, w') /\ load_post region 0x1000 config b0 res w'.
Proof.
  split; [exact ram_is_ready|]. split; [exact boot_config_is_typed|].
  apply (boot_load_all_or_nothing (Z.to_nat VART_VIRT_FDT_MAX_SIZE) local ram region 0x1000
    config b0); [exact ram_is_ready|exact boot_config_is_typed|lia].
Defined.

Lemma boot_layout_keeps_apart_witness :
  vart_virt_boot_layout (Some layout) true =
    (0, Some (mkLayout 0x80000000 0x80000004 0x80300000 0x80300003 0x80400000)) /\
  (layout_fits layout <-> exists lo, vart_virt_boot_layout (Some layout) true = (0, Some lo)).
Proof.
  split; [reflexivity|]. apply (boot_layout_keeps_apart layout).
  split; unfold u64_ok; cbn; lia.
Defined.
End BootDemo.
