(* ===== verification/Cli.v ===== *)
(** The command line: [src/cli.c].

    Arguments are C strings, lists of bytes without the final NUL.  [strtoull] and
    [strtol] are modelled after the C standard: leading white space, a sign, the
    longest run of digits, saturation with [ERANGE]. *)

From Stdlib Require Import Strings.String ZArith Lia.
From stdpp Require Import base tactics numbers list gmap.
From S2P Require Import Prelude VirtFdt.

Abbreviation LONG_MAX := 9223372036854775807 (only parsing).
Abbreviation DEFAULT_MEMORY_SIZE := 536870912 (only parsing).
Definition DEFAULT_BOOTARGS : list Z := str "console=ttyS0 earlycon=uart8250,mmio,0x10000000".

(** * Numbers *)

Definition is_space (c : Z) : bool := (c =? 32) || ((9 <=? c) && (c <=? 13)).
Definition is_digit (c : Z) : bool := (48 <=? c) && (c <=? 57).

Fixpoint skip_spaces (text : list Z) : list Z :=
  match text with
  | c :: rest => if is_space c then skip_spaces rest else text
  | [] => []
  end.

(** The value of the digits in front, and what follows them. *)
Fixpoint digits (text : list Z) (value : Z) : Z * list Z :=
  match text with
  | c :: rest => if is_digit c then digits rest (value * 10 + (c - 48)) else (value, text)
  | [] => (value, [])
  end.

(** Sign and magnitude, with the text at [end]; [None] when there are no digits, in
    which case [end] is the whole text. *)
Definition scan_number (text : list Z) : option (bool * Z * list Z) :=
  let text := skip_spaces text in
  let '(negative, text) := match text with
                           | 45 :: rest => (true, rest)
                           | 43 :: rest => (false, rest)
                           | _ => (false, text)
                           end in
  match text with
  | c :: _ => if is_digit c
              then let '(value, rest) := digits text 0 in Some (negative, value, rest)
              else None
  | [] => None
  end.

(** The value, the text at [end] and whether [errno] was set. *)
Definition strtoull (text : list Z) : Z * list Z * bool :=
  match scan_number text with
  | None => (0, text, false)
  | Some (negative, value, rest) =>
      if UINT64_MAX <? value then (UINT64_MAX, rest, true)
      else (u64 (if (negative : bool) then - value else value), rest, false)
  end.
Definition strtol (text : list Z) : Z * list Z * bool :=
  match scan_number text with
  | None => (0, text, false)
  | Some (negative, value, rest) =>
      let value := if (negative : bool) then - value else value in
      if value <? - LONG_MAX - 1 then (- LONG_MAX - 1, rest, true)
      else if LONG_MAX <? value then (LONG_MAX, rest, true)
      else (value, rest, false)
  end.

(** An error, or the value stored through the pointer. *)
Definition parse_count (text : list Z) (maximum : Z) : Z + Z :=
  let '(number, end_, failed) := strtoull text in
  if failed || bool_decide (text = []) || negb (bool_decide (end_ = [])) ||
     (number =? 0) || (maximum <? number)
  then inl (-EINVAL) else inr number.

(** The [switch] on the suffix. *)
Definition multiplier_of (c : Z) : option Z :=
  if (c =? 75) || (c =? 107) then Some 1024
  else if (c =? 77) || (c =? 109) then Some (1024 * 1024)
  else if (c =? 71) || (c =? 103) then Some (1024 * 1024 * 1024)
  else None.

Definition scale_memory (number multiplier : Z) : Z + Z :=
  if (number =? 0) || (SIZE_MAX / multiplier <? number) then inl (-ERANGE)
  else
    let value := u64 (number * multiplier) in
    if (value <? 4 * 1024 * 1024) || negb (Z.land value 4095 =? 0) then inl (-EINVAL)
    else inr value.

Definition parse_memory (text : list Z) : Z + Z :=
  let '(number, end_, failed) := strtoull text in
  if failed || bool_decide (text = []) || bool_decide (end_ = text) then inl (-EINVAL)
  else
    match end_ with
    | [] => scale_memory number 1
    | [c] => match multiplier_of c with
             | Some multiplier => scale_memory number multiplier
             | None => inl (-EINVAL)
             end
    | _ => inl (-EINVAL)
    end.

Definition parse_fd (text : list Z) : Z + Z :=
  let '(number, end_, failed) := strtol text in
  if failed || bool_decide (text = []) || negb (bool_decide (end_ = [])) ||
     (number <? 0) || (INT_MAX <? number)
  then inl (-EINVAL) else inr number.

(** * Options *)

Inductive VartCliMode := VART_CLI_RUN | VART_CLI_PROBE | VART_CLI_HELP.
#[export] Instance VartCliMode_eq_dec : EqDecision VartCliMode.
Proof. solve_decision. Defined.

Record VartCliOptions := mkOptions {
  o_mode : VartCliMode;
  o_kernel_path : option (list Z);
  o_initrd_path : option (list Z);
  o_bootargs : option (list Z);
  o_fdt_dump_path : option (list Z);
  o_virtio_blk_path : option (list Z);
  o_virtio_net_tap : option (list Z);
  o_virtio_net_fd : Z;
  o_virtio_net_fd_set : bool;
  o_memory_size : Z;
  o_vcpu_count : Z;
  o_enable_test_device : bool;
  o_enable_pcie_switch : bool;
  o_enable_riscv_iommu : bool;
}.
#[export] Instance VartCliOptions_rebuild : Rebuild VartCliOptions :=
  env_const mkOptions $* o_mode $* o_kernel_path $* o_initrd_path $* o_bootargs
    $* o_fdt_dump_path $* o_virtio_blk_path $* o_virtio_net_tap $* o_virtio_net_fd
    $* o_virtio_net_fd_set $* o_memory_size $* o_vcpu_count $* o_enable_test_device
    $* o_enable_pcie_switch $* o_enable_riscv_iommu.

Definition default_options : VartCliOptions :=
  mkOptions VART_CLI_RUN None None (Some DEFAULT_BOOTARGS) None None None (-1) false
    DEFAULT_MEMORY_SIZE 1 false false false.

(** The options that take a value. *)
Definition value_options : list (list Z) :=
  [str "--kernel"; str "--initrd"; str "--append"; str "--dump-fdt"; str "--virtio-blk";
   str "--virtio-net-tap"; str "--virtio-net-fd"; str "--memory"; str "--cpus"].

(** The assignments for such an option. *)
Definition set_value (argument value : list Z) (result : VartCliOptions) : Z + VartCliOptions :=
  if decide (argument = str "--kernel") then inr (result <| o_kernel_path := Some value |>)
  else if decide (argument = str "--initrd") then inr (result <| o_initrd_path := Some value |>)
  else if decide (argument = str "--append") then inr (result <| o_bootargs := Some value |>)
  else if decide (argument = str "--dump-fdt") then
    inr (result <| o_fdt_dump_path := Some value |>)
  else if decide (argument = str "--virtio-blk") then
    inr (result <| o_virtio_blk_path := Some value |>)
  else if decide (argument = str "--virtio-net-tap") then
    inr (result <| o_virtio_net_tap := Some value |>)
  else if decide (argument = str "--virtio-net-fd") then
    match parse_fd value with
    | inl err => inl err
    | inr fd => inr (result <| o_virtio_net_fd := fd |> <| o_virtio_net_fd_set := true |>)
    end
  else if decide (argument = str "--memory") then
    match parse_memory value with
    | inl err => inl err
    | inr size => inr (result <| o_memory_size := size |>)
    end
  else
    match parse_count value VART_VIRT_MAX_CPUS with
    | inl err => inl err
    | inr count => inr (result <| o_vcpu_count := count |>)
    end.

(** The [for] loop; [argc] is the number of all arguments. *)
Fixpoint cli_loop (argc : Z) (args : list (list Z)) (result : VartCliOptions)
    : Z + VartCliOptions :=
  match args with
  | [] => inr result
  | argument :: args =>
      if decide (argument = str "--probe") then
        if negb (argc =? 2) then inl (-EINVAL)
        else cli_loop argc args (result <| o_mode := VART_CLI_PROBE |>)
      else if decide (argument = str "--help" \/ argument = str "-h") then
        if negb (argc =? 2) then inl (-EINVAL)
        else cli_loop argc args (result <| o_mode := VART_CLI_HELP |>)
      else if decide (argument = str "--test-device") then
        cli_loop argc args (result <| o_enable_test_device := true |>)
      else if decide (argument = str "--pcie-switch") then
        cli_loop argc args (result <| o_enable_pcie_switch := true |>)
      else if decide (argument = str "--riscv-iommu") then
        cli_loop argc args (result <| o_enable_riscv_iommu := true |>)
      else if decide (argument ∈ value_options) then
        match args with
        | [] => inl (-EINVAL)
        | value :: args =>
            match set_value argument value result with
            | inl err => inl err
            | inr result => cli_loop argc args result
            end
        end
      else inl (-EINVAL)
  end.

(** [argv] is [None] for NULL; [output] says that [options] is not NULL. *)
Definition vart_cli_parse (argv : option (list (list Z))) (output : bool) : Z + VartCliOptions :=
  match argv with
  | Some (program :: args) =>
      if negb output then inl (-EINVAL)
      else
        match cli_loop (Z.of_nat (length (program :: args))) args default_options with
        | inl err => inl err
        | inr result =>
            if bool_decide (o_mode result = VART_CLI_RUN /\ o_kernel_path result = None)
            then inl (-EINVAL) else inr result
        end
  | _ => inl (-EINVAL)
  end.

(** * Accepted options *)

(** What every part of the program that reads the options may rely on. *)
Record options_ok (o : VartCliOptions) : Prop := {
  ok_bootargs : is_Some (o_bootargs o);
  ok_memory : 4 * 1024 * 1024 <= o_memory_size o <= SIZE_MAX /\ o_memory_size o mod 4096 = 0;
  ok_cpus : 1 <= o_vcpu_count o <= VART_VIRT_MAX_CPUS;
  ok_fd : if o_virtio_net_fd_set o then 0 <= o_virtio_net_fd o <= INT_MAX
          else o_virtio_net_fd o = -1;
}.

Lemma scale_memory_ok number multiplier m : 0 <= number -> 0 < multiplier ->
  scale_memory number multiplier = inr m ->
  4 * 1024 * 1024 <= m <= SIZE_MAX /\ m mod 4096 = 0 /\ m = number * multiplier.
Proof.
  intros Hn Hm. unfold scale_memory. destruct (_ || _) eqn:H1; [done|].
  assert (number * multiplier <= SIZE_MAX) as Hmax.
  { apply orb_false_iff in H1 as [_ H1]. apply Z.ltb_ge in H1.
    pose proof (Z.mul_div_le SIZE_MAX multiplier Hm). nia. }
  rewrite u64_small by nia. destruct (_ || negb _) eqn:H2; [done|]. intros [= <-].
  apply orb_false_iff in H2 as [H2 H3]. apply negb_false_iff, Z.eqb_eq in H3.
  change 4095 with (Z.ones 12) in H3. rewrite Z.land_ones in H3 by lia.
  split_and!; [lia|lia|done|done].
Qed.

Lemma strtoull_range text : 0 <= (strtoull text).1.1 <= UINT64_MAX.
Proof.
  unfold strtoull. destruct (scan_number text) as [[[neg value] rest]|]; [|simpl; lia].
  destruct (_ <? value); simpl; [lia|]. apply u64_range.
Qed.

Lemma parse_count_ok text maximum n : parse_count text maximum = inr n -> 1 <= n <= maximum.
Proof.
  unfold parse_count. pose proof (strtoull_range text) as Hr.
  destruct (strtoull text) as [[number end_] failed]. cbn [fst] in Hr.
  destruct (_ || _) eqn:E; [done|]. intros [= <-]. lia.
Qed.

Lemma parse_memory_ok text m : parse_memory text = inr m ->
  4 * 1024 * 1024 <= m <= SIZE_MAX /\ m mod 4096 = 0.
Proof.
  unfold parse_memory. pose proof (strtoull_range text) as Hr.
  destruct (strtoull text) as [[number end_] failed]. cbn [fst] in Hr.
  destruct (_ || _); [done|]. unfold multiplier_of.
  destruct end_ as [|c [|]]; [..|done]; repeat case_match; try done;
    intros E; simplify_eq; apply scale_memory_ok in E; lia || (destruct E as (? & ? & _); auto).
Qed.

Lemma parse_fd_ok text n : parse_fd text = inr n -> 0 <= n <= INT_MAX.
Proof.
  unfold parse_fd. destruct (strtol text) as [[number end_] failed].
  destruct (_ || _) eqn:E; [done|]. intros [= <-]. lia.
Qed.

Lemma set_value_ok argument value o o' :
  options_ok o -> set_value argument value o = inr o' -> options_ok o' /\ o_mode o' = o_mode o.
Proof.
  intros [Hb Hm Hc Hf]. unfold set_value. repeat case_decide; intros E; simplify_eq.
  all: try (split; [split; try done; by eexists|done]).
  - destruct (parse_fd value) as [|fd] eqn:Ef; simplify_eq. apply parse_fd_ok in Ef.
    split; [by split|done].
  - destruct (parse_memory value) as [|m] eqn:Em; simplify_eq. apply parse_memory_ok in Em.
    split; [by split|done].
  - destruct (parse_count _ _) as [|n] eqn:En; simplify_eq. apply parse_count_ok in En.
    split; [by split|done].
Qed.

Lemma cli_loop_ok argc args : forall o o', options_ok o -> cli_loop argc args o = inr o' ->
  options_ok o'.
Proof.
  induction args as [args IH] using (well_founded_induction
    (Wf_nat.well_founded_ltof _ length)). intros o o' Ho.
  destruct args as [|argument args]; cbn [cli_loop]; [by intros [= <-]|].
  assert (forall o1, options_ok o1 -> cli_loop argc args o1 = inr o' -> options_ok o') as IH1.
  { intros o1. apply IH. unfold Wf_nat.ltof. simpl. lia. }
  destruct Ho as [Hb Hm Hc Hf].
  repeat case_decide; repeat (destruct (negb _); [done|]); try (apply IH1; by split); [|done].
  destruct args as [|value args]; [done|].
  destruct (set_value argument value o) as [|o1] eqn:E; [done|].
  apply set_value_ok in E as [Ho1 _]; [|by split]. apply IH; [|done].
  unfold Wf_nat.ltof. simpl. lia.
Qed.

(** * Printing options *)

Fixpoint dec_loop (fuel : nat) (n : Z) : list Z :=
  match fuel with
  | O => []
  | S fuel => (if n <? 10 then [] else dec_loop fuel (n / 10)) ++ [48 + n mod 10]
  end.
Definition print_dec (n : Z) : list Z := dec_loop 20 n.

Definition print_value (name : string) (value : option (list Z)) : list (list Z) :=
  match value with Some v => [str name; v] | None => [] end.
Definition print_flag (name : string) (set : bool) : list (list Z) :=
  if set then [str name] else [].
Arguments print_value name%_string value.
Arguments print_flag name%_string set.

(** A command line that says what the options are. *)
Definition print_run_options (o : VartCliOptions) : list (list Z) :=
  print_value "--kernel" (o_kernel_path o) ++ print_value "--initrd" (o_initrd_path o) ++
  print_value "--append" (o_bootargs o) ++ print_value "--dump-fdt" (o_fdt_dump_path o) ++
  print_value "--virtio-blk" (o_virtio_blk_path o) ++
  print_value "--virtio-net-tap" (o_virtio_net_tap o) ++
  (if o_virtio_net_fd_set o then [str "--virtio-net-fd"; print_dec (o_virtio_net_fd o)] else []) ++
  [str "--memory"; print_dec (o_memory_size o); str "--cpus"; print_dec (o_vcpu_count o)] ++
  print_flag "--test-device" (o_enable_test_device o) ++
  print_flag "--pcie-switch" (o_enable_pcie_switch o) ++
  print_flag "--riscv-iommu" (o_enable_riscv_iommu o).
Definition print_options (program : list Z) (o : VartCliOptions) : list (list Z) :=
  program ::
  match o_mode o with
  | VART_CLI_RUN => print_run_options o
  | VART_CLI_PROBE => [str "--probe"]
  | VART_CLI_HELP => [str "--help"]
  end.

(** ** Numbers are read back *)

Lemma digit_step d rest value : 0 <= d < 10 ->
  digits ((48 + d) :: rest) value = digits rest (value * 10 + d).
Proof.
  intros Hd. cbn [digits]. unfold is_digit.
  rewrite (proj2 (Z.leb_le _ _)), (proj2 (Z.leb_le (48 + d) _)) by lia. cbn [andb].
  f_equal. lia.
Qed.

Lemma digits_dec fuel : forall n rest, 0 <= n < 10 ^ Z.of_nat fuel -> n <> 0 \/ fuel <> O ->
  digits (dec_loop fuel n ++ rest) 0 = digits rest n.
Proof.
  induction fuel as [|fuel IH]; intros n rest Hn Hz.
  { change (10 ^ Z.of_nat 0) with 1 in Hn. lia. }
  rewrite Nat2Z.inj_succ, Z.pow_succ_r in Hn by lia. cbn [dec_loop].
  rewrite <- app_assoc. destruct (Z.ltb_spec n 10).
  - cbn [app]. rewrite digit_step by mlia. f_equal. mlia.
  - rewrite IH; [|split; [mlia|apply Z.div_lt_upper_bound; lia]|left; mlia].
    cbn [app]. rewrite digit_step by mlia. f_equal. mlia.
Qed.

Lemma dec_loop_head fuel : forall n, 0 <= n ->
  exists d rest, dec_loop (S fuel) n = (48 + d) :: rest /\ 0 <= d < 10.
Proof.
  induction fuel as [|fuel IH]; intros n Hn; rewrite (eq_refl : dec_loop (S _) n =
    (if n <? 10 then [] else dec_loop _ (n / 10)) ++ [48 + n mod 10]).
  - destruct (n <? 10); cbn [dec_loop app]; exists (n mod 10), []; (split; [done|mlia]).
  - destruct (n <? 10); [exists (n mod 10), []; split; [done|mlia]|].
    destruct (IH (n / 10)) as (d & rest & -> & Hd); [mlia|]. cbn [app]. eauto.
Qed.

Lemma scan_print n : 0 <= n <= UINT64_MAX -> scan_number (print_dec n) = Some (false, n, []).
Proof.
  intros Hn. pose proof (digits_dec 20 n [] ltac:(lia) (or_intror (Nat.neq_succ_0 _))) as Hd.
  destruct (dec_loop_head 19 n) as (d & rest & Hp & Hd0); [lia|].
  unfold scan_number, print_dec in *. rewrite app_nil_r in Hd. rewrite Hp in *.
  cbn [skip_spaces]. unfold is_space.
  rewrite (proj2 (Z.eqb_neq (48 + d) 32)), (proj2 (Z.leb_gt (48 + d) 13)) by lia.
  rewrite andb_false_r. cbn [orb].
  assert (forall (A : Type) (x y z : A), match 48 + d with 45 => x | 43 => y | _ => z end = z) as Hm.
  { intros. assert (d = 0 \/ d = 1 \/ d = 2 \/ d = 3 \/ d = 4 \/ d = 5 \/ d = 6 \/ d = 7 \/ d = 8
      \/ d = 9) as Hcases by lia. by destruct Hcases as [|[|[|[|[|[|[|[|[|]]]]]]]]]; subst. }
  rewrite Hm. unfold is_digit at 1.
  rewrite (proj2 (Z.leb_le _ _)), (proj2 (Z.leb_le (48 + d) _)) by lia. cbn [andb].
  by rewrite Hd.
Qed.

Lemma strtoull_print n : 0 <= n <= UINT64_MAX -> strtoull (print_dec n) = (n, [], false).
Proof.
  intros Hn. unfold strtoull. rewrite scan_print by done.
  rewrite (proj2 (Z.ltb_ge _ _)), u64_small by lia. done.
Qed.
Lemma print_dec_nonempty n : 0 <= n -> print_dec n <> [].
Proof.
  intros Hn E. destruct (dec_loop_head 19 n Hn) as (d & rest & Hp & _).
  unfold print_dec in E. by rewrite Hp in E.
Qed.

Lemma parse_count_print n maximum : 1 <= n <= maximum -> maximum <= UINT64_MAX ->
  parse_count (print_dec n) maximum = inr n.
Proof.
  intros Hn Hm. unfold parse_count. rewrite strtoull_print by lia.
  rewrite bool_decide_eq_false_2 by (apply print_dec_nonempty; lia).
  rewrite bool_decide_eq_true_2 by done.
  rewrite (proj2 (Z.eqb_neq _ _)), (proj2 (Z.ltb_ge _ _)) by lia. done.
Qed.
Lemma parse_memory_print m : 4 * 1024 * 1024 <= m <= SIZE_MAX -> m mod 4096 = 0 ->
  parse_memory (print_dec m) = inr m.
Proof.
  intros Hm Ha. unfold parse_memory, scale_memory. rewrite strtoull_print by lia.
  pose proof (print_dec_nonempty m ltac:(lia)).
  rewrite !bool_decide_eq_false_2 by done. cbn [orb].
  rewrite Z.div_1_r, (proj2 (Z.eqb_neq _ _)), (proj2 (Z.ltb_ge SIZE_MAX _)) by lia. cbn [orb].
  rewrite Z.mul_1_r, u64_small, (proj2 (Z.ltb_ge m _)) by lia.
  change 4095 with (Z.ones 12). rewrite Z.land_ones by lia. change (2 ^ 12) with 4096.
  by rewrite Ha.
Qed.
Lemma parse_fd_print n : 0 <= n <= INT_MAX -> parse_fd (print_dec n) = inr n.
Proof.
  intros Hn. unfold parse_fd, strtol. rewrite scan_print by lia.
  rewrite (proj2 (Z.ltb_ge n _)), (proj2 (Z.ltb_ge LONG_MAX _)) by lia.
  rewrite bool_decide_eq_false_2 by (apply print_dec_nonempty; lia).
  rewrite bool_decide_eq_true_2 by done.
  by rewrite (proj2 (Z.ltb_ge n 0)), (proj2 (Z.ltb_ge INT_MAX n)) by lia.
Qed.

(** ** Each option is read back *)
Section ReadBack.
Context (argc : Z) (args : list (list Z)).
Implicit Types o : VartCliOptions.

(** An option that is not printed has its default value. *)
Ltac read_back := intros; destruct_or?; repeat case_match; simplify_eq/=; try reflexivity;
  match goal with o : VartCliOptions |- _ => destruct o; simpl in *; by subst end.

Lemma read_kernel v o : o_kernel_path o = None ->
  cli_loop argc (print_value "--kernel" v ++ args) o =
  cli_loop argc args (o <| o_kernel_path := v |>).
Proof. destruct v; [done|]. read_back. Qed.
Lemma read_initrd v o : o_initrd_path o = None ->
  cli_loop argc (print_value "--initrd" v ++ args) o =
  cli_loop argc args (o <| o_initrd_path := v |>).
Proof. destruct v; [done|]. read_back. Qed.
Lemma read_append v o : is_Some v ->
  cli_loop argc (print_value "--append" v ++ args) o =
  cli_loop argc args (o <| o_bootargs := v |>).
Proof. by intros [? ->]. Qed.
Lemma read_dump v o : o_fdt_dump_path o = None ->
  cli_loop argc (print_value "--dump-fdt" v ++ args) o =
  cli_loop argc args (o <| o_fdt_dump_path := v |>).
Proof. destruct v; [done|]. read_back. Qed.
Lemma read_blk v o : o_virtio_blk_path o = None ->
  cli_loop argc (print_value "--virtio-blk" v ++ args) o =
  cli_loop argc args (o <| o_virtio_blk_path := v |>).
Proof. destruct v; [done|]. read_back. Qed.
Lemma read_tap v o : o_virtio_net_tap o = None ->
  cli_loop argc (print_value "--virtio-net-tap" v ++ args) o =
  cli_loop argc args (o <| o_virtio_net_tap := v |>).
Proof. destruct v; [done|]. read_back. Qed.
Lemma read_fd (set : bool) fd o : o_virtio_net_fd o = -1 -> o_virtio_net_fd_set o = false ->
  (if set then 0 <= fd <= INT_MAX else fd = -1) ->
  cli_loop argc ((if set then [str "--virtio-net-fd"; print_dec fd] else []) ++ args) o =
  cli_loop argc args (o <| o_virtio_net_fd := fd |> <| o_virtio_net_fd_set := set |>).
Proof.
  destruct set; intros H1 H2 Hfd.
  - change (cli_loop argc ([str "--virtio-net-fd"; print_dec fd] ++ args) o) with
      (match (match parse_fd (print_dec fd) with
        | inl err => inl err
        | inr fd => inr (o <| o_virtio_net_fd := fd |> <| o_virtio_net_fd_set := true |>)
        end) with inl err => inl err | inr o => cli_loop argc args o end).
    by rewrite parse_fd_print.
  - destruct o. simpl in *. by subst.
Qed.
Lemma read_memory m o : 4 * 1024 * 1024 <= m <= SIZE_MAX -> m mod 4096 = 0 ->
  cli_loop argc (str "--memory" :: print_dec m :: args) o =
  cli_loop argc args (o <| o_memory_size := m |>).
Proof.
  intros Hm Ha. change (cli_loop argc (str "--memory" :: print_dec m :: args) o) with
    (match (match parse_memory (print_dec m) with
      | inl err => inl err
      | inr size => inr (o <| o_memory_size := size |>)
      end) with inl err => inl err | inr o => cli_loop argc args o end).
  by rewrite parse_memory_print.
Qed.
Lemma read_cpus n o : 1 <= n <= VART_VIRT_MAX_CPUS ->
  cli_loop argc (str "--cpus" :: print_dec n :: args) o =
  cli_loop argc args (o <| o_vcpu_count := n |>).
Proof.
  intros Hn. change (cli_loop argc (str "--cpus" :: print_dec n :: args) o) with
    (match (match parse_count (print_dec n) VART_VIRT_MAX_CPUS with
      | inl err => inl err
      | inr count => inr (o <| o_vcpu_count := count |>)
      end) with inl err => inl err | inr o => cli_loop argc args o end).
  by rewrite parse_count_print by lia.
Qed.
Lemma read_test_device b o : o_enable_test_device o = false ->
  cli_loop argc (print_flag "--test-device" b ++ args) o =
  cli_loop argc args (o <| o_enable_test_device := b |>).
Proof. destruct b; [done|]. read_back. Qed.
Lemma read_pcie_switch b o : o_enable_pcie_switch o = false ->
  cli_loop argc (print_flag "--pcie-switch" b ++ args) o =
  cli_loop argc args (o <| o_enable_pcie_switch := b |>).
Proof. destruct b; [done|]. read_back. Qed.
Lemma read_riscv_iommu b o : o_enable_riscv_iommu o = false ->
  cli_loop argc (print_flag "--riscv-iommu" b ++ args) o =
  cli_loop argc args (o <| o_enable_riscv_iommu := b |>).
Proof. destruct b; [done|]. read_back. Qed.
End ReadBack.

Lemma print_parse program o : options_ok o -> o_mode o = VART_CLI_RUN ->
  is_Some (o_kernel_path o) -> vart_cli_parse (Some (print_options program o)) true = inr o.
Proof.
  intros [Hb [Hm Ha] Hc Hf] Hmode Hk. unfold vart_cli_parse, print_options. rewrite Hmode.
  cbn [negb]. generalize (Z.of_nat (length (program :: print_run_options o))). intros argc.
  unfold print_run_options.
  rewrite read_kernel, read_initrd, read_append, read_dump, read_blk, read_tap, read_fd by done.
  cbn [app]. rewrite read_memory, read_cpus, read_test_device, read_pcie_switch by done.
  rewrite <- (app_nil_r (print_flag "--riscv-iommu" _)), read_riscv_iommu by done.
  cbn [cli_loop]. destruct o, Hk as [k Hk]. cbn in *. subst. done.
Qed.

(** * The theorems *)

Lemma set_value_mode argument value o o' :
  set_value argument value o = inr o' -> o_mode o' = o_mode o.
Proof.
  unfold set_value. repeat case_decide; intros E; repeat case_match; by simplify_eq.
Qed.

Lemma cli_loop_mode argc args : argc <> 2 -> forall o o',
  cli_loop argc args o = inr o' -> o_mode o' = o_mode o.
Proof.
  intros Hargc. induction args as [args IH] using (well_founded_induction
    (Wf_nat.well_founded_ltof _ length)). intros o o'.
  destruct args as [|argument args]; cbn [cli_loop]; [by intros [= <-]|].
  rewrite (proj2 (Z.eqb_neq argc 2) Hargc). cbn [negb].
  assert (forall o1, cli_loop argc args o1 = inr o' -> o_mode o' = o_mode o1) as IH1.
  { intros o1. apply IH. unfold Wf_nat.ltof. simpl. lia. }
  repeat case_decide; try done; try (intros E; by apply IH1 in E).
  destruct args as [|value args]; [done|].
  destruct (set_value argument value o) as [|o1] eqn:E1; [done|]. intros E.
  apply set_value_mode in E1. rewrite <- E1. apply (IH args); [|done].
  unfold Wf_nat.ltof. simpl. lia.
Qed.

Lemma default_options_ok : options_ok default_options.
Proof. split; [by eexists|done..]. Qed.

Lemma parse_loop argv output o : vart_cli_parse argv output = inr o ->
  exists program args, argv = Some (program :: args) /\
    cli_loop (Z.of_nat (length (program :: args))) args default_options = inr o /\
    ~ (o_mode o = VART_CLI_RUN /\ o_kernel_path o = None).
Proof.
  unfold vart_cli_parse. destruct argv as [[|program args]|]; [done| |done].
  destruct (negb output); [done|]. intros E. exists program, args. split; [done|].
  destruct (cli_loop _ _ _) as [|o1] eqn:E1; [done|]. case_bool_decide; [done|]. by simplify_eq.
Qed.

(** With [--probe] or [--help], which stand alone, everything else is the default. *)
Lemma parse_mode argv output o : vart_cli_parse argv output = inr o ->
  match o_mode o with
  | VART_CLI_RUN => is_Some (o_kernel_path o)
  | mode => o = default_options <| o_mode := mode |>
  end.
Proof.
  intros (program & args & -> & E & Hk)%parse_loop.
  destruct (o_mode o) eqn:Hmode; [destruct (o_kernel_path o); [by eexists|by destruct Hk]|..].
  all: destruct args as [|argument [|a args]].
  1,4: by injection E as <-.
  2,4: apply cli_loop_mode in E; [by rewrite Hmode in E|cbn [length]; lia].
  all: cbn [cli_loop length] in E; change (Z.of_nat 2 =? 2) with true in E; cbn [negb] in E;
    repeat case_decide; by simplify_eq/=.
Qed.

(** C24. Whatever is on the command line, the options that are accepted are sane: between
    1 and 512 CPUs, at least 4 MiB of memory in whole pages that fits the address space,
    a descriptor that is a non-negative [int] if one was given, a kernel whenever the
    machine is to run; and with [--probe] or [--help] everything else is the default. *)
Theorem cli_options_typed argv output o : vart_cli_parse argv output = inr o ->
  options_ok o /\
  match o_mode o with
  | VART_CLI_RUN => is_Some (o_kernel_path o)
  | mode => o = default_options <| o_mode := mode |>
  end.
Proof.
  intros Hp. split; [|by eapply parse_mode]. apply parse_loop in Hp as (program & args & -> & E & _).
  eapply cli_loop_ok; [apply default_options_ok|exact E].
Qed.

(** C25. Every accepted command line has a canonical form: printing the options it means
    ([--probe] or [--help] alone, or every option with its value in decimal) gives a command
    line that is accepted and means exactly the same options. *)
Theorem cli_print_parse argv output o program :
  vart_cli_parse argv output = inr o ->
  vart_cli_parse (Some (print_options program o)) true = inr o.
Proof.
  intros Hp. pose proof (parse_mode _ _ _ Hp) as Hm.
  destruct (o_mode o) eqn:Hmode; [|by rewrite Hm..].
  apply parse_loop in Hp as (program' & args & -> & E & _).
  apply print_parse; [eapply cli_loop_ok; [apply default_options_ok|exact E]|done|done].
Qed.

(** * A command line *)
Module CliDemo.
Definition command : list (list Z) :=
  [str "vart"; str "--kernel"; str "Image"; str "--memory"; str " 512M"; str "--cpus"; str "2";
   str "--virtio-net-fd"; str "7"; str "--riscv-iommu"].
Definition options : VartCliOptions :=
  mkOptions VART_CLI_RUN (Some (str "Image")) None (Some DEFAULT_BOOTARGS) None None None 7 true
    536870912 2 false false true.
Lemma command_parses : vart_cli_parse (Some command) true = inr options.
Proof. vm_compute. reflexivity. Qed.

Lemma cli_options_typed_witness :
  vart_cli_parse (Some command) true = inr options /\ options_ok options /\
  is_Some (o_kernel_path options).
Proof.
  split; [exact command_parses|].
  exact (cli_options_typed (Some command) true options command_parses).
Defined.

Lemma cli_print_parse_witness :
  vart_cli_parse (Some (print_options (str "vart") options)) true = inr options.
Proof.
  exact (cli_print_parse (Some command) true options (str "vart") command_parses).
Defined.

(** A negative size is accepted when its value modulo [2^64] is a valid one. *)
Lemma negative_size_accepted : parse_memory (str "-18446744073172680704") = inr 536870912.
Proof. vm_compute. reflexivity. Qed.
End CliDemo.
