(* ===== verification/KvmIrq.v ===== *)
(** Interrupts through KVM: [src/kvm/kvm-irq-routing.c], [src/kvm/kvm-irqfd.c],
    [src/kvm/kvm-ioeventfd.c], [src/kvm/kvm-device.c] and the notifiers of
    [src/event/eventfd.c].

    The routing table maps interrupt numbers (GSIs) to messages and is handed to the
    kernel as a whole; an irqfd ties an event descriptor to a GSI.  The theorems say
    that the table is a finite map and that what the kernel holds is the map of the last
    commit that it accepted. *)

From Stdlib Require Import ZArith Lia.
From stdpp Require Import base tactics numbers list gmap.
From S2P Require Import Prelude Bytes Machine EventLoop.

Abbreviation KVM_IRQ_ROUTING_MSI := 2 (only parsing).
Abbreviation KVM_IRQFD_FLAG_DEASSIGN := 1 (only parsing).
Abbreviation KVM_IOEVENTFD_FLAG_DEASSIGN := 4 (only parsing).

(** * The kernel's interface *)

(** [struct kvm_irq_routing_entry] of an MSI route. *)
Record kvm_irq_routing_entry := mkRoutingEntry {
  re_gsi : Z;
  re_type : Z;
  re_address_lo : Z;
  re_address_hi : Z;
  re_data : Z;
  re_devid : Z;
}.
Record kvm_irqfd_request := mkIrqfdRequest { if_fd : Z; if_gsi : Z; if_flags : Z }.
Record kvm_ioeventfd_request := mkIoeventfdRequest {
  io_addr : Z; io_len : Z; io_fd : Z; io_flags : Z }.
Record kvm_msi := mkMsi { msi_address_lo : Z; msi_address_hi : Z; msi_data : Z }.
Inductive kvm_attr_request :=
| KVM_SET_DEVICE_ATTR
| KVM_GET_DEVICE_ATTR
| KVM_HAS_DEVICE_ATTR.

(** System calls; a negative result is [-errno].  The first argument is the descriptor.
    [ioctl_create_device] gives the new descriptor next to its result and
    [ioctl_device_attr] what the attribute's value pointer points to afterwards. *)
Class KvmHost := {
  ioctl_set_gsi_routing : Z -> list kvm_irq_routing_entry -> M World Z;
  ioctl_irqfd : Z -> kvm_irqfd_request -> M World Z;
  ioctl_ioeventfd : Z -> kvm_ioeventfd_request -> M World Z;
  ioctl_signal_msi : Z -> kvm_msi -> M World Z;
  ioctl_irq_line : Z -> Z -> bool -> M World Z;
  ioctl_create_device : Z -> Z -> M World (Z * Z);
  ioctl_device_attr : Z -> kvm_attr_request -> Z -> Z -> option Z -> M World (Z * option Z);
  notifier_eventfd : M World Z;
  notifier_write : Z -> Z -> M World Z;
  notifier_read : Z -> M World (Z * Z);
  close_fd : Z -> M World unit;
}.

Definition zero_notifier : VartEventNotifier := mkNotifier 0 false.
Definition zero_kvm_device : VartKvmDevice := mkKvmDevice None 0 0.
Definition zero_routing : VartKvmIrqRouting := mkRouting None [] 0 false.

Section Kvm.
Context `{KvmHost}.

(** * [src/event/eventfd.c]: notifiers

    The operations receive what the pointer points to and give it back. *)

Definition vart_event_notifier_init (notifier : option VartEventNotifier)
    : M World (Z * option VartEventNotifier) :=
  match notifier with
  | None => ret (-EINVAL, notifier)
  | Some n =>
      if notifier_initialized n then ret (-EBUSY, notifier)
      else
        let* fd := notifier_eventfd in
        if fd <? 0 then ret (fd, notifier) else ret (0, Some (mkNotifier fd true))
  end.

Definition vart_event_notifier_destroy (notifier : option VartEventNotifier)
    : M World (option VartEventNotifier) :=
  match notifier with
  | None => ret None
  | Some n =>
      (if notifier_initialized n then close_fd (notifier_fd n) else ret tt) ;;;
      ret (Some (mkNotifier (-1) false))
  end.

(** The result of transferring the eight bytes of a counter. *)
Definition transfer_result (count : Z) : Z :=
  if count =? 8 then 0 else if count <? 0 then count else -EIO.

Definition vart_event_notifier_notify (steps : nat) (notifier : option VartEventNotifier)
    (value : Z) : M World Z :=
  match notifier with
  | None => ret (-EINVAL)
  | Some n =>
      if negb (notifier_initialized n) || (value =? 0) then ret (-EINVAL)
      else
        let* count := retry steps (notifier_write (notifier_fd n) value) in
        ret (transfer_result count)
  end.

Fixpoint read_retry (steps : nat) (fd : Z) : M World (Z * Z) :=
  match steps with
  | O => out_of_fuel
  | S steps =>
      let* (count, value) := notifier_read fd in
      if count =? -EINTR then read_retry steps fd else ret (count, value)
  end.

(** The error code and [*value]; [output] says whether the pointer is there. *)
Definition vart_event_notifier_read (steps : nat) (notifier : option VartEventNotifier)
    (output : bool) : M World (Z * Z) :=
  match notifier with
  | None => ret (-EINVAL, 0)
  | Some n =>
      if negb (notifier_initialized n) || negb output then ret (-EINVAL, 0)
      else
        let* (count, value) := read_retry steps (notifier_fd n) in
        ret (transfer_result count, value)
  end.

Definition vart_event_notifier_get_fd (notifier : option VartEventNotifier) : Z :=
  match notifier with
  | None => -1
  | Some n => if notifier_initialized n then notifier_fd n else -1
  end.

(** * [src/kvm/kvm-device.c] *)

(** The error code and the device afterwards. *)
Definition vart_kvm_device_create (device : VartKvmDevice) (vm : option ptr) (type : Z)
    : M World (Z * VartKvmDevice) :=
  match vm with
  | None => ret (-EINVAL, device)
  | Some v =>
      let* vm' := load_vm v in
      if vm_fd vm' <? 0 then ret (-EINVAL, device)
      else
        let* (err, fd) := ioctl_create_device (vm_fd vm') type in
        if err <? 0 then ret (err, zero_kvm_device <| kd_fd := -1 |>)
        else ret (0, mkKvmDevice vm fd type)
  end.

Definition vart_kvm_device_destroy (device : VartKvmDevice) : M World VartKvmDevice :=
  (if 0 <=? kd_fd device then close_fd (kd_fd device) else ret tt) ;;;
  ret (zero_kvm_device <| kd_fd := -1 |>).

Definition device_attr_ioctl (device : VartKvmDevice) (request : kvm_attr_request)
    (group attr : Z) (value : option Z) : M World (Z * option Z) :=
  if kd_fd device <? 0 then ret (-EINVAL, value)
  else
    let* (err, value) := ioctl_device_attr (kd_fd device) request group attr value in
    if err <? 0 then ret (err, value) else ret (0, value).

Definition vart_kvm_device_has_attr (device : VartKvmDevice) (group attr : Z)
    : M World Z :=
  let* (err, _) := device_attr_ioctl device KVM_HAS_DEVICE_ATTR group attr None in
  ret err.

Definition vart_kvm_device_get_attr (device : VartKvmDevice) (group attr : Z)
    (value : option Z) : M World (Z * option Z) :=
  if bool_decide (value = None) then ret (-EINVAL, value)
  else device_attr_ioctl device KVM_GET_DEVICE_ATTR group attr value.

Definition vart_kvm_device_set_attr (device : VartKvmDevice) (group attr : Z)
    (value : option Z) : M World Z :=
  let* (err, _) := device_attr_ioctl device KVM_SET_DEVICE_ATTR group attr value in
  ret err.

(** * [src/kvm/kvm-irqfd.c] and [src/kvm/kvm-ioeventfd.c] *)

(** Whether the VM is there and its KVM has the capability [cap]. *)
Definition vm_with (cap : VartKvm -> bool) (vm : option ptr) : M World (option VartVm) :=
  match vm with
  | None => ret None
  | Some v =>
      let* vm' := load_vm v in
      if vm_fd vm' <? 0 then ret None
      else
        match vm_kvm vm' with
        | None => ret None
        | Some k => let* kvm := load_kvm k in ret (if cap kvm then Some vm' else None)
        end
  end.

Definition vart_kvm_irqfd_ioctl (vm : option ptr) (notifier : option VartEventNotifier)
    (gsi flags : Z) : M World Z :=
  let* vm' := vm_with kvm_irqfd vm in
  match vm', notifier with
  | Some vm', Some _ =>
      let fd := vart_event_notifier_get_fd notifier in
      if fd <? 0 then ret (-EINVAL)
      else
        let* err := ioctl_irqfd (vm_fd vm') (mkIrqfdRequest (u32 fd) gsi flags) in
        ret (if err <? 0 then err else 0)
  | _, _ => ret (-EINVAL)
  end.

Definition vart_kvm_irqfd_assign (vm : option ptr) (notifier : option VartEventNotifier)
    (gsi : Z) : M World Z := vart_kvm_irqfd_ioctl vm notifier gsi 0.
Definition vart_kvm_irqfd_deassign (vm : option ptr) (notifier : option VartEventNotifier)
    (gsi : Z) : M World Z := vart_kvm_irqfd_ioctl vm notifier gsi KVM_IRQFD_FLAG_DEASSIGN.

Definition vart_kvm_ioeventfd_ioctl (vm : option ptr) (notifier : option VartEventNotifier)
    (address length flags : Z) : M World Z :=
  let* vm' := vm_with kvm_ioeventfd vm in
  match vm', notifier with
  | Some vm', Some _ =>
      let fd := vart_event_notifier_get_fd notifier in
      if (fd <? 0) || (length =? 0) then ret (-EINVAL)
      else
        let* err := ioctl_ioeventfd (vm_fd vm')
          (mkIoeventfdRequest address length (u32 fd) flags) in
        ret (if err <? 0 then err else 0)
  | _, _ => ret (-EINVAL)
  end.

Definition vart_kvm_ioeventfd_assign (vm : option ptr)
    (notifier : option VartEventNotifier) (address length : Z) : M World Z :=
  vart_kvm_ioeventfd_ioctl vm notifier address length 0.
Definition vart_kvm_ioeventfd_deassign (vm : option ptr)
    (notifier : option VartEventNotifier) (address length : Z) : M World Z :=
  vart_kvm_ioeventfd_ioctl vm notifier address length KVM_IOEVENTFD_FLAG_DEASSIGN.

(** * [src/kvm/kvm-irq-routing.c] *)

(** A route has 24 bytes. *)
Definition vart_kvm_irq_routing_reserve (r : ptr) : M World Z :=
  let* routing := load_routing r in
  if Z.of_nat (length (routing_routes routing)) <? routing_capacity routing then ret 0
  else
    let old := routing_capacity routing in
    let capacity := if old =? 0 then 8 else u64 (old * 2) in
    if (capacity <? old) || (SIZE_MAX / 24 <? capacity) then ret (-EOVERFLOW)
    else
      let* ok := allocate in
      if negb ok then ret (-ENOMEM)
      else store_routing r (routing <| routing_capacity := capacity |>) ;;; ret 0.

Definition vart_kvm_irq_routing_init (routing vm : option ptr) : M World Z :=
  match routing, vm with
  | Some r, Some v =>
      let* vm' := load_vm v in
      match vm_fd vm' <? 0, vm_kvm vm' with
      | false, Some k =>
          let* routing' := load_routing r in
          if routing_initialized routing' then ret (-EBUSY)
          else
            store_routing r zero_routing ;;;
            let* kvm := load_kvm k in
            if negb (kvm_irq_routing kvm) || negb (kvm_signal_msi kvm)
            then ret (-ENOTSUP)
            else
              store_routing r (zero_routing <| routing_vm := vm |>
                                            <| routing_initialized := true |>) ;;;
              ret 0
      | _, _ => ret (-EINVAL)
      end
  | _, _ => ret (-EINVAL)
  end.

Definition vart_kvm_irq_routing_destroy (routing : option ptr) : M World unit :=
  match routing with
  | None => ret tt
  | Some r => store_routing r zero_routing
  end.

Definition vart_kvm_irq_routing_clear (routing : option ptr) : M World Z :=
  match routing with
  | None => ret (-EINVAL)
  | Some r =>
      let* routing' := load_routing r in
      if negb (routing_initialized routing') then ret (-EINVAL)
      else store_routing r (routing' <| routing_routes := [] |>) ;;; ret 0
  end.

Definition vart_kvm_irq_routing_add_msi (routing : option ptr) (gsi address data devid : Z)
    : M World Z :=
  match routing with
  | None => ret (-EINVAL)
  | Some r =>
      let* routing' := load_routing r in
      if negb (routing_initialized routing') then ret (-EINVAL)
      else if existsb (fun x => route_gsi x =? gsi) (routing_routes routing')
      then ret (-EEXIST)
      else
        let* err := vart_kvm_irq_routing_reserve r in
        if err <? 0 then ret err
        else
          let* routing' := load_routing r in
          store_routing r (routing' <| routing_routes ::=
            (fun l => l ++ [mkMsiRoute gsi address data devid]) |>) ;;;
          ret 0
  end.

(** The array after the loop of [remove_msi], if the GSI is there. *)
Fixpoint remove_route (gsi : Z) (l : list VartKvmMsiRoute) : option (list VartKvmMsiRoute) :=
  match l with
  | [] => None
  | x :: l => if route_gsi x =? gsi then Some l
              else match remove_route gsi l with
                   | Some l => Some (x :: l)
                   | None => None
                   end
  end.

Definition vart_kvm_irq_routing_remove_msi (routing : option ptr) (gsi : Z) : M World Z :=
  match routing with
  | None => ret (-EINVAL)
  | Some r =>
      let* routing' := load_routing r in
      if negb (routing_initialized routing') then ret (-EINVAL)
      else
        match remove_route gsi (routing_routes routing') with
        | Some l => store_routing r (routing' <| routing_routes := l |>) ;;; ret 0
        | None => ret (-ENOENT)
        end
  end.

Definition routing_entry (x : VartKvmMsiRoute) : kvm_irq_routing_entry :=
  mkRoutingEntry (route_gsi x) KVM_IRQ_ROUTING_MSI (u32 (route_address x))
    (u32 (Z.shiftr (route_address x) 32)) (route_data x) (route_devid x).

(** The table has a head of 8 bytes and entries of 48. *)
Definition vart_kvm_irq_routing_commit (routing : option ptr) : M World Z :=
  match routing with
  | None => ret (-EINVAL)
  | Some r =>
      let* routing' := load_routing r in
      match routing_initialized routing', routing_vm routing' with
      | true, Some v =>
          let count := Z.of_nat (length (routing_routes routing')) in
          if ((SIZE_MAX - 8) / 48 <? count) || (UINT32_MAX <? count) then ret (-EOVERFLOW)
          else
            let* ok := allocate in
            if negb ok then ret (-ENOMEM)
            else
              let* vm := load_vm v in
              let* err := ioctl_set_gsi_routing (vm_fd vm)
                (map routing_entry (routing_routes routing')) in
              ret (if err <? 0 then err else 0)
      | _, _ => ret (-EINVAL)
      end
  end.
End Kvm.

(** * What the kernel does

    The interrupt state of one VM: the routing table, which descriptors are tied to which
    GSIs, and the messages that were injected into the guest, in order. *)
Record KvmState := mkKvmState {
  k_routes : list kvm_irq_routing_entry;
  k_irqfds : list (Z * Z);
  k_msis : list (Z * Z);
}.
#[export] Instance KvmState_rebuild : Rebuild KvmState :=
  env_const mkKvmState $* k_routes $* k_irqfds $* k_msis.

Definition entry_message (e : kvm_irq_routing_entry) : Z * Z :=
  (re_address_lo e + 4294967296 * re_address_hi e, re_data e).

(** What a GSI sends, and what signalling a descriptor sends. *)
Definition gsi_messages (s : KvmState) (gsi : Z) : list (Z * Z) :=
  map entry_message (filter (fun e => re_gsi e = gsi) (k_routes s)).
Definition fd_messages (s : KvmState) (fd : Z) : list (Z * Z) :=
  concat (map (fun b => gsi_messages s b.2) (filter (fun b => b.1 = fd) (k_irqfds s))).

(** The documented behaviour of the ioctls and of event descriptors, for the VM with the
    descriptor [vmfd]: a refused call changes nothing, the routing table is replaced as a
    whole, and signalling a descriptor injects the messages of its GSIs.  A write to a
    descriptor in non-blocking mode is not interrupted. *)
Class KvmModel `{KvmHost} (vmfd : Z) (state : World -> KvmState) : Prop := {
  km_frame w w' : w_files w' = w_files w -> state w' = state w;
  km_routing w l : exists err w', ioctl_set_gsi_routing vmfd l w = Ok (err, w') /\
    host_only w w' /\
    state w' = (if err <? 0 then state w else (state w) <| k_routes := l |>);
  km_assign w fd gsi : exists err w',
    ioctl_irqfd vmfd (mkIrqfdRequest fd gsi 0) w = Ok (err, w') /\ host_only w w' /\
    state w' = (if err <? 0 then state w
                else (state w) <| k_irqfds ::= (fun l => l ++ [(fd, gsi)]) |>);
  km_deassign w fd gsi : exists err w',
    ioctl_irqfd vmfd (mkIrqfdRequest fd gsi KVM_IRQFD_FLAG_DEASSIGN) w = Ok (err, w') /\
    host_only w w' /\
    state w' = (if err <? 0 then state w
                else (state w) <| k_irqfds ::= filter (fun b => b <> (fd, gsi)) |>);
  km_write w fd value : exists count w', notifier_write fd value w = Ok (count, w') /\
    host_only w w' /\ (count = 8 \/ count < 0 /\ count <> -EINTR) /\
    state w' = (if count =? 8
                then (state w) <| k_msis ::= (fun l => l ++ fd_messages (state w) fd) |>
                else state w);
  km_signal w msi : exists err w', ioctl_signal_msi vmfd msi w = Ok (err, w') /\
    host_only w w' /\
    state w' = (if err <? 0 then state w
                else (state w) <| k_msis ::= (fun l => l ++
                  [(msi_address_lo msi + 4294967296 * msi_address_hi msi, msi_data msi)]) |>);
  km_close w fd : exists w', close_fd fd w = Ok (tt, w') /\ host_only w w' /\
    state w' = state w;
}.

(** * The routing table as a finite map *)

(** Address, data and device of the message of a GSI. *)
Definition message := (Z * Z * Z)%type.
Definition route_map (l : list VartKvmMsiRoute) : gmap Z message :=
  list_to_map (map (fun x => (route_gsi x,
    (route_address x, route_data x, route_devid x))) l).
Definition entry_map (l : list kvm_irq_routing_entry) : gmap Z message :=
  list_to_map (map (fun e => (re_gsi e,
    ((entry_message e).1, (entry_message e).2, re_devid e))) l).

Inductive routing_op :=
| RAdd (gsi address data devid : Z)
| RRemove (gsi : Z)
| RClear
| RCommit.

Definition op_typed (o : routing_op) : Prop :=
  match o with RAdd _ address _ _ => 0 <= address <= UINT64_MAX | _ => True end.

Definition routing_step `{KvmHost} (r : ptr) (o : routing_op) : M World Z :=
  match o with
  | RAdd gsi address data devid =>
      vart_kvm_irq_routing_add_msi (Some r) gsi address data devid
  | RRemove gsi => vart_kvm_irq_routing_remove_msi (Some r) gsi
  | RClear => vart_kvm_irq_routing_clear (Some r)
  | RCommit => vart_kvm_irq_routing_commit (Some r)
  end.

Fixpoint routing_run `{KvmHost} (r : ptr) (ops : list routing_op) : M World (list Z) :=
  match ops with
  | [] => ret []
  | o :: ops =>
      let* err := routing_step r o in
      let* errs := routing_run r ops in
      ret (err :: errs)
  end.

(** The abstract table: the map of the program and the map in force in the kernel. *)
Inductive spec_step : routing_op -> gmap Z message * gmap Z message -> Z ->
    gmap Z message * gmap Z message -> Prop :=
| spec_add gsi a x d m k :
    m !! gsi = None -> spec_step (RAdd gsi a x d) (m, k) 0 (<[gsi := (a, x, d)]> m, k)
| spec_add_present gsi a x d m k :
    is_Some (m !! gsi) -> spec_step (RAdd gsi a x d) (m, k) (-EEXIST) (m, k)
| spec_add_full gsi a x d m k err :
    m !! gsi = None -> err = -ENOMEM \/ err = -EOVERFLOW ->
    spec_step (RAdd gsi a x d) (m, k) err (m, k)
| spec_remove gsi m k :
    is_Some (m !! gsi) -> spec_step (RRemove gsi) (m, k) 0 (delete gsi m, k)
| spec_remove_absent gsi m k :
    m !! gsi = None -> spec_step (RRemove gsi) (m, k) (-ENOENT) (m, k)
| spec_clear m k : spec_step RClear (m, k) 0 (∅, k)
| spec_commit m k : spec_step RCommit (m, k) 0 (m, m)
| spec_commit_refused m k err : err < 0 -> spec_step RCommit (m, k) err (m, k).

Inductive spec_run : list routing_op -> gmap Z message * gmap Z message -> list Z ->
    gmap Z message * gmap Z message -> Prop :=
| spec_done s : spec_run [] s [] s
| spec_next o ops s1 err s2 errs s3 :
    spec_step o s1 err s2 -> spec_run ops s2 errs s3 ->
    spec_run (o :: ops) s1 (err :: errs) s3.

(** ** Lemmas on the array *)

Definition gsis (l : list VartKvmMsiRoute) : list Z := map route_gsi l.

Lemma route_map_lookup l gsi x :
  NoDup (gsis l) -> route_map l !! gsi = Some x <->
  exists y, y ∈ l /\ route_gsi y = gsi /\ x = (route_address y, route_data y, route_devid y).
Proof.
  intros Hl. unfold route_map. rewrite <- elem_of_list_to_map.
  - rewrite list_elem_of_fmap. split.
    + intros (y & [= -> ->] & Hy). eauto.
    + intros (y & Hy & <- & ->). eauto.
  - rewrite <- list_fmap_compose. exact Hl.
Qed.

Lemma route_map_None l gsi : route_map l !! gsi = None <-> gsi ∉ gsis l.
Proof.
  unfold route_map. rewrite <- not_elem_of_list_to_map, <- list_fmap_compose. done.
Qed.

Lemma route_map_is_Some l gsi : gsi ∈ gsis l -> is_Some (route_map l !! gsi).
Proof. intros Hin. apply not_eq_None_Some. rewrite route_map_None. tauto. Qed.

Lemma existsb_gsi l gsi :
  existsb (fun x => route_gsi x =? gsi) l = bool_decide (gsi ∈ gsis l).
Proof.
  apply eq_true_iff_eq. rewrite existsb_exists, bool_decide_eq_true.
  unfold gsis. rewrite list_elem_of_fmap. setoid_rewrite Z.eqb_eq.
  setoid_rewrite <- list_elem_of_In. naive_solver.
Qed.

Lemma route_map_snoc l x : route_gsi x ∉ gsis l ->
  route_map (l ++ [x]) = <[route_gsi x := (route_address x, route_data x, route_devid x)]> (route_map l).
Proof.
  intros Hx. unfold route_map. rewrite map_app. cbn.
  rewrite list_to_map_snoc; [done|]. rewrite <- list_fmap_compose. exact Hx.
Qed.

Lemma remove_route_spec gsi l : NoDup (gsis l) ->
  match remove_route gsi l with
  | Some l' => gsi ∈ gsis l /\ (gsi ∉ gsis l') /\ NoDup (gsis l') /\ l' ⊆ l /\
      S (length l') = length l /\ route_map l' = delete gsi (route_map l)
  | None => gsi ∉ gsis l
  end.
Proof.
  unfold gsis, route_map. induction l as [|x l IH]; cbn; [set_solver|].
  intros [Hx Hl]%NoDup_cons. destruct (Z.eqb_spec (route_gsi x) gsi) as [<-|Hne].
  - split_and!; [set_solver|done|done|set_solver|done|].
    rewrite delete_insert_eq. symmetry. apply delete_id.
    apply not_elem_of_list_to_map. by rewrite <- list_fmap_compose.
  - specialize (IH Hl). destruct (remove_route gsi l) as [l'|]; [|set_solver].
    destruct IH as (H1 & H2 & H3 & H4 & H5 & H6). cbn. split_and!;
      [set_solver|set_solver| |set_solver|lia|by rewrite H6, delete_insert_ne].
    apply NoDup_cons. split; [|done]. intros Hin. apply Hx.
    apply list_elem_of_fmap in Hin as (y & -> & Hy).
    apply list_elem_of_fmap. exists y. split; [done|by apply H4].
Qed.

Lemma remove_route_snoc l x : route_gsi x ∉ gsis l ->
  remove_route (route_gsi x) (l ++ [x]) = Some l.
Proof.
  unfold gsis. induction l as [|y l IH]; cbn; intros Hx; [by rewrite Z.eqb_refl|].
  destruct (Z.eqb_spec (route_gsi y) (route_gsi x)); [set_solver|].
  rewrite IH; set_solver.
Qed.

(** The kernel's form of a route holds the same message. *)
Lemma entry_message_route x : 0 <= route_address x <= UINT64_MAX ->
  entry_message (routing_entry x) = (route_address x, route_data x).
Proof.
  intros Hx. unfold entry_message, routing_entry. cbn [re_address_lo re_address_hi re_data].
  f_equal. rewrite Z.shiftr_div_pow2 by lia. change (2 ^ 32) with 4294967296. mlia.
Qed.

Lemma entry_map_routes l : Forall (fun x => 0 <= route_address x <= UINT64_MAX) l ->
  entry_map (map routing_entry l) = route_map l.
Proof.
  intros Hl. unfold entry_map, route_map. f_equal. rewrite map_map.
  apply map_ext_Forall. eapply Forall_impl; [exact Hl|]. intros x Hx.
  by rewrite entry_message_route.
Qed.

(** ** The refinement *)

Section Refinement.
Context `{HM : KvmModel} (r : ptr).

(** An initialised table of a VM with the descriptor [vmfd]: the GSIs are distinct and
    the array has room for its elements. *)
Record routing_ok (w : World) (v : VartKvmIrqRouting) : Prop := {
  ro_routing : w_routings w !! r = Some v;
  ro_initialized : routing_initialized v = true;
  ro_vm : exists p vm, routing_vm v = Some p /\ w_vms w !! p = Some vm /\ vm_fd vm = vmfd;
  ro_gsis : NoDup (gsis (routing_routes v));
  ro_capacity : Z.of_nat (length (routing_routes v)) <= routing_capacity v;
  ro_typed : Forall (fun x => 0 <= route_address x <= UINT64_MAX) (routing_routes v);
}.

(** Nothing changed but this table, the host's state and the allocations to come. *)
Definition routing_frame (w w' : World) : Prop :=
  exists l o f, w' = w <| w_routings := l |> <| w_oom := o |> <| w_files := f |> /\
    forall p, p <> r -> l !! p = w_routings w !! p.

Lemma routing_frame_refl w : routing_frame w w.
Proof. exists (w_routings w), (w_oom w), (w_files w). by destruct w. Qed.

Lemma routing_frame_trans w1 w2 w3 :
  routing_frame w1 w2 -> routing_frame w2 w3 -> routing_frame w1 w3.
Proof.
  intros (l1 & o1 & f1 & -> & H1) (l2 & o2 & f2 & -> & H2). exists l2, o2, f2.
  split; [by destruct w1|]. intros p Hp. rewrite H2 by done. by apply H1.
Qed.

Lemma host_frame w w' : host_only w w' -> routing_frame w w'.
Proof.
  intros [f ->]. exists (w_routings w), (w_oom w), f. split; [by destruct w|done].
Qed.

Lemma oom_frame w o : routing_frame w (w <| w_oom := o |>).
Proof. exists (w_routings w), o, (w_files w). split; [by destruct w|done]. Qed.

Lemma store_frame w v : routing_frame w (w <| w_routings ::= <[r := v]> |>).
Proof.
  exists (<[r := v]> (w_routings w)), (w_oom w), (w_files w). split; [by destruct w|].
  intros p Hp. by rewrite lookup_insert_ne.
Qed.

Lemma allocate_step Q w :
  (forall b w', routing_frame w w' -> w_routings w' = w_routings w ->
     w_files w' = w_files w -> w_vms w' = w_vms w -> Q b w') ->
  wp allocate Q w.
Proof.
  intros HQ. apply wp_allocate.
  - intros b rest _. apply HQ; [apply oom_frame|done..].
  - intros _. apply HQ; [apply routing_frame_refl|done..].
Qed.

Lemma routing_ok_store w v v' :
  routing_ok w v -> routing_initialized v' = true -> routing_vm v' = routing_vm v ->
  NoDup (gsis (routing_routes v')) ->
  Z.of_nat (length (routing_routes v')) <= routing_capacity v' ->
  Forall (fun x => 0 <= route_address x <= UINT64_MAX) (routing_routes v') ->
  routing_ok (w <| w_routings ::= <[r := v']> |>) v'.
Proof.
  intros [] Hi Hv. split; try done; [by apply lookup_insert_eq|]. by rewrite Hv.
Qed.

Lemma routing_ok_ext w w' v :
  routing_ok w v -> w_routings w' = w_routings w -> w_vms w' = w_vms w -> routing_ok w' v.
Proof. intros [] Hr Hv. split; try done; by rewrite ?Hr, ?Hv. Qed.

(** Reserving makes room for one element or fails and changes nothing. *)
Lemma routing_reserve_spec w v : routing_ok w v ->
  wp (vart_kvm_irq_routing_reserve r) (fun err w' => routing_frame w w' /\
    w_files w' = w_files w /\
    exists c, routing_ok w' (v <| routing_capacity := c |>) /\
      ((err = -ENOMEM \/ err = -EOVERFLOW) /\ c = routing_capacity v \/
       err = 0 /\ Z.of_nat (length (routing_routes v)) < c)) w.
Proof.
  intros Hok. pose proof Hok as [Hr Hi Hvm Hg Hc Ht].
  unfold vart_kvm_irq_routing_reserve. apply wp_bind. eapply wp_load_routing; [exact Hr|].
  assert (v <| routing_capacity := routing_capacity v |> = v) as Hv by by destruct v.
  destruct (Z.ltb_spec (Z.of_nat (length (routing_routes v))) (routing_capacity v)).
  { wsteps. split_and!; [apply routing_frame_refl|done|]. exists (routing_capacity v).
    rewrite Hv. auto. }
  cbv zeta. destruct (_ || _) eqn:Hbig.
  { wsteps. split_and!; [apply routing_frame_refl|done|]. exists (routing_capacity v).
    rewrite Hv. auto. }
  apply wp_bind, allocate_step. intros b w' Hfr Hr' Hf' Hv'. destruct b; cbn; wsteps.
  - split_and!; [eapply routing_frame_trans; [exact Hfr|apply store_frame]|done|].
    eexists. split.
    + apply (routing_ok_store _ v); try done; [by eapply routing_ok_ext|]. cbn.
      apply orb_false_iff in Hbig as [Hb _]. destruct (Z.eqb_spec (routing_capacity v) 0); lia.
    + right. split; [done|]. apply orb_false_iff in Hbig as [Hb1 Hb2].
      destruct (Z.eqb_spec (routing_capacity v) 0); [lia|]. cbn in *. mlia.
  - split_and!; [done|done|]. exists (routing_capacity v). rewrite Hv.
    split; [by eapply routing_ok_ext|]. auto.
Qed.

(** The table of the program and the one in force in the kernel. *)
Definition abs (w : World) (v : VartKvmIrqRouting) : gmap Z message * gmap Z message :=
  (route_map (routing_routes v), entry_map (k_routes (state w))).

Lemma abs_files w w' v : w_files w' = w_files w -> abs w' v = abs w v.
Proof. intros Hf. unfold abs. by rewrite (km_frame w w' Hf). Qed.

Lemma state_routings w g : state (w <| w_routings ::= g |>) = state w.
Proof. by apply km_frame. Qed.

Definition simulates (w : World) (v : VartKvmIrqRouting) (o : routing_op) (err : Z)
    (w' : World) : Prop :=
  routing_frame w w' /\
  exists v', routing_ok w' v' /\ spec_step o (abs w v) err (abs w' v').

(** Adding a route, on the array. *)
Lemma add_msi_spec w v gsi a x d : routing_ok w v -> 0 <= a <= UINT64_MAX ->
  wp (vart_kvm_irq_routing_add_msi (Some r) gsi a x d) (fun err w' => routing_frame w w' /\
    w_files w' = w_files w /\ exists v', routing_ok w' v' /\ routing_vm v' = routing_vm v /\
    (gsi ∈ gsis (routing_routes v) /\ err = -EEXIST /\ routing_routes v' = routing_routes v \/
     (gsi ∉ gsis (routing_routes v)) /\
       (err = 0 /\ routing_routes v' = routing_routes v ++ [mkMsiRoute gsi a x d] \/
        (err = -ENOMEM \/ err = -EOVERFLOW) /\ routing_routes v' = routing_routes v))) w.
Proof.
  intros Hok Ha. pose proof Hok as [Hr Hi Hvm Hg Hc Ht].
  unfold vart_kvm_irq_routing_add_msi. apply wp_bind. eapply wp_load_routing; [exact Hr|].
  rewrite Hi. cbn [negb]. rewrite existsb_gsi. case_bool_decide as Hin.
  { wsteps. split_and!; [apply routing_frame_refl|done|]. exists v. split_and!; [done|done|].
    by left. }
  apply wp_bind. eapply wp_mono; [by apply routing_reserve_spec|].
  intros err w1 (Hfr & Hf & c & Hok1 & [[Herr ->]|[-> Hlen]]).
  { replace (err <? 0) with true by lia. wsteps. split_and!; [done|done|]. eexists.
    split_and!; [exact Hok1|done|]. right. split; [done|]. by right. }
  apply wp_bind. eapply wp_load_routing; [exact (ro_routing _ _ Hok1)|]. wsteps.
  split_and!; [eapply routing_frame_trans; [exact Hfr|apply store_frame]|done|].
  exists (v <| routing_capacity := c |> <| routing_routes ::=
    (fun l => l ++ [mkMsiRoute gsi a x d]) |>).
  split_and!; [|done|right; split; [done|left; split; [done|reflexivity]]].
  apply (routing_ok_store _ _ _ Hok1); [done|done|..]; cbn.
  - unfold gsis. rewrite map_app. apply NoDup_app. split_and!; [done| |].
    + intros y Hy ->%list_elem_of_singleton. done.
    + apply NoDup_singleton.
  - rewrite length_app. cbn. lia.
  - apply Forall_app. split; [done|]. by constructor.
Qed.

Lemma add_msi_simulates w v gsi a x d : routing_ok w v -> 0 <= a <= UINT64_MAX ->
  wp (vart_kvm_irq_routing_add_msi (Some r) gsi a x d)
    (simulates w v (RAdd gsi a x d)) w.
Proof.
  intros Hok Ha. eapply wp_mono; [by apply add_msi_spec|].
  intros err w' (Hfr & Hf & v' & Hok' & _ & Hcase). split; [done|]. exists v'.
  split; [done|]. rewrite (abs_files w _ v') by done. unfold abs.
  destruct Hcase as [(Hin & -> & ->)|(Hin & [(-> & ->)|(Herr & ->)])].
  - apply spec_add_present. by apply route_map_is_Some.
  - rewrite route_map_snoc by done. apply spec_add. by apply route_map_None.
  - apply spec_add_full; [by apply route_map_None|done].
Qed.

(** Removing a route, on the array. *)
Lemma remove_msi_spec w v gsi : routing_ok w v ->
  wp (vart_kvm_irq_routing_remove_msi (Some r) gsi) (fun err w' => routing_frame w w' /\
    w_files w' = w_files w /\ exists v', routing_ok w' v' /\ routing_vm v' = routing_vm v /\
    match remove_route gsi (routing_routes v) with
    | Some l => err = 0 /\ routing_routes v' = l
    | None => err = -ENOENT /\ routing_routes v' = routing_routes v
    end) w.
Proof.
  intros Hok. pose proof Hok as [Hr Hi Hvm Hg Hc Ht].
  unfold vart_kvm_irq_routing_remove_msi. apply wp_bind. eapply wp_load_routing; [exact Hr|].
  rewrite Hi. cbn [negb]. pose proof (remove_route_spec gsi _ Hg) as Hrm.
  destruct (remove_route gsi (routing_routes v)) as [l|]; wsteps.
  - destruct Hrm as (Hin & _ & Hnd & Hsub & Hlen & Hmap).
    split_and!; [apply store_frame|done|]. exists (v <| routing_routes := l |>).
    split_and!; [|done|done|reflexivity].
    apply (routing_ok_store _ _ _ Hok); [done..|cbn; lia|].
    cbn. rewrite Forall_forall in *. auto.
  - split_and!; [apply routing_frame_refl|done|]. by exists v.
Qed.

Lemma remove_msi_simulates w v gsi : routing_ok w v ->
  wp (vart_kvm_irq_routing_remove_msi (Some r) gsi) (simulates w v (RRemove gsi)) w.
Proof.
  intros Hok. pose proof (remove_route_spec gsi _ (ro_gsis _ _ Hok)) as Hrm.
  eapply wp_mono; [by apply remove_msi_spec|].
  intros err w' (Hfr & Hf & v' & Hok' & _ & Hcase). split; [done|]. exists v'.
  split; [done|]. rewrite (abs_files w _ v') by done. unfold abs.
  destruct (remove_route gsi (routing_routes v)); destruct Hcase as [-> ->].
  - destruct Hrm as (Hin & _ & _ & _ & _ & ->). apply spec_remove.
    by apply route_map_is_Some.
  - apply spec_remove_absent. by apply route_map_None.
Qed.

Lemma clear_simulates w v : routing_ok w v ->
  wp (vart_kvm_irq_routing_clear (Some r)) (simulates w v RClear) w.
Proof.
  intros Hok. pose proof Hok as [Hr Hi Hvm Hg Hc Ht].
  unfold vart_kvm_irq_routing_clear. apply wp_bind. eapply wp_load_routing; [exact Hr|].
  rewrite Hi. wsteps. split; [apply store_frame|]. eexists. split.
  - apply (routing_ok_store _ _ _ Hok); cbn; [done|done|constructor|lia|constructor].
  - unfold abs. rewrite state_routings. apply spec_clear.
Qed.

(** What a commit does, with the kernel's table in its own form. *)
Lemma commit_spec w v : routing_ok w v ->
  wp (vart_kvm_irq_routing_commit (Some r)) (fun err w' => routing_frame w w' /\
    routing_ok w' v /\
    (err < 0 /\ state w' = state w \/
     err = 0 /\ state w' = (state w) <| k_routes := map routing_entry (routing_routes v) |>)) w.
Proof.
  intros Hok. pose proof Hok as [Hr Hi (p & vm & Hp & Hvm & Hfd) Hg Hc Ht].
  unfold vart_kvm_irq_routing_commit. apply wp_bind. eapply wp_load_routing; [exact Hr|].
  rewrite Hi, Hp. cbv zeta. destruct (_ || _).
  { wsteps. split_and!; [apply routing_frame_refl|done|]. left. done. }
  apply wp_bind, allocate_step. intros b w1 Hfr1 Hr1 Hf1 Hv1. destruct b; cbn.
  2: { wsteps. split_and!; [done|by eapply routing_ok_ext|]. left. split; [lia|].
       by apply km_frame. }
  apply wp_bind. eapply wp_load_vm; [by rewrite Hv1|]. rewrite Hfd.
  destruct (km_routing w1 (map routing_entry (routing_routes v)))
    as (err & w2 & E & Hho & Hst). apply wp_bind, wp_ok. exists err, w2. split; [exact E|].
  wsteps. assert (state w1 = state w) as Hs1 by by apply km_frame.
  rewrite Hs1 in Hst.
  split; [eapply routing_frame_trans; [exact Hfr1|by apply host_frame]|].
  destruct Hho as [f ->]. split; [by eapply routing_ok_ext|].
  destruct (Z.ltb_spec err 0); auto.
Qed.

Lemma commit_simulates w v : routing_ok w v ->
  wp (vart_kvm_irq_routing_commit (Some r)) (simulates w v RCommit) w.
Proof.
  intros Hok. eapply wp_mono; [by apply commit_spec|].
  intros err w' (Hfr & Hok' & [[Herr Hst]|[-> Hst]]); (split; [done|]); exists v;
    (split; [done|]); unfold abs; rewrite Hst.
  - by apply spec_commit_refused.
  - change (k_routes (update k_routes _ _)) with (map routing_entry (routing_routes v)).
    rewrite entry_map_routes by apply Hok. apply spec_commit.
Qed.

Lemma routing_step_simulates w v o : routing_ok w v -> op_typed o ->
  wp (routing_step r o) (simulates w v o) w.
Proof.
  intros Hok Ho. destruct o; cbn.
  - by apply add_msi_simulates.
  - by apply remove_msi_simulates.
  - by apply clear_simulates.
  - by apply commit_simulates.
Qed.
End Refinement.

(** C28. Every sequence of additions, removals, clearings and commits on a routing table
    returns, and its results and effects are those of a finite map from GSIs to messages:
    an added GSI must be new, a removed one present, a failed call changes nothing, and
    the map in force in the kernel is the one of the last commit it accepted. *)
Theorem routing_refines_map `{HM : KvmModel} r ops w v :
  routing_ok r (vmfd := vmfd) w v -> Forall op_typed ops ->
  exists errs w' v', routing_run r ops w = Ok (errs, w') /\
    routing_ok r (vmfd := vmfd) w' v' /\
    spec_run ops (abs (state := state) w v) errs (abs (state := state) w' v').
Proof.
  intros Hok Hops. revert w v Hok. induction Hops as [|o ops Ho Hops IH]; intros w v Hok.
  { exists [], w, v. split_and!; [done|done|constructor]. }
  destruct (proj1 (wp_ok _ _ _) (routing_step_simulates r w v o Hok Ho))
    as (err & w1 & E & _ & v1 & Hok1 & Hs1).
  destruct (IH w1 v1 Hok1) as (errs & w' & v' & E' & Hok' & Hs').
  exists (err :: errs), w', v'. split_and!; [|done|by econstructor].
  cbn. rewrite (bind_eq _ _ _ _ _ E). by rewrite (bind_eq _ _ _ _ _ E').
Qed.

(** * A concrete kernel

    It accepts every call and keeps its state, in numbers, in the host's files 1 to 3;
    file 4 counts the event descriptors. *)
Module KvmDemo.
Fixpoint read_entries (l : list Z) : list kvm_irq_routing_entry :=
  match l with
  | a :: b :: c :: d :: e :: f :: l => mkRoutingEntry a b c d e f :: read_entries l
  | _ => []
  end.
Definition write_entries (l : list kvm_irq_routing_entry) : list Z :=
  concat (map (fun e => [re_gsi e; re_type e; re_address_lo e; re_address_hi e; re_data e;
                         re_devid e]) l).
Fixpoint read_pairs (l : list Z) : list (Z * Z) :=
  match l with a :: b :: l => (a, b) :: read_pairs l | _ => [] end.
Definition write_pairs (l : list (Z * Z)) : list Z := concat (map (fun p => [p.1; p.2]) l).

Lemma read_write_entries l : read_entries (write_entries l) = l.
Proof. induction l as [|[] l IH]; [done|]. cbn. f_equal. exact IH. Qed.
Lemma read_write_pairs l : read_pairs (write_pairs l) = l.
Proof. induction l as [|[] l IH]; [done|]. cbn. f_equal. exact IH. Qed.

Definition file (w : World) (n : Z) : list Z := default [] (w_files w !! n).
Definition state (w : World) : KvmState :=
  mkKvmState (read_entries (file w 1)) (read_pairs (file w 2)) (read_pairs (file w 3)).
Definition set_state (s : KvmState) (w : World) : World :=
  w <| w_files ::= (fun f => <[1 := write_entries (k_routes s)]>
    (<[2 := write_pairs (k_irqfds s)]> (<[3 := write_pairs (k_msis s)]> f))) |>.
Definition change_state (f : KvmState -> KvmState) : M World unit :=
  modify (fun w => set_state (f (state w)) w).

Lemma state_set s w : state (set_state s w) = s.
Proof.
  unfold state, set_state, file. cbn. rewrite lookup_insert_eq.
  rewrite lookup_insert_ne, lookup_insert_eq by done.
  rewrite !lookup_insert_ne, lookup_insert_eq by done. cbn.
  rewrite read_write_entries, !read_write_pairs. by destruct s.
Qed.

#[export] Instance host : KvmHost := {|
  ioctl_set_gsi_routing _ l := change_state (fun s => s <| k_routes := l |>) ;;; ret 0;
  ioctl_irqfd _ q := change_state (fun s => s <| k_irqfds ::= (fun l =>
    if if_flags q =? 0 then l ++ [(if_fd q, if_gsi q)]
    else filter (fun b => b <> (if_fd q, if_gsi q)) l) |>) ;;; ret 0;
  ioctl_ioeventfd _ _ := ret 0;
  ioctl_signal_msi _ m := change_state (fun s => s <| k_msis ::= (fun l => l ++
    [(msi_address_lo m + 4294967296 * msi_address_hi m, msi_data m)]) |>) ;;; ret 0;
  ioctl_irq_line _ _ _ := ret 0;
  ioctl_create_device _ _ := ret (0, 40);
  ioctl_device_attr _ _ _ _ v := ret (0, v);
  notifier_eventfd :=
    let* w := get in
    put (w <| w_files ::= <[4 := 1 :: file w 4]> |>) ;;;
    ret (20 + Z.of_nat (length (file w 4)));
  notifier_write fd _ :=
    change_state (fun s => s <| k_msis ::= (fun l => l ++ fd_messages s fd) |>) ;;; ret 8;
  notifier_read _ := ret (8, 1);
  close_fd _ := ret tt;
|}.

Lemma set_state_host s w : host_only w (set_state s w).
Proof. by eexists. Qed.
Lemma same_host w : host_only w w.
Proof. exists (w_files w). by destruct w. Qed.

#[export] Instance model : KvmModel 5 state.
Proof.
  split.
  - intros w w' Hf. unfold state, file. by rewrite Hf.
  - intros w l. eexists 0, _. split; [reflexivity|]. split; [apply set_state_host|].
    apply state_set.
  - intros w fd gsi. eexists 0, _. split; [reflexivity|]. split; [apply set_state_host|].
    apply state_set.
  - intros w fd gsi. eexists 0, _. split; [reflexivity|]. split; [apply set_state_host|].
    apply state_set.
  - intros w fd value. eexists 8, _. split; [reflexivity|]. split; [apply set_state_host|].
    split; [by left|]. apply state_set.
  - intros w msi. eexists 0, _. split; [reflexivity|]. split; [apply set_state_host|].
    apply state_set.
  - intros w fd. exists w. split_and!; [done|apply same_host|done].
Qed.

Definition vm : ptr := 1%positive.
Definition kvm : ptr := 1%positive.
Definition table : ptr := 1%positive.
Definition k0 : World := empty_world
  <| w_kvms := {[kvm := mkKvm 3 12 12288 4 8 true true true true true true true true true]} |>
  <| w_vms := {[vm := mkVm (Some kvm) 5 None false]} |>
  <| w_routings := {[table := mkRouting (Some vm) [] 0 true]} |>.

Lemma k0_routing : routing_ok table (vmfd := 5) k0 (mkRouting (Some vm) [] 0 true).
Proof.
  split; [reflexivity|reflexivity| |constructor|cbn; lia|constructor].
  exists vm. eexists. split_and!; reflexivity.
Qed.

Definition ops : list routing_op :=
  [RAdd 32 0x28000000 1 0; RAdd 32 0x28000000 2 0; RAdd 33 0x28001000 2 0; RCommit;
   RRemove 32; RRemove 40; RCommit].

(** Two routes are added (the second time the GSI 32 is taken), committed, and one is
    taken out again. *)
Lemma routing_refines_map_witness :
  exists errs w' v', routing_run table ops k0 = Ok (errs, w') /\
    routing_ok table (vmfd := 5) w' v' /\
    spec_run ops (abs (state := state) k0 (mkRouting (Some vm) [] 0 true)) errs
      (abs (state := state) w' v').
Proof.
  apply (routing_refines_map table ops k0 _ k0_routing).
  repeat constructor; cbn; lia.
Defined.

Example routing_results :
  exists w', routing_run table ops k0 = Ok ([0; -EEXIST; 0; 0; 0; -ENOENT; 0], w') /\
    k_routes (state w') = [mkRoutingEntry 33 2 0x28001000 0 2 0].
Proof. eexists. split; vm_compute; reflexivity. Qed.
End KvmDemo.
