(* ===== verification/Aia.v ===== *)
(** The interrupt controller: [src/arch/riscv/riscv-aia.c] and the MSI-X delivery to it,
    [src/hw/pci/pci-msix-aia.c].

    The controller lives in the kernel and is set up through device attributes; every hart
    has an interrupt file, a page to which a message writes the number of an interrupt.
    The theorems give the attributes that set-up writes and say which hart an MSI-X
    message reaches. *)

From Stdlib Require Import ZArith Lia.
From stdpp Require Import base tactics numbers list gmap.
From S2P Require Import Prelude Bytes Machine AddressSpace Iommu Devices Msix EventLoop KvmIrq.

Abbreviation KVM_DEV_TYPE_RISCV_AIA := 11 (only parsing).
Abbreviation KVM_DEV_RISCV_APLIC_ALIGN := 0x1000 (only parsing).
Abbreviation KVM_DEV_RISCV_APLIC_MAX_HARTS := 0x4000 (only parsing).
Abbreviation KVM_DEV_RISCV_IMSIC_ALIGN := 0x1000 (only parsing).
Abbreviation KVM_DEV_RISCV_IMSIC_SIZE := 0x1000 (only parsing).
Abbreviation KVM_DEV_RISCV_AIA_GRP_CONFIG := 0 (only parsing).
Abbreviation KVM_DEV_RISCV_AIA_CONFIG_MODE := 0 (only parsing).
Abbreviation KVM_DEV_RISCV_AIA_CONFIG_IDS := 1 (only parsing).
Abbreviation KVM_DEV_RISCV_AIA_CONFIG_SRCS := 2 (only parsing).
Abbreviation KVM_DEV_RISCV_AIA_CONFIG_HART_BITS := 5 (only parsing).
Abbreviation KVM_DEV_RISCV_AIA_CONFIG_GUEST_BITS := 6 (only parsing).
Abbreviation KVM_DEV_RISCV_AIA_MODE_AUTO := 2 (only parsing).
Abbreviation KVM_DEV_RISCV_AIA_IDS_MIN := 63 (only parsing).
Abbreviation KVM_DEV_RISCV_AIA_IDS_MAX := 2048 (only parsing).
Abbreviation KVM_DEV_RISCV_AIA_SRCS_MAX := 1024 (only parsing).
Abbreviation KVM_DEV_RISCV_AIA_GRP_ADDR := 1 (only parsing).
Abbreviation KVM_DEV_RISCV_AIA_ADDR_APLIC := 0 (only parsing).
Abbreviation KVM_DEV_RISCV_AIA_GRP_CTRL := 2 (only parsing).
Abbreviation KVM_DEV_RISCV_AIA_CTRL_INIT := 0 (only parsing).
Definition KVM_DEV_RISCV_AIA_ADDR_IMSIC (i : Z) : Z := 1 + i.

Definition zero_aia : VartRiscvAia := mkAia zero_kvm_device 0 0 0 0 0 0 false.

(** * [src/arch/riscv/riscv-aia.c] *)

Fixpoint hart_bits_loop (fuel : nat) (max_index bits : Z) : Z :=
  match fuel with
  | O => bits
  | S fuel => if max_index =? 0 then bits
              else hart_bits_loop fuel (Z.shiftr max_index 1) (bits + 1)
  end.
Definition hart_bits_for_count (count : Z) : Z := hart_bits_loop 64 (count - 1) 0.

Definition aia_init_invalid (v : VartRiscvAia) (vcpu_count imsic_base nr_ids aplic_base
    nr_sources : Z) : bool :=
  (kd_fd (aia_device v) <? 0) || aia_initialized v ||
  (vcpu_count =? 0) || (KVM_DEV_RISCV_APLIC_MAX_HARTS <? vcpu_count) ||
  (nr_ids <? KVM_DEV_RISCV_AIA_IDS_MIN) || (KVM_DEV_RISCV_AIA_IDS_MAX <=? nr_ids) ||
  negb (Z.land nr_ids KVM_DEV_RISCV_AIA_IDS_MIN =? KVM_DEV_RISCV_AIA_IDS_MIN) ||
  negb (imsic_base mod KVM_DEV_RISCV_IMSIC_ALIGN =? 0) ||
  (negb (nr_sources =? 0) &&
    ((KVM_DEV_RISCV_AIA_SRCS_MAX <=? nr_sources) ||
     negb (aplic_base mod KVM_DEV_RISCV_APLIC_ALIGN =? 0))) ||
  ((UINT64_MAX - imsic_base) / KVM_DEV_RISCV_IMSIC_SIZE <? vcpu_count - 1).

Section Aia.
Context `{KvmHost}.

Definition vart_riscv_aia_destroy (aia : option ptr) : M World unit :=
  match aia with
  | None => ret tt
  | Some a =>
      let* v := load_aia a in
      let* device := vart_kvm_device_destroy (aia_device v) in
      store_aia a (zero_aia <| aia_device := device |>)
  end.

(** [fail:] *)
Definition aia_create_fail (a : ptr) (err : Z) : M World Z :=
  vart_riscv_aia_destroy (Some a) ;;; ret err.

Definition vart_riscv_aia_create (aia vm : option ptr) (mode : Z) : M World Z :=
  match aia, vm with
  | Some a, Some _ =>
      if KVM_DEV_RISCV_AIA_MODE_AUTO <? mode then ret (-EINVAL)
      else
        let v := zero_aia <| aia_device ::= (fun d => d <| kd_fd := -1 |>) |> in
        store_aia a v ;;;
        let* (err, device) := vart_kvm_device_create (aia_device v) vm KVM_DEV_TYPE_RISCV_AIA in
        store_aia a (v <| aia_device := device |>) ;;;
        if err <? 0 then ret err
        else
          let* err := vart_kvm_device_has_attr device KVM_DEV_RISCV_AIA_GRP_CONFIG
                        KVM_DEV_RISCV_AIA_CONFIG_MODE in
          if err <? 0 then aia_create_fail a err
          else
            let* err := vart_kvm_device_set_attr device KVM_DEV_RISCV_AIA_GRP_CONFIG
                          KVM_DEV_RISCV_AIA_CONFIG_MODE (Some mode) in
            if err <? 0 then aia_create_fail a err
            else
              let* (err, value) := vart_kvm_device_get_attr device
                KVM_DEV_RISCV_AIA_GRP_CONFIG KVM_DEV_RISCV_AIA_CONFIG_MODE (Some 0) in
              let* v := load_aia a in
              store_aia a (v <| aia_mode := default 0 value |>) ;;;
              if err <? 0 then aia_create_fail a err else ret 0
  | _, _ => ret (-EINVAL)
  end.

(** A call that is made only while no error has occurred. *)
Definition unless (err : Z) (call : M World Z) : M World Z :=
  if err =? 0 then call else ret err.

(** The loop over the harts from [i] on. *)
Fixpoint set_imsic_loop (device : VartKvmDevice) (n : nat) (imsic_base i err : Z)
    : M World Z :=
  match n with
  | O => ret err
  | S n =>
      if negb (err =? 0) then ret err
      else
        let address := u64 (imsic_base + i * KVM_DEV_RISCV_IMSIC_SIZE) in
        let* err := vart_kvm_device_set_attr device KVM_DEV_RISCV_AIA_GRP_ADDR
          (KVM_DEV_RISCV_AIA_ADDR_IMSIC i) (Some address) in
        set_imsic_loop device n imsic_base (i + 1) err
  end.

Definition riscv_aia_init (aia : option ptr) (vcpu_count imsic_base nr_ids aplic_base
    nr_sources : Z) : M World Z :=
  match aia with
  | None => ret (-EINVAL)
  | Some a =>
      let* v := load_aia a in
      if aia_init_invalid v vcpu_count imsic_base nr_ids aplic_base nr_sources
      then ret (-EINVAL)
      else
        let device := aia_device v in
        let set := vart_kvm_device_set_attr device in
        let hart_bits := hart_bits_for_count vcpu_count in
        let* err := if nr_sources =? 0 then ret 0
                    else set KVM_DEV_RISCV_AIA_GRP_CONFIG KVM_DEV_RISCV_AIA_CONFIG_SRCS
                           (Some nr_sources) in
        let* err := if nr_sources =? 0 then ret err
                    else unless err (set KVM_DEV_RISCV_AIA_GRP_ADDR
                           KVM_DEV_RISCV_AIA_ADDR_APLIC (Some aplic_base)) in
        let* err := unless err (set KVM_DEV_RISCV_AIA_GRP_CONFIG
                                  KVM_DEV_RISCV_AIA_CONFIG_IDS (Some nr_ids)) in
        let* err := unless err (set KVM_DEV_RISCV_AIA_GRP_CONFIG
                                  KVM_DEV_RISCV_AIA_CONFIG_GUEST_BITS (Some 0)) in
        let* err := set_imsic_loop device (Z.to_nat vcpu_count) imsic_base 0 err in
        let* err := unless err (set KVM_DEV_RISCV_AIA_GRP_CONFIG
                                  KVM_DEV_RISCV_AIA_CONFIG_HART_BITS (Some hart_bits)) in
        let* err := unless err (set KVM_DEV_RISCV_AIA_GRP_CTRL
                                  KVM_DEV_RISCV_AIA_CTRL_INIT None) in
        if err <? 0 then ret err
        else
          store_aia a (mkAia device (aia_mode v) nr_ids nr_sources vcpu_count imsic_base
                         aplic_base true) ;;;
          ret 0
  end.

Definition vart_riscv_aia_init_imsic (aia : option ptr) (vcpu_count imsic_base nr_ids : Z)
    : M World Z := riscv_aia_init aia vcpu_count imsic_base nr_ids 0 0.

Definition vart_riscv_aia_init_aplic (aia : option ptr) (vcpu_count imsic_base nr_ids
    aplic_base nr_sources : Z) : M World Z :=
  if nr_sources =? 0 then ret (-EINVAL)
  else riscv_aia_init aia vcpu_count imsic_base nr_ids aplic_base nr_sources.

Definition vart_riscv_aia_signal_msi (aia : option ptr) (vcpu_index interrupt_id : Z)
    : M World Z :=
  match aia with
  | None => ret (-EINVAL)
  | Some a =>
      let* v := load_aia a in
      if negb (aia_initialized v) || (aia_vcpu_count v <=? vcpu_index) ||
         (interrupt_id =? 0) || (aia_nr_ids v <? interrupt_id)
      then ret (-EINVAL)
      else
        let address := u64 (aia_imsic_base v + vcpu_index * KVM_DEV_RISCV_IMSIC_SIZE) in
        let* p := deref (kd_vm (aia_device v)) in
        let* vm := load_vm p in
        let* err := ioctl_signal_msi (vm_fd vm)
          (mkMsi (u32 address) (u32 (Z.shiftr address 32)) interrupt_id) in
        ret (if err <? 0 then err else 0)
  end.

Definition vart_riscv_aia_set_irq (aia : option ptr) (irq : Z) (level : bool) : M World Z :=
  match aia with
  | None => ret (-EINVAL)
  | Some a =>
      let* v := load_aia a in
      if negb (aia_initialized v) || (aia_nr_sources v =? 0) || (irq =? 0) ||
         (aia_nr_sources v <? irq)
      then ret (-EINVAL)
      else
        let* p := deref (kd_vm (aia_device v)) in
        let* vm := load_vm p in
        let* err := ioctl_irq_line (vm_fd vm) irq level in
        ret (if err <? 0 then err else 0)
  end.

Definition vart_riscv_aia_pulse_irq (aia : option ptr) (irq : Z) : M World Z :=
  let* err := vart_riscv_aia_set_irq aia irq true in
  if err <? 0 then ret err else vart_riscv_aia_set_irq aia irq false.

Definition riscv_aia_irq_set (opaque : option ptr) (source : Z) (level : bool) : M World Z :=
  vart_riscv_aia_set_irq opaque source level.

Definition vart_riscv_aia_connect_irq (aia irq : option ptr) (source : Z) : M World Z :=
  match aia with
  | None => ret (-EINVAL)
  | Some a =>
      let* v := load_aia a in
      if negb (aia_initialized v) || (aia_nr_sources v =? 0) || (source =? 0) ||
         (aia_nr_sources v <? source)
      then ret (-EINVAL)
      else vart_irq_init irq (Some fn_riscv_aia_irq_set) aia source
  end.

(** * [src/hw/pci/pci-msix-aia.c] *)

Section Inject.
Context `{MsixCallbacks}.

Definition msix_load_le (table : list Z) (offset size : Z) : M World Z :=
  config_load_le table offset size.

(** The hart of the interrupt file at [address]. *)
Definition signal_address (a : ptr) (address interrupt_id : Z) : M World Z :=
  let* aia := load_aia a in
  if address <? aia_imsic_base aia then ret (-EINVAL)
  else
    let offset := address - aia_imsic_base aia in
    if negb (offset mod KVM_DEV_RISCV_IMSIC_SIZE =? 0) then ret (-EINVAL)
    else
      let vcpu_index := offset / KVM_DEV_RISCV_IMSIC_SIZE in
      if aia_vcpu_count aia <=? vcpu_index then ret (-EINVAL)
      else vart_riscv_aia_signal_msi (Some a) vcpu_index interrupt_id.

Definition pci_msix_aia_inject (device : ptr) (vector : Z) (opaque : option ptr)
    : M World Z :=
  match opaque with
  | None => ret (-EINVAL)
  | Some a =>
      let* aia := load_aia a in
      let* msix := load_msix device in
      if negb (aia_initialized aia) || (msix_vector_count msix <=? vector)
      then ret (-EINVAL)
      else
        let* address := msix_load_le (msix_table msix) (vector * 16) 8 in
        let* interrupt_id := msix_load_le (msix_table msix) (vector * 16 + 8) 4 in
        let* (err, address, interrupt_id) :=
          vart_pci_device_remap_msix_message (Some device) vector address interrupt_id in
        if err <? 0 then ret (-EACCES) else signal_address a address interrupt_id
  end.

Definition vart_pci_device_connect_msix_aia (device aia : option ptr) : M World Z :=
  match aia with
  | None => ret (-EINVAL)
  | Some a =>
      let* v := load_aia a in
      if negb (aia_initialized v) then ret (-EINVAL)
      else vart_pci_device_set_msix_injector device (Some fn_pci_msix_aia_inject) aia
  end.
End Inject.
End Aia.

(** * Set-up of the controller *)

(** An attribute that was set: group, attribute and value. *)
Definition attribute := (Z * Z * option Z)%type.

(** The kernel records the attributes that it accepts; a refused one changes nothing. *)
Class AttrModel `{KvmHost} (fd : Z) (attrs : World -> list attribute) : Prop := {
  am_frame w w' : w_files w' = w_files w -> attrs w' = attrs w;
  am_set w group attr value : exists err value' w',
    ioctl_device_attr fd KVM_SET_DEVICE_ATTR group attr value w = Ok ((err, value'), w') /\
    host_only w w' /\
    attrs w' = (if err <? 0 then attrs w else attrs w ++ [(group, attr, value)]);
}.

Definition imsic_attr (imsic_base : Z) (i : Z) : attribute :=
  (KVM_DEV_RISCV_AIA_GRP_ADDR, KVM_DEV_RISCV_AIA_ADDR_IMSIC i,
   Some (imsic_base + i * KVM_DEV_RISCV_IMSIC_SIZE)).

(** The number of bits that count the harts. *)
Definition hart_bits (count : Z) : Z := Z.log2_up count.

Definition aplic_attrs (aplic_base nr_sources : Z) : list attribute :=
  if nr_sources =? 0 then []
  else [(KVM_DEV_RISCV_AIA_GRP_CONFIG, KVM_DEV_RISCV_AIA_CONFIG_SRCS, Some nr_sources);
        (KVM_DEV_RISCV_AIA_GRP_ADDR, KVM_DEV_RISCV_AIA_ADDR_APLIC, Some aplic_base)].

(** The attributes of a controller, in the order in which they have to be set. *)
Definition aia_program (count imsic_base nr_ids aplic_base nr_sources : Z) : list attribute :=
  aplic_attrs aplic_base nr_sources ++
  [(KVM_DEV_RISCV_AIA_GRP_CONFIG, KVM_DEV_RISCV_AIA_CONFIG_IDS, Some nr_ids);
   (KVM_DEV_RISCV_AIA_GRP_CONFIG, KVM_DEV_RISCV_AIA_CONFIG_GUEST_BITS, Some 0)] ++
  map (imsic_attr imsic_base) (seqZ 0 count) ++
  [(KVM_DEV_RISCV_AIA_GRP_CONFIG, KVM_DEV_RISCV_AIA_CONFIG_HART_BITS, Some (hart_bits count));
   (KVM_DEV_RISCV_AIA_GRP_CTRL, KVM_DEV_RISCV_AIA_CTRL_INIT, None)].

Lemma hart_bits_loop_eq n : forall m b, 0 <= m < 2 ^ Z.of_nat n ->
  hart_bits_loop n m b = b + (if m =? 0 then 0 else Z.log2 m + 1).
Proof.
  induction n as [|n IH]; intros m b Hm; [cbn in *; replace m with 0 by lia; cbn; lia|].
  cbn [hart_bits_loop]. destruct (Z.eqb_spec m 0) as [->|Hne]; [lia|].
  rewrite Nat2Z.inj_succ, Z.pow_succ_r in Hm by lia.
  rewrite Z.shiftr_div_pow2 by lia. change (2 ^ 1) with 2. rewrite IH.
  - destruct (Z.eqb_spec (m / 2) 0) as [H0|H0].
    + assert (m = 1) as -> by (Z.to_euclidean_division_equations; lia). cbn. lia.
    + replace (m / 2) with (Z.shiftr m 1) by (by rewrite Z.shiftr_div_pow2).
      rewrite Z.log2_shiftr by lia.
      assert (1 <= Z.log2 m) by (apply Z.log2_le_pow2; Z.to_euclidean_division_equations; lia).
      lia.
  - Z.to_euclidean_division_equations; lia.
Qed.

Lemma hart_bits_for_count_eq count : 0 < count < 2 ^ 64 ->
  hart_bits_for_count count = hart_bits count.
Proof.
  intros Hc. unfold hart_bits_for_count, hart_bits. rewrite hart_bits_loop_eq by lia.
  destruct (Z.eqb_spec (count - 1) 0) as [H|H].
  - assert (count = 1) as -> by lia. done.
  - rewrite Z.log2_up_eqn by lia. rewrite <- Z.sub_1_r. lia.
Qed.

Section Setup.
Context `{HA : AttrModel}.

(** Set the attributes of [l] until one is refused. *)
Definition sets (l : list attribute) (w : World) (err : Z) (w' : World) : Prop :=
  host_only w w' /\
  (err = 0 /\ attrs w' = attrs w ++ l \/
   err < 0 /\ exists k, (k < length l)%nat /\ attrs w' = attrs w ++ take k l).

Lemma sets_nil w : sets [] w 0 w.
Proof. split; [apply host_only_refl|]. left. by rewrite app_nil_r. Qed.

Lemma sets_app l1 l2 w1 e1 w2 e2 w3 :
  sets l1 w1 e1 w2 ->
  (if e1 =? 0 then sets l2 w2 e2 w3 else e2 = e1 /\ w3 = w2) ->
  sets (l1 ++ l2) w1 e2 w3.
Proof.
  intros [Hh1 [[-> H1]|(He1 & k & Hk & H1)]].
  - intros [Hh2 H2]. split; [by eapply host_only_trans|].
    destruct H2 as [[-> H2]|(He2 & k & Hk & H2)].
    + left. rewrite H2, H1. by rewrite app_assoc.
    + right. split; [done|]. exists (length l1 + k)%nat. rewrite length_app. split; [lia|].
      rewrite H2, H1, <- app_assoc, take_app_add. done.
  - replace (e1 =? 0) with false by lia. intros [-> ->]. split; [done|]. right.
    split; [done|]. exists k. rewrite length_app. split; [lia|].
    by rewrite H1, take_app_le by lia.
Qed.

Lemma set_attr_sets device group attr value w : kd_fd device = fd -> 0 <= fd ->
  wp (vart_kvm_device_set_attr device group attr value) (sets [(group, attr, value)] w) w.
Proof.
  intros Hfd Hpos. unfold vart_kvm_device_set_attr, device_attr_ioctl.
  rewrite Hfd. replace (fd <? 0) with false by lia.
  destruct (am_set w group attr value) as (err & value' & w' & E & Hh & Ha).
  apply wp_bind, wp_bind, wp_ok. exists (err, value'), w'. split; [exact E|]. cbv iota.
  destruct (Z.ltb_spec err 0); wsteps; (split; [done|]).
  - right. split; [done|]. exists 0%nat. cbn. split; [lia|]. by rewrite Ha, app_nil_r.
  - left. done.
Qed.

(** One more attribute after those of [l]. *)
Lemma unless_sets l a err w w1 call :
  sets l w err w1 -> (forall w1, wp call (sets [a] w1) w1) ->
  wp (unless err call) (sets (l ++ [a]) w) w1.
Proof.
  intros Hl Hcall. unfold unless. destruct (Z.eqb_spec err 0) as [->|Hne].
  - eapply wp_mono; [apply Hcall|]. intros e2 w2 H2. by eapply sets_app.
  - apply wp_ret. eapply sets_app; [exact Hl|]. by replace (err =? 0) with false by lia.
Qed.

Lemma imsic_loop_sets device imsic_base n : kd_fd device = fd -> 0 <= fd ->
  forall i err l w w1, 0 <= i -> 0 <= imsic_base ->
  imsic_base + (i + Z.of_nat n - 1) * KVM_DEV_RISCV_IMSIC_SIZE <= UINT64_MAX ->
  sets l w err w1 ->
  wp (set_imsic_loop device n imsic_base i err)
    (sets (l ++ map (imsic_attr imsic_base) (seqZ i (Z.of_nat n))) w) w1.
Proof.
  intros Hfd Hpos. induction n as [|n IH]; intros i err l w w1 Hi Hb Hmax Hl.
  { cbn. apply wp_ret. by rewrite app_nil_r. }
  cbn [set_imsic_loop]. rewrite seqZ_cons by lia. cbn [map].
  replace (Z.pred (Z.of_nat (S n))) with (Z.of_nat n) by lia.
  destruct (Z.eqb_spec err 0) as [->|Hne]; cbn [negb].
  - cbv zeta. rewrite u64_small by lia.
    apply wp_bind. eapply wp_mono; [by apply set_attr_sets|]. intros e2 w2 H2.
    rewrite cons_middle, app_assoc, <- Z.add_1_r. apply IH; [lia|done|lia|].
    eapply sets_app; [exact Hl|]. exact H2.
  - apply wp_ret. eapply sets_app; [exact Hl|]. by replace (err =? 0) with false by lia.
Qed.

(** The last two attributes and the record. *)
Definition aia_start (a : ptr) (v : VartRiscvAia) (count base ids aplic sources err : Z)
    : M World Z :=
  let* err := unless err (vart_kvm_device_set_attr (aia_device v) 0 5
                            (Some (hart_bits count))) in
  let* err := unless err (vart_kvm_device_set_attr (aia_device v) 2 0 None) in
  if err <? 0 then ret err
  else store_aia a (mkAia (aia_device v) (aia_mode v) ids sources count base aplic true) ;;;
       ret 0.

Definition started (a : ptr) (v : VartRiscvAia) (count base ids aplic sources : Z)
    (l : list attribute) (w : World) (err : Z) (w' : World) : Prop :=
  err = 0 /\ attrs w' = attrs w ++ l /\
    w_aias w' !! a = Some (mkAia (aia_device v) (aia_mode v) ids sources count base aplic true) \/
  err < 0 /\ w_aias w' = w_aias w /\ exists k, (k < length l)%nat /\
    attrs w' = attrs w ++ take k l.

Lemma aia_start_sets a v count base ids aplic sources l err w w1 :
  kd_fd (aia_device v) = fd -> 0 <= fd -> sets l w err w1 ->
  wp (aia_start a v count base ids aplic sources err)
    (started a v count base ids aplic sources
       (l ++ [(0, 5, Some (hart_bits count)); (2, 0, None)]) w) w1.
Proof.
  intros Hfd Hpos Hl. apply wp_bind. eapply wp_mono.
  { eapply unless_sets; [exact Hl|]. intros. by apply set_attr_sets. }
  intros e2 w2 H2. apply wp_bind. eapply wp_mono.
  { eapply unless_sets; [exact H2|]. intros. by apply set_attr_sets. }
  intros e3 w3 [Hh H3]. rewrite <- app_assoc in H3. cbn [app] in H3.
  destruct H3 as [[-> H3]|[He3 H3]].
  - wsteps. left. split_and!; [done| |apply lookup_insert_eq].
    transitivity (attrs w3); [by apply am_frame|exact H3].
  - replace (e3 <? 0) with true by lia. wsteps. right. split_and!; [done| |done].
    destruct Hh as [f ->]. done.
Qed.
End Setup.

(** Setting the controller up either refuses its arguments and changes nothing, or writes
    the attributes of [aia_program] in their order: the sources and the APLIC's address if
    there are any sources, the number of identities, the page of each hart's interrupt
    file, the least number of bits that number all harts, and at last the order to start.
    It is marked initialised exactly when the kernel has accepted all of them; otherwise
    its record is as before.  The interrupt files are pages below [2^64]. *)
Theorem aia_init_correct `{HA : AttrModel} a v count base ids aplic sources w :
  w_aias w !! a = Some v -> kd_fd (aia_device v) = fd ->
  0 <= count <= UINT64_MAX -> 0 <= base <= UINT64_MAX ->
  exists err w', riscv_aia_init (Some a) count base ids aplic sources w = Ok (err, w') /\
    if aia_init_invalid v count base ids aplic sources then err = -EINVAL /\ w' = w
    else
      (forall i, 0 <= i < count -> base + (i + 1) * KVM_DEV_RISCV_IMSIC_SIZE <= 2 ^ 64) /\
      (err = 0 /\ attrs w' = attrs w ++ aia_program count base ids aplic sources /\
         w_aias w' !! a = Some (mkAia (aia_device v) (aia_mode v) ids sources count base
                                  aplic true) \/
       err < 0 /\ w_aias w' = w_aias w /\ exists k,
         (k < length (aia_program count base ids aplic sources))%nat /\
         attrs w' = attrs w ++ take k (aia_program count base ids aplic sources)).
Proof.
  intros Ha Hfd Hc Hb. apply wp_ok. unfold riscv_aia_init. apply wp_bind.
  eapply wp_load_aia; [exact Ha|].
  destruct (aia_init_invalid v count base ids aplic sources) eqn:Hinv; [by wsteps|].
  unfold aia_init_invalid in Hinv. rewrite !orb_false_iff in Hinv.
  destruct Hinv as [[[[[[[[[Hi1 Hi2] Hi3] Hi4] Hi5] Hi6] Hi7] Hi8] Hi9] Hi10].
  assert (0 <= fd) as Hpos by lia.
  assert (base + (count - 1) * 4096 <= UINT64_MAX /\ base mod 4096 = 0) as [Hmax Hal]
    by (apply negb_false_iff, Z.eqb_eq in Hi8; split; [|done];
        Z.to_euclidean_division_equations; lia).
  cbv zeta. rewrite hart_bits_for_count_eq by lia.
  apply wp_mono with (Q := started (attrs := attrs) a v count base ids aplic sources
    (aia_program count base ids aplic sources) w);
    [|intros err w' Hres; split; [|exact Hres]; intros i Hi;
      Z.to_euclidean_division_equations; lia].
  unfold aia_program. rewrite !app_assoc. set (head := aplic_attrs aplic sources).
  apply wp_bind. eapply (wp_mono _ (sets (attrs := attrs) (take 1 head) w)).
  { subst head. unfold aplic_attrs in *. destruct (sources =? 0); [apply wp_ret, sets_nil|by apply set_attr_sets]. }
  intros e1 w1 H1. apply wp_bind. eapply (wp_mono _ (sets (attrs := attrs) head w)).
  { subst head. unfold aplic_attrs in *. destruct (sources =? 0); [by apply wp_ret|].
    eapply (unless_sets [_]); [exact H1|]. intros. by apply set_attr_sets. }
  intros e2 w2 H2. apply wp_bind. eapply wp_mono.
  { eapply unless_sets; [exact H2|]. intros. by apply set_attr_sets. }
  intros e3 w3 H3. apply wp_bind. eapply wp_mono.
  { eapply unless_sets; [exact H3|]. intros. by apply set_attr_sets. }
  intros e4 w4 H4. apply wp_bind. eapply wp_mono.
  { eapply imsic_loop_sets; [exact Hfd|done| | | |exact H4]; lia. }
  intros e5 w5 H5. rewrite Z2Nat.id in H5 by lia.
  rewrite <- (app_assoc head) in H5. by apply aia_start_sets.
Qed.

(** * From an MSI-X vector to a hart *)

(** The message in the table entry of a vector. *)
Definition entry_address (m : VartPciMsix) (v : Z) : Z :=
  load_le (take 8 (drop (Z.to_nat (v * 16)) (msix_table m))).
Definition entry_data (m : VartPciMsix) (v : Z) : Z :=
  load_le (take 4 (drop (Z.to_nat (v * 16 + 8)) (msix_table m))).

(** The remapper of the function [d] looks at the program's state and changes nothing. *)
Class RemapModel `{MsixCallbacks} (d : ptr) (remap : World -> Z -> Z -> Z -> Z * Z * Z)
    : Prop := {
  rm_remap f o w v a x : call_msix_remap f d v a x o w = Ok (remap w v a x, w);
  rm_frame w devs v a x : remap (w <| w_devices := devs |>) v a x = remap w v a x;
}.

(** The error code of remapping and the message that is sent. *)
Definition sent_message (remap : World -> Z -> Z -> Z -> Z * Z * Z) (m : VartPciMsix)
    (v : Z) (w : World) : Z * Z * Z :=
  match msix_remap m with
  | None => (0, entry_address m v, entry_data m v)
  | Some _ => remap w v (entry_address m v) (entry_data m v)
  end.

Definition message_typed (msg : Z * Z * Z) : Prop :=
  0 <= msg.1.2 <= UINT64_MAX /\ 0 <= msg.2 <= UINT32_MAX.

Lemma table_load (m : VartPciMsix) offset size (w : World) :
  0 <= offset -> offset + size <= Z.of_nat (length (msix_table m)) ->
  config_load_le (msix_table m) offset size w =
    Ok (load_le (take (Z.to_nat size) (drop (Z.to_nat offset) (msix_table m))), w).
Proof.
  intros. unfold config_load_le, slice.
  replace (_ && _) with true by lia. done.
Qed.

Section Entry.
Context `{HR : RemapModel}.

Lemma remap_message_eq w m v : msix_of w d = Some m -> msix_configured m = true ->
  0 <= v < msix_vector_count m ->
  vart_pci_device_remap_msix_message (Some d) v (entry_address m v) (entry_data m v) w =
    Ok (sent_message remap m v w, w).
Proof.
  intros Hd Hcfg Hv. unfold vart_pci_device_remap_msix_message.
  rewrite (bind_eq _ _ _ _ _ (load_msix_eq d w m Hd)), Hcfg.
  replace (msix_vector_count m <=? v) with false by lia. cbn [negb orb].
  unfold sent_message. destruct (msix_remap m); [apply rm_remap|done].
Qed.
End Entry.

(** The injectors of this file in place of those of [base]. *)
Definition aia_callbacks `{KvmHost} (base : MsixCallbacks) : MsixCallbacks := {|
  call_msix_inject f d v o :=
    match f with
    | fn_pci_msix_aia_inject => pci_msix_aia_inject d v o
    | _ => call_msix_inject f d v o
    end;
  call_msix_remap := call_msix_remap;
|}.

(** The message is a write of a valid identity to the interrupt file of hart [i]. *)
Definition addresses (aia : VartRiscvAia) (address id i : Z) : Prop :=
  0 <= i < aia_vcpu_count aia /\ address = aia_imsic_base aia + i * KVM_DEV_RISCV_IMSIC_SIZE /\
  1 <= id <= aia_nr_ids aia.

Section Deliver.
Context `{HM : KvmModel} `{base : MsixCallbacks} (d : ptr)
  (remap : World -> Z -> Z -> Z -> Z * Z * Z) `{HR : !RemapModel d remap}
  (a : ptr) (aia : VartRiscvAia).

(** The controller is set up in the VM with the descriptor [vmfd]. *)
Record aia_ready (w : World) : Prop := {
  ar_aia : w_aias w !! a = Some aia;
  ar_initialized : aia_initialized aia = true;
  ar_base : 0 <= aia_imsic_base aia;
  ar_vm : exists p vm, kd_vm (aia_device aia) = Some p /\ w_vms w !! p = Some vm /\
    vm_fd vm = vmfd;
}.

(** What sending [msg] does to the messages that the guest got. *)
Definition aia_effect (msg : Z * Z * Z) (old : list (Z * Z)) (err : Z) (new : list (Z * Z))
    : Prop :=
  if decide (msg.1.1 < 0) then err = -EACCES /\ new = old
  else (exists i, addresses aia msg.1.2 msg.2 i) /\
         (err = 0 /\ new = old ++ [(msg.1.2, msg.2)] \/ err < 0 /\ new = old) \/
       ~ (exists i, addresses aia msg.1.2 msg.2 i) /\ err = -EINVAL /\ new = old.

Lemma signal_msi_spec w i id : aia_ready w -> 0 <= i < aia_vcpu_count aia ->
  aia_imsic_base aia + i * KVM_DEV_RISCV_IMSIC_SIZE <= UINT64_MAX -> 0 <= id ->
  exists err w', vart_riscv_aia_signal_msi (Some a) i id w = Ok (err, w') /\
    host_only w w' /\
    aia_effect (0, aia_imsic_base aia + i * KVM_DEV_RISCV_IMSIC_SIZE, id)
      (k_msis (state w)) err (k_msis (state w')).
Proof using HM.
  intros [Ha Hi Hb (p & vm & Hp & Hvm & Hfd)] Hix Hmax Hid.
  apply wp_ok. unfold vart_riscv_aia_signal_msi. apply wp_bind.
  eapply wp_load_aia; [exact Ha|]. rewrite Hi.
  replace (aia_vcpu_count aia <=? i) with false by lia. cbn [negb orb].
  unfold aia_effect, addresses. cbn [fst snd]. destruct (decide (0 < 0)); [lia|].
  destruct (_ || _) eqn:Hbad.
  { wsteps. split; [apply host_only_refl|]. right. split; [|done]. intros (j & Hj). lia. }
  cbv zeta. rewrite u64_small by lia. apply wp_bind.
  eapply wp_deref; [exact Hp|]. apply wp_bind. eapply wp_load_vm; [exact Hvm|].
  rewrite Hfd. apply wp_bind.
  destruct (km_signal w (mkMsi (u32 (aia_imsic_base aia + i * 4096))
    (u32 (Z.shiftr (aia_imsic_base aia + i * 4096) 32)) id)) as (err & w' & E & Hh & Hst).
  apply wp_ok. exists err, w'. split; [exact E|]. wsteps. split; [done|]. left.
  split; [exists i; lia|]. destruct (Z.ltb_spec err 0); [right|left]; rewrite Hst; [done|].
  split; [done|]. cbn. do 3 f_equal. rewrite Z.shiftr_div_pow2 by lia.
  change (2 ^ 32) with 4294967296. mlia.
Qed.

(** A message that names no interrupt file, or no identity, is refused. *)
Lemma aia_refuses w address id : ~ (exists i, addresses aia address id i) ->
  exists err w', (ret (-EINVAL) : M World Z) w = Ok (err, w') /\ host_only w w' /\
    aia_effect (0, address, id) (k_msis (state w)) err (k_msis (state w')).
Proof.
  intros Hno. exists (-EINVAL), w. split_and!; [done|apply host_only_refl|].
  unfold aia_effect. cbn. by right.
Qed.

Lemma signal_address_spec w address id :
  aia_ready w -> 0 <= address <= UINT64_MAX -> 0 <= id ->
  exists err w', signal_address a address id w = Ok (err, w') /\ host_only w w' /\
    aia_effect (0, address, id) (k_msis (state w)) err (k_msis (state w')).
Proof using HM.
  intros Hr Hty Hid. unfold signal_address.
  rewrite (bind_eq _ _ w aia w) by (unfold load_aia; run_unfold; by rewrite (ar_aia _ Hr)).
  destruct (Z.ltb_spec address (aia_imsic_base aia)).
  { apply aia_refuses. intros (i & Hi & -> & _). lia. }
  cbv zeta. destruct (Z.eqb_spec ((address - aia_imsic_base aia) mod 4096) 0) as [Hal|Hal].
  2: { apply aia_refuses. intros (i & Hi & -> & _). apply Hal.
       replace (aia_imsic_base aia + i * 4096 - aia_imsic_base aia) with (i * 4096) by lia.
       apply Z.mod_mul. lia. }
  cbn [negb]. set (i := (address - aia_imsic_base aia) / 4096).
  assert (address = aia_imsic_base aia + i * 4096) as Haddr
    by (subst i; Z.to_euclidean_division_equations; lia).
  destruct (Z.leb_spec (aia_vcpu_count aia) i).
  { apply aia_refuses. intros (j & Hj & Hja & _). lia. }
  destruct (signal_msi_spec w i id Hr) as (err & w' & E & Hh & Heff);
    [subst i; Z.to_euclidean_division_equations; lia|lia|lia|].
  exists err, w'. by rewrite <- Haddr in Heff.
Qed.

Lemma aia_inject_spec w m v :
  aia_ready w -> msix_of w d = Some m ->
  Z.of_nat (length (msix_table m)) = msix_vector_count m * 16 -> msix_configured m = true ->
  0 <= v < msix_vector_count m -> message_typed (sent_message remap m v w) ->
  exists err w', pci_msix_aia_inject d v (Some a) w = Ok (err, w') /\ host_only w w' /\
    aia_effect (sent_message remap m v w) (k_msis (state w)) err (k_msis (state w')).
Proof using HM HR.
  intros Hr Hd Hlen Hcfg Hv [Hty1 Hty2].
  unfold pci_msix_aia_inject, msix_load_le.
  rewrite (bind_eq _ _ w aia w) by (unfold load_aia; run_unfold; by rewrite (ar_aia _ Hr)).
  rewrite (bind_eq _ _ _ _ _ (load_msix_eq d w m Hd)), (ar_initialized _ Hr).
  replace (msix_vector_count m <=? v) with false by lia. cbn [negb orb].
  rewrite (bind_eq _ _ _ _ _ (table_load m (v * 16) 8 w ltac:(lia) ltac:(lia))).
  rewrite (bind_eq _ _ _ _ _ (table_load m (v * 16 + 8) 4 w ltac:(lia) ltac:(lia))).
  rewrite (bind_eq _ _ _ _ _ (remap_message_eq w m v Hd Hcfg Hv)).
  destruct (sent_message remap m v w) as [[e address] id]. cbn [fst snd] in *.
  destruct (Z.ltb_spec e 0) as [He|He].
  - exists (-EACCES), w. split_and!; [done|apply host_only_refl|]. unfold aia_effect. cbn.
    by rewrite decide_True.
  - destruct (signal_address_spec w address id Hr) as (err & w' & E & Hh & Heff); [done|lia|].
    exists err, w'. split_and!; [done..|]. unfold aia_effect in *. cbn in *.
    by rewrite decide_False by lia.
Qed.
End Deliver.

(** C29. A device that raises a vector which MSI-X lets through reaches exactly the hart that
    the guest chose: if the message of the vector's table entry, after remapping, writes a
    valid identity to the interrupt file of a hart, the guest gets this message once and
    the pending bit is cleared, or the kernel refuses and the vector stays pending; any
    other message is refused and reaches nobody. *)
Theorem msix_reaches_hart `{HM : KvmModel} `{IrqCallbacks} (base : MsixCallbacks) d
    (remap : World -> Z -> Z -> Z -> Z * Z * Z) `{HR : !RemapModel d remap} a aia w m v :
  aia_ready (vmfd := vmfd) a aia w ->
  msix_of w d = Some m -> msix_ok m -> msix_configured m = true ->
  msix_inject m = Some fn_pci_msix_aia_inject -> msix_inject_opaque m = Some a ->
  0 <= v < msix_vector_count m -> deliverable m v = true ->
  msix_irq_routes m !! Z.to_nat v = Some None ->
  message_typed (sent_message remap m v w) ->
  exists err w' pba,
    @vart_pci_device_raise_msix (aia_callbacks base) _ (Some d) v w = Ok (err, w') /\
    aia_effect aia (sent_message remap m v w) (k_msis (state w)) err (k_msis (state w')) /\
    msix_of w' d = Some (with_pba m pba) /\ pending (with_pba m pba) v = (err <? 0).
Proof.
  intros Hr Hd Hm Hcfg Hinj Hop Hv Hdel Hroute Hty.
  destruct (@raise_sends (aia_callbacks base) _ d (fun err w' =>
    aia_effect aia (sent_message remap m v w) (k_msis (state w)) err (k_msis (state w'))))
    with (w := w) (m := m) (v := v) as (err & w' & pba & E & Heff & Hd' & Hp); try done.
  - intros err w1 devs. by rewrite (km_frame w1 (w1 <| w_devices := devs |>)).
  - intros devs pba Hd1. exists None.
    assert (sent_message remap (with_pba m pba) v (w <| w_devices := devs |>) =
      sent_message remap m v w) as Hmsg by (unfold sent_message; cbn; by rewrite rm_frame).
    destruct (aia_inject_spec d remap a aia (w <| w_devices := devs |>) (with_pba m pba) v)
      as (err & w' & E & [f ->] & Heff); try done; [by destruct Hr|apply (mo_table _ Hm)|by rewrite Hmsg|].
    exists err, (w <| w_devices := devs |> <| w_files := f |>). split_and!; [done| |done|].
    + unfold msix_send. change (msix_inject (with_pba m pba)) with (msix_inject m).
      change (msix_inject_opaque (with_pba m pba)) with (msix_inject_opaque m).
      rewrite Hinj, Hop. exact E.
    + rewrite Hmsg in Heff. by rewrite (km_frame w (w <| w_devices := devs |>)) in Heff.
  - exists err, w', pba. split_and!; [|done..]. rewrite E. do 2 f_equal.
    unfold aia_effect in Heff. destruct (Z.ltb_spec err 0); [done|].
    destruct (decide _); [lia|]. destruct Heff as [(_ & [[-> _]|[? _]])|(_ & -> & _)]; lia.
Qed.

(** * A concrete controller

    The kernel of [KvmDemo], which also records the attributes it is given in file 5. *)
Module AiaDemo.
Import KvmDemo.
Fixpoint read_attrs (l : list Z) : list attribute :=
  match l with
  | g :: a :: s :: x :: l => (g, a, if s =? 0 then None else Some x) :: read_attrs l
  | _ => []
  end.
Definition write_attrs (l : list attribute) : list Z :=
  concat (map (fun x => [x.1.1; x.1.2; if bool_decide (x.2 = None) then 0 else 1;
                         default 0 x.2]) l).
Lemma read_write_attrs l : read_attrs (write_attrs l) = l.
Proof.
  induction l as [|[[g a] [x|]] l IH]; [done|..]; cbn; f_equal; exact IH.
Qed.
Definition attrs (w : World) : list attribute := read_attrs (file w 5).

#[export] Instance host : KvmHost := {|
  ioctl_set_gsi_routing := ioctl_set_gsi_routing (KvmHost := KvmDemo.host);
  ioctl_irqfd := ioctl_irqfd (KvmHost := KvmDemo.host);
  ioctl_ioeventfd := ioctl_ioeventfd (KvmHost := KvmDemo.host);
  ioctl_signal_msi := ioctl_signal_msi (KvmHost := KvmDemo.host);
  ioctl_irq_line := ioctl_irq_line (KvmHost := KvmDemo.host);
  ioctl_create_device := ioctl_create_device (KvmHost := KvmDemo.host);
  ioctl_device_attr _ q g a x :=
    match q with
    | KVM_SET_DEVICE_ATTR =>
        let* w := get in
        put (w <| w_files ::= <[5 := write_attrs (attrs w ++ [(g, a, x)])]> |>) ;;; ret (0, x)
    | _ => ret (0, x)
    end;
  notifier_eventfd := notifier_eventfd (KvmHost := KvmDemo.host);
  notifier_write := notifier_write (KvmHost := KvmDemo.host);
  notifier_read := notifier_read (KvmHost := KvmDemo.host);
  close_fd := close_fd (KvmHost := KvmDemo.host);
|}.

#[export] Instance attr_model : AttrModel (H := host) 40 attrs.
Proof.
  split.
  - intros w w' Hf. unfold attrs, file. by rewrite Hf.
  - intros w g a x. eexists 0, x, _. split; [reflexivity|]. split; [by eexists|].
    unfold attrs at 1, file. cbn. rewrite lookup_insert_eq. cbn. by rewrite read_write_attrs.
Qed.
#[export] Instance kvm_model : KvmModel (H := host) 5 state.
Proof. destruct model. by split. Qed.

Definition aia : ptr := 1%positive.
Definition created : VartRiscvAia := mkAia (mkKvmDevice (Some vm) 40 11) 2 0 0 0 0 0 false.
Definition a0 : World := k0 <| w_aias := {[aia := created]} |>.

(** The board's controller with four harts. *)
Lemma aia_init_correct_witness :
  exists err w', riscv_aia_init (Some aia) 4 0x28000000 255 0xd000000 96 a0 = Ok (err, w') /\
    if aia_init_invalid created 4 0x28000000 255 0xd000000 96 then err = -EINVAL /\ w' = a0
    else
      (forall i, 0 <= i < 4 -> 0x28000000 + (i + 1) * KVM_DEV_RISCV_IMSIC_SIZE <= 2 ^ 64) /\
      (err = 0 /\ attrs w' = attrs a0 ++ aia_program 4 0x28000000 255 0xd000000 96 /\
         w_aias w' !! aia = Some (mkAia (aia_device created) (aia_mode created) 255 96 4
                                    0x28000000 0xd000000 true) \/
       err < 0 /\ w_aias w' = w_aias a0 /\ exists k,
         (k < length (aia_program 4 0x28000000 255 0xd000000 96))%nat /\
         attrs w' = attrs a0 ++ take k (aia_program 4 0x28000000 255 0xd000000 96)).
Proof.
  apply (aia_init_correct aia created 4 0x28000000 255 0xd000000 96 a0);
    [reflexivity|reflexivity|lia|lia].
Defined.

(** A function whose only vector sends identity 5 to hart 1. *)
Definition fn : ptr := 9%positive.
Definition board : VartRiscvAia :=
  mkAia (mkKvmDevice (Some vm) 40 11) 2 255 96 4 0x28000000 0xd000000 true.
Definition table : list Z := [0; 0x10; 0; 0x28; 0; 0; 0; 0; 5; 0; 0; 0; 0; 0; 0; 0].
Definition msix : VartPciMsix :=
  mkMsix 1%positive 1%positive table (repeat 0 8) [None] (Some fn_pci_msix_aia_inject) (Some aia)
    None None 0 0 0 0 0 1 true true true false.
Definition a1 : World := k0 <| w_aias := {[aia := board]} |> <| w_devices := {[fn :=
  mkPciDevice (mkDevice None None false None None true) None 0 0 [] [] None 0 0 msix
    None 0 false false true]} |>.

#[local] Instance irq : IrqCallbacks := fun _ _ _ _ => ret 0.
#[local] Instance no_callbacks : MsixCallbacks := {|
  call_msix_inject _ _ _ _ := ret 0;
  call_msix_remap _ _ _ a x _ := ret (0, a, x);
|}.
Definition identity (w : World) (v a x : Z) : Z * Z * Z := (0, a, x).
#[local] Instance identity_model : RemapModel fn identity.
Proof. by split. Qed.

Lemma msix_ok1 : msix_ok msix.
Proof.
  split; [cbn; lia|reflexivity|reflexivity| |reflexivity].
  repeat (constructor; [unfold byte_ok; lia|]). constructor.
Qed.
Lemma board_ready : aia_ready (vmfd := 5) aia board a1.
Proof.
  split; [reflexivity|reflexivity|cbn; lia|]. eexists vm, _. split_and!; reflexivity.
Qed.

Lemma msix_reaches_hart_witness :
  exists err w' pba,
    @vart_pci_device_raise_msix (aia_callbacks no_callbacks) _ (Some fn) 0 a1 = Ok (err, w') /\
    aia_effect board (sent_message identity msix 0 a1) (k_msis (state a1)) err
      (k_msis (state w')) /\
    msix_of w' fn = Some (with_pba msix pba) /\ pending (with_pba msix pba) 0 = (err <? 0).
Proof.
  apply (msix_reaches_hart no_callbacks fn identity aia board a1 msix 0).
  - exact board_ready.
  - reflexivity.
  - exact msix_ok1.
  - reflexivity.
  - reflexivity.
  - reflexivity.
  - cbn. lia.
  - reflexivity.
  - reflexivity.
  - split; vm_compute; split; discriminate.
Defined.

Example hart_one_gets_the_message : exists w',
  @vart_pci_device_raise_msix (aia_callbacks no_callbacks) _ (Some fn) 0 a1 = Ok (0, w') /\
  k_msis (state w') = [(0x28001000, 5)].
Proof. eexists. split; vm_compute; reflexivity. Qed.
End AiaDemo.
