(* ===== verification/MsixIrqfd.v ===== *)
(** MSI-X through irqfd: [src/hw/pci/pci-msix-irqfd.c].

    The back end of a function has an event descriptor and a GSI for each vector.  The
    first delivery of a vector adds the route of its message to the VM's routing table and
    ties the descriptor to the GSI; every delivery signals the descriptor, and the kernel
    injects the message of the route. *)

From Stdlib Require Import ZArith Lia.
From stdpp Require Import base tactics numbers list gmap.
From S2P Require Import Prelude Bytes Machine AddressSpace Iommu Devices Msix EventLoop KvmIrq Aia.

Definition zero_irqfd : VartPciMsixIrqfd := mkMsixIrqfd None None [] [] [] 0 0 false.

Section Irqfd.
Context `{KvmHost}.

Definition pci_msix_irqfd_load_le (table : list Z) (offset size : Z) : M World Z :=
  config_load_le table offset size.

Section Inject.
Context `{MsixCallbacks}.

(** The route of a vector that has none yet. *)
Definition add_route (b : ptr) (vector gsi address data : Z) : M World Z :=
  let* backend := load_irqfd b in
  let* added := deref (mi_route_added backend !! Z.to_nat vector) in
  if added : bool then ret 0
  else
    let* err := vart_kvm_irq_routing_add_msi (mi_routing backend) gsi address data 0 in
    if err <? 0 then ret err
    else
      let* err := vart_kvm_irq_routing_commit (mi_routing backend) in
      if err <? 0 then
        vart_kvm_irq_routing_remove_msi (mi_routing backend) gsi ;;; ret err
      else
        store_irqfd b (backend <| mi_route_added ::= <[Z.to_nat vector := true]> |>) ;;; ret 0.

(** The tie between the descriptor of a vector and its GSI. *)
Definition assign_irqfd (b : ptr) (vector gsi : Z) : M World Z :=
  let* backend := load_irqfd b in
  let* assigned := deref (mi_assigned backend !! Z.to_nat vector) in
  if assigned : bool then ret 0
  else
    let* r := deref (mi_routing backend) in
    let* routing := load_routing r in
    let* notifier := deref (mi_notifiers backend !! Z.to_nat vector) in
    let* err := vart_kvm_irqfd_assign (routing_vm routing) (Some notifier) gsi in
    if err <? 0 then ret err
    else
      store_irqfd b (backend <| mi_assigned ::= <[Z.to_nat vector := true]> |>) ;;; ret 0.

Definition pci_msix_irqfd_inject (steps : nat) (device : ptr) (vector : Z)
    (opaque : option ptr) : M World Z :=
  match opaque with
  | None => ret (-EINVAL)
  | Some b =>
      let* backend := load_irqfd b in
      if negb (mi_connected backend) || negb (bool_decide (mi_device backend = Some device)) ||
         (mi_vector_count backend <=? vector)
      then ret (-EINVAL)
      else
        let* msix := load_msix device in
        let* address := pci_msix_irqfd_load_le (msix_table msix) (vector * 16) 8 in
        let* data := pci_msix_irqfd_load_le (msix_table msix) (vector * 16 + 8) 4 in
        let* (err, address, data) :=
          vart_pci_device_remap_msix_message (Some device) vector address data in
        if err <? 0 then ret err
        else if address =? 0 then ret (-EINVAL)
        else
          let gsi := u32 (mi_first_gsi backend + vector) in
          let* err := add_route b vector gsi address data in
          if err <? 0 then ret err
          else
            let* err := assign_irqfd b vector gsi in
            if err <? 0 then ret err
            else
              let* backend := load_irqfd b in
              let* notifier := deref (mi_notifiers backend !! Z.to_nat vector) in
              vart_event_notifier_notify steps (Some notifier) 1
  end.
End Inject.

(** [vart_event_notifier_init] for [n] notifiers: an error with the notifiers made so far,
    or all of them. *)
Fixpoint init_notifiers (n : nat) (made : list VartEventNotifier)
    : M World (Z * list VartEventNotifier) :=
  match n with
  | O => ret (0, made)
  | S n =>
      let* (err, notifier) := vart_event_notifier_init (Some zero_notifier) in
      if err <? 0 then ret (err, made)
      else init_notifiers n (made ++ [default zero_notifier notifier])
  end.

Fixpoint destroy_notifiers (l : list VartEventNotifier) : M World unit :=
  match l with
  | [] => ret tt
  | x :: l => vart_event_notifier_destroy (Some x) ;;; destroy_notifiers l
  end.

Definition vart_pci_msix_irqfd_init (backend device routing : option ptr) (first_gsi : Z)
    : M World Z :=
  match backend, device, routing with
  | Some b, Some d, Some r =>
      let* routing' := load_routing r in
      let* msix := load_msix d in
      let count := msix_vector_count msix in
      if negb (routing_initialized routing') || negb (msix_configured msix) ||
         (count =? 0) || (UINT32_MAX - count + 1 <? first_gsi)
      then ret (-EINVAL)
      else
        store_irqfd b zero_irqfd ;;;
        let* ok1 := allocate in
        let* ok2 := allocate in
        let* ok3 := allocate in
        if negb ok1 || negb ok2 || negb ok3 then store_irqfd b zero_irqfd ;;; ret (-ENOMEM)
        else
          let* (err, notifiers) := init_notifiers (Z.to_nat count) [] in
          if err <? 0 then
            destroy_notifiers (rev notifiers) ;;; store_irqfd b zero_irqfd ;;; ret err
          else
            let falses := replicate (Z.to_nat count) false in
            let v := mkMsixIrqfd device routing notifiers falses falses first_gsi count false in
            store_irqfd b v ;;;
            let* err := vart_pci_device_set_msix_injector device
                          (Some fn_pci_msix_irqfd_inject) backend in
            if err <? 0 then
              destroy_notifiers notifiers ;;; store_irqfd b zero_irqfd ;;; ret err
            else store_irqfd b (v <| mi_connected := true |>) ;;; ret 0
  | _, _, _ => ret (-EINVAL)
  end.

Definition keep_first (first_error err : Z) : Z :=
  if (err <? 0) && (first_error =? 0) then err else first_error.

(** The body of the first loop of [destroy]: the first error and whether a route was
    removed. *)
Definition release_vector (backend : VartPciMsixIrqfd) (i first_error : Z) (changed : bool)
    : M World (Z * bool) :=
  let gsi := u32 (mi_first_gsi backend + i) in
  let* assigned := deref (mi_assigned backend !! Z.to_nat i) in
  let* first_error :=
    if assigned : bool then
      let* r := deref (mi_routing backend) in
      let* routing := load_routing r in
      let* notifier := deref (mi_notifiers backend !! Z.to_nat i) in
      let* err := vart_kvm_irqfd_deassign (routing_vm routing) (Some notifier) gsi in
      ret (keep_first first_error err)
    else ret first_error in
  let* added := deref (mi_route_added backend !! Z.to_nat i) in
  if added : bool then
    let* err := vart_kvm_irq_routing_remove_msi (mi_routing backend) gsi in
    if err =? 0 then ret (first_error, true)
    else ret (if negb (err =? -ENOENT) && (first_error =? 0) then err else first_error,
              changed)
  else ret (first_error, changed).

(** The loop over the [n] vectors from [i] on. *)
Fixpoint release_vectors (backend : VartPciMsixIrqfd) (n : nat) (i first_error : Z)
    (changed : bool) : M World (Z * bool) :=
  match n with
  | O => ret (first_error, changed)
  | S n =>
      let* (first_error, changed) := release_vector backend i first_error changed in
      release_vectors backend n (i + 1) first_error changed
  end.

Definition vart_pci_msix_irqfd_destroy (backend : option ptr) : M World Z :=
  match backend with
  | None => ret 0
  | Some b =>
      let* v := load_irqfd b in
      if negb (mi_connected v) then ret 0
      else
        vart_pci_device_set_msix_injector (mi_device v) None None ;;;
        let* (first_error, changed) :=
          release_vectors v (Z.to_nat (mi_vector_count v)) 0 0 false in
        let* first_error :=
          if changed : bool then
            let* err := vart_kvm_irq_routing_commit (mi_routing v) in
            ret (keep_first first_error err)
          else ret first_error in
        destroy_notifiers (mi_notifiers v) ;;;
        store_irqfd b zero_irqfd ;;;
        ret first_error
  end.
End Irqfd.

(** The injectors of the program in place of those of [base]. *)
Definition irqfd_callbacks `{KvmHost} (steps : nat) (base : MsixCallbacks) : MsixCallbacks := {|
  call_msix_inject f d v o :=
    match f with
    | fn_pci_msix_irqfd_inject => pci_msix_irqfd_inject steps d v o
    | fn_pci_msix_aia_inject => pci_msix_aia_inject d v o
    | _ => call_msix_inject f d v o
    end;
  call_msix_remap := call_msix_remap;
|}.

(** * Delivery *)

(** The message of a GSI in the routing table. *)
Definition latched (rv : VartKvmIrqRouting) (gsi : Z) : option (Z * Z) :=
  (fun x : message => (x.1.1, x.1.2)) <$> route_map (routing_routes rv) !! gsi.

(** The route of a GSI is what the kernel sends for it. *)
Lemma gsi_messages_routes l x :
  NoDup (gsis l) -> Forall (fun x => 0 <= route_address x <= UINT64_MAX) l -> x ∈ l ->
  map entry_message (filter (fun e => re_gsi e = route_gsi x) (map routing_entry l)) =
    [(route_address x, route_data x)].
Proof.
  unfold gsis. intros Hnd Hty Hx. induction l as [|y l IH]; [set_solver|].
  cbn in Hnd. apply NoDup_cons in Hnd as [Hy Hnd]. apply Forall_cons in Hty as [Hty1 Hty].
  cbn [map]. rewrite filter_cons. cbn [re_gsi routing_entry].
  apply elem_of_cons in Hx as [->|Hx].
  - rewrite decide_True by done. cbn [map]. rewrite entry_message_route by done. f_equal.
    assert (filter (fun e => re_gsi e = route_gsi y) (map routing_entry l) = []) as ->; [|done].
    apply filter_none, Forall_map, Forall_forall. intros z Hz E. apply Hy.
    apply list_elem_of_fmap. by exists z.
  - rewrite decide_False; [by apply IH|]. intros E. apply Hy. apply list_elem_of_fmap.
    by exists x.
Qed.

Section Deliver.
Context `{HM : KvmModel} `{base : MsixCallbacks} (d : ptr)
  (remap : World -> Z -> Z -> Z -> Z * Z * Z) `{HR : !RemapModel d remap} (b r : ptr).

Definition gsi_of (bk : VartPciMsixIrqfd) (v : Z) : Z := mi_first_gsi bk + v.

(** The back end of the function [d] on the routing table [r]: the kernel has the routes
    of the table, a vector with a route has its GSI in it, and the descriptor of a vector
    is tied to its GSI if it is marked so and to nothing else. *)
Record backend_ok (w : World) (bk : VartPciMsixIrqfd) (rv : VartKvmIrqRouting) : Prop := {
  bo_backend : w_irqfds w !! b = Some bk;
  bo_connected : mi_connected bk = true;
  bo_device : mi_device bk = Some d;
  bo_table : mi_routing bk = Some r;
  bo_notifier_count : Z.of_nat (length (mi_notifiers bk)) = mi_vector_count bk;
  bo_added_count : Z.of_nat (length (mi_route_added bk)) = mi_vector_count bk;
  bo_assigned_count : Z.of_nat (length (mi_assigned bk)) = mi_vector_count bk;
  bo_gsis : 0 <= mi_first_gsi bk /\ mi_first_gsi bk + mi_vector_count bk - 1 <= UINT32_MAX;
  bo_routing : routing_ok (vmfd := vmfd) r w rv;
  bo_kvm : exists p vm k kvm, routing_vm rv = Some p /\ w_vms w !! p = Some vm /\
    vm_kvm vm = Some k /\ w_kvms w !! k = Some kvm /\ kvm_irqfd kvm = true;
  bo_fd : 0 <= vmfd;
  bo_notifiers : Forall (fun n => notifier_initialized n = true /\
    0 <= notifier_fd n <= INT_MAX) (mi_notifiers bk);
  bo_distinct : NoDup (map notifier_fd (mi_notifiers bk));
  bo_sync : k_routes (state w) = map routing_entry (routing_routes rv);
  bo_added : forall v, mi_route_added bk !! v = Some true ->
    gsi_of bk (Z.of_nat v) ∈ gsis (routing_routes rv);
  bo_ties : forall v n, mi_notifiers bk !! v = Some n ->
    filter (fun x => x.1 = notifier_fd n) (k_irqfds (state w)) =
      if bool_decide (mi_assigned bk !! v = Some true)
      then [(notifier_fd n, gsi_of bk (Z.of_nat v))] else [];
}.

(** Nothing else of the program's state changes. *)
Definition irqfd_frame (w w' : World) : Prop :=
  w_devices w' = w_devices w /\ w_vms w' = w_vms w /\ w_kvms w' = w_kvms w.

Lemma routing_irqfd_frame w w' : routing_frame r w w' ->
  irqfd_frame w w' /\ w_irqfds w' = w_irqfds w.
Proof. intros (l & o & f & -> & _). done. Qed.
Lemma host_irqfd_frame w w' : host_only w w' ->
  irqfd_frame w w' /\ w_irqfds w' = w_irqfds w /\ w_routings w' = w_routings w.
Proof. intros [f ->]. done. Qed.
#[global] Instance irqfd_frame_preorder : PreOrder irqfd_frame.
Proof.
  split; [done|]. intros w1 w2 w3 (H1 & H2 & H3) (H4 & H5 & H6). split_and!; congruence.
Qed.

(** The table may have got routes; none changed. *)
Definition routes_kept (rv rv' : VartKvmIrqRouting) : Prop :=
  forall g m, latched rv g = Some m -> latched rv' g = Some m.

Lemma latched_snoc l x g : route_gsi x ∉ gsis l ->
  latched (mkRouting None (l ++ [x]) 0 false) g =
    if decide (g = route_gsi x) then Some (route_address x, route_data x)
    else latched (mkRouting None l 0 false) g.
Proof.
  intros Hx. unfold latched. cbn [routing_routes]. rewrite route_map_snoc by done.
  destruct (decide _) as [->|]; [by rewrite lookup_insert_eq|by rewrite lookup_insert_ne].
Qed.

Lemma latched_ext rv rv' g : routing_routes rv = routing_routes rv' -> latched rv g = latched rv' g.
Proof. unfold latched. by intros ->. Qed.

Lemma latched_in rv g : g ∈ gsis (routing_routes rv) <-> is_Some (latched rv g).
Proof.
  unfold latched. rewrite fmap_is_Some, <- not_eq_None_Some, route_map_None.
  split; [tauto|]. intros Hn. destruct (decide (g ∈ gsis (routing_routes rv))); tauto.
Qed.

(** A back end whose own record is unchanged, after a change of its routing table. *)
Lemma backend_ok_routing w w' bk rv rv' :
  backend_ok w bk rv -> irqfd_frame w w' -> w_irqfds w' = w_irqfds w ->
  routing_ok (vmfd := vmfd) r w' rv' -> routing_vm rv' = routing_vm rv ->
  routes_kept rv rv' -> k_routes (state w') = map routing_entry (routing_routes rv') ->
  k_irqfds (state w') = k_irqfds (state w) -> backend_ok w' bk rv'.
Proof.
  intros [] (Hd & Hv & Hk) Hi Hr Hvm Hkept Hsync Hties. split; try done.
  - by rewrite Hi.
  - by rewrite Hvm, Hv, Hk.
  - intros v Hadd. apply latched_in. specialize (bo_added0 v Hadd).
    apply latched_in in bo_added0 as [m Hm]. eauto.
  - intros v n Hn. rewrite Hties. by apply bo_ties0.
Qed.

(** The result of a step for the vector [v] that injects nothing. *)
Definition prepared (w : World) (bk : VartPciMsixIrqfd) (rv : VartKvmIrqRouting)
    (err : Z) (w' : World) (bk' : VartPciMsixIrqfd) (rv' : VartKvmIrqRouting) : Prop :=
  irqfd_frame w w' /\ backend_ok w' bk' rv' /\ routes_kept rv rv' /\
  k_msis (state w') = k_msis (state w) /\
  mi_notifiers bk' = mi_notifiers bk /\ mi_first_gsi bk' = mi_first_gsi bk /\
  mi_vector_count bk' = mi_vector_count bk /\ err <= 0.

Lemma prepared_refl w bk rv : backend_ok w bk rv -> prepared w bk rv 0 w bk rv.
Proof. intros Hok. unfold prepared, irqfd_frame, routes_kept. split_and!; done. Qed.

(** The array of the routing table is as before. *)
Lemma prepared_same w w' bk rv rv' err :
  backend_ok w bk rv -> irqfd_frame w w' -> w_irqfds w' = w_irqfds w ->
  routing_ok (vmfd := vmfd) r w' rv' -> routing_vm rv' = routing_vm rv ->
  routing_routes rv' = routing_routes rv -> state w' = state w -> err <= 0 ->
  prepared w bk rv err w' bk rv'.
Proof.
  intros Hok Hfr Hi Hr Hvm Hrt Hst Herr.
  assert (routes_kept rv rv') by (intros g m; by rewrite (latched_ext rv' rv)).
  unfold prepared. split_and!; try done; [|by rewrite Hst].
  apply (backend_ok_routing w w' bk rv rv'); try done; rewrite Hst; [|done].
  rewrite Hrt. apply (bo_sync _ _ _ Hok).
Qed.

Lemma routes_kept_snoc rv rv' x : route_gsi x ∉ gsis (routing_routes rv) ->
  routing_routes rv' = routing_routes rv ++ [x] -> routes_kept rv rv'.
Proof.
  intros Hx Hrv g m Hg. unfold latched in *. rewrite Hrv, route_map_snoc by done.
  destruct (decide (g = route_gsi x)) as [->|]; [|by rewrite lookup_insert_ne].
  assert (is_Some (latched rv (route_gsi x))) as Hin by (unfold latched; by rewrite Hg).
  by apply latched_in in Hin.
Qed.

(** Marking the route of [v], or its tie, in the record of the back end. *)
Lemma backend_ok_mark_route w bk rv v :
  backend_ok w bk rv -> gsi_of bk (Z.of_nat v) ∈ gsis (routing_routes rv) ->
  let bk' := bk <| mi_route_added ::= <[v := true]> |> in
  backend_ok (w <| w_irqfds ::= <[b := bk']> |>) bk' rv.
Proof.
  intros [] Hin bk'.
  assert (state (w <| w_irqfds ::= <[b := bk']> |>) = state w) as Hst by by apply km_frame.
  split; rewrite ?Hst; try done; [apply lookup_insert_eq|cbn; by rewrite length_insert|
    by destruct bo_routing0|].
  intros u. cbn. destruct (decide (u = v)) as [->|]; [by intros _|].
  rewrite list_lookup_insert_ne by done. apply bo_added0.
Qed.

Lemma add_route_spec w bk rv v address data :
  backend_ok w bk rv -> 0 <= v < mi_vector_count bk -> 0 <= address <= UINT64_MAX ->
  wp (add_route b v (gsi_of bk v) address data) (fun err w' => exists bk' rv',
    prepared w bk rv err w' bk' rv' /\
    (err = 0 -> latched rv' (gsi_of bk v) =
       if bool_decide (mi_route_added bk !! Z.to_nat v = Some true)
       then latched rv (gsi_of bk v) else Some (address, data)) /\
    (err = 0 -> gsi_of bk v ∈ gsis (routing_routes rv'))) w.
Proof using HM.
  intros Hok Hv Ha. pose proof Hok as Hok0. destruct Hok0 as [].
  unfold add_route. apply wp_bind. eapply wp_load_irqfd; [exact bo_backend0|].
  destruct (lookup_lt_is_Some_2 (mi_route_added bk) (Z.to_nat v)) as [added Hadd]; [lia|].
  apply wp_bind. eapply wp_deref; [exact Hadd|]. rewrite Hadd.
  destruct added.
  { apply wp_ret. exists bk, rv. rewrite bool_decide_true by done.
    split; [by apply prepared_refl|]. split; [done|]. intros _.
    rewrite <- (Z2Nat.id v) by lia. by apply bo_added0. }
  rewrite bool_decide_false by done. rewrite bo_table0. apply wp_bind.
  eapply wp_mono; [exact (add_msi_spec r w rv _ _ _ _ bo_routing0 Ha)|].
  intros err w1 (Hfr & Hf & rv1 & Hok1 & Hvm1 & Hcase).
  apply routing_irqfd_frame in Hfr as [Hfr Hi].
  assert (state w1 = state w) as Hst by by apply km_frame.
  destruct Hcase as [(Hin & -> & Hrt)|(Hnin & [(-> & Hrt)|(Herr & Hrt)])].
  { wsteps. exists bk, rv1. by split; [apply prepared_same|]. }
  2: { replace (err <? 0) with true by lia. wsteps. exists bk, rv1.
       split; [apply prepared_same; try done; lia|]. split; lia. }
  change (0 <? 0) with false. cbv iota. apply wp_bind.
  eapply wp_mono; [exact (commit_spec r w1 rv1 Hok1)|].
  intros err w2 (Hfr2 & Hok2 & Hcase). apply routing_irqfd_frame in Hfr2 as [Hfr2 Hi2].
  set (x := mkMsiRoute (gsi_of bk v) address data 0) in *.
  assert (routes_kept rv rv1) as Hkept by by apply (routes_kept_snoc rv rv1 x).
  destruct Hcase as [[Herr Hst2]|[-> Hst2]].
  - replace (err <? 0) with true by lia. apply wp_bind.
    eapply wp_mono; [exact (remove_msi_spec r w2 rv1 _ Hok2)|].
    intros err3 w3 (Hfr3 & Hf3 & rv3 & Hok3 & Hvm3 & Hcase).
    apply routing_irqfd_frame in Hfr3 as [Hfr3 Hi3].
    rewrite Hrt, (remove_route_snoc _ x Hnin : remove_route (gsi_of bk v) _ = _) in Hcase.
    destruct Hcase as [_ Hrt3].
    assert (state w3 = state w) as Hst3 by (rewrite <- Hst, <- Hst2; by apply km_frame).
    apply wp_ret. exists bk, rv3. split; [|split; lia].
    apply prepared_same; try done; [by do 2 (etrans; [eassumption|])|congruence|congruence|lia].
  - wsteps. assert (irqfd_frame w w2) as Hfr02 by (by etrans).
    assert (gsi_of bk v ∈ gsis (routing_routes rv1)) as Hin.
    { rewrite Hrt. unfold gsis. rewrite map_app. apply elem_of_app. right.
      by apply list_elem_of_singleton. }
    exists (bk <| mi_route_added ::= <[Z.to_nat v := true]> |>), rv1.
    assert (state (w2 <| w_irqfds ::= <[b := bk <| mi_route_added ::=
      <[Z.to_nat v := true]> |>]> |>) = state w2) as Hst3 by by apply km_frame.
    split_and!; [unfold prepared; split_and!; try done| |done].
    + apply backend_ok_mark_route; [|by rewrite Z2Nat.id by lia].
      apply (backend_ok_routing w w2 bk rv rv1); try done; [congruence|by rewrite Hst2|].
      by rewrite Hst2, Hst.
    + by rewrite Hst3, Hst2, Hst.
    + intros _. unfold latched. rewrite Hrt, route_map_snoc by done.
      by rewrite lookup_insert_eq.
Qed.

Lemma backend_ok_mark_tie w w1 bk rv v n :
  backend_ok w bk rv -> mi_assigned bk !! v = Some false -> mi_notifiers bk !! v = Some n ->
  host_only w w1 ->
  state w1 = (state w) <| k_irqfds ::= (fun l =>
    l ++ [(notifier_fd n, gsi_of bk (Z.of_nat v))]) |> ->
  let bk' := bk <| mi_assigned ::= <[v := true]> |> in
  backend_ok (w1 <| w_irqfds ::= <[b := bk']> |>) bk' rv.
Proof using HM.
  intros [] Has Hn [f Hho] Hst1 bk'.
  assert (state (w1 <| w_irqfds ::= <[b := bk']> |>) = state w1) as Hst by by apply km_frame.
  split; try done; [apply lookup_insert_eq|cbn; by rewrite length_insert|
    rewrite Hho; by destruct bo_routing0|by rewrite Hho|by rewrite Hst, Hst1|].
  intros u n' Hn'. rewrite Hst, Hst1. cbn in Hn' |- *. rewrite filter_app, (bo_ties0 _ _ Hn').
  destruct (decide (u = v)) as [->|Hne].
  - assert (n' = n) as -> by congruence.
    rewrite list_lookup_insert_eq by (by eapply lookup_lt_Some).
    rewrite bool_decide_false by congruence. rewrite bool_decide_true by done. cbn.
    by rewrite decide_True.
  - rewrite list_lookup_insert_ne by done. cbn. rewrite decide_False.
    + by rewrite app_nil_r.
    + intros E. apply Hne.
      apply (NoDup_lookup (map notifier_fd (mi_notifiers bk)) u v (notifier_fd n'));
        [done|by rewrite list_lookup_fmap, Hn'|rewrite list_lookup_fmap, Hn; cbn; congruence].
Qed.

Lemma assign_irqfd_spec w bk rv v :
  backend_ok w bk rv -> 0 <= v < mi_vector_count bk ->
  wp (assign_irqfd b v (gsi_of bk v)) (fun err w' => exists bk',
    prepared w bk rv err w' bk' rv /\
    (err = 0 -> mi_assigned bk' !! Z.to_nat v = Some true)) w.
Proof using HM.
  intros Hok Hv. pose proof Hok as Hok0. destruct Hok0 as [].
  unfold assign_irqfd. apply wp_bind. eapply wp_load_irqfd; [exact bo_backend0|].
  destruct (lookup_lt_is_Some_2 (mi_assigned bk) (Z.to_nat v)) as [assigned Has]; [lia|].
  apply wp_bind. eapply wp_deref; [exact Has|]. destruct assigned.
  { apply wp_ret. exists bk. split; [by apply prepared_refl|done]. }
  destruct (lookup_lt_is_Some_2 (mi_notifiers bk) (Z.to_nat v)) as [n Hn]; [lia|].
  pose proof (Forall_lookup_1 _ _ _ _ bo_notifiers0 Hn) as [Hni Hnf].
  apply wp_bind. eapply wp_deref; [exact bo_table0|]. apply wp_bind.
  eapply wp_load_routing; [apply bo_routing0|]. apply wp_bind.
  eapply wp_deref; [exact Hn|]. apply wp_bind.
  destruct bo_kvm0 as (p & vm & k & kvm & Hp & Hvm & Hk & Hkvm & Hcap).
  assert (vm_fd vm = vmfd) as Hfd.
  { destruct (ro_vm _ _ _ bo_routing0) as (p' & vm' & Hp' & Hvm' & Hfd). congruence. }
  unfold vart_kvm_irqfd_assign, vart_kvm_irqfd_ioctl, vm_with. rewrite Hp.
  apply wp_bind, wp_bind. eapply wp_load_vm; [exact Hvm|]. rewrite Hfd.
  replace (vmfd <? 0) with false by lia. rewrite Hk. apply wp_bind.
  eapply wp_load_kvm; [exact Hkvm|]. apply wp_ret. rewrite Hcap. cbv iota beta zeta.
  unfold vart_event_notifier_get_fd. rewrite Hni.
  replace (notifier_fd n <? 0) with false by lia. rewrite u32_small by lia. rewrite Hfd.
  destruct (km_assign w (notifier_fd n) (gsi_of bk v)) as (err & w1 & E & Hho & Hst).
  apply wp_bind, wp_ok. exists err, w1. split; [exact E|]. apply wp_ret.
  destruct (host_irqfd_frame _ _ Hho) as (Hfr & Hi & Hrs).
  destruct (Z.ltb_spec err 0) as [Herr|Herr].
  - replace (err <? 0) with true by lia. apply wp_ret. exists bk. split; [|lia].
    apply prepared_same; try done; [|lia].
    eapply routing_ok_ext; [exact bo_routing0|done|apply Hfr].
  - change (0 <? 0) with false. cbv iota. wsteps.
    exists (bk <| mi_assigned ::= <[Z.to_nat v := true]> |>). split.
    2: { intros _. cbn. apply list_lookup_insert_eq. by eapply lookup_lt_Some. }
    unfold prepared. split_and!; try done.
    + eapply backend_ok_mark_tie; try done. rewrite Z2Nat.id by lia. exact Hst.
    + by intros g m.
    + assert (state (w1 <| w_irqfds ::= <[b := bk <| mi_assigned ::=
        <[Z.to_nat v := true]> |>]> |>) = state w1) as -> by by apply km_frame.
      by rewrite Hst.
Qed.

Lemma notify_spec w bk rv v n m steps :
  backend_ok w bk rv -> mi_notifiers bk !! v = Some n -> mi_assigned bk !! v = Some true ->
  latched rv (gsi_of bk (Z.of_nat v)) = Some m -> (0 < steps)%nat ->
  exists err w', vart_event_notifier_notify steps (Some n) 1 w = Ok (err, w') /\
    irqfd_frame w w' /\ backend_ok w' bk rv /\
    (err = 0 /\ k_msis (state w') = k_msis (state w) ++ [m] \/
     err < 0 /\ k_msis (state w') = k_msis (state w)).
Proof using HM.
  intros Hok Hn Has Hm Hsteps. pose proof Hok as Hok0. destruct Hok0 as [].
  pose proof (Forall_lookup_1 _ _ _ _ bo_notifiers0 Hn) as [Hni Hnf].
  unfold vart_event_notifier_notify. rewrite Hni. cbn [negb orb Z.eqb].
  destruct (km_write w (notifier_fd n) 1) as (count & w' & E & Hho & Hcount & Hst).
  destruct steps as [|steps]; [lia|].
  exists (transfer_result count), w'. split.
  { cbn [retry]. unfold bind. rewrite E. replace (count =? -EINTR) with false by lia. done. }
  destruct (host_irqfd_frame _ _ Hho) as (Hfr & Hi & Hrs). split; [done|].
  assert (fd_messages (state w) (notifier_fd n) = [m]) as Hfm.
  { unfold fd_messages. rewrite (bo_ties0 _ _ Hn), bool_decide_true by done. cbn.
    rewrite app_nil_r. unfold gsi_messages. rewrite bo_sync0.
    unfold latched in Hm. apply fmap_Some in Hm as (x & Hx & ->).
    apply route_map_lookup in Hx as (y & Hy & <- & ->); [|apply bo_routing0].
    apply gsi_messages_routes; [apply bo_routing0|apply bo_routing0|done]. }
  rewrite Hfm in Hst. split.
  - apply (backend_ok_routing w w' bk rv rv); try done.
    + eapply routing_ok_ext; [exact bo_routing0|done|apply Hfr].
    + by intros g m'.
    + rewrite Hst. destruct (count =? 8); done.
    + rewrite Hst. destruct (count =? 8); done.
  - unfold transfer_result. destruct (Z.eqb_spec count 8); rewrite Hst; [by left|].
    right. destruct (Z.ltb_spec count 0); [done|lia].
Qed.

(** What a delivery of the vector [v] with the message [msg] does. *)
Definition irqfd_effect (msg : Z * Z * Z) (w : World) (bk : VartPciMsixIrqfd)
    (rv : VartKvmIrqRouting) (v err : Z) (w' : World) : Prop :=
  exists bk' rv', backend_ok w' bk' rv' /\ routes_kept rv rv' /\
  (err = 0 /\ (exists m, latched rv' (gsi_of bk v) = Some m /\
     k_msis (state w') = k_msis (state w) ++ [m] /\
     (if bool_decide (mi_route_added bk !! Z.to_nat v = Some true)
      then latched rv (gsi_of bk v) = Some m else m = (msg.1.2, msg.2))) \/
   err < 0 /\ k_msis (state w') = k_msis (state w)).

Lemma irqfd_effect_refused msg w bk rv v err :
  backend_ok w bk rv -> err < 0 -> irqfd_effect msg w bk rv v err w.
Proof. intros Hok Herr. exists bk, rv. split; [done|]. split; [by intros g m|by right]. Qed.

Lemma route_kept_trans rv1 rv2 rv3 :
  routes_kept rv1 rv2 -> routes_kept rv2 rv3 -> routes_kept rv1 rv3.
Proof. unfold routes_kept. auto. Qed.

(** The three steps of a delivery whose message is known. *)
Lemma irqfd_steps steps w bk rv v address data :
  backend_ok w bk rv -> 0 <= v < mi_vector_count bk -> 0 <= address <= UINT64_MAX ->
  (0 < steps)%nat ->
  wp (let* err := add_route b v (gsi_of bk v) address data in
      if err <? 0 then ret err
      else
        let* err := assign_irqfd b v (gsi_of bk v) in
        if err <? 0 then ret err
        else
          let* backend := load_irqfd b in
          let* notifier := deref (mi_notifiers backend !! Z.to_nat v) in
          vart_event_notifier_notify steps (Some notifier) 1)
    (fun err w' => irqfd_frame w w' /\ irqfd_effect (0, address, data) w bk rv v err w') w.
Proof using HM.
  intros Hok Hv Ha Hsteps. apply wp_bind.
  eapply wp_mono; [exact (add_route_spec w bk rv v address data Hok Hv Ha)|].
  intros e1 w1 (bk1 & rv1 & (Hf1 & Hok1 & Hk1 & Hms1 & Hn1 & Hg1 & Hc1 & He1) & Hl1 & Hin1).
  destruct (Z.ltb_spec e1 0) as [Hneg|Hpos].
  { apply wp_ret. split; [done|]. exists bk1, rv1. split; [done|]. split; [done|]. by right. }
  assert (e1 = 0) as -> by lia. specialize (Hl1 eq_refl). specialize (Hin1 eq_refl).
  assert (gsi_of bk v = gsi_of bk1 v) as Hg by (unfold gsi_of; by rewrite Hg1).
  rewrite Hg in Hl1, Hin1 |- *. apply wp_bind.
  eapply wp_mono; [apply (assign_irqfd_spec w1 bk1 rv1 v Hok1); lia|].
  intros e2 w2 (bk2 & (Hf2 & Hok2 & _ & Hms2 & Hn2 & Hg2 & Hc2 & He2) & Has2).
  assert (irqfd_frame w w2) as Hf02 by (by etrans).
  destruct (Z.ltb_spec e2 0) as [Hneg|Hpos2].
  { apply wp_ret. split; [done|]. exists bk2, rv1. split; [done|]. split; [done|].
    right. split; [done|congruence]. }
  assert (e2 = 0) as -> by lia. apply wp_bind.
  eapply wp_load_irqfd; [apply (bo_backend _ _ _ Hok2)|].
  destruct (lookup_lt_is_Some_2 (mi_notifiers bk2) (Z.to_nat v)) as [n Hn].
  { pose proof (bo_notifier_count _ _ _ Hok2). lia. }
  apply wp_bind. eapply wp_deref; [exact Hn|]. apply latched_in in Hin1 as [m Hm].
  destruct (notify_spec w2 bk2 rv1 (Z.to_nat v) n m steps Hok2 Hn)
    as (err & w3 & E & Hf3 & Hok3 & Hms3); [by apply Has2| |done|].
  { unfold gsi_of in *. by rewrite Z2Nat.id, Hg2 by lia. }
  apply wp_ok. exists err, w3. split; [done|]. split; [by etrans|].
  exists bk2, rv1. split; [done|]. split; [done|]. rewrite Hms2, Hms1 in Hms3.
  destruct Hms3 as [[-> Hms3]|Hms3]; [left|by right]. split; [done|]. exists m.
  rewrite Hg. split_and!; [done|done|]. rewrite Hm in Hl1. rewrite <- Hg in Hl1.
  rewrite <- Hg. case_bool_decide; [done|by injection Hl1].
Qed.

Lemma irqfd_inject_spec steps w m v bk rv :
  backend_ok w bk rv -> msix_of w d = Some m ->
  Z.of_nat (length (msix_table m)) = msix_vector_count m * 16 ->
  msix_configured m = true -> mi_vector_count bk = msix_vector_count m ->
  0 <= v < msix_vector_count m -> message_typed (sent_message remap m v w) ->
  (0 < steps)%nat ->
  exists err w', pci_msix_irqfd_inject steps d v (Some b) w = Ok (err, w') /\
    irqfd_frame w w' /\ irqfd_effect (sent_message remap m v w) w bk rv v err w'.
Proof using HM HR.
  intros Hok Hd Hlen Hcfg Hvc Hv [Hty1 Hty2] Hsteps. pose proof Hok as Hok0. destruct Hok0 as [].
  unfold pci_msix_irqfd_inject, pci_msix_irqfd_load_le.
  rewrite (bind_eq _ _ w bk w) by (unfold load_irqfd; run_unfold; by rewrite bo_backend0).
  rewrite bo_connected0, bool_decide_true by done.
  replace (mi_vector_count bk <=? v) with false by lia. cbn [negb orb].
  rewrite (bind_eq _ _ _ _ _ (load_msix_eq d w m Hd)).
  rewrite (bind_eq _ _ _ _ _ (table_load m (v * 16) 8 w ltac:(lia) ltac:(lia))).
  rewrite (bind_eq _ _ _ _ _ (table_load m (v * 16 + 8) 4 w ltac:(lia) ltac:(lia))).
  rewrite (bind_eq _ _ _ _ _ (remap_message_eq w m v Hd Hcfg Hv)).
  destruct (sent_message remap m v w) as [[e address] data]. cbn [fst snd] in *.
  destruct (Z.ltb_spec e 0) as [He|He].
  { exists e, w. split_and!; [done|done|by apply irqfd_effect_refused]. }
  destruct (Z.eqb_spec address 0).
  { exists (-EINVAL), w. split_and!; [done|done|by apply irqfd_effect_refused]. }
  cbv zeta. rewrite u32_small by lia. fold (gsi_of bk v).
  destruct (proj1 (wp_ok _ _ _) (irqfd_steps steps w bk rv v address data Hok ltac:(lia)
    ltac:(lia) Hsteps)) as (err & w' & E & Hf & Heff).
  exists err, w'. done.
Qed.
End Deliver.

(** C30. A device that raises a vector which MSI-X lets through, with this back end as its
    injector, makes the kernel inject one message into the guest and clears the pending bit,
    or injects nothing and leaves the vector pending.  The message is that of the vector's
    table entry, after remapping, when the vector is delivered for the first time, and the
    same message ever after: no other vector's route changes and the routing table in the
    kernel stays the one of the program. *)
Theorem irqfd_delivers `{HM : KvmModel} `{IrqCallbacks} (base : MsixCallbacks) d
    (remap : World -> Z -> Z -> Z -> Z * Z * Z) `{HR : !RemapModel d remap} b r steps
    w m v bk rv :
  backend_ok (vmfd := vmfd) (state := state) d b r w bk rv ->
  msix_of w d = Some m -> msix_ok m -> msix_configured m = true ->
  msix_inject m = Some fn_pci_msix_irqfd_inject -> msix_inject_opaque m = Some b ->
  mi_vector_count bk = msix_vector_count m ->
  0 <= v < msix_vector_count m -> deliverable m v = true ->
  msix_irq_routes m !! Z.to_nat v = Some None ->
  message_typed (sent_message remap m v w) -> (0 < steps)%nat ->
  exists err w' pba,
    @vart_pci_device_raise_msix (irqfd_callbacks steps base) _ (Some d) v w = Ok (err, w') /\
    irqfd_effect (vmfd := vmfd) (state := state) d b r (sent_message remap m v w)
      w bk rv v err w' /\
    msix_of w' d = Some (with_pba m pba) /\ pending (with_pba m pba) v = (err <? 0).
Proof.
  intros Hok Hd Hm Hcfg Hinj Hop Hvc Hv Hdel Hroute Hty Hsteps.
  assert (forall w1 devs, state (w1 <| w_devices := devs |>) = state w1) as Hst
    by (intros; by apply km_frame).
  assert (forall w1 devs bk rv, backend_ok (vmfd := vmfd) (state := state) d b r w1 bk rv ->
    backend_ok (vmfd := vmfd) (state := state) d b r (w1 <| w_devices := devs |>) bk rv)
    as Hdevs by (intros w1 devs bk1 rv1 []; split; rewrite ?Hst; try done; by destruct bo_routing0).
  destruct (@raise_sends (irqfd_callbacks steps base) _ d (fun err w' =>
    irqfd_effect (vmfd := vmfd) (state := state) d b r (sent_message remap m v w)
      w bk rv v err w'))
    with (w := w) (m := m) (v := v) as (err & w' & pba & E & Heff & Hd' & Hp); try done.
  - intros err w1 devs (bk' & rv' & Hok' & Hk & Hms). exists bk', rv'. rewrite Hst.
    split; [by apply Hdevs|]. by split.
  - intros devs pba Hd1. exists None.
    assert (sent_message remap (with_pba m pba) v (w <| w_devices := devs |>) =
      sent_message remap m v w) as Hmsg by (unfold sent_message; cbn; by rewrite rm_frame).
    destruct (irqfd_inject_spec d remap b r steps (w <| w_devices := devs |>)
      (with_pba m pba) v bk rv (Hdevs _ _ _ _ Hok))
      as (err & w' & E & (Hf & _) & Heff); try done; [apply (mo_table _ Hm)|by rewrite Hmsg|].
    exists err, w'. split_and!; [done| |done|].
    + unfold msix_send. change (msix_inject (with_pba m pba)) with (msix_inject m).
      change (msix_inject_opaque (with_pba m pba)) with (msix_inject_opaque m).
      rewrite Hinj, Hop. exact E.
    + rewrite Hmsg in Heff. unfold irqfd_effect in *. by rewrite Hst in Heff.
  - exists err, w', pba. split_and!; [|done..]. rewrite E. do 2 f_equal.
    destruct (Z.ltb_spec err 0); [done|].
    destruct Heff as (? & ? & _ & _ & [[-> _]|[? _]]); lia.
Qed.

(** * Release *)

Section Release.
Context `{HM : KvmModel} (d b r : ptr).

(** The loop of [destroy] needs of the back end: *)
Record releasable (w : World) (bk : VartPciMsixIrqfd) (rv : VartKvmIrqRouting) : Prop := {
  re_table : mi_routing bk = Some r;
  re_notifier_count : Z.of_nat (length (mi_notifiers bk)) = mi_vector_count bk;
  re_added_count : Z.of_nat (length (mi_route_added bk)) = mi_vector_count bk;
  re_assigned_count : Z.of_nat (length (mi_assigned bk)) = mi_vector_count bk;
  re_gsis : 0 <= mi_first_gsi bk /\ mi_first_gsi bk + mi_vector_count bk - 1 <= UINT32_MAX;
  re_routing : routing_ok (vmfd := vmfd) r w rv;
  re_kvm : exists p vm k kvm, routing_vm rv = Some p /\ w_vms w !! p = Some vm /\
    vm_kvm vm = Some k /\ w_kvms w !! k = Some kvm /\ kvm_irqfd kvm = true;
  re_fd : 0 <= vmfd;
  re_notifiers : Forall (fun n => notifier_initialized n = true /\
    0 <= notifier_fd n <= INT_MAX) (mi_notifiers bk);
}.

Lemma backend_releasable w bk rv :
  backend_ok (vmfd := vmfd) (state := state) d b r w bk rv -> releasable w bk rv.
Proof. intros []. by split. Qed.

Lemma releasable_ext w w' bk rv rv' : releasable w bk rv ->
  irqfd_frame w w' -> routing_ok (vmfd := vmfd) r w' rv' -> routing_vm rv' = routing_vm rv ->
  releasable w' bk rv'.
Proof.
  intros [] (Hd & Hv & Hk) Hok Hvm. split; try done. by rewrite Hvm, Hv, Hk.
Qed.

Lemma deassign_spec w bk rv v n gsi :
  releasable w bk rv -> mi_notifiers bk !! v = Some n ->
  wp (vart_kvm_irqfd_deassign (routing_vm rv) (Some n) gsi) (fun err w' =>
    host_only w w' /\ err <= 0 /\
    state w' = if err <? 0 then state w
      else (state w) <| k_irqfds ::= filter (fun x => x <> (notifier_fd n, gsi)) |>) w.
Proof using HM.
  intros [] Hn. pose proof (Forall_lookup_1 _ _ _ _ re_notifiers0 Hn) as [Hni Hnf].
  destruct re_kvm0 as (p & vm & k & kvm & Hp & Hvm & Hk & Hkvm & Hcap).
  assert (vm_fd vm = vmfd) as Hfd.
  { destruct (ro_vm _ _ _ re_routing0) as (p' & vm' & Hp' & Hvm' & Hfd). congruence. }
  unfold vart_kvm_irqfd_deassign, vart_kvm_irqfd_ioctl, vm_with. rewrite Hp.
  apply wp_bind, wp_bind. eapply wp_load_vm; [exact Hvm|]. rewrite Hfd.
  replace (vmfd <? 0) with false by lia. rewrite Hk. apply wp_bind.
  eapply wp_load_kvm; [exact Hkvm|]. apply wp_ret. rewrite Hcap. cbv iota beta zeta.
  unfold vart_event_notifier_get_fd. rewrite Hni.
  replace (notifier_fd n <? 0) with false by lia. rewrite u32_small by lia. rewrite Hfd.
  destruct (km_deassign w (notifier_fd n) gsi) as (err & w1 & E & Hho & Hst).
  apply wp_bind, wp_ok. exists err, w1. split; [exact E|]. apply wp_ret. split; [done|].
  destruct (Z.ltb_spec err 0) as [Hneg|Hpos].
  - replace (err <? 0) with true by lia. split; [lia|done].
  - done.
Qed.

(** The vector [u] lies among the [n] from [i] on and is marked in [l]. *)
Definition marked (l : list bool) (i n u : Z) : Prop :=
  i <= u < i + n /\ l !! Z.to_nat u = Some true.
(** A GSI whose route, and a tie that, the back end made for one of these vectors. *)
Definition our_gsi (bk : VartPciMsixIrqfd) (i n g : Z) : Prop :=
  exists u, marked (mi_route_added bk) i n u /\ g = gsi_of bk u.
Definition our_tie (bk : VartPciMsixIrqfd) (i n : Z) (x : Z * Z) : Prop :=
  exists u m, marked (mi_assigned bk) i n u /\ mi_notifiers bk !! Z.to_nat u = Some m /\
    x = (notifier_fd m, gsi_of bk u).

(** What releasing the [n] vectors from [i] on leaves behind: the routes are gone from the
    table of the program, the ties from the kernel unless an error is reported, and what is
    not the back end's is kept. *)
Record released (w : World) (bk : VartPciMsixIrqfd) (rv : VartKvmIrqRouting)
    (i n first : Z) (changed : bool) (res : Z * bool) (w' : World)
    (rv' : VartKvmIrqRouting) : Prop := {
  rl_frame : irqfd_frame w w';
  rl_irqfds : w_irqfds w' = w_irqfds w;
  rl_ok : releasable w' bk rv';
  rl_none : forall g, our_gsi bk i n g -> latched rv' g = None;
  rl_routes : forall g, latched rv' g = latched rv g \/
    our_gsi bk i n g /\ latched rv' g = None;
  rl_changed : res.2 = false -> changed = false /\ routing_routes rv' = routing_routes rv;
  rl_table : k_routes (state w') = k_routes (state w);
  rl_msis : k_msis (state w') = k_msis (state w);
  rl_fewer : forall x, x ∈ k_irqfds (state w') -> x ∈ k_irqfds (state w);
  rl_ties : forall x, x ∈ k_irqfds (state w) -> x ∈ k_irqfds (state w') \/ our_tie bk i n x;
  rl_untied : res.1 = 0 -> first = 0 /\
    forall x, our_tie bk i n x -> x ∉ k_irqfds (state w');
  rl_error : first <= 0 -> res.1 <= 0;
}.

Lemma marked_split l i n u : 0 <= n ->
  marked l i (1 + n) u <-> marked l i 1 u \/ marked l (i + 1) n u.
Proof.
  unfold marked. intros Hn. split; [|intros [[]|[]]; (split; [lia|done])].
  intros []. destruct (decide (u = i)); [left|right]; (split; [lia|done]).
Qed.
Lemma our_gsi_split bk i n g : 0 <= n ->
  our_gsi bk i (1 + n) g <-> our_gsi bk i 1 g \/ our_gsi bk (i + 1) n g.
Proof. intros Hn. unfold our_gsi. setoid_rewrite (marked_split _ i n _ Hn). naive_solver. Qed.
Lemma our_tie_split bk i n x : 0 <= n ->
  our_tie bk i (1 + n) x <-> our_tie bk i 1 x \/ our_tie bk (i + 1) n x.
Proof. intros Hn. unfold our_tie. setoid_rewrite (marked_split _ i n _ Hn). naive_solver. Qed.

Lemma released_step w w1 w2 bk rv rv1 rv2 i n first changed res1 res2 : 0 <= n ->
  released w bk rv i 1 first changed res1 w1 rv1 ->
  released w1 bk rv1 (i + 1) n res1.1 res1.2 res2 w2 rv2 ->
  released w bk rv i (1 + n) first changed res2 w2 rv2.
Proof.
  intros Hn [] []. split; try done; try congruence.
  - by etrans.
  - intros g [Hg|Hg]%our_gsi_split; [|auto|done].
    destruct (rl_routes1 g) as [->|[_ ->]]; auto.
  - intros g. rewrite our_gsi_split by done.
    destruct (rl_routes1 g) as [->|[? ->]]; [|tauto].
    destruct (rl_routes0 g) as [->|[? ->]]; tauto.
  - intros E. destruct (rl_changed1 E) as [E1 ->]. auto.
  - auto.
  - intros x Hx. rewrite our_tie_split by done.
    destruct (rl_ties0 x Hx) as [Hx1|]; [|tauto]. destruct (rl_ties1 x Hx1); tauto.
  - intros E. destruct (rl_untied1 E) as [E1 Hx2]. destruct (rl_untied0 E1) as [E0 Hx1].
    split; [done|]. intros x [Hx|Hx]%our_tie_split; [|by apply Hx2|done].
    intros Hin. by apply (Hx1 x Hx), rl_fewer1.
  - auto.
Qed.
(** The tie of one vector. *)
Lemma untie_spec w bk rv i first :
  releasable w bk rv -> 0 <= i < mi_vector_count bk -> forall assigned,
  mi_assigned bk !! Z.to_nat i = Some assigned ->
  wp (if assigned : bool then
        let* r := deref (mi_routing bk) in
        let* routing := load_routing r in
        let* notifier := deref (mi_notifiers bk !! Z.to_nat i) in
        let* err := vart_kvm_irqfd_deassign (routing_vm routing) (Some notifier)
                      (u32 (mi_first_gsi bk + i)) in
        ret (keep_first first err)
      else ret first)
    (fun e w' => host_only w w' /\ releasable w' bk rv /\ (first <= 0 -> e <= 0) /\
      k_routes (state w') = k_routes (state w) /\ k_msis (state w') = k_msis (state w) /\
      (forall x, x ∈ k_irqfds (state w') -> x ∈ k_irqfds (state w)) /\
      (forall x, x ∈ k_irqfds (state w) ->
         x ∈ k_irqfds (state w') \/ our_tie bk i 1 x) /\
      (e = 0 -> first = 0 /\ forall x, our_tie bk i 1 x -> x ∉ k_irqfds (state w'))) w.
Proof using HM.
  intros Hok Hi assigned Has. destruct assigned.
  2: { apply wp_ret. split_and!; try done; [tauto|].
       intros ->. split; [done|]. intros x (u & m & [? Hu] & _). 
       assert (u = i) as -> by lia. congruence. }
  pose proof Hok as Hok0. destruct Hok0 as [].
  destruct (lookup_lt_is_Some_2 (mi_notifiers bk) (Z.to_nat i)) as [n Hn]; [lia|].
  apply wp_bind. eapply wp_deref; [exact re_table0|]. apply wp_bind.
  eapply wp_load_routing; [apply re_routing0|]. apply wp_bind.
  eapply wp_deref; [exact Hn|]. apply wp_bind. rewrite u32_small by lia.
  eapply wp_mono; [exact (deassign_spec w bk rv _ n _ Hok Hn)|].
  intros err w1 (Hho & Herr & Hst). apply wp_ret.
  destruct (host_irqfd_frame _ _ Hho) as (Hfr & Hir & Hrs).
  assert (forall x, our_tie bk i 1 x <-> x = (notifier_fd n, gsi_of bk i)) as Htie.
  { intros x. split; [|intros ->; exists i, n; split; [split; [lia|done]|done]].
    intros (u & m & [? _] & Hm & ->). assert (u = i) as -> by lia. congruence. }
  split_and!; [done| | | | | | |]; try setoid_rewrite Htie.
  - eapply releasable_ext; [done|done| |done]. by eapply routing_ok_ext; [|done|apply Hfr].
  - unfold keep_first. destruct (_ && _); lia.
  - rewrite Hst. by destruct (err <? 0).
  - rewrite Hst. by destruct (err <? 0).
  - intros x. rewrite Hst. destruct (err <? 0); [done|]. cbn. by intros []%list_elem_of_filter.
  - intros x Hx. rewrite Hst. destruct (err <? 0); [by left|]. cbn.
    rewrite list_elem_of_filter. unfold gsi_of.
    destruct (decide (x = (notifier_fd n, mi_first_gsi bk + i))); tauto.
  - unfold keep_first. destruct (Z.ltb_spec err 0) as [Hneg|]; cbn.
    + destruct (Z.eqb_spec first 0); lia.
    + intros ->. split; [done|]. intros x ->. rewrite Hst. cbn.
      rewrite list_elem_of_filter. unfold gsi_of. tauto.
Qed.

Lemma release_vector_spec w bk rv i first changed :
  releasable w bk rv -> 0 <= i < mi_vector_count bk ->
  wp (release_vector bk i first changed) (fun res w' =>
    exists rv', released w bk rv i 1 first changed res w' rv') w.
Proof using HM.
  intros Hok Hi. pose proof Hok as Hok0. destruct Hok0 as [].
  destruct (lookup_lt_is_Some_2 (mi_assigned bk) (Z.to_nat i)) as [as_ Has]; [lia|].
  destruct (lookup_lt_is_Some_2 (mi_route_added bk) (Z.to_nat i)) as [ad Had]; [lia|].
  unfold release_vector. cbv zeta. apply wp_bind. eapply wp_deref; [exact Has|].
  apply wp_bind. eapply wp_mono; [exact (untie_spec w bk rv i first Hok Hi as_ Has)|].
  intros e w1 (Hho & Hok1 & He & Hkr & Hkm & Hfew & Hties & Hun).
  destruct (host_irqfd_frame _ _ Hho) as (Hfr & Hir & Hrs).
  apply wp_bind. eapply wp_deref; [exact Had|].
  assert (forall g, our_gsi bk i 1 g <-> ad = true /\ g = gsi_of bk i) as Hgsi.
  { intros g. split.
    - intros (u & [? Hu] & ->). assert (u = i) as -> by lia. by simplify_eq.
    - intros [-> ->]. exists i. by split; [split; [lia|]|]. }
  destruct ad.
  2: { apply wp_ret. exists rv. split; try done; setoid_rewrite Hgsi; naive_solver. }
  rewrite u32_small by lia. fold (gsi_of bk i). apply wp_bind. rewrite re_table0.
  pose proof (remove_route_spec (gsi_of bk i) _ (ro_gsis _ _ _ (re_routing _ _ _ Hok1))) as Hrm.
  eapply wp_mono; [exact (remove_msi_spec r w1 rv _ (re_routing _ _ _ Hok1))|].
  intros err w2 (Hfr2 & Hf2 & rv2 & Hok2 & Hvm2 & Hcase).
  apply routing_irqfd_frame in Hfr2 as [Hfr2 Hi2].
  assert (state w2 = state w1) as Hst by by apply km_frame.
  assert (releasable w2 bk rv2) as Hrel by by eapply releasable_ext.
  assert (latched rv2 (gsi_of bk i) = None /\
    forall g, g <> gsi_of bk i -> latched rv2 g = latched rv g) as [Hnone Hother].
  { unfold latched. destruct (remove_route _ _) as [l|]; destruct Hcase as [-> ->].
    - destruct Hrm as (_ & _ & _ & _ & _ & ->). rewrite lookup_delete_eq. split; [done|].
      intros g Hg. by rewrite lookup_delete_ne.
    - split; [|done]. apply route_map_None in Hrm. by rewrite Hrm. }
  assert (err = 0 \/ err = -ENOENT /\ routing_routes rv2 = routing_routes rv) as Herr
    by (destruct (remove_route _ _); [left|right]; tauto).
  assert (forall c, (c = false -> changed = false /\ err = -ENOENT) ->
    released w bk rv i 1 first changed (e, c) w2 rv2) as Hdone.
  { intros c Hc. split; rewrite ?Hst; try done.
    - by etrans.
    - by rewrite Hi2.
    - intros g [_ ->]%Hgsi. done.
    - intros g. rewrite Hgsi. destruct (decide (g = gsi_of bk i)) as [->|]; auto.
    - intros [-> ->]%Hc. split; [done|]. destruct Herr as [?|[_ ?]]; [lia|done]. }
  destruct (Z.eqb_spec err 0) as [->|Hne].
  - apply wp_ret. exists rv2. apply Hdone. done.
  - destruct Herr as [?|[-> _]]; [done|]. cbn [Z.eqb negb andb]. apply wp_ret. exists rv2.
    apply Hdone. done.
Qed.

Lemma release_vectors_spec bk n : forall w rv i first changed,
  releasable w bk rv -> 0 <= i -> i + Z.of_nat n <= mi_vector_count bk ->
  wp (release_vectors bk n i first changed) (fun res w' =>
    exists rv', released w bk rv i (Z.of_nat n) first changed res w' rv') w.
Proof using HM.
  induction n as [|n IH]; intros w rv i first changed Hok Hi Hn; cbn [release_vectors].
  - apply wp_ret. exists rv.
    split; try done; unfold our_gsi, our_tie, marked; [naive_solver lia|auto|auto|].
    cbn. intros ->. split; [done|naive_solver lia].
  - apply wp_bind. eapply wp_mono; [apply (release_vector_spec w bk rv); [done|lia]|].
    intros [e c] w1 [rv1 H1]. eapply wp_mono; [apply (IH w1 rv1); [apply H1|lia|lia]|].
    intros res w2 [rv2 H2]. exists rv2. rewrite Nat2Z.inj_succ, <- Z.add_1_l.
    eapply released_step; [lia|exact H1|exact H2].
Qed.

Lemma destroy_notifiers_spec l : forall w,
  wp (destroy_notifiers l) (fun _ w' => host_only w w' /\ state w' = state w) w.
Proof using HM.
  induction l as [|x l IH]; intros w; cbn.
  - apply wp_ret. split; [by exists (w_files w); destruct w|done].
  - apply wp_bind. unfold vart_event_notifier_destroy. apply wp_bind.
    assert (wp (if notifier_initialized x then close_fd (notifier_fd x) else ret tt)
      (fun _ w' => host_only w w' /\ state w' = state w) w) as Hx.
    { destruct (notifier_initialized x).
      - destruct (km_close w (notifier_fd x)) as (w' & E & Hh & Hs). apply wp_ok. eauto.
      - apply wp_ret. split; [by exists (w_files w); destruct w|done]. }
    eapply wp_mono; [exact Hx|]. intros _ w1 [[f1 ->] Hs1]. apply wp_ret.
    eapply wp_mono; [apply IH|]. intros _ w2 [[f2 ->] Hs2].
    split; [by exists f2; destruct w|congruence].
Qed.
End Release.

(** The commit that ends a release, when a route was removed. *)
Lemma release_commit `{HM : KvmModel} r w rv first (changed : bool) :
  routing_ok (vmfd := vmfd) r w rv -> first <= 0 ->
  wp (if changed then
        let* err := vart_kvm_irq_routing_commit (Some r) in ret (keep_first first err)
      else ret first)
    (fun e w' => routing_frame r w w' /\ routing_ok (vmfd := vmfd) r w' rv /\ e <= 0 /\
      k_msis (state w') = k_msis (state w) /\ k_irqfds (state w') = k_irqfds (state w) /\
      (e = 0 -> first = 0 /\ k_routes (state w') =
         if changed then map routing_entry (routing_routes rv) else k_routes (state w))) w.
Proof.
  intros Hok Hf. destruct changed.
  2: { apply wp_ret. split_and!; try done. apply routing_frame_refl. }
  apply wp_bind. eapply wp_mono; [exact (commit_spec r w rv Hok)|].
  intros err w' (Hfr & Hok' & Hcase). apply wp_ret. unfold keep_first.
  destruct Hcase as [[Herr Hst]|[-> Hst]]; rewrite Hst.
  - replace (err <? 0) with true by lia. cbn [andb].
    split_and!; try done; destruct (Z.eqb_spec first 0); lia.
  - cbn. split_and!; done.
Qed.

(** What the destruction of the back end [b] of the function [d] on the routing table [r]
    leaves behind. *)
Record destroyed `{KvmModel} (d b r : ptr) (w : World) (m : VartPciMsix)
    (bk : VartPciMsixIrqfd) (rv : VartKvmIrqRouting) (err : Z) (w' : World)
    (rv' : VartKvmIrqRouting) : Prop := {
  ds_error : err <= 0;
  ds_injector : msix_of w' d =
    Some (m <| msix_inject := None |> <| msix_inject_opaque := None |>);
  ds_record : w_irqfds w' = <[b := zero_irqfd]> (w_irqfds w);
  ds_silent : k_msis (state w') = k_msis (state w);
  ds_table : routing_ok (vmfd := vmfd) r w' rv';
  ds_gone : forall g, our_gsi bk 0 (mi_vector_count bk) g -> latched rv' g = None;
  ds_routes : forall g, latched rv' g = latched rv g \/
    our_gsi bk 0 (mi_vector_count bk) g /\ latched rv' g = None;
  ds_ties : forall x, x ∈ k_irqfds (state w) ->
    x ∈ k_irqfds (state w') \/ our_tie bk 0 (mi_vector_count bk) x;
  ds_kernel : err = 0 -> k_routes (state w') = map routing_entry (routing_routes rv');
  ds_untied : err = 0 -> forall x, our_tie bk 0 (mi_vector_count bk) x ->
    x ∉ k_irqfds (state w');
}.

(** The steps after the injector was taken away. *)
Lemma destroy_rest `{HM : KvmModel} d b r w w0 m bk rv :
  backend_ok (vmfd := vmfd) (state := state) d b r w bk rv ->
  w_irqfds w = w_irqfds w0 -> state w = state w0 ->
  msix_of w d = Some (m <| msix_inject := None |> <| msix_inject_opaque := None |>) ->
  wp (let* (first_error, changed) :=
        release_vectors bk (Z.to_nat (mi_vector_count bk)) 0 0 false in
      let* first_error :=
        if changed : bool then
          let* err := vart_kvm_irq_routing_commit (mi_routing bk) in
          ret (keep_first first_error err)
        else ret first_error in
      destroy_notifiers (mi_notifiers bk) ;;; store_irqfd b zero_irqfd ;;; ret first_error)
    (fun err w' => exists rv', destroyed d b r w0 m bk rv err w' rv') w.
Proof.
  intros Hok Hirq Hst Hd. pose proof (backend_releasable d b r w bk rv Hok) as Hrel.
  pose proof (bo_notifier_count _ _ _ _ _ _ Hok) as Hn0.
  apply wp_bind. eapply wp_mono.
  { apply (release_vectors_spec r bk _ w rv 0 0 false Hrel); lia. }
  rewrite Z2Nat.id by lia. intros [first changed] w1 (rv' & []). cbn [fst snd] in *.
  rewrite (bo_table _ _ _ _ _ _ Hok). apply wp_bind. eapply wp_mono.
  { apply (release_commit r w1 rv'); [apply rl_ok0|auto with lia]. }
  intros err w2 (Hfr2 & Hok2 & Herr & Hm2 & Hi2 & Hk2).
  destruct (routing_irqfd_frame _ _ _ Hfr2) as [Hf2 Hir2].
  apply wp_bind. eapply wp_mono; [apply destroy_notifiers_spec|].
  intros _ w3 [Hho Hst3]. destruct (host_irqfd_frame _ _ Hho) as (Hf3 & Hir3 & Hr3).
  wsteps. exists rv'.
  assert (state (w3 <| w_irqfds ::= <[b := zero_irqfd]> |>) = state w2) as Hst4
    by (rewrite <- Hst3; by apply km_frame).
  assert (irqfd_frame w w3) as (Hdev & _ & _) by (by do 2 (etrans; [eassumption|])).
  split; rewrite ?Hst4, ?Hm2, ?Hi2; try done.
  - unfold msix_of in *. cbn. by rewrite Hdev.
  - cbn. congruence.
  - congruence.
  - eapply routing_ok_ext; [exact Hok2|exact Hr3|apply Hf3].
  - rewrite <- Hst. done.
  - intros ->. destruct (Hk2 eq_refl) as [-> ->]. destruct changed; [done|].
    destruct (rl_changed0 eq_refl) as [_ ->]. rewrite rl_table0. apply (bo_sync _ _ _ _ _ _ Hok).
  - intros ->. destruct (Hk2 eq_refl) as [-> _]. by destruct (rl_untied0 eq_refl).
Qed.

(** C31. Destroying the back end of a function returns.  The function has no injector left, the
    back end's record is cleared, no message is sent, the routes of its vectors are gone
    from the routing table and every other route is kept.  If the result is 0, the kernel
    has the new table and no descriptor of the back end is tied to a GSI; ties that are not
    the back end's are kept in any case. *)
Theorem irqfd_destroy_releases `{HM : KvmModel} d b r w m bk rv :
  backend_ok (vmfd := vmfd) (state := state) d b r w bk rv ->
  msix_of w d = Some m -> msix_configured m = true ->
  exists err w' rv', vart_pci_msix_irqfd_destroy (Some b) w = Ok (err, w') /\
    destroyed d b r w m bk rv err w' rv'.
Proof.
  intros Hok Hd Hcfg.
  destruct (store_msix_devices d w m (m <| msix_inject := None |>
    <| msix_inject_opaque := None |>) Hd) as (devs & E & Hd1).
  assert (state (w <| w_devices := devs |>) = state w) as Hst by by apply km_frame.
  assert (backend_ok (vmfd := vmfd) (state := state) d b r (w <| w_devices := devs |>) bk rv)
    as Hok1 by (destruct Hok as []; split; rewrite ?Hst; try done; by destruct bo_routing0).
  destruct (proj1 (wp_ok _ _ _) (destroy_rest d b r _ w m bk rv Hok1 eq_refl Hst Hd1))
    as (err & w' & Erest & rv' & Hds).
  exists err, w', rv'. split; [|done]. unfold vart_pci_msix_irqfd_destroy.
  rewrite (bind_eq _ _ w bk w)
    by (unfold load_irqfd; run_unfold; by rewrite (bo_backend _ _ _ _ _ _ Hok)).
  rewrite (bo_connected _ _ _ _ _ _ Hok). cbn [negb].
  rewrite (bo_device _ _ _ _ _ _ Hok). cbn [vart_pci_device_set_msix_injector].
  rewrite bind_bind, (bind_eq _ _ _ _ _ (load_msix_eq d w m Hd)).
  rewrite Hcfg. cbn [negb]. rewrite bind_bind, (bind_eq _ _ _ _ _ E). exact Erest.
Qed.

(** * A function with two vectors on the kernel of [KvmDemo] *)
Module MsixIrqfdDemo.
Import KvmDemo.
Definition fn : ptr := 9%positive.
Definition backend : ptr := 7%positive.
Definition vectors : list Z :=
  [0; 0x10; 0; 0x28; 0; 0; 0; 0; 5; 0; 0; 0; 0; 0; 0; 0;
   0; 0x20; 0; 0x28; 0; 0; 0; 0; 6; 0; 0; 0; 0; 0; 0; 0].
Definition msix : VartPciMsix :=
  mkMsix 1%positive 1%positive vectors (repeat 0 8) [None; None]
    (Some fn_pci_msix_irqfd_inject) (Some backend) None None 0 0 0 0 0 2 true true true false.
Definition bk0 : VartPciMsixIrqfd :=
  mkMsixIrqfd (Some fn) (Some table) [mkNotifier 20 true; mkNotifier 21 true]
    [false; false] [false; false] 32 2 true.
Definition rv0 : VartKvmIrqRouting := mkRouting (Some vm) [] 0 true.
Definition device (x : VartPciMsix) : VartPciDevice :=
  mkPciDevice (mkDevice None None false None None true) None 0 0 [] [] None 0 0 x
    None 0 false false true.
Definition i0 : World := k0 <| w_devices := {[fn := device msix]} |>
  <| w_irqfds := {[backend := bk0]} |>.

#[local] Instance irq : IrqCallbacks := fun _ _ _ _ => ret 0.
#[local] Instance no_callbacks : MsixCallbacks := {|
  call_msix_inject _ _ _ _ := ret 0;
  call_msix_remap _ _ _ a x _ := ret (0, a, x);
|}.
Definition identity (w : World) (v a x : Z) : Z * Z * Z := (0, a, x).
#[local] Instance identity_model : RemapModel fn identity.
Proof. by split. Qed.

(** [vart_pci_msix_irqfd_init] makes this record. *)
Example init_makes_backend : exists w',
  vart_pci_msix_irqfd_init (Some backend) (Some fn) (Some table) 32
    (i0 <| w_irqfds := {[backend := zero_irqfd]} |>) = Ok (0, w') /\
  w_irqfds w' !! backend = Some bk0.
Proof. eexists. split; vm_compute; reflexivity. Qed.

Lemma backend_ok0 : backend_ok (vmfd := 5) (state := state) fn backend table i0 bk0 rv0.
Proof.
  split; try done.
  - destruct k0_routing. by split.
  - eexists vm, _, kvm, _. split_and!; reflexivity.
  - repeat constructor; cbn; lia.
  - repeat constructor; set_solver.
  - intros [|[|v]]; discriminate.
  - intros [|[|v]]; [reflexivity..|discriminate].
Qed.
Lemma msix_ok0 : msix_ok msix.
Proof.
  split; [cbn; lia|reflexivity|reflexivity| |reflexivity].
  repeat (constructor; [unfold byte_ok; lia|]). constructor.
Qed.

Lemma irqfd_delivers_witness :
  exists err w' p,
    @vart_pci_device_raise_msix (irqfd_callbacks 1 no_callbacks) _ (Some fn) 1 i0 =
      Ok (err, w') /\
    irqfd_effect (vmfd := 5) (state := state) fn backend table
      (sent_message identity msix 1 i0) i0 bk0 rv0 1 err w' /\
    msix_of w' fn = Some (with_pba msix p) /\ pending (with_pba msix p) 1 = (err <? 0).
Proof.
  apply (irqfd_delivers no_callbacks fn identity backend table 1 i0 msix 1 bk0 rv0
    backend_ok0); try reflexivity.
  - exact msix_ok0.
  - cbn. lia.
  - split; vm_compute; split; discriminate.
  - lia.
Defined.

Lemma irqfd_destroy_releases_witness :
  exists err w' rv', vart_pci_msix_irqfd_destroy (Some backend) i0 = Ok (err, w') /\
    destroyed (vmfd := 5) (state := state) fn backend table i0 msix bk0 rv0 err w' rv'.
Proof.
  apply (irqfd_destroy_releases fn backend table i0 msix bk0 rv0 backend_ok0);
    reflexivity.
Defined.

(** The table entry is read when a vector is delivered for the first time. *)
Definition raise (v : Z) : M World Z :=
  @vart_pci_device_raise_msix (irqfd_callbacks 1 no_callbacks) _ (Some fn) v.
Example two_vectors : exists w',
  (raise 1 ;;; raise 0 ;;; raise 1 ;;; vart_pci_msix_irqfd_destroy (Some backend)) i0 =
    Ok (0, w') /\
  state w' = mkKvmState [] [] [(0x28002000, 6); (0x28001000, 5); (0x28002000, 6)].
Proof. eexists. split; vm_compute; reflexivity. Qed.
End MsixIrqfdDemo.
