(* ===== verification/Vcpu.v ===== *)
(** Virtual CPUs: [src/kvm/vcpu.c] and [src/event/exec.c].

    A vCPU has a descriptor, the page it shares with the kernel, a copy of its registers
    and its place in the list of its VM.  Every operation
    that takes the VM's big lock is one critical section here; how the worker thread and
    the threads that stop or kick it interleave is the subject of [VcpuThread]. *)

From Stdlib Require Import ZArith Lia.
From stdpp Require Import base tactics numbers list gmap.
From S2P Require Import Prelude Bytes Machine AddressSpace EventLoop KvmIrq.

Abbreviation KVM_EXIT_MMIO := 6 (only parsing).
Abbreviation KVM_EXIT_SHUTDOWN := 8 (only parsing).
Abbreviation KVM_EXIT_SYSTEM_EVENT := 24 (only parsing).
Abbreviation KVM_EXIT_RISCV_SBI := 35 (only parsing).
Abbreviation KVM_MP_STATE_RUNNABLE := 0 (only parsing).
Abbreviation KVM_MP_STATE_STOPPED := 5 (only parsing).
Abbreviation KVM_RISCV_MODE_U := 0 (only parsing).
Abbreviation KVM_RISCV_MODE_S := 1 (only parsing).
Abbreviation KVM_REG_RISCV_CORE := 0x2000000 (only parsing).
Abbreviation KVM_REG_RISCV_CSR := 0x3000000 (only parsing).
Abbreviation KVM_REG_RISCV_TIMER := 0x4000000 (only parsing).
Abbreviation VART_RISCV_REG_CORE := 1 (only parsing).
Abbreviation VART_RISCV_REG_CSR := 2 (only parsing).
Abbreviation VART_RISCV_REG_TIMER := 4 (only parsing).
Abbreviation VART_RISCV_REG_ALL := 7 (only parsing).

(** System calls and threads; a negative result is [-errno].  The first argument is the
    descriptor of the vCPU.  [ioctl_get_one_reg] receives and gives back what the value
    pointer points to, and [ioctl_run] the page shared with the kernel.
    [install_kick_signal] is the result of [pthread_once] and the error that the
    installation of the handler left. *)
Class VcpuHost := {
  ioctl_create_vcpu : Z -> Z -> M World Z;
  map_run_page : Z -> Z -> M World (Z * kvm_run);
  unmap_run_page : Z -> M World unit;
  close_vcpu : Z -> M World unit;
  ioctl_get_one_reg : Z -> Z -> Z -> M World (Z * Z);
  ioctl_set_one_reg : Z -> Z -> Z -> M World Z;
  ioctl_get_mp_state : Z -> M World (Z * Z);
  ioctl_set_mp_state : Z -> Z -> M World Z;
  ioctl_run : Z -> kvm_run -> M World (Z * kvm_run);
  thread_block_kick : M World Z;
  install_kick_signal : M World (Z * Z);
  thread_create : ptr -> M World (Z * Z);
  thread_kick : Z -> M World Z;
  thread_join : Z -> M World Z;
}.

(** The data of an exit.  The members of the union are fields of their own; the code reads
    the member that the type selects. *)
Inductive VartVcpuExitType :=
| VART_VCPU_EXIT_MMIO
| VART_VCPU_EXIT_SYSTEM_EVENT
| VART_VCPU_EXIT_RISCV_SBI
| VART_VCPU_EXIT_SHUTDOWN
| VART_VCPU_EXIT_INTERRUPTED
| VART_VCPU_EXIT_UNKNOWN.
#[export] Instance VartVcpuExitType_eq_dec : EqDecision VartVcpuExitType.
Proof. solve_decision. Defined.
Record exit_mmio := mkExitMmio {
  mmio_address : Z; mmio_data : list Z; mmio_size : Z; mmio_is_write : bool }.
Record exit_system_event := mkExitEvent {
  event_type : Z; event_ndata : Z; event_data : list Z }.
Record exit_sbi := mkExitSbi {
  sbi_extension_id : Z; sbi_function_id : Z; sbi_args : list Z }.
Record VartVcpuExit := mkExit {
  exit_type : VartVcpuExitType;
  exit_kvm_reason : Z;
  exit_mmio_data : exit_mmio;
  exit_event_data : exit_system_event;
  exit_sbi_data : exit_sbi;
}.
#[export] Instance VartVcpuExit_rebuild : Rebuild VartVcpuExit :=
  env_const mkExit $* exit_type $* exit_kvm_reason $* exit_mmio_data $* exit_event_data
    $* exit_sbi_data.

(** [memset] to 0. *)
Definition zero_exit : VartVcpuExit :=
  mkExit VART_VCPU_EXIT_MMIO 0 (mkExitMmio 0 (replicate 8 0) 0 false)
    (mkExitEvent 0 0 (replicate 16 0)) (mkExitSbi 0 0 (replicate 6 0)).
Definition zero_core : VartRiscvCoreState := mkCore 0 (replicate 32 0) 0.
Definition zero_csr : VartRiscvCsrState := mkCsr 0 0 0 0 0 0 0 0 0 0 0.
Definition zero_cpu_state : VartRiscvCpuState :=
  mkCpuState zero_core zero_csr (mkTimer 0 0 0 0) 0 0.
Definition zero_vcpu : VartVcpu :=
  mkVcpu None 0 0 None 0 false 0 false 0 VART_VCPU_THREAD_CREATED false false 0 None None
    false false zero_cpu_state None.

(** Members of the union in the shared page, by their offset. *)
Definition union_load (data : list Z) (offset n : nat) : Z :=
  load_le (take n (drop offset data)).
Definition union_store (data : list Z) (offset : nat) (bytes : list Z) : list Z :=
  take offset data ++ bytes ++ drop (offset + length bytes) data.

(** * Registers *)

(** Identifiers of 64-bit registers: [RISCV_REG] of [riscv-cpu.c]. *)
Definition RISCV_REG (type index : Z) : Z :=
  Z.lor (Z.lor (Z.lor 0x8000000000000000 0x0030000000000000) type) index.
Definition CORE_PC : Z := RISCV_REG KVM_REG_RISCV_CORE 0.
Definition CORE_MODE : Z := RISCV_REG KVM_REG_RISCV_CORE 32.
Definition riscv_gpr_id (index : Z) : Z := RISCV_REG KVM_REG_RISCV_CORE index.


Section Vcpu.
Context `{VcpuHost}.

Definition vcpu_vm_of (v : VartVcpu) : M World VartVm :=
  let* vm := deref (vcpu_vm v) in load_vm vm.
Definition vcpu_kvm_of (v : VartVcpu) : M World VartKvm :=
  let* vm := vcpu_vm_of v in
  let* kvm := deref (vm_kvm vm) in load_kvm kvm.

(** * [src/kvm/vcpu.c]: registers *)

(** The error code and what the value pointer points to. *)
Definition vart_vcpu_get_one_reg (v : VartVcpu) (id value : Z) : M World (Z * Z) :=
  let* (err, value) := ioctl_get_one_reg (vcpu_fd v) id value in
  ret (if err <? 0 then err else 0, value).
Definition vart_vcpu_set_one_reg (v : VartVcpu) (id value : Z) : M World Z :=
  let* err := ioctl_set_one_reg (vcpu_fd v) id value in
  ret (if err <? 0 then err else 0).

Definition vart_vcpu_get_pc (p : ptr) (value : Z) : M World (Z * Z) :=
  let* v := load_vcpu p in vart_vcpu_get_one_reg v CORE_PC value.

Definition clear_group (groups group : Z) : Z := Z.land groups (Z.lnot group).
Definition vart_vcpu_invalidate_core_state (p : ptr) : M World unit :=
  let* v := load_vcpu p in
  store_vcpu p (v <| vcpu_cpu_state ::= (fun s =>
    s <| cs_valid ::= (fun x => clear_group x VART_RISCV_REG_CORE) |>
      <| cs_dirty ::= (fun x => clear_group x VART_RISCV_REG_CORE) |>) |>).

(** A core register is written and the cached core registers are no longer valid. *)
Definition set_core_register (p : ptr) (id value : Z) : M World Z :=
  let* v := load_vcpu p in
  let* err := vart_vcpu_set_one_reg v id value in
  if err =? 0 then vart_vcpu_invalidate_core_state p ;;; ret err else ret err.

Definition vart_vcpu_set_pc (p : ptr) (value : Z) : M World Z :=
  set_core_register p CORE_PC value.

Definition vart_vcpu_set_mode (p : ptr) (mode : Z) : M World Z :=
  if negb (mode =? KVM_RISCV_MODE_S) && negb (mode =? KVM_RISCV_MODE_U) then ret (-EINVAL)
  else set_core_register p CORE_MODE mode.

Definition vart_vcpu_get_gpr (p : ptr) (index : Z) (value : option Z)
    : M World (Z * option Z) :=
  match value with
  | None => ret (-EINVAL, value)
  | Some x =>
      if 31 <? index then ret (-EINVAL, value)
      else if index =? 0 then ret (0, Some 0)
      else
        let* v := load_vcpu p in
        let* (err, x) := vart_vcpu_get_one_reg v (riscv_gpr_id index) x in
        ret (err, Some x)
  end.

Definition vart_vcpu_set_gpr (p : ptr) (index value : Z) : M World Z :=
  if 31 <? index then ret (-EINVAL)
  else if index =? 0 then ret (if value =? 0 then 0 else -EINVAL)
  else set_core_register p (riscv_gpr_id index) value.

Definition vart_vcpu_get_mp_state (p : ptr) (state : option Z) : M World (Z * option Z) :=
  match state with
  | None => ret (-EINVAL, None)
  | Some _ =>
      let* v := load_vcpu p in
      let* kvm := vcpu_kvm_of v in
      if negb (kvm_mp_state kvm) then ret (-ENOTSUP, state)
      else
        let* (err, mp) := ioctl_get_mp_state (vcpu_fd v) in
        if err <? 0 then ret (err, state) else ret (0, Some mp)
  end.

Definition vart_vcpu_set_mp_state (p : ptr) (state : Z) : M World Z :=
  let* v := load_vcpu p in
  let* kvm := vcpu_kvm_of v in
  if negb (kvm_mp_state kvm) then ret (-ENOTSUP)
  else
    let* err := ioctl_set_mp_state (vcpu_fd v) state in
    ret (if err <? 0 then err else 0).

(** * [src/kvm/vcpu.c]: the vCPU and its place in the VM *)

Definition vart_vcpu_create (p vm : ptr) (hart_id : Z) : M World Z :=
  let* vm' := load_vm vm in
  let* k := deref (vm_kvm vm') in
  let* kvm := load_kvm k in
  let size := u64 (kvm_vcpu_mmap_size kvm) in
  let v := zero_vcpu <| vcpu_fd := -1 |> <| vcpu_vm := Some vm |>
             <| vcpu_hart_id := hart_id |> <| vcpu_run_size := size |> in
  store_vcpu p v ;;;
  let* fd := ioctl_create_vcpu (vm_fd vm') hart_id in
  if fd <? 0 then ret fd
  else
    let* (err, page) := map_run_page fd size in
    if err <? 0 then close_vcpu fd ;;; ret err
    else
      let* vm' := load_vm vm in
      store_vcpu p (v <| vcpu_fd := fd |> <| vcpu_run := Some page |>
                      <| vcpu_next := vm_vcpus vm' |>) ;;;
      store_vm vm (vm' <| vm_vcpus := Some p |>) ;;;
      ret 0.

(** A link of the VM's list: [link] is the vCPU whose [next] is the link, [None] for the
    head in the VM. *)
Definition read_link (vm : ptr) (link : option ptr) : M World (option ptr) :=
  match link with
  | None => let* vm' := load_vm vm in ret (vm_vcpus vm')
  | Some q => let* v := load_vcpu q in ret (vcpu_next v)
  end.
Definition write_link (vm : ptr) (link target : option ptr) : M World unit :=
  match link with
  | None => let* vm' := load_vm vm in store_vm vm (vm' <| vm_vcpus := target |>)
  | Some q => let* v := load_vcpu q in store_vcpu q (v <| vcpu_next := target |>)
  end.

(** The loop over the links. *)
Fixpoint unlink_loop (steps : nat) (vm p : ptr) (link : option ptr) : M World unit :=
  match steps with
  | O => out_of_fuel
  | S steps =>
      let* target := read_link vm link in
      match target with
      | None => ret tt
      | Some q =>
          if bool_decide (q = p) then
            let* v := load_vcpu p in write_link vm link (vcpu_next v)
          else unlink_loop steps vm p (Some q)
      end
  end.

Definition vart_vcpu_destroy (steps : nat) (p : ptr) : M World unit :=
  let* v := load_vcpu p in
  (if vcpu_thread_created v && negb (vcpu_thread_joined v)
   then thread_join (vcpu_thread v) ;;; ret tt else ret tt) ;;;
  match vcpu_vm v with
  | Some vm => unlink_loop steps vm p None
  | None => ret tt
  end ;;;
  match vcpu_run v with
  | Some _ => unmap_run_page (vcpu_run_size v)
  | None => ret tt
  end ;;;
  (if 0 <=? vcpu_fd v then close_vcpu (vcpu_fd v) else ret tt) ;;;
  store_vcpu p (zero_vcpu <| vcpu_fd := -1 |>).

(** * [src/kvm/vcpu.c]: running *)

(** What an exit of the reason [reason] with the union [data] is reported as. *)
Definition decode_mmio (data : list Z) : exit_mmio :=
  mkExitMmio (union_load data 0 8) (take 8 (drop 8 data)) (union_load data 16 4)
    (negb (union_load data 20 1 =? 0)).
Definition decode_event (data : list Z) : exit_system_event :=
  mkExitEvent (union_load data 0 4) (union_load data 4 4)
    (map (fun i => union_load data (8 + 8 * i) 8) (seq 0 16)).
Definition decode_sbi (data : list Z) : exit_sbi :=
  mkExitSbi (union_load data 0 8) (union_load data 8 8)
    (map (fun i => union_load data (16 + 8 * i) 8) (seq 0 6)).

Definition vart_vcpu_run (p : ptr) : M World (Z * VartVcpuExit) :=
  let* v := load_vcpu p in
  let* page := deref (vcpu_run v) in
  let* (err, page) := ioctl_run (vcpu_fd v) page in
  let v := v <| vcpu_run := Some page |> in
  store_vcpu p v ;;;
  if err <? 0 then
    if (err =? -EINTR) || (err =? -EAGAIN)
    then ret (0, zero_exit <| exit_type := VART_VCPU_EXIT_INTERRUPTED |>)
    else ret (err, zero_exit)
  else
    let reason := run_exit_reason page in
    let exit := zero_exit <| exit_kvm_reason := reason |> in
    if reason =? KVM_EXIT_MMIO then
      let mmio := decode_mmio (run_exit page) in
      store_vcpu p (v <| vcpu_mmio_read_pending := negb (mmio_is_write mmio) |>
                      <| vcpu_mmio_read_size := mmio_size mmio |>) ;;;
      ret (0, exit <| exit_type := VART_VCPU_EXIT_MMIO |> <| exit_mmio_data := mmio |>)
    else if reason =? KVM_EXIT_SYSTEM_EVENT then
      ret (0, exit <| exit_type := VART_VCPU_EXIT_SYSTEM_EVENT |>
                   <| exit_event_data := decode_event (run_exit page) |>)
    else if reason =? KVM_EXIT_RISCV_SBI then
      store_vcpu p (v <| vcpu_sbi_pending := true |>) ;;;
      ret (0, exit <| exit_type := VART_VCPU_EXIT_RISCV_SBI |>
                   <| exit_sbi_data := decode_sbi (run_exit page) |>)
    else if reason =? KVM_EXIT_SHUTDOWN then
      ret (0, exit <| exit_type := VART_VCPU_EXIT_SHUTDOWN |>)
    else ret (0, exit <| exit_type := VART_VCPU_EXIT_UNKNOWN |>).

Definition mmio_size_valid (size : Z) : bool :=
  (size =? 1) || (size =? 2) || (size =? 4) || (size =? 8).

Definition vart_vcpu_complete_mmio_read (p : ptr) (value : Z) : M World Z :=
  let* v := load_vcpu p in
  if negb (vcpu_mmio_read_pending v) || negb (mmio_size_valid (vcpu_mmio_read_size v))
  then ret (-EINVAL)
  else
    let* page := deref (vcpu_run v) in
    let data := union_store (run_exit page) 8
                  (store_le (Z.to_nat (vcpu_mmio_read_size v)) value) in
    store_vcpu p (v <| vcpu_run := Some (page <| run_exit := data |>) |>
                    <| vcpu_mmio_read_pending := false |>) ;;;
    ret 0.

Definition vart_vcpu_complete_sbi (vcpu : option ptr) (error value : Z) : M World Z :=
  match vcpu with
  | None => ret (-EINVAL)
  | Some p =>
      let* v := load_vcpu p in
      if negb (vcpu_sbi_pending v) then ret (-EINVAL)
      else
        let* page := deref (vcpu_run v) in
        let data := union_store (union_store (run_exit page) 64 (store_le 8 (u64 error)))
                      72 (store_le 8 (u64 value)) in
        store_vcpu p (v <| vcpu_run := Some (page <| run_exit := data |>) |>
                        <| vcpu_sbi_pending := false |>) ;;;
        ret 0
  end.

(** * [src/kvm/vcpu.c]: the worker thread from outside *)

Definition vart_vcpu_start (vcpu : option ptr) (handler : option fnptr)
    (opaque : option ptr) : M World Z :=
  match vcpu, handler with
  | Some p, Some _ =>
      let* v := load_vcpu p in
      let* kvm := vcpu_kvm_of v in
      if negb (kvm_immediate_exit kvm) then ret (-ENOTSUP)
      else
        let* err := thread_block_kick in
        if err <? 0 then ret err
        else
          let* (once, signal_error) := install_kick_signal in
          if negb (once =? 0) then ret (- once)
          else if negb (signal_error =? 0) then ret (- signal_error)
          else
            let* v := load_vcpu p in
            let* vm := vcpu_vm_of v in
            if negb (bool_decide (vcpu_thread_state v = VART_VCPU_THREAD_CREATED)) ||
               vcpu_thread_created v || vm_shutdown_requested vm
            then ret (-EINVAL)
            else
              let v := v <| vcpu_exit_handler := handler |> <| vcpu_exit_opaque := opaque |>
                         <| vcpu_thread_result := 0 |> in
              let running := v <| vcpu_thread_state := VART_VCPU_THREAD_RUNNING |> in
              store_vcpu p running ;;;
              let* (err, thread) := thread_create p in
              if err <? 0 then
                store_vcpu p (v <| vcpu_thread_state := VART_VCPU_THREAD_CREATED |>) ;;; ret err
              else
                store_vcpu p (running <| vcpu_thread := thread |>
                                      <| vcpu_thread_created := true |>) ;;;
                ret 0
  | _, _ => ret (-EINVAL)
  end.

Definition vart_vcpu_join (vcpu : option ptr) : M World Z :=
  match vcpu with
  | None => ret (-EINVAL)
  | Some p =>
      let* v := load_vcpu p in
      if negb (vcpu_thread_created v) || vcpu_thread_joined v then ret (-EINVAL)
      else
        let* err := thread_join (vcpu_thread v) in
        if negb (err =? 0) then ret (- err)
        else
          let* v := load_vcpu p in
          store_vcpu p (v <| vcpu_thread_joined := true |>) ;;;
          ret (vcpu_thread_result v)
  end.

Definition vart_vcpu_thread_state (p : ptr) : M World VartVcpuThreadState :=
  let* v := load_vcpu p in ret (vcpu_thread_state v).

Definition vart_vcpu_kick_locked (p : ptr) (stop : bool) : M World Z :=
  let* v := load_vcpu p in
  if negb (bool_decide (vcpu_thread_state v = VART_VCPU_THREAD_RUNNING)) then ret (-EINVAL)
  else
    store_vcpu p (if stop then v <| vcpu_stop_requested := true |>
                  else v <| vcpu_kick_requested := true |>) ;;;
    let* err := thread_kick (vcpu_thread v) in
    ret (if err =? 0 then 0 else - err).

Definition vart_vcpu_set_mp_state_locked (vcpu : option ptr) (state : Z) : M World Z :=
  match vcpu with
  | None => ret (-EINVAL)
  | Some p =>
      let* v := load_vcpu p in
      let* err :=
        if (state =? KVM_MP_STATE_RUNNABLE) &&
           bool_decide (vcpu_thread_state v = VART_VCPU_THREAD_RUNNING)
        then vart_vcpu_kick_locked p false else ret 0 in
      if err <? 0 then ret err
      else
        let* err := vart_vcpu_set_mp_state p state in
        ret (if err <? 0 then err else 0)
  end.

Definition vart_vcpu_kick (vcpu : option ptr) : M World Z :=
  match vcpu with
  | None => ret (-EINVAL)
  | Some p => vart_vcpu_kick_locked p false
  end.
Definition vart_vcpu_request_stop (vcpu : option ptr) : M World Z :=
  match vcpu with
  | None => ret (-EINVAL)
  | Some p => vart_vcpu_kick_locked p true
  end.

Fixpoint shutdown_loop (steps : nat) (vcpu : option ptr) (result : Z) : M World Z :=
  match vcpu with
  | None => ret result
  | Some p =>
      match steps with
      | O => out_of_fuel
      | S steps =>
          let* v := load_vcpu p in
          if negb (bool_decide (vcpu_thread_state v = VART_VCPU_THREAD_RUNNING))
          then shutdown_loop steps (vcpu_next v) result
          else
            let* err := vart_vcpu_kick_locked p true in
            let* v := load_vcpu p in
            shutdown_loop steps (vcpu_next v)
              (if (err <? 0) && (result =? 0) then err else result)
      end
  end.

Definition vart_vm_request_shutdown_locked (steps : nat) (vm : option ptr) : M World Z :=
  match vm with
  | None => ret (-EINVAL)
  | Some p =>
      let* vm' := load_vm p in
      store_vm p (vm' <| vm_shutdown_requested := true |>) ;;;
      shutdown_loop steps (vm_vcpus vm') 0
  end.
Definition vart_vm_request_shutdown (steps : nat) (vm : option ptr) : M World Z :=
  vart_vm_request_shutdown_locked steps vm.

(** * [src/event/exec.c] *)

Definition mmio_decode_le (data : list Z) (size : Z) : Z :=
  load_le (take (Z.to_nat size) data).

Record VartExecution := mkExecution { system_address_space : option ptr }.
Definition vart_execution_init (space : option ptr) : VartExecution := mkExecution space.

Definition vart_execution_handle_exit `{MmioCallbacks} (execution : option VartExecution)
    (vcpu : option ptr) (exit : option VartVcpuExit) : M World Z :=
  match execution, exit with
  | Some (mkExecution (Some space)), Some exit =>
      if negb (bool_decide (exit_type exit = VART_VCPU_EXIT_MMIO)) then ret (-ENOTSUP)
      else
        let mmio := exit_mmio_data exit in
        if negb (mmio_size_valid (mmio_size mmio)) then ret (-EINVAL)
        else if mmio_is_write mmio then
          vart_address_space_write (Some space) (mmio_address mmio) (mmio_size mmio)
            (mmio_decode_le (mmio_data mmio) (mmio_size mmio))
        else
          match vcpu with
          | None => ret (-EINVAL)
          | Some p =>
              let* (err, value) := vart_address_space_read (Some space) (mmio_address mmio)
                                     (mmio_size mmio) (Some 0) in
              if err <? 0 then ret err
              else let* value := deref value in vart_vcpu_complete_mmio_read p value
          end
  | _, _ => ret (-EINVAL)
  end.
End Vcpu.

(** * The list of the vCPUs of a VM *)

(** What the link in [link] points to. *)
Definition link_target (w : World) (vm : ptr) (link : option ptr) : option (option ptr) :=
  match link with
  | None => vm_vcpus <$> w_vms w !! vm
  | Some q => vcpu_next <$> w_vcpus w !! q
  end.

(** The world with other links. *)
Record relinked (w : World) (vm : ptr) (link : option ptr) (l : list ptr) (w' : World)
    : Prop := {
  rk_world : exists vs vms, w' = w <| w_vcpus := vs |> <| w_vms := vms |>;
  rk_vcpus : forall p v, w_vcpus w !! p = Some v ->
    exists n, w_vcpus w' !! p = Some (v <| vcpu_next := n |>);
  rk_other : forall p, p ∉ l -> Some p <> link -> w_vcpus w' !! p = w_vcpus w !! p;
  rk_vms : forall q, q <> vm \/ link <> None -> w_vms w' !! q = w_vms w !! q;
  rk_vm : forall v, w_vms w !! vm = Some v ->
    exists h, w_vms w' !! vm = Some (v <| vm_vcpus := h |>);
}.

Lemma relinked_refl w vm link l : relinked w vm link l w.
Proof.
  split; try done.
  - exists (w_vcpus w), (w_vms w). by destruct w.
  - intros p v Hv. exists (vcpu_next v). rewrite Hv. by destruct v.
  - intros v Hv. exists (vm_vcpus v). rewrite Hv. by destruct v.
Qed.

Lemma relinked_weaken w vm x l w' link :
  relinked w vm (Some x) l w' -> relinked w vm link (x :: l) w'.
Proof.
  intros []. split; try done.
  - intros p Hp _. apply rk_other0; [set_solver|]. intros [= ->]. set_solver.
  - intros q _. apply rk_vms0. by right.
Qed.

Lemma read_link_spec w vm link t : link_target w vm link = Some t ->
  wp (read_link vm link) (fun t' w' => t' = t /\ w' = w) w.
Proof.
  unfold link_target, read_link.
  destruct link; intros (v & Hv & ->)%fmap_Some; wsteps; done.
Qed.

Lemma write_link_spec w vm link t0 t l : link_target w vm link = Some t0 ->
  wp (write_link vm link t) (fun _ w' => relinked w vm link l w' /\
    link_target w' vm link = Some t /\
    forall q, Some q <> link -> w_vcpus w' !! q = w_vcpus w !! q) w.
Proof.
  unfold link_target, write_link.
  destruct link as [q|]; intros (v & Hv & ->)%fmap_Some; wsteps.
  - split_and!; [split|cbn; by rewrite lookup_insert_eq|]; cbn; try done.
    + exists (<[q := v <| vcpu_next := t |>]> (w_vcpus w)), (w_vms w). by destruct w.
    + intros p u Hu. destruct (decide (p = q)) as [->|].
      * rewrite lookup_insert_eq. exists t. by simplify_eq.
      * rewrite lookup_insert_ne by done. exists (vcpu_next u). rewrite Hu. by destruct u.
    + intros p _ Hp. rewrite lookup_insert_ne; congruence.
    + intros u Hu. exists (vm_vcpus u). rewrite Hu. by destruct u.
    + intros p Hp. rewrite lookup_insert_ne; congruence.
  - split_and!; [split|cbn; by rewrite lookup_insert_eq|]; cbn; try done.
    + exists (w_vcpus w), (<[vm := v <| vm_vcpus := t |>]> (w_vms w)). by destruct w.
    + intros p u Hu. exists (vcpu_next u). rewrite Hu. by destruct u.
    + intros p [Hp|Hp]; [|done]. by rewrite lookup_insert_ne.
    + intros u Hu. rewrite lookup_insert_eq. exists t. by simplify_eq.
Qed.

(** The loop of [destroy] takes the vCPU out of the list. *)
Lemma unlink_loop_spec vm p l : forall steps w link target,
  link_target w vm link = Some target ->
  list_from vcpu_next (w_vcpus w) target l -> NoDup l -> (forall q, link = Some q -> q ∉ l) ->
  (length l < steps)%nat ->
  wp (unlink_loop steps vm p link) (fun _ w' => relinked w vm link l w' /\
    exists target', link_target w' vm link = Some target' /\
      list_from vcpu_next (w_vcpus w') target' (remove_first p l)) w.
Proof.
  induction l as [|x l IH]; intros steps w link target Ht Hc Hnd Hlink Hs;
    (destruct steps as [|steps]; [cbn in Hs; lia|]); cbn [unlink_loop]; cbn in Hs.
  - cbn in Hc. subst target. apply wp_bind.
    eapply wp_mono; [by apply read_link_spec|]. intros t w' [-> ->]. wsteps.
    split; [apply relinked_refl|]. by exists None.
  - cbn in Hc. destruct Hc as (-> & v & Hv & Hc). apply NoDup_cons in Hnd as [Hx Hnd].
    apply wp_bind. eapply wp_mono; [by apply read_link_spec|]. intros t w' [-> ->].
    cbn [remove_first]. case_bool_decide as Hxp.
    + subst x. rewrite decide_True by done. wsteps.
      eapply wp_mono; [by apply (write_link_spec w vm link (Some p) (vcpu_next v) (p :: l))|].
      intros _ w' (Hr & Ht' & Hsame). split; [done|]. exists (vcpu_next v). split; [done|].
      eapply list_from_ext; [|exact Hc]. intros q Hq. apply Hsame. intros E.
      apply (Hlink q (eq_sym E)). set_solver.
    + rewrite decide_False by done.
      eapply wp_mono; [apply (IH steps w (Some x) (vcpu_next v)); try done; [|..|lia]|].
      { cbn. by rewrite Hv. }
      { by intros q [= <-]. }
      intros _ w' [Hr (t' & Ht' & Hc')]. split; [by apply relinked_weaken|].
      exists (Some x). split.
      * destruct link as [q|]; cbn in Ht |- *.
        -- rewrite (rk_other _ _ _ _ _ Hr); [done| |].
           ++ specialize (Hlink q eq_refl). set_solver.
           ++ specialize (Hlink q eq_refl). intros [= ->]. set_solver.
        -- rewrite (rk_vms _ _ _ _ _ Hr); [done|by right].
      * split; [done|]. cbn in Ht'. apply fmap_Some in Ht' as (u & Hu & ->). by exists u.
Qed.

(** Documented behaviour of the calls besides those on registers: they change the host's
    state only; [kicked] are the threads that were signalled. *)
Class LifecycleModel `{VcpuHost} (kicked : World -> list Z) : Prop := {
  lm_frame w w' : w_files w' = w_files w -> kicked w' = kicked w;
  lm_create w fd hart : exists r w', ioctl_create_vcpu fd hart w = Ok (r, w') /\ host_only w w';
  lm_map w fd size : exists r w', map_run_page fd size w = Ok (r, w') /\ host_only w w';
  lm_unmap w size : exists w', unmap_run_page size w = Ok (tt, w') /\ host_only w w';
  lm_close w fd : exists w', close_vcpu fd w = Ok (tt, w') /\ host_only w w';
  lm_block w : exists r w', thread_block_kick w = Ok (r, w') /\ host_only w w';
  lm_install w : exists e s w', install_kick_signal w = Ok ((e, s), w') /\ host_only w w' /\
    0 <= e /\ 0 <= s;
  lm_join w t : exists r w', thread_join t w = Ok (r, w') /\ host_only w w';
  lm_kick w t : exists r w', thread_kick t w = Ok (r, w') /\ host_only w w' /\ 0 <= r /\
    kicked w' = if r =? 0 then kicked w ++ [t] else kicked w;
}.

Inductive list_op :=
| VCreate (p : ptr) (hart : Z)
| VDestroy (p : ptr).

(** The result of creating a vCPU; destroying one returns nothing. *)
Definition list_step `{VcpuHost} (steps : nat) (q : ptr) (o : list_op) : M World Z :=
  match o with
  | VCreate p hart => vart_vcpu_create p q hart
  | VDestroy p => vart_vcpu_destroy steps p ;;; ret 0
  end.

(** The VM's list as a list without repetitions: a vCPU is created in front, unless the
    kernel refuses it, and destroyed wherever it is. *)
Inductive list_spec : list_op -> list ptr -> Z -> list ptr -> Prop :=
| spec_created p hart l : p ∉ l -> list_spec (VCreate p hart) l 0 (p :: l)
| spec_refused p hart l err : p ∉ l -> err < 0 -> list_spec (VCreate p hart) l err l
| spec_destroyed p l : list_spec (VDestroy p) l 0 (remove_first p l).

Lemma remove_first_id (p : ptr) l : p ∉ l -> remove_first p l = l.
Proof.
  induction l as [|x l IH]; intros Hp; [done|]. cbn. rewrite decide_False by set_solver.
  f_equal. apply IH. set_solver.
Qed.

Section List.
Context `{LM : LifecycleModel} (q : ptr).

(** The VM [q] with the vCPUs [l], in the order of its links. *)
Record vm_list (w : World) (l : list ptr) : Prop := {
  vl_vm : exists vm k kvm, w_vms w !! q = Some vm /\ vm_kvm vm = Some k /\
    w_kvms w !! k = Some kvm /\ list_from vcpu_next (w_vcpus w) (vm_vcpus vm) l;
  vl_nodup : NoDup l;
  vl_owned : forall p v, w_vcpus w !! p = Some v ->
    vcpu_vm v = Some q \/ vcpu_vm v = None /\ p ∉ l;
}.

Lemma vm_list_host w w' l : vm_list w l -> host_only w w' -> vm_list w' l.
Proof using. intros [] [f ->]. by split. Qed.

(** A vCPU that is not in the list changes. *)
Lemma vm_list_store w l p v : vm_list w l -> p ∉ l ->
  vcpu_vm v = Some q \/ vcpu_vm v = None -> vm_list (w <| w_vcpus ::= <[p := v]> |>) l.
Proof using.
  intros [(vm & k & kvm & Hvm & Hk & Hkvm & Hc)] Hp Hv. split; [|done|].
  - exists vm, k, kvm. split_and!; try done. eapply list_from_ext; [|exact Hc].
    intros x Hx. apply lookup_insert_ne. by intros ->.
  - intros x u. cbn. destruct (decide (p = x)) as [<-|].
    + rewrite lookup_insert_eq. intros [= <-]. destruct Hv; [by left|by right].
    + rewrite lookup_insert_ne by done. apply vl_owned0.
Qed.

(** A system call of [vart_vcpu_destroy], if its condition holds. *)
Lemma host_step (c : bool) (m : M World unit) w :
  (exists w', m w = Ok (tt, w') /\ host_only w w') ->
  wp (if c then m else ret tt) (fun _ w' => host_only w w') w.
Proof using.
  intros (w' & E & Hh). destruct c; [apply wp_ok; eauto|apply wp_ret, host_only_refl].
Qed.

Lemma create_refines w l p hart : vm_list w l -> p ∉ l ->
  wp (vart_vcpu_create p q hart) (fun err w' => exists l', vm_list w' l' /\
    list_spec (VCreate p hart) l err l') w.
Proof using LM.
  intros Hl Hp. pose proof Hl as [(vm & k & kvm & Hvm & Hk & Hkvm & Hc) Hnd Ho].
  unfold vart_vcpu_create. wsteps. set (v := update vcpu_run_size _ _).
  assert (vm_list (w <| w_vcpus ::= <[p := v]> |>) l) as Hl1 by (apply vm_list_store; auto).
  destruct (lm_create (w <| w_vcpus ::= <[p := v]> |>) (vm_fd vm) hart) as (fd & w2 & E2 & Hh2).
  apply wp_ok. exists fd, w2. split; [exact E2|].
  pose proof (vm_list_host _ _ _ Hl1 Hh2) as Hl2.
  destruct (Z.ltb_spec fd 0); [wsteps; exists l; split; [done|by apply spec_refused]|].
  wsteps. destruct (lm_map w2 fd (u64 (kvm_vcpu_mmap_size kvm))) as ([err page] & w3 & E3 & Hh3).
  apply wp_ok. exists (err, page), w3. split; [exact E3|].
  pose proof (vm_list_host _ _ _ Hl2 Hh3) as Hl3.
  destruct (Z.ltb_spec err 0).
  { wsteps. destruct (lm_close w3 fd) as (w4 & E4 & Hh4). apply wp_ok. exists tt, w4.
    split; [exact E4|]. wsteps. exists l. split; [by eapply vm_list_host|by apply spec_refused]. }
  destruct Hl3 as [(vm3 & k3 & kvm3 & Hvm3 & Hk3 & Hkvm3 & Hc3) _ Ho3]. wsteps.
  exists (p :: l). split; [|by apply spec_created]. split; [|by constructor|].
  - eexists _, k3, kvm3. cbn. rewrite lookup_insert_eq. split_and!; [done|done|done|done|].
    eexists. rewrite lookup_insert_eq. split; [done|].
    eapply list_from_ext; [|exact Hc3]. intros x Hx. apply lookup_insert_ne. set_solver.
  - intros x u. cbn. destruct (decide (p = x)) as [<-|Hne].
    + rewrite lookup_insert_eq. intros [= <-]. by left.
    + rewrite lookup_insert_ne by done. intros Hu. destruct (Ho3 x u Hu) as [|[? ?]]; [by left|].
      right. set_solver.
Qed.

Lemma relinked_vm_list w w' l l' t :
  vm_list w l -> relinked w q None l w' -> link_target w' q None = Some t ->
  list_from vcpu_next (w_vcpus w') t l' -> NoDup l' -> l' ⊆ l -> vm_list w' l'.
Proof using.
  intros [(vm & k & kvm & Hvm & Hk & Hkvm & Hc) Hnd Ho] Hr Ht Hc' Hnd' Hsub.
  pose proof Hr as [(vs & vms & Hw2) Hvs _ _ Hvm2]. destruct (Hvm2 vm Hvm) as [h Hh].
  cbn in Ht. rewrite Hh in Ht. injection Ht as <-. split; [|done|].
  - eexists _, k, kvm. split_and!; [exact Hh|done|by rewrite Hw2|exact Hc'].
  - intros x u Hu. destruct (w_vcpus w !! x) as [u1|] eqn:Hx.
    + destruct (Hvs x u1 Hx) as [n Hn]. rewrite Hn in Hu. injection Hu as <-.
      destruct (Ho x u1 Hx) as [|[? Hin]]; [by left|right]. split; [done|].
      intros Hin'. by apply Hin, Hsub.
    + rewrite (rk_other _ _ _ _ _ Hr) in Hu; [congruence| |done].
      intros Hin. destruct (list_from_mapped _ _ _ _ _ Hc Hin). congruence.
Qed.

Lemma unlink_refines w l p v steps : vm_list w l -> w_vcpus w !! p = Some v ->
  (length l < steps)%nat ->
  wp match vcpu_vm v with Some vm => unlink_loop steps vm p None | None => ret tt end
    (fun _ w' => vm_list w' (remove_first p l)) w.
Proof using.
  intros Hl Hv Hs. pose proof Hl as [(vm & k & kvm & Hvm & Hk & Hkvm & Hc) Hnd Ho].
  destruct (Ho p v Hv) as [-> |[-> Hp]]; [|wsteps; by rewrite remove_first_id].
  eapply wp_mono; [apply (unlink_loop_spec q p l steps w None (vm_vcpus vm)); try done|].
  { cbn. by rewrite Hvm. }
  intros _ w2 [Hr (t & Ht & Hc2)]. eapply relinked_vm_list; try done.
  - by apply NoDup_remove_first.
  - intros x Hx. by apply elem_of_remove_first in Hx as [].
Qed.

Lemma destroy_refines w l p v steps : vm_list w l -> w_vcpus w !! p = Some v ->
  (length l < steps)%nat ->
  wp (vart_vcpu_destroy steps p) (fun _ w' => vm_list w' (remove_first p l)) w.
Proof using LM.
  intros Hl Hv Hs. unfold vart_vcpu_destroy. wsteps.
  eapply wp_mono; [apply host_step|].
  { destruct (lm_join w (vcpu_thread v)) as (r & w' & E & Hh).
    exists w'. split; [|done]. by rewrite (bind_eq _ _ _ _ _ E). }
  intros [] w1 Hh1. pose proof (vm_list_host _ _ _ Hl Hh1) as Hl1.
  assert (w_vcpus w1 !! p = Some v) as Hv1 by (destruct Hh1 as [f1 ->]; done).
  apply wp_bind. eapply wp_mono; [by apply (unlink_refines w1 l p v)|].
  intros [] w2 Hl2. wsteps.
  eapply wp_mono with (Q := fun _ w' => host_only w2 w').
  { destruct (vcpu_run v); [|wsteps; apply host_only_refl].
    destruct (lm_unmap w2 (vcpu_run_size v)) as (w' & E & Hh). apply wp_ok. eauto. }
  intros [] w3 Hh3. pose proof (vm_list_host _ _ _ Hl2 Hh3) as Hl3. wsteps.
  eapply wp_mono; [apply host_step, lm_close|].
  intros [] w4 Hh4. pose proof (vm_list_host _ _ _ Hl3 Hh4) as Hl4. wsteps.
  apply vm_list_store; [done| |by right].
  rewrite elem_of_remove_first by apply Hl. tauto.
Qed.

(** Every vCPU of the world may be created or destroyed; one in the list is not created
    again. *)
Definition op_allowed (w : World) (l : list ptr) (o : list_op) : Prop :=
  match o with
  | VCreate p _ => p ∉ l
  | VDestroy p => is_Some (w_vcpus w !! p)
  end.

Lemma list_step_refines w l o steps : vm_list w l -> op_allowed w l o ->
  (length l < steps)%nat ->
  wp (list_step steps q o) (fun err w' => exists l', vm_list w' l' /\ list_spec o l err l') w.
Proof using LM.
  intros Hl Ho Hs. destruct o; cbn in Ho |- *; [by apply create_refines|].
  destruct Ho as [v Hv]. wsteps. eapply wp_mono; [by apply (destroy_refines w l p v)|].
  intros [] w' Hl'. wsteps. eexists. split; [exact Hl'|apply spec_destroyed].
Qed.

(** ** Shutdown *)

Definition stopping (v : VartVcpu) : VartVcpu :=
  if bool_decide (vcpu_thread_state v = VART_VCPU_THREAD_RUNNING)
  then v <| vcpu_stop_requested := true |> else v.

(** The threads of the running vCPUs among [l]. *)
Definition running_threads (vs : gmap ptr VartVcpu) (l : list ptr) : list Z :=
  omap (fun p => v ← vs !! p;
    if bool_decide (vcpu_thread_state v = VART_VCPU_THREAD_RUNNING)
    then Some (vcpu_thread v) else None) l.

Lemma running_threads_ext vs vs' l : (forall p, p ∈ l -> vs' !! p = vs !! p) ->
  running_threads vs' l = running_threads vs l.
Proof using.
  induction l as [|p l IH]; intros Hext; [done|]. unfold running_threads in *. cbn.
  rewrite Hext, IH; [done| |by apply elem_of_cons; left].
  intros x Hx. apply Hext, elem_of_cons. by right.
Qed.

(** What the loop does to the vCPUs [l], with the error [e0] so far. *)
Record shut (w : World) (l : list ptr) (e0 err : Z) (w' : World) : Prop := {
  sh_world : exists vs f, w' = w <| w_vcpus := vs |> <| w_files := f |>;
  sh_vcpus : forall p v, w_vcpus w !! p = Some v ->
    w_vcpus w' !! p = Some (if bool_decide (p ∈ l) then stopping v else v);
  sh_error : e0 <= 0 -> err <= 0;
  sh_kicked : err = 0 -> e0 = 0 /\
    kicked w' = kicked w ++ running_threads (w_vcpus w) l;
}.

Lemma kick_stop_spec w p v : w_vcpus w !! p = Some v ->
  vcpu_thread_state v = VART_VCPU_THREAD_RUNNING ->
  wp (vart_vcpu_kick_locked p true) (fun err w' => err <= 0 /\
    (exists f, w' = w <| w_vcpus ::= <[p := v <| vcpu_stop_requested := true |>]> |>
                      <| w_files := f |>) /\
    (err = 0 -> kicked w' = kicked w ++ [vcpu_thread v])) w.
Proof using LM.
  intros Hv Hrun. unfold vart_vcpu_kick_locked. wsteps. rewrite bool_decide_true by done.
  cbn [negb]. wsteps. set (w1 := update w_vcpus _ _).
  destruct (lm_kick w1 (vcpu_thread v)) as (r & w' & E & [f Hf] & Hr & Hk).
  apply wp_ok. exists r, w'. split; [exact E|]. wsteps.
  assert (kicked w1 = kicked w) as Hw1 by by apply lm_frame.
  split_and!; [destruct (Z.eqb_spec r 0); lia|by exists f|].
  rewrite <- Hw1, Hk. destruct (Z.eqb_spec r 0); [done|lia].
Qed.

Lemma shutdown_loop_spec l : forall steps w head e0,
  list_from vcpu_next (w_vcpus w) head l -> NoDup l -> (length l <= steps)%nat ->
  wp (shutdown_loop steps head e0) (shut w l e0) w.
Proof using LM.
  induction l as [|p l IH]; intros steps w head e0 Hc Hnd Hs.
  { cbn in Hc. subst head. destruct steps; cbn [shutdown_loop]; wsteps; split; try done;
      try (by exists (w_vcpus w), (w_files w); destruct w);
      intros ->; (split; [done|]); cbn; by rewrite app_nil_r. }
  destruct Hc as (-> & v & Hv & Hc). apply NoDup_cons in Hnd as [Hp Hnd].
  destruct steps as [|steps]; [cbn in Hs; lia|]. cbn in Hs. cbn [shutdown_loop]. wsteps.
  case_bool_decide as Hrun; cbn [negb]; wsteps.
  2: { eapply wp_mono; [by apply (IH steps w (vcpu_next v)); try lia|].
       intros err w' []. split; try done.
       - intros x u Hu. rewrite (sh_vcpus0 x u Hu). destruct (decide (x = p)) as [->|].
         + rewrite bool_decide_false by done. rewrite bool_decide_true by set_solver.
           unfold stopping. assert (u = v) as -> by congruence. by rewrite bool_decide_false.
         + f_equal. erewrite bool_decide_ext; [done|]. set_solver.
       - intros E. destruct (sh_kicked0 E) as [-> ->]. split; [done|]. f_equal.
         unfold running_threads at 2. cbn. rewrite Hv. cbn. by rewrite bool_decide_false. }
  eapply wp_mono; [by apply (kick_stop_spec w p v)|].
  intros e1 w1 (He1 & [f Hw1] & Hk1).
  assert (w_vcpus w1 = <[p := v <| vcpu_stop_requested := true |>]> (w_vcpus w)) as Hvs
    by by rewrite Hw1.
  assert (w_vcpus w1 !! p = Some (v <| vcpu_stop_requested := true |>)) as Hv1
    by (rewrite Hvs; apply lookup_insert_eq).
  assert (forall x, x ∈ l -> w_vcpus w1 !! x = w_vcpus w !! x) as Hsame.
  { intros x Hx. rewrite Hvs. apply lookup_insert_ne. by intros ->. }
  wsteps. cbn [vcpu_next].
  eapply wp_mono; [apply (IH steps w1 (vcpu_next v)); [by eapply list_from_ext|done|lia]|].
  intros err w' []. split.
  - destruct sh_world0 as (vs & f' & ->). exists vs, f'. by rewrite Hw1; destruct w.
  - intros x u Hu. destruct (decide (x = p)) as [->|Hne].
    + rewrite (sh_vcpus0 p _ Hv1), bool_decide_false by done.
      rewrite bool_decide_true by set_solver. unfold stopping.
      assert (u = v) as -> by congruence. by rewrite bool_decide_true.
    + rewrite (sh_vcpus0 x u) by (rewrite Hvs, lookup_insert_ne; done).
      f_equal. erewrite bool_decide_ext; [done|]. set_solver.
  - intros He0. apply sh_error0. destruct ((e1 <? 0) && (e0 =? 0)); lia.
  - intros E. destruct (sh_kicked0 E) as [E1 ->].
    destruct (Z.ltb_spec e1 0); cbn in E1; [destruct (Z.eqb_spec e0 0); lia|].
    split; [done|]. rewrite Hk1 by lia. rewrite <- app_assoc. f_equal.
    rewrite (running_threads_ext (w_vcpus w)) by done.
    unfold running_threads at 2. cbn. rewrite Hv. cbn. by rewrite bool_decide_true.
Qed.

(** No worker starts in a VM that is shut down. *)
Lemma start_after_shutdown w p v vm k kvm handler opaque :
  w_vcpus w !! p = Some v -> vcpu_vm v = Some q -> w_vms w !! q = Some vm ->
  vm_kvm vm = Some k -> w_kvms w !! k = Some kvm -> vm_shutdown_requested vm = true ->
  wp (vart_vcpu_start (Some p) handler opaque) (fun err w' => err < 0 /\ host_only w w') w.
Proof using LM.
  intros Hv Hq Hvm Hk Hkvm Hs. unfold vart_vcpu_start.
  destruct handler; [|wsteps; done]. unfold vcpu_kvm_of, vcpu_vm_of. wsteps.
  destruct (kvm_immediate_exit kvm); cbn [negb]; wsteps; [|done].
  destruct (lm_block w) as (r & w1 & E1 & Hh1). apply wp_ok. exists r, w1. split; [exact E1|].
  destruct (Z.ltb_spec r 0); [by wsteps|]. wsteps.
  destruct (lm_install w1) as (e & x & w2 & E2 & Hh2 & He & Hx).
  apply wp_ok. exists (e, x), w2. split; [exact E2|].
  assert (host_only w w2) as Hh by by etrans.
  destruct (Z.eqb_spec e 0); cbn [negb]; [|wsteps; split; [lia|done]].
  destruct (Z.eqb_spec x 0); cbn [negb]; [|wsteps; split; [lia|done]].
  assert (w_vcpus w2 !! p = Some v) as Hv2 by (destruct Hh as [fs ->]; done).
  assert (w_vms w2 !! q = Some vm) as Hvm2 by (destruct Hh as [fs ->]; done).
  wsteps. rewrite Hs, !orb_true_r. wsteps. done.
Qed.
End List.

(** C32. Creating a vCPU of a VM puts it in front of the VM's list, unless the kernel refuses
    it, and destroying one takes it out of the list wherever it is; the loop over the links
    ends after at most one step for each element and one more. *)
Theorem vm_list_refines `{LM : LifecycleModel} q w l o steps :
  vm_list q w l -> op_allowed w l o -> (length l < steps)%nat ->
  exists err w' l', list_step steps q o w = Ok (err, w') /\ vm_list q w' l' /\
    list_spec o l err l'.
Proof.
  intros Hl Ho Hs. destruct (proj1 (wp_ok _ _ _) (list_step_refines q w l o steps Hl Ho Hs))
    as (err & w' & E & l' & Hl' & Hspec). by exists err, w', l'.
Qed.

(** C33. A shutdown request returns.  Every running worker of the VM then has its stop flag set,
    nothing else of any vCPU changed, a result of 0 means that each of their threads was
    signalled, once and in the order of the list, and from then on no worker of the VM can be
    started. *)
Theorem shutdown_reaches_every_worker `{LM : LifecycleModel} q w l steps :
  vm_list q w l -> (length l <= steps)%nat ->
  exists err w', vart_vm_request_shutdown steps (Some q) w = Ok (err, w') /\ err <= 0 /\
    (forall p v, w_vcpus w !! p = Some v ->
       w_vcpus w' !! p = Some (if bool_decide (p ∈ l) then stopping v else v)) /\
    (err = 0 -> kicked w' = kicked w ++ running_threads (w_vcpus w) l) /\
    forall p handler opaque, p ∈ l -> exists e w2,
      vart_vcpu_start (Some p) handler opaque w' = Ok (e, w2) /\ e < 0 /\ host_only w' w2.
Proof.
  intros Hl Hs. pose proof Hl as [(vm & k & kvm & Hvm & Hk & Hkvm & Hc) Hnd Ho].
  set (w1 := w <| w_vms ::= <[q := vm <| vm_shutdown_requested := true |>]> |>).
  destruct (proj1 (wp_ok _ _ _) (shutdown_loop_spec l steps w1 (vm_vcpus vm) 0 Hc Hnd Hs))
    as (err & w' & E & [(vs & f & Hw') Hvs He Hkick]).
  exists err, w'. split_and!; [|by apply He|done| |].
  - unfold vart_vm_request_shutdown, vart_vm_request_shutdown_locked.
    rewrite (bind_eq _ _ w vm w) by (unfold load_vm; run_unfold; by rewrite Hvm).
    exact E.
  - intros E0. destruct (Hkick E0) as [_ ->]. f_equal. by apply lm_frame.
  - intros p handler opaque Hp. destruct (list_from_mapped _ _ _ _ _ Hc Hp) as [v Hv].
    destruct (Ho p v Hv) as [Hq|[_ ?]]; [|done].
    apply wp_ok. eapply (start_after_shutdown q w' p); [by apply Hvs| |by rewrite Hw';
      apply lookup_insert_eq|exact Hk|by rewrite Hw'|done].
    rewrite bool_decide_true by done. unfold stopping. by case_bool_decide.
Qed.

(** * MMIO exits *)

(** The vCPU after a run that ended with the page [page]. *)
Definition after_mmio (v : VartVcpu) (page : kvm_run) : VartVcpu :=
  let mmio := decode_mmio (run_exit page) in
  v <| vcpu_run := Some page |> <| vcpu_mmio_read_pending := negb (mmio_is_write mmio) |>
    <| vcpu_mmio_read_size := mmio_size mmio |>.
Definition mmio_exit (page : kvm_run) : VartVcpuExit :=
  zero_exit <| exit_kvm_reason := KVM_EXIT_MMIO |> <| exit_type := VART_VCPU_EXIT_MMIO |>
    <| exit_mmio_data := decode_mmio (run_exit page) |>.

Lemma run_mmio `{VcpuHost} p w w1 v page page' :
  w_vcpus w !! p = Some v -> vcpu_run v = Some page ->
  ioctl_run (vcpu_fd v) page w = Ok ((0, page'), w1) ->
  run_exit_reason page' = KVM_EXIT_MMIO ->
  vart_vcpu_run p w =
    Ok ((0, mmio_exit page'), w1 <| w_vcpus ::= <[p := after_mmio v page']> |>).
Proof.
  intros Hv Hp Hrun Hr. unfold vart_vcpu_run.
  rewrite (bind_eq _ _ w v w) by (unfold load_vcpu; run_unfold; by rewrite Hv).
  rewrite (bind_eq _ _ w page w) by (by rewrite Hp).
  rewrite (bind_eq _ _ _ _ _ Hrun). cbv zeta.
  change (0 <? 0) with false. cbv iota. rewrite Hr, Z.eqb_refl.
  unfold store_vcpu, modify, bind, ret. do 2 f_equal.
  destruct w1. unfold update. cbn. f_equal. by rewrite insert_insert_eq.
Qed.

Lemma union_store_length data offset bytes :
  (offset + length bytes <= length data)%nat ->
  length (union_store data offset bytes) = length data.
Proof.
  intros Hl. unfold union_store. rewrite !length_app, length_take, length_drop. lia.
Qed.
Lemma union_store_same data offset bytes : (offset <= length data)%nat ->
  take (length bytes) (drop offset (union_store data offset bytes)) = bytes.
Proof.
  intros Hl. unfold union_store. rewrite drop_app_length'; [|rewrite length_take; lia].
  by rewrite take_app_length.
Qed.
Lemma union_store_other data offset bytes i : (offset <= length data)%nat ->
  (i < offset)%nat \/ (offset + length bytes <= i)%nat ->
  union_store data offset bytes !! i = data !! i.
Proof.
  intros Hl Hi. unfold union_store. destruct (decide (i < offset)%nat).
  - rewrite lookup_app_l by (rewrite length_take; lia). by apply lookup_take_lt.
  - rewrite lookup_app_r by (rewrite length_take; lia). rewrite length_take.
    rewrite lookup_app_r by lia. rewrite lookup_drop. f_equal. lia.
Qed.

(** C34. The value of a device for a guest load arrives in the page: when a run ends with an
    MMIO load of 1, 2, 4 or 8 bytes and the system's address space reads [x] there, the exit
    is handled with result 0, the bytes that the kernel hands to the guest are those of [x],
    no other byte of the page changes, and the load cannot be completed a second time. *)
Theorem mmio_load_served `{VcpuHost} `{MmioCallbacks} p v page page' w w1 w2 space x :
  let mmio := decode_mmio (run_exit page') in
  let w1' := w1 <| w_vcpus ::= <[p := after_mmio v page']> |> in
  w_vcpus w !! p = Some v -> vcpu_run v = Some page ->
  ioctl_run (vcpu_fd v) page w = Ok ((0, page'), w1) ->
  run_exit_reason page' = KVM_EXIT_MMIO -> length (run_exit page') = 256%nat ->
  mmio_is_write mmio = false -> mmio_size_valid (mmio_size mmio) = true ->
  vart_address_space_read (Some space) (mmio_address mmio) (mmio_size mmio) (Some 0) w1' =
    Ok ((0, Some x), w2) ->
  w_vcpus w2 = w_vcpus w1' ->
  exists exit data, vart_vcpu_run p w = Ok ((0, exit), w1') /\
    vart_execution_handle_exit (Some (mkExecution (Some space))) (Some p) (Some exit) w1' =
      Ok (0, w2 <| w_vcpus ::= <[p := (after_mmio v page')
        <| vcpu_run := Some (page' <| run_exit := data |>) |>
        <| vcpu_mmio_read_pending := false |>]> |>) /\
    mmio_decode_le (mmio_data (decode_mmio data)) (mmio_size mmio) =
      x mod 256 ^ mmio_size mmio /\
    (forall i : nat, Z.of_nat i < 8 \/ 8 + mmio_size mmio <= Z.of_nat i ->
       data !! i = run_exit page' !! i) /\
    forall w3 v3 y, w_vcpus w3 !! p = Some v3 -> vcpu_mmio_read_pending v3 = false ->
      vart_vcpu_complete_mmio_read p y w3 = Ok (-EINVAL, w3).
Proof.
  intros mmio w1' Hv Hp Hrun Hr Hlen Hwr Hsz Hread Hvs.
  assert (0 < mmio_size mmio <= 8) as Hb by (unfold mmio_size_valid in Hsz; lia).
  set (bytes := store_le (Z.to_nat (mmio_size mmio)) x).
  assert (length bytes = Z.to_nat (mmio_size mmio)) as Hbl by apply store_le_length.
  exists (mmio_exit page'), (union_store (run_exit page') 8 bytes). split_and!.
  - by apply (run_mmio p w w1 v page).
  - cbn [vart_execution_handle_exit mmio_exit]. rewrite bool_decide_true by done. cbn [negb].
    change (exit_mmio_data _) with mmio. rewrite Hsz, Hwr. cbn [negb].
    rewrite (bind_eq _ _ _ _ _ Hread). change (0 <? 0) with false. cbv iota.
    rewrite (bind_eq _ _ w2 x w2) by done. unfold vart_vcpu_complete_mmio_read.
    rewrite (bind_eq _ _ w2 (after_mmio v page') w2)
      by (unfold load_vcpu; run_unfold; rewrite Hvs; cbn; by rewrite lookup_insert_eq).
    assert (vcpu_mmio_read_pending (after_mmio v page') = true) as ->
      by (change (negb (mmio_is_write mmio) = true); by rewrite Hwr).
    assert (vcpu_mmio_read_size (after_mmio v page') = mmio_size mmio) as -> by done.
    rewrite Hsz. done.
  - unfold mmio_decode_le. cbn [decode_mmio mmio_data]. rewrite <- Hbl, take_take.
    rewrite Nat.min_l by lia. rewrite union_store_same by (rewrite Hlen; lia).
    unfold bytes. rewrite load_store_le. f_equal. f_equal. lia.
  - intros i Hi. apply union_store_other; lia.
  - intros w3 v3 y Hv3 Hpend. unfold vart_vcpu_complete_mmio_read.
    rewrite (bind_eq _ _ w3 v3 w3) by (unfold load_vcpu; run_unfold; by rewrite Hv3).
    by rewrite Hpend.
Qed.

(** * A concrete kernel

    It accepts every call.  The writes to registers are in the host's file 10, the MP state
    in file 11 and the signalled threads in file 12. *)
Module VcpuDemo.
Definition writes_of (w : World) : list (Z * Z) := KvmDemo.read_pairs (KvmDemo.file w 10).
Definition last_write (l : list (Z * Z)) (id : Z) : Z :=
  default 0 (snd <$> last (filter (fun x => x.1 = id) l)).
Definition regs_of (w : World) (id : Z) : Z := last_write (writes_of w) id.
Definition mp_of (w : World) : Z := default 0 (head (KvmDemo.file w 11)).
Definition kicked_of (w : World) : list Z := KvmDemo.file w 12.
Definition page0 : kvm_run := mkRun 0 0 (replicate 256 0).
Definition set_file (n : Z) (l : list Z) : M World unit :=
  modify (fun w => w <| w_files ::= <[n := l]> |>).

#[export] Instance vcpu_host : VcpuHost := {|
  ioctl_create_vcpu _ _ := ret 7;
  map_run_page _ _ := ret (0, page0);
  unmap_run_page _ := ret tt;
  close_vcpu _ := ret tt;
  ioctl_get_one_reg _ id _ := let* w := get in ret (0, regs_of w id);
  ioctl_set_one_reg _ id x :=
    let* w := get in set_file 10 (KvmDemo.write_pairs (writes_of w ++ [(id, x)])) ;;; ret 0;
  ioctl_get_mp_state _ := let* w := get in ret (0, mp_of w);
  ioctl_set_mp_state _ x := set_file 11 [x] ;;; ret 0;
  ioctl_run _ page := ret (0, page);
  thread_block_kick := ret 0;
  install_kick_signal := ret (0, 0);
  thread_create _ := ret (0, 30);
  thread_kick t := let* w := get in set_file 12 (kicked_of w ++ [t]) ;;; ret 0;
  thread_join _ := ret 0;
|}.

#[export] Instance lifecycle_model : LifecycleModel kicked_of.
Proof.
  split.
  - intros w w' Hf. unfold kicked_of, KvmDemo.file. by rewrite Hf.
  - intros. eexists _, _. split; [reflexivity|apply host_only_refl].
  - intros. eexists _, _. split; [reflexivity|apply host_only_refl].
  - intros. eexists. split; [reflexivity|apply host_only_refl].
  - intros. eexists. split; [reflexivity|apply host_only_refl].
  - intros. eexists _, _. split; [reflexivity|apply host_only_refl].
  - intros. eexists _, _, _. split; [reflexivity|]. split; [apply host_only_refl|lia].
  - intros. eexists _, _. split; [reflexivity|apply host_only_refl].
  - intros w t. eexists _, _. split; [reflexivity|]. split; [by eexists|]. split; [done|].
    cbn. unfold kicked_of at 1, KvmDemo.file. cbn. by rewrite lookup_insert_eq.
Qed.

(** A VM with a running hart 0 and hart 1 that has not been started. *)
Definition vm : ptr := 1%positive.
Definition kvm : ptr := 1%positive.
Definition hart0 : ptr := 4%positive.
Definition hart1 : ptr := 5%positive.
Definition vcpu0 : VartVcpu := zero_vcpu <| vcpu_vm := Some vm |> <| vcpu_fd := 7 |>
  <| vcpu_run := Some page0 |> <| vcpu_thread := 31 |>
  <| vcpu_thread_state := VART_VCPU_THREAD_RUNNING |> <| vcpu_thread_created := true |>.
Definition vcpu1 : VartVcpu := zero_vcpu <| vcpu_vm := Some vm |> <| vcpu_fd := 8 |>
  <| vcpu_hart_id := 1 |> <| vcpu_run := Some page0 |> <| vcpu_next := Some hart0 |>.
Definition v0 : World := empty_world
  <| w_kvms := {[kvm := mkKvm 3 12 12288 4 8 true true true true true true true true true]} |>
  <| w_vms := {[vm := mkVm (Some kvm) 5 (Some hart1) false]} |>
  <| w_vcpus := <[hart0 := vcpu0]> {[hart1 := vcpu1]} |>.

Lemma v0_list : vm_list vm v0 [hart1; hart0].
Proof.
  split.
  - eexists _, kvm, _. repeat split; try reflexivity.
    exists vcpu1. repeat split; try reflexivity. exists vcpu0. split; reflexivity.
  - apply (bool_decide_unpack _). vm_compute. exact I.
  - intros p v. cbn. destruct (decide (p = hart0)) as [->|].
    + rewrite lookup_insert_eq. intros [= <-]. by left.
    + rewrite lookup_insert_ne by done. intros [<- <-]%lookup_singleton_Some. by left.
Qed.

Lemma vm_list_refines_witness :
  exists err w' l', list_step 3 vm (VDestroy hart0) v0 = Ok (err, w') /\ vm_list vm w' l' /\
    list_spec (VDestroy hart0) [hart1; hart0] err l'.
Proof.
  apply (vm_list_refines vm v0 [hart1; hart0] (VDestroy hart0) 3 v0_list);
    [by eexists|cbn; lia].
Defined.

Lemma shutdown_reaches_every_worker_witness :
  exists err w', vart_vm_request_shutdown 2 (Some vm) v0 = Ok (err, w') /\ err <= 0 /\
    (forall p v, w_vcpus v0 !! p = Some v ->
       w_vcpus w' !! p = Some (if bool_decide (p ∈ [hart1; hart0]) then stopping v else v)) /\
    (err = 0 -> kicked_of w' = kicked_of v0 ++ running_threads (w_vcpus v0) [hart1; hart0]) /\
    forall p handler opaque, p ∈ [hart1; hart0] -> exists e w2,
      vart_vcpu_start (Some p) handler opaque w' = Ok (e, w2) /\ e < 0 /\ host_only w' w2.
Proof.
  apply (shutdown_reaches_every_worker vm v0 [hart1; hart0] 2 v0_list). cbn. lia.
Defined.

Example shutdown_signals_hart0 : exists w',
  vart_vm_request_shutdown 2 (Some vm) v0 = Ok (0, w') /\ kicked_of w' = [31].
Proof. eexists. split; vm_compute; reflexivity. Qed.

(** A load of four bytes at 0x10000000, where a device of the address space [1] has
    0x11223344. *)
Definition load_page : kvm_run :=
  mkRun 0 KVM_EXIT_MMIO (store_le 8 0x10000000 ++ replicate 8 255 ++ store_le 4 4 ++
    replicate 236 0).
Definition loading : VartVcpu := vcpu0 <| vcpu_run := Some load_page |>.
Definition space : ptr := 1%positive.
Definition region : ptr := 1%positive.
#[local] Instance callbacks : MmioCallbacks := {|
  call_mmio_read _ _ _ _ _ := ret (0, 0x11223344);
  call_mmio_write _ _ _ _ _ := ret 0;
|}.
Definition m0 : World := v0 <| w_vcpus ::= <[hart0 := loading]> |>
  <| w_spaces := {[space := mkSpace [region] 4 None None]} |>
  <| w_regions := {[region := mkRegion 0x10000000 0x100 0 VART_REGION_MMIO true None
       (Some space) (Some (mkMmioOps (Some fn_uart_read) (Some fn_uart_write))) None None]} |>.
Definition m1 : World := m0 <| w_vcpus ::= <[hart0 := after_mmio loading load_page]> |>.

Lemma mmio_load_served_witness :
  exists exit data, vart_vcpu_run hart0 m0 = Ok ((0, exit), m1) /\
    vart_execution_handle_exit (Some (mkExecution (Some space))) (Some hart0) (Some exit) m1 =
      Ok (0, m1 <| w_vcpus ::= <[hart0 := (after_mmio loading load_page)
        <| vcpu_run := Some (load_page <| run_exit := data |>) |>
        <| vcpu_mmio_read_pending := false |>]> |>) /\
    mmio_decode_le (mmio_data (decode_mmio data)) 4 = 0x11223344 mod 256 ^ 4 /\
    (forall i : nat, Z.of_nat i < 8 \/ 8 + 4 <= Z.of_nat i ->
       data !! i = run_exit load_page !! i) /\
    forall w3 v3 y, w_vcpus w3 !! hart0 = Some v3 -> vcpu_mmio_read_pending v3 = false ->
      vart_vcpu_complete_mmio_read hart0 y w3 = Ok (-EINVAL, w3).
Proof.
  apply (mmio_load_served hart0 loading load_page load_page m0 m0 m1 space 0x11223344);
    vm_compute; reflexivity.
Defined.
End VcpuDemo.
