(* ===== verification/RiscvCpu.v ===== *)
(** The registers of a vCPU: [src/arch/riscv/riscv-cpu.c].

    The program keeps a copy of the registers in three groups, each valid or not and dirty
    or not.  The theorems say that the copy of the core group agrees with the kernel when it
    is valid and clean, and what the boot initialisation leaves in the kernel. *)

From Stdlib Require Import ZArith Lia.
From stdpp Require Import base tactics numbers list gmap.
From S2P Require Import Prelude Bytes Machine AddressSpace EventLoop KvmIrq VirtFdt Boot Vcpu.

(** A register and the member of the cached state at its offset. *)
Record VartRiscvRegister := mkRegister {
  reg_id : Z;
  reg_get : VartRiscvCpuState -> Z;
  reg_set : Z -> VartRiscvCpuState -> VartRiscvCpuState;
  reg_writable : bool;
}.
Definition STATE_REG {T} (id : Z) (part : VartRiscvCpuState -> T) `{Setter _ T part}
    (member : T -> Z) `{Setter T Z member} (writable : bool) : VartRiscvRegister :=
  mkRegister id (fun s => member (part s))
    (fun v => update part (update member (fun _ => v))) writable.

Definition csr_registers : list VartRiscvRegister :=
  let CSR index := RISCV_REG KVM_REG_RISCV_CSR index in
  [STATE_REG (CSR 0) cs_csr csr_sstatus true;
   STATE_REG (CSR 1) cs_csr csr_sie true;
   STATE_REG (CSR 2) cs_csr csr_stvec true;
   STATE_REG (CSR 3) cs_csr csr_sscratch true;
   STATE_REG (CSR 4) cs_csr csr_sepc true;
   STATE_REG (CSR 5) cs_csr csr_scause true;
   STATE_REG (CSR 6) cs_csr csr_stval true;
   STATE_REG (CSR 7) cs_csr csr_sip true;
   STATE_REG (CSR 8) cs_csr csr_satp true;
   STATE_REG (CSR 9) cs_csr csr_scounteren true;
   STATE_REG (CSR 10) cs_csr csr_senvcfg true].

Definition TIMER_STATE : Z := RISCV_REG KVM_REG_RISCV_TIMER 3.
Definition timer_registers : list VartRiscvRegister :=
  let TIMER index := RISCV_REG KVM_REG_RISCV_TIMER index in
  [STATE_REG (TIMER 0) cs_timer timer_frequency false;
   STATE_REG (TIMER 1) cs_timer timer_time true;
   STATE_REG (TIMER 2) cs_timer timer_compare true;
   STATE_REG TIMER_STATE cs_timer timer_state true].

Section Cpu.
Context `{VcpuHost}.

(** * [src/arch/riscv/riscv-cpu.c] *)

Definition set_cpu_state (p : ptr) (f : VartRiscvCpuState -> VartRiscvCpuState)
    : M World unit :=
  let* v := load_vcpu p in store_vcpu p (v <| vcpu_cpu_state ::= f |>).

(** One register is read into the cached state. *)
Definition get_register (p : ptr) (r : VartRiscvRegister) : M World Z :=
  let* v := load_vcpu p in
  let* (err, x) := vart_vcpu_get_one_reg v (reg_id r) (reg_get r (vcpu_cpu_state v)) in
  set_cpu_state p (reg_set r x) ;;; ret err.
Definition put_register (p : ptr) (r : VartRiscvRegister) : M World Z :=
  let* v := load_vcpu p in
  vart_vcpu_set_one_reg v (reg_id r) (reg_get r (vcpu_cpu_state v)).

Fixpoint get_register_array (p : ptr) (registers : list VartRiscvRegister) : M World Z :=
  match registers with
  | [] => ret 0
  | r :: registers =>
      let* err := get_register p r in
      if err <? 0 then ret err else get_register_array p registers
  end.

(** The timer's state is not written when it is off. *)
Fixpoint put_register_array (p : ptr) (registers : list VartRiscvRegister) : M World Z :=
  match registers with
  | [] => ret 0
  | r :: registers =>
      if negb (reg_writable r) then put_register_array p registers
      else
        let* v := load_vcpu p in
        if (reg_id r =? TIMER_STATE) && (reg_get r (vcpu_cpu_state v) =? 0)
        then put_register_array p registers
        else
          let* err := put_register p r in
          if err <? 0 then ret err else put_register_array p registers
  end.

(** The registers of the core group: the program counter, [x1] to [x31], the mode. *)
Definition pc_register : VartRiscvRegister := STATE_REG CORE_PC cs_core core_pc true.
Definition mode_register : VartRiscvRegister := STATE_REG CORE_MODE cs_core core_mode true.
Definition gpr_register (i : nat) : VartRiscvRegister :=
  mkRegister (riscv_gpr_id (Z.of_nat i)) (fun s => core_gpr (cs_core s) !!! i)
    (fun x => update cs_core (update core_gpr (<[i := x]>))) true.

(** The loop over the integer registers from [i] on. *)
Fixpoint get_gprs (p : ptr) (i n : nat) : M World Z :=
  match n with
  | O => ret 0
  | S n =>
      let* err := get_register p (gpr_register i) in
      if err <? 0 then ret err else get_gprs p (S i) n
  end.
Fixpoint put_gprs (p : ptr) (i n : nat) : M World Z :=
  match n with
  | O => ret 0
  | S n =>
      let* err := put_register p (gpr_register i) in
      if err <? 0 then ret err else put_gprs p (S i) n
  end.

Definition get_core (p : ptr) : M World Z :=
  let* err := get_register p pc_register in
  if err <? 0 then ret err
  else
    set_cpu_state p (reg_set (gpr_register 0) 0) ;;;
    let* err := get_gprs p 1 31 in
    if err <? 0 then ret err else get_register p mode_register.

Definition put_core (p : ptr) : M World Z :=
  let* err := put_register p pc_register in
  if err <? 0 then ret err
  else
    let* err := put_gprs p 1 31 in
    if err <? 0 then ret err else put_register p mode_register.

Definition validate_sync (vcpu : option ptr) (groups : Z) : M World Z :=
  match vcpu with
  | None => ret (-EINVAL)
  | Some p =>
      if (groups =? 0) || negb (clear_group groups VART_RISCV_REG_ALL =? 0)
      then ret (-EINVAL)
      else
        let* v := load_vcpu p in
        ret (if bool_decide (vcpu_thread_state v = VART_VCPU_THREAD_RUNNING)
             then -EBUSY else 0)
  end.

(** A group, when it is among [groups], is handled by [m]; afterwards it is marked by
    [mark] unless [m] failed. *)
Definition with_group (p : ptr) (groups group : Z) (m : M World Z)
    (mark : VartRiscvCpuState -> VartRiscvCpuState) : M World Z :=
  if bits groups group then
    let* err := m in
    if err <? 0 then ret err else set_cpu_state p mark ;;; ret 0
  else ret 0.
Definition mark_clean (group : Z) (s : VartRiscvCpuState) : VartRiscvCpuState :=
  s <| cs_dirty ::= (fun x => clear_group x group) |>.
Definition mark_valid (group : Z) (s : VartRiscvCpuState) : VartRiscvCpuState :=
  s <| cs_valid ::= (fun x => Z.lor x group) |> <| cs_dirty ::= (fun x => clear_group x group) |>.

Definition core_writable (c : VartRiscvCoreState) : bool :=
  (core_gpr c !!! 0%nat =? 0) &&
  ((core_mode c =? KVM_RISCV_MODE_S) || (core_mode c =? KVM_RISCV_MODE_U)).

Definition put_core_checked (p : ptr) : M World Z :=
  let* v := load_vcpu p in
  if negb (core_writable (cs_core (vcpu_cpu_state v))) then ret (-EINVAL) else put_core p.

Definition put_registers_locked (p : ptr) (groups : Z) : M World Z :=
  let* v := load_vcpu p in
  let pending := Z.land groups (cs_dirty (vcpu_cpu_state v)) in
  if negb (clear_group pending (cs_valid (vcpu_cpu_state v)) =? 0) then ret (-EINVAL)
  else
    let* err := with_group p pending VART_RISCV_REG_CORE (put_core_checked p)
                  (mark_clean VART_RISCV_REG_CORE) in
    if err <? 0 then ret err
    else
      let* err := with_group p pending VART_RISCV_REG_CSR
                    (put_register_array p csr_registers) (mark_clean VART_RISCV_REG_CSR) in
      if err <? 0 then ret err
      else with_group p pending VART_RISCV_REG_TIMER
             (put_register_array p timer_registers) (mark_clean VART_RISCV_REG_TIMER).

Definition vart_riscv_vcpu_get_registers (vcpu : option ptr) (groups : Z) : M World Z :=
  match vcpu with
  | None => ret (-EINVAL)
  | Some p =>
      let* err := validate_sync vcpu groups in
      if err <? 0 then ret err
      else
        let* err := with_group p groups VART_RISCV_REG_CORE (get_core p)
                      (mark_valid VART_RISCV_REG_CORE) in
        if err <? 0 then ret err
        else
          let* err := with_group p groups VART_RISCV_REG_CSR
                        (get_register_array p csr_registers)
                        (mark_valid VART_RISCV_REG_CSR) in
          if err <? 0 then ret err
          else with_group p groups VART_RISCV_REG_TIMER
                 (get_register_array p timer_registers) (mark_valid VART_RISCV_REG_TIMER)
  end.

Definition vart_riscv_vcpu_put_registers (vcpu : option ptr) (groups : Z) : M World Z :=
  match vcpu with
  | None => ret (-EINVAL)
  | Some p =>
      let* err := validate_sync vcpu groups in
      if err <? 0 then ret err else put_registers_locked p groups
  end.

(** The cached registers at the entry of the boot image. *)
Definition boot_state (hart_id : Z) (boot : VartRiscvBootInfo) (groups : Z)
    (s : VartRiscvCpuState) : VartRiscvCpuState :=
  s <| cs_core := mkCore (boot_entry boot)
         (<[11%nat := boot_fdt_addr boot]> (<[10%nat := hart_id]> (replicate 32 0)))
         KVM_RISCV_MODE_S |>
    <| cs_csr := zero_csr |>
    <| cs_valid ::= (fun x => Z.lor x groups) |> <| cs_dirty ::= (fun x => Z.lor x groups) |>.

Definition boot_info_invalid (boot : VartRiscvBootInfo) : bool :=
  (boot_entry boot =? 0) || bits (boot_entry boot) 1 ||
  (boot_fdt_addr boot =? 0) || bits (boot_fdt_addr boot) 7.

Definition vart_riscv_vcpu_init_boot (vcpu : option ptr) (boot : option VartRiscvBootInfo)
    : M World Z :=
  match vcpu, boot with
  | Some p, Some boot =>
      if boot_info_invalid boot then ret (-EINVAL)
      else
        let groups := Z.lor VART_RISCV_REG_CORE VART_RISCV_REG_CSR in
        let* err := validate_sync vcpu groups in
        if err <? 0 then ret err
        else
          let* v := load_vcpu p in
          set_cpu_state p (boot_state (vcpu_hart_id v) boot groups) ;;;
          let* err := put_registers_locked p groups in
          if err <? 0 then ret err
          else
            vart_vcpu_set_mp_state_locked vcpu
              (if vcpu_hart_id v =? 0 then KVM_MP_STATE_RUNNABLE else KVM_MP_STATE_STOPPED)
  | _, _ => ret (-EINVAL)
  end.

(** The error code and the state afterwards. *)
Definition vart_riscv_cpu_state_mark_dirty (state : option VartRiscvCpuState) (groups : Z)
    : Z * option VartRiscvCpuState :=
  match state with
  | None => (-EINVAL, None)
  | Some s =>
      if (groups =? 0) || negb (clear_group groups VART_RISCV_REG_ALL =? 0) ||
         negb (clear_group groups (cs_valid s) =? 0)
      then (-EINVAL, state)
      else (0, Some (s <| cs_dirty ::= (fun x => Z.lor x groups) |>))
  end.
End Cpu.

(** * What the kernel does *)

Definition core_registers : list VartRiscvRegister :=
  pc_register :: map gpr_register (seq 1 31) ++ [mode_register].
Definition register_ids (l : list VartRiscvRegister) : list Z := map reg_id l.
Definition mode_legal (x : Z) : Prop := x = KVM_RISCV_MODE_U \/ x = KVM_RISCV_MODE_S.

(** The documented behaviour of the register ioctls for the vCPU with the descriptor [fd]
    while it does not run: [regs] are its core registers, [log] the writes the kernel
    accepted, in order, and [mp] its MP state.  A refused call changes nothing, a core
    register reads as it was written last, and writing another register changes no core
    register. *)
Class VcpuModel `{VcpuHost} (fd : Z) (regs : World -> Z -> Z) (log : World -> list (Z * Z))
    (mp : World -> Z) : Prop := {
  vm_frame w w' : w_files w' = w_files w ->
    regs w' = regs w /\ log w' = log w /\ mp w' = mp w;
  vm_get w id old : exists err x w', ioctl_get_one_reg fd id old w = Ok ((err, x), w') /\
    host_only w w' /\ regs w' = regs w /\ log w' = log w /\ mp w' = mp w /\
    (if err <? 0 then x = old
     else id ∈ register_ids core_registers -> x = regs w id);
  vm_set w id x : (id = CORE_MODE -> mode_legal x) ->
    exists err w', ioctl_set_one_reg fd id x w = Ok (err, w') /\
    host_only w w' /\ mp w' = mp w /\
    if err <? 0 then regs w' = regs w /\ log w' = log w
    else log w' = log w ++ [(id, x)] /\
      forall i, i ∈ register_ids core_registers ->
        regs w' i = if decide (i = id) then x else regs w i;
  vm_set_mp w x : exists err w', ioctl_set_mp_state fd x w = Ok (err, w') /\
    host_only w w' /\ regs w' = regs w /\ log w' = log w /\
    mp w' = if err <? 0 then mp w else x;
}.

Lemma core_ids_NoDup : NoDup (register_ids core_registers).
Proof. apply (bool_decide_unpack _). vm_compute. exact I. Qed.

Section Registers.
Context `{VM : VcpuModel} (p : ptr).

(** The writes of the registers [l] of the cached state [s]. *)
Definition writes (l : list VartRiscvRegister) (s : VartRiscvCpuState) : list (Z * Z) :=
  map (fun r => (reg_id r, reg_get r s)) l.

Fixpoint put_list (l : list VartRiscvRegister) : M World Z :=
  match l with
  | [] => ret 0
  | r :: l => let* err := put_register p r in if err <? 0 then ret err else put_list l
  end.

(** What writing the registers [l] of the cached state [s] does. *)
Record written (w : World) (l : list VartRiscvRegister) (s : VartRiscvCpuState) (err : Z)
    (w' : World) : Prop := {
  wr_host : host_only w w';
  wr_mp : mp w' = mp w;
  wr_err : err <= 0;
  wr_log : if err <? 0
    then exists k, (k < length l)%nat /\ log w' = log w ++ take k (writes l s)
    else log w' = log w ++ writes l s;
  wr_core : err = 0 -> forall r, r ∈ l -> reg_id r ∈ register_ids core_registers ->
    regs w' (reg_id r) = reg_get r s;
  wr_other : forall i, i ∈ register_ids core_registers -> i ∉ register_ids l ->
    regs w' i = regs w i;
}.

Lemma put_register_spec w v r : w_vcpus w !! p = Some v -> vcpu_fd v = fd ->
  (reg_id r = CORE_MODE -> mode_legal (reg_get r (vcpu_cpu_state v))) ->
  wp (put_register p r) (fun err w' => host_only w w' /\ mp w' = mp w /\ err <= 0 /\
    if err <? 0 then regs w' = regs w /\ log w' = log w
    else log w' = log w ++ [(reg_id r, reg_get r (vcpu_cpu_state v))] /\
      forall i, i ∈ register_ids core_registers ->
        regs w' i = if decide (i = reg_id r) then reg_get r (vcpu_cpu_state v) else regs w i) w.
Proof.
  intros Hv Hfd Hm. unfold put_register. wsteps. unfold vart_vcpu_set_one_reg. rewrite Hfd.
  destruct (vm_set w (reg_id r) (reg_get r (vcpu_cpu_state v)) Hm)
    as (err & w' & E & Hh & Hmp & Hc).
  wsteps. apply wp_ok. exists err, w'. split; [done|]. wsteps.
  split_and!; [done|done|destruct (Z.ltb_spec err 0); lia|].
  destruct (Z.ltb_spec err 0); [by replace (err <? 0) with true by lia|done].
Qed.

Lemma put_list_spec v l : forall w, w_vcpus w !! p = Some v -> vcpu_fd v = fd ->
  NoDup (register_ids l) ->
  (forall r, r ∈ l -> reg_id r = CORE_MODE -> mode_legal (reg_get r (vcpu_cpu_state v))) ->
  wp (put_list l) (written w l (vcpu_cpu_state v)) w.
Proof using VM.
  induction l as [|r l IH]; intros w Hv Hfd Hnd Hm; cbn [put_list].
  { wsteps. split; try done; [by rewrite app_nil_r|set_solver]. }
  cbn in Hnd. apply NoDup_cons in Hnd as [Hr Hnd].
  wsteps. eapply wp_mono; [apply (put_register_spec w v r); try done; set_solver|].
  intros err w1 (Hh1 & Hmp1 & He1 & Hc1). destruct (Z.ltb_spec err 0) as [Hneg|Hpos].
  { wsteps. destruct Hc1 as [Hr1 Hl1]. split; try done; [|lia|].
    - replace (err <? 0) with true by lia. exists 0%nat. cbn. rewrite app_nil_r.
      split; [lia|done].
    - intros i _ _. by rewrite Hr1. }
  destruct Hc1 as [Hl1 Hr1].
  assert (w_vcpus w1 !! p = Some v) as Hv1 by (destruct Hh1 as [f ->]; done).
  eapply wp_mono; [apply (IH w1); try done; set_solver|].
  intros e w2 []. split; [by etrans|congruence|done| | |].
  - destruct (e <? 0).
    + destruct wr_log0 as (k & Hk & ->). exists (S k). cbn. split; [lia|].
      by rewrite Hl1, <- app_assoc.
    + by rewrite wr_log0, Hl1, <- app_assoc.
  - intros E r' [->|Hin]%elem_of_cons Hc; [|by apply wr_core0].
    rewrite wr_other0 by done. rewrite Hr1 by done. by rewrite decide_True.
  - intros i Hc Hi. cbn in Hi. rewrite wr_other0 by set_solver.
    rewrite Hr1 by done. rewrite decide_False by set_solver. done.
Qed.

(** The code writes the groups one register after the other. *)
Lemma put_register_once r w :
  (let* err := put_register p r in if err <? 0 then ret err else ret 0) w = put_register p r w.
Proof using.
  unfold put_register, vart_vcpu_set_one_reg, bind. destruct (load_vcpu p w) as [[v w1]| |]; try done.
  destruct (ioctl_set_one_reg _ _ _ w1) as [[e w2]| |]; try done. cbn.
  destruct (Z.ltb_spec e 0); [by replace (e <? 0) with true by lia|done].
Qed.

Lemma put_list_app l1 l2 : forall w, put_list (l1 ++ l2) w =
  (let* err := put_list l1 in if err <? 0 then ret err else put_list l2) w.
Proof using.
  induction l1 as [|r l1 IH]; intros w; [done|]. cbn [put_list app]. unfold bind in *.
  destruct (put_register p r w) as [[e w1]| |]; try done.
  destruct (Z.ltb_spec e 0); [|apply IH]. cbn. by replace (e <? 0) with true by lia.
Qed.

Lemma put_gprs_list n : forall i w, put_gprs p i n w = put_list (map gpr_register (seq i n)) w.
Proof using.
  induction n as [|n IH]; intros i w; [done|]. cbn [put_gprs seq map put_list]. unfold bind.
  destruct (put_register p (gpr_register i) w) as [[e w1]| |]; try done.
  destruct (e <? 0); [done|apply IH].
Qed.

Lemma put_core_list w : put_core p w = put_list core_registers w.
Proof using.
  unfold put_core, core_registers. cbn [put_list]. unfold bind at 1 3.
  destruct (put_register p pc_register w) as [[e w1]| |]; try done.
  destruct (e <? 0); [done|]. rewrite put_list_app. unfold bind.
  rewrite put_gprs_list.
  destruct (put_list _ w1) as [[e2 w2]| |]; try done. destruct (e2 <? 0); [done|].
  symmetry. apply put_register_once.
Qed.

Lemma put_array_list l : Forall (fun r => reg_writable r = true /\ reg_id r <> TIMER_STATE) l ->
  forall w, put_register_array p l w = put_list l w.
Proof using.
  induction 1 as [|r l [Hw Hid] _ IH]; intros w; [done|].
  cbn [put_register_array put_list]. rewrite Hw. cbn [negb].
  replace (reg_id r =? TIMER_STATE) with false by lia. cbn [andb]. unfold bind.
  assert (forall v w1, load_vcpu p w = Ok (v, w1) -> w1 = w) as Hload.
  { unfold load_vcpu. intros v w1 E. by inv_ok. }
  destruct (load_vcpu p w) as [[v w1]| |] eqn:E.
  - rewrite (Hload _ _ eq_refl). destruct (put_register p r w) as [[e w2]| |]; try done.
    destruct (e <? 0); [done|apply IH].
  - unfold put_register, bind. by rewrite E.
  - unfold put_register, bind. by rewrite E.
Qed.

Lemma csr_plain : Forall (fun r => reg_writable r = true /\ reg_id r <> TIMER_STATE) csr_registers.
Proof using. repeat constructor; by vm_compute. Qed.
Lemma csr_ids_NoDup : NoDup (register_ids csr_registers).
Proof using. apply (bool_decide_unpack _). vm_compute. exact I. Qed.
Lemma csr_not_core i : i ∈ register_ids core_registers -> i ∉ register_ids csr_registers.
Proof using.
  revert i. apply Forall_forall. apply (bool_decide_unpack _). vm_compute. exact I.
Qed.
Lemma csr_not_mode r : r ∈ csr_registers -> reg_id r <> CORE_MODE.
Proof using.
  intros Hr E. apply (csr_not_core CORE_MODE).
  - apply (bool_decide_unpack _). vm_compute. exact I.
  - rewrite <- E. apply list_elem_of_fmap. eauto.
Qed.

Lemma core_mode_only r s : r ∈ core_registers -> reg_id r = CORE_MODE ->
  reg_get r s = core_mode (cs_core s).
Proof using.
  intros Hr E. assert (core_registers !! 32%nat = Some mode_register) as Hm by done.
  apply list_elem_of_lookup in Hr as [k Hk].
  assert (k = 32%nat) as ->.
  { apply (NoDup_lookup (register_ids core_registers) k 32 CORE_MODE core_ids_NoDup).
    - unfold register_ids. by rewrite list_lookup_fmap, Hk; cbn; rewrite E.
    - unfold register_ids. by rewrite list_lookup_fmap, Hm. }
  rewrite Hm in Hk. by injection Hk as <-.
Qed.

Lemma put_core_spec w v : w_vcpus w !! p = Some v -> vcpu_fd v = fd ->
  mode_legal (core_mode (cs_core (vcpu_cpu_state v))) ->
  wp (put_core p) (written w core_registers (vcpu_cpu_state v)) w.
Proof using VM.
  intros Hv Hfd Hm. unfold wp. rewrite put_core_list.
  apply (put_list_spec v core_registers); [done|done|exact core_ids_NoDup|].
  intros r Hr E. by rewrite (core_mode_only r).
Qed.

Lemma put_csr_spec w v : w_vcpus w !! p = Some v -> vcpu_fd v = fd ->
  wp (put_register_array p csr_registers) (written w csr_registers (vcpu_cpu_state v)) w.
Proof using VM.
  intros Hv Hfd. unfold wp. rewrite (put_array_list csr_registers csr_plain).
  apply (put_list_spec v csr_registers); [done|done|exact csr_ids_NoDup|].
  intros r Hr E. by apply csr_not_mode in E.
Qed.

(** Writing an array of registers that are not core registers keeps these. *)
Lemma put_array_core l : forall w v, w_vcpus w !! p = Some v -> vcpu_fd v = fd ->
  (forall i, i ∈ register_ids core_registers -> i ∉ register_ids l) ->
  wp (put_register_array p l) (fun err w' => host_only w w' /\ mp w' = mp w /\ err <= 0 /\
    forall i, i ∈ register_ids core_registers -> regs w' i = regs w i) w.
Proof using VM.
  induction l as [|r l IH]; intros w v Hv Hfd Hl; cbn [put_register_array].
  { wsteps. done. }
  assert (forall w1, w_vcpus w1 !! p = Some v ->
    wp (put_register_array p l) (fun err w' => host_only w1 w' /\ mp w' = mp w1 /\ err <= 0 /\
      forall i, i ∈ register_ids core_registers -> regs w' i = regs w1 i) w1) as IH1.
  { intros w1 Hv1. apply (IH w1 v Hv1 Hfd). intros i Hi. specialize (Hl i Hi). set_solver. }
  destruct (reg_writable r); cbn [negb]; [|by apply IH1]. wsteps.
  destruct (_ && _); [by apply IH1|]. wsteps.
  eapply wp_mono; [apply (put_register_spec w v r Hv Hfd)|].
  { intros E. exfalso. apply (Hl CORE_MODE); [|cbn; rewrite E; set_solver].
    apply (bool_decide_unpack _). vm_compute. exact I. }
  intros err w1 (Hh1 & Hmp1 & He1 & Hc1). destruct (Z.ltb_spec err 0).
  { wsteps. destruct Hc1 as [-> _]. done. }
  destruct Hc1 as [_ Hr1].
  eapply wp_mono; [apply IH1; destruct Hh1 as [f ->]; done|].
  intros e w2 (Hh2 & Hmp2 & He2 & Hr2). split_and!; [by etrans|congruence|done|].
  intros i Hi. rewrite Hr2, Hr1 by done. rewrite decide_False; [done|].
  intros ->. apply (Hl (reg_id r) Hi). cbn. set_solver.
Qed.

(** ** Reading *)

(** Only the host's state and the cached registers of the vCPU, now [s], changed. *)
Definition cached (w : World) (v : VartVcpu) (s : VartRiscvCpuState) (w' : World) : Prop :=
  exists f, w' = w <| w_files := f |> <| w_vcpus ::= <[p := v <| vcpu_cpu_state := s |>]> |>.

Lemma cached_refl w v : w_vcpus w !! p = Some v -> cached w v (vcpu_cpu_state v) w.
Proof using.
  intros Hv. exists (w_files w). destruct w, v. unfold update; cbn. f_equal.
  symmetry. by apply insert_id.
Qed.
Lemma cached_lookup w v s w' : cached w v s w' ->
  w_vcpus w' !! p = Some (v <| vcpu_cpu_state := s |>).
Proof using. intros [f ->]. apply lookup_insert_eq. Qed.
Lemma cached_trans w v s w1 s' w2 :
  cached w v s w1 -> cached w1 (v <| vcpu_cpu_state := s |>) s' w2 -> cached w v s' w2.
Proof using.
  intros [f1 ->] [f2 ->]. exists f2. destruct w, v. unfold update; cbn. f_equal.
  apply insert_insert_eq.
Qed.
Lemma cached_host w v w' : w_vcpus w !! p = Some v -> host_only w w' ->
  cached w v (vcpu_cpu_state v) w'.
Proof using.
  intros Hv [f ->]. exists f. destruct w, v. unfold update; cbn. f_equal.
  symmetry. by apply insert_id.
Qed.

(** The kernel's side is as before. *)
Definition same_kernel (w w' : World) : Prop :=
  regs w' = regs w /\ log w' = log w /\ mp w' = mp w.
#[local] Instance same_kernel_preorder : PreOrder same_kernel.
Proof using.
  split; [done|]. intros w1 w2 w3 (H1 & H2 & H3) (H4 & H5 & H6). split_and!; congruence.
Qed.

Lemma set_cpu_state_spec w v f : w_vcpus w !! p = Some v ->
  wp (set_cpu_state p f) (fun _ w' => cached w v (f (vcpu_cpu_state v)) w' /\
    same_kernel w w') w.
Proof using VM.
  intros Hv. unfold set_cpu_state. wsteps. split; [|by apply vm_frame].
  exists (w_files w). by destruct w.
Qed.

Lemma get_register_spec w v r : w_vcpus w !! p = Some v -> vcpu_fd v = fd ->
  wp (get_register p r) (fun err w' => err <= 0 /\ same_kernel w w' /\
    exists x, cached w v (reg_set r x (vcpu_cpu_state v)) w' /\
    if err <? 0 then x = reg_get r (vcpu_cpu_state v)
    else reg_id r ∈ register_ids core_registers -> x = regs w (reg_id r)) w.
Proof using VM.
  intros Hv Hfd. unfold get_register. wsteps. unfold vart_vcpu_get_one_reg. rewrite Hfd.
  destruct (vm_get w (reg_id r) (reg_get r (vcpu_cpu_state v)))
    as (err & x & w1 & E & Hh & Hr & Hl & Hmp & Hx).
  wsteps. apply wp_ok. exists (err, x), w1. split; [done|]. wsteps.
  assert (w_vcpus w1 !! p = Some v) as Hv1 by (destruct Hh as [f ->]; done).
  eapply wp_mono; [by apply (set_cpu_state_spec w1 v)|]. intros _ w2 [Hc Hk]. wsteps.
  split; [destruct (Z.ltb_spec err 0); lia|]. split; [etrans; [|exact Hk]; done|].
  exists x. split.
  - eapply cached_trans; [by apply cached_host|]. by destruct v.
  - destruct (Z.ltb_spec err 0); [by replace (err <? 0) with true by lia|done].
Qed.

(** The core registers of the kernel, as the program caches them. *)
Definition kernel_core (R : Z -> Z) : VartRiscvCoreState :=
  mkCore (R CORE_PC) (0 :: map (fun i => R (riscv_gpr_id (Z.of_nat i))) (seq 1 31))
    (R CORE_MODE).

Lemma kernel_gpr R i : (1 <= i < 32)%nat ->
  core_gpr (kernel_core R) !!! i = R (riscv_gpr_id (Z.of_nat i)).
Proof using.
  intros Hi. destruct i as [|i]; [lia|]. cbn [kernel_core core_gpr].
  change (_ !!! S i) with (map (fun i => R (riscv_gpr_id (Z.of_nat i))) (seq 1 31) !!! i).
  apply list_lookup_total_correct. by rewrite list_lookup_fmap, lookup_seq_lt by lia.
Qed.

Lemma gpr_in_core i : (1 <= i < 32)%nat ->
  riscv_gpr_id (Z.of_nat i) ∈ register_ids core_registers.
Proof using.
  intros Hi. unfold register_ids, core_registers. apply list_elem_of_fmap.
  exists (gpr_register i). split; [done|]. apply elem_of_cons. right. apply elem_of_app. left.
  apply list_elem_of_fmap. exists i. split; [done|]. apply elem_of_seq. lia.
Qed.

Definition with_gprs (s : VartRiscvCpuState) (g : list Z) : VartRiscvCpuState :=
  s <| cs_core ::= (fun c => c <| core_gpr := g |>) |>.

(** Every element of [g'] is as in [g] or as in the kernel. *)
Definition refreshed (R : Z -> Z) (g g' : list Z) : Prop :=
  length g' = length g /\
  forall k, g' !!! k = g !!! k \/ g' !!! k = core_gpr (kernel_core R) !!! k.

Lemma refreshed_trans R g1 g2 g3 : refreshed R g1 g2 -> refreshed R g2 g3 -> refreshed R g1 g3.
Proof using.
  intros [L1 H1] [L2 H2]. split; [congruence|]. intros k.
  destruct (H2 k) as [-> | ->]; auto.
Qed.
Lemma refreshed_insert R g i x : x = g !!! i \/ x = core_gpr (kernel_core R) !!! i ->
  refreshed R g (<[i := x]> g).
Proof using.
  intros Hx. split; [apply length_insert|]. intros k.
  destruct (decide (i = k)) as [<-|Hne].
  - destruct (decide (i < length g)%nat).
    + by rewrite list_lookup_total_insert_eq.
    + rewrite list_insert_ge by lia. by left.
  - rewrite list_lookup_total_insert_ne by done. by left.
Qed.

Lemma get_gprs_spec n : forall i w v,
  w_vcpus w !! p = Some v -> vcpu_fd v = fd -> (1 <= i)%nat -> (i + n <= 32)%nat ->
  length (core_gpr (cs_core (vcpu_cpu_state v))) = 32%nat ->
  wp (get_gprs p i n) (fun err w' => err <= 0 /\ same_kernel w w' /\
    exists g, cached w v (with_gprs (vcpu_cpu_state v) g) w' /\
      refreshed (regs w) (core_gpr (cs_core (vcpu_cpu_state v))) g /\
      (err = 0 -> forall k, (i <= k < i + n)%nat ->
         g !!! k = core_gpr (kernel_core (regs w)) !!! k)) w.
Proof using VM.
  induction n as [|n IH]; intros i w v Hv Hfd Hi Hn Hlen; cbn [get_gprs].
  { wsteps. split_and!; [done|done|]. exists (core_gpr (cs_core (vcpu_cpu_state v))).
    split_and!; [|by split; [|auto]|lia].
    replace (with_gprs _ _) with (vcpu_cpu_state v); [by apply cached_refl|].
    destruct v as [????????????????? [[]] ?]. done. }
  wsteps. eapply wp_mono; [by apply (get_register_spec w v)|].
  intros err w1 (He1 & Hk1 & x & Hc1 & Hx).
  set (g := core_gpr (cs_core (vcpu_cpu_state v))) in *.
  change (reg_set (gpr_register i) x (vcpu_cpu_state v))
    with (with_gprs (vcpu_cpu_state v) (<[i := x]> g)) in Hc1.
  change (reg_get (gpr_register i) (vcpu_cpu_state v)) with (g !!! i) in Hx.
  assert (refreshed (regs w) g (<[i := x]> g)) as Href.
  { apply refreshed_insert. destruct (err <? 0); [by left|right].
    rewrite kernel_gpr by lia. apply Hx. apply gpr_in_core. lia. }
  destruct (Z.ltb_spec err 0).
  { wsteps. split_and!; [done|done|]. exists (<[i := x]> g). split_and!; [done|done|lia]. }
  pose proof (cached_lookup _ _ _ _ Hc1) as Hv1.
  eapply wp_mono; [apply (IH (S i) w1); [exact Hv1|done|lia|lia|]|].
  { cbn. by rewrite length_insert. }
  intros e w2 (He2 & Hk2 & g2 & Hc2 & Href2 & Hd2). cbn in Href2, Hc2.
  destruct Hk1 as (Hr1 & Hl1 & Hm1). rewrite Hr1 in Href2, Hd2.
  split_and!; [done|by etrans; [|exact Hk2]|]. exists g2. split_and!.
  - exact (cached_trans _ _ _ _ _ _ Hc1 Hc2).
  - by eapply refreshed_trans.
  - intros E k Hk. destruct (decide (k = i)) as [->|]; [|apply Hd2; lia].
    destruct Href2 as [_ H2]. destruct (H2 i) as [-> | ->]; [|done].
    rewrite list_lookup_total_insert_eq by lia. rewrite kernel_gpr by lia.
    apply Hx, gpr_in_core. lia.
Qed.

Lemma total_eq (g h : list Z) : length g = length h ->
  (forall k, (k < length h)%nat -> g !!! k = h !!! k) -> g = h.
Proof using.
  intros Hl Hk. apply list_eq_same_length with (length h); [done|done|].
  intros k x y Hlt Hx Hy. specialize (Hk k Hlt).
  by rewrite (list_lookup_total_correct _ _ _ Hx), (list_lookup_total_correct _ _ _ Hy) in Hk.
Qed.

Lemma refreshed_kernel R g :
  refreshed R (core_gpr (kernel_core R)) g -> g = core_gpr (kernel_core R).
Proof using.
  intros [Hl Hk]. apply total_eq; [done|]. intros k _. by destruct (Hk k).
Qed.

Definition with_core (s : VartRiscvCpuState) (c : VartRiscvCoreState) : VartRiscvCpuState :=
  s <| cs_core := c |>.
Lemma with_core_self s : with_core s (cs_core s) = s.
Proof using. by destruct s. Qed.

Lemma get_core_spec w v :
  w_vcpus w !! p = Some v -> vcpu_fd v = fd ->
  length (core_gpr (cs_core (vcpu_cpu_state v))) = 32%nat ->
  wp (get_core p) (fun err w' => err <= 0 /\ same_kernel w w' /\
    exists c, cached w v (with_core (vcpu_cpu_state v) c) w' /\ length (core_gpr c) = 32%nat /\
      (cs_core (vcpu_cpu_state v) = kernel_core (regs w) -> c = kernel_core (regs w)) /\
      (err = 0 -> c = kernel_core (regs w))) w.
Proof using VM.
  intros Hv Hfd Hlen. set (s := vcpu_cpu_state v) in *. unfold get_core. wsteps.
  eapply wp_mono; [by apply (get_register_spec w v)|].
  intros e1 w1 (He1 & Hk1 & x & Hc1 & Hx). fold s in Hc1, Hx.
  assert (cs_core s = kernel_core (regs w) -> x = regs w CORE_PC) as Hpc.
  { intros E. destruct (e1 <? 0); [rewrite Hx; cbn; by rewrite E|].
    apply Hx. apply (bool_decide_unpack _). vm_compute. exact I. }
  destruct (Z.ltb_spec e1 0).
  { wsteps. split_and!; [done|done|]. exists ((cs_core s) <| core_pc := x |>).
    split_and!; [exact Hc1|done| |lia]. intros E. rewrite E. by rewrite (Hpc E). }
  pose proof (cached_lookup _ _ _ _ Hc1) as Hv1. wsteps.
  eapply wp_mono; [by apply (set_cpu_state_spec w1)|]. intros _ w2 [Hc2 Hk2].
  pose proof (cached_trans _ _ _ _ _ _ Hc1 Hc2) as Hc02.
  pose proof (cached_lookup _ _ _ _ Hc02) as Hv2. wsteps.
  eapply wp_mono; [apply (get_gprs_spec 31 1 w2 _ Hv2); [done|lia|lia|]|].
  { cbn. by rewrite length_insert. }
  intros e3 w3 (He3 & Hk3 & g & Hc3 & Href & Hd). cbn in Href, Hc3.
  destruct Hk1 as (Hr1 & Hl1 & Hm1), Hk2 as (Hr2 & Hl2 & Hm2).
  assert (regs w2 = regs w) as Hr02 by congruence. rewrite Hr02 in Href, Hd.
  pose proof (cached_trans _ _ _ _ _ _ Hc02 Hc3) as Hc03.
  assert (same_kernel w w3) as Hk03 by (destruct Hk3 as (? & ? & ?); split_and!; congruence).
  assert (length g = 32%nat) as Hg by (destruct Href as [-> _]; by rewrite length_insert).
  assert (cs_core s = kernel_core (regs w) -> g = core_gpr (kernel_core (regs w))) as Hgk.
  { intros E. apply refreshed_kernel. rewrite E in Href.
    change (<[0%nat := 0]> (core_gpr (kernel_core (regs w))))
      with (core_gpr (kernel_core (regs w))) in Href. exact Href. }
  set (c3 := mkCore x g (core_mode (cs_core s))).
  change (cached w v (with_core s c3) w3) in Hc03.
  destruct (Z.ltb_spec e3 0).
  { wsteps. split_and!; [done|done|]. exists c3. split_and!; [done|done| |lia].
    intros E. unfold c3. rewrite (Hgk E), (Hpc E), E. done. }
  pose proof (cached_lookup _ _ _ _ Hc03) as Hv3.
  eapply wp_mono; [by apply (get_register_spec w3 _ mode_register Hv3)|].
  intros e4 w4 (He4 & Hk4 & y & Hc4 & Hy). cbn in Hy.
  destruct Hk03 as (Hr3 & Hl3 & Hm3). rewrite Hr3 in Hy.
  split_and!; [done|destruct Hk4 as (? & ? & ?); split_and!; congruence|].
  exists (mkCore x g y). split_and!; [exact (cached_trans _ _ _ _ _ _ Hc03 Hc4)|done| |].
  - intros E. rewrite (Hgk E), (Hpc E). unfold kernel_core. f_equal.
    destruct (e4 <? 0); [rewrite Hy; by rewrite E|]. apply Hy.
    apply (bool_decide_unpack _). vm_compute. exact I.
  - intros ->. unfold kernel_core. f_equal.
    + replace (e1 <? 0) with false in Hx by lia. apply Hx.
      apply (bool_decide_unpack _). vm_compute. exact I.
    + apply total_eq; [done|]. intros k Hk. cbn in Hk.
      destruct k as [|k].
      * destruct Href as [_ Hz]. destruct (Hz 0%nat) as [-> | ->]; [|done].
        by rewrite list_lookup_total_insert_eq by lia.
      * change (0 :: map _ _) with (core_gpr (kernel_core (regs w))). apply Hd; lia.
    + apply Hy. apply (bool_decide_unpack _). vm_compute. exact I.
Qed.

(** Reading registers that are not core registers. *)
Lemma get_array_spec l : forall w v, w_vcpus w !! p = Some v -> vcpu_fd v = fd ->
  Forall (fun r => forall x s, cs_core (reg_set r x s) = cs_core s /\
    cs_valid (reg_set r x s) = cs_valid s /\ cs_dirty (reg_set r x s) = cs_dirty s) l ->
  wp (get_register_array p l) (fun err w' => err <= 0 /\ same_kernel w w' /\
    exists s, cached w v s w' /\ cs_core s = cs_core (vcpu_cpu_state v) /\
      cs_valid s = cs_valid (vcpu_cpu_state v) /\
      cs_dirty s = cs_dirty (vcpu_cpu_state v)) w.
Proof using VM.
  induction l as [|r l IH]; intros w v Hv Hfd Hl; cbn [get_register_array].
  { wsteps. split_and!; [done|done|]. eexists. split; [by apply cached_refl|done]. }
  apply Forall_cons in Hl as [Hr Hl]. wsteps.
  eapply wp_mono; [by apply (get_register_spec w v)|].
  intros e1 w1 (He1 & Hk1 & x & Hc1 & _). destruct (Hr x (vcpu_cpu_state v)) as (H1 & H2 & H3).
  destruct (Z.ltb_spec e1 0); [wsteps; split_and!; [done|done|]; eauto 6|].
  pose proof (cached_lookup _ _ _ _ Hc1) as Hv1.
  eapply wp_mono; [by apply (IH w1 _ Hv1)|]. intros e2 w2 (He2 & Hk2 & s & Hc2 & H4 & H5 & H6).
  split_and!; [done|by etrans|]. exists s.
  split; [exact (cached_trans _ _ _ _ _ _ Hc1 Hc2)|]. cbn in *. split_and!; congruence.
Qed.

(** ** Coherence of the cached core registers *)

Lemma bits_clear x j k : 0 <= j -> 0 <= k ->
  bits (clear_group x (2 ^ j)) (2 ^ k) = bits x (2 ^ k) && negb (j =? k).
Proof using.
  intros Hj Hk. unfold clear_group.
  rewrite !bits_pow2, Z.land_spec, Z.lnot_spec, Z.pow2_bits_eqb by done. done.
Qed.
Lemma bits_lor x y k : 0 <= k -> bits (Z.lor x y) (2 ^ k) = bits x (2 ^ k) || bits y (2 ^ k).
Proof using. intros Hk. by rewrite !bits_pow2, Z.lor_spec. Qed.
Lemma bits_land x y k : 0 <= k -> bits (Z.land x y) (2 ^ k) = bits x (2 ^ k) && bits y (2 ^ k).
Proof using. intros Hk. by rewrite !bits_pow2, Z.land_spec. Qed.

Definition core_bit (x : Z) : bool := bits x VART_RISCV_REG_CORE.
Lemma core_bit_clear x j : 0 <= j -> core_bit (clear_group x (2 ^ j)) = core_bit x && negb (j =? 0).
Proof using. intros Hj. exact (bits_clear x j 0 Hj ltac:(done)). Qed.
Lemma core_bit_lor x y : core_bit (Z.lor x y) = core_bit x || core_bit y.
Proof using. exact (bits_lor x y 0 ltac:(done)). Qed.
Lemma core_bit_land x y : core_bit (Z.land x y) = core_bit x && core_bit y.
Proof using. exact (bits_land x y 0 ltac:(done)). Qed.

(** A cached core group that is valid and not dirty is what the kernel has. *)
Definition coherent (R : Z -> Z) (s : VartRiscvCpuState) : Prop :=
  length (core_gpr (cs_core s)) = 32%nat /\
  (core_bit (cs_valid s) = true -> core_bit (cs_dirty s) = false ->
   cs_core s = kernel_core R).

Lemma kernel_core_ext R R' : (forall i, i ∈ register_ids core_registers -> R' i = R i) ->
  kernel_core R' = kernel_core R.
Proof using.
  intros HR. unfold kernel_core. f_equal.
  - apply HR. apply (bool_decide_unpack _). vm_compute. exact I.
  - f_equal. apply map_ext_in. intros i [Hi1 Hi2]%in_seq. apply HR, gpr_in_core. lia.
  - apply HR. apply (bool_decide_unpack _). vm_compute. exact I.
Qed.

Lemma written_core_kernel w s w' : written w core_registers s 0 w' ->
  length (core_gpr (cs_core s)) = 32%nat -> core_gpr (cs_core s) !!! 0%nat = 0 ->
  kernel_core (regs w') = cs_core s.
Proof using VM.
  intros Hw Hl H0. pose proof (wr_core _ _ _ _ _ Hw eq_refl) as Hr.
  assert (forall r, r ∈ core_registers -> regs w' (reg_id r) = reg_get r s) as Hc.
  { intros r Hin. apply Hr; [done|]. apply list_elem_of_fmap. eauto. }
  assert (forall i, (1 <= i < 32)%nat -> gpr_register i ∈ core_registers) as Hg.
  { intros i Hi. unfold core_registers. apply elem_of_cons. right. apply elem_of_app. left.
    apply list_elem_of_fmap. exists i. split; [done|]. apply elem_of_seq. lia. }
  destruct s as [[pc g mode] csr t va d]. cbn in Hl, H0 |- *. unfold kernel_core. f_equal.
  - apply (Hc pc_register). unfold core_registers. set_solver.
  - apply total_eq; [by rewrite Hl|]. intros [|k] Hk; [by rewrite H0|].
    change (core_gpr (kernel_core (regs w')) !!! S k = g !!! S k).
    rewrite kernel_gpr by lia. apply (Hc (gpr_register (S k))). apply Hg. lia.
  - apply (Hc mode_register). unfold core_registers. apply elem_of_cons. right.
    apply elem_of_app. right. set_solver.
Qed.

(** What an operation keeps: the cached registers stay coherent and no clean group
    becomes dirty. *)
Definition keeps (w : World) (v : VartVcpu) (err : Z) (w' : World) : Prop :=
  err <= 0 /\ exists s, cached w v s w' /\ coherent (regs w') s /\
    (core_bit (cs_dirty s) = true -> core_bit (cs_dirty (vcpu_cpu_state v)) = true).

Lemma keeps_refl w v err : w_vcpus w !! p = Some v -> err <= 0 ->
  coherent (regs w) (vcpu_cpu_state v) -> keeps w v err w.
Proof using. intros Hv He Hc. split; [done|]. eexists. split; [by apply cached_refl|done]. Qed.

(** One group of [get_registers] or [put_registers], when the part for the group keeps the
    state coherent and, if it succeeds, marking it does too. *)
Lemma with_group_keeps w v groups j m mark :
  w_vcpus w !! p = Some v -> coherent (regs w) (vcpu_cpu_state v) ->
  (bits groups (2 ^ j) = true ->
   wp m (fun err w1 => err <= 0 /\ exists s, cached w v s w1 /\
     cs_dirty s = cs_dirty (vcpu_cpu_state v) /\ coherent (regs w1) s /\
     (err = 0 -> coherent (regs w1) (mark s))) w) ->
  (forall s, core_bit (cs_dirty (mark s)) = core_bit (cs_dirty s) && negb (j =? 0)) ->
  wp (with_group p groups (2 ^ j) m mark) (fun err w' => keeps w v err w' /\
    (err = 0 -> j = 0 -> core_bit groups = true ->
     exists s, w_vcpus w' !! p = Some (v <| vcpu_cpu_state := s |>) /\
       core_bit (cs_dirty s) = false)) w.
Proof using VM.
  intros Hv Hc Hm Hmark. unfold with_group. destruct (bits groups (2 ^ j)) eqn:Hb.
  2: { wsteps. split; [by apply keeps_refl|]. intros _ -> E. exfalso.
       change (2 ^ 0) with 1 in Hb. unfold core_bit in E. congruence. }
  wsteps. eapply wp_mono; [by apply Hm|]. intros err w1 (He & s & Hc1 & Hd & Hcoh & Hcm).
  destruct (Z.ltb_spec err 0).
  { wsteps. split; [|lia]. split; [done|]. exists s. split_and!; [done|done|by rewrite Hd]. }
  assert (err = 0) as -> by lia. pose proof (cached_lookup _ _ _ _ Hc1) as Hv1.
  wsteps. eapply wp_mono; [by apply (set_cpu_state_spec w1)|]. intros _ w2 [Hc2 (Hr2 & _)].
  wsteps. pose proof (cached_trans _ _ _ _ _ _ Hc1 Hc2) as Hc02. cbn in Hc02. split.
  - split; [done|]. exists (mark s). split_and!; [done|rewrite Hr2; by apply Hcm|].
    rewrite Hmark, Hd. by intros []%andb_prop.
  - intros _ -> _. exists (mark s). split; [exact (cached_lookup _ _ _ _ Hc02)|].
    rewrite Hmark. apply andb_false_r.
Qed.

(** The core group is clean after a success for the groups [groups]. *)
Definition cleans (groups : Z) (v : VartVcpu) (err : Z) (w' : World) : Prop :=
  err = 0 -> core_bit groups = true -> exists s,
    w_vcpus w' !! p = Some (v <| vcpu_cpu_state := s |>) /\ core_bit (cs_dirty s) = false.

Lemma keeps_trans w v s e1 w1 e2 w2 :
  cached w v s w1 -> (core_bit (cs_dirty s) = true ->
    core_bit (cs_dirty (vcpu_cpu_state v)) = true) ->
  keeps w1 (v <| vcpu_cpu_state := s |>) e2 w2 -> e1 <= 0 -> keeps w v e2 w2.
Proof using.
  intros Hc Hd [He (s2 & Hc2 & Hcoh & Hd2)] _. split; [done|]. exists s2.
  split_and!; [exact (cached_trans _ _ _ _ _ _ Hc Hc2)|done|]. cbn in Hd2. auto.
Qed.

(** A chain of groups stops at the first error. *)
Lemma chain_keeps groups w v (m1 m2 : M World Z) :
  w_vcpus w !! p = Some v -> vcpu_fd v = fd ->
  wp m1 (fun err w' => keeps w v err w' /\ cleans groups v err w') w ->
  (forall w1 s, cached w v s w1 -> coherent (regs w1) s ->
     wp m2 (fun err w' => keeps w1 (v <| vcpu_cpu_state := s |>) err w') w1) ->
  wp (let* err := m1 in if err <? 0 then ret err else m2)
    (fun err w' => keeps w v err w' /\ cleans groups v err w') w.
Proof using VM.
  intros Hv Hfd H1 H2. wsteps. eapply wp_mono; [exact H1|].
  intros e1 w1 [[He1 (s & Hc1 & Hcoh & Hd1)] Hcl]. destruct (Z.ltb_spec e1 0).
  { wsteps. split; [|intros ?; lia]. split; [done|]. eauto. }
  assert (e1 = 0) as -> by lia.
  eapply wp_mono; [by apply (H2 w1 s)|]. intros e2 w2 Hk2. split; [by eapply keeps_trans|].
  intros -> Hg. destruct (Hcl eq_refl Hg) as (s1 & Hv1 & Hs1).
  rewrite (cached_lookup _ _ _ _ Hc1) in Hv1.
  assert (s1 = s) as -> by (apply (f_equal (fmap vcpu_cpu_state)) in Hv1; by injection Hv1).
  destruct Hk2 as [_ (s2 & Hc2 & _ & Hd2)]. exists s2.
  split; [exact (cached_lookup _ _ _ _ (cached_trans _ _ _ _ _ _ Hc1 Hc2))|].
  destruct (core_bit (cs_dirty s2)); [|done]. cbn in Hd2. rewrite Hd2 in Hs1; done.
Qed.

Lemma mark_clean_dirty j s : 0 <= j ->
  core_bit (cs_dirty (mark_clean (2 ^ j) s)) = core_bit (cs_dirty s) && negb (j =? 0).
Proof using. intros Hj. by apply core_bit_clear. Qed.
Lemma mark_valid_dirty j s : 0 <= j ->
  core_bit (cs_dirty (mark_valid (2 ^ j) s)) = core_bit (cs_dirty s) && negb (j =? 0).
Proof using. intros Hj. by apply core_bit_clear. Qed.
Lemma mark_clean_coherent R j s : 0 < j -> coherent R s -> coherent R (mark_clean (2 ^ j) s).
Proof using.
  intros Hj [Hl Hc]. split; [done|]. rewrite mark_clean_dirty by lia.
  replace (j =? 0) with false by lia. rewrite andb_true_r. exact Hc.
Qed.
Lemma mark_valid_coherent R j s : 0 < j -> coherent R s -> coherent R (mark_valid (2 ^ j) s).
Proof using.
  intros Hj [Hl Hc]. split; [done|]. rewrite mark_valid_dirty by lia.
  replace (j =? 0) with false by lia. rewrite andb_true_r. cbn. rewrite core_bit_lor.
  replace (core_bit (2 ^ j)) with false; [by rewrite orb_false_r|].
  unfold core_bit. change 1 with (2 ^ 0). rewrite bits_pow2 by lia.
  symmetry. apply Z.pow2_bits_false. lia.
Qed.

(** The groups besides the core group. *)
Lemma other_group_keeps w v groups j m mark : 0 < j ->
  w_vcpus w !! p = Some v -> coherent (regs w) (vcpu_cpu_state v) ->
  wp m (fun err w1 => err <= 0 /\ exists s, cached w v s w1 /\
     cs_dirty s = cs_dirty (vcpu_cpu_state v) /\ coherent (regs w1) s) w ->
  (forall s, core_bit (cs_dirty (mark s)) = core_bit (cs_dirty s) && negb (j =? 0)) ->
  (forall R s, coherent R s -> coherent R (mark s)) ->
  wp (with_group p groups (2 ^ j) m mark) (keeps w v) w.
Proof using VM.
  intros Hj Hv Hcoh Hm Hd Hmark.
  eapply wp_mono; [apply (with_group_keeps w v groups j m mark Hv Hcoh)|].
  - intros _. eapply wp_mono; [exact Hm|]. intros err w1 (He & s & Hc & Hds & Hs).
    split; [done|]. exists s. auto.
  - done.
  - by intros err w' [Hk _].
Qed.

Lemma get_array_keeps w v groups j l : 0 < j ->
  w_vcpus w !! p = Some v -> vcpu_fd v = fd -> coherent (regs w) (vcpu_cpu_state v) ->
  Forall (fun r => forall x s, cs_core (reg_set r x s) = cs_core s /\
    cs_valid (reg_set r x s) = cs_valid s /\ cs_dirty (reg_set r x s) = cs_dirty s) l ->
  wp (with_group p groups (2 ^ j) (get_register_array p l) (mark_valid (2 ^ j)))
    (keeps w v) w.
Proof using VM.
  intros Hj Hv Hfd Hcoh Hl. apply other_group_keeps; [done|done|done| |
    intros; apply mark_valid_dirty; lia|intros; by apply mark_valid_coherent].
  eapply wp_mono; [by apply (get_array_spec l w v)|].
  intros err w1 (He & (Hr & _) & s & Hc & H1 & H2 & H3). split; [done|]. exists s.
  split_and!; [done|done|]. destruct Hcoh as [Hlen Hco]. unfold coherent.
  by rewrite H1, H2, H3, Hr.
Qed.

Lemma put_array_keeps w v groups j l : 0 < j ->
  w_vcpus w !! p = Some v -> vcpu_fd v = fd -> coherent (regs w) (vcpu_cpu_state v) ->
  (forall i, i ∈ register_ids core_registers -> i ∉ register_ids l) ->
  wp (with_group p groups (2 ^ j) (put_register_array p l) (mark_clean (2 ^ j)))
    (keeps w v) w.
Proof using VM.
  intros Hj Hv Hfd Hcoh Hl. apply other_group_keeps; [done|done|done| |
    intros; apply mark_clean_dirty; lia|intros; by apply mark_clean_coherent].
  eapply wp_mono; [by apply (put_array_core l w v)|].
  intros err w1 (Hh & Hmp & He & Hr). split; [done|]. exists (vcpu_cpu_state v).
  split_and!; [by apply cached_host|done|]. destruct Hcoh as [Hlen Hco]. split; [done|].
  by rewrite (kernel_core_ext (regs w)).
Qed.

Lemma csr_sets_other : Forall (fun r => forall x s, cs_core (reg_set r x s) = cs_core s /\
  cs_valid (reg_set r x s) = cs_valid s /\ cs_dirty (reg_set r x s) = cs_dirty s) csr_registers.
Proof using. by repeat constructor. Qed.
Lemma timer_sets_other : Forall (fun r => forall x s, cs_core (reg_set r x s) = cs_core s /\
  cs_valid (reg_set r x s) = cs_valid s /\ cs_dirty (reg_set r x s) = cs_dirty s)
  timer_registers.
Proof using. by repeat constructor. Qed.
Lemma timer_not_core i : i ∈ register_ids core_registers -> i ∉ register_ids timer_registers.
Proof using.
  revert i. apply Forall_forall. apply (bool_decide_unpack _). vm_compute. exact I.
Qed.

Lemma get_core_keeps w v groups :
  w_vcpus w !! p = Some v -> vcpu_fd v = fd -> coherent (regs w) (vcpu_cpu_state v) ->
  wp (with_group p groups VART_RISCV_REG_CORE (get_core p) (mark_valid VART_RISCV_REG_CORE))
    (fun err w' => keeps w v err w' /\ cleans groups v err w') w.
Proof using VM.
  intros Hv Hfd Hcoh. pose proof Hcoh as [Hlen Hco].
  eapply wp_mono; [apply (with_group_keeps w v groups 0 (get_core p) (mark_valid 1) Hv Hcoh)|].
  - intros _. eapply wp_mono; [by apply (get_core_spec w v)|].
    intros err w1 (He & (Hr & _) & c & Hc & Hl & Hsame & Hok). split; [done|].
    exists (with_core (vcpu_cpu_state v) c). unfold coherent. rewrite Hr. cbn.
    split_and!; [done|done|done|auto|]. intros ->. split; [done|]. intros _ _. by apply Hok.
  - intros s. apply (mark_valid_dirty 0). done.
  - intros err w' [Hk Hcl]. split; [done|]. intros E Hg. by apply Hcl.
Qed.

Lemma put_core_keeps w v groups :
  w_vcpus w !! p = Some v -> vcpu_fd v = fd -> coherent (regs w) (vcpu_cpu_state v) ->
  (core_bit groups = true -> core_bit (cs_dirty (vcpu_cpu_state v)) = true) ->
  wp (with_group p groups VART_RISCV_REG_CORE (put_core_checked p)
        (mark_clean VART_RISCV_REG_CORE))
    (fun err w' => keeps w v err w' /\ cleans groups v err w') w.
Proof using VM.
  intros Hv Hfd Hcoh Hdirty. pose proof Hcoh as [Hlen Hco].
  eapply wp_mono; [apply (with_group_keeps w v groups 0 (put_core_checked p)
    (mark_clean 1) Hv Hcoh)|].
  - intros Hb. specialize (Hdirty Hb). unfold put_core_checked. wsteps.
    destruct (core_writable _) eqn:Hwr; cbn [negb]; wsteps.
    2: { split; [done|]. eexists. split; [by apply cached_refl|]. split_and!; done. }
    apply andb_prop in Hwr as [Hx0 Hmode].
    eapply wp_mono; [apply (put_core_spec w v Hv Hfd)|].
    { unfold mode_legal. apply orb_prop in Hmode as [?|?]; [right|left]; lia. }
    intros err w1 Hw. split; [apply Hw|]. exists (vcpu_cpu_state v).
    split_and!; [by apply cached_host, Hw|done| |].
    + split; [done|]. congruence.
    + intros ->. split; [done|]. intros _ _. symmetry.
      apply (written_core_kernel w _ w1 Hw Hlen). cbn in Hx0. lia.
  - intros s. apply (mark_clean_dirty 0). done.
  - intros err w' [Hk Hcl]. split; [done|]. intros E Hg. by apply Hcl.
Qed.

Lemma put_locked_keeps w v groups :
  w_vcpus w !! p = Some v -> vcpu_fd v = fd -> coherent (regs w) (vcpu_cpu_state v) ->
  wp (put_registers_locked p groups) (fun err w' => keeps w v err w' /\
    cleans groups v err w') w.
Proof using VM.
  intros Hv Hfd Hcoh. unfold put_registers_locked. wsteps.
  destruct (negb _); [wsteps; split; [by apply keeps_refl|done]|].
  set (pending := Z.land groups _).
  assert (core_bit pending = true -> core_bit (cs_dirty (vcpu_cpu_state v)) = true) as Hp.
  { unfold pending. rewrite core_bit_land. by intros []%andb_prop. }
  eapply wp_mono; [apply (chain_keeps pending w v); [done|done|by apply put_core_keeps|]|].
  - intros w1 s Hc1 Hcoh1. pose proof (cached_lookup _ _ _ _ Hc1) as Hv1.
    eapply wp_mono; [apply (chain_keeps 0 w1 (v <| vcpu_cpu_state := s |>));
      [exact Hv1|done| |]|by intros ?? [? _]].
    + eapply wp_mono; [apply (put_array_keeps w1 (v <| vcpu_cpu_state := s |>) pending 1
        csr_registers); try done;
        apply csr_not_core|]. intros err w' Hk. by split.
    + intros w2 s2 Hc2 Hcoh2. pose proof (cached_lookup _ _ _ _ Hc2) as Hv2.
      apply (put_array_keeps w2 (v <| vcpu_cpu_state := s |> <| vcpu_cpu_state := s2 |>)
        pending 2 timer_registers); try done.
      apply timer_not_core.
  - intros err w' [Hk Hcl]. split; [done|]. intros -> Hg.
    destruct (core_bit pending) eqn:Hcp; [by apply Hcl|].
    destruct Hk as [_ (s & Hc & _ & Hd)]. exists s.
    split; [by apply cached_lookup in Hc|].
    unfold pending in Hcp. rewrite core_bit_land, Hg in Hcp. cbn in Hcp.
    destruct (core_bit (cs_dirty s)); [|done]. by rewrite Hd in Hcp.
Qed.

Lemma validate_sync_spec w v groups : w_vcpus w !! p = Some v ->
  wp (validate_sync (Some p) groups) (fun err w' => w' = w /\ err <= 0 /\
    (err = 0 -> vcpu_thread_state v <> VART_VCPU_THREAD_RUNNING)) w.
Proof using.
  intros Hv. unfold validate_sync. destruct (_ || _); wsteps; [split_and!; [done|done|lia]|].
  case_bool_decide; split_and!; done || lia.
Qed.

Lemma get_registers_keeps w v groups :
  w_vcpus w !! p = Some v -> vcpu_fd v = fd -> coherent (regs w) (vcpu_cpu_state v) ->
  wp (vart_riscv_vcpu_get_registers (Some p) groups) (fun err w' => keeps w v err w' /\
    cleans groups v err w') w.
Proof using VM.
  intros Hv Hfd Hcoh. unfold vart_riscv_vcpu_get_registers. wsteps.
  eapply wp_mono; [by apply (validate_sync_spec w v)|]. intros e w0 (-> & He & _).
  destruct (Z.ltb_spec e 0); [wsteps; split; [by apply keeps_refl|intros ?; lia]|].
  apply (chain_keeps groups w v); [done|done|by apply get_core_keeps|].
  intros w1 s Hc1 Hcoh1. pose proof (cached_lookup _ _ _ _ Hc1) as Hv1.
  eapply wp_mono; [apply (chain_keeps 0 w1 (v <| vcpu_cpu_state := s |>));
    [exact Hv1|done| |]|by intros ?? [? _]].
  - eapply wp_mono; [apply (get_array_keeps w1 (v <| vcpu_cpu_state := s |>) groups 1
      csr_registers); try done;
      apply csr_sets_other|]. intros err w' Hk. by split.
  - intros w2 s2 Hc2 Hcoh2. pose proof (cached_lookup _ _ _ _ Hc2) as Hv2.
    apply (get_array_keeps w2 (v <| vcpu_cpu_state := s |> <| vcpu_cpu_state := s2 |>)
        groups 2 timer_registers); try done.
    apply timer_sets_other.
Qed.

Lemma put_registers_keeps w v groups :
  w_vcpus w !! p = Some v -> vcpu_fd v = fd -> coherent (regs w) (vcpu_cpu_state v) ->
  wp (vart_riscv_vcpu_put_registers (Some p) groups) (fun err w' => keeps w v err w' /\
    cleans groups v err w') w.
Proof using VM.
  intros Hv Hfd Hcoh. unfold vart_riscv_vcpu_put_registers. wsteps.
  eapply wp_mono; [by apply (validate_sync_spec w v)|]. intros e w0 (-> & He & _).
  destruct (Z.ltb_spec e 0); [wsteps; split; [by apply keeps_refl|intros ?; lia]|].
  by apply put_locked_keeps.
Qed.

(** ** Entering the boot image *)

(** The register writes of [init_boot], in order: 33 core registers and 11 CSRs. *)
Definition boot_program (hart_id : Z) (boot : VartRiscvBootInfo) : list (Z * Z) :=
  (CORE_PC, boot_entry boot) ::
  map (fun i => (riscv_gpr_id i, if i =? 10 then hart_id
                                 else if i =? 11 then boot_fdt_addr boot else 0)) (seqZ 1 31) ++
  (CORE_MODE, KVM_RISCV_MODE_S) ::
  map (fun i => (RISCV_REG KVM_REG_RISCV_CSR i, 0)) (seqZ 0 11).

Lemma boot_program_writes hart_id boot groups s :
  writes core_registers (boot_state hart_id boot groups s) ++
  writes csr_registers (boot_state hart_id boot groups s) = boot_program hart_id boot.
Proof using. by vm_compute. Qed.

Definition csr_bit (x : Z) : bool := bits x VART_RISCV_REG_CSR.

(** What is left after [put_registers_locked] wrote [k] registers of the program. *)
Definition boot_progress (hart_id : Z) (boot : VartRiscvBootInfo) (w : World) (v : VartVcpu)
    (k : nat) (w' : World) : Prop :=
  log w' = log w ++ take k (boot_program hart_id boot) /\ mp w' = mp w /\
  exists s, cached w v s w' /\ coherent (regs w') s /\
    cs_core s = cs_core (vcpu_cpu_state v) /\ cs_valid s = cs_valid (vcpu_cpu_state v) /\
    core_bit (cs_dirty s) = bool_decide (k < 33)%nat /\
    csr_bit (cs_dirty s) = bool_decide (k < 44)%nat.

Lemma land_lor_absorb a d : Z.land a (Z.lor d a) = a.
Proof using.
  apply Z.bits_inj'. intros n Hn. rewrite Z.land_spec, Z.lor_spec.
  by destruct (Z.testbit a n), (Z.testbit d n).
Qed.
Lemma clear_lor_absorb a d : clear_group a (Z.lor d a) = 0.
Proof using.
  unfold clear_group. apply Z.bits_inj'. intros n Hn.
  rewrite Z.land_spec, Z.lnot_spec, Z.lor_spec, Z.bits_0 by done.
  by destruct (Z.testbit a n), (Z.testbit d n).
Qed.

Lemma written_progress w v w1 l s err : w_vcpus w !! p = Some v ->
  written w l s err w1 ->
  exists k, log w1 = log w ++ take k (writes l s) /\ (k <= length l)%nat /\
    (err = 0 <-> k = length l) /\ err <= 0.
Proof using.
  intros Hv []. destruct (Z.ltb_spec err 0).
  - destruct wr_log0 as (k & Hk & ->). exists k. split_and!; [done|lia|lia|done].
  - exists (length l). unfold writes. rewrite take_ge by (rewrite length_map; lia).
    split_and!; [done|lia|lia|done].
Qed.

(** One group whose registers [l] are written from the cached state. *)
Lemma group_put w v groups g l m :
  w_vcpus w !! p = Some v -> bits groups g = true ->
  wp m (written w l (vcpu_cpu_state v)) w ->
  wp (with_group p groups g m (mark_clean g)) (fun err w' => exists w1 k,
    written w l (vcpu_cpu_state v) err w1 /\ regs w' = regs w1 /\
    log w' = log w ++ take k (writes l (vcpu_cpu_state v)) /\ mp w' = mp w /\
    (k <= length l)%nat /\ (err = 0 <-> k = length l) /\ err <= 0 /\
    cached w v (if err <? 0 then vcpu_cpu_state v else mark_clean g (vcpu_cpu_state v)) w') w.
Proof using VM.
  intros Hv Hg Hm. unfold with_group. rewrite Hg. wsteps. eapply wp_mono; [exact Hm|].
  intros err w1 Hw. destruct (written_progress w v w1 _ _ _ Hv Hw) as (k & Hl & Hk & Hiff & He).
  pose proof (wr_host _ _ _ _ _ Hw) as Hh. pose proof (wr_mp _ _ _ _ _ Hw) as Hmp.
  destruct (Z.ltb_spec err 0).
  - wsteps. exists w1, k. replace (err <? 0) with true by lia.
    split_and!; try done; [apply Hiff..|by apply cached_host].
  - assert (err = 0) as -> by lia.
    assert (w_vcpus w1 !! p = Some v) as Hv1 by (destruct Hh as [f ->]; done).
    wsteps. eapply wp_mono; [by apply (set_cpu_state_spec w1 v)|].
    intros _ w2 [Hc2 (Hr2 & Hlg2 & Hm2)]. wsteps. exists w1, k.
    split_and!; try done; [congruence|congruence|apply Hiff..|].
    eapply cached_trans; [by apply cached_host|]. by destruct v.
Qed.

(** The boot state, in the steps of [put_registers_locked]. *)
Lemma boot_take hart_id boot s0 k : (k <= 33)%nat ->
  take k (writes core_registers (boot_state hart_id boot 3 s0)) =
  take k (boot_program hart_id boot).
Proof using.
  intros Hk. rewrite <- (boot_program_writes hart_id boot 3 s0).
  rewrite take_app_le; [done|]. unfold writes. rewrite length_map. exact Hk.
Qed.
Lemma boot_take_csr hart_id boot s0 k : (k <= 11)%nat ->
  writes core_registers (boot_state hart_id boot 3 s0) ++
  take k (writes csr_registers (boot_state hart_id boot 3 s0)) =
  take (33 + k) (boot_program hart_id boot).
Proof using.
  intros Hk. rewrite <- (boot_program_writes hart_id boot 3 s0).
  rewrite take_app_ge by (unfold writes; rewrite length_map; cbn; lia).
  f_equal. f_equal. unfold writes. rewrite length_map. cbn [length core_registers]. cbn. lia.
Qed.
Lemma boot_dirty hart_id boot s0 :
  let s := boot_state hart_id boot 3 s0 in
  core_bit (cs_dirty s) = true /\ csr_bit (cs_dirty s) = true /\
  core_bit (cs_dirty (mark_clean 1 s)) = false /\
  csr_bit (cs_dirty (mark_clean 1 s)) = true /\
  core_bit (cs_dirty (mark_clean 2 (mark_clean 1 s))) = false /\
  csr_bit (cs_dirty (mark_clean 2 (mark_clean 1 s))) = false.
Proof using.
  set (d := cs_dirty (boot_state hart_id boot 3 s0)).
  assert (bits d (2 ^ 0) = true /\ bits d (2 ^ 1) = true) as [H0 H1].
  { change d with (Z.lor (cs_dirty s0) 3). rewrite !bits_lor by done.
    split; apply orb_true_r. }
  change (let s := boot_state hart_id boot 3 s0 in _) with
    (bits d (2 ^ 0) = true /\ bits d (2 ^ 1) = true /\
     bits (clear_group d (2 ^ 0)) (2 ^ 0) = false /\
     bits (clear_group d (2 ^ 0)) (2 ^ 1) = true /\
     bits (clear_group (clear_group d (2 ^ 0)) (2 ^ 1)) (2 ^ 0) = false /\
     bits (clear_group (clear_group d (2 ^ 0)) (2 ^ 1)) (2 ^ 1) = false).
  rewrite !bits_clear, H0, H1 by done. done.
Qed.

Lemma boot_put_spec w v hart_id boot s0 :
  w_vcpus w !! p = Some v -> vcpu_fd v = fd ->
  vcpu_cpu_state v = boot_state hart_id boot 3 s0 ->
  wp (put_registers_locked p 3) (fun err w' => exists k, boot_progress hart_id boot w v k w' /\
    err <= 0 /\ (k <= 44)%nat /\ (err = 0 <-> k = 44%nat)) w.
Proof using VM.
  intros Hv Hfd Hs. pose proof (boot_dirty hart_id boot s0) as (D1 & D2 & D3 & D4 & D5 & D6).
  set (s := boot_state hart_id boot 3 s0) in *.
  unfold put_registers_locked. wsteps. rewrite Hs.
  change (cs_dirty s) with (Z.lor (cs_dirty s0) 3).
  change (cs_valid s) with (Z.lor (cs_valid s0) 3).
  rewrite land_lor_absorb, clear_lor_absorb. cbn [Z.eqb negb]. wsteps.
  eapply wp_mono; [apply (group_put w v 3 1 core_registers _ Hv eq_refl)|].
  { unfold put_core_checked. wsteps. rewrite Hs at 1.
    change (core_writable (cs_core s)) with true. cbn [negb].
    apply (put_core_spec w v Hv Hfd). rewrite Hs. by right. }
  rewrite Hs. intros e1 w1 (u1 & k1 & Hw1 & Hr1 & Hl1 & Hm1 & Hk1 & Hiff1 & He1 & Hc1).
  change (length core_registers) with 33%nat in *.
  destruct (Z.ltb_spec e1 0).
  { wsteps. exists k1. split_and!; [|done|lia|lia]. unfold boot_progress.
    rewrite <- (boot_take hart_id boot s0) by done. split_and!; [done|done|]. exists s.
    rewrite D1, D2, !bool_decide_true by lia. split; [exact Hc1|].
    split; [split; [reflexivity|]; intros _ E; by rewrite D1 in E|]. by rewrite Hs. }
  assert (e1 = 0) as -> by lia. assert (k1 = 33%nat) as -> by (by apply Hiff1).
  assert (kernel_core (regs w1) = cs_core s) as Hkc
    by (rewrite Hr1; by apply (written_core_kernel w s)).
  pose proof (cached_lookup _ _ _ _ Hc1) as Hv1. wsteps.
  eapply wp_mono; [apply (group_put w1 _ 3 2 csr_registers _ Hv1 eq_refl);
    apply (put_csr_spec w1 _ Hv1 Hfd)|].
  change (vcpu_cpu_state (update vcpu_cpu_state _ v)) with (mark_clean 1 s).
  intros e2 w2 (u2 & k2 & Hw2 & Hr2 & Hl2 & Hm2 & Hk2 & Hiff2 & He2 & Hc2).
  change (length csr_registers) with 11%nat in *.
  change (writes csr_registers (mark_clean 1 s)) with (writes csr_registers s) in *.
  assert (forall i, i ∈ register_ids core_registers -> regs w2 i = regs w1 i) as Hsame.
  { intros i Hi. rewrite Hr2. apply (wr_other _ _ _ _ _ Hw2 i Hi). by apply csr_not_core. }
  assert (log w2 = log w ++ take (33 + k2) (boot_program hart_id boot)) as Hl02.
  { rewrite Hl2, Hl1, <- (boot_take_csr hart_id boot s0) by done. fold s.
    rewrite take_ge by (unfold writes; by rewrite length_map). by rewrite app_assoc. }
  pose proof (cached_trans _ _ _ _ _ _ Hc1 Hc2) as Hc02.
  assert (forall s2, cs_core s2 = cs_core s -> coherent (regs w2) s2) as Hcoh.
  { intros s2 E. split; [by rewrite E|]. intros _ _. by rewrite (kernel_core_ext (regs w1)), Hkc. }
  destruct (Z.ltb_spec e2 0); wsteps; exists (33 + k2)%nat.
  - split_and!; [|done|lia|lia]. split_and!; [done|congruence|]. exists (mark_clean 1 s).
    rewrite D3, D4, bool_decide_false, bool_decide_true by lia. rewrite Hs. by split_and!; [|apply Hcoh|..].
  - assert (e2 = 0) as -> by lia. assert (k2 = 11%nat) as -> by (by apply Hiff2).
    split_and!; [|done|lia|lia]. split_and!; [done|congruence|].
    exists (mark_clean 2 (mark_clean 1 s)).
    rewrite D5, D6, !bool_decide_false by lia. rewrite Hs. by split_and!; [|apply Hcoh|..].
Qed.

(** The vCPU belongs to a VM of a KVM. *)
Definition placed (w : World) (v : VartVcpu) : Prop :=
  exists q vm k kvm, vcpu_vm v = Some q /\ w_vms w !! q = Some vm /\
    vm_kvm vm = Some k /\ w_kvms w !! k = Some kvm.
Lemma placed_cached w v s w' : cached w v s w' -> placed w v ->
  placed w' (v <| vcpu_cpu_state := s |>).
Proof using. intros [f ->]. done. Qed.

Lemma set_mp_state_spec w v x : w_vcpus w !! p = Some v -> vcpu_fd v = fd -> placed w v ->
  vcpu_thread_state v <> VART_VCPU_THREAD_RUNNING ->
  wp (vart_vcpu_set_mp_state_locked (Some p) x) (fun err w' => err <= 0 /\ host_only w w' /\
    regs w' = regs w /\ log w' = log w /\ mp w' = if err <? 0 then mp w else x) w.
Proof using VM.
  intros Hv Hfd (q & vm & k & kvm & Hq & Hvm & Hk & Hkvm) Hrun.
  unfold vart_vcpu_set_mp_state_locked. wsteps. rewrite bool_decide_false by done.
  rewrite andb_false_r. wsteps. cbn [Z.ltb Z.compare].
  unfold vart_vcpu_set_mp_state, vcpu_kvm_of, vcpu_vm_of. wsteps.
  destruct (kvm_mp_state kvm); cbn [negb]; wsteps; [|by split_and!].
  rewrite Hfd. destruct (vm_set_mp w x) as (err & w' & E & Hh & Hr & Hl & Hm).
  apply wp_ok. exists err, w'. split; [exact E|]. wsteps.
  destruct (Z.ltb_spec err 0); [|done].
  replace (err <? 0) with true by lia. split_and!; try done; [lia|].
  by replace (err <? 0) with true by lia.
Qed.

(** The result of [init_boot] for a vCPU that does not run and a valid entry: [n] of the
    44 writes were accepted. *)
Record entered (w : World) (v : VartVcpu) (boot : VartRiscvBootInfo) (n : nat) (err : Z)
    (w' : World) (s : VartRiscvCpuState) : Prop := {
  en_error : err <= 0;
  en_cached : cached w v s w';
  en_coherent : coherent (regs w') s;
  en_writes : (n <= 44)%nat /\ log w' = log w ++ take n (boot_program (vcpu_hart_id v) boot);
  en_core_dirty : core_bit (cs_dirty s) = bool_decide (n < 33)%nat;
  en_csr_dirty : csr_bit (cs_dirty s) = bool_decide (n < 44)%nat;
  en_core : err = 0 -> n = 44%nat /\ kernel_core (regs w') =
    mkCore (boot_entry boot) (<[11%nat := boot_fdt_addr boot]>
      (<[10%nat := vcpu_hart_id v]> (replicate 32 0))) KVM_RISCV_MODE_S;
  en_mp : mp w' = if err <? 0 then mp w
    else if vcpu_hart_id v =? 0 then KVM_MP_STATE_RUNNABLE else KVM_MP_STATE_STOPPED;
}.

Lemma init_boot_spec w v boot : w_vcpus w !! p = Some v -> vcpu_fd v = fd -> placed w v ->
  wp (vart_riscv_vcpu_init_boot (Some p) (Some boot)) (fun err w' =>
    if boot_info_invalid boot then err = -EINVAL /\ w' = w
    else if bool_decide (vcpu_thread_state v = VART_VCPU_THREAD_RUNNING)
    then err = -EBUSY /\ w' = w
    else exists n s, entered w v boot n err w' s) w.
Proof using VM.
  intros Hv Hfd Hpl. unfold vart_riscv_vcpu_init_boot.
  destruct (boot_info_invalid boot); [by wsteps|]. cbv zeta.
  change (Z.lor VART_RISCV_REG_CORE VART_RISCV_REG_CSR) with 3. wsteps.
  unfold validate_sync. change ((3 =? 0) || negb (clear_group 3 VART_RISCV_REG_ALL =? 0))
    with false. cbv iota. wsteps. case_bool_decide as Hrun; [by wsteps|].
  cbn [Z.ltb Z.compare]. wsteps.
  eapply wp_mono; [by apply (set_cpu_state_spec w v)|].
  intros _ w1 [Hc1 (Hr1 & Hl1 & Hm1)]. pose proof (cached_lookup _ _ _ _ Hc1) as Hv1. wsteps.
  set (s0 := boot_state (vcpu_hart_id v) boot 3 (vcpu_cpu_state v)) in *.
  eapply wp_mono; [exact (boot_put_spec w1 _ (vcpu_hart_id v) boot (vcpu_cpu_state v)
    Hv1 Hfd eq_refl)|].
  intros e2 w2 (n & (Hl2 & Hm2 & s & Hc2 & Hcoh & Hcore & Hval & Hd1 & Hd2) & He2 & Hn & Hiff).
  pose proof (cached_trans _ _ _ _ _ _ Hc1 Hc2) as Hc02.
  destruct (Z.ltb_spec e2 0).
  { wsteps. exists n, s. split; try done; [split; [done|congruence]|lia|].
    replace (e2 <? 0) with true by lia. congruence. }
  assert (e2 = 0) as -> by lia. assert (n = 44%nat) as -> by (by apply Hiff).
  pose proof (cached_lookup _ _ _ _ Hc02) as Hv2.
  eapply wp_mono; [apply (set_mp_state_spec w2 _ _ Hv2 Hfd); [|done]|].
  { by apply (placed_cached w v). }
  intros e3 w3 (He3 & Hh3 & Hr3 & Hl3 & Hm3). exists 44%nat, s.
  assert (cached w v s w3) as Hc03.
  { eapply cached_trans; [exact Hc02|]. pose proof (cached_host _ _ _ Hv2 Hh3) as Hx. exact Hx. }
  split; try done; [by rewrite Hr3|split; [done|congruence]| |].
  - intros _. split; [done|]. rewrite Hr3. destruct Hcoh as [_ Hkc].
    rewrite <- Hkc; [by rewrite Hcore| |by rewrite Hd1].
    rewrite Hval. cbn. rewrite core_bit_lor. apply orb_true_r.
  - rewrite Hm3. destruct (e3 <? 0); [congruence|done].
Qed.
End Registers.

(** C37. Entering a boot image returns.  A zero or misaligned entry or device tree address is
    refused with [-EINVAL] and a running vCPU with [-EBUSY], and nothing changes.
    Otherwise the registers are written in a fixed order; on success the kernel has the
    entry in the program counter, the hart in [a0], the device tree in [a1], zero in every
    other integer register and in the CSRs, supervisor mode, and hart 0 alone is runnable;
    on failure the dirty bits say exactly which groups the kernel did not get, and the MP
    state is as before. *)
Theorem boot_entry_state `{VM : VcpuModel} p w v boot :
  w_vcpus w !! p = Some v -> vcpu_fd v = fd -> placed w v ->
  exists err w', vart_riscv_vcpu_init_boot (Some p) (Some boot) w = Ok (err, w') /\
    if boot_info_invalid boot then err = -EINVAL /\ w' = w
    else if bool_decide (vcpu_thread_state v = VART_VCPU_THREAD_RUNNING)
    then err = -EBUSY /\ w' = w
    else exists n s, entered (regs := regs) (log := log) (mp := mp) p w v boot n err w' s.
Proof. intros Hv Hfd Hpl. apply wp_ok. by apply init_boot_spec. Qed.

(** * The cached core registers over a sequence of operations *)

(** The operations on the registers of a vCPU that does not run; [OpEdit] is a client that
    replaces the cached core registers and marks them dirty. *)
Inductive cpu_op :=
| OpGet (groups : Z)
| OpPut (groups : Z)
| OpEdit (core : VartRiscvCoreState)
| OpSetPc (value : Z)
| OpSetMode (mode : Z)
| OpSetGpr (index value : Z)
| OpBoot (boot : VartRiscvBootInfo).

Definition cpu_op_typed (o : cpu_op) : Prop :=
  match o with
  | OpEdit core => length (core_gpr core) = 32%nat
  | OpSetGpr index _ => 0 <= index
  | _ => True
  end.

Definition edit_core (p : ptr) (core : VartRiscvCoreState) : M World Z :=
  let* v := load_vcpu p in
  let (err, s) := vart_riscv_cpu_state_mark_dirty
    (Some ((vcpu_cpu_state v) <| cs_core := core |>)) VART_RISCV_REG_CORE in
  let* s := deref s in
  store_vcpu p (v <| vcpu_cpu_state := s |>) ;;; ret err.

Definition cpu_step `{VcpuHost} (p : ptr) (o : cpu_op) : M World Z :=
  match o with
  | OpGet groups => vart_riscv_vcpu_get_registers (Some p) groups
  | OpPut groups => vart_riscv_vcpu_put_registers (Some p) groups
  | OpEdit core => edit_core p core
  | OpSetPc value => vart_vcpu_set_pc p value
  | OpSetMode mode => vart_vcpu_set_mode p mode
  | OpSetGpr index value => vart_vcpu_set_gpr p index value
  | OpBoot boot => vart_riscv_vcpu_init_boot (Some p) (Some boot)
  end.

Fixpoint cpu_run `{VcpuHost} (p : ptr) (ops : list cpu_op) : M World (list Z) :=
  match ops with
  | [] => ret []
  | o :: ops =>
      let* err := cpu_step p o in
      let* errs := cpu_run p ops in
      ret (err :: errs)
  end.

Section Sequences.
Context `{VM : VcpuModel} (p : ptr).

Lemma set_core_register_spec w v id x :
  w_vcpus w !! p = Some v -> vcpu_fd v = fd -> coherent (regs w) (vcpu_cpu_state v) ->
  (id = CORE_MODE -> mode_legal x) ->
  wp (set_core_register p id x) (fun err w' => err <= 0 /\
    exists s, cached p w v s w' /\ coherent (regs w') s) w.
Proof using VM.
  intros Hv Hfd [Hlen Hco] Hm. unfold set_core_register, vart_vcpu_set_one_reg. wsteps.
  rewrite Hfd. destruct (vm_set w id x Hm) as (err & w1 & E & Hh & Hmp & Hc).
  apply wp_ok. exists err, w1. split; [exact E|].
  assert (w_vcpus w1 !! p = Some v) as Hv1 by (destruct Hh as [f ->]; done).
  wsteps. destruct (Z.ltb_spec err 0).
  - replace (err =? 0) with false by lia. wsteps. split; [lia|]. eexists.
    split; [by apply cached_host|]. destruct Hc as [-> _]. done.
  - change (0 =? 0) with true. cbv iota. unfold vart_vcpu_invalidate_core_state. wsteps.
    split; [done|]. eexists. split.
    + destruct Hh as [f ->]. exists f. reflexivity.
    + split; [done|]. cbn. rewrite (core_bit_clear _ 0) by done.
      by rewrite andb_false_r.
Qed.

(** What an operation leaves: the state is coherent, and a success of a read or write of
    the core group leaves it clean. *)
Definition step_post (w : World) (v : VartVcpu) (o : cpu_op) (err : Z) (w' : World) : Prop :=
  err <= 0 /\ exists s, cached p w v s w' /\ coherent (regs w') s /\
    (err = 0 -> match o with
     | OpGet groups | OpPut groups => core_bit groups = true -> core_bit (cs_dirty s) = false
     | OpBoot _ => core_bit (cs_dirty s) = false
     | _ => True
     end).

Lemma keeps_cleans_post w v o groups err w' : o = OpGet groups \/ o = OpPut groups ->
  keeps (regs := regs) p w v err w' -> cleans p groups v err w' -> step_post w v o err w'.
Proof using.
  intros Ho [He (s & Hc & Hcoh & _)] Hcl. split; [done|]. exists s. split_and!; [done|done|].
  intros E. assert (core_bit groups = true -> core_bit (cs_dirty s) = false).
  { intros Hg. destruct (Hcl E Hg) as (s1 & Hv1 & Hs1).
    rewrite (cached_lookup _ _ _ _ _ Hc) in Hv1.
    apply (f_equal (fmap vcpu_cpu_state)) in Hv1. injection Hv1 as Hv1. cbn in Hv1. congruence. }
  by destruct Ho as [-> | ->].
Qed.

Lemma clear_core_group x : core_bit x = true -> clear_group VART_RISCV_REG_CORE x = 0.
Proof using.
  unfold core_bit, clear_group. change 1 with (2 ^ 0). rewrite bits_pow2 by done.
  intros Hx. apply Z.bits_inj'. intros n Hn.
  rewrite Z.land_spec, Z.lnot_spec, Z.bits_0, Z.pow2_bits_eqb by done.
  destruct (Z.eqb_spec 0 n) as [<-|]; [by rewrite Hx|done].
Qed.

Lemma edit_core_exact w v core : w_vcpus w !! p = Some v -> length (core_gpr core) = 32%nat ->
  wp (edit_core p core) (fun err w' => err <= 0 /\ exists s, cached p w v s w' /\
    coherent (regs w') s /\ cs_core s = core /\
    (err = 0 -> core_bit (cs_dirty s) = true)) w.
Proof using.
  intros Hv Hlen. unfold edit_core. wsteps. unfold vart_riscv_cpu_state_mark_dirty.
  change (cs_valid (update cs_core _ _)) with (cs_valid (vcpu_cpu_state v)).
  destruct (negb (clear_group _ (cs_valid _) =? 0)) eqn:Hinv; cbn; wsteps.
  - split; [done|]. eexists. split; [exists (w_files w); by destruct w|].
    split; [split; [done|]|done]. cbn. intros Hval _.
    by rewrite (clear_core_group _ Hval) in Hinv.
  - split; [done|]. eexists. split; [exists (w_files w); by destruct w|].
    unfold coherent. cbn. rewrite core_bit_lor, orb_true_r. done.
Qed.
Lemma edit_core_spec w v core : w_vcpus w !! p = Some v -> length (core_gpr core) = 32%nat ->
  wp (edit_core p core) (step_post w v (OpEdit core)) w.
Proof using.
  intros Hv Hlen. eapply wp_mono; [by apply (edit_core_exact w v)|].
  intros err w' (He & s & Hc & Hs & _). split; [done|]. by exists s.
Qed.

Lemma cpu_step_spec w v o :
  w_vcpus w !! p = Some v -> vcpu_fd v = fd -> placed w v ->
  coherent (regs w) (vcpu_cpu_state v) -> cpu_op_typed o ->
  wp (cpu_step p o) (step_post w v o) w.
Proof using VM.
  intros Hv Hfd Hpl Hcoh Hty.
  assert (forall o err, err <= 0 -> err <> 0 \/ (match o with OpGet _ | OpPut _ | OpBoot _ =>
    False | _ => True end) -> step_post w v o err w) as Hsame.
  { intros o' err He Ho. split; [done|]. eexists. split_and!; [by apply cached_refl|done|].
    intros ->. destruct Ho as [?|Ho]; [lia|]. by destruct o'. }
  assert (forall id x, (id = CORE_MODE -> mode_legal x) ->
    (match o with OpGet _ | OpPut _ | OpBoot _ => False | _ => True end) ->
    wp (set_core_register p id x) (step_post w v o) w) as Hset.
  { intros id x Hm Ho. eapply wp_mono; [by apply (set_core_register_spec w v)|].
    intros err w' (He & s & Hc & Hs). split; [done|]. exists s. split_and!; [done|done|].
    intros _. by destruct o. }
  destruct o; cbn [cpu_step].
  - eapply wp_mono; [by apply get_registers_keeps|]. intros err w' [Hk Hcl].
    eapply keeps_cleans_post; eauto.
  - eapply wp_mono; [by apply put_registers_keeps|]. intros err w' [Hk Hcl].
    eapply keeps_cleans_post; eauto.
  - by apply edit_core_spec.
  - apply Hset; [|done]. intros E. by vm_compute in E.
  - unfold vart_vcpu_set_mode. destruct (_ && _) eqn:Hm; [wsteps; by apply Hsame; [|left]|].
    apply Hset; [|done]. intros _. unfold mode_legal. lia.
  - cbn in Hty. unfold vart_vcpu_set_gpr.
    destruct (Z.ltb_spec 31 index); [wsteps; by apply Hsame; [|left]|].
    destruct (Z.eqb_spec index 0).
    { wsteps. apply Hsame; [by destruct (value =? 0)|by right]. }
    apply Hset; [|done]. intros E. exfalso.
    assert (Forall (fun i => riscv_gpr_id i <> CORE_MODE) (seqZ 1 31)) as Hall.
    { apply (bool_decide_unpack _). vm_compute. exact I. }
    rewrite Forall_forall in Hall. apply (Hall index); [|done].
    apply elem_of_seqZ. lia.
  - eapply wp_mono; [by apply (init_boot_spec p w v)|]. intros err w' Hb.
    destruct (boot_info_invalid boot); [destruct Hb as [-> ->]; by apply Hsame; [|left]|].
    destruct (bool_decide _); [destruct Hb as [-> ->]; by apply Hsame; [|left]|].
    destruct Hb as (n & s & []). split; [done|]. exists s. split_and!; [done|done|].
    intros E. destruct (en_core0 E) as [-> _]. done.
Qed.

Lemma cpu_run_spec ops : forall w v,
  w_vcpus w !! p = Some v -> vcpu_fd v = fd -> placed w v ->
  coherent (regs w) (vcpu_cpu_state v) -> Forall cpu_op_typed ops ->
  wp (cpu_run p ops) (fun errs w' => length errs = length ops /\
    exists s, cached p w v s w' /\ coherent (regs w') s) w.
Proof using VM.
  induction ops as [|o ops IH]; intros w v Hv Hfd Hpl Hcoh Hty; cbn [cpu_run].
  { wsteps. split; [done|]. eexists. split; [by apply cached_refl|done]. }
  apply Forall_cons in Hty as [Ho Hty]. wsteps.
  eapply wp_mono; [by apply (cpu_step_spec w v)|]. intros e w1 [_ (s & Hc & Hs & _)].
  pose proof (cached_lookup _ _ _ _ _ Hc) as Hv1. wsteps.
  eapply wp_mono; [apply (IH w1 _ Hv1); try done; by eapply placed_cached|].
  intros errs w2 [Hl (s2 & Hc2 & Hs2)]. wsteps. split; [cbn; congruence|]. exists s2.
  split; [exact (cached_trans _ _ _ _ _ _ _ Hc Hc2)|done].
Qed.

(** The core group alone. *)
Lemma put_core_group w v : w_vcpus w !! p = Some v -> vcpu_fd v = fd ->
  length (core_gpr (cs_core (vcpu_cpu_state v))) = 32%nat ->
  core_bit (cs_dirty (vcpu_cpu_state v)) = true ->
  wp (vart_riscv_vcpu_put_registers (Some p) VART_RISCV_REG_CORE) (fun err w' => err = 0 ->
    core_writable (cs_core (vcpu_cpu_state v)) = true /\
    kernel_core (regs w') = cs_core (vcpu_cpu_state v) /\
    exists s, cached p w v s w' /\ cs_core s = cs_core (vcpu_cpu_state v)) w.
Proof using VM.
  intros Hv Hfd Hlen Hd. unfold vart_riscv_vcpu_put_registers. wsteps.
  eapply wp_mono; [by apply (validate_sync_spec p w v)|]. intros e w0 (-> & He & _).
  destruct (Z.ltb_spec e 0); [wsteps; lia|]. unfold put_registers_locked. wsteps.
  destruct (negb _); [wsteps; lia|].
  assert (bits (Z.land 1 (cs_dirty (vcpu_cpu_state v))) 1 = true) as Hb.
  { change (core_bit (Z.land 1 (cs_dirty (vcpu_cpu_state v))) = true).
    rewrite core_bit_land, Hd. done. }
  assert (forall k, 0 < k -> bits (Z.land 1 (cs_dirty (vcpu_cpu_state v))) (2 ^ k) = false) as Hz.
  { intros k Hk. rewrite bits_land, (bits_pow2 1) by lia. change 1 with (2 ^ 0).
    by rewrite Z.pow2_bits_false by lia. }
  destruct (core_writable (cs_core (vcpu_cpu_state v))) eqn:Hwr.
  2: { unfold with_group at 1. rewrite Hb. unfold put_core_checked. wsteps. rewrite Hwr.
       cbn [negb]. wsteps. by cbn. }
  wsteps. eapply wp_mono; [apply (group_put p w v _ 1 core_registers _ Hv Hb)|].
  { unfold put_core_checked. wsteps. rewrite Hwr. cbn [negb].
    apply (put_core_spec p w v Hv Hfd). unfold core_writable, mode_legal in *. lia. }
  intros e1 w1 (u1 & k1 & Hw1 & Hr1 & Hl1 & Hm1 & Hk1 & Hiff1 & He1 & Hc1).
  destruct (Z.ltb_spec e1 0); [wsteps; lia|]. assert (e1 = 0) as -> by lia. wsteps.
  unfold with_group. rewrite (Hz 1 ltac:(done) : bits _ 2 = false). wsteps.
  cbn [Z.ltb Z.compare]. rewrite (Hz 2 ltac:(done) : bits _ 4 = false). wsteps. intros _.
  split; [done|]. split; [|by eexists]. rewrite Hr1.
  apply (written_core_kernel w _ _ Hw1 Hlen). unfold core_writable in Hwr. lia.
Qed.

Lemma get_core_group w v : w_vcpus w !! p = Some v -> vcpu_fd v = fd ->
  length (core_gpr (cs_core (vcpu_cpu_state v))) = 32%nat ->
  wp (vart_riscv_vcpu_get_registers (Some p) VART_RISCV_REG_CORE) (fun err w' => err = 0 ->
    regs w' = regs w /\
    exists s, cached p w v s w' /\ cs_core s = kernel_core (regs w)) w.
Proof using VM.
  intros Hv Hfd Hlen. unfold vart_riscv_vcpu_get_registers. wsteps.
  eapply wp_mono; [by apply (validate_sync_spec p w v)|]. intros e w0 (-> & He & _).
  destruct (Z.ltb_spec e 0); [wsteps; lia|].
  unfold with_group at 1. change (bits 1 VART_RISCV_REG_CORE) with true. cbv iota. wsteps.
  eapply wp_mono; [by apply (get_core_spec p w v)|].
  intros e1 w1 (He1 & (Hr1 & Hl1 & Hm1) & c & Hc1 & Hl & _ & Hok).
  destruct (Z.ltb_spec e1 0).
  { wsteps. replace (e1 <? 0) with true by lia. wsteps. lia. }
  assert (e1 = 0) as -> by lia. pose proof (cached_lookup _ _ _ _ _ Hc1) as Hv1. wsteps.
  eapply wp_mono; [by apply (set_cpu_state_spec p w1)|].
  intros _ w2 [Hc2 (Hr2 & _)]. wsteps. cbn [Z.ltb Z.compare].
  unfold with_group. change (bits 1 VART_RISCV_REG_CSR) with false.
  change (bits 1 VART_RISCV_REG_TIMER) with false. wsteps. cbn [Z.ltb Z.compare]. wsteps.
  intros _. split; [congruence|]. eexists.
  split; [exact (cached_trans _ _ _ _ _ _ _ Hc1 Hc2)|]. cbn. by apply Hok.
Qed.
End Sequences.

(** C38. Over every sequence of reads, writes, edits and boot initialisations of the registers
    of a vCPU that does not run, with any of them failing at any register, the operations
    return and the cached core registers stay coherent: when they are valid and not dirty,
    they are the ones in the kernel. *)
Theorem core_cache_coherent `{VM : VcpuModel} p w v ops :
  w_vcpus w !! p = Some v -> vcpu_fd v = fd -> placed w v ->
  coherent (regs w) (vcpu_cpu_state v) -> Forall cpu_op_typed ops ->
  exists errs w' s, cpu_run p ops w = Ok (errs, w') /\ length errs = length ops /\
    cached p w v s w' /\ coherent (regs w') s.
Proof.
  intros Hv Hfd Hpl Hcoh Hty.
  destruct (proj1 (wp_ok _ _ _) (cpu_run_spec p ops w v Hv Hfd Hpl Hcoh Hty))
    as (errs & w' & E & Hl & s & Hc & Hs). by exists errs, w', s.
Qed.

(** Core registers that a client edits, writes and reads back: if the three calls
    succeed, the kernel and the cache both have the client's registers, whose [x0] is zero
    and whose mode is legal. *)
Theorem core_registers_roundtrip `{VM : VcpuModel} p w v core :
  w_vcpus w !! p = Some v -> vcpu_fd v = fd -> placed w v ->
  length (core_gpr core) = 32%nat ->
  exists e1 e2 e3 w', cpu_run p [OpEdit core; OpPut 1; OpGet 1] w = Ok ([e1; e2; e3], w') /\
    (e1 = 0 -> e2 = 0 -> e3 = 0 ->
     core_writable core = true /\ kernel_core (regs w') = core /\
     exists s, cached p w v s w' /\ cs_core s = core).
Proof.
  intros Hv Hfd Hpl Hlen.
  destruct (proj1 (wp_ok _ _ _) (edit_core_exact (regs := regs) p w v core Hv Hlen))
    as (e1 & w1 & E1 & _ & s1 & Hc1 & Hs1 & Hcore1 & Hd1).
  pose proof (cached_lookup _ _ _ _ _ Hc1) as Hv1.
  destruct (proj1 (wp_ok _ _ _) (put_registers_keeps p w1 _ 1 Hv1 Hfd Hs1))
    as (e2 & w2 & E2 & [_ (s2 & Hc2 & Hs2 & _)] & _).
  pose proof (cached_lookup _ _ _ _ _ Hc2) as Hv2.
  destruct (proj1 (wp_ok _ _ _) (get_registers_keeps p w2 _ 1 Hv2 Hfd Hs2))
    as (e3 & w3 & E3 & _ & _).
  exists e1, e2, e3, w3. split.
  { cbn [cpu_run cpu_step]. rewrite (bind_eq _ _ _ _ _ E1), bind_bind.
    rewrite (bind_eq _ _ _ _ _ E2), !bind_bind. by rewrite (bind_eq _ _ _ _ _ E3). }
  intros -> -> ->.
  assert (length (core_gpr (cs_core s1)) = 32%nat) as Hl1 by (by rewrite Hcore1).
  pose proof (put_core_group p w1 _ Hv1 Hfd Hl1 (Hd1 eq_refl)) as Hput.
  apply wp_ok in Hput as (e & u & E & Hput). rewrite E2 in E. injection E as <- <-.
  destruct (Hput eq_refl) as (Hwr & Hk2 & _). cbn in Hwr, Hk2. rewrite Hcore1 in Hwr, Hk2.
  pose proof (get_core_group p w2 _ Hv2 Hfd (proj1 Hs2)) as Hget.
  apply wp_ok in Hget as (e & u & E & Hget). rewrite E3 in E. injection E as <- <-.
  destruct (Hget eq_refl) as (Hr3 & s3 & Hc3 & Hs3).
  split_and!; [done|by rewrite Hr3|]. exists s3. split; [|congruence].
  exact (cached_trans _ _ _ _ _ _ _ (cached_trans _ _ _ _ _ _ _ Hc1 Hc2) Hc3).
Qed.

(** * Hart 1 on the kernel of [VcpuDemo] *)
Module RiscvCpuDemo.
Import VcpuDemo.

Lemma last_write_snoc l id x i :
  last_write (l ++ [(id, x)]) i = if decide (i = id) then x else last_write l i.
Proof.
  unfold last_write. rewrite filter_app. cbn [filter list_filter]. cbn.
  destruct (decide (id = i)) as [->|Hne].
  - rewrite decide_True by done. by rewrite last_snoc.
  - rewrite decide_False by congruence. by rewrite app_nil_r.
Qed.

#[export] Instance register_model : VcpuModel 8 regs_of writes_of mp_of.
Proof.
  split.
  - intros w w' Hf. unfold regs_of, writes_of, mp_of, KvmDemo.file. by rewrite Hf.
  - intros w id old. exists 0, (regs_of w id), w. split; [reflexivity|].
    split; [apply host_only_refl|done].
  - intros w id x _. eexists 0, _. split; [reflexivity|]. split; [by eexists|]. split.
    + unfold mp_of, KvmDemo.file. cbn. by rewrite lookup_insert_ne.
    + change (0 <? 0) with false. cbv iota.
      assert (writes_of (w <| w_files ::= <[10 := KvmDemo.write_pairs
        (writes_of w ++ [(id, x)])]> |>) = writes_of w ++ [(id, x)]) as Hw.
      { unfold writes_of at 1, KvmDemo.file. cbn. rewrite lookup_insert_eq. cbn.
        apply KvmDemo.read_write_pairs. }
      split; [exact Hw|]. intros i _. unfold regs_of. rewrite Hw. apply last_write_snoc.
  - intros w x. eexists 0, _. split; [reflexivity|]. split; [by eexists|].
    unfold regs_of, writes_of, mp_of, KvmDemo.file. cbn.
    rewrite lookup_insert_eq, lookup_insert_ne by done. done.
Qed.

Definition entry : VartRiscvBootInfo := mkBootInfo 0x80200000 0x82200000.
Lemma hart1_placed : placed v0 vcpu1.
Proof. eexists vm, _, kvm, _. split_and!; reflexivity. Qed.
Lemma hart1_coherent : coherent (regs_of v0) (vcpu_cpu_state vcpu1).
Proof. by split. Qed.

Lemma boot_entry_state_witness :
  exists err w', vart_riscv_vcpu_init_boot (Some hart1) (Some entry) v0 = Ok (err, w') /\
    if boot_info_invalid entry then err = -EINVAL /\ w' = v0
    else if bool_decide (vcpu_thread_state vcpu1 = VART_VCPU_THREAD_RUNNING)
    then err = -EBUSY /\ w' = v0
    else exists n s, entered (regs := regs_of) (log := writes_of) (mp := mp_of)
      hart1 v0 vcpu1 entry n err w' s.
Proof.
  apply (boot_entry_state hart1 v0 vcpu1 entry); [reflexivity|reflexivity|exact hart1_placed].
Defined.

Definition booted : VartRiscvCoreState :=
  mkCore 0x80200000 (<[5%nat := 9]> (replicate 32 0)) KVM_RISCV_MODE_S.

Lemma core_cache_coherent_witness :
  exists errs w' s, cpu_run hart1 [OpBoot entry; OpSetPc 0x80000000; OpGet 7; OpEdit booted;
    OpPut 1] v0 = Ok (errs, w') /\ length errs = 5%nat /\
    cached hart1 v0 vcpu1 s w' /\ coherent (regs_of w') s.
Proof.
  apply (core_cache_coherent hart1 v0 vcpu1 [OpBoot entry; OpSetPc 0x80000000; OpGet 7;
    OpEdit booted; OpPut 1]); [reflexivity|reflexivity|exact hart1_placed|
    exact hart1_coherent|repeat constructor].
Defined.

Lemma core_registers_roundtrip_witness :
  exists e1 e2 e3 w', cpu_run hart1 [OpEdit booted; OpPut 1; OpGet 1] v0 =
      Ok ([e1; e2; e3], w') /\
    (e1 = 0 -> e2 = 0 -> e3 = 0 ->
     core_writable booted = true /\ kernel_core (regs_of w') = booted /\
     exists s, cached hart1 v0 vcpu1 s w' /\ cs_core s = booted).
Proof.
  apply (core_registers_roundtrip hart1 v0 vcpu1 booted);
    [reflexivity|reflexivity|exact hart1_placed|reflexivity].
Defined.

(** An edit needs valid registers, after the boot initialisation it has them. *)
Example edit_needs_valid : exists w1 w2,
  cpu_run hart1 [OpEdit booted; OpPut 1; OpGet 1] v0 = Ok ([-EINVAL; 0; 0], w1) /\
  cpu_run hart1 [OpBoot entry; OpEdit booted; OpPut 1; OpGet 1] v0 = Ok ([0; 0; 0; 0], w2) /\
  regs_of w2 (riscv_gpr_id 5) = 9.
Proof. eexists _, _. split; [|split]; vm_compute; reflexivity. Qed.

(** The boot initialisation makes the cached registers valid although none of them was read.
    When the guest has run since (here the kernel's program counter has moved on), they can
    still be marked dirty, and writing them takes the guest back to its entry. *)
Definition ran (w : World) : World :=
  w <| w_files ::= <[10 := KvmDemo.write_pairs (writes_of w ++ [(CORE_PC, 0x80201234)])]> |>.
Example stale_registers_written : exists w1 w2,
  cpu_run hart1 [OpBoot entry] v0 = Ok ([0], w1) /\
  regs_of (ran w1) CORE_PC = 0x80201234 /\
  (let* v := load_vcpu hart1 in
   let (err, s) := vart_riscv_cpu_state_mark_dirty (Some (vcpu_cpu_state v)) 1 in
   set_cpu_state hart1 (fun old => default old s) ;;; ret err) (ran w1) = Ok (0, w2) /\
  exists w3, vart_riscv_vcpu_put_registers (Some hart1) 1 w2 = Ok (0, w3) /\
    regs_of w3 CORE_PC = 0x80200000.
Proof.
  eexists _, _. split; [vm_compute; reflexivity|]. split; [vm_compute; reflexivity|].
  split; [vm_compute; reflexivity|]. eexists. split; vm_compute; reflexivity.
Qed.
End RiscvCpuDemo.
