(* ===== verification/Sbi.v ===== *)
(** Userspace SBI: [src/arch/riscv/riscv-sbi.c].

    A dispatcher keeps the handlers of extension ranges in a list.  The theorems say that
    the ranges stay sorted and apart, that a range is refused exactly when it overlaps one of
    the list, and that a call reaches the one handler of its extension. *)

From Stdlib Require Import ZArith Lia Sorted.
From stdpp Require Import base tactics numbers list gmap.
From S2P Require Import Prelude Bytes Machine AddressSpace EventLoop KvmIrq Vcpu.

Abbreviation VART_SBI_ERR_NOT_SUPPORTED := (-2) (only parsing).

Record VartRiscvSbiResponse := mkResponse { response_error : Z; response_value : Z }.

(** A handler's callback: its result and the response. *)
Class SbiCallbacks :=
  call_sbi : fnptr -> VartVcpuExit -> VartRiscvSbiResponse -> option ptr ->
             M World (Z * VartRiscvSbiResponse).

Definition vart_riscv_sbi_dispatcher_init (d : ptr) : M World unit :=
  store_sbi_dispatcher d (mkSbiDispatcher None).

Definition vart_riscv_sbi_handler_init (h : ptr) (extension_start extension_end : Z)
    (callback : option fnptr) (opaque : option ptr) : M World unit :=
  store_sbi_handler h (mkSbiHandler extension_start extension_end callback opaque None).

(** A link of the list: [link] is the handler whose [next] is the link, [None] for the head
    in the dispatcher. *)
Definition read_handler_link (d : ptr) (link : option ptr) : M World (option ptr) :=
  match link with
  | None => let* disp := load_sbi_dispatcher d in ret (sbi_handlers disp)
  | Some q => let* v := load_sbi_handler q in ret (sbi_next v)
  end.
Definition write_handler_link (d : ptr) (link target : option ptr) : M World unit :=
  match link with
  | None => store_sbi_dispatcher d (mkSbiDispatcher target)
  | Some q => let* v := load_sbi_handler q in store_sbi_handler q (v <| sbi_next := target |>)
  end.

(** [handler->next = *link; *link = handler;] *)
Definition insert_handler (d h : ptr) (link target : option ptr) : M World Z :=
  let* v := load_sbi_handler h in
  store_sbi_handler h (v <| sbi_next := target |>) ;;;
  write_handler_link d link (Some h) ;;; ret 0.

Fixpoint add_handler_loop (steps : nat) (d h : ptr) (v : VartRiscvSbiHandler)
    (link : option ptr) : M World Z :=
  match steps with
  | O => out_of_fuel
  | S steps =>
      let* target := read_handler_link d link in
      match target with
      | None => insert_handler d h link target
      | Some q =>
          let* x := load_sbi_handler q in
          if sbi_extension_end v <? sbi_extension_start x then insert_handler d h link target
          else if sbi_extension_start v <=? sbi_extension_end x then ret (-EEXIST)
          else add_handler_loop steps d h v (Some q)
      end
  end.

Definition handler_invalid (v : VartRiscvSbiHandler) : bool :=
  bool_decide (sbi_callback v = None) ||
  (sbi_extension_end v <? sbi_extension_start v) || negb (bool_decide (sbi_next v = None)).

Definition vart_riscv_sbi_add_handler (steps : nat) (dispatcher handler : option ptr)
    : M World Z :=
  match dispatcher, handler with
  | Some d, Some h =>
      let* v := load_sbi_handler h in
      if handler_invalid v then ret (-EINVAL) else add_handler_loop steps d h v None
  | _, _ => ret (-EINVAL)
  end.

Section Dispatch.
Context `{VcpuHost} `{SbiCallbacks}.

(** The loop over the handlers: the result of the callback, 0 if none was called, and the
    response. *)
Fixpoint dispatch_handlers (steps : nat) (exit : VartVcpuExit)
    (response : VartRiscvSbiResponse) (handler : option ptr)
    : M World (Z * VartRiscvSbiResponse) :=
  match handler with
  | None => ret (0, response)
  | Some h =>
      match steps with
      | O => out_of_fuel
      | S steps =>
          let* v := load_sbi_handler h in
          let id := sbi_extension_id (exit_sbi_data exit) in
          if id <? sbi_extension_start v then ret (0, response)
          else if id <=? sbi_extension_end v then
            let* callback := deref (sbi_callback v) in
            call_sbi callback exit response (sbi_opaque v)
          else dispatch_handlers steps exit response (sbi_next v)
      end
  end.

Definition vart_riscv_sbi_dispatch (steps : nat) (dispatcher vcpu : option ptr)
    (exit : option VartVcpuExit) : M World Z :=
  match dispatcher, vcpu, exit with
  | Some d, Some _, Some exit =>
      if negb (bool_decide (exit_type exit = VART_VCPU_EXIT_RISCV_SBI)) then ret (-EINVAL)
      else
        let* disp := load_sbi_dispatcher d in
        let* (err, response) := dispatch_handlers steps exit
          (mkResponse VART_SBI_ERR_NOT_SUPPORTED 0) (sbi_handlers disp) in
        if err <? 0 then ret err
        else vart_vcpu_complete_sbi vcpu (response_error response) (response_value response)
  | _, _, _ => ret (-EINVAL)
  end.
End Dispatch.

(** * Sorted ranges *)

(** The range of a handler; one that does not exist has an empty range. *)
Definition range (hs : gmap ptr VartRiscvSbiHandler) (p : ptr) : Z * Z :=
  match hs !! p with
  | Some v => (sbi_extension_start v, sbi_extension_end v)
  | None => (0, -1)
  end.
Definition in_range (hs : gmap ptr VartRiscvSbiHandler) (e : Z) (p : ptr) : Prop :=
  (range hs p).1 <= e <= (range hs p).2.
Definition overlaps (hs : gmap ptr VartRiscvSbiHandler) (p q : ptr) : Prop :=
  (range hs p).1 <= (range hs q).2 /\ (range hs q).1 <= (range hs p).2.
Definition before (hs : gmap ptr VartRiscvSbiHandler) (p q : ptr) : Prop :=
  (range hs p).2 < (range hs q).1.

(** The dispatcher [d] with the handlers [l] in the order of its links. *)
Record sbi_list (d : ptr) (w : World) (l : list ptr) : Prop := {
  sl_links : exists disp, w_sbi_dispatchers w !! d = Some disp /\
    list_from sbi_next (w_sbi_handlers w) (sbi_handlers disp) l;
  sl_sorted : StronglySorted (before (w_sbi_handlers w)) l;
  sl_valid : forall p v, p ∈ l -> w_sbi_handlers w !! p = Some v ->
    sbi_extension_start v <= sbi_extension_end v /\ is_Some (sbi_callback v);
}.

(** Handlers keep everything but their links. *)
Definition same_handlers (hs hs' : gmap ptr VartRiscvSbiHandler) : Prop :=
  forall p v, hs !! p = Some v -> exists n, hs' !! p = Some (v <| sbi_next := n |>).

Lemma same_range hs hs' p : same_handlers hs hs' -> is_Some (hs !! p) -> range hs' p = range hs p.
Proof.
  intros Hs [v Hv]. unfold range. destruct (Hs p v Hv) as [n ->]. by rewrite Hv.
Qed.

Definition handler_target (w : World) (d : ptr) (link : option ptr) : option (option ptr) :=
  match link with
  | None => sbi_handlers <$> w_sbi_dispatchers w !! d
  | Some q => sbi_next <$> w_sbi_handlers w !! q
  end.

(** Only links changed: those of [h], of [l] and of [link]. *)
Record inserted (d h : ptr) (w : World) (link : option ptr) (l : list ptr) (w' : World) : Prop := {
  in_world : exists hs ds, w' = w <| w_sbi_handlers := hs |> <| w_sbi_dispatchers := ds |>;
  in_handlers : same_handlers (w_sbi_handlers w) (w_sbi_handlers w');
  in_other : forall p, p <> h -> p ∉ l -> Some p <> link ->
    w_sbi_handlers w' !! p = w_sbi_handlers w !! p;
  in_head : link <> None -> w_sbi_dispatchers w' = w_sbi_dispatchers w;
  in_heads : forall d', d' <> d -> w_sbi_dispatchers w' !! d' = w_sbi_dispatchers w !! d';
}.

Lemma read_handler_link_spec w d link t : handler_target w d link = Some t ->
  wp (read_handler_link d link) (fun t' w' => t' = t /\ w' = w) w.
Proof.
  unfold handler_target, read_handler_link.
  destruct link; intros (v & Hv & ->)%fmap_Some; wsteps; done.
Qed.

Lemma insert_handler_spec w d h v link target l :
  w_sbi_handlers w !! h = Some v -> handler_target w d link = Some target ->
  link <> Some h -> h ∉ l -> (forall q, link = Some q -> q ∉ l) ->
  list_from sbi_next (w_sbi_handlers w) target l ->
  wp (insert_handler d h link target) (fun err w' => err = 0 /\ inserted d h w link l w' /\
    handler_target w' d link = Some (Some h) /\
    list_from sbi_next (w_sbi_handlers w') (Some h) (h :: l)) w.
Proof.
  intros Hv Ht Hne Hh Hl Hf. unfold insert_handler. wsteps.
  set (hs1 := <[h := v <| sbi_next := target |>]> (w_sbi_handlers w)).
  assert (same_handlers (w_sbi_handlers w) hs1) as Hsame1.
  { intros p u Hu. unfold hs1. destruct (decide (h = p)) as [<-|].
    - rewrite lookup_insert_eq. exists target. by simplify_eq.
    - rewrite lookup_insert_ne by done. exists (sbi_next u). rewrite Hu. by destruct u. }
  assert (list_from sbi_next hs1 target l) as Hf1.
  { eapply list_from_ext; [|exact Hf]. intros p Hp. apply lookup_insert_ne. by intros ->. }
  assert (hs1 !! h = Some (v <| sbi_next := target |>)) as Hh1 by apply lookup_insert_eq.
  destruct link as [q|]; unfold handler_target in Ht; apply fmap_Some in Ht as (u & Hu & ->);
    unfold write_handler_link; wsteps.
  - assert (hs1 !! q = Some u) as Hq by (unfold hs1; rewrite lookup_insert_ne; congruence).
    eapply wp_load_sbi_handler; [exact Hq|]. wsteps. split; [done|].
    split_and!; [split|cbn; by rewrite lookup_insert_eq|split; [done|]]; cbn; try done.
    + exists (<[q := u <| sbi_next := Some h |>]> hs1), (w_sbi_dispatchers w). by destruct w.
    + intros p x Hx. destruct (Hsame1 p x Hx) as [n Hn]. destruct (decide (q = p)) as [<-|].
      * rewrite lookup_insert_eq. exists (Some h). by simplify_eq.
      * rewrite lookup_insert_ne by done. eauto.
    + intros p Hp _ Hpl. rewrite lookup_insert_ne by congruence. by apply lookup_insert_ne.
    + eexists. rewrite lookup_insert_ne by congruence. split; [exact Hh1|].
      eapply list_from_ext; [|exact Hf1]. intros p Hp. apply lookup_insert_ne.
      intros ->. by apply (Hl p).
  - split; [done|]. split_and!; [split|cbn; by rewrite lookup_insert_eq|split; [done|]]; cbn; try done.
    + exists hs1, (<[d := mkSbiDispatcher (Some h)]> (w_sbi_dispatchers w)). by destruct w.
    + intros p Hp _ _. by apply lookup_insert_ne.
    + intros d' Hd. by apply lookup_insert_ne.
    + eexists. split; [exact Hh1|exact Hf1].
Qed.

Lemma inserted_weaken d h w x l w' link :
  inserted d h w (Some x) l w' -> inserted d h w link (x :: l) w'.
Proof.
  intros []. split; try done.
  - intros p Hp Hpl _. apply in_other0; [done|set_solver|]. intros [= ->]. set_solver.
  - intros _. by apply in_head0.
Qed.

Lemma add_handler_loop_spec d h v l : forall steps w link target,
  w_sbi_handlers w !! h = Some v -> sbi_extension_start v <= sbi_extension_end v ->
  handler_target w d link = Some target -> link <> Some h -> h ∉ l -> NoDup l ->
  (forall q, link = Some q -> q ∉ l) -> list_from sbi_next (w_sbi_handlers w) target l ->
  StronglySorted (before (w_sbi_handlers w)) l ->
  Forall (fun p => (range (w_sbi_handlers w) p).1 <= (range (w_sbi_handlers w) p).2) l ->
  (length l < steps)%nat ->
  wp (add_handler_loop steps d h v link) (fun err w' =>
    err = -EEXIST /\ w' = w /\ (exists p, p ∈ l /\ overlaps (w_sbi_handlers w) h p) \/
    err = 0 /\ inserted d h w link l w' /\ exists l1 l2, l = l1 ++ l2 /\
      Forall (fun p => before (w_sbi_handlers w) p h) l1 /\
      Forall (before (w_sbi_handlers w) h) l2 /\
      exists t, handler_target w' d link = Some t /\
        list_from sbi_next (w_sbi_handlers w') t (l1 ++ h :: l2)) w.
Proof.
  induction l as [|x l IH]; intros steps w link target Hv Hse Ht Hne Hh Hnd Hlink Hf Hs Hr Hsteps;
    (destruct steps as [|steps]; [cbn in Hsteps; lia|]); cbn in Hsteps; cbn [add_handler_loop];
    apply wp_bind; (eapply wp_mono; [by apply read_handler_link_spec|]); intros t w0 [-> ->].
  { cbn in Hf. subst target. eapply wp_mono; [by apply (insert_handler_spec w d h v link None [])|].
    intros err w' (-> & Hi & Ht' & Hf'). right. split_and!; [done|done|].
    exists [], []. split_and!; try done. by eexists. }
  destruct Hf as (-> & u & Hu & Hf). wsteps.
  assert (range (w_sbi_handlers w) h = (sbi_extension_start v, sbi_extension_end v)) as Rh
    by (unfold range; by rewrite Hv).
  assert (range (w_sbi_handlers w) x = (sbi_extension_start u, sbi_extension_end u)) as Rx
    by (unfold range; by rewrite Hu).
  inversion Hs as [|?? Hs' Hx]; subst. apply Forall_cons in Hr as [Hrx Hr]. rewrite Rx in Hrx.
  cbn in Hrx. apply NoDup_cons in Hnd as [Hxl Hnd].
  destruct (Z.ltb_spec (sbi_extension_end v) (sbi_extension_start u)) as [Hlt|Hge].
  { eapply wp_mono; [apply (insert_handler_spec w d h v link (Some x) (x :: l)); try done;
      split; [done|by exists u]|].
    intros err w' (-> & Hi & Ht' & Hf'). right. split_and!; [done|done|]. exists [], (x :: l).
    split_and!; [done|constructor| |by eexists]. constructor.
    - unfold before. rewrite Rh, Rx. done.
    - eapply Forall_impl; [exact Hx|]. unfold before. intros y. rewrite Rh, Rx. cbn. lia. }
  destruct (Z.leb_spec (sbi_extension_start v) (sbi_extension_end u)) as [Hle|Hgt].
  { wsteps. left. split_and!; [done|done|]. exists x. split; [set_solver|].
    unfold overlaps. rewrite Rh, Rx. cbn. lia. }
  eapply wp_mono; [apply (IH steps w (Some x) (sbi_next u)); try done; [cbn; by rewrite Hu|..|lia]|].
  { intros [= ->]. set_solver. }
  { set_solver. }
  { by intros q [= <-]. }
  intros err w' [(-> & -> & p & Hp & Ho)|(-> & Hi & l1 & l2 & -> & H1 & H2 & t' & Ht' & Hf')].
  { left. split_and!; [done|done|]. exists p. split; [set_solver|done]. }
  right. split_and!; [done|by apply inserted_weaken|]. exists (x :: l1), l2.
  split_and!; [done| |done|].
  { constructor; [|done]. unfold before. rewrite Rh, Rx. done. }
  exists (Some x). split.
  - destruct link as [q|]; cbn in Ht |- *.
    + rewrite (in_other _ _ _ _ _ _ Hi); [done|congruence| |].
      * specialize (Hlink q eq_refl). set_solver.
      * specialize (Hlink q eq_refl). intros [= ->]. set_solver.
    + by rewrite (in_head _ _ _ _ _ _ Hi).
  - split; [done|]. cbn in Ht'. apply fmap_Some in Ht' as (u' & Hu' & ->). by exists u'.
Qed.

Lemma sorted_ext hs hs' l : (forall p, p ∈ l -> range hs' p = range hs p) ->
  StronglySorted (before hs) l -> StronglySorted (before hs') l.
Proof.
  induction l as [|p l IH]; intros Hr Hs; [constructor|]. inversion Hs as [|?? Hs' Hp]; subst.
  constructor; [apply IH; [set_solver|done]|]. rewrite Forall_forall in *. intros q Hq.
  unfold before in *. rewrite !Hr by set_solver. by apply Hp.
Qed.

Lemma sorted_insert hs h l1 l2 :
  StronglySorted (before hs) (l1 ++ l2) -> (range hs h).1 <= (range hs h).2 ->
  Forall (fun p => before hs p h) l1 -> Forall (before hs h) l2 ->
  StronglySorted (before hs) (l1 ++ h :: l2).
Proof.
  intros Hs Hh H1 H2. induction l1 as [|p l1 IH]; cbn in *; [by constructor|].
  inversion Hs as [|?? Hs' Hp]; subst. apply Forall_cons in H1 as [Hph H1].
  constructor; [by apply IH|]. apply Forall_app in Hp as [Hp1 Hp2].
  apply Forall_app. split; [done|]. constructor; done.
Qed.

Section Sorted.
Context (d : ptr) (w : World) (l : list ptr) (Hl : sbi_list d w l).

Lemma sbi_mapped p : p ∈ l -> is_Some (w_sbi_handlers w !! p).
Proof using Hl.
  intros Hp. destruct (sl_links _ _ _ Hl) as (disp & _ & Hf). by eapply list_from_mapped.
Qed.
Lemma sbi_ranges : Forall (fun p => (range (w_sbi_handlers w) p).1 <=
  (range (w_sbi_handlers w) p).2) l.
Proof using Hl.
  apply Forall_forall. intros p Hp. destruct (sbi_mapped p Hp) as [v Hv]. unfold range.
  rewrite Hv. by destruct (sl_valid _ _ _ Hl p v Hp Hv).
Qed.

(** Two handlers of the list whose ranges meet are the same. *)
Lemma sbi_unique p q e : p ∈ l -> q ∈ l -> in_range (w_sbi_handlers w) e p ->
  in_range (w_sbi_handlers w) e q -> p = q.
Proof using Hl.
  pose proof (sl_sorted _ _ _ Hl) as Hs. clear Hl. unfold in_range.
  induction Hs as [|x m Hs IH Hx]; [set_solver|]. rewrite Forall_forall in Hx.
  unfold before in Hx. intros [->|Hp]%elem_of_cons [->|Hq]%elem_of_cons H1 H2.
  - done.
  - specialize (Hx q Hq). lia.
  - specialize (Hx p Hp). lia.
  - by apply IH.
Qed.

Lemma sbi_nodup : NoDup l.
Proof using Hl.
  pose proof sbi_ranges as Hr. pose proof (sl_sorted _ _ _ Hl) as Hs. clear Hl.
  induction Hs as [|x m Hs IH Hx]; [constructor|]. apply Forall_cons in Hr as [Hrx Hr].
  constructor; [|by apply IH]. intros Hin. rewrite Forall_forall in Hx.
  specialize (Hx x Hin). unfold before in Hx. lia.
Qed.
End Sorted.

(** A handler is added to the dispatcher exactly when it is well formed and its range meets
    no range of the list; the list then has it besides the handlers it had, and its ranges
    stay sorted and apart.  A refused handler changes nothing. *)
Theorem sbi_add_keeps_apart d w l h v steps :
  sbi_list d w l -> w_sbi_handlers w !! h = Some v -> h ∉ l -> (length l < steps)%nat ->
  exists err w', vart_riscv_sbi_add_handler steps (Some d) (Some h) w = Ok (err, w') /\
    if handler_invalid v then err = -EINVAL /\ w' = w
    else err = -EEXIST /\ w' = w /\ (exists p, p ∈ l /\ overlaps (w_sbi_handlers w) h p) \/
      err = 0 /\ (forall p, p ∈ l -> ~ overlaps (w_sbi_handlers w) h p) /\
      exists l', l' ≡ₚ h :: l /\ sbi_list d w' l' /\
        same_handlers (w_sbi_handlers w) (w_sbi_handlers w').
Proof.
  intros Hl Hv Hh Hs. apply wp_ok. unfold vart_riscv_sbi_add_handler. wsteps.
  destruct (handler_invalid v) eqn:Hinv; [by wsteps|].
  unfold handler_invalid in Hinv. apply orb_false_iff in Hinv as [Hinv Hn].
  apply orb_false_iff in Hinv as [Hcb Hse]. apply bool_decide_eq_false in Hcb.
  assert (range (w_sbi_handlers w) h = (sbi_extension_start v, sbi_extension_end v)) as Rh
    by (unfold range; by rewrite Hv).
  destruct (sl_links _ _ _ Hl) as (disp & Hd & Hf).
  eapply wp_mono; [apply (add_handler_loop_spec d h v l steps w None (sbi_handlers disp));
    try done; [lia|cbn; by rewrite Hd|by eapply sbi_nodup|apply Hl|by eapply sbi_ranges]|].
  intros err w' [?|(-> & Hi & l1 & l2 & -> & H1 & H2 & t & Ht & Hf')]; [by left|right].
  rewrite Forall_forall in H1. rewrite Forall_forall in H2.
  pose proof (in_handlers _ _ _ _ _ _ Hi) as Hsame.
  assert (forall p, p ∈ l1 ++ h :: l2 -> is_Some (w_sbi_handlers w !! p)) as Hmap.
  { intros p Hp. destruct (decide (p = h)) as [->|]; [by eexists|].
    apply (sbi_mapped d w (l1 ++ l2) Hl). set_solver. }
  split_and!; [done| |].
  { intros p [Hp|Hp]%elem_of_app; unfold overlaps.
    - specialize (H1 p Hp). unfold before in H1. lia.
    - specialize (H2 p Hp). unfold before in H2. lia. }
  exists (l1 ++ h :: l2). split_and!; [by rewrite Permutation_middle| |done]. split.
  - cbn in Ht. apply fmap_Some in Ht as (disp' & Hd' & ->). by exists disp'.
  - apply (sorted_ext (w_sbi_handlers w)).
    + intros p Hp. by apply same_range; [|apply Hmap].
    + apply sorted_insert; [apply Hl|rewrite Rh; cbn; lia|by apply Forall_forall..].
  - intros p v' Hp Hv'. destruct (Hmap p Hp) as [u Hu]. destruct (Hsame p u Hu) as [n Hn'].
    rewrite Hn' in Hv'. injection Hv' as <-. cbn. destruct (decide (p = h)) as [->|].
    + rewrite Hv in Hu. injection Hu as <-. split; [lia|]. by apply not_eq_None_Some.
    + apply (sl_valid _ _ _ Hl p u); [set_solver|done].
Qed.

(** * Dispatch *)

Section Reach.
Context `{VcpuHost} `{SbiCallbacks} (exit : VartVcpuExit) (response : VartRiscvSbiResponse).

Lemma dispatch_miss w l : forall steps head,
  list_from sbi_next (w_sbi_handlers w) head l -> (length l <= steps)%nat ->
  (forall p, p ∈ l -> ~ in_range (w_sbi_handlers w) (sbi_extension_id (exit_sbi_data exit)) p) ->
  dispatch_handlers steps exit response head w = Ok ((0, response), w).
Proof using.
  induction l as [|x l IH]; intros steps head Hf Hs Hno.
  { cbn in Hf. subst head. by destruct steps. }
  destruct Hf as (-> & u & Hu & Hf). destruct steps as [|steps]; [cbn in Hs; lia|].
  cbn [dispatch_handlers]. cbn in Hs.
  rewrite (bind_eq _ _ w u w) by (unfold load_sbi_handler; run_unfold; by rewrite Hu).
  assert (x ∈ x :: l) as Hx by (apply elem_of_cons; by left).
  specialize (Hno x Hx) as Hnx. unfold in_range, range in Hnx. rewrite Hu in Hnx. cbn in Hnx.
  destruct (Z.ltb_spec (sbi_extension_id (exit_sbi_data exit)) (sbi_extension_start u)); [done|].
  destruct (Z.leb_spec (sbi_extension_id (exit_sbi_data exit)) (sbi_extension_end u)); [lia|].
  apply IH; [done|lia|]. intros p Hp. apply Hno, elem_of_cons. by right.
Qed.

Lemma dispatch_hit w l h v f : forall steps head,
  list_from sbi_next (w_sbi_handlers w) head l -> (length l <= steps)%nat ->
  StronglySorted (before (w_sbi_handlers w)) l ->
  Forall (fun p => (range (w_sbi_handlers w) p).1 <= (range (w_sbi_handlers w) p).2) l ->
  h ∈ l -> w_sbi_handlers w !! h = Some v -> sbi_callback v = Some f ->
  in_range (w_sbi_handlers w) (sbi_extension_id (exit_sbi_data exit)) h ->
  dispatch_handlers steps exit response head w = call_sbi f exit response (sbi_opaque v) w.
Proof using.
  induction l as [|x l IH]; intros steps head Hf Hs Hsort Hr Hin Hv Hcb He.
  { by apply elem_of_nil in Hin. }
  destruct Hf as (-> & u & Hu & Hf). destruct steps as [|steps]; [cbn in Hs; lia|].
  cbn [dispatch_handlers]. cbn in Hs. inversion Hsort as [|?? Hsort' Hx]; subst.
  apply Forall_cons in Hr as [Hrx Hr].
  rewrite (bind_eq _ _ w u w) by (unfold load_sbi_handler; run_unfold; by rewrite Hu).
  destruct (decide (h = x)) as [->|Hne].
  - rewrite Hu in Hv. injection Hv as ->. unfold in_range, range in He. rewrite Hu in He.
    cbn in He. replace (_ <? _) with false by lia. replace (_ <=? _) with true by lia.
    by rewrite (bind_eq _ _ w f w) by (by rewrite Hcb).
  - apply elem_of_cons in Hin as [->|Hin]; [done|]. rewrite Forall_forall in Hx.
    specialize (Hx h Hin). unfold before in Hx. unfold in_range in He.
    unfold range in Hx, Hrx. rewrite Hu in Hx, Hrx. cbn in Hx, Hrx. fold (range (w_sbi_handlers w) h) in Hx.
    replace (_ <? _) with false by lia. replace (_ <=? _) with false by lia.
    apply IH; try done. lia.
Qed.
End Reach.

(** C39. A call reaches the one handler whose range has its extension: that handler's callback
    is called with the response "not supported"; an error of it is returned and the call
    stays open, otherwise the call is completed with its response.  An extension that no
    handler has completes with "not supported" without any callback. *)
Theorem sbi_call_reaches_handler `{VcpuHost} `{SbiCallbacks} d w l p exit steps :
  let e := sbi_extension_id (exit_sbi_data exit) in
  let unsupported := mkResponse VART_SBI_ERR_NOT_SUPPORTED 0 in
  sbi_list d w l -> (length l <= steps)%nat -> exit_type exit = VART_VCPU_EXIT_RISCV_SBI ->
  (forall h v, h ∈ l -> w_sbi_handlers w !! h = Some v -> in_range (w_sbi_handlers w) e h ->
    (forall h', h' ∈ l -> in_range (w_sbi_handlers w) e h' -> h' = h) /\
    exists f, sbi_callback v = Some f /\
    vart_riscv_sbi_dispatch steps (Some d) (Some p) (Some exit) w =
      (let* (err, response) := call_sbi f exit unsupported (sbi_opaque v) in
       if err <? 0 then ret err
       else vart_vcpu_complete_sbi (Some p) (response_error response)
              (response_value response)) w) /\
  ((forall h, h ∈ l -> ~ in_range (w_sbi_handlers w) e h) ->
   vart_riscv_sbi_dispatch steps (Some d) (Some p) (Some exit) w =
     vart_vcpu_complete_sbi (Some p) VART_SBI_ERR_NOT_SUPPORTED 0 w).
Proof.
  intros e unsupported Hl Hs Hty. destruct (sl_links _ _ _ Hl) as (disp & Hd & Hf).
  assert (vart_riscv_sbi_dispatch steps (Some d) (Some p) (Some exit) w =
    (let* (err, response) := dispatch_handlers steps exit unsupported (sbi_handlers disp) in
     if err <? 0 then ret err
     else vart_vcpu_complete_sbi (Some p) (response_error response)
            (response_value response)) w) as Hdis.
  { unfold vart_riscv_sbi_dispatch. rewrite bool_decide_true by done. cbn [negb].
    by rewrite (bind_eq _ _ w disp w)
      by (unfold load_sbi_dispatcher; run_unfold; by rewrite Hd). }
  rewrite Hdis. split.
  - intros h v Hh Hv He. split; [intros h' Hh' He'; by apply (sbi_unique d w l Hl h' h e)|].
    destruct (sl_valid _ _ _ Hl h v Hh Hv) as [_ [f Hcb]]. exists f. split; [done|].
    unfold bind. erewrite (dispatch_hit exit unsupported w l h v f); try done;
      [apply Hl|by eapply sbi_ranges].
  - intros Hno. rewrite (bind_eq _ _ _ _ _ (dispatch_miss exit unsupported w l steps _ Hf Hs Hno)).
    done.
Qed.

(** * Two handlers *)
Module SbiDemo.
Import VcpuDemo.
Definition disp : ptr := 1%positive.
Definition vendor : ptr := 2%positive.
Definition legacy : ptr := 3%positive.
Definition middle : ptr := 4%positive.
Definition vendor_handler (next : option ptr) : VartRiscvSbiHandler :=
  mkSbiHandler 0x9000000 0x9ffffff (Some (fn_external 1)) None next.
Definition legacy_handler (next : option ptr) : VartRiscvSbiHandler :=
  mkSbiHandler 0 8 (Some (fn_external 2)) None next.
Definition calling : VartVcpu := vcpu0 <| vcpu_sbi_pending := true |>.
Definition s0 : World := v0 <| w_vcpus ::= <[hart0 := calling]> |>
  <| w_sbi_dispatchers := {[disp := mkSbiDispatcher (Some legacy)]} |>
  <| w_sbi_handlers := <[legacy := legacy_handler (Some vendor)]>
       (<[vendor := vendor_handler None]>
        {[middle := mkSbiHandler 5 0x1000 (Some (fn_external 3)) None None]}) |>.

#[local] Instance callbacks : SbiCallbacks := fun f exit r o => ret (0, mkResponse 0 77).

Lemma s0_list : sbi_list disp s0 [legacy; vendor].
Proof.
  split.
  - eexists. split; [reflexivity|]. split; [reflexivity|]. exists (legacy_handler (Some vendor)).
    split; [reflexivity|]. split; [reflexivity|]. exists (vendor_handler None).
    split; reflexivity.
  - repeat constructor.
  - intros p v Hp Hv. apply elem_of_cons in Hp as [->|Hp].
    + vm_compute in Hv. injection Hv as <-. split; [cbn; lia|by eexists].
    + apply list_elem_of_singleton in Hp as ->. vm_compute in Hv. injection Hv as <-.
      split; [cbn; lia|by eexists].
Qed.

(** The range from 5 to 0x1000 meets the legacy range. *)
Lemma sbi_add_keeps_apart_witness :
  exists err w', vart_riscv_sbi_add_handler 3 (Some disp) (Some middle) s0 = Ok (err, w') /\
    if handler_invalid (mkSbiHandler 5 0x1000 (Some (fn_external 3)) None None)
    then err = -EINVAL /\ w' = s0
    else err = -EEXIST /\ w' = s0 /\
        (exists p, p ∈ [legacy; vendor] /\ overlaps (w_sbi_handlers s0) middle p) \/
      err = 0 /\ (forall p, p ∈ [legacy; vendor] -> ~ overlaps (w_sbi_handlers s0) middle p) /\
      exists l', l' ≡ₚ [middle; legacy; vendor] /\ sbi_list disp w' l' /\
        same_handlers (w_sbi_handlers s0) (w_sbi_handlers w').
Proof.
  apply (sbi_add_keeps_apart disp s0 [legacy; vendor] middle _ 3 s0_list);
    [reflexivity| |cbn; lia].
  apply (bool_decide_unpack _). vm_compute. exact I.
Defined.

Definition vendor_call : VartVcpuExit :=
  zero_exit <| exit_type := VART_VCPU_EXIT_RISCV_SBI |>
    <| exit_sbi_data := mkExitSbi 0x9000001 0 (replicate 6 0) |>.

Lemma sbi_call_reaches_handler_witness :
  (forall h v, h ∈ [legacy; vendor] -> w_sbi_handlers s0 !! h = Some v ->
    in_range (w_sbi_handlers s0) 0x9000001 h ->
    (forall h', h' ∈ [legacy; vendor] -> in_range (w_sbi_handlers s0) 0x9000001 h' -> h' = h) /\
    exists f, sbi_callback v = Some f /\
    vart_riscv_sbi_dispatch 2 (Some disp) (Some hart0) (Some vendor_call) s0 =
      (let* (err, response) := call_sbi f vendor_call (mkResponse (-2) 0) (sbi_opaque v) in
       if err <? 0 then ret err
       else vart_vcpu_complete_sbi (Some hart0) (response_error response)
              (response_value response)) s0) /\
  ((forall h, h ∈ [legacy; vendor] -> ~ in_range (w_sbi_handlers s0) 0x9000001 h) ->
   vart_riscv_sbi_dispatch 2 (Some disp) (Some hart0) (Some vendor_call) s0 =
     vart_vcpu_complete_sbi (Some hart0) (-2) 0 s0).
Proof.
  apply (sbi_call_reaches_handler disp s0 [legacy; vendor] hart0 vendor_call 2 s0_list);
    [cbn; lia|reflexivity].
Defined.

Example vendor_answers : exists w' v page,
  vart_riscv_sbi_dispatch 2 (Some disp) (Some hart0) (Some vendor_call) s0 = Ok (0, w') /\
  w_vcpus w' !! hart0 = Some v /\ vcpu_run v = Some page /\
  union_load (run_exit page) 64 8 = 0 /\ union_load (run_exit page) 72 8 = 77.
Proof. eexists _, _, _. repeat split; vm_compute; reflexivity. Qed.
End SbiDemo.
