(* ===== verification/VcpuThread.v ===== *)
(** The worker thread of a vCPU and the threads that kick and stop it:
    [vart_vcpu_thread], its signal handler and [vart_vcpu_kick_locked] of
    [src/kvm/vcpu.c].

    The worker runs the guest without the VM's big lock and takes the lock for every exit.
    A thread that wants it to stop, or only to come out of the guest, holds the lock,
    stores a flag and signals the worker; the signal's handler makes the next or the
    current [KVM_RUN] return.  A step relation interleaves the worker's accesses to shared
    state with those of the other threads and with the delivery of the signal. *)

From Stdlib Require Import ZArith Lia.
From stdpp Require Import base tactics numbers list gmap relations.
From S2P Require Import Prelude Bytes Machine AddressSpace EventLoop KvmIrq Vcpu.

(** * The worker *)

(** Where the worker is: [WStart] unblocks the signal, [WFailed] could not; [WHead] and [WExchange] read the two
    flags; [WRun] is in [KVM_RUN]; [WRan] is back with an action and the type of the exit,
    and [WCleared] has cleared [immediate_exit]; [WLock] waits for the lock, [WLocked] has
    it, [WAction] has decided and [WDone] has returned. *)
Inductive worker_pc :=
| WStart
| WFailed (error : Z)
| WHead
| WExchange
| WRun
| WRan (action : Z) (exit : VartVcpuExitType)
| WCleared (action : Z) (exit : VartVcpuExitType)
| WLock (action : Z) (exit : VartVcpuExitType)
| WLocked (action : Z) (exit : VartVcpuExitType)
| WAction (action : Z)
| WDone.

(** Another thread: it holds the lock to stop or kick the worker, has stored the flag, or
    has done its work (or does something else) and unlocks next. *)
Inductive control_pc :=
| CIdle
| CLocked (stop : bool)
| CStored (stop : bool)
| CUnlock.

Inductive actor := Worker | Control.
#[export] Instance actor_eq_dec : EqDecision actor.
Proof. solve_decision. Defined.

(** [s_signal] is the pending signal of the worker and [s_owed] says that a kick was accepted
    and no exit of type [INTERRUPTED] was handled since. *)
Record sys := mkSys {
  s_vcpu : VartVcpu;
  s_worker : worker_pc;
  s_control : control_pc;
  s_lock : option actor;
  s_signal : bool;
  s_owed : bool;
}.
#[export] Instance sys_rebuild : Rebuild sys :=
  env_const mkSys $* s_vcpu $* s_worker $* s_control $* s_lock $* s_signal $* s_owed.

(** [vcpu->run->immediate_exit], which the signal handler sets. *)
Definition immediate (v : VartVcpu) : bool :=
  match vcpu_run v with Some page => negb (run_immediate_exit page =? 0) | None => false end.
Definition set_immediate (x : Z) (v : VartVcpu) : VartVcpu :=
  v <| vcpu_run ::= fmap (fun page => page <| run_immediate_exit := x |>) |>.

Definition vart_vcpu_kick_handler (v : VartVcpu) : VartVcpu := set_immediate 1 v.

(** The first lines of the loop: the flags are read one after the other.  With an action
    other than 0 the exit is not looked at. *)
Definition worker_head (v : VartVcpu) : worker_pc :=
  if vcpu_stop_requested v then WLock 1 VART_VCPU_EXIT_MMIO else WExchange.
Definition worker_exchange (v : VartVcpu) : VartVcpu * worker_pc :=
  if vcpu_kick_requested v
  then (v <| vcpu_kick_requested := false |>, WLock 0 VART_VCPU_EXIT_INTERRUPTED)
  else (v, WRun).

Definition interrupted (action : Z) (exit : VartVcpuExitType) : bool :=
  (action =? 0) && bool_decide (exit = VART_VCPU_EXIT_INTERRUPTED).

(** After [KVM_RUN]: a kick that made it return is not reported again. *)
Definition worker_forget_kick (action : Z) (exit : VartVcpuExitType) (v : VartVcpu) : VartVcpu :=
  if interrupted action exit then v <| vcpu_kick_requested := false |> else v.

(** The end of the worker, with the lock held. *)
Definition worker_finish (action : Z) (v : VartVcpu) : VartVcpu :=
  v <| vcpu_thread_result := if action <? 0 then action else 0 |>
    <| vcpu_thread_state := VART_VCPU_THREAD_STOPPED |>.

(** What another thread, or the exit handler itself, asks for: the flag is stored and the
    signal is sent. *)
Definition store_request (stop : bool) (v : VartVcpu) : VartVcpu :=
  if stop then v <| vcpu_stop_requested := true |> else v <| vcpu_kick_requested := true |>.

(** The steps of [vart_vcpu_thread].  [KVM_RUN] returns when it wants to, with an error or
    an exit of any type; the exit handler returns any action and may itself ask for stops and
    kicks of this worker. *)
Inductive worker_step : sys -> sys -> Prop :=
| step_start s : s_worker s = WStart -> worker_step s (s <| s_worker := WHead |>)
| step_start_failed s e : s_worker s = WStart -> e < 0 ->
    worker_step s (s <| s_worker := WFailed e |>)
| step_failed_lock s e : s_worker s = WFailed e -> s_lock s = None -> e < 0 ->
    worker_step s (s <| s_lock := Some Worker |> <| s_worker := WAction e |>)
| step_head s : s_worker s = WHead ->
    worker_step s (s <| s_worker := worker_head (s_vcpu s) |>)
| step_exchange s : s_worker s = WExchange ->
    worker_step s (s <| s_vcpu := (worker_exchange (s_vcpu s)).1 |>
                     <| s_worker := (worker_exchange (s_vcpu s)).2 |>)
| step_run s action exit : s_worker s = WRun -> action <= 0 ->
    worker_step s (s <| s_worker := WRan action exit |>)
| step_clear s action exit : s_worker s = WRan action exit ->
    worker_step s (s <| s_vcpu ::= set_immediate 0 |> <| s_worker := WCleared action exit |>)
| step_forget s action exit : s_worker s = WCleared action exit ->
    worker_step s (s <| s_vcpu ::= worker_forget_kick action exit |>
                     <| s_worker := WLock action exit |>)
| step_lock s action exit : s_worker s = WLock action exit -> s_lock s = None ->
    worker_step s (s <| s_lock := Some Worker |> <| s_worker := WLocked action exit |>)
| step_stop s action exit : s_worker s = WLocked action exit ->
    vcpu_stop_requested (s_vcpu s) = true ->
    worker_step s (s <| s_worker := WAction 1 |>)
| step_failed s action exit : s_worker s = WLocked action exit ->
    vcpu_stop_requested (s_vcpu s) = false -> action <> 0 ->
    worker_step s (s <| s_worker := WAction action |>)
| step_handle s exit result (requests : list bool) : s_worker s = WLocked 0 exit ->
    vcpu_stop_requested (s_vcpu s) = false ->
    worker_step s (s <| s_vcpu := foldr store_request (s_vcpu s) requests |>
      <| s_signal ::= orb (negb (bool_decide (requests = []))) |>
      <| s_owed := (s_owed s && negb (interrupted 0 exit)) || existsb negb requests |>
      <| s_worker := WAction result |>)
| step_finish s action : s_worker s = WAction action -> action <> 0 ->
    worker_step s (s <| s_vcpu ::= worker_finish action |> <| s_lock := None |>
                     <| s_worker := WDone |>)
| step_again s : s_worker s = WAction 0 ->
    worker_step s (s <| s_lock := None |> <| s_worker := WHead |>).

(** * The other threads *)

Inductive control_step : sys -> sys -> Prop :=
| step_acquire s stop : s_control s = CIdle -> s_lock s = None ->
    control_step s (s <| s_lock := Some Control |> <| s_control := CLocked stop |>)
| step_acquire_other s : s_control s = CIdle -> s_lock s = None ->
    control_step s (s <| s_lock := Some Control |> <| s_control := CUnlock |>)
| step_refused s stop : s_control s = CLocked stop ->
    vcpu_thread_state (s_vcpu s) <> VART_VCPU_THREAD_RUNNING ->
    control_step s (s <| s_control := CUnlock |>)
| step_store s stop : s_control s = CLocked stop ->
    vcpu_thread_state (s_vcpu s) = VART_VCPU_THREAD_RUNNING ->
    control_step s (s <| s_vcpu ::= store_request stop |> <| s_owed ::= orb (negb stop) |>
                      <| s_control := CStored stop |>)
| step_kill s stop : s_control s = CStored stop ->
    control_step s (s <| s_signal := true |> <| s_control := CUnlock |>)
| step_release s : s_control s = CUnlock ->
    control_step s (s <| s_lock := None |> <| s_control := CIdle |>).

(** The signal is delivered once the worker has unblocked it. *)
Inductive signal_step : sys -> sys -> Prop :=
| step_deliver s : s_signal s = true -> s_worker s <> WStart ->
    signal_step s (s <| s_signal := false |> <| s_vcpu ::= vart_vcpu_kick_handler |>).

Inductive step : bool -> sys -> sys -> Prop :=
| by_worker s s' : worker_step s s' -> step true s s'
| by_control s s' : control_step s s' -> step false s s'
| by_signal s s' : signal_step s s' -> step false s s'.

(** Executions with the number of the worker's steps. *)
Inductive execution : nat -> sys -> sys -> Prop :=
| exec_nil s : execution 0 s s
| exec_worker n s s1 s2 : step true s s1 -> execution n s1 s2 -> execution (S n) s s2
| exec_other n s s1 s2 : step false s s1 -> execution n s1 s2 -> execution n s s2.

(** The worker as [vart_vcpu_start] leaves it: the starting thread holds the lock. *)
Definition started (s : sys) : Prop :=
  s_worker s = WStart /\ s_control s = CUnlock /\ s_lock s = Some Control /\
  s_signal s = false /\ s_owed s = false /\ is_Some (vcpu_run (s_vcpu s)) /\
  vcpu_thread_state (s_vcpu s) = VART_VCPU_THREAD_RUNNING /\
  vcpu_stop_requested (s_vcpu s) = false /\ vcpu_kick_requested (s_vcpu s) = false.

(** * The invariant *)

Definition stop_requested (s : sys) : bool := vcpu_stop_requested (s_vcpu s).
Definition kick_requested (s : sys) : bool := vcpu_kick_requested (s_vcpu s).

(** [KVM_RUN] returns without the guest's help: [immediate_exit] is set, or a signal is on
    its way. *)
Definition will_return (s : sys) : Prop := immediate (s_vcpu s) = true \/ s_signal s = true.

Definition holds_lock (p : worker_pc) : bool :=
  match p with WLocked _ _ | WAction _ => true | _ => false end.

(** Where the report of an accepted kick comes from. *)
Definition owed_ok (s : sys) : Prop :=
  match s_worker s with
  | WStart | WHead | WExchange | WRan _ _ | WCleared _ _ => kick_requested s = true
  | WRun => kick_requested s = true /\ (s_control s = CStored false \/ will_return s)
  | WLock a e | WLocked a e => kick_requested s = true \/ interrupted a e = true \/ a <> 0
  | WAction a => kick_requested s = true \/ a <> 0
  | WFailed _ | WDone => True
  end.

Record inv (s : sys) : Prop := {
  inv_worker : s_lock s = Some Worker <-> holds_lock (s_worker s) = true;
  inv_control : s_lock s = Some Control <-> s_control s <> CIdle;
  inv_state : vcpu_thread_state (s_vcpu s) =
    match s_worker s with WDone => VART_VCPU_THREAD_STOPPED | _ => VART_VCPU_THREAD_RUNNING end;
  inv_page : is_Some (vcpu_run (s_vcpu s));
  inv_stop : stop_requested s = true -> s_worker s = WExchange \/ s_worker s = WRun ->
    s_control s = CStored true \/ will_return s;
  inv_owed : s_owed s = true -> owed_ok s;
  inv_failed : forall e, s_worker s = WFailed e -> e < 0;
}.

Lemma immediate_set v : is_Some (vcpu_run v) -> immediate (vart_vcpu_kick_handler v) = true.
Proof. intros [page E]. unfold immediate, vart_vcpu_kick_handler. cbn. by rewrite E. Qed.

Lemma started_inv s : started s -> inv s.
Proof.
  intros (Hw & Hc & Hl & Hs & Ho & Hp & Ht & Hst & Hk). split; rewrite ?Hw, ?Hc, ?Hl; try done.
  - unfold stop_requested. congruence.
  - congruence.
Qed.

(** The requests of the exit handler. *)
Lemma store_requests v l :
  vcpu_thread_state (foldr store_request v l) = vcpu_thread_state v /\
  vcpu_run (foldr store_request v l) = vcpu_run v /\
  vcpu_kick_requested (foldr store_request v l) = existsb negb l || vcpu_kick_requested v.
Proof.
  induction l as [|[] l (H1 & H2 & H3)]; [done|..]; cbn; by rewrite ?H1, ?H2, ?H3.
Qed.

Ltac unpack_sys :=
  repeat match goal with s : sys |- _ => destruct s as [? ? ? ? ? ?] end;
  unfold owed_ok, stop_requested, kick_requested, will_return in *; cbn in *; subst.

Ltac solve_inv :=
  split; unfold owed_ok, stop_requested, kick_requested, will_return; cbn;
  first [done|tauto|intuition congruence|intuition lia|idtac].

Lemma worker_step_inv s s' : inv s -> worker_step s s' -> inv s'.
Proof.
  intros [Iw Ic Is Ip It Io If] Hstep. destruct Hstep; unpack_sys.
  - solve_inv.
  - solve_inv.
  - solve_inv.
  - unfold worker_head. destruct (vcpu_stop_requested s_vcpu0) eqn:E; solve_inv.
  - unfold worker_exchange. destruct (vcpu_kick_requested s_vcpu0) eqn:E; solve_inv.
  - solve_inv.
  - solve_inv. by rewrite fmap_is_Some.
  - unfold worker_forget_kick. destruct (interrupted action exit) eqn:E; solve_inv.
  - solve_inv.
  - solve_inv.
  - solve_inv.
  - destruct (store_requests s_vcpu0 requests) as (H1 & H2 & H3).
    solve_inv; rewrite ?H1, ?H2, ?H3; try done. cbn in Io.
    intros [Ho|Hr]%orb_prop; [|rewrite Hr; by left]. apply andb_prop in Ho as [-> Hi].
    destruct (Io eq_refl) as [->|[Hint|?]]; [rewrite orb_true_r; by left| |done].
    by rewrite Hint in Hi.
  - solve_inv.
  - solve_inv.
Qed.

Lemma control_step_inv s s' : inv s -> control_step s s' -> inv s'.
Proof.
  intros [Iw Ic Is Ip It Io If] Hstep. destruct Hstep; unpack_sys.
  all: try (solve_inv; fail).
  all: try (destruct stop); destruct s_worker0; solve_inv.
Qed.

Lemma signal_step_inv s s' : inv s -> signal_step s s' -> inv s'.
Proof.
  intros [Iw Ic Is Ip It Io If] Hstep. destruct Hstep. unpack_sys.
  pose proof (immediate_set _ Ip) as Hi.
  split; unfold owed_ok, stop_requested, kick_requested, will_return; cbn; try done.
  - by rewrite fmap_is_Some.
  - intros Hs Hw. right. by left.
  - intros Ho. specialize (Io Ho). destruct s_worker0; tauto.
Qed.

Lemma step_inv b s s' : inv s -> step b s s' -> inv s'.
Proof.
  intros Hi Hstep. revert Hi. destruct Hstep as [? ? Hs|? ? Hs|? ? Hs]; intros Hi.
  - exact (worker_step_inv _ _ Hi Hs).
  - exact (control_step_inv _ _ Hi Hs).
  - exact (signal_step_inv _ _ Hi Hs).
Qed.

Lemma execution_inv n s s' : inv s -> execution n s s' -> inv s'.
Proof. intros Hi He. induction He; eauto using step_inv. Qed.

(** * Stopping *)

(** A stop was requested and signalled. *)
Definition stopping_now (s : sys) : Prop :=
  stop_requested s = true /\ s_control s <> CStored true.

(** How many steps the worker takes at most until it has returned. *)
Definition stop_measure (s : sys) : nat :=
  match s_worker s with
  | WDone => 0
  | WAction a => if (a =? 0)%Z then 5 else 1
  | WLocked _ _ => 2
  | WLock _ _ => 3
  | WFailed _ => 2
  | WHead => 4
  | WCleared _ _ => 4
  | WStart => 5
  | WRan _ _ => 5
  | WRun => 6
  | WExchange => 7
  end%nat.

Lemma stop_sticky b s s' : step b s s' -> stop_requested s = true -> stop_requested s' = true.
Proof.
  intros [? ? Hs|? ? Hs|? ? Hs] Hst; destruct Hs; unpack_sys; try done.
  - unfold worker_exchange. by destruct (vcpu_kick_requested _).
  - unfold worker_forget_kick. by destruct (interrupted _ _).
  - congruence.
  - by destruct stop.
Qed.

Lemma stop_measure_worker s s' : stop_requested s = true -> worker_step s s' ->
  (stop_measure s' < stop_measure s)%nat.
Proof.
  intros Hst Hs. revert Hst.
  destruct Hs; intros Hst; unpack_sys; unfold stop_measure; cbn; try lia.
  - replace (e =? 0) with false by lia. lia.
  - unfold worker_head. rewrite Hst. lia.
  - unfold worker_exchange. destruct (vcpu_kick_requested _); cbn; lia.
  - congruence.
  - congruence.
  - replace (action =? 0) with false by lia. lia.
Qed.

Lemma stop_measure_other s s' : step false s s' -> stop_measure s' = stop_measure s.
Proof. intros Hs. inversion Hs as [|? ? H|? ? H]; subst; by destruct H. Qed.

Lemma stop_execution n s s' : execution n s s' -> stop_requested s = true ->
  (stop_measure s' + n <= stop_measure s)%nat /\ stop_requested s' = true.
Proof.
  induction 1 as [s|n s s1 s2 Hs _ IH|n s s1 s2 Hs _ IH]; intros Hst; [split; [lia|done]|..].
  - destruct (IH (stop_sticky _ _ _ Hs Hst)) as [Hm Hst2]. split; [|done].
    inversion Hs as [? ? Hw| |]; subst. pose proof (stop_measure_worker s s1 Hst Hw). lia.
  - destruct (IH (stop_sticky _ _ _ Hs Hst)) as [Hm Hst2]. split; [|done].
    rewrite <- (stop_measure_other s s1 Hs). lia.
Qed.

(** The exit handler is about to be called. *)
Definition handles_exit (s : sys) (exit : VartVcpuExitType) : Prop :=
  s_worker s = WLocked 0 exit /\ stop_requested s = false.

(** A worker that has not returned can take a step, or waits for the lock while another
    thread holds it and can go on. *)
Lemma worker_progress s : inv s -> s_worker s <> WDone ->
  (exists s', worker_step s s') \/ s_lock s = Some Control /\ exists s', control_step s s'.
Proof.
  intros Hi Hd.
  assert (s_lock s = Some Control -> exists s', control_step s s') as Hc.
  { intros Hl. apply (inv_control _ Hi) in Hl. destruct (s_control s) as [|st|st|] eqn:E; [done|..].
    - destruct (decide (vcpu_thread_state (s_vcpu s) = VART_VCPU_THREAD_RUNNING));
        eexists; [by eapply step_store|by eapply step_refused].
    - eexists. by eapply step_kill.
    - eexists. by apply step_release. }
  assert (holds_lock (s_worker s) = false -> s_lock s <> None -> s_lock s = Some Control) as Hl.
  { intros Hh Hn. destruct (s_lock s) as [[]|] eqn:E; [|done..].
    pose proof (proj1 (inv_worker _ Hi) E). congruence. }
  destruct (s_worker s) as [|e| | | |a e|a e|a e|a e|a|] eqn:Hw; try done.
  - left. eexists. by apply step_start.
  - destruct (decide (s_lock s = None)) as [Hn|Hn]; [left|right; auto].
    eexists. eapply step_failed_lock; [done|done|]. by apply (inv_failed _ Hi).
  - left. eexists. by apply step_head.
  - left. eexists. by apply step_exchange.
  - left. eexists. by apply (step_run s 0 VART_VCPU_EXIT_INTERRUPTED).
  - left. eexists. by eapply step_clear.
  - left. eexists. by eapply step_forget.
  - destruct (decide (s_lock s = None)) as [Hn|Hn]; [left|right; auto].
    eexists. by eapply step_lock.
  - left. destruct (vcpu_stop_requested (s_vcpu s)) eqn:Hst; [eexists; by eapply step_stop|].
    destruct (decide (a = 0)) as [->|]; [|eexists; by eapply step_failed].
    eexists. by apply (step_handle s e 0 []).
  - left. destruct (decide (a = 0)) as [->|]; eexists; [by apply step_again|by eapply step_finish].
Qed.

(** C35. From a worker's start on, in every interleaving: once a stop of the running worker was
    requested and signalled, the worker returns after at most seven more of its own steps,
    its state is then STOPPED, and on the way it never depends on the guest: it is not in
    [KVM_RUN] without [immediate_exit] or a signal, and when it cannot take a step it waits
    for the big lock, whose holder can go on.  No exit is handled any more. *)
Theorem stop_ends_worker s0 n0 s n s' :
  started s0 -> execution n0 s0 s -> stopping_now s -> execution n s s' ->
  (stop_measure s' + n <= 7)%nat /\
  (stop_measure s' = 0%nat -> vcpu_thread_state (s_vcpu s') = VART_VCPU_THREAD_STOPPED) /\
  (s_worker s' <> WDone ->
    (exists s2, worker_step s' s2) \/ s_lock s' = Some Control /\ exists s2, control_step s' s2) /\
  (s_worker s' = WRun -> s_control s' <> CStored true -> will_return s') /\
  forall exit, ~ handles_exit s' exit.
Proof.
  intros H0 E0 [Hst Hns] E. pose proof (execution_inv _ _ _ (started_inv _ H0) E0) as Hi.
  pose proof (execution_inv _ _ _ Hi E) as Hi'.
  destruct (stop_execution _ _ _ E Hst) as [Hm Hst']. split_and!.
  - assert (stop_measure s <= 7)%nat; [|lia]. unfold stop_measure.
    destruct (s_worker s); try lia. destruct (_ =? 0); lia.
  - intros Hz. rewrite (inv_state _ Hi'). unfold stop_measure in Hz.
    destruct (s_worker s'); try done. by destruct (_ =? 0).
  - intros Hd. by apply worker_progress.
  - intros Hw Hc. destruct (inv_stop _ Hi' Hst' (or_intror Hw)); done.
  - intros exit [_ ?]. congruence.
Qed.

(** * Kicks *)

(** Executions in which no exit of type INTERRUPTED is handled. *)
Inductive unreported : nat -> sys -> sys -> Prop :=
| unrep_nil s : unreported 0 s s
| unrep_worker n s s1 s2 : worker_step s s1 ->
    ~ handles_exit s VART_VCPU_EXIT_INTERRUPTED -> unreported n s1 s2 -> unreported (S n) s s2
| unrep_other n s s1 s2 : step false s s1 -> unreported n s1 s2 -> unreported n s s2.

Lemma unreported_execution n s s' : unreported n s s' -> execution n s s'.
Proof.
  induction 1; [constructor|eapply exec_worker; [by constructor|done]|by eapply exec_other].
Qed.

(** The worker is about to report a kick, or to return. *)
Definition near_end (action : Z) (exit : VartVcpuExitType) : bool :=
  negb (action =? 0) || interrupted action exit.

(** How many steps the worker takes at most until it has reported a kick or returned. *)
Definition kick_measure (s : sys) : nat :=
  match s_worker s with
  | WDone => 0
  | WAction a => if (a =? 0)%Z then 6 else 1
  | WFailed _ => 2
  | WLocked a e => if near_end a e then 2 else 7
  | WLock a e => if near_end a e then 3 else 8
  | WExchange => 4
  | WHead => 5
  | WStart => 6
  | WCleared a e => if near_end a e then 4 else 9
  | WRan a e => if near_end a e then 5 else 10
  | WRun => 11
  end%nat.

Lemma kick_measure_worker s s' : inv s -> s_owed s = true -> worker_step s s' ->
  ~ handles_exit s VART_VCPU_EXIT_INTERRUPTED ->
  (kick_measure s' < kick_measure s)%nat /\ s_owed s' = true.
Proof.
  intros Hi Ho Hs. pose proof (inv_owed _ Hi Ho) as Hk. clear Hi. revert Ho Hk.
  destruct Hs; intros Ho Hk Hn; unfold handles_exit in Hn; unpack_sys; unfold kick_measure; cbn;
    (split; [|try done]); try (destruct (near_end _ _); lia); try lia.
  - replace (e =? 0) with false by lia. lia.
  - unfold worker_head. destruct (vcpu_stop_requested _); cbn; lia.
  - unfold worker_exchange. rewrite Hk. vm_compute. lia.
  - replace (action =? 0) with false by lia. destruct (near_end _ _); lia.
  - case_bool_decide as E; [subst exit; by destruct Hn|]. destruct (_ =? 0); lia.
  - case_bool_decide as E; [subst exit; by destruct Hn|done].
  - replace (action =? 0) with false by lia. lia.
Qed.

Lemma other_keeps_owed s s' : step false s s' -> s_owed s = true ->
  s_owed s' = true /\ kick_measure s' = kick_measure s.
Proof.
  intros Hs Ho. inversion Hs as [|? ? H|? ? H]; subst; destruct H; cbn in *; try done.
  rewrite Ho. by rewrite orb_true_r.
Qed.

Lemma unreported_bound n s s' : unreported n s s' -> inv s -> s_owed s = true ->
  (kick_measure s' + n <= kick_measure s)%nat /\ s_owed s' = true.
Proof.
  induction 1 as [s|n s s1 s2 Hs Hn _ IH|n s s1 s2 Hs _ IH]; intros Hi Ho; [split; [lia|done]|..].
  - destruct (kick_measure_worker _ _ Hi Ho Hs Hn) as [Hm Ho1].
    destruct (IH (worker_step_inv _ _ Hi Hs) Ho1) as [Hm2 Ho2]. split; [lia|done].
  - destruct (other_keeps_owed _ _ Hs Ho) as [Ho1 Hm].
    destruct (IH (step_inv _ _ _ Hi Hs) Ho1) as [Hm2 Ho2]. split; [lia|done].
Qed.

(** C36. A kick of a running worker is not lost, whenever the signal arrives: in every
    interleaving, at most eleven steps of the worker pass until it has handled an exit of type
    INTERRUPTED or returned, and until then it is never in [KVM_RUN] without
    [immediate_exit] or a signal, except while the kicking thread is between storing the
    flag and sending the signal. *)
Theorem kick_is_reported s0 n0 s n s' :
  started s0 -> execution n0 s0 s -> s_owed s = true -> unreported n s s' ->
  (kick_measure s' + n <= 11)%nat /\
  (kick_measure s' = 0%nat -> s_worker s' = WDone) /\
  (s_worker s' = WRun -> s_control s' <> CStored false -> will_return s') /\
  (s_worker s' <> WDone ->
    (exists s2, worker_step s' s2) \/ s_lock s' = Some Control /\ exists s2, control_step s' s2).
Proof.
  intros H0 E0 Ho E. pose proof (execution_inv _ _ _ (started_inv _ H0) E0) as Hi.
  pose proof (execution_inv _ _ _ Hi (unreported_execution _ _ _ E)) as Hi'.
  destruct (unreported_bound _ _ _ E Hi Ho) as [Hm Ho']. split_and!.
  - assert (kick_measure s <= 11)%nat; [|lia]. unfold kick_measure.
    destruct (s_worker s); repeat case_match; lia.
  - unfold kick_measure. destruct (s_worker s'); repeat case_match; done.
  - intros Hw Hc. pose proof (inv_owed _ Hi' Ho') as Hok. unfold owed_ok in Hok.
    rewrite Hw in Hok. tauto.
  - intros Hd. by apply worker_progress.
Qed.

(** * A worker that is in the guest when it is stopped, or kicked *)
Module VcpuThreadDemo.
Definition worker : VartVcpu := VcpuDemo.vcpu0.
Definition s0 : sys := mkSys worker WStart CUnlock (Some Control) false false.
Lemma s0_started : started s0.
Proof. repeat split; try reflexivity. by eexists. Qed.

(** The worker enters the guest; then another thread takes the lock. *)
Definition in_guest (stop : bool) : sys :=
  mkSys worker WRun (CLocked stop) (Some Control) false false.
Lemma enter_guest stop : execution 3 s0 (in_guest stop).
Proof.
  eapply exec_other; [apply by_control, step_release; reflexivity|].
  eapply exec_worker; [apply by_worker, step_start; reflexivity|].
  eapply exec_worker; [apply by_worker, step_head; reflexivity|].
  eapply exec_worker; [apply by_worker, step_exchange; reflexivity|].
  eapply exec_other; [apply by_control, (step_acquire _ stop); reflexivity|].
  apply exec_nil.
Qed.

Definition requested (stop : bool) : sys :=
  mkSys (store_request stop worker) WRun CUnlock (Some Control) true (negb stop).
Lemma execution_app n1 n2 a b c : execution n1 a b -> execution n2 b c -> execution (n1 + n2) a c.
Proof.
  induction 1; intros H2; cbn; [done|eapply exec_worker; eauto|eapply exec_other; eauto].
Qed.
Lemma reach_requested stop : execution 3 s0 (requested stop).
Proof.
  apply (execution_app 3 0 _ _ _ (enter_guest stop)).
  eapply exec_other; [apply by_control, (step_store _ stop); reflexivity|].
  eapply exec_other; [apply by_control, (step_kill _ stop); reflexivity|].
  destruct stop; apply exec_nil.
Qed.

(** The signal is delivered and the worker comes out of the guest. *)
Definition back (stop : bool) : sys :=
  mkSys (vart_vcpu_kick_handler (store_request stop worker))
    (WRan 0 VART_VCPU_EXIT_INTERRUPTED) CUnlock (Some Control) false (negb stop).

Lemma stop_ends_worker_witness :
  (stop_measure (back true) + 1 <= 7)%nat /\
  (stop_measure (back true) = 0%nat ->
    vcpu_thread_state (s_vcpu (back true)) = VART_VCPU_THREAD_STOPPED) /\
  (s_worker (back true) <> WDone -> (exists s2, worker_step (back true) s2) \/
    s_lock (back true) = Some Control /\ exists s2, control_step (back true) s2) /\
  (s_worker (back true) = WRun -> s_control (back true) <> CStored true ->
    will_return (back true)) /\
  forall exit, ~ handles_exit (back true) exit.
Proof.
  apply (stop_ends_worker s0 3 (requested true) 1 (back true) s0_started (reach_requested true)).
  - split; [reflexivity|discriminate].
  - eapply exec_other; [apply by_signal, step_deliver; [reflexivity|discriminate]|].
    eapply exec_worker; [apply by_worker, (step_run _ 0 VART_VCPU_EXIT_INTERRUPTED);
      [reflexivity|lia]|].
    apply exec_nil.
Defined.

Lemma kick_is_reported_witness :
  (kick_measure (back false) + 1 <= 11)%nat /\
  (kick_measure (back false) = 0%nat -> s_worker (back false) = WDone) /\
  (s_worker (back false) = WRun -> s_control (back false) <> CStored false ->
    will_return (back false)) /\
  (s_worker (back false) <> WDone -> (exists s2, worker_step (back false) s2) \/
    s_lock (back false) = Some Control /\ exists s2, control_step (back false) s2).
Proof.
  apply (kick_is_reported s0 3 (requested false) 1 (back false) s0_started
    (reach_requested false)).
  - reflexivity.
  - eapply unrep_other; [apply by_signal, step_deliver; [reflexivity|discriminate]|].
    eapply unrep_worker; [apply (step_run _ 0 VART_VCPU_EXIT_INTERRUPTED); [reflexivity|lia]| |].
    + intros [? _]. discriminate.
    + apply unrep_nil.
Defined.
End VcpuThreadDemo.
