(* ===== verification/Kvm.v ===== *)
(** The KVM handle, the virtual machine and what RISC-V KVM offers: [src/kvm/kvm.c],
    [src/kvm/vm.c] and [src/arch/riscv/riscv-kvm.c].

    Opening KVM reads its version and capabilities; the probe of a vCPU reads which
    registers, ISA and SBI extensions KVM offers, and the boot contract says which of them
    a guest needs.  The theorems: opening gives the kernel's answers or leaves no descriptor
    behind, and a guest is accepted exactly when everything it needs is there. *)

From Stdlib Require Import ZArith Lia String.
From stdpp Require Import base tactics numbers list gmap.
From S2P Require Import Prelude Bytes Machine EventLoop KvmIrq Vcpu.

Abbreviation E2BIG := 7 (only parsing).
Abbreviation EPROTONOSUPPORT := 93 (only parsing).
Abbreviation KVM_API_VERSION := 12 (only parsing).
Abbreviation KVM_CAP_USER_MEMORY := 3 (only parsing).
Abbreviation KVM_CAP_NR_VCPUS := 9 (only parsing).
Abbreviation KVM_CAP_MP_STATE := 14 (only parsing).
Abbreviation KVM_CAP_IRQ_ROUTING := 25 (only parsing).
Abbreviation KVM_CAP_IRQFD := 32 (only parsing).
Abbreviation KVM_CAP_IOEVENTFD := 36 (only parsing).
Abbreviation KVM_CAP_MAX_VCPUS := 66 (only parsing).
Abbreviation KVM_CAP_ONE_REG := 70 (only parsing).
Abbreviation KVM_CAP_SIGNAL_MSI := 77 (only parsing).
Abbreviation KVM_CAP_IMMEDIATE_EXIT := 136 (only parsing).
Abbreviation KVM_CAP_RISCV_MP_STATE_RESET := 242 (only parsing).
Abbreviation KVM_REG_RISCV_ISA_EXT := 0x7000000 (only parsing).
Abbreviation KVM_REG_RISCV_SBI_EXT := 0x8000000 (only parsing).

(** System calls; a negative result is [-errno].  [sizeof_kvm_run] is the size of the page's
    struct in the kernel's header.  [ioctl_get_reg_list fd n] is given a list with room for
    [n] registers; it gives the result, the length it left in the list and the registers. *)
Class KvmSystem := {
  sizeof_kvm_run : Z;
  open_kvm : M World Z;
  ioctl_get_api_version : Z -> M World Z;
  ioctl_get_vcpu_mmap_size : Z -> M World Z;
  ioctl_check_extension : Z -> Z -> M World Z;
  ioctl_create_vm : Z -> M World Z;
  ioctl_test_device : Z -> Z -> M World Z;
  big_lock_init : M World Z;
  big_lock_destroy : M World unit;
  close_kvm : Z -> M World unit;
  ioctl_get_reg_list : Z -> Z -> M World (Z * Z * list Z);
}.

Definition zero_kvm : VartKvm :=
  mkKvm 0 0 0 0 0 false false false false false false false false false.
#[export] Instance VartKvm_rebuild : Rebuild VartKvm :=
  env_const mkKvm $* kvm_fd $* kvm_api_version $* kvm_vcpu_mmap_size $* kvm_recommended_vcpus
    $* kvm_max_vcpus $* kvm_user_memory $* kvm_one_reg $* kvm_irqfd $* kvm_ioeventfd
    $* kvm_irq_routing $* kvm_signal_msi $* kvm_immediate_exit $* kvm_mp_state
    $* kvm_riscv_mp_state_reset.

Definition store_kvm (p : ptr) (v : VartKvm) : M World unit :=
  modify (fun w => w <| w_kvms ::= <[p := v]> |>).
Definition set_kvm (p : ptr) (f : VartKvm -> VartKvm) : M World unit :=
  let* kvm := load_kvm p in store_kvm p (f kvm).

Section System.
Context `{KvmSystem}.

(** * [src/kvm/kvm.c] *)

Definition vart_kvm_check_extension (p : ptr) (capability : Z) : M World Z :=
  let* kvm := load_kvm p in ioctl_check_extension (kvm_fd kvm) capability.

Definition vart_kvm_close (p : ptr) : M World unit :=
  let* kvm := load_kvm p in
  (if 0 <=? kvm_fd kvm then close_kvm (kvm_fd kvm) else ret tt) ;;;
  store_kvm p (kvm <| kvm_fd := -1 |>).

(** A capability that is a number, and one that is there or not. *)
Definition read_number (p : ptr) (capability : Z) (field : Z -> VartKvm -> VartKvm)
    : M World unit :=
  let* x := vart_kvm_check_extension p capability in set_kvm p (field x).
Definition read_flag (p : ptr) (capability : Z) (field : bool -> VartKvm -> VartKvm)
    : M World unit :=
  let* x := vart_kvm_check_extension p capability in set_kvm p (field (0 <? x)).

Definition read_capabilities (p : ptr) : M World unit :=
  read_number p KVM_CAP_NR_VCPUS (fun x k => k <| kvm_recommended_vcpus := x |>) ;;;
  read_number p KVM_CAP_MAX_VCPUS (fun x k => k <| kvm_max_vcpus := x |>) ;;;
  read_flag p KVM_CAP_USER_MEMORY (fun b k => k <| kvm_user_memory := b |>) ;;;
  read_flag p KVM_CAP_ONE_REG (fun b k => k <| kvm_one_reg := b |>) ;;;
  read_flag p KVM_CAP_IRQFD (fun b k => k <| kvm_irqfd := b |>) ;;;
  read_flag p KVM_CAP_IOEVENTFD (fun b k => k <| kvm_ioeventfd := b |>) ;;;
  read_flag p KVM_CAP_IRQ_ROUTING (fun b k => k <| kvm_irq_routing := b |>) ;;;
  read_flag p KVM_CAP_SIGNAL_MSI (fun b k => k <| kvm_signal_msi := b |>) ;;;
  read_flag p KVM_CAP_IMMEDIATE_EXIT (fun b k => k <| kvm_immediate_exit := b |>) ;;;
  read_flag p KVM_CAP_MP_STATE (fun b k => k <| kvm_mp_state := b |>) ;;;
  read_flag p KVM_CAP_RISCV_MP_STATE_RESET (fun b k => k <| kvm_riscv_mp_state_reset := b |>).

Definition kvm_open_fail (p : ptr) (err : Z) : M World Z := vart_kvm_close p ;;; ret err.

Definition vart_kvm_open (p : ptr) : M World Z :=
  store_kvm p (zero_kvm <| kvm_fd := -1 |>) ;;;
  let* fd := open_kvm in
  if fd <? 0 then set_kvm p (fun k => k <| kvm_fd := -1 |>) ;;; ret fd
  else
    set_kvm p (fun k => k <| kvm_fd := fd |>) ;;;
    let* version := ioctl_get_api_version fd in
    if version <? 0 then kvm_open_fail p version
    else
      set_kvm p (fun k => k <| kvm_api_version := version |>) ;;;
      if negb (version =? KVM_API_VERSION) then kvm_open_fail p (-EPROTONOSUPPORT)
      else
        let* size := ioctl_get_vcpu_mmap_size fd in
        if size <? 0 then kvm_open_fail p size
        else
          set_kvm p (fun k => k <| kvm_vcpu_mmap_size := size |>) ;;;
          if size <? sizeof_kvm_run then kvm_open_fail p (-EOVERFLOW)
          else
            read_capabilities p ;;;
            let* kvm := load_kvm p in
            if negb (kvm_user_memory kvm) || negb (kvm_one_reg kvm)
            then kvm_open_fail p (-ENOTSUP)
            else ret 0.

(** * [src/kvm/vm.c]

    The lock has no state of its own here: [big_lock_init] and [big_lock_destroy] stand for
    the calls of [sync.c]. *)

Definition vart_vm_create (vm : ptr) (kvm : ptr) : M World Z :=
  store_vm vm (mkVm (Some kvm) (-1) None false) ;;;
  let* err := big_lock_init in
  if err <? 0 then ret err
  else
    let* handle := load_kvm kvm in
    let* fd := ioctl_create_vm (kvm_fd handle) in
    if fd <? 0 then
      store_vm vm (mkVm (Some kvm) (-1) None false) ;;; big_lock_destroy ;;; ret fd
    else store_vm vm (mkVm (Some kvm) fd None false) ;;; ret 0.

Definition vart_vm_destroy (p : ptr) : M World unit :=
  let* vm := load_vm p in
  (if 0 <=? vm_fd vm then close_kvm (vm_fd vm) else ret tt) ;;;
  big_lock_destroy ;;;
  store_vm p (vm <| vm_fd := -1 |> <| vm_kvm := None |>).

Definition vart_vm_check_device (p : ptr) (type : Z) : M World Z :=
  let* vm := load_vm p in
  let* err := ioctl_test_device (vm_fd vm) type in
  ret (if err =? 0 then 1 else if err =? -ENODEV then 0 else err).
End System.

(** * [src/arch/riscv/riscv-kvm.c] *)

Record VartRiscvKvmFeature := mkFeature { ft_available : bool; ft_enabled : bool }.
#[export] Instance VartRiscvKvmFeature_rebuild : Rebuild VartRiscvKvmFeature :=
  env_const mkFeature $* ft_available $* ft_enabled.

(** The enumerations are the indices of the arrays of [VartRiscvKvmCaps]. *)
Inductive VartRiscvKvmIsaFeature :=
| VART_RISCV_KVM_ISA_I
| VART_RISCV_KVM_ISA_M
| VART_RISCV_KVM_ISA_A
| VART_RISCV_KVM_ISA_SSTC
| VART_RISCV_KVM_ISA_SSAIA.
Inductive VartRiscvKvmSbiFeature :=
| VART_RISCV_KVM_SBI_V01
| VART_RISCV_KVM_SBI_TIME
| VART_RISCV_KVM_SBI_IPI
| VART_RISCV_KVM_SBI_RFENCE
| VART_RISCV_KVM_SBI_SRST
| VART_RISCV_KVM_SBI_HSM
| VART_RISCV_KVM_SBI_DBCN.
Definition isa_index (f : VartRiscvKvmIsaFeature) : nat :=
  match f with
  | VART_RISCV_KVM_ISA_I => 0
  | VART_RISCV_KVM_ISA_M => 1
  | VART_RISCV_KVM_ISA_A => 2
  | VART_RISCV_KVM_ISA_SSTC => 3
  | VART_RISCV_KVM_ISA_SSAIA => 4
  end.
Definition sbi_index (f : VartRiscvKvmSbiFeature) : nat :=
  match f with
  | VART_RISCV_KVM_SBI_V01 => 0
  | VART_RISCV_KVM_SBI_TIME => 1
  | VART_RISCV_KVM_SBI_IPI => 2
  | VART_RISCV_KVM_SBI_RFENCE => 3
  | VART_RISCV_KVM_SBI_SRST => 4
  | VART_RISCV_KVM_SBI_HSM => 5
  | VART_RISCV_KVM_SBI_DBCN => 6
  end.

Record VartRiscvKvmCaps := mkCaps {
  caps_reg_list : bool;
  caps_core_mode : bool;
  caps_timer_frequency : bool;
  caps_isa : list VartRiscvKvmFeature;
  caps_sbi : list VartRiscvKvmFeature;
}.
#[export] Instance VartRiscvKvmCaps_rebuild : Rebuild VartRiscvKvmCaps :=
  env_const mkCaps $* caps_reg_list $* caps_core_mode $* caps_timer_frequency $* caps_isa
    $* caps_sbi.
Definition zero_feature : VartRiscvKvmFeature := mkFeature false false.
#[export] Instance feature_inhabited : Inhabited VartRiscvKvmFeature := populate zero_feature.
Definition zero_caps : VartRiscvKvmCaps :=
  mkCaps false false false (replicate 5 zero_feature) (replicate 7 zero_feature).

(** A pointer to a feature of the capabilities. *)
Definition feature_ref : Type := VartRiscvKvmIsaFeature + VartRiscvKvmSbiFeature.
Definition feature_of (caps : VartRiscvKvmCaps) (r : feature_ref) : VartRiscvKvmFeature :=
  match r with
  | inl f => caps_isa caps !!! isa_index f
  | inr f => caps_sbi caps !!! sbi_index f
  end.
Definition set_feature (r : feature_ref) (v : VartRiscvKvmFeature) (caps : VartRiscvKvmCaps)
    : VartRiscvKvmCaps :=
  match r with
  | inl f => caps <| caps_isa ::= <[isa_index f := v]> |>
  | inr f => caps <| caps_sbi ::= <[sbi_index f := v]> |>
  end.

Record VartRiscvKvmProbe := mkProbe { probe_id : Z; probe_feature : feature_ref }.
Definition isa_probe (index : Z) (f : VartRiscvKvmIsaFeature) : VartRiscvKvmProbe :=
  mkProbe (RISCV_REG KVM_REG_RISCV_ISA_EXT index) (inl f).
Definition sbi_probe (index : Z) (f : VartRiscvKvmSbiFeature) : VartRiscvKvmProbe :=
  mkProbe (RISCV_REG KVM_REG_RISCV_SBI_EXT index) (inr f).
Definition probes : list VartRiscvKvmProbe := [
  isa_probe 5 VART_RISCV_KVM_ISA_I; isa_probe 6 VART_RISCV_KVM_ISA_M;
  isa_probe 0 VART_RISCV_KVM_ISA_A; isa_probe 8 VART_RISCV_KVM_ISA_SSTC;
  isa_probe 14 VART_RISCV_KVM_ISA_SSAIA; sbi_probe 0 VART_RISCV_KVM_SBI_V01;
  sbi_probe 1 VART_RISCV_KVM_SBI_TIME; sbi_probe 2 VART_RISCV_KVM_SBI_IPI;
  sbi_probe 3 VART_RISCV_KVM_SBI_RFENCE; sbi_probe 4 VART_RISCV_KVM_SBI_SRST;
  sbi_probe 5 VART_RISCV_KVM_SBI_HSM; sbi_probe 9 VART_RISCV_KVM_SBI_DBCN].

Fixpoint reg_list_contains (l : list Z) (id : Z) : bool :=
  match l with
  | [] => false
  | x :: l => if x =? id then true else reg_list_contains l id
  end.

Definition isa_names : list string := ["I"; "M"; "A"; "SSTC"; "SSAIA"]%string.
Definition sbi_names : list string :=
  ["legacy-0.1"; "TIME"; "IPI"; "RFENCE"; "SRST"; "HSM"; "DBCN"]%string.
Definition vart_riscv_kvm_isa_name (feature : Z) : option string :=
  if (0 <=? feature) && (feature <? 5) then isa_names !! Z.to_nat feature else None.
Definition vart_riscv_kvm_sbi_name (feature : Z) : option string :=
  if (0 <=? feature) && (feature <? 7) then sbi_names !! Z.to_nat feature else None.

Section Probe.
Context `{KvmSystem} `{VcpuHost}.

(** The capabilities are the caller's memory: they are given back changed. *)
Definition read_feature (vcpu : VartVcpu) (l : list Z) (probe : VartRiscvKvmProbe)
    (caps : VartRiscvKvmCaps) : M World (Z * VartRiscvKvmCaps) :=
  if negb (reg_list_contains l (probe_id probe)) then ret (0, caps)
  else
    let r := probe_feature probe in
    let caps := set_feature r ((feature_of caps r) <| ft_available := true |>) caps in
    let* (err, value) := vart_vcpu_get_one_reg vcpu (probe_id probe) 0 in
    if err <? 0 then ret (err, caps)
    else ret (0, set_feature r ((feature_of caps r) <| ft_enabled := negb (value =? 0) |>) caps).

Fixpoint read_features (vcpu : VartVcpu) (l : list Z) (todo : list VartRiscvKvmProbe)
    (caps : VartRiscvKvmCaps) : M World (Z * VartRiscvKvmCaps) :=
  match todo with
  | [] => ret (0, caps)
  | probe :: todo =>
      let* (err, caps) := read_feature vcpu l probe caps in
      if err <? 0 then ret (err, caps) else read_features vcpu l todo caps
  end.

Definition list_size_overflows (n : Z) : bool := (SIZE_MAX - 8) / 8 <? n.

Definition vart_riscv_kvm_probe_vcpu (vcpu : option ptr) (caps : option VartRiscvKvmCaps)
    : M World (Z * option VartRiscvKvmCaps) :=
  match vcpu, caps with
  | Some p, Some _ =>
      let* v := load_vcpu p in
      let* (err, n, _) := ioctl_get_reg_list (vcpu_fd v) 0 in
      if (0 <=? err) || negb (err =? -E2BIG) || (n =? 0)
      then ret (if err <? 0 then err else -EIO, Some zero_caps)
      else if list_size_overflows n then ret (-EOVERFLOW, Some zero_caps)
      else
        let* ok := allocate in
        if negb ok then ret (-ENOMEM, Some zero_caps)
        else
          let* (err, _, l) := ioctl_get_reg_list (vcpu_fd v) n in
          if err <? 0 then ret (err, Some zero_caps)
          else
            let caps := mkCaps true (reg_list_contains l CORE_MODE)
              (reg_list_contains l (RISCV_REG KVM_REG_RISCV_TIMER 0))
              (caps_isa zero_caps) (caps_sbi zero_caps) in
            let* (err, caps) := read_features v l probes caps in
            ret (err, Some caps)
  | _, _ => ret (-EINVAL, caps)
  end.
End Probe.

Record VartRiscvBootContractReport := mkReport {
  missing_kvm : Z; missing_isa : Z; missing_sbi : Z }.

(** [report->field |= bit] when a requirement is not met. *)
Definition require (met : bool) (bit report : Z) : Z := if met then report else Z.lor report bit.
Definition usable (f : VartRiscvKvmFeature) : bool := ft_available f && ft_enabled f.

Abbreviation VART_RISCV_BOOT_USER_MEMORY := (Z.shiftl 1 0) (only parsing).
Abbreviation VART_RISCV_BOOT_ONE_REG := (Z.shiftl 1 1) (only parsing).
Abbreviation VART_RISCV_BOOT_IMMEDIATE_EXIT := (Z.shiftl 1 2) (only parsing).
Abbreviation VART_RISCV_BOOT_MP_STATE := (Z.shiftl 1 3) (only parsing).
Abbreviation VART_RISCV_BOOT_REG_LIST := (Z.shiftl 1 4) (only parsing).
Abbreviation VART_RISCV_BOOT_CORE_MODE := (Z.shiftl 1 5) (only parsing).
Abbreviation VART_RISCV_BOOT_TIMER_FREQUENCY := (Z.shiftl 1 6) (only parsing).

Definition kvm_report (kvm : VartKvm) (caps : VartRiscvKvmCaps) : Z :=
  let r := require (kvm_user_memory kvm) VART_RISCV_BOOT_USER_MEMORY 0 in
  let r := require (kvm_one_reg kvm) VART_RISCV_BOOT_ONE_REG r in
  let r := require (kvm_immediate_exit kvm) VART_RISCV_BOOT_IMMEDIATE_EXIT r in
  let r := require (kvm_mp_state kvm) VART_RISCV_BOOT_MP_STATE r in
  let r := require (caps_reg_list caps) VART_RISCV_BOOT_REG_LIST r in
  let r := require (caps_core_mode caps) VART_RISCV_BOOT_CORE_MODE r in
  require (caps_timer_frequency caps) VART_RISCV_BOOT_TIMER_FREQUENCY r.

Definition required_isa : list VartRiscvKvmIsaFeature :=
  [VART_RISCV_KVM_ISA_I; VART_RISCV_KVM_ISA_M; VART_RISCV_KVM_ISA_A].
Definition required_sbi : list VartRiscvKvmSbiFeature :=
  [VART_RISCV_KVM_SBI_TIME; VART_RISCV_KVM_SBI_IPI; VART_RISCV_KVM_SBI_RFENCE;
   VART_RISCV_KVM_SBI_SRST; VART_RISCV_KVM_SBI_HSM].

Definition isa_report (caps : VartRiscvKvmCaps) : Z :=
  fold_left (fun r f => require (usable (feature_of caps (inl f)))
    (u32 (Z.shiftl 1 (Z.of_nat (isa_index f)))) r) required_isa 0.
Definition sbi_report (caps : VartRiscvKvmCaps) : Z :=
  fold_left (fun r f => require (usable (feature_of caps (inr f)))
    (u32 (Z.shiftl 1 (Z.of_nat (sbi_index f)))) r) required_sbi 0.

Definition vart_riscv_kvm_validate_boot (kvm : option VartKvm) (caps : option VartRiscvKvmCaps)
    (report : option VartRiscvBootContractReport) : Z * option VartRiscvBootContractReport :=
  match kvm, caps, report with
  | Some kvm, Some caps, Some _ =>
      let r := mkReport (kvm_report kvm caps) (isa_report caps) (sbi_report caps) in
      (if negb (missing_kvm r =? 0) || negb (missing_isa r =? 0) || negb (missing_sbi r =? 0)
       then -ENOTSUP else 0, Some r)
  | _, _, _ => (-EINVAL, report)
  end.

(** * Opening KVM *)

(** The documented behaviour of the calls: [fds] are the open descriptors of the process and
    [answer] what [KVM_CHECK_EXTENSION] says of a capability. *)
Class KvmKernel `{KvmSystem} (fds : World -> gset Z) (answer : Z -> Z) : Prop := {
  kk_frame w w' : w_files w' = w_files w -> fds w' = fds w;
  kk_open w : exists fd w', open_kvm w = Ok (fd, w') /\ host_only w w' /\
    if fd <? 0 then fds w' = fds w else (fd ∉ fds w) /\ fds w' = {[fd]} ∪ fds w;
  kk_version w fd : exists r w', ioctl_get_api_version fd w = Ok (r, w') /\
    host_only w w' /\ fds w' = fds w;
  kk_size w fd : exists r w', ioctl_get_vcpu_mmap_size fd w = Ok (r, w') /\
    host_only w w' /\ fds w' = fds w;
  kk_extension w fd c : exists w', ioctl_check_extension fd c w = Ok (answer c, w') /\
    host_only w w' /\ fds w' = fds w;
  kk_close w fd : exists w', close_kvm fd w = Ok (tt, w') /\ host_only w w' /\
    fds w' = fds w ∖ {[fd]};
}.

(** The handle that opening gives. *)
Definition opened_handle (answer : Z -> Z) (fd size : Z) : VartKvm :=
  mkKvm fd KVM_API_VERSION size (answer KVM_CAP_NR_VCPUS) (answer KVM_CAP_MAX_VCPUS)
    (0 <? answer KVM_CAP_USER_MEMORY) (0 <? answer KVM_CAP_ONE_REG) (0 <? answer KVM_CAP_IRQFD)
    (0 <? answer KVM_CAP_IOEVENTFD) (0 <? answer KVM_CAP_IRQ_ROUTING)
    (0 <? answer KVM_CAP_SIGNAL_MSI) (0 <? answer KVM_CAP_IMMEDIATE_EXIT)
    (0 <? answer KVM_CAP_MP_STATE) (0 <? answer KVM_CAP_RISCV_MP_STATE_RESET).

Section Open.
Context `{KK : KvmKernel} (p : ptr).

(** The handle at [p] is [kvm], the descriptors are [s] and nothing else changed. *)
Definition handle (w : World) (kvm : VartKvm) (s : gset Z) (w' : World) : Prop :=
  w_kvms w' !! p = Some kvm /\ fds w' = s /\
  exists f, w' = w <| w_files := f |> <| w_kvms ::= <[p := kvm]> |>.

Lemma handle_store w kvm kvm' s w' : handle w kvm s w' ->
  handle w kvm' s (w' <| w_kvms ::= <[p := kvm']> |>).
Proof using KK.
  intros (_ & Hs & f & ->). split; [cbn; by rewrite lookup_insert_eq|].
  split; [rewrite <- Hs; by apply kk_frame|]. exists f. destruct w. cbn.
  unfold update. cbn. by rewrite insert_insert_eq.
Qed.

Lemma handle_host w kvm s s' w1 w2 : handle w kvm s w1 -> host_only w1 w2 -> fds w2 = s' ->
  handle w kvm s' w2.
Proof using Type.
  intros (Hk & _ & f & ->) [f' ->] Hs. split; [done|]. split; [done|]. exists f'. by destruct w.
Qed.

Lemma set_kvm_spec w kvm s w1 f (Q : unit -> World -> Prop) : handle w kvm s w1 ->
  (forall w2, handle w (f kvm) s w2 -> Q tt w2) -> wp (set_kvm p f) Q w1.
Proof using KK.
  intros Hh HQ. unfold set_kvm. apply wp_bind. eapply wp_load_kvm; [apply Hh|].
  apply wp_modify, HQ. by eapply handle_store.
Qed.

Lemma read_number_spec w kvm s w1 c field (Q : unit -> World -> Prop) : handle w kvm s w1 ->
  (forall w2, handle w (field (answer c) kvm) s w2 -> Q tt w2) ->
  wp (read_number p c field) Q w1.
Proof using KK.
  intros Hh HQ. unfold read_number, vart_kvm_check_extension. apply wp_bind, wp_bind.
  eapply wp_load_kvm; [apply Hh|].
  destruct (kk_extension w1 (kvm_fd kvm) c) as (w2 & E & Hho & Hf). apply wp_ok.
  eexists _, _. split; [exact E|]. eapply set_kvm_spec; [|exact HQ].
  eapply handle_host; [done..|]. rewrite Hf. apply Hh.
Qed.

Lemma read_flag_spec w kvm s w1 c field (Q : unit -> World -> Prop) : handle w kvm s w1 ->
  (forall w2, handle w (field (0 <? answer c) kvm) s w2 -> Q tt w2) ->
  wp (read_flag p c field) Q w1.
Proof using KK.
  intros Hh HQ. by eapply (read_number_spec _ _ _ _ _ (fun x => field (0 <? x))).
Qed.

Lemma read_capabilities_spec w fd size s w1 (Q : unit -> World -> Prop) :
  handle w (zero_kvm <| kvm_fd := fd |> <| kvm_api_version := KVM_API_VERSION |>
    <| kvm_vcpu_mmap_size := size |>) s w1 ->
  (forall w2, handle w (opened_handle answer fd size) s w2 -> Q tt w2) ->
  wp (read_capabilities p) Q w1.
Proof using KK.
  intros Hh HQ. unfold read_capabilities.
  repeat (apply wp_bind; first [eapply read_number_spec | eapply read_flag_spec];
    [exact Hh|]; clear Hh; intros ? Hh).
  eapply read_flag_spec; [exact Hh|exact HQ].
Qed.

Lemma open_fail_spec w kvm s w1 err (Q : Z -> World -> Prop) : handle w kvm s w1 ->
  0 <= kvm_fd kvm ->
  (forall w2, handle w (kvm <| kvm_fd := -1 |>) (s ∖ {[kvm_fd kvm]}) w2 -> Q err w2) ->
  wp (kvm_open_fail p err) Q w1.
Proof using KK.
  intros Hh Hfd HQ. unfold kvm_open_fail, vart_kvm_close. apply wp_bind, wp_bind.
  eapply wp_load_kvm; [apply Hh|]. apply wp_bind.
  destruct (Z.leb_spec 0 (kvm_fd kvm)); [|lia].
  destruct (kk_close w1 (kvm_fd kvm)) as (w2 & E & Hho & Hf). apply wp_ok. eexists _, _.
  split; [exact E|]. apply wp_modify, wp_ret, HQ. eapply handle_store.
  eapply handle_host; [done..|]. rewrite Hf. f_equal. apply Hh.
Qed.
(** What opening ends with. *)
Definition open_post (w : World) (err : Z) (w' : World) : Prop :=
  exists kvm,
    if err <? 0
    then handle w kvm (fds w) w' /\ kvm_fd kvm = -1
    else err = 0 /\ kvm = opened_handle answer (kvm_fd kvm) (kvm_vcpu_mmap_size kvm) /\
         handle w kvm ({[kvm_fd kvm]} ∪ fds w) w' /\ 0 <= kvm_fd kvm /\
         (kvm_fd kvm ∉ fds w) /\ sizeof_kvm_run <= kvm_vcpu_mmap_size kvm /\
         kvm_user_memory kvm = true /\ kvm_one_reg kvm = true.

(** Every failure after the descriptor was opened. *)
Lemma open_fails w kvm w1 err : handle w kvm ({[kvm_fd kvm]} ∪ fds w) w1 ->
  err < 0 -> 0 <= kvm_fd kvm -> kvm_fd kvm ∉ fds w -> wp (kvm_open_fail p err) (open_post w) w1.
Proof using KK.
  intros Hh He Hfd Hnew. eapply open_fail_spec; [done..|]. intros w2 Hh2.
  exists (kvm <| kvm_fd := -1 |>). destruct (Z.ltb_spec err 0); [|lia]. split; [|done].
  replace (fds w) with (({[kvm_fd kvm]} ∪ fds w) ∖ {[kvm_fd kvm]}) by set_solver. done.
Qed.

(** A call that leaves the handle as it is. *)
Lemma handle_call {A} w kvm s w1 (m : M World A) (Q : A -> World -> Prop) :
  handle w kvm s w1 ->
  (exists r w2, m w1 = Ok (r, w2) /\ host_only w1 w2 /\ fds w2 = fds w1) ->
  (forall r w2, handle w kvm s w2 -> Q r w2) -> wp m Q w1.
Proof using Type.
  intros Hh (r & w2 & E & Hho & Hf) HQ. apply wp_ok. exists r, w2. split; [done|]. apply HQ.
  eapply handle_host; [done..|]. rewrite Hf. apply Hh.
Qed.

Lemma open_with_descriptor w fd w1 : 0 <= fd -> fd ∉ fds w ->
  handle w (zero_kvm <| kvm_fd := fd |>) ({[fd]} ∪ fds w) w1 ->
  wp (let* version := ioctl_get_api_version fd in
      if version <? 0 then kvm_open_fail p version
      else
        set_kvm p (fun k => k <| kvm_api_version := version |>) ;;;
        if negb (version =? KVM_API_VERSION) then kvm_open_fail p (-EPROTONOSUPPORT)
        else
          let* size := ioctl_get_vcpu_mmap_size fd in
          if size <? 0 then kvm_open_fail p size
          else
            set_kvm p (fun k => k <| kvm_vcpu_mmap_size := size |>) ;;;
            if size <? sizeof_kvm_run then kvm_open_fail p (-EOVERFLOW)
            else
              read_capabilities p ;;;
              let* kvm := load_kvm p in
              if negb (kvm_user_memory kvm) || negb (kvm_one_reg kvm)
              then kvm_open_fail p (-ENOTSUP)
              else ret 0) (open_post w) w1.
Proof using KK.
  intros Hfd Hnew H1. apply wp_bind. eapply handle_call; [exact H1|apply kk_version|].
  clear dependent w1. intros v w1 H1. destruct (Z.ltb_spec v 0); [by apply (open_fails _ _ _ _ H1)|].
  apply wp_bind. eapply set_kvm_spec; [exact H1|]. clear dependent w1. intros w1 H1.
  destruct (Z.eqb_spec v KVM_API_VERSION) as [->|]; [|by apply (open_fails _ _ _ _ H1)]. cbn [negb].
  apply wp_bind. eapply handle_call; [exact H1|apply kk_size|].
  clear dependent w1. intros size w1 H1. destruct (Z.ltb_spec size 0); [by apply (open_fails _ _ _ _ H1)|].
  apply wp_bind. eapply set_kvm_spec; [exact H1|]. clear dependent w1. intros w1 H1.
  destruct (Z.ltb_spec size sizeof_kvm_run); [by apply (open_fails _ _ _ _ H1)|].
  apply wp_bind. eapply read_capabilities_spec; [exact H1|]. clear dependent w1. intros w1 H1.
  apply wp_bind. eapply wp_load_kvm; [apply H1|].
  destruct (negb _ || negb _) eqn:Eflags; [by apply (open_fails _ _ _ _ H1)|].
  apply orb_false_elim in Eflags as [?%negb_false_iff ?%negb_false_iff].
  apply wp_ret. by exists (opened_handle answer fd size).
Qed.
End Open.

(** Opening KVM gives a handle with the version this program is written for, a page at least
    as large as its struct, and the kernel's answers about its capabilities, memory slots and
    register access among them; or it fails, and then the descriptor that was opened is
    closed again and the handle has none. *)
Theorem kvm_open_or_nothing `{KK : KvmKernel} p w :
  exists err w' kvm, vart_kvm_open p w = Ok (err, w') /\
    if err <? 0
    then handle (fds := fds) p w kvm (fds w) w' /\ kvm_fd kvm = -1
    else err = 0 /\ kvm = opened_handle answer (kvm_fd kvm) (kvm_vcpu_mmap_size kvm) /\
         handle (fds := fds) p w kvm ({[kvm_fd kvm]} ∪ fds w) w' /\ 0 <= kvm_fd kvm /\
         (kvm_fd kvm ∉ fds w) /\ sizeof_kvm_run <= kvm_vcpu_mmap_size kvm /\
         kvm_user_memory kvm = true /\ kvm_one_reg kvm = true.
Proof.
  cut (wp (vart_kvm_open p) (open_post (fds := fds) (answer := answer) p w) w).
  { intros (err & w' & E & kvm & Hpost)%wp_ok. by exists err, w', kvm. }
  unfold vart_kvm_open. apply wp_bind, wp_modify, wp_bind.
  set (k0 := zero_kvm <| kvm_fd := -1 |>). set (w0 := w <| w_kvms ::= _ |>).
  assert (handle (fds := fds) p w k0 (fds w) w0) as H0.
  { split; [cbn; by rewrite lookup_insert_eq|]. split; [by apply kk_frame|].
    exists (w_files w). by destruct w. }
  destruct (kk_open w0) as (fd & w1 & E & Hho & Hf). apply wp_ok. eexists _, _.
  split; [exact E|]. assert (fds w0 = fds w) as Hw0 by apply H0. rewrite Hw0 in Hf.
  destruct (Z.ltb_spec fd 0).
  - apply wp_bind. eapply set_kvm_spec; [by eapply handle_host|]. intros w2 H2. apply wp_ret.
    exists k0. destruct (Z.ltb_spec fd 0); [|lia]. done.
  - destruct Hf as [Hnew Hf]. apply wp_bind. eapply set_kvm_spec; [by eapply handle_host|].
    intros w2 H2. by apply open_with_descriptor.
Qed.

(** * The boot contract *)

(** The register that says whether an extension is on. *)
Definition isa_id (f : VartRiscvKvmIsaFeature) : Z :=
  RISCV_REG KVM_REG_RISCV_ISA_EXT
    match f with
    | VART_RISCV_KVM_ISA_I => 5
    | VART_RISCV_KVM_ISA_M => 6
    | VART_RISCV_KVM_ISA_A => 0
    | VART_RISCV_KVM_ISA_SSTC => 8
    | VART_RISCV_KVM_ISA_SSAIA => 14
    end.
Definition sbi_id (f : VartRiscvKvmSbiFeature) : Z :=
  RISCV_REG KVM_REG_RISCV_SBI_EXT
    match f with
    | VART_RISCV_KVM_SBI_V01 => 0
    | VART_RISCV_KVM_SBI_TIME => 1
    | VART_RISCV_KVM_SBI_IPI => 2
    | VART_RISCV_KVM_SBI_RFENCE => 3
    | VART_RISCV_KVM_SBI_SRST => 4
    | VART_RISCV_KVM_SBI_HSM => 5
    | VART_RISCV_KVM_SBI_DBCN => 9
    end.
Definition feature_id (r : feature_ref) : Z :=
  match r with inl f => isa_id f | inr f => sbi_id f end.

(** The documented behaviour of the register ioctls for one vCPU: the kernel lists the
    registers [regs] when it is given room for them, says how many there are otherwise, and
    a listed register has a value. *)
Class RegisterList `{KvmSystem} `{VcpuHost} (fd : Z) (regs : list Z) (enabled : Z -> Z)
    : Prop := {
  rl_count w : exists l w', ioctl_get_reg_list fd 0 w =
    Ok ((-E2BIG, Z.of_nat (length regs), l), w') /\ host_only w w';
  rl_list w : exists err n w', ioctl_get_reg_list fd (Z.of_nat (length regs)) w =
    Ok ((err, n, regs), w') /\ host_only w w' /\ 0 <= err;
  rl_value w id old : id ∈ regs -> exists err w',
    ioctl_get_one_reg fd id old w = Ok ((err, enabled id), w') /\ host_only w w' /\ 0 <= err;
}.

Lemma reg_list_contains_spec l id : reg_list_contains l id = bool_decide (id ∈ l).
Proof.
  induction l as [|x l IH]; cbn; [by rewrite bool_decide_false by set_solver|].
  destruct (Z.eqb_spec x id) as [->|]; [by rewrite bool_decide_true by set_solver|].
  rewrite IH. apply bool_decide_ext. set_solver.
Qed.

Definition caps_ok (caps : VartRiscvKvmCaps) : Prop :=
  length (caps_isa caps) = 5%nat /\ length (caps_sbi caps) = 7%nat.

Lemma set_feature_ok r v caps : caps_ok caps -> caps_ok (set_feature r v caps).
Proof. intros [? ?]. destruct r; split; cbn; by rewrite ?length_insert. Qed.

#[export] Instance feature_ref_eq_dec : EqDecision feature_ref.
Proof. unfold feature_ref. intros ??. unfold Decision. decide equality; decide equality. Defined.

Lemma feature_of_set r r' v caps : caps_ok caps ->
  feature_of (set_feature r v caps) r' = if decide (r' = r) then v else feature_of caps r'.
Proof.
  intros [Hi Hs]. destruct (decide (r' = r)) as [->|Hne].
  - destruct r as [f|f]; cbn; apply list_lookup_total_insert_eq; destruct f; cbn; lia.
  - destruct r as [f|f], r' as [f'|f']; cbn; try done;
      apply list_lookup_total_insert_ne; destruct f, f'; cbn; congruence.
Qed.

Section Contract.
Context `{RL : RegisterList} (vcpu : VartVcpu) (Hfd : vcpu_fd vcpu = fd).

(** What the probe finds out about a feature. *)
Definition offered (r : feature_ref) : VartRiscvKvmFeature :=
  mkFeature (bool_decide (feature_id r ∈ regs))
    (bool_decide (feature_id r ∈ regs) && negb (enabled (feature_id r) =? 0)).

(** The other fields are not the features' business. *)
Definition same_flags (caps caps' : VartRiscvKvmCaps) : Prop :=
  caps_reg_list caps' = caps_reg_list caps /\ caps_core_mode caps' = caps_core_mode caps /\
  caps_timer_frequency caps' = caps_timer_frequency caps.

Lemma set_feature_flags r v caps : same_flags caps (set_feature r v caps).
Proof using Type. by destruct r. Qed.

Lemma read_feature_spec probe caps w : caps_ok caps ->
  probe_id probe = feature_id (probe_feature probe) ->
  feature_of caps (probe_feature probe) = zero_feature ->
  wp (read_feature vcpu regs probe caps) (fun res w' =>
    host_only w w' /\ res.1 = 0 /\ caps_ok res.2 /\ same_flags caps res.2 /\
    forall r, feature_of res.2 r =
      if decide (r = probe_feature probe) then offered r else feature_of caps r) w.
Proof using RL Hfd.
  intros Hok Hid Hz. unfold read_feature. rewrite reg_list_contains_spec, Hid.
  set (r := probe_feature probe) in *. unfold offered.
  destruct (bool_decide_reflect (feature_id r ∈ regs)) as [Hin|Hout]; cbn [negb].
  - apply wp_bind. unfold vart_vcpu_get_one_reg. rewrite Hfd. apply wp_bind.
    destruct (rl_value w (feature_id r) 0 Hin) as (err & w' & E & Hho & He). apply wp_ok.
    eexists _, _. split; [exact E|]. apply wp_ret. destruct (Z.ltb_spec err 0); [lia|].
    apply wp_ret. cbn [fst snd]. rewrite feature_of_set, decide_True, Hz by done.
    assert (forall v, caps_ok (set_feature r v caps)) as Hok1
      by (intros; by apply set_feature_ok).
    split_and!; [done|done|by apply set_feature_ok| |].
    { unfold same_flags in *. by destruct (set_feature_flags r (mkFeature true
        (negb (enabled (feature_id r) =? 0))) caps); destruct r. }
    intros r'. rewrite !feature_of_set by done. destruct (decide (r' = r)) as [->|]; [|done].
    by rewrite bool_decide_true.
  - apply wp_ret. split_and!; try done. intros r'. destruct (decide (r' = r)) as [->|]; [|done].
    cbn [snd]. rewrite Hz, bool_decide_false by done. done.
Qed.

Lemma read_features_spec todo caps w : caps_ok caps ->
  Forall (fun probe => probe_id probe = feature_id (probe_feature probe)) todo ->
  NoDup (map probe_feature todo) ->
  (forall r, r ∈ map probe_feature todo -> feature_of caps r = zero_feature) ->
  wp (read_features vcpu regs todo caps) (fun res w' =>
    host_only w w' /\ res.1 = 0 /\ caps_ok res.2 /\ same_flags caps res.2 /\
    forall r, feature_of res.2 r =
      if decide (r ∈ map probe_feature todo) then offered r else feature_of caps r) w.
Proof using RL Hfd.
  revert caps w. induction todo as [|probe todo IH]; intros caps w Hok Hid Hnd Hz; cbn.
  { by apply wp_ret. }
  apply Forall_cons in Hid as [Hid1 Hid]. cbn in Hnd. apply NoDup_cons in Hnd as [Hnew Hnd]. apply wp_bind.
  eapply wp_mono; [apply read_feature_spec; try done; apply Hz; set_solver|].
  intros [err caps1] w1 (Hho & He & Hok1 & Hfl & Hf). cbn [fst snd] in *. subst err.
  change (0 <? 0) with false. cbv iota.
  eapply wp_mono; [apply IH; try done|].
  { intros r Hr. rewrite Hf, decide_False by congruence. apply Hz. set_solver. }
  intros [err caps2] w2 (Hho2 & He & Hok2 & Hfl2 & Hf2). cbn [fst snd] in *.
  split_and!; [by etrans|done|done|unfold same_flags in *; intuition congruence|].
  intros r. rewrite Hf2. destruct (decide (r ∈ map probe_feature todo)) as [Hr|Hr].
  - by rewrite decide_True by set_solver.
  - rewrite Hf. destruct (decide (r = probe_feature probe)).
    + by rewrite decide_True by set_solver.
    + by rewrite decide_False by set_solver.
Qed.
End Contract.

(** A report built by a list of requirements with their bits has the bits of those that are
    not met. *)
Lemma require_fold_bits l r n : 0 <= n ->
  Z.testbit (fold_left (fun r '(met, k) => require met (Z.shiftl 1 (Z.of_nat k)) r) l r) n =
  Z.testbit r n || existsb (fun '(met, k) => negb met && (Z.of_nat k =? n)) l.
Proof.
  intros Hn. revert r. induction l as [|[met k] l IH]; intros r; cbn; [by rewrite orb_false_r|].
  rewrite IH. unfold require. destruct met; cbn; [done|].
  rewrite Z.lor_spec, Z.shiftl_1_l, Z.pow2_bits_eqb by lia.
  rewrite orb_assoc. done.
Qed.

Lemma require_fold_zero l :
  fold_left (fun r '(met, k) => require met (Z.shiftl 1 (Z.of_nat k)) r) l 0 = 0 <->
  Forall (fun x => x.1 = true) l.
Proof.
  split.
  - intros H0. apply Forall_forall. intros [met k] Hin. cbn.
    pose proof (require_fold_bits l 0 (Z.of_nat k) ltac:(lia)) as Hb.
    rewrite H0, Z.bits_0 in Hb. destruct met; [done|]. symmetry in Hb.
    apply not_true_iff_false in Hb. destruct Hb. apply existsb_exists. exists (false, k).
    split; [by apply list_elem_of_In|]. cbn. apply Z.eqb_refl.
  - intros Hl. apply Z.bits_inj'. intros n Hn. rewrite require_fold_bits, Z.bits_0 by done.
    apply not_true_iff_false. intros ([met k] & Hin & Hx)%existsb_exists.
    rewrite Forall_forall in Hl. apply list_elem_of_In, Hl in Hin. cbn in Hin, Hx.
    by rewrite Hin in Hx.
Qed.

Definition kvm_requirements (kvm : VartKvm) (caps : VartRiscvKvmCaps) : list (bool * nat) := [
  (kvm_user_memory kvm, 0%nat); (kvm_one_reg kvm, 1%nat); (kvm_immediate_exit kvm, 2%nat);
  (kvm_mp_state kvm, 3%nat); (caps_reg_list caps, 4%nat); (caps_core_mode caps, 5%nat);
  (caps_timer_frequency caps, 6%nat)].
Definition isa_requirements (caps : VartRiscvKvmCaps) : list (bool * nat) :=
  map (fun f => (usable (feature_of caps (inl f)), isa_index f)) required_isa.
Definition sbi_requirements (caps : VartRiscvKvmCaps) : list (bool * nat) :=
  map (fun f => (usable (feature_of caps (inr f)), sbi_index f)) required_sbi.

(** Everything a guest needs, in terms of the kernel. *)
Definition switched_on (regs : list Z) (enabled : Z -> Z) (id : Z) : Prop :=
  id ∈ regs /\ enabled id <> 0.
Record boot_ready (kvm : VartKvm) (regs : list Z) (enabled : Z -> Z) : Prop := {
  br_memory : kvm_user_memory kvm = true;
  br_one_reg : kvm_one_reg kvm = true;
  br_immediate_exit : kvm_immediate_exit kvm = true;
  br_mp_state : kvm_mp_state kvm = true;
  br_mode : CORE_MODE ∈ regs;
  br_timer : RISCV_REG KVM_REG_RISCV_TIMER 0 ∈ regs;
  br_isa f : f = VART_RISCV_KVM_ISA_I \/ f = VART_RISCV_KVM_ISA_M \/ f = VART_RISCV_KVM_ISA_A ->
    switched_on regs enabled (isa_id f);
  br_sbi f : f = VART_RISCV_KVM_SBI_TIME \/ f = VART_RISCV_KVM_SBI_IPI \/
    f = VART_RISCV_KVM_SBI_RFENCE \/ f = VART_RISCV_KVM_SBI_SRST \/ f = VART_RISCV_KVM_SBI_HSM ->
    switched_on regs enabled (sbi_id f);
}.

(** The bits of a report are the numbers in [l] whose condition holds. *)
Definition bits_say (report : Z) (l : list (Z * Prop)) : Prop :=
  forall n, 0 <= n -> Z.testbit report n = true <-> Exists (fun x => n = x.1 /\ x.2) l.

Definition lacking_kvm (kvm : VartKvm) (regs : list Z) : list (Z * Prop) :=
  [(0, kvm_user_memory kvm = false); (1, kvm_one_reg kvm = false);
   (2, kvm_immediate_exit kvm = false); (3, kvm_mp_state kvm = false);
   (5, CORE_MODE ∉ regs); (6, RISCV_REG KVM_REG_RISCV_TIMER 0 ∉ regs)].
Definition lacking_isa (regs : list Z) (enabled : Z -> Z) : list (Z * Prop) :=
  [(0, ~ switched_on regs enabled (isa_id VART_RISCV_KVM_ISA_I));
   (1, ~ switched_on regs enabled (isa_id VART_RISCV_KVM_ISA_M));
   (2, ~ switched_on regs enabled (isa_id VART_RISCV_KVM_ISA_A))].
Definition lacking_sbi (regs : list Z) (enabled : Z -> Z) : list (Z * Prop) :=
  [(1, ~ switched_on regs enabled (sbi_id VART_RISCV_KVM_SBI_TIME));
   (2, ~ switched_on regs enabled (sbi_id VART_RISCV_KVM_SBI_IPI));
   (3, ~ switched_on regs enabled (sbi_id VART_RISCV_KVM_SBI_RFENCE));
   (4, ~ switched_on regs enabled (sbi_id VART_RISCV_KVM_SBI_SRST));
   (5, ~ switched_on regs enabled (sbi_id VART_RISCV_KVM_SBI_HSM))].

(** Requirements that are met exactly when a condition does not hold, bit by bit. *)
Lemma require_fold_says l (conditions : list (Z * Prop)) :
  Forall2 (fun x y => Z.of_nat x.2 = y.1 /\ (x.1 = false <-> y.2)) l conditions ->
  bits_say (fold_left (fun r '(met, k) => require met (Z.shiftl 1 (Z.of_nat k)) r) l 0) conditions.
Proof.
  intros Hl n Hn. rewrite require_fold_bits, Z.bits_0, orb_false_l by done.
  induction Hl as [|[met k] [bit P] l conditions [Hk Hmet] _ IH]; cbn in *.
  { split; [done|]. by intros ?%Exists_nil. }
  rewrite Exists_cons, orb_true_iff, IH, andb_true_iff, negb_true_iff, Hmet, Z.eqb_eq, Hk. cbn.
  naive_solver.
Qed.

Section Ready.
Context (regs : list Z) (enabled : Z -> Z) (kvm : VartKvm) (caps : VartRiscvKvmCaps).
Hypothesis Hlist : caps_reg_list caps = true.
Hypothesis Hmode : caps_core_mode caps = bool_decide (CORE_MODE ∈ regs).
Hypothesis Htimer : caps_timer_frequency caps =
  bool_decide (RISCV_REG KVM_REG_RISCV_TIMER 0 ∈ regs).
Hypothesis Hfeatures : forall r,
  feature_of caps r = offered (regs := regs) (enabled := enabled) r.

Lemma usable_on r : usable (feature_of caps r) = true <-> switched_on regs enabled (feature_id r).
Proof using Hfeatures.
  rewrite Hfeatures. unfold usable, offered, switched_on. cbn.
  rewrite !andb_true_iff, bool_decide_eq_true, negb_true_iff, Z.eqb_neq. tauto.
Qed.

Lemma unusable_on r :
  usable (feature_of caps r) = false <-> ~ switched_on regs enabled (feature_id r).
Proof using Hfeatures. rewrite <- usable_on. by destruct (usable _). Qed.

Lemma report_bits :
  bits_say (kvm_report kvm caps) (lacking_kvm kvm regs) /\
  bits_say (isa_report caps) (lacking_isa regs enabled) /\
  bits_say (sbi_report caps) (lacking_sbi regs enabled).
Proof using Hlist Hmode Htimer Hfeatures.
  split_and!.
  - assert (kvm_report kvm caps = fold_left (fun r '(met, k) =>
      require met (Z.shiftl 1 (Z.of_nat k)) r)
      [(kvm_user_memory kvm, 0%nat); (kvm_one_reg kvm, 1%nat); (kvm_immediate_exit kvm, 2%nat);
       (kvm_mp_state kvm, 3%nat); (caps_core_mode caps, 5%nat); (caps_timer_frequency caps, 6%nat)] 0)
      as -> by (unfold kvm_report; by rewrite Hlist).
    apply require_fold_says. rewrite Hmode, Htimer. unfold lacking_kvm.
    repeat (constructor; [split; [done|cbn; by rewrite ?bool_decide_eq_false]|]). constructor.
  - apply (require_fold_says (map (fun f => (usable (feature_of caps (inl f)), isa_index f))
      required_isa)).
    repeat (constructor; [split; [done|apply (unusable_on (inl _))]|]). constructor.
  - apply (require_fold_says (map (fun f => (usable (feature_of caps (inr f)), sbi_index f))
      required_sbi)).
    repeat (constructor; [split; [done|apply (unusable_on (inr _))]|]). constructor.
Qed.

Lemma validate_zero : boot_ready kvm regs enabled <->
  kvm_report kvm caps = 0 /\ isa_report caps = 0 /\ sbi_report caps = 0.
Proof using Hlist Hmode Htimer Hfeatures.
  change (kvm_report kvm caps) with (fold_left (fun r '(met, k) =>
    require met (Z.shiftl 1 (Z.of_nat k)) r) (kvm_requirements kvm caps) 0).
  change (isa_report caps) with (fold_left (fun r '(met, k) =>
    require met (Z.shiftl 1 (Z.of_nat k)) r) (isa_requirements caps) 0).
  change (sbi_report caps) with (fold_left (fun r '(met, k) =>
    require met (Z.shiftl 1 (Z.of_nat k)) r) (sbi_requirements caps) 0).
  rewrite !require_fold_zero. unfold kvm_requirements, isa_requirements, sbi_requirements.
  cbn [map required_isa required_sbi]. rewrite !Forall_cons, !Forall_nil. cbn [fst].
  rewrite Hlist, Hmode, Htimer, !bool_decide_eq_true, !usable_on. cbn [feature_id]. split.
  - intros []. split_and!; auto 10.
  - intros Hall. destruct_and!. split; auto; intros f Hf; destruct_or!; by subst.
Qed.
End Ready.

Lemma probe_spec `{RL : RegisterList} p v w caps0 :
  w_vcpus w !! p = Some v -> vcpu_fd v = fd -> w_oom w = [] -> regs <> [] ->
  Z.of_nat (length regs) <= (SIZE_MAX - 8) / 8 ->
  wp (vart_riscv_kvm_probe_vcpu (Some p) (Some caps0)) (fun res w' =>
    host_only w w' /\ match res with
    | (err, Some caps) => err = 0 /\ caps_reg_list caps = true /\
        caps_core_mode caps = bool_decide (CORE_MODE ∈ regs) /\
        caps_timer_frequency caps = bool_decide (RISCV_REG KVM_REG_RISCV_TIMER 0 ∈ regs) /\
        forall r, feature_of caps r = offered (regs := regs) (enabled := enabled) r
    | _ => False
    end) w.
Proof.
  intros Hv Hfd Hoom Hne Hlen. unfold vart_riscv_kvm_probe_vcpu. apply wp_bind.
  eapply wp_load_vcpu; [exact Hv|]. rewrite Hfd. apply wp_bind.
  destruct (rl_count w) as (l & w1 & E & [f1 ->]). apply wp_ok. eexists _, _. split; [exact E|].
  assert (length regs <> 0%nat) by (destruct regs; done).
  cbv beta iota. change ((0 <=? -E2BIG) || negb (-E2BIG =? -E2BIG)) with false. cbn [orb].
  destruct (Z.eqb_spec (Z.of_nat (length regs)) 0); [lia|].
  unfold list_size_overflows. destruct (Z.ltb_spec ((SIZE_MAX - 8) / 8) (Z.of_nat (length regs)));
    [lia|].
  apply wp_bind. unfold allocate. apply wp_bind, wp_get.
  change (w_oom (w <| w_files := f1 |>)) with (w_oom w). rewrite Hoom. apply wp_ret. cbn [negb]. apply wp_bind.
  destruct (rl_list (w <| w_files := f1 |>)) as (err & n' & w2 & E2 & [f2 ->] & He).
  apply wp_ok. eexists _, _. split; [exact E2|]. cbv beta iota zeta.
  destruct (Z.ltb_spec err 0); [lia|].
  apply wp_bind. eapply wp_mono; [apply read_features_spec; try done|].
  - repeat constructor.
  - apply (bool_decide_unpack _). vm_compute. exact I.
  - intros r _. by destruct r as [[]|[]].
  - intros [err' caps] w3 (Hho & He' & _ & (Hl & Hm & Ht) & Hf). cbn [fst snd] in *. subst err'.
    apply wp_ret. split; [by destruct Hho as [f3 ->]; exists f3; destruct w|].
    rewrite Hl, Hm, Ht, !reg_list_contains_spec. split_and!; try done.
    intros r. rewrite Hf, decide_True; [done|]. by destruct r as [[]|[]]; cbn; set_solver.
Qed.

(** C40. The probe of a vCPU followed by the check of the boot contract accepts the machine exactly
    when the kernel offers what a guest needs: memory slots, register access, immediate exits,
    MP states, the mode and timer registers, the extensions I, M and A and the SBI extensions
    TIME, IPI, RFENCE, SRST and HSM, all switched on.  Otherwise the result is [-ENOTSUP] and
    the bits of the three words of the report are those of the features that are missing or
    switched off, each at its documented position.  (The kernel lists at least one register,
    and the memory for the list can be allocated.) *)
Theorem boot_contract_exact `{RL : RegisterList} p v w caps0 kvm report0 :
  w_vcpus w !! p = Some v -> vcpu_fd v = fd -> w_oom w = [] -> regs <> [] ->
  Z.of_nat (length regs) <= (SIZE_MAX - 8) / 8 ->
  exists caps w' r report,
    vart_riscv_kvm_probe_vcpu (Some p) (Some caps0) w = Ok ((0, Some caps), w') /\
    host_only w w' /\
    vart_riscv_kvm_validate_boot (Some kvm) (Some caps) (Some report0) = (r, Some report) /\
    (r = 0 \/ r = -ENOTSUP) /\ (r = 0 <-> boot_ready kvm regs enabled) /\
    bits_say (missing_kvm report) (lacking_kvm kvm regs) /\
    bits_say (missing_isa report) (lacking_isa regs enabled) /\
    bits_say (missing_sbi report) (lacking_sbi regs enabled).
Proof.
  intros Hv Hfd Hoom Hne Hlen.
  destruct (proj1 (wp_ok _ _ _) (probe_spec p v w caps0 Hv Hfd Hoom Hne Hlen))
    as ([err [caps|]] & w' & E & Hho & Hcaps); [|done]. destruct Hcaps as (-> & Hl & Hm & Ht & Hf).
  pose proof (validate_zero regs enabled kvm caps Hl Hm Ht Hf) as Hready.
  eexists caps, w', _, _. split; [exact E|]. split; [done|]. split; [reflexivity|].
  cbn [missing_kvm missing_isa missing_sbi].
  split_and!; [| |by apply (report_bits regs enabled kvm caps Hl Hm Ht Hf)..].
  - destruct (negb _ || _ || _); auto.
  - rewrite Hready. split.
    + intros Hr. destruct (Z.eqb_spec (kvm_report kvm caps) 0), (Z.eqb_spec (isa_report caps) 0),
        (Z.eqb_spec (sbi_report caps) 0); done.
    + by intros (-> & -> & ->).
Qed.

(** * A small kernel *)
Module KvmOpenDemo.
Import VcpuDemo.

Definition open_fds (w : World) : gset Z := list_to_set (KvmDemo.file w 20).
Definition set_fds (s : gset Z) : M World unit := set_file 20 (elements s).
Definition answers (c : Z) : Z := if c =? KVM_CAP_MAX_VCPUS then 512 else 1.

(** The registers this kernel lists: everything a guest needs and no more. *)
Definition listed : list Z :=
  [CORE_MODE; RISCV_REG KVM_REG_RISCV_TIMER 0; isa_id VART_RISCV_KVM_ISA_I;
   isa_id VART_RISCV_KVM_ISA_M; isa_id VART_RISCV_KVM_ISA_A; sbi_id VART_RISCV_KVM_SBI_TIME;
   sbi_id VART_RISCV_KVM_SBI_IPI; sbi_id VART_RISCV_KVM_SBI_RFENCE;
   sbi_id VART_RISCV_KVM_SBI_SRST; sbi_id VART_RISCV_KVM_SBI_HSM].

#[local] Instance system : KvmSystem := {|
  sizeof_kvm_run := 2352;
  open_kvm := let* w := get in
    if decide (9 ∈ open_fds w) then ret (-24) else set_fds ({[9]} ∪ open_fds w) ;;; ret 9;
  ioctl_get_api_version _ := ret KVM_API_VERSION;
  ioctl_get_vcpu_mmap_size _ := ret 12288;
  ioctl_check_extension _ c := ret (answers c);
  ioctl_create_vm _ := ret 5;
  ioctl_test_device _ _ := ret 0;
  big_lock_init := ret 0;
  big_lock_destroy := ret tt;
  close_kvm fd := let* w := get in set_fds (open_fds w ∖ {[fd]});
  ioctl_get_reg_list _ n :=
    if n <? Z.of_nat (length listed) then ret (-E2BIG, Z.of_nat (length listed), [])
    else ret (0, Z.of_nat (length listed), listed);
|}.
#[local] Instance registers : VcpuHost := {|
  ioctl_create_vcpu := ioctl_create_vcpu; map_run_page := map_run_page;
  unmap_run_page := unmap_run_page; close_vcpu := close_vcpu;
  ioctl_get_one_reg _ _ _ := ret (0, 1);
  ioctl_set_one_reg := ioctl_set_one_reg; ioctl_get_mp_state := ioctl_get_mp_state;
  ioctl_set_mp_state := ioctl_set_mp_state; ioctl_run := ioctl_run;
  thread_block_kick := thread_block_kick; install_kick_signal := install_kick_signal;
  thread_create := thread_create; thread_kick := thread_kick; thread_join := thread_join;
|}.

Lemma open_fds_set s w : open_fds (w <| w_files ::= <[20 := elements s]> |>) = s.
Proof.
  unfold open_fds, KvmDemo.file. cbn. rewrite lookup_insert_eq. cbn. apply list_to_set_elements_L.
Qed.

#[local] Instance kernel : KvmKernel open_fds answers.
Proof.
  split.
  - intros w w' Hf. unfold open_fds, KvmDemo.file. by rewrite Hf.
  - intros w. unfold open_kvm, system. unfold bind, get at 1. cbn -[open_fds set_fds].
    destruct (decide (9 ∈ open_fds w)).
    + eexists _, _. split; [reflexivity|]. by split; [apply host_only_refl|].
    + eexists _, _. split; [reflexivity|]. split; [by eexists|]. cbn. split; [done|].
      apply open_fds_set.
  - intros. eexists _, _. split; [reflexivity|]. by split; [apply host_only_refl|].
  - intros. eexists _, _. split; [reflexivity|]. by split; [apply host_only_refl|].
  - intros. eexists. split; [reflexivity|]. by split; [apply host_only_refl|].
  - intros w fd. eexists. split; [reflexivity|]. split; [by eexists|]. apply open_fds_set.
Qed.

#[local] Instance register_list : RegisterList 8 listed (fun _ => 1).
Proof.
  split.
  - intros w. eexists _, w. split; [reflexivity|apply host_only_refl].
  - intros w. eexists _, _, w. split; [reflexivity|]. by split; [apply host_only_refl|].
  - intros w id old _. eexists _, w. split; [reflexivity|]. by split; [apply host_only_refl|].
Qed.

Definition kvm_at : ptr := 1%positive.

Lemma kvm_open_or_nothing_witness :
  exists err w' kvm, vart_kvm_open kvm_at v0 = Ok (err, w') /\ err = 0 /\
    kvm_fd kvm = 9 /\ w_kvms w' !! kvm_at = Some kvm /\ open_fds w' = {[9]}.
Proof.
  destruct (kvm_open_or_nothing (fds := open_fds) (answer := answers) kvm_at v0)
    as (err & w' & kvm & E & H).
  assert (err = 0) as ->.
  { assert (match vart_kvm_open kvm_at v0 with Ok (r, _) => r = 0 | _ => False end)
      by (vm_compute; reflexivity).
    by rewrite E in *. }
  destruct H as (_ & Hk & (Hw & Hf & _) & _).
  assert (match vart_kvm_open kvm_at v0 with
    Ok (_, w) => kvm_fd <$> (w_kvms w !! kvm_at) = Some 9 | _ => False end) as H9
    by (vm_compute; reflexivity).
  rewrite E in H9. cbv beta iota in H9. rewrite Hw in H9. injection H9 as H9. rewrite H9 in Hf.
  exists 0, w', kvm. split_and!; [done|done|done|done|]. rewrite Hf. vm_compute. reflexivity.
Defined.

(** Hart 1 of [VcpuDemo] on this kernel: the machine is accepted. *)
Lemma boot_contract_exact_witness :
  exists caps w' r report,
    vart_riscv_kvm_probe_vcpu (Some hart1) (Some zero_caps) v0 = Ok ((0, Some caps), w') /\
    vart_riscv_kvm_validate_boot (Some (opened_handle answers 9 12288)) (Some caps)
      (Some (mkReport 0 0 0)) = (r, Some report) /\ r = 0.
Proof.
  destruct (boot_contract_exact (regs := listed) (enabled := fun _ => 1) hart1 vcpu1 v0 zero_caps
    (opened_handle answers 9 12288) (mkReport 0 0 0))
    as (caps & w' & r & report & E & _ & Ev & _ & [_ Hr] & _);
    [reflexivity|reflexivity|reflexivity|done|vm_compute; congruence|].
  exists caps, w', r, report. split_and!; [done|done|]. apply Hr.
  split; try reflexivity; try (apply (bool_decide_unpack _); vm_compute; exact I);
    intros f Hf; (split; [|done]); destruct_or!; subst;
    apply (bool_decide_unpack _); vm_compute; exact I.
Defined.
End KvmOpenDemo.
