(* ===== verification/VirtMachine.v ===== *)
(** The board: [src/machine/virt-machine.c].

    The board creates its components one after the other, wires them up and, when a step
    fails or the machine goes away, takes them down again.  The operations it calls are
    those of the other files; here they are the constructors of [call], so that the board is
    a client of an interface, [Components], and its calls and their answers are put on record.
    An object is due from the call that created it until the call that gives it back is made;
    [allowed] says what must be due, and what must not, when a call is made.  The theorems:
    whatever the calls answer, every call is in order, and for every object the call that
    gives it back is made, when the creation fails at any step and when the machine is
    destroyed.  What a component does with such a call is the subject of the other files. *)

From Stdlib Require Import ZArith Lia.
From stdpp Require Import base tactics numbers list gmap.
From S2P Require Import Prelude Bytes Machine.

Abbreviation VART_VIRT_MAX_CPUS := 512%nat (only parsing).
Abbreviation VART_VIRT_PCIE_IRQ_BASE := 32 (only parsing).

(** * What the board consists of *)

(** The devices of the board; the switch has an upstream port and two downstream ports. *)
Inductive part := PPcie | PIommu | PUpstream | PPort (n : nat) | PBlk | PNet | PUart | PTest.
(** The virtio functions. *)
Inductive virtio := Blk | Net.
Inductive pci_bus_ref := RootBus | SwitchBus | PortBus (n : nat).
#[export] Instance part_eq_dec : EqDecision part.
Proof. solve_decision. Defined.
#[export] Instance virtio_eq_dec : EqDecision virtio.
Proof. solve_decision. Defined.
#[export] Instance pci_bus_ref_eq_dec : EqDecision pci_bus_ref.
Proof. solve_decision. Defined.
Definition part_of (f : virtio) : part := match f with Blk => PBlk | Net => PNet end.

(** The calls of [virt-machine.c], with the arguments that vary.  The last four read a field
    of a component: whether a device is on a bus, whether the thread of a vCPU was created
    and not joined, the number of downstream ports, and [kvm->irqfd]. *)
Inductive call :=
| address_space_init | bus_init | bus_destroy | address_space_destroy
| vm_create | vm_destroy
| memory_create (size : Z) | memory_register | memory_map | memory_unmap | memory_unregister
| memory_destroy
| calloc_vcpus (count : nat) | free_vcpus
| vcpu_create (i : nat) | vcpu_destroy (i : nat) | vcpu_init_boot (i : nat)
| vcpu_start (i : nat) | vcpu_join (i : nat) | vcpu_request_stop (i : nat)
| aia_create | aia_init_aplic (count : nat) | aia_connect_uart | aia_destroy
| routing_init | routing_destroy
| root_complex_init | root_complex_destroy
| iommu_init | iommu_destroy
| switch_init | switch_destroy
| blk_init (path : list Z) (readonly : bool)
| net_init (mac : list Z) | net_open_tap (name : list Z) | net_attach_backend (fd : Z)
| virtio_destroy (f : virtio)
| irqfd_init (f : virtio) (first_gsi : Z) | irqfd_destroy (f : virtio)
| connect_msix_aia (f : virtio)
| context_init (f : virtio) | context_destroy (f : virtio)
| iommu_bind (f : virtio) | iommu_unbind (f : virtio)
| uart_init | uart_connect_irq | test_device_init
| bus_add (p : part) | bus_remove (p : part)
| pci_add (b : pci_bus_ref) (p : part) (devfn : Z) | pci_remove (p : part)
| realize (p : part) | unrealize (p : part)
| execution_init
| get_on_bus (p : part) | get_thread_live (i : nat) | get_port_count | get_kvm_irqfd.

(** A component call; a negative result is an error. *)
Class Components (W : Type) := perform : call -> M W Z.

(** [VartVirtMachineConfig] without the callback of the UART. *)
Record VartVirtMachineConfig := mkConfig {
  cfg_ram_size : Z;
  cfg_vcpu_count : nat;
  cfg_enable_test_device : bool;
  cfg_virtio_blk_path : option (list Z);
  cfg_virtio_blk_readonly : bool;
  cfg_enable_virtio_net : bool;
  cfg_enable_pcie_switch : bool;
  cfg_enable_riscv_iommu : bool;
  cfg_virtio_net_tap : option (list Z);
  cfg_virtio_net_backend_valid : bool;
  cfg_virtio_net_backend_fd : Z;
}.

(** [VartVirtMachine]: the components are behind the calls, so that its flags and counts are
    left; [m_vcpu_array] says that [vcpus] is not [NULL]. *)
Record VartVirtMachine := mkMachine {
  m_vcpu_array : bool;
  m_vcpu_count : nat;
  m_vcpus_created : nat;
  m_vm_created : bool;
  m_ram_created : bool;
  m_ram_registered : bool;
  m_ram_mapped : bool;
  m_address_space_initialized : bool;
  m_aia_created : bool;
  m_pcie_initialized : bool;
  m_riscv_iommu_initialized : bool;
  m_enable_riscv_iommu : bool;
  m_blk_context_initialized : bool;
  m_net_context_initialized : bool;
  m_pcie_switch_initialized : bool;
  m_uart_initialized : bool;
  m_test_device_initialized : bool;
  m_virtio_blk_initialized : bool;
  m_irq_routing_initialized : bool;
  m_blk_irqfd_initialized : bool;
  m_virtio_net_initialized : bool;
  m_net_irqfd_initialized : bool;
  m_initialized : bool;
}.
#[export] Instance VartVirtMachine_rebuild : Rebuild VartVirtMachine :=
  env_const mkMachine $* m_vcpu_array $* m_vcpu_count $* m_vcpus_created $* m_vm_created
    $* m_ram_created $* m_ram_registered $* m_ram_mapped $* m_address_space_initialized
    $* m_aia_created $* m_pcie_initialized $* m_riscv_iommu_initialized
    $* m_enable_riscv_iommu $* m_blk_context_initialized $* m_net_context_initialized
    $* m_pcie_switch_initialized $* m_uart_initialized $* m_test_device_initialized
    $* m_virtio_blk_initialized $* m_irq_routing_initialized $* m_blk_irqfd_initialized
    $* m_virtio_net_initialized $* m_net_irqfd_initialized $* m_initialized.
Definition zero_machine : VartVirtMachine :=
  mkMachine false 0 0 false false false false false false false false false false false false
    false false false false false false false false.

(** The fields of a virtio function. *)
Definition virtio_flag (m : VartVirtMachine) (f : virtio) : bool :=
  match f with Blk => m_virtio_blk_initialized m | Net => m_virtio_net_initialized m end.
Definition irqfd_flag (m : VartVirtMachine) (f : virtio) : bool :=
  match f with Blk => m_blk_irqfd_initialized m | Net => m_net_irqfd_initialized m end.
Definition context_flag (m : VartVirtMachine) (f : virtio) : bool :=
  match f with Blk => m_blk_context_initialized m | Net => m_net_context_initialized m end.
Definition set_virtio (f : virtio) (b : bool) (m : VartVirtMachine) : VartVirtMachine :=
  match f with
  | Blk => m <| m_virtio_blk_initialized := b |>
  | Net => m <| m_virtio_net_initialized := b |>
  end.
Definition set_irqfd (f : virtio) (b : bool) (m : VartVirtMachine) : VartVirtMachine :=
  match f with
  | Blk => m <| m_blk_irqfd_initialized := b |>
  | Net => m <| m_net_irqfd_initialized := b |>
  end.
Definition set_context (f : virtio) (b : bool) (m : VartVirtMachine) : VartVirtMachine :=
  match f with
  | Blk => m <| m_blk_context_initialized := b |>
  | Net => m <| m_net_context_initialized := b |>
  end.

(** * The code *)

Section Board.
Context {W : Type} `{Components W}.
Implicit Type m : VartVirtMachine.

(** [ret = c; if (ret < 0) return ret;] *)
Definition attempt (c : call) (m : VartVirtMachine) (k : M W (Z * VartVirtMachine))
    : M W (Z * VartVirtMachine) :=
  let* err := perform c in
  if err <? 0 then ret (err, m) else k.

(** The parts of [add_devices], each of which may end it. *)
Definition next_part (r : M W (Z * VartVirtMachine))
    (k : VartVirtMachine -> M W (Z * VartVirtMachine)) : M W (Z * VartVirtMachine) :=
  let* (err, m) := r in
  if err <? 0 then ret (err, m) else k m.

Definition add_root_complex m : M W (Z * VartVirtMachine) :=
  attempt root_complex_init m (
  let m := m <| m_pcie_initialized := true |> in
  attempt (bus_add PPcie) m (
  attempt (realize PPcie) m (ret (0, m)))).

Definition add_riscv_iommu (config : VartVirtMachineConfig) m : M W (Z * VartVirtMachine) :=
  if cfg_enable_riscv_iommu config then
    attempt iommu_init m (
    let m := m <| m_riscv_iommu_initialized := true |> in
    attempt (pci_add RootBus PIommu 0) m (ret (0, m)))
  else ret (0, m).

Definition add_switch (config : VartVirtMachineConfig) m : M W (Z * VartVirtMachine) :=
  if cfg_enable_pcie_switch config then
    attempt switch_init m (
    let m := m <| m_pcie_switch_initialized := true |> in
    attempt (pci_add RootBus PUpstream 8) m (
    attempt (realize PUpstream) m (
    attempt (pci_add SwitchBus (PPort 0) 0) m (
    attempt (pci_add SwitchBus (PPort 1) 8) m (
    attempt (realize (PPort 0)) m (
    attempt (realize (PPort 1)) m (ret (0, m))))))))
  else ret (0, m).

(** The buses and slots of the virtio functions. *)
Definition has_blk (config : VartVirtMachineConfig) : bool :=
  match cfg_virtio_blk_path config with Some _ => true | None => false end.
Definition virtio_bus (config : VartVirtMachineConfig) (f : virtio) : pci_bus_ref :=
  if cfg_enable_pcie_switch config then
    match f with
    | Blk => PortBus 0
    | Net => if has_blk config then PortBus 1 else PortBus 0
    end
  else RootBus.
Definition virtio_devfn (config : VartVirtMachineConfig) (f : virtio) : Z :=
  match f with
  | Blk => if cfg_enable_riscv_iommu config && bool_decide (virtio_bus config Blk = RootBus)
           then 1 else 0
  | Net => 0
  end.

(** The interrupts, the slot, the IOMMU context and the realization of a virtio function,
    which the code has twice. *)
Definition connect_virtio (config : VartVirtMachineConfig) (f : virtio) (first_gsi : Z) m
    : M W (Z * VartVirtMachine) :=
  next_part
    (let* irqfd := if m_irq_routing_initialized m then perform get_kvm_irqfd else ret 0 in
     if negb (irqfd =? 0) then
       attempt (irqfd_init f first_gsi) m (ret (0, set_irqfd f true m))
     else attempt (connect_msix_aia f) m (ret (0, m)))
    (fun m =>
  attempt (pci_add (virtio_bus config f) (part_of f) (virtio_devfn config f)) m (
  next_part
    (if cfg_enable_riscv_iommu config then
       attempt (context_init f) m (
       let m := set_context f true m in
       attempt (iommu_bind f) m (ret (0, m)))
     else ret (0, m))
    (fun m => attempt (realize (part_of f)) m (ret (0, m))))).

Definition add_blk (config : VartVirtMachineConfig) m : M W (Z * VartVirtMachine) :=
  match cfg_virtio_blk_path config with
  | Some path =>
      attempt (blk_init path (cfg_virtio_blk_readonly config)) m (
      connect_virtio config Blk VART_VIRT_PCIE_IRQ_BASE (set_virtio Blk true m))
  | None => ret (0, m)
  end.

Definition net_mac : list Z := [0x52; 0x54; 0x00; 0x12; 0x34; 0x57].

Definition add_net (config : VartVirtMachineConfig) m : M W (Z * VartVirtMachine) :=
  match cfg_enable_virtio_net config, cfg_virtio_net_tap config with
  | false, None => ret (0, m)
  | _, tap =>
      if bool_decide (is_Some tap) && cfg_virtio_net_backend_valid config
      then ret (-EINVAL, m)
      else
        attempt (net_init net_mac) m (
        let m := set_virtio Net true m in
        next_part
          match tap with
          | Some name => attempt (net_open_tap name) m (ret (0, m))
          | None =>
              if cfg_virtio_net_backend_valid config
              then attempt (net_attach_backend (cfg_virtio_net_backend_fd config)) m (ret (0, m))
              else ret (0, m)
          end
          (connect_virtio config Net (VART_VIRT_PCIE_IRQ_BASE + 4)))
  end.

Definition add_console_uart m : M W (Z * VartVirtMachine) :=
  attempt uart_init m (
  let m := m <| m_uart_initialized := true |> in
  attempt uart_connect_irq m (
  attempt (bus_add PUart) m (
  attempt (realize PUart) m (ret (0, m))))).

Definition add_test_device m : M W (Z * VartVirtMachine) :=
  attempt test_device_init m (
  let m := m <| m_test_device_initialized := true |> in
  attempt (bus_add PTest) m (
  let* err := perform (realize PTest) in ret (err, m))).

Definition add_devices (config : VartVirtMachineConfig) m : M W (Z * VartVirtMachine) :=
  next_part (add_root_complex m) (fun m =>
  next_part (add_riscv_iommu config m) (fun m =>
  next_part (add_switch config m) (fun m =>
  next_part (add_blk config m) (fun m =>
  next_part (add_net config m) (fun m =>
  next_part (add_console_uart m) (fun m =>
  next_part
    (if cfg_enable_riscv_iommu config then attempt (realize PIommu) m (ret (0, m))
     else ret (0, m))
    (fun m => if cfg_enable_test_device config then add_test_device m else ret (0, m)))))))).

(** [vart_virt_machine_destroy] *)

(** [for (i = first; i < first + n; i++)] over calls whose results are not looked at. *)
Fixpoint each (first n : nat) (body : nat -> M W unit) : M W unit :=
  match n with
  | O => ret tt
  | S n => body first ;;; each (S first) n body
  end.
Definition run (c : call) : M W unit := let* _ := perform c in ret tt.
Definition when (b : bool) (body : M W unit) : M W unit := if b then body else ret tt.
Definition when_live (i : nat) (c : call) : M W unit :=
  let* live := perform (get_thread_live i) in when (negb (live =? 0)) (run c).

Definition remove_plain (p : part) : M W unit :=
  run (unrealize p) ;;;
  let* attached := perform (get_on_bus p) in
  when (negb (attached =? 0)) (run (bus_remove p)).
Definition remove_function (p : part) : M W unit :=
  run (unrealize p) ;;;
  let* attached := perform (get_on_bus p) in
  when (negb (attached =? 0)) (run (pci_remove p)).
Definition destroy_virtio m (f : virtio) : M W unit :=
  when (virtio_flag m f) (
    when (context_flag m f) (run (iommu_unbind f) ;;; run (context_destroy f)) ;;;
    when (irqfd_flag m f) (run (irqfd_destroy f)) ;;;
    remove_function (part_of f) ;;;
    run (virtio_destroy f)).
Definition destroy_switch m : M W unit :=
  when (m_pcie_switch_initialized m) (
    let* count := perform get_port_count in
    each 0 (Z.to_nat count) (fun i => remove_function (PPort i)) ;;;
    remove_function PUpstream ;;;
    run switch_destroy).

Definition stop_vcpus m : M W unit :=
  each 0 (m_vcpus_created m) (fun i => when_live i (vcpu_request_stop i)) ;;;
  each 0 (m_vcpus_created m) (fun i => when_live i (vcpu_join i)).
Definition destroy_devices m : M W unit :=
  when (m_test_device_initialized m) (remove_plain PTest) ;;;
  when (m_uart_initialized m) (remove_plain PUart) ;;;
  destroy_virtio m Blk ;;;
  destroy_virtio m Net ;;;
  when (m_riscv_iommu_initialized m) (remove_function PIommu ;;; run iommu_destroy) ;;;
  destroy_switch m ;;;
  when (m_irq_routing_initialized m) (run routing_destroy) ;;;
  when (m_pcie_initialized m) (run root_complex_destroy).
Definition destroy_machine m : M W unit :=
  when (m_ram_mapped m) (run memory_unmap) ;;;
  when (m_address_space_initialized m) (run bus_destroy ;;; run address_space_destroy) ;;;
  when (m_aia_created m) (run aia_destroy) ;;;
  each 0 (m_vcpus_created m) (fun i => run (vcpu_destroy i)) ;;;
  run free_vcpus ;;;
  when (m_ram_registered m) (run memory_unregister) ;;;
  when (m_ram_created m) (run memory_destroy) ;;;
  when (m_vm_created m) (run vm_destroy).

Definition vart_virt_machine_destroy m : M W VartVirtMachine :=
  stop_vcpus m ;;; destroy_devices m ;;; destroy_machine m ;;; ret zero_machine.

(** [vart_virt_machine_create]: [goto fail] ends the steps with an error. *)
Fixpoint create_vcpus (n : nat) m : M W (Z * VartVirtMachine) :=
  match n with
  | O => ret (0, m)
  | S n => attempt (vcpu_create (m_vcpus_created m)) m
             (create_vcpus n (m <| m_vcpus_created ::= S |>))
  end.

Definition create_memory (config : VartVirtMachineConfig) m : M W (Z * VartVirtMachine) :=
  attempt vm_create m (
  let m := m <| m_vm_created := true |> in
  attempt (memory_create (cfg_ram_size config)) m (
  let m := m <| m_ram_created := true |> in
  attempt memory_register m (
  let m := m <| m_ram_registered := true |> in
  attempt memory_map m (ret (0, m <| m_ram_mapped := true |>))))).

Definition create_cpus (config : VartVirtMachineConfig) m : M W (Z * VartVirtMachine) :=
  attempt (calloc_vcpus (cfg_vcpu_count config)) m (
  create_vcpus (cfg_vcpu_count config)
    (m <| m_vcpu_array := true |> <| m_vcpu_count := cfg_vcpu_count config |>)).

(** [vart_kvm_irq_routing_init] gives 0 or a negative result. *)
Definition create_interrupts m : M W (Z * VartVirtMachine) :=
  attempt aia_create m (
  let m := m <| m_aia_created := true |> in
  attempt (aia_init_aplic (m_vcpu_count m)) m (
  let* err := perform routing_init in
  if negb (err =? 0) && negb (err =? -ENOTSUP) then ret (err, m)
  else
    let m := if err =? 0 then m <| m_irq_routing_initialized := true |> else m in
    attempt aia_connect_uart m (ret (0, m)))).

Definition create_steps (config : VartVirtMachineConfig) m : M W (Z * VartVirtMachine) :=
  next_part (create_memory config m) (fun m =>
  next_part (create_cpus config m) (fun m =>
  next_part (create_interrupts m) (fun m =>
  next_part (add_devices config m) (fun m =>
  run execution_init ;;; ret (0, m <| m_initialized := true |>))))).

(** The pointers and [kvm->fd] are the caller's; [None] stands for a [NULL] machine, KVM
    handle or configuration or a closed handle. *)
Definition vart_virt_machine_create (machine : VartVirtMachine)
    (config : option VartVirtMachineConfig) : M W (Z * VartVirtMachine) :=
  match config with
  | None => ret (-EINVAL, machine)
  | Some config =>
      if (cfg_ram_size config =? 0) || (cfg_vcpu_count config =? 0)%nat ||
         (VART_VIRT_MAX_CPUS <? cfg_vcpu_count config)%nat
      then ret (-EINVAL, machine)
      else
        let m := zero_machine <| m_enable_riscv_iommu := cfg_enable_riscv_iommu config |> in
        run address_space_init ;;; run bus_init ;;;
        let m := m <| m_address_space_initialized := true |> in
        let* (err, m) := create_steps config m in
        if err <? 0 then let* m := vart_virt_machine_destroy m in ret (err, m)
        else ret (0, m)
  end.

Fixpoint init_boot_loop (i n : nat) : M W Z :=
  match n with
  | O => ret 0
  | S n => let* err := perform (vcpu_init_boot i) in
           if err <? 0 then ret err else init_boot_loop (S i) n
  end.
Definition vart_virt_machine_init_boot m (boot : bool) : M W Z :=
  if negb (m_initialized m) || negb boot then ret (-EINVAL)
  else init_boot_loop 0 (m_vcpu_count m).

(** [while (i > 0) { i--; ... }] *)
Fixpoint stop_started (i : nat) : M W unit :=
  match i with
  | O => ret tt
  | S i => run (vcpu_request_stop i) ;;; stop_started i
  end.
Fixpoint start_loop (i n : nat) : M W Z :=
  match n with
  | O => ret 0
  | S n => let* err := perform (vcpu_start i) in
           if err <? 0 then stop_started i ;;; ret err else start_loop (S i) n
  end.
Definition vart_virt_machine_start m (handler : bool) : M W Z :=
  if negb (m_initialized m) || negb handler then ret (-EINVAL)
  else start_loop 0 (m_vcpu_count m).

Fixpoint join_loop (i n : nat) (result : Z) : M W Z :=
  match n with
  | O => ret result
  | S n => let* err := perform (vcpu_join i) in
           join_loop (S i) n (if (result =? 0) && negb (err =? 0) then err else result)
  end.
Definition vart_virt_machine_join m : M W Z :=
  if negb (m_initialized m) then ret (-EINVAL) else join_loop 0 (m_vcpu_count m) 0.
End Board.

(** * The interface of the components *)

(** What the board has to give back.  [RSlot p] says that a device is on a bus,
    [RPlace p b devfn] in which slot of which PCI bus, [RRealized p] that it is realized and
    [RBound f] that a function is bound to the IOMMU; [RAddressSpace] stands for the system bus
    as well. *)
Inductive resource :=
| RAddressSpace | RVm | RRam | RRamSlot | RRamMap | RVcpuArray | RVcpu (i : nat)
| RThread (i : nat) | RAia | RRouting | RPcie | RIommu | RSwitch
| RVirtio (f : virtio) | RIrqfd (f : virtio) | RContext (f : virtio) | RBound (f : virtio)
| RSlot (p : part) | RPlace (p : part) (b : pci_bus_ref) (devfn : Z) | RRealized (p : part).
#[export] Instance resource_eq_dec : EqDecision resource.
Proof. solve_decision. Defined.

Definition holdings : Type := resource -> bool.
Definition only (r0 r : resource) : bool := bool_decide (r = r0).

(** The object a device is part of; the UART and the test device are part of the machine. *)
Definition owner (p : part) : option resource :=
  match p with
  | PPcie => Some RPcie
  | PIommu => Some RIommu
  | PUpstream | PPort _ => Some RSwitch
  | PBlk => Some (RVirtio Blk)
  | PNet => Some (RVirtio Net)
  | PUart | PTest => None
  end.
Definition owned (p : part) (h : holdings) : Prop :=
  match owner p with Some r => h r = true | None => True end.
Definition bus_owner (b : pci_bus_ref) : resource :=
  match b with RootBus => RPcie | SwitchBus | PortBus _ => RSwitch end.
(** The ports of the switch, and the functions that may be behind them. *)
Definition behind_switch (p : part) : bool :=
  match p with PUpstream | PPort _ | PBlk | PNet => true | _ => false end.
(** The devices that are on a PCI bus. *)
Definition pci_part (p : part) : bool :=
  match p with PIommu | PUpstream | PPort _ | PBlk | PNet => true | _ => false end.

(** The objects that a call creates, when it succeeds. *)
Definition created (c : call) : list resource :=
  match c with
  | address_space_init => [RAddressSpace]
  | vm_create => [RVm]
  | memory_create _ => [RRam]
  | memory_register => [RRamSlot]
  | memory_map => [RRamMap]
  | calloc_vcpus _ => [RVcpuArray]
  | vcpu_create i => [RVcpu i]
  | vcpu_start i => [RThread i]
  | aia_create => [RAia]
  | routing_init => [RRouting]
  | root_complex_init => [RPcie]
  | iommu_init => [RIommu]
  | switch_init => [RSwitch]
  | blk_init _ _ => [RVirtio Blk]
  | net_init _ => [RVirtio Net]
  | irqfd_init f _ => [RIrqfd f]
  | context_init f => [RContext f]
  | iommu_bind f => [RBound f]
  | bus_add p => [RSlot p]
  | pci_add b p devfn => [RSlot p; RPlace p b devfn]
  | realize p => [RRealized p]
  | _ => []
  end.
Fixpoint one_of (l : list resource) : resource -> bool :=
  match l with
  | [] => fun _ => false
  | [r0] => only r0
  | r0 :: l => fun r => only r0 r || one_of l r
  end.
Definition creates (c : call) : resource -> bool := one_of (created c).
(** The objects that a call gives back; the root complex leaves its bus by itself. *)
Definition destroys (c : call) : resource -> bool :=
  match c with
  | address_space_destroy => only RAddressSpace
  | vm_destroy => only RVm
  | memory_unmap => only RRamMap
  | memory_unregister => only RRamSlot
  | memory_destroy => only RRam
  | free_vcpus => only RVcpuArray
  | vcpu_destroy i => only (RVcpu i)
  | vcpu_join i => only (RThread i)
  | aia_destroy => only RAia
  | routing_destroy => only RRouting
  | root_complex_destroy => fun r =>
      only RPcie r || only (RSlot PPcie) r || only (RRealized PPcie) r
  | iommu_destroy => only RIommu
  | switch_destroy => only RSwitch
  | virtio_destroy f => only (RVirtio f)
  | irqfd_destroy f => only (RIrqfd f)
  | context_destroy f => only (RContext f)
  | iommu_unbind f => only (RBound f)
  | bus_remove p => only (RSlot p)
  | pci_remove p => fun r => only (RSlot p) r ||
      match r with RPlace p' _ _ => bool_decide (p' = p) | _ => false end
  | unrealize p => only (RRealized p)
  | _ => fun _ => false
  end.
(** An object is due from the call that created it, when that succeeded, until the call that
    gives it back is made. *)
Definition account (c : call) (result : Z) (h : holdings) : holdings :=
  fun r => negb (destroys c r) && h r || (0 <=? result) && creates c r.

(** What a call works on, and what must not be there any more when it takes something
    down. *)
Definition allowed (c : call) (h : holdings) : Prop :=
  match c with
  | address_space_init => h RAddressSpace = false
  | bus_init => h RAddressSpace = true
  | bus_destroy => h RAddressSpace = true /\ forall p, h (RSlot p) = false
  | address_space_destroy => h RAddressSpace = true /\ h RRamMap = false /\ h RPcie = false /\
      h RIommu = false /\ (forall f, h (RVirtio f) = false) /\ forall p, h (RRealized p) = false
  | vm_create => h RVm = false
  | vm_destroy => h RVm = true /\ h RRamSlot = false /\ h RAia = false /\ h RRouting = false /\
      forall i, h (RVcpu i) = false
  | memory_create _ => h RRam = false
  | memory_register => h RRam = true /\ h RVm = true /\ h RRamSlot = false
  | memory_map => h RRam = true /\ h RAddressSpace = true /\ h RRamMap = false
  | memory_unmap => h RRamMap = true /\ h RAddressSpace = true
  | memory_unregister => h RRamSlot = true /\ h RVm = true
  | memory_destroy => h RRam = true /\ h RRamSlot = false /\ h RRamMap = false
  | calloc_vcpus _ => h RVcpuArray = false
  | free_vcpus => forall i, h (RVcpu i) = false
  | vcpu_create i => h RVm = true /\ h RVcpuArray = true /\ h (RVcpu i) = false
  | vcpu_destroy i => h (RVcpu i) = true /\ h (RThread i) = false /\ h RVm = true
  | vcpu_init_boot i | vcpu_start i | vcpu_join i | vcpu_request_stop i | get_thread_live i =>
      h (RVcpu i) = true
  | aia_create => h RVm = true /\ h RAia = false
  | aia_init_aplic _ | aia_connect_uart => h RAia = true
  | aia_destroy => h RAia = true /\ (forall f, h (RVirtio f) = false) /\
      h (RRealized PUart) = false
  | routing_init => h RVm = true /\ h RRouting = false
  | routing_destroy => h RRouting = true /\ forall f, h (RIrqfd f) = false
  | root_complex_init => h RAddressSpace = true /\ h RPcie = false
  | root_complex_destroy => h RPcie = true /\ h RSwitch = false /\
      forall p, pci_part p = true -> h (RSlot p) = false
  | iommu_init => h RAddressSpace = true /\ h RIommu = false
  | iommu_destroy => h RIommu = true /\ h (RSlot PIommu) = false /\
      h (RRealized PIommu) = false /\ (forall f, h (RContext f) = false) /\
      forall f, h (RBound f) = false
  | switch_init => h RPcie = true /\ h RSwitch = false
  | switch_destroy => h RSwitch = true /\
      (forall p, behind_switch p = true -> h (RSlot p) = false) /\
      forall p, behind_switch p = true -> h (RRealized p) = false
  | blk_init _ _ => h RAddressSpace = true /\ h (RVirtio Blk) = false
  | net_init _ => h RAddressSpace = true /\ h (RVirtio Net) = false
  | net_open_tap _ | net_attach_backend _ => h (RVirtio Net) = true
  | virtio_destroy f => h (RVirtio f) = true /\ h (RIrqfd f) = false /\ h (RContext f) = false /\
      h (RBound f) = false /\ h (RSlot (part_of f)) = false /\ h (RRealized (part_of f)) = false
  | irqfd_init f _ => h (RVirtio f) = true /\ h RRouting = true /\ h (RIrqfd f) = false
  | irqfd_destroy f => h (RIrqfd f) = true /\ h RRouting = true /\ h (RVirtio f) = true
  | connect_msix_aia f => h (RVirtio f) = true /\ h RAia = true
  | context_init f => h RAddressSpace = true /\ h (RContext f) = false
  | context_destroy f => h (RContext f) = true /\ h (RBound f) = false
  | iommu_bind f => h RIommu = true /\ h (RVirtio f) = true /\ h (RContext f) = true /\
      h (RBound f) = false /\ h (RSlot (part_of f)) = true /\ h (RRealized (part_of f)) = false
  | iommu_unbind f => h RIommu = true /\ h (RVirtio f) = true /\ h (RContext f) = true
  | uart_init | test_device_init | execution_init => h RAddressSpace = true
  | uart_connect_irq => h RAia = true
  | bus_add p => h RAddressSpace = true /\ owned p h /\ h (RSlot p) = false
  | bus_remove p => h RAddressSpace = true /\ owned p h /\ h (RRealized p) = false
  | pci_add b p _ => h (bus_owner b) = true /\ owned p h /\ h (RSlot p) = false
  | pci_remove p => h RPcie = true /\ owned p h /\ h (RRealized p) = false /\
      (p = PIommu -> h (RSlot PBlk) = false /\ h (RSlot PNet) = false)
  | realize p => owned p h /\ h (RSlot p) = true /\ h (RRealized p) = false
  | unrealize p | get_on_bus p => owned p h
  | get_port_count => h RSwitch = true
  | get_kvm_irqfd => h RVm = true
  end.

(** What is known of a result.  A slot of a PCI bus that is taken is refused; a device that was
    put on a bus and not taken from it is on a bus, and a thread that was started and not
    joined is live; the switch is created with two ports. *)
Definition answers (c : call) (result : Z) (h : holdings) : Prop :=
  match c with
  | get_on_bus p => h (RSlot p) = true -> result <> 0
  | get_thread_live i => h (RThread i) = true -> result <> 0
  | get_port_count => result = 2
  | pci_add b _ devfn => (exists p, h (RPlace p b devfn) = true) -> result < 0
  | routing_init => result <= 0
  | address_space_init => 0 <= result
  | _ => True
  end.

(** What the proofs use of the components: an allowed call returns, answers as above and is
    accounted for.  Nothing is used of a call that is not allowed.  [recorder_promises] gives
    this for the record of the calls. *)
Class Promises {W} `{Components W} (held : W -> holdings) : Prop :=
  perform_spec c w : allowed c (held w) -> exists result w',
    perform c w = Ok (result, w') /\ answers c result (held w) /\
    forall r, held w' r = account c result (held w) r.

(** * Taking the machine down *)

(** The flag of the machine that stands for an object; a device has that of its owner. *)
Definition part_flag (m : VartVirtMachine) (p : part) : bool :=
  match p with
  | PPcie => m_pcie_initialized m
  | PIommu => m_riscv_iommu_initialized m
  | PUpstream | PPort _ => m_pcie_switch_initialized m
  | PBlk => m_virtio_blk_initialized m
  | PNet => m_virtio_net_initialized m
  | PUart => m_uart_initialized m
  | PTest => m_test_device_initialized m
  end.
Definition flag (m : VartVirtMachine) (r : resource) : bool :=
  match r with
  | RAddressSpace => m_address_space_initialized m
  | RVm => m_vm_created m
  | RRam => m_ram_created m
  | RRamSlot => m_ram_registered m
  | RRamMap => m_ram_mapped m
  | RVcpuArray => m_vcpu_array m
  | RVcpu i | RThread i => (i <? m_vcpus_created m)%nat
  | RAia => m_aia_created m
  | RRouting => m_irq_routing_initialized m
  | RPcie => m_pcie_initialized m
  | RIommu => m_riscv_iommu_initialized m
  | RSwitch => m_pcie_switch_initialized m
  | RVirtio f => virtio_flag m f
  | RIrqfd f => irqfd_flag m f
  | RContext f | RBound f => context_flag m f
  | RSlot p | RPlace p _ _ | RRealized p => part_flag m p
  end.
(** The objects whose flag says exactly whether they are held. *)
Definition exact (r : resource) : bool :=
  match r with RThread _ | RBound _ | RSlot _ | RPlace _ _ _ | RRealized _ => false | _ => true end.
(** What an object is built on. *)
Definition deps (r : resource) : list resource :=
  match r with
  | RRamSlot => [RVm; RRam]
  | RRamMap => [RRam]
  | RVcpu _ => [RVm; RVcpuArray]
  | RAia | RRouting => [RVm]
  | RIommu | RSwitch => [RPcie]
  | RVirtio _ => [RPcie; RAia]
  | RIrqfd f => [RVirtio f; RRouting]
  | RContext f => [RVirtio f; RIommu]
  | _ => []
  end.

(** The machine's fields and what is held agree. *)
Record consistent (m : VartVirtMachine) (h : holdings) : Prop := {
  c_exact r : exact r = true -> h r = flag m r;
  c_bound r : h r = true -> flag m r = true;
  c_ports n : h (RSlot (PPort n)) = true \/ h (RRealized (PPort n)) = true -> (n < 2)%nat;
  c_places p b devfn : h (RPlace p b devfn) = true -> h (RSlot p) = true /\ pci_part p = true;
  c_deps r d : flag m r = true -> d ∈ deps r -> flag m d = true;
  c_space : m_address_space_initialized m = true;
}.

(** The order in which [vart_virt_machine_destroy] takes the objects down. *)
Definition part_stage (p : part) : nat :=
  match p with
  | PTest => 1
  | PUart => 2
  | PBlk => 3
  | PNet => 4
  | PIommu => 5
  | PUpstream | PPort _ => 6
  | PPcie => 8
  end.
Definition stage (r : resource) : nat :=
  match r with
  | RThread _ => 0
  | RVirtio f | RIrqfd f | RContext f | RBound f => part_stage (part_of f)
  | RSlot p | RPlace p _ _ | RRealized p => part_stage p
  | RIommu => 5
  | RSwitch => 6
  | RRouting => 7
  | RPcie => 8
  | RRamMap => 9
  | RAddressSpace => 10
  | RAia => 11
  | RVcpu _ => 12
  | RVcpuArray => 13
  | RRamSlot => 14
  | RRam => 15
  | RVm => 16
  end.

(** An object goes no later than what it is built on. *)
Lemma deps_stage r d : d ∈ deps r -> (stage r <= stage d)%nat.
Proof. destruct r as [| | | | | | | | | | | | |[]|[]|[]|[]| | |]; cbn; set_solver by lia. Qed.

Section Destroy.
Context {W : Type} `{PR : Promises W} (m : VartVirtMachine).
Implicit Types w : W.

(** The objects of [g] are gone and nothing else changed. *)
Definition gone (g : resource -> bool) (w w' : W) : Prop :=
  forall r, held w' r = negb (g r) && held w r.

Lemma gone_none w w' : (forall r, held w' r = held w r) -> gone (fun _ => false) w w'.
Proof using Type. intros Hh r. by rewrite Hh. Qed.
Lemma gone_trans g1 g2 w w1 w2 : gone g1 w w1 -> gone g2 w1 w2 ->
  gone (fun r => g1 r || g2 r) w w2.
Proof using Type. intros H1 H2 r. rewrite H2, H1. by destruct (g1 r), (g2 r). Qed.
Lemma gone_ext g g' w w' : gone g w w' -> (forall r, held w r = true -> g r = g' r) ->
  gone g' w w'.
Proof using Type.
  intros Hg He r. rewrite (Hg r). destruct (held w r) eqn:E; [|by rewrite !andb_false_r].
  by rewrite (He r E).
Qed.

Lemma run_gone c w : (forall r, creates c r = false) -> allowed c (held w) ->
  wp (run c) (fun _ w' => gone (destroys c) w w') w.
Proof using PR.
  intros Hc Ha. destruct (perform_spec c w Ha) as (z & w' & E & _ & Hh). unfold run.
  apply wp_bind, wp_ok. eexists _, _. split; [exact E|]. apply wp_ret. intros r.
  rewrite Hh. unfold account. by rewrite Hc, andb_false_r, orb_false_r.
Qed.

Lemma gone_seq g1 g2 (m1 m2 : M W unit) w :
  wp m1 (fun _ w1 => gone g1 w w1) w ->
  (forall w1, gone g1 w w1 -> wp m2 (fun _ w2 => gone g2 w1 w2) w1) ->
  wp (m1 ;;; m2) (fun _ w2 => gone (fun r => g1 r || g2 r) w w2) w.
Proof using Type.
  intros H1 H2. apply wp_bind. eapply wp_mono; [exact H1|]. intros [] w1 Hg.
  eapply wp_mono; [by apply H2|]. intros [] w2 Hg2. by eapply gone_trans.
Qed.

(** A call that only reads. *)
Lemma perform_reads c w (Q : Z -> W -> Prop) :
  (forall r, creates c r = false) -> (forall r, destroys c r = false) -> allowed c (held w) ->
  (forall z w', answers c z (held w) -> (forall r, held w' r = held w r) -> Q z w') ->
  wp (perform c) Q w.
Proof using PR.
  intros Hc Hd Ha HQ. destruct (perform_spec c w Ha) as (z & w' & E & Hz & Hh).
  apply wp_ok. eexists _, _. split; [exact E|]. apply HQ; [done|]. intros r. rewrite Hh.
  unfold account. by rewrite Hc, Hd, andb_false_r, orb_false_r.
Qed.

Definition dev_gone (p : part) (r : resource) : bool :=
  match r with
  | RSlot q | RPlace q _ _ | RRealized q => bool_decide (q = p)
  | _ => false
  end.

(** A device leaves its bus. *)
Lemma remove_gone (c : call) p w : owned p (held w) ->
  (forall b devfn, held w (RPlace p b devfn) = true -> held w (RSlot p) = true) ->
  (forall r, creates c r = false) ->
  (forall r, held w r = true -> destroys c r || only (RRealized p) r = dev_gone p r) ->
  (forall w1, gone (only (RRealized p)) w w1 -> owned p (held w1) -> allowed c (held w1)) ->
  wp (run (unrealize p) ;;; let* attached := perform (get_on_bus p) in
      when (negb (attached =? 0)) (run c)) (fun _ w' => gone (dev_gone p) w w') w.
Proof using PR.
  intros Hown Hpl Hc Hd Ha. apply wp_bind. eapply wp_mono; [by apply run_gone|].
  intros [] w1 H1. change (destroys (unrealize p)) with (only (RRealized p)) in H1. apply wp_bind.
  assert (forall r, only (RRealized p) r = false -> held w1 r = held w r) as Hsame.
  { intros r Hr. by rewrite H1, Hr. }
  assert (owned p (held w1)) as Hown1.
  { unfold owned in *. destruct (owner p) as [r|] eqn:E; [|done]. rewrite Hsame; [done|].
    by destruct p; simplify_eq/=. }
  apply perform_reads; [done|done|done|]. intros z w2 Hz H2. cbn in Hz.
  rewrite Hsame in Hz by done. unfold when. destruct (Z.eqb_spec z 0) as [->|Hne]; cbn [negb].
  - apply wp_ret. eapply gone_ext; [eapply gone_trans; [exact H1|by apply gone_none]|].
    intros r Hr. cbn. rewrite orb_false_r. destruct r; cbn; try done.
    + unfold only. destruct (decide (p0 = p)) as [->|Hp]; [|by rewrite !bool_decide_false by congruence].
      exfalso. by apply Hz in Hr.
    + unfold only. destruct (decide (p0 = p)) as [->|Hp]; [|by rewrite !bool_decide_false by congruence].
      exfalso. apply Hpl in Hr. by apply Hz in Hr.
    + unfold only. by apply bool_decide_ext; split; [intros [= ->]|intros ->].
  - assert (gone (only (RRealized p)) w w2) as H12 by (intros r; by rewrite H2).
    assert (owned p (held w2)) as Hown2
      by (unfold owned in *; destruct (owner p); [by rewrite H2|done]).
    eapply wp_mono; [apply run_gone; [done|by apply Ha]|].
    intros [] w3 H3. eapply gone_ext; [by eapply gone_trans|]. intros r Hr. cbn.
    rewrite orb_comm. by apply Hd.
Qed.

Lemma only_eq r0 r : only r0 r = true <-> r = r0.
Proof using Type. apply bool_decide_eq_true. Qed.
End Destroy.

Section Stages.
Context {W : Type} `{PR : Promises W} (m : VartVirtMachine) (w0 : W).
Context (CO : consistent m (held w0)).
Implicit Types w : W.
Abbreviation gone := (gone (held := held)).

(** The stages before [k] are done. *)
Definition at_stage (k : nat) (w : W) : Prop :=
  forall r, held w r = (k <=? stage r)%nat && held w0 r.
Definition stage_gone (k : nat) (r : resource) : bool := (stage r =? k)%nat.

Lemma stage_next k w w' : at_stage k w -> gone (stage_gone k) w w' -> at_stage (S k) w'.
Proof using Type.
  intros Hs Hg r. rewrite Hg, Hs. unfold stage_gone.
  destruct (Nat.eqb_spec (stage r) k), (Nat.leb_spec k (stage r)),
    (Nat.leb_spec (S k) (stage r)); cbn; try lia; done.
Qed.

Lemma held_past k w r : at_stage k w -> (stage r < k)%nat -> held w r = false.
Proof using Type. intros Hs Hlt. rewrite Hs. by destruct (Nat.leb_spec k (stage r)); [lia|]. Qed.
Lemma held_exact k w r : at_stage k w -> (k <= stage r)%nat -> exact r = true ->
  held w r = flag m r.
Proof using CO.
  intros Hs Hle He. rewrite Hs, (c_exact _ _ CO r He). by destruct (Nat.leb_spec k (stage r)); [|lia].
Qed.
Lemma held_flag k w r : at_stage k w -> held w r = true -> flag m r = true /\ (k <= stage r)%nat.
Proof using CO.
  intros Hs. rewrite Hs. intros [Hle%Nat.leb_le Hr]%andb_true_iff. split; [|done].
  by apply (c_bound _ _ CO).
Qed.
Lemma held_space k w : at_stage k w -> (k <= 10)%nat -> held w RAddressSpace = true.
Proof using CO. intros Hs Hk. rewrite (held_exact k) by done. exact (c_space _ _ CO). Qed.
Lemma held_dep k w r d : at_stage k w -> flag m r = true -> d ∈ deps r -> (k <= stage d)%nat ->
  exact d = true -> held w d = true.
Proof using CO. intros Hs Hr Hd Hk He. rewrite (held_exact k) by done. by eapply c_deps. Qed.

(** Nothing of the stage is there. *)
Lemma stage_absent k w : at_stage k w -> (forall r, stage r = k -> flag m r = false) ->
  gone (stage_gone k) w w.
Proof using CO.
  intros Hs Hno r. unfold stage_gone. destruct (Nat.eqb_spec (stage r) k) as [E|]; [|done].
  apply not_true_iff_false. intros [Hf _]%(held_flag k); [|done]. by rewrite (Hno r E) in Hf.
Qed.

Lemma each_gone (g : nat -> resource -> bool) body n first w :
  (forall i w1, (first <= i < first + n)%nat ->
     gone (fun r => existsb (fun j => g j r) (seq first (i - first))) w w1 ->
     wp (body i) (fun _ w2 => gone (g i) w1 w2) w1) ->
  wp (each first n body) (fun _ w' => gone (fun r => existsb (fun j => g j r) (seq first n)) w w') w.
Proof using Type.
  revert first w. induction n as [|n IH]; intros first w Hb; cbn [each].
  { apply wp_ret. by apply gone_none. }
  apply gone_seq with (g1 := g first) (g2 := fun r => existsb (fun j => g j r) (seq (S first) n)).
  { apply Hb; [lia|]. rewrite Nat.sub_diag. by apply gone_none. }
  intros w1 H1. apply IH. intros i w2 Hi H2. apply Hb; [lia|].
  replace (i - first)%nat with (S (i - S first)) by lia. cbn [seq existsb].
  by eapply gone_trans.
Qed.

Lemma existsb_only_thread n r : (exists i, r = RThread i /\ (i < n)%nat) \/ stage r <> 0%nat ->
  existsb (fun j => only (RThread j) r) (seq 0 n) = stage_gone 0 r.
Proof using Type.
  intros [(i & -> & Hi)|Hr]; unfold stage_gone.
  - cbn. apply existsb_exists. exists i. rewrite in_seq. split; [lia|]. by apply bool_decide_true.
  - destruct (Nat.eqb_spec (stage r) 0); [done|]. apply not_true_iff_false.
    intros (i & _ & ->%only_eq)%existsb_exists. done.
Qed.

Lemma vcpu_held k w i : at_stage k w -> (k <= 12)%nat -> (i < m_vcpus_created m)%nat ->
  held w (RVcpu i) = true.
Proof using CO. intros Hs Hk Hi. rewrite (held_exact k) by done. by apply Nat.ltb_lt. Qed.

Lemma live_gone i c w g : held w (RVcpu i) = true ->
  (forall w1, (forall r, held w1 r = held w r) -> wp (run c) (fun _ w2 => gone g w1 w2) w1) ->
  (held w (RThread i) = false -> forall r, held w r = true -> g r = false) ->
  wp (when_live i c) (fun _ w' => gone g w w') w.
Proof using PR.
  intros Hi Hlive Hdead. unfold when_live. apply wp_bind.
  apply perform_reads; [done|done|done|]. intros z w1 Hz H1. cbn in Hz. unfold when.
  destruct (Z.eqb_spec z 0) as [->|Hne]; cbn [negb].
  - apply wp_ret. eapply gone_ext; [by apply gone_none|]. intros r Hr. symmetry.
    apply Hdead; [|done]. apply not_true_iff_false. intros Ht. by apply Hz in Ht.
  - eapply wp_mono; [by apply Hlive|]. intros [] w2 H2 r. by rewrite H2, H1.
Qed.

Lemma stage_threads w : at_stage 0 w -> wp (stop_vcpus m) (fun _ w' => at_stage 1 w') w.
Proof using PR CO.
  intros Hs. unfold stop_vcpus. apply wp_bind. eapply wp_mono.
  { apply (each_gone (fun _ _ => false)). intros i w1 Hi H1.
    assert (forall r, held w1 r = held w r) as Hsame.
    { intros r. rewrite H1. by destruct (existsb _ _) eqn:E; [apply existsb_exists in E as (?&?&?)|]. }
    apply live_gone; [rewrite Hsame; apply (vcpu_held 0); [done|lia|lia]| |done].
    intros w2 H2. apply run_gone; [done|]. cbn. rewrite H2, Hsame.
    apply (vcpu_held 0); [done|lia|lia]. }
  intros [] w1 H1. assert (at_stage 0 w1) as Hs1.
  { intros r. rewrite H1. destruct (existsb _ _) eqn:E; [by apply existsb_exists in E as (?&?&?)|].
    apply Hs. }
  clear H1 Hs w. eapply wp_mono.
  { apply (each_gone (fun i => only (RThread i))). intros i w2 Hi H2.
    assert (held w2 (RVcpu i) = true) as Hv.
    { rewrite H2. destruct (existsb _ _) eqn:E.
      - apply existsb_exists in E as (j & _ & [=]%only_eq).
      - apply (vcpu_held 0); [done|lia|lia]. }
    apply live_gone; [done| |].
    - intros w3 H3. apply (run_gone (vcpu_join i)); [done|]. cbn. by rewrite H3.
    - intros Hd r Hr. apply not_true_iff_false. intros ->%only_eq. congruence. }
  intros [] w2 H2. eapply stage_next; [done|]. eapply gone_ext; [exact H2|]. intros r Hr.
  apply existsb_only_thread. destruct (decide (stage r = 0%nat)) as [E|]; [|by right]. left.
  apply (held_flag 0) in Hr as [Hr _]; [|done].
  destruct r as [| | | | | | |i| | | | | |[]|[]|[]|[]|[]|[]|[]]; try discriminate E.
  exists i. split; [done|]. by apply Nat.ltb_lt.
Qed.

Lemma only_ne r0 r : r <> r0 -> only r0 r = false.
Proof using Type. intros Hne. by apply bool_decide_false. Qed.

Lemma only_refl r : only r r = true.
Proof using Type. by apply bool_decide_true. Qed.
Lemma only_slot p q : only (RSlot p) (RSlot q) = bool_decide (q = p).
Proof using Type. apply bool_decide_ext. split; congruence. Qed.
Lemma only_realized p q : only (RRealized p) (RRealized q) = bool_decide (q = p).
Proof using Type. apply bool_decide_ext. split; congruence. Qed.

Ltac onlys :=
  repeat match goal with
  | |- context [only ?a ?a] => rewrite (only_refl a)
  | |- context [only (RSlot ?a) (RSlot ?b)] => rewrite (only_slot a b)
  | |- context [only (RRealized ?a) (RRealized ?b)] => rewrite (only_realized a b)
  | |- context [only ?a ?b] => rewrite (only_ne a b) by done
  end; cbn [orb andb negb]; rewrite ?orb_false_r.

Lemma held_place k w p b devfn : at_stage k w -> held w (RPlace p b devfn) = true ->
  held w (RSlot p) = true /\ pci_part p = true.
Proof using CO.
  intros Hs. rewrite !Hs. intros [Hk Hh]%andb_true_iff.
  destruct (c_places _ _ CO p b devfn Hh) as [Hp ?]. by rewrite Hp, andb_true_r.
Qed.

(** A call that takes down one object, when its flag is set. *)
Lemma when_gone b c r0 w : (forall r, creates c r = false) -> (forall r, destroys c r = only r0 r) ->
  held w r0 = b -> (b = true -> allowed c (held w)) ->
  wp (when b (run c)) (fun _ w' => gone (only r0) w w') w.
Proof using PR.
  intros Hc Hd Hb Ha. unfold when. destruct b.
  - eapply wp_mono; [apply run_gone; auto|]. intros [] w' Hg. eapply gone_ext; [exact Hg|auto].
  - apply wp_ret. eapply gone_ext; [by apply gone_none|]. intros r Hr. symmetry. apply only_ne.
    congruence.
Qed.

(** A stage that takes down one object. *)
Lemma stage_one c r0 k w : at_stage k w -> (forall r, creates c r = false) ->
  (forall r, destroys c r = only r0 r) -> exact r0 = true ->
  (forall r, stage r = k <-> r = r0) ->
  (flag m r0 = true -> allowed c (held w)) ->
  wp (when (flag m r0) (run c)) (fun _ w' => at_stage (S k) w') w.
Proof using PR CO.
  intros Hs Hc Hd He Hk Ha. assert (stage r0 = k) as Hr0 by (by apply Hk).
  eapply wp_mono; [apply when_gone; [done|done| |done]; apply (held_exact k); [done|lia|done]|].
  intros [] w' Hg. eapply stage_next; [done|]. eapply gone_ext; [exact Hg|]. intros r _.
  unfold stage_gone, only. destruct (Nat.eqb_spec (stage r) k) as [E|E].
  - apply bool_decide_true. by apply Hk.
  - apply bool_decide_false. intros ->. done.
Qed.

Lemma remove_plain_gone k w p : at_stage k w -> (k <= 10)%nat -> owner p = None ->
  wp (remove_plain p) (fun _ w' => gone (dev_gone p) w w') w.
Proof using PR CO.
  intros Hs Hk Ho. apply remove_gone; [by unfold owned; rewrite Ho| |done| |].
  - intros b devfn Hp. by apply (held_place k) in Hp as [? _].
  - intros r Hr. destruct r; cbn [destroys dev_gone]; onlys; try done.
    apply (held_place k) in Hr as [_ Hp]; [|done]. symmetry. apply bool_decide_false.
    intros ->. by destruct p.
  - intros w1 H1 Hown. cbn [allowed]. rewrite !H1. onlys. by rewrite (held_space k).
Qed.

Lemma remove_function_gone w p :
  (forall b devfn, held w (RPlace p b devfn) = true -> held w (RSlot p) = true) ->
  owned p (held w) -> held w RPcie = true ->
  (p = PIommu -> held w (RSlot PBlk) = false /\ held w (RSlot PNet) = false) ->
  wp (remove_function p) (fun _ w' => gone (dev_gone p) w w') w.
Proof using PR.
  intros Hpl Ho Hpcie Hiommu. apply remove_gone; [done|done|done| |].
  - intros r _. destruct r; cbn [destroys dev_gone]; by onlys.
  - intros w1 H1 Hown. cbn [allowed]. rewrite !H1. onlys. by rewrite Hpcie.
Qed.

Lemma stage_plain k w p : at_stage k w -> (k <= 10)%nat -> owner p = None -> part_stage p = k ->
  wp (when (part_flag m p) (remove_plain p)) (fun _ w' => at_stage (S k) w') w.
Proof using PR CO.
  intros Hs Hk Ho Hp. unfold when. destruct (part_flag m p) eqn:Ef.
  - eapply wp_mono; [by eapply remove_plain_gone|]. intros [] w' Hg. eapply stage_next; [done|].
    eapply gone_ext; [exact Hg|]. intros r _. subst k. unfold stage_gone.
    destruct r as [| | | | | | | | | | | | |[]|[]|[]|[]|[]|[]|[]], p; try discriminate Ho; reflexivity.
  - apply wp_ret. eapply stage_next; [done|]. apply stage_absent; [done|]. intros r Hr. subst k.
    destruct r as [| | | | | | | | | | | | |[]|[]|[]|[]|[]|[]|[]], p; try discriminate Ho;
      try discriminate Hr; done.
Qed.

(** The IOMMU context, the irqfds, the slot and the device itself. *)
Lemma stage_virtio f k w : at_stage k w -> part_stage (part_of f) = k ->
  wp (destroy_virtio m f) (fun _ w' => at_stage (S k) w') w.
Proof using PR CO.
  intros Hs Hk. assert (k <= 4)%nat as Hk4 by (destruct f; cbn in Hk; lia).
  unfold destroy_virtio, when at 1. destruct (virtio_flag m f) eqn:Ef.
  2: { apply wp_ret. eapply stage_next; [done|]. apply stage_absent; [done|]. intros r Hr.
       apply not_true_iff_false. intros Hflag. subst k.
       pose proof (c_deps _ _ CO r (RVirtio f) Hflag) as Hd.
       assert (context_flag m f = false) as Hx.
       { apply not_true_iff_false. intros Hx%(c_deps _ _ CO (RContext f) (RVirtio f)); [|by left].
         cbn in Hx. congruence. }
       destruct f, r as [| | | | | | | | | | | | |[]|[]|[]|[]|[]|[]|[]]; try discriminate Hr;
         cbn in Hd, Hflag, Ef, Hx; try congruence; specialize (Hd ltac:(by left)); congruence. }
  assert (held w (RVirtio f) = true) as Hv by (rewrite (held_exact k); [done|done|cbn; lia|done]).
  assert (held w RPcie = true) as Hpcie
    by (apply (held_dep k w (RVirtio f)); [done|done|by left|cbn; lia|done]).
  assert (held w (RContext f) = context_flag m f) as Hctx
    by (rewrite (held_exact k); [done|done|cbn; lia|done]).
  assert (held w (RIrqfd f) = irqfd_flag m f) as Hirq
    by (rewrite (held_exact k); [done|done|cbn; lia|done]).
  eapply wp_mono.
  - apply (gone_seq (held := held)) with (g1 := fun r => only (RBound f) r || only (RContext f) r).
    { unfold when. destruct (context_flag m f) eqn:Ec.
      - apply (gone_seq (held := held)) with (g1 := only (RBound f)) (g2 := only (RContext f)).
        + apply (run_gone (iommu_unbind f)); [done|]. cbn [allowed]. split; [|done].
          apply (held_dep k w (RContext f)); [done|done|by right; left|cbn; lia|done].
        + intros w1 H1. apply (run_gone (context_destroy f)); [done|]. cbn [allowed].
          rewrite !H1. by onlys.
      - apply wp_ret. eapply gone_ext; [by apply gone_none|]. intros r Hr. symmetry.
        apply orb_false_intro; apply only_ne; intros ->; [|congruence].
        apply (held_flag k) in Hr as [Hr _]; [|done]. cbn in Hr. congruence. }
    intros w1 H1. apply (gone_seq (held := held)) with (g1 := only (RIrqfd f)).
    { apply when_gone; [done|done|rewrite H1; by onlys|]. intros Hf. cbn [allowed].
      rewrite !H1. onlys. rewrite Hirq, Hf, Hv. split_and!; [done| |done].
      apply (held_dep k w (RIrqfd f)); [done|done|by right; left|cbn; lia|done]. }
    intros w2 H2.
    apply (gone_seq (held := held)) with (g1 := dev_gone (part_of f)) (g2 := only (RVirtio f)).
    { apply remove_function_gone; [| | |by destruct f].
      - intros b devfn. rewrite !H2, !H1. onlys. intros Hp. by apply (held_place k) in Hp as [? _].
      - unfold owned. destruct f; cbn [part_of owner]; rewrite H2, H1; by onlys.
      - rewrite H2, H1. by onlys. }
    intros w3 H3. apply (run_gone (virtio_destroy f)); [done|]. cbn [allowed].
    rewrite !H3, !H2, !H1. onlys. cbn [dev_gone negb andb]. rewrite bool_decide_true by done. done.
  - intros [] w' Hg. eapply stage_next; [done|]. eapply gone_ext; [exact Hg|]. intros r _.
    unfold stage_gone. subst k.
    destruct f, r as [| | | | | | | | | | | | |[]|[]|[]|[]|[]|[]|[]]; reflexivity.
Qed.

Lemma stage_iommu w : at_stage 5 w ->
  wp (when (m_riscv_iommu_initialized m) (remove_function PIommu ;;; run iommu_destroy))
    (fun _ w' => at_stage 6 w') w.
Proof using PR CO.
  intros Hs. unfold when. destruct (m_riscv_iommu_initialized m) eqn:Ef.
  2: { apply wp_ret. eapply stage_next; [done|]. apply stage_absent; [done|]. intros r Hr.
       by destruct r as [| | | | | | | | | | | | |[]|[]|[]|[]|[]|[]|[]]; try discriminate Hr. }
  assert (held w RIommu = true) as Hi by (by rewrite (held_exact 5)).
  assert (forall f, held w (RContext f) = false /\ held w (RBound f) = false /\
    held w (RSlot (part_of f)) = false) as Hf.
  { intros f. split_and!; apply (held_past 5); try done; destruct f; cbn; lia. }
  eapply wp_mono.
  - apply (gone_seq (held := held)) with (g1 := dev_gone PIommu) (g2 := only RIommu).
    { apply remove_function_gone; [| |by apply (held_dep 5 w RIommu); [..|by left|cbn; lia|]|].
      - intros b devfn Hp. by apply (held_place 5) in Hp as [? _].
      - done.
      - intros _. split; [apply (Hf Blk)|apply (Hf Net)]. }
    intros w1 H1. apply (run_gone iommu_destroy); [done|]. cbn [allowed]. rewrite !H1.
    cbn [dev_gone]. rewrite !bool_decide_true by done. split_and!; try done;
      intros f; rewrite H1; destruct (Hf f) as (E1 & E2 & _); by rewrite ?E1, ?E2, andb_false_r.
  - intros [] w' Hg. eapply stage_next; [done|]. eapply gone_ext; [exact Hg|]. intros r _.
    by destruct r as [| | | | | | | | | | | | |[]|[]|[]|[]|[]|[]|[]].
Qed.

Lemma port_bound k w n : at_stage k w ->
  held w (RSlot (PPort n)) = true \/ held w (RRealized (PPort n)) = true -> (n < 2)%nat.
Proof using CO.
  intros Hs. rewrite !Hs. intros [[_ Hh]%andb_true_iff|[_ Hh]%andb_true_iff];
    eapply (c_ports _ _ CO); auto.
Qed.

Definition ports_gone (r : resource) : bool := existsb (fun i => dev_gone (PPort i) r) (seq 0 2).

Lemma ports_gone_other r : (forall n, dev_gone (PPort n) r = false) -> ports_gone r = false.
Proof using Type. intros Hr. cbn. by rewrite !Hr. Qed.

Lemma ports_gone_dev w w' p : gone ports_gone w w' -> (forall n, p <> PPort n) ->
  held w' (RSlot p) = held w (RSlot p) /\ held w' (RRealized p) = held w (RRealized p) /\
  forall b devfn, held w' (RPlace p b devfn) = held w (RPlace p b devfn).
Proof using Type.
  intros Hg Hp. split_and!; intros; rewrite Hg, ports_gone_other; try done;
    intros n; cbn; by apply bool_decide_false, Hp.
Qed.

Lemma remove_ports w : at_stage 6 w -> m_pcie_switch_initialized m = true ->
  wp (each 0 2 (fun i => remove_function (PPort i))) (fun _ w' => gone ports_gone w w') w.
Proof using PR CO.
  intros Hs Hsw. apply (each_gone (fun i => dev_gone (PPort i))). intros i w1 Hi H1.
  assert (forall r, (forall n, dev_gone (PPort n) r = false) -> held w1 r = held w r) as Hsame.
  { intros r Hr. rewrite H1. destruct (existsb _ _) eqn:E; [|done].
    apply existsb_exists in E as (n & _ & E). by rewrite Hr in E. }
  assert (existsb (fun j => dev_gone (PPort j) (RSlot (PPort i))) (seq 0 (i - 0)) = false) as Hno.
  { apply not_true_iff_false. intros (n & Hn%in_seq & E%bool_decide_eq_true)%existsb_exists.
    injection E as ->. lia. }
  apply remove_function_gone; [| | |done].
  - intros b devfn Hp. rewrite H1 in Hp. rewrite H1, Hno. cbn. apply andb_true_iff in Hp as [_ Hp].
    by apply (held_place 6) in Hp as [? _].
  - unfold owned. cbn. rewrite Hsame by done. by rewrite (held_exact 6).
  - rewrite Hsame by done. apply (held_dep 6 w RSwitch); [done|done|by left|cbn; lia|done].
Qed.

Lemma switch_empty w w1 w2 p : at_stage 6 w -> gone ports_gone w w1 ->
  gone (dev_gone PUpstream) w1 w2 -> behind_switch p = true ->
  held w2 (RSlot p) = false /\ held w2 (RRealized p) = false.
Proof using CO.
  intros Hs H1 H2 Hp. rewrite !H2, !H1.
  destruct p as [| | |n| | | |]; cbn [dev_gone]; rewrite ?bool_decide_true by done; try done.
  - rewrite !bool_decide_false by done. destruct (decide (n < 2)%nat) as [Hn|Hn].
    { assert (ports_gone (RSlot (PPort n)) = true /\ ports_gone (RRealized (PPort n)) = true)
        as [-> ->] by (destruct n as [|[|]]; [done|done|lia]). done. }
    assert (held w (RSlot (PPort n)) = false /\ held w (RRealized (PPort n)) = false) as [-> ->].
    { split; apply not_true_iff_false; intros Hh; apply Hn, (port_bound 6 w); auto. }
    by rewrite !andb_false_r.
  - rewrite !(held_past 6 w) by (try done; cbn; lia). by rewrite !andb_false_r.
  - rewrite !(held_past 6 w) by (try done; cbn; lia). by rewrite !andb_false_r.
Qed.

Lemma stage_switch w : at_stage 6 w -> wp (destroy_switch m) (fun _ w' => at_stage 7 w') w.
Proof using PR CO.
  intros Hs. unfold destroy_switch, when at 1. destruct (m_pcie_switch_initialized m) eqn:Ef.
  2: { apply wp_ret. eapply stage_next; [done|]. apply stage_absent; [done|]. intros r Hr.
       by destruct r as [| | | | | | | | | | | | |[]|[]|[]|[]|[]|[]|[]]; try discriminate Hr. }
  apply wp_bind. apply perform_reads; [done|done|by cbn; rewrite (held_exact 6)|].
  intros z w1 -> H1. assert (at_stage 6 w1) as Hs1 by (intros r; rewrite H1; apply Hs).
  clear dependent w. rename w1 into w, Hs1 into Hs. change (Z.to_nat 2) with 2%nat.
  assert (held w RSwitch = true /\ held w RPcie = true) as [Hsw Hpcie].
  { split; [by rewrite (held_exact 6)|].
    apply (held_dep 6 w RSwitch); [done|done|by left|cbn; lia|done]. }
  eapply wp_mono.
  - apply (gone_seq (held := held)) with (g1 := ports_gone); [by apply remove_ports|].
    intros w1 H1. destruct (ports_gone_dev w w1 PUpstream H1) as (Eslot & Ereal & Epl); [done|].
    apply (gone_seq (held := held)) with (g1 := dev_gone PUpstream) (g2 := only RSwitch).
    { apply remove_function_gone; [| | |done].
      - intros b devfn. rewrite Epl, Eslot. intros Hp. by apply (held_place 6) in Hp as [? _].
      - unfold owned. cbn. by rewrite H1, ports_gone_other.
      - by rewrite H1, ports_gone_other. }
    intros w2 H2. apply (run_gone switch_destroy); [done|]. cbn [allowed]. rewrite H2, H1.
    assert (forall p, behind_switch p = true ->
      held w2 (RSlot p) = false /\ held w2 (RRealized p) = false) as Hempty.
    { intros p Hp. by apply (switch_empty w w1 w2). }
    split_and!; [by rewrite ports_gone_other|by apply Hempty|by apply Hempty].
  - intros [] w' Hg. eapply stage_next; [done|]. eapply gone_ext; [exact Hg|]. intros r Hr.
    assert (forall n, r = RSlot (PPort n) \/ r = RRealized (PPort n) \/
      (exists b d, r = RPlace (PPort n) b d) -> (n < 2)%nat) as Hport.
    { intros n Hn. apply (port_bound 6 w); [done|].
      destruct Hn as [->|[->|(b & d & ->)]]; [by left|by right|left].
      by apply (held_place 6) in Hr as [? _]. }
    destruct r as [| | | | | | | | | | | | |[]|[]|[]|[]|[| | |n| | | |]|[| | |n| | | |]|[| | |n| | | |]];
      try reflexivity;
      (assert (n < 2)%nat as Hn by (apply Hport; eauto)); (destruct n as [|[|]]; [done|done|lia]).
Qed.

Lemma stage_pcie w : at_stage 8 w ->
  wp (when (m_pcie_initialized m) (run root_complex_destroy)) (fun _ w' => at_stage 9 w') w.
Proof using PR CO.
  intros Hs. unfold when. destruct (m_pcie_initialized m) eqn:Ef.
  - eapply wp_mono; [apply run_gone; [done|]|].
    + cbn. split_and!; [by rewrite (held_exact 8)|by apply (held_past 8); [|cbn; lia]|].
      intros p Hp. apply (held_past 8); [done|]. destruct p; cbn; try done; lia.
    + intros [] w' Hg. eapply stage_next; [done|]. eapply gone_ext; [exact Hg|]. intros r Hr.
      destruct r as [| | | | | | | | | | | | |[]|[]|[]|[]|[]|[]|[]]; try reflexivity.
      by apply (held_place 8) in Hr as [_ ?].
  - apply wp_ret. eapply stage_next; [done|]. apply stage_absent; [done|]. intros r Hr.
    by destruct r as [| | | | | | | | | | | | |[]|[]|[]|[]|[]|[]|[]]; try discriminate Hr.
Qed.

Lemma stage_space w : at_stage 10 w ->
  wp (when (m_address_space_initialized m) (run bus_destroy ;;; run address_space_destroy))
    (fun _ w' => at_stage 11 w') w.
Proof using PR CO.
  intros Hs. rewrite (c_space _ _ CO). unfold when.
  assert (forall r, (stage r < 10)%nat -> held w r = false) as Hpast
    by (intros; by apply (held_past 10)).
  eapply wp_mono.
  - apply (gone_seq (held := held)) with (g1 := fun _ => false) (g2 := only RAddressSpace).
    + apply run_gone; [done|]. split; [by apply (held_space 10)|]. intros p. apply Hpast.
      destruct p; cbn; lia.
    + intros w1 H1. apply (run_gone address_space_destroy); [done|]. cbn. rewrite !H1. cbn.
      split_and!; [by apply (held_space 10)|apply Hpast; cbn; lia..| |];
        [intros []|intros []]; rewrite H1; apply Hpast; cbn; lia.
  - intros [] w' Hg. eapply stage_next; [done|]. eapply gone_ext; [exact Hg|]. intros r _.
    by destruct r as [| | | | | | | | | | | | |[]|[]|[]|[]|[]|[]|[]].
Qed.

Lemma stage_vcpus w : at_stage 12 w ->
  wp (each 0 (m_vcpus_created m) (fun i => run (vcpu_destroy i))) (fun _ w' => at_stage 13 w') w.
Proof using PR CO.
  intros Hs. eapply wp_mono.
  - apply (each_gone (fun i => only (RVcpu i))). intros i w1 Hi H1.
    assert (forall r, (forall j, (j < i)%nat -> r <> RVcpu j) -> held w1 r = held w r) as Hsame.
    { intros r Hr. rewrite H1. destruct (existsb _ _) eqn:E; [|done].
      apply existsb_exists in E as (j & Hj%in_seq & ->%only_eq). by destruct (Hr j ltac:(lia)). }
    assert (flag m (RVcpu i) = true) as Hflag by (apply Nat.ltb_lt; lia).
    apply (run_gone (vcpu_destroy i)); [done|]. cbn [allowed].
    rewrite !Hsame by (intros j Hj; congruence || (intros [= ->]; lia)).
    split_and!; [by rewrite (held_exact 12)|by apply (held_past 12); [|cbn; lia]|].
    apply (held_dep 12 w (RVcpu i)); [done|done|by left|cbn; lia|done].
  - intros [] w' Hg. eapply stage_next; [done|]. eapply gone_ext; [exact Hg|]. intros r Hr.
    unfold stage_gone. destruct (Nat.eqb_spec (stage r) 12) as [E|E].
    + destruct r as [| | | | | |i| | | | | | |[]|[]|[]|[]|[]|[]|[]]; try discriminate E.
      apply existsb_exists. exists i. split; [|apply only_refl].
      apply (held_flag 12) in Hr as [Hr%Nat.ltb_lt _]; [|done]. apply in_seq. lia.
    + apply not_true_iff_false. intros (i & _ & ->%only_eq)%existsb_exists. done.
Qed.

Lemma stage_array w : at_stage 13 w -> wp (run free_vcpus) (fun _ w' => at_stage 14 w') w.
Proof using PR CO.
  intros Hs. eapply wp_mono; [apply run_gone; [done|]|].
  - intros i. by apply (held_past 13); [|cbn; lia].
  - intros [] w' Hg. eapply stage_next; [done|]. eapply gone_ext; [exact Hg|]. intros r _.
    by destruct r as [| | | | | | | | | | | | |[]|[]|[]|[]|[]|[]|[]].
Qed.

Ltac stage_step L :=
  first [apply wp_bind; eapply wp_mono; [L|] | L];
  try match goal with Hs : at_stage _ ?w |- _ => clear dependent w end; try intros [] ?w ?Hs.

Lemma devices_gone w : at_stage 1 w -> wp (destroy_devices m) (fun _ w' => at_stage 9 w') w.
Proof using PR CO.
  intros Hs. unfold destroy_devices.
  stage_step ltac:(by apply (stage_plain 1 w PTest); [|lia|..]).
  stage_step ltac:(by apply (stage_plain 2 w PUart); [|lia|..]).
  stage_step ltac:(by apply (stage_virtio Blk 3)).
  stage_step ltac:(by apply (stage_virtio Net 4)).
  stage_step ltac:(by apply stage_iommu).
  stage_step ltac:(by apply stage_switch).
  apply wp_bind. eapply wp_mono; [apply (stage_one routing_destroy RRouting 7); try done|].
  - intros r. destruct r as [| | | | | | | | | | | | |[]|[]|[]|[]|[]|[]|[]]; by split.
  - intros Hf. split; [by rewrite (held_exact 7)|]. intros f.
    apply (held_past 7); [done|]. destruct f; cbn; lia.
  - intros [] w1 Hs1. by apply stage_pcie.
Qed.

Lemma machine_gone w : at_stage 9 w -> wp (destroy_machine m) (fun _ w' => at_stage 17 w') w.
Proof using PR CO.
  intros Hs. unfold destroy_machine.
  apply wp_bind. eapply wp_mono; [apply (stage_one memory_unmap RRamMap 9); try done|].
  { intros r. destruct r as [| | | | | | | | | | | | |[]|[]|[]|[]|[]|[]|[]]; by split. }
  { intros Hf. split; [by rewrite (held_exact 9)|by apply (held_space 9); [|lia]]. }
  clear dependent w. intros [] w Hs. stage_step ltac:(by apply stage_space).
  apply wp_bind. eapply wp_mono; [apply (stage_one aia_destroy RAia 11); try done|].
  { intros r. destruct r as [| | | | | | | | | | | | |[]|[]|[]|[]|[]|[]|[]]; by split. }
  { intros Hf. split_and!; [by rewrite (held_exact 11)| |by apply (held_past 11); [|cbn; lia]].
    intros f. apply (held_past 11); [done|]. destruct f; cbn; lia. }
  clear dependent w. intros [] w Hs. stage_step ltac:(by apply stage_vcpus).
  stage_step ltac:(by apply stage_array).
  apply wp_bind. eapply wp_mono; [apply (stage_one memory_unregister RRamSlot 14); try done|].
  { intros r. destruct r as [| | | | | | | | | | | | |[]|[]|[]|[]|[]|[]|[]]; by split. }
  { intros Hf. split; [by rewrite (held_exact 14)|].
    apply (held_dep 14 w RRamSlot); [done|done|by left|cbn; lia|done]. }
  clear dependent w. intros [] w Hs.
  apply wp_bind. eapply wp_mono; [apply (stage_one memory_destroy RRam 15); try done|].
  { intros r. destruct r as [| | | | | | | | | | | | |[]|[]|[]|[]|[]|[]|[]]; by split. }
  { intros Hf. split_and!; [by rewrite (held_exact 15)|..]; apply (held_past 15); try done; cbn; lia. }
  clear dependent w. intros [] w Hs. apply (stage_one vm_destroy RVm 16); try done.
  { intros r. destruct r as [| | | | | | | | | | | | |[]|[]|[]|[]|[]|[]|[]]; by split. }
  intros Hf. split_and!; [by rewrite (held_exact 16)|..]; intros; apply (held_past 16); try done;
    cbn; lia.
Qed.

(** Everything is taken down, each object after those that are built on it. *)
Lemma machine_destroy_spec : wp (vart_virt_machine_destroy m)
  (fun m' w' => m' = zero_machine /\ forall r, held w' r = false) w0.
Proof using PR CO.
  unfold vart_virt_machine_destroy. apply wp_bind.
  eapply wp_mono; [by apply stage_threads|]. intros [] w1 H1. apply wp_bind.
  eapply wp_mono; [by apply devices_gone|]. intros [] w2 H2. apply wp_bind.
  eapply wp_mono; [by apply machine_gone|]. intros [] w3 H3. apply wp_ret. split; [done|].
  intros r. apply (held_past 17); [done|].
  destruct r as [| | | | | | | | | | | | |[]|[]|[]|[]|[]|[]|[]]; cbn; lia.
Qed.
End Stages.

(** * Bringing the machine up *)

Lemma consistent_ext m h h' : consistent m h -> (forall r, h' r = h r) -> consistent m h'.
Proof. intros [] Hh. split; try done; intros *; rewrite ?Hh; eauto. Qed.

(** New objects keep the machine consistent when their flags are set and what they are built
    on is there. *)
Lemma consistent_add m m' h h' (new : resource -> bool) : consistent m h ->
  (forall r, h' r = h r || new r) ->
  (forall r, flag m r = true -> flag m' r = true) ->
  (forall r, exact r = true -> flag m' r = if new r then true else flag m r) ->
  (forall r, new r = true -> flag m' r = true) ->
  (forall n, new (RSlot (PPort n)) = true \/ new (RRealized (PPort n)) = true -> (n < 2)%nat) ->
  (forall p b d, new (RPlace p b d) = true -> new (RSlot p) = true /\ pci_part p = true) ->
  (forall r d, flag m' r = true -> flag m r = false -> d ∈ deps r -> flag m' d = true) ->
  m_address_space_initialized m' = true -> consistent m' h'.
Proof.
  intros [] Hh Hmono Hex Hnew Hport Hplace Hdeps Has. split; try done.
  - intros r Hr. rewrite Hh, (c_exact0 r Hr), (Hex r Hr). by destruct (flag m r), (new r).
  - intros r. rewrite Hh. intros [Hr|Hr]%orb_true_iff; auto.
  - intros n. rewrite !Hh, !orb_true_iff. intros Hn. destruct_or!; auto.
  - intros p b d. rewrite !Hh, !orb_true_iff. intros [Hp|Hp].
    + destruct (c_places0 p b d Hp). auto.
    + destruct (Hplace p b d Hp). auto.
  - intros r d Hr Hd. destruct (flag m r) eqn:E; [|by eapply Hdeps]. apply Hmono. by eapply c_deps0.
Qed.

Section Create.
Context {W : Type} `{PR : Promises W}.
Implicit Types w : W.

(** From [w] with the machine [m] to [w'] with [m']: the machine stays consistent, and only
    objects of the stages [K] were touched. *)
Record grown (K : list nat) (m : VartVirtMachine) (w : W) (m' : VartVirtMachine) (w' : W)
    : Prop := {
  gr_consistent : consistent m' (held w');
  gr_held r : stage r ∉ K -> held w' r = held w r;
  gr_flag r : stage r ∉ K -> flag m' r = flag m r;
  gr_count : 13%nat ∉ K -> m_vcpu_count m' = m_vcpu_count m;
}.

Lemma grown_refl K m w w' : consistent m (held w) -> (forall r, held w' r = held w r) ->
  grown K m w m w'.
Proof using Type. intros Hc Hh. split; try done. by eapply consistent_ext. Qed.
Lemma grown_trans K1 K2 m w m1 w1 m2 w2 : grown K1 m w m1 w1 -> grown K2 m1 w1 m2 w2 ->
  grown (K1 ++ K2) m w m2 w2.
Proof using Type.
  intros [? Hh1 Hf1 Hc1] [? Hh2 Hf2 Hc2]. split; [done|..];
    [intros r [Hr1 Hr2]%not_elem_of_app; by rewrite Hh2, Hh1
    |intros r [Hr1 Hr2]%not_elem_of_app; by rewrite Hf2, Hf1
    |intros [Hr1 Hr2]%not_elem_of_app; by rewrite Hc2, Hc1].
Qed.
Lemma grown_weaken K K' m w m' w' : grown K m w m' w' -> K ⊆ K' -> grown K' m w m' w'.
Proof using Type. intros [] Hsub. split; try done; [intros r Hr..|intros Hr]; auto. Qed.

Lemma attempt_spec c m k (Q : Z * VartVirtMachine -> W -> Prop) w :
  allowed c (held w) -> (forall r, destroys c r = false) ->
  (forall err w', err < 0 -> (forall r, held w' r = held w r) -> Q (err, m) w') ->
  (forall err w', 0 <= err -> answers c err (held w) ->
     (forall r, held w' r = held w r || creates c r) -> wp k Q w') ->
  wp (attempt c m k) Q w.
Proof using PR.
  intros Ha Hd Hfail Hok. unfold attempt. apply wp_bind.
  destruct (perform_spec c w Ha) as (err & w' & E & Hans & Hh). apply wp_ok. eexists _, _.
  split; [exact E|]. destruct (Z.ltb_spec err 0).
  - apply wp_ret, Hfail; [done|]. intros r. rewrite Hh. unfold account. rewrite Hd.
    destruct (Z.leb_spec 0 err); [lia|]. by rewrite andb_false_l, orb_false_r.
  - eapply Hok; [done..|]. intros r. rewrite Hh. unfold account. rewrite Hd.
    destruct (Z.leb_spec 0 err); [|lia]. done.
Qed.

(** A step that succeeded and is recorded in the machine. *)
Lemma grown_add K m m' w w' (new : resource -> bool) : consistent m (held w) ->
  (forall r, held w' r = held w r || new r) ->
  (forall r, new r = true -> stage r ∈ K) ->
  (forall r, stage r ∉ K -> flag m' r = flag m r) ->
  (forall r, flag m r = true -> flag m' r = true) ->
  (forall r, exact r = true -> flag m' r = if new r then true else flag m r) ->
  (forall r, new r = true -> flag m' r = true) ->
  (forall n, new (RSlot (PPort n)) = true \/ new (RRealized (PPort n)) = true -> (n < 2)%nat) ->
  (forall p b d, new (RPlace p b d) = true -> new (RSlot p) = true /\ pci_part p = true) ->
  (forall r d, flag m' r = true -> flag m r = false -> d ∈ deps r -> flag m' d = true) ->
  m_address_space_initialized m' = true ->
  (13%nat ∉ K -> m_vcpu_count m' = m_vcpu_count m) ->
  grown K m w m' w'.
Proof using PR.
  intros Hc Hh Hk. intros. split; [by eapply consistent_add| |done|done]. intros r Hr.
  destruct (new r) eqn:E; [by destruct Hr; apply Hk|]. by rewrite Hh, E, orb_false_r.
Qed.

(** What a part of the construction ends with; [S] holds when it succeeded. *)
Definition part_post (K : list nat) (m0 : VartVirtMachine) (w0 : W)
    (S : VartVirtMachine -> W -> Prop) (res : Z * VartVirtMachine) (w' : W) : Prop :=
  grown K m0 w0 res.2 w' /\ (0 <= res.1 -> S res.2 w').

Lemma grown_step K m0 w0 m w m' w' : grown K m0 w0 m w -> grown K m w m' w' ->
  grown K m0 w0 m' w'.
Proof using Type.
  intros H1 H2. eapply grown_weaken; [by eapply grown_trans|].
  intros x [?|?]%elem_of_app; done.
Qed.

Lemma attempt_part K c m m' k S m0 w0 w : grown K m0 w0 m w ->
  allowed c (held w) -> (forall r, destroys c r = false) ->
  (forall w', (forall r, held w' r = held w r || creates c r) -> grown K m w m' w') ->
  (forall w', (exists e, 0 <= e /\ answers c e (held w)) ->
     grown K m0 w0 m' w' -> (forall r, held w' r = held w r || creates c r) ->
     wp k (part_post K m0 w0 S) w') ->
  wp (attempt c m k) (part_post K m0 w0 S) w.
Proof using PR.
  intros HG Ha Hd Hgrow Hk. apply attempt_spec; [done|done| |].
  - intros err w' He Hh. split; [|cbn; lia]. eapply grown_step; [exact HG|].
    apply grown_refl; [apply HG|done].
  - intros err w' He Hans Hh. apply Hk; [by eauto| |done]. eapply grown_step; eauto.
Qed.

Lemma next_part_grows K r k S S' m0 w0 w : wp r (part_post K m0 w0 S) w ->
  (forall m' w', grown K m0 w0 m' w' -> S m' w' -> wp (k m') (part_post K m0 w0 S') w') ->
  wp (next_part r k) (part_post K m0 w0 S') w.
Proof using Type.
  intros Hr Hk. unfold next_part. apply wp_bind. eapply wp_mono; [exact Hr|].
  intros [err m'] w' [HG HS]. cbn [fst snd] in *. destruct (Z.ltb_spec err 0); [|by auto].
  apply wp_ret. split; [done|cbn; lia].
Qed.

Lemma part_weaken K K' r S m0 w0 m w : grown K m0 w0 m w -> K' ⊆ K ->
  wp r (part_post K' m w S) w -> wp r (part_post K m0 w0 S) w.
Proof using Type.
  intros HG Hsub Hr. eapply wp_mono; [exact Hr|]. intros [err m'] w' [HG' HS].
  split; [|done]. eapply grown_step; [exact HG|]. by eapply grown_weaken.
Qed.

Lemma part_done K S m0 w0 m w : grown K m0 w0 m w -> S m w ->
  wp (ret (0, m)) (part_post K m0 w0 S) w.
Proof using Type. intros. by apply wp_ret. Qed.

(** A device takes its place on a bus or is realized. *)
Lemma grown_device K m w w' p (new : resource -> bool) : consistent m (held w) ->
  (forall r, held w' r = held w r || new r) -> part_flag m p = true ->
  (forall r, new r = true -> dev_gone p r = true) -> part_stage p ∈ K ->
  (forall n, p = PPort n -> (n < 2)%nat) ->
  (forall b d, new (RPlace p b d) = true -> new (RSlot p) = true /\ pci_part p = true) ->
  grown K m w m w'.
Proof using PR.
  intros Hc Hh Hf Hnew HK Hn Hpl. apply grown_add with (new := new); try done.
  - intros r Hr%Hnew. destruct r; try discriminate Hr; apply bool_decide_eq_true in Hr as ->; done.
  - intros r Hr. destruct (new r) eqn:E; [|done]. apply Hnew in E. by destruct r.
  - intros r Hr%Hnew. destruct r; try discriminate Hr; apply bool_decide_eq_true in Hr as ->; done.
  - intros n [Hr|Hr]; apply Hnew, bool_decide_eq_true in Hr; by apply Hn.
  - intros q b d Hr. pose proof (Hnew _ Hr) as Hq. apply bool_decide_eq_true in Hq as ->.
    by eapply Hpl.
  - congruence.
  - apply Hc.
Qed.

(** A call that creates nothing. *)
Lemma grown_same K m w w' c : consistent m (held w) ->
  (forall r, held w' r = held w r || creates c r) -> (forall r, creates c r = false) ->
  grown K m w m w'.
Proof using Type.
  intros Hc Hh Hn. apply grown_refl; [done|]. intros r. by rewrite Hh, Hn, orb_false_r.
Qed.

Lemma owned_flag m h p : consistent m h -> part_flag m p = true -> owned p h.
Proof using Type.
  intros Hc Hp. unfold owned. destruct (owner p) as [r|] eqn:E; [|done].
  rewrite (c_exact _ _ Hc); destruct p; simplify_eq/=; done.
Qed.
Lemma no_device m h p : consistent m h -> part_flag m p = false ->
  h (RSlot p) = false /\ h (RRealized p) = false.
Proof using Type.
  intros Hc Hp. split; apply not_true_iff_false; intros Hr%(c_bound _ _ Hc); cbn in Hr; congruence.
Qed.

Lemma held_of m h r b : consistent m h -> exact r = true -> flag m r = b -> h r = b.
Proof using Type. intros Hc He <-. by apply (c_exact _ _ Hc). Qed.
Lemma held_as m h : consistent m h -> h RAddressSpace = true.
Proof using Type. intros Hc. eapply held_of; [done|done|]. exact (c_space _ _ Hc). Qed.

(** One new object, whose flag is set. *)
Lemma grown_object K m m' w w' r0 : consistent m (held w) ->
  (forall r, held w' r = held w r || only r0 r) -> exact r0 = true -> stage r0 ∈ K ->
  (forall d, d ∈ deps r0 -> flag m d = true) ->
  (forall r, exact r = true -> flag m' r = if only r0 r then true else flag m r) ->
  (forall r, exact r = false -> flag m r = true -> flag m' r = true) ->
  (forall r, stage r <> stage r0 -> flag m' r = flag m r) ->
  (13%nat ∉ K -> m_vcpu_count m' = m_vcpu_count m) -> grown K m w m' w'.
Proof using PR.
  intros Hc Hh He HK Hdeps Hex Hin Hst Hcount.
  assert (forall r, flag m r = true -> flag m' r = true) as Hmono.
  { intros r Hr. destruct (exact r) eqn:E; [|by apply Hin]. rewrite Hex by done.
    by destruct (only r0 r). }
  apply grown_add with (new := only r0); try done.
  - by intros r ->%only_eq.
  - intros r Hr. apply Hst. congruence.
  - intros r ->%only_eq. rewrite Hex by done. by rewrite only_refl.
  - intros n [<-%only_eq|<-%only_eq]; done.
  - by intros p b d <-%only_eq.
  - intros r d Hr Hno Hd. apply Hmono. destruct (exact r) eqn:E;
      [|by destruct r; try discriminate E; apply not_elem_of_nil in Hd].
    rewrite Hex in Hr by done. destruct (only r0 r) eqn:Eo; [|congruence].
    apply only_eq in Eo as ->. by apply Hdeps.
  - exact (Hmono RAddressSpace (c_space _ _ Hc)).
Qed.

Ltac by_resource :=
  let r := fresh in intros r; destruct r as [| | | | | | | | | | | | |[]|[]|[]|[]|[]|[]|[]];
  cbn; first [done | tauto | congruence | lia].

Ltac new_object r :=
  let w := fresh "w" in let Hh := fresh "Hh" in
  intros w Hh; eapply grown_object with (r0 := r); try done; try by_resource; try set_solver.

Lemma place_part K m0 w0 m w c p k S : grown K m0 w0 m w -> part_flag m p = true ->
  (c = bus_add p \/ exists b devfn, c = pci_add b p devfn /\ pci_part p = true /\
     held w (bus_owner b) = true) ->
  part_stage p ∈ K -> (forall n, p = PPort n -> (n < 2)%nat) -> held w (RSlot p) = false ->
  (forall w', (exists e, 0 <= e /\ answers c e (held w)) -> grown K m0 w0 m w' ->
     (forall r, held w' r = held w r || creates c r) -> wp k (part_post K m0 w0 S) w') ->
  wp (attempt c m k) (part_post K m0 w0 S) w.
Proof using PR.
  intros HG Hf Hcall HK Hn Hfree Hk. pose proof (gr_consistent _ _ _ _ _ HG) as Hc.
  assert (owned p (held w)) as Ho by (by eapply owned_flag).
  eapply attempt_part with (m' := m); [done| | | |done].
  - destruct Hcall as [->|(b & devfn & -> & _ & Hb)]; [|done]. split; [by eapply held_as|done].
  - by destruct Hcall as [->|(b & devfn & -> & _)].
  - intros w' Hh. eapply grown_device with (p := p); [done|exact Hh|done| |done|done|].
    + intros r. destruct Hcall as [->|(b & devfn & -> & _)]; cbn.
      * intros ->%only_eq. cbn. by apply bool_decide_true.
      * intros [->%only_eq| ->%only_eq]%orb_true_iff; cbn; by apply bool_decide_true.
    + intros b0 d0. destruct Hcall as [->|(b & devfn & -> & Hp & _)]; cbn; [by intros ?%only_eq|].
      intros _. split; [|done]. by rewrite only_refl.
Qed.

Lemma realize_part K m0 w0 m w p k S : grown K m0 w0 m w -> part_flag m p = true ->
  part_stage p ∈ K -> (forall n, p = PPort n -> (n < 2)%nat) -> held w (RSlot p) = true ->
  held w (RRealized p) = false ->
  (forall w', grown K m0 w0 m w' -> (forall r, held w' r = held w r || only (RRealized p) r) ->
     wp k (part_post K m0 w0 S) w') ->
  wp (attempt (realize p) m k) (part_post K m0 w0 S) w.
Proof using PR.
  intros HG Hf HK Hn Hslot Hreal Hk. pose proof (gr_consistent _ _ _ _ _ HG) as Hc.
  eapply attempt_part with (m' := m); [done| |done| |eauto].
  - split_and!; [by eapply owned_flag|done|done].
  - intros w' Hh. eapply grown_device with (p := p); [done|exact Hh|done| |done|done|].
    + intros r ->%only_eq. cbn. by apply bool_decide_true.
    + by intros b d ?%only_eq.
Qed.

Lemma add_root_complex_spec m w : consistent m (held w) -> m_pcie_initialized m = false ->
  wp (add_root_complex m) (part_post [8%nat] m w (fun m' _ => m_pcie_initialized m' = true)) w.
Proof using PR.
  intros Hc Hno. unfold add_root_complex. destruct (no_device m _ PPcie Hc Hno) as [Hslot Hreal].
  eapply attempt_part with (m' := m <| m_pcie_initialized := true |>);
    [by apply grown_refl| |done|new_object RPcie|].
  { split; [by eapply held_as|by eapply held_of]. }
  intros w1 _ G1 H1. apply place_part with (p := PPcie);
    [done|done|by left|set_solver|done|by rewrite H1, Hslot|].
  intros w2 _ G2 H2. apply realize_part;
    [done|done|set_solver|done|by rewrite H2, orb_true_r|by rewrite H2, H1, Hreal|].
  intros w3 G3 H3. by apply part_done.
Qed.

(** The IOMMU is on the root bus, in slot 0, and not realized yet. *)
Definition iommu_placed (m : VartVirtMachine) (w : W) : Prop :=
  m_riscv_iommu_initialized m = true /\ held w (RSlot PIommu) = true /\
  held w (RRealized PIommu) = false /\ held w (RPlace PIommu RootBus 0) = true.

Lemma add_riscv_iommu_spec config m w : consistent m (held w) -> m_pcie_initialized m = true ->
  m_riscv_iommu_initialized m = false ->
  wp (add_riscv_iommu config m) (part_post [5%nat] m w (fun m' w' =>
    cfg_enable_riscv_iommu config = true -> iommu_placed m' w')) w.
Proof using PR.
  intros Hc Hpcie Hno. unfold add_riscv_iommu. destruct (no_device m _ PIommu Hc Hno) as [Hslot Hreal].
  destruct (cfg_enable_riscv_iommu config) eqn:Ec; [|by apply part_done; [apply grown_refl|]].
  eapply attempt_part with (m' := m <| m_riscv_iommu_initialized := true |>);
    [by apply grown_refl| |done|new_object RIommu|].
  { split; [by eapply held_as|by eapply held_of]. }
  intros w1 _ G1 H1. apply place_part with (p := PIommu);
    [done|done| |set_solver|done|by rewrite H1, Hslot|].
  { right. eexists _, _. split; [done|]. split; [done|]. eapply held_of; [apply G1|done|done]. }
  intros w2 _ G2 H2. apply part_done; [done|]. intros _. split; [done|]. rewrite !H2, !H1, Hreal.
  by rewrite !orb_true_r.
Qed.

Lemma add_switch_spec config m w : consistent m (held w) -> m_pcie_initialized m = true ->
  m_pcie_switch_initialized m = false ->
  wp (add_switch config m) (part_post [6%nat] m w (fun m' _ =>
    cfg_enable_pcie_switch config = true -> m_pcie_switch_initialized m' = true)) w.
Proof using PR.
  intros Hc Hpcie Hno. unfold add_switch.
  destruct (cfg_enable_pcie_switch config) eqn:Ec; [|by apply part_done; [apply grown_refl|]].
  assert (forall p, p = PUpstream \/ p = PPort 0 \/ p = PPort 1 ->
    held w (RSlot p) = false /\ held w (RRealized p) = false) as Hfree.
  { intros p Hp. eapply no_device; [exact Hc|]. by destruct Hp as [->|[->| ->]]. }
  destruct (Hfree PUpstream) as [Hs0 Hr0], (Hfree (PPort 0)) as [Hs1 Hr1],
    (Hfree (PPort 1)) as [Hs2 Hr2]; auto.
  eapply attempt_part with (m' := m <| m_pcie_switch_initialized := true |>);
    [by apply grown_refl| |done|new_object RSwitch|].
  { split; by eapply held_of. }
  intros w1 _ G1 H1. apply place_part with (p := PUpstream);
    [done|done| |set_solver|done|by rewrite H1, Hs0|].
  { right. eexists _, _. split; [done|]. split; [done|]. eapply held_of; [apply G1|done|done]. }
  intros w2 _ G2 H2. apply realize_part;
    [done|done|set_solver|done|by rewrite H2, orb_true_r|by rewrite H2, H1, Hr0|].
  intros w3 G3 H3. apply place_part with (p := PPort 0);
    [done|done| |set_solver|naive_solver lia|by rewrite H3, H2, H1, Hs1|].
  { right. eexists _, _. split; [done|]. split; [done|]. eapply held_of; [apply G3|done|done]. }
  intros w4 _ G4 H4. apply place_part with (p := PPort 1);
    [done|done| |set_solver|naive_solver lia|by rewrite H4, H3, H2, H1, Hs2|].
  { right. eexists _, _. split; [done|]. split; [done|]. eapply held_of; [apply G4|done|done]. }
  intros w5 _ G5 H5. apply realize_part; [done|done|set_solver|naive_solver lia| | |].
  { by rewrite H5, H4, orb_true_r. }
  { by rewrite H5, H4, H3, H2, H1, Hr1. }
  intros w6 G6 H6. apply realize_part; [done|done|set_solver|naive_solver lia| | |].
  { by rewrite H6, H5, orb_true_r. }
  { by rewrite H6, H5, H4, H3, H2, H1, Hr2. }
  intros w7 G7 H7. by apply part_done.
Qed.

(** What connecting a virtio function needs. *)
Record connectable (config : VartVirtMachineConfig) (f : virtio) (m : VartVirtMachine) (w : W)
    : Prop := {
  cn_consistent : consistent m (held w);
  cn_virtio : virtio_flag m f = true;
  cn_irqfd : irqfd_flag m f = false;
  cn_context : context_flag m f = false;
  cn_free : held w (RSlot (part_of f)) = false /\ held w (RRealized (part_of f)) = false;
  cn_iommu : cfg_enable_riscv_iommu config = true -> m_riscv_iommu_initialized m = true;
  cn_switch : cfg_enable_pcie_switch config = true -> m_pcie_switch_initialized m = true;
}.

(** The place of the function was free, and is taken now. *)
Definition placed (config : VartVirtMachineConfig) (f : virtio) (w w' : W) : Prop :=
  (forall p, held w (RPlace p (virtio_bus config f) (virtio_devfn config f)) = false) /\
  held w' (RPlace (part_of f) (virtio_bus config f) (virtio_devfn config f)) = true.

Lemma virtio_part_flag m f : part_flag m (part_of f) = virtio_flag m f.
Proof using Type. by destruct f. Qed.

Lemma bus_held config f m w : connectable config f m w ->
  held w (bus_owner (virtio_bus config f)) = true.
Proof using Type.
  intros Hn. pose proof (cn_consistent _ _ _ _ Hn) as Hc. unfold virtio_bus.
  destruct (cfg_enable_pcie_switch config) eqn:E.
  - assert (held w RSwitch = true) as Hs by (eapply held_of; [done|done|exact (cn_switch _ _ _ _ Hn E)]).
    destruct f; [done|]. by destruct (has_blk config).
  - eapply held_of; [done|done|]. eapply (c_deps _ _ Hc (RVirtio f)); [exact (cn_virtio _ _ _ _ Hn)|by left].
Qed.

(** The interrupts of the function. *)
Lemma connect_interrupts config f gsi m w : connectable config f m w ->
  wp (let* irqfd := if m_irq_routing_initialized m then perform get_kvm_irqfd else ret 0 in
      if negb (irqfd =? 0) then
        attempt (irqfd_init f gsi) m (ret (0, set_irqfd f true m))
      else attempt (connect_msix_aia f) m (ret (0, m)))
    (part_post [part_stage (part_of f)] m w (fun m' w' =>
       virtio_flag m' f = true /\ context_flag m' f = false /\
       m_riscv_iommu_initialized m' = m_riscv_iommu_initialized m /\
       forall r, exact r = false -> held w' r = held w r)) w.
Proof using PR.
  intros Hn. pose proof (cn_consistent _ _ _ _ Hn) as Hc. apply wp_bind.
  assert (forall w1, (forall r, held w1 r = held w r) -> wp (attempt (connect_msix_aia f) m (ret (0, m)))
    (part_post [part_stage (part_of f)] m w (fun m' w' =>
       virtio_flag m' f = true /\ context_flag m' f = false /\
       m_riscv_iommu_initialized m' = m_riscv_iommu_initialized m /\
       forall r, exact r = false -> held w' r = held w r)) w1) as Haia.
  { intros w1 H1. eapply attempt_part with (m' := m); [by apply grown_refl| |done| |].
    - cbn. rewrite !H1. split; (eapply held_of; [done|done|]); [exact (cn_virtio _ _ _ _ Hn)|].
      eapply (c_deps _ _ Hc (RVirtio f)); [exact (cn_virtio _ _ _ _ Hn)|by right; left].
    - intros w' Hh. eapply grown_same; [by eapply consistent_ext|exact Hh|done].
    - intros w' _ G Hh. apply part_done; [done|].
      split_and!; [exact (cn_virtio _ _ _ _ Hn)|exact (cn_context _ _ _ _ Hn)|done|].
      intros r _. by rewrite Hh, H1, orb_false_r. }
  destruct (m_irq_routing_initialized m) eqn:Er; [|by apply wp_ret, Haia].
  apply perform_reads; [done|done| |].
  { cbn. eapply held_of; [done|done|]. eapply (c_deps _ _ Hc RRouting); [done|by left]. }
  intros z w1 _ H1. destruct (Z.eqb_spec z 0); cbn [negb]; [by apply Haia|].
  eapply attempt_part with (m' := set_irqfd f true m); [by apply grown_refl| |done| |].
  - cbn. rewrite !H1. split_and!; (eapply held_of; [done|done|]);
      [exact (cn_virtio _ _ _ _ Hn)|done|exact (cn_irqfd _ _ _ _ Hn)].
  - intros w' Hh. eapply grown_object with (r0 := RIrqfd f);
      [by eapply consistent_ext|exact Hh|done|set_solver| | | | |by destruct f].
    + intros d [->|[->|?%not_elem_of_nil]%elem_of_cons]%elem_of_cons;
        [exact (cn_virtio _ _ _ _ Hn)|done|done].
    + destruct f; by_resource.
    + destruct f; by_resource.
    + destruct f; by_resource.
  - intros w' _ G Hh. apply part_done; [done|]. split_and!.
    + pose proof (cn_virtio _ _ _ _ Hn). by destruct f.
    + pose proof (cn_context _ _ _ _ Hn). by destruct f.
    + by destruct f.
    + intros r Hr. rewrite Hh, H1. cbn [creates created one_of]. rewrite only_ne; [by rewrite orb_false_r|].
      by intros ->.
Qed.

Lemma grown_bound f m w w' : consistent m (held w) -> context_flag m f = true ->
  (forall r, held w' r = held w r || only (RBound f) r) ->
  grown [part_stage (part_of f)] m w m w'.
Proof using PR.
  intros Hc Hx Hh. apply grown_add with (new := only (RBound f)); try done.
  - intros r ->%only_eq. set_solver.
  - intros r Hr. rewrite only_ne; [done|]. by intros ->.
  - by intros r ->%only_eq.
  - by intros n [?%only_eq|?%only_eq].
  - congruence.
  - exact (c_space _ _ Hc).
Qed.

(** The IOMMU context of the function. *)
Lemma connect_context config f m0 w0 m w : grown [part_stage (part_of f)] m0 w0 m w ->
  virtio_flag m f = true -> context_flag m f = false ->
  held w (RSlot (part_of f)) = true -> held w (RRealized (part_of f)) = false ->
  (cfg_enable_riscv_iommu config = true -> m_riscv_iommu_initialized m = true) ->
  wp (if cfg_enable_riscv_iommu config then
        attempt (context_init f) m (
        let m := set_context f true m in
        attempt (iommu_bind f) m (ret (0, m)))
      else ret (0, m))
    (part_post [part_stage (part_of f)] m0 w0 (fun m' w' =>
       virtio_flag m' f = true /\
       forall r, exact r = false -> r <> RBound f -> held w' r = held w r)) w.
Proof using PR.
  intros HG Hv Hx Hslot Hreal Hi. pose proof (gr_consistent _ _ _ _ _ HG) as Hc.
  destruct (cfg_enable_riscv_iommu config); [|by apply part_done].
  eapply attempt_part with (m' := set_context f true m); [done| |done| |].
  - split; [by eapply held_as|by eapply held_of].
  - intros w' Hh. eapply grown_object with (r0 := RContext f);
      [done|exact Hh|done|set_solver| | | | |by destruct f].
    + intros d [->|[->|?%not_elem_of_nil]%elem_of_cons]%elem_of_cons; [done|by apply Hi|done].
    + destruct f; by_resource.
    + destruct f; by_resource.
    + destruct f; by_resource.
  - intros w1 _ G1 H1. pose proof (gr_consistent _ _ _ _ _ G1) as Hc1.
    assert (virtio_flag (set_context f true m) f = true) as Hv1 by (by destruct f).
    eapply attempt_part with (m' := set_context f true m); [done| |done| |].
    + assert (forall r, r <> RContext f -> held w1 r = held w r) as Hsame.
      { intros r Hr. rewrite H1. cbn [creates created one_of]. by rewrite only_ne, orb_false_r. }
      cbn [allowed]. rewrite (Hsame (RBound f)), (Hsame (RSlot _)), (Hsame (RRealized _)) by done.
      split_and!; [..|done|done].
      * eapply held_of; [exact Hc1|done|]. specialize (Hi eq_refl). by destruct f.
      * by eapply held_of; [exact Hc1|..].
      * eapply held_of; [exact Hc1|done|]. by destruct f.
      * apply not_true_iff_false. intros Hr%(c_bound _ _ Hc). cbn in Hr. congruence.
    + intros w' Hh. apply grown_bound with (f := f); [done|by destruct f|exact Hh].
    + intros w2 _ G2 H2. apply part_done; [done|]. split; [done|]. intros r Hr Hne.
      rewrite H2, H1. cbn [creates created one_of].
      rewrite !only_ne; [by rewrite !orb_false_r|done|by intros ->].
Qed.

Lemma connect_virtio_spec config f gsi m w : connectable config f m w ->
  wp (connect_virtio config f gsi m) (part_post [part_stage (part_of f)] m w (fun m' w' =>
    placed config f w w')) w.
Proof using PR.
  intros Hn. unfold connect_virtio.
  eapply next_part_grows; [by apply (connect_interrupts config)|].
  intros m1 w1 G1 (Hv1 & Hx1 & Hi1 & Hs1). destruct (cn_free _ _ _ _ Hn) as [Hslot Hreal].
  assert (pci_part (part_of f) = true) as Hpci by (by destruct f).
  assert (forall n, part_of f = PPort n -> (n < 2)%nat) as Hport by (by destruct f).
  apply place_part with (p := part_of f);
    [done|by rewrite virtio_part_flag| |set_solver|done|by rewrite Hs1|].
  { right. eexists _, _. split; [done|]. split; [done|].
    rewrite (gr_held _ _ _ _ _ G1); [by eapply bus_held|].
    assert (forall b, stage (bus_owner b) = 8%nat \/ stage (bus_owner b) = 6%nat) as Hb
      by (intros []; auto).
    destruct (Hb (virtio_bus config f)) as [-> | ->]; destruct f; set_solver. }
  intros w2 (e & He & Hans) G2 H2. eapply next_part_grows.
  { apply (connect_context config); try done.
    - rewrite H2. cbn [creates created one_of]. by rewrite only_refl, orb_true_r.
    - rewrite H2, Hs1, Hreal by done. cbn [creates created one_of]. by rewrite !only_ne.
    - intros Hcfg. rewrite Hi1. by apply (cn_iommu _ _ _ _ Hn). }
  intros m3 w3 G3 (Hv3 & Hs3).
  assert (forall r, exact r = false -> r <> RBound f -> held w3 r =
    held w r || creates (pci_add (virtio_bus config f) (part_of f) (virtio_devfn config f)) r) as H3.
  { intros r Hr Hne. by rewrite Hs3, H2, Hs1. }
  apply realize_part; [done|by rewrite virtio_part_flag|set_solver|done| | |].
  { rewrite H3 by done. cbn [creates created one_of]. by rewrite only_refl, orb_true_r. }
  { rewrite H3, Hreal by done. cbn [creates created one_of]. by rewrite !only_ne. }
  intros w4 G4 H4. apply part_done; [done|]. split.
  - intros p. apply not_true_iff_false. intros Hp. cbn in Hans.
    assert (e < 0); [|lia]. apply Hans. exists p. by rewrite Hs1.
  - rewrite H4, H3 by done. cbn [creates created one_of]. by rewrite only_refl, !orb_true_r.
Qed.

Lemma part_mono K (S S' : VartVirtMachine -> W -> Prop) r m0 w0 w :
  wp r (part_post K m0 w0 S) w -> (forall m' w', S m' w' -> S' m' w') ->
  wp r (part_post K m0 w0 S') w.
Proof using Type.
  intros Hr HS. eapply wp_mono; [exact Hr|]. intros res w' [HG Hs]. split; [done|auto].
Qed.

(** What the virtio functions are added to. *)
Record ready (config : VartVirtMachineConfig) (m : VartVirtMachine) : Prop := {
  rd_pcie : m_pcie_initialized m = true;
  rd_aia : m_aia_created m = true;
  rd_iommu : cfg_enable_riscv_iommu config = true -> m_riscv_iommu_initialized m = true;
  rd_switch : cfg_enable_pcie_switch config = true -> m_pcie_switch_initialized m = true;
}.

Lemma no_virtio m h f : consistent m h -> virtio_flag m f = false ->
  irqfd_flag m f = false /\ context_flag m f = false.
Proof using Type.
  intros Hc Hv. split; apply not_true_iff_false; intros Hf.
  - eapply (c_deps _ _ Hc (RIrqfd f) (RVirtio f)) in Hf; [cbn in Hf; congruence|by left].
  - eapply (c_deps _ _ Hc (RContext f) (RVirtio f)) in Hf; [cbn in Hf; congruence|by left].
Qed.

(** The function is initialized: it can be connected. *)
Lemma virtio_new config f c m w k S : consistent m (held w) -> ready config m ->
  virtio_flag m f = false -> (forall r, creates c r = only (RVirtio f) r) ->
  (forall r, destroys c r = false) -> allowed c (held w) ->
  (forall w', grown [part_stage (part_of f)] m w (set_virtio f true m) w' ->
     connectable config f (set_virtio f true m) w' ->
     (forall r, held w' r = held w r || only (RVirtio f) r) ->
     wp k (part_post [part_stage (part_of f)] m w S) w') ->
  wp (attempt c m k) (part_post [part_stage (part_of f)] m w S) w.
Proof using PR.
  intros Hc Hrd Hv Hcr Hd Ha Hk. destruct (no_virtio m _ f Hc Hv) as [Hirq Hctx].
  destruct (no_device m _ (part_of f) Hc) as [Hslot Hreal]; [by rewrite virtio_part_flag|].
  eapply attempt_part with (m' := set_virtio f true m); [by apply grown_refl|done|done| |].
  - intros w' Hh. eapply grown_object with (r0 := RVirtio f);
      [done|intros r; by rewrite Hh, Hcr|done|set_solver| | | | |by destruct f].
    + intros d [->|[->|?%not_elem_of_nil]%elem_of_cons]%elem_of_cons;
        [apply (rd_pcie _ _ Hrd)|apply (rd_aia _ _ Hrd)|done].
    + destruct f; by_resource.
    + destruct f; by_resource.
    + destruct f; by_resource.
  - intros w' _ G Hh. apply Hk; [done| |intros r; by rewrite Hh, Hcr]. split.
    + apply G.
    + by destruct f.
    + by destruct f.
    + by destruct f.
    + rewrite !Hh, Hslot, Hreal, !Hcr. by rewrite !only_ne.
    + intros Hi%(rd_iommu _ _ Hrd). by destruct f.
    + intros Hi%(rd_switch _ _ Hrd). by destruct f.
Qed.

Lemma placed_before config f w w1 w' : (forall r, held w1 r = held w r || only (RVirtio f) r) ->
  placed config f w1 w' -> placed config f w w'.
Proof using Type.
  intros Hh [Hfree Hp]. split; [|done]. intros p. specialize (Hfree p). rewrite Hh in Hfree.
  by apply orb_false_elim in Hfree as [? _].
Qed.

Lemma add_blk_spec config m w : consistent m (held w) -> ready config m ->
  m_virtio_blk_initialized m = false ->
  wp (add_blk config m) (part_post [3%nat] m w (fun m' w' =>
    has_blk config = true -> placed config Blk w w')) w.
Proof using PR.
  intros Hc Hrd Hv. unfold add_blk, has_blk.
  destruct (cfg_virtio_blk_path config) as [path|]; [|by apply part_done; [apply grown_refl|]].
  apply (virtio_new config Blk); try done.
  { split; [by eapply held_as|by eapply held_of]. }
  intros w1 G1 Hn H1. eapply part_weaken; [exact G1|done|].
  eapply part_mono; [by apply connect_virtio_spec|]. intros m' w' Hp _. by eapply placed_before.
Qed.

Definition has_net (config : VartVirtMachineConfig) : bool :=
  cfg_enable_virtio_net config || bool_decide (is_Some (cfg_virtio_net_tap config)).

Lemma add_net_spec config m w : consistent m (held w) -> ready config m ->
  m_virtio_net_initialized m = false ->
  wp (add_net config m) (part_post [4%nat] m w (fun m' w' =>
    has_net config = true -> placed config Net w w')) w.
Proof using PR.
  intros Hc Hrd Hv.
  assert (forall tap : option (list Z), wp (if bool_decide (is_Some tap) && cfg_virtio_net_backend_valid config
      then ret (-EINVAL, m)
      else
        attempt (net_init net_mac) m (
        let m := set_virtio Net true m in
        next_part
          match tap with
          | Some name => attempt (net_open_tap name) m (ret (0, m))
          | None =>
              if cfg_virtio_net_backend_valid config
              then attempt (net_attach_backend (cfg_virtio_net_backend_fd config)) m (ret (0, m))
              else ret (0, m)
          end
          (connect_virtio config Net (VART_VIRT_PCIE_IRQ_BASE + 4))))
    (part_post [4%nat] m w (fun m' w' => placed config Net w w')) w) as Hnet.
  { intros tap. destruct (_ && _); [apply wp_ret; split; [by apply grown_refl|cbn; lia]|].
    apply (virtio_new config Net); try done.
    { split; [by eapply held_as|by eapply held_of]. }
    intros w1 G1 Hn H1. assert (held w1 (RVirtio Net) = true) as Hnet.
    { rewrite H1, only_refl. apply orb_true_r. }
    eapply next_part_grows with (S := fun m' w' =>
      m' = set_virtio Net true m /\ forall r, held w' r = held w1 r).
    { assert (forall c, creates c = (fun _ => false) -> destroys c = (fun _ => false) ->
        allowed c (held w1) ->
        wp (attempt c (set_virtio Net true m) (ret (0, set_virtio Net true m)))
          (part_post [4%nat] m w (fun m' w' =>
             m' = set_virtio Net true m /\ forall r, held w' r = held w1 r)) w1) as Hcall.
      { intros c Hcr Hd Ha. eapply attempt_part with (m' := set_virtio Net true m);
          [done|done|by rewrite Hd| |].
        - intros w' Hh. eapply grown_same; [apply G1|exact Hh|by rewrite Hcr].
        - intros w' _ G Hh. apply part_done; [done|]. split; [done|]. intros r.
          by rewrite Hh, Hcr, orb_false_r. }
      destruct tap; [by apply Hcall|]. destruct (cfg_virtio_net_backend_valid config);
        [by apply Hcall|by apply part_done]. }
    intros m2 w2 G2 [-> H2]. eapply part_weaken; [exact G2|done|].
    eapply part_mono; [apply connect_virtio_spec|].
    - destruct Hn. split; rewrite ?H2; try done. by eapply consistent_ext.
    - intros m' w' Hp. eapply placed_before; [exact H1|].
      destruct Hp as [Hfree ?]. split; [|done]. intros p. by rewrite <- H2. }
  unfold add_net, has_net. specialize (Hnet (cfg_virtio_net_tap config)).
  destruct (cfg_enable_virtio_net config), (cfg_virtio_net_tap config);
    try (eapply part_mono; [exact Hnet|auto]).
  by apply part_done; [apply grown_refl|].
Qed.

(** The flag of a device that is part of the machine. *)
Lemma grown_plain m m' w w' c p : consistent m (held w) ->
  (forall r, held w' r = held w r || creates c r) -> (forall r, creates c r = false) ->
  (forall r, flag m' r = if dev_gone p r then true else flag m r) ->
  m_vcpu_count m' = m_vcpu_count m -> grown [part_stage p] m w m' w'.
Proof using PR.
  intros Hc Hh Hcr Hf Hcount.
  assert (forall r, dev_gone p r = true -> stage r = part_stage p /\ exact r = false) as Hdev.
  { intros r Hr. destruct r; try discriminate Hr; by apply bool_decide_eq_true in Hr as ->. }
  apply grown_add with (new := fun _ => false); try done.
  - intros r. by rewrite Hh, Hcr.
  - intros r Hr. rewrite Hf. destruct (dev_gone p r) eqn:E; [|done]. apply Hdev in E as [E _].
    destruct Hr. rewrite E. by left.
  - intros r Hr. rewrite Hf, Hr. by destruct (dev_gone p r).
  - intros r Hr. rewrite Hf. destruct (dev_gone p r) eqn:E; [|done]. apply Hdev in E as [_ ?].
    congruence.
  - by intros n [?|?].
  - intros r d Hr Hno Hd. rewrite Hf, Hno in Hr. destruct (dev_gone p r) eqn:E; [|done].
    destruct r; try discriminate E; by apply not_elem_of_nil in Hd.
  - change (flag m' RAddressSpace = true). rewrite Hf. exact (c_space _ _ Hc).
Qed.

Lemma add_console_uart_spec m w : consistent m (held w) -> m_aia_created m = true ->
  m_uart_initialized m = false ->
  wp (add_console_uart m) (part_post [2%nat] m w (fun _ _ => True)) w.
Proof using PR.
  intros Hc Haia Hno. unfold add_console_uart. destruct (no_device m _ PUart Hc Hno) as [Hslot Hreal].
  set (m1 := m <| m_uart_initialized := true |>).
  eapply attempt_part with (m' := m1); [by apply grown_refl|by eapply held_as|done| |].
  { intros w' Hh. eapply grown_plain with (p := PUart); [done|exact Hh|done|by_resource|done]. }
  intros w1 _ G1 H1. eapply attempt_part with (m' := m1); [done| |done| |].
  { eapply held_of; [apply G1|done|done]. }
  { intros w' Hh. eapply grown_same; [apply G1|exact Hh|done]. }
  intros w2 _ G2 H2. apply place_part with (p := PUart);
    [done|done|by left|set_solver|done|by rewrite H2, H1, Hslot|].
  intros w3 _ G3 H3. apply realize_part;
    [done|done|set_solver|done|by rewrite H3, orb_true_r|by rewrite H3, H2, H1, Hreal|].
  intros w4 G4 H4. by apply part_done.
Qed.

Lemma add_test_device_spec m w : consistent m (held w) -> m_test_device_initialized m = false ->
  wp (add_test_device m) (part_post [1%nat] m w (fun _ _ => True)) w.
Proof using PR.
  intros Hc Hno. unfold add_test_device. destruct (no_device m _ PTest Hc Hno) as [Hslot Hreal].
  set (m1 := m <| m_test_device_initialized := true |>).
  eapply attempt_part with (m' := m1); [by apply grown_refl|by eapply held_as|done| |].
  { intros w' Hh. eapply grown_plain with (p := PTest); [done|exact Hh|done|by_resource|done]. }
  intros w1 _ G1 H1. apply place_part with (p := PTest);
    [done|done|by left|set_solver|done|by rewrite H1, Hslot|].
  intros w2 _ G2 H2.
  assert (wp (attempt (realize PTest) m1 (ret (0, m1))) (part_post [1%nat] m w (fun _ _ => True)) w2)
    as Hr.
  { apply realize_part;
      [done|done|set_solver|done|by rewrite H2, orb_true_r|by rewrite H2, H1, Hreal|].
    intros w3 G3 H3. by apply part_done. }
  unfold attempt in Hr. apply wp_bind. revert Hr. unfold wp, bind.
  destruct (perform (realize PTest) w2) as [[err w3]| |]; [|done|done].
  destruct (err <? 0); cbn; intros [HG _]; by split.
Qed.

(** The parts in sequence. *)
Lemma next_part_seq K K' r k (S S' : VartVirtMachine -> W -> Prop) m w :
  wp r (part_post K m w S) w -> K ⊆ K' ->
  (forall m' w', grown K m w m' w' -> S m' w' -> wp (k m') (part_post K' m' w' S') w') ->
  wp (next_part r k) (part_post K' m w S') w.
Proof using Type.
  intros Hr Hsub Hk. unfold next_part. apply wp_bind. eapply wp_mono; [exact Hr|].
  intros [err m'] w' [HG HS]. cbn [fst snd] in *. apply grown_weaken with (K' := K') in HG as HG';
    [|done]. destruct (Z.ltb_spec err 0); [by apply wp_ret; split; [|cbn; lia]|].
  eapply part_weaken with (K' := K'); [exact HG'|done|]. apply Hk; [done|by apply HS].
Qed.

(** The stages [ks] have not begun. *)
Definition fresh (ks : list nat) (m : VartVirtMachine) : Prop :=
  forall r, stage r ∈ ks -> flag m r = false.

Lemma fresh_grown ks K m w m' w' : fresh ks m -> grown K m w m' w' ->
  (forall k, k ∈ ks -> k ∉ K) -> fresh ks m'.
Proof using Type. intros Hf HG Hd r Hr. rewrite (gr_flag _ _ _ _ _ HG) by auto. by apply Hf. Qed.
Lemma fresh_sub ks ks' m : fresh ks m -> ks' ⊆ ks -> fresh ks' m.
Proof using Type. intros Hf Hsub r Hr. apply Hf. by apply Hsub. Qed.

Lemma ready_grown config K m w m' w' : ready config m -> grown K m w m' w' ->
  (forall k, k ∈ [8; 11; 5; 6]%nat -> k ∉ K) -> ready config m'.
Proof using PR.
  intros [] HG Hd. assert (forall r, stage r ∈ [8; 11; 5; 6]%nat -> flag m' r = flag m r) as Hf.
  { intros r Hr. apply (gr_flag _ _ _ _ _ HG). auto. }
  split.
  - exact (eq_trans (Hf RPcie ltac:(set_solver)) rd_pcie0).
  - exact (eq_trans (Hf RAia ltac:(set_solver)) rd_aia0).
  - intros Hi. exact (eq_trans (Hf RIommu ltac:(set_solver)) (rd_iommu0 Hi)).
  - intros Hi. exact (eq_trans (Hf RSwitch ltac:(set_solver)) (rd_switch0 Hi)).
Qed.

Lemma iommu_placed_grown K m w m' w' : iommu_placed m w -> grown K m w m' w' -> 5%nat ∉ K ->
  iommu_placed m' w'.
Proof using Type.
  intros (Hf & Hs & Hr & Hp) HG HK. unfold iommu_placed.
  rewrite !(gr_held _ _ _ _ _ HG) by done. split; [|done].
  exact (eq_trans (gr_flag _ _ _ _ _ HG RIommu HK) Hf).
Qed.

(** Two functions are meant for one slot of the root bus. *)
Definition slot_conflict (config : VartVirtMachineConfig) : bool :=
  has_net config && negb (cfg_enable_pcie_switch config) &&
  (has_blk config || cfg_enable_riscv_iommu config).

Lemma conflict_refused config m w w0 : slot_conflict config = true ->
  (cfg_enable_riscv_iommu config = true -> iommu_placed m w) ->
  (has_blk config = true -> placed config Blk w0 w) ->
  ~ (forall p, held w (RPlace p (virtio_bus config Net) (virtio_devfn config Net)) = false).
Proof using Type.
  intros [[_ Hsw%negb_true_iff]%andb_true_iff Hor]%andb_true_iff Hi Hb Hfree.
  assert (forall f, virtio_bus config f = RootBus) as Hbus
    by (intros f; unfold virtio_bus; by rewrite Hsw).
  rewrite Hbus in Hfree. destruct (cfg_enable_riscv_iommu config) eqn:Ei.
  - destruct (Hi eq_refl) as (_ & _ & _ & Hp). specialize (Hfree PIommu). cbn in Hfree. congruence.
  - rewrite orb_false_r in Hor. destruct (Hb Hor) as [_ Hp]. specialize (Hfree PBlk).
    rewrite Hbus in Hp. cbn in Hp. rewrite Ei in Hp. cbn in Hp, Hfree. congruence.
Qed.

Definition device_stages : list nat := [1; 2; 3; 4; 5; 6; 8]%nat.

Lemma add_rest_spec config m w : consistent m (held w) -> ready config m -> fresh [1; 2]%nat m ->
  (cfg_enable_riscv_iommu config = true -> iommu_placed m w) ->
  wp (next_part (add_console_uart m) (fun m =>
      next_part
        (if cfg_enable_riscv_iommu config then attempt (realize PIommu) m (ret (0, m))
         else ret (0, m))
        (fun m => if cfg_enable_test_device config then add_test_device m else ret (0, m))))
    (part_post device_stages m w (fun _ _ => True)) w.
Proof using PR.
  intros Hc Hrd Hf Hi. eapply next_part_seq;
    [apply add_console_uart_spec; [done|apply (rd_aia _ _ Hrd)|by apply (Hf (RSlot PUart)); set_solver]|
     set_solver|].
  intros m1 w1 G1 _. assert (fresh [1]%nat m1) as Hf1
    by (eapply fresh_grown; [by eapply fresh_sub; [exact Hf|set_solver]|exact G1|set_solver]).
  eapply next_part_seq with (K := [5%nat]) (S := fun _ _ => True); [|set_solver|].
  - destruct (cfg_enable_riscv_iommu config) eqn:Ec;
      [|by apply part_done; [apply grown_refl; [apply G1|]|]].
    assert (iommu_placed m1 w1) as (Hflag & Hslot & Hreal & _)
      by (eapply iommu_placed_grown; [by apply Hi|exact G1|set_solver]).
    apply realize_part; [apply grown_refl; [apply G1|done]|done|set_solver|done|done|done|].
    intros w2 G2 _. by apply part_done.
  - intros m2 w2 G2 _. destruct (cfg_enable_test_device config);
      [|by apply part_done; [apply grown_refl; [apply G2|]|]].
    eapply part_weaken with (m := m2) (K' := [1%nat]); [apply grown_refl; [apply G2|done]|set_solver|].
    apply add_test_device_spec; [apply G2|].
    apply (fresh_grown [1%nat] [5%nat] m1 w1 m2 w2 Hf1 G2 ltac:(set_solver) (RSlot PTest)).
    set_solver.
Qed.

Lemma add_functions_spec config m w : consistent m (held w) -> ready config m ->
  fresh [1; 2; 3; 4]%nat m -> (cfg_enable_riscv_iommu config = true -> iommu_placed m w) ->
  wp (next_part (add_blk config m) (fun m =>
      next_part (add_net config m) (fun m =>
      next_part (add_console_uart m) (fun m =>
      next_part
        (if cfg_enable_riscv_iommu config then attempt (realize PIommu) m (ret (0, m))
         else ret (0, m))
        (fun m => if cfg_enable_test_device config then add_test_device m else ret (0, m))))))
    (part_post device_stages m w (fun _ _ => slot_conflict config = false)) w.
Proof using PR.
  intros Hc Hrd Hf Hi. eapply next_part_seq;
    [apply add_blk_spec; [done|done|by apply (Hf (RVirtio Blk)); set_solver]|set_solver|].
  intros m1 w1 G1 Hblk.
  assert (cfg_enable_riscv_iommu config = true -> iommu_placed m1 w1) as Hi1
    by (intros Hx; eapply iommu_placed_grown; [by apply Hi|exact G1|set_solver]).
  assert (ready config m1) as Hrd1 by (eapply ready_grown; [exact Hrd|exact G1|set_solver]).
  assert (fresh [1; 2; 4]%nat m1) as Hf1
    by (eapply fresh_grown; [by eapply fresh_sub; [exact Hf|set_solver]|exact G1|set_solver]).
  eapply next_part_seq;
    [apply add_net_spec; [apply G1|done|by apply (Hf1 (RVirtio Net)); set_solver]|set_solver|].
  intros m2 w2 G2 Hnet. eapply part_mono; [apply add_rest_spec|].
  - apply G2.
  - by eapply ready_grown; [exact Hrd1|exact G2|set_solver].
  - eapply fresh_grown; [by eapply fresh_sub; [exact Hf1|set_solver]|exact G2|set_solver].
  - intros Hx. eapply iommu_placed_grown; [by apply Hi1|exact G2|set_solver].
  - intros m' w' _. apply not_true_iff_false. intros Hx.
    eapply conflict_refused; [exact Hx|exact Hi1|exact Hblk|].
    apply Hnet. by apply andb_true_iff in Hx as [[? _]%andb_true_iff _].
Qed.

Lemma add_devices_spec config m w : consistent m (held w) -> m_aia_created m = true ->
  fresh device_stages m ->
  wp (add_devices config m) (part_post device_stages m w (fun _ _ => slot_conflict config = false)) w.
Proof using PR.
  intros Hc Haia Hf. unfold add_devices.
  eapply next_part_seq; [apply add_root_complex_spec; [done|by apply (Hf RPcie); set_solver]|set_solver|].
  intros m1 w1 G1 Hpcie.
  assert (fresh [1; 2; 3; 4; 5; 6]%nat m1) as Hf1
    by (eapply fresh_grown; [by eapply fresh_sub; [exact Hf|set_solver]|exact G1|set_solver]).
  eapply next_part_seq;
    [apply add_riscv_iommu_spec; [apply G1|done|by apply (Hf1 RIommu); set_solver]|set_solver|].
  intros m2 w2 G2 Hi2.
  assert (m_pcie_initialized m2 = true) as Hpcie2
    by (rewrite <- Hpcie; apply (gr_flag _ _ _ _ _ G2 RPcie); set_solver).
  assert (fresh [1; 2; 3; 4; 6]%nat m2) as Hf2
    by (eapply fresh_grown; [by eapply fresh_sub; [exact Hf1|set_solver]|exact G2|set_solver]).
  eapply next_part_seq;
    [apply add_switch_spec; [apply G2|done|by apply (Hf2 RSwitch); set_solver]|set_solver|].
  intros m3 w3 G3 Hsw3.
  assert (cfg_enable_riscv_iommu config = true -> iommu_placed m3 w3) as Hi3
    by (intros Hi; eapply iommu_placed_grown; [by apply Hi2|exact G3|set_solver]).
  apply add_functions_spec; [apply G3| | |done].
  - split; [|rewrite <- Haia|by intros Hi%Hi3; apply Hi|done].
    + rewrite <- Hpcie2. apply (gr_flag _ _ _ _ _ G3 RPcie). set_solver.
    + trans (m_aia_created m2); [apply (gr_flag _ _ _ _ _ G3 RAia); set_solver|].
      trans (m_aia_created m1); [apply (gr_flag _ _ _ _ _ G2 RAia); set_solver|].
      apply (gr_flag _ _ _ _ _ G1 RAia). set_solver.
  - eapply fresh_grown; [by eapply fresh_sub; [exact Hf2|set_solver]|exact G3|set_solver].
Qed.

Lemma create_memory_spec config m w : consistent m (held w) -> fresh [9; 14; 15; 16]%nat m ->
  wp (create_memory config m) (part_post [9; 14; 15; 16]%nat m w (fun m' _ =>
    m_vm_created m' = true)) w.
Proof using PR.
  intros Hc Hf. unfold create_memory. set (K := [9; 14; 15; 16]%nat).
  assert (held w RVm = false /\ held w RRam = false /\ held w RRamSlot = false /\
    held w RRamMap = false) as (Hvm & Hram & Hslot & Hmap).
  { split_and!; eapply held_of; try done; apply Hf; set_solver. }
  eapply attempt_part with (m' := m <| m_vm_created := true |>);
    [by apply grown_refl|done|done|new_object RVm|].
  intros w1 _ G1 H1. eapply attempt_part with (m' := m <| m_vm_created := true |> <| m_ram_created := true |>);
    [done|by cbn; rewrite H1, Hram|done|new_object RRam; apply G1|].
  intros w2 _ G2 H2. eapply attempt_part with (m' := m <| m_vm_created := true |>
    <| m_ram_created := true |> <| m_ram_registered := true |>); [done| |done|new_object RRamSlot|].
  { cbn. split_and!; [by rewrite H2, orb_true_r|by rewrite H2, H1, orb_true_r|].
    by rewrite H2, H1, Hslot. }
  { apply G2. }
  intros w3 _ G3 H3. eapply attempt_part with (m' := m <| m_vm_created := true |>
    <| m_ram_created := true |> <| m_ram_registered := true |> <| m_ram_mapped := true |>);
    [done| |done|new_object RRamMap|].
  { cbn. split_and!; [by rewrite H3, H2, orb_true_r|eapply held_as, G3|].
    by rewrite H3, H2, H1, Hmap. }
  { apply G3. }
  intros w4 _ G4 H4. by apply part_done.
Qed.

Lemma create_vcpus_spec n m w : consistent m (held w) -> m_vm_created m = true ->
  m_vcpu_array m = true ->
  wp (create_vcpus n m) (part_post [0; 12]%nat m w (fun m' _ =>
    m_vcpus_created m' = (m_vcpus_created m + n)%nat)) w.
Proof using PR.
  revert m w. induction n as [|n IH]; intros m w Hc Hvm Harr; cbn [create_vcpus].
  { apply part_done; [by apply grown_refl|lia]. }
  set (m1 := m <| m_vcpus_created ::= S |>).
  eapply attempt_part with (m' := m1); [by apply grown_refl| |done| |].
  - cbn. split_and!; [by eapply held_of..|]. eapply held_of; [done|done|]. apply Nat.ltb_irrefl.
  - intros w' Hh. eapply grown_add with (new := only (RVcpu (m_vcpus_created m)));
      [done|exact Hh|..]; try done.
    + intros r ->%only_eq. set_solver.
    + intros r Hr. destruct r; try done; destruct Hr; set_solver.
    + intros r Hr. destruct r; try done; apply Nat.ltb_lt in Hr; apply Nat.ltb_lt; cbn; lia.
    + intros r Hr. destruct r as [| | | | | |i| | | | | | |f|f|f|f| | |]; try done; try (by destruct f).
      cbn [flag]. destruct (only _ _) eqn:E.
      * apply only_eq in E. injection E as ->. apply Nat.ltb_lt. cbn. lia.
      * assert (i <> m_vcpus_created m) by (intros ->; by rewrite only_refl in E).
        change (m_vcpus_created m1) with (S (m_vcpus_created m)).
        destruct (Nat.ltb_spec i (S (m_vcpus_created m))), (Nat.ltb_spec i (m_vcpus_created m));
          lia || done.
    + intros r ->%only_eq. apply Nat.ltb_lt. cbn. lia.
    + by intros k [?%only_eq|?%only_eq].
    + intros r d Hr Hno Hd.
      destruct r as [| | | | | |i| | | | | | |[]|[]|[]|[]|[]|[]|[]]; cbn [flag] in Hr, Hno;
        try (change (flag m1) with (flag m) in Hr); try (exfalso; cbn in Hr, Hno; congruence);
        [|by apply not_elem_of_nil in Hd].
      apply elem_of_cons in Hd as [->|[->|?%not_elem_of_nil]%elem_of_cons]; done.
    + exact (c_space _ _ Hc).
  - intros w1 _ G1 H1. eapply part_weaken; [exact G1|done|].
    eapply part_mono; [by apply IH; [apply G1|..]|]. intros m' w' ->. cbn. lia.
Qed.

Lemma create_cpus_spec config m w : consistent m (held w) -> fresh [12; 13]%nat m ->
  m_vm_created m = true -> m_vcpus_created m = 0%nat ->
  wp (create_cpus config m) (part_post [0; 12; 13]%nat m w (fun m' _ =>
    m_vcpu_count m' = cfg_vcpu_count config /\ m_vcpus_created m' = cfg_vcpu_count config)) w.
Proof using PR.
  intros Hc Hf Hvm H0. unfold create_cpus.
  set (m1 := m <| m_vcpu_array := true |> <| m_vcpu_count := cfg_vcpu_count config |>).
  eapply attempt_part with (m' := m1); [by apply grown_refl| |done|new_object RVcpuArray|].
  { eapply held_of; [done|done|]. apply (Hf RVcpuArray). set_solver. }
  intros w1 _ G1 H1. eapply wp_mono; [by apply create_vcpus_spec; [apply G1|..]|].
  intros [err m'] w' [HG HS]. cbn [fst snd] in *. split.
  - eapply grown_step; [exact G1|]. eapply grown_weaken; [exact HG|set_solver].
  - intros He. cbn [fst snd] in *. split; [|by rewrite (HS He); cbn; rewrite H0].
    rewrite (gr_count _ _ _ _ _ HG); [done|set_solver].
Qed.

Lemma create_interrupts_spec m w : consistent m (held w) -> fresh [7; 11]%nat m ->
  m_vm_created m = true ->
  wp (create_interrupts m) (part_post [7; 11]%nat m w (fun m' _ => m_aia_created m' = true)) w.
Proof using PR.
  intros Hc Hf Hvm. unfold create_interrupts.
  assert (held w RAia = false /\ held w RRouting = false /\ held w RVm = true) as (Ha & Hr & Hv).
  { split_and!; eapply held_of; try done; apply Hf; set_solver. }
  set (m1 := m <| m_aia_created := true |>).
  eapply attempt_part with (m' := m1); [by apply grown_refl|done|done|new_object RAia|].
  intros w1 _ G1 H1. eapply attempt_part with (m' := m1); [done| |done| |].
  { eapply held_of; [apply G1|done|done]. }
  { intros w' Hh. eapply grown_same; [apply G1|exact Hh|done]. }
  intros w2 _ G2 H2. apply wp_bind.
  destruct (perform_spec routing_init w2) as (err & w3 & E & Hle & H3).
  { cbn. by rewrite !H2, !H1, Hv, Hr. }
  apply wp_ok. eexists _, _. split; [exact E|]. unfold account in H3. cbn in Hle, H3.
  destruct (Z.eqb_spec err 0) as [->|Hne].
  - cbn [negb andb].
    assert (grown [7; 11]%nat m w (m1 <| m_irq_routing_initialized := true |>) w3) as G3.
    { eapply grown_step; [exact G2|]. eapply grown_object with (r0 := RRouting);
        [apply G2|intros r; by rewrite H3|done|set_solver|set_solver|by_resource..|done]. }
    eapply attempt_part with (m' := m1 <| m_irq_routing_initialized := true |>); [done| |done| |].
    + eapply held_of; [apply G3|done|done].
    + intros w' Hh. eapply grown_same; [apply G3|exact Hh|done].
    + intros w4 _ G4 _. by apply part_done.
  - destruct (Z.leb_spec 0 err); [lia|].
    assert (grown [7; 11]%nat m w m1 w3) as G3.
    { eapply grown_step; [exact G2|]. apply grown_refl; [apply G2|]. intros r.
      by rewrite H3, orb_false_r. }
    destruct (Z.eqb_spec err (-ENOTSUP)); cbn [negb andb];
      [|apply wp_ret; split; [done|cbn; lia]].
    eapply attempt_part with (m' := m1); [done| |done| |].
    + eapply held_of; [apply G3|done|done].
    + intros w' Hh. eapply grown_same; [apply G3|exact Hh|done].
    + intros w4 _ G4 _. by apply part_done.
Qed.

(** A machine that is up: its vCPUs are all there. *)
Record up (m : VartVirtMachine) (w : W) : Prop := {
  up_consistent : consistent m (held w);
  up_initialized : m_initialized m = true;
  up_count : m_vcpu_count m = m_vcpus_created m;
}.

Lemma consistent_flags m m' h : consistent m h -> (forall r, flag m' r = flag m r) ->
  consistent m' h.
Proof using Type.
  intros [] Hf. split; [..|exact (eq_trans (Hf RAddressSpace) c_space0)]; intros *; rewrite ?Hf;
    eauto.
Qed.

Lemma created_same K m w m' w' : grown K m w m' w' -> 12%nat ∉ K ->
  m_vcpus_created m' = m_vcpus_created m.
Proof using Type.
  intros HG HK. assert (forall i, (i <? m_vcpus_created m')%nat = (i <? m_vcpus_created m)%nat) as Hi.
  { intros i. exact (gr_flag _ _ _ _ _ HG (RVcpu i) HK). }
  pose proof (Hi (m_vcpus_created m')) as H1. pose proof (Hi (m_vcpus_created m)) as H2.
  rewrite Nat.ltb_irrefl in H1, H2. symmetry in H1. apply Nat.ltb_ge in H1, H2. lia.
Qed.

Definition all_stages : list nat := seq 0 17.

Lemma create_steps_spec config m w : consistent m (held w) ->
  fresh [1; 2; 3; 4; 5; 6; 7; 8; 9; 11; 12; 13; 14; 15; 16]%nat m -> m_vcpus_created m = 0%nat ->
  wp (create_steps config m) (part_post all_stages m w (fun m' w' =>
    up m' w' /\ slot_conflict config = false /\ m_vcpu_count m' = cfg_vcpu_count config)) w.
Proof using PR.
  intros Hc Hf H0. unfold create_steps.
  assert (forall K, Forall (fun k => k < 17)%nat K -> K ⊆ all_stages) as Hall.
  { intros K HK k Hk. rewrite Forall_forall in HK. apply HK in Hk.
    apply list_elem_of_In, in_seq. lia. }
  eapply next_part_seq; [apply create_memory_spec; [done|by eapply fresh_sub; [exact Hf|set_solver]]|
    apply Hall; repeat constructor; lia|].
  intros m1 w1 G1 Hvm.
  assert (fresh [1; 2; 3; 4; 5; 6; 7; 8; 11; 12; 13]%nat m1) as Hf1
    by (eapply fresh_grown; [by eapply fresh_sub; [exact Hf|set_solver]|exact G1|set_solver]).
  eapply next_part_seq; [apply create_cpus_spec;
    [apply G1|by eapply fresh_sub; [exact Hf1|set_solver]|done|]|
    apply Hall; repeat constructor; lia|].
  { rewrite (created_same _ _ _ _ _ G1); [done|set_solver]. }
  intros m2 w2 G2 [Hcount Hcreated].
  assert (fresh [1; 2; 3; 4; 5; 6; 7; 8; 11]%nat m2) as Hf2
    by (eapply fresh_grown; [by eapply fresh_sub; [exact Hf1|set_solver]|exact G2|set_solver]).
  eapply next_part_seq; [apply create_interrupts_spec;
    [apply G2|by eapply fresh_sub; [exact Hf2|set_solver]|]|
    apply Hall; repeat constructor; lia|].
  { exact (eq_trans (gr_flag _ _ _ _ _ G2 RVm ltac:(set_solver)) Hvm). }
  intros m3 w3 G3 Haia.
  assert (fresh device_stages m3) as Hf3
    by (eapply fresh_grown; [by eapply fresh_sub; [exact Hf2|set_solver]|exact G3|set_solver]).
  eapply next_part_seq; [apply add_devices_spec; [apply G3|done|done]|
    apply Hall; repeat constructor; lia|].
  intros m4 w4 G4 Hslot. pose proof (gr_consistent _ _ _ _ _ G4) as Hc4.
  apply wp_bind. eapply wp_mono; [apply (run_gone execution_init); [done|by eapply held_as]|].
  intros [] w5 Hg. set (m5 := m4 <| m_initialized := true |>).
  assert (consistent m5 (held w5)) as Hc5.
  { eapply consistent_flags; [by eapply consistent_ext; [exact Hc4|exact Hg]|]. by_resource. }
  assert (m_vcpu_count m4 = cfg_vcpu_count config /\ m_vcpus_created m4 = cfg_vcpu_count config)
    as [Hn1 Hn2].
  { rewrite (gr_count _ _ _ _ _ G4), (gr_count _ _ _ _ _ G3) by set_solver. split; [done|].
    rewrite (created_same _ _ _ _ _ G4), (created_same _ _ _ _ _ G3) by set_solver. done. }
  apply wp_ret. split; [|intros _; split_and!; [split; [done|done|cbn; congruence]|done|done]].
  split; [done|intros r _; apply Hg|by_resource|done].
Qed.

(** Creation: a machine that is up, or nothing at all. *)
Lemma create_spec machine config w : (forall r, held w r = false) ->
  wp (vart_virt_machine_create machine config) (fun res w' =>
    (res.1 = 0 /\ up res.2 w' /\ exists c, config = Some c /\ slot_conflict c = false /\
       m_vcpu_count res.2 = cfg_vcpu_count c) \/
    (res.1 < 0 /\ forall r, held w' r = false)) w.
Proof using PR.
  intros Hnone. unfold vart_virt_machine_create.
  destruct config as [config|]; [|apply wp_ret; right; split; [cbn; lia|done]].
  destruct (_ || _); [apply wp_ret; right; split; [cbn; lia|done]|].
  apply wp_bind. unfold run at 1. apply wp_bind.
  destruct (perform_spec address_space_init w) as (z & w1 & E & Hz & H1); [by cbn|].
  apply wp_ok. eexists _, _. split; [exact E|]. apply wp_ret. cbn in Hz.
  assert (forall r, held w1 r = only RAddressSpace r) as Hw1.
  { intros r. rewrite H1. unfold account. cbn. rewrite Hnone. by destruct (Z.leb_spec 0 z); [|lia]. }
  apply wp_bind. eapply wp_mono; [apply (run_gone bus_init); [done|cbn; by rewrite Hw1]|].
  intros [] w2 H2. set (m0 := zero_machine <| m_enable_riscv_iommu := _ |>
    <| m_address_space_initialized := true |>).
  assert (forall r, held w2 r = only RAddressSpace r) as Hw2 by (intros r; by rewrite H2, Hw1).
  assert (forall r, flag m0 r = only RAddressSpace r) as Hflag.
  { intros r. destruct r as [| | | | | | | | | | | | |[]|[]|[]|[]|[]|[]|[]]; reflexivity. }
  assert (consistent m0 (held w2)) as Hc0.
  { split; intros *; rewrite ?Hw2, ?Hflag; try done.
    - by intros [?%only_eq|?%only_eq].
    - intros ->%only_eq ?%not_elem_of_nil. done. }
  apply wp_bind. eapply wp_mono; [apply create_steps_spec; [done| |done]|].
  { intros r Hr. rewrite Hflag. apply only_ne. intros ->. set_solver. }
  intros [err m'] w' [HG HS]. cbn [fst snd] in *. destruct (Z.ltb_spec err 0) as [Hlt|Hge].
  - apply wp_bind. eapply wp_mono; [by apply machine_destroy_spec; apply HG|]. intros m2 w3 [_ Hg].
    apply wp_ret. by right.
  - destruct (HS Hge) as (Hup & Hno & Hn). apply wp_ret. left. split_and!; [done|done|]. eauto.
Qed.

(** ** The machine while it is up *)

(** Only threads come and go. *)
Definition threads_only (m : VartVirtMachine) (w w' : W) : Prop :=
  (forall r, stage r <> 0%nat -> held w' r = held w r) /\
  forall i, held w' (RThread i) = true -> held w (RThread i) = true \/ (i < m_vcpu_count m)%nat.

Lemma stage_zero r : stage r = 0%nat -> exists i, r = RThread i.
Proof using Type.
  destruct r as [| | | | | | | | | | | | |[]|[]|[]|[]|[]|[]|[]]; intros E; try discriminate E; eauto.
Qed.

Lemma threads_up m w w' : up m w -> threads_only m w w' -> up m w'.
Proof using Type.
  intros [Hc Hi Hn] [Hs Ht]. split; [|done|done].
  split.
  - intros r Hr. rewrite Hs; [by apply (c_exact _ _ Hc)|]. intros [i ->]%stage_zero. done.
  - intros r Hr. destruct (decide (stage r = 0%nat)) as [[i ->]%stage_zero|Hne].
    + destruct (Ht i Hr) as [Hr'|Hlt]; [by apply (c_bound _ _ Hc)|].
      apply Nat.ltb_lt. by rewrite <- Hn.
    + rewrite Hs in Hr by done. by apply (c_bound _ _ Hc).
  - intros n. rewrite !Hs by done. apply (c_ports _ _ Hc).
  - intros p b d. rewrite !Hs by (by destruct p). apply (c_places _ _ Hc).
  - apply (c_deps _ _ Hc).
  - apply (c_space _ _ Hc).
Qed.

Lemma threads_refl m w w' : (forall r, held w' r = held w r) -> threads_only m w w'.
Proof using Type. intros Hh. split; [by auto|]. intros i. rewrite Hh. by left. Qed.
Lemma threads_trans m w w1 w2 : threads_only m w w1 -> threads_only m w1 w2 -> threads_only m w w2.
Proof using Type.
  intros [Hs1 Ht1] [Hs2 Ht2]. split; [intros r Hr; by rewrite Hs2, Hs1|].
  intros i Hi. destruct (Ht2 i Hi) as [Hi1|]; [|by right]. by apply Ht1.
Qed.

(** A call on a vCPU of the machine. *)
Lemma vcpu_call c i m w (Q : Z -> W -> Prop) : up m w -> (i < m_vcpu_count m)%nat ->
  c = vcpu_init_boot i \/ c = vcpu_start i \/ c = vcpu_join i \/ c = vcpu_request_stop i ->
  (forall z w', threads_only m w w' -> Q z w') -> wp (perform c) Q w.
Proof using PR.
  intros Hup Hi Hcall HQ.
  assert (held w (RVcpu i) = true) as Hv.
  { eapply held_of; [apply Hup|done|]. apply Nat.ltb_lt. by rewrite <- (up_count _ _ Hup). }
  destruct (perform_spec c w) as (z & w' & E & _ & Hh).
  { by destruct Hcall as [->|[->|[->| ->]]]. }
  apply wp_ok. eexists _, _. split; [exact E|]. apply HQ. split.
  - intros r Hr. rewrite Hh. unfold account.
    assert (creates c r = false /\ destroys c r = false) as [-> ->].
    { destruct Hcall as [->|[->|[->| ->]]]; cbn; try done; (split; [|done]) || (split; [done|]);
        apply only_ne; by intros ->. }
    by rewrite andb_false_r, orb_false_r.
  - intros j. rewrite Hh. unfold account.
    intros [[_ Hj]%andb_true_iff|[_ Hj]%andb_true_iff]%orb_true_iff; [by left|right].
    destruct Hcall as [->|[->|[->| ->]]]; cbn in Hj; try done. apply only_eq in Hj.
    by injection Hj as ->.
Qed.

Lemma init_boot_up m n i w : up m w -> (i + n <= m_vcpu_count m)%nat ->
  wp (init_boot_loop i n) (fun _ w' => threads_only m w w') w.
Proof using PR.
  revert i w. induction n as [|n IH]; intros i w Hup Hn; cbn; [by apply wp_ret, threads_refl|].
  apply wp_bind. eapply vcpu_call; [done|instantiate (1 := i); lia|by left|]. intros z w1 H1.
  destruct (z <? 0); [by apply wp_ret|].
  eapply wp_mono; [apply IH; [by eapply threads_up|lia]|]. intros. by eapply threads_trans.
Qed.

Lemma stop_started_up m i w : up m w -> (i <= m_vcpu_count m)%nat ->
  wp (stop_started i) (fun _ w' => threads_only m w w') w.
Proof using PR.
  revert w. induction i as [|i IH]; intros w Hup Hn; cbn; [by apply wp_ret, threads_refl|].
  apply wp_bind. unfold run. apply wp_bind. eapply vcpu_call; [done|instantiate (1 := i); lia|auto|].
  intros z w1 H1. apply wp_ret. eapply wp_mono; [apply IH; [by eapply threads_up|lia]|].
  intros. by eapply threads_trans.
Qed.

Lemma start_up m n i w : up m w -> (i + n <= m_vcpu_count m)%nat ->
  wp (start_loop i n) (fun _ w' => threads_only m w w') w.
Proof using PR.
  revert i w. induction n as [|n IH]; intros i w Hup Hn; cbn; [by apply wp_ret, threads_refl|].
  apply wp_bind. eapply vcpu_call; [done|instantiate (1 := i); lia|auto|]. intros z w1 H1.
  destruct (z <? 0).
  - apply wp_bind. eapply wp_mono; [apply stop_started_up; [by eapply threads_up|lia]|].
    intros [] w2 H2. apply wp_ret. by eapply threads_trans.
  - eapply wp_mono; [apply IH; [by eapply threads_up|lia]|]. intros. by eapply threads_trans.
Qed.

Lemma join_up m n i res w : up m w -> (i + n <= m_vcpu_count m)%nat ->
  wp (join_loop i n res) (fun _ w' => threads_only m w w') w.
Proof using PR.
  revert i res w. induction n as [|n IH]; intros i res w Hup Hn; cbn;
    [by apply wp_ret, threads_refl|].
  apply wp_bind. eapply vcpu_call; [done|instantiate (1 := i); lia|auto|]. intros z w1 H1.
  eapply wp_mono; [apply IH; [by eapply threads_up|lia]|]. intros. by eapply threads_trans.
Qed.

(** What may be done with a machine that is up. *)
Inductive machine_op := OpInitBoot (boot : bool) | OpStart (handler : bool) | OpJoin.
Definition machine_step (m : VartVirtMachine) (op : machine_op) : M W Z :=
  match op with
  | OpInitBoot boot => vart_virt_machine_init_boot m boot
  | OpStart handler => vart_virt_machine_start m handler
  | OpJoin => vart_virt_machine_join m
  end.
Fixpoint machine_run (m : VartVirtMachine) (ops : list machine_op) : M W unit :=
  match ops with
  | [] => ret tt
  | op :: ops => let* _ := machine_step m op in machine_run m ops
  end.

Lemma machine_run_up m ops w : up m w -> wp (machine_run m ops) (fun _ w' => up m w') w.
Proof using PR.
  revert w. induction ops as [|op ops IH]; intros w Hup; cbn; [by apply wp_ret|].
  apply wp_bind. eapply wp_mono with (Q := fun _ w' => threads_only m w w').
  2: { intros z w1 H1. apply IH. by eapply threads_up. }
  assert (wp (ret (-EINVAL)) (fun (_ : Z) w' => threads_only m w w') w) as Hret
    by (by apply wp_ret, threads_refl).
  destruct op; cbn; unfold vart_virt_machine_init_boot, vart_virt_machine_start,
    vart_virt_machine_join; rewrite (up_initialized _ _ Hup); cbn [negb orb].
  - destruct boot; [|done]. apply init_boot_up; [done|lia].
  - destruct handler; [|done]. apply start_up; [done|lia].
  - apply join_up; [done|lia].
Qed.
End Create.

(** * The record of the board's calls *)

(** The calls made so far, the latest first, with what they answered. *)
Abbreviation history := (list (call * Z)) (only parsing).
(** The objects that are due after these calls. *)
Fixpoint due (past : history) : list resource :=
  match past with
  | [] => []
  | (c, result) :: past =>
      (if 0 <=? result then created c else []) ++
      filter (fun r => destroys c r = false) (due past)
  end.
Definition member (l : list resource) : holdings := fun r => bool_decide (r ∈ l).
#[global] Arguments member : simpl never.

Lemma one_of_elem l r : one_of l r = true <-> r ∈ l.
Proof.
  induction l as [|r0 [|r1 l] IH].
  - by split; [|intros ?%not_elem_of_nil].
  - rewrite list_elem_of_singleton. apply only_eq.
  - change (only r0 r || one_of (r1 :: l) r = true <-> r ∈ r0 :: r1 :: l).
    rewrite orb_true_iff, IH, only_eq, (elem_of_cons (r1 :: l)). done.
Qed.

Lemma due_account c z past r :
  member (due ((c, z) :: past)) r = account c z (member (due past)) r.
Proof.
  apply eq_bool_prop_intro. unfold account, member. cbn [due].
  rewrite orb_True, !andb_True, negb_True, !bool_decide_spec, elem_of_app, list_elem_of_filter.
  assert (destroys c r = false <-> ~ destroys c r) as ->
    by (rewrite Is_true_true; by destruct (destroys c r)).
  assert (creates c r <-> r ∈ created c) as -> by (rewrite Is_true_true; apply one_of_elem).
  destruct (Z.leb_spec 0 z); cbn; [tauto|]. rewrite elem_of_nil. tauto.
Qed.

(** ** Whether a call is in order can be decided *)

Lemma absent_dec {A} (K : A -> resource) (un : resource -> option A) (P : A -> bool) l :
  (forall r a, un r = Some a <-> r = K a) ->
  Decision (forall a, P a = true -> member l (K a) = false).
Proof.
  intros Hun. destruct (existsb (fun r => match un r with Some a => P a | None => false end) l)
    eqn:E; [right|left].
  - intros Hno. apply existsb_exists in E as (r & Hr%list_elem_of_In & Hp).
    destruct (un r) as [a|] eqn:Ea; [|done]. apply Hun in Ea as ->.
    by apply (bool_decide_eq_false_1 _ (Hno a Hp)) in Hr.
  - intros a Ha. apply bool_decide_false. intros Hin%list_elem_of_In.
    apply not_true_iff_false in E. apply E, existsb_exists. exists (K a).
    by rewrite (proj2 (Hun _ a) eq_refl).
Defined.
Lemma absent_all_dec {A} (K : A -> resource) (un : resource -> option A) l :
  (forall r a, un r = Some a <-> r = K a) -> Decision (forall a, member l (K a) = false).
Proof.
  intros Hun. destruct (absent_dec K un (fun _ => true) l Hun); [left|right]; naive_solver.
Defined.

#[local] Instance no_slot_dec P l :
  Decision (forall p, P p = true -> member l (RSlot p) = false).
Proof.
  apply (absent_dec RSlot (fun r => match r with RSlot p => Some p | _ => None end)).
  intros []; naive_solver.
Defined.
#[local] Instance no_realized_dec P l :
  Decision (forall p, P p = true -> member l (RRealized p) = false).
Proof.
  apply (absent_dec RRealized (fun r => match r with RRealized p => Some p | _ => None end)).
  intros []; naive_solver.
Defined.
#[local] Instance no_slots_dec l : Decision (forall p, member l (RSlot p) = false).
Proof.
  apply (absent_all_dec RSlot (fun r => match r with RSlot p => Some p | _ => None end)).
  intros []; naive_solver.
Defined.
#[local] Instance nothing_realized_dec l : Decision (forall p, member l (RRealized p) = false).
Proof.
  apply (absent_all_dec RRealized (fun r => match r with RRealized p => Some p | _ => None end)).
  intros []; naive_solver.
Defined.
#[local] Instance no_vcpus_dec l : Decision (forall i, member l (RVcpu i) = false).
Proof.
  apply (absent_all_dec RVcpu (fun r => match r with RVcpu i => Some i | _ => None end)).
  intros []; naive_solver.
Defined.
#[local] Instance forall_virtio_dec (P : virtio -> Prop) `{!forall f, Decision (P f)} :
  Decision (forall f, P f).
Proof.
  destruct (decide (P Blk)), (decide (P Net)); [by left; intros []|right; auto..].
Defined.

#[export] Instance allowed_dec c l : Decision (allowed c (member l)).
Proof.
  destruct c; cbn [allowed]; unfold owned; try (destruct p; cbn [owner]); apply _.
Defined.

(** ** The board and its record *)

(** [host] says what each call answers, given all that went before.  A call that is not in
    order does not return. *)
Definition recorder (host : history -> call -> Z) : Components history := fun c past =>
  if decide (allowed c (member (due past)))
  then let result := host past c in Ok (result, (c, result) :: past)
  else UB.

(** The answers the board relies on. *)
Definition truthful (host : history -> call -> Z) : Prop :=
  forall past c, allowed c (member (due past)) ->
    answers c (host past c) (member (due past)).

(** For each object that was created, the call that gives it back was made later. *)
Definition given_back (past : history) : Prop :=
  forall newer c result older r, past = newer ++ (c, result) :: older ->
    0 <= result -> r ∈ created c ->
    exists c' result', (c', result') ∈ newer /\ destroys c' r = true.

Lemma recorder_promises host : truthful host ->
  @Promises history (recorder host) (fun past => member (due past)).
Proof.
  intros Ht c past Ha. eexists _, _. unfold perform, recorder.
  rewrite decide_True by done. split; [reflexivity|]. split; [by apply Ht|].
  intros r. apply due_account.
Qed.

Lemma due_later newer c result older r : 0 <= result -> r ∈ created c ->
  r ∈ due (newer ++ (c, result) :: older) \/
  exists c' result', (c', result') ∈ newer /\ destroys c' r = true.
Proof.
  intros Hz Hr. induction newer as [|[c1 z1] newer IH]; cbn [app due].
  - left. apply elem_of_app. left. by destruct (Z.leb_spec 0 result); [|lia].
  - destruct IH as [IH|(c' & z' & Hin & Hd)]; [|right; set_solver].
    destruct (destroys c1 r) eqn:E; [right; set_solver|]. left.
    apply elem_of_app. right. by apply list_elem_of_filter.
Qed.
Lemma nothing_due past : (forall r, member (due past) r = false) -> given_back past.
Proof.
  intros Hno newer c z older r -> Hz Hr.
  destruct (due_later newer c z older r Hz Hr) as [Hin|]; [|done].
  by apply (bool_decide_eq_false_1 _ (Hno r)) in Hin.
Qed.

(** A machine is created, used and destroyed. *)
Definition life_cycle {W} `{Components W} (machine : VartVirtMachine)
    (config : option VartVirtMachineConfig) (ops : list machine_op) : M W Z :=
  let* (err, m) := vart_virt_machine_create machine config in
  if err <? 0 then ret err
  else machine_run m ops ;;; let* _ := vart_virt_machine_destroy m in ret err.


(** Without the switch, a machine with a virtio network device and, besides, a virtio disk or
    the IOMMU cannot be created: the network device is meant for function 0 of slot 0 of the
    root bus, which is taken.  The creation fails and every object is given back. *)
Theorem slot_conflict_refused host machine config : truthful host ->
  slot_conflict config = true ->
  wp (vart_virt_machine_create (H := recorder host) machine (Some config))
    (fun res past => res.1 < 0 /\ given_back past) [].
Proof.
  intros PR%recorder_promises Hx. eapply wp_mono; [by apply create_spec|].
  intros [err m] w1 [(_ & _ & c & [= <-] & Hno & _)|[? Hg]]; [congruence|].
  split; [done|by apply nothing_due].
Qed.

(** * A board at work *)
Module BoardDemo.

(** The calls in [refused], by their number, fail; the others succeed, where a slot is free. *)
Definition demo_host (refused : list nat) (past : history) (c : call) : Z :=
  let h := member (due past) in
  match c with
  | get_on_bus p => if h (RSlot p) then 1 else 0
  | get_thread_live i => if h (RThread i) then 1 else 0
  | get_port_count => 2
  | address_space_init => 0
  | pci_add b _ devfn =>
      if existsb (fun r => match r with
                           | RPlace _ b' devfn' => bool_decide (b' = b) && (devfn' =? devfn)
                           | _ => false
                           end) (due past)
      then -EEXIST else 0
  | iommu_unbind f => if h (RRealized (part_of f)) then -EINVAL else 0
  | _ => if bool_decide (length past ∈ refused) then -ENOMEM else 0
  end.

Lemma demo_truthful refused : truthful (demo_host refused).
Proof.
  intros past c _. destruct c; cbn [answers demo_host]; try done.
  - by case_bool_decide.
  - intros [q Hq%bool_decide_eq_true_1]. rewrite (proj2 (existsb_exists _ _)); [lia|].
    exists (RPlace q b devfn). split; [by apply list_elem_of_In|].
    by rewrite bool_decide_true, Z.eqb_refl.
  - by intros ->.
  - by intros ->.
Qed.

Definition demo_config (net switch iommu : bool) : VartVirtMachineConfig :=
  mkConfig 0x8000000 2 true (Some [0x64]) false net switch iommu None false (-1).
Definition demo_ops : list machine_op := [OpInitBoot true; OpStart true; OpJoin; OpStart true].
Definition lived (config : VartVirtMachineConfig) (refused : list nat) : option (Z * history) :=
  match life_cycle (H := recorder (demo_host refused)) zero_machine (Some config) demo_ops [] with
  | Ok (err, past) => Some (err, past)
  | _ => None
  end.

(** With a disk, a network device, the switch and the IOMMU the machine comes up; when the
    tenth call is refused it does not. *)
Example lived_ok : option_map fst (lived (demo_config true true true) []) = Some 0.
Proof. vm_compute. reflexivity. Qed.
Example lived_refused :
  option_map fst (lived (demo_config true true true) [9%nat]) = Some (-ENOMEM).
Proof. vm_compute. reflexivity. Qed.

(** The functions are unbound from the IOMMU while they are still realized, which
    [vart_iommu_context_detach] refuses. *)
Example unbind_while_realized :
  option_map (fun r => filter (fun '(c, z) => z < 0) r.2) (lived (demo_config true true true) []) =
  Some [(iommu_unbind Net, -EINVAL); (iommu_unbind Blk, -EINVAL)].
Proof. vm_compute. reflexivity. Qed.


Lemma slot_conflict_refused_witness :
  wp (vart_virt_machine_create (H := recorder (demo_host [])) zero_machine
        (Some (demo_config true false false)))
    (fun res past => res.1 < 0 /\ given_back past) [].
Proof.
  apply (slot_conflict_refused (demo_host []) zero_machine (demo_config true false false));
    [apply demo_truthful|reflexivity].
Defined.
End BoardDemo.
